(* ===== verification/_CoqProject ===== *)
-Q . S2P
Prelude.v
Frames.v
Lists.v
AvlHeap.v
AvlTree.v
AvlRefine.v
AvlSpec.v
AvlOps.v
Trees.v
Memcookie.v
Types.v
Comparators.v
AvlTrace.v
IpCalc.v
IpLists.v
Hashing.v
Clock.v
Timer.v
TimerWalk.v
DuplicateSet.v
Packet.v
NetOut.v
Lsdb.v
Spf.v
LqHandler.v
LqEtxFf.v
Neighborhood.v
LinkSet.v
TcGraph.v
TcBorder.v
TcSet.v
TcInv.v
TcInput.v
TcProps.v
RoutingTable.v
ProcessRoutes.v
RibUpdate.v
KernelRoutes.v
RibRefresh.v
RibPaths.v
NodeSet.v
HnaSet.v
NbrTable.v
NbrProps.v
NbrEntry.v
RouteCalc.v
Mpr.v
Hello.v
LinkOps.v
LinkProps.v
FfPlugin.v
MidSet.v
MidProps.v
Announce.v
HelloInput.v
HelloProps.v
TcOutput.v
TcOutProps.v
Parser.v
TcSend.v
Strings.v
Orders.v
Autobuf.v
Template.v
Callbacks.v
LqEtxFpm.v
Bmf.v
Http.v
HttpRequest.v
HttpUrl.v
