(* ===== verification/Prelude.v ===== *)
(** * A verification of the OLSR routing daemon

    The program is [olsrd]: a node exchanges Hello, TC, MID and HNA messages
    with its neighbours, keeps the topology it learns in a link state database,
    and computes routes from it. This library models the parts of the daemon
    under [src/src] that carry its logic, as Rocq functions that read and write
    explicit states, and proves what makes them correct.

    ** How C is modelled

    A C integer of width [w] is a [Z] and the conversions [wrapu]/[wraps] of this
    file write out its wrap-around. A pointer is an [option loc]; objects live in
    finite maps from addresses ([gmap loc]). A function that changes state is an
    [SE S A]: it takes the state and returns the new state and a result, or [None]
    when the C program would dereference a null or dangling pointer, leave a
    buffer or fail an assertion. A theorem that a function "runs" therefore also
    says that it is memory safe. A loop or recursion that is not structural takes
    fuel; the theorems say how much is enough (the number of allocated nodes, of
    timers, of bytes of the packet), and running out of fuel is a [None], so that
    none of them holds by exhausting it. Random numbers, the results of system
    calls, plugins' callbacks and the current time are parameters. Logging and
    statistics that nothing reads are left out.

    ** The files

    - [Prelude]: fixed-width integers, list lemmas, the state monad, tactics.
    - [Lists]: [common/list.h], pointer by pointer.
    - [AvlHeap]: [common/avl.c] and [avl.h], pointer by pointer; [AvlTree] the
      algebra of balanced trees and their contexts; [AvlRefine] the rotations and
      the rebalancing loops on the pointer structure; [AvlSpec] the
      representation invariant [avl_rep], the class [AvlComp] that states what a
      tree requires of its comparator, and the lookups; [AvlOps] insertion and
      removal; [AvlTrace] whole sequences of operations.
    - [Trees]: the interface by which the other files use trees: a tree is the
      sorted list of its entries, which [AvlSpec], [AvlOps] and [AvlTrace] prove
      the pointer code to implement.
    - [Memcookie]: [olsr_memcookie.c], the block allocator.
    - [Types], [Comparators]: addresses, byte orders, [memcmp]; every comparator
      of [avl_comp.c], [avl_olsr_comp.c] and [ipcalc.h], with the instances of
      [AvlComp] for those that are orders.
    - [IpCalc], [IpLists], [Hashing]: [ipcalc.c/h], [olsr_ip_prefix_list.c] and
      [olsr_ip_acl.c], [hashing.c].
    - [Clock], [Timer], [TimerWalk]: [olsr_clock.c], and the timer wheel of
      [olsr_timer.c] with its walk.
      [HasTimers] is the interface by which other states contain the timers.
    - [DuplicateSet]: [duplicate_set.c].
    - [Packet]: the field readers and writers of [lq_packet.h], the message
      header of [parser.c] and [olsr.c], sequence numbers.
    - [NetOut]: output buffers and the address filter of [net_olsr.c], interface
      lookups of [interfaces.c]; [HasNet] is their interface.
    - [Lsdb], [Spf]: the data of [tc_set.h] and the shortest-path calculation of
      [olsr_spf.c].
    - [LqHandler], [LqEtxFf]: the interface of link quality handlers of
      [lq_plugin.h] as a class, the Freifunk ETX handler and the hop count handler
      as instances; packet window, quality and cost of the ETX handler.
    - [Neighborhood], [LinkSet]: the data of [neighbor_table.h], [link_set.h] and
      [mid_set.h] with their lookups, link status and best links.
    - [TcGraph], [TcBorder], [TcSet], [TcInv], [TcInput], [TcProps]: the topology
      set of [tc_set.c]: the shape of nodes and edges and its invariant; the
      border flags of fragmented messages; the operations on nodes and edges and
      the handler [olsr_input_tc]; what each of them does to the state; the
      theorems.
    - [RoutingTable], [ProcessRoutes]: [routing_table.c] and [process_routes.c]:
      paths, routes, the election of the best path, the change queue and the
      export functions as the class [RouteExport]; [RibUpdate], [RibRefresh],
      [RibPaths] hold the invariant of the table, the interface locks and the
      kernel, and what each step does to it; [KernelRoutes] the export functions
      of [linux/kernel_routes.c] as an instance, netlink as a parameter.
    - [NodeSet]: networks and aliases of a node and its deletion ([hna_set.c],
      [mid_set.c], [tc_set.c]); [HnaSet]: the handler of HNA messages;
      [Announce]: the HNA and MID messages of this router.
    - [RouteCalc]: [olsr_calculate_routing_table] of [olsr_spf.c] as a whole.
    - [Mpr]: the selection of multipoint relays of [lq_mpr.c].
    - [Hello]: HELLO messages: [deserialize_hello] of [process_package.c] and the
      message of [generate_hello] of [link_set.c].
    - [Parser]: [parser.c]: the receive loop, the packet loop, dispatch and
      forwarding.
    - [NbrTable], [NbrProps], [NbrEntry]: the operations of [neighbor_table.c]; the
      invariant of neighbours, 2-hop neighbours and their connectors; neighbours
      and their edges in the topology set.
    - [LinkOps], [LinkProps], [FfPlugin]: the operations of [link_set.c] and the
      cost updates of [lq_plugin.c]; the packet parser and the timer of the
      Freifunk ETX plugin.
    - [Frames]: a class for operations that keep a part of the state; [MidSet],
      [MidProps]: insertion of aliases and the handler of MID messages of
      [mid_set.c].
    - [HelloInput], [HelloProps]: the processing of HELLO messages of
      [process_package.c] and of pending changes of [olsr.c]; the state [router]
      joins link set, neighbours, topology, routes and timers.
    - [TcOutput], [TcOutProps], [TcSend]: the fragmented TC messages of this router
      ([olsr_output_lq_tc_internal] of [tc_set.c]); the loop over the fragments with
      sequence numbers, scopes and output buffers ([olsr_output_lq_tc]).
    - [Strings], [Autobuf], [Template]: [common/string.c], the growing buffers
      and the templates of [common/autobuf.c]; [Orders]: which order each
      comparator of the AVL trees is.
    - [Callbacks]: the change events of [olsr_callbacks.c].
    - [LqEtxFpm]: the fixed-point ETX plugin of [lib/lq_etx_fpm] and the rating of
      link qualities of [lq_plugin.c].
    - [Bmf]: how the multicast plugin recognises packets ([PacketHistory.c] and
      [Packet.c] of [lib/bmf]).
    - [Http], [HttpRequest], [HttpUrl]: the parser of HTTP requests, the
      authorization and the decoding of addresses of [olsr_comport_http.c].

    ** What is proved

    - Trees and lists: any legal sequence of AVL operations on pointers returns
      what it returns on a sorted list; which order each comparator is, and which
      two are none.
    - Routes: the calculation is Dijkstra's algorithm, with costs, hop counts
      and order of the results; the next hop is that of the cheapest route where
      every first hop has a link, and of some route otherwise; a whole run brings
      the kernel to one route for each prefix that a node with a next hop
      announces, by a best path, if the kernel accepts every request, and keeps
      table, locks, kernel and topology consistent.
    - Networks: after a HNA message the networks of its originator are those the
      message announces (for IPv6: the IPv4 comparator of the trees of paths is
      no order, see [Comparators]); HNA and MID messages of this router.
    - Topology: the handler of TC messages is memory safe and keeps every edge
      paired with its inverse, under conditions that the code does not check (four
      bytes of body, border flags of addresses, no router that lists itself);
      which edges a message or the garbage collection revokes; the borders of
      fragments separate their addresses.
    - Relays: which neighbours are selected, and when a change is reported.
    - Neighbourhood: the pointer structure of neighbours and 2-hop neighbours
      stands for a relation, which every operation changes as it should and a
      HELLO extends by the neighbours it names; neighbours and their edges are
      added and removed together; the TC messages of this router divide the
      neighbours into parts and announce each part in a message that fits the
      buffer, up to the output of every interface.
    - Packets: receiving arbitrary bytes terminates and faults at most inside a
      registered function, which gets only messages that end inside the packet;
      the messages that are processed are those of the packet, if none is shorter
      than its header; what is forwarded, to
      whom and with which header; headers, HELLO messages, times and netmasks
      survive a round trip; output buffers are a queue.
    - Link quality: quality and cost of the ETX handlers stay in their ranges and
      are the fractions they should be; the timer of the plugin brings the costs
      of links to the edges of the topology, or divides by zero in exactly one
      case.
    - Text: growing buffers behave like byte lists, also when memory runs out;
      filling in a template is substitution; bounded string operations stay in
      bounds; HTTP requests are parsed inside the received bytes and read back
      what a client wrote; decoding an address inverts its encoding.
    - Events and packets: change events end although hooks may raise more; the
      table-driven checksum is CRC-32 and the history of packets is a map.
    - Duplicates: the bit windows refine sets of message numbers; no message but
      the first is accepted twice.
    - Timers and clock: which callbacks a walk calls, that due timers fire, with
      callbacks that start, stop and change timers themselves ([TimerWalk]); the
      bounds of the jitter, that the internal clock never goes back.
    - Errors: inputs on which the code leaves a buffer, frees memory twice or
      computes what it does not mean to, stated as theorems about the same
      definitions.

    ** Bounds and fuel

    - AVL operations: the number of allocated nodes plus one.
    - The timer walk: more than twice the number of timers per slot; the loop
      over the slots has the bound of the code, 1024.
    - The packet loop: the length of the packet plus one, because every message
      advances by at least one byte.
    - TC messages: the number of bytes of the message, because every neighbour
      has at least four; [olsr_add_tc_entry] and [olsr_add_tc_edge_entry] call
      themselves at most once, because the inner call finds what the outer one
      has inserted. HELLO messages: the size of the message and of a block.
    - The shortest-path loop: the number of nodes plus one, because every round
      moves one node to the path list. Path costs have 32 bits; the theorem
      requires that the number of nodes times the largest link cost fits.

    ** Not modelled

    - The operating system layer but for the routes it exports, sockets, the
      configuration of interfaces, start-up and shutdown ([main.c]): system calls.
    - Configuration ([olsr_cfg.c], [olsr_cfg_gen.c]), logging, the plugin loader
      and everything that only prints: text in and out through libc.
    - Of [olsr_comport_http.c] the sites and connections, the text commands of
      [olsr_comport_txt.c].
    - The link quality plugin with floating point numbers and the hysteresis of
      the hop count plugin: floating point.
    - The other plugins under [lib/] (name service, multicast tunnels, bridges to
      other routing daemons, information servers), the GUIs and [contrib/]:
      applications on top of the daemon with state and protocols of their own.
    - Registration of timer classes and memory cookies at start-up, where the
      model starts with them in place.
*)
From Stdlib Require Import ZArith Lia.
From Stdlib Require Export Sorted.
From stdpp Require Export base tactics numbers option gmap sets fin_maps list.
#[export] Set Warnings "-clear-no-such-hyp".

Open Scope Z_scope.

Create HintDb olsr.

(** ** Fixed-width integers

    A C integer of width [w] is a [Z]; the conversions below write out the
    wrap-around that the C conversions and unsigned operations perform. *)

Definition wrapu (w x : Z) : Z := x mod 2 ^ w.
Definition wraps (w x : Z) : Z :=
  let y := x mod 2 ^ w in if y <? 2 ^ (w - 1) then y else y - 2 ^ w.

Abbreviation u8 := (wrapu 8).
Abbreviation u16 := (wrapu 16).
Abbreviation u32 := (wrapu 32).
Abbreviation s8 := (wraps 8).
Abbreviation s16 := (wraps 16).
Abbreviation s32 := (wraps 32).

Definition is_u (w x : Z) : Prop := 0 <= x < 2 ^ w.

Lemma wrapu_range w x : 0 <= w -> is_u w (wrapu w x).
Proof. intros Hw. apply Z.mod_pos_bound, Z.pow_pos_nonneg; lia. Qed.

Lemma wrapu_id w x : is_u w x -> wrapu w x = x.
Proof. intros H. by apply Z.mod_small. Qed.

Lemma wraps_id w x :
  1 <= w -> - 2 ^ (w - 1) <= x < 2 ^ (w - 1) -> wraps w x = x.
Proof.
  intros Hw Hx. unfold wraps.
  assert (H2 : 2 ^ w = 2 * 2 ^ (w - 1)).
  { rewrite <- Z.pow_succ_r by lia. f_equal. lia. }
  assert (0 < 2 ^ (w - 1)) by (apply Z.pow_pos_nonneg; lia).
  rewrite H2. destruct (Z.lt_ge_cases x 0) as [Hn|Hp].
  - assert (x mod (2 * 2 ^ (w - 1)) = x + 2 * 2 ^ (w - 1)) as ->.
    { symmetry. apply Z.mod_unique with (q := -1); lia. }
    destruct (Z.ltb_spec (x + 2 * 2 ^ (w - 1)) (2 ^ (w - 1))); lia.
  - rewrite Z.mod_small by lia.
    destruct (Z.ltb_spec x (2 ^ (w - 1))); lia.
Qed.

Lemma u32_succ x : u32 (u32 x + 1) = u32 (x + 1).
Proof. unfold wrapu. by rewrite Zplus_mod_idemp_l. Qed.
Lemma u32_pred x : u32 (u32 x - 1) = u32 (x - 1).
Proof. unfold wrapu. by rewrite Zminus_mod_idemp_l. Qed.

(** Linear arithmetic after turning [/] and [mod] into their equations. *)
Ltac mlia := Z.div_mod_to_equations; lia.

(** Removes the wrap-arounds of the goal that [tac] shows to be without effect,
    the innermost ones first. *)
Ltac unwrap tac :=
  repeat match goal with
  | |- context [wrapu ?w ?x] =>
    lazymatch x with context [wrapu] => fail | _ => rewrite (wrapu_id w x) by (unfold is_u; tac) end
  end.

(** Case analysis on every boolean comparison of the goal. *)
Ltac case_cmp :=
  repeat match goal with
  | |- context [?a <? ?b] => destruct (Z.ltb_spec a b)
  | |- context [?a <=? ?b] => destruct (Z.leb_spec a b)
  | |- context [?a =? ?b] => destruct (Z.eqb_spec a b)
  end.

(** ** Lists *)
Lemma app_cons_inj_nodup {A} (x : A) l1 l2 k1 k2 :
  NoDup (l1 ++ x :: l2) -> l1 ++ x :: l2 = k1 ++ x :: k2 -> l1 = k1 /\ l2 = k2.
Proof.
  revert k1. induction l1 as [|y l1 IH]; intros [|z k1] ND; simpl in *; intros [=]; subst.
  - done.
  - apply NoDup_cons in ND as [[] _]. set_solver.
  - apply NoDup_cons in ND as [[] _]. set_solver.
  - apply NoDup_cons in ND as [_ ND]. by destruct (IH k1 ND) as [-> ->].
Qed.

Lemma ssorted_app {A} (R : A -> A -> Prop) l1 l2 :
  StronglySorted R (l1 ++ l2) <->
  StronglySorted R l1 /\ StronglySorted R l2 /\ (forall x y, x ∈ l1 -> y ∈ l2 -> R x y).
Proof.
  induction l1 as [|a l1 IH]; simpl.
  { split; [intros; split_and!; [constructor|done|set_solver]|tauto]. }
  split.
  - intros [Hs Hf]%StronglySorted_inv. rewrite Forall_forall in Hf. apply IH in Hs as (S1 & S2 & S3). split_and!.
    + constructor; [done|]. apply Forall_forall. set_solver.
    + done.
    + intros x y [->|Hx]%elem_of_cons Hy; [apply Hf; set_solver|by apply S3].
  - intros ([S1 F]%StronglySorted_inv & S2 & S3). constructor.
    + apply IH. split_and!; [done..|]. intros. apply S3; [by right|done].
    + rewrite Forall_forall in *. intros x [Hx|Hx]%elem_of_app; [by apply F|apply S3; [left|done]].
Qed.

Lemma ssorted_cons {A} (R : A -> A -> Prop) x l :
  StronglySorted R (x :: l) <-> (forall y, y ∈ l -> R x y) /\ StronglySorted R l.
Proof.
  split.
  - intros [Hs Hf]%StronglySorted_inv. by rewrite Forall_forall in Hf.
  - intros [Hf Hs]. constructor; [done|]. by apply Forall_forall.
Qed.

Lemma ssorted_ext {A} (R R' : A -> A -> Prop) l :
  (forall x y, x ∈ l -> y ∈ l -> R x y -> R' x y) -> StronglySorted R l -> StronglySorted R' l.
Proof.
  induction l as [|x l IH]; [constructor|]. intros H [H1 H2]%ssorted_cons. apply ssorted_cons. split.
  - intros y Hy. apply H; [left|by right|by apply H1].
  - apply IH; [|done]. intros a b Ha Hb. apply H; by right.
Qed.

Lemma filter_ext_in {A} (P Q : A -> Prop) `{forall x, Decision (P x)} `{forall x, Decision (Q x)} (l : list A) :
  (forall x, x ∈ l -> P x <-> Q x) -> filter P l = filter Q l.
Proof.
  induction l as [|x l IH]; [done|]. intros HPQ. rewrite !filter_cons, IH by (intros y Hy; apply HPQ; by right).
  specialize (HPQ x ltac:(left)). do 2 case_decide; tauto.
Qed.

Section filter_ends.
Context {A : Type} (P : A -> Prop) `{forall x, Decision (P x)}.

Lemma last_filter_Some l x :
  last (filter P l) = Some x -> exists l1 l2, l = l1 ++ x :: l2 /\ P x /\ Forall (fun y => ~ P y) l2.
Proof.
  induction l as [|y l IH] using rev_ind; [done|]. rewrite filter_app, filter_cons, filter_nil.
  case_decide.
  - rewrite last_snoc. intros [= ->]. by exists l, [].
  - rewrite app_nil_r. intros (l1 & l2 & -> & Hx & F)%IH. exists l1, (l2 ++ [y]).
    rewrite <- app_assoc. split_and!; [done..|]. apply Forall_app. by repeat constructor.
Qed.

Lemma filter_none l : Forall (fun y => ~ P y) l -> filter P l = [].
Proof. induction 1; [done|]. by rewrite filter_cons_False. Qed.

Lemma filter_all l : Forall P l -> filter P l = l.
Proof. induction 1; [done|]. rewrite filter_cons_True by done. by f_equal. Qed.

Lemma last_filter_None l : last (filter P l) = None -> Forall (fun y => ~ P y) l.
Proof.
  intros Hl%last_None. apply Forall_forall. intros x Hx HP.
  assert (Hin : x ∈ filter P l) by (by apply list_elem_of_filter). rewrite Hl in Hin. set_solver.
Qed.

Lemma last_filter_app l1 x l2 : P x -> last (filter P (l1 ++ x :: l2)) = last (filter P (x :: l2)).
Proof. intros Hx. rewrite filter_app, (filter_cons_True P x) by done. by rewrite last_app_cons. Qed.

Lemma head_filter_Some l x :
  head (filter P l) = Some x -> exists l1 l2, l = l1 ++ x :: l2 /\ P x /\ Forall (fun y => ~ P y) l1.
Proof.
  induction l as [|y l IH]; [done|]. rewrite filter_cons. case_decide.
  - intros [= ->]. by exists [], l.
  - intros (l1 & l2 & -> & Hx & F)%IH. exists (y :: l1), l2. split_and!; [done..|]. by constructor.
Qed.

Lemma head_filter_None l : head (filter P l) = None -> Forall (fun y => ~ P y) l.
Proof.
  intros Hl%head_None. apply Forall_forall. intros x Hx HP.
  assert (Hin : x ∈ filter P l) by (by apply list_elem_of_filter). rewrite Hl in Hin. set_solver.
Qed.

Lemma head_filter_app l1 x l2 : P x -> head (filter P (l1 ++ x :: l2)) = head (filter P (l1 ++ [x])).
Proof.
  intros Hx. rewrite !filter_app, !(filter_cons_True P x), filter_nil by done. by destruct (filter P l1).
Qed.
End filter_ends.

(** ** Memory

    Addresses are positive numbers and a C pointer is an [option loc], [None]
    being the null pointer. *)
Abbreviation loc := positive.

(** ** State and error monad

    A C function that reads and writes memory of type [S] and returns an [A]
    is an [SE S A]. [None] is a run that has no defined result: the program
    dereferenced a null or dangling pointer, or an assertion failed. *)
Definition SE (S A : Type) : Type := S -> option (S * A).

Section se_monad.
Context {S : Type}.

#[global] Instance se_ret : MRet (SE S) := fun A a s => Some (s, a).
#[global] Instance se_bind : MBind (SE S) := fun A B f m s =>
  match m s with Some (s', a) => f a s' | None => None end.

Definition se_get {A} (f : S -> A) : SE S A := fun s => Some (s, f s).
Definition se_mod (f : S -> S) : SE S unit := fun s => Some (f s, tt).
Definition se_fail {A} : SE S A := fun _ => None.
Definition se_opt {A} (o : option A) : SE S A := fun s => (fun a => (s, a)) <$> o.
(** [assert(b)] *)
Definition se_assert (b : bool) : SE S unit := if b then mret tt else se_fail.

Lemma bind_run {A B} (m : SE S A) (f : A -> SE S B) s s' a :
  m s = Some (s', a) -> (m ≫= f) s = f a s'.
Proof. intros H. unfold mbind, se_bind. by rewrite H. Qed.

Lemma bind2_run {A B C} (m : SE S A) (f : A -> SE S B) (g : B -> SE S C) s s' a :
  m s = Some (s', a) -> ((m ≫= f) ≫= g) s = (f a ≫= g) s'.
Proof. intros H. unfold mbind, se_bind. by rewrite H. Qed.

Lemma bind_inv {A B} (m : SE S A) (f : A -> SE S B) s r :
  (m ≫= f) s = Some r -> exists s' a, m s = Some (s', a) /\ f a s' = Some r.
Proof.
  unfold mbind, se_bind. destruct (m s) as [[s' a]|]; [|done]. eauto.
Qed.

(** The state after a run, to evaluate runs on concrete states. *)
Definition se_state {A} (m : SE S A) (s : S) : S := match m s with Some (s', _) => s' | None => s end.
Definition se_runs {A} (m : SE S A) (s : S) : bool := match m s with Some _ => true | None => false end.

Lemma se_state_run (m : SE S unit) s : se_runs m s = true -> m s = Some (se_state m s, tt).
Proof. unfold se_runs, se_state. by destruct (m s) as [[s' []]|]. Qed.
Lemma se_state_eq {A} (m : SE S A) s s' a : m s = Some (s', a) -> s' = se_state m s.
Proof. unfold se_state. by intros ->. Qed.
Lemma se_stuck {A} (m : SE S A) s : se_runs m s = false -> m s = None.
Proof. unfold se_runs. by destruct (m s). Qed.
End se_monad.

Lemma insert_as_alter {A} (f : A -> A) (m : gmap loc A) p x : m !! p = Some x -> <[p := f x]> m = alter f p m.
Proof.
  intros H. apply map_eq. intros q. destruct (decide (p = q)) as [<-|]; [by rewrite lookup_insert_eq, lookup_alter_eq, H|].
  by rewrite lookup_insert_ne, lookup_alter_ne.
Qed.

(** ** Concrete maps and lists *)
(** Turns a lookup in a concrete map into the cases of its entries. *)
Ltac map_cases H :=
  apply elem_of_map_to_list in H; vm_compute in H;
  repeat (apply elem_of_cons in H as [H|H]; [inversion H; clear H; subst|]);
  try (by apply elem_of_nil in H).

Ltac list_cases H :=
  simpl in H; repeat (apply elem_of_cons in H as [H|H]; [subst|]); try (by apply elem_of_nil in H).
