(* ===== verification/Frames.v ===== *)
(** * What an operation leaves alone

    [Keeps f m]: whenever the operation [m] returns, the view [f] of the state is
    what it was before. Unlike the specifications of the operations, this
    needs no invariant; it is proved by the shape of the operation. *)
From S2P Require Import Prelude.

Class Keeps {S A B : Type} (f : S -> B) (m : SE S A) : Prop := keeps : forall s s' a, m s = Some (s', a) -> f s' = f s.
#[global] Hint Mode Keeps - - - + + : typeclass_instances.

Section keeps.
Context {S B : Type} (f : S -> B).

#[global] Instance keeps_ret {A} (a : A) : Keeps f (mret a).
Proof. by intros s s' b [= <- _]. Qed.
#[global] Instance keeps_bind {A C} (m : SE S A) (k : A -> SE S C) : Keeps f m -> (forall a, Keeps f (k a)) -> Keeps f (m ≫= k).
Proof. intros H1 H2 s s' c (s1 & a & E1 & E2)%bind_inv. by rewrite (H2 a s1 s' c E2), (H1 s s1 a E1). Qed.
#[global] Instance keeps_get {A} (g : S -> A) : Keeps f (se_get g).
Proof. by intros s s' b [= <- _]. Qed.
#[global] Instance keeps_opt {A} (o : option A) : Keeps f (se_opt o).
Proof. intros s s' b. unfold se_opt. destruct o; by intros [= <- _]. Qed.
#[global] Instance keeps_fail {A} : Keeps (A := A) f se_fail.
Proof. by intros s s' b. Qed.
#[global] Instance keeps_assert b : Keeps f (se_assert b).
Proof. by intros s s' []; destruct b; intros [= <-]. Qed.
Lemma keeps_mod g : (forall s, f (g s) = f s) -> Keeps f (se_mod g).
Proof. intros H s s' b [= <- _]. apply H. Qed.
#[global] Instance keeps_if {A} (b : bool) (m1 m2 : SE S A) : Keeps f m1 -> Keeps f m2 -> Keeps f (if b then m1 else m2).
Proof. by destruct b. Qed.
#[global] Instance keeps_match {A C} (o : option C) (k : C -> SE S A) (m : SE S A) : (forall c, Keeps f (k c)) -> Keeps f m ->
  Keeps f (match o with Some c => k c | None => m end).
Proof. by destruct o. Qed.
#[global] Instance keeps_match' {A C} (o : option C) (k : C -> SE S A) (m : SE S A) : (forall c, Keeps f (k c)) -> Keeps f m ->
  Keeps f (match o with None => m | Some c => k c end).
Proof. by destruct o. Qed.
(** An access to memory: it goes wrong where there is nothing. *)
Lemma keeps_fmap {A C} (h : S -> option C) (g : S -> C -> S) (r : S -> C -> A) : (forall s c, f (g s c) = f s) ->
  Keeps f (fun s => (fun c => (g s c, r s c)) <$> h s).
Proof. intros H s s' a. destruct (h s) as [c|]; [|done]. intros [= <- _]. apply H. Qed.
End keeps.

(** A change of the state that the view does not see. *)
#[global] Hint Extern 1 (Keeps _ (se_mod _)) => (apply keeps_mod; reflexivity) : typeclass_instances.
Ltac keeps_prim := intros ? ? ?; cbv [fmap option_fmap option_map]; repeat case_match; intros; simplify_eq/=; try done.
