(* ===== verification/Lists.v ===== *)
(** * Intrusive doubly linked lists ([src/src/common/list.h])

    The memory is a map from addresses to [list_entity] cells; every operation
    reads and writes single fields in the order of the C code. [dlist h hd l]
    says that the ring of cells starting at the list head [hd] holds exactly the
    nodes [l], in this order; the theorems show that each operation implements
    the corresponding operation on the sequence [l] and touches nothing else. *)
From S2P Require Import Prelude.

(** [struct list_entity] *)
Record list_entity := mkEnt { next : option loc; prev : option loc }.

Abbreviation lheap := (gmap loc list_entity).

(** ** Field access *)
Definition rd_next (p : loc) : SE lheap (option loc) := fun h =>
  match h !! p with Some e => Some (h, next e) | None => None end.
Definition rd_prev (p : loc) : SE lheap (option loc) := fun h =>
  match h !! p with Some e => Some (h, prev e) | None => None end.
Definition wr_next (p : loc) (v : option loc) : SE lheap unit := fun h =>
  match h !! p with Some e => Some (<[p := mkEnt v (prev e)]> h, tt) | None => None end.
Definition wr_prev (p : loc) (v : option loc) : SE lheap unit := fun h =>
  match h !! p with Some e => Some (<[p := mkEnt (next e) v]> h, tt) | None => None end.

(** A pointer that is dereferenced must not be null. *)
Definition deref (p : option loc) : SE lheap loc := se_opt p.

(** ** Operations *)
Definition list_init_head (head : loc) : SE lheap unit :=
  wr_prev head (Some head);; wr_next head (Some head).

Definition list_init_node (entity : loc) : SE lheap unit :=
  wr_prev entity None;; wr_next entity None.

Definition __list_add (pr nx : option loc) (new : loc) : SE lheap unit :=
  wr_next new nx;;
  wr_prev new pr;;
  n ← deref nx; wr_prev n (Some new);;
  p ← deref pr; wr_next p (Some new).

Definition list_add_head (head new : loc) : SE lheap unit :=
  n ← rd_next head; __list_add (Some head) n new.

Definition list_add_tail (head new : loc) : SE lheap unit :=
  p ← rd_prev head; __list_add p (Some head) new.

Definition list_add_before (before new : loc) : SE lheap unit :=
  p ← rd_prev before; __list_add p (Some before) new.

Definition list_add_after (after new : loc) : SE lheap unit :=
  n ← rd_next after; __list_add (Some after) n new.

Definition __list_remove (pr nx : option loc) : SE lheap unit :=
  p ← deref pr; wr_next p nx;;
  n ← deref nx; wr_prev n pr.

Definition list_remove (entity : loc) : SE lheap unit :=
  p ← rd_prev entity;
  n ← rd_next entity;
  __list_remove p n;;
  wr_next entity None;;
  wr_prev entity None.

Definition list_is_empty (head : loc) : SE lheap bool :=
  n ← rd_next head;
  p ← rd_prev head;
  mret (bool_decide (n = Some head) && bool_decide (p = Some head)).

Definition list_node_added (node : loc) : SE lheap bool :=
  n ← rd_next node;
  p ← rd_prev node;
  mret (bool_decide (n ≠ None) && bool_decide (p ≠ None)).

Definition list_is_first (head entity : loc) : SE lheap bool :=
  n ← rd_next head; mret (bool_decide (n = Some entity)).

Definition list_is_last (head entity : loc) : SE lheap bool :=
  p ← rd_prev head; mret (bool_decide (p = Some entity)).

Definition list_merge (add_to remove_from : loc) : SE lheap unit :=
  e ← list_is_empty remove_from;
  if (e : bool) then mret tt else
    an ← rd_next add_to; rp ← rd_prev remove_from;
    anp ← deref an; wr_prev anp rp;;
    rp ← rd_prev remove_from; an ← rd_next add_to;
    rpp ← deref rp; wr_next rpp an;;
    rn ← rd_next remove_from; wr_next add_to rn;;
    rn ← rd_next remove_from; rnp ← deref rn; wr_prev rnp (Some add_to);;
    list_init_head remove_from.

(** ** Rings *)
Definition nxt (h : lheap) (p : loc) : option loc := h !! p ≫= next.
Definition prv (h : lheap) (p : loc) : option loc := h !! p ≫= prev.

(** Every two neighbours of [xs] point at each other. *)
Fixpoint links (h : lheap) (xs : list loc) : Prop :=
  match xs with
  | x :: ((y :: _) as t) => (nxt h x = Some y /\ prv h y = Some x) /\ links h t
  | _ => True
  end.

(** The ring that starts at the head [hd] holds the nodes [l]. *)
Definition dlist (h : lheap) (hd : loc) (l : list loc) : Prop :=
  NoDup (hd :: l) /\ links h (hd :: l ++ [hd]).

Lemma links_split h A x B : links h (A ++ x :: B) <-> links h (A ++ [x]) /\ links h (x :: B).
Proof.
  induction A as [|a [|b A] IH]; simpl.
  - tauto.
  - tauto.
  - simpl in IH. rewrite IH. tauto.
Qed.

Lemma links_mono h h' xs :
  (forall x, x ∈ removelast xs -> nxt h x = nxt h' x) ->
  (forall x, x ∈ tail xs -> prv h x = prv h' x) ->
  links h xs -> links h' xs.
Proof.
  induction xs as [|x [|y t] IH]; [done..|].
  intros Hn Hp [[H1 H2] H3]. split.
  - rewrite <- Hn, <- Hp; [done| |]; simpl; set_solver.
  - apply IH; [| |done]; intros z Hz; [apply Hn|apply Hp]; simpl; set_solver.
Qed.

Lemma nxt_insert h p e q : nxt (<[p:=e]> h) q = if decide (p = q) then next e else nxt h q.
Proof. unfold nxt. rewrite lookup_insert. by case_decide. Qed.
Lemma prv_insert h p e q : prv (<[p:=e]> h) q = if decide (p = q) then prev e else prv h q.
Proof. unfold prv. rewrite lookup_insert. by case_decide. Qed.

(** ** What one run changes

    [heap_step h h' N P X] describes a run from [h] to [h']: the next pointers
    become [N], the previous pointers [P], and only cells of [X] change. *)
Definition heap_step (h h' : lheap) (N P : loc -> option loc) (X : list loc) : Prop :=
  (forall q, nxt h' q = N q) /\ (forall q, prv h' q = P q) /\
  (forall q, q ∉ X -> h' !! q = h !! q) /\
  (forall q, is_Some (h !! q) <-> is_Some (h' !! q)).

Lemma wr_next_run h p v :
  is_Some (h !! p) ->
  exists h', wr_next p v h = Some (h', tt) /\
    heap_step h h' (fun q => if decide (p = q) then v else nxt h q) (prv h) [p].
Proof.
  intros [e He]. unfold wr_next. rewrite He. eexists. split; [done|]. repeat split.
  - intros q. by rewrite nxt_insert.
  - intros q. rewrite prv_insert. case_decide; subst; [|done]. unfold prv. by rewrite He.
  - intros q Hq. rewrite lookup_insert_ne; set_solver.
  - intros Hq. rewrite lookup_insert. case_decide; [by eexists|done].
  - rewrite lookup_insert. case_decide; subst; [by eexists|done].
Qed.

Lemma wr_prev_run h p v :
  is_Some (h !! p) ->
  exists h', wr_prev p v h = Some (h', tt) /\
    heap_step h h' (nxt h) (fun q => if decide (p = q) then v else prv h q) [p].
Proof.
  intros [e He]. unfold wr_prev. rewrite He. eexists. split; [done|]. repeat split.
  - intros q. rewrite nxt_insert. case_decide; subst; [|done]. unfold nxt. by rewrite He.
  - intros q. by rewrite prv_insert.
  - intros q Hq. rewrite lookup_insert_ne; set_solver.
  - intros Hq. rewrite lookup_insert. case_decide; [by eexists|done].
  - rewrite lookup_insert. case_decide; subst; [by eexists|done].
Qed.

Lemma rd_next_run h p : is_Some (h !! p) -> rd_next p h = Some (h, nxt h p).
Proof. intros [e He]. unfold rd_next, nxt. by rewrite He. Qed.
Lemma rd_prev_run h p : is_Some (h !! p) -> rd_prev p h = Some (h, prv h p).
Proof. intros [e He]. unfold rd_prev, prv. by rewrite He. Qed.
Lemma nxt_is_Some h p q : nxt h p = Some q -> is_Some (h !! p).
Proof. unfold nxt. destruct (h !! p); [by eexists|done]. Qed.
Lemma prv_is_Some h p q : prv h p = Some q -> is_Some (h !! p).
Proof. unfold prv. destruct (h !! p); [by eexists|done]. Qed.
#[export] Hint Resolve nxt_is_Some prv_is_Some : olsr.

(** Runs one write and names the facts about the new heap. *)
Ltac heap_write L :=
  let h := fresh "h" in let R := fresh "R" in
  let N := fresh "N" in let P := fresh "P" in let F := fresh "F" in let D := fresh "D" in
  edestruct L as (h & R & N & P & F & D);
  [|first [erewrite bind_run by exact R | rewrite R]; clear R].

Lemma __list_add_run h p n new :
  is_Some (h !! p) -> is_Some (h !! n) -> is_Some (h !! new) ->
  exists h', __list_add (Some p) (Some n) new h = Some (h', tt) /\
    heap_step h h'
      (fun q => if decide (p = q) then Some new else if decide (new = q) then Some n else nxt h q)
      (fun q => if decide (n = q) then Some new else if decide (new = q) then Some p else prv h q)
      [p; n; new].
Proof.
  intros Hp Hn Hnew. unfold __list_add.
  heap_write (wr_next_run h new (Some n)); [done|].
  heap_write (wr_prev_run h0 new (Some p)); [by apply D|].
  erewrite bind_run by done.
  heap_write (wr_prev_run h1 n (Some new)); [by apply D0, D|].
  erewrite bind_run by done.
  heap_write (wr_next_run h2 p (Some new)); [by apply D1, D0, D|].
  eexists. split; [done|]. repeat split.
  - intros q. rewrite N2. case_decide; [done|]. by rewrite N1, N0, N.
  - intros q. rewrite P2, P1. case_decide; [done|]. rewrite P0. case_decide; [done|]. by rewrite P.
  - intros q Hq. rewrite F2, F1, F0, F by (clear -Hq; set_solver). done.
  - intros Hq. by apply D2, D1, D0, D.
  - intros Hq. by apply D, D0, D1, D2.
Qed.

Lemma __list_remove_run h p n :
  is_Some (h !! p) -> is_Some (h !! n) ->
  exists h', __list_remove (Some p) (Some n) h = Some (h', tt) /\
    heap_step h h'
      (fun q => if decide (p = q) then Some n else nxt h q)
      (fun q => if decide (n = q) then Some p else prv h q) [p; n].
Proof.
  intros Hp Hn. unfold __list_remove. erewrite bind_run by done.
  heap_write (wr_next_run h p (Some n)); [done|].
  erewrite bind_run by done.
  heap_write (wr_prev_run h0 n (Some p)); [by apply D|].
  eexists. split; [done|]. repeat split.
  - intros q. by rewrite N0, N.
  - intros q. rewrite P0. case_decide; [done|]. by rewrite P.
  - intros q Hq. rewrite F0, F by (clear -Hq; set_solver). done.
  - intros Hq. by apply D0, D.
  - intros Hq. by apply D, D0.
Qed.

(** ** The ring seen as a sequence *)

(** A position of the ring: [p] is followed by [n]. *)
Lemma ring_pos h hd l1 l2 :
  dlist h hd (l1 ++ l2) ->
  exists A p n B, hd :: l1 = A ++ [p] /\ l2 ++ [hd] = n :: B /\
    last (hd :: l1) = Some p /\ head (l2 ++ [hd]) = Some n /\
    links h (A ++ [p]) /\ links h (n :: B) /\ nxt h p = Some n /\ prv h n = Some p.
Proof.
  intros [_ HL].
  destruct (exists_last (l := hd :: l1)) as (A & p & HA); [done|].
  destruct (l2 ++ [hd]) as [|n B] eqn:HB; [by destruct l2|].
  exists A, p, n, B.
  assert (HL' : links h (A ++ p :: n :: B)).
  { replace (A ++ p :: n :: B) with ((A ++ [p]) ++ n :: B) by by rewrite <- app_assoc.
    rewrite <- HA, <- HB. simpl. by rewrite <- app_assoc in HL. }
  rewrite HA, last_snoc. apply links_split in HL' as [H1 H2]. simpl in H2.
  destruct H2 as [[H2 H3] H4]. repeat split; try done.
Qed.

Lemma dlist_nxt h hd l1 x l2 :
  dlist h hd (l1 ++ x :: l2) -> nxt h x = head (l2 ++ [hd]).
Proof.
  intros HD. replace (l1 ++ x :: l2) with ((l1 ++ [x]) ++ l2) in HD by by rewrite <- app_assoc.
  destruct (ring_pos _ _ _ _ HD) as (A & p & n & B & _ & _ & Hl & Hh & _ & _ & Hn & _).
  rewrite Hh. change (hd :: l1 ++ [x]) with ((hd :: l1) ++ [x]) in Hl.
  rewrite last_snoc in Hl. by simplify_eq.
Qed.

Lemma dlist_prv h hd l1 x l2 :
  dlist h hd (l1 ++ x :: l2) -> prv h x = last (hd :: l1).
Proof.
  intros HD.
  destruct (ring_pos _ _ _ _ HD) as (A & p & n & B & _ & _ & Hl & Hh & _ & _ & _ & Hp).
  rewrite Hl. simpl in Hh. by simplify_eq.
Qed.

Lemma dlist_hd_nxt h hd l : dlist h hd l -> nxt h hd = head (l ++ [hd]).
Proof.
  intros HD. destruct (ring_pos h hd [] l HD) as (A & p & n & B & _ & _ & Hl & Hh & _ & _ & Hn & _).
  simpl in Hl. simplify_eq. congruence.
Qed.

Lemma dlist_hd_prv h hd l : dlist h hd l -> prv h hd = last (hd :: l).
Proof.
  intros HD. rewrite <- (app_nil_r l) in HD.
  destruct (ring_pos h hd l [] HD) as (A & p & n & B & _ & _ & Hl & Hh & _ & _ & _ & Hp).
  simpl in Hh. simplify_eq. congruence.
Qed.

Lemma dlist_alloc h hd l x : dlist h hd l -> x ∈ hd :: l -> is_Some (h !! x).
Proof.
  intros HD [->|Hx]%elem_of_cons.
  - pose proof (dlist_hd_nxt _ _ _ HD) as H. destruct l; simpl in H; eauto with olsr.
  - apply list_elem_of_split in Hx as (l1 & l2 & ->).
    pose proof (dlist_nxt _ _ _ _ _ HD) as H. destruct l2; simpl in H; eauto with olsr.
Qed.

Lemma dlist_mono h h' hd l :
  (forall q, q ∈ hd :: l -> h' !! q = h !! q) -> dlist h hd l -> dlist h' hd l.
Proof.
  intros Heq [HN HL]. split; [done|]. revert HL. apply links_mono.
  - intros x Hx. unfold nxt. rewrite Heq; [done|].
    rewrite app_comm_cons, removelast_last in Hx. done.
  - intros x Hx. unfold prv. rewrite Heq; [done|]. simpl in Hx. set_solver.
Qed.

(** In a ring no node occurs twice as a source or as a target of a link. *)
Lemma ring_nodup (hd : loc) l1 l2 A p n B :
  NoDup (hd :: l1 ++ l2) -> hd :: l1 = A ++ [p] -> l2 ++ [hd] = n :: B ->
  (p ∉ A) /\ (n ∉ B) /\ (n ∉ l1) /\ (p ∉ l2).
Proof.
  intros HN HA HB.
  assert (NA : NoDup (A ++ [p])).
  { rewrite <- HA. rewrite app_comm_cons in HN. by apply NoDup_app in HN as (? & _). }
  apply NoDup_cons in HN as [HN1 HN2]. apply not_elem_of_app in HN1 as [HN1 HN1'].
  apply NoDup_app in HN2 as (N1 & N2 & N3).
  assert (NB : NoDup (n :: B)).
  { rewrite <- HB. apply NoDup_app. split_and!; [done| |apply NoDup_singleton].
    intros x Hx ->%list_elem_of_singleton. done. }
  apply NoDup_app in NA as (_ & NA & _). apply NoDup_cons in NB as [NB _].
  split_and!; [|done| |].
  - intros Hp. by apply (NA p Hp), list_elem_of_singleton.
  - intros Hn. assert (Hn' : n ∈ l2 ++ [hd]) by (rewrite HB; apply elem_of_cons; by left).
    apply elem_of_app in Hn' as [?|?%list_elem_of_singleton]; [by apply (N2 n)|by subst].
  - intros Hp. assert (Hp' : p ∈ hd :: l1) by (rewrite HA; apply elem_of_app; right; by apply list_elem_of_singleton).
    apply elem_of_cons in Hp' as [->|?]; [done|by apply (N2 p)].
Qed.

Lemma NoDup_insert_mid (new : loc) l1 l2 :
  NoDup (l1 ++ l2) -> new ∉ l1 ++ l2 -> NoDup (l1 ++ new :: l2).
Proof. intros. rewrite <- Permutation_middle. by constructor. Qed.

(** Adding a node between two neighbours, and taking one out. *)
Lemma dlist_add h hd l1 l2 new p n :
  dlist h hd (l1 ++ l2) -> new ∉ hd :: l1 ++ l2 -> is_Some (h !! new) ->
  last (hd :: l1) = Some p -> head (l2 ++ [hd]) = Some n ->
  exists h', __list_add (Some p) (Some n) new h = Some (h', tt) /\
    dlist h' hd (l1 ++ new :: l2) /\
    (forall q, q ∉ new :: hd :: l1 ++ l2 -> h' !! q = h !! q) /\
    (forall q, is_Some (h !! q) <-> is_Some (h' !! q)).
Proof.
  intros HD Hnew Ha Hl Hh.
  destruct (ring_pos _ _ _ _ HD) as (A & p' & n' & B & HA & HB & Hl' & Hh' & L1 & L2 & Hpn & Hnp).
  rewrite Hl in Hl'. rewrite Hh in Hh'. injection Hl' as <-. injection Hh' as <-.
  destruct (ring_nodup _ _ _ _ _ _ _ (proj1 HD) HA HB) as (NA & NB & Nn & Np).
  destruct (__list_add_run h p n new) as (h' & -> & HN' & HP' & HF & HDom); [eauto with olsr..|done|].
  assert (HnA : new ∉ A ++ [p]).
  { rewrite <- HA. clear -Hnew. set_solver. }
  assert (HnB : new ∉ n :: B).
  { rewrite <- HB. clear -Hnew. set_solver. }
  eexists. split; [done|]. split; [split|split; [|done]].
  - rewrite app_comm_cons. apply NoDup_insert_mid; [apply HD|done].
  - replace (hd :: (l1 ++ new :: l2) ++ [hd]) with (A ++ p :: new :: n :: B).
    2: { rewrite <- app_assoc. simpl. rewrite HB, app_comm_cons, HA, <- app_assoc. done. }
    apply links_split. split; [|split; [split|split; [split|]]].
    + revert L1. apply links_mono; intros x Hx.
      * rewrite removelast_last in Hx. rewrite HN'.
        rewrite !decide_False; [done|intros ->..]; [|done]. apply HnA, elem_of_app. by left.
      * rewrite <- HA in Hx. rewrite HP'.
        rewrite !decide_False; [done|intros ->..]; [|done]. apply HnA. rewrite <- HA.
        apply elem_of_cons. by right.
    + rewrite HN'. by rewrite decide_True.
    + rewrite HP', decide_False, decide_True; [done..|intros ->]. apply HnB. left.
    + rewrite HN', decide_False, decide_True; [done..|intros ->]. apply HnA, elem_of_app. right. left.
    + rewrite HP'. by rewrite decide_True.
    + revert L2. apply links_mono; intros x Hx.
      * rewrite <- HB, removelast_last in Hx. rewrite HN'.
        rewrite !decide_False; [done|intros ->..]; [|done]. apply HnB. rewrite <- HB.
        apply elem_of_app. by left.
      * simpl in Hx. rewrite HP'.
        rewrite !decide_False; [done|intros ->..]; [|done]. apply HnB. by right.
  - intros q Hq. apply HF. clear -Hq HA HB.
    assert (p ∈ hd :: l1) by (rewrite HA; set_solver).
    assert (n ∈ l2 ++ [hd]) by (rewrite HB; set_solver). set_solver.
Qed.

Lemma dlist_unlink h hd l1 x l2 :
  dlist h hd (l1 ++ x :: l2) ->
  exists h', list_remove x h = Some (h', tt) /\ dlist h' hd (l1 ++ l2) /\
    h' !! x = Some (mkEnt None None) /\
    (forall q, q ∉ hd :: l1 ++ x :: l2 -> h' !! q = h !! q) /\
    (forall q, is_Some (h !! q) <-> is_Some (h' !! q)).
Proof.
  intros HD. pose proof (dlist_nxt _ _ _ _ _ HD) as Hnx.
  destruct (ring_pos _ _ _ _ HD) as (A & p & x' & B & HA & HB & Hl & Hx' & L1 & L2 & Hpx & Hxp).
  simpl in HB, Hx'. injection Hx' as <-. injection HB as <-.
  destruct (l2 ++ [hd]) as [|n B] eqn:HB; [by destruct l2|]. simpl in Hnx.
  assert (HNx : x ∉ hd :: l1 ++ l2).
  { destruct HD as [HN _]. rewrite app_comm_cons, <- Permutation_middle in HN.
    by apply NoDup_cons in HN as [? _]. }
  assert (HN2 : NoDup (hd :: l1 ++ l2)).
  { destruct HD as [HN _]. rewrite app_comm_cons, <- Permutation_middle in HN.
    by apply NoDup_cons in HN as [_ ?]. }
  destruct (ring_nodup _ _ _ _ _ _ _ HN2 HA HB) as (NA & NB & Nn & Np).
  destruct L2 as [[_ Hnp] L2].
  assert (Hp : p ∈ hd :: l1) by (rewrite HA; apply elem_of_app; right; left).
  assert (Hn : n ∈ l2 ++ [hd]) by (rewrite HB; left).
  unfold list_remove. erewrite bind_run by (apply rd_prev_run; eauto with olsr).
  erewrite bind_run by (apply rd_next_run; eauto with olsr). rewrite Hxp, Hnx.
  destruct (__list_remove_run h p n) as (h1 & R & HN' & HP' & HF & HDom); [eauto with olsr..|].
  erewrite bind_run by exact R. clear R.
  heap_write (wr_next_run h1 x None); [apply HDom; eauto with olsr|].
  heap_write (wr_prev_run h0 x None); [apply D, HDom; eauto with olsr|].
  assert (Hagree : forall q, q ≠ x -> nxt h2 q = nxt h1 q /\ prv h2 q = prv h1 q).
  { intros q Hq. rewrite N0, P0, N, P, !decide_False by done. done. }
  eexists. split; [done|]. split_and!.
  - split; [done|].
    assert (HX : forall q, q ∈ (hd :: l1 ++ l2) -> q ≠ x) by (intros q Hq ->; done).
    replace (hd :: (l1 ++ l2) ++ [hd]) with (A ++ p :: n :: B).
    2: { rewrite <- app_assoc. simpl. rewrite HB, app_comm_cons, HA, <- app_assoc. done. }
    apply links_split. split; [|split; [split|]].
    + revert L1. apply links_mono; intros y Hy.
      * rewrite removelast_last in Hy.
        assert (y ∈ hd :: l1) by (rewrite HA; apply elem_of_app; by left).
        rewrite (proj1 (Hagree y ltac:(apply HX; set_solver))), HN'.
        rewrite decide_False; [done|by intros ->].
      * rewrite <- HA in Hy. simpl in Hy.
        rewrite (proj2 (Hagree y ltac:(apply HX; set_solver))), HP'.
        rewrite decide_False; [done|by intros ->].
    + rewrite (proj1 (Hagree p ltac:(apply HX; set_solver))), HN'. by rewrite decide_True.
    + rewrite (proj2 (Hagree n ltac:(apply HX; set_solver))), HP'. by rewrite decide_True.
    + revert L2. apply links_mono; intros y Hy.
      * rewrite <- HB, removelast_last in Hy.
        rewrite (proj1 (Hagree y ltac:(apply HX; set_solver))), HN'.
        rewrite decide_False; [done|by intros ->].
      * simpl in Hy. assert (y ∈ l2 ++ [hd]) by (rewrite HB; by right).
        rewrite (proj2 (Hagree y ltac:(apply HX; set_solver))), HP'.
        rewrite decide_False; [done|by intros ->].
  - pose proof (N0 x) as E1. pose proof (P0 x) as E2. rewrite N, decide_True in E1 by done.
    rewrite decide_True in E2 by done. unfold nxt, prv in E1, E2.
    assert (is_Some (h2 !! x)) as [[a b] E] by (apply D0, D, HDom; eauto with olsr).
    rewrite E in *. simpl in *. by subst.
  - intros q Hq. rewrite F0, F, HF; [done|..]; clear -Hq Hp Hn; set_solver.
  - intros q. by rewrite HDom, D, D0.
Qed.

(** ** The operations on sequences *)

(** A node is added at either end of the list or next to one of its nodes. *)
Lemma list_add_run h hd l1 l2 new :
  dlist h hd (l1 ++ l2) -> new ∉ hd :: l1 ++ l2 -> is_Some (h !! new) ->
  exists h' p n, last (hd :: l1) = Some p /\ head (l2 ++ [hd]) = Some n /\
    nxt h p = Some n /\ prv h n = Some p /\
    __list_add (Some p) (Some n) new h = Some (h', tt) /\
    dlist h' hd (l1 ++ new :: l2) /\
    (forall q, q ∉ new :: hd :: l1 ++ l2 -> h' !! q = h !! q) /\
    (forall q, is_Some (h !! q) <-> is_Some (h' !! q)).
Proof.
  intros HD Hnew Ha.
  destruct (ring_pos _ _ _ _ HD) as (A & p & n & B & _ & _ & Hl & Hh & _ & _ & Hpn & Hnp).
  destruct (dlist_add _ _ _ _ _ _ _ HD Hnew Ha Hl Hh) as (h' & ? & ? & ? & ?).
  exists h', p, n. split_and!; done.
Qed.

Lemma list_add_before_mid h hd l1 x l2 new :
  dlist h hd (l1 ++ x :: l2) -> new ∉ hd :: l1 ++ x :: l2 -> is_Some (h !! new) ->
  exists h', list_add_before x new h = Some (h', tt) /\
    dlist h' hd (l1 ++ new :: x :: l2) /\
    (forall q, q ∉ new :: hd :: l1 ++ x :: l2 -> h' !! q = h !! q) /\
    (forall q, is_Some (h !! q) <-> is_Some (h' !! q)).
Proof.
  intros HD Hnew Ha.
  destruct (list_add_run _ _ _ _ _ HD Hnew Ha) as (h' & p & n & Hl & Hh & Hpn & Hnp & R & H).
  simpl in Hh. injection Hh as <-. exists h'. split; [|done].
  unfold list_add_before. erewrite bind_run by (apply rd_prev_run; eauto with olsr).
  by rewrite Hnp.
Qed.

Lemma list_add_after_mid h hd l1 x l2 new :
  dlist h hd (l1 ++ x :: l2) -> new ∉ hd :: l1 ++ x :: l2 -> is_Some (h !! new) ->
  exists h', list_add_after x new h = Some (h', tt) /\
    dlist h' hd (l1 ++ x :: new :: l2) /\
    (forall q, q ∉ new :: hd :: l1 ++ x :: l2 -> h' !! q = h !! q) /\
    (forall q, is_Some (h !! q) <-> is_Some (h' !! q)).
Proof.
  intros HD Hnew Ha. replace (l1 ++ x :: l2) with ((l1 ++ [x]) ++ l2) in * by by rewrite <- app_assoc.
  destruct (list_add_run _ _ _ _ _ HD Hnew Ha) as (h' & p & n & Hl & Hh & Hpn & Hnp & R & H1 & H2).
  change (hd :: l1 ++ [x]) with ((hd :: l1) ++ [x]) in Hl. rewrite last_snoc in Hl.
  injection Hl as <-. exists h'. split.
  - unfold list_add_after. erewrite bind_run by (apply rd_next_run; eauto with olsr). by rewrite Hpn.
  - split; [|done]. by rewrite <- app_assoc in H1.
Qed.

Lemma list_add_head_run h hd l new :
  dlist h hd l -> new ∉ hd :: l -> is_Some (h !! new) ->
  exists h', list_add_head hd new h = Some (h', tt) /\ dlist h' hd (new :: l) /\
    (forall q, q ∉ new :: hd :: l -> h' !! q = h !! q) /\
    (forall q, is_Some (h !! q) <-> is_Some (h' !! q)).
Proof.
  intros HD Hnew Ha.
  destruct (list_add_run h hd [] l new HD Hnew Ha) as (h' & p & n & Hl & Hh & Hpn & Hnp & R & H).
  simpl in Hl. injection Hl as <-. exists h'. split; [|done].
  unfold list_add_head. erewrite bind_run by (apply rd_next_run; eauto with olsr). by rewrite Hpn.
Qed.

Lemma list_add_tail_run h hd l new :
  dlist h hd l -> new ∉ hd :: l -> is_Some (h !! new) ->
  exists h', list_add_tail hd new h = Some (h', tt) /\ dlist h' hd (l ++ [new]) /\
    (forall q, q ∉ new :: hd :: l -> h' !! q = h !! q) /\
    (forall q, is_Some (h !! q) <-> is_Some (h' !! q)).
Proof.
  intros HD Hnew Ha. rewrite <- (app_nil_r l) in HD, Hnew.
  destruct (list_add_run _ _ _ _ _ HD Hnew Ha) as (h' & p & n & Hl & Hh & Hpn & Hnp & R & H1 & H2 & H3).
  simpl in Hh. injection Hh as <-. rewrite app_nil_r in H2. exists h'. split; [|done].
  unfold list_add_tail. erewrite bind_run by (apply rd_prev_run; eauto with olsr). by rewrite Hnp.
Qed.

(** [list_add_before] on the list head appends, [list_add_after] on it prepends. *)
Lemma list_add_before_head (hd new : loc) : list_add_before hd new = list_add_tail hd new.
Proof. done. Qed.
Lemma list_add_after_head (hd new : loc) : list_add_after hd new = list_add_head hd new.
Proof. done. Qed.

Lemma list_is_empty_run h hd l :
  dlist h hd l -> list_is_empty hd h = Some (h, bool_decide (l = [])).
Proof.
  intros HD. pose proof (dlist_hd_nxt _ _ _ HD) as Hn. pose proof (dlist_hd_prv _ _ _ HD) as Hp.
  assert (is_Some (h !! hd)) by (eapply dlist_alloc; [done|left]).
  unfold list_is_empty. erewrite bind_run by by apply rd_next_run.
  erewrite bind_run by by apply rd_prev_run. unfold mret, se_ret. do 2 f_equal.
  rewrite Hn, Hp. destruct l as [|x l]; [by repeat case_bool_decide|].
  repeat case_bool_decide; simpl in *; simplify_eq; try done.
  destruct HD as [[HN _]%NoDup_cons _]. exfalso. apply HN. left.
Qed.

Lemma list_is_first_run h hd l x :
  dlist h hd l -> x ≠ hd -> list_is_first hd x h = Some (h, bool_decide (head l = Some x)).
Proof.
  intros HD Hx. assert (is_Some (h !! hd)) by (eapply dlist_alloc; [done|left]).
  unfold list_is_first. erewrite bind_run by by apply rd_next_run.
  rewrite (dlist_hd_nxt _ _ _ HD). unfold mret, se_ret. do 2 f_equal.
  destruct l; simpl; [|done]. by rewrite !bool_decide_false by congruence.
Qed.

Lemma list_is_last_run h hd l x :
  dlist h hd l -> x ≠ hd -> list_is_last hd x h = Some (h, bool_decide (last l = Some x)).
Proof.
  intros HD Hx. assert (is_Some (h !! hd)) by (eapply dlist_alloc; [done|left]).
  unfold list_is_last. erewrite bind_run by by apply rd_prev_run.
  rewrite (dlist_hd_prv _ _ _ HD). unfold mret, se_ret. do 2 f_equal.
  destruct l as [|y l] using rev_ind; [simpl; by rewrite !bool_decide_false by congruence|].
  change (hd :: l ++ [y]) with ((hd :: l) ++ [y]). by rewrite !last_snoc.
Qed.

Lemma list_init_head_run h hd :
  is_Some (h !! hd) ->
  exists h', list_init_head hd h = Some (h', tt) /\ dlist h' hd [] /\
    (forall q, q ≠ hd -> h' !! q = h !! q) /\
    (forall q, is_Some (h !! q) <-> is_Some (h' !! q)).
Proof.
  intros Ha. unfold list_init_head.
  heap_write (wr_prev_run h hd (Some hd)); [done|].
  heap_write (wr_next_run h0 hd (Some hd)); [by apply D|].
  eexists. split; [done|]. split_and!.
  - split; [apply NoDup_singleton|]. simpl. split; [|done].
    rewrite N0, P0, P, !decide_True by done. done.
  - intros q Hq. rewrite F0, F by (clear -Hq; set_solver). done.
  - intros q. by rewrite D, D0.
Qed.

(** The pointer updates of [list_merge], when the second list is not empty. *)
Lemma list_merge_step h a r an z f :
  list_is_empty r h = Some (h, false) ->
  nxt h a = Some an -> prv h r = Some z -> nxt h r = Some f ->
  is_Some (h !! an) -> is_Some (h !! z) -> is_Some (h !! f) ->
  an ≠ r -> z ≠ r -> f ≠ r -> a ≠ r -> z ≠ a ->
  exists h', list_merge a r h = Some (h', tt) /\
    heap_step h h'
      (fun q => if decide (r = q) then Some r else if decide (a = q) then Some f
                else if decide (z = q) then Some an else nxt h q)
      (fun q => if decide (r = q) then Some r else if decide (f = q) then Some a
                else if decide (an = q) then Some z else prv h q) [r; f; a; z; an].
Proof.
  intros He Han Hrp Hrn Ian Iz If Dan Dz Df Da Dza. unfold list_merge.
  erewrite bind_run by exact He. cbv beta iota.
  erewrite bind_run by (apply rd_next_run; eauto with olsr).
  erewrite bind_run by (apply rd_prev_run; eauto with olsr). rewrite Han, Hrp.
  erewrite bind_run by done.
  heap_write (wr_prev_run h an (Some z)); [done|].
  erewrite bind_run by (apply rd_prev_run, D; eauto with olsr).
  erewrite bind_run by (apply rd_next_run, D; eauto with olsr).
  rewrite N, P, Han, Hrp, decide_False by done. erewrite bind_run by done.
  heap_write (wr_next_run h0 z (Some an)); [by apply D|].
  erewrite bind_run by (apply rd_next_run, D0, D; eauto with olsr).
  rewrite N0, N, Hrn, decide_False by done.
  heap_write (wr_next_run h1 a (Some f)); [apply D0, D; eauto with olsr|].
  erewrite bind_run by (apply rd_next_run, D1, D0, D; eauto with olsr).
  rewrite N1, decide_False, N0, decide_False, N, Hrn by done. erewrite bind_run by done.
  heap_write (wr_prev_run h2 f (Some a)); [by apply D1, D0, D|]. unfold list_init_head.
  heap_write (wr_prev_run h3 r (Some r)); [apply D2, D1, D0, D; eauto with olsr|].
  heap_write (wr_next_run h4 r (Some r)); [apply D3, D2, D1, D0, D; eauto with olsr|].
  eexists. split; [done|]. split_and!.
  - intros q. rewrite N4, N3, N2, N1, N0, N. done.
  - intros q. rewrite P4, P3, P2, P1, P0, P. done.
  - intros q Hq. rewrite F4, F3, F2, F1, F0, F; [done|..]; clear -Hq; set_solver.
  - intros q. by rewrite D, D0, D1, D2, D3, D4.
Qed.

Lemma links_merge_tail h r f lr : links h (r :: (f :: lr) ++ [r]) -> links h (f :: lr).
Proof.
  intros [_ H]. destruct (exists_last (l := f :: lr)) as (A & z & Hz); [done|].
  change (links h ((f :: lr) ++ [r])) in H. rewrite Hz in *.
  rewrite <- app_assoc in H. by apply links_split in H as [H _].
Qed.

(** [list_merge] puts the nodes of the second list in front of those of the first one. *)
(** Merging a list into another moves all its elements, in their order, in
    front of the elements of the other list, leaves the merged list empty, and
    touches no other cell. *)
Theorem list_merge_run h a la r lr :
  dlist h a la -> dlist h r lr -> (forall x y, x ∈ a :: la -> y ∈ r :: lr -> x ≠ y) ->
  exists h', list_merge a r h = Some (h', tt) /\ dlist h' a (lr ++ la) /\ dlist h' r [] /\
    (forall q, q ∉ a :: la -> q ∉ r :: lr -> h' !! q = h !! q).
Proof.
  intros Ha Hr Hdis.
  pose proof (list_is_empty_run _ _ _ Hr) as Hemp.
  destruct lr as [|f lr].
  { exists h. split; [|done]. unfold list_merge. by erewrite bind_run by exact Hemp. }
  rewrite bool_decide_false in Hemp by done.
  destruct (exists_last (l := f :: lr)) as (lr' & z & Hz); [done|].
  destruct (la ++ [a]) as [|an L] eqn:HL; [by destruct la|].
  pose proof (dlist_hd_nxt _ _ _ Ha) as Han. rewrite HL in Han. simpl in Han.
  pose proof (dlist_hd_prv _ _ _ Hr) as Hrp. rewrite Hz, app_comm_cons, last_snoc in Hrp.
  pose proof (dlist_hd_nxt _ _ _ Hr) as Hrn. simpl in Hrn.
  destruct (ring_nodup r (f :: lr) [] (r :: lr') z r [] ltac:(rewrite app_nil_r; apply Hr)
    ltac:(rewrite Hz; done) ltac:(done)) as (Nz & _ & Nr & _).
  destruct (ring_nodup a [] la [] a an L (proj1 Ha) ltac:(done) HL) as (_ & Nan & _ & Na).
  assert (Ian : an ∈ a :: la).
  { assert (an ∈ la ++ [a]) as H by (rewrite HL; left). clear -H. set_solver. }
  assert (Iz : z ∈ f :: lr) by (rewrite Hz; apply elem_of_app; right; left).
  assert (If : f ∈ f :: lr) by left.
  assert (DR : forall y, y ∈ f :: lr -> y ≠ r) by (intros y Hy ->; done).
  destruct (list_merge_step h a r an z f Hemp Han Hrp Hrn) as (h' & R & HN & HP & HF & _).
  { eapply dlist_alloc; [exact Ha|done]. } { eapply dlist_alloc; [exact Hr|by right]. }
  { eapply dlist_alloc; [exact Hr|by right]. }
  { apply Hdis; [done|left]. } { by apply DR. } { by apply DR. } { apply Hdis; left. }
  { intros ->. by apply (Hdis a a); [left|right|]. }
  exists h'. split; [exact R|]. clear R.
  split_and!; [split|split|].
  - rewrite NoDup_cons. destruct Ha as [[Ha1 Ha2]%NoDup_cons _]. destruct Hr as [[_ Hr2]%NoDup_cons _].
    split; [intros [Hx|Hx]%elem_of_app; [by apply (Hdis a a); [left|right|]|done]|].
    apply NoDup_app. split_and!; [done| |done]. intros x Hx1 Hx2. by eapply (Hdis x x); [right|right|].
  - replace (a :: ((f :: lr) ++ la) ++ [a]) with (a :: lr' ++ z :: an :: L).
    2: { rewrite <- app_assoc, HL, Hz, <- app_assoc. done. }
    assert (HL' : forall x, x ∈ an :: L <-> x ∈ la \/ x = a).
    { intros x. rewrite <- HL, elem_of_app, list_elem_of_singleton. done. }
    assert (HA' : forall x, x ∈ lr' ++ [z] -> x ∈ f :: lr) by (intros x; by rewrite Hz).
    change (a :: lr' ++ z :: an :: L) with ((a :: lr') ++ z :: an :: L).
    apply links_split. split; [|split; [split|]].
    + rewrite <- app_comm_cons, <- Hz. split; [split|].
      * rewrite HN, decide_False, decide_True; [done..|]. intros ->. by apply (Hdis a a); [left|left|].
      * rewrite HP, decide_False, decide_True; [done..|]. intros ->. by apply (DR f).
      * pose proof (links_merge_tail h r f lr (proj2 Hr)) as LR. revert LR.
        apply links_mono; intros x Hx.
        -- assert (Hx' : x ∈ lr') by (by rewrite Hz, removelast_last in Hx).
           assert (x ∈ f :: lr) by (apply HA', elem_of_app; by left).
           rewrite HN, !decide_False; [done|intros ->..]; [..|by eapply DR].
           ++ apply Nz. by right.
           ++ by apply (Hdis x x); [left|right|].
        -- simpl in Hx. assert (x ∈ f :: lr) by (by right).
           rewrite HP, !decide_False; [done|intros ->..]; [..|by eapply DR].
           ++ by apply (Hdis x x); [|right|].
           ++ destruct Hr as [[_ [Hr _]%NoDup_cons]%NoDup_cons _]. done.
    + rewrite HN, decide_False, decide_False, decide_True; [done..| |].
      * intros ->. by apply (Hdis z z); [left|right|].
      * intros ->. by eapply DR.
    + rewrite HP, decide_False, decide_False, decide_True; [done..| |].
      * intros ->. by eapply (Hdis an an); [|right|].
      * intros ->. by eapply (Hdis an an); [|left|].
    + destruct Ha as [Ha1 Ha]. rewrite HL in Ha. destruct Ha as [_ LA].
      revert LA. apply links_mono; intros x Hx.
      * rewrite <- HL, removelast_last in Hx.
        rewrite HN, !decide_False; [done|intros ->..]; [|done|].
        -- by eapply (Hdis x x); [right|right|].
        -- by eapply (Hdis x x); [right|left|].
      * simpl in Hx. assert (x ∈ a :: la).
        { assert (x ∈ an :: L) as [?| ->]%HL' by (by right); [by right|left]. }
        rewrite HP, !decide_False; [done|intros ->..]; [done|..].
        -- by eapply (Hdis x x); [|right|].
        -- by eapply (Hdis x x); [|left|].
  - apply NoDup_singleton.
  - simpl. by rewrite HN, HP, !decide_True by done.
  - intros q Hq1 Hq2. apply HF. clear -Hq1 Hq2 Ian Iz If. set_solver.
Qed.

(** Two rings with two and one elements. *)
Definition demo_rings : lheap :=
  {[ 1%positive := mkEnt (Some 2%positive) (Some 3%positive); 2%positive := mkEnt (Some 3%positive) (Some 1%positive);
     3%positive := mkEnt (Some 1%positive) (Some 2%positive); 4%positive := mkEnt (Some 5%positive) (Some 5%positive);
     5%positive := mkEnt (Some 4%positive) (Some 4%positive) ]}.
Lemma list_merge_run_witness :
  exists h', list_merge 1 4 demo_rings = Some (h', tt) /\ dlist h' 1 ([5%positive] ++ [2%positive; 3%positive]) /\ dlist h' 4 [] /\
    (forall q, q ∉ [1; 2; 3]%positive -> q ∉ [4; 5]%positive -> h' !! q = demo_rings !! q).
Proof.
  apply (list_merge_run demo_rings 1 [2; 3]%positive 4 [5]%positive);
    [split; [by apply (bool_decide_unpack _)|by vm_compute]..|set_solver].
Defined.
