(* ===== verification/AvlHeap.v ===== *)
(** * AVL trees at the level of pointers ([src/src/common/avl.c], [avl.h])

    A node embeds a [struct list_entity] as its first member, so the address of
    a node and the address of its list entity coincide: the state keeps the list
    entities (of the nodes and of the list head of the tree) in [lists] and the
    remaining fields of the nodes in [nodes]. A key is stored by value; the
    comparator of the tree is the parameter [comp].

    The C functions recurse along parent and child pointers. The definitions
    take fuel for that recursion, and every entry point passes the number of
    allocated nodes plus one; [AvlRefine] proves that this is always enough. *)
From S2P Require Import Prelude Lists.

Section avl.
Context {K : Type} (comp : K -> K -> Z).

(** [struct avl_node], less its list entity *)
Record avl_node := mkNode {
  n_parent : option loc;
  n_left : option loc;
  n_right : option loc;
  n_key : K;
  n_balance : Z;
  n_leader : bool
}.

(** [struct avl_tree], less the comparator *)
Record avl_tree := mkTree {
  list_head : loc;
  root : option loc;
  count : Z;
  allow_dups : bool
}.

Record avl_st := mkSt {
  tree : avl_tree;
  nodes : gmap loc avl_node;
  lists : lheap
}.

Abbreviation AM := (SE avl_st).

(** ** Memory access *)
Definition rd {A} (p : loc) (f : avl_node -> A) : AM A := fun s =>
  match nodes s !! p with Some n => Some (s, f n) | None => None end.
Definition wr (p : loc) (g : avl_node -> avl_node) : AM unit := fun s =>
  match nodes s !! p with
  | Some n => Some (mkSt (tree s) (<[p := g n]> (nodes s)) (lists s), tt)
  | None => None
  end.
Definition set_parent v n := mkNode v (n_left n) (n_right n) (n_key n) (n_balance n) (n_leader n).
Definition set_left v n := mkNode (n_parent n) v (n_right n) (n_key n) (n_balance n) (n_leader n).
Definition set_right v n := mkNode (n_parent n) (n_left n) v (n_key n) (n_balance n) (n_leader n).
Definition set_balance v n := mkNode (n_parent n) (n_left n) (n_right n) (n_key n) (s8 v) (n_leader n).
Definition set_leader v n := mkNode (n_parent n) (n_left n) (n_right n) (n_key n) (n_balance n) v.
Definition set_root (v : option loc) : AM unit := se_mod (fun s =>
  mkSt (mkTree (list_head (tree s)) v (count (tree s)) (allow_dups (tree s))) (nodes s) (lists s)).
Definition set_count (v : Z) : AM unit := se_mod (fun s =>
  mkSt (mkTree (list_head (tree s)) (root (tree s)) (u32 v) (allow_dups (tree s))) (nodes s) (lists s)).
Definition on_lists {A} (m : SE lheap A) : AM A := fun s =>
  match m (lists s) with
  | Some (h, a) => Some (mkSt (tree s) (nodes s) h, a)
  | None => None
  end.
Definition get_tree {A} (f : avl_tree -> A) : AM A := se_get (fun s => f (tree s)).
Definition ptr (p : option loc) : AM loc := se_opt p.
Definition fuel : AM nat := se_get (fun s => S (size (nodes s))).

(** ** [avl.c] *)
Definition int_avl_max (x y : Z) : Z := if x >? y then x else y.
Definition int_avl_min (x y : Z) : Z := if x <? y then x else y.

Definition avl_init (dups : bool) : AM unit :=
  hd ← get_tree list_head;
  on_lists (list_init_head hd);;
  se_mod (fun s => mkSt (mkTree hd None 0 dups) (nodes s) (lists s)).

Fixpoint int_avl_find_rec (f : nat) (node : loc) (key : K) : AM (loc * Z) :=
  match f with
  | O => se_fail
  | S f =>
    k ← rd node n_key;
    let diff := comp key k in
    if diff <? 0 then
      l ← rd node n_left;
      match l with
      | Some l => int_avl_find_rec f l key
      | None => mret (node, diff)
      end
    else if diff >? 0 then
      r ← rd node n_right;
      match r with
      | Some r => int_avl_find_rec f r key
      | None => mret (node, diff)
      end
    else mret (node, diff)
  end.

Definition avl_find (key : K) : AM (option loc) :=
  r ← get_tree root;
  match r with
  | None => mret None
  | Some r =>
    f ← fuel;
    nd ← int_avl_find_rec f r key;
    mret (if snd nd =? 0 then Some (fst nd) else None)
  end.

(** The two loops of [avl_find_lessequal]. *)
Fixpoint find_le_left (f : nat) (key : K) (node : loc) (diff : Z) : AM (option (loc * Z)) :=
  match f with
  | O => se_fail
  | S f =>
    if diff <? 0 then
      hd ← get_tree list_head;
      first ← on_lists (list_is_first hd node);
      if (first : bool) then mret None else
        p ← on_lists (rd_prev node);
        node ← ptr p;
        k ← rd node n_key;
        find_le_left f key node (comp key k)
    else mret (Some (node, diff))
  end.

Fixpoint find_le_right (f : nat) (key : K) (node next : loc) (diff : Z) : AM loc :=
  match f with
  | O => se_fail
  | S f =>
    if diff >=? 0 then
      let node := next in
      hd ← get_tree list_head;
      is_last ← on_lists (list_is_last hd node);
      if (is_last : bool) then mret node else
        n ← on_lists (rd_next node);
        next ← ptr n;
        k ← rd next n_key;
        find_le_right f key node next (comp key k)
    else mret node
  end.

Definition avl_find_lessequal (key : K) : AM (option loc) :=
  r ← get_tree root;
  match r with
  | None => mret None
  | Some r =>
    f ← fuel;
    nd ← int_avl_find_rec f r key;
    o ← find_le_left f key (fst nd) (snd nd);
    match o with
    | None => mret None
    | Some (node, diff) => res ← find_le_right f key node node diff; mret (Some res)
    end
  end.

(** The two loops of [avl_find_greaterequal]. *)
Fixpoint find_ge_right (f : nat) (key : K) (node : loc) (diff : Z) : AM (option (loc * Z)) :=
  match f with
  | O => se_fail
  | S f =>
    if diff >? 0 then
      hd ← get_tree list_head;
      is_last ← on_lists (list_is_last hd node);
      if (is_last : bool) then mret None else
        n ← on_lists (rd_next node);
        node ← ptr n;
        k ← rd node n_key;
        find_ge_right f key node (comp key k)
    else mret (Some (node, diff))
  end.

Fixpoint find_ge_left (f : nat) (key : K) (node next : loc) (diff : Z) : AM loc :=
  match f with
  | O => se_fail
  | S f =>
    if diff <=? 0 then
      let node := next in
      hd ← get_tree list_head;
      first ← on_lists (list_is_first hd node);
      if (first : bool) then mret node else
        p ← on_lists (rd_prev node);
        next ← ptr p;
        k ← rd next n_key;
        find_ge_left f key node next (comp key k)
    else mret node
  end.

Definition avl_find_greaterequal (key : K) : AM (option loc) :=
  r ← get_tree root;
  match r with
  | None => mret None
  | Some r =>
    f ← fuel;
    nd ← int_avl_find_rec f r key;
    o ← find_ge_right f key (fst nd) (snd nd);
    match o with
    | None => mret None
    | Some (node, diff) => res ← find_ge_left f key node node diff; mret (Some res)
    end
  end.

(** [if (c != NULL) c->parent = p] *)
Definition opt_reparent (c : option loc) (p : loc) : AM unit :=
  match c with None => mret tt | Some c => wr c (set_parent (Some p)) end.

(** Puts [new] in the place of [node] below [parent], or at the root: the code
    shared by the two rotations, [avl_remove] and
    two branches of [int_avl_delete_worker]. *)
Definition replace_child (parent : option loc) (node new : loc) : AM unit :=
  match parent with
  | None => set_root (Some new)
  | Some p =>
    pl ← rd p n_left;
    if bool_decide (pl = Some node) then wr p (set_left (Some new))
    else wr p (set_right (Some new))
  end.

Definition int_avl_rotate_right (node : loc) : AM unit :=
  l ← rd node n_left;
  left ← ptr l;
  parent ← rd node n_parent;
  wr left (set_parent parent);;
  wr node (set_parent (Some left));;
  replace_child parent node left;;
  lr ← rd left n_right;
  wr node (set_left lr);;
  wr left (set_right (Some node));;
  nl ← rd node n_left; opt_reparent nl node;;
  lb ← rd left n_balance; nb ← rd node n_balance;
  wr node (set_balance (nb + (1 - int_avl_min lb 0)));;
  nb ← rd node n_balance; lb ← rd left n_balance;
  wr left (set_balance (lb + (1 + int_avl_max nb 0))).

Definition int_avl_rotate_left (node : loc) : AM unit :=
  r ← rd node n_right;
  right ← ptr r;
  parent ← rd node n_parent;
  wr right (set_parent parent);;
  wr node (set_parent (Some right));;
  replace_child parent node right;;
  rl ← rd right n_left;
  wr node (set_right rl);;
  wr right (set_left (Some node));;
  nr ← rd node n_right; opt_reparent nr node;;
  rb ← rd right n_balance; nb ← rd node n_balance;
  wr node (set_balance (nb - (1 + int_avl_max rb 0)));;
  nb ← rd node n_balance; rb ← rd right n_balance;
  wr right (set_balance (rb - (1 - int_avl_min nb 0))).

Fixpoint int_post_insert (f : nat) (node : loc) : AM unit :=
  match f with
  | O => se_fail
  | S f =>
    par ← rd node n_parent;
    match par with
    | None => mret tt
    | Some parent =>
      pl ← rd parent n_left;
      if bool_decide (pl = Some node) then
        pb ← rd parent n_balance; wr parent (set_balance (pb - 1));;
        pb ← rd parent n_balance;
        if pb =? 0 then mret tt
        else if pb =? -1 then int_post_insert f parent
        else
          nb ← rd node n_balance;
          if nb =? -1 then int_avl_rotate_right parent
          else
            int_avl_rotate_left node;;
            p ← rd node n_parent; p ← ptr p;
            pp ← rd p n_parent; pp ← ptr pp;
            int_avl_rotate_right pp
      else
        pb ← rd parent n_balance; wr parent (set_balance (pb + 1));;
        pb ← rd parent n_balance;
        if pb =? 0 then mret tt
        else if pb =? 1 then int_post_insert f parent
        else
          nb ← rd node n_balance;
          if nb =? 1 then int_avl_rotate_left parent
          else
            int_avl_rotate_right node;;
            p ← rd node n_parent; p ← ptr p;
            pp ← rd p n_parent; pp ← ptr pp;
            int_avl_rotate_left pp
    end
  end.

Definition int_avl_insert_before (pos_node node : loc) : AM unit :=
  on_lists (list_add_before pos_node node);;
  c ← get_tree count; set_count (c + 1).

Definition int_avl_insert_after (pos_node node : loc) : AM unit :=
  on_lists (list_add_after pos_node node);;
  c ← get_tree count; set_count (c + 1).

Definition int_avl_remove (node : loc) : AM unit :=
  on_lists (list_remove node);;
  c ← get_tree count; set_count (c - 1).

(** The loop of [avl_insert] that looks for the last node with the key of [last]. *)
Fixpoint insert_last (f : nat) (last : loc) : AM loc :=
  match f with
  | O => se_fail
  | S f =>
    hd ← get_tree list_head;
    is_last ← on_lists (list_is_last hd last);
    if (is_last : bool) then mret last else
      n ← on_lists (rd_next last);
      next ← ptr n;
      ldr ← rd next n_leader;
      if (ldr : bool) then mret last else insert_last f next
  end.

Definition avl_insert (new : loc) : AM Z :=
  wr new (set_parent None);;
  wr new (set_left None);;
  wr new (set_right None);;
  wr new (set_balance 0);;
  wr new (set_leader true);;
  r ← get_tree root;
  match r with
  | None =>
    hd ← get_tree list_head;
    on_lists (list_add_head hd new);;
    set_root (Some new);;
    set_count 1;;
    mret 0
  | Some r =>
    f ← fuel;
    key ← rd new n_key;
    nd ← int_avl_find_rec f r key;
    let node := fst nd in
    last ← insert_last f node;
    nkey ← rd node n_key;
    let diff := comp key nkey in
    if diff =? 0 then
      dups ← get_tree allow_dups;
      if negb dups then mret (-1) else
        wr new (set_leader false);;
        int_avl_insert_after last new;;
        mret 0
    else
      b ← rd node n_balance;
      if b =? 1 then
        int_avl_insert_before node new;;
        wr node (set_balance 0);;
        wr new (set_parent (Some node));;
        wr node (set_left (Some new));;
        mret 0
      else if b =? -1 then
        int_avl_insert_after last new;;
        wr node (set_balance 0);;
        wr new (set_parent (Some node));;
        wr node (set_right (Some new));;
        mret 0
      else if diff <? 0 then
        int_avl_insert_before node new;;
        wr node (set_balance (-1));;
        wr new (set_parent (Some node));;
        wr node (set_left (Some new));;
        int_post_insert f node;;
        mret 0
      else
        int_avl_insert_after last new;;
        wr node (set_balance 1);;
        wr new (set_parent (Some node));;
        wr node (set_right (Some new));;
        int_post_insert f node;;
        mret 0
  end.

Fixpoint int_avl_post_delete (f : nat) (node : loc) : AM unit :=
  match f with
  | O => se_fail
  | S f =>
    par ← rd node n_parent;
    match par with
    | None => mret tt
    | Some parent =>
      pl ← rd parent n_left;
      if bool_decide (pl = Some node) then
        pb ← rd parent n_balance; wr parent (set_balance (pb + 1));;
        pb ← rd parent n_balance;
        if pb =? 0 then int_avl_post_delete f parent
        else if pb =? 1 then mret tt
        else
          pr ← rd parent n_right; pr ← ptr pr; rb ← rd pr n_balance;
          if rb =? 0 then int_avl_rotate_left parent
          else if rb =? 1 then
            int_avl_rotate_left parent;;
            pp ← rd parent n_parent; pp ← ptr pp; int_avl_post_delete f pp
          else
            int_avl_rotate_right pr;;
            int_avl_rotate_left parent;;
            pp ← rd parent n_parent; pp ← ptr pp; int_avl_post_delete f pp
      else
        pb ← rd parent n_balance; wr parent (set_balance (pb - 1));;
        pb ← rd parent n_balance;
        if pb =? 0 then int_avl_post_delete f parent
        else if pb =? -1 then mret tt
        else
          pl ← rd parent n_left; pl ← ptr pl; lb ← rd pl n_balance;
          if lb =? 0 then int_avl_rotate_right parent
          else if lb =? -1 then
            int_avl_rotate_right parent;;
            pp ← rd parent n_parent; pp ← ptr pp; int_avl_post_delete f pp
          else
            int_avl_rotate_left pl;;
            int_avl_rotate_right parent;;
            pp ← rd parent n_parent; pp ← ptr pp; int_avl_post_delete f pp
    end
  end.

Fixpoint int_avl_local_min (f : nat) (node : loc) : AM loc :=
  match f with
  | O => se_fail
  | S f =>
    l ← rd node n_left;
    match l with
    | None => mret node
    | Some l => int_avl_local_min f l
    end
  end.

(** The two branches of [int_avl_delete_worker] for a leaf with a parent: it is
    unhooked on the left ([delete_leaf_left]) or on the right. *)
Definition delete_leaf_left (f : nat) (parent : loc) : AM unit :=
  wr parent (set_left None);;
  pb ← rd parent n_balance; wr parent (set_balance (pb + 1));;
  pb ← rd parent n_balance;
  if pb =? 1 then mret tt
  else if pb =? 0 then int_avl_post_delete f parent
  else
    pr ← rd parent n_right; pr ← ptr pr; rb ← rd pr n_balance;
    if rb =? 0 then int_avl_rotate_left parent
    else if rb =? 1 then
      int_avl_rotate_left parent;;
      pp ← rd parent n_parent; pp ← ptr pp; int_avl_post_delete f pp
    else
      int_avl_rotate_right pr;;
      int_avl_rotate_left parent;;
      pp ← rd parent n_parent; pp ← ptr pp; int_avl_post_delete f pp.

Definition delete_leaf_right (f : nat) (parent : loc) : AM unit :=
  wr parent (set_right None);;
  pb ← rd parent n_balance; wr parent (set_balance (pb - 1));;
  pb ← rd parent n_balance;
  if pb =? -1 then mret tt
  else if pb =? 0 then int_avl_post_delete f parent
  else
    pl ← rd parent n_left; pl ← ptr pl; lb ← rd pl n_balance;
    if lb =? 0 then int_avl_rotate_right parent
    else if lb =? -1 then
      int_avl_rotate_right parent;;
      pp ← rd parent n_parent; pp ← ptr pp; int_avl_post_delete f pp
    else
      int_avl_rotate_left pl;;
      int_avl_rotate_right parent;;
      pp ← rd parent n_parent; pp ← ptr pp; int_avl_post_delete f pp.

(** The branches for a node with one child [c]. *)
Definition delete_one_child (f : nat) (node : loc) (parent : option loc) (c : loc) : AM unit :=
  match parent with
  | None => set_root (Some c);; wr c (set_parent None)
  | Some p =>
    wr c (set_parent (Some p));;
    replace_child parent node c;;
    int_avl_post_delete f c
  end.

(** [d] bounds the recursion of the function on itself. *)
Fixpoint int_avl_delete_worker (d f : nat) (node : loc) : AM unit :=
  match d with
  | O => se_fail
  | S d =>
    parent ← rd node n_parent;
    l ← rd node n_left;
    r ← rd node n_right;
    let others : AM unit :=
      match l with
      | None => c ← ptr r; delete_one_child f node parent c
      | Some lc =>
        match r with
        | None => delete_one_child f node parent lc
        | Some rc =>
          min ← int_avl_local_min f rc;
          int_avl_delete_worker d f min;;
          parent ← rd node n_parent;
          nb ← rd node n_balance; wr min (set_balance nb);;
          wr min (set_parent parent);;
          nl ← rd node n_left; wr min (set_left nl);;
          nr ← rd node n_right; wr min (set_right nr);;
          ml ← rd min n_left; opt_reparent ml min;;
          mr ← rd min n_right; opt_reparent mr min;;
          replace_child parent node min
        end
      end in
    if bool_decide (l = None) && bool_decide (r = None) then
      match parent with
      | None => set_root None
      | Some p =>
        pl ← rd p n_left;
        if bool_decide (pl = Some node) then delete_leaf_left f p else
          pr ← rd p n_right;
          if bool_decide (pr = Some node) then delete_leaf_right f p else others
      end
    else others
  end.

Definition avl_remove (node : loc) : AM unit :=
  ldr ← rd node n_leader;
  (if (ldr : bool) then
    dups ← get_tree allow_dups;
    hd ← get_tree list_head;
    is_last ← on_lists (list_is_last hd node);
    promoted ← (if (dups : bool) && negb is_last then
        n ← on_lists (rd_next node); next ← ptr n;
        nldr ← rd next n_leader; mret (if (nldr : bool) then None else Some next)
      else mret None);
    match promoted with
    | Some next =>
      wr next (set_leader true);;
      nb ← rd node n_balance; wr next (set_balance nb);;
      parent ← rd node n_parent;
      left ← rd node n_left;
      right ← rd node n_right;
      wr next (set_parent parent);;
      wr next (set_left left);;
      wr next (set_right right);;
      replace_child parent node next;;
      opt_reparent left next;;
      opt_reparent right next
    | None => f ← fuel; int_avl_delete_worker 2 f node
    end
  else mret tt);;
  int_avl_remove node.

(** [avl_delete], the legacy name of [avl_remove] *)
Definition avl_delete (node : loc) : AM unit := avl_remove node.

(** ** [avl.h] *)
Definition avl_is_first (node : loc) : AM bool :=
  hd ← get_tree list_head; n ← on_lists (rd_next hd); mret (bool_decide (n = Some node)).
Definition avl_is_last (node : loc) : AM bool :=
  hd ← get_tree list_head; p ← on_lists (rd_prev hd); mret (bool_decide (p = Some node)).
Definition avl_is_empty : AM bool := c ← get_tree count; mret (c =? 0).

End avl.

Arguments avl_node : clear implicits.
Arguments avl_st : clear implicits.
