(* ===== verification/AvlTree.v ===== *)
(** * AVL trees as terms

    The tree that the pointers of [AvlHeap] form is a term [ptree] whose nodes
    carry the address and the balance field; the path from a node to the root,
    which the C code walks through the parent pointers, is a list of [frame]s
    (a zipper). The functions [rot_r], [rot_l], [zpost_insert] and
    [zpost_delete] are what the pointer operations compute on such terms. This
    file proves that they keep the in-order sequence and re-establish the
    balance invariant; [AvlRefine] proves that the pointer code computes them. *)
From S2P Require Import Prelude AvlHeap.

Inductive ptree :=
  | E
  | T (l : ptree) (p : loc) (b : Z) (r : ptree).

(** One step of the path to the root: the hole is the left or the right child. *)
Inductive frame :=
  | FL (p : loc) (b : Z) (r : ptree)
  | FR (l : ptree) (p : loc) (b : Z).

Definition fill (f : frame) (t : ptree) : ptree :=
  match f with FL p b r => T t p b r | FR l p b => T l p b t end.

Fixpoint plug (c : list frame) (t : ptree) : ptree :=
  match c with [] => t | f :: c => plug c (fill f t) end.

Fixpoint inorder (t : ptree) : list loc :=
  match t with E => [] | T l p _ r => inorder l ++ p :: inorder r end.

Fixpoint height (t : ptree) : Z :=
  match t with E => 0 | T l _ _ r => 1 + Z.max (height l) (height r) end.

Fixpoint tsize (t : ptree) : nat :=
  match t with E => 0 | T l _ _ r => S (tsize l + tsize r) end.

(** Balance field of the root. *)
Definition tbal (t : ptree) : Z := match t with E => 0 | T _ _ b _ => b end.

(** The balance fields are right and the heights of siblings differ by one at most. *)
Fixpoint avl (t : ptree) : Prop :=
  match t with
  | E => True
  | T l _ b r => avl l /\ avl r /\ b = height r - height l /\ -1 <= b <= 1
  end.

(** A path whose hole expects an AVL tree of height [h]. *)
Fixpoint ctx_avl (c : list frame) (h : Z) : Prop :=
  match c with
  | [] => True
  | FL _ b r :: c => avl r /\ b = height r - h /\ -1 <= b <= 1 /\ ctx_avl c (1 + Z.max h (height r))
  | FR l _ b :: c => avl l /\ b = h - height l /\ -1 <= b <= 1 /\ ctx_avl c (1 + Z.max (height l) h)
  end.

(** ** The operations on terms *)
Definition rot_r (t : ptree) : ptree :=
  match t with
  | T (T a x bx b) y by_ c =>
    let by' := s8 (by_ + (1 - int_avl_min bx 0)) in
    let bx' := s8 (bx + (1 + int_avl_max by' 0)) in
    T a x bx' (T b y by' c)
  | _ => t
  end.

Definition rot_l (t : ptree) : ptree :=
  match t with
  | T a x bx (T b y by_ c) =>
    let bx' := s8 (bx - (1 + int_avl_max by_ 0)) in
    let by' := s8 (by_ - (1 - int_avl_min bx' 0)) in
    T (T a x bx' b) y by' c
  | _ => t
  end.

Fixpoint zpost_insert (c : list frame) (t : ptree) : ptree :=
  match c with
  | [] => t
  | FL p b r :: c =>
    let b' := s8 (b - 1) in
    if b' =? 0 then plug c (T t p b' r)
    else if b' =? -1 then zpost_insert c (T t p b' r)
    else if tbal t =? -1 then plug c (rot_r (T t p b' r))
    else plug c (rot_r (T (rot_l t) p b' r))
  | FR l p b :: c =>
    let b' := s8 (b + 1) in
    if b' =? 0 then plug c (T l p b' t)
    else if b' =? 1 then zpost_insert c (T l p b' t)
    else if tbal t =? 1 then plug c (rot_l (T l p b' t))
    else plug c (rot_l (T l p b' (rot_r t)))
  end.

Fixpoint zpost_delete (c : list frame) (t : ptree) : ptree :=
  match c with
  | [] => t
  | FL p b r :: c =>
    let b' := s8 (b + 1) in
    if b' =? 0 then zpost_delete c (T t p b' r)
    else if b' =? 1 then plug c (T t p b' r)
    else if tbal r =? 0 then plug c (rot_l (T t p b' r))
    else if tbal r =? 1 then zpost_delete c (rot_l (T t p b' r))
    else zpost_delete c (rot_l (T t p b' (rot_r r)))
  | FR l p b :: c =>
    let b' := s8 (b - 1) in
    if b' =? 0 then zpost_delete c (T l p b' t)
    else if b' =? -1 then plug c (T l p b' t)
    else if tbal l =? 0 then plug c (rot_r (T l p b' t))
    else if tbal l =? -1 then zpost_delete c (rot_r (T l p b' t))
    else zpost_delete c (rot_r (T (rot_l l) p b' t))
  end.

Arguments rot_r : simpl never.
Arguments rot_l : simpl never.

(** ** Paths *)
Fixpoint cpre (c : list frame) : list loc :=
  match c with
  | [] => []
  | FL _ _ _ :: c => cpre c
  | FR l p _ :: c => cpre c ++ inorder l ++ [p]
  end.
Fixpoint cpost (c : list frame) : list loc :=
  match c with
  | [] => []
  | FL p _ r :: c => p :: inorder r ++ cpost c
  | FR _ _ _ :: c => cpost c
  end.

Lemma inorder_plug c t : inorder (plug c t) = cpre c ++ inorder t ++ cpost c.
Proof.
  revert t. induction c as [|[] c IH]; intros t0; simpl.
  - by rewrite app_nil_r.
  - rewrite IH. simpl. by rewrite <- !app_assoc.
  - rewrite IH. simpl. by rewrite <- !app_assoc.
Qed.

Lemma cpre_app c1 c2 : cpre (c1 ++ c2) = cpre c2 ++ cpre c1.
Proof. induction c1 as [|[] c1 IH]; simpl; [by rewrite app_nil_r|done|]. by rewrite IH, <- !app_assoc. Qed.
Lemma cpost_app c1 c2 : cpost (c1 ++ c2) = cpost c1 ++ cpost c2.
Proof. induction c1 as [|[] c1 IH]; simpl; [done| |done]. by rewrite IH, app_assoc. Qed.

Lemma inorder_rot_r t : inorder (rot_r t) = inorder t.
Proof. unfold rot_r. destruct t as [|[|a x bx b] y by_ c]; simpl; [done..|]. by rewrite <- app_assoc. Qed.
Lemma inorder_rot_l t : inorder (rot_l t) = inorder t.
Proof. unfold rot_l. destruct t as [|a x bx [|b y by_ c]]; simpl; [done..|]. by rewrite <- app_assoc. Qed.

Lemma plug_inorder c t t' : inorder t = inorder t' -> inorder (plug c t) = inorder (plug c t').
Proof. intros H. by rewrite !inorder_plug, H. Qed.

Lemma inorder_zpost_insert c t : inorder (zpost_insert c t) = inorder (plug c t).
Proof.
  revert t. induction c as [|[p b r|l p b] c IH]; intros t; simpl; [done|..];
    repeat case_match; rewrite ?IH; apply plug_inorder;
    rewrite ?inorder_rot_l, ?inorder_rot_r; simpl; by rewrite ?inorder_rot_l, ?inorder_rot_r.
Qed.

Lemma inorder_zpost_delete c t : inorder (zpost_delete c t) = inorder (plug c t).
Proof.
  revert t. induction c as [|[p b r|l p b] c IH]; intros t; simpl; [done|..];
    repeat case_match; rewrite ?IH; apply plug_inorder;
    rewrite ?inorder_rot_l, ?inorder_rot_r; simpl; by rewrite ?inorder_rot_l, ?inorder_rot_r.
Qed.

(** ** Balance *)
Lemma height_nonneg t : 0 <= height t.
Proof. induction t; simpl; lia. Qed.

Lemma avl_plug c t : avl (plug c t) <-> avl t /\ ctx_avl c (height t).
Proof.
  revert t. induction c as [|[p b r|l p b] c IH]; intros t; simpl; [tauto|..];
    rewrite IH; simpl; tauto.
Qed.

Lemma s8_small x : -128 <= x < 128 -> s8 x = x.
Proof. intros. apply wraps_id; simpl; lia. Qed.

Lemma int_avl_min_min x y : int_avl_min x y = Z.min x y.
Proof. unfold int_avl_min. case_cmp; lia. Qed.
Lemma int_avl_max_max x y : int_avl_max x y = Z.max x y.
Proof. unfold int_avl_max. rewrite Z.gtb_ltb. case_cmp; lia. Qed.

Ltac rot_solve :=
  unfold rot_r, rot_l; simpl; rewrite ?int_avl_min_min, ?int_avl_max_max; subst;
  repeat match goal with
  | |- context [wraps 8 ?x] =>
    lazymatch x with context [wraps] => fail | _ => rewrite (s8_small x) by lia end
  end; repeat split; try done; lia.

(** A single rotation of a node that is two levels too heavy on one side. *)
Lemma rot_r_avl a x bx b y c :
  avl a -> avl b -> avl c -> bx = height b - height a -> -1 <= bx <= 0 ->
  height c = height a - 1 ->
  let t := rot_r (T (T a x bx b) y (-2) c) in avl t /\ height t = height a + 2 + bx.
Proof. intros. subst t. rot_solve. Qed.

Lemma rot_l_avl a x b y by_ c :
  avl a -> avl b -> avl c -> by_ = height c - height b -> 0 <= by_ <= 1 ->
  height a = height c - 1 ->
  let t := rot_l (T a x 2 (T b y by_ c)) in avl t /\ height t = height c + 2 - by_.
Proof. intros. subst t. rot_solve. Qed.

(** The double rotations. *)
Lemma rot_lr_avl a x b z bz c y d :
  avl a -> avl b -> avl c -> avl d -> bz = height c - height b -> -1 <= bz <= 1 ->
  height a = Z.max (height b) (height c) -> height d = height a ->
  let t := rot_r (T (rot_l (T a x 1 (T b z bz c))) y (-2) d) in avl t /\ height t = height a + 2.
Proof. intros. subst t. rot_solve. Qed.

Lemma rot_rl_avl a x b z bz c y d :
  avl a -> avl b -> avl c -> avl d -> bz = height c - height b -> -1 <= bz <= 1 ->
  height d = Z.max (height b) (height c) -> height a = height d ->
  let t := rot_l (T a x 2 (rot_r (T (T b z bz c) y (-1) d))) in avl t /\ height t = height a + 2.
Proof. intros. subst t. rot_solve. Qed.

Lemma zpost_insert_avl c t :
  avl t -> tbal t <> 0 -> ctx_avl c (height t - 1) -> avl (zpost_insert c t).
Proof.
  revert t. induction c as [|[p b r|l p b] c IH]; intros t Ht Hb Hc; simpl; [done|..];
    simpl in Hc; destruct Hc as (H1 & H2 & H3 & H4); rewrite s8_small by lia; case_cmp.
  - apply avl_plug. simpl. rewrite (Z.max_l (height t)) by lia.
    rewrite Z.max_r in H4 by lia. repeat split; try done; try lia. by replace (height t) with (height r) by lia.
  - apply IH; simpl; [repeat split; try done; lia|lia|].
    rewrite Z.max_l by lia. rewrite Z.max_l in H4 by lia. by replace (1 + height t - 1) with (1 + (height t - 1)) by lia.
  - destruct t as [|a x bx b']; simpl in *; [lia|]. destruct Ht as (? & ? & ? & ?).
    replace (b - 1) with (-2) by lia. destruct (rot_r_avl a x bx b' p r) as [? E]; try done; try lia.
    apply avl_plug. split; [done|]. rewrite E. rewrite Z.max_l in H4 by lia.
    by replace (height a + 2 + bx) with (1 + (1 + Z.max (height a) (height b') - 1)) by lia.
  - destruct t as [|a x bx b']; simpl in *; [lia|]. destruct Ht as (? & ? & ? & ?).
    destruct b' as [|b1 z bz b2]; simpl in *; [pose proof (height_nonneg a); lia|].
    replace (b - 1) with (-2) by lia. replace bx with 1 by lia. destruct_and!.
    destruct (rot_lr_avl a x b1 z bz b2 p r) as [? E]; try done; try lia.
    apply avl_plug. split; [done|]. rewrite E. rewrite Z.max_l in H4 by lia.
    by replace (height a + 2) with (1 + (1 + Z.max (height a) (1 + Z.max (height b1) (height b2)) - 1)) by lia.
  - apply avl_plug. simpl. rewrite (Z.max_r (height l)) by lia.
    rewrite Z.max_l in H4 by lia. repeat split; try done; try lia. by replace (height t) with (height l) by lia.
  - apply IH; simpl; [repeat split; try done; lia|lia|].
    rewrite Z.max_r by lia. rewrite Z.max_r in H4 by lia. by replace (1 + height t - 1) with (1 + (height t - 1)) by lia.
  - destruct t as [|a x bx b']; simpl in *; [lia|]. destruct Ht as (? & ? & ? & ?).
    replace (b + 1) with 2 by lia. destruct (rot_l_avl l p a x bx b') as [? E]; try done; try lia.
    apply avl_plug. split; [done|]. rewrite E. rewrite Z.max_r in H4 by lia.
    by replace (height b' + 2 - bx) with (1 + (1 + Z.max (height a) (height b') - 1)) by lia.
  - destruct t as [|a x bx b']; simpl in *; [lia|]. destruct Ht as (? & ? & ? & ?).
    destruct a as [|b1 z bz b2]; simpl in *; [pose proof (height_nonneg b'); lia|].
    replace (b + 1) with 2 by lia. replace bx with (-1) by lia. destruct_and!.
    destruct (rot_rl_avl l p b1 z bz b2 x b') as [? E]; try done; try lia.
    apply avl_plug. split; [done|]. rewrite E. rewrite Z.max_r in H4 by lia.
    by replace (height l + 2) with (1 + (1 + Z.max (1 + Z.max (height b1) (height b2)) (height b') - 1)) by lia.
Qed.

Lemma zpost_delete_avl c t :
  avl t -> ctx_avl c (height t + 1) -> avl (zpost_delete c t).
Proof.
  revert t. induction c as [|[p b r|l p b] c IH]; intros t Ht Hc; simpl; [done|..];
    simpl in Hc; destruct Hc as (H1 & H2 & H3 & H4); rewrite s8_small by lia; case_cmp;
    pose proof (height_nonneg t).
  - apply IH; simpl; [repeat split; try done; lia|].
    rewrite Z.max_l by lia. rewrite Z.max_l in H4 by lia.
    by replace (1 + height t + 1) with (1 + (height t + 1)) by lia.
  - apply avl_plug. simpl. rewrite Z.max_r by lia. rewrite Z.max_r in H4 by lia.
    repeat split; try done; lia.
  - destruct r as [|a x bx b']; simpl in *; [lia|]. destruct H1 as (? & ? & ? & ?).
    replace (b + 1) with 2 by lia. destruct (rot_l_avl t p a x bx b') as [? E]; try done; try lia.
    apply avl_plug. split; [done|]. rewrite E. rewrite Z.max_r in H4 by lia.
    by replace (height b' + 2 - bx) with (1 + (1 + Z.max (height a) (height b'))) by lia.
  - destruct r as [|a x bx b']; simpl in *; [lia|]. destruct H1 as (? & ? & ? & ?).
    replace (b + 1) with 2 by lia. destruct (rot_l_avl t p a x bx b') as [? E]; try done; try lia.
    apply IH; [done|]. rewrite E. rewrite Z.max_r in H4 by lia.
    by replace (height b' + 2 - bx + 1) with (1 + (1 + Z.max (height a) (height b'))) by lia.
  - destruct r as [|a x bx b']; simpl in *; [lia|]. destruct H1 as (? & ? & ? & ?).
    destruct a as [|b1 z bz b2]; simpl in *; [pose proof (height_nonneg b'); lia|].
    replace (b + 1) with 2 by lia. replace bx with (-1) by lia. destruct_and!.
    destruct (rot_rl_avl t p b1 z bz b2 x b') as [? E]; try done; try lia.
    apply IH; [done|]. rewrite E. rewrite Z.max_r in H4 by lia.
    by replace (height t + 2 + 1) with (1 + (1 + Z.max (1 + Z.max (height b1) (height b2)) (height b'))) by lia.
  - apply IH; simpl; [repeat split; try done; lia|].
    rewrite Z.max_r by lia. rewrite Z.max_r in H4 by lia.
    by replace (1 + height t + 1) with (1 + (height t + 1)) by lia.
  - apply avl_plug. simpl. rewrite Z.max_l by lia. rewrite Z.max_l in H4 by lia.
    repeat split; try done; lia.
  - destruct l as [|a x bx b']; simpl in *; [lia|]. destruct H1 as (? & ? & ? & ?).
    replace (b - 1) with (-2) by lia. destruct (rot_r_avl a x bx b' p t) as [? E]; try done; try lia.
    apply avl_plug. split; [done|]. rewrite E. rewrite Z.max_l in H4 by lia.
    by replace (height a + 2 + bx) with (1 + (1 + Z.max (height a) (height b'))) by lia.
  - destruct l as [|a x bx b']; simpl in *; [lia|]. destruct H1 as (? & ? & ? & ?).
    replace (b - 1) with (-2) by lia. destruct (rot_r_avl a x bx b' p t) as [? E]; try done; try lia.
    apply IH; [done|]. rewrite E. rewrite Z.max_l in H4 by lia.
    by replace (height a + 2 + bx + 1) with (1 + (1 + Z.max (height a) (height b'))) by lia.
  - destruct l as [|a x bx b']; simpl in *; [lia|]. destruct H1 as (? & ? & ? & ?).
    destruct b' as [|b1 z bz b2]; simpl in *; [pose proof (height_nonneg a); lia|].
    replace (b - 1) with (-2) by lia. replace bx with 1 by lia. destruct_and!.
    destruct (rot_lr_avl a x b1 z bz b2 p t) as [? E]; try done; try lia.
    apply IH; [done|]. rewrite E. rewrite Z.max_l in H4 by lia.
    by replace (height a + 2 + 1) with (1 + (1 + Z.max (height a) (1 + Z.max (height b1) (height b2)))) by lia.
Qed.

Lemma tsize_inorder t : tsize t = length (inorder t).
Proof. induction t; simpl; [done|]. rewrite length_app. simpl. lia. Qed.

(** ** Height

    An AVL tree of height [h] has at least [fib (h + 2) - 1] nodes, so a lookup
    visits a number of nodes that is logarithmic in the size of the tree. *)
Lemma avl_size_height n t :
  avl t -> height t = Z.of_nat n -> (2 ^ (n / 2) <= S (tsize t))%nat.
Proof.
  revert t. induction n as [n IH] using lt_wf_ind. intros t Ht Hh.
  destruct (decide (n < 2)%nat) as [Hn|Hn].
  { rewrite Nat.div_small by lia. simpl. lia. }
  destruct t as [|l p b r]; simpl in Ht, Hh; cbn [tsize]; [lia|].
  destruct Ht as (Hl & Hr & Hb & Hb').
  assert (Hn2 : (n / 2 = S ((n - 2) / 2))%nat).
  { replace n with (1 * 2 + (n - 2))%nat at 1 by lia. rewrite Nat.div_add_l by lia. lia. }
  rewrite Hn2, Nat.pow_succ_r'.
  assert (Hmono : (2 ^ ((n - 2) / 2) <= 2 ^ ((n - 1) / 2))%nat).
  { apply Nat.pow_le_mono_r; [lia|]. apply Nat.Div0.div_le_mono. lia. }
  assert (Hsub : forall u, avl u -> Z.of_nat n - 2 <= height u <= Z.of_nat n - 1 ->
    (2 ^ ((n - 2) / 2) <= S (tsize u))%nat).
  { intros u Hu Hhu. destruct (decide (height u = Z.of_nat n - 1)).
    - specialize (IH (n - 1)%nat ltac:(lia) u Hu ltac:(lia)). lia.
    - apply (IH (n - 2)%nat ltac:(lia) u Hu). lia. }
  pose proof (Hsub l Hl ltac:(lia)). pose proof (Hsub r Hr ltac:(lia)). lia.
Qed.
