(* ===== verification/AvlRefine.v ===== *)
(** * The pointer code computes the operations on terms

    [tree_ok s t] says that the pointers of the state [s] form the tree [t].
    For every function of [AvlHeap] that changes the tree there is a lemma that
    its run from such a state succeeds, which tree the new pointers form, and
    that keys, leader flags, the list and all other nodes are kept. *)
From S2P Require Import Prelude Lists AvlHeap AvlTree.

(** ** Counting addresses

    A tree has no address twice when every address occurs at most once; as
    counts are numbers, [lia] proves that two nodes are different. *)
Definition one (q p : loc) : nat := if decide (q = p) then 1%nat else 0%nat.

Fixpoint occ (q : loc) (t : ptree) : nat :=
  match t with E => 0 | T l p _ r => occ q l + one q p + occ q r end.

Fixpoint cocc (q : loc) (c : list frame) : nat :=
  match c with
  | [] => 0
  | FL p _ r :: c => one q p + occ q r + cocc q c
  | FR l p _ :: c => one q p + occ q l + cocc q c
  end.

Lemma one_refl p : one p p = 1%nat.
Proof. unfold one. by rewrite decide_True. Qed.
Lemma one_zero q p : one q p = 0%nat -> q <> p.
Proof. unfold one. by case_decide. Qed.
Lemma one_neq q p : q <> p -> one q p = 0%nat.
Proof. intros. unfold one. by rewrite decide_False. Qed.

Lemma occ_plug q c t : occ q (plug c t) = (occ q t + cocc q c)%nat.
Proof. revert t. induction c as [|[] c IH]; intros; simpl; [lia|rewrite IH; simpl; lia..]. Qed.

Lemma occ_inorder q t : (0 < occ q t)%nat <-> q ∈ inorder t.
Proof.
  induction t as [|l IHl p b r IHr]; simpl; [split; [lia|by intros ?%not_elem_of_nil]|].
  rewrite elem_of_app, elem_of_cons, <- IHl, <- IHr. unfold one. case_decide; naive_solver lia.
Qed.

Lemma occ_NoDup t : (forall q, occ q t <= 1)%nat <-> NoDup (inorder t).
Proof.
  induction t as [|l IHl p b r IHr]; simpl.
  { split; [intros; constructor|lia]. }
  rewrite NoDup_app, NoDup_cons, <- IHl, <- IHr. split.
  - intros U. split_and!.
    + intros q. specialize (U q). lia.
    + intros q Hq%occ_inorder. rewrite elem_of_cons, <- occ_inorder.
      pose proof (U q). pose proof (one_refl q). intros [->|?]; lia.
    + rewrite <- occ_inorder. pose proof (U p). pose proof (one_refl p). lia.
    + intros q. specialize (U q). lia.
  - intros (U1 & D & Np & U2) q. specialize (U1 q). specialize (U2 q).
    rewrite <- occ_inorder in Np.
    assert (0 < occ q l -> ~ (q = p \/ 0 < occ q r))%nat.
    { intros ?%occ_inorder. rewrite occ_inorder, <- elem_of_cons. by apply D. }
    assert (q = p -> ~ 0 < occ q r)%nat by (by intros ->).
    unfold one. case_decide; destruct (decide (0 < occ q l)%nat); naive_solver lia.
Qed.

(** Address of the root. *)
Definition rt (t : ptree) : option loc := match t with E => None | T _ p _ _ => Some p end.

Definition fpos (f : frame) : loc := match f with FL p _ _ => p | FR _ p _ => p end.
Definition cpar (c : list frame) : option loc := fpos <$> head c.
Fixpoint croot (c : list frame) (hole : option loc) : option loc :=
  match c with [] => hole | f :: c => croot c (Some (fpos f)) end.

Lemma rt_plug c t : rt (plug c t) = croot c (rt t).
Proof. revert t. induction c as [|[] c IH]; intros; simpl; [done|apply IH..]. Qed.

Section refine.
Context {K : Type}.
Implicit Types (N : gmap loc (avl_node K)) (s : avl_st K).

(** The node at [p] has these tree fields. *)
Definition node_at N (p : loc) (par l r : option loc) (b : Z) : Prop :=
  exists n, N !! p = Some n /\ n_parent n = par /\ n_left n = l /\ n_right n = r /\ n_balance n = b.

Fixpoint tree_at N (par : option loc) (t : ptree) : Prop :=
  match t with
  | E => True
  | T l p b r => node_at N p par (rt l) (rt r) b /\ tree_at N (Some p) l /\ tree_at N (Some p) r
  end.

Fixpoint ctx_at N (c : list frame) (hole : option loc) : Prop :=
  match c with
  | [] => True
  | FL p b r :: c => node_at N p (cpar c) hole (rt r) b /\ tree_at N (Some p) r /\ ctx_at N c (Some p)
  | FR l p b :: c => node_at N p (cpar c) (rt l) hole b /\ tree_at N (Some p) l /\ ctx_at N c (Some p)
  end.

Lemma tree_at_plug N c t : tree_at N None (plug c t) <-> tree_at N (cpar c) t /\ ctx_at N c (rt t).
Proof. revert t. induction c as [|[] c IH]; intros; simpl; [tauto|rewrite IH; simpl; tauto..]. Qed.

Lemma node_at_frame N N' p par l r b :
  N' !! p = N !! p -> node_at N p par l r b -> node_at N' p par l r b.
Proof. intros H (n & Hn & ?). exists n. by rewrite H. Qed.

Lemma tree_at_frame N N' par t :
  (forall q, 0 < occ q t -> N' !! q = N !! q)%nat -> tree_at N par t -> tree_at N' par t.
Proof.
  revert par. induction t as [|l IHl p b r IHr]; intros par HF; simpl; [done|].
  intros (Hn & Hl & Hr). split_and!.
  - revert Hn. apply node_at_frame, HF. simpl. rewrite one_refl. lia.
  - apply IHl; [|done]. intros q Hq. apply HF. simpl. lia.
  - apply IHr; [|done]. intros q Hq. apply HF. simpl. lia.
Qed.

Lemma ctx_at_frame N N' c hole :
  (forall q, 0 < cocc q c -> N' !! q = N !! q)%nat -> ctx_at N c hole -> ctx_at N' c hole.
Proof.
  revert hole. induction c as [|[p b r|l p b] c IH]; intros hole HF; simpl; [done|..];
    (intros (Hn & Ht & Hc); split_and!;
    [revert Hn; apply node_at_frame, HF; simpl; rewrite one_refl; lia
    |revert Ht; apply tree_at_frame; intros q Hq; apply HF; simpl; lia
    |apply IH; [|done]; intros q Hq; apply HF; simpl; lia]).
Qed.

(** Only the parent pointer of the root of [t] changes. *)
Lemma tree_at_reparent N N' par par' t :
  (forall q, occ q t <= 1)%nat ->
  (forall q, 0 < occ q t -> rt t <> Some q -> N' !! q = N !! q)%nat ->
  (forall g n, rt t = Some g -> N !! g = Some n -> N' !! g = Some (set_parent par' n)) ->
  tree_at N par t -> tree_at N' par' t.
Proof.
  destruct t as [|l p b r]; simpl; [done|]. intros U HF HR ((n & Hn & ? & ? & ? & ?) & Hl & Hr).
  split_and!.
  - exists (set_parent par' n). split; [by apply HR|done].
  - revert Hl. apply tree_at_frame. intros q Hq. apply HF; [lia|]. intros [= ->].
    specialize (U q). rewrite one_refl in U. lia.
  - revert Hr. apply tree_at_frame. intros q Hq. apply HF; [lia|]. intros [= ->].
    specialize (U q). rewrite one_refl in U. lia.
Qed.

(** ** Runs of the memory accesses *)
Lemma rd_run {A} s p n (f : avl_node K -> A) : nodes s !! p = Some n -> rd p f s = Some (s, f n).
Proof. intros H. unfold rd. by rewrite H. Qed.

Definition upd s (p : loc) (n : avl_node K) : avl_st K := mkSt (tree s) (<[p := n]> (nodes s)) (lists s).

Lemma wr_run s p n g : nodes s !! p = Some n -> wr p g s = Some (upd s p (g n), tt).
Proof. intros H. unfold wr. by rewrite H. Qed.

Definition data (n : avl_node K) : K * bool := (n_key n, n_leader n).

(** What an operation on the tree pointers leaves alone: the list, the fields of
    the tree other than the root, keys and leader flags, and every node outside [D]. *)
Record kept (D : loc -> Prop) s s' : Prop := {
  k_lists : lists s' = lists s;
  k_head : list_head (tree s') = list_head (tree s);
  k_count : count (tree s') = count (tree s);
  k_dups : allow_dups (tree s') = allow_dups (tree s);
  k_data : forall q, data <$> nodes s' !! q = data <$> nodes s !! q;
  k_frame : forall q, ~ D q -> nodes s' !! q = nodes s !! q
}.

Lemma kept_refl D s : kept D s s.
Proof. by split. Qed.

Lemma kept_trans D s s' s'' : kept D s s' -> kept D s' s'' -> kept D s s''.
Proof.
  intros [] []. split; [congruence..|]. intros q Hq. rewrite k_frame1 by done. by apply k_frame0.
Qed.
Lemma kept_weaken (D D' : loc -> Prop) s s' : kept D s s' -> (forall q, D q -> D' q) -> kept D' s s'.
Proof. intros [] H. split; try done. intros q Hq. apply k_frame0. by intros ?%H. Qed.

Lemma kept_upd D s p n n' :
  nodes s !! p = Some n -> data n' = data n -> D p -> kept D s (upd s p n').
Proof.
  intros Hn Hd HD. split; try done; simpl.
  - intros q. destruct (decide (q = p)) as [->|].
    + by rewrite lookup_insert_eq, Hn; simpl; rewrite Hd.
    + by rewrite lookup_insert_ne.
  - intros q Hq. rewrite lookup_insert_ne; [done|]. by intros <-.
Qed.

Lemma kept_lookup D s s' q n :
  kept D s s' -> nodes s !! q = Some n -> exists n', nodes s' !! q = Some n' /\ data n' = data n.
Proof.
  intros Hk Hn. pose proof (k_data _ _ _ Hk q) as Hd. rewrite Hn in Hd. simpl in Hd.
  destruct (nodes s' !! q) as [n'|]; [|done]. exists n'. split; [done|]. by apply (inj Some).
Qed.

Lemma kept_size D s s' : kept D s s' -> size (nodes s') = size (nodes s).
Proof.
  intros Hk. rewrite <- !size_dom. f_equal. apply set_eq. intros q. rewrite !elem_of_dom.
  by rewrite <- (fmap_is_Some data), (k_data _ _ _ Hk), fmap_is_Some.
Qed.

(** The pointers of [s] form the tree [t]. *)
Record tree_ok s (t : ptree) : Prop := {
  ok_root : root (tree s) = rt t;
  ok_at : tree_at (nodes s) None t;
  ok_nodup : forall q, (occ q t <= 1)%nat
}.

End refine.

(** ** Automation *)
(** Solves a lookup in a heap after some updates, from disequalities at hand. *)
Ltac lk :=
  simpl; repeat first [rewrite lookup_insert_eq | rewrite lookup_insert_ne by congruence]; first [eassumption | reflexivity].

(** Runs one read or one write at the head of the program in the goal. *)
Ltac run_rd := erewrite bind_run by (apply rd_run; lk).
Ltac run_wr := erewrite bind_run by (apply wr_run; lk).

Lemma rt_occ t q : rt t = Some q -> (0 < occ q t)%nat.
Proof. destruct t; [done|]. intros [= ->]. simpl. rewrite one_refl. lia. Qed.
Lemma cpar_occ c q : cpar c = Some q -> (0 < cocc q c)%nat.
Proof. destruct c as [|[] c]; [done|..]; intros [= ->]; simpl; rewrite one_refl; lia. Qed.

(** Proves that addresses differ from the hypothesis [U] that bounds the sum of
    their counts by one. *)
Ltac apart U :=
  lazymatch goal with
  | |- rt _ <> Some ?q =>
    let E := fresh in intros E%rt_occ; pose proof (U q); pose proof (one_refl q); lia
  | |- cpar _ <> Some ?q =>
    let E := fresh in intros E%cpar_occ; pose proof (U q); pose proof (one_refl q); lia
  | |- ?q <> ?p =>
    first [ apply one_zero; pose proof (U q); pose proof (one_refl q); lia
          | apply not_eq_sym, one_zero; pose proof (U p); pose proof (one_refl p); lia
          | let e := fresh in intros e; pose proof (U p); rewrite <- ?e in *; lia ]
  end.

(** Proves that a subtree or a path is kept: none of its nodes is written. *)
Ltac framed_step U F :=
  repeat rewrite F by apart U; simpl; rewrite ?lookup_insert_ne by apart U.
Ltac framed U F G :=
  let q := fresh in let Hq := fresh in
  first [apply tree_at_frame | apply ctx_at_frame]; intros q Hq; simpl;
  rewrite ?lookup_insert_ne by apart U; framed_step U F; framed_step U G; done.

Lemma occ_rot_r q t : occ q (rot_r t) = occ q t.
Proof. destruct t as [|[|] ]; simpl; unfold rot_r; simpl; lia. Qed.
Lemma occ_rot_l q t : occ q (rot_l t) = occ q t.
Proof. destruct t as [|? ? ? [|]]; simpl; unfold rot_l; simpl; lia. Qed.

(** Proves [kept D s s'] for a short sequence of updates, or from a hypothesis,
    when [HD] says that a node that is counted is in [D]. *)
Ltac in_dom HD :=
  let q := fresh in let E := fresh in
  first [intros q; first [intros E%cpar_occ | intros E%rt_occ] | idtac];
  apply HD; rewrite ?one_refl; lia.
Ltac kept_by HD :=
  repeat (eapply kept_trans; [|eapply kept_upd; [lk|done|in_dom HD]]);
  first [apply kept_refl | eapply kept_upd; [lk|done|in_dom HD] | eapply kept_weaken; [eassumption|in_dom HD]].

Ltac by_within W :=
  intros ? ?; apply W; rewrite ?occ_plug in *; simpl in *;
  rewrite ?occ_plug, ?occ_rot_r, ?occ_rot_l in *; simpl in *; lia.

Section runs.
Context {K : Type}.
Implicit Types (N : gmap loc (avl_node K)) (s : avl_st K).

Lemma replace_child_run s c node new :
  root (tree s) = croot c (Some node) -> ctx_at (nodes s) c (Some node) ->
  cocc node c = 0%nat -> (forall q, cocc q c <= 1)%nat ->
  exists s', replace_child (cpar c) node new s = Some (s', tt) /\
    root (tree s') = croot c (Some new) /\ ctx_at (nodes s') c (Some new) /\
    kept (fun q => cpar c = Some q) s s'.
Proof.
  intros Hr Hc Hn U. destruct c as [|[p b r|l p b] c]; simpl in *.
  - eexists. split; [reflexivity|]. by repeat split.
  - destruct Hc as ((n & Hp & H1 & H2 & H3 & H4) & Ht & Hc). unfold replace_child.
    erewrite bind_run by (by apply rd_run). rewrite H2, bool_decide_true by done.
    eexists. split; [by apply wr_run|]. split; [done|]. split.
    + split_and!.
      * exists (set_left (Some new) n). by simpl; rewrite lookup_insert_eq.
      * revert Ht. apply tree_at_frame. intros q Hq. simpl. rewrite lookup_insert_ne; [done|].
        intros <-. specialize (U p). rewrite one_refl in U. lia.
      * revert Hc. apply ctx_at_frame. intros q Hq. simpl. rewrite lookup_insert_ne; [done|].
        intros <-. specialize (U p). rewrite one_refl in U. lia.
    + by eapply kept_upd.
  - destruct Hc as ((n & Hp & H1 & H2 & H3 & H4) & Ht & Hc). unfold replace_child.
    erewrite bind_run by (by apply rd_run). rewrite H2, bool_decide_false.
    2: { intros Hl. destruct l; [done|]. injection Hl as ->. simpl in Hn. rewrite one_refl in Hn. lia. }
    eexists. split; [by apply wr_run|]. split; [done|]. split.
    + split_and!.
      * exists (set_right (Some new) n). by simpl; rewrite lookup_insert_eq.
      * revert Ht. apply tree_at_frame. intros q Hq. simpl. rewrite lookup_insert_ne; [done|].
        intros <-. specialize (U p). rewrite one_refl in U. lia.
      * revert Hc. apply ctx_at_frame. intros q Hq. simpl. rewrite lookup_insert_ne; [done|].
        intros <-. specialize (U p). rewrite one_refl in U. lia.
    + by eapply kept_upd.
Qed.

Lemma opt_reparent_run s t par p :
  tree_at (nodes s) par t -> (forall q, occ q t <= 1)%nat ->
  exists s', opt_reparent (rt t) p s = Some (s', tt) /\ tree s' = tree s /\
    tree_at (nodes s') (Some p) t /\ kept (fun q => rt t = Some q) s s'.
Proof.
  intros Ht U. destruct t as [|l g b r]; [by exists s|].
  pose proof Ht as ((n & Hn & _) & _). eexists. split; [by apply wr_run|]. split_and!; [done| |].
  - revert Ht. apply tree_at_reparent; [done|..]; simpl.
    + intros q _ Hq. rewrite lookup_insert_ne; congruence.
    + intros g' n' [= <-] Hn'. rewrite lookup_insert_eq. congruence.
  - by eapply kept_upd.
Qed.

Lemma rotate_right_run s c a x bx b y by_ d :
  let t := T (T a x bx b) y by_ d in
  tree_ok s (plug c t) -> exists s', int_avl_rotate_right y s = Some (s', tt) /\
    tree_ok s' (plug c (rot_r t)) /\ kept (fun q => 0 < occ q (plug c t))%nat s s'.
Proof.
  intros t [Hr Ht U]. subst t. rewrite rt_plug in Hr. apply tree_at_plug in Ht as [Ht Hc]. simpl in Ht, Hr, Hc.
  destruct Ht as ((ny & Hy & Py & Ly & Ry & By) & ((nx & Hx & Px & Lx & Rx & Bx) & Ha & Hb) & Hd).
  assert (U' : forall q, (occ q a + one q x + occ q b + one q y + occ q d + cocc q c <= 1)%nat)
    by (intros q; specialize (U q); rewrite occ_plug in U; simpl in U; lia).
  assert (Nxy : x <> y) by apart U'.
  assert (Ncx : cpar c <> Some x) by apart U'. assert (Ncy : cpar c <> Some y) by apart U'.
  assert (Nbx : rt b <> Some x) by apart U'. assert (Nby : rt b <> Some y) by apart U'.
  unfold int_avl_rotate_right. run_rd. rewrite Ly. simpl rt. erewrite bind_run by reflexivity.
  run_rd. rewrite Py. do 2 run_wr.
  set (s2 := upd _ _ _).
  destruct (replace_child_run s2 c y x) as (s3 & R3 & Hr3 & Hc3 & K3); [done|..].
  { revert Hc. framed U' I I. }
  { specialize (U' y). rewrite one_refl in U'. lia. }
  { intros q. specialize (U' q). lia. }
  erewrite bind_run by exact R3.
  assert (E3 : forall q, cpar c <> Some q -> nodes s3 !! q = nodes s2 !! q) by apply K3.
  assert (Hx3 : nodes s3 !! x = Some (set_parent (cpar c) nx)) by (rewrite E3 by done; simpl; lk).
  assert (Hy3 : nodes s3 !! y = Some (set_parent (Some x) ny)) by (rewrite E3 by done; simpl; lk).
  run_rd. simpl n_right. rewrite Rx. do 2 run_wr.
  run_rd. simpl n_left. set (s5 := upd _ _ _).
  destruct (opt_reparent_run s5 b (Some x) y) as (s6 & R6 & T6 & Hb6 & K6).
  { revert Hb. framed U' E3 I. }
  { intros q. specialize (U' q). lia. }
  erewrite bind_run by exact R6.
  assert (E6 : forall q, rt b <> Some q -> nodes s6 !! q = nodes s5 !! q) by apply K6.
  assert (Hx6 : nodes s6 !! x = Some (set_right (Some y) (set_parent (cpar c) nx))) by (rewrite E6 by done; lk).
  assert (Hy6 : nodes s6 !! y = Some (set_left (rt b) (set_parent (Some x) ny))) by (rewrite E6 by done; lk).
  do 2 run_rd. run_wr. do 2 run_rd. eexists. split; [apply wr_run; lk|].
  split; [split|].
  - simpl. rewrite T6. simpl. rewrite Hr3, rt_plug. done.
  - apply tree_at_plug. simpl. split_and!.
    + eexists. split; [lk|]. simpl. by rewrite By, Bx.
    + revert Ha. framed U' E6 E3.
    + eexists. split; [lk|]. simpl. by rewrite By, Bx.
    + revert Hb6. framed U' I I.
    + revert Hd. framed U' E6 E3.
    + revert Hc3. framed U' E6 I.
  - intros q. specialize (U q). by rewrite occ_plug, occ_rot_r, <- occ_plug.
  - set (D := fun q => _).
    assert (HD : forall q, (0 < one q x + one q y + occ q b + cocc q c)%nat -> D q)
      by (intros q Hq; subst D; simpl; rewrite occ_plug; simpl; lia).
    apply kept_trans with s2; [kept_by HD|]. apply kept_trans with s3; [kept_by HD|].
    apply kept_trans with s5; [kept_by HD|]. apply kept_trans with s6; kept_by HD.
Qed.

Lemma rotate_left_run s c a x bx b y by_ d :
  let t := T a x bx (T b y by_ d) in
  tree_ok s (plug c t) -> exists s', int_avl_rotate_left x s = Some (s', tt) /\
    tree_ok s' (plug c (rot_l t)) /\ kept (fun q => 0 < occ q (plug c t))%nat s s'.
Proof.
  intros t [Hr Ht U]. subst t. rewrite rt_plug in Hr. apply tree_at_plug in Ht as [Ht Hc]. simpl in Ht, Hr, Hc.
  destruct Ht as ((nx & Hx & Px & Lx & Rx & Bx) & Ha & ((ny & Hy & Py & Ly & Ry & By) & Hb & Hd)).
  assert (U' : forall q, (occ q a + one q x + occ q b + one q y + occ q d + cocc q c <= 1)%nat)
    by (intros q; specialize (U q); rewrite occ_plug in U; simpl in U; lia).
  assert (Nxy : x <> y) by apart U'.
  assert (Ncx : cpar c <> Some x) by apart U'. assert (Ncy : cpar c <> Some y) by apart U'.
  assert (Nbx : rt b <> Some x) by apart U'. assert (Nby : rt b <> Some y) by apart U'.
  unfold int_avl_rotate_left. run_rd. rewrite Rx. simpl rt. erewrite bind_run by reflexivity.
  run_rd. rewrite Px. do 2 run_wr.
  set (s2 := upd _ _ _).
  destruct (replace_child_run s2 c x y) as (s3 & R3 & Hr3 & Hc3 & K3); [done|..].
  { revert Hc. framed U' I I. }
  { specialize (U' x). rewrite one_refl in U'. lia. }
  { intros q. specialize (U' q). lia. }
  erewrite bind_run by exact R3.
  assert (E3 : forall q, cpar c <> Some q -> nodes s3 !! q = nodes s2 !! q) by apply K3.
  assert (Hx3 : nodes s3 !! x = Some (set_parent (Some y) nx)) by (rewrite E3 by done; simpl; lk).
  assert (Hy3 : nodes s3 !! y = Some (set_parent (cpar c) ny)) by (rewrite E3 by done; simpl; lk).
  run_rd. simpl n_left. rewrite Ly. do 2 run_wr.
  run_rd. simpl n_right. set (s5 := upd _ _ _).
  destruct (opt_reparent_run s5 b (Some y) x) as (s6 & R6 & T6 & Hb6 & K6).
  { revert Hb. framed U' E3 I. }
  { intros q. specialize (U' q). lia. }
  erewrite bind_run by exact R6.
  assert (E6 : forall q, rt b <> Some q -> nodes s6 !! q = nodes s5 !! q) by apply K6.
  assert (Hx6 : nodes s6 !! x = Some (set_right (rt b) (set_parent (Some y) nx))) by (rewrite E6 by done; lk).
  assert (Hy6 : nodes s6 !! y = Some (set_left (Some x) (set_parent (cpar c) ny))) by (rewrite E6 by done; lk).
  do 2 run_rd. run_wr. do 2 run_rd. eexists. split; [apply wr_run; lk|].
  split; [split|].
  - simpl. rewrite T6. simpl. rewrite Hr3, rt_plug. done.
  - apply tree_at_plug. simpl. split_and!.
    + eexists. split; [lk|]. simpl. by rewrite By, Bx.
    + eexists. split; [lk|]. simpl. by rewrite By, Bx.
    + revert Ha. framed U' E6 E3.
    + revert Hb6. framed U' I I.
    + revert Hd. framed U' E6 E3.
    + revert Hc3. framed U' E6 I.
  - intros q. specialize (U q). by rewrite occ_plug, occ_rot_l, <- occ_plug.
  - set (D := fun q => _).
    assert (HD : forall q, (0 < one q x + one q y + occ q b + cocc q c)%nat -> D q)
      by (intros q Hq; subst D; simpl; rewrite occ_plug; simpl; lia).
    apply kept_trans with s2; [kept_by HD|]. apply kept_trans with s3; [kept_by HD|].
    apply kept_trans with s5; [kept_by HD|]. apply kept_trans with s6; kept_by HD.
Qed.

(** ** Rebalancing *)

(** [m] runs from [s], leaves the tree [t] and changes no node outside [D]. *)
Definition yields (D : loc -> Prop) s (m : SE (avl_st K) unit) (t : ptree) : Prop :=
  exists s', m s = Some (s', tt) /\ tree_ok s' t /\ kept D s s'.

Definition within (t : ptree) (D : loc -> Prop) : Prop := forall q, (0 < occ q t)%nat -> D q.

Lemma yields_ret D s t : tree_ok s t -> yields D s (mret tt) t.
Proof. exists s. by split_and!; [|done|apply kept_refl]. Qed.

Lemma yields_bind D s m t1 k t2 :
  yields D s m t1 -> (forall s1, tree_ok s1 t1 -> kept D s s1 -> yields D s1 (k tt) t2) -> yields D s (m ≫= k) t2.
Proof.
  intros (s1 & R1 & O1 & K1) H. destruct (H s1 O1 K1) as (s2 & R2 & O2 & K2).
  exists s2. erewrite bind_run by done. split_and!; [done..|]. by eapply kept_trans.
Qed.

Lemma yields_rd D s {A} p n (f : avl_node K -> A) k t :
  nodes s !! p = Some n -> yields D s (k (f n)) t -> yields D s (rd p f ≫= k) t.
Proof. intros Hn H. unfold yields. by erewrite bind_run by (by apply rd_run). Qed.

Lemma yields_ptr D s p k t : yields D s (k p) t -> yields D s (ptr (Some p) ≫= k) t.
Proof. done. Qed.

Lemma yields_kept D s s1 m m1 t :
  kept D s s1 -> m s = m1 s1 -> yields D s1 m1 t -> yields D s m t.
Proof.
  intros K1 E (s2 & R & O & K2). exists s2. rewrite E. split_and!; [done..|]. by eapply kept_trans.
Qed.

(** The node at a position of the tree. *)
Lemma node_of s c l p b r :
  tree_ok s (plug c (T l p b r)) ->
  exists n, nodes s !! p = Some n /\ n_parent n = cpar c /\ n_left n = rt l /\ n_right n = rt r /\ n_balance n = b.
Proof. intros [_ Ht _]. by apply tree_at_plug in Ht as ((? & ?) & _). Qed.

Lemma balance_ok s c l p b r n b' :
  tree_ok s (plug c (T l p b r)) -> nodes s !! p = Some n ->
  tree_ok (upd s p (set_balance b' n)) (plug c (T l p (s8 b') r)).
Proof.
  intros [Hr Ht U] Hn. apply tree_at_plug in Ht as [Ht Hc].
  assert (U' : forall q, (occ q l + one q p + occ q r + cocc q c <= 1)%nat)
    by (intros q; specialize (U q); rewrite occ_plug in U; simpl in U; lia).
  destruct Ht as ((n' & Hn' & P & L & R & B) & Hl & Hr'). rewrite Hn in Hn'. injection Hn' as <-.
  rewrite rt_plug in Hr. split.
  - by rewrite rt_plug.
  - apply tree_at_plug. simpl. split_and!.
    + eexists. split; [lk|done].
    + revert Hl. framed U' I I.
    + revert Hr'. framed U' I I.
    + revert Hc. framed U' I I.
  - intros q. rewrite occ_plug. specialize (U' q). simpl. lia.
Qed.

(** The pattern [p->balance += d; ... p->balance ...] of the code. *)
Lemma balance_run D s c l p b r (g : Z -> Z) k t :
  tree_ok s (plug c (T l p b r)) -> within (plug c (T l p b r)) D ->
  (forall s1, tree_ok s1 (plug c (T l p (s8 (g b)) r)) -> yields D s1 (k (s8 (g b))) t) ->
  yields D s (pb ← rd p n_balance; wr p (set_balance (g pb));; pb ← rd p n_balance; k pb) t.
Proof.
  intros Ok W H. destruct (node_of _ _ _ _ _ _ Ok) as (n & Hn & _ & _ & _ & Hb).
  eapply yields_rd; [done|]. rewrite Hb.
  eapply (yields_kept D s (upd s p (set_balance (g b) n))).
  - eapply kept_upd; [done..|]. apply W. rewrite occ_plug. simpl. rewrite one_refl. lia.
  - by erewrite bind_run by (by apply wr_run).
  - eapply yields_rd; [lk|]. apply H. by eapply balance_ok.
Qed.

Lemma rotate_right_yields D s c a x bx b y by_ d :
  let t := T (T a x bx b) y by_ d in
  tree_ok s (plug c t) -> within (plug c t) D -> yields D s (int_avl_rotate_right y) (plug c (rot_r t)).
Proof.
  intros t Ok W. destruct (rotate_right_run _ _ _ _ _ _ _ _ _ Ok) as (s' & ? & ? & ?).
  exists s'. split_and!; [done..|]. by eapply kept_weaken.
Qed.
Lemma rotate_left_yields D s c a x bx b y by_ d :
  let t := T a x bx (T b y by_ d) in
  tree_ok s (plug c t) -> within (plug c t) D -> yields D s (int_avl_rotate_left x) (plug c (rot_l t)).
Proof.
  intros t Ok W. destruct (rotate_left_run _ _ _ _ _ _ _ _ _ Ok) as (s' & ? & ? & ?).
  exists s'. split_and!; [done..|]. by eapply kept_weaken.
Qed.

Lemma rt_tbal D s c t q k u :
  tree_ok s (plug c t) -> rt t = Some q -> yields D s (k (tbal t)) u -> yields D s (rd q n_balance ≫= k) u.
Proof.
  intros Ok Hq H. destruct t as [|l p b r]; [done|]. injection Hq as ->.
  destruct (node_of _ _ _ _ _ _ Ok) as (n & Hn & _ & _ & _ & Hb). eapply yields_rd; [done|]. by rewrite Hb.
Qed.

(** [p->left == node] tells on which side of its parent a node is. *)
Lemma left_child_true D s c t p b r node k1 k2 u :
  tree_ok s (plug (FL p b r :: c) t) -> rt t = Some node -> yields D s k1 u ->
  yields D s (pl ← rd p n_left; if bool_decide (pl = Some node) then k1 else k2) u.
Proof.
  intros Ok Hn H. destruct (node_of s c t p b r Ok) as (n & ? & _ & Hl & _).
  eapply yields_rd; [done|]. by rewrite Hl, bool_decide_true.
Qed.
Lemma left_child_false D s c t p b l node k1 k2 u :
  tree_ok s (plug (FR l p b :: c) t) -> rt t = Some node -> yields D s k2 u ->
  yields D s (pl ← rd p n_left; if bool_decide (pl = Some node) then k1 else k2) u.
Proof.
  intros Ok Hn H. destruct (node_of s c l p b t Ok) as (n & ? & _ & Hl & _).
  eapply yields_rd; [done|]. rewrite Hl, bool_decide_false; [done|].
  intros E%rt_occ. apply rt_occ in Hn. destruct Ok as [_ _ U]. specialize (U node).
  rewrite occ_plug in U. simpl in U. lia.
Qed.

(** The parent of a node. *)
Lemma parent_run D s c t node k u :
  tree_ok s (plug c t) -> rt t = Some node -> yields D s (k (cpar c)) u -> yields D s (rd node n_parent ≫= k) u.
Proof.
  intros Ok Hn H. destruct t as [|l p b r]; [done|]. injection Hn as ->.
  destruct (node_of _ _ _ _ _ _ Ok) as (n & ? & Hp & _). eapply yields_rd; [done|]. by rewrite Hp.
Qed.

(** The double rotations of [int_post_insert], which find the second node to
    rotate through the parent pointers. *)
Lemma double_right_run D s c a x bx b1 z bz b2 p bp r :
  let u := T a x bx (T b1 z bz b2) in
  tree_ok s (plug c (T u p bp r)) -> within (plug c (T u p bp r)) D ->
  yields D s (int_avl_rotate_left x;; q ← rd x n_parent; q ← ptr q;
    pp ← rd q n_parent; pp ← ptr pp; int_avl_rotate_right pp) (plug c (rot_r (T (rot_l u) p bp r))).
Proof.
  intros u Ok W. eapply yields_bind; [by eapply (rotate_left_yields _ _ (FL p bp r :: c))|].
  intros s1 Ok1 K1. unfold rot_l in *. subst u. cbv iota zeta in *.
  eapply (parent_run _ _ (FL z _ b2 :: FL p bp r :: c) (T a x _ b1)); [exact Ok1|done|]. apply yields_ptr.
  eapply (parent_run _ _ (FL p bp r :: c)); [exact Ok1|done|]. apply yields_ptr.
  eapply rotate_right_yields; [exact Ok1|by_within W].
Qed.
Lemma double_left_run D s c b1 z bz b2 x bx a p bp l :
  let u := T (T b1 z bz b2) x bx a in
  tree_ok s (plug c (T l p bp u)) -> within (plug c (T l p bp u)) D ->
  yields D s (int_avl_rotate_right x;; q ← rd x n_parent; q ← ptr q;
    pp ← rd q n_parent; pp ← ptr pp; int_avl_rotate_left pp) (plug c (rot_l (T l p bp (rot_r u)))).
Proof.
  intros u Ok W. eapply yields_bind; [by eapply (rotate_right_yields _ _ (FR l p bp :: c))|].
  intros s1 Ok1 K1. unfold rot_r in *. subst u. cbv iota zeta in *.
  eapply (parent_run _ _ (FR b1 z _ :: FR l p bp :: c) (T b2 x _ a)); [exact Ok1|done|]. apply yields_ptr.
  eapply (parent_run _ _ (FR l p bp :: c)); [exact Ok1|done|]. apply yields_ptr.
  eapply rotate_left_yields; [exact Ok1|by_within W].
Qed.

Lemma post_insert_run D f : forall c t node s,
  (length c < f)%nat -> rt t = Some node -> avl t -> tbal t <> 0 -> ctx_avl c (height t - 1) ->
  tree_ok s (plug c t) -> within (plug c t) D -> yields D s (int_post_insert f node) (zpost_insert c t).
Proof.
  induction f as [|f IH]; intros c t node s Hf Hn Ht Hb Hc Ok W; [lia|]. cbn [int_post_insert].
  eapply parent_run; [done..|]. destruct c as [|[p b r|l p b] c]; simpl cpar; cbn [zpost_insert].
  - by apply yields_ret.
  - simpl in Hc. destruct Hc as (H1 & H2 & H3 & H4).
    eapply left_child_true; [done..|]. apply (balance_run D s c t p b r (fun x => x - 1)); [done..|].
    intros s1 Ok1. cbv beta. rewrite s8_small in * by lia. case_cmp.
    + by apply yields_ret.
    + apply IH; simpl in *; try done; [lia|repeat split; try done; lia| |by_within W].
      rewrite Z.max_l in * by lia. by replace (1 + height t - 1) with (1 + (height t - 1)) by lia.
    + eapply (rt_tbal _ _ (FL p (b - 1) r :: c) t); [done..|].
      destruct t as [|a x bx b']; [done|]. injection Hn as ->. case_cmp; [|done].
      eapply rotate_right_yields; [done|by_within W].
    + eapply (rt_tbal _ _ (FL p (b - 1) r :: c) t); [done..|].
      destruct t as [|a x bx b']; [done|]. injection Hn as ->. simpl tbal in *. case_cmp; [done|].
      destruct b' as [|b1 z bz b2]; [simpl in *; pose proof (height_nonneg a); lia|].
      apply double_right_run; [done|by_within W].
  - simpl in Hc. destruct Hc as (H1 & H2 & H3 & H4).
    eapply left_child_false; [done..|]. apply (balance_run D s c l p b t (fun x => x + 1)); [done..|].
    intros s1 Ok1. cbv beta. rewrite s8_small in * by lia. case_cmp.
    + by apply yields_ret.
    + apply IH; simpl in *; try done; [lia|repeat split; try done; lia| |by_within W].
      rewrite Z.max_r in * by lia. by replace (1 + height t - 1) with (1 + (height t - 1)) by lia.
    + eapply (rt_tbal _ _ (FR l p (b + 1) :: c) t); [done..|].
      destruct t as [|a x bx b']; [done|]. injection Hn as ->. case_cmp; [|done].
      eapply rotate_left_yields; [done|by_within W].
    + eapply (rt_tbal _ _ (FR l p (b + 1) :: c) t); [done..|].
      destruct t as [|a x bx b']; [done|]. injection Hn as ->. simpl tbal in *. case_cmp; [done|].
      destruct a as [|b1 z bz b2]; [simpl in *; pose proof (height_nonneg b'); lia|].
      apply double_left_run; [done|by_within W].
Qed.

(** ** Rebalancing after a removal

    The code for a node that has become too heavy on one side is the same in
    [int_avl_post_delete] and in [int_avl_delete_worker]. *)
Definition fix_right (f : nat) (p : loc) : SE (avl_st K) unit :=
  pr ← rd p n_right; pr ← ptr pr; rb ← rd pr n_balance;
  if rb =? 0 then int_avl_rotate_left p
  else if rb =? 1 then int_avl_rotate_left p;; pp ← rd p n_parent; pp ← ptr pp; int_avl_post_delete f pp
  else int_avl_rotate_right pr;; int_avl_rotate_left p;;
    pp ← rd p n_parent; pp ← ptr pp; int_avl_post_delete f pp.
Definition fix_left (f : nat) (p : loc) : SE (avl_st K) unit :=
  pl ← rd p n_left; pl ← ptr pl; lb ← rd pl n_balance;
  if lb =? 0 then int_avl_rotate_right p
  else if lb =? -1 then int_avl_rotate_right p;; pp ← rd p n_parent; pp ← ptr pp; int_avl_post_delete f pp
  else int_avl_rotate_left pl;; int_avl_rotate_right p;;
    pp ← rd p n_parent; pp ← ptr pp; int_avl_post_delete f pp.

(** [int_avl_post_delete] works on the path [c]. *)
Definition post_delete_ok D f c : Prop := forall u q s,
  rt u = Some q -> avl u -> ctx_avl c (height u + 1) -> tree_ok s (plug c u) -> within (plug c u) D ->
  yields D s (int_avl_post_delete f q) (zpost_delete c u).

Lemma fix_right_run D f c t p r s :
  post_delete_ok D f c -> avl t -> avl r -> height r = height t + 2 -> ctx_avl c (1 + height r) ->
  tree_ok s (plug c (T t p 2 r)) -> within (plug c (T t p 2 r)) D ->
  yields D s (fix_right f p)
    (if tbal r =? 0 then plug c (rot_l (T t p 2 r))
     else if tbal r =? 1 then zpost_delete c (rot_l (T t p 2 r))
     else zpost_delete c (rot_l (T t p 2 (rot_r r)))).
Proof.
  intros Rec Ht Hr Hh Hc Ok W. unfold fix_right. pose proof (height_nonneg t).
  destruct r as [|a x bx b]; [simpl in Hh; lia|].
  destruct (node_of _ _ _ _ _ _ Ok) as (n & Hn & _ & _ & HR & _).
  eapply yields_rd; [done|]. rewrite HR. apply yields_ptr.
  eapply (rt_tbal _ _ (FR t p 2 :: c)); [exact Ok|done|].
  simpl in Hr, Hh, Hc |- *. destruct Hr as (? & ? & ? & ?). case_cmp.
  - eapply rotate_left_yields; [done|by_within W].
  - destruct (rot_l_avl t p a x bx b) as [? E]; try done; try lia.
    eapply yields_bind; [eapply rotate_left_yields; [done|by_within W]|]. intros s1 Ok1 _.
    eapply (parent_run _ _ (FL x _ b :: c) (T t p _ a)); [exact Ok1|done|]. apply yields_ptr.
    apply Rec; try done; [|by_within W]. rewrite E.
    by replace (height b + 2 - bx + 1) with (1 + (1 + Z.max (height a) (height b))) by lia.
  - destruct a as [|b1 z bz b2]; simpl in *; [pose proof (height_nonneg b); lia|]. destruct_and!.
    replace bx with (-1) in * by lia.
    destruct (rot_rl_avl t p b1 z bz b2 x b) as [? E]; try done; try lia.
    eapply yields_bind; [eapply (rotate_right_yields _ _ (FR t p 2 :: c)); [exact Ok|by_within W]|]. intros s1 Ok1 _.
    eapply yields_bind; [eapply rotate_left_yields; [exact Ok1|by_within W]|]. intros s2 Ok2 _.
    eapply (parent_run _ _ (FL z _ _ :: c) (T t p _ b1)); [exact Ok2|done|]. apply yields_ptr.
    apply Rec; try done; [|by_within W]. rewrite E.
    by replace (height t + 2 + 1) with (1 + (1 + Z.max (1 + Z.max (height b1) (height b2)) (height b))) by lia.
Qed.

Lemma fix_left_run D f c l p t s :
  post_delete_ok D f c -> avl t -> avl l -> height l = height t + 2 -> ctx_avl c (1 + height l) ->
  tree_ok s (plug c (T l p (-2) t)) -> within (plug c (T l p (-2) t)) D ->
  yields D s (fix_left f p)
    (if tbal l =? 0 then plug c (rot_r (T l p (-2) t))
     else if tbal l =? -1 then zpost_delete c (rot_r (T l p (-2) t))
     else zpost_delete c (rot_r (T (rot_l l) p (-2) t))).
Proof.
  intros Rec Ht Hr Hh Hc Ok W. unfold fix_left. pose proof (height_nonneg t).
  destruct l as [|a x bx b]; [simpl in Hh; lia|].
  destruct (node_of _ _ _ _ _ _ Ok) as (n & Hn & _ & HL & _ & _).
  eapply yields_rd; [done|]. rewrite HL. apply yields_ptr.
  eapply (rt_tbal _ _ (FL p (-2) t :: c)); [exact Ok|done|].
  simpl in Hr, Hh, Hc |- *. destruct Hr as (? & ? & ? & ?). case_cmp.
  - eapply rotate_right_yields; [done|by_within W].
  - destruct (rot_r_avl a x bx b p t) as [? E]; try done; try lia.
    eapply yields_bind; [eapply rotate_right_yields; [done|by_within W]|]. intros s1 Ok1 _.
    eapply (parent_run _ _ (FR a x _ :: c) (T b p _ t)); [exact Ok1|done|]. apply yields_ptr.
    apply Rec; try done; [|by_within W]. rewrite E.
    by replace (height a + 2 + bx + 1) with (1 + (1 + Z.max (height a) (height b))) by lia.
  - destruct b as [|b1 z bz b2]; simpl in *; [pose proof (height_nonneg a); lia|]. destruct_and!.
    replace bx with 1 in * by lia.
    destruct (rot_lr_avl a x b1 z bz b2 p t) as [? E]; try done; try lia.
    eapply yields_bind; [eapply (rotate_left_yields _ _ (FL p (-2) t :: c)); [exact Ok|by_within W]|]. intros s1 Ok1 _.
    eapply yields_bind; [eapply rotate_right_yields; [exact Ok1|by_within W]|]. intros s2 Ok2 _.
    eapply (parent_run _ _ (FR _ z _ :: c) (T b2 p _ t)); [exact Ok2|done|]. apply yields_ptr.
    apply Rec; try done; [|by_within W]. rewrite E.
    by replace (height a + 2 + 1) with (1 + (1 + Z.max (height a) (1 + Z.max (height b1) (height b2)))) by lia.
Qed.

Lemma post_delete_run D f c : (length c < f)%nat -> post_delete_ok D f c.
Proof.
  revert c. induction f as [|f IH]; intros c Hf t node s Hn Ht Hc Ok W; [lia|]. cbn [int_avl_post_delete].
  eapply parent_run; [done..|]. destruct c as [|[p b r|l p b] c]; simpl cpar; cbn [zpost_delete].
  - by apply yields_ret.
  - simpl in Hc, Hf. destruct Hc as (H1 & H2 & H3 & H4).
    eapply left_child_true; [done..|]. apply (balance_run D s c t p b r (fun x => x + 1)); [done..|].
    intros s1 Ok1. cbv beta. rewrite s8_small in * by lia.
    destruct (Z.eqb_spec (b + 1) 0); [|destruct (Z.eqb_spec (b + 1) 1)].
    + apply IH; simpl in *; try done; [lia|repeat split; try done; lia| |by_within W].
      rewrite Z.max_l in * by lia. by replace (1 + height t + 1) with (1 + (height t + 1)) by lia.
    + by apply yields_ret.
    + assert (b = 1) by lia. replace (b + 1) with 2 in * by lia. rewrite Z.max_r in H4 by lia.
      apply fix_right_run; try done; [apply IH; lia|lia|by_within W].
  - simpl in Hc, Hf. destruct Hc as (H1 & H2 & H3 & H4).
    eapply left_child_false; [done..|]. apply (balance_run D s c l p b t (fun x => x - 1)); [done..|].
    intros s1 Ok1. cbv beta. rewrite s8_small in * by lia.
    destruct (Z.eqb_spec (b - 1) 0); [|destruct (Z.eqb_spec (b - 1) (-1))].
    + apply IH; simpl in *; try done; [lia|repeat split; try done; lia| |by_within W].
      rewrite Z.max_r in * by lia. by replace (1 + height t + 1) with (1 + (height t + 1)) by lia.
    + by apply yields_ret.
    + assert (b = -1) by lia. replace (b - 1) with (-2) in * by lia. rewrite Z.max_l in H4 by lia.
      apply fix_left_run; try done; [apply IH; lia|lia|by_within W].
Qed.

(** ** Removal of a node *)

Lemma unhook_left_ok s c p b r t n :
  tree_ok s (plug (FL p b r :: c) t) -> nodes s !! p = Some n ->
  tree_ok (upd s p (set_left None n)) (plug (FL p b r :: c) E).
Proof.
  intros [Hr Ht U] Hn. simpl in *. rewrite rt_plug in Hr. apply tree_at_plug in Ht as [Ht Hc].
  assert (U' : forall q, (occ q t + one q p + occ q r + cocc q c <= 1)%nat)
    by (intros q; specialize (U q); rewrite occ_plug in U; simpl in U; lia).
  destruct Ht as ((n' & Hn' & P & L & R & B) & Hl & Hr'). rewrite Hn in Hn'. injection Hn' as <-. split.
  - by rewrite rt_plug.
  - apply tree_at_plug. simpl. split_and!; [|done|..].
    + eexists. split; [lk|done].
    + revert Hr'. framed U' I I.
    + revert Hc. framed U' I I.
  - intros q. rewrite occ_plug. specialize (U' q). simpl. lia.
Qed.
Lemma unhook_right_ok s c p b l t n :
  tree_ok s (plug (FR l p b :: c) t) -> nodes s !! p = Some n ->
  tree_ok (upd s p (set_right None n)) (plug (FR l p b :: c) E).
Proof.
  intros [Hr Ht U] Hn. simpl in *. rewrite rt_plug in Hr. apply tree_at_plug in Ht as [Ht Hc].
  assert (U' : forall q, (occ q t + one q p + occ q l + cocc q c <= 1)%nat)
    by (intros q; specialize (U q); rewrite occ_plug in U; simpl in U; lia).
  destruct Ht as ((n' & Hn' & P & L & R & B) & Hl & Hr'). rewrite Hn in Hn'. injection Hn' as <-. split.
  - by rewrite rt_plug.
  - apply tree_at_plug. simpl. split_and!; [..|done|].
    + eexists. split; [lk|done].
    + revert Hl. framed U' I I.
    + revert Hc. framed U' I I.
  - intros q. rewrite occ_plug. specialize (U' q). simpl. lia.
Qed.

Lemma delete_leaf_left_run D f s c p b r node :
  tree_ok s (plug (FL p b r :: c) (T E node 0 E)) -> ctx_avl (FL p b r :: c) 1 -> (length c < f)%nat ->
  within (plug (FL p b r :: c) E) D -> yields D s (delete_leaf_left f p) (zpost_delete (FL p b r :: c) E).
Proof.
  intros Ok (H1 & H2 & H3 & H4) Hf W. pose proof (height_nonneg r). unfold delete_leaf_left.
  destruct (node_of s c _ p b r Ok) as (n & Hn & _).
  eapply (yields_kept D s (upd s p (set_left None n))).
  { eapply kept_upd; [done..|]. apply W. simpl. rewrite occ_plug. simpl. rewrite one_refl. lia. }
  { by erewrite bind_run by (by apply wr_run). }
  eapply (balance_run D _ c E p b r (fun x => x + 1)); [by apply (unhook_left_ok s c p b r (T E node 0 E))|done|].
  intros s1 Ok1. cbn [zpost_delete]. rewrite s8_small in * by lia.
  destruct (Z.eqb_spec (b + 1) 1); [|destruct (Z.eqb_spec (b + 1) 0)].
  - destruct (Z.eqb_spec (b + 1) 0); [lia|]. by apply yields_ret.
  - apply post_delete_run; simpl in *; try done; [repeat split; try done; lia| |by_within W].
    by replace (1 + Z.max 0 (height r) + 1) with (1 + Z.max 1 (height r)) by lia.
  - assert (b = 1) by lia. replace (b + 1) with 2 in * by lia. rewrite Z.max_r in H4 by lia.
    apply fix_right_run; simpl; try done; [by apply post_delete_run|lia|by_within W].
Qed.
Lemma delete_leaf_right_run D f s c p b l node :
  tree_ok s (plug (FR l p b :: c) (T E node 0 E)) -> ctx_avl (FR l p b :: c) 1 -> (length c < f)%nat ->
  within (plug (FR l p b :: c) E) D -> yields D s (delete_leaf_right f p) (zpost_delete (FR l p b :: c) E).
Proof.
  intros Ok (H1 & H2 & H3 & H4) Hf W. pose proof (height_nonneg l). unfold delete_leaf_right.
  destruct (node_of s c l p b _ Ok) as (n & Hn & _).
  eapply (yields_kept D s (upd s p (set_right None n))).
  { eapply kept_upd; [done..|]. apply W. simpl. rewrite occ_plug. simpl. rewrite one_refl. lia. }
  { by erewrite bind_run by (by apply wr_run). }
  eapply (balance_run D _ c l p b E (fun x => x - 1)); [by apply (unhook_right_ok s c p b l (T E node 0 E))|done|].
  intros s1 Ok1. cbn [zpost_delete]. rewrite s8_small in * by lia.
  destruct (Z.eqb_spec (b - 1) (-1)); [|destruct (Z.eqb_spec (b - 1) 0)].
  - destruct (Z.eqb_spec (b - 1) 0); [lia|]. by apply yields_ret.
  - apply post_delete_run; simpl in *; try done; [repeat split; try done; lia| |by_within W].
    by replace (1 + Z.max (height l) 0 + 1) with (1 + Z.max (height l) 1) by lia.
  - assert (b = -1) by lia. replace (b - 1) with (-2) in * by lia. rewrite Z.max_l in H4 by lia.
    apply fix_left_run; simpl; try done; [by apply post_delete_run|lia|by_within W].
Qed.

(** A node with the single child [u] is replaced by it. *)
Lemma one_child_run D f s c l node b r u g :
  tree_ok s (plug c (T l node b r)) -> (l = E /\ r = u \/ l = u /\ r = E) -> rt u = Some g ->
  avl u -> ctx_avl c (height u + 1) -> (length c < f)%nat -> within (plug c u) D ->
  yields D s (delete_one_child f node (cpar c) g) (zpost_delete c u).
Proof.
  intros [Hr Ht U] Hu Hg Au Ac Hf W. rewrite rt_plug in Hr. apply tree_at_plug in Ht as [Ht Hc]. simpl in Hr, Hc.
  assert (Hut : tree_at (nodes s) (Some node) u) by (destruct Ht as (_ & Hl & Hr'); destruct Hu as [[-> ->]|[-> ->]]; done).
  assert (U' : forall q, (occ q u + one q node + cocc q c <= 1)%nat).
  { intros q. specialize (U q). rewrite occ_plug in U. simpl in U. destruct Hu as [[-> ->]|[-> ->]]; simpl in U; lia. }
  assert (Hn : exists n, nodes s !! g = Some n) by (destruct u as [|]; [done|]; injection Hg as ->; destruct Hut as ((n & ? & _) & _); eauto).
  destruct Hn as [n Hn]. apply rt_occ in Hg as Hgo.
  assert (Hut' : forall N', N' !! g = Some (set_parent (cpar c) n) ->
    (forall q, (0 < occ q u)%nat -> q <> g -> N' !! q = nodes s !! q) -> tree_at N' (cpar c) u).
  { intros N' HN HF. revert Hut. apply tree_at_reparent; [intros q; specialize (U' q); lia|..].
    - intros q Hq Hqg. apply HF; [done|congruence].
    - intros g' n' Hg' Hn'. congruence. }
  unfold delete_one_child. destruct (cpar c) as [p|] eqn:Ec.
  - assert (Hgp : g <> p). { apply cpar_occ in Ec. intros ->. specialize (U' p). lia. }
    set (s1 := upd s g (set_parent (Some p) n)).
    destruct (replace_child_run s1 c node g) as (s2 & R2 & Hr2 & Hc2 & K2); [done|..].
    { revert Hc. framed U' I I. }
    { specialize (U' node). rewrite one_refl in U'. lia. }
    { intros q. specialize (U' q). lia. }
    rewrite Ec in R2. eapply (yields_kept D s s2).
    + apply kept_trans with s1.
      * eapply kept_upd; [done..|]. apply W. rewrite occ_plug. lia.
      * eapply kept_weaken; [done|]. intros q Hq%cpar_occ. apply W. rewrite occ_plug. lia.
    + erewrite bind_run by (by apply wr_run). by erewrite bind_run by exact R2.
    + apply post_delete_run; try done. split.
      * by rewrite rt_plug, Hg.
      * apply tree_at_plug. rewrite Hg. split; [|done]. rewrite Ec. apply Hut'.
        -- rewrite (k_frame _ _ _ K2) by congruence. simpl. lk.
        -- intros q Hq Hqg. rewrite (k_frame _ _ _ K2) by apart U'. simpl. by rewrite lookup_insert_ne.
      * intros q. rewrite occ_plug. specialize (U' q). lia.
  - destruct c as [|[] c]; [|done..]. simpl in *.
    eexists. split; [|split].
    + erewrite bind_run by reflexivity. by apply wr_run.
    + split; [done| |intros q; specialize (U' q); lia].
      apply Hut'; simpl; [lk|]. intros q _ Hq. by rewrite lookup_insert_ne.
    + eapply kept_trans; [|eapply kept_upd; [done|done|by apply W]]. by split.
Qed.

(** A node [m] from outside the tree takes over the place of [node]: the end of
    [int_avl_delete_worker]... *)
Definition takeover_min (node min : loc) : SE (avl_st K) unit :=
  parent ← rd node n_parent;
  nb ← rd node n_balance; wr min (set_balance nb);;
  wr min (set_parent parent);;
  nl ← rd node n_left; wr min (set_left nl);;
  nr ← rd node n_right; wr min (set_right nr);;
  ml ← rd min n_left; opt_reparent ml min;;
  mr ← rd min n_right; opt_reparent mr min;;
  replace_child parent node min.

(** ... and of [avl_remove]. *)
Definition takeover_next (node next : loc) : SE (avl_st K) unit :=
  nb ← rd node n_balance; wr next (set_balance nb);;
  parent ← rd node n_parent;
  left ← rd node n_left;
  right ← rd node n_right;
  wr next (set_parent parent);;
  wr next (set_left left);;
  wr next (set_right right);;
  replace_child parent node next;;
  opt_reparent left next;;
  opt_reparent right next.

Section takeover.
Context (D : loc -> Prop) s c l node b r m nm
  (Ok : tree_ok s (plug c (T l node b r))) (Hm : nodes s !! m = Some nm)
  (Nm : occ m (plug c (T l node b r)) = 0%nat) (Hb : -128 <= b < 128)
  (W : within (plug c (T l m b r)) D).

Lemma takeover_count q : (occ q l + one q node + occ q r + cocc q c + one q m <= 1)%nat.
Proof.
  pose proof (ok_nodup _ _ Ok q) as U. rewrite occ_plug in U, Nm. simpl in U, Nm.
  unfold one at 2. case_decide; [subst; rewrite Nm in U|]; lia.
Qed.

Lemma takeover_min_run : yields D s (takeover_min node m) (plug c (T l m b r)).
Proof.
  pose proof takeover_count as U'. destruct Ok as [Hr Ht U].
  rewrite rt_plug in Hr. apply tree_at_plug in Ht as [Ht Hc]. simpl in Ht, Hr, Hc.
  destruct Ht as ((n & Hn & P & L & R & B) & Hl & Hr').
  assert (Nn : node <> m) by apart U'. assert (Nlm : rt l <> Some m) by apart U'.
  assert (HD : forall q, (0 < one q m + occ q l + occ q r + cocc q c)%nat -> D q)
    by (intros q Hq; apply W; rewrite occ_plug; simpl; lia).
  unfold yields, takeover_min. do 2 run_rd. do 2 run_wr. do 2 (run_rd; run_wr). rewrite P, B, L, R.
  set (s1 := upd _ _ _). run_rd. simpl n_left.
  destruct (opt_reparent_run s1 l (Some node) m) as (s2 & R2 & T2 & Hl2 & K2).
  { revert Hl. framed U' I I. } { intros q. specialize (U' q). lia. }
  erewrite bind_run by exact R2. pose proof (k_frame _ _ _ K2) as E2. cbv beta in E2.
  assert (Hm2 : nodes s2 !! m = nodes s1 !! m) by (by apply E2). simpl in Hm2. rewrite lookup_insert_eq in Hm2.
  run_rd. simpl n_right.
  destruct (opt_reparent_run s2 r (Some node) m) as (s3 & R3 & T3 & Hr3 & K3).
  { revert Hr'. framed U' E2 I. } { intros q. specialize (U' q). lia. }
  erewrite bind_run by exact R3. pose proof (k_frame _ _ _ K3) as E3. cbv beta in E3.
  destruct (replace_child_run s3 c node m) as (s4 & R4 & Hr4 & Hc4 & K4).
  { by rewrite T3, T2. }
  { revert Hc. framed U' E3 E2. }
  { specialize (U' node). rewrite one_refl in U'. lia. } { intros q. specialize (U' q). lia. }
  pose proof (k_frame _ _ _ K4) as E4. cbv beta in E4.
  exists s4. split; [done|]. split; [split|].
  - by rewrite rt_plug.
  - apply tree_at_plug. simpl. split_and!; [|revert Hl2; framed U' E4 E3|revert Hr3; framed U' E4 I|done].
    eexists. split; [rewrite E4, E3 by apart U'; exact Hm2|]. simpl. by rewrite s8_small.
  - intros q. rewrite occ_plug. specialize (U' q). simpl. lia.
  - apply kept_trans with s1; [kept_by HD|]. apply kept_trans with s2; [kept_by HD|].
    apply kept_trans with s3; kept_by HD.
Qed.

Lemma takeover_next_run : yields D s (takeover_next node m) (plug c (T l m b r)).
Proof.
  pose proof takeover_count as U'. destruct Ok as [Hr Ht U].
  rewrite rt_plug in Hr. apply tree_at_plug in Ht as [Ht Hc]. simpl in Ht, Hr, Hc.
  destruct Ht as ((n & Hn & P & L & R & B) & Hl & Hr').
  assert (Nn : node <> m) by apart U'.
  assert (HD : forall q, (0 < one q m + occ q l + occ q r + cocc q c)%nat -> D q)
    by (intros q Hq; apply W; rewrite occ_plug; simpl; lia).
  unfold yields, takeover_next. run_rd. run_wr. do 3 run_rd. do 3 run_wr. rewrite P, B, L, R.
  set (s1 := upd _ _ _).
  destruct (replace_child_run s1 c node m) as (s2 & R2 & Hr2 & Hc2 & K2); [done|..].
  { revert Hc. framed U' I I. }
  { specialize (U' node). rewrite one_refl in U'. lia. } { intros q. specialize (U' q). lia. }
  erewrite bind_run by exact R2. pose proof (k_frame _ _ _ K2) as E2. cbv beta in E2.
  destruct (opt_reparent_run s2 l (Some node) m) as (s3 & R3 & T3 & Hl3 & K3).
  { revert Hl. framed U' E2 I. } { intros q. specialize (U' q). lia. }
  erewrite bind_run by exact R3. pose proof (k_frame _ _ _ K3) as E3. cbv beta in E3.
  destruct (opt_reparent_run s3 r (Some node) m) as (s4 & R4 & T4 & Hr4 & K4).
  { revert Hr'. framed U' E3 E2. } { intros q. specialize (U' q). lia. }
  pose proof (k_frame _ _ _ K4) as E4. cbv beta in E4.
  exists s4. split; [done|]. split; [split|].
  - by rewrite rt_plug, T4, T3.
  - apply tree_at_plug. simpl. split_and!; [|revert Hl3; framed U' E4 I|done|revert Hc2; framed U' E4 E3].
    eexists. split; [rewrite E4, E3, E2 by apart U'; simpl; lk|]. simpl. by rewrite s8_small.
  - intros q. rewrite occ_plug. specialize (U' q). simpl. lia.
  - apply kept_trans with s1; [kept_by HD|]. apply kept_trans with s2; [kept_by HD|].
    apply kept_trans with s3; kept_by HD.
Qed.
End takeover.

(** ** The worker of the removal *)
Lemma plug_app c1 c2 t : plug (c1 ++ c2) t = plug c2 (plug c1 t).
Proof. revert t. induction c1; intros; simpl; auto. Qed.

(** Every node of a tree is at the end of a path. *)
Lemma occ_plug_inv q t : (0 < occ q t)%nat -> exists c l b r, t = plug c (T l q b r).
Proof.
  induction t as [|l IHl p b r IHr]; simpl; [lia|]. intros H.
  destruct (decide (q = p)) as [->|Hq]; [by exists [], l, b, r|]. rewrite one_neq in H by done.
  destruct (decide (0 < occ q l)%nat) as [Hl|Hl].
  - destruct (IHl Hl) as (c & l' & b' & r' & ->). exists (c ++ [FL p b r]), l', b', r'. by rewrite plug_app.
  - destruct IHr as (c & l' & b' & r' & ->); [lia|]. exists (c ++ [FR l p b]), l', b', r'. by rewrite plug_app.
Qed.

Lemma occ_zpost_delete q c t : occ q (zpost_delete c t) = occ q (plug c t).
Proof.
  revert t. induction c as [|[p b r|l p b] c IH]; intros t; simpl; [done|..];
    repeat case_match; rewrite ?IH, !occ_plug, ?occ_rot_l, ?occ_rot_r; simpl; rewrite ?occ_rot_l, ?occ_rot_r; lia.
Qed.
Lemma occ_zpost_insert q c t : occ q (zpost_insert c t) = occ q (plug c t).
Proof.
  revert t. induction c as [|[p b r|l p b] c IH]; intros t; simpl; [done|..];
    repeat case_match; rewrite ?IH, !occ_plug, ?occ_rot_l, ?occ_rot_r; simpl; rewrite ?occ_rot_l, ?occ_rot_r; lia.
Qed.

(** A tree has no more nodes than are allocated, so the fuel suffices. *)
Lemma tree_at_dom N par t q : tree_at N par t -> (0 < occ q t)%nat -> is_Some (N !! q).
Proof.
  revert par. induction t as [|l IHl p b r IHr]; simpl; [lia|]. intros par ((n & Hn & _) & Hl & Hr) Hq.
  destruct (decide (q = p)) as [->|Hqp]; [eauto|]. rewrite one_neq in Hq by done.
  destruct (decide (0 < occ q l)%nat); [by eapply IHl|]. eapply IHr; [done|lia].
Qed.

Lemma tsize_bound s t : tree_ok s t -> (tsize t <= size (nodes s))%nat.
Proof.
  intros [_ Ht U]. rewrite tsize_inorder. apply occ_NoDup in U.
  rewrite <- (size_list_to_set (C := gset loc)) by done. rewrite <- size_dom.
  apply subseteq_size. intros q Hq. apply elem_of_dom. eapply tree_at_dom; [done|].
  apply occ_inorder. set_solver.
Qed.

Lemma tsize_plug c t : (length c + tsize t <= tsize (plug c t))%nat.
Proof.
  revert t. induction c as [|f c IH]; intros t; simpl; [lia|]. specialize (IH (fill f t)). destruct f; simpl in *; lia.
Qed.

(** [int_avl_local_min] finds the leftmost node. *)
Lemma local_min_run s f : forall par t p, (tsize t <= f)%nat -> tree_at (nodes s) par t -> rt t = Some p ->
  exists c m b r, t = plug c (T E m b r) /\ cpre c = [] /\ int_avl_local_min f p s = Some (s, m).
Proof.
  induction f as [|f IH]; intros par t p Hf Ht Hp; (destruct t as [|l p' b r]; [done|]); injection Hp as ->;
    simpl in Hf; [lia|]. simpl in Ht. destruct Ht as ((n & Hn & _ & L & _) & Hl & Hr).
  cbn [int_avl_local_min]. erewrite bind_run by (by apply rd_run). rewrite L.
  destruct l as [|ll lp lb lr]; [by exists [], p, b, r|].
  destruct (IH (Some p) (T ll lp lb lr) lp) as (c & m & b' & r' & E & Hc & R); [lia|done|done|].
  exists (c ++ [FL p b r]), m, b', r'. split_and!; [by rewrite plug_app, <- E| |done].
  by rewrite cpre_app, Hc.
Qed.

(** A node with one child at most. *)
Lemma worker_simple_run D d f s c l node b r :
  tree_ok s (plug c (T l node b r)) -> avl (plug c (T l node b r)) -> l = E \/ r = E ->
  (length c < f)%nat -> within (plug c (T l node b r)) D ->
  yields D s (int_avl_delete_worker (S d) f node) (zpost_delete c (match l with E => r | _ => l end)).
Proof.
  intros Ok Ha Hlr Hf W. apply avl_plug in Ha as [(Al & Ar & Hb & Hb') Ac].
  destruct (node_of _ _ _ _ _ _ Ok) as (n & Hn & P & L & R & B). cbn [int_avl_delete_worker].
  do 3 (eapply yields_rd; [done|]). rewrite P, L, R.
  pose proof (height_nonneg l). pose proof (height_nonneg r). simpl in Ac.
  destruct l as [|ll lp lb lr], r as [|rl rp rb rr]; [..|by destruct Hlr].
  - simpl in Hb |- *. subst b. destruct c as [|[p pb pr|pl p pb] c]; simpl cpar.
    + eexists. split; [reflexivity|]. split; [split; [done..|simpl; lia]|]. by split.
    + eapply left_child_true; [done..|]. eapply delete_leaf_left_run; [done..|simpl in Hf; lia|by_within W].
    + eapply left_child_false; [done..|]. destruct (node_of s c pl p pb _ Ok) as (n' & Hn' & _ & _ & R' & _).
      eapply yields_rd; [done|]. rewrite R'. simpl rt. rewrite bool_decide_true by done.
      eapply delete_leaf_right_run; [done..|simpl in Hf; lia|by_within W].
  - simpl rt. cbv iota zeta. rewrite (bool_decide_false (Some rp = None)), andb_false_r by done. apply yields_ptr.
    eapply one_child_run; try done; [by left| |by_within W].
    eapply (eq_ind _ (ctx_avl c)); [exact Ac|]. simpl in *; lia.
  - simpl rt. cbv iota zeta. rewrite (bool_decide_false (Some lp = None)) by done. simpl.
    eapply one_child_run; try done; [by right| |by_within W].
    eapply (eq_ind _ (ctx_avl c)); [exact Ac|]. simpl in *; lia.
Qed.

Lemma simple_avl c l node b r :
  avl (plug c (T l node b r)) -> l = E \/ r = E ->
  avl (zpost_delete c (match l with E => r | _ => l end)).
Proof.
  intros [(Al & Ar & Hb & Hb') Ac]%avl_plug Hlr. pose proof (height_nonneg l). pose proof (height_nonneg r).
  simpl in Ac. apply zpost_delete_avl; [by destruct l|].
  eapply (eq_ind _ (ctx_avl c)); [exact Ac|]. destruct Hlr as [->| ->]; [|destruct l]; simpl in *; lia.
Qed.

(** When [m], the minimum of the right subtree, replaces [node]. *)
Lemma takeover_inorder cm l node b c m rm c1 l1 b1 r1 :
  let c' := cm ++ FR l node b :: c in
  cpre cm = [] -> zpost_delete c' rm = plug c1 (T l1 node b1 r1) ->
  (forall q, occ q (plug c1 (T l1 node b1 r1)) <= 1)%nat ->
  inorder (plug c1 (T l1 m b1 r1)) = cpre c ++ inorder l ++ (m :: inorder rm ++ cpost cm) ++ cpost c.
Proof.
  intros c' Hcm E1 U%occ_NoDup. pose proof (inorder_zpost_delete c' rm) as Ei. subst c'.
  rewrite E1 in Ei. rewrite !inorder_plug in *. simpl in *. rewrite cpre_app, cpost_app in Ei. simpl in Ei.
  rewrite Hcm, app_nil_r in Ei.
  replace (cpre c1 ++ (inorder l1 ++ node :: inorder r1) ++ cpost c1)
    with ((cpre c1 ++ inorder l1) ++ node :: inorder r1 ++ cpost c1) in * by (by rewrite <- !app_assoc).
  replace ((cpre c ++ inorder l ++ [node]) ++ inorder rm ++ cpost cm ++ cpost c)
    with ((cpre c ++ inorder l) ++ node :: inorder rm ++ cpost cm ++ cpost c) in Ei by (by rewrite <- !app_assoc).
  destruct (app_cons_inj_nodup _ _ _ _ _ U Ei) as [E2 E3].
  rewrite <- app_assoc, app_assoc, E2. simpl. rewrite E3. by rewrite <- !app_assoc.
Qed.

(** The worker removes its node from the in-order sequence and keeps the tree balanced. *)
Lemma worker_run D f s c l node b r :
  let t := plug c (T l node b r) in
  tree_ok s t -> avl t -> (tsize t < f)%nat -> within t D ->
  exists t', yields D s (int_avl_delete_worker 2 f node) t' /\ avl t' /\
    inorder t' = cpre c ++ inorder l ++ inorder r ++ cpost c.
Proof.
  intros t Ok Ha Hf W. subst t. pose proof (tsize_plug c (T l node b r)) as Hs.
  assert (Hlr : (l = E \/ r = E) \/ exists x y, rt l = Some x /\ rt r = Some y)
    by (destruct l, r; simpl; eauto 6). destruct Hlr as [Hlr|(x & y & Hx & Hy)].
  - eexists. split; [by apply (worker_simple_run D 1 f s c l node b r); try lia|]. split; [by apply (simple_avl c l node b r)|].
    rewrite inorder_zpost_delete, inorder_plug. destruct Hlr as [->| ->]; [done|]. simpl. by destruct l.
  - destruct (node_of _ _ _ _ _ _ Ok) as (n & Hn & P & L & R & B).
    pose proof (ok_at _ _ Ok) as [(_ & _ & Hrt) _]%tree_at_plug.
    simpl in Hs. destruct (local_min_run s f (Some node) r y) as (cm & m & bm & rm & Er & Hcm & Rm); [lia|done|done|].
    set (c' := cm ++ FR l node b :: c).
    assert (Et : plug c (T l node b r) = plug c' (T E m bm rm)) by (subst c'; by rewrite plug_app, Er).
    pose proof (tsize_plug c' (T E m bm rm)) as Hs'. rewrite <- Et in Hs'. simpl in Hs'.
    pose proof Ok as Ok'. rewrite Et in Ok, Ha, W.
    assert (Y1 : yields D s (int_avl_delete_worker 1 f m) (zpost_delete c' rm)).
    { apply (worker_simple_run D 0 f s c' E m bm rm); auto; lia. }
    destruct Y1 as (s1 & R1 & Ok1 & K1).
    assert (A1 : avl (zpost_delete c' rm)) by (apply (simple_avl c' E m bm rm); auto).
    destruct (occ_plug_inv node (zpost_delete c' rm)) as (c1 & l1 & b1 & r1 & E1).
    { subst c'. rewrite occ_zpost_delete, plug_app. simpl. rewrite occ_plug. simpl. rewrite one_refl. lia. }
    assert (Hnm : occ m (zpost_delete c' rm) = 0%nat).
    { rewrite occ_zpost_delete. pose proof (ok_nodup _ _ Ok m) as U. rewrite occ_plug in U |- *. simpl in U.
      rewrite one_refl in U. lia. }
    assert (Hnode : node <> m).
    { intros ->. rewrite E1, occ_plug in Hnm. simpl in Hnm. rewrite one_refl in Hnm. lia. }
    rewrite E1 in Ok1, A1, Hnm. pose proof A1 as [(_ & _ & _ & Hb1) _]%avl_plug.
    destruct (node_of _ _ _ _ _ _ Ok) as (nm & Hm & _).
    destruct (kept_lookup _ _ _ _ _ K1 Hm) as (nm1 & Hm1 & _).
    assert (W1 : within (plug c1 (T l1 m b1 r1)) D).
    { intros q Hq. apply W. pose proof (occ_zpost_delete q c' rm) as Eo. rewrite E1, !occ_plug in Eo.
      rewrite occ_plug in Hq |- *. simpl in *. lia. }
    exists (plug c1 (T l1 m b1 r1)). split; [|split].
    + cbn [int_avl_delete_worker]. do 3 (eapply yields_rd; [done|]). rewrite P, L, R, Hx, Hy.
      rewrite (bool_decide_false (Some x = None)) by done. simpl andb. cbv iota.
      eapply (yields_kept D s s1); [done| |].
      * erewrite bind_run by exact Rm. by erewrite bind_run by exact R1.
      * eapply takeover_min_run; [done..|lia|done].
    + by apply avl_plug in A1; apply avl_plug.
    + rewrite (takeover_inorder cm l node b c m rm) by (done || apply Ok1).
      rewrite Er, inorder_plug, Hcm. done.
Qed.

End runs.
