(* ===== verification/AvlSpec.v ===== *)
(** * What an AVL tree promises to its clients

    A tree holds a sequence of entries that is sorted by the comparator; entries
    with equal keys form a group whose first member, the leader, is the one that
    is linked into the tree. [avl_rep comp s L] says that the state [s] represents
    the sequence [L]. This file proves the lookups of [avl.c] against the sequence;
    [AvlOps] proves insertion and removal. *)
From S2P Require Import Prelude Lists AvlHeap AvlTree AvlRefine.

(** What [avl.c] needs of a comparator ([avl_tree_comp] in [avl.h]). *)
Class AvlComp {K} (comp : K -> K -> Z) : Prop := {
  comp_refl : forall a, comp a a = 0;
  comp_sym : forall a b, comp a b < 0 <-> 0 < comp b a;
  comp_trans : forall a b c, comp a b <= 0 -> comp b c <= 0 -> comp a c <= 0
}.

Section comp_facts.
Context {K : Type} (comp : K -> K -> Z) {HC : AvlComp comp}.

Lemma comp_ge a b : 0 <= comp a b <-> comp b a <= 0.
Proof. pose proof (comp_sym a b). pose proof (comp_sym b a). lia. Qed.
Lemma comp_lt_le_trans a b c : comp a b < 0 -> comp b c <= 0 -> comp a c < 0.
Proof.
  intros H1 H2. pose proof (comp_trans a b c). pose proof (comp_trans c a b) as H3.
  pose proof (comp_ge c a). pose proof (comp_ge b c). pose proof (comp_ge a c). pose proof (comp_ge c b).
  pose proof (comp_sym a b). pose proof (comp_sym b a).
  pose proof (comp_trans b c a). pose proof (comp_ge b a). pose proof (comp_ge a b). lia.
Qed.
Lemma comp_le_lt_trans a b c : comp a b <= 0 -> comp b c < 0 -> comp a c < 0.
Proof.
  intros H1 H2. pose proof (comp_trans a b c). pose proof (comp_trans c a b).
  pose proof (comp_ge c a). pose proof (comp_ge a c). pose proof (comp_ge b c). pose proof (comp_ge c b).
  pose proof (comp_sym b c). lia.
Qed.
Lemma comp_eq_sym a b : comp a b = 0 -> comp b a = 0.
Proof. intros. pose proof (comp_sym a b). pose proof (comp_sym b a). lia. Qed.
Lemma comp_eq_trans a b c : comp a b = 0 -> comp b c = 0 -> comp a c = 0.
Proof.
  intros H1 H2. pose proof (comp_trans a b c). pose proof (comp_trans c b a). pose proof (comp_eq_sym _ _ H1).
  pose proof (comp_eq_sym _ _ H2). pose proof (comp_ge a c). lia.
Qed.
End comp_facts.

Section spec.
Context {K : Type} (comp : K -> K -> Z) {HC : AvlComp comp}.
Implicit Types (N : gmap loc (avl_node K)) (s : avl_st K).

Abbreviation entry := (loc * K)%type.
(** A leader and the entries with the same key behind it. *)
Abbreviation group := (entry * list entry)%type.

Definition flat (G : list group) : list entry := G ≫= fun g => g.1 :: g.2.
Definition leads (G : list group) : list loc := (fun g => g.1.1) <$> G.

(** Order on entries. *)
Definition elt (e e' : entry) : Prop := comp e.2 e'.2 < 0.
Definition ele (e e' : entry) : Prop := comp e.2 e'.2 <= 0.

Definition gsorted (G : list group) : Prop :=
  StronglySorted (fun g h => elt g.1 h.1) G /\
  Forall (fun g => Forall (fun e => comp g.1.2 e.2 = 0) g.2) G.

(** The node of an entry has its key and this leader flag. *)
Definition has N (e : entry) (b : bool) : Prop := exists n, N !! e.1 = Some n /\ data n = (e.2, b).
Definition ents N (G : list group) : Prop :=
  Forall (fun g => has N g.1 true /\ Forall (fun e => has N e false) g.2) G.

Record rep s (G : list group) (t : ptree) : Prop := {
  r_sorted : gsorted G;
  r_list : dlist (lists s) (list_head (tree s)) ((flat G).*1);
  r_ents : ents (nodes s) G;
  r_tree : tree_ok s t;
  r_avl : avl t;
  r_inorder : inorder t = leads G;
  r_count : count (tree s) = u32 (Z.of_nat (length (flat G)));
  r_dups : allow_dups (tree s) = false -> Forall (fun g => g.2 = []) G
}.

Definition avl_rep s (L : list entry) : Prop := exists G t, rep s G t /\ flat G = L.

(** ** Groups *)
Lemma flat_app G1 G2 : flat (G1 ++ G2) = flat G1 ++ flat G2.
Proof. apply bind_app. Qed.
Lemma flat_cons g G : flat (g :: G) = g.1 :: g.2 ++ flat G.
Proof. done. Qed.

Lemma elem_of_flat e G : e ∈ flat G <-> exists g, g ∈ G /\ (e = g.1 \/ e ∈ g.2).
Proof. clear HC comp. unfold flat. rewrite list_elem_of_bind. set_solver. Qed.

Lemma leads_split G A p B : leads G = A ++ p :: B ->
  exists G1 k fs G2, G = G1 ++ ((p, k), fs) :: G2 /\ leads G1 = A /\ leads G2 = B.
Proof.
  unfold leads. intros (G1 & G' & -> & H & ->)%fmap_app_inv.
  symmetry in H. apply fmap_cons_inv in H as ([[p' k] fs] & G2 & -> & -> & ->). simpl. by exists G1, k, fs, G2.
Qed.

(** Where an entry of the sequence is among the groups. *)
Lemma flat_split G A e B : flat G = A ++ e :: B ->
  (exists G1 fs G2, G = G1 ++ (e, fs) :: G2 /\ A = flat G1 /\ B = fs ++ flat G2) \/
  (exists G1 x f1 f2 G2, G = G1 ++ (x, f1 ++ e :: f2) :: G2 /\ A = flat G1 ++ x :: f1 /\ B = f2 ++ flat G2).
Proof.
  revert A. induction G as [|[x fs] G IH]; intros A; [by destruct A|].
  rewrite flat_cons. simpl. destruct A as [|x' A]; simpl; intros [= <- E].
  { left. exists [], fs, G. by rewrite E. }
  apply app_eq_inv in E as [(C & -> & E)|(C & -> & E)].
  - destruct C as [|e' C]; simpl in E.
    + rewrite app_nil_r in *. destruct (IH [] (eq_sym E)) as [(G1 & fs' & G2 & -> & E1 & ->)|(G1 & y & f1 & f2 & G2 & _ & E1 & _)].
      * left. exists ((x, A) :: G1), fs', G2. rewrite flat_cons, <- E1. simpl. by rewrite app_nil_r.
      * by destruct (flat G1).
    + injection E as <- ->. right. by exists [], x, A, C, G.
  - destruct (IH C E) as [(G1 & fs' & G2 & -> & -> & ->)|(G1 & y & f1 & f2 & G2 & -> & -> & ->)].
    + left. by exists ((x, fs) :: G1), fs', G2.
    + right. exists ((x, fs) :: G1), y, f1, f2, G2. split_and!; [done| |done].
      rewrite flat_cons. simpl. by rewrite <- app_assoc.
Qed.

(** The groups before and behind a group are strictly smaller and larger. *)
Lemma gsorted_split G1 g G2 : gsorted (G1 ++ g :: G2) ->
  (forall e, e ∈ flat G1 -> elt e g.1) /\ (forall e, e ∈ flat G2 -> elt g.1 e) /\
  (forall e, e ∈ g.2 -> comp g.1.2 e.2 = 0).
Proof.
  intros [(S1 & [S2 S3]%ssorted_cons & S4)%ssorted_app F].
  apply Forall_app in F as [F1 [Fg F2]%Forall_cons]. rewrite Forall_forall in F1, F2. rewrite Forall_forall in Fg. split_and!.
  - intros e (g' & Hg & He)%elem_of_flat. specialize (S4 g' g Hg ltac:(left)). unfold elt in *.
    destruct He as [->|He]; [done|]. specialize (F1 _ Hg). cbv beta in F1. rewrite Forall_forall in F1.
    apply (comp_le_lt_trans comp _ g'.1.2); [|done]. pose proof (comp_eq_sym comp _ _ (F1 e He)) as E0. rewrite E0. done.
  - intros e (g' & Hg & He)%elem_of_flat. specialize (S2 g' Hg). unfold elt in *.
    destruct He as [->|He]; [done|]. specialize (F2 _ Hg). cbv beta in F2. rewrite Forall_forall in F2.
    apply (comp_lt_le_trans comp _ g'.1.2); [done|]. rewrite (F2 e He). done.
  - done.
Qed.

Lemma flat_sorted G : gsorted G -> StronglySorted ele (flat G).
Proof.
  induction G as [|g G IH]; [constructor|]. intros HG.
  destruct (gsorted_split [] g G HG) as (_ & H2 & H3). destruct HG as [[S1 S2]%ssorted_cons [F1 F2]%Forall_cons].
  rewrite flat_cons. apply ssorted_cons. split.
  - intros e [He|He]%elem_of_app; unfold ele; [rewrite H3 by done; done|]. apply H2 in He. unfold elt in He. lia.
  - apply ssorted_app. split_and!; [|by apply IH|].
    + clear -HC H3. induction g.2 as [|e es IHe]; [constructor|]. apply ssorted_cons. split.
      * intros e' He'. unfold ele. apply (comp_trans _ g.1.2).
        { pose proof (comp_eq_sym comp _ _ (H3 e ltac:(left))). lia. } { rewrite H3 by (by right). done. }
      * apply IHe. intros. apply H3. by right.
    + intros e e' He He'. unfold ele. apply H2 in He'. unfold elt in He'.
      pose proof (comp_eq_sym comp _ _ (H3 e He)). apply (comp_trans _ g.1.2); lia.
Qed.

(** ** Lookup *)
Definition keyed s (q : loc) (P : K -> Prop) : Prop := exists n, nodes s !! q = Some n /\ P (n_key n).
Definition ltn s (p q : loc) : Prop := keyed s p (fun kp => keyed s q (fun kq => comp kp kq < 0)).

Lemma find_rec_run s k f : forall t par p,
  (tsize t <= f)%nat -> tree_at (nodes s) par t -> rt t = Some p -> StronglySorted (ltn s) (inorder t) ->
  exists c l q b r n, t = plug c (T l q b r) /\ nodes s !! q = Some n /\
    int_avl_find_rec comp f p k s = Some (s, (q, comp k (n_key n))) /\
    (forall x, x ∈ cpre c -> keyed s x (fun kx => comp kx k < 0)) /\
    (forall x, x ∈ cpost c -> keyed s x (fun kx => comp k kx < 0)) /\
    (comp k (n_key n) = 0 \/ comp k (n_key n) < 0 /\ l = E \/ 0 < comp k (n_key n) /\ r = E).
Proof.
  induction f as [|f IH]; intros t par p Hf Ht Hp HS; (destruct t as [|l p' b r]; [done|]); injection Hp as ->;
    simpl in Hf; [lia|]. simpl in Ht. destruct Ht as ((n & Hn & _ & L & R & _) & Hl & Hr).
  simpl in HS. apply ssorted_app in HS as (SL & [SP SR]%ssorted_cons & SLP).
  cbn [int_avl_find_rec]. erewrite bind_run by (by apply rd_run). cbv zeta.
  destruct (Z.ltb_spec (comp k (n_key n)) 0) as [Hlt|Hge].
  - erewrite bind_run by (by apply rd_run). rewrite L. destruct l as [|ll lp lb lr].
    { exists [], E, p, b, r, n. split_and!; try done; [set_solver..|tauto]. }
    destruct (IH (T ll lp lb lr) (Some p) lp) as (c & l' & q & b' & r' & n' & Et & Hn' & Run & H1 & H2 & H3); [lia|done..|].
    exists (c ++ [FL p b r]), l', q, b', r', n'. rewrite plug_app, cpre_app, cpost_app, <- Et.
    split_and!; try done. simpl. intros x [?|[->|Hx]%elem_of_cons]%elem_of_app; [auto|by exists n|].
    rewrite app_nil_r in Hx. destruct (SP x Hx) as (np & Hnp & nx & Hnx & Hlt'). assert (np = n) as -> by congruence.
    exists nx. split; [done|]. apply (comp_lt_le_trans comp _ (n_key n)); [done|lia].
  - destruct (Z.gtb_spec (comp k (n_key n)) 0) as [Hgt|Hle].
    + erewrite bind_run by (by apply rd_run). rewrite R. destruct r as [|rl rp rb rr].
      { exists [], l, p, b, E, n. split_and!; try done; [set_solver..|]. right. right. split; [lia|done]. }
      destruct (IH (T rl rp rb rr) (Some p) rp) as (c & l' & q & b' & r' & n' & Et & Hn' & Run & H1 & H2 & H3); [lia|done..|].
      exists (c ++ [FR l p b]), l', q, b', r', n'. rewrite plug_app, cpre_app, cpost_app, <- Et, app_nil_r.
      split_and!; try done. simpl. intros x [[Hx|Hx]%elem_of_app|?]%elem_of_app; [|apply list_elem_of_singleton in Hx as ->|auto].
      * destruct (SLP x p Hx ltac:(left)) as (nx & Hnx & np & Hnp & Hlt'). assert (np = n) as -> by congruence.
        exists nx. split; [done|]. apply (comp_lt_le_trans comp _ (n_key n)); [done|]. pose proof (comp_ge comp k (n_key n)). lia.
      * exists n. split; [done|]. pose proof (comp_sym (n_key n) k). lia.
    + exists [], l, p, b, r, n. split_and!; try done; [set_solver..|]. left. lia.
Qed.

(** ** A state that represents groups *)
Lemma has_keyed N e b : has N e b -> exists n, N !! e.1 = Some n /\ n_key n = e.2 /\ n_leader n = b.
Proof. intros (n & Hn & [= H1 H2]). eauto. Qed.

Lemma ents_flat N G e : ents N G -> e ∈ flat G -> exists b, has N e b.
Proof.
  intros HE (g & Hg & He)%elem_of_flat. unfold ents in HE. rewrite Forall_forall in HE.
  destruct (HE g Hg) as [H1 H2]. destruct He as [->|He]; [eauto|]. rewrite Forall_forall in H2. eauto.
Qed.

Lemma leads_sorted s G t : rep s G t -> StronglySorted (ltn s) (inorder t).
Proof.
  intros [[HS _] _ HE _ _ -> _ _]. induction G as [|g G IH]; [constructor|].
  apply ssorted_cons in HS as [Hg HS]. unfold ents in HE. apply Forall_cons in HE as [[Hhg _] HE].
  simpl. apply ssorted_cons. split; [|by apply IH].
  intros q (g' & -> & Hg')%list_elem_of_fmap. apply has_keyed in Hhg as (n & Hn & Kn & _).
  unfold ents in HE. rewrite Forall_forall in HE. destruct (HE g' Hg') as [(n' & Hn' & Kn' & _)%has_keyed _].
  exists n. split; [done|]. exists n'. split; [done|]. rewrite Kn, Kn'. by apply Hg.
Qed.

Lemma rep_length s G t : rep s G t -> (length (flat G) <= size (nodes s))%nat.
Proof.
  intros H. destruct (r_list _ _ _ H) as [[_ ND]%NoDup_cons _].
  rewrite <- (length_fmap fst), <- (size_list_to_set (C := gset loc)) by done. rewrite <- size_dom.
  apply subseteq_size. intros q Hq. apply elem_of_list_to_set, list_elem_of_fmap in Hq as (e & -> & He).
  destruct (ents_flat _ _ _ (r_ents _ _ _ H) He) as (b & n & Hn & _). apply elem_of_dom. eauto.
Qed.

(** A bound on the keys of the leaders is one on all keys. *)
Lemma leads_bound s G (P : K -> Prop) :
  (forall k k', comp k k' = 0 -> P k -> P k') -> (forall x, x ∈ leads G -> keyed s x P) ->
  ents (nodes s) G -> Forall (fun g => Forall (fun e => comp g.1.2 e.2 = 0) g.2) G ->
  forall e, e ∈ flat G -> P e.2.
Proof.
  intros HP HL HE HF e (g & Hg & He)%elem_of_flat. unfold ents in HE. rewrite Forall_forall in HE, HF.
  destruct (HE g Hg) as [(n & Hn & Kn & _)%has_keyed _].
  destruct (HL g.1.1) as (n' & Hn' & Pn); [apply list_elem_of_fmap; eauto|].
  assert (n' = n) as -> by congruence. rewrite Kn in Pn. destruct He as [->|He]; [done|].
  eapply HP; [|done]. specialize (HF g Hg). cbv beta in HF. rewrite Forall_forall in HF. auto.
Qed.

(** The search ends at a group such that the key is strictly between the groups
    before and behind it, and next to an empty subtree if it is not the key of the group. *)
Lemma located s G t k p f :
  rep s G t -> root (tree s) = Some p -> (tsize t <= f)%nat ->
  exists c l q kq b r fs G1 G2, t = plug c (T l q b r) /\ G = G1 ++ ((q, kq), fs) :: G2 /\
    leads G1 = cpre c ++ inorder l /\ leads G2 = inorder r ++ cpost c /\
    int_avl_find_rec comp f p k s = Some (s, (q, comp k kq)) /\
    (forall e, e ∈ flat G1 -> comp e.2 k < 0) /\ (forall e, e ∈ flat G2 -> comp k e.2 < 0) /\
    (comp k kq < 0 -> l = E) /\ (0 < comp k kq -> r = E).
Proof.
  intros HR Hp Hf. pose proof (r_tree _ _ _ HR) as [Hroot Hat _].
  destruct (find_rec_run s k f t None p) as (c & l & q & b & r & n & Et & Hn & Run & H1 & H2 & H3);
    [done|done|congruence|by eapply leads_sorted|].
  pose proof (r_inorder _ _ _ HR) as Hi. rewrite Et, inorder_plug in Hi. simpl in Hi.
  assert (Hi' : leads G = (cpre c ++ inorder l) ++ q :: inorder r ++ cpost c)
    by (rewrite <- Hi, <- !app_assoc; done).
  apply leads_split in Hi' as (G1 & kq & fs & G2 & -> & E1 & E2).
  assert (HE := r_ents _ _ _ HR). unfold ents in HE. apply Forall_app in HE as [HE1 [[Hq _] HE2]%Forall_cons].
  apply has_keyed in Hq as (n' & Hn' & Kq & _). simpl in Hn', Kq. assert (n' = n) as -> by congruence. subst kq.
  destruct (gsorted_split _ _ _ (r_sorted _ _ _ HR)) as (L1 & L2 & _). simpl in L1, L2. unfold elt in L1, L2. simpl in L1, L2.
  exists c, l, q, (n_key n), b, r, fs, G1, G2. split_and!; try done.
  - destruct (decide (0 <= comp k (n_key n))) as [Hge|Hlt].
    + intros e He. apply (comp_lt_le_trans comp _ (n_key n)); [by apply L1|]. by apply (comp_ge comp).
    + assert (l = E) as -> by (destruct H3 as [?|[[??]|[??]]]; [lia|done|lia]). rewrite app_nil_r in E1.
      apply (leads_bound s G1 (fun kx => comp kx k < 0)); [|by rewrite E1|done|].
      * intros k1 k2 H0 Hk. apply (comp_le_lt_trans comp _ k1); [|done]. by rewrite (comp_eq_sym comp) by done.
      * destruct (r_sorted _ _ _ HR) as [_ [? _]%Forall_app]. done.
  - destruct (decide (comp k (n_key n) <= 0)) as [Hle|Hgt].
    + intros e He. apply (comp_le_lt_trans comp _ (n_key n)); [done|by apply L2].
    + assert (r = E) as -> by (destruct H3 as [?|[[??]|[??]]]; [lia|lia|done]).
      apply (leads_bound s G2 (fun kx => comp k kx < 0)); [|by rewrite E2|done|].
      * intros k1 k2 H0 Hk. apply (comp_lt_le_trans comp _ k1); [done|lia].
      * destruct (r_sorted _ _ _ HR) as [_ [_ [_ ?]%Forall_cons]%Forall_app]. done.
  - intros ?. destruct H3 as [?|[[??]|[??]]]; [lia|done|lia].
  - intros ?. destruct H3 as [?|[[??]|[??]]]; [lia|lia|done].
Qed.

(** ** The walks along the list *)
Record linked s (L : list entry) : Prop := {
  lk_ring : dlist (lists s) (list_head (tree s)) (L.*1);
  lk_key : forall e, e ∈ L -> exists n, nodes s !! e.1 = Some n /\ n_key n = e.2
}.

Lemma rep_linked s G t : rep s G t -> linked s (flat G).
Proof.
  intros H. split; [apply H|]. intros e He.
  destruct (ents_flat _ _ _ (r_ents _ _ _ H) He) as (b & (n & ? & ? & _)%has_keyed). eauto.
Qed.

Lemma on_lists_run {A} (m : SE lheap A) s a : m (lists s) = Some (lists s, a) -> on_lists m s = Some (s, a).
Proof. intros H. unfold on_lists. rewrite H. by destruct s. Qed.

Section walks.
Context s L (HL : linked s L).

Lemma linked_not_head e : e ∈ L -> e.1 <> list_head (tree s).
Proof.
  intros He Heq. destruct HL as [[[Hn _]%NoDup_cons _] _]. apply Hn. rewrite <- Heq. by apply list_elem_of_fmap_2.
Qed.

Lemma at_first A e B : L = A ++ e :: B ->
  on_lists (list_is_first (list_head (tree s)) e.1) s = Some (s, bool_decide (A = [])).
Proof.
  clear HC comp. intros E. apply on_lists_run. erewrite list_is_first_run; [|apply HL|apply linked_not_head; rewrite E; set_solver].
  do 2 f_equal. apply bool_decide_ext. rewrite E, fmap_app. destruct A as [|a A]; simpl; [done|].
  split; [|done]. intros [= Ha]. destruct HL as [[[_ ND]%NoDup_cons _] _]. rewrite E in ND. simpl in ND.
  apply NoDup_cons in ND as [[] _]. rewrite Ha, fmap_app. set_solver.
Qed.

Lemma at_last A e B : L = A ++ e :: B ->
  on_lists (list_is_last (list_head (tree s)) e.1) s = Some (s, bool_decide (B = [])).
Proof.
  clear HC comp. intros E. apply on_lists_run. erewrite list_is_last_run; [|apply HL|apply linked_not_head; rewrite E; set_solver].
  do 2 f_equal. apply bool_decide_ext. rewrite E. destruct B as [|b B _] using rev_ind; [rewrite fmap_app; simpl; by rewrite last_snoc|].
  replace (A ++ e :: B ++ [b]) with ((A ++ e :: B) ++ [b]) by (by rewrite <- app_assoc).
  rewrite fmap_app. simpl. rewrite last_snoc. split; [|by intros [_ ?]%app_nil]. intros [= Ha].
  destruct HL as [[[_ ND]%NoDup_cons _] _]. rewrite E in ND.
  replace (A ++ e :: B ++ [b]) with ((A ++ e :: B) ++ [b]) in ND by (by rewrite <- app_assoc).
  rewrite fmap_app in ND. apply NoDup_app in ND as (_ & ND & _). destruct (ND e.1); [|simpl; rewrite Ha; set_solver].
  apply list_elem_of_fmap_2. set_solver.
Qed.

Lemma step_prev A a e B : L = A ++ a :: e :: B -> on_lists (rd_prev e.1) s = Some (s, Some a.1).
Proof.
  clear HC comp. intros E. apply on_lists_run. pose proof (lk_ring _ _ HL) as HD.
  rewrite rd_prev_run. 2: { eapply dlist_alloc; [done|]. right. apply list_elem_of_fmap_2. rewrite E. set_solver. }
  replace (A ++ a :: e :: B) with ((A ++ [a]) ++ e :: B) in E by (by rewrite <- app_assoc).
  rewrite E, fmap_app in HD. rewrite (dlist_prv _ _ _ _ _ HD), fmap_app. simpl.
  by rewrite app_comm_cons, last_snoc.
Qed.

Lemma step_next A e b B : L = A ++ e :: b :: B -> on_lists (rd_next e.1) s = Some (s, Some b.1).
Proof.
  clear HC comp. intros E. apply on_lists_run. pose proof (lk_ring _ _ HL) as HD.
  rewrite rd_next_run. 2: { eapply dlist_alloc; [done|]. right. apply list_elem_of_fmap_2. rewrite E. set_solver. }
  rewrite E, fmap_app in HD. by rewrite (dlist_nxt _ _ _ _ _ HD).
Qed.

Lemma le_left_run k A : forall f e B, L = A ++ e :: B -> (length A < f)%nat ->
  find_le_left comp f k e.1 (comp k e.2) s =
  Some (s, (fun x => (x.1, comp k x.2)) <$> last (filter (fun x => 0 <= comp k x.2) (A ++ [e]))).
Proof.
  induction A as [|a A IH] using rev_ind; intros f e B E Hf; (destruct f as [|f]; [lia|]); cbn [find_le_left];
    rewrite filter_app, filter_cons, filter_nil; destruct (Z.ltb_spec (comp k e.2) 0).
  - erewrite bind_run by reflexivity. erewrite bind_run by (by eapply at_first). simpl. by rewrite decide_False by lia.
  - by rewrite decide_True, last_snoc by lia.
  - erewrite bind_run by reflexivity. erewrite bind_run by (by eapply at_first).
    rewrite bool_decide_false by (by intros [_ ?]%app_nil). rewrite decide_False by lia. rewrite app_nil_r.
    rewrite <- app_assoc in E. simpl in E. erewrite bind_run by (by eapply step_prev). erewrite bind_run by reflexivity.
    destruct (lk_key _ _ HL a) as (n & Hn & Kn); [rewrite E; set_solver|].
    erewrite bind_run by (by apply rd_run). rewrite Kn. rewrite length_app in Hf. simpl in Hf. apply (IH f a (e :: B)); [done|lia].
  - by rewrite decide_True, last_snoc by lia.
Qed.

Lemma ge_right_run k B : forall f e A, L = A ++ e :: B -> (length B < f)%nat ->
  find_ge_right comp f k e.1 (comp k e.2) s =
  Some (s, (fun x => (x.1, comp k x.2)) <$> head (filter (fun x => comp k x.2 <= 0) (e :: B))).
Proof.
  induction B as [|b B IH]; intros f e A E Hf; (destruct f as [|f]; [lia|]); cbn [find_ge_right];
    rewrite filter_cons; destruct (Z.gtb_spec (comp k e.2) 0).
  - erewrite bind_run by reflexivity. erewrite bind_run by (by eapply at_last). simpl. by rewrite decide_False by lia.
  - by rewrite decide_True by lia.
  - erewrite bind_run by reflexivity. erewrite bind_run by (by eapply at_last).
    rewrite bool_decide_false by done. rewrite decide_False by lia.
    erewrite bind_run by (by eapply step_next). erewrite bind_run by reflexivity.
    destruct (lk_key _ _ HL b) as (n & Hn & Kn); [rewrite E; set_solver|].
    erewrite bind_run by (by apply rd_run). rewrite Kn. simpl in Hf. apply (IH f b (A ++ [e])); [by rewrite <- app_assoc|lia].
  - by rewrite decide_True by lia.
Qed.

Lemma sorted_above k e B : StronglySorted ele (e :: B) -> comp k e.2 < 0 ->
  Forall (fun x => ~ 0 <= comp k x.2) (e :: B).
Proof.
  intros [Hs _]%ssorted_cons Hk. constructor; [lia|]. apply Forall_forall. intros x Hx.
  pose proof (comp_lt_le_trans comp _ _ _ Hk (Hs x Hx)). lia.
Qed.
Lemma sorted_below k A e : StronglySorted ele (A ++ [e]) -> 0 < comp k e.2 ->
  Forall (fun x => ~ comp k x.2 <= 0) (A ++ [e]).
Proof.
  intros (_ & _ & Hs)%ssorted_app Hk. apply Forall_app. split; [|constructor; [lia|constructor]].
  apply Forall_forall. intros x Hx. specialize (Hs x e Hx ltac:(left)). unfold ele in Hs.
  apply comp_sym in Hk. pose proof (comp_le_lt_trans comp _ _ _ Hs Hk) as H. apply comp_sym in H. lia.
Qed.

Lemma le_right_run k B : forall f e A node d, L = A ++ e :: B -> 0 <= d -> (length B < f)%nat ->
  StronglySorted ele (e :: B) -> 0 <= comp k e.2 ->
  exists x, find_le_right comp f k node e.1 d s = Some (s, x.1) /\
    last (filter (fun x => 0 <= comp k x.2) (e :: B)) = Some x.
Proof.
  induction B as [|b B IH]; intros f e A node d E Hd Hf HS He; (destruct f as [|f]; [lia|]); cbn [find_le_right];
    rewrite (proj2 (Z.geb_le d 0)) by done; cbv zeta; rewrite filter_cons_True by done;
    (erewrite bind_run by reflexivity); (erewrite bind_run by (by eapply at_last)).
  - by exists e.
  - rewrite bool_decide_false by done. erewrite bind_run by (by eapply step_next). erewrite bind_run by reflexivity.
    destruct (lk_key _ _ HL b) as (n & Hn & Kn); [rewrite E; set_solver|].
    erewrite bind_run by (by apply rd_run). rewrite Kn. simpl in Hf. pose proof HS as [_ HS']%ssorted_cons.
    destruct (decide (0 <= comp k b.2)) as [Hb|Hb].
    + destruct (IH f b (A ++ [e]) e.1 (comp k b.2)) as (x & R & Hx); [by rewrite <- app_assoc|done|lia|done..|].
      exists x. split; [done|]. rewrite last_cons. by rewrite Hx.
    + exists e. split; [|rewrite filter_none; [done|apply sorted_above; [done|lia]]].
      destruct f as [|f]; [lia|]. cbn [find_le_right]. destruct (Z.geb_spec (comp k b.2) 0); [lia|done].
Qed.

Lemma ge_left_run k A : forall f e B node d, L = A ++ e :: B -> d <= 0 -> (length A < f)%nat ->
  StronglySorted ele (A ++ [e]) -> comp k e.2 <= 0 ->
  exists x, find_ge_left comp f k node e.1 d s = Some (s, x.1) /\
    head (filter (fun x => comp k x.2 <= 0) (A ++ [e])) = Some x.
Proof.
  induction A as [|a A IH] using rev_ind; intros f e B node d E Hd Hf HS He; (destruct f as [|f]; [lia|]); cbn [find_ge_left];
    rewrite (proj2 (Z.leb_le d 0)) by done; cbv zeta;
    (erewrite bind_run by reflexivity); (erewrite bind_run by (by eapply at_first)).
  - exists e. split; [done|]. simpl. by rewrite filter_cons_True.
  - rewrite bool_decide_false by (by intros [_ ?]%app_nil). rewrite <- app_assoc in E. simpl in E.
    erewrite bind_run by (by eapply step_prev). erewrite bind_run by reflexivity.
    destruct (lk_key _ _ HL a) as (n & Hn & Kn); [rewrite E; set_solver|].
    erewrite bind_run by (by apply rd_run). rewrite Kn. rewrite length_app in Hf. simpl in Hf.
    pose proof HS as (HS' & _ & _)%ssorted_app.
    destruct (decide (comp k a.2 <= 0)) as [Hb|Hb].
    + destruct (IH f a (e :: B) e.1 (comp k a.2)) as (x & R & Hx); [done|done|lia|done..|].
      exists x. split; [done|]. rewrite filter_app. destruct (filter _ (A ++ [a])); [done|]. done.
    + exists e. split.
      * destruct f as [|f]; [lia|]. cbn [find_ge_left]. destruct (Z.leb_spec (comp k a.2) 0); [lia|done].
      * rewrite filter_app, filter_none, filter_cons_True; [done|done|apply sorted_below; [done|lia]].
Qed.
End walks.

(** ** What the lookups return *)

(** First entry with the key [k], last entry that is not larger, first entry that is not smaller. *)
Definition spec_find (k : K) (L : list entry) : option loc := fst <$> head (filter (fun x => comp k x.2 = 0) L).
Definition spec_le (k : K) (L : list entry) : option loc := fst <$> last (filter (fun x => 0 <= comp k x.2) L).
Definition spec_ge (k : K) (L : list entry) : option loc := fst <$> head (filter (fun x => comp k x.2 <= 0) L).

Lemma root_none s G t : rep s G t -> root (tree s) = None -> flat G = [].
Proof.
  intros H Hr. rewrite (ok_root _ _ (r_tree _ _ _ H)) in Hr. destruct t; [|done].
  pose proof (r_inorder _ _ _ H) as E. simpl in E. by destruct G.
Qed.

Lemma avl_find_run s L k : avl_rep s L -> avl_find comp k s = Some (s, spec_find k L).
Proof.
  intros (G & t & H & <-). unfold avl_find. erewrite bind_run by reflexivity.
  destruct (root (tree s)) as [p|] eqn:Hp; [|by rewrite (root_none _ _ _ H Hp)].
  erewrite bind_run by reflexivity. pose proof (tsize_bound _ _ (r_tree _ _ _ H)) as Hs.
  destruct (located s G t k p (S (size (nodes s)))) as (c & l & q & kq & b & r & fs & G1 & G2 & _ & -> & _ & _ & R & L1 & L2 & _ & _);
    [done|done|lia|].
  erewrite bind_run by exact R. unfold mret, se_ret. do 2 f_equal. simpl.
  unfold spec_find. rewrite flat_app, flat_cons, filter_app, filter_none. 2:{ apply Forall_forall. intros e He.
    specialize (L1 e He). pose proof (comp_sym e.2 k). lia. }
  simpl. rewrite filter_cons. destruct (Z.eqb_spec (comp k kq) 0) as [E|E]; simpl; [by rewrite decide_True|].
  rewrite decide_False by done. rewrite filter_none; [done|]. apply Forall_app. split; apply Forall_forall; intros e He.
  - destruct (gsorted_split _ _ _ (r_sorted _ _ _ H)) as (_ & _ & HE). specialize (HE e He). simpl in HE.
    intros Hk. apply E. pose proof (comp_eq_sym comp _ _ HE) as HE'.
    pose proof (comp_trans k e.2 kq). pose proof (comp_trans kq e.2 k).
    pose proof (comp_eq_sym comp _ _ Hk). pose proof (comp_ge comp k kq). lia.
  - specialize (L2 e He). lia.
Qed.

Lemma avl_find_lessequal_run s L k : avl_rep s L -> avl_find_lessequal comp k s = Some (s, spec_le k L).
Proof.
  intros (G & t & H & <-). unfold avl_find_lessequal. erewrite bind_run by reflexivity.
  destruct (root (tree s)) as [p|] eqn:Hp; [|by rewrite (root_none _ _ _ H Hp)].
  erewrite bind_run by reflexivity. pose proof (tsize_bound _ _ (r_tree _ _ _ H)) as Hs.
  pose proof (rep_length _ _ _ H) as Hlen. pose proof (rep_linked _ _ _ H) as HL.
  pose proof (flat_sorted _ (r_sorted _ _ _ H)) as HS.
  destruct (located s G t k p (S (size (nodes s)))) as (c & l & q & kq & b & r & fs & G1 & G2 & _ & EG & _ & _ & R & _);
    [done|done|lia|].
  erewrite bind_run by exact R. simpl fst. simpl snd.
  assert (EL : flat G = flat G1 ++ (q, kq) :: fs ++ flat G2) by (rewrite EG, flat_app; done).
  set (A := flat G1) in *. set (B := fs ++ flat G2) in *. unfold spec_le.
  erewrite bind_run by (apply (le_left_run s _ HL k A _ (q, kq) B EL); rewrite EL, length_app in Hlen; simpl in Hlen; lia).
  destruct (last _) as [e|] eqn:El; simpl.
  - apply last_filter_Some in El as (A' & C & EA & He & HCn).
    assert (EL' : flat G = A' ++ e :: C ++ B).
    { rewrite EL. replace (A ++ (q, kq) :: B) with ((A ++ [(q, kq)]) ++ B) by (by rewrite <- app_assoc).
      rewrite EA. by rewrite <- app_assoc. }
    rewrite EL' in HS, Hlen. apply ssorted_app in HS as (_ & HS & _). rewrite length_app in Hlen. simpl in Hlen.
    destruct (le_right_run s _ HL k (C ++ B) (S (size (nodes s))) e A' e.1 (comp k e.2) EL') as (x & Rx & Hx);
      [done|lia|done|done|].
    erewrite bind_run by exact Rx. rewrite EL', last_filter_app, Hx by done. done.
  - apply last_filter_None in El. apply Forall_app in El as [Fa [Fq _]%Forall_cons].
    rewrite EL in HS |- *. apply ssorted_app in HS as (_ & HS & _).
    rewrite filter_none; [done|]. apply Forall_app. split; [done|]. apply sorted_above; [done|]. simpl in *. lia.
Qed.

Lemma avl_find_greaterequal_run s L k : avl_rep s L -> avl_find_greaterequal comp k s = Some (s, spec_ge k L).
Proof.
  intros (G & t & H & <-). unfold avl_find_greaterequal. erewrite bind_run by reflexivity.
  destruct (root (tree s)) as [p|] eqn:Hp; [|by rewrite (root_none _ _ _ H Hp)].
  erewrite bind_run by reflexivity. pose proof (tsize_bound _ _ (r_tree _ _ _ H)) as Hs.
  pose proof (rep_length _ _ _ H) as Hlen. pose proof (rep_linked _ _ _ H) as HL.
  pose proof (flat_sorted _ (r_sorted _ _ _ H)) as HS.
  destruct (located s G t k p (S (size (nodes s)))) as (c & l & q & kq & b & r & fs & G1 & G2 & _ & EG & _ & _ & R & _);
    [done|done|lia|].
  erewrite bind_run by exact R. simpl fst. simpl snd.
  assert (EL : flat G = flat G1 ++ (q, kq) :: fs ++ flat G2) by (rewrite EG, flat_app; done).
  set (A := flat G1) in *. set (B := fs ++ flat G2) in *. unfold spec_ge.
  erewrite bind_run by (apply (ge_right_run s _ HL k B _ (q, kq) A EL); rewrite EL, length_app in Hlen; simpl in Hlen; lia).
  destruct (head _) as [e|] eqn:El; simpl.
  - apply head_filter_Some in El as (C & B' & EB & He & HCn).
    assert (EL' : flat G = (A ++ C) ++ e :: B') by (by rewrite EL, EB, app_assoc).
    rewrite EL' in HS, Hlen. rewrite length_app in Hlen. simpl in Hlen.
    replace ((A ++ C) ++ e :: B') with (((A ++ C) ++ [e]) ++ B') in HS by (by rewrite <- app_assoc).
    apply ssorted_app in HS as (HS & _ & _).
    destruct (ge_left_run s _ HL k (A ++ C) (S (size (nodes s))) e B' e.1 (comp k e.2) EL') as (x & Rx & Hx);
      [done|lia|done|done|].
    erewrite bind_run by exact Rx. rewrite EL', head_filter_app, Hx by done. done.
  - apply head_filter_None in El. apply Forall_cons in El as [Fq Fb]. simpl in Fq.
    replace (A ++ (q, kq) :: B) with ((A ++ [(q, kq)]) ++ B) in EL by (by rewrite <- app_assoc).
    rewrite EL in HS |- *. apply ssorted_app in HS as (HS & _ & _).
    rewrite filter_none; [done|]. apply Forall_app. split; [|done]. apply sorted_below; [done|]. simpl. lia.
Qed.
End spec.
