(* ===== verification/AvlOps.v ===== *)
(** * Insertion into and removal from an AVL tree

    The pointer code of [avl_insert], [avl_remove] and [avl_init] refines insertion
    into and removal from the sorted sequence of [AvlSpec]. *)
From S2P Require Import Prelude Lists AvlHeap AvlTree AvlRefine AvlSpec.

Section ops.
Context {K : Type} (comp : K -> K -> Z) {HC : AvlComp comp}.
Abbreviation entry := (loc * K)%type.
Abbreviation group := (entry * list entry)%type.
Implicit Types (N : gmap loc (avl_node K)) (s : avl_st K) (e : entry) (G : list group) (L : list entry).

(** ** Pieces of the invariant *)
Lemma gsorted_insert G1 G2 new k :
  gsorted comp (G1 ++ G2) -> (forall e, e ∈ flat G1 -> comp e.2 k < 0) -> (forall e, e ∈ flat G2 -> comp k e.2 < 0) ->
  gsorted comp (G1 ++ ((new, k), []) :: G2).
Proof.
  intros [(S1 & S2 & S12)%ssorted_app [F1 F2]%Forall_app] L1 L2. split.
  - apply ssorted_app. split_and!; [done| |].
    + apply ssorted_cons. split; [|done]. intros g Hg. apply L2, elem_of_flat. eauto.
    + intros g h Hg [->|Hh]%elem_of_cons; [|by apply S12]. apply L1, elem_of_flat. eauto.
  - apply Forall_app. split; [done|]. constructor; [constructor|done].
Qed.

(** Exchanging the followers of a group, or its leader for an equal one. *)
Lemma gsorted_regroup G1 x fs y fs' G2 :
  gsorted comp (G1 ++ (x, fs) :: G2) -> comp x.2 y.2 = 0 -> (forall e, e ∈ fs' -> comp y.2 e.2 = 0) ->
  gsorted comp (G1 ++ (y, fs') :: G2).
Proof.
  intros [(S1 & [S2 S3]%ssorted_cons & S12)%ssorted_app [F1 [_ F2]%Forall_cons]%Forall_app] Exy Hf. split.
  - apply ssorted_app. split_and!; [done| |].
    + apply ssorted_cons. split; [|done]. intros g Hg. apply S2 in Hg. unfold elt in *. simpl in *.
      apply (comp_le_lt_trans comp _ x.2); [|done]. by rewrite (comp_eq_sym comp).
    + intros g h Hg [->|Hh]%elem_of_cons; [|apply S12; [done|by right]].
      specialize (S12 g (x, fs) Hg ltac:(left)). unfold elt in *. simpl in *.
      apply (comp_lt_le_trans comp _ x.2); [done|lia].
  - apply Forall_app. split; [done|]. constructor; [|done]. by apply Forall_forall.
Qed.

Lemma gsorted_delete G1 g G2 : gsorted comp (G1 ++ g :: G2) -> gsorted comp (G1 ++ G2).
Proof.
  intros [(S1 & [S2 S3]%ssorted_cons & S12)%ssorted_app [F1 [_ F2]%Forall_cons]%Forall_app]. split.
  - apply ssorted_app. split_and!; [done..|]. intros g1 g2 H1 H2. apply S12; [done|by right].
  - by apply Forall_app.
Qed.

Lemma has_kept D s s' e b : kept D s s' -> has (nodes s) e b -> has (nodes s') e b.
Proof.
  intros Hk (n & Hn & Hd). destruct (kept_lookup _ _ _ _ _ Hk Hn) as (n' & Hn' & Hd'). exists n'. split; congruence.
Qed.

Lemma ents_ext N N' G : (forall e b, e ∈ flat G -> has N e b -> has N' e b) -> ents N G -> ents N' G.
Proof.
  intros HN. unfold ents. rewrite !Forall_forall. intros HE g Hg. destruct (HE g Hg) as [H1 H2].
  rewrite Forall_forall in H2. split.
  - apply HN; [|done]. apply elem_of_flat. eauto.
  - apply Forall_forall. intros e He. apply HN; [apply elem_of_flat; eauto|by apply H2].
Qed.

Lemma leads_flat G q : q ∈ leads G -> q ∈ (flat G).*1.
Proof. intros (g & -> & Hg)%list_elem_of_fmap. apply list_elem_of_fmap_2, elem_of_flat. eauto. Qed.

Lemma occ_flat s G t q : rep comp s G t -> (0 < occ q t)%nat -> q ∈ (flat G).*1.
Proof. intros H Hq%occ_inorder. rewrite (r_inorder _ _ _ _ H) in Hq. by apply leads_flat. Qed.

(** Nodes outside the sequence do not matter. *)
Lemma rep_frame s N' G t :
  (forall q, q ∈ (flat G).*1 -> N' !! q = nodes s !! q) -> rep comp s G t -> rep comp (mkSt (tree s) N' (lists s)) G t.
Proof.
  intros HF H. pose proof H as [? ? HE [Hr Ht U] ? ? ? ?]. split; try done; simpl.
  - revert HE. apply ents_ext. intros e b He (n & Hn & Hd). exists n. split; [|done].
    rewrite HF; [done|]. by apply list_elem_of_fmap_2.
  - split; [done| |done]. revert Ht. apply tree_at_frame. intros q Hq. apply HF. by eapply occ_flat.
Qed.

(** ** The list operations *)
Definition relist s (c : Z) (h : lheap) : avl_st K :=
  mkSt (mkTree (list_head (tree s)) (root (tree s)) (u32 c) (allow_dups (tree s))) (nodes s) h.

Section lists.
Context s L (HL : linked s L) (new : loc) (Hnew : new ∉ list_head (tree s) :: L.*1) (Ha : is_Some (lists s !! new)).

Lemma insert_before_run A e B k : L = A ++ e :: B ->
  exists h, int_avl_insert_before e.1 new s = Some (relist s (count (tree s) + 1) h, tt) /\
    dlist h (list_head (tree s)) ((A ++ (new, k) :: e :: B).*1).
Proof.
  intros E. pose proof (lk_ring _ _ HL) as HD. rewrite E, fmap_app in HD. rewrite E, fmap_app in Hnew.
  destruct (list_add_before_mid _ _ _ _ _ _ HD Hnew Ha) as (h & R & HD' & _).
  exists h. rewrite fmap_app. split; [|done]. unfold int_avl_insert_before, on_lists. unfold mbind, se_bind. by rewrite R.
Qed.
Lemma insert_after_run A e B k : L = A ++ e :: B ->
  exists h, int_avl_insert_after e.1 new s = Some (relist s (count (tree s) + 1) h, tt) /\
    dlist h (list_head (tree s)) ((A ++ e :: (new, k) :: B).*1).
Proof.
  intros E. pose proof (lk_ring _ _ HL) as HD. rewrite E, fmap_app in HD. rewrite E, fmap_app in Hnew.
  destruct (list_add_after_mid _ _ _ _ _ _ HD Hnew Ha) as (h & R & HD' & _).
  exists h. rewrite fmap_app. split; [|done]. unfold int_avl_insert_after, on_lists. unfold mbind, se_bind. by rewrite R.
Qed.
End lists.

Lemma remove_run s L A e B : linked s L -> L = A ++ e :: B ->
  exists h, int_avl_remove e.1 s = Some (relist s (count (tree s) - 1) h, tt) /\
    dlist h (list_head (tree s)) ((A ++ B).*1).
Proof.
  intros HL E. pose proof (lk_ring _ _ HL) as HD. rewrite E, fmap_app in HD.
  destruct (dlist_unlink _ _ _ _ _ HD) as (h & R & HD' & _).
  exists h. rewrite fmap_app. split; [|done]. unfold int_avl_remove, on_lists. unfold mbind, se_bind. by rewrite R.
Qed.

(** [insert_last] walks to the end of a group. *)
Lemma insert_last_run s G2 : forall fs f A e, linked s (A ++ e :: fs ++ flat G2) -> ents (nodes s) G2 ->
  Forall (fun e => has (nodes s) e false) fs -> (length fs < f)%nat ->
  exists A' e', insert_last f e.1 s = Some (s, e'.1) /\ A ++ e :: fs = A' ++ [e'].
Proof.
  induction fs as [|x fs IH]; intros f A e HL HE HF Hf; (destruct f as [|f]; [simpl in Hf; lia|]); cbn [insert_last].
  - erewrite bind_run by reflexivity. erewrite bind_run by (by eapply at_last). simpl. exists A, e. split; [|done].
    destruct G2 as [|[y ys] G2]; [done|]. rewrite bool_decide_false by done.
    erewrite bind_run by (by eapply step_next). erewrite bind_run by reflexivity.
    unfold ents in HE. apply Forall_cons in HE as [[(n & Hn & _ & Ln)%has_keyed _] _]. simpl in Hn.
    erewrite bind_run by (by apply rd_run). by rewrite Ln.
  - erewrite bind_run by reflexivity. erewrite bind_run by (by eapply at_last). rewrite bool_decide_false by done.
    erewrite bind_run by (by eapply step_next). erewrite bind_run by reflexivity.
    apply Forall_cons in HF as [(n & Hn & _ & Ln)%has_keyed HF].
    erewrite bind_run by (by apply rd_run). rewrite Ln. simpl in Hf.
    replace (A ++ e :: x :: fs) with ((A ++ [e]) ++ x :: fs) by (by rewrite <- app_assoc).
    apply IH; [by rewrite <- app_assoc|done|done|lia].
Qed.

(** ** The tree operations of [avl_insert] *)
Definition leaf (n : avl_node K) : Prop :=
  n_parent n = None /\ n_left n = None /\ n_right n = None /\ n_balance n = 0.

Section graft.
Context {R : Type} (D : loc -> Prop) s (q new : loc) (nn : avl_node K) (b' : Z) (k : unit -> SE (avl_st K) R)
  (Hnn : nodes s !! new = Some nn) (Hleaf : leaf nn) (Dq : D q) (Dnew : D new).

Lemma graft_left_run c b r :
  tree_ok s (plug c (T E q b r)) -> occ new (plug c (T E q b r)) = 0%nat ->
  exists s', (wr q (set_balance b');; wr new (set_parent (Some q));; (wr q (set_left (Some new)) ≫= k)) s = k tt s' /\
    tree_ok s' (plug c (T (T E new 0 E) q (s8 b') r)) /\ kept D s s'.
Proof using Hnn Hleaf Dq Dnew.
  intros [Hr Ht U] Nn. rewrite rt_plug in Hr. apply tree_at_plug in Ht as [Ht Hc].
  assert (U' : forall x, (one x new + one x q + occ x r + cocc x c <= 1)%nat).
  { intros x. pose proof (U x) as Ux. rewrite occ_plug in Ux, Nn. simpl in Ux, Nn.
    unfold one at 1. case_decide; [subst; rewrite Nn in Ux|]; lia. }
  simpl in Ht. destruct Ht as ((n & Hn & P & L & Rr & B) & _ & Hrt). destruct Hleaf as (L1 & L2 & L3 & L4).
  assert (Nqn : q <> new) by apart U'. do 3 run_wr. eexists. split; [reflexivity|]. split; [split|].
  - by rewrite rt_plug.
  - apply tree_at_plug. simpl. split_and!; try done.
    + eexists. split; [lk|done].
    + eexists. split; [lk|done].
    + revert Hrt. framed U' I I.
    + revert Hc. framed U' I I.
  - intros x. rewrite occ_plug. specialize (U' x). simpl. lia.
  - do 2 (eapply kept_trans; [|eapply kept_upd; [lk|done|done]]). eapply kept_upd; [lk|done|done].
Qed.

Lemma graft_right_run c b l :
  tree_ok s (plug c (T l q b E)) -> occ new (plug c (T l q b E)) = 0%nat ->
  exists s', (wr q (set_balance b');; wr new (set_parent (Some q));; (wr q (set_right (Some new)) ≫= k)) s = k tt s' /\
    tree_ok s' (plug c (T l q (s8 b') (T E new 0 E))) /\ kept D s s'.
Proof using Hnn Hleaf Dq Dnew.
  intros [Hr Ht U] Nn. rewrite rt_plug in Hr. apply tree_at_plug in Ht as [Ht Hc].
  assert (U' : forall x, (one x new + one x q + occ x l + cocc x c <= 1)%nat).
  { intros x. pose proof (U x) as Ux. rewrite occ_plug in Ux, Nn. simpl in Ux, Nn.
    unfold one at 1. case_decide; [subst; rewrite Nn in Ux|]; lia. }
  simpl in Ht. destruct Ht as ((n & Hn & P & L & Rr & B) & Hlt & _). destruct Hleaf as (L1 & L2 & L3 & L4).
  assert (Nqn : q <> new) by apart U'. do 3 run_wr. eexists. split; [reflexivity|]. split; [split|].
  - by rewrite rt_plug.
  - apply tree_at_plug. simpl. split_and!; try done.
    + eexists. split; [lk|done].
    + revert Hlt. framed U' I I.
    + eexists. split; [lk|done].
    + revert Hc. framed U' I I.
  - intros x. rewrite occ_plug. specialize (U' x). simpl. lia.
  - do 2 (eapply kept_trans; [|eapply kept_upd; [lk|done|done]]). eapply kept_upd; [lk|done|done].
Qed.
End graft.

(** ** [avl_insert] *)
Definition spec_insert (dups : bool) (k : K) (new : loc) (L : list entry) : Z * list entry :=
  if negb dups && bool_decide (Exists (fun e => comp k e.2 = 0) L) then (-1, L)
  else (0, filter (fun e => comp e.2 k <= 0) L ++ (new, k) :: filter (fun e => comp k e.2 < 0) L).

Lemma spec_insert_app dups k new A B :
  (forall e, e ∈ A -> comp e.2 k <= 0) -> (forall e, e ∈ B -> comp k e.2 < 0) ->
  (dups = true \/ forall e, e ∈ A -> comp e.2 k < 0) ->
  spec_insert dups k new (A ++ B) = (0, A ++ (new, k) :: B).
Proof.
  intros HA HB Hd. unfold spec_insert. replace (negb dups && _) with false.
  - assert (filter (fun e => comp e.2 k <= 0) B = []) as EB.
    { apply filter_none, Forall_forall. intros e He. specialize (HB e He). apply comp_sym in HB. lia. }
    assert (filter (fun e => comp k e.2 < 0) A = []) as EA.
    { apply filter_none, Forall_forall. intros e He. specialize (HA e He). apply comp_ge in HA; [lia|done]. }
    rewrite !filter_app, EA, EB, app_nil_r. simpl.
    do 2 f_equal; [|f_equal]; apply filter_all, Forall_forall; done.
  - symmetry. apply andb_false_iff. destruct Hd as [->|Hd]; [by left|]. right. apply bool_decide_eq_false.
    rewrite Exists_exists. intros (e & [He|He]%elem_of_app & E).
    + specialize (Hd e He). apply comp_eq_sym in E; [lia|done].
    + specialize (HB e He). lia.
Qed.

Lemma insert_rep s G1 G2 t new k nn h D s' t' :
  rep comp s (G1 ++ G2) t -> nodes s !! new = Some nn -> data nn = (k, true) ->
  (forall e, e ∈ flat G1 -> comp e.2 k < 0) -> (forall e, e ∈ flat G2 -> comp k e.2 < 0) ->
  dlist h (list_head (tree s)) ((flat G1 ++ (new, k) :: flat G2).*1) ->
  kept D (relist s (count (tree s) + 1) h) s' -> tree_ok s' t' -> avl t' ->
  inorder t' = leads G1 ++ new :: leads G2 -> rep comp s' (G1 ++ ((new, k), []) :: G2) t'.
Proof.
  intros H Hn Hd L1 L2 HD Hk Ok Ha Hi. split; try done.
  - by eapply gsorted_insert; [apply H|..].
  - rewrite (k_lists _ _ _ Hk), (k_head _ _ _ Hk). by rewrite flat_app, flat_cons.
  - pose proof (r_ents _ _ _ _ H) as HE.
    assert (HE' : ents (nodes s') (G1 ++ G2)) by (revert HE; apply ents_ext; intros e b _; by apply (has_kept D (relist s (count (tree s) + 1) h))).
    unfold ents in *. apply Forall_app in HE' as [HE1 HE2]. apply Forall_app. split; [done|]. constructor; [|done].
    split; [|constructor]. eapply has_kept; [done|]. by exists nn.
  - rewrite Hi. unfold leads. by rewrite fmap_app.
  - rewrite (k_count _ _ _ Hk). simpl. rewrite (r_count _ _ _ _ H), u32_succ, !flat_app, flat_cons.
    rewrite !length_app. simpl. f_equal. lia.
  - rewrite (k_dups _ _ _ Hk). simpl. intros Hdup. pose proof (r_dups _ _ _ _ H Hdup) as [F1 F2]%Forall_app.
    apply Forall_app. split; [done|]. by constructor.
Qed.

(** The follower branch. *)
Lemma insert_follower_rep s G1 q kq fs G2 t new k h :
  rep comp s (G1 ++ ((q, kq), fs) :: G2) t -> has (nodes s) (new, k) false -> comp kq k = 0 -> allow_dups (tree s) = true ->
  dlist h (list_head (tree s)) (((flat G1 ++ (q, kq) :: fs) ++ (new, k) :: flat G2).*1) ->
  rep comp (relist s (count (tree s) + 1) h) (G1 ++ ((q, kq), fs ++ [(new, k)]) :: G2) t.
Proof.
  intros H Hn E Hdup HD. pose proof (r_sorted _ _ _ _ H) as HS. split; simpl.
  - eapply gsorted_regroup; [done|by apply comp_refl|]. destruct (gsorted_split _ _ _ _ HS) as (_ & _ & Hf).
    intros e [He|He]%elem_of_app; [by apply Hf|]. apply list_elem_of_singleton in He as ->. done.
  - rewrite flat_app, flat_cons. simpl. rewrite <- !app_assoc in *. done.
  - pose proof (r_ents _ _ _ _ H) as HE. unfold ents in *. apply Forall_app in HE as [HE1 [[HQ HF] HE2]%Forall_cons].
    apply Forall_app. split; [done|]. constructor; [|done]. split; [done|]. apply Forall_app. split; [done|]. by constructor.
  - destruct (r_tree _ _ _ _ H). by split.
  - apply H.
  - rewrite (r_inorder _ _ _ _ H). unfold leads. by rewrite !fmap_app.
  - rewrite (r_count _ _ _ _ H), u32_succ, !flat_app, !flat_cons. simpl. rewrite !length_app. simpl. rewrite !length_app. simpl. f_equal. lia.
  - congruence.
Qed.

Lemma upd_upd s p n n' : upd (upd s p n) p n' = upd s p n'.
Proof. unfold upd. simpl. by rewrite insert_insert_eq. Qed.

(** The initialisation of the new node. *)
Lemma insert_init_run {R} s new n (k : SE (avl_st K) R) : nodes s !! new = Some n ->
  exists nn, (wr new (set_parent None);; wr new (set_left None);; wr new (set_right None);;
    wr new (set_balance 0);; wr new (set_leader true);; k) s = k (upd s new nn) /\
    leaf nn /\ data nn = (n_key n, true).
Proof.
  intros Hn. eexists. split; [do 5 run_wr; rewrite !upd_upd; reflexivity|].
  split; [|done]. unfold leaf. simpl. by rewrite s8_small by lia.
Qed.

(** Insertion next to a node without a left or a right subtree. *)
Section insert_leaf.
Context s G1 G2 t new nn (k : K) f
  (H : rep comp s (G1 ++ G2) t) (Hn : nodes s !! new = Some nn) (Hleaf : leaf nn) (Hd : data nn = (k, true))
  (Hnew : new ∉ list_head (tree s) :: (flat (G1 ++ G2)).*1) (Ha : is_Some (lists s !! new))
  (L1 : forall e, e ∈ flat G1 -> comp e.2 k < 0) (L2 : forall e, e ∈ flat G2 -> comp k e.2 < 0)
  (Hf : (tsize t < f)%nat).

Lemma new_not_in_tree : occ new t = 0%nat.
Proof.
  destruct (decide (0 < occ new t)%nat) as [Ho|]; [|lia]. eapply occ_flat in Ho; [|done]. set_solver.
Qed.

Lemma inserted s2 h t' D :
  dlist h (list_head (tree s)) ((flat G1 ++ (new, k) :: flat G2).*1) ->
  kept D (relist s (count (tree s) + 1) h) s2 -> tree_ok s2 t' -> avl t' -> inorder t' = leads G1 ++ new :: leads G2 ->
  avl_rep comp s2 (flat G1 ++ (new, k) :: flat G2) /\
  list_head (tree s2) = list_head (tree s) /\ allow_dups (tree s2) = allow_dups (tree s).
Proof.
  intros HD K2 Ok2 Av Hi. split; [|by destruct K2].
  exists (G1 ++ ((new, k), []) :: G2), t'. split; [by eapply insert_rep|]. by rewrite flat_app, flat_cons.
Qed.

(** The end of the branches of [avl_insert], from a state with the new list. *)
Lemma insert_left_run (h : lheap) c q b r :
  t = plug c (T E q b r) -> leads G1 = cpre c -> leads G2 = q :: inorder r ++ cpost c -> 0 <= b <= 1 ->
  dlist h (list_head (tree s)) ((flat G1 ++ (new, k) :: flat G2).*1) ->
  exists s', (wr q (set_balance (b - 1));; wr new (set_parent (Some q));; wr q (set_left (Some new));;
      if b =? 1 then mret 0 else int_post_insert f q;; mret 0) (relist s (count (tree s) + 1) h) = Some (s', 0) /\
    avl_rep comp s' (flat G1 ++ (new, k) :: flat G2) /\
    list_head (tree s') = list_head (tree s) /\ allow_dups (tree s') = allow_dups (tree s).
Proof.
  intros Et E1 E2 Hb HD. pose proof new_not_in_tree as Nn. pose proof (r_avl _ _ _ _ H) as Av.
  set (D := fun x => x = new \/ (0 < occ x t)%nat). set (s1 := relist _ _ _).
  assert (Ok1 : tree_ok s1 t) by (destruct (r_tree _ _ _ _ H); by split).
  rewrite Et in Ok1, Nn, Av. apply avl_plug in Av as [(_ & Ar & Hbr & _) Ac]. simpl in Hbr, Ac.
  destruct (graft_left_run D s1 q new nn (b - 1) (fun _ => if b =? 1 then mret 0 else int_post_insert f q;; mret 0) Hn Hleaf)
    with (c := c) (b := b) (r := r) as (s2 & R2 & Ok2 & K2); [|by left|done|done|].
  { right. rewrite Et, occ_plug. simpl. rewrite one_refl. lia. }
  rewrite R2. rewrite s8_small in Ok2 by lia. pose proof (height_nonneg r).
  destruct (Z.eqb_spec b 1) as [->|].
  - exists s2. split; [done|]. eapply inserted; [done..| |].
    + apply avl_plug. simpl. repeat split; try done; try lia. by replace (height r) with 1 in * by lia.
    + rewrite inorder_plug, E1, E2. simpl. done.
  - assert (b = 0) as -> by lia. destruct r as [|]; [|simpl in *; pose proof (height_nonneg r1); lia]. simpl in *.
    destruct (post_insert_run D f c (T (T E new 0 E) q (-1) E) q s2) as (s3 & R3 & Ok3 & K3); simpl; try done.
    + rewrite Et in Hf. pose proof (tsize_plug c (T E q 0 E)). simpl in *. lia.
    + intros x. rewrite occ_plug. subst D. rewrite Et, occ_plug. simpl. unfold one. repeat case_decide; tauto || lia.
    + exists s3. split; [by erewrite bind_run by exact R3|]. eapply inserted; [done|by eapply kept_trans|done|..].
      * by apply zpost_insert_avl.
      * rewrite inorder_zpost_insert, inorder_plug, E1, E2. done.
Qed.

Lemma insert_right_run (h : lheap) c q b l :
  t = plug c (T l q b E) -> leads G1 = cpre c ++ inorder l ++ [q] -> leads G2 = cpost c -> -1 <= b <= 0 ->
  dlist h (list_head (tree s)) ((flat G1 ++ (new, k) :: flat G2).*1) ->
  exists s', (wr q (set_balance (b + 1));; wr new (set_parent (Some q));; wr q (set_right (Some new));;
      if b =? -1 then mret 0 else int_post_insert f q;; mret 0) (relist s (count (tree s) + 1) h) = Some (s', 0) /\
    avl_rep comp s' (flat G1 ++ (new, k) :: flat G2) /\
    list_head (tree s') = list_head (tree s) /\ allow_dups (tree s') = allow_dups (tree s).
Proof.
  intros Et E1 E2 Hb HD. pose proof new_not_in_tree as Nn. pose proof (r_avl _ _ _ _ H) as Av.
  set (D := fun x => x = new \/ (0 < occ x t)%nat). set (s1 := relist _ _ _).
  assert (Ok1 : tree_ok s1 t) by (destruct (r_tree _ _ _ _ H); by split).
  rewrite Et in Ok1, Nn, Av. apply avl_plug in Av as [(Al & _ & Hbl & _) Ac]. simpl in Hbl, Ac.
  destruct (graft_right_run D s1 q new nn (b + 1) (fun _ => if b =? -1 then mret 0 else int_post_insert f q;; mret 0) Hn Hleaf)
    with (c := c) (b := b) (l := l) as (s2 & R2 & Ok2 & K2); [|by left|done|done|].
  { right. rewrite Et, occ_plug. simpl. rewrite one_refl. lia. }
  rewrite R2. rewrite s8_small in Ok2 by lia. pose proof (height_nonneg l).
  destruct (Z.eqb_spec b (-1)) as [->|].
  - exists s2. split; [done|]. eapply inserted; [done..| |].
    + apply avl_plug. simpl. repeat split; try done; try lia. by replace (height l) with 1 in * by lia.
    + rewrite inorder_plug, E1, E2. simpl. by rewrite <- !app_assoc.
  - assert (b = 0) as -> by lia. destruct l as [|]; [|simpl in *; pose proof (height_nonneg l1); lia]. simpl in *.
    destruct (post_insert_run D f c (T E q 1 (T E new 0 E)) q s2) as (s3 & R3 & Ok3 & K3); simpl; try done.
    + rewrite Et in Hf. pose proof (tsize_plug c (T E q 0 E)). simpl in *. lia.

    + intros x. rewrite occ_plug. subst D. rewrite Et, occ_plug. simpl. unfold one. repeat case_decide; tauto || lia.
    + exists s3. split; [by erewrite bind_run by exact R3|]. eapply inserted; [done|by eapply kept_trans|done|..].
      * by apply zpost_insert_avl.
      * rewrite inorder_zpost_insert, inorder_plug, E1, E2. simpl. by rewrite <- !app_assoc.
Qed.
End insert_leaf.

Definition same_head s s' : Prop :=
  list_head (tree s') = list_head (tree s) /\ allow_dups (tree s') = allow_dups (tree s).

(** Insertion into the empty tree. *)
Lemma insert_empty_run s t new nn (k : K) :
  rep comp s [] t -> nodes s !! new = Some nn -> leaf nn -> data nn = (k, true) ->
  new <> list_head (tree s) -> is_Some (lists s !! new) ->
  exists s', (on_lists (list_add_head (list_head (tree s)) new);; set_root (Some new);; set_count 1;; mret 0) s = Some (s', 0) /\
    avl_rep comp s' [(new, k)] /\ same_head s s'.
Proof.
  intros H Hn (L1 & L2 & L3 & L4) Hd Hnew Ha. pose proof (r_list _ _ _ _ H) as HD. simpl in HD.
  destruct (list_add_head_run _ _ _ new HD) as (h & R & HD' & _); [set_solver|done|].
  eexists. split; [unfold on_lists, mbind, se_bind; rewrite R; reflexivity|]. split; [|done].
  exists [((new, k), [])], (T E new 0 E). split; [|done]. split; simpl; try done.
  - split; [repeat constructor|]. constructor; constructor.
  - constructor; [|constructor]. split; [|constructor]. by exists nn.
  - split; simpl; [done| |intros q; unfold one; case_decide; lia]. split; [|done]. by exists nn.
  - by intros _; constructor.
Qed.

(** Insertion where the search has ended. *)
Section insert_at.
Context s G1 q (kq : K) fs G2 t new nn (k : K) c l b r A' e'
  (H : rep comp s (G1 ++ ((q, kq), fs) :: G2) t) (Hn : nodes s !! new = Some nn) (Hleaf : leaf nn)
  (Hd : data nn = (k, true)) (Hnew : new ∉ list_head (tree s) :: (flat (G1 ++ ((q, kq), fs) :: G2)).*1)
  (Ha : is_Some (lists s !! new)) (Et : t = plug c (T l q b r))
  (E1 : leads G1 = cpre c ++ inorder l) (E2 : leads G2 = inorder r ++ cpost c)
  (L1 : forall e, e ∈ flat G1 -> comp e.2 k < 0) (L2 : forall e, e ∈ flat G2 -> comp k e.2 < 0)
  (El : flat G1 ++ (q, kq) :: fs = A' ++ [e']).
Abbreviation L := (flat (G1 ++ ((q, kq), fs) :: G2)).

Lemma insert_at_facts :
  linked s L /\ L = A' ++ e' :: flat G2 /\ (tsize t < S (size (nodes s)))%nat /\
  (exists nq, nodes s !! q = Some nq /\ n_balance nq = b) /\
  (forall e, e ∈ (q, kq) :: fs -> comp kq e.2 = 0) /\ b = height r - height l /\ -1 <= b <= 1.
Proof.
  split_and!.
  - by eapply rep_linked.
  - rewrite flat_app, flat_cons. simpl. rewrite app_comm_cons, app_assoc, El, <- app_assoc. done.
  - pose proof (tsize_bound _ _ (r_tree _ _ _ _ H)). lia.
  - pose proof (r_tree _ _ _ _ H) as Ok. rewrite Et in Ok. destruct (node_of _ _ _ _ _ _ Ok) as (nq & ? & _ & _ & _ & ?). eauto.
  - destruct (gsorted_split _ _ _ _ (r_sorted _ _ _ _ H)) as (_ & _ & Hf). intros e [->|He]%elem_of_cons; [apply comp_refl|by apply Hf].
  - pose proof (r_avl _ _ _ _ H) as Av. rewrite Et in Av. by apply avl_plug in Av as [(_ & _ & ? & _) _].
  - pose proof (r_avl _ _ _ _ H) as Av. rewrite Et in Av. apply avl_plug in Av as [(_ & _ & _ & ?) _]. lia.
  - pose proof (r_avl _ _ _ _ H) as Av. rewrite Et in Av. apply avl_plug in Av as [(_ & _ & _ & ?) _]. lia.
Qed.

Lemma insert_equal_run : comp k kq = 0 ->
  let res := spec_insert (allow_dups (tree s)) k new L in
  exists s', (dups ← get_tree allow_dups; if negb dups then mret (-1) else
      wr new (set_leader false);; int_avl_insert_after e'.1 new;; mret 0) s = Some (s', res.1) /\
    avl_rep comp s' res.2 /\ same_head s s'.
Proof.
  intros Ek res. subst res. destruct insert_at_facts as (HL & EL & _ & _ & Hf & _).
  erewrite bind_run by reflexivity. destruct (allow_dups (tree s)) eqn:Hdup; cbn [negb].
  - run_wr. set (nn' := set_leader false nn).
    assert (H1 : rep comp (upd s new nn') (G1 ++ ((q, kq), fs) :: G2) t).
    { apply rep_frame; [|done]. intros x Hx. apply lookup_insert_ne. intros <-. apply Hnew. by right. }
    destruct (insert_after_run (upd s new nn') L (rep_linked _ _ _ _ H1) new Hnew Ha A' e' (flat G2) k EL) as (h & R & HD).
    erewrite bind_run by exact R. rewrite EL. replace (A' ++ e' :: flat G2) with ((flat G1 ++ (q, kq) :: fs) ++ flat G2)
      by (by rewrite El, <- app_assoc).
    rewrite spec_insert_app; [|..|by left].
    + eexists. split; [reflexivity|]. split; [|done].
      exists (G1 ++ ((q, kq), fs ++ [(new, k)]) :: G2), t. split.
      * apply insert_follower_rep; [done| |by apply (comp_eq_sym comp)|done|].
        { exists nn'. split; [apply lookup_insert_eq|]. injection Hd as ? _. unfold data. simpl. congruence. }
        { rewrite El, <- app_assoc. done. }
      * rewrite flat_app, flat_cons. simpl. by rewrite <- !app_assoc.
    + intros e [He|He]%elem_of_app; [apply L1 in He; lia|]. specialize (Hf e He).
      apply (comp_trans _ kq); [rewrite (comp_eq_sym comp) by done; done|]. by rewrite (comp_eq_sym comp).
    + done.
  - unfold spec_insert. rewrite bool_decide_true; [simpl; exists s; split; [done|]; split; [|done]; by exists (G1 ++ ((q, kq), fs) :: G2), t|].
    apply Exists_exists. exists (q, kq). split; [|done]. rewrite flat_app, flat_cons. set_solver.
Qed.

(** The branches for a key that is not in the tree. *)
Abbreviation place f last := (
  b ← rd q n_balance;
  if b =? 1 then
    int_avl_insert_before q new;; wr q (set_balance 0);; wr new (set_parent (Some q));; wr q (set_left (Some new));; mret 0
  else if b =? -1 then
    int_avl_insert_after last new;; wr q (set_balance 0);; wr new (set_parent (Some q));; wr q (set_right (Some new));; mret 0
  else if comp k kq <? 0 then
    int_avl_insert_before q new;; wr q (set_balance (-1));; wr new (set_parent (Some q));; wr q (set_left (Some new));;
    int_post_insert f q;; mret 0
  else
    int_avl_insert_after last new;; wr q (set_balance 1);; wr new (set_parent (Some q));; wr q (set_right (Some new));;
    int_post_insert f q;; mret 0).

Lemma insert_less_run : comp k kq < 0 -> l = E ->
  let res := spec_insert (allow_dups (tree s)) k new L in
  exists s', place (S (size (nodes s))) e'.1 s = Some (s', res.1) /\ avl_rep comp s' res.2 /\ same_head s s'.
Proof.
  intros Hk El0 res. subst res. destruct insert_at_facts as (HL & _ & Hf & (nq & Hnq & Bq) & Heq & Hb & Hb').
  pose proof (height_nonneg r). rewrite El0 in *. simpl in Hb.
  assert (L2' : forall e, e ∈ flat (((q, kq), fs) :: G2) -> comp k e.2 < 0).
  { rewrite flat_cons. simpl. intros e. rewrite app_comm_cons. intros [He|He]%elem_of_app; [|by apply L2].
    apply (comp_lt_le_trans comp _ kq); [done|]. by rewrite Heq. }
  assert (EL : L = flat G1 ++ (q, kq) :: fs ++ flat G2) by (by rewrite flat_app, flat_cons).
  destruct (insert_before_run s L HL new Hnew Ha (flat G1) (q, kq) (fs ++ flat G2) k EL) as (h & R & HD).
  rewrite EL, spec_insert_app; [| |done|].
  2: { intros e He. apply L1 in He. lia. } 2: { right. done. }
  simpl in E1. rewrite app_nil_r in E1.
  destruct (insert_left_run s G1 (((q, kq), fs) :: G2) t new nn k (S (size (nodes s))) H Hn Hleaf Hd Hnew Ha L1 L2' Hf h c q b r)
    as (s' & R' & Hrep & Hh); [done|done|by simpl; rewrite E2|lia|done|].
  exists s'. split; [|done]. run_rd. rewrite Bq. destruct (Z.eqb_spec b 1) as [->|].
  - erewrite bind_run by exact R. exact R'.
  - assert (b = 0) as -> by lia. simpl. rewrite (proj2 (Z.ltb_lt _ _) Hk).
    erewrite bind_run by exact R. exact R'.
Qed.

Lemma insert_greater_run : 0 < comp k kq -> r = E ->
  let res := spec_insert (allow_dups (tree s)) k new L in
  exists s', place (S (size (nodes s))) e'.1 s = Some (s', res.1) /\ avl_rep comp s' res.2 /\ same_head s s'.
Proof.
  intros Hk Er0 res. subst res. destruct insert_at_facts as (HL & EL & Hf & (nq & Hnq & Bq) & Heq & Hb & Hb').
  pose proof (height_nonneg l). rewrite Er0 in *. simpl in Hb.
  assert (Hk' : comp kq k < 0) by (by apply comp_sym).
  assert (L1' : forall e, e ∈ flat (G1 ++ [((q, kq), fs)]) -> comp e.2 k < 0).
  { rewrite flat_app. intros e [He|He]%elem_of_app; [by apply L1|]. simpl in He. rewrite !app_nil_r in He.
    apply (comp_le_lt_trans comp _ kq); [|done]. by rewrite (comp_eq_sym comp) by (by apply Heq). }
  destruct (insert_after_run s L HL new Hnew Ha A' e' (flat G2) k EL) as (h & R & HD).
  assert (EF : flat (G1 ++ [((q, kq), fs)]) = A' ++ [e']) by (rewrite <- El, flat_app; simpl; by rewrite !app_nil_r).
  assert (EG : G1 ++ ((q, kq), fs) :: G2 = (G1 ++ [((q, kq), fs)]) ++ G2) by (by rewrite <- app_assoc).
  replace (spec_insert _ _ _ L) with (0, (A' ++ [e']) ++ (new, k) :: flat G2).
  2: { rewrite EL. replace (A' ++ e' :: flat G2) with ((A' ++ [e']) ++ flat G2) by (by rewrite <- app_assoc).
       symmetry. rewrite <- EF. apply spec_insert_app; [intros e He; apply L1' in He; lia|done|by right]. }
  rewrite EG in H, Hnew.
  destruct (insert_right_run s (G1 ++ [((q, kq), fs)]) G2 t new nn k (S (size (nodes s))) H Hn Hleaf Hd Hnew Ha L1' L2 Hf h c q b l)
    as (s' & R' & Hrep & Hh); [done| |done|lia| |].
  { unfold leads in *. rewrite fmap_app, E1. simpl. by rewrite <- app_assoc. }
  { rewrite EF, <- app_assoc. done. }
  exists s'. rewrite <- EF. split; [|done]. run_rd. rewrite Bq. destruct (Z.eqb_spec b (-1)) as [->|].
  - simpl. erewrite bind_run by exact R. exact R'.
  - assert (b = 0) as -> by lia. simpl. destruct (Z.ltb_spec (comp k kq) 0); [lia|].
    erewrite bind_run by exact R. exact R'.
Qed.
End insert_at.
Lemma avl_insert_run s L new n :
  avl_rep comp s L -> nodes s !! new = Some n -> is_Some (lists s !! new) -> new ∉ list_head (tree s) :: L.*1 ->
  let res := spec_insert (allow_dups (tree s)) (n_key n) new L in
  exists s', avl_insert comp new s = Some (s', res.1) /\ avl_rep comp s' res.2 /\ same_head s s'.
Proof.
  intros (G & t & H & <-) Hn Ha Hnew res. subst res. set (k := n_key n). unfold avl_insert.
  edestruct (insert_init_run (R := Z) s new n) as (nn & -> & Hleaf & Hdn); [done|]. fold k in Hdn.
  assert (H0 : rep comp (upd s new nn) G t).
  { apply rep_frame; [|done]. intros q Hq. apply lookup_insert_ne. intros <-. set_solver. }
  assert (Hnn : nodes (upd s new nn) !! new = Some nn) by apply lookup_insert_eq.
  change (tree s) with (tree (upd s new nn)) in Hnew |- *. change (lists s) with (lists (upd s new nn)) in Ha.
  change (same_head s) with (same_head (upd s new nn)).
  revert H0 Hnn Hnew Ha. generalize (upd s new nn) as s0. clear H Hn s. intros s H Hn Hnew Ha.
  erewrite bind_run by reflexivity. destruct (root (tree s)) as [p|] eqn:Hroot.
  2: { pose proof (root_none _ _ _ _ H Hroot) as EG. assert (G = []) as -> by (by destruct G).
    erewrite bind_run by reflexivity. replace (spec_insert _ _ _ _) with (0, [(new, k)])
      by (unfold spec_insert; rewrite bool_decide_false by (by intros ?%Exists_nil); by rewrite andb_false_r).
    eapply insert_empty_run; try done. set_solver. }
  erewrite bind_run by reflexivity. pose proof (tsize_bound _ _ (r_tree _ _ _ _ H)) as Hs.
  pose proof (rep_length _ _ _ _ H) as Hlen. pose proof (rep_linked _ _ _ _ H) as HL.
  run_rd. replace (n_key nn) with k by (by injection Hdn).
  destruct (located comp s G t k p (S (size (nodes s))))
    as (c & l & q & kq & b & r & fs & G1 & G2 & Et & -> & E1 & E2 & Rf & L1 & L2 & Hl & Hr); [done|done|lia|].
  erewrite bind_run by exact Rf. simpl fst. cbv zeta.
  pose proof (r_ents _ _ _ _ H) as HE. unfold ents in HE. apply Forall_app in HE as [_ [[Hq HF] HE2]%Forall_cons].
  apply has_keyed in Hq as (nq & Hnq & Kq & _). simpl in Hnq, Kq, HF.
  rewrite flat_app, flat_cons in Hlen, HL, Hnew |- *. simpl in Hlen, HL, Hnew.
  destruct (insert_last_run s G2 fs (S (size (nodes s))) (flat G1) (q, kq) HL HE2 HF) as (A' & e' & Rl & El).
  { rewrite !length_app in Hlen. simpl in Hlen. rewrite length_app in Hlen. lia. }
  erewrite bind_run by exact Rl. run_rd. rewrite Kq.
  assert (Hnew' : new ∉ list_head (tree s) :: (flat (G1 ++ ((q, kq), fs) :: G2)).*1) by (by rewrite flat_app, flat_cons).
  replace (flat G1 ++ _) with (flat (G1 ++ ((q, kq), fs) :: G2)) by (by rewrite flat_app, flat_cons).
  destruct (Z.eqb_spec (comp k kq) 0) as [E0|E0]; [by eapply insert_equal_run|].
  destruct (Z.lt_ge_cases (comp k kq) 0) as [Hlt|Hge].
  - eapply insert_less_run; try done. by apply Hl.
  - eapply insert_greater_run; try done; [lia|]. apply Hr. lia.
Qed.

(** ** [avl_remove] *)
Record same_list s s' : Prop := {
  sl_lists : lists s' = lists s;
  sl_head : list_head (tree s') = list_head (tree s);
  sl_count : count (tree s') = count (tree s);
  sl_dups : allow_dups (tree s') = allow_dups (tree s)
}.

Lemma kept_same_list D s s' : kept D s s' -> same_list s s'.
Proof. by intros []; split. Qed.

(** Once the tree has been changed, [int_avl_remove] completes the removal. *)
Lemma unlink_run s G t A e B s' G' t' :
  rep comp s G t -> flat G = A ++ e :: B -> same_list s s' ->
  flat G' = A ++ B -> gsorted comp G' -> ents (nodes s') G' -> tree_ok s' t' -> avl t' -> inorder t' = leads G' ->
  (allow_dups (tree s) = false -> Forall (fun g => g.2 = []) G') ->
  exists s'', int_avl_remove e.1 s' = Some (s'', tt) /\ avl_rep comp s'' (A ++ B) /\ same_head s s''.
Proof.
  intros H EL [Q1 Q2 Q3 Q4] EL' HS HE [Ok1 Ok2 Ok3] Ha Hi Hdup.
  pose proof (r_list _ _ _ _ H) as HD. rewrite EL, fmap_app in HD.
  destruct (dlist_unlink _ _ _ _ _ HD) as (h & R & HD' & _).
  exists (relist s' (count (tree s') - 1) h). split; [|split; [|by split]].
  - unfold int_avl_remove, on_lists, mbind, se_bind. rewrite Q1, R. done.
  - exists G', t'. split; [|done]. split; simpl; try done.
    + rewrite Q2, EL', fmap_app. done.
    + rewrite Q3, (r_count _ _ _ _ H), u32_pred, EL, EL', !length_app. simpl. f_equal. lia.
    + by rewrite Q4.
Qed.

Lemma remove_follower_run s G t G1 x f1 e f2 G2 :
  rep comp s G t -> G = G1 ++ (x, f1 ++ e :: f2) :: G2 ->
  exists s', avl_remove e.1 s = Some (s', tt) /\
    avl_rep comp s' ((flat G1 ++ x :: f1) ++ f2 ++ flat G2) /\ same_head s s'.
Proof.
  intros H ->. pose proof (r_ents _ _ _ _ H) as HE. unfold ents in HE.
  apply Forall_app in HE as [HE1 [[Hx HF] HE2]%Forall_cons]. simpl in Hx, HF.
  apply Forall_app in HF as [F1 [He F2]%Forall_cons]. apply has_keyed in He as (n & Hn & _ & Ln).
  destruct (gsorted_split _ _ _ _ (r_sorted _ _ _ _ H)) as (_ & _ & Heq). simpl in Heq.
  unfold avl_remove. run_rd. rewrite Ln. erewrite bind_run by reflexivity.
  eapply (unlink_run s _ t _ e _ s (G1 ++ (x, f1 ++ f2) :: G2) t); [done| |done|..].
  - rewrite flat_app, flat_cons. simpl. by rewrite <- !app_assoc.
  - rewrite flat_app, flat_cons. simpl. by rewrite <- !app_assoc.
  - eapply gsorted_regroup; [apply H|apply comp_refl|]. intros y Hy. apply Heq. set_solver.
  - unfold ents. apply Forall_app. split; [done|]. constructor; [|done]. split; [done|]. by apply Forall_app.
  - apply H.
  - apply H.
  - rewrite (r_inorder _ _ _ _ H). unfold leads. by rewrite !fmap_app.
  - intros Hd. pose proof (r_dups _ _ _ _ H Hd) as HF. apply Forall_app in HF as [F [Ff _]%Forall_cons]. simpl in Ff. by destruct f1.
Qed.

(** Position of a leader in the tree. *)
Lemma leader_pos s G1 p k fs G2 t : rep comp s (G1 ++ ((p, k), fs) :: G2) t ->
  exists c l b r, t = plug c (T l p b r) /\ leads G1 = cpre c ++ inorder l /\ leads G2 = inorder r ++ cpost c.
Proof.
  intros H. pose proof (r_inorder _ _ _ _ H) as Hi. unfold leads in Hi. rewrite fmap_app in Hi. simpl in Hi.
  destruct (occ_plug_inv p t) as (c & l & b & r & Et).
  { apply occ_inorder. rewrite Hi. set_solver. }
  exists c, l, b, r. split; [done|]. pose proof (ok_nodup _ _ (r_tree _ _ _ _ H)) as ND%occ_NoDup.
  rewrite Et, inorder_plug in Hi, ND. simpl in Hi, ND.
  replace (cpre c ++ (inorder l ++ p :: inorder r) ++ cpost c)
    with ((cpre c ++ inorder l) ++ p :: inorder r ++ cpost c) in * by (by rewrite <- !app_assoc).
  destruct (app_cons_inj_nodup _ _ _ _ _ ND Hi) as [E1 E2]. by rewrite E1, E2.
Qed.

(** A leader without followers: the worker takes it out of the tree. *)
Lemma remove_single_run s G1 p k G2 t :
  rep comp s (G1 ++ ((p, k), []) :: G2) t ->
  exists s', (f ← fuel; int_avl_delete_worker 2 f p;; int_avl_remove p) s = Some (s', tt) /\
    avl_rep comp s' (flat G1 ++ flat G2) /\ same_head s s'.
Proof.
  intros H. destruct (leader_pos _ _ _ _ _ _ _ H) as (c & l & b & r & Et & E1 & E2).
  erewrite bind_run by reflexivity. pose proof (tsize_bound _ _ (r_tree _ _ _ _ H)) as Hs.
  pose proof (r_tree _ _ _ _ H) as Ok. pose proof (r_avl _ _ _ _ H) as Av. rewrite Et in Ok, Av, Hs.
  destruct (worker_run (fun _ => True) (S (size (nodes s))) s c l p b r Ok Av) as (t' & (s1 & R & Ok1 & K1) & Av1 & Hi1); [lia|done|].
  erewrite bind_run by exact R.
  eapply (unlink_run s _ t _ (p, k) _ s1 (G1 ++ G2) t'); [done|..|done|done| |].
  - by rewrite flat_app, flat_cons.
  - by eapply kept_same_list.
  - by rewrite flat_app.
  - eapply gsorted_delete, H.
  - pose proof (r_ents _ _ _ _ H) as HE. unfold ents in HE |- *. apply Forall_app in HE as [HE1 [_ HE2]%Forall_cons].
    apply (ents_ext (nodes s)); [intros e b0 _; by eapply has_kept|]. by apply Forall_app.
  - rewrite Hi1. unfold leads in *. rewrite fmap_app, E1, E2. by rewrite <- !app_assoc.
  - intros Hd. pose proof (r_dups _ _ _ _ H Hd) as [F1 [_ F2]%Forall_cons]%Forall_app. by apply Forall_app.
Qed.

(** A leader with followers: the next node becomes the leader. *)
Lemma remove_promote_run s G1 p k y fs G2 t :
  rep comp s (G1 ++ ((p, k), y :: fs) :: G2) t ->
  exists s', ((wr y.1 (set_leader true);; takeover_next p y.1);; int_avl_remove p) s = Some (s', tt) /\
    avl_rep comp s' (flat G1 ++ (y :: fs) ++ flat G2) /\ same_head s s'.
Proof.
  intros H. destruct (leader_pos _ _ _ _ _ _ _ H) as (c & l & b & r & Et & E1 & E2).
  pose proof (r_ents _ _ _ _ H) as HE. unfold ents in HE. apply Forall_app in HE as [HE1 [[Hp HF] HE2]%Forall_cons].
  simpl in HF. apply Forall_cons in HF as [(ny & Hny & Hdy) HF].
  destruct (gsorted_split _ _ _ _ (r_sorted _ _ _ _ H)) as (_ & _ & Heq). simpl in Heq.
  destruct (r_list _ _ _ _ H) as [ND%NoDup_cons_1_2 _]. rewrite flat_app, flat_cons, fmap_app in ND. simpl in ND.
  rewrite fmap_app in ND.
  assert (Ny : (y.1 ∉ (flat G1).*1) /\ y.1 <> p /\ (y.1 ∉ fs.*1) /\ (y.1 ∉ (flat G2).*1)).
  { apply NoDup_app in ND as (_ & N1 & ND). apply NoDup_cons in ND as [N2 ND]. apply NoDup_cons in ND as [N3 _]. split_and!.
    - intros Hy. apply (N1 _ Hy). set_solver.
    - intros Hy. apply N2. rewrite <- Hy. set_solver.
    - set_solver.
    - set_solver. }
  destruct Ny as (Ny1 & Nyp & Nyf & Ny2).
  set (s1 := upd s y.1 (set_leader true ny)).
  assert (Hny1 : nodes s1 !! y.1 = Some (set_leader true ny)) by apply lookup_insert_eq.
  assert (Noy : occ y.1 t = 0%nat).
  { destruct (decide (0 < occ y.1 t)%nat) as [Ho%occ_inorder|]; [|lia]. rewrite (r_inorder _ _ _ _ H) in Ho.
    unfold leads in Ho. rewrite fmap_app in Ho. apply elem_of_app in Ho as [Ho|Ho].
    - by apply leads_flat in Ho.
    - apply elem_of_cons in Ho as [Ho|Ho]; [done|]. by apply leads_flat in Ho. }
  assert (Ok1 : tree_ok s1 t).
  { destruct (r_tree _ _ _ _ H) as [Hr Ht U]. split; [done| |done]. revert Ht. apply tree_at_frame.
    intros q Hq. apply lookup_insert_ne. intros <-. lia. }
  pose proof (r_avl _ _ _ _ H) as Av. rewrite Et in Ok1, Av, Noy.
  pose proof Av as [(_ & _ & _ & Hb) _]%avl_plug.
  destruct (takeover_next_run (fun _ => True) s1 c l p b r y.1 (set_leader true ny)) as (s2 & R2 & Ok2 & K2); try done; [lia|].
  erewrite bind_run by (erewrite bind_run by (by apply wr_run); exact R2).
  assert (HE' : forall e b0, e.1 <> y.1 -> has (nodes s) e b0 -> has (nodes s2) e b0).
  { intros e b0 Ne (n & Hn & Hd). eapply has_kept; [done|]. exists n. split; [|done].
    simpl. by rewrite lookup_insert_ne. }
  eapply (unlink_run s _ t _ (p, k) _ s2 (G1 ++ (y, fs) :: G2)); [done|..]; [| | | | |exact Ok2|..].
  - by rewrite flat_app, flat_cons.
  - eapply kept_same_list in K2. by destruct K2; split.
  - by rewrite flat_app, flat_cons.
  - eapply gsorted_regroup; [apply H|apply Heq; left|]. intros e He.
    pose proof (Heq y ltac:(left)) as Ey. pose proof (Heq e ltac:(by right)) as Ee.
    apply (comp_eq_sym comp) in Ey as Ey'. apply (comp_eq_sym comp) in Ee as Ee'.
    pose proof (comp_trans y.2 k e.2). pose proof (comp_trans e.2 k y.2). pose proof (comp_ge comp y.2 e.2). lia.
  - unfold ents. apply Forall_app. split; [|constructor; [split|]].
    + apply (ents_ext (nodes s)); [|done]. intros e b0 He. apply HE'. intros Hy. apply Ny1. rewrite <- Hy. by apply list_elem_of_fmap_2.
    + eapply has_kept; [done|]. eexists. split; [done|]. injection Hdy as Ky _. unfold data. simpl. by rewrite Ky.
    + eapply Forall_impl; [apply Forall_and; split; [exact HF|apply Forall_forall; exact (fun e He => He)]|].
      intros e [He Hin]. apply HE'; [|done]. intros Hy. apply Nyf. rewrite <- Hy. by apply list_elem_of_fmap_2.
    + apply (ents_ext (nodes s)); [|done]. intros e b0 He. apply HE'. intros Hy. apply Ny2. rewrite <- Hy. by apply list_elem_of_fmap_2.
  - apply avl_plug in Av. by apply avl_plug.
  - rewrite inorder_plug. unfold leads in *. rewrite fmap_app, fmap_cons, E1, E2. simpl. by rewrite <- !app_assoc.
  - intros Hd. pose proof (r_dups _ _ _ _ H Hd) as [_ [Ff _]%Forall_cons]%Forall_app. done.
Qed.

(** Removal of any entry. *)
Lemma avl_remove_run s A p k B :
  avl_rep comp s (A ++ (p, k) :: B) ->
  exists s', avl_remove p s = Some (s', tt) /\ avl_rep comp s' (A ++ B) /\ same_head s s'.
Proof.
  intros (G & t & H & EL). pose proof (rep_linked _ _ _ _ H) as HL. rewrite EL in HL.
  destruct (flat_split _ _ _ _ EL) as [(G1 & fs & G2 & -> & -> & ->)|(G1 & x & f1 & f2 & G2 & -> & -> & ->)];
    [|by eapply (remove_follower_run _ _ _ _ _ _ (p, k))].
  pose proof (r_ents _ _ _ _ H) as HE. unfold ents in HE. apply Forall_app in HE as [_ [[Hp HF] HE2]%Forall_cons].
  apply has_keyed in Hp as (n & Hn & _ & Ln). simpl in Hn, HF. unfold avl_remove. run_rd. rewrite Ln.
  do 2 erewrite bind2_run by reflexivity. erewrite bind2_run by (eapply (at_last s _ HL _ (p, k)); done).
  destruct fs as [|y fs].
  - erewrite bind2_run with (s' := s) (a := None); [by eapply remove_single_run|].
    destruct (allow_dups (tree s)); [|done].
    destruct G2 as [|[z zs] G2]; [done|]. rewrite bool_decide_false by done.
    unfold ents in HE2. apply Forall_cons in HE2 as [[(nz & Hnz & _ & Lz)%has_keyed _] _]. simpl in Hnz, Lz. cbn [andb negb].
    erewrite bind_run by (eapply (step_next s _ HL _ (p, k)); done).
    erewrite bind_run by reflexivity. run_rd. by rewrite Lz.
  - apply Forall_cons in HF as [(ny & Hny & _ & Ly)%has_keyed HF]. simpl in HL.
    erewrite bind2_run with (s' := s) (a := Some y.1); [by eapply remove_promote_run|].
    assert (allow_dups (tree s) = true) as ->.
    { destruct (allow_dups (tree s)) eqn:Hd; [done|]. pose proof (r_dups _ _ _ _ H Hd) as [_ [Ff _]%Forall_cons]%Forall_app. done. }
    rewrite bool_decide_false by done. cbn [andb negb].
    erewrite bind_run by (eapply (step_next s _ HL _ (p, k)); done).
    erewrite bind_run by reflexivity. run_rd. by rewrite Ly.
Qed.

(** ** [avl_init] *)
Lemma avl_init_run s dups :
  is_Some (lists s !! list_head (tree s)) ->
  exists s', avl_init dups s = Some (s', tt) /\ avl_rep comp s' [] /\
    list_head (tree s') = list_head (tree s) /\ allow_dups (tree s') = dups.
Proof.
  intros Ha. destruct (list_init_head_run _ _ Ha) as (h & R & HD & _).
  eexists. split; [unfold avl_init, get_tree, on_lists, mbind, se_bind; simpl; rewrite R; reflexivity|].
  split; [|done]. exists [], E. split; [|done]. split; simpl; try done.
  - split; constructor.
  - constructor.
  - split; simpl; [done..|lia].
Qed.
End ops.
