(* ===== verification/Trees.v ===== *)
(** * AVL trees as their clients see them

    The components that keep their entries in an AVL tree see the sequence of
    entries that [AvlSpec] and [AvlOps] prove the tree to represent. This file
    states the operations on that sequence, that the pointer code implements
    them, and the facts a client needs. *)
From S2P Require Import Prelude Lists AvlHeap AvlTree AvlRefine AvlSpec AvlOps.

Section trees.
Context {K : Type} (comp : K -> K -> Z) {HC : AvlComp comp}.
Abbreviation entry := (loc * K)%type.
Implicit Types (L : list entry).

Definition tree_find (k : K) L : option loc := spec_find comp k L.
Definition tree_insert (dups : bool) (k : K) (p : loc) L : list entry := (spec_insert comp dups k p L).2.
Definition tree_delete (p : loc) L : list entry := filter (fun e => e.1 <> p) L.

(** A tree without equal keys. *)
Record tree_wf L : Prop := {
  tw_sorted : StronglySorted (elt comp) L;
  tw_nodup : NoDup L.*1
}.
(** A tree that may have equal keys. *)
Record dtree_wf L : Prop := {
  dw_sorted : StronglySorted (ele comp) L;
  dw_nodup : NoDup L.*1
}.

Lemma tree_wf_nil : tree_wf [].
Proof. split; constructor. Qed.
Lemma dtree_wf_nil : dtree_wf [].
Proof. split; constructor. Qed.

Lemma tree_find_Some L k p : tree_find k L = Some p -> exists k', (p, k') ∈ L /\ comp k k' = 0.
Proof.
  unfold tree_find, spec_find. destruct (head _) as [[q k']|] eqn:E; [|done]. intros [= ->].
  apply head_filter_Some in E as (l1 & l2 & -> & Hk & _). exists k'. split; [|done]. clear. set_solver.
Qed.

Lemma tree_find_None L k : tree_find k L = None <-> forall q k', (q, k') ∈ L -> comp k k' <> 0.
Proof.
  unfold tree_find, spec_find. destruct (head _) as [[q k']|] eqn:E; simpl.
  - split; [done|]. apply head_filter_Some in E as (l1 & l2 & -> & Hk & _). intros H.
    exfalso. apply (H q k'); [clear; set_solver|done].
  - split; [|done]. intros _ q k' Hin Hk. apply head_filter_None in E. rewrite Forall_forall in E. by apply (E (q, k')).
Qed.

Lemma comp_eq_lt a b c : comp a b = 0 -> comp a c < 0 <-> comp b c < 0.
Proof.
  intros E. split; intros H.
  - apply (comp_le_lt_trans comp _ a); [|done]. rewrite (comp_eq_sym comp _ _ E). done.
  - apply (comp_le_lt_trans comp _ b); [|done]. by rewrite E.
Qed.

Lemma tree_unique L p q kp kq : tree_wf L -> (p, kp) ∈ L -> (q, kq) ∈ L -> comp kp kq = 0 -> p = q /\ kp = kq.
Proof.
  intros [S _] Hp Hq E. apply list_elem_of_split in Hp as (l1 & l2 & ->).
  apply ssorted_app in S as (_ & [S2 _]%ssorted_cons & S3).
  apply elem_of_app in Hq as [Hq|[[= -> ->]|Hq]%elem_of_cons]; [|done|].
  - specialize (S3 (q, kq) (p, kp) Hq ltac:(left)). unfold elt in S3. simpl in S3. rewrite (comp_eq_sym comp _ _ E) in S3. lia.
  - specialize (S2 _ Hq). unfold elt in S2. simpl in S2. lia.
Qed.

Lemma tree_find_in L p k k' : tree_wf L -> (p, k') ∈ L -> comp k k' = 0 -> tree_find k L = Some p.
Proof.
  intros W Hp E. destruct (tree_find k L) as [q|] eqn:F.
  - apply tree_find_Some in F as (kq & Hq & Eq). f_equal.
    apply (tree_unique L q p kq k' W Hq Hp).
    assert (comp kq k' <= 0) by (apply (comp_trans _ k); [rewrite (comp_eq_sym comp _ _ Eq); done|by rewrite E]).
    assert (comp k' kq <= 0) by (apply (comp_trans _ k); [rewrite (comp_eq_sym comp _ _ E); done|by rewrite Eq]).
    pose proof (comp_ge comp kq k'). lia.
  - by apply (proj1 (tree_find_None L k) F p) in E.
Qed.

(** Insertion of a new key. *)
Lemma elem_of_tree_insert L dups k p e : (dups = true \/ tree_find k L = None) ->
  e ∈ tree_insert dups k p L <-> e = (p, k) \/ e ∈ L.
Proof.
  intros H. unfold tree_insert, spec_insert.
  replace (negb dups && bool_decide _) with false; [simpl|].
  2: { symmetry. apply andb_false_iff. destruct H as [->|H]; [by left|right]. apply bool_decide_eq_false.
       intros ([q k'] & Hq & E)%Exists_exists. by apply (proj1 (tree_find_None L k) H q k'). }
  rewrite elem_of_app, elem_of_cons, !list_elem_of_filter.
  pose proof (comp_ge comp k e.2). destruct (Z.le_gt_cases (comp e.2 k) 0); [tauto|].
  pose proof (comp_sym k e.2). assert (comp k e.2 < 0) by lia. tauto.
Qed.

Lemma tree_find_insert L dups k p : tree_find k L = None -> tree_find k (tree_insert dups k p L) = Some p.
Proof.
  intros H. destruct (tree_find k (tree_insert dups k p L)) as [q|] eqn:F.
  - apply tree_find_Some in F as (k' & Hq & Ek). rewrite (elem_of_tree_insert L dups k p _ (or_intror H)) in Hq.
    destruct Hq as [[= -> ->]|Hq]; [done|]. exfalso. by apply (proj1 (tree_find_None L k) H q k').
  - exfalso. apply (proj1 (tree_find_None _ k) F p k); [|apply comp_refl]. apply elem_of_tree_insert; [by right|by left].
Qed.

Lemma tree_find_ext L k k' : comp k k' = 0 -> tree_find k L = tree_find k' L.
Proof.
  intros E. unfold tree_find, spec_find. f_equal. f_equal. apply list_filter_iff. intros e.
  split; apply (comp_eq_trans comp); [by apply comp_eq_sym|done].
Qed.

Lemma filter_fst_nodup (P : entry -> Prop) `{forall x, Decision (P x)} L : NoDup L.*1 -> NoDup (filter P L).*1.
Proof. intros N. eapply sublist_NoDup; [exact N|]. apply fmap_sublist, sublist_filter. Qed.

Lemma ssorted_filter (R : entry -> entry -> Prop) (P : entry -> Prop) `{forall x, Decision (P x)} L :
  StronglySorted R L -> StronglySorted R (filter P L).
Proof.
  induction L as [|e L IH]; [constructor|]. intros [H1 H2]%ssorted_cons. rewrite filter_cons. case_decide; [|by apply IH].
  apply ssorted_cons. split; [|by apply IH]. intros y [_ Hy]%list_elem_of_filter. by apply H1.
Qed.

Lemma tree_wf_delete L p : tree_wf L -> tree_wf (tree_delete p L).
Proof. intros [S N]. split; [by apply ssorted_filter|by apply filter_fst_nodup]. Qed.
Lemma dtree_wf_delete L p : dtree_wf L -> dtree_wf (tree_delete p L).
Proof. intros [S N]. split; [by apply ssorted_filter|by apply filter_fst_nodup]. Qed.

Lemma elem_of_tree_delete L p e : e ∈ tree_delete p L <-> e.1 <> p /\ e ∈ L.
Proof. unfold tree_delete. by rewrite list_elem_of_filter. Qed.

Lemma nodup_fst_inj L q k k' : NoDup L.*1 -> (q, k) ∈ L -> (q, k') ∈ L -> k = k'.
Proof.
  clear HC comp. intros N [i Hi]%list_elem_of_lookup [j Hj]%list_elem_of_lookup.
  assert (i = j) as ->; [|congruence]. eapply (NoDup_lookup _ _ _ q N); rewrite list_lookup_fmap; [by rewrite Hi|by rewrite Hj].
Qed.

Lemma insert_nodup (P Q : entry -> Prop) `{forall x, Decision (P x)} `{forall x, Decision (Q x)} L p k :
  (forall e, P e -> Q e -> False) -> p ∉ L.*1 -> NoDup L.*1 -> NoDup (filter P L ++ (p, k) :: filter Q L).*1.
Proof.
  intros HPQ Hp N. rewrite fmap_app, fmap_cons. apply NoDup_app. split; [by apply filter_fst_nodup|]. split.
  - intros x ([q kq] & -> & [HP Hin]%list_elem_of_filter)%list_elem_of_fmap. simpl.
    intros [->|([q' kq'] & E & [HQ Hin']%list_elem_of_filter)%list_elem_of_fmap]%elem_of_cons.
    + apply Hp. apply list_elem_of_fmap. by exists (p, kq).
    + simpl in E. subst q'. assert (kq = kq') as ->; [|by eapply HPQ].
      by eapply nodup_fst_inj.
  - apply NoDup_cons. split; [|by apply filter_fst_nodup]. intros (e & E & [_ Hin]%list_elem_of_filter)%list_elem_of_fmap. simpl in E. subst p.
    apply Hp, list_elem_of_fmap. by exists e.
Qed.

Lemma tree_wf_insert L k p : tree_wf L -> p ∉ L.*1 -> tree_find k L = None -> tree_wf (tree_insert false k p L).
Proof.
  intros [S N] Hp H. unfold tree_insert, spec_insert.
  replace (negb false && bool_decide _) with false; [simpl|].
  2: { symmetry. apply andb_false_iff. right. apply bool_decide_eq_false.
       intros ([q k'] & Hq & E)%Exists_exists. by apply (proj1 (tree_find_None L k) H q k'). }
  split.
  - apply ssorted_app. split_and!; [by apply ssorted_filter| |].
    + apply ssorted_cons. split; [|by apply ssorted_filter]. by intros y [Hy _]%list_elem_of_filter.
    + intros [q x] y [Hx Hin]%list_elem_of_filter Hy. simpl in Hx.
      assert (comp x k < 0).
      { pose proof (proj1 (tree_find_None L k) H q x Hin). pose proof (comp_eq_sym comp x k). lia. }
      apply elem_of_cons in Hy as [->|[Hy _]%list_elem_of_filter]; [done|]. unfold elt. simpl.
      by apply (comp_le_lt_trans comp _ k).
  - apply insert_nodup; [|done..]. intros e H1 H2. pose proof (comp_sym k e.2). lia.
Qed.

Lemma dtree_wf_insert L k p : dtree_wf L -> p ∉ L.*1 -> dtree_wf (tree_insert true k p L).
Proof.
  intros [S N] Hp. unfold tree_insert, spec_insert. simpl. split.
  - apply ssorted_app. split_and!; [by apply ssorted_filter| |].
    + apply ssorted_cons. split; [|by apply ssorted_filter]. intros y [Hy _]%list_elem_of_filter. unfold ele. simpl. lia.
    + intros x y [Hx Hin]%list_elem_of_filter Hy.
      apply elem_of_cons in Hy as [->|[Hy _]%list_elem_of_filter]; [done|]. unfold ele. apply (comp_trans _ k); [done|]. lia.
  - apply insert_nodup; [|done..]. intros e H1 H2. pose proof (comp_sym k e.2). lia.
Qed.

(** ** The pointer code implements the operations *)
Lemma tree_delete_split A p k B : NoDup (A ++ (p, k) :: B).*1 -> tree_delete p (A ++ (p, k) :: B) = A ++ B.
Proof.
  clear HC comp. intros N. rewrite fmap_app in N. apply NoDup_app in N as (_ & N1 & N2). simpl in *. apply NoDup_cons in N2 as [N2 _].
  unfold tree_delete. rewrite filter_app, filter_cons_False by (simpl; tauto). f_equal; apply filter_all, Forall_forall; intros e He E.
  - apply (N1 e.1); [apply list_elem_of_fmap; by exists e|rewrite E; left].
  - apply N2. rewrite <- E. apply list_elem_of_fmap. by exists e.
Qed.

Lemma avl_delete_run s L p : avl_rep comp s L -> NoDup L.*1 -> p ∈ L.*1 ->
  exists s', avl_remove p s = Some (s', tt) /\ avl_rep comp s' (tree_delete p L) /\ same_head s s'.
Proof.
  intros R N ([q k] & -> & Hin)%list_elem_of_fmap. apply list_elem_of_split in Hin as (A & B & ->).
  destruct (avl_remove_run comp s A q k B R) as (s' & H1 & H2 & H3). exists s'. by rewrite tree_delete_split.
Qed.
End trees.
