(* ===== verification/Memcookie.v ===== *)
(** * Block allocator ([olsr_memcookie.c], [olsr_memcookie.h])

    A cookie hands out blocks of one size. Every block has a prefix with a pointer
    to custom data and the flag [is_inline]; free blocks are kept for reuse. The
    lists of blocks are sequences of addresses (see [Lists]). *)
From S2P Require Import Prelude.

(** [size_t] has 64 bits; blocks are aligned to two of them. *)
Definition calc_aligned_size (size : Z) : Z := Z.land (wrapu 64 (size + 15)) (wrapu 64 (Z.lnot 15)).

(** Where the pointer [custom] of a block points to. *)
Inductive cptr :=
  | CNull
  | CInline            (* into the block itself, behind the payload *)
  | CBlock (p : loc).  (* a block of its own, from [olsr_malloc] *)

Record mem_prefix := mkMem { custom : cptr; is_inline : bool }.

Record mc_custom := mkCustom { c_size : Z; c_offset : Z }.

Record memcookie_info := mkCookie {
  ci_size : Z;
  ci_total_size : Z;
  ci_custom_offset : Z;
  ci_min_free_count : Z;
  ci_usage : Z;
  ci_changes : Z;
  ci_custom_list : list mc_custom;
  ci_used_list : list loc;
  ci_free_list : list loc;
  ci_free_list_usage : Z;
  ci_mem : gmap loc mem_prefix
}.

Definition COOKIE_FREE_LIST_THRESHOLD : Z := 10.
Definition PREFIX_SIZE : Z := 32.

Definition olsr_memcookie_add (size : Z) : memcookie_info :=
  let off := wrapu 64 (PREFIX_SIZE + calc_aligned_size size) in
  mkCookie size off off COOKIE_FREE_LIST_THRESHOLD 0 0 [] [] [] 0 ∅.

Definition olsr_memcookie_set_minfree (ci : memcookie_info) (min_free : Z) : memcookie_info :=
  mkCookie (ci_size ci) (ci_total_size ci) (ci_custom_offset ci) min_free (ci_usage ci) (ci_changes ci)
    (ci_custom_list ci) (ci_used_list ci) (ci_free_list ci) (ci_free_list_usage ci) (ci_mem ci).

Definition remove_node (p : loc) (l : list loc) : list loc := filter (fun q => q <> p) l.

(** The block that is handed out, and the cookie without it on the free list.
    A block from the free list is cleared like a new one. *)
Definition take_block (ci : memcookie_info) : loc * memcookie_info :=
  match ci_free_list ci with
  | [] =>
    let p := fresh (dom (ci_mem ci)) in (p, ci)
  | p :: _ =>
    (p, mkCookie (ci_size ci) (ci_total_size ci) (ci_custom_offset ci) (ci_min_free_count ci) (ci_usage ci) (ci_changes ci)
      (ci_custom_list ci) (ci_used_list ci) (remove_node p (ci_free_list ci)) (u32 (ci_free_list_usage ci - 1)) (ci_mem ci))
  end.

Definition olsr_memcookie_malloc (ci : memcookie_info) : loc * memcookie_info :=
  let '(p, ci) := take_block ci in
  let cust := if bool_decide (ci_custom_list ci = []) then CNull else CInline in
  (p, mkCookie (ci_size ci) (ci_total_size ci) (ci_custom_offset ci) (ci_min_free_count ci)
    (u32 (ci_usage ci + 1)) (u32 (ci_changes ci + 1)) (ci_custom_list ci)
    (ci_used_list ci ++ [p]) (ci_free_list ci) (ci_free_list_usage ci) (<[p := mkMem cust false]> (ci_mem ci))).

(** Result: the C program is stuck when it frees a pointer that [malloc] did not
    return. *)
Definition olsr_memcookie_free (ci : memcookie_info) (p : loc) : option memcookie_info :=
  match ci_mem ci !! p with
  | None => None
  | Some mem =>
    let used := remove_node p (ci_used_list ci) in
    let keep := is_inline mem &&
      ((ci_free_list_usage ci <? ci_min_free_count ci) ||
       (ci_free_list_usage ci <? ci_usage ci / COOKIE_FREE_LIST_THRESHOLD)) in
    let fin free fusage heap :=
      mkCookie (ci_size ci) (ci_total_size ci) (ci_custom_offset ci) (ci_min_free_count ci)
        (u32 (ci_usage ci - 1)) (u32 (ci_changes ci + 1)) (ci_custom_list ci) used free fusage heap in
    if keep then Some (fin (ci_free_list ci ++ [p]) (u32 (ci_free_list_usage ci + 1)) (ci_mem ci))
    else
      match is_inline mem, custom mem with
      | false, CInline => None
      | _, _ => Some (fin (ci_free_list ci) (ci_free_list_usage ci) (delete p (ci_mem ci)))
      end
  end.

(** [olsr_memcookie_add_custom]. While it visits the blocks in use it reads
    [custom->init] although [custom] is still [NULL]. *)
Definition olsr_memcookie_add_custom (ci : memcookie_info) (size : Z) : option memcookie_info :=
  let c := mkCustom (calc_aligned_size size) (wrapu 64 (ci_total_size ci - ci_custom_offset ci)) in
  match ci_used_list ci with
  | _ :: _ => None
  | [] =>
    Some (mkCookie (ci_size ci) (wrapu 64 (ci_total_size ci + c_size c)) (ci_custom_offset ci) (ci_min_free_count ci)
      (ci_usage ci) (ci_changes ci) (ci_custom_list ci ++ [c]) (ci_used_list ci) [] 0
      (filter (fun pm => pm.1 ∉ ci_free_list ci) (ci_mem ci)))
  end.

(** ** Facts about the padding *)
Lemma aligned_size_div size : 0 <= size < 2 ^ 63 -> calc_aligned_size size = 16 * ((size + 15) / 16).
Proof.
  intros Hs. unfold calc_aligned_size. rewrite (wrapu_id 64) by (unfold is_u; lia).
  assert (E : wrapu 64 (Z.lnot 15) = Z.shiftl (Z.ones 60) 4) by done. rewrite E.
  assert (Hb : 0 <= size + 15 < 2 ^ 64) by lia. revert Hb. generalize (size + 15) as x. intros x Hx.
  change 16 with (2 ^ 4). rewrite (Z.mul_comm (2 ^ 4)), <- Z.shiftl_mul_pow2, <- Z.shiftr_div_pow2 by lia.
  apply Z.bits_inj'. intros i Hi. rewrite Z.land_spec, !Z.shiftl_spec by lia.
  destruct (Z.lt_ge_cases i 4); [rewrite !(Z.testbit_neg_r _ (i - 4)) by lia; apply andb_false_r|].
  rewrite Z.shiftr_spec by lia. replace (i - 4 + 4) with i by lia.
  destruct (Z.lt_ge_cases i 64).
  - by rewrite Z.ones_spec_low, andb_true_r by lia.
  - rewrite Z.ones_spec_high, andb_false_r by lia. symmetry.
    destruct (Z.eq_dec x 0) as [->|]; [apply Z.testbit_0_l|]. apply Z.bits_above_log2; [lia|].
    apply Z.log2_lt_pow2; [lia|]. eapply Z.lt_le_trans; [apply Hx|]. apply Z.pow_le_mono_r; lia.
Qed.

Lemma aligned_size_spec size : 0 <= size < 2 ^ 63 ->
  size <= calc_aligned_size size < size + 16 /\ calc_aligned_size size mod 16 = 0.
Proof. intros Hs. rewrite aligned_size_div by done. mlia. Qed.

(** ** Invariant *)
Record cookie_ok (ci : memcookie_info) : Prop := {
  mc_nodup : NoDup (ci_used_list ci ++ ci_free_list ci);
  mc_dom : forall p, is_Some (ci_mem ci !! p) <-> (p ∈ ci_used_list ci ++ ci_free_list ci);
  mc_usage : ci_usage ci = u32 (Z.of_nat (length (ci_used_list ci)));
  mc_free : ci_free_list_usage ci = u32 (Z.of_nat (length (ci_free_list ci)))
}.

Lemma remove_node_not_in p l : p ∉ l -> remove_node p l = l.
Proof. intros H. apply filter_all, Forall_forall. intros q Hq ->. done. Qed.
Lemma remove_node_app p l1 l2 : remove_node p (l1 ++ l2) = remove_node p l1 ++ remove_node p l2.
Proof. apply filter_app. Qed.
Lemma remove_node_length p l : NoDup l -> p ∈ l -> length (remove_node p l) = (length l - 1)%nat.
Proof.
  intros ND (l1 & l2 & ->)%list_elem_of_split. apply NoDup_app in ND as (_ & N1 & [N2 _]%NoDup_cons).
  rewrite remove_node_app. unfold remove_node at 2. rewrite filter_cons_False by (by intros []). fold (remove_node p l2).
  rewrite !remove_node_not_in, !length_app; [simpl; lia|done|]. intros Hp. apply (N1 p Hp). left.
Qed.

Lemma add_ok size : cookie_ok (olsr_memcookie_add size).
Proof.
  split; simpl; [constructor| |done|done]. intros p. rewrite lookup_empty. split; [by intros []|set_solver].
Qed.

(** A block that is handed out was not in use, and it is in use afterwards. *)
Lemma malloc_ok ci p ci' : cookie_ok ci -> olsr_memcookie_malloc ci = (p, ci') ->
  cookie_ok ci' /\ (p ∉ ci_used_list ci) /\ ci_used_list ci' = ci_used_list ci ++ [p].
Proof.
  intros [ND HD HU HF]. unfold olsr_memcookie_malloc, take_block.
  destruct (ci_free_list ci) as [|q fl] eqn:Ef; intros [= <- <-]; simpl.
  - set (p := fresh _). assert (Hp : p ∉ ci_used_list ci).
    { intros Hin. assert (is_Some (ci_mem ci !! p)) as Hs by (apply HD; set_solver).
      apply elem_of_dom in Hs. by apply is_fresh in Hs. }
    split; [|done]. split; simpl; rewrite ?Ef, ?app_nil_r in *.
    + apply NoDup_app. split; [done|]. split; [set_solver|apply NoDup_singleton].
    + intros x. rewrite lookup_insert, elem_of_app, list_elem_of_singleton. specialize (HD x).
      case_decide; [subst; split; [by right|done]|]. rewrite HD. split; [by left|]. by intros [?| ->].
    + rewrite HU, u32_succ, length_app. simpl. f_equal. lia.
    + done.
  - assert (Hq : q ∉ ci_used_list ci) by (apply NoDup_app in ND as (_ & N1 & _); intros Hin; apply (N1 q Hin); left).
    split; [|done]. apply NoDup_app in ND as (N0 & N1 & [N2 N3]%NoDup_cons).
    assert (Er : remove_node q (q :: fl) = fl).
    { unfold remove_node. rewrite filter_cons_False by (by intros []). by apply remove_node_not_in. }
    rewrite Er. split; simpl.
    + apply NoDup_app. split; [apply NoDup_app; split; [done|]; split; [set_solver|apply NoDup_singleton]|]. split; [set_solver|done].
    + intros x. rewrite lookup_insert. specialize (HD x). case_decide; [subst; split; [set_solver|done]|].
      rewrite HD. set_solver.
    + rewrite HU, u32_succ, length_app. simpl. f_equal. lia.
    + rewrite HF, u32_pred. simpl. f_equal. lia.
Qed.

(** Freeing a block in use. *)
Lemma free_ok ci p ci' : cookie_ok ci -> p ∈ ci_used_list ci -> olsr_memcookie_free ci p = Some ci' ->
  cookie_ok ci' /\ ci_used_list ci' = remove_node p (ci_used_list ci).
Proof.
  intros [ND HD HU HF] Hp. pose proof ND as (N0 & N1 & N2)%NoDup_app.
  assert (Hlen : 1 <= Z.of_nat (length (ci_used_list ci))) by (destruct (ci_used_list ci); [set_solver|simpl; lia]).
  unfold olsr_memcookie_free. destruct (ci_mem ci !! p) as [mem|] eqn:Em; [|done].
  assert (HU' : u32 (ci_usage ci - 1) = u32 (Z.of_nat (length (remove_node p (ci_used_list ci))))).
  { rewrite HU, u32_pred, remove_node_length by done. f_equal. lia. }
  assert (HNp : NoDup (remove_node p (ci_used_list ci))) by (by apply NoDup_filter).
  assert (Hin : forall x, x ∈ remove_node p (ci_used_list ci) <-> x ∈ ci_used_list ci /\ x <> p).
  { intros x. unfold remove_node. rewrite list_elem_of_filter. tauto. }
  assert (Hfin : forall free fu heap,
    free = ci_free_list ci ++ [p] /\ fu = u32 (ci_free_list_usage ci + 1) /\ heap = ci_mem ci \/
    free = ci_free_list ci /\ fu = ci_free_list_usage ci /\ heap = delete p (ci_mem ci) ->
    cookie_ok (mkCookie (ci_size ci) (ci_total_size ci) (ci_custom_offset ci) (ci_min_free_count ci)
        (u32 (ci_usage ci - 1)) (u32 (ci_changes ci + 1)) (ci_custom_list ci) (remove_node p (ci_used_list ci)) free fu heap)).
  { intros free fu heap [(-> & -> & ->)|(-> & -> & ->)]; split; simpl; try done.
    - apply NoDup_app. split; [done|]. split.
      + intros x [Hx Hxp]%Hin. specialize (N1 x Hx). set_solver.
      + apply NoDup_app. split; [done|]. split; [|apply NoDup_singleton]. intros x Hx ->%list_elem_of_singleton. by apply (N1 p).
    - intros x. rewrite HD, !elem_of_app, Hin, list_elem_of_singleton. destruct (decide (x = p)); [subst; tauto|tauto].
    - rewrite HF, u32_succ, length_app. simpl. f_equal. lia.
    - apply NoDup_app. split; [done|]. split; [|done]. intros x [Hx _]%Hin. by apply N1.
    - intros x. rewrite elem_of_app, Hin. destruct (decide (x = p)) as [->|].
      + rewrite lookup_delete_eq. split; [by intros []|]. intros [[_ []]|Hx]; [done|]. by apply (N1 p) in Hx.
      + rewrite lookup_delete_ne by done. rewrite HD, elem_of_app. tauto. }
  destruct (_ && _); [intros [= <-]; split; [apply Hfin; by left|done]|].
  destruct (is_inline mem), (custom mem); intros [= <-]; (split; [apply Hfin; by right|done]).
Qed.

(** ** No block is ever reused

    [is_inline] is never set, so the condition for keeping a block never holds. *)
Inductive cookie_step : memcookie_info -> memcookie_info -> Prop :=
  | step_malloc ci p ci' : olsr_memcookie_malloc ci = (p, ci') -> cookie_step ci ci'
  | step_free ci p ci' : olsr_memcookie_free ci p = Some ci' -> cookie_step ci ci'
  | step_minfree ci n : cookie_step ci (olsr_memcookie_set_minfree ci n).

Definition never_inline (ci : memcookie_info) : Prop :=
  ci_free_list ci = [] /\ map_Forall (fun _ m => is_inline m = false) (ci_mem ci).

Lemma step_never_inline ci ci' : cookie_step ci ci' -> never_inline ci -> never_inline ci'.
Proof.
  intros Hs [Hf HM]. destruct Hs as [ci p ci' H|ci p ci' H|ci n]; [| |done].
  - unfold olsr_memcookie_malloc, take_block in H. rewrite Hf in H. injection H as <- <-. split; [done|].
    simpl. by apply map_Forall_insert_2.
  - unfold olsr_memcookie_free in H. destruct (ci_mem ci !! p) as [mem|] eqn:Em; [|done].
    pose proof (HM _ _ Em) as Hi. cbv beta in Hi. rewrite Hi in H. simpl in H.
    destruct (custom mem); [|done|]; injection H as <-; (split; [done|]; simpl; by apply map_Forall_delete).
Qed.

(** No cookie ever keeps a block for reuse: whatever sequence of
    allocations and releases was run, the free list is empty, because the flag
    [is_inline], which the release requires for keeping a block, is never set. *)
Theorem reachable_never_inline size ci : rtc cookie_step (olsr_memcookie_add size) ci -> never_inline ci.
Proof.
  intros H. assert (H0 : never_inline (olsr_memcookie_add size)) by (split; [done|apply map_Forall_empty]).
  revert H0. induction H as [|ci1 ci2 ci3 Hs _ IH]; [done|]. intros H1. apply IH. by eapply step_never_inline.
Qed.

(** A block that was allocated after the cookie was extended with custom
    data cannot be freed: its [custom] pointer points into the block itself and
    is passed to [free]. *)
Theorem extended_free_stuck ci size ci1 p ci2 :
  never_inline ci -> olsr_memcookie_add_custom ci size = Some ci1 -> olsr_memcookie_malloc ci1 = (p, ci2) ->
  olsr_memcookie_free ci2 p = None.
Proof.
  intros [Hf HM] H1 H2. unfold olsr_memcookie_add_custom in H1. destruct (ci_used_list ci); [|done].
  injection H1 as <-. unfold olsr_memcookie_malloc, take_block in H2. simpl in H2.
  rewrite bool_decide_false in H2 by (by intros [_ ?]%app_nil). injection H2 as <- <-.
  unfold olsr_memcookie_free. simpl. by rewrite lookup_insert_eq.
Qed.

(** ** Safety of the unextended allocator *)

(** Allocations, and releases of blocks that are in use. *)
Inductive legal_step : memcookie_info -> memcookie_info -> Prop :=
  | legal_malloc ci p ci' : olsr_memcookie_malloc ci = (p, ci') -> legal_step ci ci'
  | legal_free ci p ci' : p ∈ ci_used_list ci -> olsr_memcookie_free ci p = Some ci' -> legal_step ci ci'
  | legal_minfree ci n : legal_step ci (olsr_memcookie_set_minfree ci n).

Definition plain (ci : memcookie_info) : Prop :=
  ci_custom_list ci = [] /\ map_Forall (fun _ m => custom m = CNull) (ci_mem ci).

Lemma legal_plain ci ci' : legal_step ci ci' -> plain ci -> plain ci'.
Proof.
  intros Hs [Hc HM]. destruct Hs as [ci p ci' H|ci p ci' _ H|ci n]; [| |done].
  - unfold olsr_memcookie_malloc, take_block in H.
    destruct (ci_free_list ci); injection H as <- <-; (split; [done|]); simpl; rewrite Hc; by apply map_Forall_insert_2.
  - unfold olsr_memcookie_free in H. destruct (ci_mem ci !! p) as [mem|] eqn:Em; [|done]. simpl in H.
    destruct (is_inline mem && _); [injection H as <-; done|].
    destruct (is_inline mem), (custom mem); simplify_eq; (split; [done|]; simpl; by apply map_Forall_delete).
Qed.

Lemma legal_ok ci ci' : legal_step ci ci' -> cookie_ok ci -> cookie_ok ci'.
Proof.
  intros Hs Ok. destruct Hs as [ci p ci' H|ci p ci' Hp H|ci n].
  - by destruct (malloc_ok _ _ _ Ok H).
  - by destruct (free_ok _ _ _ Ok Hp H).
  - destruct Ok. by split.
Qed.

Lemma plain_free ci p : plain ci -> cookie_ok ci -> p ∈ ci_used_list ci -> is_Some (olsr_memcookie_free ci p).
Proof.
  intros [_ HM] Ok Hp. unfold olsr_memcookie_free.
  destruct (proj2 (mc_dom _ Ok p)) as [m Hm]; [apply elem_of_app; by left|]. rewrite Hm. simpl.
  pose proof (HM _ _ Hm) as Hc. cbv beta in Hc. rewrite Hc. destruct (is_inline m && _), (is_inline m); eauto.
Qed.

(** For every cookie without custom data, after any sequence of
    allocations and releases of blocks in use: the next allocation returns a block
    that is not in use and adds exactly this block to the blocks in use, releasing
    any block in use succeeds and removes exactly this block, and the usage
    counter is the number of blocks in use. *)
Theorem memcookie_safe size ci : rtc legal_step (olsr_memcookie_add size) ci ->
  (let (p, ci') := olsr_memcookie_malloc ci in (p ∉ ci_used_list ci) /\ ci_used_list ci' = ci_used_list ci ++ [p]) /\
  (forall p, p ∈ ci_used_list ci ->
    exists ci', olsr_memcookie_free ci p = Some ci' /\ ci_used_list ci' = remove_node p (ci_used_list ci)) /\
  ci_usage ci = u32 (Z.of_nat (length (ci_used_list ci))).
Proof.
  intros H. assert (cookie_ok ci /\ plain ci) as [Ok Pl].
  { assert (H0 : cookie_ok (olsr_memcookie_add size) /\ plain (olsr_memcookie_add size)) by (split; [apply add_ok|split; [done|apply map_Forall_empty]]).
    revert H0. induction H as [|ci1 ci2 ci3 Hs _ IH]; [done|]. intros [H1 H2]. apply IH. split; [by eapply legal_ok|by eapply legal_plain]. }
  split_and!; [|intros p Hp|apply Ok].
  - destruct (olsr_memcookie_malloc ci) as [p ci'] eqn:E. by destruct (malloc_ok _ _ _ Ok E) as (_ & ? & ?).
  - destruct (plain_free ci p Pl Ok Hp) as [ci' E]. exists ci'. split; [done|]. by destruct (free_ok _ _ _ Ok Hp E).
Qed.

Definition demo_cookie : memcookie_info := (olsr_memcookie_malloc (olsr_memcookie_malloc (olsr_memcookie_add 100)).2).2.
Lemma memcookie_safe_witness :
  (let (p, ci') := olsr_memcookie_malloc demo_cookie in (p ∉ ci_used_list demo_cookie) /\ ci_used_list ci' = ci_used_list demo_cookie ++ [p]) /\
  (forall p, p ∈ ci_used_list demo_cookie ->
    exists ci', olsr_memcookie_free demo_cookie p = Some ci' /\ ci_used_list ci' = remove_node p (ci_used_list demo_cookie)) /\
  ci_usage demo_cookie = 2.
Proof.
  apply (memcookie_safe 100 demo_cookie). unfold demo_cookie. eapply rtc_l; [eapply legal_malloc; reflexivity|].
  eapply rtc_l; [eapply legal_malloc; reflexivity|]. apply rtc_refl.
Defined.

Lemma reachable_never_inline_witness : never_inline demo_cookie.
Proof.
  apply (reachable_never_inline 100 demo_cookie). unfold demo_cookie. eapply rtc_l; [eapply step_malloc; reflexivity|].
  eapply rtc_l; [eapply step_malloc; reflexivity|]. apply rtc_refl.
Defined.

Lemma extended_free_stuck_witness :
  olsr_memcookie_free (olsr_memcookie_malloc (default (olsr_memcookie_add 0) (olsr_memcookie_add_custom (olsr_memcookie_add 100) 8))).2 1 = None.
Proof.
  eapply (extended_free_stuck (olsr_memcookie_add 100) 8); [split; [done|apply map_Forall_empty]|reflexivity|by vm_compute].
Defined.
