(* ===== verification/Types.v ===== *)
(** * Bytes, addresses and prefixes ([olsr_types.h])

    Memory that the code reads as bytes is a list of numbers below 256. The
    members of [union olsr_ip_addr] overlap, so an address is its 16 bytes; the
    member [v4.s_addr] is the 32-bit number in the first four of them, in the
    byte order of the host, which is little endian here. *)
From S2P Require Import Prelude.

(** ** Numbers in memory *)
Fixpoint le (bs : list Z) : Z :=
  match bs with [] => 0 | b :: bs => b + 256 * le bs end.
Definition be (bs : list Z) : Z := le (rev bs).

Fixpoint to_le (n : nat) (x : Z) : list Z :=
  match n with O => [] | S n => x mod 256 :: to_le n (x / 256) end.
Definition to_be (n : nat) (x : Z) : list Z := rev (to_le n x).

Definition bytes (bs : list Z) : Prop := Forall (is_u 8) bs.

(** [ntohl], [htonl]: on a little-endian host they reverse the four bytes. *)
Definition ntohl (x : Z) : Z := be (to_le 4 x).
Definition htonl (x : Z) : Z := le (to_be 4 x).
Definition ntohs (x : Z) : Z := be (to_le 2 x).
Definition htons (x : Z) : Z := le (to_be 2 x).

(** [memcmp], of which C specifies the sign. *)
Fixpoint memcmp (n : nat) (a b : list Z) : Z :=
  match n with
  | O => 0
  | S n =>
    let x := default 0 (head a) in let y := default 0 (head b) in
    if x <? y then -1 else if y <? x then 1 else memcmp n (tail a) (tail b)
  end.

(** ** Addresses *)
Definition AF_INET : Z := 2.
Definition AF_INET6 : Z := 10.

Abbreviation ip_addr := (list Z) (only parsing).
Definition s_addr (a : ip_addr) : Z := le (take 4 a).

Record olsr_ip_prefix := mkPfx {
  prefix : ip_addr;
  prefix_len : Z;
  prefix_origin : Z
}.

Record olsr_interface_id := mkIfId {
  id_addr : olsr_ip_prefix;
  if_index : Z
}.

#[global] Instance olsr_ip_prefix_eq_dec : EqDecision olsr_ip_prefix.
Proof. solve_decision. Defined.

(** ** Facts about bytes *)
Lemma is_u8 b : is_u 8 b <-> 0 <= b < 256.
Proof. done. Qed.

Lemma le_range bs : bytes bs -> 0 <= le bs < 256 ^ Z.of_nat (length bs).
Proof.
  induction 1 as [|b bs Hb _ IH]; [done|]. rewrite is_u8 in Hb. cbn [le length].
  rewrite Nat2Z.inj_succ, Z.pow_succ_r by lia.
  revert IH. generalize (256 ^ Z.of_nat (length bs)). lia.
Qed.

Lemma to_le_bytes n x : bytes (to_le n x).
Proof. revert x. induction n as [|n IH]; intros x; simpl; constructor; [rewrite is_u8; mlia|apply IH]. Qed.

Lemma to_le_length n x : length (to_le n x) = n.
Proof. revert x. induction n; intros; simpl; auto. Qed.

Lemma to_be_length n x : length (to_be n x) = n.
Proof. unfold to_be. by rewrite length_rev, to_le_length. Qed.

Lemma le_to_le n x : le (to_le n x) = x mod 256 ^ Z.of_nat n.
Proof.
  revert x. induction n as [|n IH]; intros x.
  { simpl. by rewrite Z.mod_1_r. }
  cbn [to_le le]. rewrite IH, Nat2Z.inj_succ, Z.pow_succ_r by lia.
  assert (0 < 256 ^ Z.of_nat n) by (apply Z.pow_pos_nonneg; lia).
  rewrite Z.rem_mul_r by lia. lia.
Qed.

Lemma to_le_le bs : bytes bs -> to_le (length bs) (le bs) = bs.
Proof.
  induction 1 as [|b bs Hb _ IH]; [done|]. rewrite is_u8 in Hb. cbn [to_le le length].
  rewrite (Z.mul_comm 256), Z.mod_add, Z.mod_small by lia. f_equal.
  rewrite Z.div_add, Z.div_small, Z.add_0_l by lia. done.
Qed.

Lemma be_to_be n x : be (to_be n x) = x mod 256 ^ Z.of_nat n.
Proof. unfold be, to_be. by rewrite rev_involutive, le_to_le. Qed.

Lemma to_be_be bs : bytes bs -> to_be (length bs) (be bs) = bs.
Proof.
  intros H. unfold be, to_be. rewrite <- length_rev, to_le_le; [apply rev_involutive|].
  by apply List.Forall_rev.
Qed.

(** [memcmp] is zero exactly on equal bytes. *)
Lemma memcmp_zero n a b : length a = n -> length b = n -> memcmp n a b = 0 <-> a = b.
Proof.
  revert a b. induction n as [|n IH]; intros [|x a] [|y b]; simpl; intros Ha Hb; try done.
  specialize (IH a b). case_cmp; [split; [lia|intros [=]; lia]..|].
  rewrite IH by lia. assert (x = y) by lia. split; [by intros ->; subst|by intros [=]].
Qed.
