(* ===== verification/Comparators.v ===== *)
(** * Key comparators ([common/avl_comp.c], [common/avl_olsr_comp.c], [ipcalc.h])

    Every comparator the daemon installs in an AVL tree, and which of them fulfil
    the contract [AvlComp] under which [AvlOps] and [AvlSpec] prove the trees. *)
From S2P Require Import Prelude AvlHeap AvlTree AvlRefine AvlSpec Types.

(** ** [common/avl_comp.c] *)
Definition avl_comp_uint32 (u1 u2 : Z) : Z := if u1 >? u2 then 1 else if u2 >? u1 then -1 else 0.
Definition avl_comp_uint16 (u1 u2 : Z) : Z := if u1 >? u2 then 1 else if u2 >? u1 then -1 else 0.
Definition avl_comp_uint8 (u1 u2 : Z) : Z := if u1 >? u2 then 1 else if u2 >? u1 then -1 else 0.
Definition avl_comp_mem (length : nat) (k1 k2 : list Z) : Z := memcmp length k1 k2.

(** ** [ipcalc.h] *)
Definition ip4cmp (a b : ip_addr) : Z :=
  if s_addr a >? s_addr b then 1 else if s_addr a <? s_addr b then -1 else 0.
Definition ip6cmp (a b : ip_addr) : Z := memcmp 16 a b.
Definition ipcmp (ip_version : Z) (a b : ip_addr) : Z :=
  if ip_version =? AF_INET then ip4cmp a b else ip6cmp a b.

(** ** [common/avl_olsr_comp.c] *)
Definition avl_comp_ipv4 (ip1 ip2 : ip_addr) : Z := ip4cmp ip1 ip2.
Definition avl_comp_ipv6 (ip1 ip2 : ip_addr) : Z := ip6cmp ip1 ip2.
Definition avl_comp_mac (m1 m2 : list Z) : Z := memcmp 6 m1 m2.
Definition avl_comp_int (i1 i2 : Z) : Z := if i1 >? i2 then 1 else if i1 <? i2 then -1 else 0.

Definition avl_comp_ipv4_prefix (pfx1 pfx2 : olsr_ip_prefix) : Z :=
  let diff := ip4cmp (prefix pfx1) (prefix pfx2) in
  if negb (diff =? 0) then diff else prefix_len pfx2 - prefix_len pfx1.

Definition avl_comp_ipv6_prefix (pfx1 pfx2 : olsr_ip_prefix) : Z :=
  let diff := ip6cmp (prefix pfx1) (prefix pfx2) in
  if negb (diff =? 0) then diff else prefix_len pfx2 - prefix_len pfx1.

(** The subtraction of two [uint32_t] is stored in an [int]. *)
Definition avl_comp_ipv4_prefix_origin (pfx1 pfx2 : olsr_ip_prefix) : Z :=
  let addr1 := ntohl (s_addr (prefix pfx1)) in
  let addr2 := ntohl (s_addr (prefix pfx2)) in
  let diff := s32 (u32 (addr2 - addr1)) in
  if negb (diff =? 0) then diff else
    let diff := prefix_len pfx2 - prefix_len pfx1 in
    if negb (diff =? 0) then diff else prefix_origin pfx2 - prefix_origin pfx1.

Definition avl_comp_ipv6_prefix_origin (pfx1 pfx2 : olsr_ip_prefix) : Z :=
  let diff := ip6cmp (prefix pfx1) (prefix pfx2) in
  if negb (diff =? 0) then diff else
    let diff := prefix_len pfx2 - prefix_len pfx1 in
    if negb (diff =? 0) then diff else prefix_origin pfx2 - prefix_origin pfx1.

Definition avl_comp_ipv4_addr_origin (pfx1 pfx2 : olsr_ip_prefix) : Z :=
  let addr1 := ntohl (s_addr (prefix pfx1)) in
  let addr2 := ntohl (s_addr (prefix pfx2)) in
  let diff := s32 (u32 (addr2 - addr1)) in
  if negb (diff =? 0) then diff else prefix_origin pfx2 - prefix_origin pfx1.

Definition avl_comp_ipv6_addr_origin (pfx1 pfx2 : olsr_ip_prefix) : Z :=
  let diff := ip6cmp (prefix pfx1) (prefix pfx2) in
  if negb (diff =? 0) then diff else prefix_origin pfx2 - prefix_origin pfx1.

(** The comparators that [main.c] selects by the IP version. *)
Definition avl_comp_default (ip_version : Z) : ip_addr -> ip_addr -> Z :=
  if ip_version =? AF_INET then avl_comp_ipv4 else avl_comp_ipv6.
Definition avl_comp_addr_origin_default (ip_version : Z) : olsr_ip_prefix -> olsr_ip_prefix -> Z :=
  if ip_version =? AF_INET then avl_comp_ipv4_addr_origin else avl_comp_ipv6_addr_origin.
Definition avl_comp_prefix_default (ip_version : Z) : olsr_ip_prefix -> olsr_ip_prefix -> Z :=
  if ip_version =? AF_INET then avl_comp_ipv4_prefix else avl_comp_ipv6_prefix.
Definition avl_comp_prefix_origin_default (ip_version : Z) : olsr_ip_prefix -> olsr_ip_prefix -> Z :=
  if ip_version =? AF_INET then avl_comp_ipv4_prefix_origin else avl_comp_ipv6_prefix_origin.

Definition avl_comp_interface_id (ip_version : Z) (id1 id2 : olsr_interface_id) : Z :=
  let diff := avl_comp_prefix_default ip_version (id_addr id1) (id_addr id2) in
  if negb (diff =? 0) then diff else
    if if_index id1 >? if_index id2 then 1 else if if_index id1 <? if_index id2 then -1 else 0.

(** ** Comparators that are orders

    Three ways to build one: compare numbers, subtract numbers, compare first by
    one comparator and then by another. *)
Definition cmp3 {K} (f : K -> Z) (a b : K) : Z := if f a >? f b then 1 else if f a <? f b then -1 else 0.
Definition cmp_lex {K} (c1 c2 : K -> K -> Z) (a b : K) : Z := if negb (c1 a b =? 0) then c1 a b else c2 a b.

Lemma cmp3_spec {K} (f : K -> Z) a b :
  (f a < f b /\ cmp3 f a b = -1) \/ (f a = f b /\ cmp3 f a b = 0) \/ (f b < f a /\ cmp3 f a b = 1).
Proof. unfold cmp3. rewrite Z.gtb_ltb. case_cmp; lia. Qed.

#[global] Instance cmp3_comp {K} (f : K -> Z) : AvlComp (cmp3 f).
Proof.
  split.
  - intros a. pose proof (cmp3_spec f a a). lia.
  - intros a b. pose proof (cmp3_spec f a b). pose proof (cmp3_spec f b a). lia.
  - intros a b c. pose proof (cmp3_spec f a b). pose proof (cmp3_spec f b c). pose proof (cmp3_spec f a c). lia.
Qed.

#[global] Instance sub_comp {K} (f : K -> Z) : AvlComp (fun a b => f b - f a).
Proof. split; intros; lia. Qed.

#[global] Instance lex_comp {K} (c1 c2 : K -> K -> Z) `{AvlComp K c1} `{AvlComp K c2} : AvlComp (cmp_lex c1 c2).
Proof.
  unfold cmp_lex. split.
  - intros a. by rewrite !comp_refl.
  - intros a b. pose proof (comp_sym (comp := c1) a b). pose proof (comp_sym (comp := c1) b a).
    pose proof (comp_sym (comp := c2) a b). case_cmp; simpl; lia.
  - intros a b c. pose proof (comp_trans (comp := c2) a b c).
    pose proof (comp_trans (comp := c1) a b c). pose proof (comp_trans (comp := c1) c b a).
    pose proof (comp_ge c1 a b). pose proof (comp_ge c1 b a). pose proof (comp_ge c1 b c).
    pose proof (comp_ge c1 c b). pose proof (comp_ge c1 a c). pose proof (comp_ge c1 c a).
    pose proof (comp_lt_le_trans c1 a b c). pose proof (comp_le_lt_trans c1 a b c).
    case_cmp; simpl; lia.
Qed.

#[global] Instance comp_map {K K'} (f : K -> K') (c : K' -> K' -> Z) `{AvlComp K' c} : AvlComp (fun a b => c (f a) (f b)).
Proof. split; intros; [apply comp_refl|apply comp_sym|by eapply comp_trans]. Qed.

Lemma comp_ext {K} (c c' : K -> K -> Z) : (forall a b, c a b = c' a b) -> AvlComp c' -> AvlComp c.
Proof.
  intros E H. split; intros *; rewrite !E; [apply comp_refl|apply comp_sym|apply comp_trans].
Qed.

#[global] Instance memcmp_comp n : AvlComp (memcmp n).
Proof.
  induction n as [|n IH]; [by split|].
  eapply comp_ext, (lex_comp (cmp3 (fun a => default 0 (head a))) (fun a b => memcmp n (tail a) (tail b))).
  intros a b. cbn [memcmp]. unfold cmp_lex, cmp3. rewrite Z.gtb_ltb. case_cmp; simpl; done || lia.
Qed.

#[global] Instance avl_comp_uint32_comp : AvlComp avl_comp_uint32.
Proof. eapply comp_ext, (cmp3_comp id). intros. unfold cmp3, avl_comp_uint32, id. by rewrite !Z.gtb_ltb. Qed.
#[global] Instance avl_comp_uint16_comp : AvlComp avl_comp_uint16.
Proof. apply avl_comp_uint32_comp. Qed.
#[global] Instance avl_comp_uint8_comp : AvlComp avl_comp_uint8.
Proof. apply avl_comp_uint32_comp. Qed.
#[global] Instance avl_comp_mem_comp n : AvlComp (avl_comp_mem n).
Proof. apply memcmp_comp. Qed.
#[global] Instance avl_comp_int_comp : AvlComp avl_comp_int.
Proof. apply (cmp3_comp id). Qed.
#[global] Instance avl_comp_mac_comp : AvlComp avl_comp_mac.
Proof. apply memcmp_comp. Qed.
#[global] Instance ip4cmp_comp : AvlComp ip4cmp.
Proof. apply (cmp3_comp s_addr). Qed.
#[global] Instance ip6cmp_comp : AvlComp ip6cmp.
Proof. apply memcmp_comp. Qed.

#[global] Instance avl_comp_default_comp v : AvlComp (avl_comp_default v).
Proof. unfold avl_comp_default. case_match; [apply ip4cmp_comp|apply ip6cmp_comp]. Qed.

#[global] Instance avl_comp_prefix_default_comp v : AvlComp (avl_comp_prefix_default v).
Proof.
  unfold avl_comp_prefix_default. case_match.
  - apply (lex_comp (fun a b => ip4cmp (prefix a) (prefix b)) (fun a b => prefix_len b - prefix_len a)).
  - apply (lex_comp (fun a b => ip6cmp (prefix a) (prefix b)) (fun a b => prefix_len b - prefix_len a)).
Qed.

#[global] Instance avl_comp_ipv6_prefix_origin_comp : AvlComp avl_comp_ipv6_prefix_origin.
Proof.
  apply (lex_comp (fun a b => ip6cmp (prefix a) (prefix b))
    (cmp_lex (fun a b => prefix_len b - prefix_len a) (fun a b => prefix_origin b - prefix_origin a))).
Qed.

#[global] Instance avl_comp_ipv6_addr_origin_comp : AvlComp avl_comp_ipv6_addr_origin.
Proof. apply (lex_comp (fun a b => ip6cmp (prefix a) (prefix b)) (fun a b => prefix_origin b - prefix_origin a)). Qed.

#[global] Instance avl_comp_interface_id_comp v : AvlComp (avl_comp_interface_id v).
Proof. apply (lex_comp (fun a b => avl_comp_prefix_default v (id_addr a) (id_addr b)) (cmp3 if_index)). Qed.

(** ** Comparators that are not orders

    Three addresses, each above the next one modulo [2^32]. *)
Definition cyc (b : Z) : olsr_ip_prefix := mkPfx [b; 0; 0; 0; 0; 0; 0; 0; 0; 0; 0; 0; 0; 0; 0; 0] 32 0.

Lemma ipv4_prefix_origin_cycle :
  avl_comp_ipv4_prefix_origin (cyc 192) (cyc 96) < 0 /\ avl_comp_ipv4_prefix_origin (cyc 96) (cyc 0) < 0 /\
  avl_comp_ipv4_prefix_origin (cyc 0) (cyc 192) < 0.
Proof. by vm_compute. Qed.
Lemma ipv4_addr_origin_cycle :
  avl_comp_ipv4_addr_origin (cyc 192) (cyc 96) < 0 /\ avl_comp_ipv4_addr_origin (cyc 96) (cyc 0) < 0 /\
  avl_comp_ipv4_addr_origin (cyc 0) (cyc 192) < 0.
Proof. by vm_compute. Qed.

Lemma cycle_not_comp {K} (c : K -> K -> Z) x y z : c x y < 0 -> c y z < 0 -> c z x < 0 -> ~ AvlComp c.
Proof.
  intros H1 H2 H3 HC. pose proof (comp_lt_le_trans c x y z H1 ltac:(lia)) as H4.
  pose proof (comp_lt_le_trans c x z x H4 ltac:(lia)) as H5. rewrite comp_refl in H5. lia.
Qed.

(** The comparators that order IPv4 prefixes and addresses by origin are
    not orders: they store the difference of two 32-bit numbers in an [int], so
    that 192.0.0.0 < 96.0.0.0 < 0.0.0.0 < 192.0.0.0. A tree that uses one of them
    has no contract to rely on. *)
Theorem ipv4_origin_comparators_not_orders :
  ~ AvlComp avl_comp_ipv4_prefix_origin /\ ~ AvlComp avl_comp_ipv4_addr_origin.
Proof.
  split.
  - by destruct ipv4_prefix_origin_cycle as (H1 & H2 & H3); eapply cycle_not_comp.
  - by destruct ipv4_addr_origin_cycle as (H1 & H2 & H3); eapply cycle_not_comp.
Qed.
