(* ===== verification/AvlTrace.v ===== *)
(** * Sequences of operations on an AVL tree ([avl.c])

    Any sequence of the entry points of [avl.c], run from [avl_init] on the
    pointer structure, returns what the same sequence returns on a sorted list
    of entries, and never meets a null or dangling pointer. The operations
    themselves are refined one by one in [AvlSpec] and [AvlOps]; what is added
    here is that none of them changes a key or allocates or frees memory, so
    that the preconditions of the next operation survive the previous one. *)
From S2P Require Import Prelude Lists AvlHeap AvlTree AvlRefine AvlSpec AvlOps Trees Types Comparators.

Section trace.
Context {K : Type} (comp : K -> K -> Z) `{HC : AvlComp K comp}.

(** ** What every operation keeps *)
Definition mem (s : avl_st K) : gmap loc K * gset loc := (n_key <$> nodes s, dom (lists s)).
Definition keeps {A} (m : SE (avl_st K) A) : Prop := forall s s' a, m s = Some (s', a) -> mem s' = mem s.
Definition lkeeps {A} (m : SE lheap A) : Prop := forall h h' a, m h = Some (h', a) -> dom h' =@{gset loc} dom h.

Lemma keeps_bind {A B} (m : SE (avl_st K) A) (f : A -> SE (avl_st K) B) :
  keeps m -> (forall a, keeps (f a)) -> keeps (m ≫= f).
Proof. intros Hm Hf s s' b (s1 & a & R1 & R2)%bind_inv. by rewrite (Hf _ _ _ _ R2), (Hm _ _ _ R1). Qed.

Lemma keeps_ret {A} (a : A) : keeps (mret a).
Proof. by intros s s' a' [= <- <-]. Qed.
Lemma keeps_fail {A} : keeps (se_fail (A := A)).
Proof. done. Qed.
Lemma keeps_get {A} (f : avl_st K -> A) : keeps (se_get f).
Proof. by intros s s' a' [= <- <-]. Qed.
Lemma keeps_ptr p : keeps (ptr p).
Proof. destruct p; [by intros s s' a' [= <- <-]|done]. Qed.
Lemma keeps_rd {A} p (f : avl_node K -> A) : keeps (rd p f).
Proof. intros s s' a. unfold rd. destruct (nodes s !! p); [|done]. by intros [= <- <-]. Qed.
Lemma keeps_root v : keeps (set_root v).
Proof. by intros s s' a [= <- <-]. Qed.
Lemma keeps_count v : keeps (set_count v).
Proof. by intros s s' a [= <- <-]. Qed.
Lemma keeps_wr p g : (forall n, n_key (g n) = n_key n) -> keeps (wr p g).
Proof.
  intros Hg s s' a. unfold wr. destruct (nodes s !! p) as [n|] eqn:E; [|done]. intros [= <- <-].
  unfold mem. simpl. rewrite fmap_insert, Hg, insert_id; [done|]. by rewrite lookup_fmap, E.
Qed.

Lemma lkeeps_bind {A B} (m : SE lheap A) (f : A -> SE lheap B) :
  lkeeps m -> (forall a, lkeeps (f a)) -> lkeeps (m ≫= f).
Proof. intros Hm Hf s s' b (s1 & a & R1 & R2)%bind_inv. by rewrite (Hf _ _ _ _ R2), (Hm _ _ _ R1). Qed.
Lemma lkeeps_ret {A} (a : A) : lkeeps (mret a).
Proof. by intros s s' a' [= <- <-]. Qed.
Lemma lkeeps_deref p : lkeeps (deref p).
Proof. destruct p; [by intros s s' a' [= <- <-]|done]. Qed.
Lemma lkeeps_rd_next p : lkeeps (rd_next p).
Proof. intros s s' a. unfold rd_next. destruct (s !! p); [|done]. by intros [= <- <-]. Qed.
Lemma lkeeps_rd_prev p : lkeeps (rd_prev p).
Proof. intros s s' a. unfold rd_prev. destruct (s !! p); [|done]. by intros [= <- <-]. Qed.
Lemma lkeeps_wr_next p v : lkeeps (wr_next p v).
Proof.
  intros s s' a. unfold wr_next. destruct (s !! p) eqn:E; [|done]. intros [= <- <-].
  by rewrite dom_insert_lookup_L by eauto.
Qed.
Lemma lkeeps_wr_prev p v : lkeeps (wr_prev p v).
Proof.
  intros s s' a. unfold wr_prev. destruct (s !! p) eqn:E; [|done]. intros [= <- <-].
  by rewrite dom_insert_lookup_L by eauto.
Qed.
Lemma keeps_on_lists {A} (m : SE lheap A) : lkeeps m -> keeps (on_lists m).
Proof.
  intros Hm s s' a. unfold on_lists. destruct (m (lists s)) as [[h b]|] eqn:E; [|done]. intros [= <- <-].
  unfold mem. simpl. by rewrite (Hm _ _ _ E).
Qed.

Create HintDb keeps.
Ltac keep :=
  repeat first
    [ solve [auto with keeps] | progress cbv zeta
    | apply lkeeps_bind; [|intros ?] | apply lkeeps_ret | apply lkeeps_deref
    | apply lkeeps_rd_next | apply lkeeps_rd_prev | apply lkeeps_wr_next | apply lkeeps_wr_prev
    | apply keeps_bind; [|intros ?] | apply keeps_ret | apply keeps_fail | apply keeps_get | apply keeps_ptr
    | apply keeps_rd | apply keeps_root | apply keeps_count | (apply keeps_wr; done) | apply keeps_on_lists
    | case_match ].

Lemma lkeeps_add p n new : lkeeps (__list_add p n new).
Proof. unfold __list_add. keep. Qed.
Lemma lkeeps_remove e : lkeeps (list_remove e).
Proof. unfold list_remove, __list_remove. keep. Qed.
Lemma keeps_find_rec f : forall p k, keeps (int_avl_find_rec comp f p k).
Proof. induction f; intros; simpl; keep. Qed.
Lemma keeps_insert_last f : forall p, keeps (insert_last f p).
Proof. induction f; intros; simpl; unfold list_is_last, fuel, get_tree; keep. Qed.
Lemma keeps_replace_child p n c : keeps (replace_child p n c).
Proof. unfold replace_child. keep. Qed.
Lemma keeps_opt_reparent c p : keeps (opt_reparent c p).
Proof. unfold opt_reparent. keep. Qed.
#[local] Hint Resolve lkeeps_add lkeeps_remove keeps_find_rec keeps_insert_last keeps_replace_child keeps_opt_reparent : keeps.
Lemma keeps_rotate_right p : keeps (int_avl_rotate_right p).
Proof. unfold int_avl_rotate_right. keep. Qed.
Lemma keeps_rotate_left p : keeps (int_avl_rotate_left p).
Proof. unfold int_avl_rotate_left. keep. Qed.
#[local] Hint Resolve keeps_rotate_right keeps_rotate_left : keeps.
Lemma keeps_post_insert f : forall p, keeps (int_post_insert f p).
Proof. induction f; intros; simpl; keep. Qed.
Lemma keeps_post_delete f : forall p, keeps (int_avl_post_delete f p).
Proof. induction f; intros; simpl; keep. Qed.
Lemma keeps_local_min f : forall p, keeps (int_avl_local_min f p).
Proof. induction f; intros; simpl; keep. Qed.
#[local] Hint Resolve keeps_post_insert keeps_post_delete keeps_local_min : keeps.
Lemma keeps_delete_worker d f : forall p, keeps (int_avl_delete_worker d f p).
Proof. induction d; intros; simpl; unfold delete_leaf_left, delete_leaf_right, delete_one_child; keep. Qed.
#[local] Hint Resolve keeps_delete_worker : keeps.

Lemma keeps_insert p : keeps (avl_insert comp p).
Proof.
  unfold avl_insert, get_tree, fuel, int_avl_insert_before, int_avl_insert_after, list_add_head, list_add_before,
    list_add_after, get_tree. keep.
Qed.
Lemma keeps_remove p : keeps (avl_remove (K := K) p).
Proof. unfold avl_remove, get_tree, fuel, int_avl_remove, list_is_last, get_tree. keep. Qed.

(** ** Operations, and what they do to a sorted list *)
Inductive avl_op := OInsert (p : loc) | ORemove (p : loc) | OFind (k : K) | OLessEqual (k : K) | OGreaterEqual (k : K).
Inductive avl_res := RInt (z : Z) | RNode (p : option loc) | RVoid.

Definition exec (o : avl_op) : SE (avl_st K) avl_res :=
  match o with
  | OInsert p => r ← avl_insert comp p; mret (RInt r)
  | ORemove p => avl_remove p;; mret RVoid
  | OFind k => r ← avl_find comp k; mret (RNode r)
  | OLessEqual k => r ← avl_find_lessequal comp k; mret (RNode r)
  | OGreaterEqual k => r ← avl_find_greaterequal comp k; mret (RNode r)
  end.

Fixpoint exec_all (os : list avl_op) : SE (avl_st K) (list avl_res) :=
  match os with
  | [] => mret []
  | o :: os => r ← exec o; rs ← exec_all os; mret (r :: rs)
  end.

(** [keys] gives the key of every node of the memory. The client may only
    insert a node that is not in the tree and remove one that is. *)
Definition spec_op (keys : gmap loc K) (dups : bool) (o : avl_op) (L : list (loc * K)) : option (list (loc * K) * avl_res) :=
  match o with
  | OInsert p =>
    k ← keys !! p;
    if decide (p ∈ L.*1) then None else
      let r := spec_insert comp dups k p L in Some (r.2, RInt r.1)
  | ORemove p => if decide (p ∈ L.*1) then Some (tree_delete p L, RVoid) else None
  | OFind k => Some (L, RNode (spec_find comp k L))
  | OLessEqual k => Some (L, RNode (spec_le comp k L))
  | OGreaterEqual k => Some (L, RNode (spec_ge comp k L))
  end.

Fixpoint spec_all (keys : gmap loc K) (dups : bool) (os : list avl_op) (L : list (loc * K)) :
    option (list (loc * K) * list avl_res) :=
  match os with
  | [] => Some (L, [])
  | o :: os => '(L, r) ← spec_op keys dups o L; '(L, rs) ← spec_all keys dups os L; Some (L, r :: rs)
  end.

(** The memory a tree lives in: the head and every node have a list entity, and
    the head is not a node. *)
Record mem_ok (keys : gmap loc K) (dups : bool) (s : avl_st K) : Prop := {
  me_keys : (mem s).1 = keys;
  me_nodes : dom keys ⊆ (mem s).2;
  me_head : list_head (tree s) ∉ dom keys;
  me_dups : allow_dups (tree s) = dups
}.

Lemma mem_ok_step {A} (m : SE (avl_st K) A) keys dups s s' a :
  keeps m -> m s = Some (s', a) -> same_head s s' -> mem_ok keys dups s -> mem_ok keys dups s'.
Proof. intros Hm R [E1 E2] []. specialize (Hm _ _ _ R). by split; rewrite ?Hm, ?E1, ?E2. Qed.

Lemma exec_refines keys dups o s L L' r :
  mem_ok keys dups s -> avl_rep comp s L -> spec_op keys dups o L = Some (L', r) ->
  exists s', exec o s = Some (s', r) /\ mem_ok keys dups s' /\ avl_rep comp s' L'.
Proof.
  intros M H. destruct o as [p|p|k|k|k]; simpl.
  - destruct (keys !! p) as [k|] eqn:Hk; [|done]. simpl. case_decide as Hin; [done|]. intros [= <- <-].
    pose proof M as [Mk Mn Mh Md]. pose proof Hk as Hn. rewrite <- Mk in Hn. apply lookup_fmap_Some in Hn as (n & <- & Hn).
    apply elem_of_dom_2 in Hk. rewrite <- Md.
    destruct (avl_insert_run comp s L p n) as (s' & R & H' & Hh); [done|done| | |].
    { apply elem_of_dom, Mn, Hk. }
    { intros [->|?]%elem_of_cons; done. }
    exists s'. erewrite bind_run by exact R. split_and!; [done| |done]. rewrite Md.
    eapply mem_ok_step; [by apply keeps_insert|done..].
  - case_decide as Hin; [|done]. intros [= <- <-].
    destruct (avl_delete_run comp s L p) as (s' & R & H' & Hh); [done| |done|].
    { destruct H as (G & t & [] & <-). by apply (NoDup_cons (list_head (tree s))), r_list. }
    exists s'. erewrite bind_run by exact R. split_and!; [done| |done]. eapply mem_ok_step; [by apply keeps_remove|done..].
  - intros [= <- <-]. exists s. erewrite bind_run by (by apply avl_find_run). done.
  - intros [= <- <-]. exists s. erewrite bind_run by (by apply avl_find_lessequal_run). done.
  - intros [= <- <-]. exists s. erewrite bind_run by (by apply avl_find_greaterequal_run). done.
Qed.

Lemma exec_all_refines keys dups os : forall s L L' rs,
  mem_ok keys dups s -> avl_rep comp s L -> spec_all keys dups os L = Some (L', rs) ->
  exists s', exec_all os s = Some (s', rs) /\ avl_rep comp s' L'.
Proof.
  induction os as [|o os IH]; simpl; intros s L L' rs M H; [intros [= <- <-]; by exists s|].
  destruct (spec_op _ _ _ _) as [[L1 r]|] eqn:E1; [|done]. simpl.
  destruct (spec_all _ _ _ _) as [[L2 rs2]|] eqn:E2; [|done]. intros [= <- <-].
  destruct (exec_refines _ _ _ _ _ _ _ M H E1) as (s1 & R1 & M1 & H1).
  destruct (IH _ _ _ _ M1 H1 E2) as (s2 & R2 & H2). exists s2. split; [|done].
  erewrite bind_run by exact R1. by erewrite bind_run by exact R2.
Qed.

(** C4: A sequence of [avl_insert], [avl_remove], [avl_find],
    [avl_find_lessequal] and [avl_find_greaterequal] that inserts only nodes
    that are not in the tree and removes only nodes that are, run after
    [avl_init] on the pointer structure, completes and returns exactly what the
    sequence returns on a list of entries sorted by the comparator. At the end
    the nodes linked from the list head are those of the sorted list, in its
    order, the links stored in the nodes form a height-balanced search tree over
    them, and the counter holds their number. *)
Theorem avl_trace_refines s dups os L rs :
  list_head (tree s) ∈ dom (lists s) -> dom (nodes s) ⊆ dom (lists s) -> list_head (tree s) ∉ dom (nodes s) ->
  spec_all (n_key <$> nodes s) dups os [] = Some (L, rs) ->
  exists s', (avl_init dups;; exec_all os) s = Some (s', rs) /\ avl_rep comp s' L /\
    dlist (lists s') (list_head (tree s')) L.*1 /\ count (tree s') = u32 (Z.of_nat (length L)).
Proof.
  intros Hh Hn Hnh E. destruct (avl_init_run comp s dups) as (s1 & R1 & H1 & E1 & E2); [by apply elem_of_dom|].
  assert (keeps (avl_init (K := K) dups)) as Hk.
  { unfold avl_init, get_tree, list_init_head. keep. by intros ??? [= <- <-]. }
  destruct (exec_all_refines (n_key <$> nodes s) dups os s1 [] L rs) as (s2 & R2 & H2); [|done..|].
  { split; rewrite ?(Hk _ _ _ R1), ?E1; simpl; rewrite ?dom_fmap_L; done. }
  exists s2. erewrite bind_run by exact R1. split_and!; [done|done|..]; destruct H2 as (G & t & [] & <-); done.
Qed.
End trace.

(** A memory with a list head and six nodes, two of them with equal keys. *)
Definition demo_mem : avl_st Z :=
  let node k := mkNode None None None k 0 false in
  mkSt (mkTree 1 None 0 true)
    (list_to_map [(2%positive, node 50); (3%positive, node 20); (4%positive, node 70); (5%positive, node 20);
      (6%positive, node 10); (7%positive, node 60)])
    (list_to_map ((fun p => (p, mkEnt None None)) <$> [1; 2; 3; 4; 5; 6; 7]%positive)).
Definition demo_ops : list (avl_op (K := Z)) :=
  [OInsert 2; OInsert 3; OInsert 4; OInsert 5; OFind 20; OInsert 6; ORemove 3; OFind 20; OInsert 7; ORemove 2;
   OLessEqual 65; OGreaterEqual 65; OGreaterEqual 71].

Lemma avl_trace_refines_witness :
  exists s', (avl_init true;; exec_all avl_comp_uint32 demo_ops) demo_mem =
    Some (s', [RInt 0; RInt 0; RInt 0; RInt 0; RNode (Some 3%positive); RInt 0; RVoid; RNode (Some 5%positive); RInt 0; RVoid;
      RNode (Some 7%positive); RNode (Some 4%positive); RNode None]) /\
    avl_rep avl_comp_uint32 s' [(6%positive, 10); (5%positive, 20); (7%positive, 60); (4%positive, 70)] /\
    dlist (lists s') (list_head (tree s')) [6; 5; 7; 4]%positive /\ count (tree s') = 4.
Proof.
  apply (avl_trace_refines avl_comp_uint32 demo_mem true demo_ops
    [(6%positive, 10); (5%positive, 20); (7%positive, 60); (4%positive, 70)]).
  - by apply (bool_decide_unpack _).
  - by apply (bool_decide_unpack _).
  - by apply (bool_decide_unpack _).
  - by vm_compute.
Defined.
