(* ===== verification/IpCalc.v ===== *)
(** * Netmasks and address predicates ([ipcalc.c], [ipcalc.h]) *)
From S2P Require Import Prelude AvlHeap AvlTree AvlRefine AvlSpec Types Comparators.

Definition all_zero : ip_addr := replicate 16 0.
Definition ipv4_internet_route : olsr_ip_prefix := mkPfx (replicate 16 0) 0 0.
Definition ipv6_mappedv4_route : olsr_ip_prefix :=
  mkPfx [0; 0; 0; 0; 0; 0; 0; 0; 0; 0; 255; 255; 0; 0; 0; 0] 96 0.
Definition ipv6_internet_route : olsr_ip_prefix :=
  mkPfx [32; 0; 0; 0; 0; 0; 0; 0; 0; 0; 0; 0; 0; 0; 0; 0] 3 0.

(** [memmove] of the first four bytes to the end, then the two [memset]s. *)
Definition ip_map_4to6 (addr : ip_addr) : ip_addr := replicate 10 0 ++ replicate 2 255 ++ take 4 addr.

(** The loops over the mask bytes: [end_] bytes of ones, the partial byte, zeros. *)
Definition prefix_to_netmask (len : nat) (prefixlen : Z) : list Z * bool :=
  let end_ := Nat.min len (Z.to_nat (prefixlen / 8)) in
  let a := replicate end_ 255 ++
    (if (end_ <? len)%nat then
       u8 (Z.shiftl 255 (8 - prefixlen mod 8)) :: replicate (len - end_ - 1) 0
     else []) in
  (a, prefixlen <=? Z.of_nat len * 8).

(** The [switch] on the last byte; [None] is the [default] label. *)
Definition last_byte_bits (b : Z) : option Z :=
  if b =? 0 then Some 0 else if b =? 128 then Some 1 else if b =? 192 then Some 2
  else if b =? 224 then Some 3 else if b =? 240 then Some 4 else if b =? 248 then Some 5
  else if b =? 252 then Some 6 else if b =? 254 then Some 7 else if b =? 255 then Some 8 else None.

Fixpoint netmask_scan (a : list Z) (prefix : Z) : Z * option Z :=
  match a with
  | b :: a => if b =? 255 then netmask_scan a (u16 (prefix + 8)) else (prefix, Some b)
  | [] => (prefix, None)
  end.

Definition netmask_to_prefix (adr : list Z) : Z :=
  match netmask_scan adr 0 with
  | (prefix, None) => u8 prefix
  | (prefix, Some b) =>
    match last_byte_bits b with
    | Some n => u8 (u16 (prefix + n))
    | None => u8 (u16 (Z.of_nat (length adr) * 8))
    end
  end.

Definition prefix_to_netmask4 (prefixlen : Z) : Z :=
  if prefixlen =? 0 then 0 else u32 (Z.shiftl (2 ^ 32 - 1) (32 - prefixlen)).

(** The comparison of one 32-bit word under a mask. *)
Definition word_in_net (i n : Z) (prefix_len : Z) : bool :=
  let netmask := ntohl (prefix_to_netmask4 prefix_len) in
  Z.land i netmask =? Z.land n netmask.

(** The loop over the words of an IPv6 address; there are at most 8 rounds
    because the prefix length is an 8-bit number. *)
Fixpoint in_net6 (fuel : nat) (i n : list Z) (prefix_len : Z) : bool :=
  match fuel with
  | O => word_in_net (s_addr i) (s_addr n) prefix_len
  | S fuel =>
    if prefix_len >? 32 then
      if negb (s_addr i =? s_addr n) then false else in_net6 fuel (drop 4 i) (drop 4 n) (prefix_len - 32)
    else word_in_net (s_addr i) (s_addr n) prefix_len
  end.

Definition ip_in_net (ipaddr : ip_addr) (net : olsr_ip_prefix) (ip_version : Z) : bool :=
  if ip_version =? AF_INET then word_in_net (s_addr ipaddr) (s_addr (prefix net)) (prefix_len net)
  else in_net6 8 ipaddr (prefix net) (prefix_len net).

Definition ip_is_linklocal (ip_version : Z) (ip : ip_addr) : bool :=
  (ip_version =? AF_INET6) && (default 0 (ip !! 0%nat) =? 254) && (Z.land (default 0 (ip !! 1%nat)) 192 =? 128).

Definition prefix_mappedv4_to_v4 (v4 v6 : olsr_ip_prefix) : olsr_ip_prefix :=
  mkPfx (take 4 (drop 12 (prefix v6)) ++ drop 4 (prefix v4)) (u8 (prefix_len v6 - 96)) (prefix_origin v4).

(** [IN6_IS_ADDR_V4MAPPED] *)
Definition in6_is_addr_v4mapped (a : ip_addr) : bool := memcmp 12 a (prefix ipv6_mappedv4_route) =? 0.

Definition is_prefix_niit_ipv6 (ip_version : Z) (p : olsr_ip_prefix) : bool :=
  (ip_version =? AF_INET6) && in6_is_addr_v4mapped (prefix p) && (prefix_len p >=? prefix_len ipv6_mappedv4_route).

Definition ip_prefix_is_mappedv4 (p : olsr_ip_prefix) : bool :=
  (prefix_len p >=? prefix_len ipv6_mappedv4_route) &&
  (memcmp (Z.to_nat (prefix_len ipv6_mappedv4_route / 8)) (prefix p) (prefix ipv6_mappedv4_route) =? 0).

Definition ip_prefix_is_mappedv4_inetgw (p : olsr_ip_prefix) : bool :=
  (prefix_len p =? prefix_len ipv6_mappedv4_route) &&
  (memcmp (Z.to_nat (prefix_len ipv6_mappedv4_route / 8)) (prefix p) (prefix ipv6_mappedv4_route) =? 0).

Definition ip_prefix_is_v4_inetgw (p : olsr_ip_prefix) : bool :=
  (prefix_len p =? prefix_len ipv4_internet_route) && (s_addr (prefix p) =? s_addr (prefix ipv4_internet_route)).

Definition ip_prefix_is_v6_inetgw (p : olsr_ip_prefix) : bool :=
  (prefix_len p =? prefix_len ipv6_internet_route) &&
  (memcmp (Z.to_nat (prefix_len ipv6_internet_route / 8)) (prefix p) (prefix ipv6_internet_route) =? 0).

Definition is_prefix_inetgw (ip_version : Z) (p : olsr_ip_prefix) : bool :=
  if (ip_version =? AF_INET) && ip_prefix_is_v4_inetgw p then true
  else if ip_version =? AF_INET6 then ip_prefix_is_v6_inetgw p || ip_prefix_is_mappedv4_inetgw p
  else false.

(** ** Bits of an address, the most significant bit of the first byte first *)
Definition abit (a : list Z) (i : Z) : bool :=
  Z.testbit (default 0 (a !! Z.to_nat (i / 8))) (7 - i mod 8).

Lemma le_testbit bs i : bytes bs -> 0 <= i ->
  Z.testbit (le bs) i = Z.testbit (default 0 (bs !! Z.to_nat (i / 8))) (i mod 8).
Proof.
  intros H. revert i. induction H as [|b bs Hb _ IH]; intros i Hi; cbn [le].
  { rewrite lookup_nil. simpl. by rewrite !Z.testbit_0_l. }
  rewrite is_u8 in Hb. destruct (Z.lt_ge_cases i 8) as [Hlt|Hge].
  - rewrite Z.div_small, Z.mod_small by lia. simpl.
    rewrite <- (Z.mod_pow2_bits_low _ 8) by lia. change (2 ^ 8) with 256.
    by rewrite (Z.mul_comm 256), Z.mod_add, Z.mod_small by lia.
  - replace i with (i - 8 + 8) at 1 by lia. rewrite <- Z.div_pow2_bits by lia. change (2 ^ 8) with 256.
    rewrite (Z.mul_comm 256), Z.div_add, Z.div_small, Z.add_0_l, IH by lia.
    replace (Z.to_nat (i / 8)) with (S (Z.to_nat ((i - 8) / 8))) by mlia. simpl.
    f_equal. mlia.
Qed.

Lemma bytes_lookup bs j : bytes bs -> 0 <= default 0 (bs !! j) < 256.
Proof.
  intros H. destruct (bs !! j) as [b|] eqn:E; simpl; [|lia].
  unfold bytes in H. rewrite Forall_lookup in H. rewrite <- is_u8. eauto.
Qed.

(** Two numbers below [2^32] agree under the mask exactly if they agree on its bits. *)
Lemma land_eq_bits a b m : Z.land a m = Z.land b m <->
  forall i, 0 <= i -> Z.testbit m i = true -> Z.testbit a i = Z.testbit b i.
Proof.
  split.
  - intros E i Hi Hm. apply (f_equal (fun x => Z.testbit x i)) in E. rewrite !Z.land_spec, Hm in E. by rewrite !andb_true_r in E.
  - intros H. apply Z.bits_inj'. intros i Hi. rewrite !Z.land_spec.
    destruct (Z.testbit m i) eqn:Hm; [|by rewrite !andb_false_r]. by rewrite H.
Qed.

Lemma to_le_lookup n x j : (j < n)%nat -> to_le n x !! j = Some ((x / 256 ^ Z.of_nat j) mod 256).
Proof.
  revert x j. induction n as [|n IH]; intros x j Hj; [lia|]. destruct j as [|j]; simpl.
  - by rewrite Z.div_1_r.
  - rewrite IH by lia. do 2 f_equal. rewrite Z.div_div by lia. f_equal.
    rewrite <- Z.pow_succ_r by lia. f_equal. lia.
Qed.

(** Bit [8 j + k] of [ntohl x] is bit [8 (3 - j) + k] of [x]. *)
Lemma ntohl_testbit x j k : 0 <= j < 4 -> 0 <= k < 8 ->
  Z.testbit (ntohl x) (8 * j + k) = Z.testbit x (8 * (3 - j) + k).
Proof.
  intros Hj Hk. unfold ntohl, be. rewrite le_testbit; [|apply List.Forall_rev, to_le_bytes|lia].
  replace ((8 * j + k) / 8) with j by mlia. replace ((8 * j + k) mod 8) with k by mlia.
  change (to_le 4 x) with [x mod 256; x / 256 mod 256; x / 256 / 256 mod 256; x / 256 / 256 / 256 mod 256].
  assert (Hb : forall y n, 0 <= n -> Z.testbit (y mod 256) k = Z.testbit y k).
  { intros. change 256 with (2 ^ 8). by rewrite Z.mod_pow2_bits_low by lia. }
  assert (Hd : forall y, Z.testbit (y / 256) k = Z.testbit y (k + 8)).
  { intros. change 256 with (2 ^ 8). by rewrite Z.div_pow2_bits by lia. }
  assert (j = 0 \/ j = 1 \/ j = 2 \/ j = 3) as [-> | [-> | [-> | ->]]] by lia; simpl;
    rewrite (Hb _ 0) by lia.
  - replace (x / 256 / 256 / 256) with (x / 2 ^ 24) by (by rewrite !Z.div_div by lia).
    rewrite Z.div_pow2_bits by lia. f_equal. lia.
  - replace (x / 256 / 256) with (x / 2 ^ 16) by (by rewrite !Z.div_div by lia).
    rewrite Z.div_pow2_bits by lia. f_equal. lia.
  - rewrite Hd. f_equal. lia.
  - done.
Qed.

Lemma netmask4_testbit p i : 0 <= p <= 32 -> 0 <= i < 32 -> Z.testbit (prefix_to_netmask4 p) i = (32 - p <=? i).
Proof.
  intros Hp Hi. unfold prefix_to_netmask4. destruct (Z.eqb_spec p 0) as [->|].
  - rewrite Z.testbit_0_l. symmetry. apply Z.leb_gt. lia.
  - unfold wrapu. rewrite Z.mod_pow2_bits_low by lia. rewrite Z.shiftl_spec by lia.
    change (2 ^ 32 - 1) with (Z.ones 32).
    destruct (Z.leb_spec (32 - p) i).
    + by apply Z.ones_spec_low; lia.
    + by apply Z.testbit_neg_r; lia.
Qed.

Lemma s_addr_bit a j k : bytes a -> 0 <= j < 4 -> 0 <= k < 8 ->
  Z.testbit (s_addr a) (8 * j + k) = abit a (8 * j + (7 - k)).
Proof.
  intros Ha Hj Hk. unfold s_addr, abit. rewrite le_testbit; [|by apply Forall_take|lia].
  replace ((8 * j + k) / 8) with j by mlia. replace ((8 * j + k) mod 8) with k by mlia.
  replace ((8 * j + (7 - k)) / 8) with j by mlia. replace ((8 * j + (7 - k)) mod 8) with (7 - k) by mlia.
  rewrite lookup_take_lt by lia. f_equal. lia.
Qed.

Lemma s_addr_range a : bytes a -> 0 <= s_addr a < 2 ^ 32.
Proof.
  intros Ha. unfold s_addr. pose proof (le_range (take 4 a) (Forall_take _ 4 a Ha)) as H.
  assert (256 ^ Z.of_nat (length (take 4 a)) <= 256 ^ 4).
  { apply Z.pow_le_mono_r; [lia|]. rewrite length_take. lia. }
  change (256 ^ 4) with (2 ^ 32) in *. lia.
Qed.

Lemma word_in_net_spec a n p : bytes a -> bytes n -> 0 <= p <= 32 ->
  word_in_net (s_addr a) (s_addr n) p = true <-> forall i, 0 <= i < p -> abit a i = abit n i.
Proof.
  intros Ha Hn Hp. unfold word_in_net. rewrite Z.eqb_eq, land_eq_bits. split.
  - intros H i Hi. specialize (H (8 * (i / 8) + (7 - i mod 8)) ltac:(mlia)).
    rewrite ntohl_testbit, netmask4_testbit, !s_addr_bit in H by (done || mlia).
    replace (8 * (i / 8) + (7 - (7 - i mod 8))) with i in H by mlia. apply H. apply Z.leb_le. mlia.
  - intros H i Hi Hm. destruct (Z.lt_ge_cases i 32) as [Hlt|Hge].
    + replace i with (8 * (i / 8) + i mod 8) in * by mlia.
      rewrite ntohl_testbit, netmask4_testbit in Hm by mlia. apply Z.leb_le in Hm.
      rewrite !s_addr_bit by (done || mlia). apply H. mlia.
    + rewrite !Z.bits_above_log2; try done; try (apply s_addr_range; done).
      * pose proof (s_addr_range n Hn). destruct (Z.eq_dec (s_addr n) 0) as [->|]; [simpl; lia|].
        apply Z.log2_lt_pow2; [lia|]. eapply Z.lt_le_trans; [apply H0|]. apply Z.pow_le_mono_r; lia.
      * pose proof (s_addr_range a Ha). destruct (Z.eq_dec (s_addr a) 0) as [->|]; [simpl; lia|].
        apply Z.log2_lt_pow2; [lia|]. eapply Z.lt_le_trans; [apply H0|]. apply Z.pow_le_mono_r; lia.
Qed.

Lemma s_addr_eq_bits a n : bytes a -> bytes n ->
  s_addr a = s_addr n <-> forall i, 0 <= i < 32 -> abit a i = abit n i.
Proof.
  intros Ha Hn. rewrite <- (word_in_net_spec a n 32) by (done || lia). unfold word_in_net.
  change (ntohl (prefix_to_netmask4 32)) with (Z.ones 32). rewrite Z.eqb_eq, !Z.land_ones by lia.
  by rewrite !Z.mod_small by (by apply s_addr_range).
Qed.

Lemma abit_drop a i : 0 <= i -> abit (drop 4 a) i = abit a (i + 32).
Proof.
  intros Hi. unfold abit. rewrite lookup_drop. f_equal; [|mlia]. do 2 f_equal. mlia.
Qed.

Lemma in_net6_spec k : forall a n p, bytes a -> bytes n -> 0 <= p <= 32 * (Z.of_nat k + 1) ->
  in_net6 k a n p = true <-> forall i, 0 <= i < p -> abit a i = abit n i.
Proof.
  induction k as [|k IH]; intros a n p Ha Hn Hp; cbn [in_net6].
  { apply word_in_net_spec; [done..|lia]. }
  rewrite Z.gtb_ltb. destruct (Z.ltb_spec 32 p); [|apply word_in_net_spec; [done..|lia]].
  destruct (Z.eqb_spec (s_addr a) (s_addr n)) as [E|E]; simpl.
  - rewrite IH by (by apply Forall_drop) || lia. rewrite s_addr_eq_bits in E by done. split.
    + intros H' i Hi. destruct (Z.lt_ge_cases i 32); [apply E; lia|].
      specialize (H' (i - 32) ltac:(lia)). rewrite !abit_drop in H' by lia. by replace (i - 32 + 32) with i in H' by lia.
    + intros H' i Hi. rewrite !abit_drop by lia. apply H'. lia.
  - split; [done|]. intros H'. exfalso. apply E. apply s_addr_eq_bits; [done..|]. intros i Hi. apply H'. lia.
Qed.

(** [ip_in_net] decides whether the address and the network agree on the first
    [prefix_len] bits. *)
Lemma ip_in_net_spec v a net :
  bytes a -> bytes (prefix net) -> 0 <= prefix_len net <= (if v =? AF_INET then 32 else 128) ->
  ip_in_net a net v = true <-> forall i, 0 <= i < prefix_len net -> abit a i = abit (prefix net) i.
Proof.
  intros Ha Hn Hp. unfold ip_in_net. destruct (v =? AF_INET).
  - by apply word_in_net_spec.
  - apply in_net6_spec; [done..|]. lia.
Qed.

(** ** Netmasks *)
Lemma netmask_scan_ones m rest acc : 0 <= acc -> acc + 8 * Z.of_nat m < 2 ^ 16 ->
  netmask_scan (replicate m 255 ++ rest) acc = netmask_scan rest (acc + 8 * Z.of_nat m).
Proof.
  revert acc. induction m as [|m IH]; intros acc Ha Hb; simpl.
  { f_equal. lia. }
  rewrite wrapu_id by (unfold is_u; lia). rewrite IH by lia. f_equal. lia.
Qed.

Lemma partial_byte r : 0 <= r < 8 ->
  let b := u8 (Z.shiftl 255 (8 - r)) in b <> 255 /\ last_byte_bits b = Some r.
Proof.
  intros Hr. assert (r = 0 \/ r = 1 \/ r = 2 \/ r = 3 \/ r = 4 \/ r = 5 \/ r = 6 \/ r = 7) as Hc by lia.
  destruct Hc as [-> | [-> | [-> | [-> | [-> | [-> | [-> | ->]]]]]]]; by vm_compute.
Qed.

Lemma netmask_length len p : length (prefix_to_netmask len p).1 = len.
Proof.
  unfold prefix_to_netmask. cbn [fst]. set (e := Nat.min _ _). assert (e <= len)%nat by lia.
  rewrite length_app, length_replicate. destruct (Nat.ltb_spec e len); simpl; rewrite ?length_replicate; lia.
Qed.

Lemma netmask_roundtrip len p : 0 <= p <= 8 * Z.of_nat len -> (len <= 16)%nat ->
  netmask_to_prefix (prefix_to_netmask len p).1 = p /\ (prefix_to_netmask len p).2 = true.
Proof.
  intros Hp Hl. pose proof (netmask_length len p) as Hlen. split; [|by apply Z.leb_le; lia].
  unfold netmask_to_prefix. rewrite Hlen. unfold prefix_to_netmask. cbn [fst].
  destruct (Z.eq_dec p (8 * Z.of_nat len)) as [->|].
  - replace (Nat.min len _) with len by mlia. rewrite Nat.ltb_irrefl, netmask_scan_ones by lia. simpl.
    apply wrapu_id. unfold is_u. lia.
  - replace (Nat.min len _) with (Z.to_nat (p / 8)) by mlia.
    assert (Z.to_nat (p / 8) < len)%nat as Hlt%Nat.ltb_lt by mlia. rewrite Hlt.
    rewrite netmask_scan_ones by mlia. destruct (partial_byte (p mod 8) ltac:(mlia)) as [Hb Hbits]. cbv zeta in Hb, Hbits.
    cbn [netmask_scan]. destruct (Z.eqb_spec (u8 (Z.shiftl 255 (8 - p mod 8))) 255); [done|].
    rewrite Hbits. replace (0 + 8 * Z.of_nat (Z.to_nat (p / 8)) + p mod 8) with p by mlia.
    rewrite (wrapu_id 16), wrapu_id by (unfold is_u; lia). done.
Qed.

(** Bit [i] of the mask is set exactly if [i] is below the prefix length. *)
Lemma abit_app_l a b i : 0 <= i < 8 * Z.of_nat (length a) -> abit (a ++ b) i = abit a i.
Proof. intros. unfold abit. rewrite lookup_app_l; [done|]. mlia. Qed.
Lemma abit_app_r a b i : 8 * Z.of_nat (length a) <= i -> abit (a ++ b) i = abit b (i - 8 * Z.of_nat (length a)).
Proof.
  intros. unfold abit. rewrite lookup_app_r by mlia. f_equal; [|mlia]. do 2 f_equal. mlia.
Qed.

Lemma abit_ones m i : 0 <= i < 8 * Z.of_nat m -> abit (replicate m 255) i = true.
Proof.
  intros. unfold abit. rewrite lookup_replicate_2 by mlia. simpl. change 255 with (Z.ones 8). apply Z.ones_spec_low. mlia.
Qed.
Lemma abit_zeros m i : 0 <= i -> abit (replicate m 0) i = false.
Proof.
  intros. unfold abit. destruct (replicate m 0 !! _) as [x|] eqn:E; [apply lookup_replicate in E as [-> _]|]; apply Z.testbit_0_l.
Qed.

Lemma netmask_bits len p i : 0 <= p <= 8 * Z.of_nat len -> 0 <= i < 8 * Z.of_nat len ->
  abit (prefix_to_netmask len p).1 i = (i <? p).
Proof.
  intros Hp Hi. unfold prefix_to_netmask. cbn [fst]. destruct (Z.eq_dec p (8 * Z.of_nat len)) as [->|].
  - replace (Nat.min len _) with len by mlia. rewrite Nat.ltb_irrefl, app_nil_r, abit_ones by lia. symmetry. apply Z.ltb_lt. lia.
  - replace (Nat.min len _) with (Z.to_nat (p / 8)) by mlia. set (e := Z.to_nat (p / 8)).
    assert (He : 8 * Z.of_nat e + p mod 8 = p) by (subst e; mlia).
    assert (e < len)%nat as Hlt%Nat.ltb_lt by (subst e; mlia). rewrite Hlt.
    destruct (Z.lt_ge_cases i (8 * Z.of_nat e)).
    + rewrite abit_app_l, abit_ones by (rewrite ?length_replicate; lia). symmetry. apply Z.ltb_lt. mlia.
    + rewrite abit_app_r by (rewrite length_replicate; lia). rewrite length_replicate.
      remember (i - 8 * Z.of_nat e) as j eqn:Hj. change (?b :: ?r) with ([b] ++ r).
      destruct (Z.lt_ge_cases j 8).
      * rewrite abit_app_l by (simpl; lia). unfold abit. rewrite (Z.div_small j), (Z.mod_small j) by lia. simpl.
        unfold wrapu. rewrite Z.mod_pow2_bits_low by lia. rewrite Z.shiftl_spec by lia. change 255 with (Z.ones 8).
        destruct (Z.ltb_spec i p); [apply Z.ones_spec_low|apply Z.testbit_neg_r]; mlia.
      * rewrite abit_app_r by (simpl; lia). rewrite abit_zeros by (simpl; lia). symmetry. apply Z.ltb_ge. mlia.
Qed.

(** [ip_prefix_is_v6_inetgw] compares [3 / 8 = 0] bytes. *)
Lemma v6_inetgw_ignores_address a o : ip_prefix_is_v6_inetgw (mkPfx a 3 o) = true.
Proof. done. Qed.

(** Prefix lengths and netmasks correspond: for every prefix length that
    fits the address, the mask has exactly the leading bits set, the conversion
    reports success, and the mask converts back to the length. *)
Theorem netmask_correct len p : (len <= 16)%nat -> 0 <= p <= 8 * Z.of_nat len ->
  (forall i, 0 <= i < 8 * Z.of_nat len -> abit (prefix_to_netmask len p).1 i = (i <? p)) /\
  (prefix_to_netmask len p).2 = true /\ netmask_to_prefix (prefix_to_netmask len p).1 = p.
Proof.
  intros Hl Hp. destruct (netmask_roundtrip len p Hp Hl). split; [|done]. intros i Hi. by apply netmask_bits.
Qed.

Lemma netmask_correct_witness :
  (forall i, 0 <= i < 32 -> abit (prefix_to_netmask 4 19).1 i = (i <? 19)) /\
  (prefix_to_netmask 4 19).2 = true /\ netmask_to_prefix (prefix_to_netmask 4 19).1 = 19.
Proof. apply (netmask_correct 4 19); lia. Defined.
