(* ===== verification/IpLists.v ===== *)
(** * Prefix lists and access control ([olsr_ip_prefix_list.c], [olsr_ip_acl.c])

    The lists of [common/list.h] that hold the entries are the sequences that
    [Lists] proves them to represent. *)
From S2P Require Import Prelude AvlHeap AvlTree AvlRefine AvlSpec Types Comparators IpCalc.

Abbreviation prefix_list := (list olsr_ip_prefix) (only parsing).

Definition ip_prefix_list_flush (l : prefix_list) : prefix_list := [].

(** [list_add_before] on the head appends. *)
Definition ip_prefix_list_add (l : prefix_list) (net : ip_addr) (prefix_len : Z) : prefix_list :=
  l ++ [mkPfx net prefix_len 0].

Definition same_net (ip_version : Z) (net : ip_addr) (len : Z) (h : olsr_ip_prefix) : bool :=
  (ipcmp ip_version net (prefix h) =? 0) && (prefix_len h =? len).

(** Removes the first entry that matches. *)
Fixpoint ip_prefix_list_remove (l : prefix_list) (net : ip_addr) (len : Z) (ip_version : Z) : prefix_list * Z :=
  match l with
  | [] => ([], 0)
  | h :: l =>
    if same_net ip_version net len h then (l, 1)
    else let '(l', r) := ip_prefix_list_remove l net len ip_version in (h :: l', r)
  end.

Fixpoint ip_prefix_list_find (l : prefix_list) (net : ip_addr) (len : Z) (ip_version : Z) : option olsr_ip_prefix :=
  match l with
  | [] => None
  | h :: l =>
    if (len =? prefix_len h) && (ipcmp ip_version net (prefix h) =? 0) then Some h
    else ip_prefix_list_find l net len ip_version
  end.

Record ip_acl := mkAcl {
  accept : prefix_list;
  reject : prefix_list;
  first_accept : bool;
  default_accept : bool
}.

Definition ip_acl_init : ip_acl := mkAcl [] [] false false.
Definition ip_acl_flush (acl : ip_acl) : ip_acl :=
  mkAcl (ip_prefix_list_flush (accept acl)) (ip_prefix_list_flush (reject acl)) (first_accept acl) (default_accept acl).
Definition ip_acl_add (acl : ip_acl) (net : ip_addr) (len : Z) (rej : bool) : ip_acl :=
  if rej then mkAcl (accept acl) (ip_prefix_list_add (reject acl) net len) (first_accept acl) (default_accept acl)
  else mkAcl (ip_prefix_list_add (accept acl) net len) (reject acl) (first_accept acl) (default_accept acl).
Definition ip_acl_remove (acl : ip_acl) (net : ip_addr) (len : Z) (rej : bool) (ip_version : Z) : ip_acl :=
  if rej then mkAcl (accept acl) (ip_prefix_list_remove (reject acl) net len ip_version).1 (first_accept acl) (default_accept acl)
  else mkAcl (ip_prefix_list_remove (accept acl) net len ip_version).1 (reject acl) (first_accept acl) (default_accept acl).

(** The loop over one of the two lists. *)
Fixpoint acl_run (l : prefix_list) (ip : ip_addr) (ip_version : Z) : bool :=
  match l with
  | [] => false
  | e :: l => if ip_in_net ip e ip_version then true else acl_run l ip ip_version
  end.

Definition ip_acl_acceptable (acl : ip_acl) (ip : ip_addr) (ip_version : Z) : bool :=
  let first := if first_accept acl then accept acl else reject acl in
  let second := if first_accept acl then reject acl else accept acl in
  if acl_run first ip ip_version then first_accept acl
  else if acl_run second ip ip_version then negb (first_accept acl)
  else default_accept acl.

(** ** Theorems *)

(** An address is in a list of networks: it agrees with one of them on the bits of its prefix. *)
Definition covered (l : prefix_list) (ip : ip_addr) : Prop :=
  exists n, n ∈ l /\ forall i, 0 <= i < prefix_len n -> abit ip i = abit (prefix n) i.

Definition valid_nets (v : Z) (l : prefix_list) : Prop :=
  Forall (fun n => bytes (prefix n) /\ 0 <= prefix_len n <= (if v =? AF_INET then 32 else 128)) l.

Lemma acl_run_spec v l ip : bytes ip -> valid_nets v l -> acl_run l ip v = true <-> covered l ip.
Proof.
  intros Hip. induction 1 as [|n l [Hb Hl] _ IH]; simpl.
  { split; [done|]. intros (n & Hn & _). set_solver. }
  pose proof (ip_in_net_spec v ip n Hip Hb Hl) as Hs. destruct (ip_in_net ip n v).
  - split; [intros _; exists n; split; [left|by apply Hs]|done].
  - rewrite IH. split.
    + intros (m & Hm & Hc). exists m. split; [by right|done].
    + intros (m & [->|Hm]%elem_of_cons & Hc); [by apply Hs in Hc|by exists m].
Qed.

Lemma remove_spec v net len l :
  match head (filter (fun h => same_net v net len h = true) l) with
  | None => ip_prefix_list_remove l net len v = (l, 0)
  | Some h => exists l1 l2, l = l1 ++ h :: l2 /\ Forall (fun x => same_net v net len x = false) l1 /\
      ip_prefix_list_remove l net len v = (l1 ++ l2, 1)
  end.
Proof.
  induction l as [|h l IH]; [done|]. rewrite filter_cons. cbn [ip_prefix_list_remove].
  destruct (same_net v net len h) eqn:E.
  - rewrite decide_True by done. by exists [], l.
  - rewrite decide_False by done. destruct (head _) as [x|].
    + destruct IH as (l1 & l2 & -> & HF & R). exists (h :: l1), l2. rewrite R.
      split_and!; [done|by constructor|done].
    + by rewrite IH.
Qed.

Lemma find_add v l net len : length net = 16%nat -> exists h, ip_prefix_list_find (ip_prefix_list_add l net len) net len v = Some h /\
  prefix_len h = len /\ ipcmp v net (prefix h) = 0.
Proof.
  intros Hn. unfold ip_prefix_list_add. induction l as [|h l IH]; simpl.
  - rewrite Z.eqb_refl. assert (ipcmp v net net = 0) as E.
    { unfold ipcmp. case_match; [apply (comp_refl (comp := ip4cmp))|apply (comp_refl (comp := ip6cmp))]. }
    rewrite E. simpl. eexists. split; [done|]. done.
  - destruct ((len =? prefix_len h) && (ipcmp v net (prefix h) =? 0)) eqn:E; [|done].
    apply andb_true_iff in E as [E1%Z.eqb_eq E2%Z.eqb_eq]. exists h. by split_and!.
Qed.

(** The access control list decides by networks: an address is covered by
    a list if it agrees with one of its networks on all bits of the prefix; the
    list that has precedence is asked first, then the other one, and an address
    that neither covers gets the default. *)
Theorem acl_correct acl ip v : bytes ip -> valid_nets v (accept acl) -> valid_nets v (reject acl) ->
  ip_acl_acceptable acl ip v = true <->
  (if first_accept acl then covered (accept acl) ip \/ (~ covered (reject acl) ip /\ default_accept acl = true)
   else ~ covered (reject acl) ip /\ (covered (accept acl) ip \/ default_accept acl = true)).
Proof.
  intros Hip Ha Hr. unfold ip_acl_acceptable. pose proof (acl_run_spec v (accept acl) ip Hip Ha) as S1. pose proof (acl_run_spec v (reject acl) ip Hip Hr) as S2.
  destruct (first_accept acl), (acl_run (accept acl) ip v), (acl_run (reject acl) ip v); naive_solver.
Qed.

Definition demo_acl : ip_acl :=
  mkAcl [mkPfx ([10; 1; 0; 0] ++ replicate 12 0) 16 0] [mkPfx ([10; 0; 0; 0] ++ replicate 12 0) 8 0] true true.
Lemma acl_correct_witness :
  ip_acl_acceptable demo_acl ([10; 1; 2; 3] ++ replicate 12 0) AF_INET = true <->
  covered (accept demo_acl) ([10; 1; 2; 3] ++ replicate 12 0) \/ (~ covered (reject demo_acl) ([10; 1; 2; 3] ++ replicate 12 0) /\ true = true).
Proof.
  apply (acl_correct demo_acl ([10; 1; 2; 3] ++ replicate 12 0) AF_INET); [by apply (bool_decide_unpack _)|..];
    (constructor; [split; [by apply (bool_decide_unpack _)|done]|constructor]).
Defined.
