(* ===== verification/Hashing.v ===== *)
(** * Address hashing ([hashing.c], [hashing.h]) *)
From S2P Require Import Prelude Types.

Definition HASHSIZE : Z := 128.
Definition HASHMASK : Z := HASHSIZE - 1.

(** One line of [__jhash_mix]: [x -= y; x -= z; x ^= s]. *)
Definition mix1 (x y z s : Z) : Z := Z.lxor (u32 (u32 (x - y) - z)) s.

Definition jhash_mix (abc : Z * Z * Z) : Z * Z * Z :=
  let '(a, b, c) := abc in
  let a := mix1 a b c (Z.shiftr c 13) in
  let b := mix1 b c a (u32 (Z.shiftl a 8)) in
  let c := mix1 c a b (Z.shiftr b 13) in
  let a := mix1 a b c (Z.shiftr c 12) in
  let b := mix1 b c a (u32 (Z.shiftl a 16)) in
  let c := mix1 c a b (Z.shiftr b 5) in
  let a := mix1 a b c (Z.shiftr c 3) in
  let b := mix1 b c a (u32 (Z.shiftl a 10)) in
  let c := mix1 c a b (Z.shiftr b 15) in
  (a, b, c).

(** [k[i]], as an unsigned 32-bit number shifted to byte [s]. *)
Definition kb (k : list Z) (i : nat) (s : Z) : Z := u32 (Z.shiftl (default 0 (k !! i)) (8 * s)).
Definition word (k : list Z) (i : nat) : Z := kb k i 0 + kb k (i + 1) 1 + kb k (i + 2) 2 + kb k (i + 3) 3.

(** The loop over blocks of 12 bytes; returns the state and the rest of the key. *)
Fixpoint jhash_blocks (fuel : nat) (k : list Z) (abc : Z * Z * Z) : list Z * (Z * Z * Z) :=
  match fuel with
  | O => (k, abc)
  | S fuel =>
    if (12 <=? length k)%nat then
      let '(a, b, c) := abc in
      jhash_blocks fuel (drop 12 k) (jhash_mix (u32 (a + word k 0), u32 (b + word k 4), u32 (c + word k 8)))
    else (k, abc)
  end.

(** The [switch] on the rest: its cases fall through. *)
Definition jhash_rest (k : list Z) (abc : Z * Z * Z) : Z * Z * Z :=
  let '(a, b, c) := abc in
  let len := length k in
  let add x i s := if (i <? len)%nat then u32 (x + kb k i s) else x in
  let c := add (add (add c 10%nat 3) 9%nat 2) 8%nat 1 in
  let b := add (add (add (add b 7%nat 3) 6%nat 2) 5%nat 1) 4%nat 0 in
  let a := add (add (add (add a 3%nat 3) 2%nat 2) 1%nat 1) 0%nat 0 in
  (a, b, c).

Definition jenkins_hash (k : list Z) : Z :=
  let init := 2654435769 in
  let '(r, (a, b, c)) := jhash_blocks (length k) k (init, init, 0) in
  let '(_, _, h) := jhash_mix (jhash_rest r (a, b, u32 (c + Z.of_nat (length k)))) in h.

Definition olsr_ip_hashing (ip_version : Z) (address : ip_addr) : Z :=
  let hash :=
    if ip_version =? AF_INET then jenkins_hash (take 4 address)
    else if ip_version =? AF_INET6 then jenkins_hash (take 16 address)
    else 0 in
  Z.land hash HASHMASK.

(** ** The hash is a bucket number *)
Lemma hashing_range v a : 0 <= olsr_ip_hashing v a < HASHSIZE.
Proof.
  unfold olsr_ip_hashing. change HASHMASK with (Z.ones 7). rewrite Z.land_ones by lia.
  change HASHSIZE with (2 ^ 7). apply Z.mod_pos_bound. lia.
Qed.

(** ** Mixing loses no information

    Every line of the mixing can be undone, so [jhash_mix] is injective on
    triples of 32-bit numbers. *)
Definition unmix1 (x y z s : Z) : Z := u32 (Z.lxor x s + y + z).

Lemma lxor_u32 x y : is_u 32 x -> is_u 32 y -> is_u 32 (Z.lxor x y).
Proof.
  intros Hx Hy. unfold is_u in *. split; [apply Z.lxor_nonneg; lia|].
  destruct (Z.eq_dec (Z.lxor x y) 0) as [->|]; [done|].
  assert (0 <= Z.lxor x y) by (apply Z.lxor_nonneg; lia).
  apply Z.log2_lt_pow2; [lia|]. eapply Z.le_lt_trans; [apply Z.log2_lxor; lia|].
  apply Z.max_lub_lt.
  - destruct (Z.eq_dec x 0) as [->|]; [done|]. apply Z.log2_lt_pow2; lia.
  - destruct (Z.eq_dec y 0) as [->|]; [done|]. apply Z.log2_lt_pow2; lia.
Qed.

Lemma mix1_range x y z s : is_u 32 s -> is_u 32 (mix1 x y z s).
Proof. intros. apply lxor_u32; [apply wrapu_range; lia|done]. Qed.

Lemma unmix1_mix1 x y z s : is_u 32 x -> unmix1 (mix1 x y z s) y z s = x.
Proof.
  intros Hx. unfold unmix1, mix1. rewrite Z.lxor_assoc, Z.lxor_nilpotent, Z.lxor_0_r.
  unfold wrapu, is_u in *. rewrite Zminus_mod_idemp_l.
  rewrite <- Z.add_assoc, Zplus_mod_idemp_l. replace (x - y - z + (y + z)) with x by lia.
  by apply Z.mod_small.
Qed.

Lemma shiftr_u32 x n : is_u 32 x -> 0 <= n -> is_u 32 (Z.shiftr x n).
Proof.
  unfold is_u. intros Hx Hn. rewrite Z.shiftr_div_pow2 by lia.
  assert (0 < 2 ^ n) by (apply Z.pow_pos_nonneg; lia). split; [apply Z.div_pos; lia|].
  eapply Z.le_lt_trans; [apply Z.div_le_upper_bound with (q := x)|]; [lia| |lia]. nia.
Qed.

Definition u32_3 (abc : Z * Z * Z) : Prop := is_u 32 abc.1.1 /\ is_u 32 abc.1.2 /\ is_u 32 abc.2.

(** The inverse, line by line in reverse order. *)
Definition jhash_unmix (abc : Z * Z * Z) : Z * Z * Z :=
  let '(a, b, c) := abc in
  let c := unmix1 c a b (Z.shiftr b 15) in
  let b := unmix1 b c a (u32 (Z.shiftl a 10)) in
  let a := unmix1 a b c (Z.shiftr c 3) in
  let c := unmix1 c a b (Z.shiftr b 5) in
  let b := unmix1 b c a (u32 (Z.shiftl a 16)) in
  let a := unmix1 a b c (Z.shiftr c 12) in
  let c := unmix1 c a b (Z.shiftr b 13) in
  let b := unmix1 b c a (u32 (Z.shiftl a 8)) in
  let a := unmix1 a b c (Z.shiftr c 13) in
  (a, b, c).

#[local] Hint Resolve mix1_range shiftr_u32 : olsr.
Lemma wrapu_range32 x : is_u 32 (u32 x).
Proof. apply wrapu_range. lia. Qed.
#[local] Hint Resolve wrapu_range32 : olsr.
#[local] Hint Extern 1 (0 <= _) => lia : olsr.

Lemma jhash_unmix_mix abc : u32_3 abc -> jhash_unmix (jhash_mix abc) = abc.
Proof.
  destruct abc as [[a b] c]. intros (Ha & Hb & Hc). simpl in Ha, Hb, Hc. unfold jhash_mix.
  set (a1 := mix1 a b c (Z.shiftr c 13)). assert (A1 : is_u 32 a1) by (subst a1; auto with olsr).
  set (b1 := mix1 b c a1 (u32 (Z.shiftl a1 8))). assert (B1 : is_u 32 b1) by (subst b1; auto with olsr).
  set (c1 := mix1 c a1 b1 (Z.shiftr b1 13)). assert (C1 : is_u 32 c1) by (subst c1; auto with olsr).
  set (a2 := mix1 a1 b1 c1 (Z.shiftr c1 12)). assert (A2 : is_u 32 a2) by (subst a2; auto with olsr).
  set (b2 := mix1 b1 c1 a2 (u32 (Z.shiftl a2 16))). assert (B2 : is_u 32 b2) by (subst b2; auto with olsr).
  set (c2 := mix1 c1 a2 b2 (Z.shiftr b2 5)). assert (C2 : is_u 32 c2) by (subst c2; auto with olsr).
  set (a3 := mix1 a2 b2 c2 (Z.shiftr c2 3)).
  set (b3 := mix1 b2 c2 a3 (u32 (Z.shiftl a3 10))).
  unfold jhash_unmix. rewrite (unmix1_mix1 c2) by done. subst b3. rewrite (unmix1_mix1 b2) by done.
  subst a3. rewrite (unmix1_mix1 a2) by done. subst c2. rewrite (unmix1_mix1 c1) by done.
  subst b2. rewrite (unmix1_mix1 b1) by done. subst a2. rewrite (unmix1_mix1 a1) by done.
  subst c1. rewrite (unmix1_mix1 c) by done. subst b1. rewrite (unmix1_mix1 b) by done.
  subst a1. by rewrite (unmix1_mix1 a) by done.
Qed.

(** The mixing step of the hash is injective on triples of 32-bit words:
    no two keys are merged by a round of it. *)
Theorem hash_mix_injective abc abc' : u32_3 abc -> u32_3 abc' -> jhash_mix abc = jhash_mix abc' -> abc = abc'.
Proof. intros H H' E. rewrite <- (jhash_unmix_mix abc H), <- (jhash_unmix_mix abc' H'). by rewrite E. Qed.

Lemma hash_mix_injective_witness : (1, 2, 3) = (1, 2, 3).
Proof. apply (hash_mix_injective (1, 2, 3) (1, 2, 3)); [repeat split; done..|reflexivity]. Defined.
