(* ===== verification/Clock.v ===== *)
(** * Internal clock ([olsr_clock.c], [olsr_clock.h])

    The internal time is a 32-bit count of milliseconds. The system clock,
    which [os_gettimeofday] reads, is an argument of the operations. *)
From S2P Require Import Prelude.

Record timeval := mkTv { tv_sec : Z; tv_usec : Z }.

Record clock := mkClock {
  now_times : Z;
  first_tv : timeval;
  last_tv : timeval
}.

(** [(tv.tv_sec - first.tv_sec) * 1000 + (tv.tv_usec - first.tv_usec) / 1000],
    with the division of C, which rounds towards zero. *)
Definition elapsed (tv first : timeval) : Z :=
  (tv_sec tv - tv_sec first) * 1000 + Z.quot (tv_usec tv - tv_usec first) 1000.

Definition time_jump (tv last : timeval) : bool :=
  (tv_sec tv <? tv_sec last) || ((tv_sec tv =? tv_sec last) && (tv_usec tv <? tv_usec last))
  || (tv_sec tv - tv_sec last >? 60).

(** The new origin of the time line after a jump. *)
Definition rebase (tv : timeval) (t : Z) : timeval :=
  let sec := tv_sec tv - t / 1000 in
  let usec := tv_usec tv - (t mod 1000) * 1000 in
  if usec <? 0 then mkTv (sec - 1) (usec + 1000000) else mkTv sec usec.

Definition olsr_clock_update (c : clock) (tv : timeval) : clock :=
  let first :=
    if time_jump tv (last_tv c) then rebase tv (u32 (u32 (elapsed (last_tv c) (first_tv c)) + 1))
    else first_tv c in
  mkClock (u32 (elapsed tv first)) first tv.

Definition olsr_clock_init (tv tv' : timeval) : clock := olsr_clock_update (mkClock 0 tv tv) tv'.

Definition olsr_clock_getAbsolute (now relative : Z) : Z := u32 (now + relative).

Definition olsr_clock_getRelative (now absolute : Z) : Z :=
  if absolute >? now then
    let diff := u32 (absolute - now) in
    if diff >? 2 ^ 31 then - s32 (4294967295 - diff) else s32 diff
  else
    let diff := u32 (now - absolute) in
    if diff >? 2 ^ 31 then s32 (4294967295 - diff) else - s32 diff.

Definition olsr_clock_isPast (now absolute : Z) : bool :=
  if absolute >? now then u32 (absolute - now) >? 2 ^ 31 else u32 (now - absolute) <=? 2 ^ 31.

(** ** Mantissa and exponent *)

(** The loop that halves the interval; a 32-bit number takes less than 32 rounds. *)
Fixpoint encode_exp (fuel : nat) (unscaled b : Z) : Z :=
  match fuel with
  | O => b
  | S fuel => if unscaled >=? 62 then encode_exp fuel (Z.shiftr unscaled 1) (u8 (b + 1)) else b
  end.

Definition olsr_clock_encode_olsrv1 (interval : Z) : Z :=
  let b := encode_exp 32 interval 0 in
  let '(a, b) :=
    if 0 <? b then
      let b := u8 (b - 1) in
      if 15 <? b then (15, 15) else (u8 (Z.shiftr interval (b + 2) - 15), b)
    else (0, b) in
  u8 (Z.shiftl a 4 + b).

(** [None]: the assertion fails. *)
Definition olsr_clock_decode_olsrv1 (me : Z) : option Z :=
  let a := Z.shiftr me 4 in
  let b := Z.land me 15 in
  if b >=? 8 then Some (u32 (Z.shiftl (16 + a) (b - 8) * 1000))
  else
    let v := Z.shiftr ((16 + a) * 1000) (8 - b) in
    if me =? olsr_clock_encode_olsrv1 v then Some v else None.

(** ** Text, as the codes of its characters *)
Definition isdigit (c : Z) : bool := (48 <=? c) && (c <=? 57).

(** Decimal digits of a number, most significant first ([%u]). *)
Fixpoint digits_rev (fuel : nat) (x : Z) : list Z :=
  match fuel with
  | O => []
  | S fuel => (48 + x mod 10) :: (if x / 10 =? 0 then [] else digits_rev fuel (x / 10))
  end.
Definition fmt_u (x : Z) : list Z := rev (digits_rev 10 x).
Definition fmt_03u (x : Z) : list Z := [48 + x / 100 mod 10; 48 + x / 10 mod 10; 48 + x mod 10].

Definition olsr_clock_to_string (t : Z) : list Z := fmt_u (t / 1000) ++ [46] ++ fmt_03u (t mod 1000).

(** The first loop; the text ends where the list ends. *)
Fixpoint parse_loop (fuel : nat) (txt : list Z) (t : Z) (fractionDigits : Z) (frac : bool) : Z * Z :=
  match fuel with
  | O => (t, fractionDigits)
  | S fuel =>
    match txt with
    | [] => (t, fractionDigits)
    | c :: rest =>
      if fractionDigits <? 3 then
        let '(txt, frac) := if (c =? 46) && negb frac then (rest, true) else (txt, frac) in
        match txt with
        | [] => (t, fractionDigits)
        | c :: rest =>
          if negb (isdigit c) then (t, fractionDigits)
          else parse_loop fuel rest (u32 (t * 10 + (c - 48))) (if frac then fractionDigits + 1 else fractionDigits) frac
        end
      else (t, fractionDigits)
    end
  end.

Fixpoint pad_loop (fuel : nat) (t fractionDigits : Z) : Z :=
  match fuel with
  | O => t
  | S fuel => if fractionDigits <? 3 then pad_loop fuel (u32 (t * 10)) (fractionDigits + 1) else t
  end.

Definition olsr_clock_parse_string (txt : list Z) : Z :=
  let '(t, fd) := parse_loop (S (length txt)) txt 0 0 false in pad_loop 4 t fd.

(** ** The clock never runs backwards *)
Definition valid_tv (tv : timeval) : Prop := 0 <= tv_usec tv < 1000000.

Lemma rebase_valid tv t : valid_tv tv -> 0 <= t -> valid_tv (rebase tv t).
Proof.
  unfold valid_tv, rebase. intros Hv Ht. destruct (Z.ltb_spec (tv_usec tv - t mod 1000 * 1000) 0); simpl; mlia.
Qed.

Lemma rebase_elapsed tv t : 0 <= t -> elapsed tv (rebase tv t) = t.
Proof.
  intros Ht. unfold elapsed, rebase. destruct (Z.ltb_spec (tv_usec tv - t mod 1000 * 1000) 0); simpl.
  - replace (tv_usec tv - (tv_usec tv - t mod 1000 * 1000 + 1000000)) with ((t mod 1000 - 1000) * 1000) by lia.
    rewrite Z.quot_mul by lia. mlia.
  - replace (tv_usec tv - (tv_usec tv - t mod 1000 * 1000)) with ((t mod 1000) * 1000) by lia.
    rewrite Z.quot_mul by lia. mlia.
Qed.

Lemma quot_bounds x : (0 <= x -> Z.quot x 1000 = x / 1000) /\ (x <= 0 -> Z.quot x 1000 = - ((- x) / 1000)).
Proof.
  split; intros.
  - by rewrite Z.quot_div_nonneg by lia.
  - rewrite <- (Z.opp_involutive x) at 1. rewrite Z.quot_opp_l by lia. by rewrite Z.quot_div_nonneg by lia.
Qed.

Lemma elapsed_mono first tv1 tv2 :
  valid_tv first -> valid_tv tv1 -> valid_tv tv2 ->
  tv_sec tv1 < tv_sec tv2 \/ (tv_sec tv1 = tv_sec tv2 /\ tv_usec tv1 <= tv_usec tv2) ->
  elapsed tv1 first <= elapsed tv2 first.
Proof.
  unfold valid_tv, elapsed. intros Hf H1 H2 Hle.
  pose proof (quot_bounds (tv_usec tv1 - tv_usec first)) as [Q1 Q1'].
  pose proof (quot_bounds (tv_usec tv2 - tv_usec first)) as [Q2 Q2'].
  destruct (Z.le_ge_cases 0 (tv_usec tv1 - tv_usec first)) as [A|A];
    destruct (Z.le_ge_cases 0 (tv_usec tv2 - tv_usec first)) as [B|B];
    rewrite ?Q1, ?Q1', ?Q2, ?Q2' by done; clear Q1 Q1' Q2 Q2'; mlia.
Qed.

(** A jump of the system clock advances the internal clock by one millisecond. *)
Lemma update_jump c tv :
  time_jump tv (last_tv c) = true ->
  now_times (olsr_clock_update c tv) = u32 (u32 (elapsed (last_tv c) (first_tv c)) + 1).
Proof.
  intros HJ. unfold olsr_clock_update. rewrite HJ. simpl.
  rewrite rebase_elapsed by (apply Z.mod_pos_bound; lia).
  unfold wrapu. by rewrite Z.mod_mod by lia.
Qed.

(** State of a running clock: the internal time is the one of the last update. *)
Record clock_ok (c : clock) : Prop := {
  ck_first : valid_tv (first_tv c);
  ck_last : valid_tv (last_tv c);
  ck_now : now_times c = u32 (elapsed (last_tv c) (first_tv c))
}.

Lemma update_ok c tv : clock_ok c -> valid_tv tv -> clock_ok (olsr_clock_update c tv).
Proof.
  intros [H1 H2 H3] Hv. unfold olsr_clock_update. split; simpl; [|done|done].
  destruct (time_jump tv (last_tv c)); [|done]. apply rebase_valid; [done|]. apply Z.mod_pos_bound. lia.
Qed.

Lemma update_forward c tv :
  clock_ok c -> valid_tv tv -> time_jump tv (last_tv c) = false ->
  elapsed (last_tv c) (first_tv c) <= elapsed tv (first_tv c) /\
  first_tv (olsr_clock_update c tv) = first_tv c.
Proof.
  intros [H1 H2 H3] Hv HJ. unfold olsr_clock_update. rewrite HJ. split; [|done].
  unfold time_jump in HJ. apply elapsed_mono; try done.
  apply orb_false_iff in HJ as [[A B]%orb_false_iff _]. apply Z.ltb_ge in A.
  apply andb_false_iff in B as [B|B]; [apply Z.eqb_neq in B; lia|apply Z.ltb_ge in B]. lia.
Qed.

(** ** Relative times *)
Lemma relative_exact now absolute :
  is_u 32 now -> is_u 32 absolute -> - 2 ^ 31 < absolute - now < 2 ^ 31 ->
  olsr_clock_getRelative now absolute = absolute - now.
Proof.
  unfold is_u. intros Hn Ha Hd. unfold olsr_clock_getRelative. rewrite !Z.gtb_ltb.
  destruct (Z.ltb_spec now absolute); rewrite wrapu_id by (unfold is_u; lia).
  - destruct (Z.ltb_spec (2 ^ 31) (absolute - now)); [lia|]. apply wraps_id; simpl; lia.
  - destruct (Z.ltb_spec (2 ^ 31) (now - absolute)); [lia|]. rewrite wraps_id by (simpl; lia). lia.
Qed.

(** Across the wrap-around of the counter the result is one millisecond short. *)
Lemma relative_wrapped now relative :
  is_u 32 now -> 0 < relative < 2 ^ 31 -> 2 ^ 32 <= now + relative ->
  olsr_clock_getRelative now (olsr_clock_getAbsolute now relative) = relative - 1.
Proof.
  unfold is_u. intros Hn Hr Hw. unfold olsr_clock_getRelative, olsr_clock_getAbsolute.
  assert (u32 (now + relative) = now + relative - 2 ^ 32) as ->.
  { unfold wrapu. symmetry. apply Z.mod_unique with (q := 1); lia. }
  rewrite !Z.gtb_ltb. destruct (Z.ltb_spec now (now + relative - 2 ^ 32)); [lia|].
  rewrite wrapu_id by (unfold is_u; lia).
  destruct (Z.ltb_spec (2 ^ 31) (now - (now + relative - 2 ^ 32))); [|lia].
  rewrite wraps_id by (simpl; lia). lia.
Qed.

(** A timestamp in the future is not past, until it is reached. *)
Lemma isPast_spec now relative elapsed :
  is_u 32 now -> 0 < relative < 2 ^ 31 -> 0 <= elapsed < 2 ^ 31 + relative ->
  olsr_clock_isPast (u32 (now + elapsed)) (olsr_clock_getAbsolute now relative) = (relative <=? elapsed).
Proof.
  unfold is_u. intros Hn Hr He. unfold olsr_clock_isPast, olsr_clock_getAbsolute, wrapu.
  change (2 ^ 32) with 4294967296. change (2 ^ 32) with 4294967296 in Hn. change (2 ^ 31) with 2147483648 in *.
  pose proof (Z.div_mod (now + elapsed) 4294967296 ltac:(lia)) as E1.
  pose proof (Z.mod_pos_bound (now + elapsed) 4294967296 ltac:(lia)) as B1.
  pose proof (Z.div_mod (now + relative) 4294967296 ltac:(lia)) as E2.
  pose proof (Z.mod_pos_bound (now + relative) 4294967296 ltac:(lia)) as B2.
  set (a := (now + elapsed) mod 4294967296) in *. set (b := (now + relative) mod 4294967296) in *.
  rewrite !Z.gtb_ltb. destruct (Z.ltb_spec a b).
  - rewrite Z.mod_small by lia. destruct (Z.ltb_spec 2147483648 (b - a)), (Z.leb_spec relative elapsed); lia.
  - rewrite Z.mod_small by lia. destruct (Z.leb_spec (a - b) 2147483648), (Z.leb_spec relative elapsed); lia.
Qed.

(** ** Mantissa and exponent *)

(** Decides a statement about all 8-bit numbers. *)
Lemma forall_u8 (P : Z -> bool) : forallb P (seqZ 0 256) = true -> forall x, 0 <= x < 256 -> P x = true.
Proof.
  intros H x Hx. apply (proj1 (List.forallb_forall P _) H). apply list_elem_of_In, elem_of_seqZ. lia.
Qed.

Lemma decode_encode me : 0 <= me < 256 ->
  exists v, olsr_clock_decode_olsrv1 me = Some v /\ olsr_clock_encode_olsrv1 v = me.
Proof.
  intros Hm.
  pose proof (forall_u8 (fun me => match olsr_clock_decode_olsrv1 me with
    | Some v => olsr_clock_encode_olsrv1 v =? me | None => false end) ltac:(by vm_compute) me Hm) as H.
  cbv beta in H. destruct (olsr_clock_decode_olsrv1 me) as [v|]; [|done]. exists v. split; [done|]. by apply Z.eqb_eq.
Qed.

Lemma encode_exp_spec f : forall x b, 0 <= x < 62 * 2 ^ Z.of_nat f -> 0 <= b -> b + Z.of_nat f < 256 ->
  exists n, 0 <= n <= Z.of_nat f /\ encode_exp f x b = b + n /\ x / 2 ^ n < 62 /\ (0 < n -> 31 <= x / 2 ^ n).
Proof.
  induction f as [|f IH]; intros x b Hx Hb Hf; cbn [encode_exp].
  { exists 0. change (2 ^ 0) with 1. rewrite Z.div_1_r. simpl in *. split_and!; lia. }
  rewrite Z.geb_leb. destruct (Z.leb_spec 62 x).
  - rewrite wrapu_id by (unfold is_u; lia). rewrite Z.shiftr_div_pow2 by lia. change (2 ^ 1) with 2.
    rewrite Nat2Z.inj_succ, Z.pow_succ_r in Hx by lia.
    destruct (IH (x / 2) (b + 1)) as (n & Hn & E & H1 & H2); [|lia|lia|].
    { split; [mlia|]. apply Z.div_lt_upper_bound; lia. }
    exists (n + 1). rewrite Z.pow_add_r, (Z.mul_comm (2 ^ n)) by lia. change (2 ^ 1) with 2.
    rewrite <- Z.div_div by (try apply Z.pow_nonzero; try apply Z.pow_pos_nonneg; lia).
    split_and!; [lia|lia|lia|done|]. intros _. destruct (Z.eq_dec n 0) as [->|]; [change (2 ^ 0) with 1; rewrite Z.div_1_r; mlia|apply H2; lia].
  - exists 0. change (2 ^ 0) with 1. rewrite Z.div_1_r. split_and!; lia.
Qed.

(** The result is a mantissa of four bits and an exponent of four bits. *)
Lemma encode_fields x : is_u 32 x ->
  exists a b, 0 <= a < 16 /\ 0 <= b < 16 /\ olsr_clock_encode_olsrv1 x = 16 * a + b.
Proof.
  unfold is_u. intros Hx. destruct (encode_exp_spec 32 x 0) as (n & Hn & E & H1 & H2); [simpl; lia..|].
  unfold olsr_clock_encode_olsrv1. rewrite E, Z.add_0_l. destruct (Z.ltb_spec 0 n).
  - rewrite (wrapu_id 8 (n - 1)) by (unfold is_u; simpl in Hn; lia). destruct (Z.ltb_spec 15 (n - 1)).
    + exists 15, 15. done.
    + replace (n - 1 + 2) with (n + 1) by lia. rewrite Z.shiftr_div_pow2, Z.pow_add_r by lia. change (2 ^ 1) with 2.
      rewrite <- Z.div_div by (try apply Z.pow_nonzero; lia). specialize (H2 ltac:(lia)).
      exists (x / 2 ^ n / 2 - 15), (n - 1). rewrite (wrapu_id 8 (_ - 15)) by (unfold is_u; mlia).
      rewrite Z.shiftl_mul_pow2 by lia. split_and!; [mlia..|]. rewrite wrapu_id; [|unfold is_u]; mlia.
  - assert (n = 0) as -> by lia. by exists 0, 0.
Qed.

(** ** Printing and parsing *)
Definition dec_val (ds : list Z) (t : Z) : Z := fold_left (fun t c => t * 10 + (c - 48)) ds t.
Definition is_digits (ds : list Z) : Prop := Forall (fun c => isdigit c = true) ds.

Lemma digit_ok d : 0 <= d < 10 -> isdigit (48 + d) = true.
Proof. intros. unfold isdigit. apply andb_true_iff. split; apply Z.leb_le; lia. Qed.

Lemma digits_rev_ok f : forall x, 0 <= x < 10 ^ Z.of_nat f -> (0 < f)%nat ->
  is_digits (digits_rev f x) /\ dec_val (rev (digits_rev f x)) 0 = x.
Proof.
  induction f as [|f IH]; intros x Hx Hf; [lia|]. cbn [digits_rev].
  assert (isdigit (48 + x mod 10) = true) by (apply digit_ok; mlia).
  destruct (Z.eqb_spec (x / 10) 0).
  - split; [by repeat constructor|]. simpl. mlia.
  - rewrite Nat2Z.inj_succ, Z.pow_succ_r in Hx by lia.
    destruct (IH (x / 10)) as [IH1 IH2].
    { split; [mlia|]. apply Z.div_lt_upper_bound; lia. }
    { destruct f; [simpl in Hx; mlia|lia]. }
    split; [by constructor|]. simpl. unfold dec_val in *. rewrite fold_left_app. simpl. rewrite IH2. mlia.
Qed.

Lemma parse_digits ds : forall f rest t, is_digits ds -> (length ds <= f)%nat ->
  parse_loop f (ds ++ rest) (u32 t) 0 false = parse_loop (f - length ds) rest (u32 (dec_val ds t)) 0 false.
Proof.
  induction ds as [|c ds IH]; intros f rest t Hd Hf; simpl.
  { by rewrite Nat.sub_0_r. }
  apply Forall_cons in Hd as [Hc Hd]. destruct f as [|f]; simpl in Hf; [lia|]. cbn [parse_loop].
  assert ((c =? 46) = false) as -> by (unfold isdigit in Hc; apply Z.eqb_neq; intros ->; done). simpl. rewrite Hc. simpl.
  replace (u32 (u32 t * 10 + (c - 48))) with (u32 (t * 10 + (c - 48))).
  2: { unfold wrapu. rewrite <- (Zplus_mod_idemp_l (t mod _ * 10)), Zmult_mod_idemp_l, Zplus_mod_idemp_l. done. }
  apply IH; [done|lia].
Qed.

Lemma parse_frac t a b c : isdigit a = true -> isdigit b = true -> isdigit c = true ->
  parse_loop 5 [46; a; b; c] t 0 false = (u32 (u32 (u32 (t * 10 + (a - 48)) * 10 + (b - 48)) * 10 + (c - 48)), 3).
Proof.
  intros Ha Hb Hc. cbn [parse_loop]. change (0 <? 3) with true. cbv iota. simpl (46 =? 46). cbn [andb negb].
  rewrite Ha. cbn [negb]. change (0 + 1) with 1. change (1 <? 3) with true. cbv iota. rewrite andb_false_r, Hb. cbn [negb].
  change (1 + 1) with 2. change (2 <? 3) with true. cbv iota. by rewrite andb_false_r, Hc.
Qed.

(** Printing a time as seconds and milliseconds and parsing the text
    gives the time back. *)
Theorem clock_string_roundtrip t : is_u 32 t -> olsr_clock_parse_string (olsr_clock_to_string t) = t.
Proof.
  unfold is_u. intros Ht. unfold olsr_clock_parse_string, olsr_clock_to_string, fmt_u.
  destruct (digits_rev_ok 10 (t / 1000)) as [D1 D2]; [split; [mlia|simpl; mlia]|lia|].
  set (ds := rev (digits_rev 10 (t / 1000))) in *.
  assert (Hds : is_digits ds) by (by apply List.Forall_rev).
  change 0 with (u32 0) at 1. rewrite length_app. rewrite parse_digits by (done || simpl; lia). rewrite D2.
  replace (S (length ds + length ([46%Z] ++ fmt_03u (t mod 1000)%Z)) - length ds)%nat with 5%nat by (simpl; lia).
  unfold fmt_03u. rewrite (wrapu_id 32 (t / 1000)) by (unfold is_u; mlia). simpl app.
  rewrite parse_frac by (apply digit_ok; mlia). cbn [pad_loop]. change (3 <? 3) with false. cbv iota.
  unwrap ltac:(mlia). mlia.
Qed.

(** ** Accuracy of the time encoding *)
Lemma encode_case b v : 0 <= b <= 15 -> 31 * 2 ^ (b + 1) <= v < 62 * 2 ^ (b + 1) ->
  olsr_clock_encode_olsrv1 v = 16 * (v / 2 ^ (b + 2) - 15) + b.
Proof.
  intros Hb Hv. destruct (encode_exp_spec 32 v 0) as (n & Hn & E & H1 & H2).
  { split; [pose proof (Z.pow_pos_nonneg 2 (b + 1)); lia|]. assert (2 ^ (b + 1) <= 2 ^ 16) by (apply Z.pow_le_mono_r; lia). simpl. lia. }
  { lia. }
  { simpl. lia. }
  assert (n = b + 1) as ->.
  { destruct (Z.lt_trichotomy n (b + 1)) as [Hlt|[|Hgt]]; [|done|].
    - assert (2 ^ (b + 1) = 2 ^ n * 2 ^ (b + 1 - n)) as Ep by (rewrite <- Z.pow_add_r by lia; f_equal; lia).
      assert (2 <= 2 ^ (b + 1 - n)) by (change 2 with (2 ^ 1) at 1; apply Z.pow_le_mono_r; lia).
      pose proof (Z.pow_pos_nonneg 2 n). pose proof (Z.mul_div_le v (2 ^ n)). pose proof (Z.mul_succ_div_gt v (2 ^ n)). nia.
    - assert (2 ^ n = 2 ^ (b + 1) * 2 ^ (n - (b + 1))) as Ep by (rewrite <- Z.pow_add_r by lia; f_equal; lia).
      assert (2 <= 2 ^ (n - (b + 1))) by (change 2 with (2 ^ 1) at 1; apply Z.pow_le_mono_r; lia).
      specialize (H2 ltac:(lia)). pose proof (Z.pow_pos_nonneg 2 n). pose proof (Z.pow_pos_nonneg 2 (b + 1)).
      pose proof (Z.mul_div_le v (2 ^ n)). nia. }
  unfold olsr_clock_encode_olsrv1. rewrite E, Z.add_0_l, (proj2 (Z.ltb_lt 0 (b + 1))) by lia.
  replace (b + 1 - 1) with b by lia. rewrite (wrapu_id 8 b) by (unfold is_u; lia). rewrite (proj2 (Z.ltb_ge 15 b)) by lia.
  specialize (H2 ltac:(lia)). rewrite Z.shiftr_div_pow2 by lia.
  assert (v / 2 ^ (b + 2) = v / 2 ^ (b + 1) / 2) as ->.
  { rewrite Z.div_div by (try apply Z.pow_nonzero; lia). f_equal. replace (b + 2) with (b + 1 + 1) by lia. by rewrite (Z.pow_add_r 2 (b + 1) 1) by lia. }
  rewrite (wrapu_id 8 (_ - 15)) by (unfold is_u; mlia). rewrite Z.shiftl_mul_pow2 by lia. rewrite wrapu_id; [|unfold is_u]; mlia.
Qed.

Lemma decode_case q b : 15 <= q <= 30 -> 0 <= b <= 15 ->
  exists w, olsr_clock_decode_olsrv1 (16 * (q - 15) + b) = Some w /\ 256 * w <= (q + 1) * 1000 * 2 ^ b < 256 * (w + 1).
Proof.
  intros Hq Hb. set (me := 16 * (q - 15) + b). assert (Hme : 0 <= me < 256) by lia.
  assert (Eq : me / 16 + 15 = q) by (subst me; mlia). assert (Eb : me mod 16 = b) by (subst me; mlia).
  pose proof (forall_u8 (fun me => match olsr_clock_decode_olsrv1 me with
    | Some w => (256 * w <=? (me / 16 + 15 + 1) * 1000 * 2 ^ (me mod 16)) && ((me / 16 + 15 + 1) * 1000 * 2 ^ (me mod 16) <? 256 * (w + 1))
    | None => false end) ltac:(by vm_compute) me Hme) as H. cbv beta in H. rewrite Eq, Eb in H.
  destruct (olsr_clock_decode_olsrv1 me) as [w|]; [|done]. exists w. split; [done|]. apply andb_prop in H as [H1%Z.leb_le H2%Z.ltb_lt]. lia.
Qed.

Lemma vtime_accuracy v : 62 <= v < 62 * 2 ^ 16 ->
  exists w, olsr_clock_decode_olsrv1 (olsr_clock_encode_olsrv1 v) = Some w /\ 15 * v <= 16 * w <= 17 * v.
Proof.
  intros Hv. assert (exists b, 0 <= b <= 15 /\ 31 * 2 ^ (b + 1) <= v < 62 * 2 ^ (b + 1)) as (b & Hb & Hr).
  { set (l := Z.log2 (v / 31)). assert (1 < v / 31 + 1) by mlia. assert (0 < v / 31) by mlia.
    destruct (Z.log2_spec (v / 31)) as [L1 L2]; [lia|]. fold l in L1, L2.
    assert (1 <= l) by (subst l; apply Z.log2_le_pow2; mlia).
    assert (l < 17) by (subst l; apply Z.log2_lt_pow2; mlia).
    exists (l - 1). replace (l - 1 + 1) with l by lia. split; [lia|]. replace (Z.succ l) with (l + 1) in L2 by lia.
    rewrite Z.pow_add_r in L2 by lia. mlia. }
  rewrite (encode_case b v Hb Hr). set (q := v / 2 ^ (b + 2)).
  assert (E4 : 2 ^ (b + 2) = 4 * 2 ^ b) by (rewrite Z.pow_add_r by lia; lia).
  assert (E2 : 2 ^ (b + 1) = 2 * 2 ^ b) by (rewrite Z.pow_add_r by lia; lia).
  pose proof (Z.pow_pos_nonneg 2 b ltac:(lia) ltac:(lia)) as Hp.
  pose proof (Z.mul_div_le v (2 ^ (b + 2)) ltac:(lia)) as D1. pose proof (Z.mul_succ_div_gt v (2 ^ (b + 2)) ltac:(lia)) as D2. fold q in D1, D2.
  assert (15 <= q <= 30) by nia. destruct (decode_case q b) as (w & Hw & W1 & W2); [done..|]. exists w. split; [done|]. nia.
Qed.

(** The one-byte encoding of times by mantissa and exponent: every byte
    decodes (the assertion in the decoder cannot fail), to a time whose encoding
    is the byte again, and a time of 62 ms up to 4063 s that is sent as one byte
    arrives with an error of at most one sixteenth. *)
Theorem vtime_codec :
  (forall me, 0 <= me < 256 -> exists v, olsr_clock_decode_olsrv1 me = Some v /\ olsr_clock_encode_olsrv1 v = me) /\
  (forall v, 62 <= v < 62 * 2 ^ 16 ->
    exists w, olsr_clock_decode_olsrv1 (olsr_clock_encode_olsrv1 v) = Some w /\ 15 * v <= 16 * w <= 17 * v).
Proof. split; [apply decode_encode|apply vtime_accuracy]. Qed.

(** ** The internal clock *)
Lemma elapsed_step first tv1 tv2 : valid_tv first -> valid_tv tv1 -> valid_tv tv2 -> tv_sec tv2 - tv_sec tv1 <= 60 ->
  elapsed tv2 first <= elapsed tv1 first + 61000.
Proof.
  unfold valid_tv, elapsed. intros Hf H1 H2 Hle.
  pose proof (quot_bounds (tv_usec tv1 - tv_usec first)) as [Q1 Q1'].
  pose proof (quot_bounds (tv_usec tv2 - tv_usec first)) as [Q2 Q2'].
  destruct (Z.le_ge_cases 0 (tv_usec tv1 - tv_usec first)) as [A|A];
    destruct (Z.le_ge_cases 0 (tv_usec tv2 - tv_usec first)) as [B|B];
    rewrite ?Q1, ?Q1', ?Q2, ?Q2' by done; clear Q1 Q1' Q2 Q2'; mlia.
Qed.

(** Whatever the system clock does, an update never moves the internal
    clock backwards and never by more than 61 seconds; when the system clock
    jumps, back or by more than a minute, the internal clock advances by exactly
    one millisecond. The invariant of the clock is kept. *)
Theorem clock_advances c tv : clock_ok c -> valid_tv tv ->
  exists d, now_times (olsr_clock_update c tv) = u32 (now_times c + d) /\ 0 <= d <= 61000 /\
    (time_jump tv (last_tv c) = true -> d = 1) /\ clock_ok (olsr_clock_update c tv).
Proof.
  intros Hc Hv. pose proof (update_ok c tv Hc Hv) as Hc'. destruct (time_jump tv (last_tv c)) eqn:HJ.
  - exists 1. rewrite update_jump by done. rewrite (ck_now _ Hc). split_and!; done || lia.
  - destruct (update_forward c tv Hc Hv HJ) as [Hle Hf]. destruct Hc as [H1 H2 H3].
    exists (elapsed tv (first_tv c) - elapsed (last_tv c) (first_tv c)).
    assert (tv_sec tv - tv_sec (last_tv c) <= 60).
    { unfold time_jump in HJ. apply orb_false_iff in HJ as [_ HJ]. rewrite Z.gtb_ltb in HJ. by apply Z.ltb_ge in HJ. }
    pose proof (elapsed_step (first_tv c) (last_tv c) tv H1 H2 Hv ltac:(done)).
    split; [|split_and!; done || lia]. rewrite (ck_now _ Hc'), Hf, H3. unfold wrapu. rewrite Zplus_mod_idemp_l.
    f_equal. change (last_tv (olsr_clock_update c tv)) with tv. lia.
Qed.

Lemma vtime_codec_witness :
  (exists v, olsr_clock_decode_olsrv1 231 = Some v /\ olsr_clock_encode_olsrv1 v = 231) /\
  exists w, olsr_clock_decode_olsrv1 (olsr_clock_encode_olsrv1 2048) = Some w /\ 15 * 2048 <= 16 * w <= 17 * 2048.
Proof. split; [apply (proj1 vtime_codec 231)|apply (proj2 vtime_codec 2048)]; lia. Defined.

(** A clock that was updated 7.25 s after its start, and a system clock that is
    set back. *)
Definition demo_clock : clock := mkClock 7250 (mkTv 100 900000) (mkTv 108 150000).
Lemma clock_advances_witness :
  exists d, now_times (olsr_clock_update demo_clock (mkTv 50 0)) = u32 (7250 + d) /\ 0 <= d <= 61000 /\
    (time_jump (mkTv 50 0) (last_tv demo_clock) = true -> d = 1) /\ clock_ok (olsr_clock_update demo_clock (mkTv 50 0)).
Proof. apply (clock_advances demo_clock (mkTv 50 0)); [split; unfold valid_tv; simpl; try lia; done|unfold valid_tv; simpl; lia]. Defined.

Lemma clock_string_roundtrip_witness : olsr_clock_parse_string (olsr_clock_to_string 4294967295) = 4294967295.
Proof. by apply (clock_string_roundtrip 4294967295). Defined.
