(* ===== verification/Timer.v ===== *)
(** * Timers ([olsr_timer.c], [olsr_timer.h])

    A timer hangs in the slot [timer_clock & TIMER_WHEEL_MASK] of a wheel of 1024
    lists. The lists are the sequences of addresses that [Lists] proves them to
    be; [tmp_list] is the list [olsr_timer_walk] collects the visited timers in.
    Results of [random()] are the sequence [rnd]. *)
From S2P Require Import Prelude Memcookie Clock.

Definition TIMER_WHEEL_SLOTS : Z := 1024.
Definition TIMER_WHEEL_MASK : Z := TIMER_WHEEL_SLOTS - 1.
Definition RAND_MAX : Z := 2147483647.

Record olsr_timer_info := mkInfo {
  ti_callback : Z;
  ti_periodic : bool;
  ti_usage : Z;
  ti_changes : Z
}.

Record olsr_timer_entry := mkTimer {
  timer_info : loc;
  timer_clock : Z;
  timer_period : Z;
  timer_jitter_pct : Z;
  timer_running : bool;
  timer_in_callback : bool;
  timer_random : Z;
  timer_cb_context : loc
}.

Record timer_st := mkTimers {
  timer_wheel : gmap Z (list loc);
  tmp_list : list loc;
  timers : gmap loc olsr_timer_entry;
  timer_infos : gmap loc olsr_timer_info;
  timer_last_run : Z;
  now : Z;
  rand_pos : nat
}.

(** A state that contains the timers of the daemon. *)
Class HasTimers (S : Type) := {
  get_timers : S -> timer_st;
  put_timers : timer_st -> S -> S;
  get_put_timers : forall T s, get_timers (put_timers T s) = T
}.

#[global] Instance timers_self : HasTimers timer_st := {|
  get_timers := fun T => T; put_timers := fun T _ => T; get_put_timers := fun _ _ => eq_refl |}.
#[global] Instance timers_pair C : HasTimers (timer_st * C) := {|
  get_timers := fst; put_timers := fun T s => (T, s.2); get_put_timers := fun _ _ => eq_refl |}.

Definition on_timers {S A} `{HasTimers S} (m : SE timer_st A) : SE S A := fun s =>
  match m (get_timers s) with
  | Some (T, a) => Some (put_timers T s, a)
  | None => None
  end.

Abbreviation TM := (SE timer_st).

(** ** Memory of the timers *)
Definition slot (T : timer_st) (k : Z) : list loc := default [] (timer_wheel T !! k).
Definition slot_of (clock : Z) : Z := Z.land clock TIMER_WHEEL_MASK.

Definition with_wheel w tmp (T : timer_st) : timer_st :=
  mkTimers w tmp (timers T) (timer_infos T) (timer_last_run T) (now T) (rand_pos T).
Definition with_timers ts (T : timer_st) : timer_st :=
  mkTimers (timer_wheel T) (tmp_list T) ts (timer_infos T) (timer_last_run T) (now T) (rand_pos T).
Definition with_infos is_ (T : timer_st) : timer_st :=
  mkTimers (timer_wheel T) (tmp_list T) (timers T) is_ (timer_last_run T) (now T) (rand_pos T).
Definition with_last_run r (T : timer_st) : timer_st :=
  mkTimers (timer_wheel T) (tmp_list T) (timers T) (timer_infos T) r (now T) (rand_pos T).

Definition rd_timer (p : loc) : TM olsr_timer_entry := fun T => (fun t => (T, t)) <$> timers T !! p.
Definition wr_timer (p : loc) (g : olsr_timer_entry -> olsr_timer_entry) : TM unit := fun T =>
  (fun t => (with_timers (<[p := g t]> (timers T)) T, tt)) <$> timers T !! p.
Definition free_timer (p : loc) : TM unit := fun T =>
  (fun _ => (with_timers (delete p (timers T)) T, tt)) <$> timers T !! p.
Definition rd_info (i : loc) : TM olsr_timer_info := fun T => (fun x => (T, x)) <$> timer_infos T !! i.
Definition wr_info (i : loc) (g : olsr_timer_info -> olsr_timer_info) : TM unit := fun T =>
  (fun x => (with_infos (<[i := g x]> (timer_infos T)) T, tt)) <$> timer_infos T !! i.

Definition linked_in (T : timer_st) (p : loc) : Prop :=
  p ∈ tmp_list T \/ map_Exists (fun _ l => p ∈ l) (timer_wheel T).
#[global] Instance linked_in_dec T p : Decision (linked_in T p).
Proof. unfold linked_in. apply _. Defined.

(** [list_remove]; an entity that is not in a list has null pointers, which the
    function dereferences. *)
Definition tl_remove (p : loc) : TM unit := fun T =>
  if decide (linked_in T p) then
    Some (with_wheel (remove_node p <$> timer_wheel T) (remove_node p (tmp_list T)) T, tt)
  else None.
(** [list_add_before] on the head of slot [k]. *)
Definition tl_append (k : Z) (p : loc) : TM unit := se_mod (fun T =>
  with_wheel (<[k := slot T k ++ [p]]> (timer_wheel T)) (tmp_list T) T).
(** [list_add_after] on the head of the temporary list. *)
Definition tl_push_tmp (p : loc) : TM unit := se_mod (fun T =>
  with_wheel (timer_wheel T) (p :: tmp_list T) T).
(** [list_merge] of the temporary list into slot [k]. *)
Definition tl_merge (k : Z) : TM unit := se_mod (fun T =>
  with_wheel (<[k := tmp_list T ++ slot T k]> (timer_wheel T)) [] T).

Section timer.
Context (rnd : nat -> Z).

Definition random : TM Z := fun T =>
  Some (mkTimers (timer_wheel T) (tmp_list T) (timers T) (timer_infos T) (timer_last_run T) (now T) (S (rand_pos T)),
    rnd (rand_pos T)).

(** ** Operations *)
Definition olsr_timer_init (clock_now : Z) (rpos : nat) : timer_st := mkTimers ∅ [] ∅ ∅ clock_now clock_now rpos.

Definition olsr_timer_add (callback : Z) (periodic : bool) : TM loc := fun T =>
  let i := fresh (dom (timer_infos T)) in
  Some (with_infos (<[i := mkInfo callback periodic 0 0]> (timer_infos T)) T, i).

Definition calc_jitter (now rel_time jitter_pct random_val : Z) : Z :=
  if (jitter_pct =? 0) || (jitter_pct >? 99) || (rel_time >? 2 ^ 24) then olsr_clock_getAbsolute now rel_time
  else
    let jitter_time := u32 (jitter_pct * rel_time) / 100 in
    let jitter_time := random_val / (1 + RAND_MAX / (jitter_time + 1)) in
    olsr_clock_getAbsolute now (u32 (rel_time - jitter_time)).

Definition olsr_timer_start (rel_time jitter_pct : Z) (context : loc) (ti : loc) : TM loc :=
  info ← rd_info ti;
  se_assert (negb (rel_time =? 0));;
  se_assert (jitter_pct <=? 100);;
  timer ← se_get (fun T => fresh (dom (timers T)));
  r ← random;
  nw ← se_get now;
  let clock := calc_jitter nw rel_time jitter_pct r in
  wr_info ti (fun i => mkInfo (ti_callback i) (ti_periodic i) (u32 (ti_usage i + 1)) (u32 (ti_changes i + 1)));;
  se_mod (fun T => with_timers (<[timer :=
    mkTimer ti clock (if ti_periodic info then rel_time else 0) jitter_pct true false r context]> (timers T)) T);;
  tl_append (slot_of clock) timer;;
  mret timer.

Definition olsr_timer_stop (timer : option loc) : TM unit :=
  match timer with
  | None => mret tt
  | Some p =>
    t ← rd_timer p;
    rd_info (timer_info t);;
    tl_remove p;;
    wr_timer p (fun t => mkTimer (timer_info t) (timer_clock t) (timer_period t) (timer_jitter_pct t) false
      (timer_in_callback t) (timer_random t) (timer_cb_context t));;
    wr_info (timer_info t) (fun i => mkInfo (ti_callback i) (ti_periodic i) (u32 (ti_usage i - 1)) (u32 (ti_changes i + 1)));;
    if timer_in_callback t then mret tt else free_timer p
  end.

Definition olsr_timer_change (timer : option loc) (rel_time jitter_pct : Z) : TM unit :=
  match timer with
  | None => mret tt
  | Some p =>
    t ← rd_timer p;
    info ← rd_info (timer_info t);
    nw ← se_get now;
    let clock := calc_jitter nw rel_time jitter_pct (timer_random t) in
    wr_timer p (fun t => mkTimer (timer_info t) clock (if ti_periodic info then rel_time else 0) jitter_pct
      (timer_running t) (timer_in_callback t) (timer_random t) (timer_cb_context t));;
    tl_remove p;;
    tl_append (slot_of clock) p
  end.

(** Returns the new value of the pointer. *)
Definition olsr_timer_set (timer : option loc) (rel_time jitter_pct : Z) (context : loc) (ti : loc) : TM (option loc) :=
  rd_info ti;;
  if rel_time =? 0 then olsr_timer_stop timer;; mret None
  else match timer with
  | None => p ← olsr_timer_start rel_time jitter_pct context ti; mret (Some p)
  | Some p => olsr_timer_change (Some p) rel_time jitter_pct;; mret (Some p)
  end.

(** The body of the loop of [olsr_timer_remove] over one slot; the iteration
    fetches the successor before the timer is stopped. *)
Definition remove_in_slot (info : loc) (k : Z) : TM unit :=
  l ← se_get (fun T => slot T k);
  foldr (fun p m => (t ← rd_timer p; if decide (timer_info t = info) then olsr_timer_stop (Some p) else mret tt);; m) (mret tt) l.

Definition wheel_slots : list Z := seqZ 0 TIMER_WHEEL_SLOTS.

Definition olsr_timer_remove (info : loc) : TM unit :=
  foldr (fun k m => remove_in_slot info k;; m) (mret tt) wheel_slots;;
  rd_info info;;
  se_mod (fun T => with_infos (delete info (timer_infos T)) T).

(** [while (!list_is_empty(slot)) olsr_timer_stop(first)]; [fuel] bounds the rounds. *)
Fixpoint empty_slot (fuel : nat) (k : Z) : TM unit :=
  match fuel with
  | O => se_fail
  | S fuel =>
    l ← se_get (fun T => slot T k);
    match l with
    | [] => mret tt
    | p :: _ => olsr_timer_stop (Some p);; empty_slot fuel k
    end
  end.

Definition olsr_timer_cleanup (fuel : nat) : TM unit :=
  foldr (fun k m => empty_slot fuel k;; m) (mret tt) wheel_slots;;
  se_mod (with_infos ∅).

Definition set_in_callback (b : bool) (t : olsr_timer_entry) : olsr_timer_entry :=
  mkTimer (timer_info t) (timer_clock t) (timer_period t) (timer_jitter_pct t) (timer_running t) b
    (timer_random t) (timer_cb_context t).
Definition set_random (r : Z) (t : olsr_timer_entry) : olsr_timer_entry :=
  mkTimer (timer_info t) (timer_clock t) (timer_period t) (timer_jitter_pct t) (timer_running t) (timer_in_callback t)
    r (timer_cb_context t).

Section walk.
Context {S : Type} `{HasTimers S} (cb : Z -> loc -> SE S unit).

(** What happens to a timer that is due. *)
Definition timer_fire (p : loc) : SE S unit :=
  t ← on_timers (rd_timer p);
  on_timers (wr_timer p (set_in_callback true));;
  info ← on_timers (rd_info (timer_info t));
  cb (ti_callback info) (timer_cb_context t);;
  on_timers (wr_timer p (set_in_callback false));;
  t ← on_timers (rd_timer p);
  on_timers (wr_info (timer_info t) (fun i => mkInfo (ti_callback i) (ti_periodic i) (ti_usage i) (u32 (ti_changes i + 1))));;
  if timer_running t then
    if negb (timer_period t =? 0) then
      on_timers (r ← random; wr_timer p (set_random r);;
        olsr_timer_change (Some p) (timer_period t) (timer_jitter_pct t))
    else on_timers (olsr_timer_stop (Some p))
  else on_timers (free_timer p).

(** The inner loop; [fuel] bounds the number of timers it takes from the slot. *)
Fixpoint walk_slot (fuel : nat) (k : Z) : SE S unit :=
  match fuel with
  | O => se_fail
  | Datatypes.S fuel =>
    l ← on_timers (se_get (fun T => slot T k));
    match l with
    | [] => mret tt
    | p :: _ =>
      on_timers (tl_remove p;; tl_push_tmp p);;
      t ← on_timers (rd_timer p);
      nw ← on_timers (se_get now);
      (if olsr_clock_isPast nw (timer_clock t) then timer_fire p else mret tt);;
      walk_slot fuel k
    end
  end.

(** The outer loop visits at most [n] slots. *)
Fixpoint walk_slots (fuel n : nat) : SE S unit :=
  match n with
  | O => mret tt
  | Datatypes.S n =>
    T ← on_timers (se_get (fun T => T));
    if timer_last_run T <=? now T then
      let k := Z.land (timer_last_run T) TIMER_WHEEL_MASK in
      on_timers (se_mod (fun T => with_wheel (timer_wheel T) [] T));;
      walk_slot fuel k;;
      on_timers (tl_merge k);;
      on_timers (se_mod (fun T => with_last_run (u32 (timer_last_run T + 1)) T));;
      walk_slots fuel n
    else mret tt
  end.

Definition olsr_timer_walk (fuel : nat) : SE S unit :=
  walk_slots fuel (Z.to_nat TIMER_WHEEL_SLOTS);;
  on_timers (se_mod (fun T => with_last_run (now T) T)).
End walk.
End timer.

(** ** Jitter *)

(** A timer fires at most [jitter_pct] percent early, never late, and never at once. *)
Lemma calc_jitter_range nw rel pct r :
  0 < rel < 2 ^ 32 -> 0 <= pct <= 100 -> 0 <= r <= RAND_MAX ->
  exists d, calc_jitter nw rel pct r = olsr_clock_getAbsolute nw d /\ 0 < d <= rel /\ rel - rel * pct / 100 <= d.
Proof.
  unfold RAND_MAX. intros Hrel Hp Hr. unfold calc_jitter. rewrite !Z.gtb_ltb.
  assert (H0 : 0 <= rel * pct / 100) by (apply Z.div_pos; nia).
  destruct (Z.eqb_spec pct 0); [exists rel; split; [done|lia]|].
  destruct (Z.ltb_spec 99 pct); [exists rel; split; [done|lia]|].
  destruct (Z.ltb_spec (2 ^ 24) rel); [exists rel; split; [done|lia]|]. simpl orb. cbv iota zeta.
  assert (Hpr : 0 <= pct * rel <= 99 * 2 ^ 24) by nia.
  rewrite (wrapu_id 32 (pct * rel)) by (unfold is_u; lia). rewrite (Z.mul_comm pct rel).
  set (j := rel * pct / 100). assert (Hj : 0 <= j < rel) by (subst j; split; [done|apply Z.div_lt_upper_bound; nia]).
  unfold RAND_MAX. set (q := 1 + 2147483647 / (j + 1)).
  assert (Hq : 0 < q) by (assert (0 <= 2147483647 / (j + 1)) by (apply Z.div_pos; lia); lia).
  assert (Hlt : r / q <= j).
  { apply Z.lt_succ_r, Z.div_lt_upper_bound; [done|]. subst q.
    pose proof (Z.mul_succ_div_gt 2147483647 (j + 1) ltac:(lia)). lia. }
  assert (0 <= r / q) by (apply Z.div_pos; lia).
  exists (rel - r / q). rewrite wrapu_id by (unfold is_u; lia). split; [done|]. lia.
Qed.

Lemma jitter_not_past nw rel pct r :
  is_u 32 nw -> 0 < rel < 2 ^ 31 -> 0 <= pct <= 100 -> 0 <= r <= RAND_MAX ->
  olsr_clock_isPast nw (calc_jitter nw rel pct r) = false.
Proof.
  intros Hn Hrel Hp Hr. destruct (calc_jitter_range nw rel pct r) as (d & -> & Hd & _); [lia|done..|].
  pose proof (isPast_spec nw d 0 Hn ltac:(lia) ltac:(lia)) as H.
  rewrite Z.add_0_r, wrapu_id in H by done. rewrite H. apply Z.leb_gt. lia.
Qed.

(** ** The wheel *)
Record timers_ok (T : timer_st) : Prop := {
  w_slot : forall k p, p ∈ slot T k -> exists t, timers T !! p = Some t /\ slot_of (timer_clock t) = k;
  w_nodup : forall k, NoDup (slot T k);
  w_tmp : forall p, p ∈ tmp_list T -> is_Some (timers T !! p) /\ forall k, p ∉ slot T k;
  w_tmp_nodup : NoDup (tmp_list T);
  w_linked : forall p t, timers T !! p = Some t -> timer_running t = true ->
    (p ∈ tmp_list T) \/ p ∈ slot T (slot_of (timer_clock t));
  w_info : forall p t, timers T !! p = Some t -> is_Some (timer_infos T !! timer_info t)
}.

Lemma slot_remove T p k : slot (with_wheel (remove_node p <$> timer_wheel T) (remove_node p (tmp_list T)) T) k = remove_node p (slot T k).
Proof. unfold slot. simpl. rewrite lookup_fmap. by destruct (timer_wheel T !! k). Qed.

Lemma slot_append T w tmp k p k' :
  slot (with_wheel (<[k := slot T k ++ [p]]> w) tmp T) k' = if decide (k = k') then slot T k ++ [p] else default [] (w !! k').
Proof. unfold slot. simpl. rewrite lookup_insert. by case_decide. Qed.

Lemma elem_of_remove_node p q l : q ∈ remove_node p l <-> q ∈ l /\ q <> p.
Proof. unfold remove_node. rewrite list_elem_of_filter. tauto. Qed.
Lemma NoDup_remove_node p l : NoDup l -> NoDup (remove_node p l).
Proof. apply NoDup_filter. Qed.

Lemma linked_in_slot T p : linked_in T p <-> (p ∈ tmp_list T) \/ exists k, p ∈ slot T k.
Proof.
  unfold linked_in, slot. split; (intros [?|Hw]; [by left|right]).
  - destruct Hw as (k & l & E & ?). exists k. by rewrite E.
  - destruct Hw as (k & Hk). destruct (timer_wheel T !! k) as [l|] eqn:E; simpl in Hk; [|set_solver]. by exists k, l.
Qed.

(** The states the operations lead to. *)
Definition unlink (p : loc) (T : timer_st) : timer_st :=
  with_wheel (remove_node p <$> timer_wheel T) (remove_node p (tmp_list T)) T.
Definition append (k : Z) (p : loc) (T : timer_st) : timer_st :=
  with_wheel (<[k := slot T k ++ [p]]> (timer_wheel T)) (tmp_list T) T.

Lemma slot_unlink T p k : slot (unlink p T) k = remove_node p (slot T k).
Proof. apply slot_remove. Qed.
Lemma slot_app T k p k' : slot (append k p T) k' = if decide (k = k') then slot T k ++ [p] else slot T k'.
Proof. unfold append. rewrite slot_append. done. Qed.

(** Taking a timer off its list leaves only that timer unlinked. *)
Lemma unlink_facts T p : timers_ok T ->
  (forall k q, q ∈ slot (unlink p T) k <-> q ∈ slot T k /\ q <> p) /\
  (forall k, NoDup (slot (unlink p T) k)) /\ NoDup (tmp_list (unlink p T)) /\
  (forall q, q ∈ tmp_list (unlink p T) <-> q ∈ tmp_list T /\ q <> p).
Proof.
  intros [W1 W2 W3 W4 W5 W6]. split_and!.
  - intros k q. by rewrite slot_unlink, elem_of_remove_node.
  - intros k. rewrite slot_unlink. by apply NoDup_remove_node.
  - simpl. by apply NoDup_remove_node.
  - intros q. simpl. apply elem_of_remove_node.
Qed.

(** Deleting or stopping the entry after unlinking it. *)
Lemma stopped_ok T p t ts :
  timers_ok T -> timers T !! p = Some t ->
  (ts = delete p (timers T) \/ exists t', ts = <[p := t']> (timers T) /\ timer_running t' = false /\ timer_info t' = timer_info t) ->
  forall is_, (forall i, is_Some (timer_infos T !! i) -> is_Some (is_ !! i)) ->
  timers_ok (with_infos is_ (with_timers ts (unlink p T))).
Proof.
  intros Ok Hp Hts is_ Hi. destruct (unlink_facts T p Ok) as (U1 & U2 & U3 & U4). destruct Ok as [W1 W2 W3 W4 W5 W6].
  assert (Hne : forall q, q <> p -> ts !! q = timers T !! q).
  { intros q Hq. destruct Hts as [->|(t' & -> & _)]; [by rewrite lookup_delete_ne|by rewrite lookup_insert_ne]. }
  change (slot (with_infos is_ (with_timers ts (unlink p T)))) with (slot (unlink p T)).
  split; simpl.
  - intros k q [Hq Hn]%U1. rewrite Hne by done. by apply W1.
  - apply U2.
  - intros q [Hq Hn]%U4. rewrite Hne by done. destruct (W3 q Hq) as [? HW]. split; [done|].
    intros k [Hk _]%U1. by apply (HW k).
  - apply U3.
  - intros q t' Hq Hr. destruct (decide (q = p)) as [->|Hn].
    + destruct Hts as [->|(t'' & -> & Hr' & _)]; [by rewrite lookup_delete_eq in Hq|].
      rewrite lookup_insert_eq in Hq. congruence.
    + rewrite Hne in Hq by done. destruct (W5 q t' Hq Hr) as [?|?]; [left; by apply U4|right; by apply U1].
  - intros q t' Hq. apply Hi. destruct (decide (q = p)) as [->|Hn]; [|rewrite Hne in Hq by done; by eapply W6].
    destruct Hts as [->|(t'' & -> & _ & Hi')]; [by rewrite lookup_delete_eq in Hq|].
    rewrite lookup_insert_eq in Hq. injection Hq as <-. rewrite Hi'. by eapply W6.
Qed.

(** Re-inserting it at the slot of its clock. *)
Lemma moved_ok T p t t' :
  timers_ok T -> timers T !! p = Some t -> timer_info t' = timer_info t ->
  timers_ok (append (slot_of (timer_clock t')) p (unlink p (with_timers (<[p := t']> (timers T)) T))).
Proof.
  intros Ok Hp Hinf. set (T1 := with_timers (<[p := t']> (timers T)) T).
  destruct (unlink_facts T p Ok) as (U1 & U2 & U3 & U4). destruct Ok as [W1 W2 W3 W4 W5 W6].
  set (k0 := slot_of (timer_clock t')).
  assert (S1 : forall k, slot (append k0 p (unlink p T1)) k = if decide (k0 = k) then slot (unlink p T) k0 ++ [p] else slot (unlink p T) k)
    by (intros k; etransitivity; [apply slot_app|reflexivity]).
  split.
  - intros k q. rewrite S1. simpl. intros Hq. assert (q = p /\ k0 = k \/ q <> p /\ q ∈ slot T k) as [[-> <-]|[Hn Hk]].
    { case_decide; [subst; apply elem_of_app in Hq as [[? ?]%U1| ->%list_elem_of_singleton]; auto|apply U1 in Hq as [? ?]; auto]. }
    + exists t'. by rewrite lookup_insert_eq.
    + rewrite lookup_insert_ne by done. by apply W1.
  - intros k. rewrite S1. case_decide; [|apply U2]. apply NoDup_app. split; [apply U2|]. split; [|apply NoDup_singleton].
    intros q [_ Hn]%U1 ->%list_elem_of_singleton. done.
  - simpl. intros q [Hq Hn]%U4. rewrite lookup_insert_ne by done. destruct (W3 q Hq) as [? HW]. split; [done|].
    intros k. rewrite S1. intros Hk. case_decide.
    + apply elem_of_app in Hk as [[Hk _]%U1| ->%list_elem_of_singleton]; [by apply (HW k0)|done].
    + apply U1 in Hk as [Hk _]. by apply (HW k).
  - apply U3.
  - simpl. intros q tq Hq Hr. rewrite !S1. destruct (decide (q = p)) as [->|Hn].
    + rewrite lookup_insert_eq in Hq. injection Hq as <-. right. rewrite decide_True by done. set_solver.
    + rewrite lookup_insert_ne in Hq by done. destruct (W5 q tq Hq Hr) as [?|?]; [left; by apply U4|right].
      assert (q ∈ slot (unlink p T) (slot_of (timer_clock tq))) by (by apply U1). case_decide as E; [rewrite E|done]. set_solver.
  - simpl. intros q tq Hq. destruct (decide (q = p)) as [->|Hn].
    + rewrite lookup_insert_eq in Hq. injection Hq as <-. rewrite Hinf. by eapply W6.
    + rewrite lookup_insert_ne in Hq by done. by eapply W6.
Qed.

(** ** Runs of the operations *)
Section runs.
Context (rnd : nat -> Z).

(** Parts of the state that the operations on one timer leave alone. *)
Record same_env (T T' : timer_st) : Prop := {
  se_now : now T' = now T;
  se_last : timer_last_run T' = timer_last_run T;
  se_infos : forall i, is_Some (timer_infos T' !! i) <-> is_Some (timer_infos T !! i);
  se_kind : forall i, (fun x => (ti_periodic x, ti_callback x)) <$> timer_infos T' !! i =
    (fun x => (ti_periodic x, ti_callback x)) <$> timer_infos T !! i
}.

Lemma infos_bump (I : gmap loc olsr_timer_info) i (x y : olsr_timer_info) :
  I !! i = Some x -> (ti_periodic y, ti_callback y) = (ti_periodic x, ti_callback x) ->
  (forall j, is_Some (<[i := y]> I !! j) <-> is_Some (I !! j)) /\
  (forall j, (fun x => (ti_periodic x, ti_callback x)) <$> <[i := y]> I !! j =
    (fun x => (ti_periodic x, ti_callback x)) <$> I !! j).
Proof.
  intros Hi Hy. split; intros j; rewrite lookup_insert; case_decide; subst; try done; rewrite Hi; simpl.
  all: first [by split | by rewrite Hy].
Qed.

Lemma timer_start_run T rel pct ctx ti info :
  timers_ok T -> timer_infos T !! ti = Some info -> rel <> 0 -> pct <= 100 ->
  exists p T', olsr_timer_start rnd rel pct ctx ti T = Some (T', p) /\ timers T !! p = None /\
    timers T' = <[p := mkTimer ti (calc_jitter (now T) rel pct (rnd (rand_pos T)))
      (if ti_periodic info then rel else 0) pct true false (rnd (rand_pos T)) ctx]> (timers T) /\
    timers_ok T' /\ same_env T T' /\ tmp_list T' = tmp_list T.
Proof.
  intros Ok Hti Hrel Hpct. pose proof Ok as [W1 W2 W3 W4 W5 W6]. set (p := fresh (dom (timers T))).
  assert (Hp : timers T !! p = None) by (apply not_elem_of_dom, is_fresh).
  unfold olsr_timer_start. erewrite bind_run by (unfold rd_info; by rewrite Hti).
  rewrite (proj2 (Z.eqb_neq rel 0) Hrel). erewrite bind_run by reflexivity.
  rewrite (proj2 (Z.leb_le pct 100) Hpct). do 4 erewrite bind_run by reflexivity.
  erewrite bind_run by (unfold wr_info; simpl; by rewrite Hti). do 2 erewrite bind_run by reflexivity.
  eexists p, _. split; [reflexivity|]. split; [done|]. split; [done|].
  set (te := mkTimer _ _ _ _ _ _ _ _). set (y := mkInfo _ _ _ _).
  destruct (infos_bump (timer_infos T) ti info y Hti eq_refl) as [B1 B2].
  split; [|split; [by split|done]].
  assert (Hns : forall k, p ∉ slot T k) by (intros k (t & ? & _)%W1; congruence).
  assert (Hnt : p ∉ tmp_list T) by (intros [[t ?] _]%W3; congruence).
  match goal with |- timers_ok ?X => set (T' := X) end.
  assert (S1 : forall k, slot T' k = if decide (slot_of (timer_clock te) = k) then slot T k ++ [p] else slot T k).
  { intros k. etransitivity; [apply slot_append|]. simpl. case_decide; [subst k|]; reflexivity. }
  split; simpl.
  - intros k q. rewrite S1. intros Hq. assert (q = p /\ slot_of (timer_clock te) = k \/ q ∈ slot T k) as [[-> <-]|Hk].
    { case_decide; [subst; apply elem_of_app in Hq as [?| ->%list_elem_of_singleton]; auto|auto]. }
    + exists te. by rewrite lookup_insert_eq.
    + rewrite lookup_insert_ne by (intros <-; by eapply Hns). by apply W1.
  - intros k. rewrite S1. case_decide; [|done]. apply NoDup_app. split; [done|]. split; [|apply NoDup_singleton].
    intros q Hq ->%list_elem_of_singleton. by eapply Hns.
  - intros q Hq. rewrite lookup_insert_ne by (intros <-; done). destruct (W3 q Hq) as [? HW]. split; [done|].
    intros k. rewrite S1. intros Hk. case_decide; [|by apply (HW k)].
    apply elem_of_app in Hk as [Hk| ->%list_elem_of_singleton]; [by apply (HW k)|done].
  - done.
  - intros q tq Hq Hr. rewrite S1. destruct (decide (q = p)) as [->|Hn].
    + rewrite lookup_insert_eq in Hq. injection Hq as <-. right. rewrite decide_True by done. set_solver.
    + rewrite lookup_insert_ne in Hq by done. destruct (W5 q tq Hq Hr) as [?|?]; [by left|right]. case_decide; [set_solver|done].
  - intros q tq Hq. apply B1. destruct (decide (q = p)) as [->|Hn].
    + rewrite lookup_insert_eq in Hq. injection Hq as <-. simpl. eauto.
    + rewrite lookup_insert_ne in Hq by done. by eapply W6.
Qed.

Lemma running_linked T p t : timers_ok T -> timers T !! p = Some t -> timer_running t = true -> linked_in T p.
Proof.
  intros Ok Hp Hr. apply linked_in_slot. destruct (w_linked _ Ok p t Hp Hr); [by left|right; eauto].
Qed.

Lemma tl_remove_run T p : linked_in T p -> tl_remove p T = Some (unlink p T, tt).
Proof. intros H. unfold tl_remove. by rewrite decide_True. Qed.

Definition stop_entry (t : olsr_timer_entry) : olsr_timer_entry :=
  mkTimer (timer_info t) (timer_clock t) (timer_period t) (timer_jitter_pct t) false
    (timer_in_callback t) (timer_random t) (timer_cb_context t).

Lemma timer_stop_run T p t :
  timers_ok T -> timers T !! p = Some t -> timer_running t = true ->
  exists T', olsr_timer_stop (Some p) T = Some (T', tt) /\ timers_ok T' /\ same_env T T' /\
    timers T' = (if timer_in_callback t then <[p := stop_entry t]> (timers T) else delete p (timers T)) /\
    (forall k, slot T' k = remove_node p (slot T k)) /\ tmp_list T' = remove_node p (tmp_list T) /\ rand_pos T' = rand_pos T.
Proof.
  intros Ok Hp Hr. destruct (w_info _ Ok p t Hp) as [info Hi]. cbn [olsr_timer_stop].
  erewrite bind_run by (unfold rd_timer; by rewrite Hp). erewrite bind_run by (unfold rd_info; by rewrite Hi).
  erewrite bind_run by (apply tl_remove_run; by eapply running_linked).
  erewrite bind_run by (unfold wr_timer; simpl; by rewrite Hp).
  erewrite bind_run by (unfold wr_info; simpl; by rewrite Hi). set (y := mkInfo _ _ _ _).
  destruct (infos_bump (timer_infos T) (timer_info t) info y Hi eq_refl) as [B1 B2].
  fold (stop_entry t). destruct (timer_in_callback t) eqn:Ec.
  - eexists. split; [reflexivity|]. split; [|split; [by split|]].
    + eapply (stopped_ok T p t (<[p := stop_entry t]> (timers T)) Ok Hp); [right; by exists (stop_entry t)|]. intros i. apply B1.
    + split; [done|]. split; [|done]. intros k. apply slot_remove.
  - unfold free_timer. simpl. rewrite lookup_insert_eq. simpl. eexists. split; [reflexivity|].
    rewrite delete_insert_eq. split; [|split; [by split|]].
    + exact (stopped_ok T p t (delete p (timers T)) Ok Hp (or_introl eq_refl) _ (fun i => proj2 (B1 i))).
    + split; [done|]. split; [|done]. intros k. apply slot_remove.
Qed.

Definition change_entry (clock period pct : Z) (t : olsr_timer_entry) : olsr_timer_entry :=
  mkTimer (timer_info t) clock period pct (timer_running t) (timer_in_callback t) (timer_random t) (timer_cb_context t).

Lemma timer_change_run T p t info rel pct :
  timers_ok T -> timers T !! p = Some t -> linked_in T p -> timer_infos T !! timer_info t = Some info ->
  let clock := calc_jitter (now T) rel pct (timer_random t) in
  let t' := change_entry clock (if ti_periodic info then rel else 0) pct t in
  exists T', olsr_timer_change (Some p) rel pct T = Some (T', tt) /\ timers_ok T' /\ same_env T T' /\
    timers T' = <[p := t']> (timers T) /\
    (forall k, slot T' k = if decide (slot_of clock = k) then remove_node p (slot T k) ++ [p] else remove_node p (slot T k)) /\
    tmp_list T' = remove_node p (tmp_list T) /\ rand_pos T' = rand_pos T.
Proof.
  intros Ok Hp Hl Hi clock t'. cbn [olsr_timer_change].
  erewrite bind_run by (unfold rd_timer; by rewrite Hp). erewrite bind_run by (unfold rd_info; by rewrite Hi).
  erewrite bind_run by reflexivity. fold clock.
  erewrite bind_run by (unfold wr_timer; simpl; by rewrite Hp).
  erewrite bind_run by (by apply tl_remove_run).
  eexists. split; [reflexivity|]. split; [by apply (moved_ok T p t t')|]. split; [by split|]. split; [done|]. split; [|done].
  intros k. etransitivity; [apply slot_app|]. case_decide; [subst k; f_equal|]; etransitivity; [apply slot_unlink|done|apply slot_unlink|done].
Qed.
End runs.

(** ** Removing timers *)
Section removal.
Lemma elem_of_wheel k : k ∈ wheel_slots <-> 0 <= k < 1024.
Proof. unfold wheel_slots. rewrite elem_of_seqZ. unfold TIMER_WHEEL_SLOTS. lia. Qed.
Opaque wheel_slots.

(** No timer is being processed. *)
Definition idle (T : timer_st) : Prop := tmp_list T = [] /\
  forall p t, timers T !! p = Some t -> timer_running t = true /\ timer_in_callback t = false.

Lemma slot_of_range c : 0 <= slot_of c < 1024.
Proof. unfold slot_of. change TIMER_WHEEL_MASK with (Z.ones 10). rewrite Z.land_ones by lia. apply Z.mod_pos_bound. lia. Qed.

Lemma idle_stop T p t : timers_ok T -> idle T -> timers T !! p = Some t ->
  exists T', olsr_timer_stop (Some p) T = Some (T', tt) /\ timers_ok T' /\ idle T' /\ timers T' = delete p (timers T) /\
    (forall k, slot T' k = remove_node p (slot T k)) /\ (forall i, is_Some (timer_infos T' !! i) <-> is_Some (timer_infos T !! i)).
Proof.
  intros Ok [Ht Hi] Hp. destruct (Hi p t Hp) as [Hr Hc].
  destruct (timer_stop_run T p t Ok Hp Hr) as (T' & R & Ok' & [_ _ E3 _] & Ets & Es & Etmp & _). rewrite Hc in Ets.
  exists T'. split_and!; try done. split; [by rewrite Etmp, Ht|]. intros q tq Hq. rewrite Ets in Hq. apply lookup_delete_Some in Hq as [_ Hq]. by apply (Hi q).
Qed.

Lemma remove_list_run i l : forall T, timers_ok T -> idle T -> NoDup l -> (forall p, p ∈ l -> is_Some (timers T !! p)) ->
  exists T', foldr (fun p m => (t ← rd_timer p; if decide (timer_info t = i) then olsr_timer_stop (Some p) else mret tt);; m) (mret tt) l T = Some (T', tt) /\
    timers_ok T' /\ idle T' /\ (forall j, is_Some (timer_infos T' !! j) <-> is_Some (timer_infos T !! j)) /\
    (forall q t, timers T' !! q = Some t <-> timers T !! q = Some t /\ ~ (q ∈ l /\ timer_info t = i)) /\
    (forall k q, q ∈ slot T' k -> q ∈ slot T k).
Proof.
  induction l as [|p l IH]; intros T Ok Id ND Hl.
  { exists T. split_and!; try done. intros q t. set_solver. }
  apply NoDup_cons in ND as [Hp ND]. destruct (Hl p ltac:(left)) as [t Ht]. simpl.
  erewrite bind2_run by (unfold rd_timer; by rewrite Ht). case_decide as Hi.
  - destruct (idle_stop T p t Ok Id Ht) as (T1 & R & Ok1 & Id1 & Ets & Es & Ei). erewrite bind_run by exact R.
    destruct (IH T1 Ok1 Id1 ND) as (T' & R' & Ok' & Id' & Ei' & Et' & Es').
    { intros q Hq. rewrite Ets, lookup_delete_ne by (intros ->; done). apply Hl. by right. }
    exists T'. split; [exact R'|]. split_and!; try done.
    + intros j. by rewrite Ei', Ei.
    + intros q tq. rewrite Et', Ets, lookup_delete_Some. split.
      * intros [[Hne Hq] Hn]. split; [done|]. intros [[->|?]%elem_of_cons ?]; [done|]. by apply Hn.
      * intros [Hq Hn]. split; [split; [|done]|]; [intros ->; apply Hn; split; [left|congruence]|].
        intros [? ?]. apply Hn. split; [by right|done].
    + intros k q Hq%Es'. rewrite Es in Hq. by apply elem_of_remove_node in Hq as [? _].
  - erewrite bind_run by reflexivity. destruct (IH T Ok Id ND) as (T' & R' & Ok' & Id' & Ei' & Et' & Es'); [intros q Hq; apply Hl; by right|].
    exists T'. split; [exact R'|]. split_and!; try done. intros q tq. rewrite Et'. split; intros [Hq Hn]; (split; [done|]).
    + intros [[->|?]%elem_of_cons ?]; [congruence|by apply Hn].
    + intros [? ?]. apply Hn. split; [by right|done].
Qed.

Lemma remove_slots_run i ks : forall T, timers_ok T -> idle T ->
  exists T', foldr (fun k m => remove_in_slot i k;; m) (mret tt) ks T = Some (T', tt) /\
    timers_ok T' /\ idle T' /\ (forall j, is_Some (timer_infos T' !! j) <-> is_Some (timer_infos T !! j)) /\
    (forall q t, timers T' !! q = Some t -> timers T !! q = Some t /\ (timer_info t = i -> slot_of (timer_clock t) ∉ ks)) /\
    (forall q t, timers T !! q = Some t -> timer_info t <> i -> timers T' !! q = Some t).
Proof.
  induction ks as [|k ks IH]; intros T Ok Id.
  { exists T. split_and!; try done. intros q t Hq. split; [done|]. set_solver. }
  simpl.
  destruct (remove_list_run i (slot T k) T Ok Id (w_nodup _ Ok k)) as (T1 & R1 & Ok1 & Id1 & Ei1 & Et1 & Es1).
  { intros p Hp. destruct (w_slot _ Ok k p Hp) as (t & ? & _). eauto. }
  erewrite bind_run by (unfold remove_in_slot; erewrite bind_run by reflexivity; exact R1). destruct (IH T1 Ok1 Id1) as (T' & R' & Ok' & Id' & Ei' & Et' & Ek').
  exists T'. split; [exact R'|]. split_and!; try done.
  - intros j. by rewrite Ei', Ei1.
  - intros q t Hq. destruct (Et' q t Hq) as [H1 H2]. apply Et1 in H1 as [H1 H3]. split; [done|].
    intros Hi [E|?]%elem_of_cons; [|by apply H2]. apply H3. split; [|done].
    destruct Id as [Htmp Hrun]. destruct (w_linked _ Ok q t H1 (proj1 (Hrun q t H1))) as [Hb|Hb]; [rewrite Htmp in Hb; set_solver|by rewrite <- E].
  - intros q t Hq Hi. apply Ek'; [|done]. apply Et1. split; [done|]. by intros [_ ?].
Qed.

(** Removing a kind of timers stops exactly its timers. *)
(** Removing a timer class stops and frees exactly the timers of this
    class; all other timers, and the other classes, stay. *)
Theorem timer_remove_run T i info : timers_ok T -> idle T -> timer_infos T !! i = Some info ->
  exists T', olsr_timer_remove i T = Some (T', tt) /\ timers_ok T' /\ idle T' /\ timer_infos T' !! i = None /\
    forall q t, timers T' !! q = Some t <-> timers T !! q = Some t /\ timer_info t <> i.
Proof.
  intros Ok Id Hi. unfold olsr_timer_remove.
  destruct (remove_slots_run i wheel_slots T Ok Id) as (T1 & R1 & Ok1 & [Id1 Id1'] & Ei1 & Et1 & Ek1).
  erewrite bind_run by exact R1. destruct (proj2 (Ei1 i) ltac:(eauto)) as [x Hx].
  erewrite bind_run by (unfold rd_info; by rewrite Hx). eexists. split; [reflexivity|].
  assert (Hgone : forall q t, timers T1 !! q = Some t -> timer_info t <> i).
  { intros q t Hq E. destruct (Et1 q t Hq) as [_ Hn]. apply (Hn E). apply elem_of_wheel. pose proof (slot_of_range (timer_clock t)). lia. }
  split; [|split; [done|split; [simpl; apply lookup_delete_eq|]]].
  - destruct Ok1 as [W1 W2 W3 W4 W5 W6]. split; try done. intros q t Hq. simpl. rewrite lookup_delete_ne; [by eapply W6|].
    intros E. by apply (Hgone q t Hq).
  - simpl. intros q t. split; [intros Hq; split; [by apply Et1|by eapply Hgone]|intros [Hq Hn]; by apply Ek1].
Qed.

Lemma empty_slot_run k l : forall T fuel, timers_ok T -> idle T -> slot T k = l -> (length l < fuel)%nat ->
  exists T', empty_slot fuel k T = Some (T', tt) /\ timers_ok T' /\ idle T' /\ slot T' k = [] /\
    (forall k', slot T k' = [] -> slot T' k' = []) /\ (size (timers T') <= size (timers T))%nat.
Proof.
  induction l as [|p l IH]; intros T fuel Ok Id E Hf; (destruct fuel as [|fuel]; [simpl in Hf; lia|]);
    cbn [empty_slot]; (erewrite bind_run by reflexivity); rewrite E; [by exists T|].
  destruct (w_slot _ Ok k p) as (t & Ht & _); [rewrite E; left|].
  destruct (idle_stop T p t Ok Id Ht) as (T1 & R & Ok1 & Id1 & Ets & Es & Ei). erewrite bind_run by exact R.
  pose proof (w_nodup _ Ok k) as ND. rewrite E in ND. apply NoDup_cons in ND as [Hp _].
  destruct (IH T1 fuel Ok1 Id1) as (T' & R' & Ok' & Id' & E' & Ho & Hsz).
  - rewrite Es, E. unfold remove_node. rewrite filter_cons_False by tauto. apply remove_node_not_in. done.
  - simpl in Hf. lia.
  - exists T'. split; [exact R'|]. split_and!; try done.
    + intros k' Hk'. apply Ho. by rewrite Es, Hk'.
    + rewrite Ets, map_size_delete, Ht in Hsz. simpl in Hsz. lia.
Qed.

Lemma empty_slots_run fuel ks : forall T, timers_ok T -> idle T -> (size (timers T) < fuel)%nat ->
  exists T', foldr (fun k m => empty_slot fuel k;; m) (mret tt) ks T = Some (T', tt) /\ timers_ok T' /\ idle T' /\
    (forall k, k ∈ ks \/ slot T k = [] -> slot T' k = []).
Proof.
  induction ks as [|k ks IH]; intros T Ok Id Hf.
  { exists T. split_and!; try done. intros k [Hk|?]; [set_solver|done]. }
  simpl. destruct (empty_slot_run k (slot T k) T fuel Ok Id eq_refl) as (T1 & R1 & Ok1 & Id1 & E1 & Ho1 & Hs1).
  { rewrite <- (size_list_to_set (C := gset loc)) by apply (w_nodup _ Ok). rewrite <- size_dom in Hf.
    eapply Nat.le_lt_trans; [apply subseteq_size|exact Hf]. intros q Hq%elem_of_list_to_set.
    destruct (w_slot _ Ok k q Hq) as (t & ? & _). apply elem_of_dom. eauto. }
  erewrite bind_run by exact R1. destruct (IH T1 Ok1 Id1 ltac:(lia)) as (T' & R' & Ok' & Id' & Ho').
  exists T'. split; [exact R'|]. split_and!; try done. intros k' [[->|Hk]%elem_of_cons|Hk]; apply Ho'; auto.
Qed.

(** The cleanup stops and frees every timer. *)
(** Shutting the scheduler down frees every timer and every class and
    leaves every slot empty, within as many steps as there are timers. *)
Theorem timer_cleanup_run T fuel : timers_ok T -> idle T -> (size (timers T) < fuel)%nat ->
  exists T', olsr_timer_cleanup fuel T = Some (T', tt) /\ timers T' = ∅ /\ timer_infos T' = ∅ /\ forall k, slot T' k = [].
Proof.
  intros Ok Id Hf. unfold olsr_timer_cleanup.
  destruct (empty_slots_run fuel wheel_slots T Ok Id Hf) as (T1 & R1 & Ok1 & [Id1 Id1'] & Ho1). erewrite bind_run by exact R1.
  eexists. split; [reflexivity|]. assert (Hall : forall k, slot T1 k = []).
  { intros k. destruct (decide (0 <= k < 1024)).
    - apply Ho1. left. by apply elem_of_wheel.
    - destruct (slot T1 k) as [|p l] eqn:E; [done|]. destruct (w_slot _ Ok1 k p) as (t & _ & Hk); [rewrite E; left|].
      pose proof (slot_of_range (timer_clock t)). lia. }
  split; [|split; [done|exact Hall]]. simpl. apply map_empty. intros p. destruct (timers T1 !! p) as [t|] eqn:E; [|done].
  destruct (w_linked _ Ok1 p t E (proj1 (Id1' p t E))) as [H|H]; [rewrite Id1 in H|rewrite Hall in H]; set_solver.
Qed.
Transparent wheel_slots.
End removal.

(** ** Visiting the slots

    [TimerWalk] has the walk; here are the parts that no callback is involved in. *)

Definition past (T : timer_st) (t : olsr_timer_entry) : bool := olsr_clock_isPast (now T) (timer_clock t).

(** The callbacks of the timers of [l] that are due. *)
Definition fired (T : timer_st) (l : list loc) : list (Z * loc) :=
  omap (fun p => t ← timers T !! p; i ← timer_infos T !! timer_info t;
    if past T t then Some (ti_callback i, timer_cb_context t) else None) l.

(** The head of a slot moves to the temporary list. *)
Definition visit (p : loc) (T : timer_st) : timer_st :=
  with_wheel (timer_wheel (unlink p T)) (p :: tmp_list (unlink p T)) (unlink p T).

Lemma visit_ok T k p : timers_ok T -> p ∈ slot T k -> timers_ok (visit p T).
Proof.
  intros Ok Hk. destruct (unlink_facts T p Ok) as (U1 & U2 & U3 & U4). destruct Ok as [W1 W2 W3 W4 W5 W6].
  destruct (W1 k p Hk) as (t & Ht & _). change (slot (visit p T)) with (slot (unlink p T)). split; simpl.
  - intros k' q [Hq Hn]%U1. by apply W1.
  - apply U2.
  - intros q [->|[Hq Hn]%U4]%elem_of_cons.
    + split; [eauto|]. by intros k' [_ []]%U1.
    + destruct (W3 q Hq) as [? HW]. split; [done|]. intros k' [Hk' _]%U1. by apply (HW k').
  - apply NoDup_cons. split; [|done]. by intros [_ []]%U4.
  - intros q tq Hq Hr. destruct (decide (q = p)) as [->|Hn]; [left; left|].
    destruct (W5 q tq Hq Hr) as [?|?]; [left; right; by apply U4|right; by apply U1].
  - apply W6.
Qed.

Lemma visit_slot T k p l : timers_ok T -> slot T k = p :: l -> slot (visit p T) k = l.
Proof.
  intros Ok E. change (slot (visit p T)) with (slot (unlink p T)). rewrite slot_unlink, E.
  unfold remove_node. rewrite filter_cons_False by (by intros []). apply remove_node_not_in.
  pose proof (w_nodup _ Ok k) as ND. rewrite E in ND. by apply NoDup_cons in ND as [? _].
Qed.

Lemma visit_other T k p k' : timers_ok T -> p ∈ slot T k -> k' <> k -> slot (visit p T) k' = slot T k'.
Proof.
  intros Ok Hp Hk. change (slot (visit p T)) with (slot (unlink p T)). rewrite slot_unlink. apply remove_node_not_in.
  intros Hp'. destruct (w_slot _ Ok k p Hp) as (t & Ht & <-). destruct (w_slot _ Ok k' p Hp') as (t' & Ht' & <-). congruence.
Qed.

Lemma fired_cons T p l t i :
  timers T !! p = Some t -> timer_infos T !! timer_info t = Some i ->
  fired T (p :: l) = (if past T t then [(ti_callback i, timer_cb_context t)] else []) ++ fired T l.
Proof. intros Ht Hi. unfold fired. simpl. rewrite Ht. simpl. rewrite Hi. simpl. by destruct (past T t). Qed.

(** [list_merge] puts the temporary list back into the slot. *)
Definition merged (k : Z) (T : timer_st) : timer_st :=
  with_wheel (<[k := tmp_list T ++ slot T k]> (timer_wheel T)) [] T.

Lemma merged_ok T k : timers_ok T -> slot T k = [] ->
  (forall q t, q ∈ tmp_list T -> timers T !! q = Some t -> slot_of (timer_clock t) = k) -> timers_ok (merged k T).
Proof.
  intros [W1 W2 W3 W4 W5 W6] Es Ht0.
  assert (S1 : forall k', slot (merged k T) k' = if decide (k = k') then tmp_list T else slot T k').
  { intros k'. unfold slot, merged. simpl. rewrite lookup_insert. case_decide; [|done]. simpl. by rewrite Es, app_nil_r. }
  split; simpl; try done.
  - intros k' q. rewrite S1. case_decide; [|apply W1]. intros Hq. destruct (W3 q Hq) as [[t Htq] _]. subst. eauto.
  - intros k'. rewrite S1. by case_decide.
  - set_solver.
  - constructor.
  - intros q t Hq Hr. right. rewrite S1. destruct (W5 q t Hq Hr) as [Hq'|Hq'].
    + rewrite decide_True; [done|]. symmetry. by eapply Ht0.
    + case_decide as E; [|done]. rewrite <- E, Es in Hq'. set_solver.
Qed.

Lemma merged_slot T k k' : k' <> k -> slot (merged k T) k' = slot T k'.
Proof. intros. unfold slot, merged. simpl. by rewrite lookup_insert_ne. Qed.

Lemma fired_app T l1 l2 : fired T (l1 ++ l2) = fired T l1 ++ fired T l2.
Proof. unfold fired. apply omap_app. Qed.

Lemma slot_of_mod c : slot_of c = c mod 1024.
Proof. apply (Z.land_ones c 10). lia. Qed.

(** The slots of [n] consecutive milliseconds. *)
Fixpoint window (r : Z) (n : nat) : list Z :=
  match n with
  | O => []
  | Datatypes.S n => slot_of r :: window (r + 1) n
  end.

Lemma elem_of_window r n k : k ∈ window r n <-> exists i, 0 <= i < Z.of_nat n /\ k = slot_of (r + i).
Proof.
  revert r. induction n as [|n IH]; intros r; simpl.
  { split; [set_solver|intros (i & ? & _); lia]. }
  rewrite elem_of_cons, IH. split.
  - intros [->|(i & Hi & ->)]; [exists 0|exists (i + 1)]; (split; [lia|f_equal; lia]).
  - intros (i & Hi & ->). destruct (decide (i = 0)) as [->|]; [left; f_equal; lia|right].
    exists (i - 1). split; [lia|f_equal; lia].
Qed.

Lemma window_nodup r n : Z.of_nat n <= 1024 -> NoDup (window r n).
Proof.
  revert r. induction n as [|n IH]; intros r Hn; simpl; [constructor|]. apply NoDup_cons. split; [|apply IH; lia].
  rewrite elem_of_window. intros (i & Hi & E). rewrite !slot_of_mod in E.
  pose proof (Z.div_mod r 1024 ltac:(lia)). pose proof (Z.div_mod (r + 1 + i) 1024 ltac:(lia)).
  assert (1 + i = 1024 * ((r + 1 + i) / 1024 - r / 1024)) by lia. nia.
Qed.

Lemma window_all r k : 0 <= k < 1024 -> k ∈ window r 1024.
Proof.
  intros Hk. apply elem_of_window. exists ((k - r) mod 1024). pose proof (Z.mod_pos_bound (k - r) 1024 ltac:(lia)).
  split; [lia|]. rewrite slot_of_mod, Zplus_mod_idemp_r. replace (r + (k - r)) with k by lia. by rewrite Z.mod_small.
Qed.

Lemma seq3_run {X} (a b c d : SE X unit) s s' :
  (a;; b;; c) s = Some (s', tt) -> (a;; b;; c;; d) s = d s'.
Proof.
  intros H. apply bind_inv in H as (s1 & [] & Ha & H). apply bind_inv in H as (s2 & [] & Hb & Hc).
  erewrite bind_run by exact Ha. erewrite bind_run by exact Hb. by erewrite bind_run by exact Hc.
Qed.

Definition visited (T0 T : timer_st) (n : nat) : nat := Nat.min n (Z.to_nat (now T0 - timer_last_run T + 1)).

Lemma past_of_clock T c : is_u 32 (now T) -> 0 <= c <= now T -> now T - c < 2 ^ 31 -> olsr_clock_isPast (now T) c = true.
Proof.
  intros [Hn1 Hn2] Hc Hh. unfold olsr_clock_isPast. rewrite Z.gtb_ltb. destruct (Z.ltb_spec (now T) c); [lia|].
  rewrite wrapu_id by (unfold is_u; lia). apply Z.leb_le. lia.
Qed.

Lemma window_covers T c : timer_last_run T <= c <= now T -> slot_of c ∈ window (timer_last_run T) (visited T T 1024).
Proof.
  intros Hc. destruct (decide (now T - timer_last_run T < 1023)).
  - apply elem_of_window. exists (c - timer_last_run T). unfold visited. split; [lia|f_equal; lia].
  - assert (visited T T 1024 = 1024%nat) as -> by (unfold visited; lia). apply window_all. rewrite slot_of_mod. apply Z.mod_pos_bound. lia.
Qed.

(** ** Starting and stopping *)
Section start_stop.
Context (rnd : nat -> Z) (rnd_ok : forall i, 0 <= rnd i <= RAND_MAX).

(** A timer started with a relative time and a jitter percentage is linked
    into the slot of its expiry, not due yet, and expires after at most the
    relative time and at least the relative time less the jitter. *)
Theorem timer_start_correct T rel pct ctx ti info :
  timers_ok T -> timer_infos T !! ti = Some info -> is_u 32 (now T) -> 0 < rel < 2 ^ 31 -> 0 <= pct <= 100 ->
  exists p T' t d, olsr_timer_start rnd rel pct ctx ti T = Some (T', p) /\ timers_ok T' /\ timers T !! p = None /\
    timers T' = <[p := t]> (timers T) /\ (p ∈ slot T' (slot_of (timer_clock t))) /\ timer_cb_context t = ctx /\
    timer_period t = (if ti_periodic info then rel else 0) /\
    timer_clock t = olsr_clock_getAbsolute (now T) d /\ rel - rel * pct / 100 <= d <= rel /\
    past T t = false.
Proof.
  intros Ok Hi Hn Hr Hp. destruct (timer_start_run rnd T rel pct ctx ti info Ok Hi ltac:(lia) ltac:(lia)) as (p & T' & R & Hf & Et & Ok' & _ & Em).
  destruct (calc_jitter_range (now T) rel pct (rnd (rand_pos T)) ltac:(lia) Hp (rnd_ok _)) as (d & Ed & H1 & H2).
  exists p, T'. eexists. exists d. split; [exact R|]. split; [done|]. split; [done|]. split; [exact Et|].
  split_and!; try done; [|lia..|by apply jitter_not_past].
  destruct (w_linked _ Ok' p _ ltac:(rewrite Et; apply lookup_insert_eq) eq_refl) as [Ht|?]; [|done].
  rewrite Em in Ht. destruct (w_tmp _ Ok p Ht) as [[x Hx] _]. congruence.
Qed.

(** A timer that is stopped is in no slot and in no list afterwards, and
    its memory is freed unless its callback is running, in which case it is
    marked as stopped; every other timer stays where it is. *)
Theorem timer_stop_correct T p t :
  timers_ok T -> timers T !! p = Some t -> timer_running t = true ->
  exists T', olsr_timer_stop (Some p) T = Some (T', tt) /\ timers_ok T' /\
    (forall k, p ∉ slot T' k) /\ (p ∉ tmp_list T') /\
    (if timer_in_callback t then exists t', timers T' !! p = Some t' /\ timer_running t' = false else timers T' !! p = None) /\
    (forall q, q <> p -> timers T' !! q = timers T !! q /\ forall k, (q ∈ slot T' k) <-> q ∈ slot T k).
Proof.
  intros Ok Hp Hr. destruct (timer_stop_run T p t Ok Hp Hr) as (T' & R & Ok' & _ & Et & Es & Em & _).
  exists T'. split; [exact R|]. split; [done|]. split_and!.
  - intros k. rewrite Es. unfold remove_node. rewrite list_elem_of_filter. tauto.
  - rewrite Em. unfold remove_node. rewrite list_elem_of_filter. tauto.
  - rewrite Et. destruct (timer_in_callback t); [|apply lookup_delete_eq]. rewrite lookup_insert_eq. by eexists.
  - intros q Hq. split.
    + rewrite Et. destruct (timer_in_callback t); [by rewrite lookup_insert_ne|by rewrite lookup_delete_ne].
    + intros k. rewrite Es. unfold remove_node. rewrite list_elem_of_filter. tauto.
Qed.
End start_stop.

(** ** An empty timer wheel, with a one-shot class 1 and a periodic class 2 *)
Definition demo_timers : timer_st :=
  mkTimers ∅ [] ∅ {[ 1%positive := mkInfo 7 false 0 0; 2%positive := mkInfo 8 true 0 0 ]} 1000 1005 0.

Lemma demo_timers_ok : timers_ok demo_timers.
Proof. split; unfold slot; simpl; intros *; rewrite ?lookup_empty; try done; try constructor; set_solver. Qed.

(** The wheel after a one-shot and a periodic timer were started. *)
Definition demo_started : timer_st :=
  match (p ← olsr_timer_start (fun _ => 0) 100 10 77 1; q ← olsr_timer_start (fun _ => 0) 200 0 88 2; mret (p, q)) demo_timers with
  | Some (T, _) => T
  | None => demo_timers
  end.
Definition demo_later : timer_st :=
  mkTimers (timer_wheel demo_started) [] (timers demo_started) (timer_infos demo_started) 1005 1150 0.

Lemma demo_started_ok : timers_ok demo_started /\ tmp_list demo_started = [].
Proof.
  unfold demo_started.
  destruct (timer_start_run (fun _ => 0) demo_timers 100 10 77 1 _ demo_timers_ok eq_refl) as (p & T1 & R1 & _ & _ & Ok1 & [_ _ Ei _] & E1); [done..|].
  destruct (proj2 (Ei 2%positive)) as [i2 Hi2]; [by eexists|].
  destruct (timer_start_run (fun _ => 0) T1 200 0 88 2 i2 Ok1 Hi2) as (q & T2 & R2 & _ & _ & Ok2 & _ & E2); [done..|].
  erewrite bind_run by exact R1. erewrite bind_run by exact R2. split; [done|]. simpl. by rewrite E2, E1.
Qed.

Lemma demo_later_ok : timers_ok demo_later /\ idle demo_later.
Proof.
  assert (Hp : forall p t, timers demo_later !! p = Some t -> timer_running t = true /\ timer_in_callback t = false /\
    0 <= timer_period t < 2 ^ 31 /\ 0 <= timer_jitter_pct t <= 100) by (intros p t H; map_cases H; simpl; lia).
  split; [|split; [done|naive_solver]]. destruct demo_started_ok as [[] E]. rewrite E in *. by split.
Qed.

Lemma demo_random i : 0 <= (fun _ : nat => 0) i <= RAND_MAX.
Proof. unfold RAND_MAX. lia. Qed.

Lemma timer_start_correct_witness :
  exists p T' t d, olsr_timer_start (fun _ => 0) 300 25 99 2 demo_later = Some (T', p) /\ timers_ok T' /\ timers demo_later !! p = None /\
    timers T' = <[p := t]> (timers demo_later) /\ (p ∈ slot T' (slot_of (timer_clock t))) /\ timer_cb_context t = 99%positive /\
    timer_period t = 300 /\ timer_clock t = olsr_clock_getAbsolute 1150 d /\ 300 - 300 * 25 / 100 <= d <= 300 /\ past demo_later t = false.
Proof.
  apply (timer_start_correct (fun _ => 0) demo_random demo_later 300 25 99 2 (mkInfo 8 true 1 1)); [apply demo_later_ok|by vm_compute|done|lia|lia].
Defined.

Lemma timer_stop_correct_witness :
  exists T', olsr_timer_stop (Some 1%positive) demo_later = Some (T', tt) /\ timers_ok T' /\
    (forall k, 1%positive ∉ slot T' k) /\ (1%positive ∉ tmp_list T') /\ timers T' !! 1%positive = None /\
    (forall q, q <> 1%positive -> timers T' !! q = timers demo_later !! q /\ forall k, (q ∈ slot T' k) <-> q ∈ slot demo_later k).
Proof.
  apply (timer_stop_correct demo_later 1 (mkTimer 1 1105 0 10 true false 0 77)); [apply demo_later_ok|by vm_compute|done].
Defined.

Lemma timer_remove_run_witness :
  exists T', olsr_timer_remove 1 demo_later = Some (T', tt) /\ timers_ok T' /\ idle T' /\ timer_infos T' !! 1%positive = None /\
    forall q t, timers T' !! q = Some t <-> timers demo_later !! q = Some t /\ timer_info t <> 1%positive.
Proof. apply (timer_remove_run demo_later 1 (mkInfo 7 false 1 1)); [apply demo_later_ok|apply demo_later_ok|by vm_compute]. Defined.

Lemma timer_cleanup_run_witness :
  exists T', olsr_timer_cleanup 3 demo_later = Some (T', tt) /\ timers T' = ∅ /\ timer_infos T' = ∅ /\ forall k, slot T' k = [].
Proof. apply (timer_cleanup_run demo_later 3); [apply demo_later_ok|apply demo_later_ok|by apply Nat.ltb_lt]. Defined.
