(* ===== verification/TimerWalk.v ===== *)
(** * Walking the timer wheel with callbacks that use timers ([olsr_timer.c])

    [Timer] has the scheduler and its invariant. The daemon's callbacks start, stop and change timers, their own
    one included, while the walk is under way. Here a callback is any function
    whose effect on the timers is a sequence of calls of the scheduler. *)
From S2P Require Import Prelude Memcookie Clock Timer.

Section walk.
Context (rnd : nat -> Z) (rnd_ok : forall i, 0 <= rnd i <= RAND_MAX).

(** ** What a callback may do

    It may start timers, stop and change running timers for which [P] holds,
    register classes of timers and draw random numbers. *)
Inductive tstep (P : loc -> bool) (T T' : timer_st) : Prop :=
  | ts_start rel pct ctx ti p : 0 < rel < 2 ^ 31 -> 0 <= pct <= 100 ->
      olsr_timer_start rnd rel pct ctx ti T = Some (T', p) -> tstep P T T'
  | ts_stop p t : P p = true -> timers T !! p = Some t -> timer_running t = true ->
      olsr_timer_stop (Some p) T = Some (T', tt) -> tstep P T T'
  | ts_change p t rel pct : P p = true -> timers T !! p = Some t -> timer_running t = true -> 0 < rel < 2 ^ 31 -> 0 <= pct <= 100 ->
      olsr_timer_change (Some p) rel pct T = Some (T', tt) -> tstep P T T'
  | ts_add callback periodic i : olsr_timer_add callback periodic T = Some (T', i) -> tstep P T T'
  | ts_random r : random rnd T = Some (T', r) -> tstep P T T'.

(** ** The wheel while a callback runs *)

(** The fields of an entry, where [c] is the timer whose callback is running. Only
    this one may have been stopped and still be there. *)
Record entry_ok (c : option loc) (p : loc) (t : olsr_timer_entry) : Prop := {
  eo_period : 0 <= timer_period t < 2 ^ 31;
  eo_pct : 0 <= timer_jitter_pct t <= 100;
  eo_random : 0 <= timer_random t <= RAND_MAX;
  eo_cb : timer_in_callback t = bool_decide (Some p = c);
  eo_run : timer_running t = true \/ Some p = c
}.

Record walk_ok (c : option loc) (T : timer_st) : Prop := {
  wo_ok : timers_ok T;
  wo_now : is_u 32 (now T);
  wo_entry : forall p t, timers T !! p = Some t -> entry_ok c p t;
  wo_run : forall p t, timers T !! p = Some t -> linked_in T p -> timer_running t = true;
  wo_cb : forall p, c = Some p -> is_Some (timers T !! p)
}.

Definition due (T : timer_st) (p : loc) : bool := match timers T !! p with Some t => past T t | None => false end.
Definition dues (T : timer_st) (k : Z) : list loc := filter (fun p => due T p = true) (slot T k).

(** An entry but for the flag of its callback. *)
Definition core (t : olsr_timer_entry) : olsr_timer_entry := set_in_callback false t.

(** How the wheel changes: timers that are due are only taken away, and timers
    outside [P] are left alone, but for those in the slots [X], which may move. *)
Record moves (P : loc -> Prop) (X : Z -> Prop) (T T' : timer_st) : Prop := {
  mv_now : now T' = now T;
  mv_info : forall i x, timer_infos T !! i = Some x -> exists y, timer_infos T' !! i = Some y /\ ti_callback y = ti_callback x;
  mv_dues : forall k, sublist (dues T' k) (dues T k);
  mv_entry : forall q t', timers T' !! q = Some t' -> timer_running t' = true -> past T t' = true ->
    exists t, timers T !! q = Some t /\ core t = core t';
  mv_rest : forall q t, timers T !! q = Some t -> ~ P q ->
    (exists t', timers T' !! q = Some t' /\ core t' = core t) /\ forall k, ~ X k -> q ∈ slot T k -> q ∈ slot T' k
}.

(** The temporary list of the walk only loses timers, and those that stay in it
    keep their time. *)
Record tmp_kept (T T' : timer_st) : Prop := {
  tk_last : timer_last_run T' = timer_last_run T;
  tk_tmp : forall q t', q ∈ tmp_list T' -> timers T' !! q = Some t' ->
    q ∈ tmp_list T /\ exists t, timers T !! q = Some t /\ timer_clock t = timer_clock t'
}.

Lemma past_now T T' t : now T' = now T -> past T' t = past T t.
Proof. unfold past. by intros ->. Qed.

Lemma core_eq t t' : core t = core t' -> timer_running t = timer_running t' /\ timer_clock t = timer_clock t' /\
  timer_info t = timer_info t' /\ timer_cb_context t = timer_cb_context t'.
Proof. intros [=]. done. Qed.

Lemma moves_refl P X T : moves P X T T.
Proof. split; [done|eauto|intros k; reflexivity|eauto|]. intros q t Hq _. eauto. Qed.

Lemma moves_trans P P' Q X X' Y T1 T2 T3 : moves P X T1 T2 -> moves P' X' T2 T3 ->
  (forall q, P q \/ P' q -> Q q) -> (forall k, X k \/ X' k -> Y k) -> moves Q Y T1 T3.
Proof.
  intros [N1 I1 D1 E1 R1] [N2 I2 D2 E2 R2] HQ HY. split.
  - congruence.
  - intros i x Hx. destruct (I1 i x Hx) as (y & Hy & Ey). destruct (I2 i y Hy) as (z & Hz & Ez). exists z. split; [done|congruence].
  - intros k. transitivity (dues T2 k); auto.
  - intros q t' Hq Hr Hp. destruct (E2 q t' Hq Hr) as (t & Ht & Ec); [by rewrite (past_now T1 T2)|].
    assert (timer_running t = true /\ past T1 t = true) as [Hr' Hp'].
    { apply core_eq in Ec as (-> & Ec & _). unfold past in *. by rewrite Ec. }
    destruct (E1 q t Ht Hr' Hp') as (t0 & H0 & Ec0). exists t0. split; [done|congruence].
  - intros q t Hq Hn. destruct (R1 q t Hq) as [(t1 & H1 & Ec1) S1]; [auto|]. destruct (R2 q t1 H1) as [(t2 & H2 & Ec2) S2]; [auto|].
    split; [exists t2; split; [done|congruence]|]. intros k Hk Hs. apply S2; [auto|]. apply S1; auto.
Qed.

Lemma moves_weaken P Q X Y T T' : moves P X T T' -> (forall q, is_Some (timers T !! q) -> P q -> Q q) -> (forall k, X k -> Y k) -> moves Q Y T T'.
Proof.
  intros [N I D E R] HQ HY. split; try done. intros q t Hq Hn. destruct (R q t Hq) as [H1 H2]; [intros HP; apply Hn, HQ; eauto|].
  split; [done|]. intros k Hk. apply H2. auto.
Qed.

Lemma tmp_kept_refl T : tmp_kept T T.
Proof. split; eauto. Qed.
Lemma tmp_kept_trans T1 T2 T3 : tmp_kept T1 T2 -> tmp_kept T2 T3 -> tmp_kept T1 T3.
Proof.
  intros [L1 H1] [L2 H2]. split; [congruence|]. intros q t Hq Ht. destruct (H2 q t Hq Ht) as (Hq2 & t2 & Ht2 & E2).
  destruct (H1 q t2 Hq2 Ht2) as (Hq1 & t1 & Ht1 & E1). split; [done|]. exists t1. split; [done|congruence].
Qed.

(** ** One timer changes *)
Record upd (p : loc) (T T' : timer_st) : Prop := {
  up_now : now T' = now T;
  up_last : timer_last_run T' = timer_last_run T;
  up_info : forall i x, timer_infos T !! i = Some x -> exists y, timer_infos T' !! i = Some y /\ ti_callback y = ti_callback x;
  up_other : forall q, q <> p -> timers T' !! q = timers T !! q;
  up_slot : forall k, slot T' k = remove_node p (slot T k) \/ slot T' k = remove_node p (slot T k) ++ [p];
  up_tmp : tmp_list T' = remove_node p (tmp_list T);
  (** what is left of it is not due any more, or stopped *)
  up_entry : forall t', timers T' !! p = Some t' -> past T t' = false /\ timer_running t' = true \/ timer_running t' = false /\ forall k, p ∉ slot T' k
}.

Lemma due_other p T T' q : upd p T T' -> q <> p -> due T' q = due T q.
Proof. intros U Hq. unfold due, past. by rewrite (up_other _ _ _ U), (up_now _ _ _ U). Qed.

Lemma filter_sublist {A} (Q : A -> Prop) `{forall x, Decision (Q x)} (l l' : list A) : sublist l l' -> sublist (filter Q l) (filter Q l').
Proof.
  induction 1 as [|x l l' _ IH|x l l' _ IH]; [done|rewrite !filter_cons; case_decide; [by constructor|done]|].
  rewrite filter_cons. case_decide; [by constructor|done].
Qed.

Lemma upd_dues p T T' k : timers_ok T' -> upd p T T' -> sublist (dues T' k) (dues T k).
Proof.
  intros Ok U. unfold dues.
  assert (E : filter (fun q => due T' q = true) (slot T' k) = filter (fun q => due T q = true) (remove_node p (slot T k))).
  { assert (F : filter (fun q => due T' q = true) (remove_node p (slot T k)) = filter (fun q => due T q = true) (remove_node p (slot T k))).
    { unfold remove_node. induction (slot T k) as [|q l IH]; [done|]. rewrite (filter_cons (fun n => n <> p)).
      case_decide as Hq; [|done]. rewrite !filter_cons, (due_other p T T' q U Hq). by case_decide; [f_equal|]. }
    destruct (up_slot _ _ _ U k) as [Es|Es]; [by rewrite Es|]. rewrite Es, filter_app, F. rewrite (filter_cons _ p []).
    rewrite decide_False; [apply app_nil_r|]. intros Hd. unfold due in Hd. destruct (timers T' !! p) as [t'|] eqn:Ht; [|done].
    destruct (up_entry _ _ _ U t' Ht) as [[Hp _]|[_ Hn]]; [rewrite (past_now T T') in Hd by apply U; congruence|].
    apply (Hn k). rewrite Es. set_solver. }
  rewrite E. apply filter_sublist. unfold remove_node. apply sublist_filter.
Qed.

Lemma upd_moves p T T' : timers_ok T' -> upd p T T' -> moves (fun q => q = p) (fun _ => False) T T' /\ tmp_kept T T'.
Proof.
  intros Ok U. split; split; [apply U..| |intros q t' Hq Hr Hp| | |].
  - intros k. by apply (upd_dues p).
  - destruct (decide (q = p)) as [->|Hn]; [|rewrite <- (up_other _ _ _ U) by done; eauto].
    destruct (up_entry _ _ _ U t' Hq) as [[H _]|[H _]]; congruence.
  - intros q t Hq Hn. split; [exists t; by rewrite (up_other _ _ _ U)|]. intros k _ Hk.
    assert (q ∈ remove_node p (slot T k)) by (by apply elem_of_remove_node). destruct (up_slot _ _ _ U k) as [-> | ->]; set_solver.
  - apply U.
  - intros q t' Hq Ht. rewrite (up_tmp _ _ _ U) in Hq. apply elem_of_remove_node in Hq as [Hq Hn]. split; [done|].
    exists t'. by rewrite <- (up_other _ _ _ U).
Qed.

Lemma upd_walk_ok p c c' T T' : walk_ok c T -> timers_ok T' -> upd p T T' ->
  (forall t', timers T' !! p = Some t' -> entry_ok c' p t') -> (forall q, q <> p -> Some q = c <-> Some q = c') ->
  (c' = Some p -> is_Some (timers T' !! p)) -> walk_ok c' T'.
Proof.
  intros [Ok Hn He Hr Hc] Ok' U Hp Hq Hc'. split; [done|by rewrite (up_now _ _ _ U)|..].
  - intros q t Ht. destruct (decide (q = p)) as [->|Hne]; [by apply Hp|]. rewrite (up_other _ _ _ U) in Ht by done.
    destruct (He q t Ht) as [? ? ? Hcb Hru]. split; try done; [by rewrite Hcb; apply bool_decide_ext, Hq|].
    destruct Hru; [by left|right; by apply Hq].
  - intros q t Ht Hl. destruct (decide (q = p)) as [->|Hne].
    + destruct (up_entry _ _ _ U t Ht) as [[_ ?]|[_ Hn']]; [done|]. apply linked_in_slot in Hl as [Hl|[k Hk]]; [|by destruct (Hn' k)].
      rewrite (up_tmp _ _ _ U) in Hl. by apply elem_of_remove_node in Hl as [_ []].
    + rewrite (up_other _ _ _ U) in Ht by done. apply (Hr q t Ht). apply linked_in_slot. apply linked_in_slot in Hl as [Hl|[k Hk]].
      * rewrite (up_tmp _ _ _ U) in Hl. apply elem_of_remove_node in Hl as [Hl _]. by left.
      * right. exists k. destruct (up_slot _ _ _ U k) as [E|E]; rewrite E in Hk; [by apply elem_of_remove_node in Hk as [? _]|].
        apply elem_of_app in Hk as [Hk|Hk]; [by apply elem_of_remove_node in Hk as [? _]|by apply list_elem_of_singleton in Hk].
  - intros q Hq'. destruct (decide (q = p)) as [->|Hne]; [by apply Hc'|]. rewrite (up_other _ _ _ U) by done.
    apply Hc. symmetry. apply Hq; [done|by symmetry].
Qed.

(** The lists and the timers are the same. *)
Lemma same_wheel P X c T T' : walk_ok c T -> timer_wheel T' = timer_wheel T -> tmp_list T' = tmp_list T -> timers T' = timers T -> now T' = now T ->
  timer_last_run T' = timer_last_run T ->
  (forall i x, timer_infos T !! i = Some x -> exists y, timer_infos T' !! i = Some y /\ ti_callback y = ti_callback x) ->
  walk_ok c T' /\ moves P X T T' /\ tmp_kept T T'.
Proof.
  intros [[W1 W2 W3 W4 W5 W6] Hn He Hr Hc] Ew Et Em En El Hi.
  assert (Es : forall k, slot T' k = slot T k) by (intros k; unfold slot; by rewrite Ew).
  assert (Ed : forall k, dues T' k = dues T k).
  { intros k. unfold dues, due, past. by rewrite Es, Em, En. }
  assert (Ok' : timers_ok T').
  { split; [intros k p; rewrite Es, Em; apply W1|intros k; rewrite Es; apply W2| |by rewrite Et| |].
    - intros p. rewrite Et, Em. intros Hp. destruct (W3 p Hp). split; [done|]. intros k. by rewrite Es.
    - intros p t. rewrite Et, Em, Es. apply W5.
    - intros p t. rewrite Em. intros Hp. destruct (W6 p t Hp) as [x Hx]. destruct (Hi _ x Hx) as (y & ? & _). eauto. }
  split; [|split].
  - split; [done|by rewrite En|by rewrite Em| |by rewrite Em]. intros p t. rewrite Em. unfold linked_in. rewrite Ew, Et. apply Hr.
  - split; [done|done|intros k; by rewrite Ed|rewrite Em; eauto|]. rewrite Em. intros q t Hq _. split; [eauto|]. intros k _. by rewrite Es.
  - split; [done|]. rewrite Et, Em. eauto.
Qed.

Lemma same_env_info T T' : same_env T T' ->
  forall i x, timer_infos T !! i = Some x -> exists y, timer_infos T' !! i = Some y /\ ti_callback y = ti_callback x.
Proof.
  intros [_ _ _ Ek] i x Hx. specialize (Ek i). rewrite Hx in Ek. destruct (timer_infos T' !! i) as [y|]; [|done]. exists y. by injection Ek.
Qed.

Lemma start_slot T T' rel pct ctx ti p : olsr_timer_start rnd rel pct ctx ti T = Some (T', p) ->
  is_Some (timer_infos T !! ti) /\ timer_last_run T' = timer_last_run T /\
  let clock := calc_jitter (now T) rel pct (rnd (rand_pos T)) in
  forall k, slot T' k = if decide (slot_of clock = k) then slot T k ++ [p] else slot T k.
Proof.
  unfold olsr_timer_start. intros H. apply bind_inv in H as (T1 & info & H1 & H). unfold rd_info in H1.
  destruct (timer_infos T !! ti) as [x|] eqn:Hx; [|done]. injection H1 as <- <-.
  apply bind_inv in H as (T2 & [] & H2 & H). unfold se_assert in H2. destruct (negb _); [|done]. injection H2 as <-.
  apply bind_inv in H as (T2 & [] & H2 & H). unfold se_assert in H2. destruct (pct <=? 100); [|done]. injection H2 as <-.
  do 3 (erewrite bind_run in H by reflexivity). erewrite bind_run in H by (unfold wr_info; simpl; by rewrite Hx).
  do 2 (erewrite bind_run in H by reflexivity). injection H as <- <-. split; [eauto|]. split; [done|]. cbv zeta. intros k.
  etransitivity; [apply slot_append|]. case_decide; [by subst k|done].
Qed.

Lemma start_ok c P T T' rel pct ctx ti p : walk_ok c T -> 0 < rel < 2 ^ 31 -> 0 <= pct <= 100 ->
  olsr_timer_start rnd rel pct ctx ti T = Some (T', p) -> walk_ok c T' /\ moves P (fun _ => False) T T' /\ tmp_kept T T'.
Proof.
  intros W Hr Hp R. pose proof W as [Ok Hn He Hru Hc]. destruct (start_slot T T' rel pct ctx ti p R) as ([x Hx] & El & Es).
  destruct (timer_start_run rnd T rel pct ctx ti x Ok Hx ltac:(lia) ltac:(lia)) as (p' & T'' & R' & Hf & Et & Ok' & Env & Em).
  assert (T'' = T' /\ p' = p) as [-> ->] by (by rewrite R in R'; injection R').
  assert (Hns : forall k, remove_node p (slot T k) = slot T k).
  { intros k. apply remove_node_not_in. intros Hk. destruct (w_slot _ Ok k p Hk) as (t & ? & _). congruence. }
  assert (Hnt : remove_node p (tmp_list T) = tmp_list T).
  { apply remove_node_not_in. intros Hk. destruct (w_tmp _ Ok p Hk) as [[t ?] _]. congruence. }
  assert (U : upd p T T').
  { split; [apply Env|done|by apply same_env_info|intros q Hq; rewrite Et; by rewrite lookup_insert_ne| |by rewrite Hnt|].
    - intros k. rewrite Hns, Es. case_decide; [by right|by left].
    - intros t'. rewrite Et, lookup_insert_eq. intros [= <-]. left. split; [|done]. by apply jitter_not_past. }
  destruct (upd_moves p T T' Ok' U) as [M K]. split; [|split; [|done]].
  - eapply upd_walk_ok; [done..| |done|].
    + intros t'. rewrite Et, lookup_insert_eq. intros [= <-]. split; simpl; [destruct (ti_periodic x); lia|done|apply rnd_ok| |by left].
      symmetry. apply bool_decide_eq_false. intros <-. destruct (Hc p eq_refl) as [t ?]. congruence.
    + intros _. rewrite Et, lookup_insert_eq. eauto.
  - eapply moves_weaken; [done| |done]. intros q [t Hq] ->. congruence.
Qed.

Lemma stop_ok c T T' p t : walk_ok c T -> timers T !! p = Some t -> timer_running t = true -> olsr_timer_stop (Some p) T = Some (T', tt) ->
  walk_ok c T' /\ upd p T T' /\ (c <> Some p -> timers T' !! p = None).
Proof.
  intros W Ht Hr R. pose proof W as [Ok Hn He Hru Hc].
  destruct (timer_stop_run T p t Ok Ht Hr) as (T'' & R' & Ok' & Env & Et & Es & Em & _).
  assert (T'' = T') as -> by (by rewrite R in R'; injection R'). pose proof (He p t Ht) as [E1 E2 E3 E4 E5].
  assert (U : upd p T T').
  { split; [apply Env|apply Env|by apply same_env_info| |intros k; left; apply Es|done|].
    - intros q Hq. rewrite Et. destruct (timer_in_callback t); [by rewrite lookup_insert_ne|by rewrite lookup_delete_ne].
    - intros t'. rewrite Et. destruct (timer_in_callback t); [|by rewrite lookup_delete_eq]. rewrite lookup_insert_eq. intros [= <-].
      right. split; [done|]. intros k. rewrite Es. by intros [_ []]%elem_of_remove_node. }
  split; [|split; [done|]].
  - eapply upd_walk_ok; [done..| |done|].
    + intros t'. rewrite Et. destruct (timer_in_callback t) eqn:Ec; [|by rewrite lookup_delete_eq]. rewrite lookup_insert_eq. intros [= <-].
      symmetry in E4. apply bool_decide_eq_true in E4. split; simpl; try done; [by rewrite Ec; symmetry; apply bool_decide_eq_true|by right].
    + intros ->. rewrite Et, E4, bool_decide_eq_true_2 by done. rewrite lookup_insert_eq. eauto.
  - intros Hne. rewrite Et, E4, bool_decide_eq_false_2 by congruence. apply lookup_delete_eq.
Qed.

Lemma change_ok c T T' p t rel pct : walk_ok c T -> timers T !! p = Some t -> timer_running t = true -> 0 < rel < 2 ^ 31 -> 0 <= pct <= 100 ->
  olsr_timer_change (Some p) rel pct T = Some (T', tt) -> walk_ok c T' /\ upd p T T'.
Proof.
  intros W Ht Hr Hrel Hpct R. pose proof W as [Ok Hn He Hru Hc]. pose proof (He p t Ht) as [E1 E2 E3 E4 E5].
  destruct (w_info _ Ok p t Ht) as [x Hx].
  destruct (timer_change_run T p t x rel pct Ok Ht ltac:(by eapply running_linked) Hx) as (T'' & R' & Ok' & Env & Et & Es & Em & _).
  assert (T'' = T') as -> by (by rewrite R in R'; injection R').
  assert (U : upd p T T').
  { split; [apply Env|apply Env|by apply same_env_info| | |done|].
    - intros q Hq. by rewrite Et, lookup_insert_ne.
    - intros k. rewrite Es. destruct (decide (slot_of _ = k)); [by right|by left].
    - intros t'. rewrite Et, lookup_insert_eq. intros [= <-]. left. split; [|done]. by apply jitter_not_past. }
  split; [|done]. eapply upd_walk_ok; [done|done|done| |done|].
  - intros t'. rewrite Et, lookup_insert_eq. intros [= <-]. split; simpl; try done. destruct (ti_periodic x); lia.
  - intros _. rewrite Et, lookup_insert_eq. eauto.
Qed.

Definition touches (P : loc -> bool) (q : loc) : Prop := P q = true.

Lemma step_ok c P T T' : walk_ok c T -> tstep P T T' -> walk_ok c T' /\ moves (touches P) (fun _ => False) T T' /\ tmp_kept T T'.
Proof.
  intros W [rel pct ctx ti p Hr Hp R|p t HP Ht Hr R|p t rel pct HP Ht Hr Hrel Hpct R|cb per i R|r R].
  - by eapply start_ok.
  - destruct (stop_ok c T T' p t W Ht Hr R) as (W' & U & _). destruct (upd_moves p T T' (wo_ok _ _ W') U) as [M K].
    split; [done|]. split; [|done]. eapply moves_weaken; [done| |done]. by intros q _ ->.
  - destruct (change_ok c T T' p t rel pct W Ht Hr Hrel Hpct R) as (W' & U). destruct (upd_moves p T T' (wo_ok _ _ W') U) as [M K].
    split; [done|]. split; [|done]. eapply moves_weaken; [done| |done]. by intros q _ ->.
  - injection R as <- <-. apply same_wheel; try done. simpl. intros i x Hx. exists x. split; [|done].
    rewrite lookup_insert_ne; [done|]. intros <-. by apply (is_fresh (dom (timer_infos T))), elem_of_dom.
  - injection R as <- _. apply same_wheel; try done. simpl. eauto.
Qed.

(** What a callback did. *)
Lemma steps_ok c P T T' : rtc (tstep P) T T' -> walk_ok c T -> walk_ok c T' /\ moves (touches P) (fun _ => False) T T' /\ tmp_kept T T'.
Proof.
  induction 1 as [T|T T1 T' S1 _ IH]; intros W; [split; [done|]; split; [apply moves_refl|apply tmp_kept_refl]|].
  destruct (step_ok c P T T1 W S1) as (W1 & M1 & K1). destruct (IH W1) as (W' & M' & K').
  split; [done|]. split; [|by eapply tmp_kept_trans]. eapply moves_trans; [done..|tauto|tauto].
Qed.

(** ** Firing a timer *)

(** The entry of a timer is written, with the same class and time. *)
Definition wr_entry (p : loc) (t' : olsr_timer_entry) (T : timer_st) : timer_st := with_timers (<[p := t']> (timers T)) T.

Lemma wr_entry_ok c c' T p t t' : walk_ok c T -> timers T !! p = Some t -> timer_info t' = timer_info t -> timer_clock t' = timer_clock t ->
  timer_running t' = timer_running t -> entry_ok c' p t' -> (forall q, q <> p -> Some q = c <-> Some q = c') -> walk_ok c' (wr_entry p t' T).
Proof.
  intros [[W1 W2 W3 W4 W5 W6] Hn He Hr Hc] Ht Ei Ec Er He' Hq.
  assert (Hl : forall q tq, timers (wr_entry p t' T) !! q = Some tq -> exists tq0, timers T !! q = Some tq0 /\
    timer_info tq = timer_info tq0 /\ timer_clock tq = timer_clock tq0 /\ timer_running tq = timer_running tq0).
  { intros q tq. simpl. rewrite lookup_insert. case_decide; [subst; intros [= <-]; eauto|eauto]. }
  assert (HS : forall q, is_Some (timers T !! q) -> is_Some (timers (wr_entry p t' T) !! q)) by (intros q; simpl; rewrite lookup_insert; case_decide; eauto).
  split; [|done|..].
  - split; [|done| |done|..].
    + intros k q Hk. destruct (W1 k q Hk) as (tq & Hq1 & E). simpl. rewrite lookup_insert. case_decide; [subst q; exists t'; split; [done|]|eauto].
      rewrite Ec. congruence.
    + intros q Hk. destruct (W3 q Hk). split; [by apply HS|done].
    + intros q tq Hk. destruct (Hl q tq Hk) as (t0 & H0 & _ & -> & ->). by apply W5.
    + intros q tq Hk. destruct (Hl q tq Hk) as (t0 & H0 & -> & _). by apply (W6 q).
  - intros q tq. simpl. rewrite lookup_insert. case_decide as E; [subst q; by intros [= <-]|]. intros Hk. destruct (He q tq Hk) as [? ? ? Hcb Hru].
    split; try done; [rewrite Hcb; apply bool_decide_ext, Hq; congruence|]. destruct Hru; [by left|right; apply Hq; [congruence|done]].
  - intros q tq Hk. destruct (Hl q tq Hk) as (t0 & H0 & _ & _ & ->). by apply Hr.
  - intros q Ec'. apply HS. destruct (decide (q = p)) as [->|]; [eauto|]. apply Hc. symmetry. by apply Hq.
Qed.

Lemma wr_flag_moves P X T p t b : timers T !! p = Some t ->
  moves P X T (wr_entry p (set_in_callback b t) T) /\ tmp_kept T (wr_entry p (set_in_callback b t) T).
Proof.
  intros Ht. assert (Hd : forall q, due (wr_entry p (set_in_callback b t) T) q = due T q).
  { intros q. unfold due, past. simpl. rewrite lookup_insert. case_decide; [subst; by rewrite Ht|done]. }
  split; split; try done.
  - eauto.
  - intros k. unfold dues. change (slot (wr_entry _ _ T) k) with (slot T k). induction (slot T k) as [|q l IH]; [done|].
    rewrite !filter_cons, Hd. case_decide; [by constructor|done].
  - intros q t' Hq _ _. simpl in Hq. rewrite lookup_insert in Hq. case_decide; [subst|eauto]. injection Hq as <-. exists t. by split; [|destruct t].
  - intros q t0 Hq _. split; [|done]. simpl. rewrite lookup_insert. case_decide; [subst|eauto]. eexists. split; [done|].
    rewrite Ht in Hq. injection Hq as <-. by destruct t.
  - intros q t' Hq Ht'. split; [done|]. simpl in Ht'. rewrite lookup_insert in Ht'. case_decide; [subst|eauto]. injection Ht' as <-. by exists t.
Qed.

Lemma upd_wr_entry p t' T T' : upd p (wr_entry p t' T) T' -> upd p T T'.
Proof.
  intros [U1 U2 U3 U4 U5 U6 U7]. split; try done. intros q Hq. rewrite U4 by done. simpl. by rewrite lookup_insert_ne.
Qed.

(** The timer was stopped by its own callback. *)
Lemma fired_free_ok T T' p t : walk_ok (Some p) T -> timers T !! p = Some t -> timer_running t = false ->
  timer_wheel T' = timer_wheel T -> tmp_list T' = tmp_list T -> timers T' = delete p (timers T) -> now T' = now T -> timer_last_run T' = timer_last_run T ->
  (forall i x, timer_infos T !! i = Some x -> exists y, timer_infos T' !! i = Some y /\ ti_callback y = ti_callback x) ->
  walk_ok None T' /\ upd p T T'.
Proof.
  intros W Ht Hr Ew Et Em En El Hi. pose proof W as [[W1 W2 W3 W4 W5 W6] Hn He Hru Hc].
  assert (Es : forall k, slot T' k = slot T k) by (intros k; unfold slot; by rewrite Ew).
  assert (Hnl : ~ linked_in T p) by (intros Hl; pose proof (Hru p t Ht Hl); congruence). rewrite linked_in_slot in Hnl.
  assert (U : upd p T T').
  { split; try done.
    - intros q Hq. by rewrite Em, lookup_delete_ne.
    - intros k. left. rewrite Es. symmetry. apply remove_node_not_in. eauto.
    - rewrite Et. symmetry. apply remove_node_not_in. eauto.
    - intros t'. by rewrite Em, lookup_delete_eq. }
  split; [|done]. eapply upd_walk_ok; [done| |done|by intros t'; rewrite Em, lookup_delete_eq|split; [congruence|done]|done].
  split.
  - intros k q. rewrite Es. intros Hk. destruct (decide (q = p)) as [->|]; [destruct Hnl; eauto|]. rewrite Em, lookup_delete_ne by done. by apply W1.
  - intros k. rewrite Es. apply W2.
  - intros q. rewrite Et. intros Hk. destruct (decide (q = p)) as [->|]; [destruct Hnl; eauto|]. rewrite Em, lookup_delete_ne by done.
    destruct (W3 q Hk). split; [done|]. intros k. by rewrite Es.
  - by rewrite Et.
  - intros q tq. rewrite Em, Et, Es. intros [_ Hq]%lookup_delete_Some. by apply W5.
  - intros q tq. rewrite Em. intros [_ Hq]%lookup_delete_Some. destruct (W6 q tq Hq) as [x Hx]. destruct (Hi _ x Hx) as (y & ? & _). eauto.
Qed.

Context {St : Type} `{HasTimers St} (cb : Z -> loc -> SE St unit).
(** The calls of callbacks so far. *)
Context (calls : St -> list (Z * loc)) (calls_put : forall T s, calls (put_timers T s) = calls s).
(** The timers that a callback with its context may stop or change. *)
Context (touch : Z -> loc -> loc -> bool).
Context (cb_ok : forall c x p s, walk_ok (Some p) (get_timers s) ->
  exists s', cb c x s = Some (s', tt) /\ rtc (tstep (touch c x)) (get_timers s) (get_timers s') /\ calls s' = calls s ++ [(c, x)]).

Lemma on_timers_ex {A} (m : TM A) s T' a : m (get_timers s) = Some (T', a) ->
  exists s', on_timers m s = Some (s', a) /\ get_timers s' = T' /\ calls s' = calls s.
Proof. intros E. unfold on_timers. rewrite E. eexists. split; [done|]. by rewrite get_put_timers, calls_put. Qed.

(** The state after the callback, with the flag reset and the change counted. *)
Definition called (p : loc) (t : olsr_timer_entry) (i : olsr_timer_info) (T : timer_st) : timer_st :=
  with_infos (<[timer_info t := mkInfo (ti_callback i) (ti_periodic i) (ti_usage i) (u32 (ti_changes i + 1))]> (timer_infos T))
    (wr_entry p (set_in_callback false t) T).

Lemma called_info T p t i : timer_infos T !! timer_info t = Some i ->
  forall j x, timer_infos T !! j = Some x -> exists y, timer_infos (called p t i T) !! j = Some y /\ ti_callback y = ti_callback x.
Proof. intros Hi j x Hx. simpl. rewrite lookup_insert. case_decide; [subst; rewrite Hi in Hx; injection Hx as <-; eauto|eauto]. Qed.

Lemma called_ok P X T p t i : walk_ok (Some p) T -> timers T !! p = Some t -> timer_running t = true -> timer_infos T !! timer_info t = Some i ->
  walk_ok None (called p t i T) /\ moves P X T (called p t i T) /\ tmp_kept T (called p t i T).
Proof.
  intros W Ht Hr Hi. destruct (wo_entry _ _ W p t Ht) as [E1 E2 E3 E4 E5].
  destruct (wr_flag_moves P X T p t false Ht) as [M1 K1].
  assert (W1 : walk_ok None (wr_entry p (set_in_callback false t) T)).
  { eapply wr_entry_ok; [done..| |split; [congruence|done]]. split; try done. by left. }
  destruct (same_wheel P X None _ (called p t i T) W1) as (W2 & M2 & K2); try done; [exact (called_info T p t i Hi)|].
  split; [done|]. split; [eapply moves_trans; [done..|tauto|tauto]|by eapply tmp_kept_trans].
Qed.

(** What follows the callback. *)
Lemma after_callback s p t i : walk_ok (Some p) (get_timers s) -> timers (get_timers s) !! p = Some t -> timer_infos (get_timers s) !! timer_info t = Some i ->
  exists s', (on_timers (wr_timer p (set_in_callback false));;
      t ← on_timers (rd_timer p);
      on_timers (wr_info (timer_info t) (fun i => mkInfo (ti_callback i) (ti_periodic i) (ti_usage i) (u32 (ti_changes i + 1))));;
      if timer_running t then
        if negb (timer_period t =? 0) then
          on_timers (r ← random rnd; wr_timer p (set_random r);;
            olsr_timer_change (Some p) (timer_period t) (timer_jitter_pct t))
        else on_timers (olsr_timer_stop (Some p))
      else on_timers (free_timer p)) s = Some (s', tt) /\ calls s' = calls s /\
    walk_ok None (get_timers s') /\ moves (fun q => q = p) (fun _ => False) (get_timers s) (get_timers s') /\ tmp_kept (get_timers s) (get_timers s') /\
    (p ∉ tmp_list (get_timers s')) /\ due (get_timers s') p = false.
Proof.
  intros W Ht Hi. set (T := get_timers s) in *. set (t' := set_in_callback false t).
  destruct (on_timers_ex (wr_timer p (set_in_callback false)) s (wr_entry p t' T) tt) as (s1 & R1 & G1 & C1); [unfold wr_timer; fold T; by rewrite Ht|].
  erewrite bind_run by exact R1.
  destruct (on_timers_ex (rd_timer p) s1 (wr_entry p t' T) t') as (s2 & R2 & G2 & C2); [unfold rd_timer; rewrite G1; simpl; by rewrite lookup_insert_eq|].
  erewrite bind_run by exact R2.
  destruct (on_timers_ex (wr_info (timer_info t') (fun i => mkInfo (ti_callback i) (ti_periodic i) (ti_usage i) (u32 (ti_changes i + 1)))) s2 (called p t i T) tt)
    as (s3 & R3 & G3 & C3); [unfold wr_info; rewrite G2; simpl; by rewrite Hi|].
  erewrite bind_run by exact R3. assert (EC : calls s3 = calls s) by congruence. change (timer_running t') with (timer_running t).
  assert (Fin : forall T4, walk_ok None T4 -> upd p (called p t i T) T4 \/ upd p T T4 -> timer_running t = true \/ upd p T T4 ->
    moves (fun q => q = p) (fun _ => False) T T4 /\ tmp_kept T T4 /\ (p ∉ tmp_list T4) /\ due T4 p = false).
  { intros T4 W4 HU Hr. assert (HD : forall T0, upd p T0 T4 -> (p ∉ tmp_list T4) /\ due T4 p = false).
    { intros T0 U. split; [rewrite (up_tmp _ _ _ U); by intros [_ []]%elem_of_remove_node|]. unfold due. destruct (timers T4 !! p) as [t4|] eqn:E4; [|done].
      rewrite (past_now T0) by apply U. destruct (up_entry _ _ _ U t4 E4) as [[? _]|[Hf _]]; [done|].
      destruct (eo_run _ _ _ (wo_entry _ _ W4 p t4 E4)); [congruence|done]. }
    assert (upd p T T4 \/ timer_running t = true /\ upd p (called p t i T) T4) as [U|[Hr' U]] by tauto; (split; [|split; [|by eapply HD]]).
    - apply (upd_moves p T T4 (wo_ok _ _ W4) U).
    - apply (upd_moves p T T4 (wo_ok _ _ W4) U).
    - destruct (called_ok (fun q => q = p) (fun _ => False) T p t i W Ht Hr' Hi) as (_ & M & _).
      eapply moves_trans; [exact M|exact (proj1 (upd_moves p _ T4 (wo_ok _ _ W4) U))|tauto|tauto].
    - destruct (called_ok (fun q => q = p) (fun _ => False) T p t i W Ht Hr' Hi) as (_ & _ & K). eapply tmp_kept_trans; [exact K|].
      apply (upd_moves p _ T4 (wo_ok _ _ W4) U). }
  assert (Ht3 : timers (called p t i T) !! p = Some t') by apply lookup_insert_eq.
  destruct (timer_running t) eqn:Hr.
  - destruct (called_ok (fun q => q = p) (fun _ => False) T p t i W Ht Hr Hi) as (W3 & _ & _).
    destruct (wo_entry _ _ W p t Ht) as [E1 E2 E3 E4 E5]. destruct (Z.eqb_spec (timer_period t') 0) as [Ez|Ez]; simpl negb; cbv iota.
    + destruct (timer_stop_run _ p t' (wo_ok _ _ W3) Ht3 Hr) as (T4 & R4 & _).
      destruct (stop_ok None _ T4 p t' W3 Ht3 Hr R4) as (W4 & U4 & _).
      destruct (on_timers_ex (olsr_timer_stop (Some p)) s3 T4 tt) as (s4 & R4' & G4 & C4); [by rewrite G3|].
      exists s4. split; [exact R4'|]. rewrite G4. split; [congruence|]. split; [done|]. apply Fin; [done|by left|by left].
    + set (r := rnd (rand_pos (called p t i T))). set (T3 := mkTimers (timer_wheel T) (tmp_list T) (timers (called p t i T)) (timer_infos (called p t i T)) (timer_last_run T) (now T) (S (rand_pos T))).
      destruct (same_wheel (fun _ => False) (fun _ => False) None _ T3 W3) as (W3' & _ & _); try done; [eauto|].
      assert (W3r : walk_ok None (wr_entry p (set_random r t') T3)).
      { eapply wr_entry_ok; [done|exact Ht3|done..| |done]. split; try done; [apply rnd_ok|by left]. }
      assert (Ht3r : timers (wr_entry p (set_random r t') T3) !! p = Some (set_random r t')) by apply lookup_insert_eq.
      destruct (w_info _ (wo_ok _ _ W3r) p _ Ht3r) as [x Hx].
      destruct (timer_change_run _ p _ x (timer_period t') (timer_jitter_pct t') (wo_ok _ _ W3r) Ht3r ltac:(by eapply running_linked; [apply W3r| |]) Hx) as (T4 & R4 & _).
      destruct (change_ok None _ T4 p _ (timer_period t') (timer_jitter_pct t') W3r Ht3r Hr) as (W4 & U4); [simpl in *; lia|done|exact R4|].
      destruct (on_timers_ex (r ← random rnd; wr_timer p (set_random r);; olsr_timer_change (Some p) (timer_period t') (timer_jitter_pct t')) s3 T4 tt) as (s4 & R4' & G4 & C4).
      { rewrite G3. erewrite bind_run by reflexivity. erewrite bind_run; [exact R4|]. unfold wr_timer. simpl. by rewrite lookup_insert_eq. }
      exists s4. split; [exact R4'|]. rewrite G4. split; [congruence|]. split; [done|]. apply Fin; [done| |by left]. left.
      apply upd_wr_entry in U4. destruct U4 as [U1 U2 U3 U4 U5 U6 U7]. by split.
  - set (T4 := with_timers (delete p (timers (called p t i T))) (called p t i T)).
    destruct (fired_free_ok T T4 p t W Ht Hr) as [W4 U4]; try done; [simpl; by rewrite delete_insert_eq|by apply called_info|].
    destruct (on_timers_ex (free_timer p) s3 T4 tt) as (s4 & R4' & G4 & C4); [rewrite G3; unfold free_timer; by rewrite Ht3|].
    exists s4. split; [exact R4'|]. rewrite G4. split; [congruence|]. split; [done|]. apply Fin; [done|by right|by right].
Qed.

Definition fire_moves (c : Z) (x : loc) (p q : loc) : Prop := q = p \/ touches (touch c x) q.

(** A timer that is due calls back; then it is removed, or it is rescheduled into the future. *)
Lemma fire_ok s p t i : walk_ok None (get_timers s) -> timers (get_timers s) !! p = Some t -> timer_infos (get_timers s) !! timer_info t = Some i ->
  exists s', timer_fire rnd cb p s = Some (s', tt) /\ calls s' = calls s ++ [(ti_callback i, timer_cb_context t)] /\
    walk_ok None (get_timers s') /\ moves (fire_moves (ti_callback i) (timer_cb_context t) p) (fun _ => False) (get_timers s) (get_timers s') /\
    tmp_kept (get_timers s) (get_timers s') /\ (p ∉ tmp_list (get_timers s')) /\ due (get_timers s') p = false.
Proof.
  intros W Ht Hi. set (T := get_timers s) in *. unfold timer_fire. set (t1 := set_in_callback true t).
  destruct (on_timers_ex (rd_timer p) s T t) as (s0 & R0 & G0 & C0); [unfold rd_timer; fold T; by rewrite Ht|]. erewrite bind_run by exact R0.
  destruct (on_timers_ex (wr_timer p (set_in_callback true)) s0 (wr_entry p t1 T) tt) as (s1 & R1 & G1 & C1); [unfold wr_timer; by rewrite G0, Ht|].
  erewrite bind_run by exact R1.
  destruct (on_timers_ex (rd_info (timer_info t)) s1 (wr_entry p t1 T) i) as (s2 & R2 & G2 & C2); [unfold rd_info; rewrite G1; simpl; by rewrite Hi|].
  erewrite bind_run by exact R2.
  destruct (wo_entry _ _ W p t Ht) as [E1 E2 E3 E4 E5]. destruct (wr_flag_moves (fire_moves (ti_callback i) (timer_cb_context t) p) (fun _ => False) T p t true Ht) as [M1 K1].
  assert (W1 : walk_ok (Some p) (wr_entry p t1 T)).
  { eapply wr_entry_ok; [done..| |split; [done|congruence]]. split; try done; [by symmetry; apply bool_decide_eq_true|by right]. }
  destruct (cb_ok (ti_callback i) (timer_cb_context t) p s2) as (s3 & R3 & S3 & C3); [by rewrite G2|]. erewrite bind_run by exact R3.
  rewrite G2 in S3. destruct (steps_ok (Some p) _ _ _ S3 W1) as (W3 & M3 & K3).
  destruct (wo_cb _ _ W3 p eq_refl) as [t3 Ht3]. destruct (w_info _ (wo_ok _ _ W3) p t3 Ht3) as [i3 Hi3].
  destruct (after_callback s3 p t3 i3 W3 Ht3 Hi3) as (s4 & R4 & C4 & W4 & M4 & K4 & N4 & D4).
  exists s4. split; [exact R4|]. split; [congruence|]. split; [done|]. split_and!; try done.
  - assert (M34 : moves (fire_moves (ti_callback i) (timer_cb_context t) p) (fun _ => False) (wr_entry p t1 T) (get_timers s4)).
    { eapply moves_trans; [exact M3|exact M4|unfold fire_moves; tauto|tauto]. }
    eapply moves_trans; [exact M1|exact M34|tauto|tauto].
  - eapply tmp_kept_trans; [exact K1|]. by eapply tmp_kept_trans.
Qed.

(** ** One slot *)

(** Whether one of the calls may stop or change the timer. *)
Definition touched (new : list (Z * loc)) (q : loc) : bool := existsb (fun e => touch e.1 e.2 q) new.

Lemma touched_cons c x new q : touched ((c, x) :: new) q = touch c x q || touched new q.
Proof. done. Qed.
Lemma touched_app new new' q : touched (new ++ new') q = touched new q || touched new' q.
Proof. apply existsb_app. Qed.

Lemma elem_of_dues T k q : q ∈ dues T k <-> q ∈ slot T k /\ due T q = true.
Proof. unfold dues. rewrite list_elem_of_filter. tauto. Qed.

Lemma due_entry T q : due T q = true <-> exists t, timers T !! q = Some t /\ past T t = true.
Proof. unfold due. destruct (timers T !! q); split; [eauto|by intros (? & [= ->] & ?)|done|by intros (? & ? & _)]. Qed.

Lemma due_running T k q : walk_ok None T -> q ∈ dues T k -> exists t, timers T !! q = Some t /\ past T t = true /\ timer_running t = true.
Proof.
  intros W [Hs (t & Ht & Hp)%due_entry]%elem_of_dues. exists t. split; [done|]. split; [done|]. apply (wo_run _ _ W q t Ht), linked_in_slot. eauto.
Qed.

(** A timer that is left alone stays due. *)
Lemma moves_due P X T T' k q : moves P X T T' -> ~ P q -> ~ X k -> q ∈ dues T k -> q ∈ dues T' k.
Proof.
  intros M HP HX [Hs (t & Ht & Hp)%due_entry]%elem_of_dues. destruct (mv_rest _ _ _ _ M q t Ht HP) as [(t' & Ht' & Ec) Hsl].
  apply elem_of_dues. split; [by apply Hsl|]. apply due_entry. exists t'. split; [done|]. apply core_eq in Ec as (_ & Ec & _).
  unfold past in *. by rewrite Ec, (mv_now _ _ _ _ M).
Qed.

Lemma fired_moves P X T T' l : timers_ok T -> walk_ok None T' -> moves P X T T' -> (forall q, q ∈ l -> exists k, q ∈ dues T' k) -> fired T' l = fired T l.
Proof.
  intros Ok W M. induction l as [|q l IH]; intros Hl; [done|]. destruct (Hl q ltac:(left)) as [k Hk].
  destruct (due_running T' k q W Hk) as (t' & Ht' & Hp & Hr). rewrite (past_now T T') in Hp by apply M.
  destruct (mv_entry _ _ _ _ M q t' Ht' Hr Hp) as (t & Ht & (_ & Ec & Ei & Ex)%core_eq). destruct (w_info _ Ok q t Ht) as [i Hi].
  destruct (mv_info _ _ _ _ M _ i Hi) as (i' & Hi' & Eb). rewrite Ei in Hi'.
  rewrite (fired_cons T' q l t' i'), (fired_cons T q l t i), IH by (done || (intros; apply Hl; by right)).
  rewrite (past_now T T') by apply M. unfold past. by rewrite Ec, Eb, Ex.
Qed.

Definition tmp_in (k : Z) (T : timer_st) : Prop := forall q t, q ∈ tmp_list T -> timers T !! q = Some t -> slot_of (timer_clock t) = k /\ past T t = false.

(** The loop over a slot: the timers of [l] have fired. *)
Record slot_done (k : Z) (l : list loc) (new : list (Z * loc)) (T T' : timer_st) : Prop := {
  sd_ok : walk_ok None T';
  sd_new : new = fired T l;
  sd_sub : sublist l (dues T k);
  sd_moves : moves (fun q => q ∈ l \/ touched new q = true) (fun k' => k' = k) T T';
  sd_last : timer_last_run T' = timer_last_run T;
  sd_slot : slot T' k = [];
  sd_tmp : tmp_in k T';
  sd_all : forall q, q ∈ dues T k -> q ∈ l \/ touched new q = true
}.

Lemma visit_walk T k p r : walk_ok None T -> slot T k = p :: r ->
  walk_ok None (visit p T) /\ moves (fun _ => False) (fun k' => k' = k) T (visit p T) /\
  dues T k = (if due T p then [p] else []) ++ dues (visit p T) k.
Proof.
  intros [Ok Hn He Hr Hc] E. assert (Hp : p ∈ slot T k) by (rewrite E; left).
  assert (Ed : forall q, due (visit p T) q = due T q) by done.
  assert (Ek : dues T k = (if due T p then [p] else []) ++ dues (visit p T) k).
  { unfold dues at 1. rewrite E, filter_cons. unfold dues. rewrite (visit_slot T k p r Ok E). case_decide as D; [by rewrite D|].
    by destruct (due T p). }
  split; [|split; [|done]].
  - split; [by eapply visit_ok|done|done| |done]. intros q t Hq Hl. apply (Hr q t Hq). apply linked_in_slot. apply linked_in_slot in Hl as [Hl|[k' Hk']].
    + apply elem_of_cons in Hl as [->|Hl]; [eauto|]. apply elem_of_remove_node in Hl as [Hl _]. by left.
    + right. exists k'. change (slot (visit p T) k') with (slot (unlink p T) k') in Hk'. rewrite slot_unlink in Hk'. by apply elem_of_remove_node in Hk' as [? _].
  - split; [done|eauto| |eauto|].
    + intros k'. destruct (decide (k' = k)) as [->|Hk']; [rewrite Ek; by apply sublist_inserts_l|]. unfold dues. by rewrite (visit_other T k p k' Ok Hp Hk').
    + intros q t Hq _. split; [eauto|]. intros k' Hk'. by rewrite (visit_other T k p k' Ok Hp Hk').
Qed.

Lemma walk_slot_ok k : forall n m s, walk_ok None (get_timers s) -> tmp_in k (get_timers s) ->
  (length (dues (get_timers s) k) <= n)%nat -> (length (slot (get_timers s) k) <= m)%nat ->
  exists f s' l new, (forall fuel, (f <= fuel)%nat -> walk_slot rnd cb fuel k s = Some (s', tt)) /\ calls s' = calls s ++ new /\
    slot_done k l new (get_timers s) (get_timers s').
Proof.
  induction n as [n IHn] using lt_wf_ind. induction m as [m IHm] using lt_wf_ind. intros s W Ht Hn Hm. set (T := get_timers s) in *.
  destruct (on_timers_ex (se_get (fun T => slot T k)) s T (slot T k)) as (s0 & R0 & G0 & C0); [done|].
  destruct (slot T k) as [|p r] eqn:E.
  { exists 1%nat, s0, [], []. split; [|rewrite G0; split; [by rewrite app_nil_r|]].
    - intros [|fuel] Hf; [lia|]. cbn [walk_slot]. by erewrite bind_run by exact R0.
    - split; try done; [apply sublist_nil_l|apply moves_refl|]. intros q. unfold dues. rewrite E. set_solver. }
  destruct (visit_walk T k p r W E) as (W1 & M1 & Ed). assert (Hp : p ∈ slot T k) by (rewrite E; left).
  destruct (w_slot _ (wo_ok _ _ W) k p Hp) as (t & Htp & Ec).
  destruct (on_timers_ex (tl_remove p;; tl_push_tmp p) s0 (visit p T) tt) as (s1 & R1 & G1 & C1).
  { rewrite G0. erewrite bind_run; [reflexivity|]. apply tl_remove_run, linked_in_slot. eauto. }
  destruct (on_timers_ex (rd_timer p) s1 (visit p T) t) as (s2 & R2 & G2 & C2); [rewrite G1; unfold rd_timer; simpl; by rewrite Htp|].
  destruct (on_timers_ex (se_get now) s2 (visit p T) (now T)) as (s3 & R3 & G3 & C3); [by rewrite G2|].
  assert (Run : forall fuel, walk_slot rnd cb (S fuel) k s = ((if past T t then timer_fire rnd cb p else mret tt);; walk_slot rnd cb fuel k) s3).
  { intros fuel. match goal with |- _ = ?r => set (R := r) end. cbn [walk_slot]. erewrite bind_run by exact R0. cbv beta iota. erewrite bind_run by exact R1. erewrite bind_run by exact R2.
    erewrite bind_run by exact R3. done. }
  assert (Edp : due T p = past T t) by (unfold due; by rewrite Htp). rewrite Edp in Ed.
  assert (Vt : forall q tq, q ∈ tmp_list (visit p T) -> timers T !! q = Some tq -> q <> p -> slot_of (timer_clock tq) = k /\ past T tq = false).
  { intros q tq [->|Hq]%elem_of_cons Htq Hne; [done|]. apply elem_of_remove_node in Hq as [Hq _]. by apply (Ht q tq). }
  destruct (past T t) eqn:Epast.
  - destruct (w_info _ (wo_ok _ _ W) p t Htp) as [i Hi].
    destruct (fire_ok s3 p t i) as (s4 & R4 & C4 & W4 & M4 & [El4 K4] & N4 & D4); [by rewrite G3|by rewrite G3|by rewrite G3|]. rewrite G3 in *.
    set (c := ti_callback i) in *. set (x := timer_cb_context t) in *.
    assert (M14 : moves (fire_moves c x p) (fun k' => k' = k) T (get_timers s4)) by (eapply moves_trans; [exact M1|exact M4|tauto|tauto]).
    pose proof (sublist_length _ _ (mv_dues _ _ _ _ M4 k)) as L4. rewrite Ed in Hn. simpl in Hn.
    destruct (IHn (length (dues (get_timers s4) k)) ltac:(lia) (length (slot (get_timers s4) k)) s4 W4) as (f & s5 & l & new & R5 & C5 & D5); [|lia..|].
    { intros q tq Hq Htq. destruct (K4 q tq Hq Htq) as (Hq1 & t0 & Ht0 & Ecl). destruct (Vt q t0 Hq1 Ht0) as [V1 V2]; [by intros ->|].
      unfold past in *. rewrite <- Ecl. by rewrite (mv_now _ _ _ _ M14). }
    destruct D5 as [V1 V2 V3 V4 V5 V6 V7 V8].
    exists (S f), s5, (p :: l), ((c, x) :: new). split; [|split; [rewrite C5, C4; by rewrite <- app_assoc, C3, C2, C1, C0|]].
    { intros [|fuel] Hf; [lia|]. rewrite Run. erewrite bind_run by exact R4. apply R5. lia. }
    assert (Hl : forall q, q ∈ l -> exists k, q ∈ dues (get_timers s4) k) by (intros q Hq; exists k; eapply elem_of_sublist; [exact Hq|exact V3]).
    split; try done.
    + rewrite (fired_cons T p l t i Htp Hi), Epast. simpl. f_equal. rewrite V2. by apply (fired_moves _ _ T _ l (wo_ok _ _ W) W4 M14).
    + rewrite Ed. simpl. apply sublist_skip. transitivity (dues (get_timers s4) k); [exact V3|apply (mv_dues _ _ _ _ M4)].
    + eapply moves_trans; [exact M14|exact V4| |tauto]. unfold fire_moves, touches. intros q Hq. rewrite touched_cons, orb_true_iff, elem_of_cons. tauto.
    + by rewrite V5, El4.
    + intros q. rewrite touched_cons, orb_true_iff, elem_of_cons, Ed. simpl. intros [->|Hq]%elem_of_cons; [by left; left|].
      destruct (touch c x q) eqn:Etq; [by right; left|]. destruct (decide (q = p)) as [->|Hqp]; [by left; left|].
      destruct (V8 q) as [?|?]; [|by left; right|by right; right]. eapply moves_due; [exact M4| |tauto|done].
      intros [?|Ht']; [done|]. unfold touches in Ht'. congruence.
  - destruct (IHm (length r) ltac:(simpl in Hm; lia) s3) as (f & s5 & l & new & R5 & C5 & D5); rewrite ?G3; try done.
    { intros q tq Hq Htq. destruct (decide (q = p)) as [->|]; [|by eapply Vt]. simpl in Htq. rewrite Htp in Htq. injection Htq as <-. done. }
    { rewrite Ed in Hn. done. }
    { by rewrite (visit_slot T k p r (wo_ok _ _ W) E). }
    rewrite G3 in D5. destruct D5 as [V1 V2 V3 V4 V5 V6 V7 V8].
    exists (S f), s5, l, new. split; [|split; [congruence|]].
    { intros [|fuel] Hf; [lia|]. rewrite Run. erewrite bind_run by reflexivity. apply R5. lia. }
    simpl in Ed. split; try done.
    + by rewrite Ed.
    + eapply moves_trans; [exact M1|exact V4|tauto|tauto].
    + intros q. rewrite Ed. apply V8.
Qed.

(** ** The whole walk *)

(** The slots of [V] were visited, and the timers of [l] have fired. *)
Record slots_done (V : list Z) (l : list loc) (new : list (Z * loc)) (T T' : timer_st) : Prop := {
  va_ok : walk_ok None T';
  va_tmp : tmp_list T' = [];
  va_new : new = fired T l;
  va_sub : sublist l (V ≫= dues T);
  va_moves : moves (fun q => q ∈ l \/ touched new q = true) (fun k => k ∈ V) T T';
  va_dues : forall k, k ∈ V -> dues T' k = [];
  va_all : forall k q, k ∈ V -> q ∈ dues T k -> q ∈ l \/ touched new q = true
}.

Lemma slots_done_nil T : walk_ok None T -> tmp_list T = [] -> slots_done [] [] [] T T.
Proof. intros W E. split; try done; [apply moves_refl|set_solver..]. Qed.

Lemma merged_walk P T k : walk_ok None T -> slot T k = [] -> tmp_in k T ->
  walk_ok None (merged k T) /\ moves P (fun _ => False) T (merged k T) /\ dues (merged k T) k = [].
Proof.
  intros [Ok Hn He Hr Hc] Es Ht.
  assert (Sk : slot (merged k T) k = tmp_list T) by (unfold slot, merged; simpl; rewrite lookup_insert_eq; simpl; by rewrite Es, app_nil_r).
  assert (Ed : dues (merged k T) k = []).
  { apply elem_of_nil_inv. intros q [Hq (t & Ht' & Hp)%due_entry]%elem_of_dues. rewrite Sk in Hq. destruct (Ht q t Hq Ht') as [_ Hf]. change (past (merged k T) t) with (past T t) in Hp. congruence. }
  split; [|split; [|done]].
  - split; [|done|done| |done]; [apply merged_ok; [done|done|]; intros q t Hq Hq'; by apply (Ht q t)|].
    intros q t Hq Hl. apply (Hr q t Hq). apply linked_in_slot. apply linked_in_slot in Hl as [Hl|[k' Hk']]; [simpl in Hl; set_solver|].
    destruct (decide (k' = k)) as [->|Hne]; [rewrite Sk in Hk'; by left|]. rewrite merged_slot in Hk' by done. eauto.
  - split; [done|eauto| |eauto|].
    + intros k'. destruct (decide (k' = k)) as [->|Hne]; [rewrite Ed; apply sublist_nil_l|]. unfold dues. by rewrite merged_slot.
    + intros q t Hq _. split; [eauto|]. intros k' _. destruct (decide (k' = k)) as [->|Hne]; [rewrite Es; set_solver|]. by rewrite merged_slot.
Qed.

(** One more slot. *)
Lemma round_ok T0 s V l new k : timers_ok T0 -> slots_done V l new T0 (get_timers s) -> k ∉ V ->
  exists f s' l' new', (forall fuel, (f <= fuel)%nat ->
      (on_timers (se_mod (fun T => with_wheel (timer_wheel T) [] T));; walk_slot rnd cb fuel k;; on_timers (tl_merge k)) s = Some (s', tt)) /\
    calls s' = calls s ++ new' /\ slots_done (V ++ [k]) (l ++ l') (new ++ new') T0 (get_timers s') /\
    timer_last_run (get_timers s') = timer_last_run (get_timers s).
Proof.
  intros Ok0 [A1 A2 A3 A4 A5 A6 A7] Hk. set (T := get_timers s) in *.
  assert (ET : with_wheel (timer_wheel T) [] T = T) by (unfold with_wheel; rewrite <- A2; by destruct T).
  destruct (on_timers_ex (se_mod (fun T => with_wheel (timer_wheel T) [] T)) s T tt) as (s1 & R1 & G1 & C1); [unfold se_mod; fold T; by rewrite ET|].
  destruct (walk_slot_ok k _ _ s1 ltac:(by rewrite G1) ltac:(rewrite G1; intros q t; rewrite A2; set_solver) (le_n _) (le_n _)) as (f & s2 & l' & new' & R2 & C2 & D2).
  rewrite G1 in D2. destruct D2 as [V1 V2 V3 V4 V5 V6 V7 V8].
  destruct (merged_walk (fun q => q ∈ l' \/ touched new' q = true) _ k V1 V6 V7) as (W3 & M3 & E3).
  destruct (on_timers_ex (tl_merge k) s2 (merged k (get_timers s2)) tt) as (s3 & R3 & G3 & C3); [done|].
  exists f, s3, l', new'. rewrite G3.
  assert (M03 : moves (fun q => q ∈ l ++ l' \/ touched (new ++ new') q = true) (fun k' => k' ∈ V ++ [k]) T0 (merged k (get_timers s2))).
  { assert (M23 : moves (fun q => q ∈ l' \/ touched new' q = true) (fun k' => k' = k) T (merged k (get_timers s2))) by (eapply moves_trans; [exact V4|exact M3|tauto|tauto]).
    eapply moves_trans; [exact A5|exact M23| |set_solver]. intros q. rewrite touched_app, orb_true_iff, elem_of_app. tauto. }
  assert (Hl : forall q, q ∈ l' -> exists k, q ∈ dues T k) by (intros q Hq; exists k; eapply elem_of_sublist; [exact Hq|exact V3]).
  split_and!; [|congruence| |by rewrite <- V5].
  { intros fuel Hf. erewrite bind_run by exact R1. erewrite bind_run by (by apply R2). exact R3. }
  split; try done.
  - rewrite fired_app, A3, V2. f_equal. by apply (fired_moves _ _ T0 T l' Ok0 A1 A5).
  - rewrite bind_app. apply sublist_app; [done|]. simpl. rewrite app_nil_r. transitivity (dues T k); [done|apply (mv_dues _ _ _ _ A5)].
  - intros k' [Hk'| ->%list_elem_of_singleton]%elem_of_app; [|done]. apply sublist_nil_r. rewrite <- (A6 k' Hk').
    transitivity (dues (get_timers s2) k'); [apply (mv_dues _ _ _ _ M3)|apply (mv_dues _ _ _ _ V4)].
  - intros k' q Hk' Hq. rewrite touched_app, orb_true_iff, elem_of_app. apply elem_of_app in Hk' as [Hk'| ->%list_elem_of_singleton]; [destruct (A7 k' q Hk' Hq); tauto|].
    destruct (decide (q ∈ l)) as [|Hnl]; [tauto|]. destruct (touched new q) eqn:Et; [tauto|].
    assert (q ∈ dues T k) as Hq'; [|destruct (V8 q Hq'); tauto]. eapply moves_due; [exact A5| |done|done]. intros [?|?]; [done|congruence].
Qed.

Lemma slots_done_last V l new T0 T r : slots_done V l new T0 T -> slots_done V l new T0 (with_last_run r T).
Proof.
  intros [[[] ? ? ? ?] ? ? ? [] ? ?]. by split; try done; split.
Qed.

Lemma walk_slots_ok T0 c0 n : forall s V l new, timers_ok T0 -> slots_done V l new T0 (get_timers s) -> calls s = c0 ++ new ->
  0 <= timer_last_run (get_timers s) -> now T0 < 2 ^ 32 - 1 ->
  (forall k, k ∈ window (timer_last_run (get_timers s)) (visited T0 (get_timers s) n) -> k ∉ V) -> Z.of_nat n <= 1024 ->
  exists f s' l' new', (forall fuel, (f <= fuel)%nat -> walk_slots rnd cb fuel n s = Some (s', tt)) /\ calls s' = c0 ++ new' /\
    slots_done (V ++ window (timer_last_run (get_timers s)) (visited T0 (get_timers s) n)) l' new' T0 (get_timers s').
Proof.
  induction n as [|n IH]; intros s V l new Ok W C Hr Hnow HV Hn.
  { exists 0%nat, s, l, new. split; [done|]. split; [done|]. simpl. by rewrite app_nil_r. }
  set (T := get_timers s) in *. pose proof (mv_now _ _ _ _ (va_moves _ _ _ _ _ W)) as En.
  destruct (on_timers_ex (se_get (fun T => T)) s T T) as (s1 & R1 & G1 & C1); [done|].
  destruct (Z.leb_spec (timer_last_run T) (now T0)) as [Hle|Hgt].
  2: { assert (visited T0 T (S n) = 0%nat) as -> by (unfold visited; lia). exists 0%nat, s1, l, new. simpl. rewrite app_nil_r, G1.
    split; [|split; [congruence|done]]. intros fuel _. erewrite bind_run by exact R1. cbv beta. by destruct (Z.leb_spec (timer_last_run T) (now T)); [lia|]. }
  assert (Hvis : visited T0 T (S n) = S (visited T0 (with_last_run (timer_last_run T + 1) T) n)) by (unfold visited; simpl timer_last_run; lia).
  rewrite Hvis in *. simpl window in *.
  destruct (round_ok T0 s1 V l new (slot_of (timer_last_run T)) Ok) as (f1 & s2 & l2 & new2 & R2 & C2 & W2 & L2); [by rewrite G1|apply HV; left|].
  rewrite G1 in L2. set (T2 := with_last_run (timer_last_run T + 1) (get_timers s2)).
  destruct (on_timers_ex (se_mod (fun T => with_last_run (u32 (timer_last_run T + 1)) T)) s2 T2 tt) as (s3 & R3 & G3 & C3).
  { unfold se_mod, T2. by rewrite L2, wrapu_id by (unfold is_u; lia). }
  destruct (IH s3 (V ++ [slot_of (timer_last_run T)]) (l ++ l2) (new ++ new2) Ok) as (f3 & s4 & l4 & new4 & R4 & C4 & W4);
    rewrite ?G3; try done; try (simpl; lia).
  - by apply slots_done_last.
  - rewrite C3, C2, C1, C. by rewrite app_assoc.
  - intros k Hk [Hk'|Hk']%elem_of_app; [by apply (HV k); [right|]|]. apply list_elem_of_singleton in Hk'. subst k.
    assert (ND : NoDup (window (timer_last_run T) (visited T0 T (S n)))) by (apply window_nodup; unfold visited; lia).
    rewrite Hvis in ND. apply NoDup_cons in ND as [ND _]. by apply ND.
  - exists (Nat.max f1 f3), s4, l4, new4. split; [|split; [done|]].
    + intros fuel Hf. cbn [walk_slots]. erewrite bind_run by exact R1. cbv beta. rewrite En. destruct (Z.leb_spec (timer_last_run T) (now T0)); [|lia].
      cbv zeta. fold (slot_of (timer_last_run T)). erewrite seq3_run by (apply R2; lia). erewrite bind_run by exact R3. apply R4. lia.
    + rewrite G3, <- app_assoc in W4. exact W4.
Qed.

Lemma walk_ok_run s : walk_ok None (get_timers s) -> tmp_list (get_timers s) = [] -> 0 <= timer_last_run (get_timers s) -> now (get_timers s) < 2 ^ 32 - 1 ->
  exists f s' l new, (forall fuel, (f <= fuel)%nat -> olsr_timer_walk rnd cb fuel s = Some (s', tt)) /\ calls s' = calls s ++ new /\
    slots_done (window (timer_last_run (get_timers s)) (visited (get_timers s) (get_timers s) 1024)) l new (get_timers s) (get_timers s') /\
    timer_last_run (get_timers s') = now (get_timers s).
Proof.
  intros W Et Hr Hn. destruct (walk_slots_ok (get_timers s) (calls s) 1024 s [] [] [] (wo_ok _ _ W)) as (f & s1 & l & new & R & C & D);
    [by apply slots_done_nil|by rewrite app_nil_r|done|done|set_solver|lia|].
  destruct (on_timers_ex (se_mod (fun T => with_last_run (now T) T)) s1 (with_last_run (now (get_timers s1)) (get_timers s1)) tt) as (s2 & R2 & G2 & C2); [done|].
  exists f, s2, l, new. split; [|split; [congruence|]].
  - intros fuel Hf. unfold olsr_timer_walk. change (Z.to_nat TIMER_WHEEL_SLOTS) with 1024%nat. erewrite bind_run by (by apply R). exact R2.
  - rewrite G2. split; [by apply slots_done_last|]. simpl. apply (mv_now _ _ _ _ (va_moves _ _ _ _ _ D)).
Qed.

(** A timer that is due at the end of a walk was due before it, and the walk did not come by its slot. *)
Lemma nothing_due T T' l new q t : slots_done (window (timer_last_run T) (visited T T 1024)) l new T T' -> timers T' !! q = Some t -> past T t = true ->
  (exists t0, timers T !! q = Some t0 /\ core t0 = core t) /\ ~ (timer_last_run T <= timer_clock t <= now T) /\ now T - timer_last_run T < 1023.
Proof.
  intros D Hq Hp. pose proof (va_ok _ _ _ _ _ D) as W. pose proof (va_moves _ _ _ _ _ D) as M.
  assert (Hr : timer_running t = true) by (by destruct (eo_run _ _ _ (wo_entry _ _ W q t Hq))).
  split; [by apply (mv_entry _ _ _ _ M)|].
  assert (Hk : slot_of (timer_clock t) ∉ window (timer_last_run T) (visited T T 1024)).
  { intros Hk. assert (q ∈ dues T' (slot_of (timer_clock t))) as Hd; [|rewrite (va_dues _ _ _ _ _ D) in Hd by done; set_solver].
    apply elem_of_dues. split; [|apply due_entry; exists t; by rewrite (past_now T) by apply M].
    destruct (w_linked _ (wo_ok _ _ W) q t Hq Hr) as [Ht|?]; [|done]. rewrite (va_tmp _ _ _ _ _ D) in Ht. set_solver. }
  assert (Hs : now T - timer_last_run T < 1023).
  { apply Znot_ge_lt. intros Hge. apply Hk. assert (visited T T 1024 = 1024%nat) as -> by (unfold visited; lia).
    apply window_all. rewrite slot_of_mod. apply Z.mod_pos_bound. lia. }
  split; [|done]. intros Hc. by apply Hk, window_covers.
Qed.

Lemma core_id t t0 : core t0 = core t -> timer_in_callback t0 = timer_in_callback t -> t0 = t.
Proof. destruct t0, t. unfold core, set_in_callback. simpl. intros [=] ?. by simplify_eq. Qed.

Lemma dues_nodup T V : timers_ok T -> NoDup V -> NoDup (V ≫= dues T).
Proof.
  intros Ok. induction V as [|k V IH]; intros ND; [constructor|]. apply NoDup_cons in ND as [Hk ND]. simpl. apply NoDup_app. split_and!; [| |by apply IH].
  - unfold dues. apply NoDup_filter, Ok.
  - intros q [Hq _]%elem_of_dues (k' & [Hq' _]%elem_of_dues & Hk')%list_elem_of_bind.
    destruct (w_slot _ Ok k q Hq) as (t & Ht & E), (w_slot _ Ok k' q Hq') as (t' & Ht' & E'). rewrite Ht in Ht'. injection Ht' as <-. congruence.
Qed.

(** C13: A walk of the timer wheel ends, whatever the callbacks do with the
    timers: they may start timers, and stop and change the timers [touch] says,
    among them the one that is firing. Exactly the timers of a list [l] fire, each
    once, in the order of the visited slots (those of the milliseconds since
    the last walk, or all if a whole turn of the wheel has passed) and of the
    timers within a slot, and all of them were due when the walk began. Every due
    timer of these slots is in [l] or was stopped or changed by one of the
    callbacks. A timer that did not fire and that no callback touched is as
    it was. Afterwards the wheel is well formed, and a timer can be overdue
    only if its expiry lies before the last walk. The clock has not wrapped around
    since the last walk. *)
Theorem timer_walk_correct s :
  walk_ok None (get_timers s) -> tmp_list (get_timers s) = [] -> 0 <= timer_last_run (get_timers s) -> now (get_timers s) < 2 ^ 32 - 1 ->
  let T := get_timers s in let V := window (timer_last_run T) (visited T T 1024) in
  exists f s' l, (forall fuel, (f <= fuel)%nat -> olsr_timer_walk rnd cb fuel s = Some (s', tt)) /\
    calls s' = calls s ++ fired T l /\ length (fired T l) = length l /\ NoDup l /\ sublist l (V ≫= dues T) /\
    (forall k q, k ∈ V -> q ∈ dues T k -> q ∈ l \/ touched (fired T l) q = true) /\
    (forall q t, timers T !! q = Some t -> q ∉ l -> touched (fired T l) q = false -> timers (get_timers s') !! q = Some t) /\
    walk_ok None (get_timers s') /\ tmp_list (get_timers s') = [] /\ timer_last_run (get_timers s') = now T /\
    (forall q t, timers (get_timers s') !! q = Some t -> past T t = true ->
      timers T !! q = Some t /\ ~ (timer_last_run T <= timer_clock t <= now T) /\ now T - timer_last_run T < 1023).
Proof.
  intros W Et Hr Hn T V. destruct (walk_ok_run s W Et Hr Hn) as (f & s' & l & new & R & C & D & L). fold T in D, L. fold V in D.
  pose proof (va_new _ _ _ _ _ D) as En. pose proof (va_sub _ _ _ _ _ D) as Sub. pose proof (va_ok _ _ _ _ _ D) as W'. rewrite En in *.
  assert (HV : NoDup V) by (apply window_nodup; unfold visited; lia).
  exists f, s', l. split_and!; try done.
  - assert (Hl : forall q, q ∈ l -> due T q = true).
    { intros q Hq. apply (elem_of_sublist _ _ _ Hq) in Sub. apply list_elem_of_bind in Sub as (k & [_ ?]%elem_of_dues & _). done. }
    clear -W Hl. fold T in W. induction l as [|q l IH]; [done|]. destruct (proj1 (due_entry T q) (Hl q ltac:(left))) as (t & Ht & Hp).
    destruct (w_info _ (wo_ok _ _ W) q t Ht) as [i Hi]. rewrite (fired_cons T q l t i Ht Hi), Hp. simpl. f_equal. apply IH. intros r Hq. apply Hl. by right.
  - eapply sublist_NoDup; [|exact Sub]. by apply dues_nodup; [apply W|].
  - apply (va_all _ _ _ _ _ D).
  - intros q t Hq Hl Ht. destruct (mv_rest _ _ _ _ (va_moves _ _ _ _ _ D) q t Hq) as [(t' & Hq' & Ec) _]; [intros [?|?]; [done|congruence]|].
    rewrite Hq'. f_equal. apply core_id; [done|]. rewrite (eo_cb _ _ _ (wo_entry _ _ W' q t' Hq')), (eo_cb _ _ _ (wo_entry _ _ W q t Hq)). done.
  - apply (va_tmp _ _ _ _ _ D).
  - intros q t Hq Hp. destruct (nothing_due T _ l _ q t D Hq Hp) as [(t0 & H0 & Ec) Hw]. split; [|done]. rewrite H0. f_equal.
    apply core_id; [done|]. rewrite (eo_cb _ _ _ (wo_entry _ _ W' q t Hq)), (eo_cb _ _ _ (wo_entry _ _ W q t0 H0)). done.
Qed.

(** C20: A timer whose time has come since the last walk is called back in the
    walk, unless one of the callbacks that were called before may stop or change
    it; in both cases it is not overdue afterwards: it was rescheduled into
    the future or is gone. The clock has not wrapped around since the last walk. *)
Theorem due_timer_fires s q t i :
  walk_ok None (get_timers s) -> tmp_list (get_timers s) = [] -> 0 <= timer_last_run (get_timers s) -> now (get_timers s) < 2 ^ 32 - 1 ->
  timers (get_timers s) !! q = Some t -> timer_infos (get_timers s) !! timer_info t = Some i ->
  timer_last_run (get_timers s) <= timer_clock t <= now (get_timers s) -> now (get_timers s) - timer_clock t < 2 ^ 31 ->
  exists f s' new, (forall fuel, (f <= fuel)%nat -> olsr_timer_walk rnd cb fuel s = Some (s', tt)) /\ calls s' = calls s ++ new /\
    ((ti_callback i, timer_cb_context t) ∈ new \/ touched new q = true) /\
    forall t', timers (get_timers s') !! q = Some t' -> past (get_timers s) t' = false.
Proof.
  intros W Et Hr Hn Hq Hi Hc Hh. destruct (walk_ok_run s W Et Hr Hn) as (f & s' & l & new & R & C & D & L). set (T := get_timers s) in *.
  assert (Hp : past T t = true) by (apply past_of_clock; [apply W|lia..]).
  assert (Hrun : timer_running t = true) by (by destruct (eo_run _ _ _ (wo_entry _ _ W q t Hq))).
  assert (Hd : q ∈ dues T (slot_of (timer_clock t))).
  { apply elem_of_dues. split; [|apply due_entry; eauto]. destruct (w_linked _ (wo_ok _ _ W) q t Hq Hrun) as [Ht|?]; [|done]. rewrite Et in Ht. set_solver. }
  exists f, s', new. split_and!; try done.
  - destruct (va_all _ _ _ _ _ D (slot_of (timer_clock t)) q) as [Hl|?]; [by apply window_covers|done| |by right]. left.
    rewrite (va_new _ _ _ _ _ D). apply list_elem_of_omap. exists q. split; [done|]. rewrite Hq. simpl. rewrite Hi. simpl. by rewrite Hp.
  - intros t' Hq'. destruct (past T t') eqn:Hp'; [|done]. destruct (nothing_due T _ l new q t' D Hq' Hp') as [(t0 & H0 & Ec) [Hw _]].
    rewrite Hq in H0. injection H0 as <-. apply core_eq in Ec as (_ & Ec & _). rewrite <- Ec in Hw. done.
Qed.
End walk.

(** When the millisecond clock has wrapped around since the last walk, the
    walk visits no slot at all: no timer fires, however overdue. *)
Theorem walk_wrapped rnd {St} `{HasTimers St} (cb : Z -> loc -> SE St unit) s fuel : now (get_timers s) < timer_last_run (get_timers s) ->
  exists s', olsr_timer_walk rnd cb fuel s = Some (s', tt) /\ get_timers s' = with_last_run (now (get_timers s)) (get_timers s).
Proof.
  intros Hlt. unfold olsr_timer_walk. change (Z.to_nat TIMER_WHEEL_SLOTS) with (S 1023). generalize 1023%nat. intros n. cbn [walk_slots].
  exists (put_timers (with_last_run (now (get_timers s)) (get_timers s)) (put_timers (get_timers s) s)). split; [|apply get_put_timers].
  erewrite bind_run.
  2: { erewrite bind_run by reflexivity. destruct (Z.leb_spec (timer_last_run (get_timers s)) (now (get_timers s))); [lia|reflexivity]. }
  unfold on_timers, se_mod. by rewrite get_put_timers.
Qed.

(** ** Callbacks that stop timers *)

(** The callback stops the timer that is its context, if it is still there. *)
Definition stopper (c : Z) (x : loc) : SE (timer_st * list (Z * loc)) unit := fun s =>
  let s := (s.1, s.2 ++ [(c, x)]) in
  match timers s.1 !! x with
  | Some t => if timer_running t then on_timers (olsr_timer_stop (Some x)) s else Some (s, tt)
  | None => Some (s, tt)
  end.
Definition stopper_touch (c : Z) (x q : loc) : bool := bool_decide (x = q).

Lemma log_put (T : timer_st) (s : timer_st * list (Z * loc)) : (put_timers T s).2 = s.2.
Proof. done. Qed.

Lemma stopper_ok rnd c x p s : walk_ok (Some p) (get_timers s) -> exists s', stopper c x s = Some (s', tt) /\
  rtc (tstep rnd (stopper_touch c x)) (get_timers s) (get_timers s') /\ s'.2 = s.2 ++ [(c, x)].
Proof.
  intros W. unfold stopper. cbv zeta. change (timers (s.1, s.2 ++ [(c, x)]).1) with (timers s.1). destruct (timers s.1 !! x) as [t|] eqn:Ht; [|exists (s.1, s.2 ++ [(c, x)]); split; [done|]; split; [apply rtc_refl|done]].
  destruct (timer_running t) eqn:Hr; [|exists (s.1, s.2 ++ [(c, x)]); split; [done|]; split; [apply rtc_refl|done]].
  destruct (timer_stop_run s.1 x t (wo_ok _ _ W) Ht Hr) as (T' & R & _). exists (T', s.2 ++ [(c, x)]).
  split; [unfold on_timers; change (get_timers (s.1, s.2 ++ [(c, x)])) with s.1; by rewrite R|]. split; [|done]. apply rtc_once. eapply ts_stop; [|done..]. by apply bool_decide_eq_true.
Qed.

(** Three timers that become due together: the first one stops the second one, the
    third one, which is periodic, itself. *)
Definition demo_set : timer_st :=
  match (p ← olsr_timer_start (fun _ => 0) 100 0 2 1; q ← olsr_timer_start (fun _ => 0) 110 0 9 2;
    r ← olsr_timer_start (fun _ => 0) 120 0 3 2; mret (p, q, r)) demo_timers with
  | Some (T, _) => T
  | None => demo_timers
  end.
Definition demo_due : timer_st := mkTimers (timer_wheel demo_set) [] (timers demo_set) (timer_infos demo_set) 1005 1150 0.

Lemma demo_timers_walk : walk_ok None demo_timers.
Proof. split; [apply demo_timers_ok|done|done|done|done]. Qed.

(** Time goes by. *)
Lemma walk_later T last n r : walk_ok None T -> tmp_list T = [] -> is_u 32 n ->
  walk_ok None (mkTimers (timer_wheel T) [] (timers T) (timer_infos T) last n r).
Proof.
  intros [[] ? ? Hr ?] E Hn. rewrite E in *. split; try done. intros p t Hp Hl. apply (Hr p t Hp). unfold linked_in in *. by rewrite E.
Qed.

Lemma demo_due_ok : walk_ok None demo_due.
Proof.
  assert (W : walk_ok None demo_set /\ tmp_list demo_set = []).
  { split; [|by vm_compute]. unfold demo_set.
    destruct (timer_start_run (fun _ => 0) demo_timers 100 0 2 1 _ demo_timers_ok eq_refl) as (p1 & T1 & R1 & _ & _ & Ok1 & [_ _ Ei1 _] & _); [done..|].
    destruct (start_ok (fun _ => 0) demo_random None (fun _ => False) _ _ 100 0 2 1 _ demo_timers_walk ltac:(lia) ltac:(lia) R1) as (W1 & _).
    destruct (proj2 (Ei1 2%positive)) as [i1 Hi1]; [by eexists|].
    destruct (timer_start_run (fun _ => 0) T1 110 0 9 2 i1 Ok1 Hi1) as (p2 & T2 & R2 & _ & _ & Ok2 & [_ _ Ei2 _] & _); [done..|].
    destruct (start_ok (fun _ => 0) demo_random None (fun _ => False) _ _ 110 0 9 2 _ W1 ltac:(lia) ltac:(lia) R2) as (W2 & _).
    destruct (proj2 (Ei2 2%positive)) as [i2 Hi2]; [by exists i1|].
    destruct (timer_start_run (fun _ => 0) T2 120 0 3 2 i2 Ok2 Hi2) as (p3 & T3 & R3 & _ & _ & _ & _ & _); [done..|].
    destruct (start_ok (fun _ => 0) demo_random None (fun _ => False) _ _ 120 0 3 2 _ W2 ltac:(lia) ltac:(lia) R3) as (W3 & _).
    erewrite bind_run by exact R1. erewrite bind_run by exact R2. by erewrite bind_run by exact R3. }
  by apply walk_later; [apply W..|].
Qed.

(** The second timer does not fire, the third one is gone though it is periodic. *)
Example demo_walk : (fun r => (r.1.2, timers r.1.1)) <$> olsr_timer_walk (fun _ => 0) stopper 9 (demo_due, []) = Some ([(7, 2%positive); (8, 3%positive)], ∅).
Proof. by vm_compute. Qed.

Lemma timer_walk_correct_witness :
  exists f s' l, (forall fuel, (f <= fuel)%nat -> olsr_timer_walk (fun _ => 0) stopper fuel (demo_due, []) = Some (s', tt)) /\
    s'.2 = [] ++ fired demo_due l /\ length (fired demo_due l) = length l /\ NoDup l /\ sublist l (window 1005 146 ≫= dues demo_due) /\
    (forall k q, k ∈ window 1005 146 -> q ∈ dues demo_due k -> q ∈ l \/ touched stopper_touch (fired demo_due l) q = true) /\
    (forall q t, timers demo_due !! q = Some t -> q ∉ l -> touched stopper_touch (fired demo_due l) q = false -> timers s'.1 !! q = Some t) /\
    walk_ok None s'.1 /\ tmp_list s'.1 = [] /\ timer_last_run s'.1 = 1150 /\
    (forall q t, timers s'.1 !! q = Some t -> past demo_due t = true ->
      timers demo_due !! q = Some t /\ ~ (1005 <= timer_clock t <= 1150) /\ 1150 - 1005 < 1023).
Proof.
  apply (timer_walk_correct (fun _ => 0) demo_random stopper snd log_put stopper_touch
    (fun c x p s => stopper_ok (fun _ => 0) c x p s) (demo_due, [])); [apply demo_due_ok|done|done|done].
Defined.

Lemma due_timer_fires_witness :
  exists f s' new, (forall fuel, (f <= fuel)%nat -> olsr_timer_walk (fun _ => 0) stopper fuel (demo_due, []) = Some (s', tt)) /\ s'.2 = [] ++ new /\
    ((7, 2%positive) ∈ new \/ touched stopper_touch new 1%positive = true) /\
    forall t', timers s'.1 !! 1%positive = Some t' -> past demo_due t' = false.
Proof.
  apply (due_timer_fires (fun _ => 0) demo_random stopper snd log_put stopper_touch (fun c x p s => stopper_ok (fun _ => 0) c x p s)
    (demo_due, []) 1 (mkTimer 1 1105 0 0 true false 0 2) (mkInfo 7 false 1 1));
    [apply demo_due_ok|done|done|done|by vm_compute|by vm_compute|simpl; lia|simpl; lia].
Defined.

Lemma walk_wrapped_witness :
  exists s', olsr_timer_walk (fun _ => 0) stopper 5 (with_last_run 4294967290 demo_due, []) = Some (s', tt) /\
    get_timers s' = with_last_run 1150 (with_last_run 4294967290 demo_due).
Proof. exact (walk_wrapped (fun _ => 0) stopper (with_last_run 4294967290 demo_due, []) 5 eq_refl). Defined.
