(* ===== verification/DuplicateSet.v ===== *)
(** * Duplicate detection ([duplicate_set.c])

    For every originator a window over the last 32 sequence numbers that were
    received. Messages that are processed and messages that are forwarded have
    a set each. The sets are the sequences of [Trees]. *)
From S2P Require Import Prelude AvlSpec Trees Types Comparators Memcookie Clock Timer.

Definition DUPLICATE_CLEANUP_INTERVAL : Z := 30000.
Definition DUPLICATE_CLEANUP_JITTER : Z := 25.

Inductive duplicate_status :=
  | RESET_SEQNO_OLSR_MESSAGE
  | NEW_OLSR_MESSAGE
  | OLD_OLSR_MESSAGE
  | DUPLICATE_OLSR_MESSAGE
  | TOO_OLD_OLSR_MESSAGE.
#[global] Instance duplicate_status_eq_dec : EqDecision duplicate_status.
Proof. solve_decision. Defined.

Record dup_entry := mkDup {
  dup_ip : ip_addr;
  seqnr : Z;
  too_low_counter : Z;
  array : Z;
  validity_timer : option loc;
  in_forward_set : option bool     (** the back pointer [tree] *)
}.

Record dup_st := mkDups {
  forward_set : list (loc * ip_addr);
  processing_set : list (loc * ip_addr);
  dups : gmap loc dup_entry;
  duplicate_timer_info : loc;
  dup_timers : timer_st
}.

#[global] Instance dup_has_timers : HasTimers dup_st := {|
  get_timers := dup_timers;
  put_timers := fun T s => mkDups (forward_set s) (processing_set s) (dups s) (duplicate_timer_info s) T;
  get_put_timers := fun _ _ => eq_refl |}.

Abbreviation DM := (SE dup_st).

Definition olsr_seqno_diff (reference other : Z) : Z :=
  let diff := reference - other in
  if diff >=? 2 ^ 15 then diff - 2 ^ 16 else if diff <? - 2 ^ 15 then diff + 2 ^ 16 else diff.

(** ** Memory *)
Definition set_of (forwarding : bool) (s : dup_st) : list (loc * ip_addr) :=
  if forwarding then forward_set s else processing_set s.
Definition with_set (forwarding : bool) (L : list (loc * ip_addr)) (s : dup_st) : dup_st :=
  mkDups (if forwarding then L else forward_set s) (if forwarding then processing_set s else L) (dups s)
    (duplicate_timer_info s) (dup_timers s).
Definition with_dups (D : gmap loc dup_entry) (s : dup_st) : dup_st :=
  mkDups (forward_set s) (processing_set s) D (duplicate_timer_info s) (dup_timers s).

Definition rd_dup (p : loc) : DM dup_entry := fun s => (fun e => (s, e)) <$> dups s !! p.
Definition wr_dup (p : loc) (g : dup_entry -> dup_entry) : DM unit := fun s =>
  (fun e => (with_dups (<[p := g e]> (dups s)) s, tt)) <$> dups s !! p.
Definition free_dup (p : loc) : DM unit := fun s =>
  (fun _ => (with_dups (delete p (dups s)) s, tt)) <$> dups s !! p.

Definition set_timer (t : option loc) (e : dup_entry) : dup_entry :=
  mkDup (dup_ip e) (seqnr e) (too_low_counter e) (array e) t (in_forward_set e).
Definition set_tree (b : option bool) (e : dup_entry) : dup_entry :=
  mkDup (dup_ip e) (seqnr e) (too_low_counter e) (array e) (validity_timer e) b.
Definition set_window (sq low arr : Z) (e : dup_entry) : dup_entry :=
  mkDup (dup_ip e) sq low arr (validity_timer e) (in_forward_set e).

Section dups.
Context (ip_version : Z) (rnd : nat -> Z).

(** The bytes that [memcpy] copies into the zeroed entry. *)
Definition copy_ip (ip : ip_addr) : ip_addr :=
  if ip_version =? AF_INET then take 4 ip ++ replicate 12 0 else take 16 ip.

Definition olsr_create_duplicate_entry (ip : ip_addr) (sq : Z) : DM loc := fun s =>
  let p := fresh (dom (dups s)) in
  Some (with_dups (<[p := mkDup (copy_ip ip) sq 0 0 None None]> (dups s)) s, p).

Definition olsr_delete_duplicate_entry (p : loc) : DM unit :=
  e ← rd_dup p;
  match in_forward_set e with
  | None => se_fail
  | Some f =>
    se_mod (fun s => with_set f (tree_delete p (set_of f s)) s);;
    wr_dup p (set_tree None);;
    on_timers (olsr_timer_stop (validity_timer e));;
    wr_dup p (set_timer None);;
    free_dup p
  end.

Definition olsr_expire_duplicate_entry (p : loc) : DM unit :=
  wr_dup p (set_timer None);;
  olsr_delete_duplicate_entry p.

Definition olsr_init_duplicate_set (callback : Z) (T : timer_st) : option dup_st :=
  match olsr_timer_add callback false T with
  | Some (T, i) => Some (mkDups [] [] ∅ i T)
  | None => None
  end.

(** The iteration fetches the successor before the body deletes the entry, so it
    visits the entries the tree has at its start. *)
Definition olsr_flush_duplicate_entries : DM unit :=
  F ← se_get forward_set;
  foldr (fun e m => olsr_delete_duplicate_entry e.1;; m) (mret tt) F;;
  P ← se_get processing_set;
  foldr (fun e m => olsr_delete_duplicate_entry e.1;; m) (mret tt) P.

(** The window of an entry after a message, and the verdict on the message. *)
Definition window_step (e : dup_entry) (seqno : Z) : dup_entry * (bool * duplicate_status) :=
  let diff := olsr_seqno_diff seqno (seqnr e) in
  if diff <? -31 then
    let low := u16 (too_low_counter e + 1) in
    if low >? 16 then (set_window seqno 0 1 e, (false, RESET_SEQNO_OLSR_MESSAGE))
    else (set_window (seqnr e) low (array e) e, (true, TOO_OLD_OLSR_MESSAGE))
  else if diff <=? 0 then
    let bitmask := u32 (Z.shiftl 1 (- diff)) in
    if negb (Z.land (array e) bitmask =? 0) then
      (set_window (seqnr e) 0 (array e) e, (true, DUPLICATE_OLSR_MESSAGE))
    else (set_window (seqnr e) 0 (Z.lor (array e) bitmask) e, (false, OLD_OLSR_MESSAGE))
  else
    let arr := if diff <? 32 then u32 (Z.shiftl (array e) diff) else 0 in
    (set_window seqno 0 (Z.lor arr 1) e, (false, NEW_OLSR_MESSAGE)).

Definition olsr_is_duplicate_message (originator : ip_addr) (seqno : Z) (forwarding : bool) : DM (bool * duplicate_status) :=
  L ← se_get (set_of forwarding);
  match tree_find (avl_comp_default ip_version) originator L with
  | None =>
    p ← olsr_create_duplicate_entry originator seqno;
    e ← rd_dup p;
    se_mod (fun s => with_set forwarding (tree_insert (avl_comp_default ip_version) false (dup_ip e) p (set_of forwarding s)) s);;
    wr_dup p (set_tree (Some forwarding));;
    ti ← se_get duplicate_timer_info;
    t ← on_timers (olsr_timer_start rnd DUPLICATE_CLEANUP_INTERVAL DUPLICATE_CLEANUP_JITTER p ti);
    wr_dup p (set_timer (Some t));;
    mret (false, NEW_OLSR_MESSAGE)
  | Some p =>
    e ← rd_dup p;
    on_timers (olsr_timer_change (validity_timer e) DUPLICATE_CLEANUP_INTERVAL DUPLICATE_CLEANUP_JITTER);;
    wr_dup p (fun e => (window_step e seqno).1);;
    mret (window_step e seqno).2
  end.
End dups.

(** ** Sequence numbers *)

(** The signed distance on the circle of 16-bit numbers. *)
Lemma seqno_diff_spec a b : is_u 16 a -> is_u 16 b ->
  - 2 ^ 15 <= olsr_seqno_diff a b < 2 ^ 15 /\ (b + olsr_seqno_diff a b) mod 2 ^ 16 = a.
Proof.
  unfold is_u, olsr_seqno_diff. intros Ha Hb. rewrite Z.geb_leb. case_cmp; split; mlia.
Qed.

Lemma seqno_diff_near h n : Z.abs (n - h) < 2 ^ 15 -> olsr_seqno_diff (u16 n) (u16 h) = n - h.
Proof.
  intros H. pose proof (wrapu_range 16 n ltac:(lia)) as Hn. pose proof (wrapu_range 16 h ltac:(lia)) as Hh.
  destruct (seqno_diff_spec _ _ Hn Hh) as [H1 H2]. unfold wrapu, is_u in *.
  revert H1 H2. generalize (olsr_seqno_diff (n mod 2 ^ 16) (h mod 2 ^ 16)) as d. change (2 ^ 16) with 65536 in *.
  change (2 ^ 15) with 32768 in *. intros d H1 H2. mlia.
Qed.

(** ** The window as a set of message numbers

    The messages of an originator are numbered without wrap-around. A window
    with head [w_head] knows which of the messages [w_head - 31 .. w_head] it
    has seen. *)
Record win := mkWin { w_head : Z; w_seen : gset Z; w_low : Z }.

Definition win_step (w : win) (n : Z) : win * (bool * duplicate_status) :=
  if decide (n < w_head w - 31) then
    if decide (w_low w < 16) then (mkWin (w_head w) (w_seen w) (w_low w + 1), (true, TOO_OLD_OLSR_MESSAGE))
    else (mkWin n {[n]} 0, (false, RESET_SEQNO_OLSR_MESSAGE))
  else if decide (n <= w_head w) then
    if decide (n ∈ w_seen w) then (mkWin (w_head w) (w_seen w) 0, (true, DUPLICATE_OLSR_MESSAGE))
    else (mkWin (w_head w) ({[n]} ∪ w_seen w) 0, (false, OLD_OLSR_MESSAGE))
  else (mkWin n ({[n]} ∪ w_seen w) 0, (false, NEW_OLSR_MESSAGE)).

Record win_rep (e : dup_entry) (w : win) : Prop := {
  wr_head : seqnr e = u16 (w_head w);
  wr_low : too_low_counter e = w_low w /\ 0 <= w_low w <= 16;
  wr_range : is_u 32 (array e);
  wr_bits : forall i, 0 <= i < 32 -> Z.testbit (array e) i = bool_decide (w_head w - i ∈ w_seen w);
  wr_max : forall n, n ∈ w_seen w -> n <= w_head w
}.

(** A 32-bit number is determined by its 32 bits. *)
Lemma testbit_high x i : is_u 32 x -> 32 <= i -> Z.testbit x i = false.
Proof.
  intros [H0 H1] Hi. destruct (Z.eq_dec x 0) as [->|]; [apply Z.testbit_0_l|].
  apply Z.bits_above_log2; [done|]. assert (Z.log2 x < 32) by (apply Z.log2_lt_pow2; lia). lia.
Qed.

Lemma testbit_u32 x i : 0 <= i < 32 -> Z.testbit (u32 x) i = Z.testbit x i.
Proof. intros Hi. unfold wrapu. rewrite Z.mod_pow2_bits_low by lia. done. Qed.

Lemma lor_range x y : is_u 32 x -> is_u 32 y -> is_u 32 (Z.lor x y).
Proof.
  intros Hx Hy. pose proof (Z.lor_nonneg x y). split; [destruct Hx, Hy; lia|].
  destruct (Z.eq_dec (Z.lor x y) 0) as [->|]; [lia|]. apply Z.log2_lt_pow2; [destruct Hx, Hy; lia|].
  rewrite Z.log2_lor by (destruct Hx, Hy; lia).
  assert (forall z, is_u 32 z -> Z.log2 z < 32).
  { intros z [Hz0 Hz1]. destruct (Z.eq_dec z 0) as [->|]; [done|]. apply Z.log2_lt_pow2; lia. }
  apply Z.max_lub_lt; auto.
Qed.

(** The mask [1 << i]. *)
Lemma mask_bit i j : 0 <= i < 32 -> 0 <= j -> Z.testbit (u32 (Z.shiftl 1 i)) j = bool_decide (i = j).
Proof.
  intros Hi Hj. rewrite Z.shiftl_1_l.
  rewrite wrapu_id by (split; [apply Z.pow_nonneg; lia|apply Z.pow_lt_mono_r; lia]).
  rewrite Z.pow2_bits_eqb by lia. destruct (Z.eqb_spec i j); case_bool_decide; lia || done.
Qed.

Lemma mask_test x i : is_u 32 x -> 0 <= i < 32 ->
  negb (Z.land x (u32 (Z.shiftl 1 i)) =? 0) = Z.testbit x i.
Proof.
  intros Hx Hi. destruct (Z.testbit x i) eqn:E.
  - apply negb_true_iff, Z.eqb_neq. intros H0. apply (f_equal (fun z => Z.testbit z i)) in H0.
    rewrite Z.land_spec, mask_bit, Z.testbit_0_l, E, bool_decide_true in H0 by lia. done.
  - apply negb_false_iff, Z.eqb_eq, Z.bits_inj'. intros j Hj. rewrite Z.land_spec, mask_bit, Z.testbit_0_l by done.
    case_bool_decide; [subst; by rewrite E|apply andb_false_r].
Qed.

Lemma testbit_1 i : 0 <= i -> Z.testbit 1 i = (0 =? i).
Proof. intros. by rewrite <- (Z.pow2_bits_eqb 0 i). Qed.

(** The bit array implements the set, as long as the messages of an originator
    arrive less than half a turn of the sequence numbers from the head. *)
Lemma window_step_refines e w n : win_rep e w -> Z.abs (n - w_head w) < 2 ^ 15 ->
  (window_step e (u16 n)).2 = (win_step w n).2 /\ win_rep (window_step e (u16 n)).1 (win_step w n).1.
Proof.
  intros [Hh [Hl Hlr] Hr Hb Hm] Hn. unfold window_step, win_step. rewrite Hh, seqno_diff_near by done.
  destruct (Z.ltb_spec (n - w_head w) (-31)).
  { rewrite decide_True by lia. rewrite Hl, wrapu_id by (unfold is_u; lia). rewrite Z.gtb_ltb.
    destruct (Z.ltb_spec 16 (w_low w + 1)).
    - rewrite decide_False by lia. split; [done|]. split; simpl; [done|lia|unfold is_u; lia| |set_solver].
      intros i Hi. rewrite testbit_1 by lia.
      destruct (Z.eqb_spec 0 i); case_bool_decide as E; rewrite elem_of_singleton in E; lia || done.
    - rewrite decide_True by lia. split; [done|]. split; simpl; try done. lia. }
  rewrite (decide_False (P := n < _)) by lia. destruct (Z.leb_spec (n - w_head w) 0).
  - rewrite (decide_True (P := n <= _)) by lia. rewrite mask_test by (done || lia). rewrite Hb by lia.
    replace (w_head w - - (n - w_head w)) with n by lia. destruct (decide (n ∈ w_seen w)) as [Hin|Hin].
    + rewrite bool_decide_true by done. split; [done|]. split; simpl; done || lia.
    + rewrite bool_decide_false by done. split; [done|]. split; simpl; try (done || lia).
      * apply lor_range; [done|apply wrapu_range; lia].
      * intros i Hi. rewrite Z.lor_spec, mask_bit, Hb by lia.
        repeat case_bool_decide; try done; exfalso; set_solver by lia.
      * intros m [->%elem_of_singleton|?]%elem_of_union; [lia|by apply Hm].
  - rewrite (decide_False (P := n <= _)) by lia. split; [done|]. split; simpl; try (done || lia).
    + apply lor_range; [case_cmp; [apply wrapu_range; lia|unfold is_u; lia]|unfold is_u; lia].
    + intros i Hi. rewrite Z.lor_spec, testbit_1 by lia.
      destruct (Z.eqb_spec 0 i) as [<-|Hi0]; [rewrite orb_true_r, Z.sub_0_r; symmetry; apply bool_decide_true; set_solver|].
      rewrite orb_false_r. destruct (Z.ltb_spec (n - w_head w) 32) as [Hlt|Hlt].
      * rewrite testbit_u32, Z.shiftl_spec by lia. destruct (Z.ltb_spec i (n - w_head w)).
        { rewrite Z.testbit_neg_r by lia. symmetry. apply bool_decide_false.
          intros [?%elem_of_singleton|?%Hm]%elem_of_union; lia. }
        rewrite Hb by lia. replace (w_head w - (i - (n - w_head w))) with (n - i) by lia.
        apply bool_decide_ext. rewrite elem_of_union, elem_of_singleton. split; [auto|intros [?|?]; [lia|done]].
      * rewrite Z.testbit_0_l. symmetry. apply bool_decide_false. intros [?%elem_of_singleton|?%Hm]%elem_of_union; lia.
    + intros m [->%elem_of_singleton|?%Hm]%elem_of_union; lia.
Qed.

(** ** No message is accepted twice *)

(** The verdicts on a sequence of messages. *)
Fixpoint judge (e : dup_entry) (ns : list Z) : list (Z * (bool * duplicate_status)) :=
  match ns with
  | [] => []
  | n :: ns => let r := window_step e (u16 n) in (n, r.2) :: judge r.1 ns
  end.
Fixpoint win_judge (w : win) (ns : list Z) : list (Z * (bool * duplicate_status)) :=
  match ns with
  | [] => []
  | n :: ns => let r := win_step w n in (n, r.2) :: win_judge r.1 ns
  end.
(** Every message is less than half a turn from the head at its arrival. *)
Fixpoint near (w : win) (ns : list Z) : Prop :=
  match ns with
  | [] => True
  | n :: ns => Z.abs (n - w_head w) < 2 ^ 15 /\ near (win_step w n).1 ns
  end.

Lemma judge_refines ns : forall e w, win_rep e w -> near w ns -> judge e ns = win_judge w ns.
Proof.
  induction ns as [|n ns IH]; intros e w R; [done|]. intros [H1 H2]. simpl.
  destruct (window_step_refines e w n R H1) as [E R']. rewrite E. f_equal. by apply IH.
Qed.

Definition accepted (l : list (Z * (bool * duplicate_status))) : list Z := (filter (fun x => x.2.1 = false) l).*1.
Definition no_reset (l : list (Z * (bool * duplicate_status))) : Prop := Forall (fun x => x.2.2 <> RESET_SEQNO_OLSR_MESSAGE) l.

Lemma win_judge_once ns : forall w,
  (forall n, n ∈ w_seen w -> n <= w_head w) -> no_reset (win_judge w ns) ->
  NoDup (accepted (win_judge w ns)) /\ forall n, n ∈ w_seen w -> n ∉ accepted (win_judge w ns).
Proof.
  induction ns as [|n ns IH]; intros w Hm Hr; [split; [constructor|set_solver]|]. unfold accepted in *.
  cbn [win_judge] in *. apply Forall_cons in Hr as [Hr0 Hr]. rewrite filter_cons. simpl in *. unfold win_step in *.
  destruct (decide (n < w_head w - 31)).
  { destruct (decide (w_low w < 16)); [|done]. simpl in *. by apply (IH (mkWin (w_head w) (w_seen w) (w_low w + 1)) Hm). }
  destruct (decide (n <= w_head w)).
  { destruct (decide (n ∈ w_seen w)); simpl in *.
    - by apply (IH (mkWin (w_head w) (w_seen w) 0) Hm).
    - destruct (IH (mkWin (w_head w) ({[n]} ∪ w_seen w) 0)) as [N D]; [set_solver|done|]. simpl in *.
      split; [apply NoDup_cons; split; [apply D; set_solver|done]|]. intros m Hm' [->|Hin]%elem_of_cons; [done|].
      apply (D m); [set_solver|done]. }
  simpl in *.
  destruct (IH (mkWin n ({[n]} ∪ w_seen w) 0)) as [N D]; [|done|].
  { intros m [->%elem_of_singleton|?%Hm]%elem_of_union; simpl; lia. }
  simpl in *. split; [apply NoDup_cons; split; [apply D; set_solver|done]|]. intros m Hm' [->|Hin]%elem_of_cons; [|apply (D m); [set_solver|done]].
  apply Hm in Hm'. lia.
Qed.

(** A message newer than all that came before is always accepted. *)
Lemma newer_accepted e w n : win_rep e w -> w_head w < n < w_head w + 2 ^ 15 ->
  (window_step e (u16 n)).2 = (false, NEW_OLSR_MESSAGE).
Proof.
  intros R Hn. rewrite (proj1 (window_step_refines e w n R ltac:(lia))). unfold win_step.
  by rewrite !decide_False by lia.
Qed.

(** The entry that the first message of an originator creates has an empty
    window: it does not know the message it was created for. *)
Lemma first_window n T f ip : win_rep (mkDup ip (u16 n) 0 0 T f) (mkWin n ∅ 0).
Proof.
  split; simpl; [done|lia|unfold is_u; lia| |set_solver]. intros i _. rewrite Z.testbit_0_l.
  symmetry. apply bool_decide_false. set_solver.
Qed.

(** ** The handlers *)
Section handlers.
Context (ip_version : Z) (rnd : nat -> Z).
Abbreviation comp := (avl_comp_default ip_version).

Record dup_ok (s : dup_st) : Prop := {
  d_timers : timers_ok (dup_timers s);
  d_info : is_Some (timer_infos (dup_timers s) !! duplicate_timer_info s);
  d_tree : forall f, tree_wf comp (set_of f s);
  d_in : forall f p k, (p, k) ∈ set_of f s -> exists e, dups s !! p = Some e /\ dup_ip e = k /\ in_forward_set e = Some f;
  d_all : forall p e, dups s !! p = Some e -> exists f q t,
    in_forward_set e = Some f /\ (p, dup_ip e) ∈ set_of f s /\ validity_timer e = Some q /\
    timers (dup_timers s) !! q = Some t /\ timer_running t = true /\ timer_cb_context t = p /\
    timer_info t = duplicate_timer_info s
}.

Lemma rd_dup_run s p e : dups s !! p = Some e -> rd_dup p s = Some (s, e).
Proof. intros H. unfold rd_dup. by rewrite H. Qed.
Lemma wr_dup_run s p e g : dups s !! p = Some e -> wr_dup p g s = Some (with_dups (<[p := g e]> (dups s)) s, tt).
Proof. intros H. unfold wr_dup. by rewrite H. Qed.
Lemma free_dup_run s p e : dups s !! p = Some e -> free_dup p s = Some (with_dups (delete p (dups s)) s, tt).
Proof. intros H. unfold free_dup. by rewrite H. Qed.
Lemma dup_timers_run {A} (m : TM A) s T a : m (dup_timers s) = Some (T, a) -> on_timers m s = Some (put_timers T s, a).
Proof. intros H. unfold on_timers. simpl. by rewrite H. Qed.

Lemma set_of_with f f' L s : set_of f' (with_set f L s) = if decide (f' = f) then L else set_of f' s.
Proof. by destruct f, f'. Qed.

Lemma copy_ip_eq ip : length ip = 16%nat -> comp ip (copy_ip ip_version ip) = 0.
Proof.
  intros Hl. unfold avl_comp_default, copy_ip. destruct (Z.eqb_spec ip_version AF_INET).
  - unfold avl_comp_ipv4, ip4cmp, s_addr. rewrite (take_app_length' (take 4 ip)) by (rewrite length_take; lia).
    rewrite Z.gtb_ltb, Z.ltb_irrefl. done.
  - rewrite take_ge by lia. apply comp_refl.
Qed.

(** Whoever is deleted from the set, the rest of the invariant stays. *)
Lemma deleted_ok s p e f T :
  dup_ok s -> dups s !! p = Some e -> in_forward_set e = Some f ->
  timers_ok T -> is_Some (timer_infos T !! duplicate_timer_info s) ->
  (forall q t, timers (dup_timers s) !! q = Some t -> timer_cb_context t <> p -> timers T !! q = Some t) ->
  dup_ok (mkDups (set_of true (with_set f (tree_delete p (set_of f s)) s)) (set_of false (with_set f (tree_delete p (set_of f s)) s))
    (delete p (dups s)) (duplicate_timer_info s) T).
Proof.
  intros [O1 O2 O3 O4 O5] Hp Hf OT OI HT. set (s' := mkDups _ _ _ _ _).
  assert (Hs : forall f', set_of f' s' = if decide (f' = f) then tree_delete p (set_of f s) else set_of f' s).
  { intros f'. etransitivity; [|apply set_of_with]. by destruct f'. }
  assert (Hin : forall f' q k, (q, k) ∈ set_of f' s' <-> q <> p /\ (q, k) ∈ set_of f' s).
  { intros f' q k. rewrite Hs. case_decide; [subst; by rewrite elem_of_tree_delete|]. split; [|tauto].
    intros Hq. split; [|done]. intros ->. destruct (O4 f' p k Hq) as (e' & He' & _ & Hf'). congruence. }
  split; simpl; [done|done|..].
  - intros f'. rewrite Hs. case_decide; [by apply tree_wf_delete|apply O3].
  - intros f' q k [Hq Hk]%Hin. rewrite lookup_delete_ne by done. by apply O4.
  - intros q e' [Hq He']%lookup_delete_Some. destruct (O5 q e' He') as (f' & r & t & H1 & H2 & H3 & H4 & H5 & H6 & H7).
    exists f', r, t. rewrite Hin. split_and!; try done. apply HT; [done|congruence].
Qed.

Lemma deleted_sets s p e f f' : dup_ok s -> dups s !! p = Some e -> in_forward_set e = Some f ->
  set_of f' (with_set f (tree_delete p (set_of f s)) s) = tree_delete p (set_of f' s).
Proof.
  intros Ok Hp Hf. rewrite set_of_with. case_decide; [by subst|]. symmetry. apply filter_all, Forall_forall.
  intros [r k] Hr. destruct (d_in _ Ok f' r k Hr) as (e' & He' & _ & Hf'). simpl. congruence.
Qed.

Lemma delete_duplicate_run s p e :
  dup_ok s -> dups s !! p = Some e ->
  exists s', olsr_delete_duplicate_entry p s = Some (s', tt) /\ dup_ok s' /\ dups s' = delete p (dups s) /\
    forall f, set_of f s' = tree_delete p (set_of f s).
Proof.
  intros Ok Hp. pose proof Ok as [O1 O2 O3 O4 O5].
  destruct (O5 p e Hp) as (f & q & t & H1 & H2 & H3 & H4 & H5 & H6 & H7).
  destruct (timer_stop_run (dup_timers s) q t O1 H4 H5) as (T & R & OT & [_ _ E3 _] & Ets & _).
  unfold olsr_delete_duplicate_entry. erewrite bind_run by (by apply rd_dup_run). rewrite H1.
  erewrite bind_run by reflexivity.
  erewrite bind_run by (by apply wr_dup_run). rewrite H3.
  erewrite bind_run by (by apply dup_timers_run).
  erewrite bind_run by (apply wr_dup_run; apply lookup_insert_eq).
  erewrite free_dup_run by apply lookup_insert_eq. simpl. rewrite !delete_insert_eq.
  eexists. split; [reflexivity|]. split; [|split; [done|]].
  - apply (deleted_ok s p e f T Ok Hp H1 OT); [by apply E3|]. intros r tr Hr Hn. rewrite Ets.
    assert (r <> q) by congruence. destruct (timer_in_callback t); [by rewrite lookup_insert_ne|by rewrite lookup_delete_ne].
  - intros f'. rewrite <- (deleted_sets s p e f f' Ok Hp H1). by destruct f'.
Qed.

(** When the validity timer of an entry fires, exactly this entry
    disappears from memory and from the sets, and the invariant of the sets holds
    again. The timer itself is left to the scheduler, which is running it. *)
Theorem expire_removes_entry s p e : dup_ok s -> dups s !! p = Some e ->
  exists s', olsr_expire_duplicate_entry p s = Some (s', tt) /\ dup_ok s' /\ dups s' = delete p (dups s) /\
    (forall f, set_of f s' = tree_delete p (set_of f s)) /\ dup_timers s' = dup_timers s.
Proof.
  intros Ok Hp. destruct (d_all _ Ok p e Hp) as (f & q & t & H1 & _).
  unfold olsr_expire_duplicate_entry, olsr_delete_duplicate_entry.
  erewrite bind_run by (by apply wr_dup_run). erewrite bind_run by (apply rd_dup_run, lookup_insert_eq). simpl. rewrite H1.
  erewrite bind_run by reflexivity. erewrite bind_run by (apply wr_dup_run, lookup_insert_eq).
  erewrite bind_run by (by apply dup_timers_run). erewrite bind_run by (apply wr_dup_run, lookup_insert_eq).
  erewrite free_dup_run by apply lookup_insert_eq. simpl. rewrite !delete_insert_eq.
  eexists. split; [reflexivity|]. split; [|split; [done|split; [|done]]].
  - apply (deleted_ok s p e f (dup_timers s) Ok Hp H1); [apply Ok|apply Ok|done].
  - intros f'. rewrite <- (deleted_sets s p e f f' Ok Hp H1). by destruct f'.
Qed.

(** Deleting everything. *)
Lemma flush_tree_run f L : forall s, dup_ok s -> set_of f s = L ->
  exists s', foldr (fun e m => olsr_delete_duplicate_entry e.1;; m) (mret tt) L s = Some (s', tt) /\ dup_ok s' /\
    set_of f s' = [] /\ set_of (negb f) s' = set_of (negb f) s.
Proof.
  induction L as [|[p k] L IH]; intros s Ok E; [by exists s|]. simpl.
  destruct (d_in _ Ok f p k) as (e & He & _ & Hf); [rewrite E; left|].
  destruct (delete_duplicate_run s p e Ok He) as (s1 & R1 & Ok1 & _ & S1).
  erewrite bind_run by exact R1. destruct (IH s1 Ok1) as (s2 & R2 & Ok2 & E1 & E2).
  { rewrite S1, E. apply (tree_delete_split []). rewrite <- E. apply (tw_nodup _ _ (d_tree _ Ok f)). }
  exists s2. rewrite R2. split_and!; try done. rewrite E2, S1.
  apply filter_all, Forall_forall. intros [r k'] Hr. destruct (d_in _ Ok _ r k' Hr) as (e' & He' & _ & Hf'). simpl.
  intros ->. destruct f; simpl in *; congruence.
Qed.

(** Flushing the duplicate sets frees every entry and leaves both sets
    empty and no entry behind. *)
Theorem flush_removes_all s : dup_ok s ->
  exists s', olsr_flush_duplicate_entries s = Some (s', tt) /\ dup_ok s' /\ dups s' = ∅ /\ (forall f, set_of f s' = []).
Proof.
  intros Ok. unfold olsr_flush_duplicate_entries. erewrite bind_run by reflexivity.
  destruct (flush_tree_run true (forward_set s) s Ok eq_refl) as (s1 & R1 & Ok1 & E1 & _).
  erewrite bind_run by exact R1. erewrite bind_run by reflexivity.
  destruct (flush_tree_run false (processing_set s1) s1 Ok1 eq_refl) as (s2 & R2 & Ok2 & E2 & E3).
  simpl negb in E3. rewrite E1 in E3. exists s2. rewrite R2. split_and!; [done..| |by intros []]. apply map_empty. intros p.
  destruct (dups s2 !! p) as [e|] eqn:He; [|done]. destruct (d_all _ Ok2 p e He) as (f & ? & ? & _ & Hin & _).
  destruct f; [rewrite E3 in Hin|rewrite E2 in Hin]; set_solver.
Qed.

(** The kinds of timers that are registered stay registered. *)
Definition infos_kept (s s' : dup_st) : Prop :=
  forall i, is_Some (timer_infos (dup_timers s') !! i) <-> is_Some (timer_infos (dup_timers s) !! i).

(** The handler on a message of an unknown originator. *)
Lemma is_duplicate_new s ip seqno f :
  dup_ok s -> length ip = 16%nat -> tree_find comp ip (set_of f s) = None ->
  exists s' p t, olsr_is_duplicate_message ip_version rnd ip seqno f s = Some (s', (false, NEW_OLSR_MESSAGE)) /\ dup_ok s' /\
    dups s !! p = None /\ dups s' = <[p := mkDup (copy_ip ip_version ip) seqno 0 0 (Some t) (Some f)]> (dups s) /\
    (forall f' x, x ∈ set_of f' s' <-> (f' = f /\ x = (p, copy_ip ip_version ip)) \/ x ∈ set_of f' s) /\ infos_kept s s'.
Proof.
  intros Ok Hl Hfind. pose proof Ok as [O1 [info O2] O3 O4 O5]. set (p := fresh (dom (dups s))).
  assert (Hp : dups s !! p = None) by (apply not_elem_of_dom, is_fresh).
  destruct (timer_start_run rnd (dup_timers s) DUPLICATE_CLEANUP_INTERVAL DUPLICATE_CLEANUP_JITTER p
    (duplicate_timer_info s) info O1 O2) as (q & T & R & Hq & Ets & OT & [_ _ E3 _] & _); [done|done|].
  unfold olsr_is_duplicate_message. erewrite bind_run by reflexivity. rewrite Hfind.
  erewrite bind_run by reflexivity. fold p. erewrite bind_run by (apply rd_dup_run, lookup_insert_eq).
  erewrite bind_run by reflexivity. erewrite bind_run by (apply wr_dup_run, lookup_insert_eq).
  erewrite bind_run by reflexivity. erewrite bind_run by (by apply dup_timers_run).
  erewrite bind_run by (apply wr_dup_run, lookup_insert_eq). simpl. rewrite !insert_insert_eq.
  set (e := set_timer (Some q) _). set (k := copy_ip ip_version ip). set (s' := with_dups _ _).
  assert (Hpin : forall f', p ∉ (set_of f' s).*1).
  { intros f' ([r kr] & E & Hin)%list_elem_of_fmap. simpl in E. subst r. destruct (O4 f' p kr Hin) as (? & ? & _). congruence. }
  assert (Hk : tree_find comp k (set_of f s) = None).
  { apply tree_find_None. intros r kr Hin E. apply (proj1 (tree_find_None comp _ _) Hfind r kr Hin).
    pose proof (copy_ip_eq ip Hl) as Ec. fold k in Ec.
    pose proof (comp_trans (comp := comp) ip k kr). pose proof (comp_trans (comp := comp) kr k ip).
    pose proof (comp_eq_sym comp _ _ Ec). pose proof (comp_eq_sym comp _ _ E). pose proof (comp_ge comp ip kr). lia. }
  set (L := tree_insert comp false k p (set_of f s)).
  assert (HL : forall x, x ∈ L <-> x = (p, k) \/ x ∈ set_of f s) by (intros x; exact (elem_of_tree_insert comp _ false k p x (or_intror Hk))).
  assert (Hs : forall f', set_of f' s' = if decide (f' = f) then L else set_of f' s) by (intros f'; by destruct f, f').
  assert (WL : tree_wf comp L) by (apply tree_wf_insert; [apply _|apply O3|apply Hpin|done]).
  exists s', p, q. split; [done|]. split; [|split; [done|split; [done|split; [|exact E3]]]].
  2: { intros f' x. rewrite Hs. case_decide; [subst f'; rewrite HL; naive_solver|naive_solver]. }
  split; simpl; [done|apply E3; eauto|..].
  - intros f'. rewrite Hs. by case_decide.
  - intros f' r kr Hr. assert ((r = p /\ kr = k /\ f' = f) \/ r <> p /\ (r, kr) ∈ set_of f' s) as [(-> & -> & ->)|[Hn Hin]].
    { rewrite Hs in Hr. case_decide as Ef; [subst f'; apply HL in Hr as [[= -> ->]|Hr]; [by left|]|]; right; (split; [|done]);
        intros ->; eapply Hpin, list_elem_of_fmap; (eexists; split; [|exact Hr]); done. }
    + exists e. by rewrite lookup_insert_eq.
    + rewrite lookup_insert_ne by done. by apply O4.
  - intros r er. rewrite lookup_insert. case_decide as Er.
    + intros [= <-]. subst r. exists f, q, (mkTimer (duplicate_timer_info s) (calc_jitter (now (dup_timers s)) 30000 25 (rnd (rand_pos (dup_timers s))))
        (if ti_periodic info then 30000 else 0) 25 true false (rnd (rand_pos (dup_timers s))) p).
      split; [done|]. split; [rewrite Hs, decide_True by done; apply HL; by left|]. split; [done|].
      rewrite Ets, lookup_insert_eq. done.
    + intros Hr. destruct (O5 r er Hr) as (f' & x & t & H1 & H2 & H3 & H4 & H5 & H6 & H7). exists f', x, t.
      split; [done|]. split; [rewrite Hs; case_decide; [apply HL; right; by subst|done]|]. split; [done|].
      rewrite Ets, lookup_insert_ne by congruence. done.
Qed.

(** The handler on a message of a known originator. *)
Lemma is_duplicate_known s ip seqno f p e :
  dup_ok s -> tree_find comp ip (set_of f s) = Some p -> dups s !! p = Some e ->
  exists s', olsr_is_duplicate_message ip_version rnd ip seqno f s = Some (s', (window_step e seqno).2) /\ dup_ok s' /\
    dups s' = <[p := (window_step e seqno).1]> (dups s) /\ (forall f', set_of f' s' = set_of f' s) /\ infos_kept s s'.
Proof.
  intros Ok Hfind Hp. pose proof Ok as [O1 O2 O3 O4 O5].
  destruct (O5 p e Hp) as (fe & q & t & H1 & H2 & H3 & H4 & H5 & H6 & H7).
  destruct (w_info _ O1 q t H4) as [info Hi].
  destruct (timer_change_run (dup_timers s) q t info DUPLICATE_CLEANUP_INTERVAL DUPLICATE_CLEANUP_JITTER O1 H4)
    as (T & R & OT & [_ _ E3 _] & Ets & _); [by eapply running_linked|done|].
  unfold olsr_is_duplicate_message. erewrite bind_run by reflexivity. rewrite Hfind.
  erewrite bind_run by (by apply rd_dup_run). rewrite H3. erewrite bind_run by (by apply dup_timers_run).
  erewrite bind_run by (by apply wr_dup_run). set (e' := (window_step e seqno).1).
  assert (Hsame : dup_ip e' = dup_ip e /\ validity_timer e' = validity_timer e /\ in_forward_set e' = in_forward_set e).
  { unfold e', window_step. cbv zeta. repeat case_match; done. }
  destruct Hsame as (S1 & S2 & S3).
  eexists. split; [reflexivity|]. split; [|split; [done|split; [intros f'; by destruct f'|exact E3]]].
  assert (Hs : forall f', set_of f' (with_dups (<[p := e']> (dups s)) (put_timers T s)) = set_of f' s) by (intros f'; by destruct f').
  split; simpl; [done|by apply E3|..].
  - intros f'. rewrite Hs. apply O3.
  - intros f' r k. rewrite Hs. intros Hr. destruct (O4 f' r k Hr) as (er & He & Hk & Hf). rewrite lookup_insert. case_decide; [|eauto].
    subst r. exists e'. rewrite Hp in He. injection He as <-. by rewrite S1, S3.
  - intros r er Hr. assert (exists er0, dups s !! r = Some er0 /\ dup_ip er = dup_ip er0 /\ validity_timer er = validity_timer er0 /\
        in_forward_set er = in_forward_set er0) as (er0 & He & -> & -> & ->).
    { rewrite lookup_insert in Hr. case_decide; [subst; injection Hr as <-; eauto|eauto]. }
    destruct (O5 r er0 He) as (f' & x & tx & J1 & J2 & J3 & J4 & J5 & J6 & J7). rewrite Ets.
    destruct (decide (x = q)) as [->|Hx].
    + assert (tx = t) as -> by congruence. exists f', q. eexists. rewrite Hs, lookup_insert_eq. by split_and!.
    + exists f', x, tx. rewrite Hs, lookup_insert_ne by done. by split_and!.
Qed.

(** Whatever the message, the handler returns and keeps the invariant. *)
Lemma is_duplicate_run s ip seqno f : dup_ok s -> length ip = 16%nat ->
  exists s' r, olsr_is_duplicate_message ip_version rnd ip seqno f s = Some (s', r) /\ dup_ok s' /\ infos_kept s s'.
Proof.
  intros Ok Hl. destruct (tree_find comp ip (set_of f s)) as [p|] eqn:E.
  - pose proof E as (k & Hin & _)%tree_find_Some. destruct (d_in _ Ok f p k Hin) as (e & He & _).
    destruct (is_duplicate_known s ip seqno f p e Ok E He) as (s' & R & Ok' & _ & _ & Hi). eauto.
  - destruct (is_duplicate_new s ip seqno f Ok Hl E) as (s' & p & t & R & Ok' & _ & _ & _ & Hi). eauto.
Qed.

(** ** The sets as maps from originators to windows *)
Definition window_of (f : bool) (ip : ip_addr) (s : dup_st) : option dup_entry :=
  p ← tree_find comp ip (set_of f s); dups s !! p.

Lemma window_of_spec f ip s e : dup_ok s ->
  window_of f ip s = Some e <-> exists p k, (p, k) ∈ set_of f s /\ comp ip k = 0 /\ dups s !! p = Some e.
Proof.
  intros Ok. unfold window_of. split.
  - destruct (tree_find _ _ _) as [p|] eqn:E; [|done]. apply tree_find_Some in E as (k & Hin & Hk). simpl. eauto.
  - intros (p & k & Hin & Hk & He). by rewrite (tree_find_in comp _ p ip k (d_tree _ Ok f) Hin Hk).
Qed.

(** An entry belongs to one originator and one set. *)
Lemma window_of_inj f ip f' ip' s p k k' : dup_ok s -> (p, k) ∈ set_of f s -> comp ip k = 0 ->
  (p, k') ∈ set_of f' s -> comp ip' k' = 0 -> f' = f /\ comp ip' ip = 0.
Proof.
  intros Ok H1 E1 H2 E2. destruct (d_in _ Ok _ _ _ H1) as (e & He & Ek & Ef). destruct (d_in _ Ok _ _ _ H2) as (e' & He' & Ek' & Ef').
  simplify_eq. split; [done|]. eapply (comp_eq_trans comp); [exact E2|]. by apply comp_eq_sym; [apply _|].
Qed.

Lemma window_of_ext f ip s s' e : dup_ok s -> dup_ok s' ->
  (forall p k, comp ip k = 0 -> (p, k) ∈ set_of f s' /\ dups s' !! p = Some e <-> (p, k) ∈ set_of f s /\ dups s !! p = Some e) ->
  window_of f ip s' = Some e <-> window_of f ip s = Some e.
Proof. intros Ok Ok' H. rewrite !window_of_spec by done. naive_solver. Qed.

Lemma is_duplicate_map s ip seqno f : dup_ok s -> length ip = 16%nat ->
  exists s' r e', olsr_is_duplicate_message ip_version rnd ip seqno f s = Some (s', r) /\ dup_ok s' /\
    match window_of f ip s with
    | None => r = (false, NEW_OLSR_MESSAGE) /\ exists t, e' = mkDup (copy_ip ip_version ip) seqno 0 0 t (Some f)
    | Some e => (e', r) = window_step e seqno
    end /\
    forall f' ip', window_of f' ip' s' = if decide (f' = f /\ comp ip' ip = 0) then Some e' else window_of f' ip' s.
Proof.
  intros Ok Hl. unfold window_of at 1. destruct (tree_find comp ip (set_of f s)) as [p|] eqn:E; simpl.
  - pose proof E as (k & Hin & Hk)%tree_find_Some. destruct (d_in _ Ok f p k Hin) as (e & He & _). rewrite He.
    destruct (is_duplicate_known s ip seqno f p e Ok E He) as (s' & R & Ok' & Ed & Es & _).
    exists s', (window_step e seqno).2, (window_step e seqno).1. split; [done|]. split; [done|]. split; [by destruct (window_step e seqno)|].
    intros f' ip'. case_decide as Hc.
    + destruct Hc as [-> Hc]. apply window_of_spec; [done|]. exists p, k. rewrite Es, Ed, lookup_insert_eq.
      split_and!; [done| |done]. by eapply (comp_eq_trans comp).
    + apply option_eq. intros e0. apply window_of_ext; [done..|]. intros q kq Hkq. rewrite Es, Ed. split; intros [Hq H]; split; try done.
      * rewrite lookup_insert_ne in H; [done|]. intros <-. apply Hc. exact (window_of_inj f ip f' ip' s p k kq Ok Hin Hk Hq Hkq).
      * rewrite lookup_insert_ne; [done|]. intros <-. apply Hc. exact (window_of_inj f ip f' ip' s p k kq Ok Hin Hk Hq Hkq).
  - destruct (is_duplicate_new s ip seqno f Ok Hl E) as (s' & p & t & R & Ok' & Hp & Ed & Hin & _).
    exists s', (false, NEW_OLSR_MESSAGE), (mkDup (copy_ip ip_version ip) seqno 0 0 (Some t) (Some f)). split; [done|]. split; [done|]. split; [by eauto|].
    assert (Hip : comp ip (copy_ip ip_version ip) = 0) by (by apply copy_ip_eq).
    intros f' ip'. case_decide as Hc.
    + destruct Hc as [-> Hc]. apply window_of_spec; [done|]. exists p, (copy_ip ip_version ip). rewrite Hin, Ed, lookup_insert_eq.
      split_and!; [by left| |done]. by eapply (comp_eq_trans comp).
    + apply option_eq. intros e0. apply window_of_ext; [done..|]. intros q kq Hkq. rewrite Hin, Ed. split.
      * intros [[[-> Eq]|Hq] Hd].
        { injection Eq as -> ->. exfalso. apply Hc. split; [done|]. eapply (comp_eq_trans comp); [exact Hkq|]. by apply comp_eq_sym; [apply _|]. }
        split; [done|]. rewrite lookup_insert_ne in Hd; [done|]. intros <-. destruct (d_in _ Ok _ _ _ Hq) as (? & ? & _). congruence.
      * intros [Hq Hd]. split; [by right|]. rewrite lookup_insert_ne; [done|]. intros <-. congruence.
Qed.

(** ** Sequences of messages *)
Fixpoint ask_all (f : bool) (ms : list (ip_addr * Z)) : SE dup_st (list (bool * duplicate_status)) :=
  match ms with
  | [] => mret []
  | m :: ms => r ← olsr_is_duplicate_message ip_version rnd m.1 (u16 m.2) f; rs ← ask_all f ms; mret (r :: rs)
  end.

(** The numbers of the messages of [ip], and the verdicts on them. *)
Definition numbers_of (ip : ip_addr) (ms : list (ip_addr * Z)) : list Z := (filter (fun m => comp ip m.1 = 0) ms).*2.
Fixpoint verdicts_of (ip : ip_addr) (ms : list (ip_addr * Z)) (rs : list (bool * duplicate_status)) : list (Z * (bool * duplicate_status)) :=
  match ms, rs with
  | m :: ms, r :: rs => if decide (comp ip m.1 = 0) then (m.2, r) :: verdicts_of ip ms rs else verdicts_of ip ms rs
  | _, _ => []
  end.

Lemma ask_all_run f ms : forall s, dup_ok s -> Forall (fun m => length m.1 = 16%nat) ms ->
  exists s' rs, ask_all f ms s = Some (s', rs) /\ dup_ok s' /\ forall ip,
    match window_of f ip s with
    | Some e => verdicts_of ip ms rs = judge e (numbers_of ip ms)
    | None => match numbers_of ip ms with
        | [] => verdicts_of ip ms rs = []
        | n :: ns => exists o t, verdicts_of ip ms rs = (n, (false, NEW_OLSR_MESSAGE)) :: judge (mkDup o (u16 n) 0 0 t (Some f)) ns
        end
    end.
Proof.
  induction ms as [|m ms IH]; intros s Ok Hl.
  { exists s, []. split_and!; try done. intros ip. by destruct (window_of f ip s). }
  apply Forall_cons in Hl as [Hm Hl]. destruct (is_duplicate_map s m.1 (u16 m.2) f Ok Hm) as (s1 & r & e' & R1 & Ok1 & Hr & Hw).
  destruct (IH s1 Ok1 Hl) as (s2 & rs & R2 & Ok2 & H2). exists s2, (r :: rs). split; [|split; [done|]].
  { simpl. erewrite bind_run by exact R1. by erewrite bind_run by exact R2. }
  intros ip. specialize (H2 ip). rewrite Hw in H2. unfold numbers_of. rewrite filter_cons. cbn [verdicts_of].
  destruct (decide (comp ip m.1 = 0)) as [Ec|Ec].
  - rewrite decide_True in H2 by done. rewrite H2. cbn [fmap list_fmap].
    assert (window_of f ip s = window_of f m.1 s) as ->.
    { apply option_eq. intros e. rewrite !window_of_spec by done.
      split; intros (p & k & Hin & Hk & He); exists p, k; (split_and!; [done| |done]); eapply (comp_eq_trans comp); try exact Hk; [|done].
      by apply comp_eq_sym; [apply _|]. }
    destruct (window_of f m.1 s) as [e|].
    + simpl. rewrite <- Hr. done.
    + destruct Hr as [-> [t ->]]. eauto.
  - rewrite decide_False in H2 by (intros [_ ?]; done). done.
Qed.

(** The duplicate sets judge the messages of every originator by a window
    of their own, however the messages of several originators are mixed: run on
    any sequence of messages of which those of [ip] are numbered without
    wrap-around and arrive less than half a turn of the 16-bit sequence numbers
    away from the newest one, as long as the window is not reset the handler
    never accepts two messages of [ip] with the same number, except that the
    very first message may be accepted once more. *)
Theorem accepted_at_most_once f ms s ip n ns :
  dup_ok s -> Forall (fun m => length m.1 = 16%nat) ms -> window_of f ip s = None ->
  numbers_of ip ms = n :: ns -> near (mkWin n ∅ 0) ns ->
  exists s' rs, ask_all f ms s = Some (s', rs) /\ dup_ok s' /\
    head (verdicts_of ip ms rs) = Some (n, (false, NEW_OLSR_MESSAGE)) /\
    (no_reset (verdicts_of ip ms rs) -> NoDup (accepted (tail (verdicts_of ip ms rs)))).
Proof.
  intros Ok Hl Hn En Hnear. destruct (ask_all_run f ms s Ok Hl) as (s' & rs & R & Ok' & H). specialize (H ip). rewrite Hn, En in H.
  destruct H as (o & t & Ev). exists s', rs. rewrite Ev. split_and!; [done..|]. simpl. intros [_ Hr]%Forall_cons.
  rewrite (judge_refines ns _ (mkWin n ∅ 0)) in * by (done || apply first_window). by apply win_judge_once; [set_solver|].
Qed.

(** C5: The duplicate sets refine, per originator, a set of message numbers:
    the first message of an originator is new, and every later one is judged as
    by a window that holds the numbers seen so far without wrap-around (a
    message above the window is new, one inside the window is a duplicate
    exactly if its number is in the set, one more than 31 below is too old, and
    after 16 of these in a row the window restarts). Messages of other
    originators in between do not matter. *)
Theorem verdicts_refine_window f ms s ip n ns :
  dup_ok s -> Forall (fun m => length m.1 = 16%nat) ms -> window_of f ip s = None ->
  numbers_of ip ms = n :: ns -> near (mkWin n ∅ 0) ns ->
  exists s' rs, ask_all f ms s = Some (s', rs) /\ dup_ok s' /\
    verdicts_of ip ms rs = (n, (false, NEW_OLSR_MESSAGE)) :: win_judge (mkWin n ∅ 0) ns.
Proof.
  intros Ok Hl Hn En Hnear. destruct (ask_all_run f ms s Ok Hl) as (s' & rs & R & Ok' & H). specialize (H ip). rewrite Hn, En in H.
  destruct H as (o & t & Ev). exists s', rs. rewrite Ev. split_and!; [done..|]. f_equal. apply judge_refines; [apply first_window|done].
Qed.

(** The entry that the first message of an originator creates has an empty
    window, so the handler does not recognise a second copy of that message: both
    copies are reported as not being duplicates. *)
Theorem first_message_accepted_twice f s ip n :
  dup_ok s -> length ip = 16%nat -> window_of f ip s = None ->
  exists s', ask_all f [(ip, n); (ip, n)] s = Some (s', [(false, NEW_OLSR_MESSAGE); (false, OLD_OLSR_MESSAGE)]) /\ dup_ok s'.
Proof.
  intros Ok Hl Hn. destruct (is_duplicate_map s ip (u16 n) f Ok Hl) as (s1 & r1 & e1 & R1 & Ok1 & H1 & W1). rewrite Hn in H1. destruct H1 as [-> [t ->]].
  destruct (is_duplicate_map s1 ip (u16 n) f Ok1 Hl) as (s2 & r2 & e2 & R2 & Ok2 & H2 & _).
  rewrite W1, decide_True in H2 by (by rewrite comp_refl). exists s2. split; [|done]. simpl.
  erewrite bind_run by exact R1. erewrite bind2_run by exact R2. simpl. unfold mret, se_ret. do 4 f_equal.
  pose proof (window_step_refines _ _ n (first_window n t (Some f) (copy_ip ip_version ip)) ltac:(simpl; lia)) as [E _].
  rewrite <- H2 in E. simpl in E. rewrite E. unfold win_step. simpl. by rewrite decide_False, decide_True by lia.
Qed.
End handlers.

(** ** An empty duplicate set, with the timer classes 1 and 2 *)
Definition demo_dups : dup_st := mkDups [] [] ∅ 1 demo_timers.

Lemma demo_dups_ok : dup_ok AF_INET demo_dups.
Proof. split; simpl; [apply demo_timers_ok|by eexists|by intros []; split; constructor|by intros []; set_solver|done]. Qed.

Definition demo_messages : list (ip_addr * Z) :=
  let a := [10; 0; 0; 9] ++ replicate 12 0 in let b := [10; 0; 0; 8] ++ replicate 12 0 in
  [(a, 65534); (b, 7); (a, 65537); (a, 65536); (b, 7); (a, 65536); (a, 65600); (a, 65537)].
Abbreviation demo_originator := ([10; 0; 0; 9] ++ replicate 12 0).

Lemma verdicts_refine_window_witness :
  exists s' rs, ask_all AF_INET (fun _ => 5) false demo_messages demo_dups = Some (s', rs) /\ dup_ok AF_INET s' /\
    verdicts_of AF_INET demo_originator demo_messages rs =
      [(65534, (false, NEW_OLSR_MESSAGE)); (65537, (false, NEW_OLSR_MESSAGE)); (65536, (false, OLD_OLSR_MESSAGE));
       (65536, (true, DUPLICATE_OLSR_MESSAGE)); (65600, (false, NEW_OLSR_MESSAGE)); (65537, (true, TOO_OLD_OLSR_MESSAGE))].
Proof.
  apply (verdicts_refine_window AF_INET (fun _ => 5) false demo_messages demo_dups demo_originator 65534 [65537; 65536; 65536; 65600; 65537]);
    [apply demo_dups_ok|repeat constructor|done|done|by vm_compute].
Defined.

Lemma accepted_at_most_once_witness :
  exists s' rs, ask_all AF_INET (fun _ => 5) false demo_messages demo_dups = Some (s', rs) /\ dup_ok AF_INET s' /\
    head (verdicts_of AF_INET demo_originator demo_messages rs) = Some (65534, (false, NEW_OLSR_MESSAGE)) /\
    (no_reset (verdicts_of AF_INET demo_originator demo_messages rs) ->
     NoDup (accepted (tail (verdicts_of AF_INET demo_originator demo_messages rs)))).
Proof.
  apply (accepted_at_most_once AF_INET (fun _ => 5) false demo_messages demo_dups demo_originator 65534 [65537; 65536; 65536; 65600; 65537]);
    [apply demo_dups_ok|repeat constructor|done|done|by vm_compute].
Defined.

Lemma first_message_accepted_twice_witness :
  exists s', ask_all AF_INET (fun _ => 5) true [(demo_originator, 3); (demo_originator, 3)] demo_dups =
    Some (s', [(false, NEW_OLSR_MESSAGE); (false, OLD_OLSR_MESSAGE)]) /\ dup_ok AF_INET s'.
Proof. apply (first_message_accepted_twice AF_INET (fun _ => 5) true demo_dups demo_originator 3); [apply demo_dups_ok|done|done]. Defined.

(** The set after a first message. *)
Definition demo_dups1 : dup_st :=
  match olsr_is_duplicate_message AF_INET (fun _ => 5) demo_originator 3 true demo_dups with Some (s, _) => s | None => demo_dups end.

Lemma demo_dups1_ok : dup_ok AF_INET demo_dups1.
Proof.
  unfold demo_dups1. destruct (is_duplicate_run AF_INET (fun _ => 5) demo_dups demo_originator 3 true demo_dups_ok eq_refl) as (s' & r & -> & Ok & _).
  exact Ok.
Qed.

Lemma expire_removes_entry_witness :
  exists s', olsr_expire_duplicate_entry 1 demo_dups1 = Some (s', tt) /\ dup_ok AF_INET s' /\ dups s' = delete 1%positive (dups demo_dups1) /\
    (forall f, set_of f s' = tree_delete 1 (set_of f demo_dups1)) /\ dup_timers s' = dup_timers demo_dups1.
Proof.
  apply (expire_removes_entry AF_INET demo_dups1 1 (mkDup demo_originator 3 0 0 (Some 1%positive) (Some true))); [apply demo_dups1_ok|by vm_compute].
Defined.

Lemma flush_removes_all_witness :
  exists s', olsr_flush_duplicate_entries demo_dups1 = Some (s', tt) /\ dup_ok AF_INET s' /\ dups s' = ∅ /\ (forall f, set_of f s' = []).
Proof. apply (flush_removes_all AF_INET demo_dups1), demo_dups1_ok. Defined.
