(* ===== verification/Packet.v ===== *)
(** * Reading and writing packets ([lq_packet.h], message headers, sequence numbers)

    A read cursor [const uint8_t **p] is the list of the bytes from [*p] to the
    end of the buffer. A write cursor is a pair: the bytes of the buffer before
    [*p], and the ones from [*p] on. An access behind the end has no result. *)
From S2P Require Import Prelude Types Clock IpCalc.

Abbreviation RD := (SE (list Z)).
Abbreviation WR := (SE (list Z * list Z)).

(** [n] bytes are read, and the cursor advances. *)
Definition pkt_bytes (n : nat) : RD (list Z) := fun p =>
  if decide (n <= length p)%nat then Some (drop n p, take n p) else None.
(** The bytes [bs] are stored, and the cursor advances. *)
Definition pkt_store (bs : list Z) : WR unit := fun p =>
  if decide (length bs <= length p.2)%nat then Some ((p.1 ++ bs, drop (length bs) p.2), tt) else None.

(** ** [pkt_get_*] *)
Definition pkt_get_u8 : RD Z := b ← pkt_bytes 1; mret (le b).
Definition pkt_get_u16 : RD Z := b ← pkt_bytes 2; mret (ntohs (le b)).
Definition pkt_get_u32 : RD Z := b ← pkt_bytes 4; mret (ntohl (le b)).
Definition pkt_get_s8 : RD Z := b ← pkt_bytes 1; mret (s8 (le b)).
Definition pkt_get_s16 : RD Z := b ← pkt_bytes 2; mret (s16 (ntohs (u16 (s16 (le b))))).
Definition pkt_get_s32 : RD Z := b ← pkt_bytes 4; mret (s32 (ntohl (u32 (s32 (le b))))).
Definition pkt_get_reltime : RD Z := b ← pkt_bytes 1; se_opt (olsr_clock_decode_olsrv1 (le b)).

(** ** [pkt_put_*] *)
Definition pkt_put_u8 (v : Z) : WR unit := pkt_store (to_le 1 v).
Definition pkt_put_u16 (v : Z) : WR unit := pkt_store (to_le 2 (htons v)).
Definition pkt_put_u32 (v : Z) : WR unit := pkt_store (to_le 4 (htonl v)).
Definition pkt_put_s8 (v : Z) : WR unit := pkt_store (to_le 1 (u8 v)).
Definition pkt_put_s16 (v : Z) : WR unit := pkt_store (to_le 2 (u16 (s16 (htons (u16 v))))).
Definition pkt_put_s32 (v : Z) : WR unit := pkt_store (to_le 4 (u32 (s32 (htonl (u32 v))))).
Definition pkt_put_reltime (v : Z) : WR unit := pkt_store (to_le 1 (olsr_clock_encode_olsrv1 v)).

(** ** [pkt_ignore_*] *)
Definition pkt_ignore (n : nat) : RD unit := pkt_bytes n;; mret tt.
Definition pkt_ignore_u8 : RD unit := pkt_ignore 1.
Definition pkt_ignore_u16 : RD unit := pkt_ignore 2.
Definition pkt_ignore_u32 : RD unit := pkt_ignore 4.
Definition pkt_ignore_s8 : RD unit := pkt_ignore 1.
Definition pkt_ignore_s16 : RD unit := pkt_ignore 2.
Definition pkt_ignore_s32 : RD unit := pkt_ignore 4.

(** ** Sequence numbers ([olsr_protocol.h], [olsr.c]) *)
Definition MAXVALUE : Z := 65535.
Definition SEQNO_GREATER_THAN (s1 s2 : Z) : bool :=
  ((s1 >? s2) && (s1 - s2 <=? MAXVALUE / 2)) || ((s2 >? s1) && (s2 - s1 >? MAXVALUE / 2)).

Definition get_msg_seqno : SE Z Z := fun message_seqno => Some (u16 (message_seqno + 1), message_seqno).

(** ** Link codes of HELLO messages *)
Definition CREATE_LINK_CODE (status link : Z) : Z := Z.lor link (Z.shiftl status 2).
Definition EXTRACT_STATUS (link_code : Z) : Z := Z.shiftr (Z.land link_code 12) 2.
Definition EXTRACT_LINK (link_code : Z) : Z := Z.land link_code 3.

(** [header], [payload] and [end] are offsets in the packet. *)
Record olsr_message := mkMsg {
  m_type : Z;
  vtime : Z;
  m_size : Z;
  originator : ip_addr;
  ttl : Z;
  hopcnt : Z;
  seqno : Z;
  header : Z;
  payload : Z;
  end_ : Z
}.

Section codec.
(** [olsr_cnf->ipsize] *)
Context (ipsize : nat).

(** The bytes behind the copied ones keep their value. *)
Definition pkt_get_ipaddress (var : ip_addr) : RD ip_addr := b ← pkt_bytes ipsize; mret (b ++ drop ipsize var).
Definition pkt_get_prefixlen : RD Z := b ← pkt_bytes ipsize; mret (netmask_to_prefix b).
Definition pkt_ignore_ipaddress : RD unit := pkt_ignore ipsize.
Definition pkt_ignore_prefixlen : RD unit := pkt_ignore ipsize.
Definition pkt_put_ipaddress (var : ip_addr) : WR unit := pkt_store (take ipsize var).
Definition pkt_put_prefixlen (v : Z) : WR unit := pkt_store (prefix_to_netmask ipsize v).1.

(** [parser.c]; [curr] is the offset of the cursor in the packet and [old] what
    the variable held before. *)
Definition olsr_parse_msg_hdr (curr : Z) (old : ip_addr) : RD olsr_message :=
  type ← pkt_get_u8;
  vt ← pkt_get_reltime;
  size ← pkt_get_u16;
  orig ← pkt_get_ipaddress old;
  t ← pkt_get_u8;
  h ← pkt_get_u8;
  sq ← pkt_get_u16;
  mret (mkMsg type vt size orig t h sq curr (curr + 8 + Z.of_nat ipsize) (curr + size)).

(** [olsr.c]; returns the position of the size field behind the start. *)
Definition olsr_put_msg_hdr (m : olsr_message) : WR nat :=
  pkt_put_u8 (m_type m);;
  pkt_put_reltime (vtime m);;
  sizeptr ← se_get (fun p => length p.1);
  pkt_put_u16 (m_size m);;
  pkt_put_ipaddress (originator m);;
  pkt_put_u8 (ttl m);;
  pkt_put_u8 (hopcnt m);;
  pkt_put_u16 (seqno m);;
  mret sizeptr.
End codec.

(** ** What the operations store and read *)
Lemma ntohs_be b : bytes b -> length b = 2%nat -> ntohs (le b) = be b.
Proof. intros H Hl. unfold ntohs. rewrite <- Hl. by rewrite to_le_le. Qed.
Lemma ntohl_be b : bytes b -> length b = 4%nat -> ntohl (le b) = be b.
Proof. intros H Hl. unfold ntohl. rewrite <- Hl. by rewrite to_le_le. Qed.

Lemma to_be_bytes n x : bytes (to_be n x).
Proof. apply List.Forall_rev, to_le_bytes. Qed.

Lemma htons_bytes v : to_le 2 (htons v) = to_be 2 v.
Proof. unfold htons. rewrite <- (to_be_length 2 v) at 1. apply to_le_le, to_be_bytes. Qed.
Lemma htonl_bytes v : to_le 4 (htonl v) = to_be 4 v.
Proof. unfold htonl. rewrite <- (to_be_length 4 v) at 1. apply to_le_le, to_be_bytes. Qed.

Lemma pkt_store_run bs a r : (length bs <= length r)%nat -> pkt_store bs (a, r) = Some ((a ++ bs, drop (length bs) r), tt).
Proof. intros H. unfold pkt_store. by rewrite decide_True. Qed.
(** [m] stores the bytes [bs] and returns [x] of the position it started at, or
    leaves the buffer. *)
Definition writes {A} (m : WR A) (bs : list Z) (x : nat -> A) : Prop := forall a r,
  m (a, r) = if decide (length bs <= length r)%nat then Some ((a ++ bs, drop (length bs) r), x (length a)) else None.

Lemma writes_store bs : writes (pkt_store bs) bs (fun _ => tt).
Proof. intros a r. unfold pkt_store. simpl. by case_decide. Qed.
Lemma writes_ret {A} (x : A) : writes (mret x) [] (fun _ => x).
Proof. intros a r. rewrite decide_True by (simpl; lia). by rewrite app_nil_r. Qed.
Lemma writes_bind {A B} (m : WR A) (k : A -> WR B) bs1 bs2 x z :
  writes m bs1 x -> (forall n, writes (k (x n)) bs2 (z n)) -> writes (m ≫= k) (bs1 ++ bs2) (fun n => z n (n + length bs1)%nat).
Proof.
  intros H1 H2 a r. unfold mbind, se_bind. rewrite H1. rewrite length_app. case_decide as D.
  - rewrite H2, length_drop, length_app. case_decide; [rewrite decide_True by lia|by rewrite decide_False by lia].
    by rewrite <- app_assoc, drop_drop.
  - by rewrite decide_False by lia.
Qed.
Lemma writes_ext {A} (m : WR A) bs bs' x x' : writes m bs x -> bs = bs' -> (forall n, x n = x' n) -> writes m bs' x'.
Proof. intros H <- E a r. by rewrite H, E. Qed.
Lemma writes_then {A} (m : WR unit) (k : WR A) bs1 bs2 x :
  writes m bs1 (fun _ => tt) -> writes k bs2 x -> writes (m;; k) (bs1 ++ bs2) (fun n => x (n + length bs1)%nat).
Proof. intros H1 H2. by apply (writes_bind m (fun _ => k) bs1 bs2 (fun _ => tt) (fun _ => x)). Qed.

Lemma pkt_bytes_run n b r : length b = n -> pkt_bytes n (b ++ r) = Some (r, b).
Proof.
  intros H. unfold pkt_bytes. rewrite decide_True by (rewrite length_app; lia).
  by rewrite drop_app_length', take_app_length'.
Qed.

(** The wire format of a header. *)
Definition hdr_bytes (ipsize : nat) (m : olsr_message) : list Z :=
  [m_type m; olsr_clock_encode_olsrv1 (vtime m)] ++ to_be 2 (m_size m) ++ take ipsize (originator m) ++
  [ttl m; hopcnt m] ++ to_be 2 (seqno m).

Record msg_fields_ok (ipsize : nat) (m : olsr_message) : Prop := {
  mf_type : is_u 8 (m_type m);
  mf_vtime : is_u 32 (vtime m);
  mf_size : is_u 16 (m_size m);
  mf_orig : bytes (originator m) /\ (ipsize <= length (originator m))%nat;
  mf_ttl : is_u 8 (ttl m);
  mf_hop : is_u 8 (hopcnt m);
  mf_seqno : is_u 16 (seqno m)
}.

Lemma byte_le x : is_u 8 x -> to_le 1 x = [x].
Proof. intros H. simpl. by rewrite Z.mod_small. Qed.

Lemma encode_byte v : is_u 32 v -> is_u 8 (olsr_clock_encode_olsrv1 v).
Proof. intros H. destruct (encode_fields v H) as (a & b & Ha & Hb & ->). unfold is_u. lia. Qed.

Lemma hdr_length ipsize m : msg_fields_ok ipsize m -> length (hdr_bytes ipsize m) = (8 + ipsize)%nat.
Proof. intros H. unfold hdr_bytes. rewrite !length_app, !to_be_length, length_take. destruct (mf_orig _ _ H). simpl. lia. Qed.

Lemma hdr_bytes_ok ipsize m : msg_fields_ok ipsize m -> bytes (hdr_bytes ipsize m).
Proof.
  intros [H1 H2 H3 [H4 H4'] H5 H6 H7]. unfold hdr_bytes, bytes. rewrite !Forall_app.
  split_and!.
  - apply Forall_cons. split; [done|]. apply Forall_cons. split; [by apply encode_byte|constructor].
  - apply List.Forall_rev, to_le_bytes.
  - by apply Forall_take.
  - apply Forall_cons. split; [done|]. apply Forall_cons. split; [done|constructor].
  - apply List.Forall_rev, to_le_bytes.
Qed.

Lemma put_msg_hdr_run ipsize m a r : msg_fields_ok ipsize m -> (8 + ipsize <= length r)%nat ->
  olsr_put_msg_hdr ipsize m (a, r) = Some ((a ++ hdr_bytes ipsize m, drop (8 + ipsize) r), (length a + 2)%nat).
Proof.
  intros [H1 H2 H3 [H4 H4'] H5 H6 H7] Hr. unfold olsr_put_msg_hdr, pkt_put_u8, pkt_put_reltime, pkt_put_u16, pkt_put_ipaddress.
  pose proof (encode_byte _ H2) as H2'. rewrite !htons_bytes, !byte_le by done.
  assert (Ht : length (take ipsize (originator m)) = ipsize) by (rewrite length_take; lia).
  erewrite bind_run by (apply pkt_store_run; simpl; lia).
  erewrite bind_run by (apply pkt_store_run; rewrite length_drop; simpl; lia).
  erewrite bind_run by reflexivity.
  erewrite bind_run by (apply pkt_store_run; rewrite !length_drop; simpl; lia).
  erewrite bind_run by (apply pkt_store_run; rewrite !length_drop, Ht; simpl; lia).
  erewrite bind_run by (apply pkt_store_run; rewrite !length_drop, Ht; simpl; lia).
  erewrite bind_run by (apply pkt_store_run; rewrite !length_drop, Ht; simpl; lia).
  erewrite bind_run by (apply pkt_store_run; rewrite !length_drop, Ht; simpl; lia).
  unfold mret, se_ret. rewrite !drop_drop, Ht. simpl fst. rewrite length_app. unfold hdr_bytes. rewrite <- !app_assoc.
  match goal with |- Some ((_, drop ?n _), ?k) = Some ((_, drop ?n' _), ?k') =>
    replace n' with n by (simpl; lia); replace k' with k by (simpl; rewrite ?length_app; simpl; lia) end.
  done.
Qed.

Lemma put_msg_hdr_writes ipsize m : msg_fields_ok ipsize m -> writes (olsr_put_msg_hdr ipsize m) (hdr_bytes ipsize m) (fun n => (n + 2)%nat).
Proof.
  intros [F1 F2 F3 F4 F5 F6 F7]. eapply writes_ext.
  - eapply writes_then; [apply writes_store|]. eapply writes_then; [apply writes_store|].
    eapply (writes_bind _ _ [] _ (fun n => n) (fun n _ => n)).
    { intros a r. rewrite decide_True by (simpl; lia). unfold se_get. simpl. by rewrite app_nil_r. }
    intros n. do 5 (eapply (writes_then _ _ _ _ (fun _ => n)); [apply writes_store|]). apply writes_ret.
  - unfold hdr_bytes. rewrite !htons_bytes, !byte_le, app_nil_r by (done || by apply encode_byte). simpl. by rewrite <- ?app_assoc.
  - intros n. simpl. lia.
Qed.

Lemma parse_msg_hdr_bytes ipsize m r curr old v : msg_fields_ok ipsize m ->
  olsr_clock_decode_olsrv1 (olsr_clock_encode_olsrv1 (vtime m)) = Some v ->
  olsr_parse_msg_hdr ipsize curr old (hdr_bytes ipsize m ++ r) =
    Some (r, mkMsg (m_type m) v (m_size m) (take ipsize (originator m) ++ drop ipsize old) (ttl m) (hopcnt m) (seqno m)
      curr (curr + 8 + Z.of_nat ipsize) (curr + m_size m)).
Proof.
  intros [H1 H2 H3 [H4 H4'] H5 H6 H7] Hv. unfold hdr_bytes. rewrite <- !app_assoc. cbn [app].
  unfold olsr_parse_msg_hdr, pkt_get_u8, pkt_get_reltime, pkt_get_u16, pkt_get_ipaddress.
  assert (Hbe : forall x, is_u 16 x -> ntohs (le (to_be 2 x)) = x).
  { intros x Hx. rewrite ntohs_be by (apply to_be_bytes || apply to_be_length). rewrite be_to_be. by apply (wrapu_id 16). }
  assert (Hle : forall x, le [x] = x) by (intros x; simpl; lia).
  erewrite bind2_run by (by apply (pkt_bytes_run 1 [m_type m])). erewrite bind_run by reflexivity.
  erewrite bind2_run by (by apply (pkt_bytes_run 1 [_])). cbv beta. rewrite (Hle (olsr_clock_encode_olsrv1 _)). unfold se_opt. rewrite Hv. erewrite bind_run by reflexivity.
  erewrite bind2_run by (apply pkt_bytes_run, to_be_length). erewrite bind_run by reflexivity.
  erewrite bind2_run by (apply pkt_bytes_run; rewrite length_take; lia). erewrite bind_run by reflexivity.
  erewrite bind2_run by (by apply (pkt_bytes_run 1 [_])). erewrite bind_run by reflexivity.
  erewrite bind2_run by (by apply (pkt_bytes_run 1 [_])). erewrite bind_run by reflexivity.
  erewrite bind2_run by (apply pkt_bytes_run, to_be_length). erewrite bind_run by reflexivity.
  rewrite !Hbe, !Hle by done. reflexivity.
Qed.

Lemma decode_range me v : 0 <= me < 256 -> olsr_clock_decode_olsrv1 me = Some v -> is_u 32 v.
Proof.
  intros Hm Hv.
  pose proof (forall_u8 (fun me => match olsr_clock_decode_olsrv1 me with
    | Some v => (0 <=? v) && (v <? 2 ^ 32) | None => true end) ltac:(by vm_compute) me Hm) as H.
  cbv beta in H. rewrite Hv in H. apply andb_prop in H as [H1%Z.leb_le H2%Z.ltb_lt]. by split.
Qed.

Lemma bytes_take n b : bytes b -> bytes (take n b).
Proof. apply Forall_take. Qed.
Lemma bytes_drop n b : bytes b -> bytes (drop n b).
Proof. apply Forall_drop. Qed.

Lemma be_range b n : bytes b -> length b = n -> 0 <= be b < 256 ^ Z.of_nat n.
Proof. intros H <-. unfold be. rewrite <- length_rev. by apply le_range, List.Forall_rev. Qed.

(** Every sequence of bytes is the header of one message. *)
Lemma parse_msg_hdr_total ipsize curr old p :
  bytes p -> bytes old -> length old = 16%nat -> (ipsize <= 16)%nat -> (8 + ipsize <= length p)%nat ->
  exists m, olsr_parse_msg_hdr ipsize curr old p = Some (drop (8 + ipsize) p, m) /\ msg_fields_ok ipsize m /\
    hdr_bytes ipsize m = take (8 + ipsize) p /\ length (originator m) = 16%nat /\ drop ipsize (originator m) = drop ipsize old /\
    header m = curr /\ payload m = curr + 8 + Z.of_nat ipsize /\ end_ m = curr + m_size m.
Proof.
  intros Hp Hold Lold Hips Hl. destruct p as [|b0 [|b1 p]]; [simpl in Hl; lia..|].
  apply Forall_cons in Hp as [Hb0 Hp]. apply Forall_cons in Hp as [Hb1 Hp].
  destruct (decode_encode b1 Hb1) as (v & Hv & Ev). simpl in Hl.
  assert (exists sz ip th sq r, p = sz ++ ip ++ th ++ sq ++ r /\ length sz = 2%nat /\ length ip = ipsize /\ length th = 2%nat /\ length sq = 2%nat)
    as (sz & ip & th & sq & r & -> & L1 & L2 & L3 & L4).
  { exists (take 2 p), (take ipsize (drop 2 p)), (take 2 (drop (2 + ipsize) p)), (take 2 (drop (4 + ipsize) p)), (drop (6 + ipsize) p).
    rewrite !length_take, !length_drop. split_and!; try lia.
    rewrite <- (take_drop 2 p) at 1. f_equal. rewrite <- (take_drop ipsize (drop 2 p)) at 1. f_equal. rewrite drop_drop.
    rewrite <- (take_drop 2 (drop (2 + ipsize) p)) at 1. f_equal. rewrite drop_drop.
    replace (2 + ipsize + 2)%nat with (4 + ipsize)%nat by lia.
    rewrite <- (take_drop 2 (drop (4 + ipsize) p)) at 1. f_equal. rewrite drop_drop. f_equal. lia. }
  apply Forall_app in Hp as [B1 Hp]. apply Forall_app in Hp as [B2 Hp]. apply Forall_app in Hp as [B3 Hp].
  apply Forall_app in Hp as [B4 Hp]. destruct th as [|t [|h [|]]]; try done.
  apply Forall_cons in B3 as [Bt B3]. apply Forall_cons in B3 as [Bh _].
  set (m := mkMsg b0 v (be sz) (ip ++ drop ipsize old) t h (be sq) curr (curr + 8 + Z.of_nat ipsize) (curr + be sz)).
  assert (Hm : msg_fields_ok ipsize m).
  { split; simpl; try done; [by apply (decode_range b1)|by apply (be_range sz 2)| |by apply (be_range sq 2)].
    split; [apply Forall_app; split; [done|by apply bytes_drop]|rewrite length_app; lia]. }
  assert (Hh : hdr_bytes ipsize m = b0 :: b1 :: sz ++ ip ++ [t; h] ++ sq).
  { unfold hdr_bytes. simpl m_type. simpl vtime. rewrite Ev. simpl m_size. simpl seqno. rewrite <- L1 at 1. rewrite <- L4 at 1.
    rewrite !to_be_be by done. simpl originator. rewrite take_app_length' by done. done. }
  pose proof (hdr_length ipsize m Hm) as HL.
  assert (E : b0 :: b1 :: sz ++ ip ++ [t; h] ++ sq ++ r = hdr_bytes ipsize m ++ r) by (rewrite Hh; simpl; by rewrite <- !app_assoc).
  exists m. rewrite E, drop_app_length', take_app_length' by done.
  split_and!; try done.
  - rewrite (parse_msg_hdr_bytes ipsize m r curr old v) by (done || by (simpl; rewrite Ev)). simpl. by rewrite take_app_length'.
  - simpl. rewrite length_app, length_drop. lia.
  - simpl. rewrite drop_app_length' by done. done.
Qed.

(** ** Sequence numbers and link codes *)

(** On the circle of 16-bit numbers exactly one of two numbers is greater. *)
Lemma seqno_greater_spec s1 s2 : is_u 16 s1 -> is_u 16 s2 ->
  SEQNO_GREATER_THAN s1 s2 = true <->
  0 < (s1 - s2) mod 2 ^ 16 < 2 ^ 15 \/ (s1 - s2) mod 2 ^ 16 = 2 ^ 15 /\ s1 < s2.
Proof.
  unfold is_u, SEQNO_GREATER_THAN. change (MAXVALUE / 2) with 32767. intros H1 H2. rewrite !Z.gtb_ltb.
  change (2 ^ 16) with 65536 in *. change (2 ^ 15) with 32768 in *.
  case_cmp; simpl; Z.div_mod_to_equations; split; intros; try done; lia.
Qed.

Lemma seqno_greater_total s1 s2 : is_u 16 s1 -> is_u 16 s2 -> s1 <> s2 ->
  SEQNO_GREATER_THAN s1 s2 = negb (SEQNO_GREATER_THAN s2 s1).
Proof.
  unfold is_u, SEQNO_GREATER_THAN. change (MAXVALUE / 2) with 32767. intros H1 H2 Hne. rewrite !Z.gtb_ltb.
  change (2 ^ 16) with 65536 in *. case_cmp; simpl; done || lia.
Qed.

Lemma link_code_roundtrip status link : 0 <= status < 4 -> 0 <= link < 4 ->
  EXTRACT_STATUS (CREATE_LINK_CODE status link) = status /\ EXTRACT_LINK (CREATE_LINK_CODE status link) = link.
Proof.
  intros Hs Hl. assert (forallb (fun s => forallb (fun l => (EXTRACT_STATUS (CREATE_LINK_CODE s l) =? s) &&
    (EXTRACT_LINK (CREATE_LINK_CODE s l) =? l)) [0; 1; 2; 3]) [0; 1; 2; 3] = true) as H by done.
  rewrite List.forallb_forall in H. specialize (H status). cbv beta in H. rewrite List.forallb_forall in H.
  specialize (H ltac:(simpl; lia) link ltac:(simpl; lia)). apply andb_prop in H as [?%Z.eqb_eq ?%Z.eqb_eq]. done.
Qed.

(** ** Round trips of the single fields

    Whatever [pkt_put_*] stores, the matching [pkt_get_*] reads. *)
Lemma le_one b : le [b] = b.
Proof. simpl. lia. Qed.

Lemma get_put_fields v r :
  (is_u 8 v -> pkt_get_u8 (to_le 1 v ++ r) = Some (r, v)) /\
  (is_u 16 v -> pkt_get_u16 (to_le 2 (htons v) ++ r) = Some (r, v)) /\
  (is_u 32 v -> pkt_get_u32 (to_le 4 (htonl v) ++ r) = Some (r, v)).
Proof.
  split_and!; intros Hv.
  - unfold pkt_get_u8. erewrite bind_run by (apply pkt_bytes_run, to_le_length). rewrite le_to_le. by rewrite Z.mod_small by exact Hv.
  - unfold pkt_get_u16. rewrite htons_bytes. erewrite bind_run by (apply pkt_bytes_run, to_be_length).
    rewrite ntohs_be by (apply to_be_bytes || apply to_be_length). rewrite be_to_be. by rewrite Z.mod_small by exact Hv.
  - unfold pkt_get_u32. rewrite htonl_bytes. erewrite bind_run by (apply pkt_bytes_run, to_be_length).
    rewrite ntohl_be by (apply to_be_bytes || apply to_be_length). rewrite be_to_be. by rewrite Z.mod_small by exact Hv.
Qed.

Lemma get_put_prefixlen ipsize v r : (ipsize <= 16)%nat -> 0 <= v <= 8 * Z.of_nat ipsize ->
  pkt_get_prefixlen ipsize ((prefix_to_netmask ipsize v).1 ++ r) = Some (r, v).
Proof.
  intros Hs Hv. unfold pkt_get_prefixlen. erewrite bind_run by (apply pkt_bytes_run, netmask_length).
  by rewrite (proj1 (netmask_roundtrip ipsize v Hv Hs)).
Qed.

(** ** Round trips of the message header *)

(** A header that [olsr_put_msg_hdr] writes into a packet with enough
    room takes 8 bytes more than an address, and [olsr_parse_msg_hdr] reads every
    field of it back unchanged; the validity time comes back as the value that
    its one-byte encoding stands for. *)
Theorem msg_hdr_put_parse ipsize m a r curr old :
  msg_fields_ok ipsize m -> (8 + ipsize <= length r)%nat ->
  exists h pos v, olsr_put_msg_hdr ipsize m (a, r) = Some ((a ++ h, drop (8 + ipsize) r), pos) /\ length h = (8 + ipsize)%nat /\
    olsr_clock_decode_olsrv1 (olsr_clock_encode_olsrv1 (vtime m)) = Some v /\
    olsr_parse_msg_hdr ipsize curr old (h ++ drop (8 + ipsize) r) =
      Some (drop (8 + ipsize) r, mkMsg (m_type m) v (m_size m) (take ipsize (originator m) ++ drop ipsize old) (ttl m) (hopcnt m) (seqno m)
        curr (curr + 8 + Z.of_nat ipsize) (curr + m_size m)).
Proof.
  intros Hm Hr. destruct (decode_encode _ (encode_byte _ (mf_vtime _ _ Hm))) as (v & Hv & _).
  exists (hdr_bytes ipsize m), (length a + 2)%nat, v. split; [by apply put_msg_hdr_run|]. split; [by apply hdr_length|]. split; [done|].
  by apply parse_msg_hdr_bytes.
Qed.

(** Every sequence of bytes that is long enough is a header, and writing
    the parsed header back reproduces it byte for byte. *)
Theorem msg_hdr_parse_put ipsize curr old p a :
  bytes p -> bytes old -> length old = 16%nat -> (ipsize <= 16)%nat -> (8 + ipsize <= length p)%nat ->
  exists m pos, olsr_parse_msg_hdr ipsize curr old p = Some (drop (8 + ipsize) p, m) /\
    olsr_put_msg_hdr ipsize m (a, p) = Some ((a ++ take (8 + ipsize) p, drop (8 + ipsize) p), pos).
Proof.
  intros Hp Ho Lo Hi Hl. destruct (parse_msg_hdr_total ipsize curr old p Hp Ho Lo Hi Hl) as (m & R & Hf & Eh & _).
  exists m, (length a + 2)%nat. split; [done|]. rewrite <- Eh. by apply put_msg_hdr_run.
Qed.

Definition demo_hdr : olsr_message := mkMsg 2 15000 40 ([10; 0; 0; 9] ++ replicate 12 0) 255 0 1234 0 0 0.

Lemma msg_hdr_put_parse_witness :
  exists h pos v, olsr_put_msg_hdr 4 demo_hdr ([7], replicate 14 0) = Some (([7] ++ h, drop 12 (replicate 14 0)), pos) /\ length h = 12%nat /\
    olsr_clock_decode_olsrv1 (olsr_clock_encode_olsrv1 15000) = Some v /\
    olsr_parse_msg_hdr 4 8 (replicate 16 0) (h ++ drop 12 (replicate 14 0)) =
      Some (drop 12 (replicate 14 0), mkMsg 2 v 40 (take 4 (originator demo_hdr) ++ drop 4 (replicate 16 0)) 255 0 1234 8 (8 + 8 + 4) (8 + 40)).
Proof.
  apply (msg_hdr_put_parse 4 demo_hdr [7] (replicate 14 0) 8 (replicate 16 0)); [|by apply Nat.leb_le].
  split; try done. split; [by apply (bool_decide_unpack _)|by apply Nat.leb_le].
Defined.

Lemma msg_hdr_parse_put_witness :
  exists m pos, olsr_parse_msg_hdr 4 0 (replicate 16 0) (seqZ 200 14) = Some (drop 12 (seqZ 200 14), m) /\
    olsr_put_msg_hdr 4 m ([], seqZ 200 14) = Some (([] ++ take 12 (seqZ 200 14), drop 12 (seqZ 200 14)), pos).
Proof.
  apply (msg_hdr_parse_put 4 0 (replicate 16 0) (seqZ 200 14) []);
    [by apply (bool_decide_unpack _)|by apply (bool_decide_unpack _)|done|by apply Nat.leb_le|by apply Nat.leb_le].
Defined.

(** The message sequence numbers compare by their distance around the
    circle of 16-bit numbers: of two different numbers exactly one is greater,
    namely the one less than half a turn ahead, and at exactly half a turn the
    smaller number. *)
Theorem seqno_greater_order s1 s2 : is_u 16 s1 -> is_u 16 s2 ->
  (SEQNO_GREATER_THAN s1 s2 = true <->
   0 < (s1 - s2) mod 2 ^ 16 < 2 ^ 15 \/ (s1 - s2) mod 2 ^ 16 = 2 ^ 15 /\ s1 < s2) /\
  (s1 <> s2 -> SEQNO_GREATER_THAN s1 s2 = negb (SEQNO_GREATER_THAN s2 s1)).
Proof. intros H1 H2. split; [by apply seqno_greater_spec|by apply seqno_greater_total]. Qed.

Lemma seqno_greater_order_witness :
  (SEQNO_GREATER_THAN 3 65530 = true <->
   0 < (3 - 65530) mod 2 ^ 16 < 2 ^ 15 \/ (3 - 65530) mod 2 ^ 16 = 2 ^ 15 /\ 3 < 65530) /\
  (3 <> 65530 -> SEQNO_GREATER_THAN 3 65530 = negb (SEQNO_GREATER_THAN 65530 3)).
Proof. apply (seqno_greater_order 3 65530); done. Defined.
