(* ===== verification/NetOut.v ===== *)
(** * Output buffers and address filter ([net_olsr.c], [net_olsr.h])

    Every interface has a buffer in which messages wait for the next packet.
    [os_sendto] is code of the operating system: the model logs the packets it
    is given, and [os_sendto n] is its result for packet number [n]. Packet
    transform functions are code of plugins. *)
From S2P Require Import Prelude AvlSpec Trees Types Comparators Memcookie Clock Timer Packet.

Definition OLSR_HEADERSIZE : Z := 4.
Definition OLSR_BUFFER_HOLD_TIME : Z := 100.
Definition OLSR_BUFFER_HOLD_JITTER : Z := 25.

Inductive interface_mode := IF_MODE_MESH | IF_MODE_ETHER.
#[global] Instance interface_mode_eq_dec : EqDecision interface_mode.
Proof. solve_decision. Defined.

Record olsr_netbuf := mkBuf {
  buff : option (list Z);
  bufsize : Z;
  maxsize : Z;
  pending : Z;
  reserved : Z
}.

Record interface := mkIf {
  mode : interface_mode;
  if_ip : ip_addr;
  int_mtu : Z;
  if_idx : Z;
  olsr_socket_fd : Z;
  send_socket_fd : Z;
  olsr_seqnum : Z;
  buffer_hold_timer : option loc;
  netbuf : olsr_netbuf
}.

Record net_st := mkNet {
  interface_head : list loc;
  ifs : gmap loc interface;
  buffer_hold_timer_info : loc;
  filter_tree : list (loc * ip_addr);
  sent : list (loc * list Z)
}.

(** A state that contains the interfaces. *)
Class HasNet (S : Type) := {
  get_net : S -> net_st;
  put_net : net_st -> S -> S;
  get_put_net : forall N s, get_net (put_net N s) = N;
  put_put_net : forall N N' s, put_net N (put_net N' s) = put_net N s
}.

Definition with_ifs (I : gmap loc interface) (N : net_st) : net_st :=
  mkNet (interface_head N) I (buffer_hold_timer_info N) (filter_tree N) (sent N).
Definition with_filter (L : list (loc * ip_addr)) (N : net_st) : net_st :=
  mkNet (interface_head N) (ifs N) (buffer_hold_timer_info N) L (sent N).
Definition with_sent (l : list (loc * list Z)) (N : net_st) : net_st :=
  mkNet (interface_head N) (ifs N) (buffer_hold_timer_info N) (filter_tree N) l.

Definition set_netbuf (b : olsr_netbuf) (i : interface) : interface :=
  mkIf (mode i) (if_ip i) (int_mtu i) (if_idx i) (olsr_socket_fd i) (send_socket_fd i) (olsr_seqnum i) (buffer_hold_timer i) b.
Definition set_pending (n : Z) (i : interface) : interface :=
  set_netbuf (mkBuf (buff (netbuf i)) (bufsize (netbuf i)) (maxsize (netbuf i)) n (reserved (netbuf i))) i.
Definition set_buff (b : option (list Z)) (i : interface) : interface :=
  set_netbuf (mkBuf b (bufsize (netbuf i)) (maxsize (netbuf i)) (pending (netbuf i)) (reserved (netbuf i))) i.
Definition set_seqnum (n : Z) (i : interface) : interface :=
  mkIf (mode i) (if_ip i) (int_mtu i) (if_idx i) (olsr_socket_fd i) (send_socket_fd i) n (buffer_hold_timer i) (netbuf i).
Definition set_hold_timer (t : option loc) (i : interface) : interface :=
  mkIf (mode i) (if_ip i) (int_mtu i) (if_idx i) (olsr_socket_fd i) (send_socket_fd i) (olsr_seqnum i) t (netbuf i).

(** [memcpy] to an offset of a buffer. *)
Definition buf_write (off : Z) (data : list Z) (b : list Z) : option (list Z) :=
  if decide (0 <= off /\ off + Z.of_nat (length data) <= Z.of_nat (length b)) then
    Some (take (Z.to_nat off) b ++ data ++ drop (Z.to_nat off + length data) b)
  else None.

Section net.
Context {S : Type} `{HN : HasNet S}.

Definition on_net {A} (m : SE net_st A) : SE S A := fun s =>
  match m (get_net s) with
  | Some (N, a) => Some (put_net N s, a)
  | None => None
  end.

Definition rd_if (ifp : loc) : SE S interface := on_net (fun N => (fun i => (N, i)) <$> ifs N !! ifp).
Definition wr_if (ifp : loc) (g : interface -> interface) : SE S unit := on_net (fun N =>
  (fun i => (with_ifs (<[ifp := g i]> (ifs N)) N, tt)) <$> ifs N !! ifp).

Definition net_outbuffer_bytes_left (ifp : loc) : SE S Z :=
  i ← rd_if ifp; mret (maxsize (netbuf i) - pending (netbuf i)).

Definition net_output_pending (ifp : loc) : SE S Z :=
  i ← rd_if ifp; mret (u16 (pending (netbuf i))).

Definition net_add_buffer (ifp : loc) : SE S Z :=
  i ← rd_if ifp;
  (match buff (netbuf i) with
   | Some _ => if negb (bufsize (netbuf i) =? int_mtu i) then wr_if ifp (set_buff None) else mret tt
   | None => mret tt
   end);;
  i ← rd_if ifp;
  (match buff (netbuf i) with
   | None => wr_if ifp (set_buff (Some (replicate (Z.to_nat (int_mtu i)) 0)))
   | Some _ => mret tt
   end);;
  wr_if ifp (fun i => set_netbuf (mkBuf (buff (netbuf i)) (int_mtu i) (s32 (u32 (int_mtu i - OLSR_HEADERSIZE))) 0 0) i);;
  mret 0.

(** [size] is a [uint16_t] and the length of [data] here: every caller passes a
    message whose size is read from a 16-bit field or that was written to a buffer of less than 2^16 bytes. *)
Definition net_outbuffer_push (ifp : loc) (data : list Z) : SE S Z :=
  i ← rd_if ifp;
  let size := Z.of_nat (length data) in
  if pending (netbuf i) + size >? maxsize (netbuf i) then mret 0
  else
    b ← se_opt (buff (netbuf i));
    b ← se_opt (buf_write (pending (netbuf i) + OLSR_HEADERSIZE) data b);
    wr_if ifp (fun i => set_pending (pending (netbuf i) + size) (set_buff (Some b) i));;
    mret size.

(** ** Lookups ([interfaces.c]) *)
Fixpoint find_if (P : interface -> bool) (l : list loc) : SE S (option loc) :=
  match l with
  | [] => mret None
  | ifp :: l => i ← rd_if ifp; if P i then mret (Some ifp) else find_if P l
  end.

Definition if_ifwithaddr (ip_version : Z) (addr : ip_addr) : SE S (option loc) :=
  l ← on_net (se_get interface_head);
  find_if (fun i => ipcmp ip_version (if_ip i) addr =? 0) l.
Definition if_ifwithsock (fd : Z) : SE S (option loc) :=
  l ← on_net (se_get interface_head);
  find_if (fun i => (olsr_socket_fd i =? fd) || (send_socket_fd i =? fd)) l.
Definition if_ifwithindex (index : Z) : SE S (option loc) :=
  l ← on_net (se_get interface_head);
  find_if (fun i => if_idx i =? index) l.

Section output.
Context (ptf_list : list (list Z -> Z -> list Z * Z)) (os_sendto : nat -> Z).

Definition run_ptf (b : list Z) (n : Z) : list Z * Z :=
  foldl (fun acc f => f acc.1 acc.2) (b, n) ptf_list.

Definition net_output (ifp : loc) : SE S Z :=
  i ← rd_if ifp;
  if pending (netbuf i) =? 0 then mret 0
  else
    wr_if ifp (fun i => set_pending (pending (netbuf i) + OLSR_HEADERSIZE) i);;
    let retval := pending (netbuf i) + OLSR_HEADERSIZE in
    b ← se_opt (buff (netbuf i));
    b ← se_opt (buf_write 2 (to_le 2 (htons (olsr_seqnum i))) b);
    wr_if ifp (fun i => set_seqnum (u16 (olsr_seqnum i + 1)) i);;
    b ← se_opt (buf_write 0 (to_le 2 (htons (u16 retval))) b);
    let '(b, n) := run_ptf b retval in
    wr_if ifp (fun i => set_pending n (set_buff (Some b) i));;
    k ← on_net (se_get (fun N => length (sent N)));
    on_net (se_mod (fun N => with_sent (sent N ++ [(ifp, take (Z.to_nat n) b)]) N));;
    wr_if ifp (set_pending 0);;
    mret (if os_sendto k <? 0 then -1 else retval).

Definition net_remove_buffer (ifp : loc) : SE S unit :=
  i ← rd_if ifp;
  (if negb (pending (netbuf i) =? 0) then net_output ifp;; mret tt else mret tt);;
  wr_if ifp (set_buff None).

Definition olsr_expire_buffer_timer (ifp : loc) : SE S unit :=
  wr_if ifp (set_hold_timer None);;
  n ← net_output_pending ifp;
  if n =? 0 then mret tt else net_output ifp;; mret tt.
End output.

Section timers.
Context `{HT : HasTimers S} (rnd : nat -> Z).

Definition set_buffer_timer (ifn : loc) : SE S unit :=
  i ← rd_if ifn;
  match buffer_hold_timer i with
  | Some _ => mret tt
  | None =>
    ti ← on_net (se_get buffer_hold_timer_info);
    t ← on_timers (olsr_timer_start rnd OLSR_BUFFER_HOLD_TIME OLSR_BUFFER_HOLD_JITTER ifn ti);
    wr_if ifn (set_hold_timer (Some t))
  end.
End timers.

(** ** Address filter *)
Section filter.
Context (ip_version : Z).

Definition olsr_validate_address (addr : ip_addr) : SE S bool :=
  L ← on_net (se_get filter_tree);
  mret (match tree_find (avl_comp_default ip_version) addr L with Some _ => false | None => true end).

Definition olsr_add_invalid_address (addr : ip_addr) : SE S unit :=
  v ← olsr_validate_address addr;
  if negb v then mret tt
  else on_net (se_mod (fun N => with_filter
    (tree_insert (avl_comp_default ip_version) false addr (fresh (list_to_set (filter_tree N).*1 : gset loc)) (filter_tree N)) N)).

(** [inet_pton] of the strings in [deny_ipv4_defaults], [deny_ipv6_defaults]; for IPv4 it
    fills four bytes of the variable. *)
Definition deny_defaults (pad : list Z) : list ip_addr :=
  if ip_version =? AF_INET then [[0; 0; 0; 0] ++ pad; [127; 0; 0; 1] ++ pad]
  else [replicate 16 0; replicate 15 0 ++ [1]].

Definition deinit_netfilters : SE S unit :=
  L ← on_net (se_get filter_tree);
  foldr (fun e m => on_net (se_mod (fun N => with_filter (tree_delete e.1 (filter_tree N)) N));; m) (mret tt) L.

(** [callback] is the number of [olsr_expire_buffer_timer]. *)
Definition init_net `{HT : HasTimers S} (callback : Z) (pad : list Z) : SE S unit :=
  on_net (se_mod (with_filter []));;
  foldr (fun a m => olsr_add_invalid_address a;; m) (mret tt) (deny_defaults pad);;
  ti ← on_timers (olsr_timer_add callback false);
  on_net (se_mod (fun N => mkNet (interface_head N) (ifs N) ti (filter_tree N) (sent N))).
End filter.
End net.

#[global] Instance net_self : HasNet net_st := {|
  get_net := fun N => N; put_net := fun N _ => N; get_put_net := fun _ _ => eq_refl; put_put_net := fun _ _ _ => eq_refl |}.
#[global] Instance net_pair : HasNet (timer_st * net_st) := {|
  get_net := snd; put_net := fun N s => (s.1, N); get_put_net := fun _ _ => eq_refl; put_put_net := fun _ _ _ => eq_refl |}.

(** ** Buffers hold a packet in the making *)
Record netbuf_ok (i : interface) (b : list Z) : Prop := {
  nb_buff : buff (netbuf i) = Some b;
  nb_size : Z.of_nat (length b) = bufsize (netbuf i) /\ bufsize (netbuf i) <= 65535;
  nb_max : maxsize (netbuf i) = bufsize (netbuf i) - OLSR_HEADERSIZE;
  nb_pending : 0 <= pending (netbuf i) <= maxsize (netbuf i);
  nb_seqnum : is_u 16 (olsr_seqnum i)
}.

(** The messages that wait in the buffer. *)
Definition queued (i : interface) : list Z :=
  match buff (netbuf i) with
  | Some b => take (Z.to_nat (pending (netbuf i))) (drop 4 b)
  | None => []
  end.

Lemma buf_write_run off data b : 0 <= off -> off + Z.of_nat (length data) <= Z.of_nat (length b) ->
  buf_write off data b = Some (take (Z.to_nat off) b ++ data ++ drop (Z.to_nat off + length data) b).
Proof. intros. unfold buf_write. by rewrite decide_True. Qed.

Lemma buf_write_length off data b b' : buf_write off data b = Some b' -> length b' = length b.
Proof.
  unfold buf_write. case_decide; [|done]. intros [= <-]. rewrite !length_app, length_take, length_drop. lia.
Qed.

Section runs.
Context {S : Type} `{HN : HasNet S}.

Lemma on_net_run {A} (m : SE net_st A) (s : S) N a : m (get_net s) = Some (N, a) -> on_net m s = Some (put_net N s, a).
Proof. intros H. unfold on_net. by rewrite H. Qed.

Definition upd_if (ifp : loc) (i : interface) (s : S) : S := put_net (with_ifs (<[ifp := i]> (ifs (get_net s))) (get_net s)) s.

Lemma upd_if_get ifp i s : get_net (upd_if ifp i s) = with_ifs (<[ifp := i]> (ifs (get_net s))) (get_net s).
Proof. apply get_put_net. Qed.
Lemma upd_if_upd ifp i i' s : upd_if ifp i (upd_if ifp i' s) = upd_if ifp i s.
Proof. unfold upd_if. rewrite !get_put_net, put_put_net. unfold with_ifs. simpl. by rewrite insert_insert_eq. Qed.

(** Reading needs that [put_net] of the same part is the same state. *)
Context (put_get : forall s, put_net (get_net s) s = s).

Lemma rd_if_run ifp i s : ifs (get_net s) !! ifp = Some i -> rd_if ifp s = Some (s, i).
Proof. intros H. unfold rd_if. erewrite on_net_run by (by rewrite H). by rewrite put_get. Qed.
Lemma wr_if_run ifp g i s : ifs (get_net s) !! ifp = Some i -> wr_if ifp g s = Some (upd_if ifp (g i) s, tt).
Proof. intros H. unfold wr_if. by erewrite on_net_run by (by rewrite H). Qed.
Lemma upd_if_lookup ifp i s : ifs (get_net (upd_if ifp i s)) !! ifp = Some i.
Proof. rewrite upd_if_get. apply lookup_insert_eq. Qed.

(** A message is queued if it fits, or nothing happens. *)
Lemma push_run s ifp i b data :
  ifs (get_net s) !! ifp = Some i -> netbuf_ok i b ->
  (pending (netbuf i) + Z.of_nat (length data) <= maxsize (netbuf i) /\
   exists i' b', net_outbuffer_push ifp data s = Some (upd_if ifp i' s, Z.of_nat (length data)) /\
     netbuf_ok i' b' /\ queued i' = queued i ++ data /\
     pending (netbuf i') = pending (netbuf i) + Z.of_nat (length data) /\
     (mode i', if_ip i', olsr_seqnum i', buffer_hold_timer i', maxsize (netbuf i')) =
     (mode i, if_ip i, olsr_seqnum i, buffer_hold_timer i, maxsize (netbuf i))) \/
  (maxsize (netbuf i) < pending (netbuf i) + Z.of_nat (length data) /\ net_outbuffer_push ifp data s = Some (s, 0)).
Proof.
  intros Hi [B1 [B2 B2'] B3 B4 B5]. unfold net_outbuffer_push. unfold OLSR_HEADERSIZE in *.
  erewrite bind_run by (by apply rd_if_run). rewrite Z.gtb_ltb.
  destruct (Z.ltb_spec (maxsize (netbuf i)) (pending (netbuf i) + Z.of_nat (length data))); [by right|left].
  split; [done|]. erewrite bind_run by (by rewrite B1).
  assert (W := buf_write_run (pending (netbuf i) + 4) data b ltac:(lia) ltac:(lia)).
  pose proof (buf_write_length _ _ _ _ W) as WL.
  erewrite bind_run by (by rewrite W). erewrite bind_run by (by apply wr_if_run).
  eexists _, _. split; [reflexivity|]. split; [|split; [|done]].
  - split; simpl; try done; lia.
  - unfold queued. simpl. rewrite B1.
    replace (Z.to_nat (pending (netbuf i) + Z.of_nat (length data))) with (Z.to_nat (pending (netbuf i)) + length data)%nat by lia.
    replace (Z.to_nat (pending (netbuf i) + 4)) with (4 + Z.to_nat (pending (netbuf i)))%nat by lia.
    rewrite drop_app_le by (rewrite length_take; lia). rewrite skipn_firstn_comm.
    replace (4 + Z.to_nat (pending (netbuf i)) - 4)%nat with (Z.to_nat (pending (netbuf i))) by lia.
    rewrite app_assoc, take_app_le by (rewrite length_app, length_take, length_drop; lia).
    apply take_ge. rewrite length_app, length_take, length_drop. lia.
Qed.

(** The packet on the wire is the header and the queued messages, and the
    buffer is empty afterwards, whether the system could send it or not. *)
Lemma output_run s ifp i b send :
  ifs (get_net s) !! ifp = Some i -> netbuf_ok i b -> pending (netbuf i) <> 0 ->
  exists i' b', net_output [] send ifp s =
      Some (put_net (with_sent (sent (get_net s) ++
          [(ifp, to_be 2 (pending (netbuf i) + 4) ++ to_be 2 (olsr_seqnum i) ++ queued i)])
          (with_ifs (<[ifp := i']> (ifs (get_net s))) (get_net s))) s,
        if send (length (sent (get_net s))) <? 0 then -1 else pending (netbuf i) + 4) /\
    netbuf_ok i' b' /\ queued i' = [] /\ pending (netbuf i') = 0 /\ olsr_seqnum i' = u16 (olsr_seqnum i + 1) /\
    (mode i', if_ip i', buffer_hold_timer i', maxsize (netbuf i')) = (mode i, if_ip i, buffer_hold_timer i, maxsize (netbuf i)).
Proof.
  intros Hi [B1 [B2 B2'] B3 B4 B5] Hp. unfold OLSR_HEADERSIZE in *.
  unfold net_output. erewrite bind_run by (by apply rd_if_run). rewrite (proj2 (Z.eqb_neq _ _) Hp).
  erewrite bind_run by (by apply wr_if_run). cbv zeta. erewrite bind_run by (by rewrite B1). rewrite !htons_bytes.
  assert (W1 := buf_write_run 2 (to_be 2 (olsr_seqnum i)) b ltac:(lia) ltac:(rewrite to_be_length; lia)).
  erewrite bind_run by (by rewrite W1). erewrite bind_run by (apply wr_if_run, upd_if_lookup). rewrite upd_if_upd.
  pose proof (buf_write_length _ _ _ _ W1) as L1. set (b1 := take _ b ++ _) in *.
  assert (W2 := buf_write_run 0 (to_be 2 (u16 (pending (netbuf i) + 4))) b1 ltac:(lia) ltac:(rewrite to_be_length; lia)).
  unfold OLSR_HEADERSIZE. erewrite bind_run by (by rewrite W2).
  pose proof (buf_write_length _ _ _ _ W2) as L2. set (b2 := take _ b1 ++ _) in *. unfold run_ptf. cbn [foldl].
    erewrite bind_run by (apply wr_if_run, upd_if_lookup). rewrite upd_if_upd.
  erewrite bind_run by (by apply on_net_run). rewrite put_get. erewrite bind_run by (by apply on_net_run).
  rewrite !upd_if_get. simpl. erewrite bind_run by (apply wr_if_run; rewrite get_put_net; apply lookup_insert_eq).
  unfold upd_if. rewrite !get_put_net, !put_put_net. unfold with_ifs, with_sent. simpl. rewrite insert_insert_eq.
  eexists _, b2. split; [unfold mret, se_ret; do 7 f_equal|split; [|split; [|done]]].
  - subst b2 b1. rewrite !(wrapu_id 16) by (unfold is_u; lia). unfold queued. rewrite B1.
    replace (Z.to_nat (pending (netbuf i) + 4)) with (4 + Z.to_nat (pending (netbuf i)))%nat by lia.
    destruct b as [|x0 [|x1 [|x2 [|x3 b]]]]; [simpl in B2; lia..|]. reflexivity.
  - clearbody b2. split; simpl; try done; try lia. apply wrapu_range. lia.
  - unfold queued. simpl. by rewrite take_0.
Qed.
End runs.

(** ** The stream of an interface

    Everything that was sent on an interface, without the packet headers, and
    everything that waits to be sent. *)
Definition sent_on (ifp : loc) (l : list (loc * list Z)) : list Z :=
  l ≫= fun x => if decide (x.1 = ifp) then drop 4 x.2 else [].
Definition stream (ifp : loc) (N : net_st) : list Z :=
  sent_on ifp (sent N) ++ match ifs N !! ifp with Some i => queued i | None => [] end.

Lemma sent_on_app ifp l l' : sent_on ifp (l ++ l') = sent_on ifp l ++ sent_on ifp l'.
Proof. apply bind_app. Qed.
Lemma sent_on_one ifp q d : sent_on ifp [(q, d)] = if decide (q = ifp) then drop 4 d else [].
Proof. unfold sent_on. simpl. case_decide; [apply app_nil_r|done]. Qed.

(** What an operation on one interface may change. *)
Record net_ok (N : net_st) : Prop := {
  n_if : forall p, p ∈ interface_head N -> exists i b, ifs N !! p = Some i /\ netbuf_ok i b
}.

Record net_upd (ifp : loc) (data : list Z) (N N' : net_st) : Prop := {
  nu_head : interface_head N' = interface_head N;
  nu_info : buffer_hold_timer_info N' = buffer_hold_timer_info N;
  nu_filter : filter_tree N' = filter_tree N;
  nu_other : forall q, q <> ifp -> ifs N' !! q = ifs N !! q /\ stream q N' = stream q N;
  nu_stream : stream ifp N' = stream ifp N ++ data;
  nu_if : forall i, ifs N !! ifp = Some i -> exists i', ifs N' !! ifp = Some i' /\ (exists b, netbuf_ok i' b) /\
    (mode i', if_ip i', maxsize (netbuf i')) = (mode i, if_ip i, maxsize (netbuf i))
}.

Lemma net_upd_trans ifp d1 d2 N1 N2 N3 : net_upd ifp d1 N1 N2 -> net_upd ifp d2 N2 N3 -> net_upd ifp (d1 ++ d2) N1 N3.
Proof.
  intros [A1 A2 A3 A4 A5 A6] [B1 B2 B3 B4 B5 B6]. split; try congruence.
  - intros q Hq. destruct (A4 q Hq), (B4 q Hq). split; congruence.
  - by rewrite B5, A5, app_assoc.
  - intros i Hi. destruct (A6 i Hi) as (i1 & Hi1 & _ & E1). destruct (B6 i1 Hi1) as (i2 & Hi2 & Hb & E2). exists i2. split_and!; congruence.
Qed.

Lemma net_upd_ok ifp d N N' : net_upd ifp d N N' -> net_ok N -> net_ok N'.
Proof.
  intros [A1 _ _ A4 _ A6] [H]. split. intros p. rewrite A1. intros Hp. destruct (H p Hp) as (i & b & Hi & Hb).
  destruct (decide (p = ifp)) as [->|Hne].
  - destruct (A6 i Hi) as (i' & ? & [b' ?] & _). eauto.
  - destruct (A4 p Hne) as [-> _]. eauto.
Qed.

Lemma if_upd N ifp i i' b' l l' d :
  ifs N !! ifp = Some i -> netbuf_ok i' b' ->
  (mode i', if_ip i', maxsize (netbuf i')) = (mode i, if_ip i, maxsize (netbuf i)) ->
  sent N = l -> (forall q, q <> ifp -> sent_on q l' = sent_on q l) -> sent_on ifp l' ++ queued i' = sent_on ifp l ++ queued i ++ d ->
  net_upd ifp d N (with_sent l' (with_ifs (<[ifp := i']> (ifs N)) N)).
Proof.
  intros Hi Hb Hm Hl Ho Hq. split; simpl; try done.
  - intros q Hne. rewrite lookup_insert_ne by done. split; [done|]. unfold stream. simpl. rewrite lookup_insert_ne by done. by rewrite Hl, Ho.
  - unfold stream. simpl. rewrite lookup_insert_eq, Hi, Hl, <- app_assoc. done.
  - intros i0 Hi0. rewrite lookup_insert_eq. simplify_eq. exists i'. split; [done|]. split; [eauto|congruence].
Qed.

Section stream_runs.
Context {S : Type} `{HN : HasNet S} (put_get : forall s : S, put_net (get_net s) s = s).

Lemma push_stream s ifp i b data :
  ifs (get_net s) !! ifp = Some i -> netbuf_ok i b ->
  exists N' r, net_outbuffer_push ifp data s = Some (put_net N' s, r) /\
    if decide (pending (netbuf i) + Z.of_nat (length data) <= maxsize (netbuf i))
    then r = Z.of_nat (length data) /\ net_upd ifp data (get_net s) N' else r = 0 /\ N' = get_net s.
Proof.
  intros Hi Hb. destruct (push_run put_get s ifp i b data Hi Hb) as [(Hle & i' & b' & R & Hb' & Hq & _ & E)|[Hlt R]].
  - eexists _, _. split; [exact R|]. rewrite decide_True by done. split; [done|].
    apply (if_upd _ ifp i i' b' (sent (get_net s)) (sent (get_net s))); try done; [congruence|by rewrite Hq].
  - exists (get_net s), 0. rewrite put_get, decide_False by lia. done.
Qed.

Lemma output_stream s ifp i b send :
  ifs (get_net s) !! ifp = Some i -> netbuf_ok i b ->
  exists N' r i' b', net_output [] send ifp s = Some (put_net N' s, r) /\ net_upd ifp [] (get_net s) N' /\
    ifs N' !! ifp = Some i' /\ netbuf_ok i' b' /\ pending (netbuf i') = 0 /\ maxsize (netbuf i') = maxsize (netbuf i).
Proof.
  intros Hi Hb. destruct (decide (pending (netbuf i) = 0)) as [E0|Hne].
  - exists (get_net s), 0, i, b. rewrite put_get. split_and!; try done.
    + unfold net_output. erewrite bind_run by (by apply rd_if_run). by rewrite E0.
    + split; try done; [by rewrite app_nil_r|]. intros j Hj. simplify_eq. exists i. split; [done|]. split; [eauto|done].
  - destruct (output_run put_get s ifp i b send Hi Hb Hne) as (i' & b' & R & Hb' & Hq & Hp & _ & E). eexists _, _, i', b'. split; [exact R|].
    split; [|simpl; rewrite lookup_insert_eq; split_and!; try done; congruence].
    apply (if_upd _ ifp i i' b' (sent (get_net s))); try done; [congruence|..].
    + intros q Hqn. rewrite sent_on_app, sent_on_one, decide_False by done. apply app_nil_r.
    + rewrite sent_on_app, sent_on_one, decide_True, Hq, !app_nil_r by done. f_equal.
Qed.
End stream_runs.

(** ** Sequences of operations on the output buffers *)
Inductive net_op := NPush (ifp : loc) (data : list Z) | NOutput (ifp : loc).
Definition op_if (o : net_op) : loc := match o with NPush p _ => p | NOutput p => p end.

Lemma net_put_get (N : net_st) : put_net (get_net N) N = N.
Proof. done. Qed.

Section net_trace.
Context (send : nat -> Z).

Definition exec_net (o : net_op) : SE net_st Z :=
  match o with
  | NPush p data => net_outbuffer_push p data
  | NOutput p => net_output [] send p
  end.
Fixpoint exec_nets (os : list net_op) : SE net_st (list Z) :=
  match os with
  | [] => mret []
  | o :: os => r ← exec_net o; rs ← exec_nets os; mret (r :: rs)
  end.

(** The data that was accepted for an interface, in order. *)
Fixpoint accepted_data (q : loc) (os : list net_op) (rs : list Z) : list Z :=
  match os, rs with
  | NPush p data :: os, r :: rs =>
    (if decide (p = q /\ r = Z.of_nat (length data)) then data else []) ++ accepted_data q os rs
  | _ :: os, _ :: rs => accepted_data q os rs
  | _, _ => []
  end.

(** A packet announces its own length in its first two bytes, in network order. *)
Definition packet_ok (d : list Z) : Prop := (4 <= length d)%nat /\ take 2 d = to_be 2 (Z.of_nat (length d)) /\ Z.of_nat (length d) <= 65535.

#[local] Opaque to_be.
Lemma exec_net_run o N : net_ok N -> Forall (fun x => packet_ok x.2) (sent N) -> op_if o ∈ interface_head N ->
  exists N' r, exec_net o N = Some (N', r) /\ net_ok N' /\ interface_head N' = interface_head N /\
    Forall (fun x => packet_ok x.2) (sent N') /\
    forall q, stream q N' = stream q N ++ accepted_data q [o] [r].
Proof.
  intros Ok Hs Hp. destruct (n_if _ Ok _ Hp) as (i & b & Hi & Hb). destruct o as [p data|p]; simpl in *.
  - destruct (push_run net_put_get N p i b data Hi Hb) as [(Hle & i' & b' & R & Hb' & Hq & _ & E)|[Hlt R]].
    + assert (U : net_upd p data N (with_sent (sent N) (with_ifs (<[p := i']> (ifs N)) N))).
      { apply (if_upd _ p i i' b' (sent N)); try done; [congruence|by rewrite Hq]. }
      eexists _, _. split; [exact R|]. split; [by eapply net_upd_ok|]. split; [done|]. split; [done|].
      intros q. destruct (decide (p = q)) as [->|Hne].
      * rewrite decide_True by done. rewrite app_nil_r. apply (nu_stream _ _ _ _ U).
      * rewrite decide_False by (by intros [? _]). rewrite !app_nil_r. by apply (nu_other _ _ _ _ U).
    + exists N, 0. split; [exact R|]. split_and!; try done. intros q.
      case_decide as Hc; rewrite !app_nil_r; [|done]. pose proof (nb_pending _ _ Hb). destruct data; [by rewrite app_nil_r|simpl in Hc; lia].
  - destruct (output_stream net_put_get N p i b send Hi Hb) as (N' & r & _ & _ & R & U & _).
    exists N', r. split; [exact R|]. split; [by eapply net_upd_ok|]. split; [apply U|]. split.
    + destruct (decide (pending (netbuf i) = 0)) as [E0|Hne].
      * unfold net_output in R. erewrite bind_run in R by (by apply (rd_if_run net_put_get)). rewrite E0 in R. by injection R as <- _.
      * destruct (output_run net_put_get N p i b send Hi Hb Hne) as (i' & b' & R' & _).
        change (exec_net (NOutput p) N = Some (N', r)) in R. simpl in R. rewrite R' in R. injection R as <- _. simpl.
        apply Forall_app. split; [done|]. constructor; [|constructor]. simpl.
        destruct Hb as [B1 [B2 B3] B4 B5 B6]. unfold OLSR_HEADERSIZE in B4.
        assert (Lq : Z.of_nat (length (queued i)) = pending (netbuf i)) by (unfold queued; rewrite B1, length_take, length_drop; lia).
        unfold packet_ok. rewrite !length_app, !to_be_length. replace (Z.of_nat (2 + (2 + length (queued i)))) with (pending (netbuf i) + 4) by lia.
        split; [lia|]. split; [|lia]. rewrite take_app_length' by (by rewrite to_be_length). done.
    + intros q. rewrite app_nil_r. destruct (decide (p = q)) as [->|Hne].
      * rewrite (nu_stream _ _ _ _ U). apply app_nil_r.
      * apply (nu_other _ _ _ _ U). done.
Qed.

(** C22: Whatever sequence of messages is queued and flushed on the
    interfaces, no operation writes outside a buffer, every packet that is sent
    carries its own length in its header, and on every interface the payload of
    the packets sent, followed by what still waits in the buffer, is exactly the
    concatenation of the accepted messages in the order they were queued:
    nothing is lost, duplicated, reordered or sent on the wrong interface. *)
Theorem output_is_fifo os : forall N,
  net_ok N -> Forall (fun x => packet_ok x.2) (sent N) -> Forall (fun o => op_if o ∈ interface_head N) os ->
  exists N' rs, exec_nets os N = Some (N', rs) /\ net_ok N' /\ Forall (fun x => packet_ok x.2) (sent N') /\
    forall q, stream q N' = stream q N ++ accepted_data q os rs.
Proof.
  induction os as [|o os IH]; intros N Ok Hs Ho.
  { exists N, []. split_and!; try done. intros q. by rewrite app_nil_r. }
  apply Forall_cons in Ho as [Ho1 Ho]. destruct (exec_net_run o N Ok Hs Ho1) as (N1 & r & R1 & Ok1 & Eh & Hs1 & St1).
  destruct (IH N1 Ok1 Hs1) as (N2 & rs & R2 & Ok2 & Hs2 & St2); [by rewrite Eh|].
  exists N2, (r :: rs). split; [|split; [done|split; [done|]]].
  { simpl. erewrite bind_run by exact R1. by erewrite bind_run by exact R2. }
  intros q. rewrite St2, St1, <- app_assoc. f_equal. destruct o; simpl; by rewrite ?app_nil_r.
Qed.
End net_trace.

(** Two interfaces with buffers of 20 bytes, of which 16 can hold messages. *)
Definition demo_netif (ip : Z) : interface :=
  mkIf IF_MODE_MESH ([10; 0; 0; ip] ++ replicate 12 0) 20 ip 3 4 65535 None (mkBuf (Some (replicate 20 0)) 20 16 0 0).
Definition demo_net : net_st := mkNet [1%positive; 2%positive] {[ 1%positive := demo_netif 1; 2%positive := demo_netif 2 ]} 1 [] [].
Definition demo_net_ops : list net_op :=
  [NPush 1 [11; 12; 13; 14; 15; 16; 17; 18; 19]; NPush 2 [21; 22]; NPush 1 [1; 2; 3; 4; 5; 6; 7; 8]; NOutput 1; NPush 1 [31; 32]; NOutput 1].

Lemma demo_net_ok : net_ok demo_net.
Proof.
  split. intros p Hp. list_cases Hp; eexists _, (replicate 20 0); (split; [reflexivity|]);
    split; simpl; try done; unfold OLSR_HEADERSIZE, is_u; lia.
Qed.

Lemma output_is_fifo_witness :
  exists N' rs, exec_nets (fun _ => 1) demo_net_ops demo_net = Some (N', rs) /\ net_ok N' /\ Forall (fun x => packet_ok x.2) (sent N') /\
    forall q, stream q N' = stream q demo_net ++ accepted_data q demo_net_ops rs.
Proof. apply (output_is_fifo (fun _ => 1) demo_net_ops demo_net); [apply demo_net_ok|constructor|by apply (bool_decide_unpack _)]. Defined.

(** The message that does not fit is refused, and the sequence number wraps. *)
Example demo_net_sent :
  (fun r => (sent r.1, r.2)) <$> exec_nets (fun _ => 1) demo_net_ops demo_net =
  Some ([(1%positive, [0; 13; 255; 255; 11; 12; 13; 14; 15; 16; 17; 18; 19]); (1%positive, [0; 6; 0; 0; 31; 32])],
        [9; 2; 0; 13; 2; 6]).
Proof. by vm_compute. Qed.
