(* ===== verification/Lsdb.v ===== *)
(** * The link state database ([tc_set.h])

    Nodes and edges of the topology, as the shortest-path calculation sees them.
    Pointers are addresses; a tree is its sequence of entries. *)
From S2P Require Import Prelude Types.

Definition LINK_COST_BROKEN : Z := 16777215.
Definition ROUTE_COST_BROKEN : Z := 4294967295.
Definition ZERO_ROUTE_COST : Z := 0.

Record tc_edge_entry := mkEdge {
  T_dest_addr : ip_addr;
  edge_inv : option loc;
  edge_tc : loc;
  neighbor : option loc;
  cost : Z;
  common_cost : Z;
  virtual : bool;
  edge_ansn : Z
}.

(** The entity [path_list_node]: linked to itself by [list_init_head], in the
    path list, or with null pointers. *)
Inductive path_node := SelfLinked | InPathList | Unlinked.

(** The members of [tc_entry] that a shortest-path calculation writes;
    [cand_key] says whether [cand_tree_node.key] is set. *)
Record spf_data := mkSpf {
  path_cost : Z;
  next_hop : option loc;
  hops : Z;
  cand_key : bool;
  path_list_node : path_node
}.

Record tc_entry := mkTc {
  tc_addr : ip_addr;
  tc_spf : spf_data;
  edge_tree : list (loc * ip_addr);
  prefix_tree : list (loc * olsr_ip_prefix);
  edge_gc_timer : option loc;
  tc_validity_timer : option loc;
  tc_virtual : bool;
  tc_seq : Z;
  mid_seq : Z;
  hna_seq : Z;
  msg_hops : Z;
  tc_ansn : Z
}.

Record lsdb := mkDb {
  tc_tree : list (loc * ip_addr);
  tcs : gmap loc tc_entry;
  edges : gmap loc tc_edge_entry;
  tc_myself : option loc
}.

Definition with_tcs (M : gmap loc tc_entry) (d : lsdb) : lsdb := mkDb (tc_tree d) M (edges d) (tc_myself d).
Definition set_spf (x : spf_data) (t : tc_entry) : tc_entry :=
  mkTc (tc_addr t) x (edge_tree t) (prefix_tree t) (edge_gc_timer t) (tc_validity_timer t) (tc_virtual t) (tc_seq t) (mid_seq t) (hna_seq t) (msg_hops t) (tc_ansn t).

Definition set_cost (c : Z) (x : spf_data) : spf_data := mkSpf c (next_hop x) (hops x) (cand_key x) (path_list_node x).
Definition set_next_hop (n : option loc) (x : spf_data) : spf_data := mkSpf (path_cost x) n (hops x) (cand_key x) (path_list_node x).
Definition set_hops (h : Z) (x : spf_data) : spf_data := mkSpf (path_cost x) (next_hop x) h (cand_key x) (path_list_node x).
Definition set_cand (b : bool) (x : spf_data) : spf_data := mkSpf (path_cost x) (next_hop x) (hops x) b (path_list_node x).
Definition set_pnode (n : path_node) (x : spf_data) : spf_data := mkSpf (path_cost x) (next_hop x) (hops x) (cand_key x) n.

Definition rd_tc (p : loc) : SE lsdb tc_entry := fun d => (fun t => (d, t)) <$> tcs d !! p.
Definition rd_edge (p : loc) : SE lsdb tc_edge_entry := fun d => (fun e => (d, e)) <$> edges d !! p.
Definition wr_spf (p : loc) (g : spf_data -> spf_data) : SE lsdb unit := fun d =>
  (fun t => (with_tcs (<[p := set_spf (g (tc_spf t)) t]> (tcs d)) d, tt)) <$> tcs d !! p.
