(* ===== verification/Spf.v ===== *)
(** * Shortest paths ([olsr_spf.c])

    Dijkstra's algorithm over the link state database, with the candidates in
    an AVL tree that is keyed by the path cost and allows equal keys. *)
From S2P Require Import Prelude AvlSpec Trees Types Comparators Memcookie Lsdb.

Definition avl_comp_etx (etx1 etx2 : Z) : Z := if etx1 <? etx2 then -1 else if etx1 >? etx2 then 1 else 0.

#[global] Instance avl_comp_etx_comp : AvlComp avl_comp_etx.
Proof. split; unfold avl_comp_etx; intros *; rewrite !Z.gtb_ltb; case_cmp; lia. Qed.

Record spf_st := mkSpfSt {
  db : lsdb;
  cand_tree : list (loc * Z);
  path_list : list loc;
  path_count : Z
}.

Definition with_db (d : lsdb) (s : spf_st) : spf_st := mkSpfSt d (cand_tree s) (path_list s) (path_count s).
Definition with_cand (c : list (loc * Z)) (s : spf_st) : spf_st := mkSpfSt (db s) c (path_list s) (path_count s).
Definition with_path (l : list loc) (s : spf_st) : spf_st := mkSpfSt (db s) (cand_tree s) l (path_count s).
Definition with_count (n : Z) (s : spf_st) : spf_st := mkSpfSt (db s) (cand_tree s) (path_list s) n.

Definition on_db {A} (m : SE lsdb A) : SE spf_st A := fun s =>
  match m (db s) with Some (d, a) => Some (with_db d s, a) | None => None end.

(** The key of the node is the path cost at the insertion; the code changes the
    cost of a node only while the node is not in the tree. *)
Definition olsr_spf_add_cand_tree (p : loc) : SE spf_st unit :=
  on_db (wr_spf p (set_cand true));;
  t ← on_db (rd_tc p);
  se_mod (fun s => with_cand (tree_insert avl_comp_etx true (path_cost (tc_spf t)) p (cand_tree s)) s).

Definition olsr_spf_del_cand_tree (p : loc) : SE spf_st unit :=
  t ← on_db (rd_tc p);
  if cand_key (tc_spf t) then
    se_mod (fun s => with_cand (tree_delete p (cand_tree s)) s);;
    on_db (wr_spf p (set_cand false))
  else mret tt.

Definition olsr_spf_add_path_list (p : loc) : SE spf_st unit :=
  on_db (wr_spf p (set_pnode InPathList));;
  se_mod (fun s => with_path (path_list s ++ [p]) s);;
  se_mod (fun s => with_count (path_count s + 1) s).

Definition olsr_spf_extract_best : SE spf_st (option loc) := se_get (fun s => fst <$> head (cand_tree s)).

(** [list_remove] of a node that [list_node_added] reports as added. *)
Definition path_list_remove (p : loc) : SE spf_st unit :=
  t ← on_db (rd_tc p);
  match path_list_node (tc_spf t) with
  | Unlinked => mret tt
  | SelfLinked => on_db (wr_spf p (set_pnode Unlinked))
  | InPathList =>
    on_db (wr_spf p (set_pnode Unlinked));;
    se_mod (fun s => with_path (remove_node p (path_list s)) s)
  end.

(** One round of the loop over the edges. *)
Definition relax_edge (tc : loc) (edge : loc) : SE spf_st unit :=
  e ← on_db (rd_edge edge);
  inv ← se_opt (edge_inv e);
  i ← on_db (rd_edge inv);
  let new_cost := if virtual e then cost i else cost e in
  if new_cost >=? LINK_COST_BROKEN then mret tt
  else
    t ← on_db (rd_tc tc);
    let new_cost := u32 (new_cost + path_cost (tc_spf t)) in
    let new_tc := edge_tc i in
    nt ← on_db (rd_tc new_tc);
    if new_cost <? path_cost (tc_spf nt) then
      (if path_cost (tc_spf nt) <? ROUTE_COST_BROKEN then olsr_spf_del_cand_tree new_tc else mret tt);;
      path_list_remove new_tc;;
      on_db (wr_spf new_tc (set_cost new_cost));;
      olsr_spf_add_cand_tree new_tc;;
      t ← on_db (rd_tc tc);
      (match next_hop (tc_spf t) with
       | Some l => on_db (wr_spf new_tc (set_next_hop (Some l)))
       | None => mret tt
       end);;
      on_db (wr_spf new_tc (set_hops (u8 (hops (tc_spf t) + 1))))
    else mret tt.

Definition olsr_spf_relax (tc : loc) : SE spf_st unit :=
  t ← on_db (rd_tc tc);
  foldr (fun e m => relax_edge tc e.1;; m) (mret tt) (edge_tree t).

(** [fuel] bounds the number of nodes that are moved to the path list. *)
Fixpoint spf_loop (fuel : nat) : SE spf_st unit :=
  match fuel with
  | O => se_fail
  | S fuel =>
    tc ← olsr_spf_extract_best;
    match tc with
    | None => mret tt
    | Some p =>
      olsr_spf_relax p;;
      olsr_spf_del_cand_tree p;;
      olsr_spf_add_path_list p;;
      spf_loop fuel
    end
  end.

Definition olsr_spf_run_full (fuel : nat) : SE spf_st unit :=
  se_mod (with_count 0);; spf_loop fuel.

(** ** The part of [olsr_calculate_routing_table] that prepares and runs the
    calculation *)

(** Initialize vertices in the lsdb. *)
Definition spf_init_vertices : SE spf_st unit :=
  L ← on_db (se_get tc_tree);
  foldr (fun e m => on_db (wr_spf e.1 (fun _ => mkSpf ROUTE_COST_BROKEN None 0 false SelfLinked));; m) (mret tt) L.

(** The symmetric neighbours, each with its [tc_edge] and its best link. *)
Definition spf_set_next_hops (nbrs : list (loc * option loc)) : SE spf_st unit :=
  foldr (fun n m =>
    (e ← on_db (rd_edge n.1);
     inv ← se_opt (edge_inv e);
     i ← on_db (rd_edge inv);
     on_db (wr_spf (edge_tc i) (set_next_hop n.2)));; m) (mret tt) nbrs.

(** Zero ourselves and add us to the candidate tree. *)
Definition spf_add_myself (me : loc) : SE spf_st unit :=
  on_db (wr_spf me (set_cost ZERO_ROUTE_COST));;
  olsr_spf_add_cand_tree me.

Definition spf_calculate (nbrs : list (loc * option loc)) (fuel : nat) : SE spf_st unit :=
  se_mod (with_cand []);;
  se_mod (with_path []);;
  spf_init_vertices;;
  me ← on_db (se_get tc_myself);
  match me with
  | None => mret tt
  | Some me =>
    spf_add_myself me;;
    spf_set_next_hops nbrs;;
    olsr_spf_run_full fuel
  end.

(** ** Runs of the operations *)
Definition sp (s : spf_st) (p : loc) : option spf_data := tc_spf <$> tcs (db s) !! p.
Definition upd_spf (p : loc) (x : spf_data) (s : spf_st) : spf_st :=
  with_db (with_tcs (alter (set_spf x) p (tcs (db s))) (db s)) s.

(** The part of the database that the calculation does not change. *)
Record frame (d d' : lsdb) : Prop := {
  fr_tree : tc_tree d' = tc_tree d;
  fr_edges : edges d' = edges d;
  fr_me : tc_myself d' = tc_myself d;
  fr_tcs : forall p x, set_spf x <$> tcs d' !! p = set_spf x <$> tcs d !! p
}.

Lemma frame_refl d : frame d d.
Proof. by split. Qed.
Lemma frame_upd d s p x : frame d (db s) -> frame d (db (upd_spf p x s)).
Proof.
  intros [F0 F1 F2 F3]. split; try done. intros q y. rewrite <- F3. simpl. destruct (decide (p = q)) as [->|].
  - rewrite lookup_alter_eq. by destruct (tcs (db s) !! q).
  - by rewrite lookup_alter_ne.
Qed.
Lemma frame_lookup d d' p t : frame d d' -> tcs d !! p = Some t -> exists t', tcs d' !! p = Some t' /\ edge_tree t' = edge_tree t.
Proof.
  intros F H. pose proof (fr_tcs _ _ F p (tc_spf t)) as E. rewrite H in E. simpl in E.
  destruct (tcs d' !! p) as [t'|]; [|done]. exists t'. split; [done|]. injection E as E. by destruct t, t'; simplify_eq.
Qed.
Lemma frame_some d d' p : frame d d' -> is_Some (tcs d' !! p) <-> is_Some (tcs d !! p).
Proof.
  intros F. pose proof (fr_tcs _ _ F p (mkSpf 0 None 0 false Unlinked)) as E.
  destruct (tcs d' !! p), (tcs d !! p); simpl in *; try done; by split; intros [].
Qed.
Lemma frame_sp d s p : frame d (db s) -> is_Some (sp s p) <-> is_Some (tcs d !! p).
Proof. intros F. unfold sp. rewrite fmap_is_Some. by apply frame_some. Qed.

Lemma sp_upd p q x s : is_Some (sp s p) -> sp (upd_spf p x s) q = if decide (p = q) then Some x else sp s q.
Proof.
  unfold sp. rewrite fmap_is_Some. intros [t Ht]. simpl. case_decide as E.
  - subst q. by rewrite lookup_alter_eq, Ht.
  - by rewrite lookup_alter_ne.
Qed.

Lemma with_db_id s : with_db (db s) s = s.
Proof. by destruct s. Qed.

Lemma rd_tc_run s p t : tcs (db s) !! p = Some t -> on_db (rd_tc p) s = Some (s, t).
Proof. intros H. unfold on_db, rd_tc. rewrite H. simpl. by rewrite with_db_id. Qed.
Lemma rd_edge_run s p e : edges (db s) !! p = Some e -> on_db (rd_edge p) s = Some (s, e).
Proof. intros H. unfold on_db, rd_edge. rewrite H. simpl. by rewrite with_db_id. Qed.
Lemma wr_spf_run s p x g : sp s p = Some x -> on_db (wr_spf p g) s = Some (upd_spf p (g x) s, tt).
Proof.
  unfold sp, on_db, wr_spf, upd_spf. destruct (tcs (db s) !! p) as [t|] eqn:H; [|done]. intros [= <-]. simpl. repeat f_equal.
  apply map_eq. intros q. destruct (decide (p = q)) as [->|].
  - by rewrite lookup_insert_eq, lookup_alter_eq, H.
  - by rewrite lookup_insert_ne, lookup_alter_ne.
Qed.
Lemma sp_tc s p x : sp s p = Some x -> exists t, tcs (db s) !! p = Some t /\ tc_spf t = x.
Proof. unfold sp. destruct (tcs (db s) !! p) as [t|]; [|done]. intros [= <-]. eauto. Qed.

Lemma sp_upd_eq p x y s : sp s p = Some y -> sp (upd_spf p x s) p = Some x.
Proof. intros H. rewrite sp_upd by eauto. by rewrite decide_True. Qed.
Lemma sp_upd_ne p q x s : p <> q -> sp (upd_spf p x s) q = sp s q.
Proof. intros H. unfold sp. simpl. by rewrite lookup_alter_ne. Qed.

Lemma spf_upd_upd p x y s : upd_spf p x (upd_spf p y s) = upd_spf p x s.
Proof.
  unfold upd_spf. simpl. unfold with_db, with_tcs. simpl. f_equal. f_equal. apply map_eq. intros q.
  destruct (decide (p = q)) as [->|]; [|by rewrite !lookup_alter_ne].
  rewrite !lookup_alter_eq. by destruct (tcs (db s) !! q).
Qed.

Lemma add_cand_run s p x : sp s p = Some x ->
  olsr_spf_add_cand_tree p s =
    Some (with_cand (tree_insert avl_comp_etx true (path_cost x) p (cand_tree s)) (upd_spf p (set_cand true x) s), tt).
Proof.
  intros H. unfold olsr_spf_add_cand_tree. erewrite bind_run by (by apply wr_spf_run).
  destruct (sp_tc _ _ _ (sp_upd_eq p (set_cand true x) x s H)) as (t & Ht & Et).
  erewrite bind_run by (by apply rd_tc_run). by rewrite Et.
Qed.

Lemma del_cand_run s p x : sp s p = Some x ->
  olsr_spf_del_cand_tree p s =
    Some (if cand_key x then upd_spf p (set_cand false x) (with_cand (tree_delete p (cand_tree s)) s) else s, tt).
Proof.
  intros H. unfold olsr_spf_del_cand_tree. destruct (sp_tc _ _ _ H) as (t & Ht & Et).
  erewrite bind_run by (by apply rd_tc_run). rewrite Et. destruct (cand_key x); [|done].
  erewrite bind_run by reflexivity. by apply wr_spf_run.
Qed.

(** The state after an edge has led to a better path. *)
Definition better (v : loc) (c : Z) (x xu : spf_data) (s : spf_st) : spf_st :=
  with_cand (tree_insert avl_comp_etx true c v (tree_delete v (cand_tree s)))
    (upd_spf v (mkSpf c (match next_hop xu with Some l => Some l | None => next_hop x end) (u8 (hops xu + 1)) true Unlinked) s).

Lemma sp_better v c x xu s : sp s v = Some x -> exists y, sp (better v c x xu s) v = Some y /\ path_cost y = c.
Proof. intros H. eexists. split; [by eapply (sp_upd_eq v)|done]. Qed.

Lemma upd_with_cand p x c s : upd_spf p x (with_cand c s) = with_cand c (upd_spf p x s).
Proof. done. Qed.

Lemma path_list_remove_run s p x : sp s p = Some x -> path_list_node x <> InPathList ->
  path_list_remove p s = Some (upd_spf p (set_pnode Unlinked x) s, tt).
Proof.
  intros H Hn. unfold path_list_remove. destruct (sp_tc _ _ _ H) as (t & Ht & Et).
  erewrite bind_run by (by apply rd_tc_run). rewrite Et. destruct (path_list_node x) eqn:E; [by apply wr_spf_run|done|].
  unfold mret, se_ret. do 2 f_equal. assert (set_pnode Unlinked x = x) as -> by (unfold set_pnode; rewrite <- E; by destruct x).
  destruct s as [[a M b m] ? ? ?]. unfold upd_spf, with_db, with_tcs. simpl. do 2 f_equal.
  apply map_eq. intros q. destruct (decide (p = q)) as [->|]; [|by rewrite lookup_alter_ne].
  simpl in Ht. rewrite lookup_alter_eq, Ht. simpl. f_equal. destruct t; simpl in *; by subst.
Qed.

Lemma relax_edge_run s u xu ek e i inv :
  sp s u = Some xu -> edges (db s) !! ek = Some e -> edge_inv e = Some inv -> edges (db s) !! inv = Some i ->
  let v := edge_tc i in
  let c := if virtual e then cost i else cost e in
  forall x, sp s v = Some x ->
  (LINK_COST_BROKEN <= c \/ path_cost x <= u32 (c + path_cost xu) -> relax_edge u ek s = Some (s, tt)) /\
  (c < LINK_COST_BROKEN -> u32 (c + path_cost xu) < path_cost x -> u <> v -> path_list_node x <> InPathList ->
    (cand_key x = true -> path_cost x < ROUTE_COST_BROKEN) ->
    (cand_key x = false -> v ∉ (cand_tree s).*1) ->
    relax_edge u ek s = Some (better v (u32 (c + path_cost xu)) x xu s, tt)).
Proof.
  intros Hu He Hi Hinv v c x Hx. destruct (sp_tc _ _ _ Hu) as (tu & Htu & Etu). destruct (sp_tc _ _ _ Hx) as (t & Ht & Et).
  unfold relax_edge. erewrite bind_run by (by apply rd_edge_run). erewrite bind_run by (by rewrite Hi).
  erewrite bind_run by (by apply rd_edge_run). fold c v. rewrite Z.geb_leb. split.
  - intros Hc. destruct (Z.leb_spec LINK_COST_BROKEN c); [done|]. erewrite bind_run by (by apply rd_tc_run).
    erewrite bind_run by (by apply rd_tc_run). rewrite Etu, Et. destruct (Z.ltb_spec (u32 (c + path_cost xu)) (path_cost x)); [|done].
    destruct Hc; lia.
  - intros Hc Hlt Hne Hp Hk1 Hk2. destruct (Z.leb_spec LINK_COST_BROKEN c); [lia|].
    erewrite bind_run by (by apply rd_tc_run). erewrite bind_run by (by apply rd_tc_run). rewrite Etu, Et.
    set (nc := u32 (c + path_cost xu)) in *. destruct (Z.ltb_spec nc (path_cost x)); [|lia].
    set (s1 := with_cand (tree_delete v (cand_tree s)) (upd_spf v (set_cand false x) s)).
    assert (R1 : (if path_cost x <? ROUTE_COST_BROKEN then olsr_spf_del_cand_tree v else mret tt) s = Some (s1, tt)).
    { destruct (cand_key x) eqn:Ek.
      - rewrite (proj2 (Z.ltb_lt _ _) (Hk1 eq_refl)), (del_cand_run s v x Hx), Ek. done.
      - assert (s1 = s) as ->.
        { unfold s1. assert (set_cand false x = x) as -> by (unfold set_cand; rewrite <- Ek; by destruct x).
          assert (upd_spf v x s = s) as ->.
          { destruct s as [[a M b m] ? ? ?]. unfold upd_spf, with_db, with_tcs. simpl in *. do 2 f_equal. apply map_eq. intros q.
            destruct (decide (v = q)) as [<-|]; [|by rewrite lookup_alter_ne]. rewrite lookup_alter_eq, Ht. simpl. f_equal.
            destruct t; simpl in *; by subst. }
          unfold tree_delete. rewrite filter_all; [by destruct s|]. apply Forall_forall. intros ek' Hek E. apply (Hk2 eq_refl).
          apply list_elem_of_fmap. by exists ek'. }
        case_match; [|done]. by rewrite (del_cand_run s v x Hx), Ek. }
    erewrite bind_run by exact R1.
    assert (Hx1 : sp s1 v = Some (set_cand false x)) by (by eapply (sp_upd_eq v)).
    erewrite bind_run by (by apply (path_list_remove_run s1 v (set_cand false x))).
    erewrite bind_run by (apply wr_spf_run; by eapply sp_upd_eq). rewrite spf_upd_upd.
    erewrite bind_run by (eapply add_cand_run; by eapply sp_upd_eq). rewrite spf_upd_upd.
    assert (Htu' : forall y L, tcs (db (with_cand L (upd_spf v y s1))) !! u = Some tu).
    { intros y L. simpl. by rewrite !lookup_alter_ne. }
    erewrite bind_run by (apply rd_tc_run, Htu'). rewrite Etu.
    destruct (next_hop xu) as [l|] eqn:En.
    + erewrite bind_run by (apply wr_spf_run; by eapply (sp_upd_eq v)). rewrite upd_with_cand, spf_upd_upd.
      erewrite wr_spf_run by (by eapply (sp_upd_eq v)). rewrite upd_with_cand, spf_upd_upd. simpl.
      unfold s1. rewrite upd_with_cand, spf_upd_upd. unfold better. by rewrite En.
    + erewrite bind_run by reflexivity. erewrite wr_spf_run by (by eapply (sp_upd_eq v)). rewrite upd_with_cand, spf_upd_upd. simpl.
      unfold s1. rewrite upd_with_cand, spf_upd_upd. unfold better. by rewrite En.
Qed.

(** ** Routes *)
Section dijkstra.
Context (d0 : lsdb) (root : loc) (preset : loc -> option loc) (maxc : Z).

(** An edge of the topology that the calculation may use, with its cost. *)
Definition good_edge (u v : loc) (c : Z) : Prop := exists t ek e inv i,
  tcs d0 !! u = Some t /\ ek ∈ edge_tree t /\ edges d0 !! ek.1 = Some e /\ edge_inv e = Some inv /\
  edges d0 !! inv = Some i /\ v = edge_tc i /\ c = (if virtual e then cost i else cost e) /\ c < LINK_COST_BROKEN.

(** A route from the root: hops, cost, and the link to its first hop. *)
Inductive route : loc -> nat -> Z -> option loc -> Prop :=
  | route_root : route root 0 0 None
  | route_step u v n c c' nh : route u n c nh -> good_edge u v c' ->
      route v (S n) (c + c') (match nh with Some l => Some l | None => preset v end).

Record graph_ok : Prop := {
  g_root : is_Some (tcs d0 !! root);
  g_edge : forall u t ek, tcs d0 !! u = Some t -> ek ∈ edge_tree t -> exists e inv i,
    edges d0 !! ek.1 = Some e /\ edge_inv e = Some inv /\ edges d0 !! inv = Some i /\ is_Some (tcs d0 !! edge_tc i) /\
    0 <= (if virtual e then cost i else cost e);
  g_max : forall u v c, good_edge u v c -> c <= maxc;
  g_bound : 0 <= maxc /\ Z.of_nat (size (tcs d0)) * maxc < ROUTE_COST_BROKEN;
  (** no neighbour is the root itself *)
  g_preset : preset root = None
}.
Context (G : graph_ok).

(** Every node at the end of an edge of the root has a link. *)
Definition first_hops_linked : Prop := forall v c, good_edge root v c -> v <> root -> is_Some (preset v).

Lemma good_edge_pos u v c : good_edge u v c -> 0 <= c.
Proof.
  intros (t & ek & e & inv & i & Ht & Hek & He & Hi & Hii & _ & -> & _).
  destruct (g_edge G u t ek Ht Hek) as (e' & inv' & i' & ? & ? & ? & _ & ?). by simplify_eq.
Qed.

Lemma route_next_hop u n c nh : first_hops_linked -> route u n c nh -> u <> root -> is_Some nh.
Proof.
  intros Hl. induction 1 as [|u v n c c' nh Hr IH He]; [done|]. intros Hv. destruct nh as [l|]; [eauto|].
  destruct (decide (u = root)) as [->|Hu]; [by eapply Hl|]. by destruct (IH Hu).
Qed.

(** ** The invariant *)
(** Cost and hop count are those of a route. The next hop is the link of some route to the node, and of that one if all
    first hops have links: a node that gets a better path from a node without a next hop keeps the one it had. *)
Definition routed (p : loc) (x : spf_data) : Prop :=
  (exists n nh, route p n (path_cost x) nh /\ hops x = u8 (Z.of_nat n) /\ (first_hops_linked -> next_hop x = nh)) /\
  exists n c, route p n c (next_hop x).
Definition reached (s : spf_st) (B : Z) (p : loc) (x : spf_data) : Prop :=
  path_cost x < ROUTE_COST_BROKEN /\ 0 <= path_cost x <= B /\
  (((p ∈ path_list s) /\ cand_key x = false) \/ (p ∉ path_list s) /\ cand_key x = true) /\ routed p x.
Definition unreached (s : spf_st) (p : loc) (x : spf_data) : Prop :=
  path_cost x = ROUTE_COST_BROKEN /\ cand_key x = false /\ (p ∉ path_list s) /\ next_hop x = preset p.

Record spf_ok (s : spf_st) (B : Z) : Prop := {
  s_frame : frame d0 (db s);
  s_wf : dtree_wf avl_comp_etx (cand_tree s);
  s_cand : forall p k, ((p, k) ∈ cand_tree s) <-> exists x, sp s p = Some x /\ cand_key x = true /\ path_cost x = k;
  s_node : forall p x, sp s p = Some x -> (path_list_node x = InPathList <-> (p ∈ path_list s));
  s_state : forall p x, sp s p = Some x -> unreached s p x \/ reached s B p x;
  s_order : forall p q x y, p ∈ path_list s -> sp s p = Some x -> sp s q = Some y -> cand_key y = true -> path_cost x <= path_cost y;
  s_relaxed : forall u v c x y, u ∈ path_list s -> good_edge u v c -> sp s u = Some x -> sp s v = Some y ->
    path_cost y <= path_cost x + c;
  s_nodup : NoDup (path_list s);
  s_dom : forall p, p ∈ path_list s -> is_Some (sp s p);
  s_root : exists x, sp s root = Some x /\ path_cost x = 0 /\ next_hop x = None;
  s_first : (path_list s = [] /\ (forall p x, sp s p = Some x -> p <> root -> next_hop x = preset p)) \/ root ∈ path_list s;
  s_sorted : StronglySorted (fun p q => forall x y, sp s p = Some x -> sp s q = Some y -> path_cost x <= path_cost y) (path_list s);
  s_count : path_count s = Z.of_nat (length (path_list s))
}.

(** While the edges of [u] are explored. *)
Record relaxing (s : spf_st) (u : loc) (xu : spf_data) (done_ : list (loc * ip_addr)) : Prop := {
  x_cur : sp s u = Some xu /\ cand_key xu = true;
  x_first : path_list s = [] -> u = root;
  x_min : forall q y, sp s q = Some y -> cand_key y = true -> path_cost xu <= path_cost y;
  x_done : forall ek e inv i y, ek ∈ done_ -> edges d0 !! ek.1 = Some e -> edge_inv e = Some inv -> edges d0 !! inv = Some i ->
    (if virtual e then cost i else cost e) < LINK_COST_BROKEN -> sp s (edge_tc i) = Some y ->
    path_cost y <= path_cost xu + (if virtual e then cost i else cost e)
}.

Lemma etx_le a b : avl_comp_etx a b <= 0 <-> a <= b.
Proof. unfold avl_comp_etx. rewrite Z.gtb_ltb. case_cmp; lia. Qed.

Lemma cand_insert s v c x xu p k :
  ((p, k) ∈ cand_tree (better v c x xu s)) <-> (p = v /\ k = c) \/ (p <> v /\ ((p, k) ∈ cand_tree s)).
Proof.
  simpl. rewrite (elem_of_tree_insert avl_comp_etx _ true c v _ (or_introl eq_refl)), elem_of_tree_delete. simpl.
  split; [intros [[= -> ->]|?]; auto|intros [[-> ->]|?]; auto].
Qed.

(** A better path keeps the invariant. *)
Lemma better_ok s B u xu dn v c x :
  spf_ok s B -> relaxing s u xu dn -> good_edge u v c -> sp s v = Some x -> c + path_cost xu < path_cost x ->
  path_cost xu + c <= B -> B < ROUTE_COST_BROKEN ->
  spf_ok (better v (c + path_cost xu) x xu s) B /\ relaxing (better v (c + path_cost xu) x xu s) u xu dn /\ u <> v /\ v ∉ path_list s.
Proof.
  intros [F1 F2 F3 F4 F5 F6 F7 F8 F9 F10 F11 F12 F13] [[X1 X1'] X0 X2 X3] He Hx Hlt HB HBr.
  pose proof (good_edge_pos _ _ _ He) as Hc.
  assert (Huv : u <> v) by (intros ->; simplify_eq; lia).
  assert (Hv : v ∉ path_list s) by (intros Hv; pose proof (F6 v u x xu Hv Hx X1 X1'); lia).
  set (nx := mkSpf (c + path_cost xu) (match next_hop xu with Some l => Some l | None => next_hop x end) (u8 (hops xu + 1)) true Unlinked).
  set (s' := better v (c + path_cost xu) x xu s).
  assert (Sv : sp s' v = Some nx) by (by eapply (sp_upd_eq v)).
  assert (Sne : forall q, q <> v -> sp s' q = sp s q) by (intros q Hq; by apply (sp_upd_ne v)).
  assert (Sp : forall q y, sp s' q = Some y -> (q = v /\ y = nx) \/ (q <> v /\ sp s q = Some y)).
  { intros q y Hq. destruct (decide (q = v)) as [->|Hn]; [left; split; congruence|right; by rewrite Sne in Hq]. }
  assert (Sdec : forall q y, sp s' q = Some y -> exists y0, sp s q = Some y0 /\ path_cost y <= path_cost y0).
  { intros q y [[-> ->]|[_ Hq]]%Sp; [exists x; simpl; split; [done|lia]|exists y; split; [done|lia]]. }
  destruct (F5 u xu X1) as [(_ & Hk & _)|(Hu1 & Hu2 & Hu3 & (n & nh & Hr & Hh & Hnh) & n2 & c2 & Hr2)]; [congruence|].
  assert (HuD : u ∉ path_list s) by (destruct Hu3 as [[? ?]|[? ?]]; [congruence|done]).
  destruct F10 as (xr & Hxr & Hxr0 & Hxrn).
  assert (Hvr : v <> root) by (intros ->; simplify_eq; lia).
  assert (Hrt : routed v nx).
  { split.
    - exists (S n), (match nh with Some l => Some l | None => preset v end). split; [|split].
      + simpl path_cost. rewrite Z.add_comm. by apply (route_step u).
      + simpl. rewrite Hh. unfold wrapu. rewrite Nat2Z.inj_succ, Zplus_mod_idemp_l. f_equal; lia.
      + intros Hl. rewrite <- (Hnh Hl). simpl. destruct (next_hop xu) as [l|] eqn:En; [done|].
        destruct (decide (u = root)) as [->|Hur]; [|by destruct (route_next_hop _ _ _ _ Hl Hr2 Hur)].
        destruct F11 as [[_ Hpre]|?]; [by apply Hpre|done].
    - simpl. destruct (next_hop xu) as [l|]; [by exists (S n2), (c2 + c); apply (route_step _ _ _ _ _ _ Hr2 He)|].
      destruct (F5 v x Hx) as [(_ & _ & _ & ->)|(_ & _ & _ & _ & ?)]; [|done]. exists (S n2), (c2 + c). by apply (route_step _ _ _ _ _ _ Hr2 He). }
  split; [|split; [|done]].
  - split.
    + by apply frame_upd.
    + apply dtree_wf_insert; [apply _|by apply dtree_wf_delete|]. rewrite list_elem_of_fmap.
      intros ([q kq] & E & Hq%elem_of_tree_delete). simpl in *. destruct Hq as [Hq _]. congruence.
    + intros p k. unfold s'. rewrite cand_insert. fold s'. split.
      * intros [[-> ->]|[Hp Hin]]; [by exists nx|]. rewrite Sne by done. by apply F3.
      * intros (y & [[-> ->]|[Hp Hy]]%Sp & Hk & <-); [by left|right]. split; [done|]. apply F3. eauto.
    + intros p y [[-> ->]|[Hp Hy]]%Sp; [split; [done|intros ?; by destruct Hv]|by apply F4].
    + intros p y [[-> ->]|[Hp Hy]]%Sp; [right|destruct (F5 p y Hy) as [?|?]; [by left|by right]].
      split; [simpl; lia|]. split; [simpl; lia|]. by split; [right|].
    + intros p q y z Hp Hy [[-> ->]|[Hq Hz]]%Sp Hk; (destruct (decide (p = v)) as [->|Hpv]; [done|]); rewrite Sne in Hy by done.
      * simpl. pose proof (F6 p u y xu Hp Hy X1 X1'). lia.
      * by eapply F6.
    + intros a b c' y z Ha Hab Hy Hz. assert (a <> v) by (intros ->; done). rewrite Sne in Hy by done.
      destruct (Sdec b z Hz) as (z0 & Hz0 & Hle). pose proof (F7 a b c' y z0 Ha Hab Hy Hz0). lia.
    + done.
    + intros p Hp. rewrite Sne by (intros ->; done). by apply F9.
    + exists xr. rewrite Sne by done. done.
    + destruct F11 as [[E Hpre]|?]; [left|by right]. split; [done|]. intros p y [[-> ->]|[Hp Hy]]%Sp Hpr; [|by apply Hpre].
      simpl. specialize (X0 E). subst u. simplify_eq. rewrite Hxrn. by apply Hpre.
    + eapply ssorted_ext; [|exact F12]. intros p q Hp Hq Hpq y z.
      rewrite !Sne by (intros ->; done). apply Hpq.
    + done.
  - split.
    + split; [by rewrite Sne|done].
    + done.
    + intros q y [[-> ->]|[Hq Hy]]%Sp Hk; [simpl; lia|by eapply X2].
    + intros ek e inv i y Hek Hee Hi Hii Hcc Hy. destruct (Sdec _ _ Hy) as (y0 & Hy0 & Hle).
      pose proof (X3 ek e inv i y0 Hek Hee Hi Hii Hcc Hy0). lia.
Qed.

(** Exploring the edges of [u]. *)
Lemma relax_edges_run u xu tu B L : forall s dn,
  tcs d0 !! u = Some tu -> (forall ek, ek ∈ L -> ek ∈ edge_tree tu) ->
  spf_ok s B -> relaxing s u xu dn -> path_cost xu + maxc <= B -> B < ROUTE_COST_BROKEN ->
  exists s', foldr (fun e m => relax_edge u e.1;; m) (mret tt) L s = Some (s', tt) /\ spf_ok s' B /\
    relaxing s' u xu (reverse L ++ dn) /\ path_list s' = path_list s.
Proof.
  induction L as [|ek L IH]; intros s dn Htu HL Ok Rx HB HBr; [by exists s|]. simpl.
  assert (Hek : ek ∈ edge_tree tu) by (apply HL; left).
  destruct (g_edge G u tu ek Htu Hek) as (e & inv & i & He & Hi & Hii & Hv & Hpos).
  pose proof (s_frame _ _ Ok) as Fr. pose proof Rx as [[Hu Hku] Hfst Hmin Hdone].
  apply (frame_sp _ _ _ Fr) in Hv as [x Hx]. pose proof (fr_edges _ _ Fr) as Ed.
  destruct (relax_edge_run s u xu ek.1 e i inv Hu ltac:(by rewrite Ed) Hi ltac:(by rewrite Ed) x Hx) as [R1 R2].
  set (c := if virtual e then cost i else cost e) in *.
  assert (exists s1, relax_edge u ek.1 s = Some (s1, tt) /\ spf_ok s1 B /\ relaxing s1 u xu (ek :: dn) /\ path_list s1 = path_list s)
    as (s1 & R & Ok1 & Rx1 & E1).
  { assert (Hext : forall s1, relaxing s1 u xu dn ->
        (c < LINK_COST_BROKEN -> forall y, sp s1 (edge_tc i) = Some y -> path_cost y <= path_cost xu + c) -> relaxing s1 u xu (ek :: dn)).
    { intros s1 [Y1 Y0 Y2 Y3] Hy. split; try done. intros ek' e' inv' i' y [->|Hin]%elem_of_cons H1 H2 H3 H4 H5; [simplify_eq; by apply Hy|by eapply Y3]. }
    destruct (Z.le_gt_cases LINK_COST_BROKEN c) as [Hbr|Hgood].
    { exists s. split; [by apply R1; left|]. split; [done|]. split; [|done]. apply Hext; [done|lia]. }
    assert (Hge : good_edge u (edge_tc i) c) by (exists tu, ek, e, inv, i; by split_and!).
    pose proof (g_max G _ _ _ Hge) as Hmx.
    destruct (s_state _ _ Ok u xu Hu) as [(_ & ? & _)|(_ & [Hu0 _] & _)]; [congruence|].
    assert (Ew : u32 (c + path_cost xu) = c + path_cost xu) by (apply wrapu_id; unfold is_u, ROUTE_COST_BROKEN in *; lia).
    rewrite Ew in *. destruct (Z.le_gt_cases (path_cost x) (c + path_cost xu)) as [Hge'|Hlt].
    { exists s. split; [by apply R1; right|]. split; [done|]. split; [|done]. apply Hext; [done|]. intros _ y Hy. simplify_eq. lia. }
    destruct (better_ok s B u xu dn (edge_tc i) c x Ok Rx Hge Hx) as (Ok1 & Rx1 & Huv & Hv); [lia..|done|].
    exists (better (edge_tc i) (c + path_cost xu) x xu s). split; [|split; [done|split; [|done]]].
    - apply R2; try (done || lia).
      + intros Hp. apply Hv. by apply (s_node _ _ Ok _ x Hx).
      + intros Hk. destruct (s_state _ _ Ok _ x Hx) as [(_ & ? & _)|(? & _)]; [congruence|done].
      + intros Hk ([q k] & E & Hin)%list_elem_of_fmap. simpl in E. subst q.
        apply (s_cand _ _ Ok) in Hin as (x' & Hx' & Hk' & _). congruence.
    - apply Hext; [done|]. intros _ y Hy. destruct (sp_better _ (c + path_cost xu) x xu s Hx) as (y' & Hy' & Ec). simplify_eq. lia. }
  erewrite bind_run by exact R. destruct (IH s1 (ek :: dn) Htu (fun k Hk => HL k (list_elem_of_further _ _ _ Hk)) Ok1 Rx1 HB HBr)
    as (s2 & R' & Ok2 & Rx2 & E2).
  exists s2. rewrite R'. split_and!; [done|done| |congruence]. by rewrite reverse_cons, <- app_assoc.
Qed.

Lemma spf_ok_mono s B B' : spf_ok s B -> B <= B' -> spf_ok s B'.
Proof.
  intros [F1 F2 F3 F4 F5 F6 F7 F8 F9 F10 F11 F12 F13] H. split; try done.
  intros p x Hp. destruct (F5 p x Hp) as [?|(H1 & H2 & H3)]; [by left|right]. split; [done|]. split; [lia|done].
Qed.

(** Moving the explored node to the path list. *)
Definition moved (u : loc) (xu : spf_data) (s : spf_st) : spf_st :=
  mkSpfSt (db (upd_spf u (set_pnode InPathList (set_cand false xu)) s)) (tree_delete u (cand_tree s)) (path_list s ++ [u]) (path_count s + 1).

Lemma move_run s u xu : sp s u = Some xu -> cand_key xu = true ->
  (olsr_spf_del_cand_tree u;; olsr_spf_add_path_list u) s = Some (moved u xu s, tt).
Proof.
  intros Hu Hk. erewrite bind_run by (by apply del_cand_run). rewrite Hk. unfold olsr_spf_add_path_list.
  erewrite bind_run by (apply wr_spf_run; by eapply (sp_upd_eq u)). rewrite spf_upd_upd.
  erewrite bind_run by reflexivity. reflexivity.
Qed.

Lemma spf_moved_ok s B u xu tu dn : tcs d0 !! u = Some tu -> spf_ok s B -> relaxing s u xu dn ->
  (forall ek, ek ∈ edge_tree tu -> ek ∈ dn) -> spf_ok (moved u xu s) B.
Proof.
  intros Htu [F1 F2 F3 F4 F5 F6 F7 F8 F9 F10 F11 F12 F13] [[X1 X1'] X0 X2 X3] Hall.
  set (nx := set_pnode InPathList (set_cand false xu)). set (s' := moved u xu s).
  assert (Su : sp s' u = Some nx) by (by eapply (sp_upd_eq u)).
  assert (Sne : forall q, q <> u -> sp s' q = sp s q) by (intros q Hq; by apply (sp_upd_ne u)).
  assert (Sp : forall q y, sp s' q = Some y -> (q = u /\ y = nx) \/ (q <> u /\ sp s q = Some y)).
  { intros q y Hq. destruct (decide (q = u)) as [->|Hn]; [left; split; congruence|right; by rewrite Sne in Hq]. }
  assert (Sc : forall q y, sp s' q = Some y -> exists y0, sp s q = Some y0 /\ path_cost y0 = path_cost y /\ next_hop y0 = next_hop y).
  { intros q y [[-> ->]|[_ Hq]]%Sp; [by exists xu|by exists y]. }
  destruct (F5 u xu X1) as [(_ & Hk & _)|(Hu1 & Hu2 & Hu3 & Hu4)]; [congruence|].
  assert (HuD : u ∉ path_list s) by (destruct Hu3 as [[? ?]|[? ?]]; [congruence|done]).
  assert (Hin : forall p, p ∈ path_list s' <-> p ∈ path_list s \/ p = u).
  { intros p. simpl. by rewrite elem_of_app, list_elem_of_singleton. }
  split.
  - by apply frame_upd.
  - by apply dtree_wf_delete.
  - intros p k. simpl cand_tree. rewrite elem_of_tree_delete. simpl. rewrite F3. split.
    + intros (Hp & y & Hy). exists y. by rewrite Sne.
    + intros (y & [[-> ->]|[Hp Hy]]%Sp & Hk & Hc); [done|eauto].
  - intros p y [[-> ->]|[Hp Hy]]%Sp; rewrite Hin; [by split; auto|]. rewrite (F4 p y Hy). tauto.
  - intros p y [[-> ->]|[Hp Hy]]%Sp.
    + right. split; [done|]. split; [done|]. split; [left; split; [apply Hin; by right|done]|]. exact Hu4.
    + destruct (F5 p y Hy) as [(H1 & H2 & H3 & H4)|(H1 & H2 & H3 & H4)]; [left|right].
      * split_and!; try done. rewrite Hin. tauto.
      * split_and!; try (done || lia). rewrite !Hin. destruct H3 as [[? ?]|[? ?]]; [left|right]; tauto.
  - intros p q y z Hp Hy Hz Hk. apply Sp in Hz as [[-> ->]|[Hq Hz]]; [done|].
    destruct (Sc p y Hy) as (y0 & Hy0 & <- & _). apply Hin in Hp as [Hp| ->]; [by eapply F6|]. simplify_eq. by eapply X2.
  - intros a b c y z Ha Hab Hy Hz. destruct (Sc a y Hy) as (y0 & Hy0 & <- & _). destruct (Sc b z Hz) as (z0 & Hz0 & <- & _).
    apply Hin in Ha as [Ha| ->]; [by eapply F7|]. simplify_eq.
    destruct Hab as (t & ek & e & inv & i & Ht & Hek & He & Hi & Hii & -> & -> & Hc). simplify_eq. by eapply X3; [apply Hall| | | | |].
  - simpl. apply NoDup_app. split; [done|]. split; [|apply NoDup_singleton]. intros p Hp ->%list_elem_of_singleton. done.
  - intros p [Hp| ->]%Hin; [|by rewrite Su]. rewrite Sne by (intros ->; done). by apply F9.
  - destruct F10 as (xr & Hxr & H0 & Hn). destruct (decide (root = u)) as [E|Hn']; [|exists xr; by rewrite Sne].
    exists nx. subst u. simplify_eq. done.
  - right. apply Hin. destruct F11 as [[E _]|?]; [right; symmetry; by apply X0|by left].
  - simpl path_list. apply ssorted_app. split_and!.
    + eapply ssorted_ext; [|exact F12]. intros p q Hp Hq Hpq y z. rewrite !Sne by (intros ->; done). apply Hpq.
    + repeat constructor.
    + intros p q Hp ->%list_elem_of_singleton y z Hy Hz. destruct (Sc p y Hy) as (y0 & Hy0 & <- & _).
      destruct (Sc u z Hz) as (z0 & Hz0 & <- & _). simplify_eq. by eapply F6.
  - simpl. rewrite length_app, F13. simpl. lia.
Qed.

Lemma path_list_bound s B u : spf_ok s B -> is_Some (sp s u) -> u ∉ path_list s -> (length (path_list s) < size (tcs d0))%nat.
Proof.
  intros Ok Hu Hn. rewrite <- size_dom. pose proof (s_frame _ _ Ok) as Fr.
  assert (Hsub : list_to_set (u :: path_list s) ⊆ dom (tcs d0)).
  { intros p [->|Hp]%elem_of_list_to_set%elem_of_cons; apply elem_of_dom, (frame_sp _ s _ Fr); [done|by apply (s_dom _ _ Ok)]. }
  apply subseteq_size in Hsub. rewrite size_list_to_set in Hsub; [simpl in Hsub; lia|].
  apply NoDup_cons. split; [done|apply Ok].
Qed.

(** The loop ends with the candidates used up. *)
Lemma spf_loop_run fuel : forall s,
  spf_ok s (Z.of_nat (length (path_list s)) * maxc) ->
  (path_list s = [] -> forall p k, (p, k) ∈ cand_tree s -> p = root) ->
  (size (tcs d0) - length (path_list s) < fuel)%nat ->
  exists s', spf_loop fuel s = Some (s', tt) /\ spf_ok s' (Z.of_nat (length (path_list s')) * maxc) /\ cand_tree s' = [] /\
    (path_list s <> [] \/ cand_tree s <> [] -> path_list s' <> []).
Proof.
  induction fuel as [|fuel IH]; intros s Ok Hone Hf; [lia|]. cbn [spf_loop]. erewrite bind_run by reflexivity.
  destruct (cand_tree s) as [|[u k] C] eqn:EC; simpl.
  { exists s. split; [done|]. split; [done|]. split; [done|]. by intros [?|?]. }
  assert (Hin : (u, k) ∈ cand_tree s) by (rewrite EC; left).
  apply (s_cand _ _ Ok) in Hin as (xu & Hu & Hku & Hk). pose proof (s_frame _ _ Ok) as Fr.
  destruct (s_state _ _ Ok u xu Hu) as [(_ & ? & _)|(_ & Hb & Hd & _)]; [congruence|].
  assert (HuD : u ∉ path_list s) by (destruct Hd as [[? ?]|[? ?]]; [congruence|done]).
  pose proof (path_list_bound _ _ u Ok ltac:(eauto) HuD) as Hlen. pose proof (g_bound G) as [Hm0 Hbd].
  set (B := Z.of_nat (S (length (path_list s))) * maxc).
  assert (HB : path_cost xu + maxc <= B) by (unfold B; lia).
  assert (HBr : B < ROUTE_COST_BROKEN) by (unfold B; nia).
  assert (exists tu, tcs d0 !! u = Some tu) as [tu Htu] by (apply (frame_sp _ s _ Fr); eauto).
  assert (Rx : relaxing s u xu []).
  { split; [done|intros E; apply (Hone E u k); rewrite ?EC; left| |intros ? ? ? ? ? []%not_elem_of_nil].
    intros q y Hq Hkq. assert ((q, path_cost y) ∈ cand_tree s) as Hq' by (apply (s_cand _ _ Ok); eauto).
    pose proof (dw_sorted _ _ (s_wf _ _ Ok)) as Hs. rewrite EC in Hs, Hq'. apply ssorted_cons in Hs as [Hs _].
    apply elem_of_cons in Hq' as [[= -> <-]|Hq']; [lia|]. specialize (Hs _ Hq'). apply (proj1 (etx_le _ _)) in Hs. simpl in Hs. lia. }
  destruct (frame_lookup _ _ u tu Fr Htu) as (tu' & Htu' & Et).
  destruct (relax_edges_run u xu tu B (edge_tree tu) s [] Htu ltac:(done) ltac:(eapply spf_ok_mono; [exact Ok|unfold B; lia]) Rx HB HBr)
    as (s1 & R & Ok1 & Rx1 & E1).
  assert (RR : olsr_spf_relax u s = Some (s1, tt)).
  { unfold olsr_spf_relax. erewrite bind_run by (by apply rd_tc_run). by rewrite Et. }
  erewrite bind_run by exact RR. rewrite app_nil_r in Rx1. pose proof (x_cur _ _ _ _ Rx1) as [Hu1 Hk1].
  pose proof (move_run s1 u xu Hu1 Hk1) as RM. apply bind_inv in RM as (s2 & [] & RM1 & RM2).
  erewrite bind_run by exact RM1. erewrite bind_run by exact RM2.
  pose proof (spf_moved_ok s1 B u xu tu _ Htu Ok1 Rx1 (fun ek Hek => proj2 (elem_of_reverse _ _) Hek)) as Ok2.
  destruct (IH (moved u xu s1)) as (s' & R' & Ok' & Ec' & Hne).
  - simpl. rewrite length_app, E1. simpl. replace (length (path_list s) + 1)%nat with (S (length (path_list s))) by lia. exact Ok2.
  - simpl. by destruct (path_list s1).
  - simpl. rewrite length_app, E1. simpl. lia.
  - exists s'. split; [exact R'|]. split_and!; try done. intros _. apply Hne. left. simpl. by destruct (path_list s1).
Qed.

(** ** What the result means *)
Lemma routes_covered s : spf_ok s (Z.of_nat (length (path_list s)) * maxc) -> cand_tree s = [] -> path_list s <> [] ->
  forall v n c nh, route v n c nh -> exists x, sp s v = Some x /\ (v ∈ path_list s) /\ path_cost x <= c.
Proof.
  intros Ok Ec Hne. pose proof Ok as [F1 F2 F3 F4 F5 F6 F7 F8 F9 F10 F11 F12 F13].
  induction 1 as [|u v n c c' nh Hr (xu & Hu & HuD & Hle) He].
  { destruct F10 as (x & Hx & H0 & _). exists x. split_and!; [done| |lia]. by destruct F11 as [[? _]|?]. }
  pose proof He as (t & ek & e & inv & i & Ht & Hek & Hee & Hi & Hii & Ev & Ecost & _).
  destruct (g_edge G u t ek Ht Hek) as (e' & inv' & i' & ? & ? & ? & Hv & _). simplify_eq.
  apply (frame_sp _ _ _ F1) in Hv as [x Hx]. exists x.
  pose proof (F7 u (edge_tc i) _ xu x HuD He Hu Hx) as Hrel. split; [done|]. split; [|lia].
  destruct (F5 _ x Hx) as [(Hb & _ & Hn & _)|(_ & _ & [[? _]|[_ Hk]] & _)]; [exfalso|done|exfalso].
  - destruct (F5 u xu Hu) as [(_ & _ & ? & _)|(_ & Hub & _)]; [done|].
    pose proof (path_list_bound _ _ _ Ok ltac:(eauto) Hn) as Hlen. pose proof (g_bound G) as [Hm Hbd]. pose proof (g_max G _ _ _ He). nia.
  - assert ((edge_tc i, path_cost x) ∈ cand_tree s) as Hin by (apply F3; eauto). rewrite Ec in Hin. by apply not_elem_of_nil in Hin.
Qed.

(** Every node that has a route is in the path list with the cost of its
    cheapest route and its length, and with the link to the first hop of a route,
    that of the cheapest one if all first hops have links; the
    list is ordered by cost; the other nodes are unreachable. *)
Record spf_result (s : spf_st) : Prop := {
  res_dom : forall v, v ∈ path_list s -> is_Some (sp s v);
  res_reached : forall v x, sp s v = Some x -> v ∈ path_list s -> path_cost x < ROUTE_COST_BROKEN /\
    routed v x /\ (forall n c nh, route v n c nh -> path_cost x <= c);
  res_unreached : forall v x, sp s v = Some x -> v ∉ path_list s ->
    path_cost x = ROUTE_COST_BROKEN /\ forall n c nh, ~ route v n c nh;
  res_sorted : StronglySorted (fun p q => forall x y, sp s p = Some x -> sp s q = Some y -> path_cost x <= path_cost y) (path_list s);
  res_nodup : NoDup (path_list s);
  res_count : path_count s = Z.of_nat (length (path_list s))
}.

Lemma spf_ok_result s : spf_ok s (Z.of_nat (length (path_list s)) * maxc) -> cand_tree s = [] -> path_list s <> [] -> spf_result s.
Proof.
  intros Ok Ec Hne. pose proof (routes_covered s Ok Ec Hne) as Hcov. split; [apply Ok| | |apply Ok..].
  - intros v x Hx Hv. destruct (s_state _ _ Ok v x Hx) as [(_ & _ & ? & _)|(? & _ & _ & Hr)]; [done|]. do 2 (split; [done|]).
    intros n c nh (x' & Hx' & _ & ?)%Hcov. simplify_eq. done.
  - intros v x Hx Hv. split; [|by intros n c nh (x' & _ & ? & _)%Hcov].
    destruct (s_state _ _ Ok v x Hx) as [(? & _)|(_ & _ & [[? _]|[_ Hk]] & _)]; [done..|].
    assert ((v, path_cost x) ∈ cand_tree s) as Hin by (apply (s_cand _ _ Ok); eauto). rewrite Ec in Hin. by apply not_elem_of_nil in Hin.
Qed.

(** The state in which the calculation starts. *)
Definition spf_start (s : spf_st) : Prop :=
  frame d0 (db s) /\ path_list s = [] /\ cand_tree s = [(root, 0)] /\
  forall p x, sp s p = Some x -> next_hop x = preset p /\ path_list_node x <> InPathList /\ hops x = 0 /\
    (if decide (p = root) then path_cost x = 0 /\ cand_key x = true else path_cost x = ROUTE_COST_BROKEN /\ cand_key x = false).

Lemma run_full_run s fuel : spf_start s -> (size (tcs d0) < fuel)%nat ->
  exists s', olsr_spf_run_full fuel s = Some (s', tt) /\ spf_result s' /\ frame d0 (db s').
Proof.
  intros (Fr & EP & EC & Hs) Hf. unfold olsr_spf_run_full. erewrite bind_run by reflexivity.
  assert (Hroot : exists x, sp s root = Some x) by (apply (frame_sp _ _ _ Fr), (g_root G)). destruct Hroot as [xr Hxr].
  destruct (Hs root xr Hxr) as (Hn & Hp & Hh & Hc). rewrite decide_True in Hc by done. destruct Hc as [Hc0 Hck].
  assert (Hpre : preset root = None) by apply (g_preset G).
  assert (Ok : spf_ok (with_count 0 s) (Z.of_nat (length (path_list (with_count 0 s))) * maxc)).
  { simpl path_list. rewrite EP. simpl. change (sp (with_count 0 s)) with (sp s). split; simpl; try (rewrite EP); try done.
    - rewrite EC. split; [repeat constructor|simpl; apply NoDup_singleton].
    - intros p k. rewrite EC, list_elem_of_singleton. change (sp (with_count 0 s)) with (sp s). split.
      + intros [= -> ->]. eauto.
      + intros (x & Hx & Hk & <-). destruct (Hs p x Hx) as (_ & _ & _ & Hq). case_decide; [destruct Hq as [-> _]; by subst|by destruct Hq as [_ Hq]; rewrite Hq in Hk].
    - change (sp (with_count 0 s)) with (sp s). intros p x Hx. destruct (Hs p x Hx) as (_ & ? & _). split; [done|]. set_solver.
    - change (sp (with_count 0 s)) with (sp s). intros p x Hx. destruct (Hs p x Hx) as (H1 & H2 & H3 & Hq). case_decide; [right|left].
      + subst p. simplify_eq. unfold reached. simpl. rewrite EP, Hc0. split; [done|]. split; [lia|]. split; [right; split; [set_solver|done]|].
        split; [exists 0%nat, None; rewrite Hc0, Hn, Hpre, Hh; split; [constructor|done]|]. exists 0%nat, 0. rewrite Hn, Hpre. constructor.
      + destruct Hq. split_and!; try done. simpl. rewrite EP. set_solver.
    - set_solver.
    - set_solver.
    - constructor.
    - set_solver.
    - exists xr. split; [done|]. split; [done|]. by rewrite Hn.
    - left. split; [done|]. change (sp (with_count 0 s)) with (sp s). intros p x Hx _. by apply (Hs p x).
    - constructor. }
  destruct (spf_loop_run fuel _ Ok) as (s' & R & Ok' & Ec & Hne).
  - intros _ p k. simpl. rewrite EC, list_elem_of_singleton. by intros [= -> _].
  - simpl. rewrite EP. simpl. lia.
  - exists s'. split; [exact R|]. split; [|apply Ok']. apply spf_ok_result; [done..|]. apply Hne. right. simpl. by rewrite EC.
Qed.
End dijkstra.

(** ** The calculation from the start *)
Section calculate.
Context (d : lsdb) (me : loc) (nbrs : list (loc * option loc)) (maxc : Z).

(** The node at the other end of an edge. *)
Definition edge_target (ek : loc) : option loc :=
  e ← edges d !! ek; inv ← edge_inv e; i ← edges d !! inv; Some (edge_tc i).
(** The link that the symmetric neighbours give a node. *)
Definition first_link (p : loc) : option loc :=
  foldl (fun acc n => if decide (edge_target n.1 = Some p) then n.2 else acc) None nbrs.

Record lsdb_ok : Prop := {
  l_tree : forall p, (p ∈ (tc_tree d).*1) <-> is_Some (tcs d !! p);
  l_me : tc_myself d = Some me;
  l_nbrs : forall n, n ∈ nbrs -> exists p, edge_target n.1 = Some p /\ is_Some (tcs d !! p);
  l_graph : graph_ok d me first_link maxc
}.

Lemma init_run L : forall s, (forall e, e ∈ L -> is_Some (sp s e.1)) -> frame d (db s) ->
  exists s', foldr (fun (e : loc * ip_addr) m => on_db (wr_spf e.1 (fun _ => mkSpf ROUTE_COST_BROKEN None 0 false SelfLinked));; m) (mret tt) L s = Some (s', tt) /\
    frame d (db s') /\ cand_tree s' = cand_tree s /\ path_list s' = path_list s /\
    forall p x, sp s' p = Some x -> (x = mkSpf ROUTE_COST_BROKEN None 0 false SelfLinked) \/ (p ∉ L.*1) /\ sp s p = Some x.
Proof.
  induction L as [|e L IH]; intros s HL Fr.
  { exists s. split_and!; try done. intros p x Hp. right. split; [set_solver|done]. }
  simpl. destruct (HL e ltac:(left)) as [y Hy]. erewrite bind_run by (by apply wr_spf_run).
  destruct (IH (upd_spf e.1 (mkSpf ROUTE_COST_BROKEN None 0 false SelfLinked) s)) as (s' & R & Fr' & E1 & E2 & H).
  - intros e' He'. rewrite sp_upd by eauto. case_decide; [eauto|]. apply HL. by right.
  - by apply frame_upd.
  - exists s'. rewrite R. split_and!; try done. intros p x [?|[Hn Hp]]%H; [by left|]. rewrite sp_upd in Hp by eauto.
    case_decide; [left; congruence|right]. split; [|done]. set_solver.
Qed.

Lemma next_hops_run L : forall s, (forall n, n ∈ L -> exists p, edge_target n.1 = Some p /\ is_Some (tcs d !! p)) -> frame d (db s) ->
  exists s', spf_set_next_hops L s = Some (s', tt) /\ frame d (db s') /\ cand_tree s' = cand_tree s /\ path_list s' = path_list s /\
    forall p x, sp s' p = Some x -> exists y, sp s p = Some y /\
      x = set_next_hop (foldl (fun acc n => if decide (edge_target n.1 = Some p) then n.2 else acc) (next_hop y) L) y.
Proof.
  induction L as [|n L IH]; intros s HL Fr.
  { exists s. split_and!; try done. intros p x Hp. exists x. split; [done|]. by destruct x. }
  unfold spf_set_next_hops. simpl. destruct (HL n ltac:(left)) as (q & Hq & Hqs). pose proof (fr_edges _ _ Fr) as Ed.
  assert (exists y, sp s q = Some y) as [y Hy] by (by apply (frame_sp d s q Fr)).
  assert (R0 : (e ← on_db (rd_edge n.1); inv ← se_opt (edge_inv e); i ← on_db (rd_edge inv); on_db (wr_spf (edge_tc i) (set_next_hop n.2))) s
      = Some (upd_spf q (set_next_hop n.2 y) s, tt)).
  { unfold edge_target in Hq. destruct (edges d !! n.1) as [e|] eqn:He; [|done]. simpl in Hq.
    destruct (edge_inv e) as [inv|] eqn:Hi; [|done]. simpl in Hq. destruct (edges d !! inv) as [i|] eqn:Hii; [|done]. injection Hq as <-.
    erewrite bind_run by (apply rd_edge_run; by rewrite Ed). erewrite bind_run by (by rewrite Hi).
    erewrite bind_run by (apply rd_edge_run; by rewrite Ed). by apply wr_spf_run. }
  erewrite bind_run by exact R0.
  destruct (IH (upd_spf q (set_next_hop n.2 y) s)) as (s' & R & Fr' & E1 & E2 & H).
  - intros n' Hn'. apply HL. by right.
  - by apply frame_upd.
  - exists s'. split; [exact R|]. split_and!; try done. intros p x (z & Hz & ->)%H. rewrite sp_upd in Hz by eauto.
    case_decide as Epq.
    + subst p. injection Hz as <-. exists y. split; [done|]. simpl. by rewrite decide_True.
    + exists z. split; [done|]. rewrite decide_False; [done|]. rewrite Hq. congruence.
Qed.

(** Every vertex has been initialized. *)
Definition spf_fresh (s : spf_st) : Prop := frame d (db s) /\ cand_tree s = [] /\ path_list s = [] /\
  forall p x, sp s p = Some x -> x = mkSpf ROUTE_COST_BROKEN None 0 false SelfLinked.

Lemma spf_init_run s : lsdb_ok -> db s = d -> cand_tree s = [] -> path_list s = [] ->
  exists s1, spf_init_vertices s = Some (s1, tt) /\ spf_fresh s1.
Proof.
  intros [L1 L2 L3 L4] Ed EC EP. assert (Fr0 : frame d (db s)) by (rewrite Ed; apply frame_refl). unfold spf_init_vertices.
  erewrite bind_run by (unfold on_db, se_get; by rewrite with_db_id). rewrite Ed.
  destruct (init_run (tc_tree d) s) as (s1 & R1 & Fr1 & C1 & P1 & H1); [|done|].
  { intros e He. apply (frame_sp _ _ _ Fr0), L1, list_elem_of_fmap. by exists e. }
  exists s1. split; [done|]. split_and!; [done|congruence..|].
  intros p x [?|[Hn Hp]]%H1; [done|]. exfalso. apply Hn, L1, (frame_sp _ s p Fr0). eauto.
Qed.

Lemma spf_myself_run s1 : lsdb_ok -> spf_fresh s1 -> exists s2, spf_add_myself me s1 = Some (s2, tt) /\
  s2 = with_cand [(me, 0)] (upd_spf me (mkSpf 0 None 0 true SelfLinked) s1) /\ frame d (db s2).
Proof.
  intros [L1 L2 L3 L4] (Fr1 & C1 & P1 & Hinit). unfold spf_add_myself.
  assert (exists xm, sp s1 me = Some xm) as [xm Hm] by (apply (frame_sp _ _ _ Fr1), (g_root _ _ _ _ L4)).
  pose proof (Hinit _ _ Hm) as ->.
  erewrite bind_run by (by apply wr_spf_run). erewrite add_cand_run by (by eapply sp_upd_eq). rewrite spf_upd_upd.
  eexists. split; [reflexivity|]. split; [|by apply frame_upd]. simpl. by rewrite C1.
Qed.

Lemma spf_rest_run s1 s3 fuel : lsdb_ok -> spf_fresh s1 ->
  spf_set_next_hops nbrs (with_cand [(me, 0)] (upd_spf me (mkSpf 0 None 0 true SelfLinked) s1)) = Some (s3, tt) -> (size (tcs d) < fuel)%nat ->
  exists s', olsr_spf_run_full fuel s3 = Some (s', tt) /\ spf_result d me first_link s' /\ frame d (db s').
Proof.
  intros L (Fr1 & C1 & P1 & Hinit) R Hf. set (s2 := with_cand _ _) in *. assert (Fr2 : frame d (db s2)) by (by apply frame_upd).
  destruct (next_hops_run nbrs s2 (l_nbrs L) Fr2) as (s3' & R3 & Fr3 & C3 & P3 & H3). rewrite R in R3. injection R3 as <-.
  assert (exists xm, sp s1 me = Some xm) as [xm Hm] by (apply (frame_sp _ _ _ Fr1), (g_root _ _ _ _ (l_graph L))).
  apply (run_full_run d me first_link maxc (l_graph L) s3 fuel); [|done]. split; [done|].
  split; [by rewrite P3; simpl; rewrite P1|]. split; [by rewrite C3|].
  intros p x (y & Hy & ->)%H3. unfold s2 in Hy. change (sp (upd_spf me (mkSpf 0 None 0 true SelfLinked) s1) p = Some y) in Hy.
  rewrite sp_upd in Hy by eauto. case_decide as E.
  - subst p. injection Hy as <-. rewrite decide_True by done. done.
  - rewrite decide_False by done. apply Hinit in Hy as ->. done.
Qed.

(** C1: On a well-formed link state database (every edge has its inverse, link
    costs are non-negative, the number of nodes times the largest link cost is below 2^32 - 1, no
    neighbour is this router itself) the
    calculation of [olsr_calculate_routing_table] terminates within as many
    rounds as there are nodes, and is Dijkstra's: exactly the nodes that a route
    leads to are in the path list, each with the cost and the number of hops of a cheapest
    route, in ascending order of cost; all other nodes keep the infinite cost. The next hop of a
    node is the link of some route to it; it is the link of that cheapest
    route if every node at the end of a usable edge of this router has a link, and need not be otherwise.
    Nothing else of the database changes. *)
Theorem spf_calculate_correct s fuel : lsdb_ok -> db s = d -> (size (tcs d) < fuel)%nat ->
  exists s', spf_calculate nbrs fuel s = Some (s', tt) /\ spf_result d me first_link s' /\ frame d (db s').
Proof.
  intros L Ed Hf. unfold spf_calculate. do 2 erewrite bind_run by reflexivity.
  destruct (spf_init_run (with_path [] (with_cand [] s)) L Ed eq_refl eq_refl) as (s1 & R1 & F1).
  erewrite bind_run by exact R1. erewrite bind_run by (unfold on_db, se_get; by rewrite with_db_id).
  rewrite (fr_me _ _ (proj1 F1)), (l_me L). destruct (spf_myself_run s1 L F1) as (s2 & R2 & -> & Fr2).
  erewrite bind_run by exact R2. destruct (next_hops_run nbrs _ (l_nbrs L) Fr2) as (s3 & R3 & _).
  erewrite bind_run by exact R3. by apply (spf_rest_run s1).
Qed.
End calculate.

(** ** A small network: 1 reaches 3 through 2, and 4 only over a broken link. *)
Definition demo_addr (b : Z) : ip_addr := [10; 0; 0; b] ++ replicate 12 0.
Definition demo_tc (b : Z) (es : list (loc * Z)) : tc_entry :=
  mkTc (demo_addr b) (mkSpf 7 None 0 false Unlinked) (prod_map id demo_addr <$> es) [] None None false 0 0 0 0 0.
Definition demo_edge (b : Z) (inv tc : loc) (c : Z) (v : bool) : tc_edge_entry :=
  mkEdge (demo_addr b) (Some inv) tc None c c v 0.
Definition demo_db : lsdb := mkDb
  [(1%positive, demo_addr 1); (2%positive, demo_addr 2); (3%positive, demo_addr 3); (4%positive, demo_addr 4)]
  {[ 1%positive := demo_tc 1 [(11%positive, 2); (13%positive, 3)];
     2%positive := demo_tc 2 [(12%positive, 1); (15%positive, 3)];
     3%positive := demo_tc 3 [(14%positive, 1); (16%positive, 2); (17%positive, 4)];
     4%positive := demo_tc 4 [(18%positive, 3)] ]}
  {[ 11%positive := demo_edge 2 12 1 10 false; 12%positive := demo_edge 1 11 2 20 false;
     13%positive := demo_edge 3 14 1 90 false; 14%positive := demo_edge 1 13 3 90 true;
     15%positive := demo_edge 3 16 2 0 true; 16%positive := demo_edge 2 15 3 30 false;
     17%positive := demo_edge 4 18 3 LINK_COST_BROKEN false; 18%positive := demo_edge 3 17 4 5 false ]}
  (Some 1%positive).
Definition demo_nbrs : list (loc * option loc) := [(11%positive, Some 21%positive); (13%positive, Some 23%positive)].

Lemma demo_good_edge u v c : good_edge demo_db u v c ->
  c <= 90 /\ (u = 1%positive -> v <> 1%positive -> is_Some (first_link demo_db demo_nbrs v)).
Proof.
  intros (t & ek & e & inv & i & Hu & Hek & He & Hi & Hinv & -> & -> & Hc). map_cases Hu; list_cases Hek; simpl in He;
    map_cases He; inversion Hi; clear Hi; subst; map_cases Hinv; simpl in Hc |- *; (split; [unfold LINK_COST_BROKEN in Hc; lia|]);
    intros; try done; by eexists.
Qed.

Lemma demo_lsdb_ok : lsdb_ok demo_db 1 demo_nbrs 90.
Proof.
  split; [| |intros n Hn; list_cases Hn; eexists; (split; [by vm_compute|by eexists])|split].
  - intros p. rewrite <- elem_of_dom, <- (elem_of_list_to_set (C := gset loc)). by apply set_eq.
  - done.
  - by eexists.
  - intros u t ek Hu Hek. map_cases Hu; list_cases Hek; do 3 eexists; do 3 (split; [reflexivity|]); (split; [by eexists|done]).
  - intros u v c H. by apply demo_good_edge in H as [H _].
  - done.
  - done.
Qed.

Lemma spf_calculate_correct_witness :
  exists s', spf_calculate demo_nbrs 5 (mkSpfSt demo_db [(3%positive, 3)] [2%positive] 9) = Some (s', tt) /\
    spf_result demo_db 1 (first_link demo_db demo_nbrs) s' /\ frame demo_db (db s').
Proof. apply (spf_calculate_correct demo_db 1 demo_nbrs 90 _ 5); [apply demo_lsdb_ok|done|by apply (bool_decide_unpack _)]. Defined.

(** The costs, hop counts and next hops of the small network. *)
Example demo_routes :
  (fun r => (fun p => (p, (fun x => (path_cost x, hops x, next_hop x)) <$> sp r.1 p)) <$> path_list r.1)
    <$> spf_calculate demo_nbrs 5 (mkSpfSt demo_db [] [] 0) =
  Some [(1%positive, Some (0, 0, None)); (2%positive, Some (10, 1, Some 21%positive));
        (3%positive, Some (40, 2, Some 21%positive))].
Proof. by vm_compute. Qed.

(** A first hop without a link: 1 reaches 3 by 2 at cost 20, but 2 has no link, so that 3 keeps the link of the route of cost 90. *)
Definition stale_db : lsdb := mkDb
  [(1%positive, demo_addr 1); (2%positive, demo_addr 2); (3%positive, demo_addr 3)]
  {[ 1%positive := demo_tc 1 [(11%positive, 2); (13%positive, 3)];
     2%positive := demo_tc 2 [(12%positive, 1); (15%positive, 3)];
     3%positive := demo_tc 3 [(14%positive, 1); (16%positive, 2)] ]}
  {[ 11%positive := demo_edge 2 12 1 10 true; 12%positive := demo_edge 1 11 2 10 false;
     13%positive := demo_edge 3 14 1 90 false; 14%positive := demo_edge 1 13 3 90 true;
     15%positive := demo_edge 3 16 2 10 false; 16%positive := demo_edge 2 15 3 10 true ]}
  (Some 1%positive).
Example stale_next_hop :
  (fun r => (fun p => (p, (fun x => (path_cost x, hops x, next_hop x)) <$> sp r.1 p)) <$> path_list r.1)
    <$> spf_calculate [(13%positive, Some 23%positive)] 5 (mkSpfSt stale_db [] [] 0) =
  Some [(1%positive, Some (0, 0, None)); (2%positive, Some (10, 1, None)); (3%positive, Some (20, 2, Some 23%positive))].
Proof. by vm_compute. Qed.
