(* ===== verification/LqHandler.v ===== *)
(** * Link quality handlers ([lq_plugin.h], [lq_plugin.c] and the handlers under [lib])

    The daemon calls the active link quality plugin through [struct lq_handler].
    The class states what messages need of a handler: how many bytes it puts into
    a message for a neighbour, and that it reads back what it wrote. The
    instances are the Freifunk ETX handler and the hop count handler. *)
From S2P Require Import Prelude Types Clock Packet Lsdb.

Class LqHandler := {
  lq_data : Type;
  lq_ok : lq_data -> Prop;
  lq_zero : lq_data;
  (** [serialized_lqhello_size], [serialized_lqtc_size] *)
  lq_size : nat;
  serialize_lq : lq_data -> WR unit;
  deserialize_lq : lq_data -> RD lq_data;
  calc_cost : lq_data -> Z;
  messageid_hello : Z;
  messageid_tc : Z;

  lq_bytes : lq_data -> list Z;
  lq_bytes_length : forall d, length (lq_bytes d) = lq_size;
  (** writing stores the bytes, and goes wrong only where the buffer ends *)
  lq_put : forall d, writes (serialize_lq d) (lq_bytes d) (fun _ => tt);
  lq_get : forall d d0 r, lq_ok d -> deserialize_lq d0 (lq_bytes d ++ r) = Some (r, d);
  (** reading consumes [lq_size] bytes, whatever they are *)
  lq_reads : forall d0 r, (lq_size <= length r)%nat -> exists d, deserialize_lq d0 r = Some (drop lq_size r, d);
  lq_short : forall d0 r, (length r < lq_size)%nat -> deserialize_lq d0 r = None;
  lq_cost : forall d, lq_ok d -> 0 < calc_cost d <= LINK_COST_BROKEN
}.

(** ** [lib/lq_etx_ff] *)
Record lq_etxff_linkquality := mkFf { valueLq : Z; valueNlq : Z }.

(** [(unsigned int)(255 * MINIMAL_USEFUL_LQ)] *)
Definition FF_MINIMAL : Z := 25.

(** The products are of type [int]. *)
Definition lq_etxff_calc_linkcost (lq : lq_etxff_linkquality) : Z :=
  if (valueLq lq <? FF_MINIMAL) || (valueNlq lq <? FF_MINIMAL) then LINK_COST_BROKEN
  else
    let cost := u32 (s32 (s32 (65536 * 255) ÷ valueLq lq * 255) ÷ valueNlq lq) in
    if cost >? LINK_COST_BROKEN then LINK_COST_BROKEN else if cost =? 0 then 1 else cost.

Definition lq_etxff_serialize (lq : lq_etxff_linkquality) : WR unit :=
  pkt_put_u8 (valueLq lq);; pkt_put_u8 (valueNlq lq);; pkt_put_u16 0.
Definition lq_etxff_deserialize (old : lq_etxff_linkquality) : RD lq_etxff_linkquality :=
  a ← pkt_get_u8; b ← pkt_get_u8; pkt_ignore_u16;; mret (mkFf a b).

Definition ff_ok (lq : lq_etxff_linkquality) : Prop := is_u 8 (valueLq lq) /\ is_u 8 (valueNlq lq).

(** No product overflows; a usable link costs between 65536 (a perfect link)
    and 6818500. *)
Lemma ff_cost_value lq : ff_ok lq -> FF_MINIMAL <= valueLq lq -> FF_MINIMAL <= valueNlq lq ->
  lq_etxff_calc_linkcost lq = 16711680 / valueLq lq * 255 / valueNlq lq /\ 65536 <= lq_etxff_calc_linkcost lq <= 6818500.
Proof.
  unfold ff_ok, is_u, FF_MINIMAL. intros [Ha Hb] H1 H2. destruct lq as [a b]. cbn [valueLq valueNlq] in *. unfold lq_etxff_calc_linkcost, FF_MINIMAL. cbn [valueLq valueNlq].
  destruct (Z.ltb_spec a 25); [lia|]. destruct (Z.ltb_spec b 25); [lia|]. cbn [orb].
  assert (Hq : 65536 <= 16711680 / a <= 668467).
  { split; [apply Z.div_le_lower_bound; lia|]. apply Z.lt_succ_r, Z.div_lt_upper_bound; lia. }
  assert (Hr : 65536 <= 16711680 / a * 255 / b <= 6818500).
  { split; [apply Z.div_le_lower_bound; nia|]. apply Z.lt_succ_r, Z.div_lt_upper_bound; nia. }
  change (s32 (65536 * 255)) with 16711680. rewrite (Z.quot_div_nonneg 16711680 a) by lia.
  rewrite (wraps_id 32) by lia. rewrite Z.quot_div_nonneg by lia.
  rewrite (wrapu_id 32) by (unfold is_u; lia). rewrite Z.gtb_ltb. unfold LINK_COST_BROKEN.
  destruct (Z.ltb_spec 16777215 (16711680 / a * 255 / b)); [lia|].
  destruct (Z.eqb_spec (16711680 / a * 255 / b) 0); lia.
Qed.

Lemma ff_cost_broken lq : valueLq lq < FF_MINIMAL \/ valueNlq lq < FF_MINIMAL -> lq_etxff_calc_linkcost lq = LINK_COST_BROKEN.
Proof.
  intros H. unfold lq_etxff_calc_linkcost.
  destruct (Z.ltb_spec (valueLq lq) FF_MINIMAL), (Z.ltb_spec (valueNlq lq) FF_MINIMAL); cbn [orb]; (reflexivity || lia).
Qed.

Lemma ff_cost_range lq : ff_ok lq -> 0 < lq_etxff_calc_linkcost lq <= LINK_COST_BROKEN.
Proof.
  intros Ok. destruct (Z.lt_ge_cases (valueLq lq) FF_MINIMAL); [rewrite ff_cost_broken by (by left); by vm_compute|].
  destruct (Z.lt_ge_cases (valueNlq lq) FF_MINIMAL); [rewrite ff_cost_broken by (by right); by vm_compute|].
  destruct (ff_cost_value lq Ok) as [_ ?]; [done..|]. unfold LINK_COST_BROKEN. lia.
Qed.

(** The cost of a link is computed without overflow for all 256 * 256 pairs of qualities: it
    is broken if one of the directions has less than a tenth of the best quality,
    otherwise it is the rounded-down inverse of the product of the qualities, between 65536 for a
    perfect link and 6818500; and a better quality in either direction never costs more. *)
Theorem ff_cost_correct lq lq' : ff_ok lq -> ff_ok lq' -> valueLq lq <= valueLq lq' -> valueNlq lq <= valueNlq lq' ->
  lq_etxff_calc_linkcost lq =
    (if decide (FF_MINIMAL <= valueLq lq /\ FF_MINIMAL <= valueNlq lq) then 16711680 / valueLq lq * 255 / valueNlq lq else LINK_COST_BROKEN) /\
  (lq_etxff_calc_linkcost lq = LINK_COST_BROKEN \/ 65536 <= lq_etxff_calc_linkcost lq <= 6818500) /\
  lq_etxff_calc_linkcost lq' <= lq_etxff_calc_linkcost lq.
Proof.
  intros Ok Ok' H1 H2. case_decide as D.
  - destruct D as [D1 D2]. destruct (ff_cost_value lq Ok D1 D2) as [E R]. destruct (ff_cost_value lq' Ok') as [E' R']; [lia..|].
    split; [done|]. split; [by right|]. rewrite E, E'. unfold ff_ok, is_u, FF_MINIMAL in *.
    assert (Hd : 16711680 / valueLq lq' <= 16711680 / valueLq lq) by (apply Z.div_le_compat_l; lia).
    assert (Hp : 0 <= 16711680 / valueLq lq') by (apply Z.div_pos; lia).
    etransitivity; [apply Z.div_le_mono; [lia|apply Z.mul_le_mono_nonneg_r; [lia|exact Hd]]|]. apply Z.div_le_compat_l; nia.
  - assert (E : lq_etxff_calc_linkcost lq = LINK_COST_BROKEN) by (apply ff_cost_broken; lia).
    split; [done|]. split; [by left|]. rewrite E. apply ff_cost_range, Ok'.
Qed.

Lemma ff_cost_correct_witness :
  lq_etxff_calc_linkcost (mkFf 100 200) = (if decide (FF_MINIMAL <= 100 /\ FF_MINIMAL <= 200) then 16711680 / 100 * 255 / 200 else LINK_COST_BROKEN) /\
  (lq_etxff_calc_linkcost (mkFf 100 200) = LINK_COST_BROKEN \/ 65536 <= lq_etxff_calc_linkcost (mkFf 100 200) <= 6818500) /\
  lq_etxff_calc_linkcost (mkFf 255 200) <= lq_etxff_calc_linkcost (mkFf 100 200).
Proof. apply (ff_cost_correct (mkFf 100 200) (mkFf 255 200)); unfold ff_ok, is_u; simpl; lia. Defined.

Definition ff_bytes (lq : lq_etxff_linkquality) : list Z := to_le 1 (valueLq lq) ++ to_le 1 (valueNlq lq) ++ to_le 2 (htons 0).

#[refine, global] Instance lq_etxff_handler : LqHandler := {|
  lq_data := lq_etxff_linkquality; lq_ok := ff_ok; lq_zero := mkFf 0 0; lq_size := 4;
  serialize_lq := lq_etxff_serialize; deserialize_lq := lq_etxff_deserialize; calc_cost := lq_etxff_calc_linkcost;
  messageid_hello := 201; messageid_tc := 202; lq_bytes := ff_bytes |}.
Proof.
  - intros d. by vm_compute.
  - intros d. unfold lq_etxff_serialize, ff_bytes.
    do 2 (apply (writes_then _ _ _ _ (fun _ => tt)); [apply writes_store|]). apply writes_store.
  - intros d d0 r [Ha Hb]. unfold lq_etxff_deserialize, ff_bytes. rewrite <- !app_assoc.
    erewrite bind_run by (by apply get_put_fields). erewrite bind_run by (by apply get_put_fields).
    unfold pkt_ignore_u16, pkt_ignore. erewrite bind2_run by (by apply pkt_bytes_run). by destruct d.
  - intros d0 r Hl. destruct r as [|b0 [|b1 [|b2 [|b3 r]]]]; simpl in Hl; try lia. eexists. reflexivity.
  - intros d0 r Hl. destruct r as [|b0 [|b1 [|b2 [|b3 r]]]]; simpl in Hl; try lia; reflexivity.
  - apply ff_cost_range.
Defined.

(** ** [lib/lq_rfc] *)
Definition lq_rfc_calc_cost (d : unit) : Z := 1.
Definition lq_rfc_serialize (d : unit) : WR unit := mret tt.
Definition lq_rfc_deserialize (d : unit) : RD unit := mret tt.

#[refine, local] Instance lq_rfc_handler : LqHandler := {|
  lq_data := unit; lq_ok := fun _ => True; lq_zero := tt; lq_size := 0;
  serialize_lq := lq_rfc_serialize; deserialize_lq := lq_rfc_deserialize; calc_cost := lq_rfc_calc_cost;
  messageid_hello := 1; messageid_tc := 2; lq_bytes := fun _ => [] |}.
Proof.
  - done.
  - intros d. apply writes_ret.
  - by intros [] d0 r.
  - intros d0 r _. by exists tt.
  - intros d0 r Hl. lia.
  - done.
Defined.
