(* ===== verification/LqEtxFf.v ===== *)
(** * The Freifunk link quality ([lib/lq_etx_ff])

    A link counts, for each of the last 64 seconds, the packets it received and,
    from the gaps in their sequence numbers, the packets that were sent. Once a
    second the quality of the link is computed from the two sums. *)
From S2P Require Import Prelude Types Packet Lsdb LqHandler.

Definition LQ_FF_WINDOW : Z := 64.
Definition LQ_FF_QUICKSTART_INIT : Z := 4.

(** The plugin's part of a link entry. *)
Record lq_etxff_link := mkFfLink {
  ff_lq : lq_etxff_linkquality;
  windowSize : Z;
  activePtr : Z;
  last_seq_nr : Z;
  missed_seconds : Z;
  received : list Z;
  total : list Z
}.

(** Arrays of 64 elements. *)
Definition arr_get (l : list Z) (i : Z) : option Z := if decide (0 <= i) then l !! Z.to_nat i else None.
Definition arr_set (i : Z) (v : Z) (l : list Z) : list Z := <[Z.to_nat i := v]> l.

(** On the memory of a new link, which is zero. *)
Definition lq_etxff_clear_link_entry (l : lq_etxff_link) : lq_etxff_link :=
  mkFfLink (ff_lq l) LQ_FF_QUICKSTART_INIT (activePtr l) (last_seq_nr l) (missed_seconds l) (received l) (replicate 64 3).

Definition ff_new_link : lq_etxff_link := lq_etxff_clear_link_entry (mkFfLink (mkFf 0 0) 0 0 0 0 (replicate 64 0) (replicate 64 0)).

(** [lq_etxff_packet_parser], for a packet that belongs to the link. *)
Definition ff_packet (pkt_seqno : Z) (l : lq_etxff_link) : option lq_etxff_link :=
  if last_seq_nr l =? pkt_seqno then Some l
  else
    let seq_diff := if last_seq_nr l >? pkt_seqno then u32 (pkt_seqno + 65536 - last_seq_nr l) else u32 (pkt_seqno - last_seq_nr l) in
    let seq_diff := if seq_diff >? 256 then 1 else seq_diff in
    rc ← arr_get (received l) (activePtr l);
    t ← arr_get (total l) (activePtr l);
    Some (mkFfLink (ff_lq l) (windowSize l) (activePtr l) pkt_seqno 0
      (arr_set (activePtr l) (u16 (rc + 1)) (received l)) (arr_set (activePtr l) (u16 (t + seq_diff)) (total l))).

(** The sums of the loop over the window. *)
Fixpoint window_sum (n : nat) (l : list Z) (acc : Z) : option Z :=
  match n, l with
  | O, _ => Some acc
  | S n, x :: l => window_sum n l (u16 (acc + x))
  | S _, [] => None
  end.

(** The quality of [received] packets of [total]; [period] is the period of the
    timer of lost HELLOs. A division by zero has no result. *)
Definition ff_quality (rec tot missed period multiplier : Z) : option Z :=
  if tot =? 0 then Some 0
  else
    let secs := (period + 999) / 1000 in
    if secs =? 0 then None
    else
      let missed_hello_cost := missed / secs in
      let tot := u16 (tot + u32 (missed_hello_cost * missed_hello_cost)) in
      if tot =? 0 then None
      else
        let ratio := u32 (multiplier * rec) in
        let ratio := ratio / tot in
        Some (u8 (Z.shiftr (u32 (ratio * 255)) 16)).

(** The body of [lq_etxff_timer] for a link, with its new cost. *)
Definition ff_second (period multiplier : Z) (l : lq_etxff_link) : option (lq_etxff_link * Z) :=
  let ws := if windowSize l <? LQ_FF_WINDOW then windowSize l + 1 else windowSize l in
  rec ← window_sum (Z.to_nat ws) (received l) 0;
  tot ← window_sum (Z.to_nat ws) (total l) 0;
  q ← ff_quality rec tot (missed_seconds l) period multiplier;
  let lq := mkFf q (valueNlq (ff_lq l)) in
  let ap := (activePtr l + 1) mod LQ_FF_WINDOW in
  Some (mkFfLink lq ws ap (last_seq_nr l) (u16 (missed_seconds l + 1)) (arr_set ap 0 (received l)) (arr_set ap 0 (total l)),
        lq_etxff_calc_linkcost lq).

(** [lq_etxff_memorize_foreign_hello] *)
Definition lq_etxff_memorize_foreign_hello (source : option lq_etxff_linkquality) (l : lq_etxff_link) : lq_etxff_link :=
  mkFfLink (mkFf (valueLq (ff_lq l)) (match source with Some s => valueLq s | None => 0 end)) (windowSize l) (activePtr l) (last_seq_nr l)
    (missed_seconds l) (received l) (total l).

(** ** The plugin's part of a link

    What the link set calls for its links; a handler may change the cost of the
    link when a HELLO arrives or is lost. *)
Class LqLinks `{LQ : LqHandler} := {
  lq_link : Type;
  (** [clear_link_entry] on new memory *)
  clear_link_entry : lq_link;
  hello_handler : bool -> lq_link * Z -> lq_link * Z;
  memorize_foreign_hello : option lq_data -> lq_link -> lq_link;
  (** what [serialize_hello_lq], [serialize_tc_lq] and [copy_link_entry_lq_into_tc_edge_entry] take of a link *)
  lq_of_link : lq_link -> lq_data
}.

Definition lq_etxff_hello_handler (lost : bool) (l : lq_etxff_link * Z) : lq_etxff_link * Z := l.

Definition lq_etxff_links : LqLinks := {|
  lq_link := lq_etxff_link;
  clear_link_entry := ff_new_link;
  hello_handler := lq_etxff_hello_handler;
  memorize_foreign_hello := lq_etxff_memorize_foreign_hello;
  lq_of_link := ff_lq |}.
#[global] Existing Instance lq_etxff_links.

(** ** The window *)
Definition sum (l : list Z) : Z := foldr Z.add 0 l.

Record ff_inv (l : lq_etxff_link) : Prop := {
  fi_window : 0 <= windowSize l <= 64;
  fi_active : 0 <= activePtr l < 64;
  fi_rec : length (received l) = 64%nat;
  fi_tot : length (total l) = 64%nat;
  fi_count : forall i r t, received l !! i = Some r -> total l !! i = Some t -> 0 <= r <= t /\ t <= 256 * r + 3;
  fi_seq : is_u 16 (last_seq_nr l);
  fi_missed : is_u 16 (missed_seconds l);
  fi_lq : ff_ok (ff_lq l)
}.

Lemma window_sum_run n : forall l acc, (n <= length l)%nat -> Forall (fun x => 0 <= x) l -> 0 <= acc -> acc + sum (take n l) < 2 ^ 16 ->
  window_sum n l acc = Some (acc + sum (take n l)).
Proof.
  induction n as [|n IH]; intros l acc Hn F Ha Hs; [simpl; f_equal; lia|].
  destruct l as [|x l]; [simpl in Hn; lia|]. apply Forall_cons in F as [Hx F]. simpl in *.
  assert (0 <= sum (take n l)).
  { clear -F. revert n. induction F as [|y l Hy _ IH]; intros [|n]; simpl; try lia. specialize (IH n). lia. }
  rewrite (wrapu_id 16 (acc + x)) by (unfold is_u; lia). rewrite IH by (done || lia). f_equal. lia.
Qed.

Lemma sum_le n : forall a b, (forall i x y, a !! i = Some x -> b !! i = Some y -> 0 <= x <= y) -> length a = length b ->
  0 <= sum (take n a) <= sum (take n b).
Proof.
  induction n as [|n IH]; intros [|x a] [|y b] H Hl; simpl in *; try lia.
  specialize (H 0%nat x y eq_refl eq_refl) as H0. specialize (IH a b (fun i => H (S i)) ltac:(lia)). lia.
Qed.

Lemma ff_second_run period mult l : ff_inv l -> 0 < period < 2 ^ 31 -> 0 <= mult <= 65536 ->
  let ws := Z.to_nat (Z.min (windowSize l + 1) 64) in
  let R := sum (take ws (received l)) in
  let T := sum (take ws (total l)) in
  let m := missed_seconds l / ((period + 999) / 1000) in
  T + m * m < 2 ^ 16 ->
  exists l', ff_second period mult l = Some (l', lq_etxff_calc_linkcost (ff_lq l')) /\ ff_inv l' /\
    valueLq (ff_lq l') = (if decide (T = 0) then 0 else (mult * R / (T + m * m) * 255) / 65536) /\ 0 <= R <= T /\
    (R = T -> 0 < T -> m = 0 -> valueLq (ff_lq l') = mult * 255 / 65536) /\
    activePtr l' = (activePtr l + 1) mod 64 /\ received l' !! Z.to_nat (activePtr l') = Some 0 /\ total l' !! Z.to_nat (activePtr l') = Some 0.
Proof.
  intros Inv Hp Hm ws R T m HT. pose proof Inv as [I1 I2 I3 I4 I5 I6 I7 I8].
  assert (HF : Forall (fun x => 0 <= x) (received l) /\ Forall (fun x => 0 <= x) (total l)).
  { split; apply Forall_lookup; intros i x Hx.
    - destruct (lookup_lt_is_Some_2 (total l) i) as [t Ht]; [rewrite I4, <- I3; by eapply lookup_lt_Some|]. destruct (I5 i x t Hx Ht). lia.
    - destruct (lookup_lt_is_Some_2 (received l) i) as [r Hr]; [rewrite I3, <- I4; by eapply lookup_lt_Some|]. destruct (I5 i r x Hr Hx). lia. }
  assert (HRT : 0 <= R <= T) by (apply sum_le; [|congruence]; intros i x y Hx Hy; destruct (I5 i x y Hx Hy); lia).
  assert (Hsecs : 0 < (period + 999) / 1000) by (apply Z.div_str_pos; lia).
  assert (H0m : 0 <= m) by (apply Z.div_pos; unfold is_u in *; lia).
  assert (Hws : (if windowSize l <? LQ_FF_WINDOW then windowSize l + 1 else windowSize l) = Z.min (windowSize l + 1) 64).
  { unfold LQ_FF_WINDOW. destruct (Z.ltb_spec (windowSize l) 64); lia. }
  assert (Hq : exists q, ff_quality R T (missed_seconds l) period mult = Some q /\ is_u 8 q /\
    q = (if decide (T = 0) then 0 else (mult * R / (T + m * m) * 255) / 65536)).
  { unfold ff_quality. fold m. destruct (Z.eqb_spec T 0) as [E|E]; [exists 0; rewrite decide_True by done; done|]. rewrite decide_False by done.
    destruct (Z.eqb_spec ((period + 999) / 1000) 0); [lia|].
    assert (0 <= m * m < 2 ^ 16) by nia. rewrite (wrapu_id 32 (m * m)) by (unfold is_u; lia).
    rewrite (wrapu_id 16 (T + m * m)) by (unfold is_u; lia). destruct (Z.eqb_spec (T + m * m) 0); [lia|].
    rewrite (wrapu_id 32 (mult * R)) by (unfold is_u; nia).
    assert (0 <= mult * R / (T + m * m) <= 65536).
    { split; [apply Z.div_pos; nia|]. apply Z.lt_succ_r, Z.div_lt_upper_bound; nia. }
    rewrite (wrapu_id 32 (_ * 255)) by (unfold is_u; lia). rewrite Z.shiftr_div_pow2 by lia. change (2 ^ 16) with 65536.
    assert (0 <= mult * R / (T + m * m) * 255 / 65536 < 256).
    { split; [apply Z.div_pos; lia|]. apply Z.div_lt_upper_bound; lia. }
    rewrite (wrapu_id 8) by (unfold is_u; lia). eexists. split; [done|]. split; [unfold is_u; lia|done]. }
  destruct Hq as (q & Eq & Hqr & Hqv). unfold ff_second. rewrite Hws. fold ws.
  rewrite window_sum_run by (lia || apply HF || (fold R; lia)). rewrite window_sum_run by (lia || apply HF || (fold T; lia)).
  fold R T. rewrite !Z.add_0_l. cbn [mbind option_bind]. rewrite Eq. cbn [mbind option_bind]. unfold LQ_FF_WINDOW.
  assert (Hap : 0 <= (activePtr l + 1) mod 64 < 64) by (apply Z.mod_pos_bound; lia).
  exists (mkFfLink (mkFf q (valueNlq (ff_lq l))) (Z.min (windowSize l + 1) 64) ((activePtr l + 1) mod 64) (last_seq_nr l) (u16 (missed_seconds l + 1))
    (arr_set ((activePtr l + 1) mod 64) 0 (received l)) (arr_set ((activePtr l + 1) mod 64) 0 (total l))).
  split; [reflexivity|]. split; [|split; [exact Hqv|split; [done|split; [|split; [done|]]]]].
  - split; simpl; unfold arr_set; rewrite ?length_insert; try done; [lia| | |].
    + intros i r t Hr Ht. destruct (decide (i = Z.to_nat ((activePtr l + 1) mod 64))) as [->|Hn].
      * rewrite list_lookup_insert_eq in Hr, Ht by lia. simplify_eq. lia.
      * rewrite list_lookup_insert_ne in Hr, Ht by done. by apply (I5 i).
    + apply wrapu_range. lia.
    + split; [done|]. apply I8.
  - intros E1 E2 E3. simpl. rewrite Hqv, decide_False by lia. rewrite E3, E1, Z.add_0_r, Z.div_mul by lia. done.
  - simpl. unfold arr_set. rewrite !list_lookup_insert_eq by lia. done.
Qed.

(** If the packets counted in the window, with the square of the missed HELLO
    intervals, fit into 16 bits, the calculation of a second divides by no zero
    and loses no bits: the new quality is the fraction of received packets,
    scaled by the configured multiplier to at most 255, the window advances to a
    second that has counted nothing, and the invariant of the window holds again. If all
    packets were received and none are missed, the quality is that of the multiplier. *)
Theorem ff_second_correct period mult l : ff_inv l -> 0 < period < 2 ^ 31 -> 0 <= mult <= 65536 ->
  let ws := Z.to_nat (Z.min (windowSize l + 1) 64) in
  let R := sum (take ws (received l)) in
  let T := sum (take ws (total l)) in
  let m := missed_seconds l / ((period + 999) / 1000) in
  T + m * m < 2 ^ 16 ->
  exists l', ff_second period mult l = Some (l', lq_etxff_calc_linkcost (ff_lq l')) /\ ff_inv l' /\
    valueLq (ff_lq l') = (if decide (T = 0) then 0 else (mult * R / (T + m * m) * 255) / 65536) /\ 0 <= R <= T /\
    (R = T -> 0 < T -> m = 0 -> valueLq (ff_lq l') = mult * 255 / 65536) /\
    activePtr l' = (activePtr l + 1) mod 64 /\ received l' !! Z.to_nat (activePtr l') = Some 0 /\ total l' !! Z.to_nat (activePtr l') = Some 0.
Proof. exact (ff_second_run period mult l). Qed.

(** A packet adds one to the received packets and the gap in the sequence
    numbers to the sent ones, in the current second. *)
Lemma ff_packet_run sq l : ff_inv l -> is_u 16 sq -> sq <> last_seq_nr l ->
  (forall r, received l !! Z.to_nat (activePtr l) = Some r -> r < 255) ->
  exists l' r t d, ff_packet sq l = Some l' /\ ff_inv l' /\ last_seq_nr l' = sq /\ missed_seconds l' = 0 /\
    received l !! Z.to_nat (activePtr l) = Some r /\ total l !! Z.to_nat (activePtr l) = Some t /\
    1 <= d <= 256 /\ (d = (sq - last_seq_nr l) mod 65536 \/ d = 1) /\
    received l' = <[Z.to_nat (activePtr l) := r + 1]> (received l) /\ total l' = <[Z.to_nat (activePtr l) := t + d]> (total l).
Proof.
  intros Inv Hsq Hne Hrate. pose proof Inv as [I1 I2 I3 I4 I5 I6 I7 I8]. unfold is_u in Hsq, I6.
  destruct (lookup_lt_is_Some_2 (received l) (Z.to_nat (activePtr l))) as [r Hr]; [lia|].
  destruct (lookup_lt_is_Some_2 (total l) (Z.to_nat (activePtr l))) as [t Ht]; [lia|].
  specialize (Hrate r Hr). destruct (I5 _ r t Hr Ht) as [Hrt Htr].
  set (d0 := if last_seq_nr l >? sq then u32 (sq + 65536 - last_seq_nr l) else u32 (sq - last_seq_nr l)).
  assert (Hd0 : d0 = (sq - last_seq_nr l) mod 65536 /\ 1 <= d0).
  { unfold d0. rewrite Z.gtb_ltb. unfold wrapu. change (2 ^ 32) with 4294967296. change (2 ^ 16) with 65536 in *.
    destruct (Z.ltb_spec sq (last_seq_nr l)); mlia. }
  set (d := if d0 >? 256 then 1 else d0). assert (Hd : 1 <= d <= 256 /\ (d = (sq - last_seq_nr l) mod 65536 \/ d = 1)).
  { unfold d. rewrite Z.gtb_ltb. destruct (Z.ltb_spec 256 d0); [split; [lia|by right]|split; [lia|left; lia]]. }
  unfold ff_packet. destruct (Z.eqb_spec (last_seq_nr l) sq); [congruence|]. fold d0. fold d.
  assert (Ha : forall v x, v !! Z.to_nat (activePtr l) = Some x -> arr_get v (activePtr l) = Some x) by (intros v x Hx; unfold arr_get; by rewrite decide_True by lia).
  rewrite (Ha _ _ Hr), (Ha _ _ Ht). simpl.
  rewrite !wrapu_id by (unfold is_u; lia). eexists _, r, t, d. split; [done|]. split; [|destruct Hd as [Hd1 Hd2]; split_and!; (done || lia)].
  split; simpl; unfold arr_set; rewrite ?length_insert; try done.
  intros i r' t' Hr' Ht'. destruct (decide (i = Z.to_nat (activePtr l))) as [->|Hn].
  - rewrite list_lookup_insert_eq in Hr', Ht' by lia. simplify_eq. lia.
  - rewrite list_lookup_insert_ne in Hr', Ht' by done. by apply (I5 i).
Qed.

Lemma ff_memorize_inv o l : ff_inv l -> (forall q, o = Some q -> ff_ok q) -> ff_inv (lq_etxff_memorize_foreign_hello o l).
Proof. intros [F1 F2 F3 F4 F5 F6 F7 [F8 F9]] H. split; try done. split; [exact F8|]. destruct o as [q|]; [apply (H q eq_refl)|by vm_compute]. Qed.

Lemma ff_new_inv : ff_inv ff_new_link.
Proof.
  split; try (done || by vm_compute). intros i r t.
  change (replicate 64 0 !! i = Some r -> replicate 64 3 !! i = Some t -> 0 <= r <= t /\ t <= 256 * r + 3).
  intros [-> _]%lookup_replicate [-> _]%lookup_replicate. lia.
Qed.

(** ** A link on which every second packet is lost *)
Definition ff_demo : lq_etxff_link := default ff_new_link (l ← ff_packet 2 ff_new_link; ff_packet 4 l).

Lemma ff_demo_inv : ff_inv ff_demo.
Proof.
  destruct (ff_packet_run 2 ff_new_link ff_new_inv) as (l1 & r & t & d & E1 & I1 & S1 & _ & Hr & _ & _ & _ & R1 & _); [done|done|intros r [= <-]; lia|].
  assert (A1 : activePtr l1 = 0) by (vm_compute in E1; by injection E1 as <-).
  destruct (ff_packet_run 4 l1 I1) as (l2 & _ & _ & _ & E2 & I2 & _); [done|by rewrite S1| |].
  { intros x. rewrite A1, R1. vm_compute in Hr. injection Hr as <-. vm_compute. intros [= <-]. done. }
  unfold ff_demo. rewrite E1. simpl. by rewrite E2.
Qed.

Lemma ff_second_correct_witness : exists l',
  ff_second 2000 65536 ff_demo = Some (l', lq_etxff_calc_linkcost (ff_lq l')) /\ ff_inv l' /\
  valueLq (ff_lq l') = (if decide (sum (take 5 (total ff_demo)) = 0) then 0 else
    (65536 * sum (take 5 (received ff_demo)) / (sum (take 5 (total ff_demo)) + 0 * 0) * 255) / 65536) /\
  0 <= sum (take 5 (received ff_demo)) <= sum (take 5 (total ff_demo)) /\
  (sum (take 5 (received ff_demo)) = sum (take 5 (total ff_demo)) -> 0 < sum (take 5 (total ff_demo)) -> 0 = 0 -> valueLq (ff_lq l') = 65536 * 255 / 65536) /\
  activePtr l' = (activePtr ff_demo + 1) mod 64 /\ received l' !! Z.to_nat (activePtr l') = Some 0 /\ total l' !! Z.to_nat (activePtr l') = Some 0.
Proof. apply (ff_second_correct 2000 65536 ff_demo ff_demo_inv); [done|done|by vm_compute]. Defined.
