(* ===== verification/Neighborhood.v ===== *)
(** * The neighbourhood ([neighbor_table.h], [mid_set.h], [link_set.h])

    The data of the neighbour tables, the alias set and the link set, and the
    lookups in them. Trees and lists are the sequences of their entries. *)
From S2P Require Import Prelude AvlSpec Trees Types Comparators Lsdb.

(** ** Data *)
Record nbr_con := mkCon {
  con_nbr : loc;
  con_nbr2 : loc;
  nbr2_con_timer : option loc;
  second_hop_linkcost : Z;
  path_linkcost : Z
}.

Record nbr_entry := mkNbr {
  nbr_addr : ip_addr;
  nbr_tc_edge : option loc;
  willingness : Z;
  is_sym : bool;
  is_mpr : bool;
  was_mpr : bool;
  skip : bool;
  mprs_count : Z;
  linkcount : Z;
  nbr_con_tree : list (loc * ip_addr)
}.

Record nbr2_entry := mkNbr2 {
  nbr2_addr : ip_addr;
  nbr2_con_tree : list (loc * ip_addr)
}.

Record mid_entry := mkMid {
  mid_alias_addr : ip_addr;
  mid_tc : loc;
  mid_timer : option loc
}.

Record link_entry := mkLink {
  local_iface_addr : ip_addr;
  neighbor_iface_addr : ip_addr;
  inter : loc;
  link_timer : option loc;
  link_sym_timer : option loc;
  ASYM_time : Z;
  link_vtime : Z;
  link_neighbor : loc;
  link_status : Z;
  link_is_mpr : bool;
  link_is_mprs : bool;
  iflocal_link_status : Z;
  iflocal_neigh_status : Z;
  loss_helloint : Z;
  link_loss_timer : option loc;
  linkcost : Z
}.

Record neighborhood := mkNbh {
  nbr_tree : list (loc * ip_addr);
  nbrs : gmap loc nbr_entry;
  nbr2_tree : list (loc * ip_addr);
  nbr2s : gmap loc nbr2_entry;
  nbr_cons : gmap loc nbr_con;
  link_entry_head : list loc;
  links : gmap loc link_entry;
  mid_tree : list (loc * ip_addr);
  mids : gmap loc mid_entry;
  nh_lsdb : lsdb
}.

(** [enum olsr_link_status], [enum olsr_neigh_status] *)
Definition UNSPEC_LINK : Z := 0.
Definition ASYM_LINK : Z := 1.
Definition SYM_LINK : Z := 2.
Definition LOST_LINK : Z := 3.
Definition COUNT_LINK_TYPES : Z := 4.
Definition NOT_NEIGH : Z := 0.
Definition SYM_NEIGH : Z := 1.
Definition MPR_NEIGH : Z := 2.
Definition COUNT_NEIGH_TYPES : Z := 3.
Definition WILL_NEVER : Z := 0.
Definition WILL_ALWAYS : Z := 7.

(** ** Memory *)
Abbreviation NM := (SE neighborhood).

Definition with_nbrs (N : gmap loc nbr_entry) (w : neighborhood) : neighborhood :=
  mkNbh (nbr_tree w) N (nbr2_tree w) (nbr2s w) (nbr_cons w) (link_entry_head w) (links w) (mid_tree w) (mids w) (nh_lsdb w).
Definition with_links (L : gmap loc link_entry) (w : neighborhood) : neighborhood :=
  mkNbh (nbr_tree w) (nbrs w) (nbr2_tree w) (nbr2s w) (nbr_cons w) (link_entry_head w) L (mid_tree w) (mids w) (nh_lsdb w).

Definition rd_nbr (p : loc) : NM nbr_entry := fun w => (fun n => (w, n)) <$> nbrs w !! p.
Definition wr_nbr (p : loc) (g : nbr_entry -> nbr_entry) : NM unit := fun w =>
  (fun n => (with_nbrs (<[p := g n]> (nbrs w)) w, tt)) <$> nbrs w !! p.
Definition rd_nbr2 (p : loc) : NM nbr2_entry := fun w => (fun n => (w, n)) <$> nbr2s w !! p.
Definition rd_con (p : loc) : NM nbr_con := fun w => (fun c => (w, c)) <$> nbr_cons w !! p.
Definition rd_link (p : loc) : NM link_entry := fun w => (fun l => (w, l)) <$> links w !! p.
Definition wr_link (p : loc) (g : link_entry -> link_entry) : NM unit := fun w =>
  (fun l => (with_links (<[p := g l]> (links w)) w, tt)) <$> links w !! p.

Definition set_is_mpr (b : bool) (n : nbr_entry) : nbr_entry :=
  mkNbr (nbr_addr n) (nbr_tc_edge n) (willingness n) (is_sym n) b (was_mpr n) (skip n) (mprs_count n) (linkcount n) (nbr_con_tree n).
Definition set_was_mpr (b : bool) (n : nbr_entry) : nbr_entry :=
  mkNbr (nbr_addr n) (nbr_tc_edge n) (willingness n) (is_sym n) (is_mpr n) b (skip n) (mprs_count n) (linkcount n) (nbr_con_tree n).
Definition set_skip (b : bool) (n : nbr_entry) : nbr_entry :=
  mkNbr (nbr_addr n) (nbr_tc_edge n) (willingness n) (is_sym n) (is_mpr n) (was_mpr n) b (mprs_count n) (linkcount n) (nbr_con_tree n).
Definition set_link_is_mpr (b : bool) (l : link_entry) : link_entry :=
  mkLink (local_iface_addr l) (neighbor_iface_addr l) (inter l) (link_timer l) (link_sym_timer l) (ASYM_time l) (link_vtime l)
    (link_neighbor l) (link_status l) b (link_is_mprs l) (iflocal_link_status l) (iflocal_neigh_status l) (loss_helloint l)
    (link_loss_timer l) (linkcost l).

Definition set_iflocal (ls ns : Z) (l : link_entry) : link_entry :=
  mkLink (local_iface_addr l) (neighbor_iface_addr l) (inter l) (link_timer l) (link_sym_timer l) (ASYM_time l) (link_vtime l)
    (link_neighbor l) (link_status l) (link_is_mpr l) (link_is_mprs l) ls ns (loss_helloint l) (link_loss_timer l) (linkcost l).

Section lookups.
Context (ip_version : Z).

Definition olsr_lookup_mid_entry (adr : ip_addr) (w : neighborhood) : option loc :=
  tree_find (avl_comp_default ip_version) adr (mid_tree w).

(** The result is the address stored in the tc entry; [None] inside is a null
    pointer, [None] outside a dangling one. *)
Definition olsr_lookup_main_addr_by_alias (adr : ip_addr) (w : neighborhood) : option (option ip_addr) :=
  match olsr_lookup_mid_entry adr w with
  | None => Some None
  | Some m => e ← mids w !! m; t ← tcs (nh_lsdb w) !! mid_tc e; Some (Some (tc_addr t))
  end.

(** The main address is looked up, but the tree is searched for [addr]. *)
Definition olsr_lookup_nbr_entry (addr : ip_addr) (lookupalias : bool) (w : neighborhood) : option (option loc) :=
  main_addr ← (if lookupalias then olsr_lookup_main_addr_by_alias addr w else Some None);
  let main_addr := default addr main_addr in
  Some (tree_find (avl_comp_default ip_version) addr (nbr_tree w)).

Record neighborhood_ok (w : neighborhood) : Prop := {
  h_nbrs : forall p k, (p, k) ∈ nbr_tree w -> exists n, nbrs w !! p = Some n /\ nbr_addr n = k;
  h_mids : forall p k, (p, k) ∈ mid_tree w -> exists m, mids w !! p = Some m /\ mid_alias_addr m = k /\
    is_Some (tcs (nh_lsdb w) !! mid_tc m)
}.

Lemma lookup_main_ok adr w : neighborhood_ok w -> is_Some (olsr_lookup_main_addr_by_alias adr w).
Proof.
  intros [_ H]. unfold olsr_lookup_main_addr_by_alias, olsr_lookup_mid_entry.
  destruct (tree_find _ _ _) as [m|] eqn:E; [|eauto]. apply tree_find_Some in E as (k & Hin & _).
  destruct (H m k Hin) as (e & -> & _ & [t Ht]). simpl. rewrite Ht. simpl. eauto.
Qed.

Lemma lookup_nbr_ok addr b w : neighborhood_ok w ->
  olsr_lookup_nbr_entry addr b w = Some (tree_find (avl_comp_default ip_version) addr (nbr_tree w)).
Proof.
  intros H. unfold olsr_lookup_nbr_entry. destruct b; [|done]. by destruct (lookup_main_ok addr w H) as [x ->].
Qed.
End lookups.
