(* ===== verification/LinkSet.v ===== *)
(** * Lookups in the link set ([link_set.c]) *)
From S2P Require Import Prelude AvlSpec Trees Types Comparators Clock Lsdb Neighborhood.

Section link_set.
(** [now_times] of the clock. *)
Context (ip_version now : Z).

Definition lookup_link_status (entry : option loc) : NM Z :=
  head ← se_get link_entry_head;
  match entry, head with
  | None, _ | _, [] => mret UNSPEC_LINK
  | Some p, _ :: _ =>
    l ← rd_link p;
    if bool_decide (is_Some (link_sym_timer l)) then mret SYM_LINK
    else if negb (olsr_clock_isPast now (ASYM_time l)) then mret ASYM_LINK
    else mret LOST_LINK
  end.

(** The loop of [get_best_link_to_neighbor]. *)
Fixpoint best_link (nbr : option loc) (ls : list loc) (curr_lcost : Z) (good_link : option loc) : NM (option loc) :=
  match ls with
  | [] => mret good_link
  | walker :: ls =>
    l ← rd_link walker;
    if bool_decide (Some (link_neighbor l) <> nbr) then best_link nbr ls curr_lcost good_link
    else
      st ← lookup_link_status (Some walker);
      if negb (st =? SYM_LINK) then best_link nbr ls curr_lcost good_link
      else if linkcost l <? curr_lcost then best_link nbr ls (linkcost l) (Some walker)
      else best_link nbr ls curr_lcost good_link
  end.

Definition get_best_link_to_neighbor (nbr : option loc) : NM (option loc) :=
  ls ← se_get link_entry_head;
  best_link nbr ls LINK_COST_BROKEN None.

Definition get_best_link_to_neighbor_ip (remote : ip_addr) : NM (option loc) :=
  nbr ← (fun w => (fun r => (w, r)) <$> olsr_lookup_nbr_entry ip_version remote true w);
  get_best_link_to_neighbor nbr.

Fixpoint check_links (int_addr : ip_addr) (ls : list loc) : NM Z :=
  match ls with
  | [] => mret UNSPEC_LINK
  | p :: ls =>
    l ← rd_link p;
    if ipcmp ip_version int_addr (neighbor_iface_addr l) =? 0 then lookup_link_status (Some p)
    else check_links int_addr ls
  end.

Definition check_neighbor_link (int_addr : ip_addr) : NM Z :=
  ls ← se_get link_entry_head;
  check_links int_addr ls.

(** ** What they return *)
Definition links_ok (w : neighborhood) : Prop := forall p, p ∈ link_entry_head w -> is_Some (links w !! p).

(** A link over which the neighbour hears us and we hear it. *)
Definition sym_link (w : neighborhood) (nbr : loc) (p : loc) (l : link_entry) : Prop :=
  p ∈ link_entry_head w /\ links w !! p = Some l /\ link_neighbor l = nbr /\ link_sym_timer l <> None.

Lemma rd_link_run w p l : links w !! p = Some l -> rd_link p w = Some (w, l).
Proof. intros H. unfold rd_link. by rewrite H. Qed.

Lemma link_status_run w p l : p ∈ link_entry_head w -> links w !! p = Some l ->
  exists st, lookup_link_status (Some p) w = Some (w, st) /\ (st = SYM_LINK <-> link_sym_timer l <> None).
Proof.
  intros Hin Hl. unfold lookup_link_status. erewrite bind_run by reflexivity.
  destruct (link_entry_head w); [set_solver|]. erewrite bind_run by (by apply rd_link_run).
  destruct (link_sym_timer l); simpl; [by eexists|]. destruct (negb _); by eexists.
Qed.

(** The best link is a cheapest one of the symmetric links to the neighbour. *)
Definition best_link_of (w : neighborhood) (nbr : loc) (r : option loc) : Prop :=
  match r with
  | Some p => exists l, sym_link w nbr p l /\ linkcost l < LINK_COST_BROKEN /\
      forall q l', sym_link w nbr q l' -> linkcost l <= linkcost l'
  | None => forall q l', sym_link w nbr q l' -> LINK_COST_BROKEN <= linkcost l'
  end.

Lemma best_link_run w nbr ls : links_ok w -> forall done_ curr good,
  link_entry_head w = done_ ++ ls -> curr <= LINK_COST_BROKEN ->
  (match good with
   | Some p => exists l, sym_link w nbr p l /\ linkcost l = curr /\ curr < LINK_COST_BROKEN
   | None => curr = LINK_COST_BROKEN
   end) ->
  (forall q l', q ∈ done_ -> sym_link w nbr q l' -> curr <= linkcost l') ->
  exists r, best_link (Some nbr) ls curr good w = Some (w, r) /\ best_link_of w nbr r.
Proof.
  intros Ok. induction ls as [|p ls IH]; intros done_ curr good E Hc Hg Hd.
  - exists good. split; [done|]. rewrite app_nil_r in E. destruct good as [p|]; simpl.
    + destruct Hg as (l & Hl & <- & Hb). exists l. split_and!; [done..|]. intros q l' H. apply (Hd q); [rewrite <- E; by destruct H|done].
    + subst curr. intros q l' H. apply (Hd q); [rewrite <- E; by destruct H|done].
  - assert (Hin : p ∈ link_entry_head w) by (rewrite E; set_solver). destruct (Ok p Hin) as [l Hl].
    assert (E' : link_entry_head w = (done_ ++ [p]) ++ ls) by (by rewrite E, <- app_assoc).
    assert (Hskip : (sym_link w nbr p l -> curr <= linkcost l) ->
      exists r, best_link (Some nbr) ls curr good w = Some (w, r) /\ best_link_of w nbr r).
    { intros Hp. apply (IH (done_ ++ [p]) curr good); try done.
      intros q l' [Hq| ->%list_elem_of_singleton]%elem_of_app Hs; [by apply (Hd q)|].
      pose proof Hs as (_ & ? & _). simplify_eq. by apply Hp. }
    cbn [best_link]. erewrite bind_run by (by apply rd_link_run). case_bool_decide as Hn.
    { apply Hskip. intros (_ & _ & <- & _). by destruct Hn. }
    destruct (link_status_run w p l Hin Hl) as (st & R & Hst). erewrite bind_run by exact R.
    destruct (Z.eqb_spec st SYM_LINK) as [Es|Es]; simpl.
    2: { apply Hskip. intros (_ & _ & _ & H). tauto. }
    assert (Hs : sym_link w nbr p l).
    { split_and!; [done|done|by simplify_eq|by apply Hst]. }
    destruct (Z.ltb_spec (linkcost l) curr) as [Hlt|Hge]; [|by apply Hskip].
    apply (IH (done_ ++ [p]) (linkcost l) (Some p)); try done; [lia|exists l; split_and!; [done|done|lia]|].
    intros q l' [Hq| ->%list_elem_of_singleton]%elem_of_app Hs'; [specialize (Hd q l' Hq Hs'); lia|].
    destruct Hs' as (_ & ? & _). simplify_eq. done.
Qed.

Lemma get_best_link_run w nbr : links_ok w ->
  exists r, get_best_link_to_neighbor (Some nbr) w = Some (w, r) /\ best_link_of w nbr r.
Proof.
  intros Ok. unfold get_best_link_to_neighbor. erewrite bind_run by reflexivity.
  apply (best_link_run w nbr _ Ok []); [done|done|done|]. intros q l' []%elem_of_nil.
Qed.

(** A link whose remote interface has the address decides. *)
Lemma check_neighbor_run w a : links_ok w -> exists st, check_neighbor_link a w = Some (w, st).
Proof.
  intros Ok. unfold check_neighbor_link. erewrite bind_run by reflexivity.
  assert (H : forall ls, (forall p, p ∈ ls -> p ∈ link_entry_head w) -> exists st, check_links a ls w = Some (w, st)).
  { induction ls as [|p ls IH]; intros Hin; [by eexists|]. destruct (Ok p (Hin p ltac:(left))) as [l Hl]. cbn [check_links].
    erewrite bind_run by (by apply rd_link_run). case_match; [|apply IH; intros q Hq; apply Hin; by right].
    destruct (link_status_run w p l (Hin p ltac:(left)) Hl) as (st & R & _). eauto. }
  by apply H.
Qed.
End link_set.
