(* ===== verification/TcGraph.v ===== *)
(** * The shape of the link state database

    What [tc_set.c] keeps of nodes and edges, without costs, timers and routes:
    which nodes and edges are in which tree, and which edge is the inverse of
    which. This file states the invariant of the shape and that the three
    changes of it, a new node, a new pair of edges and the removal of a pair,
    keep it. *)
From S2P Require Import Prelude AvlSpec AvlOps Trees Types Comparators Lsdb.

(** A node is its address and its tree of edges; an edge its destination, its
    inverse and the node it belongs to. *)
Record graph := mkGraph {
  g_tree : list (loc * ip_addr);
  g_nodes : gmap loc (ip_addr * list (loc * ip_addr));
  g_links : gmap loc (ip_addr * option loc * loc)
}.

Definition tc_core (t : tc_entry) : ip_addr * list (loc * ip_addr) := (tc_addr t, edge_tree t).
Definition edge_core (e : tc_edge_entry) : ip_addr * option loc * loc := (T_dest_addr e, edge_inv e, edge_tc e).
Definition shape (d : lsdb) : graph := mkGraph (tc_tree d) (tc_core <$> tcs d) (edge_core <$> edges d).

Section graph.
Context (comp : ip_addr -> ip_addr -> Z) {HC : AvlComp comp}.

Record graph_wf (g : graph) : Prop := {
  w_tree : tree_wf comp (g_tree g);
  w_in : forall p k, (p, k) ∈ g_tree g <-> exists L, g_nodes g !! p = Some (k, L);
  w_etree : forall u a L, g_nodes g !! u = Some (a, L) -> tree_wf comp L;
  w_ein : forall u a L p k, g_nodes g !! u = Some (a, L) -> (p, k) ∈ L <-> exists i, g_links g !! p = Some (k, i, u);
  w_owner : forall p k i u, g_links g !! p = Some (k, i, u) -> is_Some (g_nodes g !! u);
  (** every edge has an inverse, which is an edge of the node it leads to *)
  w_inv : forall p k i u, g_links g !! p = Some (k, i, u) -> exists q k' v a L,
    i = Some q /\ g_links g !! q = Some (k', Some p, v) /\ v <> u /\ g_nodes g !! v = Some (a, L) /\ comp k a = 0
}.

Lemma tree_insert_dups k p (L : list (loc * ip_addr)) : tree_find comp k L = None -> tree_insert comp true k p L = tree_insert comp false k p L.
Proof.
  intros H. unfold tree_insert, spec_insert. replace (negb false && bool_decide _) with false; [done|].
  symmetry. apply andb_false_iff. right. apply bool_decide_eq_false. intros ([q k'] & Hq & E)%Exists_exists.
  by apply (proj1 (tree_find_None comp L k) H q k').
Qed.

Lemma node_unique g u v a b L L' : graph_wf g -> g_nodes g !! u = Some (a, L) -> g_nodes g !! v = Some (b, L') -> comp a b = 0 -> u = v.
Proof.
  intros W Hu Hv E. eapply (tree_unique comp (g_tree g) u v a b (w_tree _ W)); [apply (w_in _ W); eauto..|done].
Qed.

Lemma node_find g u a L k : graph_wf g -> g_nodes g !! u = Some (a, L) -> comp k a = 0 -> tree_find comp k (g_tree g) = Some u.
Proof. intros W Hu E. eapply (tree_find_in comp); [apply W|apply (w_in _ W); eauto|done]. Qed.

(** ** A new node *)
Definition add_node (p : loc) (a : ip_addr) (g : graph) : graph :=
  mkGraph (tree_insert comp false a p (g_tree g)) (<[p := (a, [])]> (g_nodes g)) (g_links g).

Lemma add_node_wf g p a : graph_wf g -> g_nodes g !! p = None -> tree_find comp a (g_tree g) = None -> graph_wf (add_node p a g).
Proof.
  intros W Hp Ha. pose proof W as [W1 W2 W3 W4 W5 W6].
  assert (Hpt : p ∉ (g_tree g).*1) by (intros ([q k] & E & Hin)%list_elem_of_fmap; simpl in E; subst q; apply W2 in Hin as [? ?]; congruence).
  split; simpl.
  - by apply tree_wf_insert.
  - intros q k. rewrite (elem_of_tree_insert comp _ false a p _ (or_intror Ha)), W2. split.
    + intros [[= -> ->]|[L HL]]; [exists []; by rewrite lookup_insert_eq|]. exists L. by rewrite lookup_insert_ne by congruence.
    + intros [L HL]. apply lookup_insert_Some in HL as [[<- [= <- <-]]|[_ HL]]; [by left|right; eauto].
  - intros u b L HL. apply lookup_insert_Some in HL as [[<- [= <- <-]]|[_ HL]]; [apply tree_wf_nil|by eapply W3].
  - intros u b L q k HL. apply lookup_insert_Some in HL as [[<- [= <- <-]]|[_ HL]]; [|by eapply W4].
    split; [by intros []%elem_of_nil|]. intros [i Hi]. apply W5 in Hi as [? ?]. congruence.
  - intros q k i u Hq. destruct (decide (p = u)) as [->|]; [by rewrite lookup_insert_eq|rewrite lookup_insert_ne by done; by eapply W5].
  - intros q k i u Hq. destruct (W6 q k i u Hq) as (x & k' & v & b & L & H1 & H2 & H3 & H4 & H5). exists x, k', v, b, L.
    split_and!; try done. by rewrite lookup_insert_ne by congruence.
Qed.

(** ** A new pair of edges *)
Definition add_pair (u n p q : loc) (addr au an : ip_addr) (Lu Ln : list (loc * ip_addr)) (g : graph) : graph :=
  mkGraph (g_tree g)
    (<[n := (an, tree_insert comp true au q Ln)]> (<[u := (au, tree_insert comp true addr p Lu)]> (g_nodes g)))
    (<[q := (au, Some p, n)]> (<[p := (addr, Some q, u)]> (g_links g))).

(** The node that an edge would lead to has no edge back as long as the edge is
    not there. *)
Lemma no_inverse g u n addr au an Lu Ln : graph_wf g ->
  g_nodes g !! u = Some (au, Lu) -> g_nodes g !! n = Some (an, Ln) -> comp addr an = 0 -> tree_find comp addr Lu = None ->
  tree_find comp au Ln = None.
Proof.
  intros W Hu Hn Ea Hf. apply tree_find_None. intros x k' Hx E.
  apply (w_ein _ W n an Ln) in Hx as [i Hi]; [|done].
  destruct (w_inv _ W _ _ _ _ Hi) as (y & k'' & v & av & Lv & -> & Hy & Hvn & Hv & Ev).
  assert (v = u) as ->. { symmetry. eapply (node_unique g u v au av); [done..|]. by eapply (comp_eq_trans comp). }
  destruct (w_inv _ W _ _ _ _ Hy) as (x' & k3 & n' & an' & Ln' & [= <-] & Hx' & _ & Hn' & En). simplify_eq.
  apply (proj1 (tree_find_None comp Lu addr) Hf y k''); [apply (w_ein _ W u au Lu); eauto|].
  eapply (comp_eq_trans comp); [exact Ea|by apply comp_eq_sym].
Qed.

Lemma in_links g u a L p k : graph_wf g -> g_nodes g !! u = Some (a, L) -> g_links g !! p = None -> (p, k) ∉ L.
Proof. intros W Hu Hp Hin. apply (w_ein _ W u a L) in Hin as [i Hi]; [congruence|done]. Qed.

Lemma not_in_tree g u a L p : graph_wf g -> g_nodes g !! u = Some (a, L) -> g_links g !! p = None -> p ∉ L.*1.
Proof. intros W Hu Hp ([q k] & E & Hin)%list_elem_of_fmap. simpl in E. subst q. by eapply in_links. Qed.

Lemma add_pair_wf g u n p q addr au an Lu Ln : graph_wf g -> u <> n -> p <> q ->
  g_nodes g !! u = Some (au, Lu) -> g_nodes g !! n = Some (an, Ln) -> g_links g !! p = None -> g_links g !! q = None ->
  comp addr an = 0 -> tree_find comp addr Lu = None -> graph_wf (add_pair u n p q addr au an Lu Ln g).
Proof.
  intros W Hun Hpq Hu Hn Hp Hq Ea Hf. pose proof (no_inverse g u n addr au an Lu Ln W Hu Hn Ea Hf) as Hf'.
  pose proof W as [W1 W2 W3 W4 W5 W6].
  assert (Eu : forall e, e ∈ tree_insert comp true addr p Lu <-> e = (p, addr) \/ e ∈ Lu) by (intros e; apply elem_of_tree_insert; [apply HC|by left]).
  assert (En : forall e, e ∈ tree_insert comp true au q Ln <-> e = (q, au) \/ e ∈ Ln) by (intros e; apply elem_of_tree_insert; [apply HC|by left]).
  assert (HN : forall w a L, g_nodes (add_pair u n p q addr au an Lu Ln g) !! w = Some (a, L) <->
    (w = n /\ a = an /\ L = tree_insert comp true au q Ln) \/ (w = u /\ a = au /\ L = tree_insert comp true addr p Lu) \/
    (w <> n /\ w <> u /\ g_nodes g !! w = Some (a, L))).
  { intros w a L. simpl. rewrite !lookup_insert_Some. split; [intros [[<- [= <- <-]]|[? [[<- [= <- <-]]|[? ?]]]]; auto|].
    intros [(-> & -> & ->)|[(-> & -> & ->)|(? & ? & ?)]]; auto. }
  assert (HL : forall x k i w, g_links (add_pair u n p q addr au an Lu Ln g) !! x = Some (k, i, w) <->
    (x = q /\ k = au /\ i = Some p /\ w = n) \/ (x = p /\ k = addr /\ i = Some q /\ w = u) \/ (x <> p /\ x <> q /\ g_links g !! x = Some (k, i, w))).
  { intros x k i w. simpl. rewrite !lookup_insert_Some. split; [intros [[<- [= <- <- <-]]|[? [[<- [= <- <- <-]]|[? ?]]]]; auto 6|].
    intros [(-> & -> & -> & ->)|[(-> & -> & -> & ->)|(? & ? & ?)]]; auto. }
  split.
  - done.
  - intros x k. simpl g_tree. rewrite W2. split.
    + intros [L HLx]. destruct (decide (x = n)) as [->|]; [eexists; apply HN; left; naive_solver|].
      destruct (decide (x = u)) as [->|]; [eexists; apply HN; right; left; naive_solver|]. exists L. apply HN. auto.
    + intros [L [(-> & -> & _)|[(-> & -> & _)|(_ & _ & H)]]%HN]; eauto.
  - intros w a L [(-> & -> & ->)|[(-> & -> & ->)|(_ & _ & H)]]%HN; [| |by eapply W3].
    + rewrite tree_insert_dups by done. apply tree_wf_insert; [apply HC|by eapply W3|by eapply not_in_tree|done].
    + rewrite tree_insert_dups by done. apply tree_wf_insert; [apply HC|by eapply W3|by eapply not_in_tree|done].
  - intros w a L x k Hw. apply HN in Hw as [(-> & -> & ->)|[(-> & -> & ->)|(Hwn & Hwu & Hw)]].
    + rewrite En, (W4 n an Ln x k Hn). split.
      * intros [[= -> ->]|[i Hi]]; [exists (Some p); apply HL; naive_solver|]. exists i. apply HL. right. right. split_and!; [congruence..|done].
      * intros [i [(-> & -> & _)|[(_ & _ & _ & ?)|(? & ? & H)]]%HL]; [by left|congruence|right; eauto].
    + rewrite Eu, (W4 u au Lu x k Hu). split.
      * intros [[= -> ->]|[i Hi]]; [exists (Some q); apply HL; naive_solver|]. exists i. apply HL. right. right. split_and!; [congruence..|done].
      * intros [i [(_ & _ & _ & ?)|[(-> & -> & _)|(? & ? & H)]]%HL]; [congruence|by left|right; eauto].
    + rewrite (W4 w a L x k Hw). split.
      * intros [i Hi]. exists i. apply HL. right. right. split_and!; [congruence..|done].
      * intros [i [(_ & _ & _ & ?)|[(_ & _ & _ & ?)|(? & ? & H)]]%HL]; [congruence..|eauto].
  - intros x k i w Hx. assert (is_Some (g_nodes g !! w)) as [[a L] Hw].
    { apply HL in Hx as [(_ & _ & _ & ->)|[(_ & _ & _ & ->)|(_ & _ & H)]]; [by rewrite Hn|by rewrite Hu|by eapply W5]. }
    destruct (decide (w = n)) as [->|]; [eexists; apply HN; left; naive_solver|].
    destruct (decide (w = u)) as [->|]; [eexists; apply HN; right; left; naive_solver|]. eexists. apply HN. eauto.
  - intros x k i w Hx. apply HL in Hx as [(-> & -> & -> & ->)|[(-> & -> & -> & ->)|(Hxp & Hxq & Hx)]].
    + exists p, addr, u, au, (tree_insert comp true addr p Lu). split; [done|]. split; [apply HL; naive_solver|]. split; [done|].
      split; [apply HN; naive_solver|apply comp_refl].
    + exists q, au, n, an, (tree_insert comp true au q Ln). split; [done|]. split; [apply HL; naive_solver|]. split; [done|].
      split; [apply HN; naive_solver|done].
    + destruct (W6 x k i w Hx) as (y & k' & v & a & L & -> & Hy & Hv & Hnv & E).
      assert (exists L', g_nodes (add_pair u n p q addr au an Lu Ln g) !! v = Some (a, L')) as [L' HL'].
      { destruct (decide (v = n)) as [->|]; [eexists; apply HN; left; naive_solver|].
        destruct (decide (v = u)) as [->|]; [eexists; apply HN; right; left; naive_solver|]. eexists. apply HN. eauto. }
      exists y, k', v, a, L'. split; [done|]. split; [apply HL; right; right; split_and!; [congruence..|done]|]. done.
Qed.

(** ** The removal of a pair of edges *)
Definition del_pair (u n p q : loc) (au an : ip_addr) (Lu Ln : list (loc * ip_addr)) (g : graph) : graph :=
  mkGraph (g_tree g) (<[n := (an, tree_delete q Ln)]> (<[u := (au, tree_delete p Lu)]> (g_nodes g))) (delete q (delete p (g_links g))).

Lemma del_pair_wf g u n p q kp kq au an Lu Ln : graph_wf g -> u <> n ->
  g_nodes g !! u = Some (au, Lu) -> g_nodes g !! n = Some (an, Ln) ->
  g_links g !! p = Some (kp, Some q, u) -> g_links g !! q = Some (kq, Some p, n) -> graph_wf (del_pair u n p q au an Lu Ln g).
Proof.
  intros W Hun Hu Hn Hp Hq. pose proof W as [W1 W2 W3 W4 W5 W6].
  assert (HN : forall w a L, g_nodes (del_pair u n p q au an Lu Ln g) !! w = Some (a, L) <->
    (w = n /\ a = an /\ L = tree_delete q Ln) \/ (w = u /\ a = au /\ L = tree_delete p Lu) \/
    (w <> n /\ w <> u /\ g_nodes g !! w = Some (a, L))).
  { intros w a L. simpl. rewrite !lookup_insert_Some. split; [intros [[<- [= <- <-]]|[? [[<- [= <- <-]]|[? ?]]]]; auto|].
    intros [(-> & -> & ->)|[(-> & -> & ->)|(? & ? & ?)]]; auto. }
  assert (HL : forall x, g_links (del_pair u n p q au an Lu Ln g) !! x = if decide (x = p \/ x = q) then None else g_links g !! x).
  { intros x. simpl. case_decide as E; [|rewrite !lookup_delete_ne by naive_solver; done].
    destruct (decide (q = x)) as [->|]; [by rewrite lookup_delete_eq|]. destruct E as [->|]; [|congruence].
    by rewrite lookup_delete_ne, lookup_delete_eq by done. }
  assert (HO : forall v, is_Some (g_nodes g !! v) -> exists L, g_nodes (del_pair u n p q au an Lu Ln g) !! v = (fun b => (b.1, L)) <$> g_nodes g !! v).
  { intros v [[a L] Hv]. rewrite Hv. simpl fmap. destruct (decide (v = n)) as [->|]; [exists (tree_delete q Ln); apply HN; naive_solver|].
    destruct (decide (v = u)) as [->|]; [exists (tree_delete p Lu); apply HN; naive_solver|]. exists L. apply HN. auto. }
  split.
  - done.
  - intros x k. simpl g_tree. rewrite W2. split.
    + intros [L HLx]. destruct (HO x ltac:(eauto)) as [L' E]. exists L'. by rewrite E, HLx.
    + intros [L [(-> & -> & _)|[(-> & -> & _)|(_ & _ & H)]]%HN]; eauto.
  - intros w a L [(-> & -> & ->)|[(-> & -> & ->)|(_ & _ & H)]]%HN; [apply tree_wf_delete; by eapply W3..|by eapply W3].
  - intros w a L x k Hw. rewrite HL. apply HN in Hw as [(-> & -> & ->)|[(-> & -> & ->)|(Hwn & Hwu & Hw)]].
    + rewrite elem_of_tree_delete, (W4 n an Ln x k Hn). simpl. case_decide as E; [|naive_solver]. split; [|naive_solver].
      intros [Hx [i Hi]]. destruct E as [->|]; congruence.
    + rewrite elem_of_tree_delete, (W4 u au Lu x k Hu). simpl. case_decide as E; [|naive_solver]. split; [|naive_solver].
      intros [Hx [i Hi]]. destruct E as [| ->]; congruence.
    + rewrite (W4 w a L x k Hw). case_decide as E; [|done]. split; [|naive_solver]. intros [i Hi]. destruct E as [->| ->]; congruence.
  - intros x k i w Hx. rewrite HL in Hx. case_decide; [done|]. apply W5 in Hx. destruct (HO w Hx) as [L ->]. by apply fmap_is_Some.
  - intros x k i w Hx. rewrite HL in Hx. case_decide as E; [done|]. destruct (W6 x k i w Hx) as (y & k' & v & a & L & -> & Hy & Hv & Hnv & Ek).
    destruct (HO v ltac:(eauto)) as [L' HL']. rewrite Hnv in HL'. exists y, k', v, a, L'. split; [done|].
    rewrite HL, decide_False; [done|]. intros [->| ->]; apply E; naive_solver.
Qed.
End graph.
