(* ===== verification/TcBorder.v ===== *)
(** * The borders of fragmented TC messages ([tc_set.c])

    A router with many neighbours advertises them in several TC messages, and
    every message says in two bytes, the border flags, which range of addresses
    it speaks for. This file has the function that computes a flag on the sending
    side, the one that turns it into a border address on the receiving side, and
    that they agree. An access outside the 16 bytes of an address is [None]. *)
From S2P Require Import Prelude AvlSpec Types Comparators.

Section border.
Context (ipsize : nat).

(** ** The sender *)

(** The loop over the bytes; [n] counts down from [ipsize]. *)
Fixpoint diff_part (n : nat) (part : Z) (lower higher : list Z) : Z :=
  match n, lower, higher with
  | S n, l :: lower, h :: higher => if negb (l =? h) then part else diff_part n (part + 1) lower higher
  | _, _, _ => part
  end.

Fixpoint diff_bitpos (n : nat) (bitpos bitmask l h : Z) : Z :=
  match n with
  | O => bitpos
  | S n => if Z.land l bitmask =? Z.land h bitmask then bitpos else diff_bitpos n (bitpos + 1) (u8 (Z.shiftl bitmask 1)) l h
  end.

Definition calculate_border_flag (lower higher : ip_addr) : Z :=
  let part := diff_part ipsize 0 lower higher in
  if part =? Z.of_nat ipsize then 0
  else
    let bitpos := diff_bitpos 8 0 254 (nth (Z.to_nat part) lower 0) (nth (Z.to_nat part) higher 0) in
    u8 (u8 (bitpos + 8 * (Z.of_nat ipsize - part - 1)) + 1).

(** ** The receiver *)
Definition s6_update (ip : ip_addr) (i : Z) (f : Z -> Z) : option ip_addr :=
  if decide (0 <= i) then x ← ip !! Z.to_nat i; Some (<[Z.to_nat i := f x]> ip) else None.

Fixpoint clear_bytes (n : nat) (i : Z) (ip : ip_addr) : option ip_addr :=
  match n with
  | O => Some ip
  | S n => ip ← s6_update ip (Z.of_nat ipsize - i - 1) (fun _ => 0); clear_bytes n (i + 1) ip
  end.

(** One of the two halves of [olsr_calculate_tc_border]; [memset] fills the
    address with [fill]. *)
Definition tc_border (fill border : Z) (ip : ip_addr) : option ip_addr :=
  if border =? 255 then Some (replicate 16 fill)
  else
    let border := u8 (border - 1) in
    ip ← clear_bytes (Z.to_nat (border / 8)) 0 ip;
    ip ← s6_update ip (Z.of_nat ipsize - border / 8 - 1) (fun x => u8 (Z.land x (Z.shiftl 255 (Z.land border 7))));
    s6_update ip (Z.of_nat ipsize - border / 8 - 1) (fun x => u8 (Z.lor x (Z.shiftl 1 (Z.land border 7)))).

(** The result 0 is [Some None]. *)
Definition olsr_calculate_tc_border (lower_border : Z) (lower_border_ip : ip_addr) (upper_border : Z) (upper_border_ip : ip_addr) :
  option (option (ip_addr * ip_addr)) :=
  if (lower_border =? 0) && (upper_border =? 0) then Some None
  else
    l ← tc_border 0 lower_border lower_border_ip;
    u ← tc_border 255 upper_border upper_border_ip;
    Some (Some (l, u)).

(** ** Lemmas *)
Definition border_byte (m x : Z) : Z := u8 (Z.lor (u8 (Z.land x (Z.shiftl 255 m))) (Z.shiftl 1 m)).

Definition byte_list : list Z := seqZ 0 256.
Lemma in_byte_list x : is_u 8 x -> In x byte_list.
Proof. intros H. apply list_elem_of_In, elem_of_seqZ. rewrite is_u8 in H. lia. Qed.

(** Of two bytes, the border that the highest different bit gives is the same
    for both, above the smaller and not above the larger. *)
Lemma byte_border x y : is_u 8 x -> is_u 8 y -> x < y ->
  0 <= diff_bitpos 8 0 254 x y < 8 /\ border_byte (diff_bitpos 8 0 254 x y) x = border_byte (diff_bitpos 8 0 254 x y) y /\
  x < border_byte (diff_bitpos 8 0 254 x y) x <= y.
Proof.
  intros Hx Hy Hlt.
  assert (H : forallb (fun x => forallb (fun y => (y <=? x) ||
    let m := diff_bitpos 8 0 254 x y in let z := border_byte m x in
    (0 <=? m) && (m <? 8) && (z =? border_byte m y) && (x <? z) && (z <=? y)) byte_list) byte_list = true) by (vm_compute; reflexivity).
  pose proof (proj1 (forallb_forall _ _) H x (in_byte_list x Hx)) as H1. pose proof (proj1 (forallb_forall _ _) H1 y (in_byte_list y Hy)) as H2.
  cbv beta zeta in H2. rewrite (proj2 (Z.leb_gt y x) Hlt), orb_false_l in H2. rewrite !andb_true_iff, !Z.leb_le, !Z.ltb_lt, Z.eqb_eq in H2. lia.
Qed.

Lemma s6_update_run P x R f : s6_update (P ++ x :: R) (Z.of_nat (length P)) f = Some (P ++ f x :: R).
Proof.
  unfold s6_update. rewrite decide_True by lia. rewrite Nat2Z.id, list_lookup_middle by done. simpl.
  f_equal. by rewrite <- (Nat.add_0_r (length P)), insert_app_r.
Qed.

Lemma s6_update_below ip i f : i < 0 -> s6_update ip i f = None.
Proof. intros H. unfold s6_update. by rewrite decide_False by lia. Qed.

Lemma clear_bytes_run R P T i : (length P + length R + i)%nat = ipsize ->
  clear_bytes (length R) (Z.of_nat i) (P ++ R ++ replicate i 0 ++ T) = Some (P ++ replicate (length R + i) 0 ++ T).
Proof.
  revert i. induction R as [|r R IH] using rev_ind; intros i Hl; [done|]. rewrite length_app in *. simpl length in *.
  rewrite Nat.add_1_r. cbn [clear_bytes].
  replace (P ++ (R ++ [r]) ++ replicate i 0 ++ T) with ((P ++ R) ++ r :: replicate i 0 ++ T) by (by rewrite <- !app_assoc).
  replace (Z.of_nat ipsize - Z.of_nat i - 1) with (Z.of_nat (length (P ++ R))) by (rewrite length_app; lia).
  rewrite s6_update_run. simpl. rewrite <- app_assoc. change (0 :: replicate i 0 ++ T) with (replicate (S i) 0 ++ T).
  replace (Z.of_nat i + 1) with (Z.of_nat (S i)) by lia. rewrite IH by lia. by replace (length R + S i)%nat with (S (length R + i)) by lia.
Qed.

(** A border address from the byte in which two addresses differ first. *)
Lemma tc_border_run fill P x R T m : (length P + S (length R))%nat = ipsize -> (ipsize <= 16)%nat -> 0 <= m < 8 ->
  tc_border fill (m + 8 * Z.of_nat (length R) + 1) (P ++ x :: R ++ T) = Some (P ++ border_byte m x :: replicate (length R) 0 ++ T).
Proof.
  intros Hl H16 Hm. unfold tc_border. destruct (Z.eqb_spec (m + 8 * Z.of_nat (length R) + 1) 255); [lia|].
  replace (m + 8 * Z.of_nat (length R) + 1 - 1) with (m + 8 * Z.of_nat (length R)) by lia.
  rewrite (wrapu_id 8) by (unfold is_u; lia). cbv zeta.
  replace ((m + 8 * Z.of_nat (length R)) / 8) with (Z.of_nat (length R)) by mlia.
  replace (Z.land (m + 8 * Z.of_nat (length R)) 7) with m.
  2: { change 7 with (Z.ones 3). rewrite Z.land_ones by lia. change (2 ^ 3) with 8. mlia. }
  rewrite Nat2Z.id. pose proof (clear_bytes_run R (P ++ [x]) T 0) as C. simpl in C. rewrite <- !app_assoc in C. simpl in C.
  rewrite Nat.add_0_r, length_app in C. simpl in C. change (Z.of_nat 0) with 0 in C. rewrite C by lia. simpl.
  replace (Z.of_nat ipsize - Z.of_nat (length R) - 1) with (Z.of_nat (length P)) by lia.
  rewrite s6_update_run. simpl. by rewrite s6_update_run, Nat.add_0_r.
Qed.

Definition border_flag_ok (b : Z) : Prop := b = 255 \/ 1 <= b <= 8 * Z.of_nat ipsize.

(** A flag of the right range is read without an access outside the address. *)
Lemma tc_border_total fill b ip : (0 < ipsize <= 16)%nat -> length ip = 16%nat -> border_flag_ok b -> exists c, tc_border fill b ip = Some c.
Proof.
  intros Hs Hl [->|Hb]; [by eexists|]. set (n := Z.to_nat ((b - 1) / 8)).
  assert (Hn : (n < ipsize)%nat) by (unfold n; mlia).
  assert (Hx : (ipsize - n - 1 < length ip)%nat) by lia. apply lookup_lt_is_Some in Hx as [x Hx].
  set (P := take (ipsize - n - 1) ip). set (R := take n (drop (ipsize - n) ip)). set (T := drop n (drop (ipsize - n) ip)).
  assert (Eip : ip = P ++ x :: R ++ T).
  { unfold R, T. rewrite take_drop. replace (ipsize - n)%nat with (S (ipsize - n - 1)) by lia. symmetry. by apply take_drop_middle. }
  assert (LP : length P = (ipsize - n - 1)%nat) by (unfold P; rewrite length_take; lia).
  assert (LR : length R = n) by (unfold R; rewrite length_take, length_drop; lia).
  assert (Eb : b = (b - 1) mod 8 + 8 * Z.of_nat (length R) + 1) by (rewrite LR; unfold n; mlia).
  rewrite Eb, Eip. eexists. apply tc_border_run; [lia|lia|mlia].
Qed.

Lemma memcmp_split n a b : length a = n -> length b = n -> memcmp n a b < 0 ->
  exists P x y R R', a = P ++ x :: R /\ b = P ++ y :: R' /\ x < y.
Proof.
  revert a b. induction n as [|n IH]; intros [|x a] [|y b]; simpl; intros Ha Hb; try lia.
  case_cmp; [intros _; by exists [], x, y, a, b|lia|]. intros Hlt.
  destruct (IH a b) as (P & x' & y' & R & R' & -> & -> & ?); [lia..|]. assert (x = y) as -> by lia.
  by exists (y :: P), x', y', R, R'.
Qed.

Lemma memcmp_app P a b n : memcmp (length P + n) (P ++ a) (P ++ b) = memcmp n a b.
Proof. induction P as [|x P IH]; [done|]. simpl. destruct (Z.ltb_spec x x); [lia|]. apply IH. Qed.

Lemma memcmp_zeros n b T : bytes b -> length b = n -> memcmp n (replicate n 0 ++ T) b <= 0.
Proof.
  intros Hb. revert n. induction Hb as [|y b Hy _ IH]; intros [|n]; simpl; intros Hl; try lia.
  rewrite is_u8 in Hy. case_cmp; [lia..|]. apply IH. lia.
Qed.

Lemma diff_part_run P x y R R' n part : (length P < n)%nat -> x <> y ->
  diff_part n part (P ++ x :: R) (P ++ y :: R') = part + Z.of_nat (length P).
Proof.
  revert n part. induction P as [|p P IH]; intros [|n] part; simpl; intros Hl Hxy; try lia.
  - destruct (Z.eqb_spec x y); [done|]. simpl. lia.
  - destruct (Z.eqb_spec p p); [|done]. simpl. rewrite IH by (done || lia). lia.
Qed.

Lemma flag_run P x y R R' T T' : (length P + S (length R))%nat = ipsize -> (ipsize <= 16)%nat -> 0 <= diff_bitpos 8 0 254 x y < 8 -> x <> y ->
  calculate_border_flag (P ++ x :: R ++ T) (P ++ y :: R' ++ T') = diff_bitpos 8 0 254 x y + 8 * Z.of_nat (length R) + 1.
Proof.
  intros Hl H16 Hm Hxy. unfold calculate_border_flag. rewrite diff_part_run by (done || lia). cbv zeta.
  destruct (Z.eqb_spec (0 + Z.of_nat (length P)) (Z.of_nat ipsize)); [lia|].
  replace (Z.to_nat (0 + Z.of_nat (length P))) with (length P) by lia. rewrite !app_nth2, Nat.sub_diag by lia. cbn [nth].
  rewrite (wrapu_id 8 (diff_bitpos _ _ _ _ _ + _)), wrapu_id by (unfold is_u; lia). lia.
Qed.
End border.

(** C30: the border that the receiver of a fragment computes from a border flag
    separates the neighbours of the two fragments. For two addresses, of which
    the smaller one is the last of a fragment and the larger one the first of
    the next, the flag of the sender is between 1 and the number of bits of
    an address, the receiver of either fragment gets the same border, without
    an access outside the address, and in byte order it is above the smaller
    address and not above the larger one. *)
Theorem tc_border_separates (ipsize : nat) (fill fill' : Z) (a b ta tb : list Z) :
  (ipsize <= 16)%nat -> length a = ipsize -> length b = ipsize -> bytes a -> bytes b -> memcmp ipsize a b < 0 ->
  let flag := calculate_border_flag ipsize (a ++ ta) (b ++ tb) in
  1 <= flag <= 8 * Z.of_nat ipsize /\
  exists c, length c = ipsize /\
    tc_border ipsize fill flag (a ++ ta) = Some (c ++ ta) /\ tc_border ipsize fill' flag (b ++ tb) = Some (c ++ tb) /\
    memcmp ipsize a c < 0 /\ memcmp ipsize c b <= 0.
Proof.
  intros H16 La Lb Ba Bb Hlt. destruct (memcmp_split ipsize a b La Lb Hlt) as (P & x & y & R & R' & -> & -> & Hxy).
  rewrite !length_app in *. simpl in La, Lb. apply Forall_app in Ba as [_ [Hx _]%Forall_cons], Bb as [_ [Hy Br]%Forall_cons].
  destruct (byte_border x y Hx Hy Hxy) as (Hm & Hz & Hz1 & Hz2). rewrite <- !app_assoc. simpl app.
  cbv zeta. rewrite flag_run by (done || lia). generalize dependent (diff_bitpos 8 0 254 x y). intros m Hm Hz Hz1 Hz2. split; [lia|].
  exists (P ++ border_byte m x :: replicate (length R) 0).
  rewrite <- !app_assoc. simpl app. rewrite tc_border_run by (done || lia). replace (length R) with (length R') by lia.
  rewrite tc_border_run, Hz by (done || lia). split; [rewrite length_app; simpl; rewrite length_replicate; lia|].
  split; [done|]. split; [done|]. replace ipsize with (length P + S (length R'))%nat by lia. rewrite !memcmp_app. simpl.
  rewrite Hz in Hz1, Hz2. set (z := border_byte _ y) in *. split; [destruct (Z.ltb_spec x z); lia|].
  destruct (Z.ltb_spec z y); [lia|]. destruct (Z.ltb_spec y z); [lia|].
  rewrite <- (app_nil_r (replicate _ 0)). by apply memcmp_zeros.
Qed.

Lemma tc_border_separates_witness :
  1 <= calculate_border_flag 4 [10; 0; 0; 5] [10; 0; 3; 1] <= 32 /\
  exists c, length c = 4%nat /\
    tc_border 4 255 (calculate_border_flag 4 [10; 0; 0; 5] [10; 0; 3; 1]) [10; 0; 0; 5] = Some (c ++ []) /\
    tc_border 4 0 (calculate_border_flag 4 [10; 0; 0; 5] [10; 0; 3; 1]) [10; 0; 3; 1] = Some (c ++ []) /\
    memcmp 4 [10; 0; 0; 5] c < 0 /\ memcmp 4 c [10; 0; 3; 1] <= 0.
Proof.
  apply (tc_border_separates 4 255 0 [10; 0; 0; 5] [10; 0; 3; 1] [] []);
    [by apply Nat.leb_le|done|done|by apply (bool_decide_unpack _)|by apply (bool_decide_unpack _)|done].
Defined.

(** With IPv4 on a little-endian host the border does not separate the
    fragments in the order in which the neighbours are sorted and in which the
    receiver compares. [avl_comp_default] compares the numbers in host byte order,
    the border is computed in network byte order: the neighbour 10.0.5.1 is
    sorted before 10.0.0.2, but the border between them is below both. *)
Theorem ipv4_border_wrong :
  exists a b c, let flag := calculate_border_flag 4 a b in
    avl_comp_default AF_INET a b < 0 /\ tc_border 4 255 flag a = Some c /\
    avl_comp_default AF_INET c a < 0 /\ avl_comp_default AF_INET c b < 0.
Proof.
  exists ([10; 0; 5; 1] ++ replicate 12 0), ([10; 0; 0; 2] ++ replicate 12 0), ([10; 0; 4; 0] ++ replicate 12 0). by vm_compute.
Qed.

(** The flags that no sender computes: 0, which stands for a whole message only
    if both flags are 0, and those above the number of bits of an address,
    less 255, the flag of the first and of the last fragment. *)
Definition bad_flag (ipsize : nat) (b : Z) : Prop := b = 0 \/ 8 * Z.of_nat ipsize < b < 255.

Lemma tc_border_bad (ipsize : nat) (fill b : Z) (ip : ip_addr) : (ipsize <= 16)%nat -> bad_flag ipsize b -> tc_border ipsize fill b ip = None.
Proof.
  intros H16 Hb. unfold tc_border. destruct (Z.eqb_spec b 255); [destruct Hb; lia|]. cbv zeta.
  assert (Z.of_nat ipsize <= u8 (b - 1) / 8).
  { destruct Hb as [->|Hb]; [change (u8 (0 - 1)) with 255; change (255 / 8) with 31; lia|].
    rewrite wrapu_id by (unfold is_u; lia). apply Z.div_le_lower_bound; lia. }
  destruct (clear_bytes _ _ _ _) as [c|]; [|done]. simpl. by rewrite s6_update_below by lia.
Qed.

(** C39: the border flags come from the message and are not checked. Of two
    bytes that are not both 0, the receiver computes its borders inside the two
    addresses exactly if each is 255 or between 1 and the number of bits of an
    address. With any other value of either flag, 0 or a larger one below 255,
    it writes below the address, whatever the other flag is. *)
Theorem tc_border_overflow (ipsize : nat) (lower upper : Z) (lower_ip upper_ip : ip_addr) :
  (0 < ipsize <= 16)%nat -> is_u 8 lower -> is_u 8 upper -> length lower_ip = 16%nat -> length upper_ip = 16%nat ->
  ~ (lower = 0 /\ upper = 0) ->
  (olsr_calculate_tc_border ipsize lower lower_ip upper upper_ip = None <-> bad_flag ipsize lower \/ bad_flag ipsize upper).
Proof.
  rewrite !is_u8. intros H16 Hl Hu Ll Lu Hn. unfold olsr_calculate_tc_border.
  replace ((lower =? 0) && (upper =? 0)) with false by (symmetry; apply andb_false_iff; rewrite !Z.eqb_neq; lia).
  assert (Hd : forall b, 0 <= b < 256 -> bad_flag ipsize b \/ border_flag_ok ipsize b) by (unfold bad_flag, border_flag_ok; lia).
  split.
  - intros HN. destruct (Hd lower Hl) as [?|[c1 E1]%(tc_border_total _ 0 _ lower_ip)]; [by left| |done..].
    destruct (Hd upper Hu) as [?|[c2 E2]%(tc_border_total _ 255 _ upper_ip)]; [by right| |done..]. by rewrite E1, E2 in HN.
  - intros [H|H]; [by rewrite (tc_border_bad ipsize 0 lower) by (lia || done)|]. destruct (tc_border ipsize 0 _ _) as [c|]; [|done]. simpl.
    by rewrite (tc_border_bad ipsize 255 upper) by (lia || done).
Qed.

(** The lower flag is 0 and the upper one 33, on IPv4. *)
Lemma tc_border_overflow_witness :
  olsr_calculate_tc_border 4 0 ([10; 0; 0; 1] ++ replicate 12 0) 255 ([10; 0; 0; 9] ++ replicate 12 0) = None /\
  olsr_calculate_tc_border 4 255 ([10; 0; 0; 1] ++ replicate 12 0) 33 ([10; 0; 0; 9] ++ replicate 12 0) = None.
Proof.
  split.
  - apply (tc_border_overflow 4 0 255); [lia|done|done|done|done|lia|left; by left].
  - apply (tc_border_overflow 4 255 33); [lia|done|done|done|done|lia|right; right; lia].
Defined.
