(* ===== verification/TcSet.v ===== *)
(** * The topology set ([tc_set.c], [routing_table.c])

    The link state database has a node for every router that is known and an edge
    for every link that a router advertises. An edge always has an inverse edge;
    if nobody advertises the inverse it is marked as virtual. The trees of nodes and edges are the
    sequences of their entries; the tree of the prefixes of a node is one as
    well, also for IPv4 where its comparator is no order: nothing here depends
    on where in the sequence a prefix is. *)
From S2P Require Import Prelude AvlSpec Trees Types Comparators IpCalc Memcookie Clock Timer DuplicateSet Packet NetOut Lsdb LqHandler Neighborhood LinkSet TcBorder.

Definition OLSR_RT_ORIGIN_TC : Z := 1.
Definition OLSR_TC_EDGE_GC_TIME : Z := 2000.
Definition OLSR_TC_EDGE_GC_JITTER : Z := 5.
Definition OLSR_TC_VTIME_JITTER : Z := 5.

Record rt_path := mkRtp {
  rtp_dst : olsr_ip_prefix;
  rtp_originator : olsr_ip_prefix;
  rtp_rt : option loc;
  rtp_tc : option loc;
  rtp_gateway : ip_addr;
  rtp_interface : option loc;
  rtp_cost : Z;
  rtp_hops : Z;
  rtp_version : Z
}.

Section tc_set.
Context `{LQ : LqHandler} (rnd : nat -> Z) (ip_version : Z) (router_id : ip_addr).

(** The state of the topology set and of what it calls. [t_lq] is the plugin's
    part of the edges, which lies behind [struct tc_edge_entry]. *)
Record topo := mkTopo {
  t_nbh : neighborhood;
  t_lq : gmap loc lq_data;
  rtps : gmap loc rt_path;
  t_net : net_st;
  t_timers : timer_st;
  tc_edge_gc_timer_info : loc;
  tc_validity_timer_info : loc;
  changes_topology : bool;
  changes_hna : bool;
  relevantTcCount : Z
}.

Abbreviation M := (SE topo).
Definition tdb (s : topo) : lsdb := nh_lsdb (t_nbh s).

(** ** Memory *)
Definition with_nbh (w : neighborhood) (s : topo) : topo :=
  mkTopo w (t_lq s) (rtps s) (t_net s) (t_timers s) (tc_edge_gc_timer_info s) (tc_validity_timer_info s) (changes_topology s)
    (changes_hna s) (relevantTcCount s).
Definition with_tdb (d : lsdb) (s : topo) : topo :=
  let w := t_nbh s in
  with_nbh (mkNbh (nbr_tree w) (nbrs w) (nbr2_tree w) (nbr2s w) (nbr_cons w) (link_entry_head w) (links w) (mid_tree w) (mids w) d) s.
Definition with_lq (l : gmap loc lq_data) (s : topo) : topo :=
  mkTopo (t_nbh s) l (rtps s) (t_net s) (t_timers s) (tc_edge_gc_timer_info s) (tc_validity_timer_info s) (changes_topology s)
    (changes_hna s) (relevantTcCount s).
Definition with_rtps (r : gmap loc rt_path) (s : topo) : topo :=
  mkTopo (t_nbh s) (t_lq s) r (t_net s) (t_timers s) (tc_edge_gc_timer_info s) (tc_validity_timer_info s) (changes_topology s)
    (changes_hna s) (relevantTcCount s).
Definition set_changes_topology (b : bool) (s : topo) : topo :=
  mkTopo (t_nbh s) (t_lq s) (rtps s) (t_net s) (t_timers s) (tc_edge_gc_timer_info s) (tc_validity_timer_info s) b
    (changes_hna s) (relevantTcCount s).
Definition set_changes_hna (b : bool) (s : topo) : topo :=
  mkTopo (t_nbh s) (t_lq s) (rtps s) (t_net s) (t_timers s) (tc_edge_gc_timer_info s) (tc_validity_timer_info s) (changes_topology s)
    b (relevantTcCount s).
Definition set_relevant (n : Z) (s : topo) : topo :=
  mkTopo (t_nbh s) (t_lq s) (rtps s) (t_net s) (t_timers s) (tc_edge_gc_timer_info s) (tc_validity_timer_info s) (changes_topology s)
    (changes_hna s) n.

#[global] Instance topo_has_timers : HasTimers topo := {|
  get_timers := t_timers;
  put_timers := fun T s => mkTopo (t_nbh s) (t_lq s) (rtps s) (t_net s) T (tc_edge_gc_timer_info s) (tc_validity_timer_info s)
    (changes_topology s) (changes_hna s) (relevantTcCount s);
  get_put_timers := fun _ _ => eq_refl |}.
#[global] Instance topo_has_net : HasNet topo := {|
  get_net := t_net;
  put_net := fun N s => mkTopo (t_nbh s) (t_lq s) (rtps s) N (t_timers s) (tc_edge_gc_timer_info s) (tc_validity_timer_info s)
    (changes_topology s) (changes_hna s) (relevantTcCount s);
  get_put_net := fun _ _ => eq_refl; put_put_net := fun _ _ _ => eq_refl |}.

Definition with_edges (E : gmap loc tc_edge_entry) (d : lsdb) : lsdb := mkDb (tc_tree d) (tcs d) E (tc_myself d).
Definition with_tc_tree (L : list (loc * ip_addr)) (d : lsdb) : lsdb := mkDb L (tcs d) (edges d) (tc_myself d).

Definition tc_rd (p : loc) : M tc_entry := fun s => (fun t => (s, t)) <$> tcs (tdb s) !! p.
Definition tc_wr (p : loc) (g : tc_entry -> tc_entry) : M unit := fun s =>
  (fun t => (with_tdb (with_tcs (<[p := g t]> (tcs (tdb s))) (tdb s)) s, tt)) <$> tcs (tdb s) !! p.
Definition edge_rd (p : loc) : M tc_edge_entry := fun s => (fun e => (s, e)) <$> edges (tdb s) !! p.
Definition edge_wr (p : loc) (g : tc_edge_entry -> tc_edge_entry) : M unit := fun s =>
  (fun e => (with_tdb (with_edges (<[p := g e]> (edges (tdb s))) (tdb s)) s, tt)) <$> edges (tdb s) !! p.
Definition edge_free (p : loc) : M unit := fun s =>
  (fun _ => (with_lq (delete p (t_lq s)) (with_tdb (with_edges (delete p (edges (tdb s))) (tdb s)) s), tt)) <$> edges (tdb s) !! p.

Definition set_edge_tree (L : list (loc * ip_addr)) (t : tc_entry) : tc_entry :=
  mkTc (tc_addr t) (tc_spf t) L (prefix_tree t) (edge_gc_timer t) (tc_validity_timer t) (tc_virtual t) (tc_seq t) (mid_seq t) (hna_seq t)
    (msg_hops t) (tc_ansn t).
Definition set_prefix_tree (L : list (loc * olsr_ip_prefix)) (t : tc_entry) : tc_entry :=
  mkTc (tc_addr t) (tc_spf t) (edge_tree t) L (edge_gc_timer t) (tc_validity_timer t) (tc_virtual t) (tc_seq t) (mid_seq t) (hna_seq t)
    (msg_hops t) (tc_ansn t).
Definition set_gc_timer (h : option loc) (t : tc_entry) : tc_entry :=
  mkTc (tc_addr t) (tc_spf t) (edge_tree t) (prefix_tree t) h (tc_validity_timer t) (tc_virtual t) (tc_seq t) (mid_seq t) (hna_seq t)
    (msg_hops t) (tc_ansn t).
Definition set_validity_timer (h : option loc) (t : tc_entry) : tc_entry :=
  mkTc (tc_addr t) (tc_spf t) (edge_tree t) (prefix_tree t) (edge_gc_timer t) h (tc_virtual t) (tc_seq t) (mid_seq t) (hna_seq t)
    (msg_hops t) (tc_ansn t).
Definition set_tc_virtual (b : bool) (t : tc_entry) : tc_entry :=
  mkTc (tc_addr t) (tc_spf t) (edge_tree t) (prefix_tree t) (edge_gc_timer t) (tc_validity_timer t) b (tc_seq t) (mid_seq t) (hna_seq t)
    (msg_hops t) (tc_ansn t).
Definition set_tc_msg (hops seq ansn : Z) (t : tc_entry) : tc_entry :=
  mkTc (tc_addr t) (tc_spf t) (edge_tree t) (prefix_tree t) (edge_gc_timer t) (tc_validity_timer t) (tc_virtual t) seq (mid_seq t) (hna_seq t)
    hops ansn.

Definition set_inv (i : option loc) (e : tc_edge_entry) : tc_edge_entry :=
  mkEdge (T_dest_addr e) i (edge_tc e) (neighbor e) (cost e) (common_cost e) (virtual e) (edge_ansn e).
Definition set_virtual (b : bool) (e : tc_edge_entry) : tc_edge_entry :=
  mkEdge (T_dest_addr e) (edge_inv e) (edge_tc e) (neighbor e) (cost e) (common_cost e) b (edge_ansn e).
Definition set_edge_cost (c : Z) (e : tc_edge_entry) : tc_edge_entry :=
  mkEdge (T_dest_addr e) (edge_inv e) (edge_tc e) (neighbor e) c (common_cost e) (virtual e) (edge_ansn e).
Definition set_common_cost (c : Z) (e : tc_edge_entry) : tc_edge_entry :=
  mkEdge (T_dest_addr e) (edge_inv e) (edge_tc e) (neighbor e) (cost e) c (virtual e) (edge_ansn e).
Definition set_edge_ansn (a : Z) (e : tc_edge_entry) : tc_edge_entry :=
  mkEdge (T_dest_addr e) (edge_inv e) (edge_tc e) (neighbor e) (cost e) (common_cost e) (virtual e) a.

Abbreviation comp := (avl_comp_default ip_version).
Definition tc_ipsize : nat := if ip_version =? AF_INET then 4 else 16.

(** ** Nodes *)
Definition olsr_lookup_tc_entry (adr : ip_addr) : M (option loc) := se_get (fun s => tree_find comp adr (tc_tree (tdb s))).

(** [routing_table.c] *)
Definition olsr_alloc_rt_path (tc : loc) (pfx : olsr_ip_prefix) (origin : Z) : M (option loc) := fun s =>
  let p := fresh (dom (rtps s)) in
  match tcs (tdb s) !! tc with
  | None => None
  | Some t =>
    let dst := mkPfx (prefix pfx) (prefix_len pfx) origin in
    let s := with_tdb (with_tcs (<[tc := set_prefix_tree
      (tree_insert (avl_comp_prefix_origin_default ip_version) false dst p (prefix_tree t)) t]> (tcs (tdb s))) (tdb s)) s in
    Some (with_rtps (<[p := mkRtp dst (mkPfx (tc_addr t) (8 * Z.of_nat tc_ipsize) origin) None (Some tc) (replicate 16 0) None 0 0 0]> (rtps s)) s,
      Some p)
  end.

(** [olsr_insert_routing_table]; [locate] is [olsr_locate_tc_entry]. *)
Definition olsr_insert_routing_table_with (locate : ip_addr -> M (option loc)) (dst : ip_addr) (plen : Z) (originator : ip_addr)
  (origin : Z) : M (option loc) :=
  if plen >? 8 * Z.of_nat tc_ipsize then mret None
  else
    tc ← locate originator;
    tc ← se_opt tc;
    t ← tc_rd tc;
    match tree_find (avl_comp_prefix_origin_default ip_version) (mkPfx dst plen origin) (prefix_tree t) with
    | Some rtp => mret (Some rtp)
    | None =>
      rtp ← olsr_alloc_rt_path tc (mkPfx dst plen origin) origin;
      match rtp with
      | None => mret None
      | Some p => se_mod (set_changes_hna true);; mret (Some p)
      end
    end.

Definition new_tc (adr : ip_addr) : tc_entry := mkTc adr (mkSpf 0 None 0 false Unlinked) [] [] None None false (-1) (-1) (-1) 0 0.

(** [fuel] bounds the depth of the recursion of [olsr_add_tc_entry] through
    [olsr_insert_routing_table]. *)
Fixpoint add_tc_entry (fuel : nat) (adr : ip_addr) : M (option loc) :=
  match fuel with
  | O => se_fail
  | S fuel =>
    if ipcmp ip_version router_id all_zero =? 0 then mret None
    else
      p ← se_get (fun s => fresh (dom (tcs (tdb s))));
      se_mod (fun s => with_tdb (with_tc_tree (tree_insert comp false adr p (tc_tree (tdb s)))
        (with_tcs (<[p := new_tc adr]> (tcs (tdb s))) (tdb s))) s);;
      olsr_insert_routing_table_with
        (fun a => tc ← olsr_lookup_tc_entry a; match tc with Some q => mret (Some q) | None => add_tc_entry fuel a end)
        adr (8 * Z.of_nat tc_ipsize) adr OLSR_RT_ORIGIN_TC;;
      mret (Some p)
  end.

(** A call finds the node that its caller has just inserted. *)
Definition olsr_add_tc_entry (adr : ip_addr) : M (option loc) := add_tc_entry 2 adr.

Definition olsr_locate_tc_entry (adr : ip_addr) : M (option loc) :=
  tc ← olsr_lookup_tc_entry adr;
  match tc with Some q => mret (Some q) | None => olsr_add_tc_entry adr end.

Definition olsr_insert_routing_table (dst : ip_addr) (plen : Z) (originator : ip_addr) (origin : Z) : M (option loc) :=
  olsr_insert_routing_table_with olsr_locate_tc_entry dst plen originator origin.

(** ** Edges *)
Definition olsr_lookup_tc_edge (tc : loc) (edge_addr : ip_addr) : M (option loc) :=
  t ← tc_rd tc; mret (tree_find comp edge_addr (edge_tree t)).

(** [olsr_calc_tc_cost] *)
Definition olsr_calc_tc_cost (p : loc) : M Z := fun s => (fun l => (s, calc_cost l)) <$> t_lq s !! p.

(** [olsr_malloc_tc_edge_entry], the fields that are filled in, and the
    insertion into the tree of the node. *)
Definition new_edge (tc : loc) (addr : ip_addr) (ansn : Z) : M loc :=
  p ← se_get (fun s => fresh (dom (edges (tdb s)) ∪ dom (t_lq s)));
  se_mod (fun s => with_lq (<[p := lq_zero]> (t_lq s))
    (with_tdb (with_edges (<[p := mkEdge addr None tc None 0 0 false ansn]> (edges (tdb s))) (tdb s)) s));;
  tc_wr tc (fun t => set_edge_tree (tree_insert comp true addr p (edge_tree t)) t);;
  mret p.

Fixpoint add_tc_edge_entry (fuel : nat) (tc : loc) (addr : ip_addr) (ansn : Z) : M loc :=
  match fuel with
  | O => se_fail
  | S fuel =>
    p ← new_edge tc addr ansn;
    tc_neighbor ← olsr_lookup_tc_entry addr;
    tc_neighbor ← (match tc_neighbor with Some n => mret (Some n) | None => olsr_add_tc_entry addr end);
    n ← se_opt tc_neighbor;
    t ← tc_rd tc;
    tc_edge_inv ← olsr_lookup_tc_edge n (tc_addr t);
    q ← (match tc_edge_inv with
         | Some q => mret q
         | None => q ← add_tc_edge_entry fuel n (tc_addr t) 0; edge_wr q (set_virtual true);; mret q
         end);
    edge_wr q (set_inv (Some p));;
    edge_wr p (set_inv (Some q));;
    edge_wr p (set_virtual false);;
    c ← olsr_calc_tc_cost p;
    edge_wr p (set_edge_cost c);;
    mret p
  end.

(** The call for the inverse edge finds the edge it is the inverse of. *)
Definition olsr_add_tc_edge_entry (tc : loc) (addr : ip_addr) (ansn : Z) : M loc := add_tc_edge_entry 2 tc addr ansn.

Definition internal_delete_tc_edge_entry (p : loc) : M unit :=
  e ← edge_rd p;
  se_assert (bool_decide (edge_inv e = None));;
  tc_wr (edge_tc e) (fun t => set_edge_tree (tree_delete p (edge_tree t)) t);;
  edge_free p.

(** [was_real] is never set, so that the timer at the end is never started. *)
Definition olsr_delete_tc_edge_entry (p : loc) : M unit :=
  e ← edge_rd p;
  q ← se_opt (edge_inv e);
  i ← edge_rd q;
  if negb (virtual i) || bool_decide (is_Some (neighbor i)) then edge_wr p (set_virtual true)
  else
    se_mod (set_changes_topology true);;
    edge_wr q (set_inv None);;
    edge_wr p (set_inv None);;
    internal_delete_tc_edge_entry p;;
    internal_delete_tc_edge_entry q.

(** The loop of [delete_outdated_tc_edges] over the edges that the tree has at the
    start; the successor is fetched before an edge is deleted. *)
Fixpoint delete_outdated (tc : loc) (L : list (loc * ip_addr)) (retval : bool) : M bool :=
  match L with
  | [] => mret retval
  | ek :: L =>
    t ← tc_rd tc;
    e ← edge_rd ek.1;
    if SEQNO_GREATER_THAN (tc_ansn t) (edge_ansn e)
    then olsr_delete_tc_edge_entry ek.1;; delete_outdated tc L true
    else delete_outdated tc L retval
  end.

Definition delete_outdated_tc_edges (tc : loc) : M bool :=
  t ← tc_rd tc;
  retval ← delete_outdated tc (edge_tree t) false;
  (if retval : bool then se_mod (set_changes_topology true) else mret tt);;
  mret retval.

(** [olsr_expire_tc_edge_gc] *)
Definition olsr_expire_tc_edge_gc (tc : loc) : M unit :=
  tc_wr tc (set_gc_timer None);;
  b ← delete_outdated_tc_edges tc;
  if b : bool then se_mod (set_changes_topology true) else mret tt.

(** The loop of [olsr_delete_revoked_tc_edges]. *)
Fixpoint delete_revoked (ansn : Z) (lower_border upper_border : ip_addr) (L : list (loc * ip_addr)) (passedLowerBorder retval : bool) : M bool :=
  match L with
  | [] => mret retval
  | ek :: L =>
    e ← edge_rd ek.1;
    if negb passedLowerBorder && negb (comp lower_border (T_dest_addr e) <=? 0)
    then delete_revoked ansn lower_border upper_border L false retval
    else if comp upper_border (T_dest_addr e) <=? 0 then mret retval
    else if SEQNO_GREATER_THAN ansn (edge_ansn e) then
      edge_wr ek.1 (set_edge_cost LINK_COST_BROKEN);;
      edge_wr ek.1 (set_common_cost LINK_COST_BROKEN);;
      q ← se_opt (edge_inv e);
      edge_wr q (set_common_cost LINK_COST_BROKEN);;
      olsr_delete_tc_edge_entry ek.1;;
      delete_revoked ansn lower_border upper_border L true true
    else delete_revoked ansn lower_border upper_border L true retval
  end.

Definition olsr_delete_revoked_tc_edges (tc : loc) (ansn : Z) (lower_border upper_border : ip_addr) : M bool :=
  t ← tc_rd tc;
  retval ← delete_revoked ansn lower_border upper_border (edge_tree t) false false;
  (if retval : bool then se_mod (set_changes_topology true) else mret tt);;
  mret retval.

(** ** TC messages

    [curr] is the list of the bytes from the cursor to the end of the buffer. *)
Definition pkt_rd {A} (m : RD A) (curr : list Z) : M (list Z * A) := se_opt (m curr).

(** [olsr_deserialize_tc_lq_pair] *)
Definition olsr_deserialize_tc_lq_pair (p : loc) (curr : list Z) : M (list Z) :=
  old ← se_get (fun s => t_lq s !! p);
  old ← se_opt old;
  r ← pkt_rd (deserialize_lq old) curr;
  se_mod (fun s => with_lq (<[p := r.2]> (t_lq s)) s);;
  mret r.1.

(** The address that was read, and whether the edge was added or updated. An
    address that is not allowed leaves the cursor before its link quality. *)
Definition olsr_tc_update_edge (tc : loc) (ansn : Z) (curr : list Z) (neigh : ip_addr) : M (list Z * ip_addr * bool) :=
  r ← pkt_rd (pkt_get_ipaddress tc_ipsize neigh) curr;
  let '(curr, neigh) := r in
  tc_edge ← olsr_lookup_tc_edge tc neigh;
  match tc_edge with
  | None =>
    v ← olsr_validate_address ip_version neigh;
    if negb v then mret (curr, neigh, false)
    else
      p ← olsr_add_tc_edge_entry tc neigh ansn;
      curr ← olsr_deserialize_tc_lq_pair p curr;
      edge_wr p (set_virtual false);;
      tc_wr tc (set_tc_virtual false);;
      mret (curr, neigh, true)
  | Some p =>
    edge_wr p (set_edge_ansn ansn);;
    curr ← olsr_deserialize_tc_lq_pair p curr;
    c ← olsr_calc_tc_cost p;
    edge_wr p (set_edge_cost c);;
    edge_wr p (set_common_cost c);;
    e ← edge_rd p;
    q ← se_opt (edge_inv e);
    edge_wr q (set_common_cost c);;
    edge_wr p (set_virtual false);;
    tc_wr tc (set_tc_virtual false);;
    mret (curr, neigh, true)
  end.

(** The loop over the advertised neighbours; [left] is [msg->end - curr]. The
    first address is the lower border, the last one the upper border. *)
Fixpoint tc_edges (fuel : nat) (tc : loc) (ansn : Z) (left : Z) (curr : list Z) (lower upper : ip_addr) (borderSet relevantTc : bool) :
  M (ip_addr * ip_addr * bool * bool) :=
  if Z.of_nat tc_ipsize + Z.of_nat lq_size <=? left then
    match fuel with
    | O => se_fail
    | S fuel =>
      r ← olsr_tc_update_edge tc ansn curr upper;
      let '(curr', upper, rel) := r in
      let lower := if borderSet then lower else upper in
      tc_edges fuel tc ansn (left - (Z.of_nat (length curr) - Z.of_nat (length curr'))) curr' lower upper true (rel || relevantTc)
    end
  else mret (lower, upper, borderSet, relevantTc).

Definition on_nbh {A} (m : NM A) : M A := fun s =>
  match m (t_nbh s) with Some (w, a) => Some (with_nbh w s, a) | None => None end.

(** What [olsr_input_tc] does with the node once it has it. [garbage] is what the
    variables for the borders hold before. *)
Definition input_tc_node (msg : olsr_message) (tc : loc) (ansn lower_border upper_border : Z) (left : Z) (curr : list Z) (garbage : ip_addr) : M unit :=
  tc_wr tc (set_tc_msg (hopcnt msg) (seqno msg) ansn);;
  r ← tc_edges (length curr) tc ansn left curr garbage garbage false false;
  let '(lower, upper, borderSet, relevantTc) := r in
  (if relevantTc : bool
   then se_mod (fun s => set_relevant (u32 (relevantTcCount s + 1)) s);; se_mod (set_changes_topology true)
   else mret tt);;
  borders ← se_opt (if borderSet : bool then olsr_calculate_tc_border tc_ipsize lower_border lower upper_border upper else Some None);
  t ← tc_rd tc;
  ti ← se_get tc_validity_timer_info;
  h ← on_timers (olsr_timer_set rnd (tc_validity_timer t) (vtime msg) OLSR_TC_VTIME_JITTER tc ti);
  tc_wr tc (set_validity_timer h);;
  match borders with
  | Some b => olsr_delete_revoked_tc_edges tc ansn b.1 b.2;; mret tt
  | None =>
    ti ← se_get tc_edge_gc_timer_info;
    h ← on_timers (olsr_timer_set rnd (edge_gc_timer t) OLSR_TC_EDGE_GC_TIME OLSR_TC_EDGE_GC_JITTER tc ti);
    tc_wr tc (set_gc_timer h)
  end.

(** [body] is the list of the bytes from [msg->payload] to the end of the buffer. *)
Definition olsr_input_tc (msg : olsr_message) (body : list Z) (garbage : ip_addr) (from_addr : ip_addr) (status : duplicate_status) : M unit :=
  if negb (m_type msg =? messageid_tc) then mret tt
  else
    nw ← se_get (fun s => now (t_timers s));
    st ← on_nbh (check_neighbor_link ip_version nw from_addr);
    if negb (st =? SYM_LINK) then mret tt
    else
      r ← pkt_rd (ansn ← pkt_get_u16; lower ← pkt_get_u8; upper ← pkt_get_u8; mret (ansn, lower, upper)) body;
      let '(curr, (ansn, lower_border, upper_border)) := r in
      tc ← olsr_lookup_tc_entry (originator msg);
      t ← (match tc with Some p => t ← tc_rd p; mret (Some t) | None => mret None end);
      let too_old := match t with
        | Some t => negb (bool_decide (status = RESET_SEQNO_OLSR_MESSAGE)) && negb (tc_seq t =? -1) && negb (tc_virtual t) &&
            (olsr_seqno_diff ansn (tc_ansn t) <? 0)
        | None => false
        end in
      if too_old then mret tt
      else
        tc ← (match tc with Some p => mret (Some p) | None => olsr_add_tc_entry (originator msg) end);
        tc ← se_opt tc;
        input_tc_node msg tc ansn lower_border upper_border (end_ msg - payload msg - 4) curr garbage.
End tc_set.
