(* ===== verification/TcInv.v ===== *)
(** * The invariant of the topology set

    Every operation of [TcSet] keeps the shape of the link state database well
    formed, never reads memory that is not allocated, and fails no assertion, as
    long as no node has an edge to itself. *)
From S2P Require Import Prelude AvlSpec AvlOps Trees Types Comparators IpCalc Memcookie Clock Timer DuplicateSet Packet NetOut Lsdb LqHandler Neighborhood LinkSet TcBorder TcGraph TcSet.

Section inv.
Context `{LQ : LqHandler} (rnd : nat -> Z) (ip_version : Z) (router_id : ip_addr).
Abbreviation comp := (avl_comp_default ip_version).

(** ** The state in parts *)

(** What the operations on nodes and edges leave alone. *)
Definition rest (s : topo) : neighborhood * net_st * timer_st * loc * loc * Z :=
  (t_nbh (with_tdb (mkDb [] ∅ ∅ None) s), t_net s, t_timers s, tc_edge_gc_timer_info s, tc_validity_timer_info s, relevantTcCount s).

Record st_is R T N E m Q (s : topo) : Prop := {
  si_db : tdb s = mkDb T N E m;
  si_lq : t_lq s = Q;
  si_rest : rest s = R
}.
Arguments si_db {_ _ _ _ _ _ _} _.
Arguments si_lq {_ _ _ _ _ _ _} _.
Arguments si_rest {_ _ _ _ _ _ _} _.

Lemma st_is_self s : st_is (rest s) (tc_tree (tdb s)) (tcs (tdb s)) (edges (tdb s)) (tc_myself (tdb s)) (t_lq s) s.
Proof. split; try done. by destruct (tdb s). Qed.

Ltac st I := split; [first [exact (si_db I)|simpl; by rewrite ?(si_db I)]|simpl; by rewrite ?(si_lq I)|by rewrite <- (si_rest I)].

Section steps.
Context R T N E m Q (s : topo) (I : st_is R T N E m Q s).

Lemma tc_rd_is p t : N !! p = Some t -> tc_rd p s = Some (s, t).
Proof. intros H. unfold tc_rd. rewrite (si_db I). simpl. by rewrite H. Qed.
Lemma edge_rd_is p e : E !! p = Some e -> edge_rd p s = Some (s, e).
Proof. intros H. unfold edge_rd. rewrite (si_db I). simpl. by rewrite H. Qed.
Lemma lookup_tc_is a : olsr_lookup_tc_entry ip_version a s = Some (s, tree_find comp a T).
Proof. unfold olsr_lookup_tc_entry, se_get. by rewrite (si_db I). Qed.
Lemma lookup_edge_is p t a : N !! p = Some t -> olsr_lookup_tc_edge ip_version p a s = Some (s, tree_find comp a (edge_tree t)).
Proof. intros H. unfold olsr_lookup_tc_edge. by erewrite bind_run by (by apply tc_rd_is). Qed.
Lemma calc_cost_is p d : Q !! p = Some d -> olsr_calc_tc_cost p s = Some (s, calc_cost d).
Proof. intros H. unfold olsr_calc_tc_cost. by rewrite (si_lq I), H. Qed.

Lemma tc_wr_is p t g : N !! p = Some t -> exists s', tc_wr p g s = Some (s', tt) /\ st_is R T (<[p := g t]> N) E m Q s'.
Proof.
  intros H. unfold tc_wr. rewrite (si_db I). simpl. rewrite H. simpl. eexists. split; [done|]. st I.
Qed.
Lemma edge_wr_is p e g : E !! p = Some e -> exists s', edge_wr p g s = Some (s', tt) /\ st_is R T N (<[p := g e]> E) m Q s'.
Proof.
  intros H. unfold edge_wr. rewrite (si_db I). simpl. rewrite H. simpl. eexists. split; [done|]. st I.
Qed.
Lemma edge_free_is p e : E !! p = Some e -> exists s', edge_free p s = Some (s', tt) /\ st_is R T N (delete p E) m (delete p Q) s'.
Proof.
  intros H. unfold edge_free. rewrite (si_db I). simpl. rewrite H. simpl. eexists. split; [done|]. st I.
Qed.
Lemma changes_is b : st_is R T N E m Q (set_changes_topology b s).
Proof. st I. Qed.

End steps.

(** ** Nodes *)
Lemma alloc_rt_path_is R T N E m Q s u t pfx o : st_is R T N E m Q s -> N !! u = Some t ->
  exists p s' L, olsr_alloc_rt_path ip_version u pfx o s = Some (s', Some p) /\ st_is R T (<[u := set_prefix_tree L t]> N) E m Q s'.
Proof.
  intros I H. unfold olsr_alloc_rt_path. rewrite (si_db I). simpl. rewrite H. do 3 eexists. split; [done|]. st I.
Qed.

Lemma add_tc_entry_is R T N E m Q s a : st_is R T N E m Q s -> ipcmp ip_version router_id all_zero <> 0 -> tree_find comp a T = None ->
  exists p s' L, olsr_add_tc_entry ip_version router_id a s = Some (s', Some p) /\ N !! p = None /\
    st_is R (tree_insert comp false a p T) (<[p := set_prefix_tree L (new_tc a)]> N) E m Q s'.
Proof.
  intros I Hid Hf. unfold olsr_add_tc_entry. cbn [add_tc_entry]. destruct (Z.eqb_spec (ipcmp ip_version router_id all_zero) 0); [done|].
  set (p := fresh (dom N)). assert (Hp : N !! p = None) by (apply not_elem_of_dom, is_fresh).
  erewrite bind_run by (unfold se_get; rewrite (si_db I); reflexivity). simpl tcs. fold p. erewrite bind_run by reflexivity.
  set (s1 := with_tdb _ s). assert (I1 : st_is R (tree_insert comp false a p T) (<[p := new_tc a]> N) E m Q s1) by (unfold s1; st I). clearbody s1.
  unfold olsr_insert_routing_table_with. rewrite Z.gtb_ltb, Z.ltb_irrefl.
  erewrite bind2_run; [|erewrite bind_run by (apply (lookup_tc_is _ _ _ _ _ _ _ I1)); by rewrite (tree_find_insert comp) by done].
  erewrite bind2_run by reflexivity.
  erewrite bind2_run by (apply (tc_rd_is _ _ _ _ _ _ _ I1), lookup_insert_eq).
  simpl prefix_tree. unfold tree_find at 1. simpl.
  destruct (alloc_rt_path_is _ _ _ _ _ _ _ p (new_tc a) (mkPfx a (8 * Z.of_nat (tc_ipsize ip_version)) OLSR_RT_ORIGIN_TC) OLSR_RT_ORIGIN_TC
    I1 ltac:(apply lookup_insert_eq)) as (r & s2 & L & R2 & I2).
  rewrite insert_insert_eq in I2. erewrite bind2_run by exact R2. cbv beta iota. erewrite bind2_run by reflexivity.
  exists p, (set_changes_hna true s2), L. split; [done|]. split; [done|]. st I2.
Qed.

(** ** Edges *)
Lemma new_edge_is R T N E m Q s u t a ansn : st_is R T N E m Q s -> N !! u = Some t ->
  exists p s', new_edge ip_version u a ansn s = Some (s', p) /\ E !! p = None /\ Q !! p = None /\
    st_is R T (<[u := set_edge_tree (tree_insert comp true a p (edge_tree t)) t]> N)
      (<[p := mkEdge a None u None 0 0 false ansn]> E) m (<[p := lq_zero]> Q) s'.
Proof.
  intros I H. unfold new_edge. set (p := fresh (dom E ∪ dom Q)). pose proof (is_fresh (dom E ∪ dom Q)) as Hp. fold p in Hp.
  erewrite bind_run by (unfold se_get; rewrite (si_db I), (si_lq I); reflexivity). simpl edges. fold p. erewrite bind_run by reflexivity.
  set (s1 := with_lq _ _). assert (I1 : st_is R T N (<[p := mkEdge a None u None 0 0 false ansn]> E) m (<[p := lq_zero]> Q) s1) by (unfold s1; st I).
  clearbody s1. destruct (tc_wr_is _ _ _ _ _ _ _ I1 u t (fun t => set_edge_tree (tree_insert comp true a p (edge_tree t)) t) H) as (s2 & R2 & I2).
  erewrite bind_run by exact R2. exists p, s2. split; [done|]. split; [apply not_elem_of_dom; set_solver|]. split; [apply not_elem_of_dom; set_solver|done].
Qed.

(** The inner call of [olsr_add_tc_edge_entry], which finds the edge [p] that it
    makes the inverse of, and the last steps of a call. *)
Lemma connect_is R T N E m Q s p q ep eq d : st_is R T N E m Q s -> p <> q -> E !! p = Some ep -> E !! q = Some eq -> Q !! p = Some d ->
  exists s', (edge_wr q (set_inv (Some p));; edge_wr p (set_inv (Some q));; edge_wr p (set_virtual false);;
      c ← olsr_calc_tc_cost p; edge_wr p (set_edge_cost c);; mret p) s = Some (s', p) /\
    st_is R T N (<[p := set_edge_cost (calc_cost d) (set_virtual false (set_inv (Some q) ep))]> (<[q := set_inv (Some p) eq]> E)) m Q s'.
Proof.
  intros I Hpq Hp Hq Hd.
  destruct (edge_wr_is _ _ _ _ _ _ _ I q eq (set_inv (Some p)) Hq) as (s1 & R1 & I1). erewrite bind_run by exact R1.
  destruct (edge_wr_is _ _ _ _ _ _ _ I1 p ep (set_inv (Some q)) ltac:(by rewrite lookup_insert_ne by done)) as (s2 & R2 & I2).
  erewrite bind_run by exact R2.
  destruct (edge_wr_is _ _ _ _ _ _ _ I2 p _ (set_virtual false) ltac:(apply lookup_insert_eq)) as (s3 & R3 & I3). erewrite bind_run by exact R3.
  rewrite insert_insert_eq in I3. erewrite bind_run by (by apply (calc_cost_is _ _ _ _ _ _ _ I3)).
  destruct (edge_wr_is _ _ _ _ _ _ _ I3 p _ (set_edge_cost (calc_cost d)) ltac:(apply lookup_insert_eq)) as (s4 & R4 & I4).
  erewrite bind_run by exact R4. rewrite insert_insert_eq in I4. by exists s4.
Qed.

Definition c0 : Z := calc_cost lq_zero.

Lemma add_inverse_is R T N E m Q s u n p tu tn ep : st_is R T N E m Q s -> N !! u = Some tu -> N !! n = Some tn -> u <> n ->
  E !! p = Some ep -> tree_find comp (tc_addr tu) T = Some u -> tree_find comp (tc_addr tn) (edge_tree tu) = Some p ->
  exists q s', add_tc_edge_entry ip_version router_id 1 n (tc_addr tu) 0 s = Some (s', q) /\ E !! q = None /\ Q !! q = None /\ p <> q /\
    st_is R T (<[n := set_edge_tree (tree_insert comp true (tc_addr tu) q (edge_tree tn)) tn]> N)
      (<[q := mkEdge (tc_addr tu) (Some p) n None c0 0 false 0]> (<[p := set_inv (Some q) ep]> E)) m (<[q := lq_zero]> Q) s'.
Proof.
  intros I Hu Hn Hun Hp Ft Fe. cbn [add_tc_edge_entry].
  destruct (new_edge_is _ _ _ _ _ _ _ n tn (tc_addr tu) 0 I Hn) as (q & s1 & R1 & Hq & Hq' & I1). erewrite bind_run by exact R1.
  assert (Hpq : p <> q) by congruence.
  erewrite bind_run by (apply (lookup_tc_is _ _ _ _ _ _ _ I1)). rewrite Ft. erewrite bind_run by reflexivity. erewrite bind_run by reflexivity.
  erewrite bind_run by (apply (tc_rd_is _ _ _ _ _ _ _ I1), lookup_insert_eq).
  erewrite bind_run by (apply (lookup_edge_is _ _ _ _ _ _ _ I1); by rewrite lookup_insert_ne by done).
  simpl tc_addr. rewrite Fe. erewrite bind_run by reflexivity.
  destruct (connect_is _ _ _ _ _ _ _ q p (mkEdge (tc_addr tu) None n None 0 0 false 0) ep lq_zero I1 ltac:(done) ltac:(apply lookup_insert_eq)
    ltac:(by rewrite lookup_insert_ne by done) ltac:(apply lookup_insert_eq)) as (s2 & R2 & I2).
  exists q, s2. split; [exact R2|]. split_and!; [done..|]. rewrite (insert_insert_ne _ p q) in I2 by done. by rewrite insert_insert_eq in I2.
Qed.

Lemma add_edge_rest_is R T N E m Q s u n p tu tn ep d : st_is R T N E m Q s -> N !! u = Some tu -> N !! n = Some tn -> u <> n ->
  E !! p = Some ep -> Q !! p = Some d -> tree_find comp (tc_addr tu) T = Some u -> tree_find comp (tc_addr tu) (edge_tree tn) = None ->
  tree_find comp (tc_addr tn) (edge_tree tu) = Some p ->
  exists q s', (t ← tc_rd u;
      tc_edge_inv ← olsr_lookup_tc_edge ip_version n (tc_addr t);
      q ← (match tc_edge_inv with
           | Some q => mret q
           | None => q ← add_tc_edge_entry ip_version router_id 1 n (tc_addr t) 0; edge_wr q (set_virtual true);; mret q
           end);
      edge_wr q (set_inv (Some p));; edge_wr p (set_inv (Some q));; edge_wr p (set_virtual false);;
      c ← olsr_calc_tc_cost p; edge_wr p (set_edge_cost c);; mret p) s = Some (s', p) /\
    E !! q = None /\ Q !! q = None /\ p <> q /\
    st_is R T (<[n := set_edge_tree (tree_insert comp true (tc_addr tu) q (edge_tree tn)) tn]> N)
      (<[p := set_edge_cost (calc_cost d) (set_virtual false (set_inv (Some q) ep))]>
        (<[q := mkEdge (tc_addr tu) (Some p) n None c0 0 true 0]> E)) m (<[q := lq_zero]> Q) s'.
Proof.
  intros I Hu Hn Hun Hp Hd Ft Fe Fp. erewrite bind_run by (by apply (tc_rd_is _ _ _ _ _ _ _ I)).
  erewrite bind_run by (by apply (lookup_edge_is _ _ _ _ _ _ _ I)). rewrite Fe.
  destruct (add_inverse_is _ _ _ _ _ _ _ u n p tu tn ep I Hu Hn Hun Hp Ft Fp) as (q & s1 & R1 & Hq & Hq' & Hpq & I1).
  destruct (edge_wr_is _ _ _ _ _ _ _ I1 q _ (set_virtual true) ltac:(apply lookup_insert_eq)) as (s2 & R2 & I2).
  erewrite bind_run by (erewrite bind_run by exact R1; erewrite bind_run by exact R2; reflexivity). rewrite insert_insert_eq in I2.
  destruct (connect_is _ _ _ _ _ _ _ p q (set_inv (Some q) ep) (set_virtual true (mkEdge (tc_addr tu) (Some p) n None c0 0 false 0)) d I2 Hpq
    ltac:(by rewrite lookup_insert_ne, lookup_insert_eq by done) ltac:(apply lookup_insert_eq) ltac:(by rewrite lookup_insert_ne by done)) as (s3 & R3 & I3).
  exists q, s3. split; [exact R3|]. split_and!; [done..|]. rewrite insert_insert_eq in I3.
  rewrite (insert_insert_ne _ q p), insert_insert_eq in I3 by done. exact I3.
Qed.

(** ** The invariant *)
Record topo_ok (s : topo) : Prop := {
  ok_graph : graph_wf comp (shape (tdb s));
  ok_lq : dom (t_lq s) = dom (edges (tdb s))
}.

(** Nothing but edges, the trees of edges and new nodes changed. *)
Record topo_kept (s s' : topo) : Prop := {
  k_rest : rest s' = rest s;
  k_myself : tc_myself (tdb s') = tc_myself (tdb s);
  k_nodes : forall u t, tcs (tdb s) !! u = Some t -> exists L, tcs (tdb s') !! u = Some (set_edge_tree L t);
  k_new : forall u t, tcs (tdb s) !! u = None -> tcs (tdb s') !! u = Some t -> edge_gc_timer t = None /\ tc_validity_timer t = None
}.

Lemma topo_kept_refl s : topo_kept s s.
Proof. split; try done; [intros u t H; exists (edge_tree t); by destruct t|]. intros. congruence. Qed.
Lemma topo_kept_trans s1 s2 s3 : topo_kept s1 s2 -> topo_kept s2 s3 -> topo_kept s1 s3.
Proof.
  intros [A1 A2 A3 A4] [B1 B2 B3 B4]. split; [congruence..| |].
  - intros u t H. apply A3 in H as [L H]. apply B3 in H as [L' H]. by exists L'.
  - intros u t H1 H3. destruct (tcs (tdb s2) !! u) as [t2|] eqn:H2; [|by eapply B4]. pose proof (A4 u t2 H1 H2). apply B3 in H2 as [L H2].
    simplify_eq. done.
Qed.

Lemma node_at s u a L : g_nodes (shape (tdb s)) !! u = Some (a, L) <-> exists t, tcs (tdb s) !! u = Some t /\ tc_addr t = a /\ edge_tree t = L.
Proof. simpl. rewrite lookup_fmap_Some. unfold tc_core. naive_solver. Qed.
Lemma node_core s u t : tcs (tdb s) !! u = Some t -> g_nodes (shape (tdb s)) !! u = Some (tc_addr t, edge_tree t).
Proof. intros H. simpl. by rewrite lookup_fmap, H. Qed.
Lemma link_core s p e : edges (tdb s) !! p = Some e -> g_links (shape (tdb s)) !! p = Some (edge_core e).
Proof. intros H. simpl. by rewrite lookup_fmap, H. Qed.
Lemma link_none s p : edges (tdb s) !! p = None -> g_links (shape (tdb s)) !! p = None.
Proof. intros H. simpl. by rewrite lookup_fmap, H. Qed.

Lemma find_node s a n : topo_ok s -> tree_find comp a (tc_tree (tdb s)) = Some n ->
  exists t, tcs (tdb s) !! n = Some t /\ comp a (tc_addr t) = 0.
Proof.
  intros [W _] (k & Hin & Ek)%tree_find_Some. apply (w_in _ _ W) in Hin as [L Hn]. apply node_at in Hn as (t & Ht & <- & _). by exists t.
Qed.
Lemma node_find_self s u t : topo_ok s -> tcs (tdb s) !! u = Some t -> tree_find comp (tc_addr t) (tc_tree (tdb s)) = Some u.
Proof. intros [W _] H. apply (node_find comp (shape (tdb s)) u (tc_addr t) (edge_tree t)); [done|by apply node_core|apply comp_refl]. Qed.

(** The nodes [N'] are those of [s] with other trees of edges. *)
Lemma kept_same s s' : rest s' = rest s -> tc_myself (tdb s') = tc_myself (tdb s) ->
  (forall u t, tcs (tdb s) !! u = Some t -> exists L, tcs (tdb s') !! u = Some (set_edge_tree L t)) -> dom (tcs (tdb s')) = dom (tcs (tdb s)) -> topo_kept s s'.
Proof.
  intros H1 H2 H3 H4. split; try done. intros u t Hn Hs. apply not_elem_of_dom in Hn. rewrite <- H4 in Hn. apply not_elem_of_dom in Hn. congruence.
Qed.

(** ** A new edge *)
Definition edge_added (s s' : topo) (u : loc) (tu : tc_entry) (addr : ip_addr) (ansn : Z) (p : loc) : Prop := exists q n,
  edges (tdb s) !! p = None /\ edges (tdb s) !! q = None /\ p <> q /\
  edges (tdb s') = <[p := mkEdge addr (Some q) u None c0 0 false ansn]> (<[q := mkEdge (tc_addr tu) (Some p) n None c0 0 true 0]> (edges (tdb s))) /\
  t_lq s' = <[q := lq_zero]> (<[p := lq_zero]> (t_lq s)).

Section add_edge.
Context (s : topo) (u : loc) (tu : tc_entry) (addr : ip_addr) (ansn : Z).
Context (Ok : topo_ok s) (Hu : tcs (tdb s) !! u = Some tu) (Hf : tree_find comp addr (edge_tree tu) = None).
Context (Hself : comp addr (tc_addr tu) <> 0).

Lemma lq_dom_added s' p : edge_added s s' u tu addr ansn p -> dom (t_lq s') = dom (edges (tdb s')).
Proof. intros (q & n & _ & _ & _ & -> & ->). rewrite !dom_insert_L, (ok_lq _ Ok). set_solver. Qed.

Lemma pair_links p q w n a a' c c' v v' an an' x (E : gmap loc tc_edge_entry) : p <> q ->
  <[q := (a', Some p, n)]> (<[p := (a, Some q, w)]> (edge_core <$> E)) =
  edge_core <$> <[p := mkEdge a (Some q) w None c 0 v an]> (<[q := mkEdge a' (Some p) n None c' 0 v' an']> (<[p := mkEdge a None w None 0 0 false x]> E)).
Proof.
  intros Hpq. rewrite !fmap_insert. unfold edge_core. simpl. rewrite (insert_insert_ne _ q p) by done. rewrite (insert_insert_ne _ q p) by done.
  by rewrite insert_insert_eq.
Qed.

Lemma add_edge_known n tn : tree_find comp addr (tc_tree (tdb s)) = Some n -> tcs (tdb s) !! n = Some tn -> comp addr (tc_addr tn) = 0 ->
  exists p s', olsr_add_tc_edge_entry ip_version router_id u addr ansn s = Some (s', p) /\ topo_ok s' /\ topo_kept s s' /\
    edge_added s s' u tu addr ansn p.
Proof.
  intros Fn Hn En. assert (Hun : u <> n) by congruence. unfold olsr_add_tc_edge_entry. remember 1%nat as one. cbn [add_tc_edge_entry]. subst one.
  destruct (new_edge_is _ _ _ _ _ _ _ u tu addr ansn (st_is_self s) Hu) as (p & s1 & R1 & Hp & Hp' & I1). erewrite bind_run by exact R1.
  erewrite bind_run by (apply (lookup_tc_is _ _ _ _ _ _ _ I1)). rewrite Fn. erewrite bind_run by reflexivity. erewrite bind_run by reflexivity.
  pose proof (no_inverse comp _ u n addr _ _ _ _ (ok_graph _ Ok) (node_core _ _ _ Hu) (node_core _ _ _ Hn) En Hf) as Fi.
  destruct (add_edge_rest_is _ _ _ _ _ _ _ u n p _ tn (mkEdge addr None u None 0 0 false ansn) lq_zero I1 (lookup_insert_eq _ _ _)
    ltac:(by rewrite lookup_insert_ne by done) Hun (lookup_insert_eq _ _ _) (lookup_insert_eq _ _ _) (node_find_self s u tu Ok Hu) Fi) as
    (q & s2 & R2 & Hq & Hq' & Hpq & I2).
  { simpl. rewrite (tree_find_ext comp _ _ addr) by (by apply comp_eq_sym; [apply _|]). by apply tree_find_insert; [apply _|]. }
  rewrite lookup_insert_ne in Hq by done.
  assert (A : edge_added s s2 u tu addr ansn p).
  { exists q, n. split; [done|]. split; [done|]. split; [done|]. rewrite (si_db I2), (si_lq I2). split; [|done]. simpl.
    rewrite (insert_insert_ne _ q p) by done. by rewrite insert_insert_eq. }
  exists p, s2. split; [exact R2|]. split; [|split; [|done]].
  - split; [|by eapply lq_dom_added]. rewrite (si_db I2). unfold shape. simpl.
    eapply eq_ind; [apply (add_pair_wf comp _ u n p q addr (tc_addr tu) (tc_addr tn) (edge_tree tu) (edge_tree tn) (ok_graph _ Ok) Hun Hpq);
      [by apply node_core..|by apply link_none|by apply link_none|done|done]|].
    unfold add_pair. simpl. f_equal; [by rewrite !fmap_insert|]. by apply pair_links.
  - apply kept_same; [by rewrite (si_rest I2)|by rewrite (si_db I2)| |rewrite (si_db I2); simpl; by rewrite !dom_insert_lookup_L by (rewrite ?lookup_insert_ne by done; eauto)].
    intros w t Hw. rewrite (si_db I2). simpl. destruct (decide (n = w)) as [<-|]; [rewrite lookup_insert_eq; simplify_eq; eauto|]. rewrite lookup_insert_ne by done.
    destruct (decide (u = w)) as [<-|]; [rewrite lookup_insert_eq; simplify_eq; eauto|]. rewrite lookup_insert_ne by done.
    exists (edge_tree t). by destruct t.
Qed.

Lemma add_edge_unknown : ipcmp ip_version router_id all_zero <> 0 -> tree_find comp addr (tc_tree (tdb s)) = None ->
  exists p s', olsr_add_tc_edge_entry ip_version router_id u addr ansn s = Some (s', p) /\ topo_ok s' /\ topo_kept s s' /\
    edge_added s s' u tu addr ansn p.
Proof.
  intros Hid Fn. unfold olsr_add_tc_edge_entry. remember 1%nat as one. cbn [add_tc_edge_entry]. subst one.
  destruct (new_edge_is _ _ _ _ _ _ _ u tu addr ansn (st_is_self s) Hu) as (p & s1 & R1 & Hp & Hp' & I1). erewrite bind_run by exact R1.
  erewrite bind_run by (apply (lookup_tc_is _ _ _ _ _ _ _ I1)). rewrite Fn.
  destruct (add_tc_entry_is _ _ _ _ _ _ _ addr I1 Hid Fn) as (n & s2 & L & R2 & Hn & I2). erewrite bind_run by exact R2.
  erewrite bind_run by reflexivity. apply lookup_insert_None in Hn as [Hn Hun].
  pose proof (add_node_wf comp _ n addr (ok_graph _ Ok) ltac:(simpl; by rewrite lookup_fmap, Hn) Fn) as W.
  assert (Hnu : g_nodes (add_node comp n addr (shape (tdb s))) !! u = Some (tc_addr tu, edge_tree tu))
    by (simpl; rewrite lookup_insert_ne by done; by apply node_core).
  destruct (add_edge_rest_is _ _ _ _ _ _ _ u n p (set_edge_tree (tree_insert comp true addr p (edge_tree tu)) tu) (set_prefix_tree L (new_tc addr)) (mkEdge addr None u None 0 0 false ansn) lq_zero I2
    ltac:(by rewrite lookup_insert_ne, lookup_insert_eq by done) (lookup_insert_eq _ _ _) Hun (lookup_insert_eq _ _ _) (lookup_insert_eq _ _ _)
    (node_find comp _ u _ _ _ W Hnu (comp_refl _)) eq_refl) as (q & s3 & R3 & Hq & Hq' & Hpq & I3).
  { by apply tree_find_insert; [apply _|]. }
  rewrite lookup_insert_ne in Hq by done.
  assert (A : edge_added s s3 u tu addr ansn p).
  { exists q, n. split; [done|]. split; [done|]. split; [done|]. rewrite (si_db I3), (si_lq I3). split; [|done]. simpl.
    rewrite (insert_insert_ne _ q p) by done. by rewrite insert_insert_eq. }
  exists p, s3. split; [exact R3|]. split; [|split; [|done]].
  - split; [|by eapply lq_dom_added]. rewrite (si_db I3). unfold shape. simpl.
    eapply eq_ind; [apply (add_pair_wf comp _ u n p q addr (tc_addr tu) addr (edge_tree tu) [] W Hun Hpq Hnu (lookup_insert_eq _ _ _));
      [by apply link_none|by apply link_none|apply comp_refl|done]|].
    unfold add_pair. simpl. f_equal; [|by apply pair_links]. rewrite !fmap_insert. unfold tc_core. simpl. rewrite (insert_insert_ne _ u n) by done.
    by rewrite !insert_insert_eq.
  - split; [by rewrite (si_rest I3)|by rewrite (si_db I3)| |]; intros w t Hw; rewrite (si_db I3); simpl.
    + rewrite !(lookup_insert_ne _ n) by congruence.
      destruct (decide (u = w)) as [<-|]; [rewrite lookup_insert_eq; simplify_eq; eauto|]. rewrite lookup_insert_ne by done.
      exists (edge_tree t). by destruct t.
    + destruct (decide (n = w)) as [<-|]; [rewrite lookup_insert_eq; by intros [= <-]|].
      rewrite !(lookup_insert_ne _ n) by done. rewrite (lookup_insert_ne _ u) by congruence. congruence.
Qed.

Lemma add_edge_run : ipcmp ip_version router_id all_zero <> 0 ->
  exists p s', olsr_add_tc_edge_entry ip_version router_id u addr ansn s = Some (s', p) /\ topo_ok s' /\ topo_kept s s' /\
    edge_added s s' u tu addr ansn p.
Proof.
  intros Hid. destruct (tree_find comp addr (tc_tree (tdb s))) as [n|] eqn:Fn; [|by apply add_edge_unknown].
  destruct (find_node s addr n Ok Fn) as (tn & Hn & En). by eapply add_edge_known.
Qed.
End add_edge.

(** ** Changes of the members of an edge *)
Lemma edge_core_upd (E : gmap loc tc_edge_entry) p e e' : E !! p = Some e -> edge_core e' = edge_core e -> edge_core <$> <[p := e']> E = edge_core <$> E.
Proof. intros H Ec. rewrite fmap_insert, Ec. apply insert_id. by rewrite lookup_fmap, H. Qed.

Lemma edge_upd_run s p e g : topo_ok s -> edges (tdb s) !! p = Some e -> edge_core (g e) = edge_core e ->
  exists s', edge_wr p g s = Some (s', tt) /\ topo_ok s' /\ topo_kept s s' /\ edges (tdb s') = <[p := g e]> (edges (tdb s)) /\ tcs (tdb s') = tcs (tdb s).
Proof.
  intros Ok H Ec. destruct (edge_wr_is _ _ _ _ _ _ _ (st_is_self s) p e g H) as (s' & R & I). exists s'. split; [done|].
  split; [|split; [|by rewrite (si_db I)]].
  - split; rewrite (si_db I); [|rewrite (si_lq I), (ok_lq _ Ok)].
    + unfold shape. simpl. rewrite (edge_core_upd _ p e) by done. apply Ok.
    + simpl. symmetry. apply dom_insert_lookup_L. eauto.
  - apply kept_same; [by rewrite (si_rest I)|by rewrite (si_db I)| |by rewrite (si_db I)]. intros w t Hw. rewrite (si_db I). exists (edge_tree t). by destruct t.
Qed.

(** ** The removal of an edge *)
Lemma edge_pair s p e : topo_ok s -> edges (tdb s) !! p = Some e -> exists q i tu tn,
  edge_inv e = Some q /\ edges (tdb s) !! q = Some i /\ edge_inv i = Some p /\ edge_tc i <> edge_tc e /\ p <> q /\
  tcs (tdb s) !! edge_tc e = Some tu /\ tcs (tdb s) !! edge_tc i = Some tn.
Proof.
  intros [W _] H. pose proof (link_core _ _ _ H) as Hc. unfold edge_core in Hc.
  destruct (w_owner _ _ W _ _ _ _ Hc) as [[a L] (tu & Hu & _)%node_at].
  destruct (w_inv _ _ W _ _ _ _ Hc) as (q & k & v & b & L' & Eq & Hq & Hvu & (tn & Hn & _)%node_at & _).
  simpl in Hq. apply lookup_fmap_Some in Hq as (i & [= _ Hi Hv] & Hq). exists q, i, tu, tn. subst v. split_and!; try done. congruence.
Qed.

Lemma internal_delete_is R T N E m Q s p e t : st_is R T N E m Q s -> E !! p = Some e -> edge_inv e = None -> N !! edge_tc e = Some t ->
  exists s', internal_delete_tc_edge_entry p s = Some (s', tt) /\
    st_is R T (<[edge_tc e := set_edge_tree (tree_delete p (edge_tree t)) t]> N) (delete p E) m (delete p Q) s'.
Proof.
  intros I Hp Hi Ht. unfold internal_delete_tc_edge_entry. erewrite bind_run by (by apply (edge_rd_is _ _ _ _ _ _ _ I)).
  rewrite Hi. erewrite bind_run by reflexivity.
  destruct (tc_wr_is _ _ _ _ _ _ _ I _ t (fun t => set_edge_tree (tree_delete p (edge_tree t)) t) Ht) as (s1 & R1 & I1). erewrite bind_run by exact R1.
  destruct (edge_free_is _ _ _ _ _ _ _ I1 p e Hp) as (s2 & R2 & I2). by exists s2.
Qed.

(** An edge whose inverse is advertised, or is a link of this router, stays. *)
Definition pinned (i : tc_edge_entry) : bool := negb (virtual i) || bool_decide (is_Some (neighbor i)).

Lemma delete_pinned s p e q i : topo_ok s -> edges (tdb s) !! p = Some e -> edge_inv e = Some q -> edges (tdb s) !! q = Some i -> pinned i = true ->
  exists s', olsr_delete_tc_edge_entry p s = Some (s', tt) /\ topo_ok s' /\ topo_kept s s' /\ edges (tdb s') = <[p := set_virtual true e]> (edges (tdb s)).
Proof.
  intros Ok Hp Hi Hq Hpin. unfold olsr_delete_tc_edge_entry. pose proof (st_is_self s) as I.
  erewrite bind_run by (by apply (edge_rd_is _ _ _ _ _ _ _ I)). rewrite Hi. erewrite bind_run by reflexivity.
  erewrite bind_run by (by apply (edge_rd_is _ _ _ _ _ _ _ I)). unfold pinned in Hpin. rewrite Hpin.
  destruct (edge_upd_run s p e (set_virtual true) Ok Hp eq_refl) as (s' & R & Ok' & K & E & _). by exists s'.
Qed.

Lemma delete_unpinned s p e q i : topo_ok s -> edges (tdb s) !! p = Some e -> edge_inv e = Some q -> edges (tdb s) !! q = Some i -> pinned i = false ->
  exists s', olsr_delete_tc_edge_entry p s = Some (s', tt) /\ topo_ok s' /\ topo_kept s s' /\ edges (tdb s') = delete q (delete p (edges (tdb s))).
Proof.
  intros Ok Hp Hi Hq Hpin. destruct (edge_pair s p e Ok Hp) as (q' & i' & tu & tn & Hi' & Hq' & Hii & Hne & Hpq & Hu & Hn). simplify_eq.
  unfold olsr_delete_tc_edge_entry. pose proof (st_is_self s) as I.
  erewrite bind_run by (by apply (edge_rd_is _ _ _ _ _ _ _ I)). rewrite Hi. erewrite bind_run by reflexivity.
  erewrite bind_run by (by apply (edge_rd_is _ _ _ _ _ _ _ I)). unfold pinned in Hpin. rewrite Hpin.
  erewrite bind_run by reflexivity. pose proof (changes_is _ _ _ _ _ _ _ I true) as I0.
  destruct (edge_wr_is _ _ _ _ _ _ _ I0 q i (set_inv None) Hq) as (s1 & R1 & I1). erewrite bind_run by exact R1.
  destruct (edge_wr_is _ _ _ _ _ _ _ I1 p e (set_inv None) ltac:(by rewrite lookup_insert_ne by done)) as (s2 & R2 & I2). erewrite bind_run by exact R2.
  destruct (internal_delete_is _ _ _ _ _ _ _ p (set_inv None e) tu I2 (lookup_insert_eq _ _ _) eq_refl Hu) as (s3 & R3 & I3).
  erewrite bind_run by exact R3. rewrite delete_insert_eq in I3.
  destruct (internal_delete_is _ _ _ _ _ _ _ q (set_inv None i) tn I3 ltac:(by rewrite lookup_delete_ne, lookup_insert_eq by done) eq_refl
    ltac:(by rewrite lookup_insert_ne by done)) as (s4 & R4 & I4).
  assert (Hd : delete q (delete p (<[q := set_inv None i]> (edges (tdb s)))) = delete q (delete p (edges (tdb s)))).
  { rewrite delete_insert_ne by done. apply delete_insert_eq. }
  rewrite Hd in I4. exists s4. split; [exact R4|]. simpl in I4. split; [|split; [|by rewrite (si_db I4)]].
  - split; rewrite (si_db I4); [|rewrite (si_lq I4); simpl; by rewrite !dom_delete_L, (ok_lq _ Ok)]. unfold shape. simpl.
    eapply eq_ind; [apply (del_pair_wf comp _ (edge_tc e) (edge_tc i) p q (T_dest_addr e) (T_dest_addr i) _ _ _ _ (ok_graph _ Ok) (not_eq_sym Hne)
      (node_core _ _ _ Hu) (node_core _ _ _ Hn));
        [rewrite (link_core s p e Hp); unfold edge_core; by rewrite Hi|rewrite (link_core s q i Hq); unfold edge_core; by rewrite Hii]|].
    unfold del_pair. simpl. f_equal; [by rewrite !fmap_insert|by rewrite !fmap_delete].
  - apply kept_same; [by rewrite (si_rest I4)|by rewrite (si_db I4)| |rewrite (si_db I4); simpl; by rewrite !dom_insert_lookup_L by (rewrite ?lookup_insert_ne by done; eauto)].
    intros w t Hw. rewrite (si_db I4). simpl.
    destruct (decide (edge_tc i = w)) as [<-|]; [rewrite lookup_insert_eq; simplify_eq; eauto|]. rewrite lookup_insert_ne by done.
    destruct (decide (edge_tc e = w)) as [<-|]; [rewrite lookup_insert_eq; simplify_eq; eauto|]. rewrite lookup_insert_ne by done.
    exists (edge_tree t). by destruct t.
Qed.

(** ** Loops over the edges of a node *)
Section fates.
(** [sel] says which edges a loop revokes, [f] and [g] what happens to an edge
    that stays and to its inverse. *)
Context (u : loc) (sel : tc_edge_entry -> bool) (f g : tc_edge_entry -> tc_edge_entry).
Implicit Types (E : gmap loc tc_edge_entry) (ps : list loc).

Definition paired E ps : Prop := forall p, p ∈ ps -> exists e q i,
  E !! p = Some e /\ edge_tc e = u /\ edge_inv e = Some q /\ E !! q = Some i /\ edge_inv i = Some p /\ edge_tc i <> u.

Definition pair_fate E E' (p : loc) : Prop := forall e q i, E !! p = Some e -> edge_inv e = Some q -> E !! q = Some i ->
  if sel e then if pinned i then E' !! p = Some (f e) /\ E' !! q = Some (g i) else E' !! p = None /\ E' !! q = None
  else E' !! p = Some e /\ E' !! q = Some i.

Record fates ps E E' : Prop := {
  f_pairs : forall p, p ∈ ps -> pair_fate E E' p;
  f_others : forall x, x ∉ ps -> (forall p e, p ∈ ps -> E !! p = Some e -> edge_inv e <> Some x) -> E' !! x = E !! x
}.

Lemma fates_nil E : fates [] E E.
Proof. split; [by intros p ?%elem_of_nil|done]. Qed.

Lemma paired_weaken E ps ps' : paired E ps -> ps' ⊆ ps -> paired E ps'.
Proof. intros P H p Hp. by apply P, H. Qed.

(** A step on the pair of [p] leaves the pairs of the other edges of the node. *)
Lemma step_others p ps E E1 : NoDup (p :: ps) -> paired E (p :: ps) -> fates [p] E E1 -> forall x, x ∈ ps -> exists e q i,
  E !! x = Some e /\ edge_tc e = u /\ edge_inv e = Some q /\ E !! q = Some i /\ edge_inv i = Some x /\ edge_tc i <> u /\
  E1 !! x = Some e /\ E1 !! q = Some i /\ q <> p /\ (forall e', E !! p = Some e' -> edge_inv e' <> Some q).
Proof.
  intros [Hp ND]%NoDup_cons P [_ A2] x Hx. destruct (P p ltac:(left)) as (e & q & i & He & Hu & Hi & Hq & Hii & Hn).
  assert (U1 : forall x, x <> p -> x <> q -> E1 !! x = E !! x).
  { intros y Hyp Hyq. apply A2; [set_solver|]. intros z e' ->%list_elem_of_singleton Hz. congruence. }
  destruct (P x ltac:(by right)) as (e' & q' & i' & He' & Hu' & Hi' & Hq' & Hii' & Hn'). exists e', q', i'.
  assert (x <> p) by congruence. assert (x <> q) by congruence. assert (q' <> p) by congruence. assert (q' <> q) by congruence.
  rewrite !U1 by done. split_and!; try done. intros e2 He2. congruence.
Qed.

Lemma paired_step p ps E E1 : NoDup (p :: ps) -> paired E (p :: ps) -> fates [p] E E1 -> paired E1 ps.
Proof.
  intros ND P F x Hx. destruct (step_others p ps E E1 ND P F x Hx) as (e & q & i & H1 & H2 & H3 & H4 & H5 & H6 & H7 & H8 & _).
  by exists e, q, i.
Qed.

Lemma fates_cons p ps E E1 E' : NoDup (p :: ps) -> paired E (p :: ps) -> fates [p] E E1 -> fates ps E1 E' -> fates (p :: ps) E E'.
Proof.
  intros ND P F [B1 B2]. pose proof (step_others p ps E E1 ND P F) as S1. destruct F as [A1 A2]. apply NoDup_cons in ND as [Hp ND].
  destruct (P p ltac:(left)) as (e & q & i & He & Hu & Hi & Hq & Hii & Hn).
  assert (V1 : forall y e', y ∈ ps -> E1 !! y = Some e' -> edge_inv e' <> Some p /\ edge_inv e' <> Some q).
  { intros y e' Hy Hy'. destruct (S1 y Hy) as (e2 & q' & i' & ? & ? & ? & ? & ? & ? & ? & ? & ? & Hne). specialize (Hne e He). simplify_eq. split; congruence. }
  assert (Hqn : q ∉ ps).
  { intros Hin. destruct (P q ltac:(by right)) as (e' & q' & i' & He' & Hu' & _). congruence. }
  split.
  - intros x [->|Hx]%elem_of_cons.
    + assert (E' !! p = E1 !! p) as Ep by (apply B2; [done|intros y e' Hy He'; by eapply V1]).
      assert (E' !! q = E1 !! q) as Eq by (apply B2; [done|intros y e' Hy He'; by eapply V1]).
      intros e' q' i' H1 H2 H3. rewrite Ep. simplify_eq. rewrite Eq. by apply A1; [left|..].
    + destruct (S1 x Hx) as (e' & q' & i' & H1 & _ & H2 & H3 & _ & _ & H4 & H5 & _). intros e2 q2 i2 G1 G2 G3. simplify_eq. by apply (B1 x Hx).
  - intros x Hx Hinv. apply not_elem_of_cons in Hx as [Hxp Hxs].
    assert (x <> q) by (intros ->; by apply (Hinv p e ltac:(left) He)).
    rewrite B2; [apply A2; [set_solver|intros y e' ->%list_elem_of_singleton Hy; congruence]|done|].
    intros y e' Hy Hy'. destruct (S1 y Hy) as (e2 & q' & i' & H1 & _ & H2 & _ & _ & _ & H4 & _). simplify_eq.
    apply (Hinv y e'); [by right|done].
Qed.

Lemma fates_skip p ps E E' : NoDup (p :: ps) -> paired E (p :: ps) -> (forall e, E !! p = Some e -> sel e = false) -> fates ps E E' -> fates (p :: ps) E E'.
Proof.
  intros ND P Hs. apply fates_cons; [done..|]. split; [|done]. intros x ->%list_elem_of_singleton e q i He Hi Hq. by rewrite (Hs e He).
Qed.

Lemma fates_skip_all ps E : NoDup ps -> paired E ps -> (forall p e, p ∈ ps -> E !! p = Some e -> sel e = false) -> fates ps E E.
Proof.
  induction ps as [|p ps IH]; intros ND P Hs; [apply fates_nil|]. apply fates_skip; [done|done|intros e; apply Hs; left|].
  apply NoDup_cons in ND as [_ ND]. apply IH; [done|eapply paired_weaken; [done|set_solver]|]. intros x e Hx. apply Hs. by right.
Qed.
End fates.

Lemma paired_tree s u t : topo_ok s -> tcs (tdb s) !! u = Some t -> paired u (edges (tdb s)) (edge_tree t).*1.
Proof.
  intros Ok Hu p ([x k] & -> & Hin)%list_elem_of_fmap. simpl. apply (w_ein _ _ (ok_graph _ Ok) _ _ _ _ _ (node_core _ _ _ Hu)) in Hin as [j Hj].
  simpl in Hj. apply lookup_fmap_Some in Hj as (e & [= _ _ He] & Hx). destruct (edge_pair s x e Ok Hx) as (q & i & tu & tn & Hi & Hq & Hii & Hne & _).
  exists e, q, i. subst u. done.
Qed.

Lemma delete_run s p e : topo_ok s -> edges (tdb s) !! p = Some e -> exists s' q i, olsr_delete_tc_edge_entry p s = Some (s', tt) /\
  topo_ok s' /\ topo_kept s s' /\ edge_inv e = Some q /\ p <> q /\ edges (tdb s) !! q = Some i /\
  edges (tdb s') = if pinned i then <[p := set_virtual true e]> (edges (tdb s)) else delete q (delete p (edges (tdb s))).
Proof.
  intros Ok Hp. destruct (edge_pair s p e Ok Hp) as (q & i & _ & _ & Hi & Hq & _ & _ & Hpq & _). destruct (pinned i) eqn:Hpin.
  - destruct (delete_pinned s p e q i Ok Hp Hi Hq Hpin) as (s' & H). exists s', q, i. rewrite Hpin. naive_solver.
  - destruct (delete_unpinned s p e q i Ok Hp Hi Hq Hpin) as (s' & H). exists s', q, i. rewrite Hpin. naive_solver.
Qed.

Lemma pair_upd_fates sel f g (E E' : gmap loc tc_edge_entry) p e q i : E !! p = Some e -> edge_inv e = Some q -> E !! q = Some i -> p <> q ->
  sel e = true -> E' = (if pinned i then <[p := f e]> (<[q := g i]> E) else delete q (delete p E)) -> fates sel f g [p] E E'.
Proof.
  intros He Hi Hq Hpq Hs ->. split.
  - intros x ->%list_elem_of_singleton e' q' i' ? ? ?. simplify_eq. rewrite Hs. destruct (pinned _).
    + by rewrite lookup_insert_eq, lookup_insert_ne, lookup_insert_eq by done.
    + by rewrite lookup_delete_ne, !lookup_delete_eq by done.
  - intros x Hx Hinv. assert (x <> p) by set_solver. assert (x <> q) by (intros ->; by apply (Hinv p e ltac:(left) He)).
    destruct (pinned _); [by rewrite !lookup_insert_ne by done|by rewrite !lookup_delete_ne by done].
Qed.

Definition any_sel (sel : tc_edge_entry -> bool) (E : gmap loc tc_edge_entry) (ps : list loc) : Prop :=
  exists p e, p ∈ ps /\ E !! p = Some e /\ sel e = true.

Lemma any_sel_step u sel f g p ps E E1 : NoDup (p :: ps) -> paired u E (p :: ps) -> fates sel f g [p] E E1 -> any_sel sel E1 ps <-> any_sel sel E ps.
Proof.
  intros ND P F. split; intros (x & e & Hx & He & Hs); exists x, e;
    destruct (step_others _ _ _ _ p ps E E1 ND P F x Hx) as (e' & q & i & H1 & _ & _ & _ & _ & _ & H2 & _); simplify_eq; done.
Qed.

Lemma any_sel_cons sel p ps E e : E !! p = Some e -> any_sel sel E (p :: ps) <-> sel e = true \/ any_sel sel E ps.
Proof.
  intros He. split.
  - intros (x & e' & [->|Hx]%elem_of_cons & ? & ?); [left; congruence|right; by exists x, e'].
  - intros [Hs|(x & e' & Hx & ? & ?)]; [exists p, e; split; [left|done]|exists x, e'; split; [by right|done]].
Qed.

(** [delete_outdated_tc_edges] *)
Definition outdated (ansn : Z) (e : tc_edge_entry) : bool := SEQNO_GREATER_THAN ansn (edge_ansn e).

Lemma delete_outdated_run u t L : forall s r, topo_ok s -> tcs (tdb s) !! u = Some t -> NoDup L.*1 -> paired u (edges (tdb s)) L.*1 ->
  exists s' r', delete_outdated u L r s = Some (s', r') /\ topo_ok s' /\ topo_kept s s' /\
    fates (outdated (tc_ansn t)) (set_virtual true) id L.*1 (edges (tdb s)) (edges (tdb s')) /\
    (r' = true <-> r = true \/ any_sel (outdated (tc_ansn t)) (edges (tdb s)) L.*1).
Proof.
  revert t. induction L as [|[p k] L IH]; intros t s r Ok Hu ND P.
  { exists s, r. split; [done|]. split_and!; [done|apply topo_kept_refl|apply fates_nil|]. split; [by left|by intros [?|(? & ? & ?%elem_of_nil & _)]]. }
  simpl fmap in *. cbn [delete_outdated]. destruct (P p ltac:(left)) as (e & q & i & He & _ & Hi & Hq & _). pose proof (st_is_self s) as I.
  erewrite bind_run by (by apply (tc_rd_is _ _ _ _ _ _ _ I)). erewrite bind_run by (by apply (edge_rd_is _ _ _ _ _ _ _ I)).
  fold (outdated (tc_ansn t) e). destruct (outdated (tc_ansn t) e) eqn:Ho.
  - destruct (delete_run s p e Ok He) as (s1 & q' & i' & R1 & Ok1 & K1 & Hi' & Hpq & Hq' & E1). simplify_eq.
    erewrite bind_run by exact R1. destruct (k_nodes _ _ K1 u t Hu) as [Lu Hu1].
    assert (F1 : fates (outdated (tc_ansn t)) (set_virtual true) id [p] (edges (tdb s)) (edges (tdb s1))).
    { apply (pair_upd_fates _ _ _ _ _ p e q i); try done. rewrite E1. unfold id. by rewrite (insert_id _ q i) by done. }
    destruct (IH (set_edge_tree Lu t) s1 true Ok1 Hu1) as (s2 & r' & R2 & Ok2 & K2 & F2 & Hr); [by apply NoDup_cons in ND as [_ ND]|by eapply paired_step|].
    exists s2, r'. split; [exact R2|]. split_and!; [done|by eapply topo_kept_trans|by eapply fates_cons|].
    rewrite Hr. rewrite (any_sel_cons _ _ _ _ e He). simpl tc_ansn. naive_solver.
  - destruct (IH t s r Ok Hu) as (s2 & r' & R2 & Ok2 & K2 & F2 & Hr); [by apply NoDup_cons in ND as [_ ND]|eapply paired_weaken; [done|set_solver]|].
    exists s2, r'. split; [exact R2|]. split_and!; [done|done|eapply fates_skip; [done|done|intros e' ?; by simplify_eq|done]|].
    rewrite Hr, (any_sel_cons _ _ _ _ e He), Ho. naive_solver.
Qed.

(** [olsr_delete_revoked_tc_edges] *)
Section revoked.
Context (ansn : Z) (lo hi : ip_addr).

Definition revoked (e : tc_edge_entry) : bool :=
  (comp lo (T_dest_addr e) <=? 0) && negb (comp hi (T_dest_addr e) <=? 0) && SEQNO_GREATER_THAN ansn (edge_ansn e).
Definition broken (e : tc_edge_entry) : tc_edge_entry := set_virtual true (set_common_cost LINK_COST_BROKEN (set_edge_cost LINK_COST_BROKEN e)).

Lemma revoke_step s p e : topo_ok s -> edges (tdb s) !! p = Some e -> revoked e = true ->
  exists s', (forall K : SE topo bool, (edge_wr p (set_edge_cost LINK_COST_BROKEN);; edge_wr p (set_common_cost LINK_COST_BROKEN);;
      q ← se_opt (edge_inv e); edge_wr q (set_common_cost LINK_COST_BROKEN);; olsr_delete_tc_edge_entry p;; K) s = K s') /\ topo_ok s' /\ topo_kept s s' /\
    fates revoked broken (set_common_cost LINK_COST_BROKEN) [p] (edges (tdb s)) (edges (tdb s')).
Proof.
  intros Ok He Hs. destruct (edge_pair s p e Ok He) as (q & i & _ & _ & Hi & Hq & _ & _ & Hpq & _).
  destruct (edge_upd_run s p e (set_edge_cost LINK_COST_BROKEN) Ok He eq_refl) as (s1 & R1 & Ok1 & K1 & E1 & _).
  destruct (edge_upd_run s1 p _ (set_common_cost LINK_COST_BROKEN) Ok1 ltac:(rewrite E1; apply lookup_insert_eq) eq_refl) as (s2 & R2 & Ok2 & K2 & E2 & _).
  rewrite E1, insert_insert_eq in E2. rewrite Hi.
  destruct (edge_upd_run s2 q i (set_common_cost LINK_COST_BROKEN) Ok2 ltac:(rewrite E2; by rewrite lookup_insert_ne by done) eq_refl) as (s3 & R3 & Ok3 & K3 & E3 & _).
  rewrite E2 in E3.
  assert (Hp3 : edges (tdb s3) !! p = Some (set_common_cost LINK_COST_BROKEN (set_edge_cost LINK_COST_BROKEN e)))
    by (rewrite E3, lookup_insert_ne, lookup_insert_eq by done; done).
  destruct (delete_run s3 p _ Ok3 Hp3) as (s4 & q' & i' & R4 & Ok4 & K4 & Hi' & _ & Hq' & E4). simpl in Hi'. simplify_eq.
  rewrite E3, lookup_insert_eq in Hq'. injection Hq' as <-. exists s4. split.
  { intros K. by rewrite (bind_run _ _ _ _ _ R1), (bind_run _ _ _ _ _ R2), (bind_run _ _ _ _ _ eq_refl), (bind_run _ _ _ _ _ R3), (bind_run _ _ _ _ _ R4). }
  split; [done|].
  split; [by eapply topo_kept_trans, topo_kept_trans, topo_kept_trans|]. apply (pair_upd_fates _ _ _ _ _ p e q i); try done. rewrite E4, E3. unfold pinned. simpl.
  destruct (_ || _).
  - rewrite (insert_insert_ne _ p q) by done. rewrite (insert_insert_ne _ q p) by done. rewrite (insert_insert_ne _ q p) by done.
    by rewrite insert_insert_eq.
  - rewrite delete_insert_ne by done. rewrite delete_insert_eq. by rewrite delete_insert_eq.
Qed.

Definition keyed (E : gmap loc tc_edge_entry) (L : list (loc * ip_addr)) : Prop := forall p k e, (p, k) ∈ L -> E !! p = Some e -> T_dest_addr e = k.

Lemma above_all (L : list (loc * ip_addr)) (p : loc) k x : (forall y, y ∈ L -> elt comp (p, k) y) -> comp x k <= 0 -> forall y, y ∈ L -> comp x y.2 <= 0.
Proof. intros H Hx y Hy. apply (comp_trans (comp := comp) _ k); [done|]. specialize (H y Hy). unfold elt in H. simpl in H. lia. Qed.

Lemma delete_revoked_run u L : forall s passed r, topo_ok s -> NoDup L.*1 -> StronglySorted (elt comp) L -> paired u (edges (tdb s)) L.*1 ->
  keyed (edges (tdb s)) L -> (passed = true -> forall y, y ∈ L -> comp lo y.2 <= 0) ->
  exists s' r', delete_revoked ip_version ansn lo hi L passed r s = Some (s', r') /\ topo_ok s' /\ topo_kept s s' /\
    fates revoked broken (set_common_cost LINK_COST_BROKEN) L.*1 (edges (tdb s)) (edges (tdb s')) /\
    (r' = true <-> r = true \/ any_sel revoked (edges (tdb s)) L.*1).
Proof.
  induction L as [|[p k] L IH]; intros s passed r Ok ND St P Kd Hpass.
  { exists s, r. split; [done|]. split_and!; [done|apply topo_kept_refl|apply fates_nil|]. split; [by left|by intros [?|(? & ? & ?%elem_of_nil & _)]]. }
  simpl fmap in *. cbn [delete_revoked]. destruct (P p ltac:(left)) as (e & q & i & He & _ & Hi & Hq & _). pose proof (st_is_self s) as I.
  pose proof (Kd p k e ltac:(left) He) as Hk. apply ssorted_cons in St as [Hab St]. pose proof ND as [_ ND']%NoDup_cons.
  erewrite bind_run by (by apply (edge_rd_is _ _ _ _ _ _ _ I)). rewrite Hk.
  assert (Skip : forall b, (b = true -> forall y, y ∈ L -> comp lo y.2 <= 0) -> revoked e = false -> exists s' r', delete_revoked ip_version ansn lo hi L b r s = Some (s', r') /\ topo_ok s' /\ topo_kept s s' /\
    fates revoked broken (set_common_cost LINK_COST_BROKEN) (p :: L.*1) (edges (tdb s)) (edges (tdb s')) /\
    (r' = true <-> r = true \/ any_sel revoked (edges (tdb s)) (p :: L.*1))).
  { intros b Hb Hs. destruct (IH s b r Ok ND' St) as (s' & r' & R & Ok' & K' & F' & Hr); [eapply paired_weaken; [done|set_solver]|intros ? ? ? ?; apply Kd; by right|done|].
    exists s', r'. split; [exact R|]. split_and!; [done|done|eapply fates_skip; [done|done|intros e' ?; by simplify_eq|done]|].
    rewrite Hr, (any_sel_cons _ _ _ _ e He), Hs. naive_solver. }
  destruct (negb passed && negb (comp lo k <=? 0)) eqn:Hskip.
  { apply andb_true_iff in Hskip as [_ Hlo%negb_true_iff]. apply Skip; [done|]. unfold revoked. by rewrite Hk, Hlo. }
  assert (Hlo : comp lo k <= 0).
  { destruct passed; [by apply (Hpass eq_refl (p, k)); left|]. simpl in Hskip. apply negb_false_iff, Z.leb_le in Hskip. done. }
  destruct (Z.leb_spec (comp hi k) 0) as [Hhi|Hhi].
  { exists s, r. split; [done|]. split; [done|]. split; [apply topo_kept_refl|].
    assert (Hall : forall x e', x ∈ p :: L.*1 -> edges (tdb s) !! x = Some e' -> revoked e' = false).
    { intros x e' Hx He'. assert (exists k', (x, k') ∈ (p, k) :: L) as [k' Hk'].
      { apply elem_of_cons in Hx as [->|([y k'] & -> & Hy)%list_elem_of_fmap]; [exists k; left|exists k'; by right]. }
      unfold revoked. rewrite (Kd x k' e' Hk' He'). apply andb_false_iff. left. apply andb_false_iff. right. apply negb_false_iff, Z.leb_le.
      apply elem_of_cons in Hk' as [[= -> ->]|Hk']; [done|]. by apply (above_all L p k hi Hab Hhi (x, k') Hk'). }
    split; [by eapply fates_skip_all|]. split; [by left|]. intros [?|(x & e' & Hx & He' & Hs)]; [done|]. rewrite (Hall x e' Hx He') in Hs. done. }
  destruct (SEQNO_GREATER_THAN ansn (edge_ansn e)) eqn:Hg.
  2: { apply Skip; [intros _; by apply above_all with p k|]. unfold revoked. rewrite Hg. apply andb_false_r. }
  assert (Hs : revoked e = true).
  { unfold revoked. rewrite Hg, Hk. destruct (Z.leb_spec (comp lo k) 0); [|lia]. destruct (Z.leb_spec (comp hi k) 0); [lia|done]. }
  destruct (revoke_step s p e Ok He Hs) as (s1 & R1 & Ok1 & K1 & F1).
  destruct (IH s1 true true Ok1 ND' St) as (s2 & r' & R2 & Ok2 & K2 & F2 & Hr).
  { by eapply paired_step. }
  { intros x k' e' Hx He'. destruct (step_others _ _ _ _ p L.*1 _ _ ND P F1 x ltac:(apply list_elem_of_fmap; by exists (x, k'))) as (e2 & q2 & i2 & H1 & _ & _ & _ & _ & _ & H2 & _).
    simplify_eq. apply (Kd x k' e'); [by right|done]. }
  { intros _. by apply above_all with p k. }
  exists s2, r'. split; [by rewrite R1|]. split_and!; [done|by eapply topo_kept_trans|by eapply fates_cons|]. rewrite Hr, (any_sel_cons _ _ _ _ e He). naive_solver.
Qed.

Lemma keyed_tree s u t : topo_ok s -> tcs (tdb s) !! u = Some t -> keyed (edges (tdb s)) (edge_tree t).
Proof.
  intros Ok Hu p k e Hin He. apply (w_ein _ _ (ok_graph _ Ok) _ _ _ _ _ (node_core _ _ _ Hu)) in Hin as [j Hj].
  simpl in Hj. rewrite lookup_fmap, He in Hj. by injection Hj.
Qed.

Lemma flag_ok s s' : topo_ok s' -> topo_kept s s' -> topo_ok (set_changes_topology true s') /\ topo_kept s (set_changes_topology true s').
Proof. intros [W Q] [A B C D]. by split; split. Qed.

Lemma revoked_op s u t : topo_ok s -> tcs (tdb s) !! u = Some t ->
  exists s' r, olsr_delete_revoked_tc_edges ip_version u ansn lo hi s = Some (s', r) /\ topo_ok s' /\ topo_kept s s' /\
    fates revoked broken (set_common_cost LINK_COST_BROKEN) (edge_tree t).*1 (edges (tdb s)) (edges (tdb s')) /\
    (r = true <-> any_sel revoked (edges (tdb s)) (edge_tree t).*1) /\ (r = true -> changes_topology s' = true).
Proof.
  intros Ok Hu. unfold olsr_delete_revoked_tc_edges. erewrite bind_run by (by apply (tc_rd_is _ _ _ _ _ _ _ (st_is_self s))).
  destruct (w_etree _ _ (ok_graph _ Ok) _ _ _ (node_core _ _ _ Hu)) as [St ND].
  destruct (delete_revoked_run u (edge_tree t) s false false Ok ND St (paired_tree s u t Ok Hu) (keyed_tree s u t Ok Hu) ltac:(done))
    as (s1 & r & R1 & Ok1 & K1 & F1 & Hr). erewrite bind_run by exact R1. assert (Hr' : r = true <-> any_sel revoked (edges (tdb s)) (edge_tree t).*1) by naive_solver.
  destruct r; erewrite bind_run by reflexivity; do 2 eexists; (split; [reflexivity|]).
  - destruct (flag_ok s s1 Ok1 K1). done.
  - done.
Qed.
End revoked.

Lemma outdated_op s u t : topo_ok s -> tcs (tdb s) !! u = Some t ->
  exists s' r, delete_outdated_tc_edges u s = Some (s', r) /\ topo_ok s' /\ topo_kept s s' /\
    fates (outdated (tc_ansn t)) (set_virtual true) id (edge_tree t).*1 (edges (tdb s)) (edges (tdb s')) /\
    (r = true <-> any_sel (outdated (tc_ansn t)) (edges (tdb s)) (edge_tree t).*1) /\ (r = true -> changes_topology s' = true).
Proof.
  intros Ok Hu. unfold delete_outdated_tc_edges. erewrite bind_run by (by apply (tc_rd_is _ _ _ _ _ _ _ (st_is_self s))).
  destruct (w_etree _ _ (ok_graph _ Ok) _ _ _ (node_core _ _ _ Hu)) as [St ND].
  destruct (delete_outdated_run u t (edge_tree t) s false Ok Hu ND (paired_tree s u t Ok Hu)) as (s1 & r & R1 & Ok1 & K1 & F1 & Hr).
  erewrite bind_run by exact R1. assert (Hr' : r = true <-> any_sel (outdated (tc_ansn t)) (edges (tdb s)) (edge_tree t).*1) by naive_solver.
  destruct r; erewrite bind_run by reflexivity; do 2 eexists; (split; [reflexivity|]).
  - destruct (flag_ok s s1 Ok1 K1). done.
  - done.
Qed.
End inv.
