(* ===== verification/TcInput.v ===== *)
(** * The handler of TC messages

    [olsr_tc_update_edge], the loop over the advertised neighbours and
    [olsr_input_tc] keep the invariant of the topology set and of its timers. *)
From S2P Require Import Prelude AvlSpec AvlOps Trees Types Comparators IpCalc Memcookie Clock Timer DuplicateSet Packet NetOut Lsdb LqHandler Neighborhood LinkSet TcBorder TcGraph TcSet TcInv.

Section input.
Context `{LQ : LqHandler} (rnd : nat -> Z) (ip_version : Z) (router_id : ip_addr).
Abbreviation comp := (avl_comp_default ip_version).
Abbreviation ipsize := (tc_ipsize ip_version).

(** The neighbourhood without the link state database. *)
Definition nbh_rest (s : topo) : neighborhood := t_nbh (with_tdb (mkDb [] ∅ ∅ None) s).

Lemma links_rest s s' : nbh_rest s' = nbh_rest s -> links_ok (t_nbh s) -> links_ok (t_nbh s').
Proof.
  intros H Ok p. change (p ∈ link_entry_head (nbh_rest s') -> is_Some (links (nbh_rest s') !! p)). rewrite H. apply Ok.
Qed.

(** What a message leaves alone while its neighbours are read. *)
Record served (s s' : topo) : Prop := {
  sv_nbh : nbh_rest s' = nbh_rest s;
  sv_timers : t_timers s' = t_timers s;
  sv_infos : (tc_edge_gc_timer_info s', tc_validity_timer_info s') = (tc_edge_gc_timer_info s, tc_validity_timer_info s);
  sv_nodes : forall u t, tcs (tdb s) !! u = Some t -> exists t', tcs (tdb s') !! u = Some t' /\
    tc_addr t' = tc_addr t /\ edge_gc_timer t' = edge_gc_timer t /\ tc_validity_timer t' = tc_validity_timer t;
  sv_new : forall u t, tcs (tdb s) !! u = None -> tcs (tdb s') !! u = Some t -> edge_gc_timer t = None /\ tc_validity_timer t = None
}.

Lemma served_trans s1 s2 s3 : served s1 s2 -> served s2 s3 -> served s1 s3.
Proof.
  intros [A0 A1 A2 A3 A4] [B0 B1 B2 B3 B4]. split; [congruence..| |].
  - intros u t H. apply A3 in H as (t2 & H & ? & ? & ?). apply B3 in H as (t3 & H & ? & ? & ?). exists t3. split_and!; [done|congruence..].
  - intros u t H1 H3. destruct (tcs (tdb s2) !! u) as [t2|] eqn:H2; [|by eapply B4]. pose proof (A4 u t2 H1 H2) as [? ?].
    apply B3 in H2 as (t3 & H2 & ? & ? & ?). split; congruence.
Qed.

Lemma rest_parts s s' : rest s' = rest s -> nbh_rest s' = nbh_rest s /\ t_timers s' = t_timers s /\
  (tc_edge_gc_timer_info s', tc_validity_timer_info s') = (tc_edge_gc_timer_info s, tc_validity_timer_info s).
Proof.
  intros H. split; [exact (f_equal (fun r => r.1.1.1.1.1) H)|]. split; [exact (f_equal (fun r => r.1.1.1.2) H)|].
  f_equal; [exact (f_equal (fun r => r.1.1.2) H)|exact (f_equal (fun r => r.1.2) H)].
Qed.

Lemma kept_served s s' : topo_kept s s' -> served s s'.
Proof.
  intros [A1 A2 A3 A4]. destruct (rest_parts _ _ A1) as (E0 & E1 & E2). split; [done|done|done| |done].
  intros u t H. apply A3 in H as [L H]. eexists. split; [exact H|]. done.
Qed.

Lemma served_same s s' : t_nbh s' = t_nbh s -> t_timers s' = t_timers s ->
  (tc_edge_gc_timer_info s', tc_validity_timer_info s') = (tc_edge_gc_timer_info s, tc_validity_timer_info s) -> served s s'.
Proof.
  intros H1 H2 H3. split; [unfold nbh_rest, with_tdb; simpl; by rewrite H1|done|done|unfold tdb; rewrite H1; eauto|unfold tdb; rewrite H1; congruence].
Qed.

(** A state in which one node differs, apart from edges. *)
Lemma served_upd s s' u t g E Q : st_is (rest s) (tc_tree (tdb s)) (<[u := g t]> (tcs (tdb s))) E (tc_myself (tdb s)) Q s' -> tcs (tdb s) !! u = Some t ->
  tc_addr (g t) = tc_addr t -> edge_gc_timer (g t) = edge_gc_timer t -> tc_validity_timer (g t) = tc_validity_timer t -> served s s'.
Proof.
  intros [I1 I2 I3] H Ea E1 E2. destruct (rest_parts _ _ I3) as (R0 & R1 & R2). split; [done|done|done| |]; rewrite I1; simpl.
  - intros w tw Hw. destruct (decide (u = w)) as [<-|]; [|rewrite lookup_insert_ne by done; eauto]. rewrite lookup_insert_eq. simplify_eq. eauto.
  - intros w tw Hw. rewrite lookup_insert_ne by congruence. congruence.
Qed.

Lemma tc_upd_run s u t g : topo_ok ip_version s -> tcs (tdb s) !! u = Some t -> tc_core (g t) = tc_core t ->
  edge_gc_timer (g t) = edge_gc_timer t -> tc_validity_timer (g t) = tc_validity_timer t ->
  exists s', tc_wr u g s = Some (s', tt) /\ topo_ok ip_version s' /\ served s s' /\ edges (tdb s') = edges (tdb s) /\ t_lq s' = t_lq s /\
    tcs (tdb s') = <[u := g t]> (tcs (tdb s)).
Proof.
  intros Ok H Ec E1 E2. destruct (tc_wr_is _ _ _ _ _ _ _ (st_is_self s) u t g H) as (s' & R & I). exists s'. split; [done|].
  rewrite (si_db _ _ _ _ _ _ _ I), (si_lq _ _ _ _ _ _ _ I). simpl. split_and!; try done.
  - split; rewrite (si_db _ _ _ _ _ _ _ I); [|rewrite (si_lq _ _ _ _ _ _ _ I); apply Ok]. unfold shape. simpl.
    rewrite fmap_insert, Ec, insert_id; [apply Ok|]. by rewrite lookup_fmap, H.
  - injection Ec as Ea _. by eapply served_upd.
Qed.

(** ** One neighbour *)
Lemma deserialize_is R T N E m Q s p old curr : st_is R T N E m Q s -> Q !! p = Some old -> (lq_size <= length curr)%nat ->
  exists d s', deserialize_lq old curr = Some (drop lq_size curr, d) /\ olsr_deserialize_tc_lq_pair p curr s = Some (s', drop lq_size curr) /\
    st_is R T N E m (<[p := d]> Q) s'.
Proof.
  intros [I1 I2 I3] Hp Hl. destruct (lq_reads old curr Hl) as [d Hd]. exists d. eexists. split; [done|]. unfold olsr_deserialize_tc_lq_pair.
  erewrite bind_run by reflexivity. rewrite I2, Hp. erewrite bind_run by reflexivity. unfold pkt_rd. rewrite Hd. erewrite bind_run by reflexivity.
  erewrite bind_run by reflexivity. split; [reflexivity|]. split; [exact I1|simpl; by rewrite I2|exact I3].
Qed.

(** A state with the shape of another one. *)
Lemma same_shape s s' N E Q : topo_ok ip_version s -> st_is (rest s) (tc_tree (tdb s)) N E (tc_myself (tdb s)) Q s' ->
  tc_core <$> N = tc_core <$> tcs (tdb s) -> edge_core <$> E = edge_core <$> edges (tdb s) -> dom Q = dom (t_lq s) -> topo_ok ip_version s'.
Proof.
  intros Ok [I1 I2 I3] HN HE HQ. split; rewrite I1; [unfold shape; simpl; rewrite HN, HE; apply Ok|]. simpl. rewrite I2, HQ, (ok_lq _ _ Ok).
  rewrite <- (dom_fmap_L edge_core E), <- (dom_fmap_L edge_core (edges (tdb s))). by rewrite HE.
Qed.

Lemma get_ip_run curr neigh : (ipsize <= length curr)%nat ->
  pkt_get_ipaddress ipsize neigh curr = Some (drop ipsize curr, take ipsize curr ++ drop ipsize neigh).
Proof. intros H. unfold pkt_get_ipaddress. erewrite bind_run; [reflexivity|]. unfold pkt_bytes. by rewrite decide_True. Qed.

Definition allowed (a : ip_addr) (s : topo) : bool :=
  match tree_find comp a (filter_tree (t_net s)) with Some _ => false | None => true end.
Lemma validate_run a s : olsr_validate_address ip_version a s = Some (s, allowed a s).
Proof. unfold olsr_validate_address, allowed. by destruct s. Qed.

Lemma tree_edge s u t a p : topo_ok ip_version s -> tcs (tdb s) !! u = Some t -> tree_find comp a (edge_tree t) = Some p ->
  exists e, edges (tdb s) !! p = Some e /\ edge_tc e = u /\ comp a (T_dest_addr e) = 0.
Proof.
  intros Ok Hu (k & Hin & Ek)%tree_find_Some. apply (w_ein _ _ (ok_graph _ _ Ok) _ _ _ _ _ (node_core _ _ _ Hu)) in Hin as [j Hj].
  simpl in Hj. apply lookup_fmap_Some in Hj as (e & [= He _ Hw] & Hx). exists e. by subst.
Qed.

(** The cost and link quality that the entry for a neighbour gets. *)
Definition edge_updated (s s' : topo) (p : loc) (ansn : Z) (d : lq_data) : Prop := exists e q i,
  edges (tdb s) !! p = Some e /\ edge_inv e = Some q /\ edges (tdb s) !! q = Some i /\ p <> q /\
  t_lq s' = <[p := d]> (t_lq s) /\
  edges (tdb s') = <[p := mkEdge (T_dest_addr e) (Some q) (edge_tc e) (neighbor e) (calc_cost d) (calc_cost d) false ansn]>
    (<[q := set_common_cost (calc_cost d) i]> (edges (tdb s))).

Section update.
Context (s : topo) (u : loc) (t : tc_entry) (ansn : Z) (curr : list Z) (neigh : ip_addr).
Context (Ok : topo_ok ip_version s) (Hu : tcs (tdb s) !! u = Some t) (Hl : (ipsize + lq_size <= length curr)%nat).
Abbreviation addr := (take ipsize curr ++ drop ipsize neigh).

Lemma lq_of p e : edges (tdb s) !! p = Some e -> exists d, t_lq s !! p = Some d.
Proof. intros H. apply elem_of_dom. rewrite (ok_lq _ _ Ok). apply elem_of_dom. eauto. Qed.

Lemma update_known p : tree_find comp addr (edge_tree t) = Some p ->
  exists s' old d, olsr_tc_update_edge ip_version router_id u ansn curr neigh s = Some (s', (drop (ipsize + lq_size) curr, addr, true)) /\
    topo_ok ip_version s' /\ served s s' /\ t_lq s !! p = Some old /\
    deserialize_lq old (drop ipsize curr) = Some (drop (ipsize + lq_size) curr, d) /\ edge_updated s s' p ansn d.
Proof.
  intros Hf. destruct (tree_edge s u t addr p Ok Hu Hf) as (e & He & Hue & _). destruct (edge_pair ip_version s p e Ok He) as (q & i & _ & _ & Hi & Hq & _ & _ & Hpq & _).
  destruct (lq_of p e He) as [old Hold]. unfold olsr_tc_update_edge, pkt_rd at 1. rewrite get_ip_run by lia. erewrite bind_run by reflexivity. cbv iota beta.
  erewrite bind_run by (by apply (lookup_edge_is ip_version _ _ _ _ _ _ _ (st_is_self s))). rewrite Hf.
  pose proof (st_is_self s) as I.
  destruct (edge_wr_is _ _ _ _ _ _ _ I p e (set_edge_ansn ansn) He) as (s1 & R1 & I1). erewrite bind_run by exact R1.
  destruct (deserialize_is _ _ _ _ _ _ _ p old (drop ipsize curr) I1 Hold ltac:(rewrite length_drop; lia)) as (d & s2 & Hd & R2 & I2).
  erewrite bind_run by exact R2. rewrite drop_drop in Hd |- *.
  erewrite bind_run by (apply (calc_cost_is _ _ _ _ _ _ _ I2), lookup_insert_eq).
  destruct (edge_wr_is _ _ _ _ _ _ _ I2 p _ (set_edge_cost (calc_cost d)) (lookup_insert_eq _ _ _)) as (s3 & R3 & I3). erewrite bind_run by exact R3.
  destruct (edge_wr_is _ _ _ _ _ _ _ I3 p _ (set_common_cost (calc_cost d)) (lookup_insert_eq _ _ _)) as (s4 & R4 & I4). erewrite bind_run by exact R4.
  rewrite !insert_insert_eq in I4. erewrite bind_run by (apply (edge_rd_is _ _ _ _ _ _ _ I4), lookup_insert_eq). simpl edge_inv. rewrite Hi.
  erewrite bind_run by reflexivity.
  destruct (edge_wr_is _ _ _ _ _ _ _ I4 q i (set_common_cost (calc_cost d)) ltac:(by rewrite lookup_insert_ne by done)) as (s5 & R5 & I5). erewrite bind_run by exact R5.
  destruct (edge_wr_is _ _ _ _ _ _ _ I5 p _ (set_virtual false) ltac:(rewrite lookup_insert_ne by done; apply lookup_insert_eq)) as (s6 & R6 & I6). erewrite bind_run by exact R6.
  destruct (tc_wr_is _ _ _ _ _ _ _ I6 u t (set_tc_virtual false) Hu) as (s7 & R7 & I7). erewrite bind_run by exact R7.
  exists s7, old, d. split; [done|]. rewrite (insert_insert_ne _ q p), insert_insert_eq in I7 by done. split_and!; try done.
  - eapply same_shape; [exact Ok|exact I7| | |].
    + rewrite fmap_insert. apply insert_id. by rewrite lookup_fmap, Hu.
    + rewrite (edge_core_upd _ p e), (edge_core_upd _ q i); [done..| |by unfold edge_core; simpl; rewrite Hi]. by rewrite lookup_insert_ne by done.
    + by apply dom_insert_lookup_L.
  - eapply served_upd; [exact I7|exact Hu|done..].
  - exists e, q, i. split_and!; try done; [by rewrite (si_lq _ _ _ _ _ _ _ I7)|]. rewrite (si_db _ _ _ _ _ _ _ I7). simpl.
    by rewrite <- Hi.
Qed.

Lemma update_denied : tree_find comp addr (edge_tree t) = None -> allowed addr s = false ->
  olsr_tc_update_edge ip_version router_id u ansn curr neigh s = Some (s, (drop ipsize curr, addr, false)).
Proof.
  intros Hf Ha. unfold olsr_tc_update_edge, pkt_rd at 1. rewrite get_ip_run by lia. erewrite bind_run by reflexivity. cbv iota beta.
  erewrite bind_run by (by apply (lookup_edge_is ip_version _ _ _ _ _ _ _ (st_is_self s))). rewrite Hf.
  erewrite bind_run by apply validate_run. by rewrite Ha.
Qed.

Lemma update_new : ipcmp ip_version router_id all_zero <> 0 -> tree_find comp addr (edge_tree t) = None -> allowed addr s = true -> comp addr (tc_addr t) <> 0 ->
  exists s1 s' p d, olsr_tc_update_edge ip_version router_id u ansn curr neigh s = Some (s', (drop (ipsize + lq_size) curr, addr, true)) /\
    topo_ok ip_version s' /\ served s s' /\ deserialize_lq lq_zero (drop ipsize curr) = Some (drop (ipsize + lq_size) curr, d) /\
    edge_added s s1 u t addr ansn p /\ edges (tdb s') = edges (tdb s1) /\ t_lq s' = <[p := d]> (t_lq s1).
Proof.
  intros Hid Hf Ha Hs. unfold olsr_tc_update_edge, pkt_rd at 1. rewrite get_ip_run by lia. erewrite bind_run by reflexivity. cbv iota beta.
  erewrite bind_run by (by apply (lookup_edge_is ip_version _ _ _ _ _ _ _ (st_is_self s))). rewrite Hf.
  erewrite bind_run by apply validate_run. rewrite Ha. cbn [negb].
  destruct (add_edge_run ip_version router_id s u t addr ansn Ok Hu Hf Hs Hid) as (p & s1 & R1 & Ok1 & K1 & A). erewrite bind_run by exact R1.
  destruct (k_nodes _ _ K1 u t Hu) as [L Hu1]. pose proof A as (q & n & Hp & Hq & Hpq & E1 & Q1).
  assert (He1 : edges (tdb s1) !! p = Some (mkEdge addr (Some q) u None c0 0 false ansn)) by (rewrite E1; apply lookup_insert_eq).
  destruct (deserialize_is _ _ _ _ _ _ _ p lq_zero (drop ipsize curr) (st_is_self s1)) as (d & s2 & Hd & R2 & I2).
  { rewrite Q1, lookup_insert_ne by done. apply lookup_insert_eq. } { rewrite length_drop. lia. }
  erewrite bind_run by exact R2. rewrite drop_drop in Hd |- *.
  destruct (edge_wr_is _ _ _ _ _ _ _ I2 p _ (set_virtual false) He1) as (s3 & R3 & I3). erewrite bind_run by exact R3.
  destruct (tc_wr_is _ _ _ _ _ _ _ I3 u _ (set_tc_virtual false) Hu1) as (s4 & R4 & I4). erewrite bind_run by exact R4.
  rewrite (insert_id _ p) in I4 by done. exists s1, s4, p, d. split; [done|]. split_and!; try done.
  - eapply same_shape; [exact Ok1|exact I4| |done|].
    + rewrite fmap_insert. apply insert_id. by rewrite lookup_fmap, Hu1.
    + apply dom_insert_lookup_L. rewrite Q1, lookup_insert_ne, lookup_insert_eq by done. eauto.
  - eapply served_trans; [by apply kept_served|]. by eapply served_upd; [exact I4|exact Hu1|..].
  - by rewrite (si_db _ _ _ _ _ _ _ I4).
  - by rewrite (si_lq _ _ _ _ _ _ _ I4).
Qed.

(** In all cases. *)
Lemma update_run : ipcmp ip_version router_id all_zero <> 0 -> comp addr (tc_addr t) <> 0 ->
  exists s' n r, (n = ipsize \/ n = ipsize + lq_size)%nat /\
    olsr_tc_update_edge ip_version router_id u ansn curr neigh s = Some (s', (drop n curr, addr, r)) /\ topo_ok ip_version s' /\ served s s'.
Proof.
  intros Hid Hs. destruct (tree_find comp addr (edge_tree t)) as [p|] eqn:Hf.
  - destruct (update_known p Hf) as (s' & old & d & R & Ok' & V & _). exists s', (ipsize + lq_size)%nat, true. auto.
  - destruct (allowed addr s) eqn:Ha.
    + destruct (update_new Hid Hf Ha Hs) as (s1 & s' & p & d & R & Ok' & V & _). exists s', (ipsize + lq_size)%nat, true. auto.
    + exists s, ipsize, false. split; [by left|]. split; [by apply update_denied|]. split; [done|]. by apply served_same.
Qed.
End update.

(** ** The loop *)
Lemma tc_ipsize_pos : (0 < ipsize <= 16)%nat.
Proof. unfold tc_ipsize. case_match; lia. Qed.

(** The [left] bytes of a message do not name the address where the loop reads a neighbour: behind some neighbours, of which
    those that the address filter refuses are skipped without their link quality. *)
Definition not_self (a : ip_addr) (left : Z) (body : list Z) : Prop :=
  forall i j x, (j <= i)%nat -> Z.of_nat (i * ipsize + j * lq_size + ipsize + lq_size) <= left ->
    comp (take ipsize (drop (i * ipsize + j * lq_size) body) ++ x) a <> 0.
Lemma not_self_drop a left body n : n = ipsize \/ n = (ipsize + lq_size)%nat -> not_self a left body -> not_self a (left - Z.of_nat n) (drop n body).
Proof.
  intros Hn H i j x Hj Hk. rewrite drop_drop. destruct Hn as [-> | ->].
  - replace (ipsize + (i * ipsize + j * lq_size))%nat with (S i * ipsize + j * lq_size)%nat by lia. apply H; lia.
  - replace (ipsize + lq_size + (i * ipsize + j * lq_size))%nat with (S i * ipsize + S j * lq_size)%nat by lia. apply H; lia.
Qed.

Lemma tc_edges_run u ansn : ipcmp ip_version router_id all_zero <> 0 -> forall fuel s t left curr lower upper bs rel,
  topo_ok ip_version s -> tcs (tdb s) !! u = Some t -> left <= Z.of_nat (length curr) -> (length curr <= fuel)%nat -> not_self (tc_addr t) left curr ->
  length upper = 16%nat -> length lower = 16%nat ->
  exists s' l h b r, tc_edges ip_version router_id fuel u ansn left curr lower upper bs rel s = Some (s', (l, h, b, r)) /\
    topo_ok ip_version s' /\ served s s' /\ length l = 16%nat /\ length h = 16%nat.
Proof.
  intros Hid. pose proof tc_ipsize_pos as Hip.
  induction fuel as [|fuel IH]; intros s t left curr lower upper bs rel Ok Hu Hl Hf Hn Hup Hlo; cbn [tc_edges];
    (destruct (Z.leb_spec (Z.of_nat ipsize + Z.of_nat lq_size) left) as [Hle|Hle];
      [|do 5 eexists; split; [reflexivity|]; split_and!; [done|by apply served_same|done..]]).
  { exfalso. lia. }
  destruct (update_run s u t ansn curr upper Ok Hu ltac:(lia) Hid) as (s1 & n & r1 & Hr & R1 & Ok1 & V1); [apply (Hn 0%nat 0%nat); simpl; lia|].
  erewrite bind_run by exact R1. cbv beta iota. destruct (sv_nodes _ _ V1 u t Hu) as (t1 & Hu1 & Ea & _).
  assert (Ha : length (take ipsize curr ++ drop ipsize upper) = 16%nat) by (rewrite length_app, length_take, length_drop; lia).
  destruct (IH s1 t1 (left - (Z.of_nat (length curr) - Z.of_nat (length (drop n curr)))) (drop n curr)
    (if bs then lower else take ipsize curr ++ drop ipsize upper) (take ipsize curr ++ drop ipsize upper) true (r1 || rel) Ok1 Hu1)
    as (s2 & l & h & b & r & R2 & Ok2 & V2 & ? & ?); [lia|rewrite length_drop; lia| |done|by destruct bs|].
  { rewrite Ea. replace (left - (Z.of_nat (length curr) - Z.of_nat (length (drop n curr)))) with (left - Z.of_nat n) by (rewrite length_drop; lia).
    by apply not_self_drop. }
  exists s2, l, h, b, r. split; [exact R2|]. split_and!; [done|by eapply served_trans|done..].
Qed.

(** ** The timers of the nodes *)
Definition timer_of (T : timer_st) (ti u h : loc) : Prop :=
  exists tm, timers T !! h = Some tm /\ timer_running tm = true /\ timer_info tm = ti /\ timer_cb_context tm = u.

Lemma timer_set_run T h rel pct ctx ti : timers_ok T -> is_Some (timer_infos T !! ti) -> pct <= 100 -> (forall p, h = Some p -> timer_of T ti ctx p) ->
  exists T' h', olsr_timer_set rnd h rel pct ctx ti T = Some (T', h') /\ timers_ok T' /\ same_env T T' /\
    (forall p, h' = Some p -> timer_of T' ti ctx p) /\ (forall ti' u' q, timer_of T ti' u' q -> (ti', u') <> (ti, ctx) -> timer_of T' ti' u' q).
Proof.
  intros Ok [info Hi] Hpct Hh. unfold olsr_timer_set. erewrite bind_run by (unfold rd_info; by rewrite Hi).
  assert (Hother : forall p, h = Some p -> forall ti' u' q, timer_of T ti' u' q -> (ti', u') <> (ti, ctx) -> q <> p).
  { intros p Hp ti' u' q (tm & Hq & _ & <- & <-) Hne ->. destruct (Hh p Hp) as (tm' & Hp' & _ & <- & <-). congruence. }
  destruct (Z.eqb_spec rel 0) as [->|Hr].
  - destruct h as [p|]; [|exists T, None; split; [done|]; split_and!; done].
    destruct (Hh p eq_refl) as (tm & Hp & Hrun & _). destruct (timer_stop_run T p tm Ok Hp Hrun) as (T' & R & Ok' & Env & Et & _).
    exists T', None. split; [by erewrite bind_run by exact R|]. split_and!; try done. intros ti' u' q Hq Hne. pose proof (Hother p eq_refl ti' u' q Hq Hne).
    destruct Hq as (tq & Hq & ?). exists tq. split; [|done]. rewrite Et. destruct (timer_in_callback tm); [by rewrite lookup_insert_ne by done|by rewrite lookup_delete_ne by done].
  - destruct h as [p|].
    + destruct (Hh p eq_refl) as (tm & Hp & Hrun & Hti & Hctx).
      destruct (timer_change_run T p tm info rel pct Ok Hp (running_linked _ _ _ Ok Hp Hrun) ltac:(by rewrite Hti)) as (T' & R & Ok' & Env & Et & _).
      exists T', (Some p). split; [by erewrite bind_run by exact R|]. split_and!; try done.
      * intros ? [= <-]. eexists. rewrite Et, lookup_insert_eq. done.
      * intros ti' u' q Hq Hne. pose proof (Hother p eq_refl ti' u' q Hq Hne). destruct Hq as (tq & Hq & ?). exists tq. split; [|done].
        by rewrite Et, lookup_insert_ne by done.
    + destruct (timer_start_run rnd T rel pct ctx ti info Ok Hi Hr Hpct) as (p & T' & R & Hf & Et & Ok' & Env & _).
      exists T', (Some p). split; [by erewrite bind_run by exact R|]. split_and!; try done.
      * intros ? [= <-]. eexists. by rewrite Et, lookup_insert_eq.
      * intros ti' u' q (tq & Hq & ?) Hne. exists tq. split; [|done]. by rewrite Et, lookup_insert_ne by congruence.
Qed.

Record tc_timers_ok (s : topo) : Prop := {
  tt_ok : timers_ok (t_timers s);
  tt_gc_info : is_Some (timer_infos (t_timers s) !! tc_edge_gc_timer_info s);
  tt_v_info : is_Some (timer_infos (t_timers s) !! tc_validity_timer_info s);
  tt_ne : tc_edge_gc_timer_info s <> tc_validity_timer_info s;
  tt_gc : forall u t h, tcs (tdb s) !! u = Some t -> edge_gc_timer t = Some h -> timer_of (t_timers s) (tc_edge_gc_timer_info s) u h;
  tt_v : forall u t h, tcs (tdb s) !! u = Some t -> tc_validity_timer t = Some h -> timer_of (t_timers s) (tc_validity_timer_info s) u h
}.

Lemma served_timers s s' : tc_timers_ok s -> served s s' -> tc_timers_ok s'.
Proof.
  intros [T1 T2 T3 T4 T5 T6] [_ A1 [= A2 A2'] A3 A4]. split; rewrite ?A1, ?A2, ?A2'; try done; intros u t h Hu Hh.
  - destruct (tcs (tdb s) !! u) as [t0|] eqn:H0; [|destruct (A4 u t H0 Hu); congruence].
    destruct (A3 u t0 H0) as (t' & Ht' & _ & Hg & _). simplify_eq. apply (T5 u t0 h H0). congruence.
  - destruct (tcs (tdb s) !! u) as [t0|] eqn:H0; [|destruct (A4 u t H0 Hu); congruence].
    destruct (A3 u t0 H0) as (t' & Ht' & _ & _ & Hg). simplify_eq. apply (T6 u t0 h H0). congruence.
Qed.

Section node_timer.
(** One of the two timers of a node. *)
Context (s : topo) (u : loc) (t : tc_entry) (Ok : topo_ok ip_version s) (TO : tc_timers_ok s) (Hu : tcs (tdb s) !! u = Some t).

Lemma put_timers_ok T (h : option loc) g : tc_core (g h t) = tc_core t ->
  exists s', tc_wr u (g h) (put_timers T s) = Some (s', tt) /\ topo_ok ip_version s' /\ tcs (tdb s') = <[u := g h t]> (tcs (tdb s)) /\
    nbh_rest s' = nbh_rest s /\ t_timers s' = T /\ tc_edge_gc_timer_info s' = tc_edge_gc_timer_info s /\ tc_validity_timer_info s' = tc_validity_timer_info s.
Proof.
  intros Ec. unfold tc_wr. change (tdb (put_timers T s)) with (tdb s). rewrite Hu. simpl. eexists. split; [done|].
  split; [|done]. split; [|apply Ok]. unfold shape. simpl. rewrite fmap_insert, Ec, insert_id; [apply Ok|]. by rewrite lookup_fmap, Hu.
Qed.

Lemma set_validity_run rel pct : pct <= 100 ->
  exists s' h, (forall K : SE topo unit, (h ← on_timers (olsr_timer_set rnd (tc_validity_timer t) rel pct u (tc_validity_timer_info s));
      tc_wr u (set_validity_timer h);; K) s = K s') /\
    topo_ok ip_version s' /\ tc_timers_ok s' /\ tcs (tdb s') = <[u := set_validity_timer h t]> (tcs (tdb s)) /\
    nbh_rest s' = nbh_rest s /\ tc_edge_gc_timer_info s' = tc_edge_gc_timer_info s.
Proof.
  intros Hp. destruct TO as [T1 T2 T3 T4 T5 T6].
  destruct (timer_set_run (t_timers s) (tc_validity_timer t) rel pct u (tc_validity_timer_info s) T1 T3 Hp (fun p => T6 u t p Hu)) as (T' & h & R & Ok' & Env & Hh & Ho).
  destruct (put_timers_ok T' h set_validity_timer eq_refl) as (s' & R' & Ok2 & N' & En & Et & Eg & Ev). exists s', h.
  split; [intros K; erewrite bind_run by (unfold on_timers; simpl; by rewrite R); by erewrite bind_run by exact R'|]. split; [done|]. split; [|done].
  split; rewrite ?Et, ?Eg, ?Ev; try done; [by apply (se_infos _ _ Env)..| |]; intros w tw hw Hw Hhw; rewrite N' in Hw.
  - apply Ho; [|congruence]. apply lookup_insert_Some in Hw as [[<- <-]|[_ Hw]]; [by apply (T5 u t)|by apply (T5 w tw)].
  - apply lookup_insert_Some in Hw as [[<- <-]|[Hne Hw]]; [by apply Hh|]. apply Ho; [by apply (T6 w tw)|congruence].
Qed.

Lemma set_gc_run rel pct : pct <= 100 ->
  exists s' h, (h ← on_timers (olsr_timer_set rnd (edge_gc_timer t) rel pct u (tc_edge_gc_timer_info s)); tc_wr u (set_gc_timer h)) s = Some (s', tt) /\
    topo_ok ip_version s' /\ tc_timers_ok s' /\ tcs (tdb s') = <[u := set_gc_timer h t]> (tcs (tdb s)) /\ nbh_rest s' = nbh_rest s.
Proof.
  intros Hp. destruct TO as [T1 T2 T3 T4 T5 T6].
  destruct (timer_set_run (t_timers s) (edge_gc_timer t) rel pct u (tc_edge_gc_timer_info s) T1 T2 Hp (fun p => T5 u t p Hu)) as (T' & h & R & Ok' & Env & Hh & Ho).
  destruct (put_timers_ok T' h set_gc_timer eq_refl) as (s' & R' & Ok2 & N' & En & Et & Eg & Ev). exists s', h.
  split; [by erewrite bind_run by (unfold on_timers; simpl; by rewrite R)|]. split; [done|]. split; [|done].
  split; rewrite ?Et, ?Eg, ?Ev; try done; [by apply (se_infos _ _ Env)..| |]; intros w tw hw Hw Hhw; rewrite N' in Hw.
  - apply lookup_insert_Some in Hw as [[<- <-]|[Hne Hw]]; [by apply Hh|]. apply Ho; [by apply (T5 w tw)|congruence].
  - apply Ho; [|congruence]. apply lookup_insert_Some in Hw as [[<- <-]|[_ Hw]]; [by apply (T6 u t)|by apply (T6 w tw)].
Qed.
End node_timer.

(** ** The handler *)
Definition borders_ok (lower upper : Z) : Prop := (lower = 0 /\ upper = 0) \/ (border_flag_ok ipsize lower /\ border_flag_ok ipsize upper).

Lemma calculate_border_total lo up lower upper : borders_ok lo up -> length lower = 16%nat -> length upper = 16%nat ->
  exists r, olsr_calculate_tc_border ipsize lo lower up upper = Some r.
Proof.
  intros H Hl Hu. unfold olsr_calculate_tc_border. destruct ((lo =? 0) && (up =? 0)) eqn:E; [by eexists|].
  destruct H as [[-> ->]|[H1 H2]]; [done|]. pose proof tc_ipsize_pos.
  destruct (tc_border_total ipsize 0 lo lower) as [a ->]; [lia|done..|]. destruct (tc_border_total ipsize 255 up upper) as [b ->]; [lia|done..|]. by eexists.
Qed.

Lemma input_node_run s u t msg ansn lo up left curr garbage : ipcmp ip_version router_id all_zero <> 0 -> topo_ok ip_version s -> tc_timers_ok s ->
  tcs (tdb s) !! u = Some t -> left <= Z.of_nat (length curr) -> not_self (tc_addr t) left curr -> borders_ok lo up -> length garbage = 16%nat ->
  exists s', input_tc_node rnd ip_version router_id msg u ansn lo up left curr garbage s = Some (s', tt) /\ topo_ok ip_version s' /\ tc_timers_ok s' /\ nbh_rest s' = nbh_rest s.
Proof.
  intros Hid Ok TO Hu Hl Hn Hb Hg. unfold input_tc_node.
  destruct (tc_upd_run s u t (set_tc_msg (hopcnt msg) (seqno msg) ansn) Ok Hu eq_refl eq_refl eq_refl) as (s1 & R1 & Ok1 & V1 & _ & _ & N1).
  erewrite bind_run by exact R1. assert (Hu1 := lookup_insert_eq (tcs (tdb s)) u (set_tc_msg (hopcnt msg) (seqno msg) ansn t)). rewrite <- N1 in Hu1.
  destruct (tc_edges_run u ansn Hid (length curr) s1 _ left curr garbage garbage false false Ok1 Hu1 Hl ltac:(lia) Hn Hg Hg)
    as (s2 & l & h & b & r & R2 & Ok2 & V2 & Ll & Lh). erewrite bind_run by exact R2. cbv beta iota.
  assert (exists s3, (if r : bool then se_mod (fun s => set_relevant (u32 (relevantTcCount s + 1)) s);; se_mod (set_changes_topology true) else mret tt) s2 = Some (s3, tt) /\
    topo_ok ip_version s3 /\ served s2 s3) as (s3 & R3 & Ok3 & V3).
  { destruct r; eexists; (split; [reflexivity|]); (split; [by destruct Ok2; split|by apply served_same]). }
  erewrite bind_run by exact R3.
  assert (exists bo, (if b : bool then olsr_calculate_tc_border ipsize lo l up h else Some None) = Some bo) as [bo Hbo].
  { destruct b; [by apply calculate_border_total|by eexists]. }
  rewrite Hbo. erewrite bind_run by reflexivity.
  pose proof (served_trans _ _ _ V1 (served_trans _ _ _ V2 V3)) as V. destruct (sv_nodes _ _ V u t Hu) as (t3 & Hu3 & _).
  pose proof (served_timers _ _ TO V) as TO3.
  erewrite bind_run by (by apply (tc_rd_is _ _ _ _ _ _ _ (st_is_self s3))). erewrite bind_run by reflexivity.
  destruct (set_validity_run s3 u t3 Ok3 TO3 Hu3 (vtime msg) OLSR_TC_VTIME_JITTER ltac:(done)) as (s4 & h4 & R4 & Ok4 & TO4 & N4 & B4 & Eg4). rewrite R4. pose proof (sv_nbh _ _ V) as B.
  assert (Hu4 := lookup_insert_eq (tcs (tdb s3)) u (set_validity_timer h4 t3)). rewrite <- N4 in Hu4. destruct bo as [[bl bh]|].
  - destruct (revoked_op ip_version ansn bl bh s4 u _ Ok4 Hu4) as (s5 & r5 & R5 & Ok5 & K5 & _). exists s5. split; [by erewrite bind_run by exact R5|].
    split; [done|]. apply kept_served in K5. split; [by eapply served_timers|]. rewrite (sv_nbh _ _ K5). congruence.
  - erewrite bind_run by reflexivity.
    destruct (set_gc_run s4 u (set_validity_timer h4 t3) Ok4 TO4 Hu4 OLSR_TC_EDGE_GC_TIME OLSR_TC_EDGE_GC_JITTER ltac:(done)) as (s5 & h5 & R5 & Ok5 & TO5 & _ & B5).
    exists s5. split_and!; try done. congruence.
Qed.

Lemma add_tc_entry_run s a : ipcmp ip_version router_id all_zero <> 0 -> topo_ok ip_version s -> tree_find comp a (tc_tree (tdb s)) = None ->
  exists p s' t, olsr_add_tc_entry ip_version router_id a s = Some (s', Some p) /\ topo_ok ip_version s' /\ served s s' /\
    tcs (tdb s') !! p = Some t /\ tc_addr t = a /\ edge_tree t = [].
Proof.
  intros Hid Ok Hf. destruct (add_tc_entry_is ip_version router_id _ _ _ _ _ _ _ a (st_is_self s) Hid Hf) as (p & s' & L & R & Hp & I).
  exists p, s'. eexists. split; [exact R|]. rewrite (si_db _ _ _ _ _ _ _ I). simpl. rewrite lookup_insert_eq. split; [|split; [|done]].
  - split; rewrite (si_db _ _ _ _ _ _ _ I); [|rewrite (si_lq _ _ _ _ _ _ _ I); apply Ok]. unfold shape. simpl. rewrite fmap_insert.
    apply (add_node_wf comp _ p a (ok_graph _ _ Ok)); [simpl; by rewrite lookup_fmap, Hp|done].
  - destruct (rest_parts _ _ (si_rest _ _ _ _ _ _ _ I)) as (R0 & R1 & R2). split; [done|done|done| |]; rewrite (si_db _ _ _ _ _ _ _ I); simpl.
    + intros w t Hw. rewrite lookup_insert_ne by congruence. eauto.
    + intros w t Hw. destruct (decide (p = w)) as [<-|]; [rewrite lookup_insert_eq; by intros [= <-]|rewrite lookup_insert_ne by done; congruence].
Qed.

Lemma get_head body : (4 <= length body)%nat ->
  exists ansn lo up, (ansn ← pkt_get_u16; lower ← pkt_get_u8; upper ← pkt_get_u8; mret (ansn, lower, upper)) body = Some (drop 4 body, (ansn, lo, up)) /\
    lo = nth 2 body 0 /\ up = nth 3 body 0.
Proof.
  intros H. destruct body as [|b0 [|b1 [|b2 [|b3 body]]]]; simpl in H; try lia. do 3 eexists. split; [reflexivity|].
  split; simpl; lia.
Qed.

End input.
