(* ===== verification/TcProps.v ===== *)
(** * What the topology set guarantees

    The effect of a TC message on the edges of its originator, the clean-up of
    edges, what the shortest-path calculation gets, and the edge of a node to
    itself. *)
From S2P Require Import Prelude AvlSpec AvlOps Trees Types Comparators IpCalc Memcookie Clock Timer DuplicateSet Packet NetOut Lsdb Spf LqHandler Neighborhood LinkSet TcBorder TcGraph TcSet TcInv TcInput.

(** What an operation on the edges of the node [u] does to the edges [E]: a pair
    of which [sel] selects the edge of the node is removed, unless the inverse
    is advertised or is a link of this router; then the edge becomes [f] and the
    inverse [g] of what it was. Other pairs stay as they are. *)
Definition pruned (u : loc) (sel : tc_edge_entry -> bool) (f g : tc_edge_entry -> tc_edge_entry) (E E' : gmap loc tc_edge_entry) : Prop :=
  (forall p e q i, E !! p = Some e -> edge_tc e = u -> edge_inv e = Some q -> E !! q = Some i ->
    if sel e
    then if negb (virtual i) || bool_decide (is_Some (neighbor i))
      then E' !! p = Some (f e) /\ E' !! q = Some (g i)
      else E' !! p = None /\ E' !! q = None
    else E' !! p = Some e /\ E' !! q = Some i) /\
  (forall p e q i, E !! p = Some e -> edge_tc e <> u -> edge_inv e = Some q -> E !! q = Some i -> edge_tc i <> u -> E' !! p = Some e).

(** The costs of edges are what 32 bits and the bound on a path allow. *)
Definition costs_ok (maxc : Z) (E : gmap loc tc_edge_entry) : Prop :=
  forall p e, E !! p = Some e -> 0 <= cost e /\ (cost e < LINK_COST_BROKEN -> cost e <= maxc).

Section props.
Context `{LQ : LqHandler} (ip_version : Z) (router_id : ip_addr).

(** The invariant of the topology set and of its timers. *)
Definition tc_set_ok (s : topo) : Prop := topo_ok ip_version s /\ tc_timers_ok s /\ links_ok (t_nbh s).
(** The bytes of the message that are a neighbour's address, in a variable that
    held [neigh]. *)
Definition read_addr (curr : list Z) (neigh : ip_addr) : ip_addr := take (tc_ipsize ip_version) curr ++ drop (tc_ipsize ip_version) neigh.

Abbreviation comp := (avl_comp_default ip_version).
Abbreviation ipsize := (tc_ipsize ip_version).

(** C6: the handler of TC messages never leaves allocated memory, fails no
    assertion and keeps the invariant of the topology set: every edge is in the
    tree of its node and has an inverse at the node it leads to, and the timers of
    the nodes are running ones of their own. This holds for every message
    that ends inside the receive buffer, whatever the neighbours in it, provided that the buffer has four bytes behind
    the message header (the code reads them without looking at the length of the message), that the originator does not
    advertise itself, that the border flags are those of addresses, and that this router has a main address. *)
Theorem input_tc_safe (rnd : nat -> Z) (s : topo) (msg : olsr_message) (body : list Z) (garbage from_addr : ip_addr) (status : duplicate_status) :
  ipcmp ip_version router_id all_zero <> 0 -> tc_set_ok s ->
  (4 <= length body)%nat -> end_ msg - payload msg <= Z.of_nat (length body) -> length garbage = 16%nat ->
  not_self ip_version (originator msg) (end_ msg - payload msg - 4) (drop 4 body) -> borders_ok ip_version (nth 2 body 0) (nth 3 body 0) ->
  exists s', olsr_input_tc rnd ip_version router_id msg body garbage from_addr status s = Some (s', tt) /\ tc_set_ok s'.
Proof.
  intros Hid (Ok & TO & Lk) H4 He Hg Hself Hb. unfold olsr_input_tc. destruct (negb _); [by exists s|].
  erewrite bind_run by reflexivity. destruct (check_neighbor_run ip_version (now (t_timers s)) (t_nbh s) from_addr Lk) as [st Rst].
  erewrite bind_run by (unfold on_nbh; rewrite Rst; reflexivity). replace (with_nbh (t_nbh s) s) with s by (by destruct s). destruct (negb _); [by exists s|].
  destruct (get_head body H4) as (ansn & lo & up & Rh & -> & ->). unfold pkt_rd. rewrite Rh. erewrite bind_run by reflexivity. cbv beta iota.
  erewrite bind_run by (by apply (lookup_tc_is ip_version _ _ _ _ _ _ _ (st_is_self s))).
  assert (Hdone : forall (s1 : topo) u t, topo_ok ip_version s1 -> tc_timers_ok s1 -> links_ok (t_nbh s1) -> tcs (tdb s1) !! u = Some t -> comp (originator msg) (tc_addr t) = 0 ->
    exists s', input_tc_node rnd ip_version router_id msg u ansn (nth 2 body 0) (nth 3 body 0) (end_ msg - payload msg - 4) (drop 4 body) garbage s1 = Some (s', tt) /\
      tc_set_ok s').
  { intros s1 u t Ok1 TO1 Lk1 Hu1 Ea. edestruct input_node_run as (s' & R & Ok' & TO' & B); [..|exists s'; split; [exact R|split; [done|split; [done|by eapply links_rest]]]]; try done; [rewrite length_drop; lia|]. intros i j x Hj Hk E.
    apply (Hself i j x Hj Hk). apply (comp_eq_trans comp _ (tc_addr t)); [done|by apply comp_eq_sym; [apply _|]]. }
  destruct (tree_find comp (originator msg) (tc_tree (tdb s))) as [u|] eqn:Hf.
  - destruct (find_node ip_version s _ _ Ok Hf) as (t & Hu & Ea). erewrite bind_run by (by erewrite bind_run by (by apply (tc_rd_is _ _ _ _ _ _ _ (st_is_self s)))).
    cbv beta iota zeta. match goal with |- context [if ?c then _ else _] => destruct c end; [by exists s|].
    erewrite bind_run by reflexivity. erewrite bind_run by reflexivity. by apply (Hdone s u t).
  - erewrite bind_run by reflexivity. cbv beta iota zeta.
    destruct (add_tc_entry_run ip_version router_id s (originator msg) Hid Ok Hf) as (u & s1 & t & R1 & Ok1 & V1 & Hu1 & Ea & _).
    erewrite bind_run by exact R1. erewrite bind_run by reflexivity. apply (Hdone s1 u t); [done|by eapply served_timers| |done|rewrite Ea; apply comp_refl]. eapply links_rest; [apply V1|done].
Qed.

Lemma tree_of s u t p e : topo_ok ip_version s -> tcs (tdb s) !! u = Some t -> edges (tdb s) !! p = Some e -> edge_tc e = u <-> p ∈ (edge_tree t).*1.
Proof.
  intros Ok Hu He. split.
  - intros <-. apply list_elem_of_fmap. exists (p, T_dest_addr e). split; [done|]. apply (w_ein _ _ (ok_graph _ _ Ok) _ _ _ _ _ (node_core _ _ _ Hu)).
    exists (edge_inv e). simpl. by rewrite lookup_fmap, He.
  - intros Hp. destruct (paired_tree ip_version s u t Ok Hu p Hp) as (e' & q & i & He' & Hu' & _). congruence.
Qed.

(** The fate of the pairs of edges at a node, stated for the edges instead of
    the tree of the node. *)
Lemma fates_edges s u t sel f g E' : topo_ok ip_version s -> tcs (tdb s) !! u = Some t -> fates sel f g (edge_tree t).*1 (edges (tdb s)) E' ->
  pruned u sel f g (edges (tdb s)) E'.
Proof.
  intros Ok Hu [F1 F2]. split.
  - intros p e q i He Hue Hi Hq. apply (F1 p); [|done..]. by eapply tree_of.
  - intros p e q i He Hue Hi Hq Huq. rewrite F2; [done| |].
    + intros Hin. apply Hue. by apply (tree_of s u t p e Ok Hu He).
    + intros x ex Hx Hex Hinv. apply (tree_of s u t x ex Ok Hu Hex) in Hx.
      destruct (edge_pair ip_version s x ex Ok Hex) as (q' & i' & _ & _ & Hi' & Hq' & Hii & _). congruence.
Qed.

Lemma any_sel_edges s u t sel : topo_ok ip_version s -> tcs (tdb s) !! u = Some t ->
  any_sel sel (edges (tdb s)) (edge_tree t).*1 <-> exists p e, edges (tdb s) !! p = Some e /\ edge_tc e = u /\ sel e = true.
Proof.
  intros Ok Hu. split; intros (p & e & H); exists p, e.
  - destruct H as (Hin & He & Hs). split; [done|]. split; [|done]. by apply (tree_of s u t p e Ok Hu He).
  - destruct H as (He & Hue & Hs). split; [|done]. by apply (tree_of s u t p e Ok Hu He).
Qed.

(** C17: [olsr_delete_revoked_tc_edges] terminates without an illegal access and
    does to every edge of the node what a message with the given borders asks for.
    An edge whose destination is in the half-open range of the borders and whose
    sequence number is older loses its cost; if its inverse is not advertised
    and is no link of this router, both edges disappear, otherwise the edge stays
    as a virtual one. Every other edge of the topology is as before, and the
    result says whether an edge was revoked. *)
Theorem revoke_correct (s : topo) (u : loc) (t : tc_entry) (ansn : Z) (lo hi : ip_addr) :
  topo_ok ip_version s -> tcs (tdb s) !! u = Some t ->
  exists s' r, olsr_delete_revoked_tc_edges ip_version u ansn lo hi s = Some (s', r) /\ topo_ok ip_version s' /\
    pruned u (fun e => (comp lo (T_dest_addr e) <=? 0) && negb (comp hi (T_dest_addr e) <=? 0) && SEQNO_GREATER_THAN ansn (edge_ansn e))
      (fun e => mkEdge (T_dest_addr e) (edge_inv e) (edge_tc e) (neighbor e) LINK_COST_BROKEN LINK_COST_BROKEN true (edge_ansn e))
      (set_common_cost LINK_COST_BROKEN) (edges (tdb s)) (edges (tdb s')) /\
    (r = true <-> exists p e, edges (tdb s) !! p = Some e /\ edge_tc e = u /\ revoked ip_version ansn lo hi e = true).
Proof.
  intros Ok Hu. destruct (revoked_op ip_version ansn lo hi s u t Ok Hu) as (s' & r & R & Ok' & _ & F & Hr & _). exists s', r.
  split; [done|]. split; [done|]. split; [by apply (fates_edges _ _ _ _ _ _ _ Ok Hu F)|by rewrite <- any_sel_edges].
Qed.

(** The garbage collection of a node deletes exactly the edges that its last
    TC messages no longer advertised: every edge with an older sequence number than
    the node's becomes virtual or, if its inverse is not advertised and is no
    link of this router, disappears with it; every other edge of the
    topology is as before, and [changes_topology] is set if there was such an edge. *)
Theorem edge_gc_correct (s : topo) (u : loc) (t : tc_entry) : topo_ok ip_version s -> tcs (tdb s) !! u = Some t ->
  exists s', olsr_expire_tc_edge_gc u s = Some (s', tt) /\ topo_ok ip_version s' /\
    pruned u (fun e => SEQNO_GREATER_THAN (tc_ansn t) (edge_ansn e)) (set_virtual true) id (edges (tdb s)) (edges (tdb s')) /\
    ((exists p e, edges (tdb s) !! p = Some e /\ edge_tc e = u /\ SEQNO_GREATER_THAN (tc_ansn t) (edge_ansn e) = true) -> changes_topology s' = true).
Proof.
  intros Ok Hu. unfold olsr_expire_tc_edge_gc. destruct (tc_wr_is _ _ _ _ _ _ _ (st_is_self s) u t (set_gc_timer None) Hu) as (s1 & R1 & I1).
  erewrite bind_run by exact R1. assert (Ed : edges (tdb s1) = edges (tdb s)) by (by rewrite (si_db _ _ _ _ _ _ _ I1)).
  assert (Hu1 : tcs (tdb s1) !! u = Some (set_gc_timer None t)) by (rewrite (si_db _ _ _ _ _ _ _ I1); apply lookup_insert_eq).
  assert (Ok1 : topo_ok ip_version s1).
  { eapply same_shape; [exact Ok|exact I1| |done|done]. rewrite fmap_insert. apply insert_id. by rewrite lookup_fmap, Hu. }
  destruct (outdated_op ip_version s1 u _ Ok1 Hu1) as (s2 & r & R2 & Ok2 & _ & F & Hr & Hc). erewrite bind_run by exact R2.
  pose proof (fates_edges _ _ _ _ _ _ _ Ok1 Hu1 F) as F1. rewrite any_sel_edges, Ed in Hr by done. rewrite Ed in F1.
  destruct r; (eexists; split; [reflexivity|]); (split; [first [done|by destruct Ok2; split]|]); (split; [exact F1|]); intros He.
  - done.
  - exfalso. by apply Hr in He.
Qed.

(** An edge that a TC message advertises for the first time gets a cost that
    has nothing to do with the link quality in the message: the cost is computed
    from the empty link quality before the one of the message is read, and
    [common_cost] stays 0. Only the next message with the edge gives it the
    cost of the link quality that this message carries. *)
Theorem new_edge_cost_stale (s : topo) (u : loc) (t : tc_entry) (ansn : Z) (curr : list Z) (neigh : ip_addr) :
  let addr := read_addr curr neigh in
  ipcmp ip_version router_id all_zero <> 0 -> topo_ok ip_version s -> tcs (tdb s) !! u = Some t -> (ipsize + lq_size <= length curr)%nat ->
  comp addr (tc_addr t) <> 0 -> allowed ip_version addr s = true -> tree_find comp addr (edge_tree t) = None ->
  exists s' p e d, olsr_tc_update_edge ip_version router_id u ansn curr neigh s = Some (s', (drop (ipsize + lq_size) curr, addr, true)) /\
    topo_ok ip_version s' /\ edges (tdb s') !! p = Some e /\ T_dest_addr e = addr /\ edge_tc e = u /\ virtual e = false /\ edge_ansn e = ansn /\
    deserialize_lq lq_zero (drop ipsize curr) = Some (drop (ipsize + lq_size) curr, d) /\ t_lq s' !! p = Some d /\
    cost e = calc_cost lq_zero /\ common_cost e = 0.
Proof.
  intros addr Hid Ok Hu Hl Hs Ha Hf.
  destruct (update_new ip_version router_id s u t ansn curr neigh Ok Hu Hl Hid Hf Ha Hs) as (s1 & s' & p & d & R & Ok' & _ & Hd & (q & n & _ & _ & Hpq & E1 & Q1) & E' & Q').
  exists s', p. eexists. exists d. split; [exact R|]. split; [done|]. rewrite E', E1, lookup_insert_eq, Q', lookup_insert_eq. done.
Qed.

Lemma edge_target_of s p e : topo_ok ip_version s -> edges (tdb s) !! p = Some e ->
  exists q i, edge_inv e = Some q /\ edges (tdb s) !! q = Some i /\ edge_tc i <> edge_tc e /\ is_Some (tcs (tdb s) !! edge_tc i) /\
    edge_target (tdb s) p = Some (edge_tc i).
Proof.
  intros Ok He. destruct (edge_pair ip_version s p e Ok He) as (q & i & tu & tn & Hi & Hq & _ & Hne & _ & _ & Hn). exists q, i.
  split_and!; try done. unfold edge_target. rewrite He. simpl. rewrite Hi. simpl. by rewrite Hq.
Qed.

Lemma first_link_none d nbrs v : (forall n, n ∈ nbrs -> edge_target d n.1 <> Some v) -> first_link d nbrs v = None.
Proof.
  intros H. unfold first_link. induction nbrs as [|n nbrs IH]; [done|]. simpl. rewrite decide_False by (apply H; left). apply IH. intros m Hm. apply H. by right.
Qed.

(** The link state database that the operations of the topology set maintain is what
    the shortest-path calculation requires of it: nodes, edges and inverses are
    connected as [Spf] assumes, and no edge of this router leads back to it, as long as
    the costs of the edges are in range and the neighbours have edges of this router. *)
Theorem topology_feeds_spf (s : topo) (me : loc) (nbrs : list (loc * option loc)) (maxc : Z) :
  topo_ok ip_version s -> tc_myself (tdb s) = Some me -> is_Some (tcs (tdb s) !! me) ->
  costs_ok maxc (edges (tdb s)) ->
  0 <= maxc -> Z.of_nat (size (tcs (tdb s))) * maxc < ROUTE_COST_BROKEN ->
  (forall n, n ∈ nbrs -> exists e, edges (tdb s) !! n.1 = Some e /\ edge_tc e = me) ->
  lsdb_ok (tdb s) me nbrs maxc.
Proof.
  intros Ok Hme [tm Hm] Hc Hmax Hsz Hn1. pose proof (ok_graph _ _ Ok) as W. split; [|done| |split].
  - intros p. split.
    + intros ([q k] & -> & Hin)%list_elem_of_fmap. apply (w_in _ _ W) in Hin as [L Hq]. apply node_at in Hq as (t & Ht & _). eauto.
    + intros [t Ht]. apply list_elem_of_fmap. exists (p, tc_addr t). split; [done|]. apply (w_in _ _ W). exists (edge_tree t). by apply node_core.
  - intros n Hn. destruct (Hn1 n Hn) as (e & He & _). destruct (edge_target_of s _ e Ok He) as (q & i & _ & _ & _ & Hi & Ht). eauto.
  - eauto.
  - intros u t ek Hu Hek. assert (Hin : ek.1 ∈ (edge_tree t).*1) by (by apply list_elem_of_fmap_2).
    destruct (paired_tree ip_version s u t Ok Hu _ Hin) as (e & q & i & He & _ & Hi & Hq & _).
    destruct (edge_target_of s _ e Ok He) as (q' & i' & Hi' & Hq' & _ & Ht & _). simplify_eq. exists e, q, i. split_and!; try done.
    destruct (virtual e); [by apply (Hc q)|by apply (Hc ek.1)].
  - intros u v c (t & ek & e & q & i & Hu & Hek & He & Hi & Hq & -> & -> & Hlt). destruct (virtual e); [by apply (Hc q)|by apply (Hc ek.1)].
  - done.
  - apply first_link_none. intros n Hn E. destruct (Hn1 n Hn) as (e & He & <-). destruct (edge_target_of s _ e Ok He) as (q & i & _ & _ & Hne & _ & Ht). congruence.
Qed.

(** the edge at [p] is its own inverse *)
Definition own_inverse (p : loc) (s : topo) : Prop := exists e, edges (tdb s) !! p = Some e /\ edge_inv e = Some p.

End props.

(** ** A small topology

    This router is 10.0.0.1 and knows 10.0.0.2, from which it has a symmetric
    link; the edge between them was added by this router. *)
Definition tdemo_ip (b : Z) : ip_addr := [10; 0; 0; b] ++ replicate 12 0.
Definition tdemo_timers : timer_st :=
  mkTimers ∅ [] ∅ {[ 1%positive := mkInfo 1 false 0 0; 2%positive := mkInfo 2 false 0 0 ]} 1000 1000 0.
Definition tdemo_empty : topo (LQ := lq_etxff_handler) :=
  mkTopo (mkNbh [] ∅ [] ∅ ∅ [7%positive]
    {[ 7%positive := mkLink (tdemo_ip 1) (tdemo_ip 2) 1 None (Some 3%positive) 0 0 5 SYM_LINK false false 0 0 0 None 65536 ]}
    [] ∅ (mkDb [] ∅ ∅ None)) ∅ ∅ (mkNet [] ∅ 9 [] []) tdemo_timers 1 2 false false 0.
Definition tdemo_run : option (topo * loc) :=
  (me ← olsr_add_tc_entry AF_INET (tdemo_ip 1) (tdemo_ip 1); me ← se_opt me;
   olsr_add_tc_edge_entry AF_INET (tdemo_ip 1) me (tdemo_ip 2) 0) tdemo_empty.
Definition tdemo : topo := match tdemo_run with Some (s, _) => s | None => tdemo_empty end.

Lemma tdemo_empty_ok : topo_ok AF_INET tdemo_empty.
Proof.
  split; [|done]. split; simpl; try done; [apply tree_wf_nil|].
  intros p k. split; [by intros ?%elem_of_nil|]. by intros [L H].
Qed.

Lemma tdemo_ok : topo_ok AF_INET tdemo.
Proof.
  destruct (add_tc_entry_run AF_INET (tdemo_ip 1) tdemo_empty (tdemo_ip 1) ltac:(done) tdemo_empty_ok eq_refl) as (p & s & t & R & Ok & V & Ht & Ea & Et).
  destruct (add_edge_run AF_INET (tdemo_ip 1) s p t (tdemo_ip 2) 0 Ok Ht) as (q & s' & R' & Ok' & _); [by rewrite Et|by rewrite Ea|done|].
  unfold tdemo, tdemo_run. erewrite bind_run by exact R. erewrite bind_run by reflexivity. by rewrite R'.
Qed.

Lemma tdemo_timers_ok : tc_timers_ok tdemo.
Proof.
  split; [|by vm_compute; eauto|by vm_compute; eauto|by vm_compute|..]; [|intros u t h Hu; map_cases Hu; done..].
  split; vm_compute; try done.
  - intros k p H. by apply elem_of_nil in H.
  - intros k. constructor.
  - intros p H. by apply elem_of_nil in H.
  - constructor.
Qed.

(** A TC message of 10.0.0.2, which advertises 10.0.0.1 and 10.0.0.3. *)
Definition tdemo_body : list Z := [0; 5; 255; 255] ++ [10; 0; 0; 1; 200; 200; 0; 0] ++ [10; 0; 0; 3; 255; 255; 0; 0].
Definition tdemo_msg : olsr_message := mkMsg 202 15000 32 (tdemo_ip 2) 255 0 1234 0 12 32.

Lemma tdemo_not_self : not_self AF_INET (originator tdemo_msg) (end_ tdemo_msg - payload tdemo_msg - 4) (drop 4 tdemo_body).
Proof.
  intros i j x Hj Hk. change (tc_ipsize AF_INET) with 4%nat in *. change lq_size with 4%nat in *. change (end_ tdemo_msg - payload tdemo_msg - 4) with 16 in Hk.
  replace (i * 4 + j * 4)%nat with (4 * (i + j))%nat by lia. assert (Hs : (i + j <= 2)%nat) by lia. revert Hs. generalize (i + j)%nat. intros n Hs.
  do 3 (destruct n as [|n]; [by vm_compute|]). lia.
Qed.

Lemma tdemo_links_ok : links_ok (t_nbh tdemo).
Proof.
  assert (E : link_entry_head (t_nbh tdemo) = [7%positive]) by (by vm_compute). intros p Hp. rewrite E in Hp. apply list_elem_of_singleton in Hp as ->.
  apply (bool_decide_unpack _). by vm_compute.
Qed.

Lemma input_tc_safe_witness :
  exists s', olsr_input_tc (fun _ => 0) AF_INET (tdemo_ip 1) tdemo_msg tdemo_body (replicate 16 0) (tdemo_ip 2) NEW_OLSR_MESSAGE tdemo = Some (s', tt) /\
    tc_set_ok AF_INET s'.
Proof.
  apply (input_tc_safe AF_INET (tdemo_ip 1) (fun _ => 0) tdemo tdemo_msg tdemo_body (replicate 16 0) (tdemo_ip 2) NEW_OLSR_MESSAGE);
    [done|split; [apply tdemo_ok|split; [apply tdemo_timers_ok|apply tdemo_links_ok]]|by apply Nat.leb_le|done|done|apply tdemo_not_self|right; by split; left].
Defined.

(** The message gives the known edge its cost; the new one is unusable although
    its link quality is perfect. *)
Example tdemo_costs :
  (fun r => (fun e => (e.1, cost e.2)) <$> map_to_list (edges (tdb r.1))) <$>
    olsr_input_tc (fun _ => 0) AF_INET (tdemo_ip 1) tdemo_msg tdemo_body (replicate 16 0) (tdemo_ip 2) NEW_OLSR_MESSAGE tdemo =
  Some [(3%positive, LINK_COST_BROKEN); (4%positive, LINK_COST_BROKEN); (2%positive, 106536); (1%positive, LINK_COST_BROKEN)].
Proof. by vm_compute. Qed.

Definition tdemo_tc (p : loc) : tc_entry := default (new_tc []) (tcs (tdb tdemo) !! p).
Definition tdemo_edge (p : loc) : tc_edge_entry := default (mkEdge [] None 1 None 0 0 false 0) (edges (tdb tdemo) !! p).

(** The edge from 10.0.0.2 is revoked: it stays as a virtual one, since its
    inverse is advertised. *)
Lemma revoke_correct_witness :
  exists s' r, olsr_delete_revoked_tc_edges AF_INET 2 5 (tdemo_ip 0) (tdemo_ip 9) tdemo = Some (s', r) /\ topo_ok AF_INET s' /\
    edges (tdb s') !! 2%positive = Some (mkEdge (tdemo_ip 1) (Some 1%positive) 2 None LINK_COST_BROKEN LINK_COST_BROKEN true 0).
Proof.
  destruct (revoke_correct AF_INET tdemo 2 (tdemo_tc 2) 5 (tdemo_ip 0) (tdemo_ip 9) tdemo_ok ltac:(by vm_compute)) as (s' & r & R & Ok & [H _] & _).
  exists s', r. split; [exact R|]. split; [exact Ok|].
  exact (proj1 (H 2%positive (tdemo_edge 2) 1%positive (tdemo_edge 1) ltac:(by vm_compute) ltac:(by vm_compute) ltac:(by vm_compute) ltac:(by vm_compute))).
Defined.

Lemma edge_gc_correct_witness :
  exists s', olsr_expire_tc_edge_gc 2 tdemo = Some (s', tt) /\ topo_ok AF_INET s' /\ edges (tdb s') !! 2%positive = Some (tdemo_edge 2).
Proof.
  destruct (edge_gc_correct AF_INET tdemo 2 (tdemo_tc 2) tdemo_ok ltac:(by vm_compute)) as (s' & R & Ok & [H _] & _).
  exists s'. split; [exact R|]. split; [exact Ok|].
  exact (proj1 (H 2%positive (tdemo_edge 2) 1%positive (tdemo_edge 1) ltac:(by vm_compute) ltac:(by vm_compute) ltac:(by vm_compute) ltac:(by vm_compute))).
Defined.

Lemma new_edge_cost_stale_witness :
  exists s' p e d, olsr_tc_update_edge AF_INET (tdemo_ip 1) 2 5 [10; 0; 0; 3; 255; 255; 0; 0] (replicate 16 0) tdemo = Some (s', ([], tdemo_ip 3, true)) /\
    topo_ok AF_INET s' /\ edges (tdb s') !! p = Some e /\ T_dest_addr e = tdemo_ip 3 /\ edge_tc e = 2%positive /\ virtual e = false /\ edge_ansn e = 5 /\
    deserialize_lq lq_zero [255; 255; 0; 0] = Some ([], d) /\ t_lq s' !! p = Some d /\ cost e = calc_cost lq_zero /\ common_cost e = 0.
Proof.
  exact (new_edge_cost_stale AF_INET (tdemo_ip 1) tdemo 2 (tdemo_tc 2) 5 [10; 0; 0; 3; 255; 255; 0; 0] (replicate 16 0)
    ltac:(done) tdemo_ok ltac:(by vm_compute) ltac:(by apply Nat.leb_le) ltac:(by vm_compute) ltac:(by vm_compute) ltac:(by vm_compute)).
Defined.


Definition with_myself {LQ : LqHandler} (m : option loc) (s : topo) : topo := with_tdb (mkDb (tc_tree (tdb s)) (tcs (tdb s)) (edges (tdb s)) m) s.
Lemma with_myself_ok {LQ : LqHandler} v m s : topo_ok v s -> topo_ok v (with_myself m s).
Proof. intros [W Q]. by split. Qed.
Definition tdemo_me : topo := with_myself (Some 1%positive) tdemo.

Lemma tdemo_edges p e : edges (tdb tdemo_me) !! p = Some e -> (p = 1%positive \/ p = 2%positive) /\ cost e = LINK_COST_BROKEN /\ edge_tc e = p.
Proof. intros H. map_cases H; auto. Qed.

Lemma topology_feeds_spf_witness : lsdb_ok (tdb tdemo_me) 1 [(1%positive, Some 21%positive)] 100.
Proof.
  apply (topology_feeds_spf AF_INET tdemo_me 1 [(1%positive, Some 21%positive)] 100);
    [apply with_myself_ok, tdemo_ok|done|apply (bool_decide_unpack _); by vm_compute| |done|by vm_compute|].
  - intros p e (_ & -> & _)%tdemo_edges. done.
  - intros n ->%list_elem_of_singleton. exists (tdemo_edge 1). split; by vm_compute.
Defined.
