(* ===== verification/RoutingTable.v ===== *)
(** * The routing table ([routing_table.c], [routing_table.h])

    Every prefix that a node of the topology announces is a path of that node
    ([rt_path] of [TcSet]). The paths to one prefix that are in use hang off its
    route entry, which knows the best of them and the next hop that the kernel
    has. The tree of the paths of an entry is a sequence, also for IPv4 where its
    comparator is no order: nothing here depends on where a path is. *)
From S2P Require Import Prelude AvlSpec Trees Types Comparators Lsdb LqHandler LqEtxFf Neighborhood TcSet TcProps.

Record rt_entry := mkRt {
  rt_dst : olsr_ip_prefix;
  rt_best : option loc;
  rt_gateway : ip_addr;
  rt_interface : option loc;
  rt_cost : Z;
  rt_hops : Z;
  rt_path_tree : list (loc * olsr_ip_prefix);
  failure_count : Z
}.

(** The members of an interface that locks concern: the reference count, and
    whether the interface is in the list of interfaces. *)
Record if_lock := mkLock { refcount : Z; int_queued : bool }.

(** The hooks by which routes reach the kernel, [olsr_add_route_function] and
    [olsr_del_route_function]. They see the entry and its best path. [None] is a run
    without a defined result. *)
Class RouteExport := {
  kernel : Type;
  olsr_add_route_function : rt_entry -> option rt_path -> kernel -> option (kernel * Z);
  olsr_del_route_function : rt_entry -> option rt_path -> kernel -> option (kernel * Z)
}.

Section routing_table.
Context `{LQ : LqHandler} `{KE : RouteExport} (ip_version lq_nat_thresh : Z).

Record rib := mkRib {
  r_topo : topo;
  rts : gmap loc rt_entry;
  routingtree : list (loc * olsr_ip_prefix);
  routingtree_version : Z;
  current_inetgw : option loc;
  chg_kernel_list : list loc;
  locks : gmap loc if_lock;
  kern : kernel
}.

Abbreviation M := (SE rib).
Abbreviation pcomp := (avl_comp_prefix_default ip_version).
Abbreviation ocomp := (avl_comp_addr_origin_default ip_version).

(** ** Memory *)
Definition paths (s : rib) : gmap loc rt_path := rtps (r_topo s).
Definition with_topo (w : topo) (s : rib) : rib :=
  mkRib w (rts s) (routingtree s) (routingtree_version s) (current_inetgw s) (chg_kernel_list s) (locks s) (kern s).
Definition with_paths (P : gmap loc rt_path) (s : rib) : rib := with_topo (with_rtps P (r_topo s)) s.
Definition with_rts (R : gmap loc rt_entry) (s : rib) : rib :=
  mkRib (r_topo s) R (routingtree s) (routingtree_version s) (current_inetgw s) (chg_kernel_list s) (locks s) (kern s).
Definition with_rtree (L : list (loc * olsr_ip_prefix)) (s : rib) : rib :=
  mkRib (r_topo s) (rts s) L (routingtree_version s) (current_inetgw s) (chg_kernel_list s) (locks s) (kern s).
Definition with_version (v : Z) (s : rib) : rib :=
  mkRib (r_topo s) (rts s) (routingtree s) v (current_inetgw s) (chg_kernel_list s) (locks s) (kern s).
Definition with_inetgw (g : option loc) (s : rib) : rib :=
  mkRib (r_topo s) (rts s) (routingtree s) (routingtree_version s) g (chg_kernel_list s) (locks s) (kern s).
Definition with_chg (l : list loc) (s : rib) : rib :=
  mkRib (r_topo s) (rts s) (routingtree s) (routingtree_version s) (current_inetgw s) l (locks s) (kern s).
Definition with_locks (l : gmap loc if_lock) (s : rib) : rib :=
  mkRib (r_topo s) (rts s) (routingtree s) (routingtree_version s) (current_inetgw s) (chg_kernel_list s) l (kern s).
Definition with_kern (k : kernel) (s : rib) : rib :=
  mkRib (r_topo s) (rts s) (routingtree s) (routingtree_version s) (current_inetgw s) (chg_kernel_list s) (locks s) k.

Definition rtp_rd (p : loc) : M rt_path := fun s => (fun r => (s, r)) <$> paths s !! p.
Definition rtp_wr (p : loc) (g : rt_path -> rt_path) : M unit := fun s =>
  (fun r => (with_paths (<[p := g r]> (paths s)) s, tt)) <$> paths s !! p.
Definition rtp_free (p : loc) : M unit := fun s =>
  (fun _ => (with_paths (delete p (paths s)) s, tt)) <$> paths s !! p.
Definition rt_rd (p : loc) : M rt_entry := fun s => (fun r => (s, r)) <$> rts s !! p.
Definition rt_wr (p : loc) (g : rt_entry -> rt_entry) : M unit := fun s =>
  (fun r => (with_rts (<[p := g r]> (rts s)) s, tt)) <$> rts s !! p.

Definition set_best (b : option loc) (r : rt_entry) : rt_entry :=
  mkRt (rt_dst r) b (rt_gateway r) (rt_interface r) (rt_cost r) (rt_hops r) (rt_path_tree r) (failure_count r).
Definition set_path_tree (L : list (loc * olsr_ip_prefix)) (r : rt_entry) : rt_entry :=
  mkRt (rt_dst r) (rt_best r) (rt_gateway r) (rt_interface r) (rt_cost r) (rt_hops r) L (failure_count r).
Definition set_failure_count (n : Z) (r : rt_entry) : rt_entry :=
  mkRt (rt_dst r) (rt_best r) (rt_gateway r) (rt_interface r) (rt_cost r) (rt_hops r) (rt_path_tree r) n.
Definition set_rt_hop (g : ip_addr) (i : option loc) (c h : Z) (r : rt_entry) : rt_entry :=
  mkRt (rt_dst r) (rt_best r) g i c h (rt_path_tree r) (failure_count r).

Definition set_rtp_rt (o : option loc) (r : rt_path) : rt_path :=
  mkRtp (rtp_dst r) (rtp_originator r) o (rtp_tc r) (rtp_gateway r) (rtp_interface r) (rtp_cost r) (rtp_hops r) (rtp_version r).
Definition set_rtp_tc (o : option loc) (r : rt_path) : rt_path :=
  mkRtp (rtp_dst r) (rtp_originator r) (rtp_rt r) o (rtp_gateway r) (rtp_interface r) (rtp_cost r) (rtp_hops r) (rtp_version r).
Definition set_rtp_hop (v : Z) (g : ip_addr) (i : option loc) (c h : Z) (r : rt_path) : rt_path :=
  mkRtp (rtp_dst r) (rtp_originator r) (rtp_rt r) (rtp_tc r) g i c h v.

(** ** Interface locks ([interfaces.c]) *)
Definition lock_interface (ifp : option loc) : M unit :=
  i ← se_opt ifp;
  l ← se_get (fun s => locks s !! i);
  l ← se_opt l;
  se_mod (fun s => with_locks (<[i := mkLock (u32 (refcount l + 1)) (int_queued l)]> (locks s)) s).

Definition unlock_interface (ifp : option loc) : M unit :=
  i ← se_opt ifp;
  l ← se_get (fun s => locks s !! i);
  l ← se_opt l;
  se_assert (negb (refcount l =? 0));;
  let n := u32 (refcount l - 1) in
  if negb (n =? 0) then se_mod (fun s => with_locks (<[i := mkLock n (int_queued l)]> (locks s)) s)
  else
    se_assert (negb (int_queued l));;
    se_mod (fun s => with_locks (delete i (locks s)) s).

(** ** Paths and entries *)
Definition olsr_bump_routingtree_version : M unit := se_mod (fun s => with_version (u32 (routingtree_version s + 1)) s).

Definition olsr_lookup_routing_table (dst : ip_addr) : M (option loc) :=
  se_get (fun s => tree_find pcomp (mkPfx dst (8 * Z.of_nat (tc_ipsize ip_version)) 0) (routingtree s)).

Definition olsr_update_rt_path (p : loc) (tc : tc_entry) (link : link_entry) : M unit :=
  v ← se_get routingtree_version;
  r ← rtp_rd p;
  (if negb (bool_decide (rtp_interface r = Some (inter link))) then
     (match rtp_interface r with Some i => unlock_interface (Some i) | None => mret tt end);;
     lock_interface (Some (inter link))
   else mret tt);;
  rtp_wr p (set_rtp_hop v (neighbor_iface_addr link) (Some (inter link)) (path_cost (tc_spf tc)) (hops (tc_spf tc))).

(** The allocator returns memory that is zeroed. *)
Definition olsr_alloc_rt_entry (pfx : olsr_ip_prefix) : M loc := fun s =>
  let p := fresh (dom (rts s)) in
  let s := with_rtree (tree_insert pcomp false pfx p (routingtree s)) s in
  Some (with_rts (<[p := mkRt pfx None (replicate 16 0) None 0 0 [] 0]> (rts s)) s, p).

Definition olsr_insert_rt_path (p : loc) (tc : tc_entry) (link : link_entry) : M unit :=
  r ← rtp_rd p;
  if path_cost (tc_spf tc) =? ROUTE_COST_BROKEN then mret tt
  else if prefix_len (rtp_dst r) >? 8 * Z.of_nat (tc_ipsize ip_version) then mret tt
  else
    rt ← se_get (fun s => tree_find pcomp (rtp_dst r) (routingtree s));
    rt ← (match rt with Some rt => mret rt | None => olsr_alloc_rt_entry (rtp_dst r) end);
    rt_wr rt (fun e => set_path_tree (tree_insert ocomp false (rtp_originator r) p (rt_path_tree e)) e);;
    rtp_wr p (set_rtp_rt (Some rt));;
    olsr_update_rt_path p tc link.

(** ** The best path *)

(** The cost of the path to the current internet gateway is reduced. *)
Definition nat_cost (etx : Z) : Z :=
  if etx <? 2147483647 / 1000 then u32 (etx * lq_nat_thresh) / 1000 else u32 (etx / 1000 * lq_nat_thresh).

Definition cmp_cost (inetgw : option loc) (p : loc) (r : rt_path) : Z :=
  if bool_decide (inetgw = Some p) then nat_cost (rtp_cost r) else rtp_cost r.

(** Paths are given with their addresses, because the gateway is recognised by
    its address. *)
Definition olsr_cmp_rtp (rtp1 rtp2 : option (loc * rt_path)) (inetgw : option loc) : bool :=
  match rtp1, rtp2 with
  | None, _ => false
  | Some _, None => true
  | Some (p1, r1), Some (p2, r2) =>
    let etx1 := cmp_cost inetgw p1 r1 in
    let etx2 := cmp_cost inetgw p2 r2 in
    if etx1 <? etx2 then true
    else if etx1 >? etx2 then false
    else if rtp_hops r1 <? rtp_hops r2 then true
    else if rtp_hops r1 >? rtp_hops r2 then false
    else if prefix_origin (rtp_originator r1) <? prefix_origin (rtp_originator r2) then true
    else if prefix_origin (rtp_originator r1) >? prefix_origin (rtp_originator r2) then false
    else negb (ipcmp ip_version (prefix (rtp_originator r1)) (prefix (rtp_originator r2)) =? 0)
  end.

#[local] Arguments olsr_cmp_rtp : simpl never.

Definition rtp_opt_rd (o : option loc) : M (option (loc * rt_path)) :=
  match o with None => mret None | Some p => r ← rtp_rd p; mret (Some (p, r)) end.

Definition olsr_cmp_rt (rt1 rt2 : loc) : M bool :=
  e1 ← rt_rd rt1; b1 ← rtp_opt_rd (rt_best e1);
  e2 ← rt_rd rt2; b2 ← rtp_opt_rd (rt_best e2);
  mret (olsr_cmp_rtp b1 b2 None).

(** The loop of [olsr_rt_best]. *)
Fixpoint rt_best_loop (rt : loc) (L : list (loc * olsr_ip_prefix)) : M unit :=
  match L with
  | [] => mret tt
  | e :: L =>
    r ← rtp_rd e.1;
    x ← rt_rd rt;
    b ← rtp_opt_rd (rt_best x);
    g ← se_get current_inetgw;
    (if olsr_cmp_rtp (Some (e.1, r)) b g then rt_wr rt (set_best (Some e.1)) else mret tt);;
    rt_best_loop rt L
  end.

Definition olsr_rt_best (rt : loc) : M unit :=
  x ← rt_rd rt;
  se_assert (negb (bool_decide (rt_path_tree x = [])));;
  rt_best_loop rt (rt_path_tree x);;
  x ← rt_rd rt;
  if prefix_len (rt_dst x) =? 0 then se_mod (with_inetgw (rt_best x)) else mret tt.

(** ** Deletion *)
Definition tc_prefix_wr (tc : loc) (g : tc_entry -> tc_entry) : M unit := fun s =>
  match tc_wr tc g (r_topo s) with Some (w, _) => Some (with_topo w s, tt) | None => None end.

Definition olsr_delete_rt_path (p : loc) : M unit :=
  r ← rtp_rd p;
  (match rtp_rt r with
   | None => mret tt
   | Some rt =>
     rt_wr rt (fun x => set_path_tree (tree_delete p (rt_path_tree x)) x);;
     x ← rt_rd rt;
     (if bool_decide (rt_best x = Some p) then
        if negb (bool_decide (rt_path_tree x = [])) then olsr_rt_best rt else rt_wr rt (set_best None)
      else mret tt);;
     rtp_wr p (set_rtp_rt None)
   end);;
  (match rtp_tc r with
   | None => mret tt
   | Some tc =>
     tc_prefix_wr tc (fun t => set_prefix_tree (tree_delete p (prefix_tree t)) t);;
     rtp_wr p (set_rtp_tc None)
   end);;
  (match rtp_interface r with Some i => unlock_interface (Some i) | None => mret tt end);;
  g ← se_get current_inetgw;
  (if bool_decide (g = Some p) then se_mod (with_inetgw None) else mret tt);;
  rtp_free p.

Definition olsr_delete_routing_table (dst : ip_addr) (plen : Z) (originator : ip_addr) (origin : Z) : M unit :=
  if plen >? 8 * Z.of_nat (tc_ipsize ip_version) then mret tt
  else
    tc ← se_get (fun s => tree_find (avl_comp_default ip_version) originator (tc_tree (tdb (r_topo s))));
    match tc with
    | None => mret tt
    | Some tc =>
      t ← se_get (fun s => tcs (tdb (r_topo s)) !! tc);
      t ← se_opt t;
      match tree_find (avl_comp_prefix_origin_default ip_version) (mkPfx dst plen origin) (prefix_tree t) with
      | None => mret tt
      | Some rtp => olsr_delete_rt_path rtp;; se_mod (fun s => with_topo (set_changes_hna true (r_topo s)) s)
      end
    end.

(** ** Runs of the operations *)
Lemma rtp_rd_run s p r : paths s !! p = Some r -> rtp_rd p s = Some (s, r).
Proof. intros H. unfold rtp_rd. by rewrite H. Qed.
Lemma rtp_wr_run s p g r : paths s !! p = Some r -> rtp_wr p g s = Some (with_paths (<[p := g r]> (paths s)) s, tt).
Proof. intros H. unfold rtp_wr. by rewrite H. Qed.
Lemma rt_rd_run s p r : rts s !! p = Some r -> rt_rd p s = Some (s, r).
Proof. intros H. unfold rt_rd. by rewrite H. Qed.
Lemma rt_wr_run s p g r : rts s !! p = Some r -> rt_wr p g s = Some (with_rts (<[p := g r]> (rts s)) s, tt).
Proof. intros H. unfold rt_wr. by rewrite H. Qed.
Lemma rtp_opt_run s o : (forall p, o = Some p -> is_Some (paths s !! p)) ->
  rtp_opt_rd o s = Some (s, p ← o; r ← paths s !! p; Some (p, r)).
Proof.
  intros H. destruct o as [p|]; [|done]. destruct (H p eq_refl) as [r Hr]. unfold rtp_opt_rd.
  erewrite bind_run by (by apply rtp_rd_run). simpl. by rewrite Hr.
Qed.
Lemma with_rts_rts a b s : with_rts a (with_rts b s) = with_rts a s.
Proof. done. Qed.
Lemma with_rts_id s : with_rts (rts s) s = s.
Proof. by destruct s. Qed.
Lemma set_best_best a b x : set_best a (set_best b x) = set_best a x.
Proof. done. Qed.
Lemma set_best_id x : set_best (rt_best x) x = x.
Proof. by destruct x. Qed.

(** ** Best paths *)

(** What the comparison looks at before the originator's address. *)
Definition rank (g : option loc) (p : loc) (r : rt_path) : Z * Z * Z :=
  (cmp_cost g p r, rtp_hops r, prefix_origin (rtp_originator r)).
Definition rank_lt (a b : Z * Z * Z) : Prop :=
  a.1.1 < b.1.1 \/ a.1.1 = b.1.1 /\ (a.1.2 < b.1.2 \/ a.1.2 = b.1.2 /\ a.2 < b.2).

Lemma cmp_rtp_spec g p1 r1 p2 r2 : olsr_cmp_rtp (Some (p1, r1)) (Some (p2, r2)) g = true <->
  rank_lt (rank g p1 r1) (rank g p2 r2) \/
  rank g p1 r1 = rank g p2 r2 /\ ipcmp ip_version (prefix (rtp_originator r1)) (prefix (rtp_originator r2)) <> 0.
Proof.
  unfold olsr_cmp_rtp, rank, rank_lt. simpl. rewrite !Z.gtb_ltb.
  case_cmp; split; intros H'; try done; try (destruct H' as [?|[[=] ?]]; lia); try (left; lia); try (right; split; [f_equal; [f_equal|]; lia|done]).
Qed.

Lemma rank_lt_trans a b c : rank_lt a b -> rank_lt b c -> rank_lt a c.
Proof. unfold rank_lt. lia. Qed.
Lemma rank_total a b : rank_lt a b \/ a = b \/ rank_lt b a.
Proof.
  destruct a as [[a1 a2] a3], b as [[b1 b2] b3]. unfold rank_lt. simpl.
  destruct (Z.lt_total a1 b1) as [?|[->|?]]; [lia| |lia].
  destruct (Z.lt_total a2 b2) as [?|[->|?]]; [lia| |lia].
  destruct (Z.lt_total a3 b3) as [?|[->|?]]; [lia| |lia]. auto.
Qed.
Lemma rank_lt_irrefl a : ~ rank_lt a a.
Proof. unfold rank_lt. lia. Qed.

Definition with_rtp (P : gmap loc rt_path) (p : loc) : option (loc * rt_path) := (pair p) <$> P !! p.

(** The best of the paths [L], to begin with [b]. *)
Definition best_of (P : gmap loc rt_path) (g : option loc) (L : list loc) (b : option loc) : option loc :=
  foldl (fun b p => if olsr_cmp_rtp (with_rtp P p) (b ≫= with_rtp P) g then Some p else b) b L.

Lemma rt_best_loop_run L s rt x : rts s !! rt = Some x -> (forall p, p ∈ L.*1 -> is_Some (paths s !! p)) ->
  (forall p, rt_best x = Some p -> is_Some (paths s !! p)) ->
  rt_best_loop rt L s =
    Some (with_rts (<[rt := set_best (best_of (paths s) (current_inetgw s) L.*1 (rt_best x)) x]> (rts s)) s, tt).
Proof.
  revert s x. induction L as [|[p k] L IH]; intros s x Hx HL Hb; simpl.
  { rewrite set_best_id, insert_id, with_rts_id by done. done. }
  destruct (HL p) as [r Hr]; [left|]. erewrite bind_run by (by apply rtp_rd_run). erewrite bind_run by (by apply rt_rd_run).
  erewrite bind_run by (by apply rtp_opt_run). erewrite bind_run by done.
  assert (with_rtp (paths s) p = Some (p, r)) as -> by (unfold with_rtp; by rewrite Hr).
  assert ((rt_best x ≫= fun q => r ← paths s !! q; Some (q, r)) = rt_best x ≫= with_rtp (paths s)) as ->.
  { destruct (rt_best x) as [q|]; [|done]. simpl. unfold with_rtp. by destruct (paths s !! q). }
  destruct (olsr_cmp_rtp _ _ _).
  - erewrite bind_run by (by apply rt_wr_run). rewrite (IH _ (set_best (Some p) x)).
    + simpl. by rewrite insert_insert_eq.
    + simpl. by rewrite lookup_insert_eq.
    + intros q Hq. apply (HL q). by right.
    + intros q [= <-]. by exists r.
  - erewrite bind_run by done. apply IH; [done| |done]. intros q Hq. apply (HL q). by right.
Qed.

(** [p] is the best of the paths [L]: none is better, and of those that are as
    good it is the last but for paths of the same originator. *)
Definition is_best (P : gmap loc rt_path) (g : option loc) (L : list loc) (p : loc) : Prop :=
  exists L1 L2 r, L = L1 ++ p :: L2 /\ P !! p = Some r /\
    (forall q rq, q ∈ L1 -> P !! q = Some rq -> ~ rank_lt (rank g q rq) (rank g p r)) /\
    (forall q rq, q ∈ L2 -> P !! q = Some rq -> rank_lt (rank g p r) (rank g q rq) \/
      rank g p r = rank g q rq /\ ipcmp ip_version (prefix (rtp_originator rq)) (prefix (rtp_originator r)) = 0).

Lemma best_of_snoc P g L b p : best_of P g (L ++ [p]) b =
  if olsr_cmp_rtp (with_rtp P p) (best_of P g L b ≫= with_rtp P) g then Some p else best_of P g L b.
Proof. unfold best_of. by rewrite foldl_app. Qed.

Lemma best_of_correct P g L : L <> [] -> (forall p, p ∈ L -> is_Some (P !! p)) ->
  exists p, best_of P g L None = Some p /\ is_best P g L p.
Proof.
  induction L as [|p L IH] using rev_ind; [done|]. intros _ HL. rewrite best_of_snoc.
  assert (HpL : is_Some (P !! p)) by (apply HL; set_solver). destruct HpL as [r Hr].
  assert (with_rtp P p = Some (p, r)) as -> by (unfold with_rtp; by rewrite Hr).
  destruct (decide (L = [])) as [->|HL0].
  { simpl. exists p. split; [done|]. exists [], [], r. split_and!; [done..| |]; intros q rq Hq; by apply elem_of_nil in Hq. }
  destruct IH as (b & Hb & L1 & L2 & rb & -> & Hrb & H1 & H2); [done|intros q Hq; apply HL; set_solver|]. rewrite Hb. simpl.
  assert (with_rtp P b = Some (b, rb)) as -> by (unfold with_rtp; by rewrite Hrb).
  destruct (olsr_cmp_rtp (Some (p, r)) (Some (b, rb)) g) eqn:E.
  - apply cmp_rtp_spec in E. exists p. split; [done|]. exists (L1 ++ b :: L2), [], r. split_and!; [done..| |].
    + intros q rq Hq Hrq Hlt. assert (~ rank_lt (rank g q rq) (rank g b rb)) as Hn.
      { intros Hn. apply elem_of_app in Hq as [Hq|[->|Hq]%elem_of_cons].
        - by apply (H1 q rq Hq Hrq).
        - simplify_eq. by apply rank_lt_irrefl in Hn.
        - destruct (H2 q rq Hq Hrq) as [?|[Heq _]]; [|rewrite Heq in Hn; by apply rank_lt_irrefl in Hn].
          eapply rank_lt_irrefl, rank_lt_trans; eassumption. }
      apply Hn. destruct E as [E|[E _]]; [by eapply rank_lt_trans|by rewrite <- E].
    + intros q rq Hq. by apply elem_of_nil in Hq.
  - exists b. split; [done|]. exists L1, (L2 ++ [p]), rb. split_and!; [by rewrite <- app_assoc|done..|].
    intros q rq [Hq|Hq%list_elem_of_singleton]%elem_of_app Hrq; [by apply H2|]. subst q. simplify_eq.
    assert (~ (rank_lt (rank g p r) (rank g b rb) \/
      rank g p r = rank g b rb /\ ipcmp ip_version (prefix (rtp_originator r)) (prefix (rtp_originator rb)) <> 0)) as Hn.
    { rewrite <- cmp_rtp_spec. by rewrite E. }
    destruct (rank_total (rank g b rb) (rank g p r)) as [?|[Heq|?]]; [by left| |destruct Hn; by left]. right. split; [done|].
    destruct (decide (ipcmp ip_version (prefix (rtp_originator r)) (prefix (rtp_originator rb)) = 0)); [done|]. destruct Hn. by right.
Qed.

Definition rt_ready (s : rib) (rt : loc) (x : rt_entry) : Prop :=
  rts s !! rt = Some x /\ rt_path_tree x <> [] /\ (forall p, p ∈ (rt_path_tree x).*1 -> is_Some (paths s !! p)) /\
  (forall p, rt_best x = Some p -> is_Some (paths s !! p)).

Definition rt_elected (s : rib) (rt : loc) (x : rt_entry) (b : option loc) : rib :=
  let s := with_rts (<[rt := set_best b x]> (rts s)) s in
  if prefix_len (rt_dst x) =? 0 then with_inetgw b s else s.

Lemma rt_best_run s rt x : rt_ready s rt x ->
  olsr_rt_best rt s = Some (rt_elected s rt x (best_of (paths s) (current_inetgw s) (rt_path_tree x).*1 (rt_best x)), tt).
Proof.
  intros (Hx & Hne & HL & Hb). unfold olsr_rt_best. erewrite bind_run by (by apply rt_rd_run).
  rewrite bool_decide_eq_false_2 by done. erewrite bind_run by done. erewrite bind_run by (by apply rt_best_loop_run).
  erewrite bind_run by (apply rt_rd_run; simpl; by rewrite lookup_insert_eq). unfold rt_elected. simpl. by destruct (_ =? 0).
Qed.

(** the best path so far, if there is one, and the paths of the entry *)
Definition contenders (x : rt_entry) : list loc := option_list (rt_best x) ++ (rt_path_tree x).*1.

Lemma best_of_contenders P g x : (forall p, rt_best x = Some p -> is_Some (P !! p)) -> best_of P g (contenders x) None = best_of P g (rt_path_tree x).*1 (rt_best x).
Proof.
  intros Hb. unfold contenders. destruct (rt_best x) as [b|]; [|done]. destruct (Hb b eq_refl) as [r Hr]. unfold best_of. simpl.
  assert (with_rtp P b = Some (b, r)) as -> by (unfold with_rtp; by rewrite Hr). done.
Qed.


(** Paths that differ only in their originators are each better than the
    other: the comparison returns whether the addresses differ, and not which is
    smaller. *)
Theorem cmp_rtp_ties g p1 r1 p2 r2 : rank g p1 r1 = rank g p2 r2 ->
  ipcmp ip_version (prefix (rtp_originator r1)) (prefix (rtp_originator r2)) <> 0 ->
  olsr_cmp_rtp (Some (p1, r1)) (Some (p2, r2)) g = true /\ olsr_cmp_rtp (Some (p2, r2)) (Some (p1, r1)) g = true.
Proof.
  intros E N. rewrite !cmp_rtp_spec. split; right; split; [done..|]. contradict N. revert N. unfold ipcmp.
  case_match; apply comp_eq_sym; apply _.
Qed.

(** ** Locks *)
Definition can_unlock (l : if_lock) : Prop := 0 < refcount l < 2 ^ 32 /\ (refcount l = 1 -> int_queued l = false).
Definition unlock_in (i : loc) (m : gmap loc if_lock) : gmap loc if_lock :=
  match m !! i with
  | Some l => if refcount l =? 1 then delete i m else <[i := mkLock (refcount l - 1) (int_queued l)]> m
  | None => m
  end.
Definition lock_in (i : loc) (m : gmap loc if_lock) : gmap loc if_lock :=
  match m !! i with Some l => <[i := mkLock (refcount l + 1) (int_queued l)]> m | None => m end.

Lemma unlock_run s i l : locks s !! i = Some l -> can_unlock l ->
  unlock_interface (Some i) s = Some (with_locks (unlock_in i (locks s)) s, tt).
Proof.
  intros H [Hr Hq]. unfold unlock_interface, unlock_in. erewrite bind_run by done. erewrite bind_run by done. rewrite H.
  erewrite bind_run by done. rewrite (proj2 (Z.eqb_neq (refcount l) 0)) by lia. erewrite bind_run by done.
  rewrite wrapu_id by (unfold is_u; lia). destruct (Z.eqb_spec (refcount l) 1) as [E|E].
  - rewrite E. simpl. by rewrite Hq.
  - by rewrite (proj2 (Z.eqb_neq (refcount l - 1) 0)) by lia.
Qed.
Lemma lock_run s i l : locks s !! i = Some l -> 0 <= refcount l -> refcount l + 1 < 2 ^ 32 ->
  lock_interface (Some i) s = Some (with_locks (lock_in i (locks s)) s, tt).
Proof.
  intros H Hl Hr. unfold lock_interface, lock_in. erewrite bind_run by done. erewrite bind_run by done. rewrite H.
  erewrite bind_run by done. rewrite wrapu_id by (unfold is_u; lia). done.
Qed.

(** ** The deletion of a path *)

(** The entry of a path that is deleted. *)
Definition path_removed (P : gmap loc rt_path) (g : option loc) (p : loc) (x : rt_entry) : rt_entry :=
  let x := set_path_tree (tree_delete p (rt_path_tree x)) x in
  if bool_decide (rt_best x = Some p) then
    if bool_decide (rt_path_tree x = []) then set_best None x else set_best (best_of P g (rt_path_tree x).*1 (Some p)) x
  else x.

Record deletable (s : rib) (p : loc) (r : rt_path) : Prop := {
  dl_path : paths s !! p = Some r;
  dl_rt : forall rt, rtp_rt r = Some rt -> exists x, rts s !! rt = Some x /\
    forall q, q ∈ (rt_path_tree x).*1 -> is_Some (paths s !! q);
  dl_tc : forall tc, rtp_tc r = Some tc -> is_Some (tcs (tdb (r_topo s)) !! tc);
  dl_lock : forall i, rtp_interface r = Some i -> exists l, locks s !! i = Some l /\ can_unlock l
}.

Lemma best_of_in P g L b q : best_of P g L b = Some q -> b = Some q \/ q ∈ L.
Proof.
  unfold best_of. revert b. induction L as [|p L IH]; intros b; simpl; [by left|]. intros [E|?]%IH; [|right; by right].
  destruct (olsr_cmp_rtp _ _ _); [|by left]. injection E as ->. right. left.
Qed.

(** The gateways that a deletion may elect. *)
Definition gw_after (s : rib) (p : loc) (r : rt_path) (g : option loc) : Prop := forall q, g = Some q -> q <> p ->
  current_inetgw s = Some q \/ exists rt x, rtp_rt r = Some rt /\ rts s !! rt = Some x /\ prefix_len (rt_dst x) = 0 /\ q ∈ (rt_path_tree x).*1.

(** The steps of the deletion. *)
Lemma unlink_rt_run s p r : deletable s p r ->
  exists g', gw_after s p r g' /\ (match rtp_rt r with
   | None => mret tt
   | Some rt =>
     rt_wr rt (fun x => set_path_tree (tree_delete p (rt_path_tree x)) x);;
     x ← rt_rd rt;
     (if bool_decide (rt_best x = Some p) then
        if negb (bool_decide (rt_path_tree x = [])) then olsr_rt_best rt else rt_wr rt (set_best None)
      else mret tt);;
     rtp_wr p (set_rtp_rt None)
   end) s = Some (with_inetgw g' (with_paths (alter (set_rtp_rt None) p (paths s))
     (with_rts (match rtp_rt r with Some rt => alter (path_removed (paths s) (current_inetgw s) p) rt (rts s) | None => rts s end) s)), tt).
Proof.
  intros [Hp Hrt _ _]. destruct (rtp_rt r) as [rt|] eqn:Er.
  2: { exists (current_inetgw s). split; [by left|]. unfold mret, se_ret. do 2 f_equal.
       rewrite <- (insert_as_alter _ _ _ r Hp), insert_id; [by destruct s as [[]]|]. rewrite Hp. destruct r; simpl in *; by subst. }
  destruct (Hrt rt eq_refl) as (x & Hx & Hq). erewrite bind_run by (by apply rt_wr_run).
  set (x1 := set_path_tree (tree_delete p (rt_path_tree x)) x). set (s1 := with_rts _ s).
  assert (Hx1 : rts s1 !! rt = Some x1) by (simpl; by rewrite lookup_insert_eq).
  erewrite bind_run by (by apply rt_rd_run).
  assert (exists g', gw_after s p r g' /\ (if bool_decide (rt_best x1 = Some p) then
        if negb (bool_decide (rt_path_tree x1 = [])) then olsr_rt_best rt else rt_wr rt (set_best None) else mret tt) s1
    = Some (with_inetgw g' (with_rts (<[rt := path_removed (paths s) (current_inetgw s) p x]> (rts s)) s), tt)) as (g' & Hg' & R).
  { unfold path_removed. fold x1. case_bool_decide as Eb; [|exists (current_inetgw s); split; [by left|by destruct s]].
    case_bool_decide as Et; cbn [negb].
    - exists (current_inetgw s). split; [by left|]. rewrite (rt_wr_run s1 rt (set_best None) x1 Hx1). simpl. rewrite insert_insert_eq. by destruct s.
    - exists (if prefix_len (rt_dst x1) =? 0 then best_of (paths s) (current_inetgw s) (rt_path_tree x1).*1 (Some p) else current_inetgw s).
      split.
      { intros q. destruct (Z.eqb_spec (prefix_len (rt_dst x1)) 0) as [El|_]; [|by left]. intros [[= <-]|Hin]%best_of_in; [done|]. intros _. right.
        exists rt, x. split_and!; [by rewrite Er|done..|]. apply list_elem_of_fmap in Hin as ([q' k] & -> & [_ Hin]%elem_of_tree_delete).
        apply list_elem_of_fmap. by exists (q', k). }
      rewrite (rt_best_run s1 rt x1).
      + unfold rt_elected. simpl rts. rewrite insert_insert_eq, Eb. by destruct (_ =? 0).
      + split_and!; [done..| |].
        * intros q ([q' k] & -> & [_ Hin]%elem_of_tree_delete)%list_elem_of_fmap. apply Hq, list_elem_of_fmap. by exists (q', k).
        * rewrite Eb. intros q [= <-]. by exists r. }
  exists g'. split; [done|]. erewrite bind_run by exact R. erewrite rtp_wr_run by exact Hp.
  by rewrite <- (insert_as_alter _ _ _ r Hp), <- (insert_as_alter _ _ _ x Hx).
Qed.

(** The database without the path. *)
Definition without_prefix (p : loc) (r : rt_path) (d : lsdb) : lsdb :=
  match rtp_tc r with
  | Some tc => with_tcs (alter (fun t => set_prefix_tree (tree_delete p (prefix_tree t)) t) tc (tcs d)) d
  | None => d
  end.

Lemma unlink_tc_run s p r : is_Some (paths s !! p) -> (forall tc, rtp_tc r = Some tc -> is_Some (tcs (tdb (r_topo s)) !! tc)) ->
  exists w f, (match rtp_tc r with
   | None => mret tt
   | Some tc =>
     tc_prefix_wr tc (fun t => set_prefix_tree (tree_delete p (prefix_tree t)) t);;
     rtp_wr p (set_rtp_tc None)
   end) s = Some (with_topo w s, tt) /\ w = with_rtps (alter f p (paths s)) (with_tdb (without_prefix p r (tdb (r_topo s))) (r_topo s)).
Proof.
  intros [x Hp] Ht. unfold without_prefix. destruct (rtp_tc r) as [tc|].
  - destruct (Ht tc eq_refl) as [t Htc]. unfold tc_prefix_wr, tc_wr. unfold mbind, se_bind. rewrite Htc. simpl.
    unfold rtp_wr. simpl. unfold paths in *. simpl. rewrite Hp. simpl. eexists _, (set_rtp_tc None). split; [reflexivity|]. simpl.
    by rewrite (insert_as_alter _ _ _ x Hp), <- (insert_as_alter _ _ _ t Htc).
  - exists (r_topo s), id. split; [by destruct s|]. rewrite <- (insert_as_alter _ _ _ x Hp), insert_id by done. by destruct s as [[[]]].
Qed.

Record path_deleted (s : rib) (p : loc) (r : rt_path) (s' : rib) : Prop := {
  pd_paths : paths s' = delete p (paths s);
  pd_rts : rts s' = match rtp_rt r with Some rt => alter (path_removed (paths s) (current_inetgw s) p) rt (rts s) | None => rts s end;
  pd_locks : locks s' = match rtp_interface r with Some i => unlock_in i (locks s) | None => locks s end;
  pd_topo : r_topo s' = with_rtps (delete p (paths s)) (with_tdb (without_prefix p r (tdb (r_topo s))) (r_topo s));
  pd_inetgw : current_inetgw s' <> Some p /\ gw_after s p r (current_inetgw s');
  pd_rest : routingtree s' = routingtree s /\ routingtree_version s' = routingtree_version s /\
    chg_kernel_list s' = chg_kernel_list s /\ kern s' = kern s
}.

Lemma delete_rt_path_run s p r : deletable s p r -> exists s', olsr_delete_rt_path p s = Some (s', tt) /\ path_deleted s p r s'.
Proof.
  intros D. destruct (unlink_rt_run s p r D) as (g' & Hg' & R1). destruct D as [Hp _ Ht Hl]. unfold olsr_delete_rt_path.
  erewrite bind_run by (by apply rtp_rd_run). erewrite bind_run by exact R1. set (s1 := with_inetgw g' _) in *.
  assert (Hp1 : is_Some (paths s1 !! p)) by (unfold s1, paths; simpl; rewrite lookup_alter_eq; unfold paths in Hp; by rewrite Hp).
  destruct (unlink_tc_run s1 p r Hp1) as (w & f & R2 & Ew); [done|]. erewrite bind_run by exact R2.
  set (L := match rtp_interface r with Some i => unlock_in i (locks s) | None => locks s end).
  erewrite bind_run with (s' := with_locks L (with_topo w s1)).
  2: { unfold L. destruct (rtp_interface r) as [i|]; [|done]. destruct (Hl i eq_refl) as (l & Hli & Hc).
       by apply (unlock_run (with_topo w s1) i l). }
  erewrite bind_run by done. simpl current_inetgw.
  set (s3 := with_inetgw (if bool_decide (g' = Some p) then None else g') (with_locks L (with_topo w s1))).
  erewrite bind_run with (s' := s3) (a := tt).
  2: { unfold s3. by case_bool_decide. }
  assert (P3 : paths s3 = alter f p (alter (set_rtp_rt None) p (paths s))) by (unfold paths; simpl; by rewrite Ew).
  assert (Hp3 : is_Some (paths s3 !! p)) by (rewrite P3, !lookup_alter_eq, Hp; done). destruct Hp3 as [r3 Hp3].
  assert (PD : delete p (paths s3) = delete p (paths s)).
  { rewrite P3. apply map_eq. intros q. destruct (decide (p = q)) as [<-|]; [by rewrite !lookup_delete_eq|].
    by rewrite !lookup_delete_ne, !lookup_alter_ne. }
  eexists. split; [unfold rtp_free; by rewrite Hp3|]. split; try done.
  - rewrite <- PD. simpl. by rewrite Ew.
  - unfold s3. simpl. case_bool_decide; [done|]. by split.
Qed.

(** C34: Deleting the best path of an entry that has other paths leaves
    [rt_best] pointing to the memory that is freed, if the path was better than
    the others: the election starts with the deleted path. *)
Theorem deleted_best_dangles s p r rt x : deletable s p r -> rtp_rt r = Some rt -> rts s !! rt = Some x -> rt_best x = Some p ->
  tree_delete p (rt_path_tree x) <> [] ->
  (forall q rq, q ∈ (rt_path_tree x).*1 -> paths s !! q = Some rq -> q <> p ->
    rank_lt (rank (current_inetgw s) p r) (rank (current_inetgw s) q rq)) ->
  exists s' x', olsr_delete_rt_path p s = Some (s', tt) /\ rts s' !! rt = Some x' /\ rt_best x' = Some p /\ paths s' !! p = None.
Proof.
  intros D Er Hx Hb Hne Hbest. destruct (delete_rt_path_run s p r D) as (s' & R & P). exists s'. eexists. split; [done|].
  rewrite (pd_rts _ _ _ _ P), (pd_paths _ _ _ _ P), Er, lookup_alter_eq, Hx, lookup_delete_eq. split; [done|]. split; [|done].
  unfold path_removed. simpl. rewrite bool_decide_eq_true_2 by done. rewrite bool_decide_eq_false_2 by done. simpl.
  assert (H : forall q rq, q ∈ (tree_delete p (rt_path_tree x)).*1 -> paths s !! q = Some rq ->
    rank_lt (rank (current_inetgw s) p r) (rank (current_inetgw s) q rq)).
  { intros q rq ([q' k] & -> & [Hn Hin]%elem_of_tree_delete)%list_elem_of_fmap Hq. apply Hbest; [|done..].
    apply list_elem_of_fmap. by exists (q', k). }
  clear -H D. revert H. generalize (tree_delete p (rt_path_tree x)).*1. intros L H. unfold best_of.
  induction L as [|q L IH]; [done|]. simpl. assert (E : olsr_cmp_rtp (with_rtp (paths s) q) (with_rtp (paths s) p) (current_inetgw s) = false).
  { unfold with_rtp. rewrite (dl_path _ _ _ D). simpl. destruct (paths s !! q) as [rq|] eqn:Eq; [|done]. simpl.
    apply not_true_is_false. rewrite cmp_rtp_spec. pose proof (H q rq ltac:(left) Eq) as Hlt.
    intros [Hlt'|[E _]]; [eapply rank_lt_irrefl, rank_lt_trans; eassumption|]. rewrite E in Hlt. by apply rank_lt_irrefl in Hlt. }
  rewrite E. apply IH. intros q' rq Hq'. apply H. by right.
Qed.
End routing_table.

(** ** Example: an entry for 10.0.0.9 with a path that costs 100 and two that cost 50 *)
Definition rdemo_export : RouteExport := {|
  kernel := unit;
  olsr_add_route_function := fun _ _ k => Some (k, 0);
  olsr_del_route_function := fun _ _ k => Some (k, 0) |}.
Definition rdemo_path (b c : Z) : rt_path :=
  mkRtp (mkPfx (tdemo_ip 9) 32 1) (mkPfx (tdemo_ip b) 32 1) (Some 5%positive) None (tdemo_ip 2) (Some 1%positive) c 2 7.
Definition rdemo_entry (b : option loc) : rt_entry :=
  mkRt (mkPfx (tdemo_ip 9) 32 1) b (tdemo_ip 2) (Some 1%positive) 100 2
    [(1%positive, mkPfx (tdemo_ip 9) 32 1); (2%positive, mkPfx (tdemo_ip 4) 32 1); (3%positive, mkPfx (tdemo_ip 3) 32 1)] 0.
Definition rdemo (b : option loc) (c3 : Z) : rib (KE := rdemo_export) := mkRib (KE := rdemo_export)
  (with_rtps {[ 1%positive := rdemo_path 9 100; 2%positive := rdemo_path 4 50; 3%positive := rdemo_path 3 c3 ]} tdemo_empty)
  {[ 5%positive := rdemo_entry b ]} [(5%positive, mkPfx (tdemo_ip 9) 32 1)] 7 None [] {[ 1%positive := mkLock 5 true ]} tt.


Lemma cmp_rtp_ties_witness :
  olsr_cmp_rtp AF_INET 1000 (Some (2%positive, rdemo_path 4 50)) (Some (3%positive, rdemo_path 3 50)) None = true /\
  olsr_cmp_rtp AF_INET 1000 (Some (3%positive, rdemo_path 3 50)) (Some (2%positive, rdemo_path 4 50)) None = true.
Proof. apply cmp_rtp_ties; [by vm_compute|by vm_compute]. Defined.

(** The best path is 2. *)
Lemma deleted_best_dangles_witness : exists s' x', olsr_delete_rt_path (KE := rdemo_export) AF_INET 1000 2 (rdemo (Some 2%positive) 60) = Some (s', tt) /\
  rts s' !! 5%positive = Some x' /\ rt_best x' = Some 2%positive /\ paths s' !! 2%positive = None.
Proof.
  apply (deleted_best_dangles (KE := rdemo_export) AF_INET 1000 (rdemo (Some 2%positive) 60) 2 (rdemo_path 4 50) 5 (rdemo_entry (Some 2%positive))); try done.
  - split; [done| |done|].
    + intros rt [= <-]. eexists. split; [reflexivity|]. intros q Hq. list_cases Hq; by eexists.
    + intros i [= <-]. eexists. split; [reflexivity|]. split; [by vm_compute|done].
  - intros q rq Hq Hr Hne. list_cases Hq; [|done|]; vm_compute in Hr; injection Hr as <-; left; by vm_compute.
Defined.
