(* ===== verification/ProcessRoutes.v ===== *)
(** * Routes and the kernel ([process_routes.c])

    After a calculation the routes that are no longer announced are removed, the
    best path of every entry is elected, and the entries whose next hop has
    changed are queued and then handed to the kernel. *)
From S2P Require Import Prelude AvlSpec Trees Types Comparators Lsdb LqHandler Neighborhood TcSet RoutingTable.

Definition MAX_FAILURE_COUNT : Z := 10000.

Section process_routes.
Context `{LQ : LqHandler} `{KE : RouteExport} (ip_version lq_nat_thresh : Z) (fibm_correct : bool).
Abbreviation M := (SE rib).
Abbreviation pcomp := (avl_comp_prefix_default ip_version).

(** ** [routing_table.h] *)
Definition olsr_nh_change (g1 : ip_addr) (i1 : option loc) (g2 : ip_addr) (i2 : option loc) : bool :=
  negb (ipcmp ip_version g1 g2 =? 0) || negb (bool_decide (i1 = i2)).
Definition olsr_hopcount_change (h1 h2 : Z) : bool := negb (h1 =? h2).

(** The gateway of [olsr_get_nh]. *)
Definition olsr_get_nh (x : rt_entry) : M ip_addr :=
  match rt_best x with Some p => r ← rtp_rd p; mret (rtp_gateway r) | None => mret (rt_gateway x) end.

(** ** The change queue *)
Definition olsr_enqueue_rt (rt : loc) : M unit :=
  l ← se_get chg_kernel_list;
  if bool_decide (rt ∈ l) then mret tt
  else
    x ← rt_rd rt;
    nh ← olsr_get_nh x;
    if ipcmp ip_version (prefix (rt_dst x)) nh =? 0 then se_mod (with_chg (rt :: l)) else se_mod (with_chg (l ++ [rt])).

(** ** Kernel routes *)
Definition call_kernel (hook : rt_entry -> option rt_path -> kernel -> option (kernel * Z)) (rt : loc) : M Z := fun s =>
  match rts s !! rt with
  | None => None
  | Some x =>
    match hook x (rt_best x ≫= fun p => paths s !! p) (kern s) with
    | Some (k, e) => Some (with_kern k s, e)
    | None => None
    end
  end.

Definition olsr_del_route (rt : loc) : M Z :=
  x ← rt_rd rt;
  match rt_interface x with
  | None => mret 0
  | Some i =>
    error ← call_kernel olsr_del_route_function rt;
    (if negb (s16 error =? 0) then
       if failure_count x >? 0 then rt_wr rt (set_failure_count 0)
       else
         let n := failure_count x - 1 in
         rt_wr rt (set_failure_count (if n <=? - MAX_FAILURE_COUNT then 0 else n))
     else
       rt_wr rt (set_failure_count 0);;
       unlock_interface (Some i));;
    x ← rt_rd rt;
    mret (failure_count x)
  end.

Definition olsr_add_route (rt : loc) : M unit :=
  rt_wr rt (fun x => set_failure_count (failure_count x + 1) x);;
  error ← call_kernel olsr_add_route_function rt;
  x ← rt_rd rt;
  if negb (error =? 0) then
    if failure_count x >=? MAX_FAILURE_COUNT then rt_wr rt (set_failure_count 0) else mret tt
  else
    b ← se_opt (rt_best x);
    r ← rtp_rd b;
    rt_wr rt (set_rt_hop (rtp_gateway r) (rtp_interface r) (rtp_cost r) (rtp_hops r));;
    lock_interface (rtp_interface r);;
    rt_wr rt (set_failure_count 0).

(** The loop of [olsr_chg_kernel_routes] over the entries of the queue. *)
Fixpoint chg_kernel_routes (L : list loc) : M unit :=
  match L with
  | [] => mret tt
  | rt :: L =>
    x ← rt_rd rt;
    (if bool_decide (is_Some (rt_interface x)) then olsr_del_route rt;; mret tt else mret tt);;
    olsr_add_route rt;;
    se_mod (fun s => with_chg (filter (fun q => q <> rt) (chg_kernel_list s)) s);;
    chg_kernel_routes L
  end.

Definition olsr_chg_kernel_routes : M unit := l ← se_get chg_kernel_list; chg_kernel_routes l.

(** The loop of [olsr_delete_outdated_routes]; the successor is fetched before a
    path is removed. *)
Fixpoint delete_outdated_paths (rt : loc) (L : list (loc * olsr_ip_prefix)) : M unit :=
  match L with
  | [] => mret tt
  | e :: L =>
    r ← rtp_rd e.1;
    v ← se_get routingtree_version;
    (if negb (v =? rtp_version r) then
       rt_wr rt (fun x => set_path_tree (tree_delete e.1 (rt_path_tree x)) x);;
       rtp_wr e.1 (set_rtp_rt None)
     else mret tt);;
    delete_outdated_paths rt L
  end.

Definition olsr_delete_outdated_routes (rt : loc) : M unit :=
  x ← rt_rd rt;
  delete_outdated_paths rt (rt_path_tree x);;
  rt_wr rt (set_best None).

(** One round of the loop of [olsr_update_rib_routes]. *)
Definition update_rib_route (rt : loc) : M unit :=
  olsr_delete_outdated_routes rt;;
  x ← rt_rd rt;
  if bool_decide (rt_path_tree x = []) then
    n ← olsr_del_route rt;
    if n =? 0 then se_mod (fun s => with_rtree (tree_delete rt (routingtree s)) s) else mret tt
  else
    olsr_rt_best ip_version lq_nat_thresh rt;;
    x ← rt_rd rt;
    b ← se_opt (rt_best x);
    r ← rtp_rd b;
    if olsr_nh_change (rtp_gateway r) (rtp_interface r) (rt_gateway x) (rt_interface x) ||
       (fibm_correct && olsr_hopcount_change (rtp_hops r) (rt_hops x))
    then olsr_enqueue_rt rt else mret tt.

Fixpoint update_rib_routes (L : list (loc * olsr_ip_prefix)) : M unit :=
  match L with
  | [] => mret tt
  | e :: L => update_rib_route e.1;; update_rib_routes L
  end.

Definition olsr_update_rib_routes : M unit := L ← se_get routingtree; update_rib_routes L.

Definition olsr_update_kernel_routes : M unit := olsr_chg_kernel_routes.

Definition olsr_delete_all_kernel_routes : M unit :=
  olsr_bump_routingtree_version;;
  olsr_update_rib_routes;;
  olsr_update_kernel_routes.
End process_routes.
