(* ===== verification/RibUpdate.v ===== *)
(** * The update of the routes

    What [olsr_update_rib_routes] and [olsr_update_kernel_routes] do to a routing
    table whose state is consistent, with a kernel that does as it is told. *)
From S2P Require Import Prelude AvlSpec Trees Types Comparators Lsdb LqHandler LqEtxFf Neighborhood TcSet TcProps RoutingTable ProcessRoutes.

#[local] Arguments bool_decide : simpl never.

(** ** Counting *)
Definition one (b : bool) : Z := if b then 1 else 0.
Definition count {A} (f : A -> bool) (l : list A) : Z := foldr (fun a n => one (f a) + n) 0 l.

Lemma count_pos {A} (f : A -> bool) l : 0 <= count f l <= Z.of_nat (length l).
Proof. induction l as [|a l IH]; [done|]. cbn [count foldr length]. fold (count f l). unfold one. case_match; lia. Qed.
Lemma count_in {A} (f : A -> bool) l a : a ∈ l -> f a = true -> 0 < count f l.
Proof.
  induction l as [|b l IH]; [by intros ?%elem_of_nil|]. intros Hin Hf. cbn [count foldr]. fold (count f l).
  pose proof (count_pos f l). apply elem_of_cons in Hin as [->|Hin]; [rewrite Hf; simpl; lia|].
  specialize (IH Hin Hf). unfold one. case_match; lia.
Qed.
Lemma count_ext {A} (f g : A -> bool) l : (forall a, a ∈ l -> f a = g a) -> count f l = count g l.
Proof.
  induction l as [|b l IH]; [done|]. intros H. cbn [count foldr]. fold (count f l). fold (count g l).
  rewrite (H b) by left. rewrite IH; [done|]. intros a Ha. apply H. by right.
Qed.
Lemma count_perm {A} (f : A -> bool) l l' : l ≡ₚ l' -> count f l = count f l'.
Proof. unfold count. induction 1; simpl; lia. Qed.

Lemma count_delete {K} (f : loc * K -> bool) L p k : NoDup L.*1 -> (p, k) ∈ L -> count f (tree_delete p L) = count f L - one (f (p, k)).
Proof.
  intros N (A & B & ->)%list_elem_of_split. rewrite tree_delete_split by done.
  unfold count. induction A as [|a A IH]; cbn [foldr app]; [lia|]. rewrite IH; [lia|]. by apply NoDup_cons in N as [_ N].
Qed.
Lemma count_change {K} (f g : loc * K -> bool) L p k : NoDup L.*1 -> (p, k) ∈ L -> (forall e, e ∈ L -> e.1 <> p -> f e = g e) ->
  count g L = count f L - one (f (p, k)) + one (g (p, k)).
Proof.
  intros N Hin Hfg. assert (count g (tree_delete p L) = count f (tree_delete p L)) as E.
  { apply count_ext. intros e [Hn He]%elem_of_tree_delete. symmetry. by apply Hfg. }
  rewrite !(count_delete _ L p k) in E by done. lia.
Qed.

(** ** Locks *)
Section locks.
Context (base : loc -> Z).

(** [h i] is the number of locks that the routing table holds on interface [i],
    [base i] the number of those that others hold. *)
Definition locks_ok (h : loc -> Z) (m : gmap loc if_lock) : Prop := forall i, 0 <= base i /\ 0 <= h i /\ base i + h i < 2 ^ 32 /\
  (0 < base i + h i -> exists l, m !! i = Some l /\ refcount l = base i + h i /\ (int_queued l = true -> 0 < base i)).

Lemma locks_unlock h h' m i : locks_ok h m -> 0 < h i -> (forall j, h' j = h j - one (bool_decide (i = j))) ->
  (exists l, m !! i = Some l /\ can_unlock l) /\ locks_ok h' (unlock_in i m).
Proof.
  intros H Hi Hh'. destruct (H i) as (B1 & B2 & B3 & B4). destruct B4 as (l & Hl & El & Ql); [lia|]. split.
  - exists l. split; [done|]. split; [lia|]. intros E. destruct (int_queued l); [|done]. specialize (Ql eq_refl). lia.
  - intros j. destruct (H j) as (C1 & C2 & C3 & C4). rewrite Hh'. unfold unlock_in. rewrite Hl.
    destruct (decide (i = j)) as [<-|Hne].
    + rewrite bool_decide_eq_true_2 by done. simpl. split_and!; [lia..|]. intros Hp. rewrite (proj2 (Z.eqb_neq _ 1)) by lia.
      rewrite lookup_insert_eq. eexists. split; [done|]. simpl. split; [lia|done].
    + rewrite bool_decide_eq_false_2 by done. simpl. split_and!; [lia..|]. rewrite Z.sub_0_r. intros Hp. destruct (C4 Hp) as (l' & Hl' & ?).
      exists l'. split; [|done]. by case_match; rewrite ?lookup_delete_ne, ?lookup_insert_ne.
Qed.

Lemma locks_lock h h' m i : locks_ok h m -> 0 < base i + h i -> base i + h i + 1 < 2 ^ 32 ->
  (forall j, h' j = h j + one (bool_decide (i = j))) ->
  (exists l, m !! i = Some l /\ 0 <= refcount l /\ refcount l + 1 < 2 ^ 32) /\ locks_ok h' (lock_in i m).
Proof.
  intros H Hi Hb Hh'. destruct (H i) as (B1 & B2 & B3 & B4). destruct B4 as (l & Hl & El & Ql); [lia|]. split.
  - exists l. split; [done|]. lia.
  - intros j. destruct (H j) as (C1 & C2 & C3 & C4). rewrite Hh'. unfold lock_in. rewrite Hl.
    destruct (decide (i = j)) as [<-|Hne].
    + rewrite bool_decide_eq_true_2 by done. simpl. split_and!; [lia..|]. intros Hp.
      rewrite lookup_insert_eq. eexists. split; [done|]. simpl. split; [lia|done].
    + rewrite bool_decide_eq_false_2 by done. simpl. split_and!; [lia..|]. rewrite Z.add_0_r. intros Hp. destruct (C4 Hp) as (l' & Hl' & ?).
      exists l'. split; [|done]. by rewrite lookup_insert_ne.
Qed.

Lemma locks_ext h h' m : (forall i, h' i = h i) -> locks_ok h m -> locks_ok h' m.
Proof. intros E H i. rewrite E. apply H. Qed.
End locks.

Section rib_update.
Context `{LQ : LqHandler} `{KE : RouteExport} (ip_version lq_nat_thresh : Z) (fibm_correct : bool).
Context (base : loc -> Z) (fib_view : kernel -> olsr_ip_prefix -> option (ip_addr * loc)).
Abbreviation M := (SE rib).
Abbreviation pcomp := (avl_comp_prefix_default ip_version).

(** ** The kernel

    [fib_view] is what the routing table of the kernel says about a prefix: the
    gateway and the interface. The hooks add a route to a prefix that has none, and
    delete the route that they are told to delete. *)
Record fib_laws : Prop := {
  fl_add : forall k x r i, fib_view k (rt_dst x) = None -> rtp_interface r = Some i ->
    exists k', olsr_add_route_function x (Some r) k = Some (k', 0) /\
      forall d, fib_view k' d = if pcomp d (rt_dst x) =? 0 then Some (rtp_gateway r, i) else fib_view k d;
  fl_del : forall k x b i, fib_view k (rt_dst x) = Some (rt_gateway x, i) -> rt_interface x = Some i ->
    exists k', olsr_del_route_function x b k = Some (k', 0) /\
      forall d, fib_view k' d = if pcomp d (rt_dst x) =? 0 then None else fib_view k d
}.

(** The route that an entry has installed. *)
Definition hop_of (x : rt_entry) : option (ip_addr * loc) := pair (rt_gateway x) <$> rt_interface x.
Definition installed (s : rib) (d : olsr_ip_prefix) : option (ip_addr * loc) :=
  p ← tree_find pcomp d (routingtree s); x ← rts s !! p; hop_of x.
Definition fib_sync (s : rib) : Prop := forall d, fib_view (kern s) d = installed s d.

(** ** Consistency *)
Definition held_paths (P : gmap loc rt_path) (i : loc) : Z :=
  count (fun x => bool_decide (x.2 = Some i)) (map_to_list (rtp_interface <$> P)).
Definition held_entries (R : gmap loc rt_entry) (L : list (loc * olsr_ip_prefix)) (i : loc) : Z :=
  count (fun e => bool_decide ((R !! e.1 ≫= rt_interface) = Some i)) L.
Definition held (s : rib) (i : loc) : Z := held_paths (paths s) i + held_entries (rts s) (routingtree s) i.

Record rib_ok (s : rib) : Prop := {
  ro_tree : tree_wf pcomp (routingtree s);
  ro_entry : forall p k, (p, k) ∈ routingtree s -> exists x, rts s !! p = Some x /\ k = rt_dst x /\ NoDup (rt_path_tree x).*1;
  ro_path : forall p x q, p ∈ (routingtree s).*1 -> rts s !! p = Some x -> q ∈ (rt_path_tree x).*1 ->
    exists r, paths s !! q = Some r /\ rtp_rt r = Some p /\ pcomp (rtp_dst r) (rt_dst x) = 0 /\ is_Some (rtp_interface r);
  ro_key : forall p x q k r, p ∈ (routingtree s).*1 -> rts s !! p = Some x -> (q, k) ∈ rt_path_tree x -> paths s !! q = Some r ->
    k = rtp_originator r;
  ro_back : forall q r p, paths s !! q = Some r -> rtp_rt r = Some p ->
    p ∈ (routingtree s).*1 /\ exists x, rts s !! p = Some x /\ q ∈ (rt_path_tree x).*1;
  ro_gw : forall q, current_inetgw s = Some q -> exists r, paths s !! q = Some r /\ prefix_len (rtp_dst r) = 0;
  ro_locks : locks_ok base (held s) (locks s);
  ro_bound : forall i, base i + Z.of_nat (size (paths s)) + Z.of_nat (length (routingtree s)) < 2 ^ 32
}.

Lemma held_bound s i : rib_ok s -> base i + held s i < 2 ^ 32.
Proof. intros R. by destruct (ro_locks s R i) as (_ & _ & ? & _). Qed.

Lemma held_paths_ext P P' i : (forall q, rtp_interface <$> P' !! q = rtp_interface <$> P !! q) -> held_paths P' i = held_paths P i.
Proof. intros H. unfold held_paths. do 2 f_equal. apply map_eq. intros q. by rewrite !lookup_fmap. Qed.

Lemma held_paths_in P i q r : P !! q = Some r -> rtp_interface r = Some i -> 0 < held_paths P i.
Proof.
  intros Hq Hi. eapply (count_in _ _ (q, Some i)); [|by rewrite bool_decide_eq_true_2]. apply elem_of_map_to_list.
  by rewrite lookup_fmap, Hq, <- Hi.
Qed.
Lemma held_paths_le P i : 0 <= held_paths P i <= Z.of_nat (size P).
Proof.
  unfold held_paths. pose proof (count_pos (fun x => bool_decide (x.2 = Some i)) (map_to_list (rtp_interface <$> P))) as H.
  rewrite length_map_to_list, map_size_fmap in H. done.
Qed.
Lemma held_entries_in R L i e x : e ∈ L -> R !! e.1 = Some x -> rt_interface x = Some i -> 0 < held_entries R L i.
Proof. intros He Hx Hi. eapply (count_in _ _ e); [done|]. rewrite Hx. simpl. by rewrite bool_decide_eq_true_2. Qed.

Lemma elem_fst {K} (L : list (loc * K)) p : p ∈ L.*1 -> exists k, (p, k) ∈ L.
Proof. intros ([q k] & -> & H)%list_elem_of_fmap. by exists k. Qed.
Lemma fst_elem {K} (L : list (loc * K)) p k : (p, k) ∈ L -> p ∈ L.*1.
Proof. intros H. apply list_elem_of_fmap. by exists (p, k). Qed.

(** The entries of the tree are found by their prefixes. *)
Lemma find_entry s p k d : rib_ok s -> (p, k) ∈ routingtree s -> pcomp d k = 0 -> tree_find pcomp d (routingtree s) = Some p.
Proof. intros R H E. eapply tree_find_in; [apply _|apply R|done..]. Qed.

Lemma installed_at s p k x d : rib_ok s -> (p, k) ∈ routingtree s -> rts s !! p = Some x -> pcomp d k = 0 -> installed s d = hop_of x.
Proof. intros R H Hx E. unfold installed. rewrite (find_entry s p k d R H E). simpl. by rewrite Hx. Qed.

(** ** Outdated paths *)
Definition outdated (P : gmap loc rt_path) (v : Z) (q : loc) : Prop := exists r, P !! q = Some r /\ rtp_version r <> v.
#[global] Instance outdated_dec P v q : Decision (outdated P v q).
Proof.
  unfold outdated. destruct (P !! q) as [r|]; [|right; by intros (? & ? & _)].
  destruct (decide (rtp_version r = v)); [right; intros (? & [= ->] & ?); done|left; eauto].
Defined.

Definition unlink_paths (v : Z) (L : list loc) (P : gmap loc rt_path) : gmap loc rt_path :=
  map_imap (fun q r => Some (if bool_decide (q ∈ L /\ rtp_version r <> v) then set_rtp_rt None r else r)) P.

Lemma lookup_unlink v L P q :
  unlink_paths v L P !! q = (fun r => if bool_decide (q ∈ L /\ rtp_version r <> v) then set_rtp_rt None r else r) <$> P !! q.
Proof. unfold unlink_paths. rewrite map_lookup_imap. by destruct (P !! q). Qed.

Lemma delete_outdated_paths_run rt L s x : rts s !! rt = Some x -> NoDup L.*1 -> (forall q, q ∈ L.*1 -> is_Some (paths s !! q)) ->
  delete_outdated_paths rt L s = Some (with_paths (unlink_paths (routingtree_version s) L.*1 (paths s))
    (with_rts (<[rt := set_path_tree (filter (fun e => ~ (e.1 ∈ L.*1 /\ outdated (paths s) (routingtree_version s) e.1)) (rt_path_tree x)) x]> (rts s)) s), tt).
Proof.
  revert s x. induction L as [|[q k] L IH]; intros s x Hx N HL; cbn [delete_outdated_paths fst].
  { unfold mret, se_ret. do 2 f_equal.
    assert (unlink_paths (routingtree_version s) [].*1 (paths s) = paths s) as ->.
    { apply map_eq. intros q. rewrite lookup_unlink. by destruct (paths s !! q). }
    rewrite filter_all; [|apply Forall_forall; intros e _ [?%elem_of_nil _]; done].
    rewrite (insert_id (rts s)); [by destruct s as [[]]|]. rewrite Hx. by destruct x. }
  destruct (HL q) as [r Hr]; [left|]. apply NoDup_cons in N as [Nq N].
  erewrite bind_run by (by apply rtp_rd_run). erewrite bind_run by done. destruct (Z.eqb_spec (routingtree_version s) (rtp_version r)) as [E|E]; cbn [negb].
  - erewrite bind_run by done. rewrite (IH s x Hx N) by (intros q' Hq'; apply HL; by right). do 2 f_equal.
    assert (forall q', q' ∈ ((q, k) :: L).*1 /\ outdated (paths s) (routingtree_version s) q' <->
      q' ∈ L.*1 /\ outdated (paths s) (routingtree_version s) q') as Hd.
    { intros q'. rewrite fmap_cons, elem_of_cons. simpl. split; [|tauto]. intros [[->|?] Ho]; [|done].
      destruct Ho as (r' & Hr' & Hn). congruence. }
    assert (unlink_paths (routingtree_version s) ((q, k) :: L).*1 (paths s) = unlink_paths (routingtree_version s) L.*1 (paths s)) as ->.
    { apply map_eq. intros q'. rewrite !lookup_unlink. destruct (paths s !! q') as [r'|] eqn:Er'; [|done]. simpl. f_equal.
      erewrite bool_decide_ext; [done|]. rewrite elem_of_cons. split; [intros [[->|?] ?]; [congruence|done]|tauto]. }
    erewrite list_filter_iff; [done|]. intros e. cbn beta. by rewrite Hd.
  - erewrite bind_run by (erewrite bind_run by (by apply rt_wr_run); by apply rtp_wr_run). set (s1 := with_paths _ _).
    assert (Hx1 : rts s1 !! rt = Some (set_path_tree (tree_delete q (rt_path_tree x)) x)) by (simpl; by rewrite lookup_insert_eq).
    assert (P1 : paths s1 = <[q := set_rtp_rt None r]> (paths s)) by done.
    rewrite (IH s1 _ Hx1 N).
    2: { intros q' Hq'. rewrite P1. destruct (decide (q = q')) as [<-|]; [rewrite lookup_insert_eq; eauto|].
         rewrite lookup_insert_ne by done. apply HL. by right. }
    assert (Hv : forall q', outdated (paths s1) (routingtree_version s) q' <-> outdated (paths s) (routingtree_version s) q').
    { intros q'. unfold outdated. rewrite P1. destruct (decide (q = q')) as [<-|]; [|by rewrite lookup_insert_ne].
      rewrite lookup_insert_eq, Hr. split; intros (? & [= <-] & ?); eauto. }
    do 2 f_equal. assert (unlink_paths (routingtree_version s) ((q, k) :: L).*1 (paths s) = unlink_paths (routingtree_version s) L.*1 (paths s1)) as ->.
    { apply map_eq. intros q'. rewrite !lookup_unlink, P1. destruct (decide (q = q')) as [<-|Hne].
      - rewrite lookup_insert_eq, Hr. simpl. rewrite bool_decide_eq_true_2 by (split; [left|done]). by case_bool_decide.
      - rewrite lookup_insert_ne by done. destruct (paths s !! q') as [r'|]; [|done]. simpl. f_equal.
        erewrite bool_decide_ext; [done|]. rewrite elem_of_cons. naive_solver. }
    simpl rts. rewrite insert_insert_eq. simpl routingtree_version. simpl rt_path_tree. unfold tree_delete. rewrite list_filter_filter.
    erewrite list_filter_iff; [done|]. intros e. cbn beta. rewrite Hv, fmap_cons, elem_of_cons. simpl.
    destruct (decide (e.1 = q)) as [->|]; [|tauto]. split; [tauto|]. intros Hn. exfalso. apply Hn. split; [by left|by exists r].
Qed.

(** ** What the update of one entry leaves alone *)

(** Of the paths only the entries change. *)
Definition same_paths (P P' : gmap loc rt_path) : Prop := forall q, set_rtp_rt None <$> P' !! q = set_rtp_rt None <$> P !! q.

Lemma same_paths_refl P : same_paths P P.
Proof. done. Qed.
Lemma same_paths_trans P1 P2 P3 : same_paths P1 P2 -> same_paths P2 P3 -> same_paths P1 P3.
Proof. intros H1 H2 q. by rewrite H2. Qed.
Lemma same_paths_sym P1 P2 : same_paths P1 P2 -> same_paths P2 P1.
Proof. intros H q. by rewrite H. Qed.
Lemma same_paths_lookup P P' q r : same_paths P P' -> P !! q = Some r -> exists r', P' !! q = Some r' /\ set_rtp_rt None r' = set_rtp_rt None r.
Proof. intros H Hq. specialize (H q). rewrite Hq in H. destruct (P' !! q) as [r'|]; [|done]. exists r'. split; [done|]. cbn in H. congruence. Qed.
Lemma same_paths_interface P P' q : same_paths P P' -> rtp_interface <$> P' !! q = rtp_interface <$> P !! q.
Proof.
  intros H. specialize (H q). destruct (P' !! q) as [r'|], (P !! q) as [r|]; simpl in *; try done. injection H. intros. congruence.
Qed.
Lemma same_paths_size P P' : same_paths P P' -> size P' = size P.
Proof.
  intros H. rewrite <- (map_size_fmap rtp_interface P), <- (map_size_fmap rtp_interface P'). f_equal. apply map_eq. intros q.
  rewrite !lookup_fmap. by apply same_paths_interface.
Qed.
Lemma same_paths_outdated P P' v q : same_paths P P' -> outdated P' v q <-> outdated P v q.
Proof.
  intros H. split; intros (r & Hr & Hv).
  - destruct (same_paths_lookup P' P q r (same_paths_sym _ _ H) Hr) as (r' & Hr' & [=]). exists r'. split; congruence.
  - destruct (same_paths_lookup P P' q r H Hr) as (r' & Hr' & [=]). exists r'. split; congruence.
Qed.

Lemma unlink_same v L P : same_paths P (unlink_paths v L P).
Proof. intros q. rewrite lookup_unlink. destruct (P !! q); [|done]. simpl. by case_bool_decide. Qed.

(** ** The entry without its outdated paths *)
Definition cur_paths (s : rib) (x : rt_entry) : list (loc * olsr_ip_prefix) :=
  filter (fun e => ~ outdated (paths s) (routingtree_version s) e.1) (rt_path_tree x).
Definition purged (s : rib) (rt : loc) (x : rt_entry) : rib :=
  with_paths (unlink_paths (routingtree_version s) (rt_path_tree x).*1 (paths s))
    (with_rts (<[rt := set_best None (set_path_tree (cur_paths s x) x)]> (rts s)) s).

Lemma outdated_paths_run s rt k x : rib_ok s -> (rt, k) ∈ routingtree s -> rts s !! rt = Some x ->
  olsr_delete_outdated_routes rt s = Some (purged s rt x, tt).
Proof.
  intros R Hrt Hx. destruct (ro_entry s R rt k Hrt) as (x' & Hx' & _ & N). simplify_eq. unfold olsr_delete_outdated_routes.
  erewrite bind_run by (by apply rt_rd_run). erewrite bind_run.
  2: { apply (delete_outdated_paths_run rt _ s x Hx N). intros q Hq. by destruct (ro_path s R rt x q (fst_elem _ _ _ Hrt) Hx Hq) as (r & ? & _). }
  erewrite rt_wr_run by (simpl; by rewrite lookup_insert_eq). simpl rts. rewrite insert_insert_eq. unfold purged, cur_paths.
  erewrite filter_ext_in; [done|]. intros e He. cbn beta. split; [intros Hn Ho; apply Hn; split; [|done]|tauto].
  apply list_elem_of_fmap. by exists e.
Qed.

Lemma in_cur s x q : q ∈ (cur_paths s x).*1 <-> q ∈ (rt_path_tree x).*1 /\ ~ outdated (paths s) (routingtree_version s) q.
Proof.
  unfold cur_paths. rewrite !list_elem_of_fmap. split.
  - intros (e & -> & [Ho He]%list_elem_of_filter). split; [by exists e|done].
  - intros ((e & -> & He) & Ho). exists e. split; [done|]. by apply list_elem_of_filter.
Qed.

Lemma purged_ok s rt k x : rib_ok s -> (rt, k) ∈ routingtree s -> rts s !! rt = Some x -> rib_ok (purged s rt x).
Proof.
  intros R Hrt Hx. pose proof (fst_elem _ _ _ Hrt) as Hrt'.
  set (P' := unlink_paths (routingtree_version s) (rt_path_tree x).*1 (paths s)).
  assert (EP : paths (purged s rt x) = P') by done. pose proof (unlink_same (routingtree_version s) (rt_path_tree x).*1 (paths s)) as HS.
  fold P' in HS.
  assert (Keep : forall q r, paths s !! q = Some r -> ~ (q ∈ (rt_path_tree x).*1 /\ rtp_version r <> routingtree_version s) -> P' !! q = Some r).
  { intros q r Hq Hn. unfold P'. rewrite lookup_unlink, Hq. simpl. by rewrite bool_decide_eq_false_2. }
  split.
  - apply R.
  - intros p k' Hp. simpl. destruct (decide (rt = p)) as [<-|Hne].
    + rewrite lookup_insert_eq. eexists. split; [done|]. destruct (ro_entry s R rt k' Hp) as (x' & Hx' & -> & N). simplify_eq.
      split; [done|]. simpl. by apply filter_fst_nodup.
    + rewrite lookup_insert_ne by done. by apply R.
  - intros p x' q Hp Hx' Hq. rewrite EP. simpl in Hx', Hp. destruct (decide (rt = p)) as [<-|Hne].
    + rewrite lookup_insert_eq in Hx'. injection Hx' as <-. simpl in Hq. apply in_cur in Hq as [Hq Ho].
      destruct (ro_path s R rt x q Hp Hx Hq) as (r & Hr & ? & ? & ?). exists r. split; [|done]. apply Keep; [done|].
      intros [_ Hv]. apply Ho. by exists r.
    + rewrite lookup_insert_ne in Hx' by done. destruct (ro_path s R p x' q Hp Hx' Hq) as (r & Hr & Hrp & ? & ?). exists r. split; [|done].
      apply Keep; [done|]. intros [Hq' _]. destruct (ro_path s R rt x q Hrt' Hx Hq') as (r' & ? & ? & _). congruence.
  - rewrite EP. intros p x' q k' r Hp Hx' Hq Hr. destruct (same_paths_lookup _ _ _ _ (same_paths_sym _ _ HS) Hr) as (r0 & Hr0 & [= _ <- _ _ _ _ _ _]).
    simpl in Hx', Hp. destruct (decide (rt = p)) as [<-|Hne].
    + rewrite lookup_insert_eq in Hx'. injection Hx' as <-. apply list_elem_of_filter in Hq as [_ Hq]. by eapply (ro_key s R).
    + rewrite lookup_insert_ne in Hx' by done. by eapply (ro_key s R).
  - rewrite EP. intros q r p Hq Hp. unfold P' in Hq. rewrite lookup_unlink in Hq. destruct (paths s !! q) as [r0|] eqn:Er; [|done].
    simpl in Hq. case_bool_decide as Hd; simplify_eq. destruct (ro_back s R q r p Er Hp) as (Hpt & x' & Hx' & Hqx). split; [done|].
    simpl. destruct (decide (rt = p)) as [<-|Hne]; [|rewrite lookup_insert_ne by done; eauto]. rewrite lookup_insert_eq. eexists. split; [done|].
    simplify_eq. apply in_cur. split; [done|]. intros (r' & ? & ?). simplify_eq. by apply Hd.
  - rewrite EP. intros q Hq. destruct (ro_gw s R q Hq) as (r & Hr & Hl). destruct (same_paths_lookup _ _ _ _ HS Hr) as (r' & Hr' & [=]).
    exists r'. split; congruence.
  - eapply locks_ext; [|apply R]. intros i. unfold held. rewrite EP. f_equal.
    + apply held_paths_ext. intros q. by apply same_paths_interface.
    + apply count_ext. intros e He. simpl. destruct (decide (rt = e.1)) as [<-|]; [by rewrite lookup_insert_eq, Hx|by rewrite lookup_insert_ne].
  - intros i. rewrite EP, (same_paths_size _ _ HS). apply R.
Qed.

Lemma installed_ext s s' : routingtree s' = routingtree s -> (forall p, hop_of <$> rts s' !! p = hop_of <$> rts s !! p) ->
  forall d, installed s' d = installed s d.
Proof.
  intros E H d. unfold installed. rewrite E. destruct (tree_find _ _ _) as [p|]; [|done]. simpl. specialize (H p).
  destruct (rts s' !! p), (rts s !! p); simpl in *; congruence.
Qed.

Lemma hop_insert (R : gmap loc rt_entry) rt x x' : R !! rt = Some x -> hop_of x' = hop_of x ->
  forall p, hop_of <$> <[rt := x']> R !! p = hop_of <$> R !! p.
Proof.
  intros Hx E p. destruct (decide (rt = p)) as [<-|]; [rewrite lookup_insert_eq, Hx; simpl; by rewrite E|by rewrite lookup_insert_ne].
Qed.

Lemma purged_sync s rt x : rts s !! rt = Some x -> fib_sync s -> fib_sync (purged s rt x).
Proof. intros Hx S d. etransitivity; [apply (S d)|]. symmetry. apply installed_ext; [done|]. by apply (hop_insert _ _ x). Qed.

Lemma find_deleted s rt k d : rib_ok s -> (rt, k) ∈ routingtree s ->
  tree_find pcomp d (tree_delete rt (routingtree s)) = if pcomp d k =? 0 then None else tree_find pcomp d (routingtree s).
Proof.
  intros R Hrt. destruct (Z.eqb_spec (pcomp d k) 0) as [E|E].
  - apply tree_find_None. intros q k' [Hq Hin]%elem_of_tree_delete E'. simpl in Hq. apply Hq.
    apply (tree_unique pcomp (routingtree s) q rt k' k (ro_tree s R) Hin Hrt).
    eapply comp_eq_trans; [apply _|eapply comp_eq_sym; [apply _|exact E']|done].
  - destruct (tree_find pcomp d (routingtree s)) as [q|] eqn:F.
    + apply tree_find_Some in F as (k' & Hin & E'). eapply tree_find_in; [apply _|apply tree_wf_delete, R| |exact E'].
      apply elem_of_tree_delete. split; [|done]. simpl. intros ->.
      destruct (tree_unique pcomp (routingtree s) rt rt k' k (ro_tree s R) Hin Hrt) as [_ ->]; [|done].
      rewrite (nodup_fst_inj _ _ _ _ (tw_nodup _ _ (ro_tree s R)) Hin Hrt). apply comp_refl.
    + apply tree_find_None. intros q k' [_ Hin]%elem_of_tree_delete. by apply (proj1 (tree_find_None pcomp _ _) F q).
Qed.

(** The kernel after the route of an entry has been deleted. *)
Lemma kernel_del s rt k x i : fib_laws -> rib_ok s -> fib_sync s -> (rt, k) ∈ routingtree s -> rts s !! rt = Some x -> rt_interface x = Some i ->
  exists k', call_kernel olsr_del_route_function rt s = Some (with_kern k' s, 0) /\
    forall d, fib_view k' d = if pcomp d k =? 0 then None else fib_view (kern s) d.
Proof.
  intros F R S Hrt Hx Hi. destruct (ro_entry s R rt k Hrt) as (x' & Hx' & -> & _). rewrite Hx in Hx'. injection Hx' as <-. unfold call_kernel. rewrite Hx.
  destruct (fl_del F (kern s) x (rt_best x ≫= fun p => paths s !! p) i) as (k' & E & Hk'); [|done|].
  - rewrite (S (rt_dst x)), (installed_at s rt _ x (rt_dst x) R Hrt Hx (comp_refl _)). unfold hop_of. by rewrite Hi.
  - exists k'. by rewrite E.
Qed.

(** [olsr_del_route] of an entry that has a route. *)
Lemma del_route_run s rt k x i : fib_laws -> rib_ok s -> fib_sync s -> (rt, k) ∈ routingtree s -> rts s !! rt = Some x -> rt_interface x = Some i ->
  exists k', olsr_del_route rt s = Some (with_locks (unlock_in i (locks s)) (with_rts (<[rt := set_failure_count 0 x]> (rts s)) (with_kern k' s)), 0) /\
    forall d, fib_view k' d = if pcomp d k =? 0 then None else fib_view (kern s) d.
Proof.
  intros F R S Hrt Hx Hi. destruct (kernel_del s rt k x i F R S Hrt Hx Hi) as (k' & E & Hk'). exists k'. split; [|done].
  unfold olsr_del_route. erewrite bind_run by (by apply rt_rd_run). rewrite Hi. erewrite bind_run by exact E.
  cbn [negb Z.eqb]. change (s16 0) with 0. cbn [negb Z.eqb].
  assert (Hh : 0 < held s i).
  { unfold held. pose proof (held_paths_le (paths s) i). pose proof (held_entries_in (rts s) (routingtree s) i (rt, k) x Hrt Hx Hi). lia. }
  destruct (locks_unlock base (held s) (fun j => held s j - one (bool_decide (i = j))) (locks s) i (ro_locks s R) Hh) as ((l & Hl & Hc) & _); [done|].
  erewrite bind_run.
  2: { erewrite bind_run by (by apply rt_wr_run). by apply (unlock_run _ i l). }
  erewrite bind_run by (apply rt_rd_run; simpl; by rewrite lookup_insert_eq). done.
Qed.

Lemma held_entry_deleted s rt k x i : rib_ok s -> (rt, k) ∈ routingtree s -> rts s !! rt = Some x ->
  held_entries (rts s) (tree_delete rt (routingtree s)) i = held_entries (rts s) (routingtree s) i - one (bool_decide (rt_interface x = Some i)).
Proof.
  intros R Hrt Hx. unfold held_entries. rewrite (count_delete _ _ rt k) by (done || apply R). simpl. by rewrite Hx.
Qed.

Lemma held_entries_ext R R' L i : (forall e, e ∈ L -> rt_interface <$> R' !! e.1 = rt_interface <$> R !! e.1) -> held_entries R' L i = held_entries R L i.
Proof.
  intros H. apply count_ext. intros e He. specialize (H e He). destruct (R' !! e.1), (R !! e.1); simpl in *; try done. injection H as ->. done.
Qed.

(** The parts of the state that the update of entry [rt] leaves alone. *)
Record frame_but (rt : loc) (s s' : rib) : Prop := {
  fb_topo : r_topo s' = with_rtps (paths s') (r_topo s);
  fb_paths : same_paths (paths s) (paths s');
  fb_rts : forall p, p <> rt -> rts s' !! p = rts s !! p;
  fb_version : routingtree_version s' = routingtree_version s
}.

(** ** An entry without paths is removed *)
Lemma flushed_ok s s' rt k x : rib_ok s -> (rt, k) ∈ routingtree s -> rts s !! rt = Some x -> rt_path_tree x = [] ->
  routingtree s' = tree_delete rt (routingtree s) -> (forall p, p <> rt -> rts s' !! p = rts s !! p) -> paths s' = paths s ->
  current_inetgw s' = current_inetgw s -> locks_ok base (held s') (locks s') -> rib_ok s'.
Proof.
  intros R Hrt Hx Hn Et Er Ep Eg HL.
  assert (Hd : forall p, p ∈ (routingtree s').*1 -> p <> rt /\ p ∈ (routingtree s).*1).
  { rewrite Et. intros p (k' & [Hp Hin]%elem_of_tree_delete)%elem_fst. split; [done|]. by eapply fst_elem. }
  split.
  - rewrite Et. apply tree_wf_delete, R.
  - rewrite Et. intros p k' [Hp Hin]%elem_of_tree_delete. rewrite Er by done. by apply R.
  - rewrite Ep. intros p x' q [Hp Hin]%Hd. rewrite Er by done. by apply R.
  - rewrite Ep. intros p x' q k' r [Hp Hin]%Hd. rewrite Er by done. by apply (ro_key s R).
  - rewrite Ep. intros q r p Hq Hp. destruct (ro_back s R q r p Hq Hp) as (Hpt & x' & Hx' & Hqx).
    assert (p <> rt) by (intros ->; simplify_eq; rewrite Hn in Hqx; by apply elem_of_nil in Hqx). rewrite Er by done. split; [|eauto].
    rewrite Et. destruct (elem_fst _ _ Hpt) as [k' Hk']. eapply fst_elem. apply elem_of_tree_delete. split; [|done]. done.
  - rewrite Ep, Eg. apply R.
  - done.
  - intros i. rewrite Ep, Et. pose proof (ro_bound s R i).
    assert (length (tree_delete rt (routingtree s)) <= length (routingtree s))%nat by apply length_filter. lia.
Qed.

Lemma flushed_sync s s' rt k : rib_ok s -> fib_sync s -> (rt, k) ∈ routingtree s ->
  routingtree s' = tree_delete rt (routingtree s) -> (forall p, p <> rt -> rts s' !! p = rts s !! p) ->
  (forall d, fib_view (kern s') d = if pcomp d k =? 0 then None else fib_view (kern s) d) -> fib_sync s'.
Proof.
  intros R S Hrt Et Er Hk d. rewrite Hk. unfold installed. rewrite Et, (find_deleted s rt k d R Hrt).
  destruct (Z.eqb_spec (pcomp d k) 0) as [E|E]; [done|]. rewrite (S d). unfold installed.
  destruct (tree_find pcomp d (routingtree s)) as [p|] eqn:Ef; [|done]. simpl. rewrite Er; [done|]. intros ->.
  apply tree_find_Some in Ef as (k' & Hin & E'). apply E.
  by rewrite (nodup_fst_inj _ _ _ _ (tw_nodup _ _ (ro_tree s R)) Hrt Hin).
Qed.

Lemma flush_run s rt k x : fib_laws -> rib_ok s -> fib_sync s -> (rt, k) ∈ routingtree s -> rts s !! rt = Some x -> rt_path_tree x = [] ->
  exists s', (n ← olsr_del_route rt; if n =? 0 then se_mod (fun s => with_rtree (tree_delete rt (routingtree s)) s) else mret tt) s = Some (s', tt) /\
    rib_ok s' /\ fib_sync s' /\ routingtree s' = tree_delete rt (routingtree s) /\ frame_but rt s s' /\ paths s' = paths s /\
    current_inetgw s' = current_inetgw s /\ chg_kernel_list s' = chg_kernel_list s.
Proof.
  intros F R S Hrt Hx Hn. destruct (rt_interface x) as [i|] eqn:Hi.
  - destruct (del_route_run s rt k x i F R S Hrt Hx Hi) as (k' & E & Hk'). erewrite bind_run by exact E. eexists. split; [reflexivity|].
    match goal with |- rib_ok ?s /\ _ => set (s' := s) end.
    assert (Er : forall p, p <> rt -> rts s' !! p = rts s !! p) by (intros p Hp; simpl; by rewrite lookup_insert_ne).
    split_and!; [| |done| |done..].
    + eapply (flushed_ok s s' rt k x); try done.
      assert (Hh : 0 < held s i).
      { unfold held. pose proof (held_paths_le (paths s) i). pose proof (held_entries_in (rts s) (routingtree s) i (rt, k) x Hrt Hx Hi). lia. }
      eapply (locks_unlock base (held s)); [apply R|done|]. intros j. unfold held. change (paths s') with (paths s).
      rewrite (held_entries_ext (rts s)); [change (routingtree s') with (tree_delete rt (routingtree s)); rewrite (held_entry_deleted s rt k x) by done|].
      * rewrite Hi. assert (bool_decide (Some i = Some j) = bool_decide (i = j)) as -> by (apply bool_decide_ext; split; congruence). lia.
      * intros e [He _]%elem_of_tree_delete. by rewrite Er.
    + by eapply (flushed_sync s s' rt k).
    + split; try done. by destruct s as [[]].
  - unfold olsr_del_route. rewrite (bind_run _ _ s s 0) by (erewrite bind_run by (by apply rt_rd_run); by rewrite Hi).
    eexists. split; [reflexivity|]. match goal with |- rib_ok ?s /\ _ => set (s' := s) end.
    split_and!; [| |done| |done..].
    + eapply (flushed_ok s s' rt k x); try done. eapply locks_ext; [|apply R]. intros j. unfold held. change (paths s') with (paths s). f_equal.
      change (routingtree s') with (tree_delete rt (routingtree s)). change (rts s') with (rts s). rewrite (held_entry_deleted s rt k x) by done.
      rewrite Hi. simpl. lia.
    + eapply (flushed_sync s s' rt k); try done. intros d. destruct (Z.eqb_spec (pcomp d k) 0) as [E|E]; [|done].
      change (kern s') with (kern s). rewrite (S d), (installed_at s rt k x d R Hrt Hx E). unfold hop_of. by rewrite Hi.
    + split; try done. by destruct s as [[]].
Qed.

(** ** An entry that keeps its paths *)
Lemma touched_ok s s' rt x x' : rib_ok s -> rts s !! rt = Some x -> rts s' = <[rt := x']> (rts s) ->
  rt_dst x' = rt_dst x -> rt_path_tree x' = rt_path_tree x -> routingtree s' = routingtree s -> paths s' = paths s ->
  (forall q, current_inetgw s' = Some q -> exists r, paths s !! q = Some r /\ prefix_len (rtp_dst r) = 0) ->
  locks_ok base (held s') (locks s') -> rib_ok s'.
Proof.
  intros R Hx Er Ed Ep Et EP Hg HL. split; rewrite ?Et, ?EP, ?Er; try done.
  - apply R.
  - intros p k Hp. destruct (ro_entry s R p k Hp) as (y & Hy & -> & N). destruct (decide (rt = p)) as [<-|]; [|rewrite lookup_insert_ne by done; eauto].
    simplify_eq. rewrite lookup_insert_eq. exists x'. by rewrite Ed, Ep.
  - intros p y q Hp Hy Hq. destruct (decide (rt = p)) as [<-|]; [|rewrite lookup_insert_ne in Hy by done; by eapply R].
    rewrite lookup_insert_eq in Hy. injection Hy as <-. rewrite Ep in Hq. rewrite Ed. by eapply R.
  - intros p y q k r Hp Hy Hq. destruct (decide (rt = p)) as [<-|]; [|rewrite lookup_insert_ne in Hy by done; by eapply (ro_key s R)].
    rewrite lookup_insert_eq in Hy. injection Hy as <-. rewrite Ep in Hq. by eapply (ro_key s R).
  - intros q r p Hq Hp. destruct (ro_back s R q r p Hq Hp) as (Hpt & y & Hy & Hqy). split; [done|].
    destruct (decide (rt = p)) as [<-|]; [|rewrite lookup_insert_ne by done; eauto]. simplify_eq. rewrite lookup_insert_eq. exists x'. by rewrite Ep.
  - apply R.
Qed.

Lemma touched_held s s' rt x x' : rts s !! rt = Some x -> rts s' = <[rt := x']> (rts s) -> rt_interface x' = rt_interface x ->
  routingtree s' = routingtree s -> paths s' = paths s -> forall i, held s' i = held s i.
Proof.
  intros Hx Er Ei Et EP i. unfold held. rewrite EP, Et, Er. f_equal. apply held_entries_ext. intros e _.
  destruct (decide (rt = e.1)) as [<-|]; [rewrite lookup_insert_eq, Hx; simpl; by rewrite Ei|by rewrite lookup_insert_ne].
Qed.

Lemma prefix_len_comp d d' : pcomp d d' = 0 -> prefix_len d = prefix_len d'.
Proof.
  unfold avl_comp_prefix_default, avl_comp_ipv4_prefix, avl_comp_ipv6_prefix. repeat case_match; intros; try lia.
Qed.

Abbreviation is_best := (is_best ip_version lq_nat_thresh).
Abbreviation best_of := (best_of ip_version lq_nat_thresh).

(** The election. *)
Lemma elect_run s rt k x : rib_ok s -> fib_sync s -> (rt, k) ∈ routingtree s -> rts s !! rt = Some x -> rt_path_tree x <> [] -> rt_best x = None ->
  exists s' b, olsr_rt_best ip_version lq_nat_thresh rt s = Some (s', tt) /\ rib_ok s' /\ fib_sync s' /\
    b ∈ (rt_path_tree x).*1 /\ is_best (paths s) (current_inetgw s) (rt_path_tree x).*1 b /\
    rts s' = <[rt := set_best (Some b) x]> (rts s) /\ r_topo s' = r_topo s /\ routingtree s' = routingtree s /\
    routingtree_version s' = routingtree_version s /\ chg_kernel_list s' = chg_kernel_list s /\
    (current_inetgw s' = current_inetgw s \/ current_inetgw s' = Some b).
Proof.
  intros R S Hrt Hx Hne Hn. pose proof (fst_elem _ _ _ Hrt) as Hrt'.
  assert (HL : forall p, p ∈ (rt_path_tree x).*1 -> is_Some (paths s !! p)).
  { intros p Hp. destruct (ro_path s R rt x p Hrt' Hx Hp) as (r & ? & _). eauto. }
  destruct (best_of_correct ip_version lq_nat_thresh (paths s) (current_inetgw s) (rt_path_tree x).*1) as (b & Hb & Hbest);
    [by intros E%fmap_nil_inv|done|].
  assert (Hin : b ∈ (rt_path_tree x).*1) by (destruct Hbest as (L1 & L2 & r & -> & _); set_solver).
  exists (rt_elected s rt x (Some b)), b. split.
  { rewrite (rt_best_run ip_version lq_nat_thresh s rt x), Hn, Hb; [done|]. split_and!; [done..|]. by rewrite Hn. }
  assert (Ert : rts (rt_elected s rt x (Some b)) = <[rt := set_best (Some b) x]> (rts s)) by (unfold rt_elected; by destruct (_ =? 0)).
  assert (Etr : routingtree (rt_elected s rt x (Some b)) = routingtree s) by (unfold rt_elected; by destruct (_ =? 0)).
  assert (Epa : paths (rt_elected s rt x (Some b)) = paths s) by (unfold rt_elected; by destruct (_ =? 0)).
  split_and!; [| |done|done|done|unfold rt_elected; by destruct (_ =? 0)..|].
  - eapply (touched_ok s _ rt x); try done.
    + unfold rt_elected. destruct (Z.eqb_spec (prefix_len (rt_dst x)) 0) as [E|E]; simpl; [|apply R].
      intros q [= <-]. destruct (ro_path s R rt x b Hrt' Hx Hin) as (r & Hr & _ & Hc & _). exists r. split; [done|].
      by rewrite (prefix_len_comp _ _ Hc).
    + eapply locks_ext; [by apply (touched_held s _ rt x (set_best (Some b) x))|]. unfold rt_elected. destruct (_ =? 0); apply R.
  - intros d. rewrite (installed_ext s); [|done|by rewrite Ert; apply (hop_insert _ _ x)].
    rewrite <- (S d). unfold rt_elected. by destruct (_ =? 0).
  - unfold rt_elected. destruct (_ =? 0); auto.
Qed.

Lemma is_best_same P P' g L p : same_paths P P' -> is_best P g L p -> is_best P' g L p.
Proof.
  intros HS (L1 & L2 & r & -> & Hr & H1 & H2). destruct (same_paths_lookup _ _ _ _ HS Hr) as (r' & Hr' & Er).
  assert (Hrank : forall q a b, set_rtp_rt None a = set_rtp_rt None b -> rank lq_nat_thresh g q a = rank lq_nat_thresh g q b /\ rtp_originator a = rtp_originator b).
  { intros q a b [= _ Eo _ _ _ Ec Eh _]. unfold rank, cmp_cost. by rewrite Eo, Ec, Eh. }
  exists L1, L2, r'. destruct (Hrank p r' r Er) as [-> ->]. split_and!; [done..| |];
    intros q rq Hq Hrq; destruct (same_paths_lookup _ _ _ _ (same_paths_sym _ _ HS) Hrq) as (rq' & Hrq' & Eq);
    destruct (Hrank q rq rq' (eq_sym Eq)) as [E1 E2]; rewrite E1, ?E2; [by apply H1|by apply H2].
Qed.

Lemma is_best_gw P g g' L p : (forall q, q ∈ L -> g <> Some q /\ g' <> Some q) -> is_best P g L p -> is_best P g' L p.
Proof.
  intros HL (L1 & L2 & r & -> & Hr & H1 & H2).
  assert (Hrank : forall q a, q ∈ L1 ++ p :: L2 -> rank lq_nat_thresh g' q a = rank lq_nat_thresh g q a).
  { intros q a Hq. destruct (HL q Hq). unfold rank, cmp_cost. by rewrite !bool_decide_eq_false_2. }
  exists L1, L2, r. split_and!; [done..| |]; intros q rq Hq Hrq; rewrite !Hrank by set_solver; [by apply H1|by apply H2].
Qed.

(** The entry needs no change for path [r]. *)
Definition same_hop (x : rt_entry) (r : rt_path) : Prop :=
  olsr_nh_change ip_version (rtp_gateway r) (rtp_interface r) (rt_gateway x) (rt_interface x) ||
    (fibm_correct && olsr_hopcount_change (rtp_hops r) (rt_hops x)) = false.

Lemma enqueue_run s rt x b r : rts s !! rt = Some x -> rt_best x = Some b -> paths s !! b = Some r -> rt ∉ chg_kernel_list s ->
  exists l, olsr_enqueue_rt ip_version rt s = Some (with_chg l s, tt) /\
    (l = rt :: chg_kernel_list s \/ l = chg_kernel_list s ++ [rt]).
Proof.
  intros Hx Hb Hr Hn. unfold olsr_enqueue_rt. erewrite bind_run by done. rewrite bool_decide_eq_false_2 by done.
  erewrite bind_run by (by apply rt_rd_run). erewrite bind_run.
  2: { unfold olsr_get_nh. rewrite Hb. erewrite bind_run by (by apply rtp_rd_run). done. }
  case_match; eexists; (split; [done|]); auto.
Qed.

Lemma with_chg_ok s l : rib_ok s -> rib_ok (with_chg l s).
Proof. intros [H1 H2 H3 H4 H5 H6 H7 H8]. split; try done. Qed.

(** ** One entry *)

(** The entry keeps the paths [L], and its best path is [b]; the entry is queued unless it
    needs no change. *)
Record updated (s s' : rib) (rt : loc) (x x' : rt_entry) (b : loc) (r : rt_path) : Prop := {
  up_entry : rts s' !! rt = Some x';
  up_dst : rt_dst x' = rt_dst x;
  up_tree : rt_path_tree x' = cur_paths s x;
  up_best : rt_best x' = Some b;
  up_in : b ∈ (cur_paths s x).*1;
  up_path : paths s !! b = Some r;
  up_is_best : is_best (paths s) (current_inetgw s) (cur_paths s x).*1 b;
  up_gw : current_inetgw s' = current_inetgw s \/ current_inetgw s' = Some b;
  up_chg : same_hop x' r /\ chg_kernel_list s' = chg_kernel_list s \/
    chg_kernel_list s' = rt :: chg_kernel_list s \/ chg_kernel_list s' = chg_kernel_list s ++ [rt];
  up_rtree : routingtree s' = routingtree s
}.

Lemma update_rib_route_run s rt k x : fib_laws -> rib_ok s -> fib_sync s -> (rt, k) ∈ routingtree s -> rts s !! rt = Some x ->
  rt ∉ chg_kernel_list s ->
  exists s', update_rib_route ip_version lq_nat_thresh fibm_correct rt s = Some (s', tt) /\ rib_ok s' /\ fib_sync s' /\ frame_but rt s s' /\
    ((cur_paths s x = [] /\ routingtree s' = tree_delete rt (routingtree s) /\ current_inetgw s' = current_inetgw s /\
        chg_kernel_list s' = chg_kernel_list s) \/
     exists x' b r, updated s s' rt x x' b r).
Proof.
  intros F R S Hrt Hx Hchg. unfold update_rib_route. erewrite bind_run by (by eapply outdated_paths_run).
  pose proof (purged_ok s rt k x R Hrt Hx) as R1. pose proof (purged_sync s rt x Hx S) as S1.
  assert (B1 : frame_but rt s (purged s rt x)).
  { split; [done|apply unlink_same| |done]. intros p Hp. simpl. by rewrite lookup_insert_ne. }
  set (x1 := set_best None (set_path_tree (cur_paths s x) x)).
  assert (Hx1 : rts (purged s rt x) !! rt = Some x1) by (simpl; by rewrite lookup_insert_eq).
  erewrite bind_run by (by apply rt_rd_run). case_bool_decide as Et.
  - destruct (flush_run (purged s rt x) rt k x1 F R1 S1 Hrt Hx1 Et) as (s' & E & R' & S' & T' & [B1' B2' B3' B4'] & P' & G' & C').
    exists s'. rewrite E. split_and!; [done..| |by left]. split.
    + by rewrite B1'.
    + rewrite P'. apply B1.
    + intros p Hp. rewrite B3' by done. by apply B1.
    + by rewrite B4'.
  - destruct (elect_run (purged s rt x) rt k x1 R1 S1 Hrt Hx1 Et eq_refl) as (s2 & b & E & R2 & S2 & Hb & Hbest & Er2 & Et2 & Etr2 & Ev2 & Ec2 & Eg2).
    erewrite bind_run by exact E.
    assert (P2 : paths s2 = paths (purged s rt x)) by (unfold paths; by rewrite Et2).
    assert (Hx2 : rts s2 !! rt = Some (set_best (Some b) x1)) by (rewrite Er2; by rewrite lookup_insert_eq).
    destruct (ro_path _ R1 rt x1 b (fst_elem _ _ _ Hrt) Hx1 Hb) as (r & Hr & _). rewrite <- P2 in Hr.
    erewrite bind_run by (by apply rt_rd_run). erewrite bind_run by done. erewrite bind_run by (by apply rtp_rd_run).
    assert (B2 : frame_but rt s s2).
    { destruct B1 as [C1 C2 C3 C4]. split; [by rewrite Et2, P2, C1|by rewrite P2| |by rewrite Ev2].
      intros p Hp. rewrite Er2, lookup_insert_ne by done. by apply C3. }
    destruct (same_paths_lookup _ _ _ _ (same_paths_sym _ _ (fb_paths _ _ _ B2)) Hr) as (r0 & Hr0 & Er0).
    assert (Hup : forall l, (same_hop (set_best (Some b) x1) r /\ l = chg_kernel_list s \/ l = rt :: chg_kernel_list s \/ l = chg_kernel_list s ++ [rt]) ->
      updated s (with_chg l s2) rt x (set_best (Some b) x1) b r0).
    { intros l Hl. split; try done.
      - simpl. eapply is_best_same; [|exact Hbest]. apply same_paths_sym, unlink_same.
      - destruct Hl as [[Hs ->]|Hl]; [left|by right]. split; [|done]. revert Hs. unfold same_hop. injection Er0 as _ _ _ -> -> _ -> _. done. }
    destruct (_ || _) eqn:Eh.
    + destruct (enqueue_run s2 rt (set_best (Some b) x1) b r Hx2 eq_refl Hr) as (l & El & Hl); [by rewrite Ec2|].
      exists (with_chg l s2). rewrite El. split_and!; [done|by apply with_chg_ok|done|by destruct B2|]. right. eexists _, b, r0. apply Hup. right.
      by rewrite Ec2 in Hl.
    + exists s2. split_and!; [done..|]. right. eexists _, b, r0.
      assert (s2 = with_chg (chg_kernel_list s) s2) as -> by (rewrite <- (Ec2 : _ = chg_kernel_list s); by destruct s2). apply Hup. by left.
Qed.

(** ** All entries *)
Section from.
Context (s0 : rib).

(** The best of the current paths of an entry. The cost of the path to the
    internet gateway is reduced for default routes only. *)
Definition best_current (x0 : rt_entry) (b : loc) : Prop :=
  is_best (paths s0) None (cur_paths s0 x0).*1 b \/
  prefix_len (rt_dst x0) = 0 /\ is_best (paths s0) (current_inetgw s0) (cur_paths s0 x0).*1 b.

(** Entry [p] has kept its current paths, and its best path is the best of them. *)
Definition settled (s : rib) (p : loc) : Prop := exists x0 x b r,
  rts s0 !! p = Some x0 /\ rts s !! p = Some x /\ rt_dst x = rt_dst x0 /\ rt_path_tree x = cur_paths s0 x0 /\ rt_best x = Some b /\
  b ∈ (cur_paths s0 x0).*1 /\ paths s0 !! b = Some r /\ best_current x0 b /\ (p ∈ chg_kernel_list s \/ same_hop x r).

Definition has_current (p : loc) : Prop := exists x0, rts s0 !! p = Some x0 /\ cur_paths s0 x0 <> [].

Record walking (L : list (loc * olsr_ip_prefix)) (s : rib) : Prop := {
  w_ok : rib_ok s;
  w_sync : fib_sync s;
  w_version : routingtree_version s = routingtree_version s0;
  w_paths : same_paths (paths s0) (paths s);
  w_topo : r_topo s = with_rtps (paths s) (r_topo s0);
  w_tree : forall e, e ∈ routingtree s <-> e ∈ routingtree s0 /\ (e.1 ∈ L.*1 \/ (e.1 ∉ L.*1) /\ has_current e.1);
  w_rest : forall p, p ∈ L.*1 -> rts s !! p = rts s0 !! p;
  w_done : forall p, p ∈ (routingtree s).*1 -> p ∉ L.*1 -> settled s p;
  w_chg : NoDup (chg_kernel_list s) /\ forall p, p ∈ chg_kernel_list s -> p ∈ (routingtree s).*1 /\ p ∉ L.*1;
  w_gw : current_inetgw s = current_inetgw s0 \/
    exists q r p, current_inetgw s = Some q /\ paths s !! q = Some r /\ rtp_rt r = Some p /\ p ∉ L.*1
}.

Lemma cur_paths_same s x : same_paths (paths s0) (paths s) -> routingtree_version s = routingtree_version s0 -> cur_paths s x = cur_paths s0 x.
Proof. intros HS HV. unfold cur_paths. apply list_filter_iff. intros e. by rewrite HV, same_paths_outdated. Qed.

Lemma settled_mono s s' p : settled s p -> rts s' !! p = rts s !! p -> (p ∈ chg_kernel_list s -> p ∈ chg_kernel_list s') -> settled s' p.
Proof.
  intros (x0 & x & b & r & H1 & H2 & H3 & H4 & H5 & H6 & H7 & H8 & H9) E Hc. exists x0, x, b, r. split_and!; [done|by rewrite E|done..|].
  destruct H9; auto.
Qed.

(** The best path of an entry that is updated during the walk. *)
Lemma walking_best rt k L s x b : walking ((rt, k) :: L) s -> (rt, k) ∈ routingtree s -> rts s !! rt = Some x ->
  is_best (paths s) (current_inetgw s) (cur_paths s x).*1 b -> best_current x b.
Proof.
  unfold best_current. intros W Hrt Hx Hb. rewrite (cur_paths_same s x (w_paths _ _ W) (w_version _ _ W)) in Hb.
  apply (is_best_same _ _ _ _ _ (same_paths_sym _ _ (w_paths _ _ W))) in Hb.
  assert (Hin : forall q, q ∈ (cur_paths s0 x).*1 -> exists r, paths s !! q = Some r /\ rtp_rt r = Some rt /\ prefix_len (rtp_dst r) = prefix_len (rt_dst x)).
  { intros q [Hq _]%in_cur. destruct (ro_path s (w_ok _ _ W) rt x q (fst_elem _ _ _ Hrt) Hx Hq) as (r & ? & ? & Hc & _). exists r.
    by rewrite (prefix_len_comp _ _ Hc). }
  destruct (decide (prefix_len (rt_dst x) = 0)) as [Ez|Ez].
  - destruct (w_gw _ _ W) as [<-|(q & r & p & Eg & Hq & Hp & Hn)]; [by right|left]. revert Hb. apply is_best_gw.
    intros q' Hq'. split; [|done]. rewrite Eg. intros [= <-]. destruct (Hin q Hq') as (r' & ? & ? & _). apply Hn. simplify_eq. left.
  - left. revert Hb. apply is_best_gw. intros q Hq. split; [|done]. intros Eg. destruct (ro_gw s (w_ok _ _ W) q Eg) as (r & Hr & Hl).
    destruct (Hin q Hq) as (r' & ? & _ & ?). simplify_eq. lia.
Qed.

Lemma walking_gw rt k L s s' : walking ((rt, k) :: L) s -> NoDup ((rt, k) :: L).*1 -> rib_ok s' ->
  (forall p, p <> rt -> rts s' !! p = rts s !! p) -> (forall p, p <> rt -> p ∈ (routingtree s).*1 -> p ∈ (routingtree s').*1) ->
  current_inetgw s' = current_inetgw s ->
  current_inetgw s' = current_inetgw s0 \/ exists q r p, current_inetgw s' = Some q /\ paths s' !! q = Some r /\ rtp_rt r = Some p /\ p ∉ L.*1.
Proof.
  intros W N R' Er Ht Eg. rewrite Eg. destruct (w_gw _ _ W) as [?|(q & r & p & Hq & Hr & Hp & Hn)]; [by left|right].
  rewrite fmap_cons, not_elem_of_cons in Hn. destruct Hn as [Hn HnL]. simpl in Hn.
  destruct (ro_back s (w_ok _ _ W) q r p Hr Hp) as (Hpt & y & Hy & Hqy). rewrite <- (Er p Hn) in Hy.
  destruct (ro_path s' R' p y q (Ht p Hn Hpt) Hy Hqy) as (r' & Hr' & Hp' & _). exists q, r', p. split_and!; try done.
Qed.

(** The step of the walk. *)
Lemma walking_step rt k L s : fib_laws -> NoDup ((rt, k) :: L).*1 -> (rt, k) ∈ routingtree s0 -> NoDup (routingtree s0).*1 -> walking ((rt, k) :: L) s ->
  exists s', update_rib_route ip_version lq_nat_thresh fibm_correct rt s = Some (s', tt) /\ walking L s'.
Proof.
  intros F N Hrt0 N0 W. assert (Hrt : (rt, k) ∈ routingtree s) by (apply (w_tree _ _ W); split; [done|left; left]).
  destruct (ro_entry s (w_ok _ _ W) rt k Hrt) as (x & Hx & Ek & _). pose proof (w_rest _ _ W rt ltac:(left)) as Ex. rewrite Hx in Ex.
  assert (Hnc : rt ∉ chg_kernel_list s) by (intros [_ Hn]%(proj2 (w_chg _ _ W)); apply Hn; left).
  pose proof (cur_paths_same s x (w_paths _ _ W) (w_version _ _ W)) as Ecur.
  apply NoDup_cons in N as [Nrt NL]. simpl in Nrt.
  destruct (update_rib_route_run s rt k x F (w_ok _ _ W) (w_sync _ _ W) Hrt Hx Hnc) as (s' & E & R' & S' & [B1 B2 B3 B4] & Hc).
  exists s'. split; [done|]. rewrite Ecur in Hc.
  assert (T' : forall e, e ∈ routingtree s' <-> e ∈ routingtree s /\ (e.1 = rt -> cur_paths s0 x <> [])).
  { intros e. destruct Hc as [(Hn & Et & _)|(x' & b & r & U)].
    - rewrite Et, elem_of_tree_delete. naive_solver.
    - rewrite (up_rtree _ _ _ _ _ _ _ U). split; [|naive_solver]. intros He. split; [done|]. intros _ E'. pose proof (up_in _ _ _ _ _ _ _ U) as Hin.
      rewrite Ecur, E' in Hin. by apply elem_of_nil in Hin. }
  assert (Tin : forall p, p <> rt -> p ∈ (routingtree s').*1 <-> p ∈ (routingtree s).*1).
  { intros p Hp. rewrite !list_elem_of_fmap. setoid_rewrite T'. split; intros (e & -> & He); exists e; naive_solver. }
  split; try done.
  - by rewrite B4, (w_version _ _ W).
  - eapply same_paths_trans; [apply W|done].
  - by rewrite B1, (w_topo _ _ W).
  - intros e. rewrite T', (w_tree _ _ W). rewrite fmap_cons, elem_of_cons. simpl. split.
    + intros [[He Hor] Hd]. split; [done|]. destruct (decide (e.1 = rt)) as [Ee|Ee]; [right|destruct Hor as [[?|?]|[? ?]]; [done|by left|right; tauto]].
      rewrite Ee. split; [done|]. exists x. split; [done|auto].
    + intros [He Hor]. split.
      * split; [done|]. destruct (decide (e.1 = rt)); [by left; left|]. destruct Hor as [?|[? ?]]; [left; by right|right]. split; [tauto|done].
      * intros Ee. destruct Hor as [Hor|[_ (x0 & Hx0 & Hcur)]]; [by rewrite Ee in Hor|]. rewrite Ee in Hx0. congruence.
  - intros p Hp. rewrite B3 by (intros ->; done). apply W. by right.
  - intros p Hp HpL. destruct (decide (p = rt)) as [->|Hne].
    + destruct Hc as [(Hn & _)|(x' & b & r & U)].
      * destruct (elem_fst _ _ Hp) as [k' [_ Hk']%T']. by destruct Hk'.
      * destruct U as [U1 U2 U3 U4 U5 U6 U7 U8 U9 U10]. rewrite Ecur in *.
        destruct (same_paths_lookup _ _ _ _ (same_paths_sym _ _ (w_paths _ _ W)) U6) as (r0 & Hr0 & [= _ _ _ Eg Ei _ Eh _]).
        exists x, x', b, r0. split_and!; try done.
        -- by eapply (walking_best rt k L s); rewrite ?Ecur.
        -- destruct U9 as [[Hs _]|[Hl|Hl]]; [right|left; rewrite Hl; set_solver..]. revert Hs. unfold same_hop. by rewrite Eg, Ei, Eh.
    + rewrite Tin in Hp by done. eapply settled_mono; [apply (w_done _ _ W p Hp)|by apply B3|].
      * rewrite fmap_cons, not_elem_of_cons. done.
      * destruct Hc as [(_ & _ & _ & ->)|(x' & b & r & U)]; [done|]. destruct (up_chg _ _ _ _ _ _ _ U) as [[_ ->]|[->| ->]]; set_solver.
  - assert (Hold : forall p, p ∈ chg_kernel_list s -> p ∈ (routingtree s').*1 /\ p ∉ L.*1).
    { intros p Hp. destruct (proj2 (w_chg _ _ W) p Hp) as [Hpt Hn]. rewrite fmap_cons, not_elem_of_cons in Hn. destruct Hn as [Hn ?]. by rewrite Tin. }
    destruct Hc as [(_ & _ & _ & ->)|(x' & b & r & U)]; [split; [apply W|done]|].
    assert (Hme : rt ∈ (routingtree s').*1) by (rewrite (up_rtree _ _ _ _ _ _ _ U); by eapply fst_elem).
    destruct (up_chg _ _ _ _ _ _ _ U) as [[_ ->]|[->| ->]]; [split; [apply W|done]|..].
    + split; [by constructor; [|apply W]|]. intros p [->|Hp]%elem_of_cons; auto.
    + split; [apply NoDup_app; split_and!; [apply W| |apply NoDup_singleton]; set_solver|].
      intros p [Hp|Hp%list_elem_of_singleton]%elem_of_app; subst; auto.
  - assert (N' : NoDup ((rt, k) :: L).*1) by (by constructor).
    assert (Keep : forall p, p <> rt -> p ∈ (routingtree s).*1 -> p ∈ (routingtree s').*1) by (intros p Hp; by rewrite Tin).
    destruct Hc as [(_ & _ & Eg & _)|(x' & b & r & U)]; [by eapply (walking_gw rt k L s s')|].
    destruct (up_gw _ _ _ _ _ _ _ U) as [Eg|Eg]; [by eapply (walking_gw rt k L s s')|]. right.
    assert (Hme : rt ∈ (routingtree s').*1) by (rewrite (up_rtree _ _ _ _ _ _ _ U); by eapply fst_elem).
    destruct (ro_path s' R' rt x' b Hme (up_entry _ _ _ _ _ _ _ U)) as (r' & Hr' & Hp' & _).
    { rewrite (up_tree _ _ _ _ _ _ _ U). apply U. }
    exists b, r', rt. done.
Qed.

Lemma walking_run L s : fib_laws -> NoDup L.*1 -> (forall e, e ∈ L -> e ∈ routingtree s0) -> NoDup (routingtree s0).*1 -> walking L s ->
  exists s', update_rib_routes ip_version lq_nat_thresh fibm_correct L s = Some (s', tt) /\ walking [] s'.
Proof.
  intros F. revert s. induction L as [|[rt k] L IH]; intros s N HL N0 W; [by exists s|]. cbn [update_rib_routes].
  destruct (walking_step rt k L s F N (HL _ ltac:(left)) N0 W) as (s1 & E & W1). apply NoDup_cons in N as [_ N].
  destruct (IH s1 N) as (s' & E' & W'); [intros e He; apply HL; by right|done..|]. exists s'. erewrite bind_run by exact E. done.
Qed.
End from.

Lemma update_rib_run s0 : fib_laws -> rib_ok s0 -> fib_sync s0 -> chg_kernel_list s0 = [] ->
  exists s, olsr_update_rib_routes ip_version lq_nat_thresh fibm_correct s0 = Some (s, tt) /\ walking s0 [] s.
Proof.
  intros F R S C. unfold olsr_update_rib_routes. erewrite bind_run by done. apply walking_run; try done; try apply R.
  split; try done.
  - by destruct s0 as [[]].
  - intros e. split; [|tauto]. intros He. split; [done|]. left. apply list_elem_of_fmap. by exists e.
  - rewrite C. split; [constructor|]. intros p Hp. by apply elem_of_nil in Hp.
  - by left.
Qed.

(** ** The change queue *)
Definition hop_set (r : rt_path) (x : rt_entry) : rt_entry :=
  set_failure_count 0 (set_rt_hop (rtp_gateway r) (rtp_interface r) (rtp_cost r) (rtp_hops r) x).

Lemma add_route_run s rt x b r i l : fib_laws -> rts s !! rt = Some x -> rt_best x = Some b -> paths s !! b = Some r -> rtp_interface r = Some i ->
  fib_view (kern s) (rt_dst x) = None -> locks s !! i = Some l -> 0 <= refcount l -> refcount l + 1 < 2 ^ 32 ->
  exists k', olsr_add_route rt s = Some (with_locks (lock_in i (locks s)) (with_rts (<[rt := hop_set r x]> (rts s)) (with_kern k' s)), tt) /\
    forall d, fib_view k' d = if pcomp d (rt_dst x) =? 0 then Some (rtp_gateway r, i) else fib_view (kern s) d.
Proof.
  intros F Hx Hb Hr Hi Hv Hl Hl1 Hl2. unfold olsr_add_route. erewrite bind_run by (by apply rt_wr_run).
  set (x1 := set_failure_count (failure_count x + 1) x).
  destruct (fl_add F (kern s) x1 r i Hv Hi) as (k' & Ek & Hk). exists k'. split; [|done].
  erewrite bind_run.
  2: { unfold call_kernel. simpl rts. rewrite lookup_insert_eq. simpl. rewrite Hb. simpl.
       change (paths _ !! b) with (paths s !! b). rewrite Hr, Ek. reflexivity. }
  erewrite bind_run by (apply rt_rd_run; simpl; by rewrite lookup_insert_eq). cbn [negb Z.eqb].
  erewrite bind_run by (simpl; by rewrite Hb). erewrite bind_run by (by apply rtp_rd_run).
  erewrite bind_run by (apply rt_wr_run; simpl; by rewrite lookup_insert_eq).
  rewrite Hi. erewrite bind_run by (by apply (lock_run _ i l)).
  erewrite rt_wr_run by (simpl; by rewrite lookup_insert_eq). simpl rts. rewrite !insert_insert_eq. unfold hop_set. rewrite Hi. done.
Qed.

Lemma hop_held s s' rt k x r i : rib_ok s -> (rt, k) ∈ routingtree s -> rts s !! rt = Some x -> rtp_interface r = Some i ->
  rts s' = <[rt := hop_set r x]> (rts s) -> routingtree s' = routingtree s -> paths s' = paths s ->
  forall j, held s' j = held s j - one (bool_decide (rt_interface x = Some j)) + one (bool_decide (i = j)).
Proof.
  intros R Hrt Hx Hi Er Et EP j. unfold held. rewrite EP, Et, Er.
  assert (held_entries (<[rt := hop_set r x]> (rts s)) (routingtree s) j =
    held_entries (rts s) (routingtree s) j - one (bool_decide (rt_interface x = Some j)) + one (bool_decide (i = j))) as ->; [|lia].
  unfold held_entries. rewrite (count_change (fun e => bool_decide ((rts s !! e.1 ≫= rt_interface) = Some j)) _ (routingtree s) rt k).
  - simpl. rewrite Hx, lookup_insert_eq. simpl. rewrite Hi.
    assert (bool_decide (Some i = Some j) = bool_decide (i = j)) as -> by (apply bool_decide_ext; split; congruence). done.
  - apply R.
  - done.
  - intros e He Hne. simpl. by rewrite lookup_insert_ne.
Qed.

Lemma held_le s i : held s i <= Z.of_nat (size (paths s)) + Z.of_nat (length (routingtree s)).
Proof.
  unfold held. pose proof (held_paths_le (paths s) i).
  pose proof (count_pos (fun e => bool_decide ((rts s !! e.1 ≫= rt_interface) = Some i)) (routingtree s)). unfold held_entries. lia.
Qed.

Lemma hop_ok s s' rt k x b r i : rib_ok s -> fib_sync s -> (rt, k) ∈ routingtree s -> rts s !! rt = Some x -> b ∈ (rt_path_tree x).*1 ->
  paths s !! b = Some r -> rtp_interface r = Some i -> rts s' = <[rt := hop_set r x]> (rts s) -> routingtree s' = routingtree s -> paths s' = paths s ->
  current_inetgw s' = current_inetgw s -> locks_ok base (held s') (locks s') ->
  (forall d, fib_view (kern s') d = if pcomp d k =? 0 then Some (rtp_gateway r, i) else fib_view (kern s) d) ->
  rib_ok s' /\ fib_sync s'.
Proof.
  intros R S Hrt Hx Hb Hr Hi Er Et EP Eg HL Hv. split.
  - eapply (touched_ok s s' rt x (hop_set r x)); try done. rewrite Eg. apply R.
  - intros d. rewrite Hv. unfold installed. rewrite Et, Er. destruct (Z.eqb_spec (pcomp d k) 0) as [E|E].
    + rewrite (find_entry s rt k d R Hrt E). simpl. rewrite lookup_insert_eq. simpl. unfold hop_of. simpl. by rewrite Hi.
    + rewrite (S d). unfold installed. destruct (tree_find pcomp d (routingtree s)) as [p|] eqn:Ef; [|done]. simpl.
      rewrite lookup_insert_ne; [done|]. intros <-. apply tree_find_Some in Ef as (k' & Hin & E'). apply E.
      by rewrite (nodup_fst_inj _ _ _ _ (tw_nodup _ _ (ro_tree s R)) Hrt Hin).
Qed.

(** The first half of a change: the route that is installed is deleted. *)
Record route_gone (s : rib) (rt : loc) (x : rt_entry) (s1 : rib) (x1 : rt_entry) : Prop := {
  rg_rts : rts s1 = <[rt := x1]> (rts s);
  rg_entry : forall r, hop_set r x1 = hop_set r x;
  rg_best : rt_best x1 = rt_best x;
  rg_dst : rt_dst x1 = rt_dst x;
  rg_rest : routingtree s1 = routingtree s /\ r_topo s1 = r_topo s /\ routingtree_version s1 = routingtree_version s /\
    current_inetgw s1 = current_inetgw s /\ chg_kernel_list s1 = chg_kernel_list s;
  rg_locks : locks_ok base (fun j => held s j - one (bool_decide (rt_interface x = Some j))) (locks s1);
  rg_view : forall d, fib_view (kern s1) d = if pcomp d (rt_dst x) =? 0 then None else fib_view (kern s) d
}.

Lemma chg_del_run s rt x : fib_laws -> rib_ok s -> fib_sync s -> (rt, rt_dst x) ∈ routingtree s -> rts s !! rt = Some x ->
  exists s1 x1, (if bool_decide (is_Some (rt_interface x)) then olsr_del_route rt;; mret tt else mret tt) s = Some (s1, tt) /\ route_gone s rt x s1 x1.
Proof.
  intros F R S Hrt Hx. destruct (rt_interface x) as [i0|] eqn:Hi0.
  - destruct (del_route_run s rt _ x i0 F R S Hrt Hx Hi0) as (k' & E & Hk'). rewrite bool_decide_eq_true_2 by eauto.
    eexists _, (set_failure_count 0 x). erewrite bind_run by exact E. split; [reflexivity|]. split; try done.
    simpl. eapply (locks_unlock base (held s)); [apply R| |].
    + unfold held. pose proof (held_paths_le (paths s) i0). pose proof (held_entries_in _ _ i0 (rt, rt_dst x) x Hrt Hx Hi0). lia.
    + intros j. rewrite Hi0. do 2 f_equal. apply bool_decide_ext. split; congruence.
  - exists s, x. split; [done|]. split; try done.
    + by rewrite insert_id.
    + eapply locks_ext; [|apply R]. intros j. rewrite Hi0. simpl. lia.
    + intros d. destruct (Z.eqb_spec (pcomp d (rt_dst x)) 0) as [E|E]; [|done].
      rewrite (S d), (installed_at s rt _ x d R Hrt Hx E). unfold hop_of. by rewrite Hi0.
Qed.

(** The locks after the first half leave room for the lock of the new route. *)
Lemma hop_locks s rt x b r i : rib_ok s -> (rt, rt_dst x) ∈ routingtree s -> rts s !! rt = Some x -> paths s !! b = Some r -> rtp_interface r = Some i ->
  let h1 := fun j => held s j - one (bool_decide (rt_interface x = Some j)) in 0 < base i + h1 i /\ base i + h1 i + 1 < 2 ^ 32.
Proof.
  intros R Hrt Hx Hr Hi h1. pose proof (held_paths_in (paths s) i b r Hr Hi) as Hpi. destruct (ro_locks s R i) as (Hbase & _). split.
  - enough (0 < h1 i) by lia. unfold h1, held.
    pose proof (count_pos (fun e => bool_decide ((rts s !! e.1 ≫= rt_interface) = Some i)) (routingtree s)) as Hc.
    fold (held_entries (rts s) (routingtree s) i) in Hc. case_bool_decide as Ej; simpl; [|lia].
    pose proof (held_entries_in (rts s) (routingtree s) i (rt, rt_dst x) x Hrt Hx Ej). lia.
  - set (s' := with_rts (<[rt := hop_set r x]> (rts s)) s).
    pose proof (hop_held s s' rt _ x r i R Hrt Hx Hi eq_refl eq_refl eq_refl i) as E. fold (h1 i) in E.
    rewrite (bool_decide_eq_true_2 (i = i)) in E by done. simpl in E. pose proof (held_le s' i) as Hle. pose proof (ro_bound s R i).
    change (paths s') with (paths s) in Hle. change (routingtree s') with (routingtree s) in Hle. lia.
Qed.

(** One entry of the queue. *)
Lemma chg_route_run s rt x b r : fib_laws -> rib_ok s -> fib_sync s -> (rt, rt_dst x) ∈ routingtree s -> rts s !! rt = Some x ->
  rt_best x = Some b -> b ∈ (rt_path_tree x).*1 -> paths s !! b = Some r ->
  exists s', (x ← rt_rd rt; (if bool_decide (is_Some (rt_interface x)) then olsr_del_route rt;; mret tt else mret tt);; olsr_add_route rt) s = Some (s', tt) /\
    rib_ok s' /\ fib_sync s' /\ rts s' = <[rt := hop_set r x]> (rts s) /\ routingtree s' = routingtree s /\ r_topo s' = r_topo s /\
    routingtree_version s' = routingtree_version s /\ current_inetgw s' = current_inetgw s /\ chg_kernel_list s' = chg_kernel_list s.
Proof.
  intros F R S Hrt Hx Eb Hb Hr. destruct (ro_path s R rt x b (fst_elem _ _ _ Hrt) Hx Hb) as (r' & Hr' & _ & _ & [i Hi]). rewrite Hr in Hr'. injection Hr' as <-.
  destruct (chg_del_run s rt x F R S Hrt Hx) as (s1 & x1 & E1 & [Er1 Eh1 Eb1 Ed1 (Et1 & Ew1 & Ev1 & Eg1 & Ec1) L1 V1]).
  destruct (hop_locks s rt x b r i R Hrt Hx Hr Hi) as [Hh1 Hh2].
  destruct (locks_lock base _ (fun j => held s j - one (bool_decide (rt_interface x = Some j)) + one (bool_decide (i = j))) (locks s1) i L1 Hh1 Hh2)
    as ((l & Hl & Hl1 & Hl2) & L2); [done|].
  assert (P1 : paths s1 = paths s) by (unfold paths; by rewrite Ew1).
  destruct (add_route_run s1 rt x1 b r i l F) as (k' & E2 & Hk2); try done.
  { rewrite Er1. by rewrite lookup_insert_eq. } { by rewrite Eb1. } { by rewrite P1. }
  { rewrite V1, Ed1, comp_refl. done. }
  erewrite bind_run by (by apply rt_rd_run). erewrite bind_run by exact E1. eexists. split; [exact E2|].
  match goal with |- rib_ok ?s /\ _ => set (s' := s) end.
  assert (Er' : rts s' = <[rt := hop_set r x]> (rts s)).
  { unfold s'. cbn [rts with_locks with_rts]. by rewrite Er1, insert_insert_eq, Eh1. }
  destruct (hop_ok s s' rt _ x b r i R S Hrt Hx Hb Hr Hi Er') as [R' S']; try done.
  - eapply locks_ext; [|exact L2]. intros j. by eapply (hop_held s s' rt).
  - intros d. simpl. rewrite Hk2, Ed1, V1. by destruct (pcomp d (rt_dst x) =? 0).
Qed.

Lemma same_hop_set r r0 x : set_rtp_rt None r0 = set_rtp_rt None r -> same_hop (hop_set r x) r0.
Proof.
  intros [= _ _ _ Eg Ei Ec Eh _]. unfold same_hop, olsr_nh_change, olsr_hopcount_change. simpl. rewrite Eg, Ei, Eh.
  rewrite (bool_decide_eq_true_2 (rtp_interface r = rtp_interface r)) by done. rewrite Z.eqb_refl.
  assert (ipcmp ip_version (rtp_gateway r) (rtp_gateway r) = 0) as -> by (unfold ipcmp; case_match; apply comp_refl).
  by destruct fibm_correct.
Qed.

Lemma chg_step s0 s rt L : fib_laws -> walking s0 [] s -> chg_kernel_list s = rt :: L ->
  exists s1 s', (x ← rt_rd rt; (if bool_decide (is_Some (rt_interface x)) then olsr_del_route rt;; mret tt else mret tt);; olsr_add_route rt) s = Some (s1, tt) /\
    s' = with_chg (filter (fun q => q <> rt) (chg_kernel_list s1)) s1 /\ walking s0 [] s' /\ chg_kernel_list s' = L.
Proof.
  intros F W C. destruct (w_chg _ _ _ W) as [N Hin]. rewrite C in N, Hin. destruct (Hin rt ltac:(left)) as [Hrt _].
  destruct (elem_fst _ _ Hrt) as [k Hk]. destruct (ro_entry s (w_ok _ _ _ W) rt k Hk) as (x & Hx & -> & _).
  destruct (w_done _ _ _ W rt Hrt ltac:(by intros ?%elem_of_nil)) as (x0 & x' & b & r0 & H1 & H2 & H3 & H4 & H5 & H6 & H7 & H8 & _). simplify_eq.
  destruct (same_paths_lookup _ _ _ _ (w_paths _ _ _ W) H7) as (r & Hr & Er).
  destruct (chg_route_run s rt x b r F (w_ok _ _ _ W) (w_sync _ _ _ W) Hk Hx H5) as (s1 & E & R1 & S1 & Er1 & Et1 & Ew1 & Ev1 & Eg1 & Ec1); [by rewrite H4|done|].
  exists s1, (with_chg L s1). split; [done|].
  apply NoDup_cons in N as [Nrt NL].
  assert (filter (fun q => q <> rt) (chg_kernel_list s1) = L) as ->.
  { rewrite Ec1, C, filter_cons_False by tauto. apply filter_all, Forall_forall. intros q Hq ->. done. }
  split; [done|]. split; [|done]. assert (P1 : paths s1 = paths s) by (unfold paths; by rewrite Ew1).
  split; rewrite ?Et1; try (by destruct W).
  - by apply with_chg_ok.
  - simpl. rewrite Ev1. apply W.
  - unfold paths. simpl. rewrite Ew1. apply W.
  - unfold paths. simpl. rewrite !Ew1. apply W.
  - simpl. rewrite Et1. apply W.
  - intros p Hp. by apply elem_of_nil in Hp.
  - simpl. rewrite Et1. intros p Hp Hn. destruct (decide (p = rt)) as [->|Hne].
    + exists x0, (hop_set r x), b, r0. split_and!; try done; [simpl; by rewrite Er1, lookup_insert_eq|]. right. by apply same_hop_set.
    + eapply settled_mono; [apply (w_done _ _ _ W p Hp Hn)|simpl; by rewrite Er1, lookup_insert_ne|]. rewrite C. simpl. intros [?|?]%elem_of_cons; done.
  - simpl. rewrite Et1. split; [done|]. intros p Hp. apply Hin. by right.
  - simpl. rewrite Eg1. unfold paths. simpl. rewrite Ew1. apply W.
Qed.

Lemma chg_run s0 L s : fib_laws -> walking s0 [] s -> chg_kernel_list s = L ->
  exists s', chg_kernel_routes L s = Some (s', tt) /\ walking s0 [] s' /\ chg_kernel_list s' = [].
Proof.
  intros F. revert s. induction L as [|rt L IH]; intros s W C; [by exists s|]. cbn [chg_kernel_routes].
  destruct (chg_step s0 s rt L F W C) as (s1 & s2 & E & -> & W2 & C2). destruct (IH _ W2 C2) as (s' & E' & W' & C').
  exists s'. split; [|done]. rewrite <- E'. revert E. clear. unfold mbind, se_bind. destruct (rt_rd rt s) as [[a x]|]; [|done].
  destruct (_ a) as [[a' []]|]; [|done]. by intros ->.
Qed.

(** ** The update of the routes *)

(** After the update the kernel has, for every prefix, the next hop of the best of the paths of the
    current version, and no route where there is no such path. *)
Definition routes_updated (s0 : rib) (k : kernel) (d : olsr_ip_prefix) : Prop :=
  match tree_find pcomp d (routingtree s0) with
  | None => fib_view k d = None
  | Some p =>
    ~ has_current s0 p /\ fib_view k d = None \/
    exists x0 b r g i, rts s0 !! p = Some x0 /\ b ∈ (cur_paths s0 x0).*1 /\ paths s0 !! b = Some r /\ best_current s0 x0 b /\
      fib_view k d = Some (g, i) /\ ipcmp ip_version (rtp_gateway r) g = 0 /\ rtp_interface r = Some i
  end.

Lemma walked_routes s0 s d : rib_ok s0 -> walking s0 [] s -> chg_kernel_list s = [] -> routes_updated s0 (kern s) d.
Proof.
  intros R0 W C. unfold routes_updated. rewrite (w_sync _ _ _ W d). unfold installed.
  destruct (tree_find pcomp d (routingtree s0)) as [p|] eqn:E0.
  - apply tree_find_Some in E0 as (k & Hk & Ek).
    destruct (decide ((p, k) ∈ routingtree s)) as [Hin|Hn].
    + right. rewrite (find_entry s p k d (w_ok _ _ _ W) Hin Ek). simpl.
      destruct (w_done _ _ _ W p (fst_elem _ _ _ Hin) ltac:(by intros ?%elem_of_nil)) as (x0 & x & b & r & H1 & H2 & H3 & H4 & H5 & H6 & H7 & H8 & H9).
      rewrite H2. simpl. destruct H9 as [H9|H9]; [by rewrite C in H9; apply elem_of_nil in H9|].
      destruct (ro_path s0 R0 p x0 b (fst_elem _ _ _ Hk) H1) as (r' & Hr' & _ & _ & [i Hi]); [by apply in_cur in H6 as [? _]|]. simplify_eq.
      apply orb_false_iff in H9 as [H9 _]. apply orb_false_iff in H9 as [Hg He].
      apply negb_false_iff, Z.eqb_eq in Hg. apply negb_false_iff, bool_decide_eq_true in He.
      exists x0, b, r, (rt_gateway x), i. split_and!; try done. unfold hop_of. by rewrite <- He, Hi.
    + left. assert (Hnc : ~ has_current s0 p).
      { intros Hc. apply Hn, (w_tree _ _ _ W). split; [done|]. right. split; [by intros ?%elem_of_nil|done]. }
      split; [done|]. destruct (tree_find pcomp d (routingtree s)) as [q|] eqn:Ef; [|done]. exfalso.
      apply tree_find_Some in Ef as (k' & Hk' & Ek'). apply (w_tree _ _ _ W) in Hk' as Hq. destruct Hq as [Hq _].
      destruct (tree_unique pcomp (routingtree s0) q p k' k (ro_tree s0 R0) Hq Hk) as [-> ->]; [|done].
      eapply comp_eq_trans; [apply _|eapply comp_eq_sym; [apply _|exact Ek']|done].
  - destruct (tree_find pcomp d (routingtree s)) as [q|] eqn:Ef; [|done]. exfalso. apply tree_find_Some in Ef as (k' & Hk' & Ek').
    apply (w_tree _ _ _ W) in Hk' as [Hq _]. by apply (proj1 (tree_find_None pcomp _ _) E0 q k').
Qed.

Lemma update_routes_run s0 : fib_laws -> rib_ok s0 -> fib_sync s0 -> chg_kernel_list s0 = [] ->
  exists s, (olsr_update_rib_routes ip_version lq_nat_thresh fibm_correct;; olsr_update_kernel_routes) s0 = Some (s, tt) /\
    walking s0 [] s /\ chg_kernel_list s = [].
Proof.
  intros F R S C. destruct (update_rib_run s0 F R S C) as (s1 & E1 & W1). destruct (chg_run s0 (chg_kernel_list s1) s1 F W1 eq_refl) as (s & E & W & C').
  exists s. split; [|done]. erewrite bind_run by exact E1. unfold olsr_update_kernel_routes, olsr_chg_kernel_routes. by erewrite bind_run by done.
Qed.

(** C8: The routes after an update: the kernel has exactly the best routes of
    the current version, the routing table is consistent and in step with the kernel, no
    entry is left in the queue, and every interface that a route or a path uses is locked. *)
Theorem update_routes_correct s0 : fib_laws -> rib_ok s0 -> fib_sync s0 -> chg_kernel_list s0 = [] ->
  exists s, (olsr_update_rib_routes ip_version lq_nat_thresh fibm_correct;; olsr_update_kernel_routes) s0 = Some (s, tt) /\
    (forall d, routes_updated s0 (kern s) d) /\ rib_ok s /\ fib_sync s /\ chg_kernel_list s = [].
Proof.
  intros F R S C. destruct (update_routes_run s0 F R S C) as (s & E & W & C'). exists s. split_and!; [done| |apply W|apply W|done].
  intros d. by apply (walked_routes s0 s).
Qed.
End rib_update.

(** ** A kernel that is a list of routes *)
Section demo_kernel.
Context (ip_version : Z).
Abbreviation pcomp := (avl_comp_prefix_default ip_version).
Abbreviation demo_kernel := (list (olsr_ip_prefix * (ip_addr * loc))).
Definition demo_view (k : demo_kernel) (d : olsr_ip_prefix) : option (ip_addr * loc) := snd <$> head (filter (fun e => pcomp d e.1 = 0) k).
Definition demo_del (x : rt_entry) (k : demo_kernel) : demo_kernel := filter (fun e => pcomp e.1 (rt_dst x) <> 0) k.
Definition demo_export : RouteExport := {|
  kernel := demo_kernel;
  olsr_add_route_function := fun x b k => b ← b; i ← rtp_interface b;
    if demo_view k (rt_dst x) is Some _ then Some (k, 17) else Some ((rt_dst x, (rtp_gateway b, i)) :: k, 0);
  olsr_del_route_function := fun x b k => if demo_view k (rt_dst x) is Some _ then Some (demo_del x k, 0) else Some (k, 3) |}.

Lemma demo_laws : fib_laws (KE := demo_export) ip_version demo_view.
Proof.
  split.
  - intros k x r i Hv Hi. exists ((rt_dst x, (rtp_gateway r, i)) :: k). split; [simpl; rewrite Hi; simpl; by rewrite Hv|].
    intros d. unfold demo_view. rewrite filter_cons. case_decide as E; simpl in E; [by rewrite E|]. by rewrite (proj2 (Z.eqb_neq _ _) E).
  - intros k x b i Hv _. exists (demo_del x k). split; [simpl; by rewrite Hv|]. intros d. unfold demo_view, demo_del. rewrite list_filter_filter.
    destruct (Z.eqb_spec (pcomp d (rt_dst x)) 0) as [E|E].
    + rewrite filter_none; [done|]. apply Forall_forall. intros e _ [H1 H2]. apply H2. eapply comp_eq_trans; [apply _| |exact E].
      by apply comp_eq_sym; [apply _|].
    + erewrite list_filter_iff; [done|]. intros e. cbn beta. split; [tauto|]. intros H. split; [done|]. intros H'. apply E.
      by eapply comp_eq_trans; [apply _| |exact H'].
Qed.
End demo_kernel.

Definition demo_pfx (b : Z) (o : Z) : olsr_ip_prefix := mkPfx ([10; 0; 0; b] ++ replicate 12 0) 32 o.
Definition demo_gw (b : Z) : ip_addr := [10; 0; 0; b] ++ replicate 12 0.
Definition demo_path (dst orig : Z) (rt : loc) (gw : Z) (i : loc) (c h v : Z) : rt_path :=
  mkRtp (demo_pfx dst 1) (demo_pfx orig 1) (Some rt) None (demo_gw gw) (Some i) c h v.
(** Two paths to 10.0.0.9, of which the cheaper one is not installed, and an
    outdated path to 10.0.0.8. *)
Definition demo_rib : rib (KE := demo_export AF_INET) :=
  mkRib (KE := demo_export AF_INET) (with_rtps {[ 1%positive := demo_path 9 9 5 2 1 100 2 7; 2%positive := demo_path 9 3 5 3 2 50 3 7;
      3%positive := demo_path 8 8 6 2 1 70 1 6 ]} tdemo_empty)
    {[ 5%positive := mkRt (demo_pfx 9 1) (Some 1%positive) (demo_gw 2) (Some 1%positive) 100 2 [(1%positive, demo_pfx 9 1); (2%positive, demo_pfx 3 1)] 0;
       6%positive := mkRt (demo_pfx 8 1) (Some 3%positive) (demo_gw 2) (Some 1%positive) 70 1 [(3%positive, demo_pfx 8 1)] 0 ]}
    [(6%positive, demo_pfx 8 1); (5%positive, demo_pfx 9 1)] 7 None []
    {[ 1%positive := mkLock 5 true; 2%positive := mkLock 2 true ]}
    [(demo_pfx 8 1, (demo_gw 2, 1%positive)); (demo_pfx 9 1, (demo_gw 2, 1%positive))].
Definition demo_base (i : loc) : Z := if decide (i = 1%positive \/ i = 2%positive) then 1 else 0.

Lemma demo_entries p x : rts demo_rib !! p = Some x ->
  p = 5%positive /\ rt_dst x = demo_pfx 9 1 /\ (rt_path_tree x).*1 = [1%positive; 2%positive] \/
  p = 6%positive /\ rt_dst x = demo_pfx 8 1 /\ (rt_path_tree x).*1 = [3%positive].
Proof. intros H. map_cases H; auto. Qed.
Lemma demo_paths q r : paths demo_rib !! q = Some r ->
  (q = 1%positive \/ q = 2%positive) /\ rtp_rt r = Some 5%positive /\ rtp_dst r = demo_pfx 9 1 \/
  q = 3%positive /\ rtp_rt r = Some 6%positive /\ rtp_dst r = demo_pfx 8 1.
Proof. intros H. map_cases H; auto. Qed.

Lemma demo_locks_ok : locks_ok demo_base (held demo_rib) (locks demo_rib).
Proof.
  intros i. unfold demo_base. case_decide as Hi.
  - destruct Hi as [->| ->]; (split_and!; [by vm_compute..|intros _]); eexists; (split; [reflexivity|]); by vm_compute.
  - assert (i <> 1%positive) as H1 by tauto. assert (i <> 2%positive) as H2 by tauto. assert (held demo_rib i = 0) as ->; [|split_and!; [done..|lia]].
    assert (forall l, l ≡ₚ [(1, Some 1); (2, Some 2); (3, Some 1)]%positive ->
      count (fun x : loc * option loc => bool_decide (x.2 = Some i)) l = 0) as Hc.
    { intros l Hl. rewrite (count_perm _ _ _ Hl). simpl. by rewrite !bool_decide_eq_false_2 by congruence. }
    unfold held, held_paths, held_entries. rewrite Hc; [|apply (bool_decide_unpack _); by vm_compute].
    simpl. by rewrite !bool_decide_eq_false_2 by (vm_compute; congruence).
Qed.

Lemma demo_rib_ok : rib_ok AF_INET demo_base demo_rib.
Proof.
  split.
  - split; [|apply (bool_decide_unpack _); by vm_compute]. repeat constructor.
  - intros p k Hp. list_cases Hp; simplify_eq; eexists; (split; [reflexivity|]); (split; [done|]); apply (bool_decide_unpack _); by vm_compute.
  - intros p x q Hp [(-> & -> & ->)|(-> & -> & ->)]%demo_entries Hq; list_cases Hq; eexists; (split; [reflexivity|]); (split; [done|]); (split; [done|]); by eexists.
  - intros p x q k r Hp Hx Hq Hr. map_cases Hx; list_cases Hq; simplify_eq; vm_compute in Hr; by injection Hr as <-.
  - intros q r p [([->| ->] & -> & _)|(-> & -> & _)]%demo_paths [= <-]; (split; [apply (bool_decide_unpack _); by vm_compute|]);
      eexists; (split; [reflexivity|]); apply (bool_decide_unpack _); by vm_compute.
  - done.
  - apply demo_locks_ok.
  - intros i. unfold demo_base. case_decide; by vm_compute.
Qed.

Lemma demo_sync : fib_sync (KE := demo_export AF_INET) AF_INET (demo_view AF_INET) demo_rib.
Proof.
  intros d. unfold installed, tree_find, spec_find, demo_view. simpl kern. simpl routingtree.
  rewrite !filter_cons. cbn [fst snd]. repeat case_decide; done.
Qed.

Definition demo_update : SE (rib (KE := demo_export AF_INET)) unit :=
  olsr_update_rib_routes (KE := demo_export AF_INET) AF_INET 1000 false;; olsr_update_kernel_routes.

(** The route to 10.0.0.9 moves to the cheaper path, the one to 10.0.0.8 is
    removed. *)
Lemma update_routes_correct_witness : exists s, demo_update demo_rib = Some (s, tt) /\
  demo_view AF_INET (kern s) (demo_pfx 9 0) = Some (demo_gw 3, 2%positive) /\ demo_view AF_INET (kern s) (demo_pfx 8 0) = None /\
  rib_ok AF_INET demo_base s.
Proof.
  destruct (update_routes_correct (KE := demo_export AF_INET) AF_INET 1000 false demo_base (demo_view AF_INET) demo_rib (demo_laws AF_INET)
    demo_rib_ok demo_sync eq_refl) as (s & E & _ & R & _). exists s. split; [exact E|].
  split; [rewrite (se_state_eq _ _ _ _ E); by vm_compute|]. split; [rewrite (se_state_eq _ _ _ _ E); by vm_compute|exact R].
Defined.
