(* ===== verification/KernelRoutes.v ===== *)
(** * Kernel routes on Linux ([linux/kernel_routes.c])

    The two functions that are installed as hooks by default. A netlink message
    to the kernel is [olsr_new_netlink_route], which is a parameter. *)
From S2P Require Import Prelude AvlSpec Trees Types Comparators IpCalc Lsdb LqHandler LqEtxFf Neighborhood TcSet TcProps RoutingTable ProcessRoutes RibUpdate.

Definition RT_METRIC_DEFAULT : Z := 2.

Inductive fib_metric_options := FIBM_FLAT | FIBM_CORRECT | FIBM_APPROX.

(** The arguments of [olsr_new_netlink_route]. *)
Record nl_route := mkNl {
  nl_table : Z;
  nl_if_index : Z;
  nl_metric : Z;
  nl_protocol : Z;
  nl_src : option ip_addr;
  nl_gw : option ip_addr;
  nl_dst : olsr_ip_prefix;
  nl_set : bool;
  nl_del_similar : bool
}.

Record kernel_config := mkKCfg {
  fib_metric : fib_metric_options;
  smart_gw_active : bool;
  rt_table : Z;
  rt_table_default : Z;
  rt_proto : Z;
  use_src_ip_routes : bool;
  unicast_src_ip : ip_addr
}.

Section linux.
Context {K : Type} (olsr_new_netlink_route : nl_route -> K -> K * Z) (if_index : loc -> Z) (ip_version : Z) (cnf : kernel_config).

Definition is_flat (m : fib_metric_options) : bool := match m with FIBM_FLAT => true | _ => false end.

Definition olsr_os_process_rt_entry (x : rt_entry) (best : option rt_path) (set : bool) (k : K) : option (K * Z) :=
  metric ← (if is_flat (fib_metric cnf) then Some RT_METRIC_DEFAULT
            else if set then rtp_hops <$> best else Some (rt_hops x));
  let metric := if smart_gw_active cnf && is_prefix_inetgw ip_version (rt_dst x) then metric + 2 else metric in
  let table := if is_prefix_inetgw ip_version (rt_dst x) then rt_table_default cnf else rt_table cnf in
  let '(gateway, iface) :=
    match best with
    | Some b => if set then (rtp_gateway b, rtp_interface b) else (rt_gateway x, rt_interface x)
    | None => (rt_gateway x, rt_interface x)
    end in
  let hostRoute := (prefix_len (rt_dst x) =? Z.of_nat (tc_ipsize ip_version) * 8) && (ipcmp ip_version gateway (prefix (rt_dst x)) =? 0) in
  let src := if use_src_ip_routes cnf then Some (unicast_src_ip cnf) else None in
  iface ← iface;
  let req := mkNl table (if_index iface) metric (rt_proto cnf) src (if hostRoute then None else Some gateway) (rt_dst x) set false in
  let '(k, err) := olsr_new_netlink_route req k in
  if set && (err =? 17) then
    let '(k, err) := olsr_new_netlink_route (mkNl table 0 0 (-1) None None (rt_dst x) false true) k in
    if err =? 0 then Some (olsr_new_netlink_route req k) else Some (k, err)
  else if negb set && (err =? 3) then Some (k, 0)
  else Some (k, err).

Definition os_route_add_rtentry (x : rt_entry) (best : option rt_path) (k : K) : option (K * Z) := olsr_os_process_rt_entry x best true k.
Definition os_route_del_rtentry (x : rt_entry) (best : option rt_path) (k : K) : option (K * Z) := olsr_os_process_rt_entry x best false k.

(** [olsr_init_export_route] *)
Definition linux_export : RouteExport := {|
  kernel := K;
  olsr_add_route_function := os_route_add_rtentry;
  olsr_del_route_function := os_route_del_rtentry |}.
End linux.

(** ** A kernel that refuses a gateway

    The kernel has the destinations of its routes. It refuses routes via 10.0.0.3
    with "network unreachable" (101), and reports "no such process" (3)
    for a route that it does not have. *)
Definition ldemo_netlink (req : nl_route) (k : list olsr_ip_prefix) : list olsr_ip_prefix * Z :=
  let found := filter (fun d => avl_comp_prefix_default AF_INET d (nl_dst req) = 0) k in
  let rest := filter (fun d => avl_comp_prefix_default AF_INET d (nl_dst req) <> 0) k in
  if nl_set req then
    if bool_decide (nl_gw req = Some (tdemo_ip 3)) then (k, 101)
    else if bool_decide (found = []) then (nl_dst req :: k, 0) else (k, 17)
  else if bool_decide (found = []) then (k, 3) else (rest, 0).
Definition ldemo_cnf : kernel_config := mkKCfg FIBM_FLAT false 254 254 0 false [].
Definition ldemo_export : RouteExport := linux_export ldemo_netlink Z.pos AF_INET ldemo_cnf.

(** The route to 10.0.0.9 is installed via 10.0.0.2 and interface 1; its only
    path is now via 10.0.0.3 and interface 2. Interface 1 is locked by the list of interfaces and
    by the route, interface 2 by the list and by the path. *)
Definition ldemo_pfx : olsr_ip_prefix := mkPfx (tdemo_ip 9) 32 1.
Definition ldemo : rib (KE := ldemo_export) := mkRib (KE := ldemo_export)
  (with_rtps {[ 1%positive := mkRtp ldemo_pfx ldemo_pfx (Some 5%positive) None (tdemo_ip 3) (Some 2%positive) 100 2 7 ]} tdemo_empty)
  {[ 5%positive := mkRt ldemo_pfx None (tdemo_ip 2) (Some 1%positive) 100 2 [(1%positive, ldemo_pfx)] 0 ]}
  [(5%positive, ldemo_pfx)] 7 None [] {[ 1%positive := mkLock 2 true; 2%positive := mkLock 2 true ]} [ldemo_pfx].
Definition ldemo_base (i : loc) : Z := if decide (i = 1%positive \/ i = 2%positive) then 1 else 0.

Lemma ldemo_locks_ok : locks_ok ldemo_base (held ldemo) (locks ldemo).
Proof.
  intros i. unfold ldemo_base. case_decide as Hi.
  - destruct Hi as [->| ->]; (split_and!; [by vm_compute..|intros _]); eexists; (split; [reflexivity|]); by vm_compute.
  - assert (i <> 1%positive) as H1 by tauto. assert (i <> 2%positive) as H2 by tauto.
    assert (held ldemo i = 0) as ->; [|split_and!; [done..|lia]]. unfold held, held_paths, held_entries.
    assert (map_to_list (rtp_interface <$> paths ldemo) = [(1%positive, Some 2%positive)]) as -> by (by vm_compute).
    simpl. by rewrite !bool_decide_eq_false_2 by (vm_compute; congruence).
Qed.

Lemma ldemo_rib_ok : rib_ok AF_INET ldemo_base ldemo.
Proof.
  split.
  - split; [|apply (bool_decide_unpack _); by vm_compute]. repeat constructor.
  - intros p k Hp. list_cases Hp. simplify_eq. eexists. split; [reflexivity|]. split; [done|]. apply (bool_decide_unpack _). by vm_compute.
  - intros p x q Hp Hx Hq. map_cases Hx. list_cases Hq. eexists. split; [reflexivity|]. split; [done|]. split; [done|]. by eexists.
  - intros p x q k r Hp Hx Hq Hr. map_cases Hx. list_cases Hq. simplify_eq. vm_compute in Hr. by injection Hr as <-.
  - intros q r p Hq Hp. map_cases Hq. injection Hp as <-. split; [apply (bool_decide_unpack _); by vm_compute|].
    eexists. split; [reflexivity|]. apply (bool_decide_unpack _). by vm_compute.
  - done.
  - apply ldemo_locks_ok.
  - intros i. unfold ldemo_base. case_decide; by vm_compute.
Qed.

Definition ldemo_update : SE (rib (KE := ldemo_export)) unit :=
  olsr_update_rib_routes (KE := ldemo_export) AF_INET 1000 false;; olsr_update_kernel_routes.
(** The calculation finds the old next hop again. *)
Definition ldemo_refresh : SE (rib (KE := ldemo_export)) unit :=
  olsr_update_rt_path (KE := ldemo_export) 1 (mkTc (tdemo_ip 9) (mkSpf 100 None 2 false Unlinked) [] [] None None false 0 0 0 0 0)
    (mkLink (tdemo_ip 1) (tdemo_ip 2) 1 None None 0 0 5 SYM_LINK false false 0 0 0 None 65536).

(** On Linux: if the kernel refuses the new route of an entry, the next
    update releases the lock of the old interface a second time, because the old next hop is
    kept and the deletion of a route that does not exist counts as a success.
    Here the interface is still in the list, and the assertion of [unlock_interface] fails. *)
Theorem failed_add_aborts : rib_ok AF_INET ldemo_base ldemo /\ chg_kernel_list ldemo = [] /\
  exists s1, ldemo_update ldemo = Some (s1, tt) /\ ldemo_update s1 = None.
Proof.
  split; [exact ldemo_rib_ok|]. split; [done|]. exists (se_state ldemo_update ldemo).
  split; [apply se_state_run|apply se_stuck]; by vm_compute.
Qed.

(** On a consistent state with an installed route, an update that moves the route
    to another next hop deletes it in the kernel first; if the addition fails and
    the old next hop is found again before the next update, the route stays
    deleted: the entry still says that it is installed, and nothing is queued. *)
Theorem failed_add_loses_route : rib_ok AF_INET ldemo_base ldemo /\ kern ldemo = [ldemo_pfx] /\
  exists s1 x, (ldemo_update;; ldemo_refresh;; ldemo_update) ldemo = Some (s1, tt) /\ kern s1 = [] /\
    rts s1 !! 5%positive = Some x /\ rt_best x = Some 1%positive /\ rt_gateway x = tdemo_ip 2 /\ rt_interface x = Some 1%positive /\
    chg_kernel_list s1 = [].
Proof.
  split; [exact ldemo_rib_ok|]. split; [done|]. set (m := ldemo_update;; _).
  exists (se_state m ldemo), (default (rdemo_entry None) (rts (se_state m ldemo) !! 5%positive)).
  split; [apply se_state_run; by vm_compute|]. by vm_compute.
Qed.
