(* ===== verification/RibRefresh.v ===== *)
(** * The paths of a node that is reached ([olsr_spf.c], [routing_table.c])

    The loop of [olsr_calculate_routing_table] over the prefixes of a node:
    every path gets the next hop, the cost and the version of the calculation, and
    is added to the entry of its prefix if it is in none. *)
From S2P Require Import Prelude AvlSpec AvlOps Trees Types Comparators Lsdb LqHandler Neighborhood TcSet RoutingTable ProcessRoutes RibUpdate.
#[local] Arguments bool_decide : simpl never.

Section rib_refresh.
Context `{LQ : LqHandler} `{KE : RouteExport} (ip_version : Z).
Context (base : loc -> Z) (fib_view : kernel -> olsr_ip_prefix -> option (ip_addr * loc)).
Abbreviation M := (SE rib).
Abbreviation pcomp := (avl_comp_prefix_default ip_version).
Abbreviation ocomp := (avl_comp_addr_origin_default ip_version).

(** The loop over the prefixes of a node. *)
Fixpoint refresh_prefixes (t : tc_entry) (l : link_entry) (L : list (loc * olsr_ip_prefix)) : M unit :=
  match L with
  | [] => mret tt
  | e :: L =>
    r ← rtp_rd e.1;
    (match rtp_rt r with
     | Some _ => olsr_update_rt_path e.1 t l
     | None => olsr_insert_rt_path ip_version e.1 t l
     end);;
    refresh_prefixes t l L
  end.

(** ** Trees of paths *)
Lemma tree_insert_perm (comp : olsr_ip_prefix -> olsr_ip_prefix -> Z) k (p : loc) L :
  (forall e, e ∈ L -> comp e.2 k <= 0 <-> ~ comp k e.2 < 0) -> (forall e, e ∈ L -> comp k e.2 <> 0) -> tree_insert comp false k p L ≡ₚ (p, k) :: L.
Proof.
  intros Hs Hn. unfold tree_insert, spec_insert. rewrite bool_decide_eq_false_2.
  2: { intros (e & He & E)%Exists_exists. by apply (Hn e He). }
  simpl. rewrite (filter_ext_in (fun e => comp e.2 k <= 0) (fun e => ~ comp k e.2 < 0)) by done.
  rewrite <- Permutation_middle. apply perm_skip.
  clear. induction L as [|e L IH]; [done|]. rewrite !filter_cons. do 2 case_decide; try tauto.
  - simpl. by apply perm_skip.
  - rewrite <- Permutation_middle. by apply perm_skip.
Qed.

(** The comparator orders the originators of two paths, and no two paths have the same prefix,
    originator and origin. The first part holds for IPv6, and for IPv4 addresses that are not
    half of the address space apart. *)
Definition origins_ok (P : gmap loc rt_path) : Prop := forall q q' r r', P !! q = Some r -> P !! q' = Some r' -> q <> q' ->
  (ocomp (rtp_originator r) (rtp_originator r') <= 0 <-> ~ ocomp (rtp_originator r') (rtp_originator r) < 0) /\
  (pcomp (rtp_dst r) (rtp_dst r') = 0 -> ocomp (rtp_originator r') (rtp_originator r) <> 0).

(** ** One path *)
Definition hop_to (v : Z) (t : tc_entry) (l : link_entry) : rt_path -> rt_path :=
  set_rtp_hop v (neighbor_iface_addr l) (Some (inter l)) (path_cost (tc_spf t)) (hops (tc_spf t)).

Lemma held_paths_insert P q r r' j : P !! q = Some r ->
  held_paths (<[q := r']> P) j = held_paths P j - one (bool_decide (rtp_interface r = Some j)) + one (bool_decide (rtp_interface r' = Some j)).
Proof.
  intros Hq. unfold held_paths. rewrite fmap_insert. set (m := rtp_interface <$> P).
  assert (Hm : m !! q = Some (rtp_interface r)) by (unfold m; by rewrite lookup_fmap, Hq).
  assert (E : map_to_list m ≡ₚ (q, rtp_interface r) :: map_to_list (delete q m)).
  { rewrite <- (map_to_list_insert (delete q m)) by apply lookup_delete_eq. by rewrite insert_delete_id. }
  assert (E' : map_to_list (<[q := rtp_interface r']> m) ≡ₚ (q, rtp_interface r') :: map_to_list (delete q m)).
  { rewrite <- (map_to_list_insert (delete q m)) by apply lookup_delete_eq. by rewrite insert_delete_eq. }
  rewrite (count_perm _ _ _ E), (count_perm _ _ _ E'). simpl. lia.
Qed.

(** The locks after the interface of a path has changed. *)
Definition relock (o : option loc) (i : loc) (m : gmap loc if_lock) : gmap loc if_lock :=
  if bool_decide (o = Some i) then m else lock_in i (match o with Some j => unlock_in j m | None => m end).

Lemma update_rt_path_run s q r t l h : paths s !! q = Some r -> locks_ok base h (locks s) ->
  (forall j, rtp_interface r = Some j -> 0 < h j) -> 0 < base (inter l) -> base (inter l) + h (inter l) + 1 < 2 ^ 32 ->
  olsr_update_rt_path q t l s =
    Some (with_paths (<[q := hop_to (routingtree_version s) t l r]> (paths s)) (with_locks (relock (rtp_interface r) (inter l) (locks s)) s), tt) /\
  locks_ok base (fun j => h j - one (bool_decide (rtp_interface r = Some j)) + one (bool_decide (inter l = j))) (relock (rtp_interface r) (inter l) (locks s)).
Proof.
  intros Hq HL Hr Hb Hb2. unfold olsr_update_rt_path. erewrite bind_run by done. erewrite bind_run by (by apply rtp_rd_run). unfold relock.
  destruct (decide (rtp_interface r = Some (inter l))) as [E|E].
  { rewrite !bool_decide_eq_true_2 by done. cbn [negb]. erewrite bind_run by done. erewrite rtp_wr_run by done. split; [by destruct s|].
    eapply locks_ext; [|exact HL]. intros j. rewrite E.
    assert (bool_decide (Some (inter l) = Some j) = bool_decide (inter l = j)) as -> by (apply bool_decide_ext; split; congruence). simpl. lia. }
  rewrite !bool_decide_eq_false_2 by done. cbn [negb].
  set (h1 := fun j => h j - one (bool_decide (rtp_interface r = Some j))).
  set (m1 := match rtp_interface r with Some j => unlock_in j (locks s) | None => locks s end).
  assert ((match rtp_interface r with Some i => unlock_interface (Some i) | None => mret tt end) s = Some (with_locks m1 s, tt) /\ locks_ok base h1 m1) as [R1 L1].
  { unfold m1, h1. destruct (rtp_interface r) as [j|]; [|split; [by destruct s|]; eapply locks_ext; [|exact HL]; intros; simpl; lia].
    destruct (locks_unlock base h (fun i => h i - one (bool_decide (j = i))) (locks s) j HL (Hr j eq_refl)) as ((lk & Hl & Hc) & L1); [done|].
    split; [by eapply unlock_run|]. eapply locks_ext; [|exact L1]. intros i. cbn beta. do 2 f_equal. apply bool_decide_ext. split; congruence. }
  assert (Hh1 : h1 (inter l) = h (inter l)) by (unfold h1; rewrite bool_decide_eq_false_2 by done; simpl; lia).
  destruct (locks_lock base h1 (fun j => h1 j + one (bool_decide (inter l = j))) m1 (inter l) L1) as ((lk & Hl & H1 & H2) & L2);
    [destruct (HL (inter l)); lia|lia|done|].
  split; [|exact L2].
  erewrite bind_run by (erewrite bind_run by exact R1; by eapply (lock_run (with_locks m1 s))).
  erewrite rtp_wr_run by done. done.
Qed.

(** What the refresh of path [q] leaves alone. *)
Record refresh_frame (s s' : rib) : Prop := {
  rf_topo : r_topo s' = with_rtps (paths s') (r_topo s);
  rf_version : routingtree_version s' = routingtree_version s;
  rf_gw : current_inetgw s' = current_inetgw s;
  rf_chg : chg_kernel_list s' = chg_kernel_list s;
  rf_kern : kern s' = kern s
}.

Lemma refresh_frame_refl s : refresh_frame s s.
Proof. split; [|done..]. by destruct s as [[]]. Qed.
Lemma refresh_frame_trans s1 s2 s3 : refresh_frame s1 s2 -> refresh_frame s2 s3 -> refresh_frame s1 s3.
Proof. intros [A1 A2 A3 A4 A5] [B1 B2 B3 B4 B5]. split; [by rewrite B1, A1|congruence..]. Qed.

Definition room (n : Z) (s : rib) : Prop := forall i, base i + Z.of_nat (size (paths s)) + Z.of_nat (length (routingtree s)) + n < 2 ^ 32.

Abbreviation rib_ok := (rib_ok ip_version base).
Abbreviation fib_sync := (fib_sync ip_version fib_view).

(** A path whose entry, prefix and originator stay. *)
Lemma path_changed_ok s s' q r r' : rib_ok s -> paths s !! q = Some r -> rtp_rt r' = rtp_rt r -> rtp_dst r' = rtp_dst r ->
  rtp_originator r' = rtp_originator r -> is_Some (rtp_interface r') -> paths s' = <[q := r']> (paths s) -> rts s' = rts s ->
  routingtree s' = routingtree s -> current_inetgw s' = current_inetgw s -> locks_ok base (held s') (locks s') -> rib_ok s'.
Proof.
  intros R Hq E1 E2 E3 Hi EP Er Et Eg HL. split; rewrite ?Et, ?Er, ?Eg, ?EP; try done; try apply R.
  - intros p x q' Hp Hx Hq'. destruct (ro_path _ _ s R p x q' Hp Hx Hq') as (r0 & Hr0 & H1 & H2 & H3). destruct (decide (q = q')) as [<-|Hne].
    + rewrite lookup_insert_eq. exists r'. simplify_eq. by rewrite E1, E2, H1, H2.
    + rewrite lookup_insert_ne by done. by exists r0.
  - intros p x q' k r0 Hp Hx Hq' Hr0. destruct (decide (q = q')) as [<-|Hne].
    + rewrite lookup_insert_eq in Hr0. injection Hr0 as <-. rewrite E3. by eapply (ro_key _ _ s R).
    + rewrite lookup_insert_ne in Hr0 by done. by eapply (ro_key _ _ s R).
  - intros q' r0 p Hq' Hp. destruct (decide (q = q')) as [<-|Hne].
    + rewrite lookup_insert_eq in Hq'. injection Hq' as <-. rewrite E1 in Hp. by eapply (ro_back _ _ s R).
    + rewrite lookup_insert_ne in Hq' by done. by eapply (ro_back _ _ s R).
  - intros q' Hg. destruct (ro_gw _ _ s R q' Hg) as (r0 & Hr0 & Hl). destruct (decide (q = q')) as [<-|Hne].
    + rewrite lookup_insert_eq. exists r'. simplify_eq. by rewrite E2.
    + rewrite lookup_insert_ne by done. by exists r0.
  - intros i. rewrite map_size_insert_Some by done. apply R.
Qed.

Lemma path_held s s' q r r' j : paths s !! q = Some r -> paths s' = <[q := r']> (paths s) -> rts s' = rts s -> routingtree s' = routingtree s ->
  held s' j = held s j - one (bool_decide (rtp_interface r = Some j)) + one (bool_decide (rtp_interface r' = Some j)).
Proof. intros Hq EP Er Et. unfold held. rewrite EP, Er, Et, (held_paths_insert _ q r) by done. lia. Qed.

Section hop.
Context (t : tc_entry) (l : link_entry) (Hb : 0 < base (inter l)).

Lemma refresh_known s q r p : rib_ok s -> fib_sync s -> room 1 s -> paths s !! q = Some r -> rtp_rt r = Some p ->
  exists s', olsr_update_rt_path q t l s = Some (s', tt) /\ rib_ok s' /\ fib_sync s' /\
    paths s' = <[q := hop_to (routingtree_version s) t l r]> (paths s) /\ rts s' = rts s /\ routingtree s' = routingtree s /\ refresh_frame s s'.
Proof.
  intros R S Rm Hq Hp. destruct (update_rt_path_run s q r t l (held s) Hq (ro_locks _ _ s R)) as [E L]; [|done| |].
  - intros j Hj. unfold held. pose proof (held_paths_in _ _ _ _ Hq Hj).
    pose proof (count_pos (fun e => bool_decide ((rts s !! e.1 ≫= rt_interface) = Some j)) (routingtree s)). unfold held_entries. lia.
  - pose proof (held_le s (inter l)). specialize (Rm (inter l)). lia.
  - eexists. split; [exact E|]. match goal with |- RibUpdate.rib_ok _ _ ?s /\ _ => set (s' := s) end.
    split; [|split; [exact S|split_and!; [done..|split; [by destruct s as [[]]|done..]]]].
    apply (path_changed_ok s s' q r (hop_to (routingtree_version s) t l r)); try done. eapply locks_ext; [|exact L]. intros j. cbn beta.
    rewrite (path_held s s' q r (hop_to (routingtree_version s) t l r)) by done. do 3 f_equal. simpl. apply bool_decide_ext. split; congruence.
Qed.

(** A new entry. *)
Lemma alloc_ok s d : rib_ok s -> fib_sync s -> room 1 s -> tree_find pcomp d (routingtree s) = None ->
  exists s' p, olsr_alloc_rt_entry ip_version d s = Some (s', p) /\ rib_ok s' /\ fib_sync s' /\ (p, d) ∈ routingtree s' /\
    rts s' !! p = Some (mkRt d None (replicate 16 0) None 0 0 [] 0) /\ paths s' = paths s /\
    length (routingtree s') = S (length (routingtree s)) /\ refresh_frame s s'.
Proof.
  intros R S Rm Hn. unfold olsr_alloc_rt_entry. eexists _, _. split; [reflexivity|]. set (p := fresh (dom (rts s))).
  match goal with |- RibUpdate.rib_ok _ _ ?s /\ _ => set (s' := s) end.
  set (x := mkRt d None (replicate 16 0) None 0 0 [] 0).
  assert (Hp : rts s !! p = None) by (apply not_elem_of_dom, is_fresh).
  assert (Hpt : p ∉ (routingtree s).*1).
  { intros (k & Hk)%elem_fst. destruct (ro_entry _ _ s R p k Hk) as (y & Hy & _). congruence. }
  assert (HT : forall e, e ∈ routingtree s' <-> e = (p, d) \/ e ∈ routingtree s).
  { intros e. apply elem_of_tree_insert; [apply _|by right]. }
  assert (HT1 : forall q, q ∈ (routingtree s').*1 <-> q = p \/ q ∈ (routingtree s).*1).
  { intros q. rewrite !list_elem_of_fmap. setoid_rewrite HT. naive_solver. }
  assert (HR : forall q, q <> p -> rts s' !! q = rts s !! q) by (intros q Hq; simpl; by rewrite lookup_insert_ne).
  assert (HRp : rts s' !! p = Some x) by (simpl; by rewrite lookup_insert_eq).
  assert (Hlen : length (routingtree s') = Datatypes.S (length (routingtree s))).
  { change (length (tree_insert pcomp false d p (routingtree s)) = Datatypes.S (length (routingtree s))).
    rewrite tree_insert_perm; [done| |].
    - intros e _. pose proof (comp_ge pcomp d e.2). lia.
    - intros [q k] He. by apply (proj1 (tree_find_None pcomp _ _) Hn q k). }
  split_and!; try done.
  - split; try done.
    + apply tree_wf_insert; [apply _|apply R|done..].
    + intros q k [[= -> ->]|Hq]%HT; [exists x; split; [done|]; split; [done|constructor]|].
      rewrite HR by (intros ->; apply Hpt; by eapply fst_elem). by apply R.
    + intros q y r [->|Hq]%HT1 Hy Hr; [rewrite HRp in Hy; injection Hy as <-; by apply elem_of_nil in Hr|].
      rewrite HR in Hy by (by intros ->). by eapply R.
    + intros q y r k r0 [->|Hq]%HT1 Hy Hr; [rewrite HRp in Hy; injection Hy as <-; by apply elem_of_nil in Hr|].
      rewrite HR in Hy by (by intros ->). by eapply (ro_key _ _ s R).
    + intros q r p' Hq Hp'. destruct (ro_back _ _ s R q r p' Hq Hp') as (Hin & y & Hy & ?). split; [apply HT1; by right|].
      exists y. split; [rewrite HR; [done|by intros ->]|done].
    + apply R.
    + eapply locks_ext; [|apply R]. intros i. unfold held. change (paths s') with (paths s). f_equal.
      assert (routingtree s' ≡ₚ (p, d) :: routingtree s) as E.
      { change (tree_insert pcomp false d p (routingtree s) ≡ₚ (p, d) :: routingtree s). apply tree_insert_perm.
        - intros e _. pose proof (comp_ge pcomp d e.2). lia.
        - intros [q k] He. by apply (proj1 (tree_find_None pcomp _ _) Hn q k). }
      unfold held_entries. rewrite (count_perm _ _ _ E). cbn [count foldr fst]. rewrite HRp. simpl. apply count_ext. intros e He.
      change (<[_ := _]> (rts s) !! e.1) with (rts s' !! e.1). rewrite HR; [done|]. intros E'. apply Hpt. rewrite <- E'. apply list_elem_of_fmap. by exists e.
    + intros i. rewrite Hlen. specialize (Rm i). change (paths s') with (paths s). lia.
  - intros e. change (kern s') with (kern s). rewrite (S e). unfold installed.
    destruct (Z.eqb_spec (pcomp e d) 0) as [E|E].
    + assert (tree_find pcomp e (routingtree s) = None) as ->.
      { by rewrite (tree_find_ext pcomp _ e d E). }
      rewrite (tree_find_ext pcomp _ e d E). change (routingtree s') with (tree_insert pcomp false d p (routingtree s)).
      rewrite (tree_find_insert pcomp (routingtree s) false d p Hn). simpl. by rewrite lookup_insert_eq.
    + assert (tree_find pcomp e (routingtree s') = tree_find pcomp e (routingtree s)) as ->.
      { assert (W : tree_wf pcomp (routingtree s')) by (apply tree_wf_insert; [apply _|apply R|done..]).
        destruct (tree_find pcomp e (routingtree s)) as [q|] eqn:F.
        - apply tree_find_Some in F as (k & Hk & Ek). eapply (tree_find_in pcomp _ q e k W); [|done]. apply HT. by right.
        - apply tree_find_None. intros q k [[= -> ->]|Hk]%HT; [done|]. by apply (proj1 (tree_find_None pcomp _ _) F q). }
      destruct (tree_find pcomp e (routingtree s)) as [q|] eqn:F; [|done]. simpl. rewrite lookup_insert_ne; [done|]. intros <-.
      apply tree_find_Some in F as (k & Hk & _). apply Hpt. by eapply fst_elem.
  - apply HT. by left.
  - split; [|done..]. by destruct s as [[]].
Qed.

(** The path is added to an entry. *)
Definition attached (s : rib) (p q : loc) (x : rt_entry) (r : rt_path) : rib :=
  with_paths (<[q := set_rtp_rt (Some p) r]> (paths s))
    (with_rts (<[p := set_path_tree (tree_insert ocomp false (rtp_originator r) q (rt_path_tree x)) x]> (rts s)) s).

Lemma attach_tree s p q x r : rib_ok s -> origins_ok (paths s) -> p ∈ (routingtree s).*1 -> rts s !! p = Some x -> paths s !! q = Some r -> rtp_rt r = None ->
  pcomp (rtp_dst r) (rt_dst x) = 0 -> (q ∉ (rt_path_tree x).*1) /\
  tree_insert ocomp false (rtp_originator r) q (rt_path_tree x) ≡ₚ (q, rtp_originator r) :: rt_path_tree x.
Proof.
  intros R O Hp Hx Hq Hn Hd. assert (Hqn : q ∉ (rt_path_tree x).*1).
  { intros Hin. destruct (ro_path _ _ s R p x q Hp Hx Hin) as (r' & ? & ? & _). congruence. }
  split; [done|]. apply tree_insert_perm; intros [q' k] He; simpl; destruct (ro_path _ _ s R p x q' Hp Hx (fst_elem _ _ _ He)) as (r' & Hr' & _ & Hd' & _);
    rewrite (ro_key _ _ s R p x q' k r' Hp Hx He Hr').
  - apply (O q' q r' r Hr' Hq). intros ->. apply Hqn. by eapply fst_elem.
  - apply (O q' q r' r Hr' Hq); [intros ->; apply Hqn; by eapply fst_elem|].
    eapply comp_eq_trans; [apply _|exact Hd'|]. by apply comp_eq_sym; [apply _|].
Qed.

Lemma attach_ok s s' p q x r r' : rib_ok s -> origins_ok (paths s) -> p ∈ (routingtree s).*1 -> rts s !! p = Some x -> paths s !! q = Some r -> rtp_rt r = None ->
  pcomp (rtp_dst r) (rt_dst x) = 0 -> rtp_rt r' = Some p -> rtp_dst r' = rtp_dst r -> rtp_originator r' = rtp_originator r -> is_Some (rtp_interface r') ->
  rts s' = <[p := set_path_tree (tree_insert ocomp false (rtp_originator r) q (rt_path_tree x)) x]> (rts s) ->
  paths s' = <[q := r']> (paths s) -> routingtree s' = routingtree s -> current_inetgw s' = current_inetgw s ->
  locks_ok base (held s') (locks s') -> rib_ok s'.
Proof.
  intros R O Hp Hx Hq Hn Hd E1 E2 E3 Hi Er EP Et Eg HL. destruct (attach_tree s p q x r R O Hp Hx Hq Hn Hd) as [Hqn HT].
  set (L := tree_insert ocomp false (rtp_originator r) q (rt_path_tree x)) in *.
  assert (HL1 : forall q', q' ∈ L.*1 <-> q' = q \/ q' ∈ (rt_path_tree x).*1) by (intros q'; rewrite HT; simpl; by rewrite elem_of_cons).
  assert (Hother : forall p' y q', p' <> p -> p' ∈ (routingtree s).*1 -> rts s !! p' = Some y -> q' ∈ (rt_path_tree y).*1 -> q' <> q).
  { intros p' y q' Hne Hp' Hy Hq' ->. destruct (ro_path _ _ s R p' y q Hp' Hy Hq') as (r0 & ? & ? & _). congruence. }
  split; rewrite ?Et, ?Er, ?Eg, ?EP; try done; try apply R.
  - intros p' k Hp'. destruct (ro_entry _ _ s R p' k Hp') as (y & Hy & -> & N). destruct (decide (p = p')) as [<-|Hne]; [|rewrite lookup_insert_ne by done; eauto].
    simplify_eq. rewrite lookup_insert_eq. eexists. split; [done|]. split; [done|]. simpl. rewrite HT. by constructor.
  - intros p' y q' Hp' Hy Hq'. destruct (decide (p = p')) as [<-|Hne].
    + rewrite lookup_insert_eq in Hy. injection Hy as <-. simpl in Hq'. apply HL1 in Hq' as [->|Hq'].
      * rewrite lookup_insert_eq. exists r'. by rewrite E1, E2.
      * rewrite lookup_insert_ne by (intros <-; done). exact (ro_path _ _ s R p x q' Hp Hx Hq').
    + rewrite lookup_insert_ne in Hy by done. rewrite lookup_insert_ne by (intros <-; by eapply Hother). by eapply (ro_path _ _ s R).
  - intros p' y q' k r0 Hp' Hy Hq' Hr0. destruct (decide (p = p')) as [<-|Hne].
    + rewrite lookup_insert_eq in Hy. injection Hy as <-. cbn [rt_path_tree set_path_tree] in Hq'. rewrite HT, elem_of_cons in Hq'. destruct Hq' as [[= -> ->]|Hq'].
      * rewrite lookup_insert_eq in Hr0. by injection Hr0 as <-.
      * rewrite lookup_insert_ne in Hr0 by (intros <-; apply Hqn; by eapply fst_elem). by eapply (ro_key _ _ s R).
    + rewrite lookup_insert_ne in Hy by done. rewrite lookup_insert_ne in Hr0; [by eapply (ro_key _ _ s R)|].
      intros <-. by eapply (Hother p' y q); [| | |eapply fst_elem|].
  - intros q' r0 p' Hq' Hp'. destruct (decide (q = q')) as [<-|Hne].
    + rewrite lookup_insert_eq in Hq'. injection Hq' as <-. rewrite E1 in Hp'. injection Hp' as <-. split; [done|]. rewrite lookup_insert_eq.
      eexists. split; [done|]. apply HL1. by left.
    + rewrite lookup_insert_ne in Hq' by done. destruct (ro_back _ _ s R q' r0 p' Hq' Hp') as (Hpt & y & Hy & Hqy). split; [done|].
      destruct (decide (p = p')) as [<-|]; [|rewrite lookup_insert_ne by done; eauto]. simplify_eq. rewrite lookup_insert_eq. eexists. split; [done|].
      apply HL1. by right.
  - intros q' Hg. destruct (ro_gw _ _ s R q' Hg) as (r0 & Hr0 & Hl). destruct (decide (q = q')) as [<-|Hne].
    + rewrite lookup_insert_eq. exists r'. simplify_eq. by rewrite E2.
    + rewrite lookup_insert_ne by done. by exists r0.
  - intros i. rewrite map_size_insert_Some by done. apply R.
Qed.

Lemma attach_run s q r p x : rib_ok s -> fib_sync s -> room 1 s -> origins_ok (paths s) -> p ∈ (routingtree s).*1 -> rts s !! p = Some x ->
  paths s !! q = Some r -> rtp_rt r = None -> pcomp (rtp_dst r) (rt_dst x) = 0 ->
  exists s', (rt_wr p (fun e => set_path_tree (tree_insert ocomp false (rtp_originator r) q (rt_path_tree e)) e);;
      rtp_wr q (set_rtp_rt (Some p));; olsr_update_rt_path q t l) s = Some (s', tt) /\
    rib_ok s' /\ fib_sync s' /\ paths s' = <[q := hop_to (routingtree_version s) t l (set_rtp_rt (Some p) r)]> (paths s) /\
    routingtree s' = routingtree s /\ refresh_frame s s'.
Proof.
  intros R S Rm O Hp Hx Hq Hn Hd. erewrite bind_run by (by apply rt_wr_run). erewrite bind_run by (by apply rtp_wr_run).
  set (s1 := with_paths _ _). set (r1 := set_rtp_rt (Some p) r). assert (Hq1 : paths s1 !! q = Some r1) by (unfold s1, paths; simpl; by rewrite lookup_insert_eq).
  destruct (update_rt_path_run s1 q r1 t l (held s) Hq1 (ro_locks _ _ s R)) as [E L]; [|done| |].
  - intros j Hj. unfold held. pose proof (held_paths_in _ _ _ _ Hq Hj).
    pose proof (count_pos (fun e => bool_decide ((rts s !! e.1 ≫= rt_interface) = Some j)) (routingtree s)). unfold held_entries. lia.
  - pose proof (held_le s (inter l)). specialize (Rm (inter l)). lia.
  - rewrite E. eexists. split; [reflexivity|]. match goal with |- RibUpdate.rib_ok _ _ ?s /\ _ => set (s' := s) end.
    assert (P' : paths s' = <[q := hop_to (routingtree_version s) t l r1]> (paths s)).
    { unfold s', paths. simpl. unfold paths. simpl. by rewrite insert_insert_eq. }
    split; [|split; [|split_and!; [done..|split; [by destruct s as [[]]|done..]]]].
    + eapply (attach_ok s s' p q x r (hop_to (routingtree_version s) t l r1)); try done. eapply locks_ext; [|exact L].
      intros j. cbn beta. unfold held. rewrite P', (held_paths_insert _ q r) by done.
      assert (held_entries (rts s') (routingtree s') j = held_entries (rts s) (routingtree s) j) as ->.
      { apply held_entries_ext. intros e _. simpl. destruct (decide (p = e.1)) as [<-|]; [by rewrite lookup_insert_eq, Hx|by rewrite lookup_insert_ne]. }
      simpl. assert (bool_decide (Some (inter l) = Some j) = bool_decide (inter l = j)) as -> by (apply bool_decide_ext; split; congruence). lia.
    + intros d. change (kern s') with (kern s). rewrite (S d). symmetry. apply installed_ext; [done|]. by apply (hop_insert _ _ x).
Qed.

(** A path that is in no entry. *)
Lemma refresh_new s q r : rib_ok s -> fib_sync s -> room 2 s -> origins_ok (paths s) -> paths s !! q = Some r -> rtp_rt r = None ->
  path_cost (tc_spf t) <> ROUTE_COST_BROKEN -> prefix_len (rtp_dst r) <= 8 * Z.of_nat (tc_ipsize ip_version) ->
  exists s' p, olsr_insert_rt_path ip_version q t l s = Some (s', tt) /\ rib_ok s' /\ fib_sync s' /\
    paths s' = <[q := hop_to (routingtree_version s) t l (set_rtp_rt (Some p) r)]> (paths s) /\
    (length (routingtree s') <= S (length (routingtree s)))%nat /\ refresh_frame s s'.
Proof.
  intros R S Rm O Hq Hn Hc Hl. unfold olsr_insert_rt_path. erewrite bind_run by (by apply rtp_rd_run).
  rewrite (proj2 (Z.eqb_neq _ _) Hc), Z.gtb_ltb, (proj2 (Z.ltb_ge _ _) Hl). erewrite bind_run by done.
  destruct (tree_find pcomp (rtp_dst r) (routingtree s)) as [p|] eqn:F.
  - apply tree_find_Some in F as (k & Hk & Ek). destruct (ro_entry _ _ s R p k Hk) as (x & Hx & -> & _).
    destruct (attach_run s q r p x R S) as (s' & E & R' & S' & P' & T' & B'); try done; [intros i; specialize (Rm i); lia|by eapply fst_elem|].
    exists s', p. erewrite bind_run by done. rewrite T'. split_and!; [exact E|done..|lia|done].
  - destruct (alloc_ok s (rtp_dst r) R S) as (s1 & p & E1 & R1 & S1 & Hp & Hx & P1 & Len & B1); [intros i; specialize (Rm i); lia|done|].
    assert (V1 : routingtree_version s1 = routingtree_version s) by apply B1.
    destruct (attach_run s1 q r p (mkRt (rtp_dst r) None (replicate 16 0) None 0 0 [] 0) R1 S1) as (s' & E & R' & S' & P' & T' & B');
      [intros i; specialize (Rm i); rewrite P1, Len; lia|by rewrite P1|by eapply fst_elem|done|by rewrite P1|done|apply comp_refl|].
    exists s', p. erewrite bind_run by exact E1. rewrite T', Len. split_and!; [exact E|done..| |lia|by eapply refresh_frame_trans].
    by rewrite P', P1, V1.
Qed.

(** ** The prefixes of a node *)

(** A path in the table keeps its entry; any other is accepted if its prefix length is legal. *)
Definition accepted (r : rt_path) : Prop := is_Some (rtp_rt r) \/ prefix_len (rtp_dst r) <= 8 * Z.of_nat (tc_ipsize ip_version).
Definition refreshed (v : Z) (r r' : rt_path) : Prop :=
  accepted r /\ (exists p, r' = hop_to v t l (set_rtp_rt (Some p) r)) \/ ~ accepted r /\ r' = r.

Record prefixes_done (s : rib) (L : list loc) (s' : rib) : Prop := {
  dn_ok : rib_ok s';
  dn_sync : fib_sync s';
  dn_frame : refresh_frame s s';
  dn_in : forall q r, q ∈ L -> paths s !! q = Some r -> exists r', paths s' !! q = Some r' /\ refreshed (routingtree_version s) r r';
  dn_out : forall q, q ∉ L -> paths s' !! q = paths s !! q;
  dn_size : size (paths s') = size (paths s);
  dn_len : (length (routingtree s') <= length L + length (routingtree s))%nat
}.

Lemma origins_ok_same P P' : (forall q r', P' !! q = Some r' -> exists r, P !! q = Some r /\ rtp_originator r' = rtp_originator r /\ rtp_dst r' = rtp_dst r) ->
  origins_ok P -> origins_ok P'.
Proof.
  intros H O q q' r r' (a & Ha & E1 & E2)%H (b & Hb' & E3 & E4)%H Hne. rewrite E1, E2, E3, E4. by apply (O q q').
Qed.

(** One path. *)
Lemma refresh_one s q r : rib_ok s -> fib_sync s -> room 2 s -> origins_ok (paths s) -> path_cost (tc_spf t) <> ROUTE_COST_BROKEN -> paths s !! q = Some r ->
  exists s', (match rtp_rt r with Some _ => olsr_update_rt_path q t l | None => olsr_insert_rt_path ip_version q t l end) s = Some (s', tt) /\
    prefixes_done s [q] s'.
Proof.
  intros R S Rm O Hc Hq.
  assert (Hsz : forall r', size (<[q := r']> (paths s)) = size (paths s)) by (intros r'; by apply map_size_insert_Some).
  destruct (rtp_rt r) as [p|] eqn:Hp; [|destruct (decide (prefix_len (rtp_dst r) <= 8 * Z.of_nat (tc_ipsize ip_version))) as [Hl|Hl]].
  - destruct (refresh_known s q r p R S) as (s' & E & R' & S' & P' & _ & T' & B'); [intros i; specialize (Rm i); lia|done..|].
    exists s'. split; [done|]. split; rewrite ?P'; try done.
    + intros q' r0 ->%list_elem_of_singleton Hr0. simplify_eq. rewrite lookup_insert_eq. eexists. split; [done|]. left. split; [left; eauto|].
      exists p. f_equal. rewrite <- Hp. by destruct r.
    + intros q' Hq'. rewrite list_elem_of_singleton in Hq'. by rewrite lookup_insert_ne.
    + rewrite T'. simpl. lia.
  - destruct (refresh_new s q r R S Rm O Hq Hp Hc Hl) as (s' & p & E & R' & S' & P' & T' & B').
    exists s'. split; [done|]. split; rewrite ?P'; try done.
    + intros q' r0 ->%list_elem_of_singleton Hr0. simplify_eq. rewrite lookup_insert_eq. eexists. split; [done|]. left. split; [by right|by exists p].
    + intros q' Hq'. rewrite list_elem_of_singleton in Hq'. by rewrite lookup_insert_ne.
  - exists s. split.
    { unfold olsr_insert_rt_path. erewrite bind_run by (by apply rtp_rd_run). rewrite (proj2 (Z.eqb_neq _ _) Hc), Z.gtb_ltb.
      by rewrite (proj2 (Z.ltb_lt _ _)) by lia. }
    split; try done; [apply refresh_frame_refl| |simpl; lia].
    intros q' r0 ->%list_elem_of_singleton Hr0. simplify_eq. exists r. split; [done|]. right. split; [|done]. intros [[? ?]|?]; [congruence|done].
Qed.

Lemma prefixes_done_cons s s1 s' q L : (q ∉ L) -> prefixes_done s [q] s1 -> prefixes_done s1 L s' -> prefixes_done s (q :: L) s'.
Proof.
  intros Hn [_ _ B1 I1 O1 Z1 T1] [R2 S2 B2 I2 O2 Z2 T2]. split; try done.
  - by eapply refresh_frame_trans.
  - intros q' r [->|Hq']%elem_of_cons Hr.
    + destruct (I1 q r ltac:(left) Hr) as (r1 & Hr1 & Hf). rewrite (O2 q Hn). eauto.
    + rewrite <- (O1 q') in Hr by (rewrite list_elem_of_singleton; by intros ->). rewrite <- (rf_version _ _ B1). by apply I2.
  - intros q' [H1 H2]%not_elem_of_cons. rewrite O2 by done. apply O1. by rewrite list_elem_of_singleton.
  - congruence.
  - simpl in *. lia.
Qed.

Lemma refreshed_same v r r' : refreshed v r r' -> rtp_originator r' = rtp_originator r /\ rtp_dst r' = rtp_dst r /\ rtp_tc r' = rtp_tc r.
Proof. intros [[_ (p & ->)]|[_ ->]]; done. Qed.

Lemma prefixes_done_paths s L s' q r' : (forall q, q ∈ L -> is_Some (paths s !! q)) -> prefixes_done s L s' -> paths s' !! q = Some r' ->
  exists r, paths s !! q = Some r /\ rtp_originator r' = rtp_originator r /\ rtp_dst r' = rtp_dst r.
Proof.
  intros HL D Hr'. destruct (decide (q ∈ L)) as [Hin|Hin].
  - destruct (HL q Hin) as [r Hr]. destruct (dn_in _ _ _ D q r Hin Hr) as (r0 & ? & (? & ? & _)%refreshed_same). simplify_eq. by exists r.
  - rewrite (dn_out _ _ _ D q Hin) in Hr'. by exists r'.
Qed.

Lemma refresh_prefixes_run L : forall s, rib_ok s -> fib_sync s -> room (2 + Z.of_nat (length L)) s -> origins_ok (paths s) ->
  path_cost (tc_spf t) <> ROUTE_COST_BROKEN -> NoDup L.*1 -> (forall q, q ∈ L.*1 -> is_Some (paths s !! q)) ->
  exists s', refresh_prefixes t l L s = Some (s', tt) /\ prefixes_done s L.*1 s'.
Proof.
  induction L as [|[q k] L IH]; intros s R S Rm O Hc N HL.
  { exists s. split; [done|]. split; try done; [apply refresh_frame_refl|by intros q r ?%elem_of_nil]. }
  cbn [refresh_prefixes fst]. apply NoDup_cons in N as [Nq N]. destruct (HL q ltac:(left)) as [r Hr].
  erewrite bind_run by (by apply rtp_rd_run).
  destruct (refresh_one s q r R S) as (s1 & E1 & D1); [intros i; specialize (Rm i); simpl in Rm; lia|done..|].
  erewrite bind_run by exact E1. assert (Hsome : forall q', is_Some (paths s !! q') -> is_Some (paths s1 !! q')).
  { intros q' [r' Hr']. destruct (decide (q' ∈ [q])) as [Hin|Hin]; [destruct (dn_in _ _ _ D1 q' r' Hin Hr') as (? & ? & _); eauto|].
    rewrite (dn_out _ _ _ D1) by done. eauto. }
  destruct (IH s1) as (s' & E & D); [apply D1|apply D1| | |done..| |].
  - intros i. specialize (Rm i). rewrite (dn_size _ _ _ D1). pose proof (dn_len _ _ _ D1). simpl in *. lia.
  - eapply origins_ok_same; [|exact O]. intros q' r' Hr'. apply (prefixes_done_paths s [q] s1); [|done|done].
    intros q'' ->%list_elem_of_singleton. eauto.
  - intros q' Hq'. apply Hsome, HL. by right.
  - exists s'. split; [done|]. by apply (prefixes_done_cons s s1).
Qed.
End hop.
End rib_refresh.
