(* ===== verification/RibPaths.v ===== *)
(** * Paths come and go ([routing_table.c])

    A path is created when a node announces a prefix, and deleted when it no longer does, at any
    time between two calculations: the routing table, the locks, the trees of prefixes and
    the kernel stay consistent. *)
From S2P Require Import Prelude AvlSpec AvlOps Trees Types Comparators Lsdb LqHandler Neighborhood TcSet RoutingTable ProcessRoutes RibUpdate RibRefresh.
#[local] Arguments bool_decide : simpl never.

(** Every path hangs off the node that owns it, and has its origin. *)
Record prefix_ok (d : lsdb) (P : gmap loc rt_path) : Prop := {
  po_nodup : forall u t, tcs d !! u = Some t -> NoDup (prefix_tree t).*1;
  po_in : forall u t q k, tcs d !! u = Some t -> ((q, k) ∈ prefix_tree t) <-> exists r, P !! q = Some r /\ rtp_tc r = Some u /\ rtp_dst r = k;
  po_tc : forall q r u, P !! q = Some r -> rtp_tc r = Some u -> is_Some (tcs d !! u);
  po_origin : forall q r, P !! q = Some r -> prefix_origin (rtp_originator r) = prefix_origin (rtp_dst r)
}.

Section rib_paths.
Context `{LQ : LqHandler} `{KE : RouteExport} (ip_version lq_nat_thresh : Z).
Context (base : loc -> Z) (fib_view : kernel -> olsr_ip_prefix -> option (ip_addr * loc)).
Abbreviation rib_ok := (rib_ok ip_version base).
Abbreviation fib_sync := (fib_sync ip_version fib_view).
Abbreviation pcomp := (avl_comp_prefix_default ip_version).

Lemma held_paths_delete P q r j : P !! q = Some r -> held_paths (delete q P) j = held_paths P j - one (bool_decide (rtp_interface r = Some j)).
Proof.
  intros Hq. unfold held_paths. rewrite fmap_delete. set (m := rtp_interface <$> P).
  assert (E : map_to_list m ≡ₚ (q, rtp_interface r) :: map_to_list (delete q m)).
  { rewrite <- (map_to_list_insert (delete q m)) by apply lookup_delete_eq. rewrite insert_delete_id; [done|]. unfold m. by rewrite lookup_fmap, Hq. }
  rewrite (count_perm _ _ _ E). simpl. lia.
Qed.
Lemma held_paths_new P q r j : P !! q = None -> rtp_interface r = None -> held_paths (<[q := r]> P) j = held_paths P j.
Proof.
  intros Hq Hi. unfold held_paths. rewrite fmap_insert, Hi. set (m := rtp_interface <$> P).
  assert (Hm : m !! q = None) by (unfold m; by rewrite lookup_fmap, Hq). by rewrite (count_perm _ _ _ (map_to_list_insert m q None Hm)).
Qed.

(** ** Deletion *)
Lemma nodup_tree_delete (L : list (loc * olsr_ip_prefix)) p : NoDup L.*1 -> NoDup (tree_delete p L).*1.
Proof. apply filter_fst_nodup. Qed.

Lemma rib_deletable s p r : rib_ok s -> paths s !! p = Some r -> (forall tc, rtp_tc r = Some tc -> is_Some (tcs (tdb (r_topo s)) !! tc)) -> deletable s p r.
Proof.
  intros R Hp Ht. split; [done| |done|].
  - intros rt Hrt. destruct (ro_back _ _ s R p r rt Hp Hrt) as (Hin & x & Hx & _). exists x. split; [done|]. intros q Hq.
    destruct (ro_path _ _ s R rt x q Hin Hx Hq) as (r' & Hr' & _). eauto.
  - intros i Hi. destruct (locks_unlock base (held s) (fun j => held s j - one (bool_decide (i = j))) (locks s) i (ro_locks _ _ s R)) as [? _]; [|done..].
    unfold held. pose proof (held_paths_in _ i p r Hp Hi). pose proof (count_pos (fun e => bool_decide ((rts s !! e.1 ≫= rt_interface) = Some i)) (routingtree s)) as Hc. unfold held_entries. lia.
Qed.

Lemma removed_same P g p x : rt_dst (path_removed ip_version lq_nat_thresh P g p x) = rt_dst x /\ hop_of (path_removed ip_version lq_nat_thresh P g p x) = hop_of x /\
  rt_interface (path_removed ip_version lq_nat_thresh P g p x) = rt_interface x /\
  rt_path_tree (path_removed ip_version lq_nat_thresh P g p x) = tree_delete p (rt_path_tree x).
Proof. unfold path_removed. repeat case_bool_decide; done. Qed.

Abbreviation removed := (path_removed ip_version lq_nat_thresh).
Abbreviation path_deleted := (path_deleted ip_version lq_nat_thresh).

(** The entries after the deletion. *)
Lemma deleted_lookup s p r s' q : path_deleted s p r s' ->
  rts s' !! q = if decide (rtp_rt r = Some q) then removed (paths s) (current_inetgw s) p <$> rts s !! q else rts s !! q.
Proof.
  intros D. rewrite (pd_rts _ _ _ _ _ _ D). destruct (rtp_rt r) as [rt|]; case_decide as E; try done; [injection E as ->; by rewrite lookup_alter_eq|].
  rewrite lookup_alter_ne; congruence.
Qed.
Lemma deleted_entry s p r s' q y : path_deleted s p r s' -> rts s' !! q = Some y -> exists x, rts s !! q = Some x /\ rt_dst y = rt_dst x /\
  rt_interface y = rt_interface x /\ (forall e, e ∈ rt_path_tree y <-> e ∈ rt_path_tree x /\ (rtp_rt r = Some q -> e.1 <> p)) /\
  (NoDup (rt_path_tree x).*1 -> NoDup (rt_path_tree y).*1).
Proof.
  intros D. rewrite (deleted_lookup _ _ _ _ _ D). case_decide as E.
  - destruct (rts s !! q) as [x|]; [|done]. intros [= <-]. exists x. destruct (removed_same (paths s) (current_inetgw s) p x) as (-> & _ & -> & ->).
    split_and!; try done; [intros e; rewrite elem_of_tree_delete; tauto|]. apply nodup_tree_delete.
  - intros Hy. exists y. split_and!; try done. tauto.
Qed.

Lemma deleted_held s p r s' i : paths s !! p = Some r -> path_deleted s p r s' -> held s' i = held s i - one (bool_decide (rtp_interface r = Some i)).
Proof.
  intros Hp D. unfold held. rewrite (pd_paths _ _ _ _ _ _ D), (held_paths_delete _ p r) by done. destruct (pd_rest _ _ _ _ _ _ D) as (-> & _).
  assert (held_entries (rts s') (routingtree s) i = held_entries (rts s) (routingtree s) i) as ->; [|lia]. apply held_entries_ext. intros e _.
  rewrite (deleted_lookup _ _ _ _ _ D). case_decide; [|done]. destruct (rts s !! e.1) as [x|]; [|done]. simpl. f_equal. apply removed_same.
Qed.

Lemma deleted_sync s p r s' : fib_sync s -> path_deleted s p r s' -> fib_sync s'.
Proof.
  intros S D d. destruct (pd_rest _ _ _ _ _ _ D) as (Et & _ & _ & ->). rewrite (S d). symmetry. apply installed_ext; [done|]. intros q.
  rewrite (deleted_lookup _ _ _ _ _ D). case_decide; [|done]. destruct (rts s !! q) as [x|]; [|done]. simpl. f_equal. apply removed_same.
Qed.

Lemma path_deleted_ok s p r s' : rib_ok s -> paths s !! p = Some r -> path_deleted s p r s' -> rib_ok s'.
Proof.
  intros R Hp D. destruct (pd_rest _ _ _ _ _ _ D) as (Et & _). pose proof (pd_paths _ _ _ _ _ _ D) as EP.
  assert (Hne : forall q x rt, rts s !! rt = Some x -> rt ∈ (routingtree s).*1 -> q ∈ (rt_path_tree x).*1 -> (rtp_rt r = Some rt -> q <> p) -> q <> p).
  { intros q x rt Hx Hin Hq Hr ->. destruct (ro_path _ _ s R rt x p Hin Hx Hq) as (r' & Hr' & E & _). simplify_eq. by apply Hr. }
  split; rewrite ?Et, ?EP.
  - apply R.
  - intros rt k Hk. destruct (ro_entry _ _ s R rt k Hk) as (x & Hx & -> & N). rewrite (deleted_lookup _ _ _ _ _ D), Hx. case_decide.
    + simpl. eexists. split; [done|]. destruct (removed_same (paths s) (current_inetgw s) p x) as (-> & _ & _ & ->). split; [done|]. by apply nodup_tree_delete.
    + by exists x.
  - intros rt y q Hin (x & Hx & Ed & _ & Ht & _)%(deleted_entry _ _ _ _ _ _ D) [k Hq]%elem_fst. apply Ht in Hq as [Hq Hn].
    destruct (ro_path _ _ s R rt x q Hin Hx (fst_elem _ _ _ Hq)) as (r' & Hr' & H). exists r'. rewrite Ed. split; [|done].
    rewrite lookup_delete_ne; [done|]. apply not_eq_sym. eapply Hne; [exact Hx|done|by eapply fst_elem|exact Hn].
  - intros rt y q k r' Hin (x & Hx & Ed & _ & Ht & _)%(deleted_entry _ _ _ _ _ _ D) Hq Hr'. apply Ht in Hq as [Hq Hn].
    apply lookup_delete_Some in Hr' as [_ Hr']. by eapply (ro_key _ _ s R).
  - intros q r' rt [Hn Hq]%lookup_delete_Some Hrt. destruct (ro_back _ _ s R q r' rt Hq Hrt) as (Hin & x & Hx & Hqx). split; [done|].
    rewrite (deleted_lookup _ _ _ _ _ D), Hx. case_decide; [|by exists x]. eexists. split; [done|].
    destruct (removed_same (paths s) (current_inetgw s) p x) as (_ & _ & _ & ->). apply elem_fst in Hqx as [k Hk].
    eapply fst_elem, elem_of_tree_delete. split; [|exact Hk]. done.
  - intros q Hg. destruct (pd_inetgw _ _ _ _ _ _ D) as [Hnp Ha]. assert (q <> p) as Hqp by (intros ->; done).
    rewrite lookup_delete_ne by done. destruct (Ha q Hg Hqp) as [Hg'|(rt & x & Hrt & Hx & Hl & Hq)]; [by apply (ro_gw _ _ s R)|].
    destruct (ro_back _ _ s R p r rt Hp Hrt) as [Hin _]. destruct (ro_path _ _ s R rt x q Hin Hx Hq) as (r' & Hr' & _ & Hc & _).
    exists r'. split; [done|]. by rewrite (prefix_len_comp _ _ _ Hc).
  - rewrite (pd_locks _ _ _ _ _ _ D). destruct (rtp_interface r) as [i|] eqn:Ei.
    + apply (locks_unlock base (held s)); [apply R| |].
      * unfold held. pose proof (held_paths_in _ i p r Hp Ei). unfold held_entries.
        pose proof (count_pos (fun e => bool_decide ((rts s !! e.1 ≫= rt_interface) = Some i)) (routingtree s)) as Hc. lia.
      * intros j. rewrite (deleted_held _ _ _ _ j Hp D), Ei. f_equal. f_equal. by apply bool_decide_ext; split; [intros [= ->]|intros ->].
    + eapply locks_ext; [|apply R]. intros j. rewrite (deleted_held _ _ _ _ j Hp D), Ei. rewrite bool_decide_eq_false_2 by done. simpl. lia.
  - intros i. rewrite map_size_delete, Hp. simpl. pose proof (ro_bound _ _ s R i). lia.
Qed.

Lemma without_lookup p r d u : tcs (without_prefix p r d) !! u =
  if decide (rtp_tc r = Some u) then (fun t => set_prefix_tree (tree_delete p (prefix_tree t)) t) <$> tcs d !! u else tcs d !! u.
Proof.
  unfold without_prefix. destruct (rtp_tc r) as [tc|]; case_decide as E; try done; [injection E as ->; simpl; by rewrite lookup_alter_eq|].
  simpl. rewrite lookup_alter_ne; congruence.
Qed.

Lemma deleted_prefix_ok d P p r : prefix_ok d P -> P !! p = Some r -> prefix_ok (without_prefix p r d) (delete p P).
Proof.
  intros PO Hp. split.
  - intros u t. rewrite without_lookup. case_decide; [|apply PO]. destruct (tcs d !! u) as [t0|] eqn:Ht; [|done]. intros [= <-].
    apply nodup_tree_delete. by apply (po_nodup _ _ PO u).
  - intros u t q k. rewrite without_lookup. case_decide as E.
    + destruct (tcs d !! u) as [t0|] eqn:Ht; [|done]. intros [= <-]. simpl. rewrite elem_of_tree_delete, (po_in _ _ PO u t0 q k Ht). simpl. split.
      * intros (Hn & r' & Hr' & H). exists r'. by rewrite lookup_delete_ne.
      * intros (r' & [Hn Hr']%lookup_delete_Some & H). split; [done|]. by exists r'.
    + intros Ht. rewrite (po_in _ _ PO u t q k Ht). split.
      * intros (r' & Hr' & Hu & H). exists r'. split; [|done]. rewrite lookup_delete_ne; [done|]. intros <-. by simplify_eq.
      * intros (r' & [_ Hr']%lookup_delete_Some & H). by exists r'.
  - intros q r' u [_ Hq]%lookup_delete_Some Hu. rewrite without_lookup. destruct (po_tc _ _ PO q r' u Hq Hu) as [t ->]. case_decide; by eexists.
  - intros q r' [_ Hq]%lookup_delete_Some. by apply (po_origin _ _ PO q).
Qed.

(** The routing table with the prefixes of the nodes. *)
Record table_ok (s : rib) : Prop := {
  tb_rib : rib_ok s;
  tb_sync : fib_sync s;
  tb_prefix : prefix_ok (tdb (r_topo s)) (paths s)
}.

Lemma delete_path_run s p r : table_ok s -> paths s !! p = Some r ->
  exists s', olsr_delete_rt_path ip_version lq_nat_thresh p s = Some (s', tt) /\ table_ok s' /\ path_deleted s p r s'.
Proof.
  intros [R S PO] Hp. destruct (delete_rt_path_run ip_version lq_nat_thresh s p r) as (s' & E & D).
  { apply rib_deletable; try done. intros tc Htc. by apply (po_tc _ _ PO p r). }
  exists s'. split_and!; [done| |done]. split; [by eapply path_deleted_ok|by eapply deleted_sync|].
  rewrite (pd_paths _ _ _ _ _ _ D), (pd_topo _ _ _ _ _ _ D). by apply deleted_prefix_ok.
Qed.

(** ** Creation *)
Lemma new_path_ok s s' p r : rib_ok s -> fib_sync s -> room base 1 s -> paths s !! p = None -> rtp_rt r = None -> rtp_interface r = None ->
  paths s' = <[p := r]> (paths s) -> rts s' = rts s -> routingtree s' = routingtree s -> current_inetgw s' = current_inetgw s ->
  locks s' = locks s -> kern s' = kern s -> rib_ok s' /\ fib_sync s'.
Proof.
  intros R S Rm Hp Hr Hi EP Er Et Eg El Ek. assert (Hl : forall q x, paths s !! q = Some x -> paths s' !! q = Some x).
  { intros q x Hq. rewrite EP, lookup_insert_ne; [done|]. intros <-. congruence. }
  split; [split|]; rewrite ?Et, ?Er, ?Eg, ?El.
  - apply R.
  - apply R.
  - intros rt x q Hin Hx Hq. destruct (ro_path _ _ s R rt x q Hin Hx Hq) as (r' & Hr' & H). exists r'. split; [by apply Hl|done].
  - intros rt x q k r' Hin Hx Hq Hr'. destruct (ro_path _ _ s R rt x q Hin Hx (fst_elem _ _ _ Hq)) as (r0 & Hr0 & _). pose proof (Hl _ _ Hr0).
    simplify_eq. by eapply (ro_key _ _ s R).
  - intros q r' rt Hq Hrt. rewrite EP in Hq. apply lookup_insert_Some in Hq as [[<- <-]|[_ Hq]]; [congruence|]. by eapply (ro_back _ _ s R).
  - intros q Hg. destruct (ro_gw _ _ s R q Hg) as (r' & Hr' & H). exists r'. split; [by apply Hl|done].
  - eapply locks_ext; [|apply R]. intros i. unfold held. by rewrite EP, Er, Et, held_paths_new.
  - intros i. rewrite EP, map_size_insert_None by done. specialize (Rm i). lia.
  - intros d. rewrite Ek, (S d). symmetry. apply installed_ext; [done|]. intros q. by rewrite Er.
Qed.

Lemma new_prefix_ok d P u t p r L : prefix_ok d P -> tcs d !! u = Some t -> P !! p = None -> rtp_tc r = Some u ->
  prefix_origin (rtp_originator r) = prefix_origin (rtp_dst r) -> (forall e, e ∈ L <-> e = (p, rtp_dst r) \/ e ∈ prefix_tree t) -> NoDup L.*1 ->
  prefix_ok (with_tcs (<[u := set_prefix_tree L t]> (tcs d)) d) (<[p := r]> P).
Proof.
  intros PO Ht Hp Hu Ho HL HN. assert (Hl : forall q x, P !! q = Some x -> q <> p) by (intros q x Hq ->; congruence).
  split; simpl.
  - intros v tv [[<- <-]|[_ Hv]]%lookup_insert_Some; [done|]. by apply (po_nodup _ _ PO v).
  - intros v tv q k [[<- <-]|[Hn Hv]]%lookup_insert_Some; simpl.
    + rewrite HL, (po_in _ _ PO u t q k Ht). split.
      * intros [[= -> ->]|(r' & Hr' & H)]; [exists r; by rewrite lookup_insert_eq|]. exists r'. rewrite lookup_insert_ne; [done|]. apply not_eq_sym. eauto.
      * intros (r' & [[<- <-]|[_ Hr']]%lookup_insert_Some & H & <-); [by left|right; by exists r'].
    + rewrite (po_in _ _ PO v tv q k Hv). split.
      * intros (r' & Hr' & H). exists r'. rewrite lookup_insert_ne; [done|]. apply not_eq_sym. eauto.
      * intros (r' & [[<- <-]|[_ Hr']]%lookup_insert_Some & H & <-); [congruence|by exists r'].
  - intros q r' v [[<- <-]|[_ Hq]]%lookup_insert_Some Hv.
    + rewrite Hu in Hv. injection Hv as <-. by rewrite lookup_insert_eq.
    + destruct (decide (u = v)) as [<-|]; [by rewrite lookup_insert_eq|]. rewrite lookup_insert_ne by done. by apply (po_tc _ _ PO q r').
  - intros q r' [[<- <-]|[_ Hq]]%lookup_insert_Some; [done|by apply (po_origin _ _ PO q)].
Qed.
End rib_paths.
