(* ===== verification/NodeSet.v ===== *)
(** * The nodes of the topology with all that hangs off them
    ([tc_set.c], [mid_set.c], [hna_set.c])

    A node owns its edges, the paths to its prefixes, its aliases and the networks
    it announces; this file has the operations that need all of them: the
    removal of aliases and networks, the deletion and expiry of nodes, the
    change of the own main address, and HNA messages. *)
From S2P Require Import Prelude AvlSpec Trees Types Comparators IpCalc IpLists Memcookie Clock Timer DuplicateSet Packet NetOut Lsdb LqHandler Neighborhood LinkSet TcSet RoutingTable.

Definition OLSR_RT_ORIGIN_MID : Z := 2.
Definition OLSR_RT_ORIGIN_HNA : Z := 3.
Definition OLSR_HNA_NET_JITTER : Z := 5.

Record hna_net := mkHna {
  hna_prefix : olsr_ip_prefix;
  hna_net_timer : option loc;
  hna_tc : loc;
  tc_entry_seqno : Z
}.

Section node_set.
Context `{LQ : LqHandler} `{KE : RouteExport} (rnd : nat -> Z) (ip_version lq_nat_thresh : Z) (router_id : ip_addr).

(** The members [mid_tree] and [hna_tree] of the nodes are kept in maps of
    their own; a node that is not in a map has an empty tree. *)
Record nodes := mkNodes {
  nd_rib : rib;
  hna_trees : gmap loc (list (loc * olsr_ip_prefix));
  hnas : gmap loc hna_net;
  tc_mid_trees : gmap loc (list (loc * ip_addr));
  hna_net_timer_info : loc;
  mid_validity_timer_info : loc
}.
Abbreviation M := (SE nodes).
Abbreviation comp := (avl_comp_default ip_version).
Abbreviation pcomp := (avl_comp_prefix_default ip_version).
Abbreviation ipsize := (tc_ipsize ip_version).

Definition with_rib (r : rib) (s : nodes) : nodes :=
  mkNodes r (hna_trees s) (hnas s) (tc_mid_trees s) (hna_net_timer_info s) (mid_validity_timer_info s).
Definition with_hna (T : gmap loc (list (loc * olsr_ip_prefix))) (H : gmap loc hna_net) (s : nodes) : nodes :=
  mkNodes (nd_rib s) T H (tc_mid_trees s) (hna_net_timer_info s) (mid_validity_timer_info s).
Definition with_tc_mids (T : gmap loc (list (loc * ip_addr))) (s : nodes) : nodes :=
  mkNodes (nd_rib s) (hna_trees s) (hnas s) T (hna_net_timer_info s) (mid_validity_timer_info s).
Definition nd_topo (s : nodes) : topo := r_topo (nd_rib s).
Definition nd_db (s : nodes) : lsdb := tdb (nd_topo s).

Definition on_rib {A} (m : SE rib A) : M A := fun s =>
  match m (nd_rib s) with Some (r, a) => Some (with_rib r s, a) | None => None end.
Definition on_topo {A} (m : SE topo A) : M A :=
  on_rib (fun r => match m (r_topo r) with Some (w, a) => Some (with_topo w r, a) | None => None end).

#[global] Instance nodes_has_timers : HasTimers nodes := {|
  get_timers := fun s => t_timers (nd_topo s);
  put_timers := fun T s => with_rib (with_topo (put_timers T (nd_topo s)) (nd_rib s)) s;
  get_put_timers := fun _ _ => eq_refl |}.

Definition hna_tree (s : nodes) (tc : loc) : list (loc * olsr_ip_prefix) := default [] (hna_trees s !! tc).
Definition tc_mid_tree (s : nodes) (tc : loc) : list (loc * ip_addr) := default [] (tc_mid_trees s !! tc).

Definition hna_rd (p : loc) : M hna_net := fun s => (fun h => (s, h)) <$> hnas s !! p.
Definition hna_wr (p : loc) (g : hna_net -> hna_net) : M unit := fun s =>
  (fun h => (with_hna (hna_trees s) (<[p := g h]> (hnas s)) s, tt)) <$> hnas s !! p.
Definition set_hna_timer (h : option loc) (n : hna_net) : hna_net := mkHna (hna_prefix n) h (hna_tc n) (tc_entry_seqno n).
Definition set_hna_seqno (q : Z) (n : hna_net) : hna_net := mkHna (hna_prefix n) (hna_net_timer n) (hna_tc n) q.

Definition mid_rd (p : loc) : M mid_entry := fun s => (fun m => (s, m)) <$> mids (t_nbh (nd_topo s)) !! p.
(** The alias leaves the global tree and is freed. *)
Definition mid_free (p : loc) : M unit :=
  on_topo (fun w => (fun _ =>
    let n := t_nbh w in
    (with_nbh (mkNbh (nbr_tree n) (nbrs n) (nbr2_tree n) (nbr2s n) (nbr_cons n) (link_entry_head n) (links n)
      (tree_delete p (mid_tree n)) (delete p (mids n)) (nh_lsdb n)) w, tt)) <$> mids (t_nbh w) !! p).

(** ** Networks ([hna_set.c]) *)
Definition olsr_lookup_hna_net (tc : loc) (pfx : olsr_ip_prefix) : M (option loc) := se_get (fun s => tree_find pcomp pfx (hna_tree s tc)).

Definition olsr_add_hna_net (tc : loc) (pfx : olsr_ip_prefix) : M loc := fun s =>
  let p := fresh (dom (hnas s)) in
  Some (with_hna (<[tc := tree_insert pcomp false pfx p (hna_tree s tc)]> (hna_trees s)) (<[p := mkHna pfx None tc 0]> (hnas s)) s, p).

Definition olsr_delete_hna_net (p : loc) : M unit :=
  h ← hna_rd p;
  t ← on_topo (tc_rd (hna_tc h));
  on_rib (olsr_delete_routing_table ip_version lq_nat_thresh (prefix (hna_prefix h)) (prefix_len (hna_prefix h)) (tc_addr t) OLSR_RT_ORIGIN_HNA);;
  se_mod (fun s => with_hna (<[hna_tc h := tree_delete p (hna_tree s (hna_tc h))]> (hna_trees s)) (hnas s) s);;
  (match hna_net_timer h with Some t => on_timers (olsr_timer_stop (Some t)) | None => mret tt end);;
  se_mod (fun s => with_hna (hna_trees s) (delete p (hnas s)) s).

(** The loops fetch the successor before an entry is deleted. *)
Fixpoint delete_hna_nets (L : list (loc * olsr_ip_prefix)) : M unit :=
  match L with
  | [] => mret tt
  | e :: L => olsr_delete_hna_net e.1;; delete_hna_nets L
  end.
Definition olsr_flush_hna_nets (tc : loc) : M unit := L ← se_get (fun s => hna_tree s tc); delete_hna_nets L.

Definition olsr_expire_hna_net_entry (p : loc) : M unit :=
  hna_wr p (set_hna_timer None);;
  olsr_delete_hna_net p.

Definition olsr_update_hna_entry (gw : ip_addr) (pfx : olsr_ip_prefix) (vtime : Z) (msg_seq : Z) : M unit :=
  tc ← on_topo (olsr_locate_tc_entry ip_version router_id gw);
  tc ← se_opt tc;
  net_entry ← olsr_lookup_hna_net tc pfx;
  p ← (match net_entry with
       | Some p => mret p
       | None => p ← olsr_add_hna_net tc pfx; on_topo (se_mod (set_changes_hna true));; mret p
       end);
  hna_wr p (set_hna_seqno msg_seq);;
  h ← hna_rd p;
  t ← on_topo (tc_rd tc);
  on_topo (olsr_insert_routing_table ip_version router_id (prefix (hna_prefix h)) (prefix_len (hna_prefix h)) (tc_addr t) OLSR_RT_ORIGIN_HNA);;
  ti ← se_get hna_net_timer_info;
  x ← on_timers (olsr_timer_set rnd (hna_net_timer h) vtime OLSR_HNA_NET_JITTER p ti);
  hna_wr p (set_hna_timer x).

Fixpoint prune_hna (tc : loc) (L : list (loc * olsr_ip_prefix)) : M unit :=
  match L with
  | [] => mret tt
  | e :: L =>
    h ← hna_rd e.1;
    t ← on_topo (tc_rd tc);
    (if negb (tc_entry_seqno h =? hna_seq t) then olsr_delete_hna_net e.1 else mret tt);;
    prune_hna tc L
  end.
Definition olsr_prune_hna_entries (tc : loc) : M unit := L ← se_get (fun s => hna_tree s tc); prune_hna tc L.

(** ** Aliases ([mid_set.c]) *)
Definition olsr_delete_mid_entry (p : loc) : M unit :=
  a ← mid_rd p;
  on_timers (olsr_timer_stop (mid_timer a));;
  t ← on_topo (tc_rd (mid_tc a));
  on_rib (olsr_delete_routing_table ip_version lq_nat_thresh (mid_alias_addr a) (8 * Z.of_nat ipsize) (tc_addr t) OLSR_RT_ORIGIN_MID);;
  se_mod (fun s => with_tc_mids (<[mid_tc a := tree_delete p (tc_mid_tree s (mid_tc a))]> (tc_mid_trees s)) s);;
  mid_free p.

Fixpoint delete_mid_entries (L : list (loc * ip_addr)) : M unit :=
  match L with
  | [] => mret tt
  | e :: L => olsr_delete_mid_entry e.1;; delete_mid_entries L
  end.
Definition olsr_flush_mid_entries (tc : loc) : M unit := L ← se_get (fun s => tc_mid_tree s tc); delete_mid_entries L.

Definition olsr_expire_mid_entries (p : loc) : M unit := olsr_delete_mid_entry p.

(** ** Nodes ([tc_set.c]) *)
Fixpoint delete_edges (L : list (loc * ip_addr)) : M unit :=
  match L with
  | [] => mret tt
  | e :: L => on_topo (olsr_delete_tc_edge_entry e.1);; delete_edges L
  end.
Fixpoint delete_paths (L : list (loc * olsr_ip_prefix)) : M unit :=
  match L with
  | [] => mret tt
  | e :: L => on_rib (olsr_delete_rt_path ip_version lq_nat_thresh e.1);; delete_paths L
  end.

Definition olsr_delete_tc_entry (tc : loc) : M unit :=
  t ← on_topo (tc_rd tc);
  delete_edges (edge_tree t);;
  t ← on_topo (tc_rd tc);
  on_timers (olsr_timer_stop (tc_validity_timer t));;
  on_topo (tc_wr tc (set_validity_timer None));;
  on_timers (olsr_timer_stop (edge_gc_timer t));;
  on_topo (tc_wr tc (set_gc_timer None));;
  t ← on_topo (tc_rd tc);
  if negb (bool_decide (edge_tree t = [])) then
    on_topo (tc_wr tc (set_tc_virtual true));;
    on_topo (tc_wr tc (fun t => set_tc_msg (msg_hops t) (tc_seq t) 0 t))
  else
    delete_paths (prefix_tree t);;
    olsr_flush_mid_entries tc;;
    olsr_flush_hna_nets tc;;
    on_topo (se_mod (fun w => with_tdb (with_tc_tree (tree_delete tc (tc_tree (tdb w))) (with_tcs (delete tc (tcs (tdb w))) (tdb w))) w)).

Definition olsr_expire_tc_entry (tc : loc) : M unit :=
  on_topo (tc_wr tc (set_validity_timer None));;
  olsr_delete_tc_entry tc;;
  on_topo (se_mod (set_changes_topology true)).

Definition set_nbr_edge (e : option loc) (n : nbr_entry) : nbr_entry :=
  mkNbr (nbr_addr n) e (willingness n) (is_sym n) (is_mpr n) (was_mpr n) (skip n) (mprs_count n) (linkcount n) (nbr_con_tree n).
Definition set_edge_nbr (n : option loc) (e : tc_edge_entry) : tc_edge_entry :=
  mkEdge (T_dest_addr e) (edge_inv e) (edge_tc e) n (cost e) (common_cost e) (virtual e) (edge_ansn e).
Definition set_myself (me : option loc) (w : topo) : topo :=
  with_tdb (mkDb (tc_tree (tdb w)) (tcs (tdb w)) (edges (tdb w)) me) w.

(** The first loop of [olsr_change_myself_tc]: the local edges are flushed. *)
Fixpoint flush_local_edges (L : list (loc * ip_addr)) : M unit :=
  match L with
  | [] => mret tt
  | e :: L =>
    n ← on_topo (on_nbh (rd_nbr e.1));
    (match nbr_tc_edge n with
     | Some d =>
       on_topo (edge_wr d (set_edge_nbr None));;
       on_topo (olsr_delete_tc_edge_entry d);;
       on_topo (on_nbh (wr_nbr e.1 (set_nbr_edge None)))
     | None => mret tt
     end);;
    flush_local_edges L
  end.
(** The second loop: edges from the new node. *)
Fixpoint add_local_edges (me : loc) (L : list (loc * ip_addr)) : M unit :=
  match L with
  | [] => mret tt
  | e :: L =>
    n ← on_topo (on_nbh (rd_nbr e.1));
    (match nbr_tc_edge n with
     | None =>
       d ← on_topo (olsr_add_tc_edge_entry ip_version router_id me (nbr_addr n) 0);
       on_topo (on_nbh (wr_nbr e.1 (set_nbr_edge (Some d))));;
       on_topo (edge_wr d (set_edge_nbr (Some e.1)))
     | Some _ => mret tt
     end);;
    add_local_edges me L
  end.

Definition olsr_change_myself_tc : M unit :=
  me ← se_get (fun s => tc_myself (nd_db s));
  unchanged ← (match me with
    | Some me => t ← on_topo (tc_rd me); mret (ipcmp ip_version (tc_addr t) router_id =? 0)
    | None => mret false
    end);
  if unchanged : bool then mret tt
  else
    (match me with
     | Some me =>
       L ← se_get (fun s => nbr_tree (t_nbh (nd_topo s)));
       flush_local_edges L;;
       olsr_delete_tc_entry me;;
       on_topo (se_mod (set_myself None))
     | None => mret tt
     end);;
    new ← on_topo (olsr_add_tc_entry ip_version router_id router_id);
    on_topo (se_mod (set_myself new));;
    (if bool_decide (is_Some me) then
       L ← se_get (fun s => nbr_tree (t_nbh (nd_topo s)));
       (** without neighbours the pointer is not used *)
       match L, new with
       | [], _ => mret tt
       | _ :: _, Some new => add_local_edges new L
       | _ :: _, None => se_fail
       end
     else mret tt);;
    on_topo (se_mod (set_changes_topology true)).

(** The two loops of [olsr_delete_all_tc_entries]. *)
Fixpoint break_edges (L : list (loc * ip_addr)) : M unit :=
  match L with
  | [] => mret tt
  | d :: L =>
    e ← on_topo (edge_rd d.1);
    (match neighbor e with
     | Some n =>
       on_topo (on_nbh (wr_nbr n (set_nbr_edge None)));;
       on_topo (edge_wr d.1 (set_edge_nbr None))
     | None => mret tt
     end);;
    on_topo (edge_wr d.1 (set_inv None));;
    on_topo (internal_delete_tc_edge_entry d.1);;
    break_edges L
  end.
Fixpoint break_all_edges (L : list (loc * ip_addr)) : M unit :=
  match L with
  | [] => mret tt
  | e :: L => t ← on_topo (tc_rd e.1); break_edges (edge_tree t);; break_all_edges L
  end.
Fixpoint delete_tc_entries (L : list (loc * ip_addr)) : M unit :=
  match L with
  | [] => mret tt
  | e :: L => olsr_delete_tc_entry e.1;; delete_tc_entries L
  end.
Definition olsr_delete_all_tc_entries : M unit :=
  L ← se_get (fun s => tc_tree (nd_db s));
  break_all_edges L;;
  L ← se_get (fun s => tc_tree (nd_db s));
  delete_tc_entries L;;
  on_topo (se_mod (set_myself None)).

(** ** Runs on a part of the state *)
Definition with_ntopo (w : topo) (s : nodes) : nodes := with_rib (with_topo w (nd_rib s)) s.
Lemma on_rib_run {A} (m : SE rib A) n r a : m (nd_rib n) = Some (r, a) -> on_rib m n = Some (with_rib r n, a).
Proof. intros H. unfold on_rib. by rewrite H. Qed.
Lemma on_topo_run {A} (m : SE topo A) n w a : m (nd_topo n) = Some (w, a) -> on_topo m n = Some (with_ntopo w n, a).
Proof. intros H. unfold on_topo, on_rib, nd_topo in *. by rewrite H. Qed.
Lemma on_topo_get {A} (m : SE topo A) n a : m (nd_topo n) = Some (nd_topo n, a) -> on_topo m n = Some (n, a).
Proof. intros H. unfold on_topo, on_rib, nd_topo in *. rewrite H. by destruct n as [[]]. Qed.
Lemma on_nbh_get {A} (m : NM A) (w : topo) a : m (t_nbh w) = Some (t_nbh w, a) -> on_nbh m w = Some (w, a).
Proof. intros H. unfold on_nbh. rewrite H. by destruct w. Qed.
End node_set.
