(* ===== verification/HnaSet.v ===== *)
(** * Networks that nodes announce ([hna_set.c])

    The reception of HNA messages on top of the operations of [NodeSet]. After a message the
    networks of its originator are those that the message names, and so are its prefixes in the
    routing table. *)
From S2P Require Import Prelude AvlSpec AvlOps Trees Types Comparators IpCalc IpLists Memcookie Clock Timer DuplicateSet Packet NetOut Lsdb LqHandler LqEtxFf Neighborhood LinkSet TcGraph TcSet TcInv TcInput TcProps RoutingTable ProcessRoutes RibUpdate RibRefresh RibPaths NodeSet.
#[local] Arguments bool_decide : simpl never.

Definition MID_MESSAGE : Z := 3.
Definition HNA_MESSAGE : Z := 4.

Section hna_set.
Context `{LQ : LqHandler} `{KE : RouteExport} (rnd : nat -> Z) (ip_version lq_nat_thresh : Z) (router_id : ip_addr).
(** [olsr_cnf->hna_entries] *)
Context (hna_entries : prefix_list).
Abbreviation M := (SE nodes).
Abbreviation comp := (avl_comp_default ip_version).
Abbreviation pcomp := (avl_comp_prefix_default ip_version).
Abbreviation ocomp := (avl_comp_prefix_origin_default ip_version).
Abbreviation ipsize := (tc_ipsize ip_version).
Abbreviation hostlen := (8 * Z.of_nat ipsize).

(** The variable [prefix] is not initialized; its member [prefix_origin] is never set. *)
Definition get_hna_net (pfx : olsr_ip_prefix) : RD olsr_ip_prefix :=
  a ← pkt_get_ipaddress ipsize (prefix pfx);
  l ← pkt_get_prefixlen ipsize;
  mret (mkPfx a l (prefix_origin pfx)).

Definition is_own (pfx : olsr_ip_prefix) : bool :=
  bool_decide (is_Some (ip_prefix_list_find hna_entries (prefix pfx) (prefix_len pfx) ip_version)).

(** The loop over the announcements; [left] is [msg->end - curr]. *)
Fixpoint input_hna_nets (fuel : nat) (msg : olsr_message) (left : Z) (curr : list Z) (pfx : olsr_ip_prefix) : M unit :=
  match fuel with
  | O => se_fail
  | S fuel =>
    if 2 * Z.of_nat ipsize <=? left then
      r ← se_opt (get_hna_net pfx curr);
      let '(curr, pfx) := r in
      (if negb (is_own pfx) then olsr_update_hna_entry rnd ip_version router_id (originator msg) pfx (vtime msg) (seqno msg) else mret tt);;
      input_hna_nets fuel msg (left - 2 * Z.of_nat ipsize) curr pfx
    else mret tt
  end.

Definition set_hna_seq_of (q : Z) (t : tc_entry) : tc_entry :=
  mkTc (tc_addr t) (tc_spf t) (edge_tree t) (prefix_tree t) (edge_gc_timer t) (tc_validity_timer t) (tc_virtual t) (tc_seq t) (mid_seq t) q
    (msg_hops t) (tc_ansn t).

Definition olsr_input_hna (msg : olsr_message) (body : list Z) (garbage : olsr_ip_prefix) (from_addr : ip_addr) (status : duplicate_status) : M unit :=
  if negb (m_type msg =? HNA_MESSAGE) then mret tt
  else
    nw ← se_get (fun s => now (get_timers s));
    st ← on_topo (on_nbh (check_neighbor_link ip_version nw from_addr));
    if negb (st =? SYM_LINK) then mret tt
    else
      tc ← on_topo (olsr_locate_tc_entry ip_version router_id (originator msg));
      tc ← se_opt tc;
      t ← on_topo (tc_rd tc);
      if negb (bool_decide (status = RESET_SEQNO_OLSR_MESSAGE)) && negb (hna_seq t =? -1) && (olsr_seqno_diff (seqno msg) (hna_seq t) <=? 0)
      then mret tt
      else
        on_topo (tc_wr tc (set_hna_seq_of (seqno msg)));;
        input_hna_nets (S (length body)) msg (end_ msg - payload msg) body garbage;;
        olsr_prune_hna_entries ip_version lq_nat_thresh tc.

(** ** The state that the operations keep *)
Section props.
Context (base : loc -> Z) (fib_view : kernel -> olsr_ip_prefix -> option (ip_addr * loc)).
Abbreviation table_ok := (table_ok ip_version base fib_view).
Abbreviation topo_ok := (topo_ok ip_version).

Definition nd_paths (s : nodes) : gmap loc rt_path := paths (nd_rib s).
(** A path to a network of node [u]. *)
Definition net_path (u : loc) (r : rt_path) : Prop := rtp_tc r = Some u /\ prefix_origin (rtp_dst r) = OLSR_RT_ORIGIN_HNA.

(** The networks of the nodes, their timers and their paths; network [X] may lack
    a path. *)
Record nets_but (X : option loc) (s : nodes) : Prop := {
  no_table : table_ok (nd_rib s);
  no_topo : topo_ok (nd_topo s);
  no_ptree : forall u t, tcs (nd_db s) !! u = Some t -> tree_wf ocomp (prefix_tree t);
  no_wf : forall u, tree_wf pcomp (hna_tree s u);
  no_in : forall u p k, (p, k) ∈ hna_tree s u -> exists h, hnas s !! p = Some h /\ hna_prefix h = k /\ hna_tc h = u;
  no_tc : forall u p k, (p, k) ∈ hna_tree s u -> is_Some (tcs (nd_db s) !! u);
  no_timers : timers_ok (get_timers s);
  no_info : is_Some (timer_infos (get_timers s) !! hna_net_timer_info s);
  no_timer : forall u p k h x, (p, k) ∈ hna_tree s u -> hnas s !! p = Some h -> hna_net_timer h = Some x ->
    timer_of (get_timers s) (hna_net_timer_info s) p x;
  no_path : forall u p k, (p, k) ∈ hna_tree s u -> X <> Some p -> prefix_len k <= hostlen ->
    exists q r, nd_paths s !! q = Some r /\ net_path u r /\ pcomp (rtp_dst r) k = 0;
  no_net : forall q r u, nd_paths s !! q = Some r -> net_path u r -> prefix_len (rtp_dst r) <= hostlen /\
    exists p k, (p, k) ∈ hna_tree s u /\ pcomp (rtp_dst r) k = 0
}.
Definition nets_ok : nodes -> Prop := nets_but None.

(** What the operations leave alone. *)
Definition tc_id (t : tc_entry) : ip_addr * Z := (tc_addr t, hna_seq t).
Record nodes_kept (s s' : nodes) : Prop := {
  nk_tree : tc_tree (nd_db s') = tc_tree (nd_db s);
  nk_tcs : forall v, tc_id <$> tcs (nd_db s') !! v = tc_id <$> tcs (nd_db s) !! v;
  nk_info : hna_net_timer_info s' = hna_net_timer_info s;
  nk_rtree : routingtree (nd_rib s') = routingtree (nd_rib s)
}.
Lemma nodes_kept_refl s : nodes_kept s s.
Proof. done. Qed.
Lemma nodes_kept_trans s1 s2 s3 : nodes_kept s1 s2 -> nodes_kept s2 s3 -> nodes_kept s1 s3.
Proof. intros [A1 A2 A3 A4] [B1 B2 B3 B4]. split; [congruence| |congruence..]. intros v. by rewrite B2, A2. Qed.
Lemma nodes_kept_lookup s s' v t : nodes_kept s s' -> tcs (nd_db s) !! v = Some t -> exists t', tcs (nd_db s') !! v = Some t' /\ tc_addr t' = tc_addr t /\ hna_seq t' = hna_seq t.
Proof. intros K Hv. pose proof (nk_tcs _ _ K v) as E. rewrite Hv in E. destruct (tcs (nd_db s') !! v) as [t'|]; [|done]. exists t'. split; [done|]. injection E as ?. done. Qed.

Lemma topo_ok_core w w' : topo_ok w -> tc_tree (tdb w') = tc_tree (tdb w) -> edges (tdb w') = edges (tdb w) -> t_lq w' = t_lq w ->
  (forall v, tc_core <$> tcs (tdb w') !! v = tc_core <$> tcs (tdb w) !! v) -> topo_ok w'.
Proof.
  intros [G Q] E1 E2 E3 E4. split; [|by rewrite E2, E3]. unfold shape. rewrite E1, E2. assert (tc_core <$> tcs (tdb w') = tc_core <$> tcs (tdb w)) as ->; [|done].
  apply map_eq. intros v. by rewrite !lookup_fmap.
Qed.

(** The node of an address. *)
Lemma node_found w a u : topo_ok w -> tree_find comp a (tc_tree (tdb w)) = Some u -> exists t, tcs (tdb w) !! u = Some t /\ comp a (tc_addr t) = 0.
Proof.
  intros [G _] (k & Hin & E)%tree_find_Some. apply (w_in _ _ G) in Hin as (L & Hu). apply node_at in Hu as (t & Ht & Ha & _). exists t. by rewrite Ha.
Qed.
Lemma hna_find_node w u t : topo_ok w -> tcs (tdb w) !! u = Some t -> tree_find comp (tc_addr t) (tc_tree (tdb w)) = Some u.
Proof.
  intros [G _] Hu. eapply tree_find_in; [apply _|apply (TcGraph.w_tree _ _ G)| |by apply (comp_refl (comp := comp))].
  apply (w_in _ _ G). exists (edge_tree t). by apply node_core.
Qed.

(** ** Changes of a network entry *)
Lemma table_topo r w : rtps w = paths r -> tdb w = tdb (r_topo r) -> table_ok r -> table_ok (with_topo w r).
Proof.
  intros E1 E2 [[H1 H2 H3 H4 H5 H6 H7 H8] S P]. assert (EP : paths (with_topo w r) = paths r) by done.
  split; [split|..]; rewrite ?EP; try done; [|by rewrite <- E2 in P].
  eapply locks_ext; [|exact H7]. intros i. unfold held. by rewrite EP.
Qed.

Lemma tree_unique_fst L (p : loc) (k k' : olsr_ip_prefix) : NoDup L.*1 -> (p, k) ∈ L -> (p, k') ∈ L -> k = k'.
Proof.
  induction L as [|[q j] L IH]; intros N; [by intros ?%elem_of_nil|]. apply NoDup_cons in N as [Hn N]. simpl in Hn.
  intros [[= -> ->]|H1]%elem_of_cons [[= E1]|H2]%elem_of_cons; try done; [|subst; by apply fst_elem in H1|by apply IH].
  by apply fst_elem in H2.
Qed.

Lemma nets_entry X s s' p h h' : nets_but X s -> hnas s !! p = Some h -> hna_prefix h' = hna_prefix h -> hna_tc h' = hna_tc h ->
  hnas s' = <[p := h']> (hnas s) -> hna_trees s' = hna_trees s -> hna_net_timer_info s' = hna_net_timer_info s ->
  nd_paths s' = nd_paths s -> nd_db s' = nd_db s -> table_ok (nd_rib s') -> topo_ok (nd_topo s') -> timers_ok (get_timers s') ->
  is_Some (timer_infos (get_timers s') !! hna_net_timer_info s) ->
  (forall x, hna_net_timer h' = Some x -> timer_of (get_timers s') (hna_net_timer_info s) p x) ->
  (forall p' x, p' <> p -> timer_of (get_timers s) (hna_net_timer_info s) p' x -> timer_of (get_timers s') (hna_net_timer_info s) p' x) -> nets_but X s'.
Proof.
  intros [N1 N2 N3 N4 N5 N6 N7 N8 N9 N10 N11] Hp E1 E2 EH ET EI EP ED Tb To Tm Ti Hx Hoth.
  assert (Et : forall u, hna_tree s' u = hna_tree s u) by (intros u; unfold hna_tree; by rewrite ET).
  split; rewrite ?EP, ?ED, ?EI.
  - done.
  - done.
  - done.
  - intros u. by rewrite Et.
  - intros u q k. rewrite Et. intros Hq. destruct (N5 u q k Hq) as (h0 & Hh0 & Hk & Hu). rewrite EH. destruct (decide (p = q)) as [<-|].
    + rewrite lookup_insert_eq. exists h'. simplify_eq. by rewrite E1, E2.
    + rewrite lookup_insert_ne by done. eauto.
  - intros u. rewrite Et. apply N6.
  - done.
  - done.
  - intros u q k h0 x. rewrite Et, EH. intros Hq. intros [[<- <-]|[Hn Hh]]%lookup_insert_Some Ht; [by apply Hx|]. apply Hoth; [done|]. by apply (N9 u q k h0 x).
  - intros u. rewrite Et. apply N10.
  - intros q r u. rewrite Et. apply N11.
Qed.

Lemma nets_wr_run X s p h g : nets_but X s -> hnas s !! p = Some h -> hna_prefix (g h) = hna_prefix h -> hna_tc (g h) = hna_tc h ->
  hna_net_timer (g h) = hna_net_timer h -> (exists u k, (p, k) ∈ hna_tree s u) ->
  hna_wr p g s = Some (with_hna (hna_trees s) (<[p := g h]> (hnas s)) s, tt) /\ nets_but X (with_hna (hna_trees s) (<[p := g h]> (hnas s)) s).
Proof.
  intros N Hp E1 E2 E3 (u & k & Hin). split; [unfold hna_wr; by rewrite Hp|]. eapply (nets_entry X s); try done; try apply N.
  rewrite E3. intros x Hx. by apply (no_timer _ _ N u p k h).
Qed.

Lemma hna_tree_upd T u L H s v : T = <[u := L]> (hna_trees s) -> hna_tree (with_hna T H s) v = if decide (u = v) then L else hna_tree s v.
Proof. intros ->. unfold hna_tree. simpl. case_decide; [subst; by rewrite lookup_insert_eq|by rewrite lookup_insert_ne]. Qed.

(** ** A new network *)
Definition net_added (s : nodes) (u p : loc) (k : olsr_ip_prefix) : nodes :=
  with_hna (<[u := tree_insert pcomp false k p (hna_tree s u)]> (hna_trees s)) (<[p := mkHna k None u 0]> (hnas s)) s.

Lemma net_added_tree s u p k v e : tree_find pcomp k (hna_tree s u) = None ->
  e ∈ hna_tree (net_added s u p k) v <-> (e = (p, k) /\ v = u) \/ e ∈ hna_tree s v.
Proof.
  intros Hf. unfold net_added. rewrite (hna_tree_upd _ u _ _ s v eq_refl). case_decide as E; [|naive_solver]. subst v.
  rewrite (elem_of_tree_insert pcomp _ false k p e (or_intror Hf)). naive_solver.
Qed.

Lemma net_added_ok s u t p k : nets_ok s -> tcs (nd_db s) !! u = Some t -> tree_find pcomp k (hna_tree s u) = None -> hnas s !! p = None ->
  nets_but (Some p) (net_added s u p k).
Proof.
  intros [N1 N2 N3 N4 N5 N6 N7 N8 N9 N10 N11] Hu Hf Hp.
  assert (Hnp : forall v, p ∉ (hna_tree s v).*1) by (intros v [k' Hk]%elem_fst; destruct (N5 v p k' Hk) as (h & Hh & _); congruence).
  assert (Hne : forall v q k', (q, k') ∈ hna_tree s v -> p <> q) by (intros v q k' Hq%fst_elem ->; by apply (Hnp v)).
  split; try done.
  - intros v. unfold net_added. rewrite (hna_tree_upd _ u _ _ s v eq_refl). case_decide; [|done]. apply tree_wf_insert; [apply _|by apply N4|done..].
  - intros v q k' [[[= -> ->] ->]|Hq]%net_added_tree; [|..|done]; simpl; [rewrite lookup_insert_eq; by eexists|].
    rewrite lookup_insert_ne by (by eapply Hne). by apply N5.
  - intros v q k' [[_ ->]|Hq]%net_added_tree; [by exists t|by eapply N6|done].
  - intros v q k' h x [[[= -> ->] ->]|Hq]%net_added_tree; [| |done]; simpl.
    + rewrite lookup_insert_eq. by intros [= <-].
    + rewrite lookup_insert_ne by (by eapply Hne). by apply (N9 v q k').
  - intros v q k' [[[= -> ->] _]|Hq]%net_added_tree Hx Hl; [by destruct Hx| |done]. destruct (N10 v q k' Hq) as (q' & r & ?); [done|done|]. by exists q', r.
  - intros q r v Hq Hv. destruct (N11 q r v Hq Hv) as (Hl & p' & k' & Hin & E). split; [done|]. exists p', k'. split; [|done]. apply net_added_tree; [done|by right].
Qed.

(** ** The path of a network *)
Lemma locate_found w a u : tree_find comp a (tc_tree (tdb w)) = Some u -> olsr_locate_tc_entry ip_version router_id a w = Some (w, Some u).
Proof. intros Hf. unfold olsr_locate_tc_entry, olsr_lookup_tc_entry. erewrite bind_run by reflexivity. by rewrite Hf. Qed.

Lemma insert_with_run locate w dst plen a o u t : locate a w = Some (w, Some u) -> tcs (tdb w) !! u = Some t ->
  let k := mkPfx dst plen o in let p := fresh (dom (rtps w)) in
  exists q, olsr_insert_routing_table_with ip_version locate dst plen a o w =
    Some (if hostlen <? plen then w else if tree_find ocomp k (prefix_tree t) is Some _ then w else
      set_changes_hna true (with_rtps (<[p := mkRtp k (mkPfx (tc_addr t) hostlen o) None (Some u) (replicate 16 0) None 0 0 0]> (rtps w))
        (with_tdb (with_tcs (<[u := set_prefix_tree (tree_insert ocomp false k p (prefix_tree t)) t]> (tcs (tdb w))) (tdb w)) w)), q).
Proof.
  intros Hf Hu k p. unfold olsr_insert_routing_table_with. rewrite Z.gtb_ltb. destruct (hostlen <? plen); [by eexists|].
  erewrite bind_run by exact Hf. erewrite bind_run by done.
  erewrite bind_run by (unfold tc_rd; by rewrite Hu). fold k. destruct (tree_find ocomp k (prefix_tree t)) as [q|]; [by eexists|].
  erewrite bind_run by (unfold olsr_alloc_rt_path; by rewrite Hu). by eexists.
Qed.

(** For IPv4 the comparator of the trees of prefixes is not an order. *)
Context (V6 : ip_version = AF_INET6).

#[local] Instance ocomp_comp : AvlComp ocomp.
Proof. rewrite V6. apply avl_comp_ipv6_prefix_origin_comp. Qed.

Lemma ocomp_eq k k' : ocomp k k' = 0 <-> pcomp k k' = 0 /\ prefix_origin k = prefix_origin k'.
Proof.
  rewrite V6. unfold avl_comp_prefix_origin_default, avl_comp_prefix_default. simpl. unfold avl_comp_ipv6_prefix_origin, avl_comp_ipv6_prefix.
  destruct (Z.eqb_spec (ip6cmp (prefix k) (prefix k')) 0); simpl; [|naive_solver lia].
  destruct (Z.eqb_spec (prefix_len k' - prefix_len k) 0); simpl; naive_solver lia.
Qed.

Definition path_added (w : topo) (u : loc) (t : tc_entry) (k : olsr_ip_prefix) : topo :=
  let p := fresh (dom (rtps w)) in
  set_changes_hna true (with_rtps (<[p := mkRtp k (mkPfx (tc_addr t) hostlen (prefix_origin k)) None (Some u) (replicate 16 0) None 0 0 0]> (rtps w))
    (with_tdb (with_tcs (<[u := set_prefix_tree (tree_insert ocomp false k p (prefix_tree t)) t]> (tcs (tdb w))) (tdb w)) w)).

Lemma path_added_ok r u t k : table_ok r -> topo_ok (r_topo r) -> tcs (tdb (r_topo r)) !! u = Some t -> room base 1 r ->
  (forall v tv, tcs (tdb (r_topo r)) !! v = Some tv -> tree_wf ocomp (prefix_tree tv)) -> tree_find ocomp k (prefix_tree t) = None ->
  let w := path_added (r_topo r) u t k in table_ok (with_topo w r) /\ topo_ok w /\
  (forall v tv, tcs (tdb w) !! v = Some tv -> tree_wf ocomp (prefix_tree tv)).
Proof.
  intros [R S P] To Hu Rm Hwf Hf w. set (p := fresh (dom (rtps (r_topo r)))) in *.
  assert (Hp : paths r !! p = None) by apply not_elem_of_dom, is_fresh.
  assert (Hnt : p ∉ (prefix_tree t).*1).
  { intros [k' Hk]%elem_fst. apply (po_in _ _ P u t p k' Hu) in Hk as (r' & Hr' & _). congruence. }
  assert (Wf : tree_wf ocomp (tree_insert ocomp false k p (prefix_tree t))) by (apply tree_wf_insert; [apply _|by eapply Hwf|done..]).
  split_and!.
  - destruct (new_path_ok ip_version base fib_view r (with_topo w r) p (mkRtp k (mkPfx (tc_addr t) hostlen (prefix_origin k)) None (Some u) (replicate 16 0) None 0 0 0))
      as [R' S']; try done. split; [done..|]. apply (new_prefix_ok _ _ u t p); try done; [|apply Wf].
    intros e. apply (elem_of_tree_insert ocomp). by right.
  - apply (topo_ok_core (r_topo r)); try done. intros v. simpl. destruct (decide (u = v)) as [<-|]; [by rewrite lookup_insert_eq, Hu|by rewrite lookup_insert_ne].
  - intros v tv. simpl. intros [[<- <-]|[_ Hv]]%lookup_insert_Some; [done|by eapply Hwf].
Qed.

(** What one operation on a network leaves alone. *)
Record net_step (s s' : nodes) : Prop := {
  ns_kept : nodes_kept s s';
  ns_size : (size (nd_paths s') <= S (size (nd_paths s)))%nat;
  ns_links : t_nbh (with_tdb (mkDb [] ∅ ∅ None) (nd_topo s')) = t_nbh (with_tdb (mkDb [] ∅ ∅ None) (nd_topo s))
}.


(** Once the path is there, no network lacks one. *)
Lemma nets_fill s p u k : nets_but (Some p) s -> (p, k) ∈ hna_tree s u ->
  (prefix_len k <= hostlen -> exists q r, nd_paths s !! q = Some r /\ net_path u r /\ pcomp (rtp_dst r) k = 0) -> nets_ok s.
Proof.
  intros [N1 N2 N3 N4 N5 N6 N7 N8 N9 N10 N11] Hin H. split; try done. intros v q k' Hq _ Hl.
  destruct (decide (p = q)) as [<-|Hn]; [|apply (N10 v q k'); [done|congruence|done]].
  destruct (N5 u p k Hin) as (h & Hh & <- & <-), (N5 v p k' Hq) as (h' & Hh' & <- & <-). simplify_eq. by apply H.
Qed.

Lemma nets_weaken X s : nets_ok s -> nets_but X s.
Proof. intros [N1 N2 N3 N4 N5 N6 N7 N8 N9 N10 N11]. split; try done. intros u p k Hp _. by apply (N10 u p k). Qed.

Lemma step_refl s : net_step s s.
Proof. split; [done|lia|done]. Qed.

Lemma insert_net_run s u p k a : nets_but (Some p) s -> (p, k) ∈ hna_tree s u -> room base 1 (nd_rib s) -> tree_find comp a (tc_tree (nd_db s)) = Some u ->
  exists s' o, on_topo (olsr_insert_routing_table ip_version router_id (prefix k) (prefix_len k) a OLSR_RT_ORIGIN_HNA) s = Some (s', o) /\
    nets_ok s' /\ net_step s s' /\ hna_trees s' = hna_trees s /\ hnas s' = hnas s /\ get_timers s' = get_timers s.
Proof.
  intros N Hin Rm Hf. destruct (node_found _ _ _ (no_topo _ _ N) Hf) as (t & Ht & _). change (tcs (nd_db s) !! u = Some t) in Ht.
  destruct (insert_with_run _ (nd_topo s) (prefix k) (prefix_len k) a OLSR_RT_ORIGIN_HNA u t (locate_found _ _ _ Hf) Ht) as (o & E).
  set (kp := mkPfx (prefix k) (prefix_len k) OLSR_RT_ORIGIN_HNA) in *.
  assert (Ek : forall k', pcomp k' kp = 0 <-> pcomp k' k = 0) by (intros k'; by rewrite V6).
  destruct (Z.ltb_spec hostlen (prefix_len k)) as [Hl|Hl].
  { exists s, o. split; [by apply on_topo_get|]. split_and!; try done; [|apply step_refl]. apply (nets_fill _ p u k); [done..|]. lia. }
  destruct (tree_find ocomp kp (prefix_tree t)) as [q|] eqn:Eq.
  { exists s, o. split; [by apply on_topo_get|]. split_and!; try done; [|apply step_refl]. apply (nets_fill _ p u k); [done..|]. intros _.
    apply tree_find_Some in Eq as (k' & Hk' & Ec). apply (po_in _ _ (tb_prefix _ _ _ _ (no_table _ _ N)) u t q k' Ht) in Hk' as (r & Hr & Hu & <-).
    apply ocomp_eq in Ec as [Ec Eo]. exists q, r. split; [done|]. split; [by split|]. apply Ek. by apply comp_eq_sym; [apply _|]. }
  destruct (path_added_ok (nd_rib s) u t kp) as (Tb & To & Wf); [apply N|apply N|done|done|apply N|done|].
  set (w := path_added (nd_topo s) u t kp) in *. set (q := fresh (dom (rtps (nd_topo s)))) in *.
  assert (Hq : nd_paths s !! q = None) by apply not_elem_of_dom, is_fresh.
  exists (with_ntopo w s), o. split; [by apply on_topo_run|].
  assert (Hl' : forall q' r, nd_paths s !! q' = Some r -> nd_paths (with_ntopo w s) !! q' = Some r).
  { intros q' r Hr. unfold nd_paths, paths. simpl. rewrite lookup_insert_ne; [done|]. intros <-. unfold q in Hq. congruence. }
  assert (Hnew : exists r, nd_paths (with_ntopo w s) !! q = Some r /\ net_path u r /\ rtp_dst r = kp).
  { eexists. split; [unfold nd_paths, paths; simpl; by rewrite lookup_insert_eq|done]. }
  split_and!; try done.
  - destruct Hnew as (r & Hr & Hnp & Er). eapply (nets_fill _ p u k); [|done|intros _; exists q, r; split_and!; [done..|]; rewrite Er; by apply Ek, comp_refl; apply _].
    destruct N as [N1 N2 N3 N4 N5 N6 N7 N8 N9 N10 N11]. split; try done.
    + intros v p' k' Hv. destruct (N6 v p' k' Hv) as [tv Htv]. change (is_Some (tcs (tdb w) !! v)). simpl.
      destruct (decide (u = v)) as [<-|]; [by rewrite lookup_insert_eq|rewrite lookup_insert_ne; eauto].
    + intros v p' k' Hv Hx Hlen. destruct (N10 v p' k' Hv Hx Hlen) as (q' & r' & Hr' & ?). exists q', r'. split; [by apply Hl'|done].
    + intros q' r' v Hr' Hv. unfold nd_paths, paths in Hr'. simpl in Hr'. apply lookup_insert_Some in Hr' as [[<- <-]|[_ Hr']]; [|by apply (N11 q' r')].
      destruct Hv as [[= <-] _]. split; [done|]. exists p, k. split; [done|]. by apply Ek, comp_refl; apply _.
  - split; [split; try done| |done].
    + intros v. change (tcs (nd_db (with_ntopo w s))) with (tcs (tdb w)). simpl. destruct (decide (u = v)) as [<-|]; [|by rewrite lookup_insert_ne].
      by rewrite lookup_insert_eq, Ht.
    + unfold nd_paths at 1, paths at 1. simpl. rewrite (map_size_insert_None _ _ (nd_paths s)) by exact Hq. done.
Qed.

(** ** The update of an entry *)
Lemma nets_flag X s : nets_but X s -> nets_but X (with_ntopo (set_changes_hna true (nd_topo s)) s).
Proof.
  intros [N1 N2 N3 N4 N5 N6 N7 N8 N9 N10 N11]. split; try done; [by apply table_topo|]. by apply (topo_ok_core (nd_topo s)).
Qed.

(** The entry that the message names is there, with its sequence number. *)
Record net_named (s s' : nodes) (u p : loc) (k : olsr_ip_prefix) (q : Z) : Prop := {
  nn_tree : forall v e, e ∈ hna_tree s' v <-> (e = (p, k) /\ v = u) \/ e ∈ hna_tree s v;
  nn_seq : tc_entry_seqno <$> hnas s' !! p = Some q;
  nn_rest : forall p', p' <> p -> tc_entry_seqno <$> hnas s' !! p' = tc_entry_seqno <$> hnas s !! p'
}.

Lemma find_or_add_run s u t k : nets_ok s -> tcs (nd_db s) !! u = Some t ->
  exists s1 p k', (n ← olsr_lookup_hna_net ip_version u k;
    match n with
    | Some p => mret p
    | None => p ← olsr_add_hna_net ip_version u k; on_topo (se_mod (set_changes_hna true));; mret p
    end) s = Some (s1, p) /\ nets_but (Some p) s1 /\ net_step s s1 /\ pcomp k k' = 0 /\ nd_paths s1 = nd_paths s /\
    (forall v e, e ∈ hna_tree s1 v <-> (e = (p, k') /\ v = u) \/ e ∈ hna_tree s v) /\
    (forall p', p' <> p -> hnas s1 !! p' = hnas s !! p').
Proof.
  intros N Hu. unfold olsr_lookup_hna_net. erewrite bind_run by reflexivity. destruct (tree_find pcomp k (hna_tree s u)) as [p|] eqn:Ef.
  - apply tree_find_Some in Ef as (k' & Hk' & Ek). exists s, p, k'. split; [done|]. split_and!; try done; [by apply nets_weaken|apply step_refl|].
    intros v e. split; [by right|]. by intros [[-> ->]|?].
  - set (p := fresh (dom (hnas s))). assert (Hp : hnas s !! p = None) by apply not_elem_of_dom, is_fresh.
    exists (with_ntopo (set_changes_hna true (nd_topo s)) (net_added s u p k)), p, k.
    split; [erewrite bind_run by reflexivity; by erewrite bind_run by (by apply on_topo_run)|].
    split; [apply (nets_flag (Some p) (net_added s u p k)); by eapply net_added_ok|]. split; [split; [done|apply Nat.le_succ_diag_r|done]|].
    split; [apply comp_refl; apply _|]. split; [done|]. split.
    + intros v e. by apply (net_added_tree s u p k v e).
    + intros p' Hn. simpl. by rewrite lookup_insert_ne.
Qed.

Lemma step_trans s1 s2 s3 : net_step s1 s2 -> net_step s2 s3 -> (nd_paths s2 = nd_paths s1 \/ nd_paths s3 = nd_paths s2) -> net_step s1 s3.
Proof.
  intros [A1 A2 A3] [B1 B2 B3] E. split; [by eapply nodes_kept_trans| |congruence]. destruct E as [E|E]; rewrite E in *; lia.
Qed.

Lemma set_timer_run s u p k h v : nets_ok s -> (p, k) ∈ hna_tree s u -> hnas s !! p = Some h ->
  exists s', (ti ← se_get hna_net_timer_info; x ← on_timers (olsr_timer_set rnd (hna_net_timer h) v OLSR_HNA_NET_JITTER p ti); hna_wr p (set_hna_timer x)) s = Some (s', tt) /\
    nets_ok s' /\ net_step s s' /\ nd_paths s' = nd_paths s /\ hna_trees s' = hna_trees s /\
    forall p', tc_entry_seqno <$> hnas s' !! p' = tc_entry_seqno <$> hnas s !! p'.
Proof.
  intros N Hin Hp. erewrite bind_run by done.
  destruct (timer_set_run rnd (get_timers s) (hna_net_timer h) v OLSR_HNA_NET_JITTER p (hna_net_timer_info s)) as (T & x & R & Tok & SE & Hx & Hoth);
    [apply N..|done|intros y Hy; by apply (no_timer _ _ N u p k h)|].
  erewrite bind_run by (unfold on_timers; by rewrite R).
  exists (with_hna (hna_trees s) (<[p := set_hna_timer x h]> (hnas s)) (put_timers T s)). split; [unfold hna_wr; simpl; by rewrite Hp|].
  split_and!; try done.
  - eapply (nets_entry None s _ p h (set_hna_timer x h)); try done.
    + apply table_topo; [done..|apply N].
    + apply (topo_ok_core (nd_topo s)); try done. apply N.
    + apply (se_infos _ _ SE), N.
    + intros p' y Hn Hy. apply Hoth; [done|congruence].
  - split; [done|apply Nat.le_succ_diag_r|done].
  - intros p'. simpl. destruct (decide (p = p')) as [<-|]; [by rewrite lookup_insert_eq, Hp|by rewrite lookup_insert_ne].
Qed.

Lemma update_net_run s u t k a v q : nets_ok s -> tree_find comp a (tc_tree (nd_db s)) = Some u -> tcs (nd_db s) !! u = Some t -> room base 1 (nd_rib s) ->
  exists s' p k', olsr_update_hna_entry rnd ip_version router_id a k v q s = Some (s', tt) /\ nets_ok s' /\ net_step s s' /\
    pcomp k k' = 0 /\ net_named s s' u p k' q.
Proof.
  intros N Hf Hu Rm. unfold olsr_update_hna_entry. erewrite bind_run by (by apply on_topo_get, locate_found). erewrite bind_run by done.
  destruct (find_or_add_run s u t k N Hu) as (s1 & p & k' & R1 & N1 & S1 & Ek & EP1 & T1 & H1). apply bind_inv in R1 as (s0 & n & R0 & R1).
  erewrite bind_run by exact R0. erewrite bind_run by exact R1.
  assert (Hin1 : (p, k') ∈ hna_tree s1 u) by (apply T1; by left). destruct (no_in _ _ N1 u p k' Hin1) as (h & Hh & Ehk & Ehu).
  destruct (nets_wr_run (Some p) s1 p h (set_hna_seqno q) N1 Hh) as [R2 N2]; [done..|by exists u, k'|]. erewrite bind_run by exact R2.
  set (s2 := with_hna _ _ s1) in *. set (h2 := set_hna_seqno q h).
  assert (Hh2 : hnas s2 !! p = Some h2) by (simpl; by rewrite lookup_insert_eq).
  erewrite bind_run by (unfold hna_rd; by rewrite Hh2). destruct (nodes_kept_lookup s s1 u t (ns_kept _ _ S1) Hu) as (t1 & Ht1 & Ea & _).
  erewrite bind_run by (apply on_topo_get; unfold tc_rd; change (tcs (tdb (nd_topo s2))) with (tcs (nd_db s1)); by rewrite Ht1).
  assert (Ek2 : hna_prefix h2 = k') by done. rewrite Ek2.
  destruct (insert_net_run s2 u p k' (tc_addr t1)) as (s3 & o & R3 & N3 & S3 & ET3 & EH3 & _); [done|exact Hin1| |by apply (hna_find_node (nd_topo s2)); [apply N2|]|].
  { intros i. specialize (Rm i). change (paths (nd_rib s2)) with (nd_paths s1). change (routingtree (nd_rib s2)) with (routingtree (nd_rib s1)).
    rewrite EP1, (nk_rtree _ _ (ns_kept _ _ S1)). done. }
  erewrite bind_run by exact R3.
  assert (Et : forall v, hna_tree s3 v = hna_tree s1 v) by (intros w; unfold hna_tree; by rewrite ET3).
  destruct (set_timer_run s3 u p k' h2 v N3) as (s4 & R4 & N4 & S4 & EP4 & ET4 & EH4); [by rewrite Et|by rewrite EH3|].
  exists s4, p, k'. split; [exact R4|]. split; [done|]. split.
  { eapply step_trans; [|exact S4|by right]. apply (step_trans s s1 s3); [done| |by left]. apply (step_trans s1 s2 s3); [|done|by left].
    split; [done|apply Nat.le_succ_diag_r|done]. }
  split; [done|]. split.
  - intros w e. unfold hna_tree at 1. rewrite ET4. fold (hna_tree s3 w). rewrite Et. apply T1.
  - by rewrite EH4, EH3, Hh2.
  - intros p' Hn. rewrite EH4, EH3. simpl. rewrite lookup_insert_ne by done. by rewrite H1.
Qed.

(** ** The deletion of an entry *)
Lemma delete_table_run r k a u t : topo_ok (r_topo r) -> table_ok r -> tcs (tdb (r_topo r)) !! u = Some t -> tc_addr t = a -> tree_wf ocomp (prefix_tree t) ->
  let kp := mkPfx (prefix k) (prefix_len k) OLSR_RT_ORIGIN_HNA in
  exists r', olsr_delete_routing_table ip_version lq_nat_thresh (prefix k) (prefix_len k) a OLSR_RT_ORIGIN_HNA r = Some (r', tt) /\
    (r' = r /\ (hostlen < prefix_len k \/ tree_find ocomp kp (prefix_tree t) = None) \/
     exists q x r1, prefix_len k <= hostlen /\ tree_find ocomp kp (prefix_tree t) = Some q /\ paths r !! q = Some x /\ path_deleted ip_version lq_nat_thresh r q x r1 /\
       table_ok r1 /\ r' = with_topo (set_changes_hna true (r_topo r1)) r1).
Proof.
  intros To Tb Ht Ha Wf kp. unfold olsr_delete_routing_table. rewrite Z.gtb_ltb. destruct (Z.ltb_spec hostlen (prefix_len k)) as [Hl|Hl]; [exists r; auto|].
  erewrite bind_run by reflexivity. rewrite <- Ha, (hna_find_node _ u t To Ht). erewrite bind_run by reflexivity. erewrite bind_run by (by rewrite Ht).
  fold kp. destruct (tree_find ocomp kp (prefix_tree t)) as [q|] eqn:Eq; [|exists r; auto].
  pose proof (tree_find_Some ocomp _ _ _ Eq) as (k' & Hk' & _). apply (po_in _ _ (tb_prefix _ _ _ _ Tb) u t q k' Ht) in Hk' as (x & Hx & _).
  destruct (delete_path_run ip_version lq_nat_thresh base fib_view r q x Tb Hx) as (r1 & R & Tb1 & D). eexists. split; [by erewrite bind_run by exact R|].
  right. exists q, x, r1. by split_and!.
Qed.

(** A path that is deleted leaves the rest of the topology alone. *)
Lemma deleted_nets s r' q x p u k : nets_ok s -> (p, k) ∈ hna_tree s u -> paths (nd_rib s) !! q = Some x -> net_path u x -> pcomp (rtp_dst x) k = 0 ->
  path_deleted ip_version lq_nat_thresh (nd_rib s) q x r' -> table_ok r' ->
  let s1 := with_rib (with_topo (set_changes_hna true (r_topo r')) r') s in
  nets_but (Some p) s1 /\ net_step s s1 /\ get_timers s1 = get_timers s /\
  forall q' x', nd_paths s1 !! q' = Some x' -> net_path u x' -> pcomp (rtp_dst x') k <> 0.
Proof.
  intros N Hin Hq Hnp Hk D Tb s1. pose proof (pd_topo _ _ _ _ _ _ D) as EW. pose proof (pd_paths _ _ _ _ _ _ D) as EP.
  change (nd_paths s1) with (paths r'). rewrite EP.
  assert (ED : nd_db s1 = without_prefix q x (nd_db s)) by (unfold nd_db, nd_topo; simpl; by rewrite EW).
  assert (EN : get_timers s1 = get_timers s) by (unfold get_timers; simpl; unfold nd_topo; simpl; by rewrite EW).
  assert (Hl : forall v t', tcs (nd_db s1) !! v = Some t' -> exists t, tcs (nd_db s) !! v = Some t /\ (prefix_tree t' = prefix_tree t \/ prefix_tree t' = tree_delete q (prefix_tree t))).
  { intros v t'. rewrite ED, without_lookup. case_decide; [|eauto]. destruct (tcs (nd_db s) !! v) as [t|]; [|done]. intros [= <-]. eauto. }
  assert (Hc : forall v {B} (f : tc_entry -> B), (forall L t, f (set_prefix_tree L t) = f t) -> f <$> tcs (nd_db s1) !! v = f <$> tcs (nd_db s) !! v).
  { intros v B f Hf. rewrite ED, without_lookup. case_decide; [|done]. destruct (tcs (nd_db s) !! v); [|done]. simpl. by rewrite Hf. }
  assert (Et : tc_tree (nd_db s1) = tc_tree (nd_db s) /\ edges (nd_db s1) = edges (nd_db s)) by (rewrite ED; unfold without_prefix; by destruct (rtp_tc x)).
  assert (Hno : forall q' x', delete q (paths (nd_rib s)) !! q' = Some x' -> net_path u x' -> pcomp (rtp_dst x') k <> 0).
  { intros q' x' [Hn Hq']%lookup_delete_Some [Hu' Ho'] Hk'. destruct Hnp as [Hu Ho]. pose proof (tb_prefix _ _ _ _ (no_table _ _ N)) as PO.
    destruct (no_tc _ _ N u p k Hin) as [t Ht]. apply Hn.
    apply (tree_unique ocomp (prefix_tree t) q q' (rtp_dst x) (rtp_dst x')); [apply (no_ptree _ _ N u t Ht)|apply (po_in _ _ PO u t q _ Ht); eauto|apply (po_in _ _ PO u t q' _ Ht); eauto|].
    apply ocomp_eq. split; [|congruence]. eapply comp_eq_trans; [apply _|exact Hk|]. by apply comp_eq_sym; [apply _|]. }
  split_and!; [|split|exact EN|exact Hno].
  - destruct N as [N1 N2 N3 N4 N5 N6 N7 N8 N9 N10 N11]. split; rewrite ?EN; try done.
    + by apply table_topo.
    + apply (topo_ok_core (nd_topo s)); [done|apply Et..|unfold nd_topo; simpl; by rewrite EW|]. intros v. by apply Hc.
    + intros v t' (t & Ht & [->| ->])%Hl; [by apply (N3 v)|]. by apply tree_wf_delete, (N3 v).
    + intros v p' k' Hv. destruct (N6 v p' k' Hv) as [t Ht]. pose proof (Hc v _ tc_addr ltac:(done)) as E. rewrite Ht in E. by destruct (tcs (nd_db s1) !! v).
    + intros v p' k' Hv Hx Hlen. destruct (N10 v p' k' Hv ltac:(done) Hlen) as (q' & r & Hr & [Hu Ho] & Hk'). exists q', r. split; [|done].
      change (nd_paths s1) with (paths r'). rewrite EP, lookup_delete_ne; [done|]. intros <-. change (nd_paths s) with (paths (nd_rib s)) in Hr. rewrite Hq in Hr. injection Hr as <-.
      destruct Hnp as [Hu' _]. rewrite Hu' in Hu. injection Hu as <-. apply Hx. f_equal.
      apply (tree_unique pcomp (hna_tree s u) p p' k k'); [apply N4|done..|]. eapply comp_eq_trans; [apply _|by apply comp_eq_sym; [apply _|exact Hk]|done].
    + intros q' r v. change (nd_paths s1) with (paths r'). rewrite EP. intros [_ Hr]%lookup_delete_Some Hv. by apply (N11 q' r v).
  - split; [apply Et| |done|apply (pd_rest _ _ _ _ _ _ D)]. intros v. by apply Hc.
  - change (nd_paths s1) with (paths r'). rewrite EP, map_size_delete. change (paths (nd_rib s)) with (nd_paths s). destruct (nd_paths s !! q); simpl; lia.
  - unfold nd_topo. simpl. by rewrite EW.
Qed.

Lemma stop_timer_run s u p k h : nets_but (Some p) s -> (p, k) ∈ hna_tree s u -> hnas s !! p = Some h ->
  exists T, (match hna_net_timer h with Some t => olsr_timer_stop (Some t) | None => mret tt end) (get_timers s) = Some (T, tt) /\ timers_ok T /\
    same_env (get_timers s) T /\
    forall p' x, p' <> p -> timer_of (get_timers s) (hna_net_timer_info s) p' x -> timer_of T (hna_net_timer_info s) p' x.
Proof.
  intros N Hin Hp. destruct (hna_net_timer h) as [x|] eqn:Ex; [|exists (get_timers s); by split_and!; [|apply N|by split|]].
  destruct (no_timer _ _ N u p k h x Hin Hp Ex) as (tm & Htm & Hr & Hi & Hc).
  destruct (timer_stop_run (get_timers s) x tm (no_timers _ _ N) Htm Hr) as (T & R & Tok & SE & ET & _). exists T. split_and!; try done.
  intros p' y Hn (tm' & Htm' & Hr' & Hi' & Hc'). assert (x <> y) by (intros <-; congruence). exists tm'. split; [|done].
  rewrite ET. destruct (timer_in_callback tm); [by rewrite lookup_insert_ne|by rewrite lookup_delete_ne].
Qed.

(** The entry is gone, and with it its path. *)
Lemma net_removed_ok s s' u p k : nets_but (Some p) s -> (p, k) ∈ hna_tree s u ->
  (forall q x, nd_paths s !! q = Some x -> net_path u x -> pcomp (rtp_dst x) k <> 0) ->
  hna_trees s' = <[u := tree_delete p (hna_tree s u)]> (hna_trees s) -> hnas s' = delete p (hnas s) -> hna_net_timer_info s' = hna_net_timer_info s ->
  nd_paths s' = nd_paths s -> nd_db s' = nd_db s -> table_ok (nd_rib s') -> topo_ok (nd_topo s') -> timers_ok (get_timers s') ->
  is_Some (timer_infos (get_timers s') !! hna_net_timer_info s) ->
  (forall p' x, p' <> p -> timer_of (get_timers s) (hna_net_timer_info s) p' x -> timer_of (get_timers s') (hna_net_timer_info s) p' x) ->
  nets_ok s' /\ forall v e, e ∈ hna_tree s' v <-> e ∈ hna_tree s v /\ e.1 <> p.
Proof.
  intros [N1 N2 N3 N4 N5 N6 N7 N8 N9 N10 N11] Hin Hno ET EH EI EP ED Tb To Tm Ti Hoth.
  assert (Htr : forall v, hna_tree s' v = if decide (u = v) then tree_delete p (hna_tree s u) else hna_tree s v).
  { intros v. unfold hna_tree. rewrite ET. case_decide; [subst; by rewrite lookup_insert_eq|by rewrite lookup_insert_ne]. }
  assert (He : forall v e, e ∈ hna_tree s' v <-> e ∈ hna_tree s v /\ e.1 <> p).
  { intros v e. rewrite Htr. case_decide as E; [subst v; rewrite elem_of_tree_delete; naive_solver|]. split; [|naive_solver]. intros Hv. split; [done|].
    intros Ep. destruct e as [p' k']. simpl in Ep. subst p'. destruct (N5 u p k Hin) as (h & Hh & _ & Hu), (N5 v p k' Hv) as (h' & Hh' & _ & Hv').
    rewrite Hh in Hh'. injection Hh' as <-. congruence. }
  split; [|done]. split; rewrite ?EP, ?ED, ?EI; try done.
  - intros v. rewrite Htr. case_decide; [by apply tree_wf_delete|done].
  - intros v q k' [Hq Hn]%He. simpl in Hn. destruct (N5 v q k' Hq) as (h & Hh & ?). exists h. rewrite EH, lookup_delete_ne by done. done.
  - intros v q k' [Hq _]%He. by apply (N6 v q k').
  - intros v q k' h x [Hq Hn]%He. simpl in Hn. rewrite EH, lookup_delete_ne by done. intros Hh Hx. apply Hoth; [done|]. by apply (N9 v q k' h).
  - intros v q k' [Hq Hn]%He _ Hl. simpl in Hn. apply (N10 v q k' Hq); [congruence|done].
  - intros q x v Hq Hv. destruct (N11 q x v Hq Hv) as (Hl & p' & k' & Hp' & Ek). split; [done|]. exists p', k'. split; [|done]. apply He. split; [done|].
    simpl. intros ->. destruct (N5 u p k Hin) as (h & Hh & Hk & Hu), (N5 v p k' Hp') as (h' & Hh' & Hk' & Hv').
    rewrite Hh in Hh'. injection Hh' as <-. apply (Hno q x Hq); congruence.
Qed.

Lemma delete_net_run s u p k : nets_ok s -> (p, k) ∈ hna_tree s u ->
  exists s', olsr_delete_hna_net ip_version lq_nat_thresh p s = Some (s', tt) /\ nets_ok s' /\ net_step s s' /\
    (forall v e, e ∈ hna_tree s' v <-> e ∈ hna_tree s v /\ e.1 <> p) /\ forall p', p' <> p -> hnas s' !! p' = hnas s !! p'.
Proof.
  intros N Hin. destruct (no_in _ _ N u p k Hin) as (h & Hh & Ek & Eu). destruct (no_tc _ _ N u p k Hin) as [t Ht].
  unfold olsr_delete_hna_net. erewrite bind_run by (unfold hna_rd; by rewrite Hh). rewrite Ek, Eu.
  erewrite bind_run by (apply on_topo_get; unfold tc_rd; change (tcs (tdb (nd_topo s))) with (tcs (nd_db s)); by rewrite Ht).
  destruct (delete_table_run (nd_rib s) k (tc_addr t) u t) as (r' & R & Hr); [apply N|apply N|done|done|by apply (no_ptree _ _ N u)|].
  erewrite bind_run by (by apply on_rib_run). set (s1 := with_rib r' s).
  assert (nets_but (Some p) s1 /\ net_step s s1 /\ forall q' x', nd_paths s1 !! q' = Some x' -> net_path u x' -> pcomp (rtp_dst x') k <> 0) as (N1 & S1 & Hno).
  { destruct Hr as [[-> Hl]|(q & x & r1 & Hl & Ef & Hx & D & Tb & ->)].
    - assert (Es : s1 = s) by (by destruct s). rewrite Es. split_and!; [by apply nets_weaken|apply step_refl|]. intros q x Hq Hnp Hc.
      destruct (no_net _ _ N q x u Hq Hnp) as (Hl' & _). destruct Hl as [Hl|Hl]; [by rewrite (prefix_len_comp _ _ _ Hc) in Hl'; lia|].
      destruct Hnp as [Hu Ho]. apply (proj1 (tree_find_None ocomp _ _) Hl q (rtp_dst x)).
      { apply (po_in _ _ (tb_prefix _ _ _ _ (no_table _ _ N)) u t q _ Ht). by exists x. }
      apply ocomp_eq. split; [|done]. apply comp_eq_sym; [apply _|]. by rewrite V6 in *.
    - assert (net_path u x /\ pcomp (rtp_dst x) k = 0) as [Hnp Hc].
      { apply tree_find_Some in Ef as (k' & Hk' & Ec). apply (po_in _ _ (tb_prefix _ _ _ _ (no_table _ _ N)) u t q k' Ht) in Hk' as (x' & Hx' & Hu & <-).
        change (nd_paths s) with (paths (nd_rib s)) in *. rewrite Hx in Hx'. injection Hx' as <-. apply ocomp_eq in Ec as [Ec Eo]. split; [by split|].
        apply comp_eq_sym; [apply _|]. by rewrite V6 in *. }
      destruct (deleted_nets s r1 q x p u k N Hin Hx Hnp Hc D Tb) as (? & ? & _ & ?). by split_and!. }
  erewrite bind_run by reflexivity.
  destruct (stop_timer_run s1 u p k h N1 Hin Hh) as (T & RT & Tok & SE & Hoth).
  set (s2 := with_hna _ _ s1). erewrite bind_run with (s' := put_timers T s2).
  2: { destruct (hna_net_timer h) as [x|]; [unfold on_timers; change (get_timers s2) with (get_timers s1); by rewrite RT|].
       injection RT as <-. unfold s2, s1. clear. by destruct r' as [[]]. }
  exists (with_hna (hna_trees s2) (delete p (hnas s2)) (put_timers T s2)). split; [reflexivity|].
  destruct (net_removed_ok s1 (with_hna (hna_trees s2) (delete p (hnas s2)) (put_timers T s2)) u p k N1 Hin Hno) as [N3 He]; try done.
  - apply table_topo; [done..|apply N1].
  - apply (topo_ok_core (nd_topo s1)); try done. apply N1.
  - apply (se_infos _ _ SE), N1.
  - split_and!; [done| |done|]; [|intros p' Hn; simpl; by rewrite lookup_delete_ne]. destruct S1 as [[A1 A2 A3 A4] A5 A6]. split; [by split|exact A5|exact A6].
Qed.

(** ** Runs of several operations *)
Definition net_steps (n : nat) (s s' : nodes) : Prop := nodes_kept s s' /\ (size (nd_paths s') <= n + size (nd_paths s))%nat /\
  t_nbh (with_tdb (mkDb [] ∅ ∅ None) (nd_topo s')) = t_nbh (with_tdb (mkDb [] ∅ ∅ None) (nd_topo s)).
Lemma net_steps_cons n s1 s2 s3 : net_step s1 s2 -> net_steps n s2 s3 -> net_steps (S n) s1 s3.
Proof. intros [A1 A2 A3] (B1 & B2 & B3). split; [by eapply nodes_kept_trans|]. split; [lia|congruence]. Qed.
Lemma net_steps_refl s : net_steps 0 s s.
Proof. by split. Qed.

Definition seq_of (s : nodes) (p : loc) : option Z := tc_entry_seqno <$> hnas s !! p.

(** The entries that the last message did not name are removed. *)
Lemma prune_run u q L : forall s t, nets_ok s -> tcs (nd_db s) !! u = Some t -> hna_seq t = q -> NoDup L.*1 -> (forall e, e ∈ L -> e ∈ hna_tree s u) ->
  exists s', prune_hna ip_version lq_nat_thresh u L s = Some (s', tt) /\ nets_ok s' /\ net_steps (length L) s s' /\
    (forall v e, e ∈ hna_tree s' v <-> e ∈ hna_tree s v /\ ~ (e.1 ∈ L.*1 /\ seq_of s e.1 <> Some q)) /\
    (forall v e, e ∈ hna_tree s' v -> seq_of s' e.1 = seq_of s e.1).
Proof.
  induction L as [|[p k] L IH]; intros s t N Ht Hq ND HL.
  { exists s. split; [done|]. split; [done|]. split; [apply net_steps_refl|]. split; [|done]. intros v e. split; [|by intros []]. intros He. split; [done|]. by intros [?%elem_of_nil _]. }
  cbn [prune_hna fst]. apply NoDup_cons in ND as [Hp ND]. simpl in Hp.
  assert (Hin : (p, k) ∈ hna_tree s u) by (apply HL; left). destruct (no_in _ _ N u p k Hin) as (h & Hh & _).
  erewrite bind_run by (unfold hna_rd; by rewrite Hh).
  erewrite bind_run by (apply on_topo_get; unfold tc_rd; change (tcs (tdb (nd_topo s))) with (tcs (nd_db s)); by rewrite Ht).
  assert (Eseq : seq_of s p = Some (tc_entry_seqno h)) by (unfold seq_of; by rewrite Hh). rewrite Hq.
  destruct (Z.eqb_spec (tc_entry_seqno h) q) as [E|E]; simpl negb; cbv iota.
  - erewrite bind_run by done. destruct (IH s t N Ht Hq ND) as (s' & R & N' & S' & He & Hk); [intros e Hel; apply HL; by right|].
    exists s'. split; [done|]. split; [done|]. split; [destruct S' as (? & ? & ?); split_and!; try done; simpl; lia|]. split; [|done]. intros v e. rewrite He. cbn [fmap list_fmap fst]. rewrite elem_of_cons.
    split; intros [Hv Hn]; (split; [done|]); [|tauto]. intros [[->|?] Hs]; [|tauto]. rewrite Eseq in Hs. congruence.
  - destruct (delete_net_run s u p k N Hin) as (s1 & R1 & N1 & S1 & He1 & Hoth). erewrite bind_run by exact R1.
    destruct (nodes_kept_lookup s s1 u t (ns_kept _ _ S1) Ht) as (t1 & Ht1 & _ & Hq1).
    destruct (IH s1 t1 N1 Ht1) as (s' & R & N' & S' & He & Hk); [congruence|done|intros e Hel; apply He1; split; [apply HL; by right|]|].
    { intros E'. apply Hp. rewrite <- E'. apply list_elem_of_fmap. by exists e. }
    exists s'. split; [done|]. split; [done|]. split; [by eapply net_steps_cons|]. split.
    2: { intros v e Hv. rewrite (Hk v e Hv). apply He in Hv as [Hv _]. apply He1 in Hv as [_ Hn]. unfold seq_of. by rewrite Hoth. }
    intros v e. rewrite He, He1. cbn [fmap list_fmap fst]. rewrite elem_of_cons.
    unfold seq_of in *. split.
    + intros [[Hv Hn] Hm]. split; [done|]. intros [[?|Hel] Hs]; [done|]. apply Hm. rewrite Hoth by done. done.
    + intros [Hv Hm]. assert (e.1 <> p) as Hn by (intros E'; apply Hm; rewrite E', Eseq; split; [by left|congruence]).
      split; [done|]. rewrite Hoth by done. tauto.
Qed.

(** The networks that a message names, as the loop reads them. *)
Fixpoint announced (fuel : nat) (left : Z) (curr : list Z) (pfx : olsr_ip_prefix) : option (list olsr_ip_prefix) :=
  match fuel with
  | O => None
  | S fuel =>
    if 2 * Z.of_nat ipsize <=? left then
      r ← get_hna_net pfx curr;
      L ← announced fuel (left - 2 * Z.of_nat ipsize) r.1 r.2;
      Some (r.2 :: L)
    else Some []
  end.

(** The entries of node [u] after the networks [L] have been named. *)
Record nets_named (s s' : nodes) (u : loc) (L : list olsr_ip_prefix) (q : Z) : Prop := {
  na_other : forall v e, v <> u -> e ∈ hna_tree s' v <-> e ∈ hna_tree s v;
  na_old : forall e, e ∈ hna_tree s u -> e ∈ hna_tree s' u;
  na_named : forall k, k ∈ L -> exists p k', (p, k') ∈ hna_tree s' u /\ pcomp k k' = 0 /\ seq_of s' p = Some q;
  na_only : forall p k', (p, k') ∈ hna_tree s' u -> (exists k, k ∈ L /\ pcomp k k' = 0) \/ (p, k') ∈ hna_tree s u /\ seq_of s' p = seq_of s p;
  na_seq : forall p, seq_of s p = Some q -> seq_of s' p = Some q;
  na_keep : forall p, (forall k, (p, k) ∉ hna_tree s' u) -> seq_of s' p = seq_of s p
}.

Lemma named_cons s s1 s' u p k k' L q : NoDup (hna_tree s1 u).*1 -> pcomp k k' = 0 -> net_named s s1 u p k' q -> nets_named s1 s' u L q -> nets_named s s' u (k :: L) q.
Proof.
  intros ND Ek [A1 A2 A3] [B1 B2 B3 B4 B5 B6]. split.
  - intros v e Hv. rewrite B1, A1 by done. naive_solver.
  - intros e He. apply B2, A1. by right.
  - intros k0 [->|Hk]%elem_of_cons; [|by apply B3]. exists p, k'. split; [apply B2, A1; by left|]. split; [done|]. by apply B5.
  - intros p' k0 [(k1 & Hk1 & E)|[Hin E]]%B4; [left; exists k1; split; [by right|done]|]. apply A1 in Hin as [[[= -> ->] _]|Hin].
    + left. exists k. split; [left|done].
    + destruct (decide (p' = p)) as [->|Hn]; [|right; split; [done|]; by rewrite E; apply A3]. left. exists k. split; [left|].
      rewrite (tree_unique_fst (hna_tree s1 u) p k0 k'); [done..|apply A1; by right|apply A1; by left].
  - intros p' Hp. apply B5. destruct (decide (p' = p)) as [->|Hn]; [done|]. unfold seq_of in *. by rewrite A3.
  - intros p' Hp. rewrite (B6 p' Hp). apply A3. intros ->. apply (Hp k'), B2, A1. by left.
Qed.

Lemma input_nets_run u msg fuel : forall left curr pfx s t L, announced fuel left curr pfx = Some L -> nets_ok s ->
  tree_find comp (originator msg) (tc_tree (nd_db s)) = Some u -> tcs (nd_db s) !! u = Some t -> room base (Z.of_nat (length L)) (nd_rib s) ->
  exists s', input_hna_nets fuel msg left curr pfx s = Some (s', tt) /\ nets_ok s' /\ net_steps (length L) s s' /\
    nets_named s s' u (filter (fun k => is_own k = false) L) (seqno msg).
Proof.
  induction fuel as [|fuel IH]; intros left curr pfx s t L HL N Hf Ht Rm; [done|]. cbn [announced input_hna_nets] in *.
  destruct (2 * Z.of_nat ipsize <=? left).
  2: { injection HL as <-. exists s. split; [done|]. split; [done|]. split; [apply net_steps_refl|].
       split; try done; [by intros k ?%elem_of_nil|]. intros p k' Hp. by right. }
  destruct (get_hna_net pfx curr) as [[curr' k]|] eqn:Eg; [|done]. simpl in HL.
  destruct (announced fuel _ curr' k) as [L'|] eqn:EL; [|done]. simpl in HL. injection HL as <-. erewrite bind_run by done.
  rewrite filter_cons. destruct (is_own k) eqn:Eo; simpl negb; cbv iota.
  - rewrite decide_False by done. erewrite bind_run by done. destruct (IH _ _ _ s t L' EL N Hf Ht) as (s' & R & N' & (S1 & S2 & S3) & A).
    { intros i. specialize (Rm i). simpl in Rm. lia. }
    exists s'. split; [exact R|]. split; [done|]. split; [split_and!; try done; simpl; lia|done].
  - rewrite decide_True by done.
    destruct (update_net_run s u t k (originator msg) (vtime msg) (seqno msg) N Hf Ht) as (s1 & p & k' & R1 & N1 & S1 & Ek & A1).
    { intros i. specialize (Rm i). simpl in Rm. lia. }
    erewrite bind_run by exact R1. destruct (nodes_kept_lookup s s1 u t (ns_kept _ _ S1) Ht) as (t1 & Ht1 & _).
    destruct (IH _ _ _ s1 t1 L' EL N1) as (s' & R & N' & S' & A); [by rewrite (nk_tree _ _ (ns_kept _ _ S1))|done| |].
    { intros i. specialize (Rm i). simpl length in Rm. pose proof (ns_size _ _ S1). change (nd_paths s) with (paths (nd_rib s)) in *.
      change (nd_paths s1) with (paths (nd_rib s1)) in *. rewrite (nk_rtree _ _ (ns_kept _ _ S1)). lia. }
    exists s'. split; [exact R|]. split; [done|]. split; [by eapply net_steps_cons|]. eapply named_cons; [apply (no_wf _ _ N1 u)|exact Ek|exact A1|exact A].
Qed.

(** ** The node of the originator *)
Context (Hid : ipcmp ip_version router_id all_zero <> 0).

Definition node_added (w : topo) (p : loc) (a : ip_addr) : topo :=
  with_tdb (with_tc_tree (tree_insert comp false a p (tc_tree (tdb w))) (with_tcs (<[p := new_tc a]> (tcs (tdb w))) (tdb w))) w.

Lemma node_added_ok s p a : nets_ok s -> tcs (nd_db s) !! p = None -> tree_find comp a (tc_tree (nd_db s)) = None ->
  nets_ok (with_ntopo (node_added (nd_topo s) p a) s).
Proof.
  intros N Hp Hf. pose proof N as [N1 N2 N3 N4 N5 N6 N7 N8 N9 N10 N11]. set (w := node_added (nd_topo s) p a).
  assert (Hl : forall v, tcs (tdb w) !! v = if decide (p = v) then Some (new_tc a) else tcs (nd_db s) !! v).
  { intros v. simpl. case_decide; [subst; by rewrite lookup_insert_eq|by rewrite lookup_insert_ne]. }
  split; try done.
  - destruct N1 as [[R1 R2 R3 R4 R5 R6 R7 R8] S PO]. split; [by split|done|]. change (prefix_ok (tdb w) (nd_paths s)). split.
    + intros v t. rewrite Hl. case_decide; [intros [= <-]; constructor|]. by apply (po_nodup _ _ PO v).
    + intros v t q k. rewrite Hl. case_decide as E; [|by apply (po_in _ _ PO)]. intros [= <-]. subst v. split; [by intros ?%elem_of_nil|].
      intros (r & Hr & Hu & _). destruct (po_tc _ _ PO q r p Hr Hu) as [t Ht]. change (tcs (tdb (r_topo (nd_rib s)))) with (tcs (nd_db s)) in Ht. congruence.
    + intros q r v Hq Hv. rewrite Hl. case_decide; [done|]. by apply (po_tc _ _ PO q r).
    + apply PO.
  - split; [|apply N2]. unfold shape. simpl. rewrite fmap_insert.
    apply (add_node_wf comp _ p a (ok_graph _ _ N2)); [|done]. simpl. change (tcs (tdb (nd_topo s))) with (tcs (nd_db s)). by rewrite lookup_fmap, Hp.
  - intros v t. change (tcs (nd_db (with_ntopo w s))) with (tcs (tdb w)). rewrite Hl. case_decide; [|by apply N3]. intros [= <-]. by split; constructor.
  - intros v q k Hq. change (tcs (nd_db (with_ntopo w s))) with (tcs (tdb w)). rewrite Hl. case_decide; [done|]. by apply (N6 v q k).
Qed.

Lemma other_path_ok s u t k : nets_ok s -> tcs (nd_db s) !! u = Some t -> room base 1 (nd_rib s) -> tree_find ocomp k (prefix_tree t) = None ->
  prefix_origin k <> OLSR_RT_ORIGIN_HNA -> nets_ok (with_ntopo (path_added (nd_topo s) u t k) s).
Proof.
  intros N Ht Rm Hf Ho. destruct (path_added_ok (nd_rib s) u t k) as (Tb & To & Wf); [apply N|apply N|done|done|apply N|done|].
  set (w := path_added (nd_topo s) u t k) in *. set (q := fresh (dom (rtps (nd_topo s)))) in *.
  assert (Hq : nd_paths s !! q = None) by apply not_elem_of_dom, is_fresh.
  destruct N as [N1 N2 N3 N4 N5 N6 N7 N8 N9 N10 N11]. split; try done.
  - intros v p' k' Hv. destruct (N6 v p' k' Hv) as [tv Htv]. change (is_Some (tcs (tdb w) !! v)). simpl.
    destruct (decide (u = v)) as [<-|]; [by rewrite lookup_insert_eq|rewrite lookup_insert_ne; eauto].
  - intros v p' k' Hv Hx Hlen. destruct (N10 v p' k' Hv Hx Hlen) as (q' & r' & Hr' & ?). exists q', r'. split; [|done].
    unfold nd_paths, paths. simpl. rewrite lookup_insert_ne; [done|]. intros <-. unfold q in Hq. congruence.
  - intros q' r' v Hr' Hv. unfold nd_paths, paths in Hr'. simpl in Hr'. apply lookup_insert_Some in Hr' as [[<- <-]|[_ Hr']]; [|by apply (N11 q' r')].
    by destruct Hv as [_ Hv].
Qed.

(** The node of the originator, which is created when it is not known. *)
Lemma locate_run s a : nets_ok s -> room base 1 (nd_rib s) ->
  exists w u t, olsr_locate_tc_entry ip_version router_id a (nd_topo s) = Some (w, Some u) /\ nets_ok (with_ntopo w s) /\
    tcs (tdb w) !! u = Some t /\ tree_find comp a (tc_tree (tdb w)) = Some u /\
    (size (rtps w) <= S (size (nd_paths s)))%nat /\
    t_nbh (with_tdb (mkDb [] ∅ ∅ None) w) = t_nbh (with_tdb (mkDb [] ∅ ∅ None) (nd_topo s)) /\
    (forall v t', v <> u -> tcs (tdb w) !! v = Some t' -> tcs (nd_db s) !! v = Some t') /\
    (tree_find comp a (tc_tree (nd_db s)) = Some u /\ w = nd_topo s \/ tree_find comp a (tc_tree (nd_db s)) = None /\ hna_seq t = -1 /\ forall e, e ∉ hna_tree s u).
Proof.
  intros N Rm. destruct (tree_find comp a (tc_tree (nd_db s))) as [u|] eqn:Ef.
  - destruct (node_found _ _ _ (no_topo _ _ N) Ef) as (t & Ht & _). exists (nd_topo s), u, t. split; [by apply locate_found|].
    split; [by destruct s as [[]]|]. split_and!; [done|done|apply Nat.le_succ_diag_r|done|done|by left].
  - unfold olsr_locate_tc_entry, olsr_lookup_tc_entry. erewrite bind_run by reflexivity. change (tdb (nd_topo s)) with (nd_db s). rewrite Ef.
    unfold olsr_add_tc_entry. cbn [add_tc_entry]. rewrite (proj2 (Z.eqb_neq _ 0) Hid). erewrite bind_run by reflexivity. erewrite bind_run by reflexivity.
    set (p := fresh (dom (tcs (tdb (nd_topo s))))). assert (Hp : tcs (nd_db s) !! p = None) by apply not_elem_of_dom, is_fresh.
    set (w1 := with_tdb _ (nd_topo s)). change (with_tdb _ (nd_topo s)) with (node_added (nd_topo s) p a) in w1.
    pose proof (node_added_ok s p a N Hp Ef) as N1. set (s1 := with_ntopo w1 s) in *.
    assert (H1 : tcs (tdb w1) !! p = Some (new_tc a)) by (simpl; by rewrite lookup_insert_eq).
    assert (F1 : tree_find comp a (tc_tree (tdb w1)) = Some p).
    { apply (hna_find_node w1 p (new_tc a)); [apply N1|done]. }
    match goal with |- context [olsr_insert_routing_table_with _ ?f a] => set (lc := f) end. assert (RL : lc a w1 = Some (w1, Some p)).
    { unfold lc. erewrite bind_run by reflexivity. by rewrite F1. }
    destruct (insert_with_run lc w1 a hostlen a OLSR_RT_ORIGIN_TC p (new_tc a) RL H1) as (o & R). rewrite Z.ltb_irrefl in R. simpl tree_find in R.
    erewrite bind_run by exact R. set (w2 := set_changes_hna true _).
    pose proof (other_path_ok s1 p (new_tc a) (mkPfx a hostlen OLSR_RT_ORIGIN_TC) N1 H1) as N2.
    exists w2, p. eexists. split; [reflexivity|]. split; [apply N2; done|]. split; [simpl; by rewrite lookup_insert_eq|].
    split; [exact F1|]. split.
    + simpl. rewrite map_size_insert_None; [done|]. apply not_elem_of_dom, is_fresh.
    + split; [done|]. split; [intros v t' Hv; simpl; by rewrite !lookup_insert_ne|].
      right. split_and!; [done..|]. intros [q k] Hq. destruct (no_tc _ _ N p q k Hq) as [t Ht]. congruence.
Qed.

Lemma set_seq_ok s u t q : nets_ok s -> tcs (nd_db s) !! u = Some t ->
  let w := with_tdb (with_tcs (<[u := set_hna_seq_of q t]> (tcs (nd_db s))) (nd_db s)) (nd_topo s) in nets_ok (with_ntopo w s).
Proof.
  intros [N1 N2 N3 N4 N5 N6 N7 N8 N9 N10 N11] Ht w.
  assert (Hl : forall v, tcs (tdb w) !! v = if decide (u = v) then Some (set_hna_seq_of q t) else tcs (nd_db s) !! v).
  { intros v. simpl. case_decide; [subst; by rewrite lookup_insert_eq|by rewrite lookup_insert_ne]. }
  split; try done.
  - destruct N1 as [[R1 R2 R3 R4 R5 R6 R7 R8] S PO]. split; [by split|done|]. change (prefix_ok (tdb w) (nd_paths s)). split.
    + intros v t'. rewrite Hl. case_decide as E; [intros [= <-]; exact (po_nodup _ _ PO u t Ht)|by apply (po_nodup _ _ PO v)].
    + intros v t' p k. rewrite Hl. case_decide as E; [intros [= <-]; rewrite <- E; exact (po_in _ _ PO u t p k Ht)|by apply (po_in _ _ PO v)].
    + intros p r v Hp Hv. rewrite Hl. case_decide; [done|]. by apply (po_tc _ _ PO p r).
    + apply PO.
  - apply (topo_ok_core (nd_topo s)); try done. intros v. rewrite Hl. case_decide as E; [rewrite <- E; change (tcs (tdb (nd_topo s))) with (tcs (nd_db s)); by rewrite Ht|done].
  - intros v t'. change (tcs (nd_db (with_ntopo w s))) with (tcs (tdb w)). rewrite Hl. case_decide as E; [intros [= <-]; exact (N3 u t Ht)|by apply (N3 v)].
  - intros v p k Hp. change (tcs (nd_db (with_ntopo w s))) with (tcs (tdb w)). rewrite Hl. case_decide; [done|]. by apply (N6 v p k).
Qed.

(** ** HNA messages *)
Lemma get_net_run pfx curr : (2 * ipsize <= length curr)%nat -> exists k, get_hna_net pfx curr = Some (drop (2 * ipsize) curr, k).
Proof.
  intros H. unfold get_hna_net, pkt_get_ipaddress, pkt_get_prefixlen. eexists.
  erewrite bind2_run by (unfold pkt_bytes; by rewrite decide_True by lia). erewrite bind_run by reflexivity.
  erewrite bind2_run by (unfold pkt_bytes; by rewrite decide_True by (rewrite length_drop; lia)). erewrite bind_run by reflexivity.
  rewrite drop_drop. replace (ipsize + ipsize)%nat with (2 * ipsize)%nat by lia. reflexivity.
Qed.

Lemma announced_some fuel : forall left curr pfx, left <= Z.of_nat (length curr) -> (length curr < fuel)%nat ->
  exists L, announced fuel left curr pfx = Some L /\ (length L <= length curr)%nat.
Proof.
  induction fuel as [|fuel IH]; intros left curr pfx Hl Hf; [lia|]. cbn [announced]. destruct (Z.leb_spec (2 * Z.of_nat ipsize) left); [|exists []; simpl; split; [done|lia]].
  destruct (get_net_run pfx curr) as (k & ->); [lia|]. simpl. pose proof (tc_ipsize_pos ip_version).
  destruct (IH (left - 2 * Z.of_nat ipsize) (drop (2 * ipsize) curr) k) as (L & E & HL); [rewrite length_drop; lia..|].
  change (ipsize + (ipsize + 0))%nat with (2 * ipsize)%nat. rewrite E. exists (k :: L). split; [done|]. simpl. rewrite length_drop in HL. lia.
Qed.

Definition announced_nets (msg : olsr_message) (body : list Z) (garbage : olsr_ip_prefix) : list olsr_ip_prefix :=
  default [] (announced (S (length body)) (end_ msg - payload msg) body garbage).

(** Between two messages the networks of a node are those of its last message. *)
Definition seqs_ok (s : nodes) : Prop := forall u p k t, (p, k) ∈ hna_tree s u -> tcs (nd_db s) !! u = Some t -> seq_of s p = Some (hna_seq t).

(** The message is not older than the last one of its originator. *)
Definition hna_new (msg : olsr_message) (status : duplicate_status) (t : tc_entry) : bool :=
  bool_decide (status = RESET_SEQNO_OLSR_MESSAGE) || (hna_seq t =? -1) || (0 <? olsr_seqno_diff (seqno msg) (hna_seq t)).

Definition same_nets (s s' : nodes) (v : loc) : Prop := forall e, e ∈ hna_tree s' v <-> e ∈ hna_tree s v.

(** The networks of [u] are those of the message. *)
Definition nets_of_message (s s' : nodes) (u : loc) (msg : olsr_message) (L : list olsr_ip_prefix) : Prop :=
  (exists t, tcs (nd_db s') !! u = Some t /\ hna_seq t = seqno msg) /\
  (forall d, (exists p k, (p, k) ∈ hna_tree s' u /\ pcomp d k = 0) <-> exists k, k ∈ L /\ is_own k = false /\ pcomp d k = 0) /\
  forall v, v <> u -> same_nets s s' v.

Lemma accept_run s u t msg body garbage : nets_ok s -> seqs_ok s -> tree_find comp (originator msg) (tc_tree (nd_db s)) = Some u -> tcs (nd_db s) !! u = Some t ->
  (hna_seq t <> seqno msg) -> end_ msg - payload msg <= Z.of_nat (length body) -> room base (Z.of_nat (length body)) (nd_rib s) ->
  exists s', (on_topo (tc_wr u (set_hna_seq_of (seqno msg)));;
     input_hna_nets (S (length body)) msg (end_ msg - payload msg) body garbage;; olsr_prune_hna_entries ip_version lq_nat_thresh u) s = Some (s', tt) /\
    nets_ok s' /\ seqs_ok s' /\ nets_of_message s s' u msg (announced_nets msg body garbage) /\
    t_nbh (with_tdb (mkDb [] ∅ ∅ None) (nd_topo s')) = t_nbh (with_tdb (mkDb [] ∅ ∅ None) (nd_topo s)) /\ tc_tree (nd_db s') = tc_tree (nd_db s).
Proof.
  intros N SQ Hf Ht Hne Hl Rm. set (q := seqno msg). destruct (announced_some (S (length body)) (end_ msg - payload msg) body garbage Hl ltac:(lia)) as (L & EL & HL).
  assert (announced_nets msg body garbage = L) as -> by (unfold announced_nets; by rewrite EL).
  pose proof (set_seq_ok s u t q N Ht) as N1. set (w := with_tdb _ (nd_topo s)) in N1. set (s1 := with_ntopo w s) in *.
  erewrite bind_run by (apply on_topo_run; unfold tc_wr; change (tcs (tdb (nd_topo s))) with (tcs (nd_db s)); rewrite Ht; reflexivity).
  fold w s1. assert (Ht1 : tcs (nd_db s1) !! u = Some (set_hna_seq_of q t)) by (unfold nd_db; simpl; by rewrite lookup_insert_eq).
  destruct (input_nets_run u msg (S (length body)) _ body garbage s1 _ L EL N1 Hf Ht1) as (s2 & R2 & N2 & (K2 & _ & E2) & A).
  { intros i. specialize (Rm i). change (paths (nd_rib s1)) with (paths (nd_rib s)). change (routingtree (nd_rib s1)) with (routingtree (nd_rib s)). lia. }
  erewrite bind_run by exact R2. unfold olsr_prune_hna_entries. erewrite bind_run by reflexivity.
  destruct (nodes_kept_lookup s1 s2 u _ K2 Ht1) as (t2 & Ht2 & _ & Hq2). simpl in Hq2.
  destruct (prune_run u q (hna_tree s2 u) s2 t2 N2 Ht2 Hq2) as (s3 & R3 & N3 & (K3 & _ & E3) & He & Hk); [apply (no_wf _ _ N2 u)|done|].
  exists s3. split; [exact R3|]. split; [done|]. destruct (nodes_kept_lookup s2 s3 u t2 K3 Ht2) as (t3 & Ht3 & _ & Hq3).
  assert (Hown : forall v e, v <> u -> e ∈ hna_tree s3 v <-> e ∈ hna_tree s v).
  { intros v e Hv. rewrite He. rewrite (na_other _ _ _ _ _ A v e Hv). change (hna_tree s1 v) with (hna_tree s v). split; [by intros []|]. intros Hin. split; [done|].
    intros [Hu _]. destruct e as [p k]. apply elem_fst in Hu as [k' Hu]. apply (na_other _ _ _ _ _ A v (p, k) Hv) in Hin.
    destruct (no_in _ _ N2 v p k Hin) as (h & Hh & _ & E), (no_in _ _ N2 u p k' Hu) as (h' & Hh' & _ & E'). congruence. }
  assert (Hu : forall p k, (p, k) ∈ hna_tree s3 u <-> (p, k) ∈ hna_tree s2 u /\ seq_of s2 p = Some q).
  { intros p k. rewrite He. simpl. split; intros [Hin H]; (split; [done|]); [|by intros [_ []]].
    destruct (decide (seq_of s2 p = Some q)) as [|Hn]; [done|]. exfalso. apply H. split; [by eapply fst_elem|done]. }
  split; [|split; [split_and!|split]].
  - intros v p k t' Hin Ht'. pose proof (Hk v (p, k) Hin) as Ek. simpl in Ek. rewrite Ek. destruct (decide (v = u)) as [->|Hv].
    + apply Hu in Hin as [_ ->]. congruence.
    + pose proof Hin as Hin'. apply Hown in Hin'; [|done]. rewrite (na_keep _ _ _ _ _ A).
      * change (seq_of s1 p) with (seq_of s p). pose proof (nk_tcs _ _ K3 v) as E. rewrite Ht', (nk_tcs _ _ K2 v) in E.
        change (tcs (nd_db s1) !! v) with (<[u := set_hna_seq_of q t]> (tcs (nd_db s)) !! v) in E. rewrite lookup_insert_ne in E by done.
        destruct (tcs (nd_db s) !! v) as [tv|] eqn:Hv'; [|done]. injection E as _ ->. by apply (SQ v p k).
      * intros k' Hk'. apply He in Hin as [Hin _]. destruct (no_in _ _ N2 v p k Hin) as (h & Hh & _ & E), (no_in _ _ N2 u p k' Hk') as (h' & Hh' & _ & E'). congruence.
  - exists t3. split; [done|]. rewrite Hq3. exact Hq2.
  - intros d. split.
    + intros (p & k & Hin & Ed). apply Hu in Hin as [Hin Hs]. destruct (na_only _ _ _ _ _ A p k Hin) as [(k0 & [Ho Hk0]%list_elem_of_filter & E)|[Hold E]].
      * exists k0. split_and!; [done..|]. eapply comp_eq_trans; [apply _|exact Ed|]. by apply comp_eq_sym; [apply _|].
      * exfalso. change (seq_of s1 p) with (seq_of s p) in E. rewrite Hs, (SQ u p k t Hold Ht) in E. injection E as E. by apply Hne.
    + intros (k & Hk0 & Ho & Ed). destruct (na_named _ _ _ _ _ A k) as (p & k' & Hin & E & Hs); [by apply list_elem_of_filter|].
      exists p, k'. split; [by apply Hu|]. by eapply comp_eq_trans; [apply _|exact Ed|].
  - intros v Hv e. by apply Hown.
  - rewrite E3. exact E2.
  - rewrite (nk_tree _ _ K3), (nk_tree _ _ K2). done.
Qed.

(** C7: An HNA message keeps the networks, their timers, their paths in the routing table, the topology and the
    kernel consistent, whatever it holds. If it comes over a symmetric link and is not older than the last one of its originator,
    then the networks of the originator are exactly those that it names, less our own, and its prefixes in the
    routing table are the paths to these; the networks of other nodes stay. Otherwise no network changes. (IPv6; for IPv4 the
    comparator of the prefixes is not an order.) *)
Theorem input_hna_correct s msg body garbage from status : nets_ok s -> seqs_ok s -> links_ok (t_nbh (nd_topo s)) -> 0 <= seqno msg ->
  end_ msg - payload msg <= Z.of_nat (length body) -> room base (1 + Z.of_nat (length body)) (nd_rib s) ->
  (forall u t, tree_find comp (originator msg) (tc_tree (nd_db s)) = Some u -> tcs (nd_db s) !! u = Some t ->
    status = RESET_SEQNO_OLSR_MESSAGE -> hna_seq t <> seqno msg) ->
  exists s' st, olsr_input_hna msg body garbage from status s = Some (s', tt) /\ nets_ok s' /\ seqs_ok s' /\ links_ok (t_nbh (nd_topo s')) /\
    check_neighbor_link ip_version (now (get_timers s)) from (t_nbh (nd_topo s)) = Some (t_nbh (nd_topo s), st) /\
    if (m_type msg =? HNA_MESSAGE) && (st =? SYM_LINK) &&
       (if tree_find comp (originator msg) (tc_tree (nd_db s)) is Some u then default true (hna_new msg status <$> tcs (nd_db s) !! u) else true)
    then exists u, tree_find comp (originator msg) (tc_tree (nd_db s')) = Some u /\ nets_of_message s s' u msg (announced_nets msg body garbage)
    else forall v, same_nets s s' v.
Proof.
  intros N SQ Hlk Hs0 Hl Rm Hreset. destruct (check_neighbor_run ip_version (now (get_timers s)) (t_nbh (nd_topo s)) from Hlk) as (st & Rst).
  unfold olsr_input_hna. destruct (m_type msg =? HNA_MESSAGE); cbn [negb andb]; [|exists s, st; by split_and!].
  erewrite bind_run by done. erewrite bind_run by (by apply on_topo_get, on_nbh_get).
  destruct (st =? SYM_LINK) eqn:Est; cbn [negb andb]; [|exists s, st; rewrite Est; split; [done|]; split; [done|]; by split_and!].
  destruct (locate_run s (originator msg) N) as (w & u & t & R & N1 & Ht & Hf & Hsz & Hlinks & Hold & Hcase); [intros i; specialize (Rm i); lia|].
  erewrite bind_run by (by apply on_topo_run). erewrite bind_run by done. set (s1 := with_ntopo w s) in *.
  assert (tcs (nd_db s1) !! u = Some t) as Ht1 by done.
  erewrite bind_run by (apply on_topo_get; unfold tc_rd; change (tcs (tdb (nd_topo s1))) with (tcs (nd_db s1)); by rewrite Ht1).
  assert (SQ1 : seqs_ok s1).
  { intros v p k t' Hin Ht'. destruct (decide (v = u)) as [->|Hv]; [|by apply (SQ v p k); [|apply Hold]].
    destruct Hcase as [[Hfu Ew]|(_ & _ & Hno)]; [|by apply Hno in Hin]. apply (SQ u p k); [done|]. rewrite <- Ht'. unfold s1, nd_db, nd_topo. simpl. by rewrite Ew. }
  assert (Hnew : hna_new msg status t = negb (negb (bool_decide (status = RESET_SEQNO_OLSR_MESSAGE)) && negb (hna_seq t =? -1) && (olsr_seqno_diff (seqno msg) (hna_seq t) <=? 0))).
  { unfold hna_new. rewrite Z.leb_antisym. by destruct (bool_decide _), (hna_seq t =? -1), (0 <? _). }
  assert (Hc : (if tree_find comp (originator msg) (tc_tree (nd_db s)) is Some u then default true (hna_new msg status <$> tcs (nd_db s) !! u) else true) = hna_new msg status t).
  { destruct Hcase as [[-> Ew]|(-> & Hm & _)]; [|unfold hna_new; rewrite Hm; by destruct (bool_decide _)]. rewrite Ew in Ht. change (tdb (nd_topo s)) with (nd_db s) in Ht. by rewrite Ht. }
  rewrite Hc, Hnew. destruct (negb _ && _ && _) eqn:Eold; cbn [negb].
  - exists s1, st. rewrite Est. split; [done|]. split; [done|]. split; [done|]. split; [by eapply links_rest; [exact Hlinks|exact Hlk]|]. by split.
  - destruct (accept_run s1 u t msg body garbage N1 SQ1 Hf Ht1) as (s' & R' & N' & SQ' & (Hq & Hd & Hv) & El & ET); [|done| |].
    + intros E. destruct Hcase as [[Hfu Ew]|(_ & Hm & _)]; [|lia]. rewrite E in Eold. rewrite (proj2 (Z.eqb_neq (seqno msg) (-1))) in Eold by lia.
      assert (olsr_seqno_diff (seqno msg) (seqno msg) = 0) as Ed by (unfold olsr_seqno_diff; rewrite Z.sub_diag; done). rewrite Ed in Eold. case_bool_decide as Er; [|done]. rewrite Ew in Ht. by apply (Hreset u t Hfu Ht Er).
    + intros i. specialize (Rm i). change (paths (nd_rib s1)) with (rtps w). change (routingtree (nd_rib s1)) with (routingtree (nd_rib s)).
      change (nd_paths s) with (paths (nd_rib s)) in Hsz. lia.
    + exists s', st. rewrite Est. split; [exact R'|]. split; [done|]. split; [done|]. split; [eapply links_rest; [|exact Hlk]; unfold nbh_rest; by rewrite El|]. split; [done|].
      exists u. split; [|done]. by rewrite ET.
Qed.
End props.
End hna_set.

(** ** Example: an unknown node announces 2001:db8::/32. *)
Definition hdemo : nodes (LQ := lq_etxff_handler) (KE := demo_export AF_INET6) :=
  mkNodes (KE := demo_export AF_INET6) (mkRib (KE := demo_export AF_INET6) tdemo_empty ∅ [] 0 None [] ∅ []) ∅ ∅ ∅ 1 1.
Definition hdemo_body : list Z := [32; 1; 13; 184] ++ replicate 12 0 ++ [255; 255; 255; 255] ++ replicate 12 0.
Definition hdemo_msg : olsr_message := mkMsg HNA_MESSAGE 15000 44 (tdemo_ip 5) 255 0 1234 0 12 44.

Lemma hdemo_ok : nets_ok (KE := demo_export AF_INET6) AF_INET6 (fun _ => 0) (demo_view AF_INET6) hdemo.
Proof.
  split.
  - split; [|done|by split]. split; try done; [by split; constructor|intros p k Hp; by apply elem_of_nil in Hp].
  - split; [|done]. split; simpl; try done; [by split; constructor|]. intros p k. split; [by intros ?%elem_of_nil|]. by intros [L H].
  - done.
  - intros u. by split; constructor.
  - intros u p k Hp. by apply elem_of_nil in Hp.
  - intros u p k Hp. by apply elem_of_nil in Hp.
  - split; vm_compute; try done; [intros k p H; by apply elem_of_nil in H|intros k; constructor|intros p H; by apply elem_of_nil in H|constructor].
  - by eexists.
  - intros u p k h x Hp. by apply elem_of_nil in Hp.
  - intros u p k Hp. by apply elem_of_nil in Hp.
  - done.
Qed.

Definition hdemo_net : olsr_ip_prefix := mkPfx ([32; 1; 13; 184] ++ replicate 12 0) 32 7.
Lemma input_hna_correct_witness : exists s',
  olsr_input_hna (KE := demo_export AF_INET6) (fun _ => 0) AF_INET6 1000 (tdemo_ip 1) [] hdemo_msg hdemo_body (mkPfx (replicate 16 0) 0 7) (tdemo_ip 2) NEW_OLSR_MESSAGE hdemo = Some (s', tt) /\
  nets_ok (KE := demo_export AF_INET6) AF_INET6 (fun _ => 0) (demo_view AF_INET6) s' /\
  exists u p k, (p, k) ∈ hna_tree s' u /\ avl_comp_prefix_default AF_INET6 hdemo_net k = 0.
Proof.
  destruct (input_hna_correct (KE := demo_export AF_INET6) (fun _ => 0) AF_INET6 1000 (tdemo_ip 1) [] (fun _ => 0) (demo_view AF_INET6) eq_refl ltac:(done)
    hdemo hdemo_msg hdemo_body (mkPfx (replicate 16 0) 0 7) (tdemo_ip 2) NEW_OLSR_MESSAGE hdemo_ok) as (s' & st & E & N & _ & _ & Est & H).
  - intros u p k t Hp. by apply elem_of_nil in Hp.
  - intros p Hp. apply list_elem_of_singleton in Hp as ->. by eexists.
  - by vm_compute.
  - by vm_compute.
  - intros i. by vm_compute.
  - by intros u t Hu.
  - exists s'. split; [exact E|]. split; [exact N|]. 
    assert (Es : snd <$> check_neighbor_link AF_INET6 (now (get_timers hdemo)) (tdemo_ip 2) (t_nbh (nd_topo hdemo)) = Some SYM_LINK) by (by vm_compute).
    rewrite Est in Es. injection Es as ->.
    destruct H as (u & _ & _ & Hd & _). exists u. apply (Hd hdemo_net). exists hdemo_net. split; [apply (bool_decide_unpack _); by vm_compute|]. split; by vm_compute.
Defined.
