(* ===== verification/NbrTable.v ===== *)
(** * The neighbour tables ([neighbor_table.c])

    The one hop neighbours and the two hop neighbours are trees of entries by
    address; a connector stands for a neighbour that announces a two hop
    neighbour. It hangs in a tree of either end and expires. *)
From Stdlib Require Import String.
From S2P Require Import Prelude AvlSpec Trees Types Comparators IpCalc IpLists Memcookie Clock Timer DuplicateSet Packet NetOut Lsdb LqHandler LqEtxFf Neighborhood LinkSet TcGraph TcSet TcInv TcInput RoutingTable NodeSet.

Definition OLSR_NBR2_LIST_JITTER : Z := 5.

Section nbr_table.
Context `{LQ : LqHandler} {LL : LqLinks} `{KE : RouteExport} (rnd : nat -> Z) (ip_version : Z) (router_id : ip_addr) (tc_redundancy : Z).

(** The state of the neighbour tables and the link set. The members of a link
    entry that only the link set uses are kept in a map of their own: [if_name],
    [loss_link_multiplier] and the plugin's part. *)
Record link_ext := mkExt {
  if_name : option string;
  loss_link_multiplier : Z;
  link_lq : lq_link
}.
Record sensing := mkSens {
  sn_nodes : nodes;
  link_exts : gmap loc link_ext;
  changes_neighborhood : bool;
  link_changes : bool;
  nbr_connector_timer_info : loc;
  link_dead_timer_info : loc;
  link_loss_timer_info : loc;
  link_sym_timer_info : loc
}.
Abbreviation M := (SE sensing).
Abbreviation comp := (avl_comp_default ip_version).

Definition with_sn (n : nodes) (s : sensing) : sensing :=
  mkSens n (link_exts s) (changes_neighborhood s) (link_changes s) (nbr_connector_timer_info s) (link_dead_timer_info s)
    (link_loss_timer_info s) (link_sym_timer_info s).
Definition with_exts (e : gmap loc link_ext) (s : sensing) : sensing :=
  mkSens (sn_nodes s) e (changes_neighborhood s) (link_changes s) (nbr_connector_timer_info s) (link_dead_timer_info s)
    (link_loss_timer_info s) (link_sym_timer_info s).
Definition set_changes_neighborhood (b : bool) (s : sensing) : sensing :=
  mkSens (sn_nodes s) (link_exts s) b (link_changes s) (nbr_connector_timer_info s) (link_dead_timer_info s)
    (link_loss_timer_info s) (link_sym_timer_info s).
(** [signal_link_changes] of [link_set.c] *)
Definition signal_link_changes (b : bool) (s : sensing) : sensing :=
  mkSens (sn_nodes s) (link_exts s) (changes_neighborhood s) b (nbr_connector_timer_info s) (link_dead_timer_info s)
    (link_loss_timer_info s) (link_sym_timer_info s).

Definition on_sn {A} (m : SE nodes A) : M A := fun s =>
  match m (sn_nodes s) with Some (n, a) => Some (with_sn n s, a) | None => None end.
Definition sn_topo (s : sensing) : topo := nd_topo (sn_nodes s).
Definition sn_w (s : sensing) : neighborhood := t_nbh (sn_topo s).
Definition with_st (w : topo) (s : sensing) : sensing := with_sn (with_ntopo w (sn_nodes s)) s.
Definition with_w (w : neighborhood) (s : sensing) : sensing := with_st (with_nbh w (sn_topo s)) s.
Definition on_st {A} (m : SE topo A) : M A := on_sn (on_topo m).
Definition on_w {A} (m : NM A) : M A := on_st (on_nbh m).
(** A lookup that returns [None] has followed a dangling pointer. *)
Definition on_w_get {A} (f : neighborhood -> option A) : M A := on_w (fun w => (fun a => (w, a)) <$> f w).

#[global] Instance sensing_has_timers : HasTimers sensing := {|
  get_timers := fun s => get_timers (sn_nodes s);
  put_timers := fun T s => with_sn (put_timers T (sn_nodes s)) s;
  get_put_timers := fun _ _ => eq_refl |}.

(** ** Memory *)
Definition with_nbr (L : list (loc * ip_addr)) (N : gmap loc nbr_entry) (w : neighborhood) : neighborhood :=
  mkNbh L N (nbr2_tree w) (nbr2s w) (nbr_cons w) (link_entry_head w) (links w) (mid_tree w) (mids w) (nh_lsdb w).
Definition with_nbr2 (L : list (loc * ip_addr)) (N : gmap loc nbr2_entry) (w : neighborhood) : neighborhood :=
  mkNbh (nbr_tree w) (nbrs w) L N (nbr_cons w) (link_entry_head w) (links w) (mid_tree w) (mids w) (nh_lsdb w).
Definition with_cons (C : gmap loc nbr_con) (w : neighborhood) : neighborhood :=
  mkNbh (nbr_tree w) (nbrs w) (nbr2_tree w) (nbr2s w) C (link_entry_head w) (links w) (mid_tree w) (mids w) (nh_lsdb w).
Definition wr_nbr2 (p : loc) (g : nbr2_entry -> nbr2_entry) : NM unit := fun w =>
  (fun n => (with_nbr2 (nbr2_tree w) (<[p := g n]> (nbr2s w)) w, tt)) <$> nbr2s w !! p.
Definition wr_con (p : loc) (g : nbr_con -> nbr_con) : NM unit := fun w =>
  (fun c => (with_cons (<[p := g c]> (nbr_cons w)) w, tt)) <$> nbr_cons w !! p.
Definition free_con (p : loc) : NM unit := fun w => (fun _ => (with_cons (delete p (nbr_cons w)) w, tt)) <$> nbr_cons w !! p.
(** The entry leaves its tree and is freed. *)
Definition free_nbr (p : loc) : NM unit := fun w =>
  (fun _ => (with_nbr (tree_delete p (nbr_tree w)) (delete p (nbrs w)) w, tt)) <$> nbrs w !! p.
Definition free_nbr2 (p : loc) : NM unit := fun w =>
  (fun _ => (with_nbr2 (tree_delete p (nbr2_tree w)) (delete p (nbr2s w)) w, tt)) <$> nbr2s w !! p.

Definition set_nbr_cons (L : list (loc * ip_addr)) (n : nbr_entry) : nbr_entry :=
  mkNbr (nbr_addr n) (nbr_tc_edge n) (willingness n) (is_sym n) (is_mpr n) (was_mpr n) (skip n) (mprs_count n) (linkcount n) L.
Definition set_is_sym (b : bool) (n : nbr_entry) : nbr_entry :=
  mkNbr (nbr_addr n) (nbr_tc_edge n) (willingness n) b (is_mpr n) (was_mpr n) (skip n) (mprs_count n) (linkcount n) (nbr_con_tree n).
Definition set_nbr2_cons (L : list (loc * ip_addr)) (m : nbr2_entry) : nbr2_entry := mkNbr2 (nbr2_addr m) L.
Definition set_con_timer (h : option loc) (c : nbr_con) : nbr_con := mkCon (con_nbr c) (con_nbr2 c) h (second_hop_linkcost c) (path_linkcost c).
Definition set_con_cost (a b : Z) (c : nbr_con) : nbr_con := mkCon (con_nbr c) (con_nbr2 c) (nbr2_con_timer c) a b.

(** ** Lookups *)

(** As for the neighbours, the main address is looked up, but the tree is
    searched for [addr]. *)
Definition olsr_lookup_nbr2_entry (addr : ip_addr) (lookupalias : bool) (w : neighborhood) : option (option loc) :=
  main_addr ← (if lookupalias then olsr_lookup_main_addr_by_alias ip_version addr w else Some None);
  let main_addr := default addr main_addr in
  Some (tree_find comp addr (nbr2_tree w)).
Definition olsr_lookup_nbr_con_entry (nbr : loc) (nbr2_addr : ip_addr) : M (option loc) :=
  n ← on_w (rd_nbr nbr); mret (tree_find comp nbr2_addr (nbr_con_tree n)).
Definition olsr_lookup_nbr2_con_entry (nbr2 : loc) (nbr_addr : ip_addr) : M (option loc) :=
  m ← on_w (rd_nbr2 nbr2); mret (tree_find comp nbr_addr (nbr2_con_tree m)).

(** ** Connectors and two hop neighbours *)
Definition olsr_add_nbr2_entry (addr : ip_addr) : M loc :=
  nbr2 ← on_w_get (olsr_lookup_nbr2_entry addr true);
  match nbr2 with
  | Some p => mret p
  | None =>
    p ← se_get (fun s => fresh (dom (nbr2s (sn_w s))));
    on_w (se_mod (fun w => with_nbr2 (tree_insert comp false addr p (nbr2_tree w)) (<[p := mkNbr2 addr []]> (nbr2s w)) w));;
    mret p
  end.

Definition internal_delete_nbr_con (p : loc) : M unit :=
  c ← on_w (rd_con p);
  on_timers (olsr_timer_stop (nbr2_con_timer c));;
  on_w (wr_con p (set_con_timer None));;
  on_w (wr_nbr (con_nbr c) (fun n => set_nbr_cons (tree_delete p (nbr_con_tree n)) n));;
  on_w (wr_nbr2 (con_nbr2 c) (fun m => set_nbr2_cons (tree_delete p (nbr2_con_tree m)) m));;
  on_w (free_con p).

(** The loop fetches the successor before a connector is deleted. *)
Fixpoint delete_connectors (L : list (loc * ip_addr)) : M unit :=
  match L with
  | [] => mret tt
  | e :: L => internal_delete_nbr_con e.1;; delete_connectors L
  end.
Definition olsr_delete_nbr2_entry (p : loc) : M unit :=
  m ← on_w (rd_nbr2 p);
  delete_connectors (nbr2_con_tree m);;
  on_w (free_nbr2 p);;
  se_mod (set_changes_neighborhood true).

Definition olsr_delete_nbr_con (p : loc) : M unit :=
  c ← on_w (rd_con p);
  internal_delete_nbr_con p;;
  m ← on_w (rd_nbr2 (con_nbr2 c));
  if bool_decide (nbr2_con_tree m = []) then olsr_delete_nbr2_entry (con_nbr2 c) else mret tt.

(** The memory of a new connector is zero. *)
Definition olsr_link_nbr_nbr2 (nbr : loc) (addr : ip_addr) (vtime : Z) : M loc :=
  connector ← olsr_lookup_nbr_con_entry nbr addr;
  match connector with
  | Some p =>
    c ← on_w (rd_con p);
    on_timers (olsr_timer_change (nbr2_con_timer c) vtime OLSR_NBR2_LIST_JITTER);;
    mret p
  | None =>
    nbr2 ← olsr_add_nbr2_entry addr;
    p ← se_get (fun s => fresh (dom (nbr_cons (sn_w s))));
    n ← on_w (rd_nbr nbr);
    m ← on_w (rd_nbr2 nbr2);
    on_w (se_mod (fun w => with_cons (<[p := mkCon nbr nbr2 None 0 0]> (nbr_cons w)) w));;
    on_w (wr_nbr nbr (fun n => set_nbr_cons (tree_insert comp false (nbr2_addr m) p (nbr_con_tree n)) n));;
    on_w (wr_nbr2 nbr2 (fun m => set_nbr2_cons (tree_insert comp false (nbr_addr n) p (nbr2_con_tree m)) m));;
    on_w (wr_con p (fun c => set_con_cost (second_hop_linkcost c) LINK_COST_BROKEN c));;
    ti ← se_get nbr_connector_timer_info;
    h ← on_timers (olsr_timer_start rnd vtime OLSR_NBR2_LIST_JITTER p ti);
    on_w (wr_con p (set_con_timer (Some h)));;
    mret p
  end.

Definition olsr_expire_nbr_con (p : loc) : M unit :=
  on_w (wr_con p (set_con_timer None));;
  olsr_delete_nbr_con p.

(** ** One hop neighbours *)
Definition olsr_add_nbr_entry (addr : ip_addr) : M loc :=
  nbr ← on_w_get (olsr_lookup_nbr_entry ip_version addr true);
  match nbr with
  | Some p => mret p
  | None =>
    p ← se_get (fun s => fresh (dom (nbrs (sn_w s))));
    on_w (se_mod (fun w => with_nbrs (<[p := mkNbr addr None WILL_NEVER false false false false 0 0 []]> (nbrs w)) w));;
    me ← on_st (se_get (fun w => tc_myself (tdb w)));
    me ← se_opt me;
    tc_edge ← on_st (olsr_lookup_tc_edge ip_version me addr);
    tc_edge ← (match tc_edge with
               | Some e => mret e
               | None => on_st (olsr_add_tc_edge_entry ip_version router_id me addr 0)
               end);
    on_w (wr_nbr p (set_nbr_edge (Some tc_edge)));;
    on_st (edge_wr tc_edge (set_edge_nbr (Some p)));;
    on_w (se_mod (fun w => with_nbr (tree_insert comp false addr p (nbr_tree w)) (nbrs w) w));;
    mret p
  end.

Fixpoint delete_nbr_connectors (L : list (loc * ip_addr)) : M unit :=
  match L with
  | [] => mret tt
  | e :: L => olsr_delete_nbr_con e.1;; delete_nbr_connectors L
  end.
Definition olsr_delete_nbr_entry (p : loc) : M unit :=
  n ← on_w (rd_nbr p);
  delete_nbr_connectors (nbr_con_tree n);;
  (match nbr_tc_edge n with
   | Some e => on_st (edge_wr e (set_edge_nbr None));; on_st (olsr_delete_tc_edge_entry e)
   | None => mret tt
   end);;
  on_w (free_nbr p);;
  se_mod (set_changes_neighborhood true);;
  on_st (se_mod (set_changes_topology true)).

Definition olsr_update_nbr_status (p : loc) : M unit :=
  nw ← se_get (fun s => now (get_timers s));
  link ← on_w (get_best_link_to_neighbor nw (Some p));
  st ← (match link with Some l => on_w (lookup_link_status nw (Some l)) | None => mret UNSPEC_LINK end);
  n ← on_w (rd_nbr p);
  if bool_decide (is_Some link) && (st =? SYM_LINK) then
    (if negb (is_sym n) then
       two_hop_neighbor ← on_w_get (olsr_lookup_nbr2_entry (nbr_addr n) true);
       (match two_hop_neighbor with Some q => olsr_delete_nbr2_entry q | None => mret tt end);;
       se_mod (set_changes_neighborhood true);;
       on_st (se_mod (set_changes_topology true));;
       if (tc_redundancy >? 1) || is_mpr n then se_mod (signal_link_changes true) else mret tt
     else mret tt);;
    on_w (wr_nbr p (set_is_sym true))
  else
    (if is_sym n then
       se_mod (set_changes_neighborhood true);;
       if (tc_redundancy >? 1) || is_mpr n then
         se_mod (signal_link_changes true);; on_st (se_mod (set_changes_topology true))
       else mret tt
     else mret tt);;
    on_w (wr_nbr p (set_is_sym false)).
End nbr_table.
