(* ===== verification/NbrProps.v ===== *)
(** * The neighbour tables keep their shape

    The invariant of connectors and two hop neighbours, what each operation of
    [NbrTable] does to it, and the relation between one and two hop neighbours
    that the pointers stand for. *)
From S2P Require Import Prelude AvlSpec Trees Types Comparators Memcookie Clock Timer NetOut Lsdb LqHandler LqEtxFf Neighborhood LinkSet TcGraph TcSet TcInv TcInput TcProps RoutingTable RibUpdate NodeSet HnaSet NbrTable.

Section nbr_props.
Context `{LQ : LqHandler} {LL : LqLinks} `{KE : RouteExport} (rnd : nat -> Z) (ip_version : Z) (router_id : ip_addr) (tc_redundancy : Z).
Abbreviation comp := (avl_comp_default ip_version).
Abbreviation M := (SE sensing).

(** ** States that differ in the tables, the timers and the flag *)
Definition nst (w : neighborhood) (T : timer_st) (b : bool) (s : sensing) : sensing :=
  set_changes_neighborhood b (with_w w (put_timers T s)).

Lemma nst_self s : nst (sn_w s) (get_timers s) (changes_neighborhood s) s = s.
Proof. by destruct s as [[[[]]]]. Qed.
Lemma on_w_nst {A} (m : NM A) w T b s w' a : m w = Some (w', a) -> on_w m (nst w T b s) = Some (nst w' T b s, a).
Proof. intros H. unfold on_w, on_st, on_sn, on_topo, on_rib, on_nbh. simpl. by rewrite H. Qed.
Lemma on_w_get_nst {A} (f : neighborhood -> option A) w T b s a : f w = Some a -> on_w_get f (nst w T b s) = Some (nst w T b s, a).
Proof. intros H. unfold on_w_get. apply on_w_nst. by rewrite H. Qed.
Lemma on_timers_nst {A} (m : SE timer_st A) w T b s T' a : m T = Some (T', a) -> on_timers m (nst w T b s) = Some (nst w T' b s, a).
Proof. intros H. unfold on_timers. simpl. by rewrite H. Qed.

(** ** Timers *)
Lemma timer_stop_of T ti c o : timers_ok T -> (forall h, o = Some h -> timer_of T ti c h) ->
  exists T', olsr_timer_stop o T = Some (T', tt) /\ timers_ok T' /\ same_env T T' /\
    forall ti' u' q, timer_of T ti' u' q -> (ti', u') <> (ti, c) -> timer_of T' ti' u' q.
Proof.
  intros Ok H. destruct o as [h|]; [|exists T; by split_and!]. destruct (H h eq_refl) as (tm & Hh & Hr & Hi & Hc).
  destruct (timer_stop_run T h tm Ok Hh Hr) as (T' & R & Ok' & Env & Et & _). exists T'. split_and!; try done.
  intros ti' u' q (tq & Hq & Hrq & <- & <-) Hne. assert (h <> q) by (intros ->; simplify_eq).
  exists tq. split; [|done]. rewrite Et. destruct (timer_in_callback tm); [by rewrite lookup_insert_ne|by rewrite lookup_delete_ne].
Qed.

(** What an operation on timers of class [ti] leaves alone. *)
Record timers_kept (ti : loc) (T T' : timer_st) : Prop := {
  tk_env : same_env T T';
  tk_other : forall ti' u q, ti' <> ti -> timer_of T ti' u q -> timer_of T' ti' u q
}.
Lemma timers_kept_refl ti T : timers_kept ti T T.
Proof. done. Qed.
Lemma same_env_trans T1 T2 T3 : same_env T1 T2 -> same_env T2 T3 -> same_env T1 T3.
Proof. intros [A1 A2 A3 A4] [B1 B2 B3 B4]. split; [congruence|congruence|intros i; by rewrite B3|intros i; by rewrite B4]. Qed.
Lemma timers_kept_trans ti T1 T2 T3 : timers_kept ti T1 T2 -> timers_kept ti T2 T3 -> timers_kept ti T1 T3.
Proof. intros [A1 A2] [B1 B2]. split; [by eapply same_env_trans|auto]. Qed.

(** ** The invariant *)
Definition nbr_at (w : neighborhood) (p : loc) : option ip_addr := nbr_addr <$> nbrs w !! p.
Definition nbr2_at (w : neighborhood) (q : loc) : option ip_addr := nbr2_addr <$> nbr2s w !! q.

(** The two hop neighbour [X] may be without connectors. *)
Record cons_but (X : option loc) (ti : loc) (w : neighborhood) (T : timer_st) : Prop := {
  cb_nbr : tree_wf comp (nbr_tree w);
  cb_nbr_in : forall p k, (p, k) ∈ nbr_tree w <-> nbr_at w p = Some k;
  cb_nbr2 : tree_wf comp (nbr2_tree w);
  cb_nbr2_in : forall p k, (p, k) ∈ nbr2_tree w <-> nbr2_at w p = Some k;
  cb_tree1 : forall p n, nbrs w !! p = Some n -> tree_wf comp (nbr_con_tree n);
  cb_tree2 : forall q m, nbr2s w !! q = Some m -> tree_wf comp (nbr2_con_tree m);
  cb_ends : forall c x, nbr_cons w !! c = Some x -> is_Some (nbrs w !! con_nbr x) /\ is_Some (nbr2s w !! con_nbr2 x);
  cb_in1 : forall p n c k, nbrs w !! p = Some n ->
    (c, k) ∈ nbr_con_tree n <-> exists x, nbr_cons w !! c = Some x /\ con_nbr x = p /\ nbr2_at w (con_nbr2 x) = Some k;
  cb_in2 : forall q m c k, nbr2s w !! q = Some m ->
    (c, k) ∈ nbr2_con_tree m <-> exists x, nbr_cons w !! c = Some x /\ con_nbr2 x = q /\ nbr_at w (con_nbr x) = Some k;
  cb_some : forall q m, nbr2s w !! q = Some m -> X <> Some q -> nbr2_con_tree m <> [];
  cb_timers : timers_ok T;
  cb_info : is_Some (timer_infos T !! ti);
  cb_timer : forall c x h, nbr_cons w !! c = Some x -> nbr2_con_timer x = Some h -> timer_of T ti c h
}.
Definition cons_ok := cons_but None.

(** ** A connector goes *)
Definition without_con (c : loc) (x : nbr_con) (n : nbr_entry) (m : nbr2_entry) (w : neighborhood) : neighborhood :=
  with_cons (delete c (nbr_cons w)) (with_nbr2 (nbr2_tree w) (<[con_nbr2 x := set_nbr2_cons (tree_delete c (nbr2_con_tree m)) m]> (nbr2s w))
    (with_nbrs (<[con_nbr x := set_nbr_cons (tree_delete c (nbr_con_tree n)) n]> (nbrs w)) w)).

Section without.
Context (w : neighborhood) (c : loc) (x : nbr_con) (n : nbr_entry) (m : nbr2_entry).
Context (Hc : nbr_cons w !! c = Some x) (Hn : nbrs w !! con_nbr x = Some n) (Hm : nbr2s w !! con_nbr2 x = Some m).
Abbreviation w' := (without_con c x n m w).

Lemma internal_delete_run T b s ti : timers_ok T -> (forall h, nbr2_con_timer x = Some h -> timer_of T ti c h) ->
  exists T', internal_delete_nbr_con c (nst w T b s) = Some (nst w' T' b s, tt) /\ timers_ok T' /\ same_env T T' /\
    forall ti' u' q, timer_of T ti' u' q -> (ti', u') <> (ti, c) -> timer_of T' ti' u' q.
Proof.
  intros Ok Ht. destruct (timer_stop_of T ti c (nbr2_con_timer x) Ok Ht) as (T' & R & H). exists T'. split; [|done].
  unfold internal_delete_nbr_con. erewrite bind_run by (apply on_w_nst; unfold rd_con; by rewrite Hc).
  erewrite bind_run by (apply on_timers_nst; exact R). erewrite bind_run by (apply on_w_nst; unfold wr_con; by rewrite Hc).
  erewrite bind_run by (apply on_w_nst; unfold wr_nbr; simpl; by rewrite Hn).
  erewrite bind_run by (apply on_w_nst; unfold wr_nbr2; simpl; by rewrite Hm).
  unfold free_con. erewrite on_w_nst by (simpl; by rewrite lookup_insert_eq). simpl. unfold without_con, with_cons. simpl.
  by rewrite delete_insert_eq.
Qed.

Lemma without_nbr_at p : nbr_at w' p = nbr_at w p.
Proof. unfold nbr_at. simpl. destruct (decide (con_nbr x = p)) as [<-|]; [by rewrite lookup_insert_eq, Hn|by rewrite lookup_insert_ne]. Qed.
Lemma without_nbr2_at q : nbr2_at w' q = nbr2_at w q.
Proof. unfold nbr2_at. simpl. destruct (decide (con_nbr2 x = q)) as [<-|]; [by rewrite lookup_insert_eq, Hm|by rewrite lookup_insert_ne]. Qed.

(** The trees that lose the connector; no other tree has it. *)
Lemma without_nbr X ti T p n' : cons_but X ti w T -> nbrs w' !! p = Some n' -> exists n0, nbrs w !! p = Some n0 /\ nbr_con_tree n' = tree_delete c (nbr_con_tree n0).
Proof.
  intros Ok. simpl. intros [[<- <-]|[Hne Hp]]%lookup_insert_Some; [by exists n|]. exists n'. split; [done|].
  symmetry. apply filter_all, Forall_forall. intros [c' k] Hin E. simpl in E. subst c'. apply (cb_in1 _ _ _ _ Ok p n' c k Hp) in Hin as (x' & Hx' & Hp' & _). simpl in *. congruence.
Qed.
Lemma without_nbr2 X ti T q m' : cons_but X ti w T -> nbr2s w' !! q = Some m' -> exists m0, nbr2s w !! q = Some m0 /\ nbr2_con_tree m' = tree_delete c (nbr2_con_tree m0).
Proof.
  intros Ok. simpl. intros [[<- <-]|[Hne Hp]]%lookup_insert_Some; [by exists m|]. exists m'. split; [done|].
  symmetry. apply filter_all, Forall_forall. intros [c' k] Hin E. simpl in E. subst c'. apply (cb_in2 _ _ _ _ Ok q m' c k Hp) in Hin as (x' & Hx' & Hp' & _). simpl in *. congruence.
Qed.

Lemma without_con_ok X ti T T' : cons_but X ti w T -> X = None \/ X = Some (con_nbr2 x) -> timers_ok T' -> same_env T T' ->
  (forall u' q, timer_of T ti u' q -> u' <> c -> timer_of T' ti u' q) -> cons_but (Some (con_nbr2 x)) ti w' T'.
Proof.
  intros Ok HX Ok' Env Ht. pose proof Ok as [C1 C2 C3 C4 C5 C6 C7 C8 C9 C10 C11 C12 C13]. split; try done.
  - intros p k. rewrite without_nbr_at. apply C2.
  - intros p k. rewrite without_nbr2_at. apply C4.
  - intros p n' (n0 & H0 & ->)%(without_nbr X ti T p n' Ok). apply tree_wf_delete. by apply (C5 p).
  - intros q m' (m0 & H0 & ->)%(without_nbr2 X ti T q m' Ok). apply tree_wf_delete. by apply (C6 q).
  - intros c' x' Hc'. change (delete c (nbr_cons w) !! c' = Some x') in Hc'. apply lookup_delete_Some in Hc' as [_ Hc']. destruct (C7 c' x' Hc') as [[n0 H1] [m0 H2]].
    assert (nbr_at w' (con_nbr x') = Some (nbr_addr n0)) as E1 by (rewrite without_nbr_at; unfold nbr_at; by rewrite H1).
    assert (nbr2_at w' (con_nbr2 x') = Some (nbr2_addr m0)) as E2 by (rewrite without_nbr2_at; unfold nbr2_at; by rewrite H2).
    by apply fmap_Some in E1 as (? & -> & _), E2 as (? & -> & _).
  - intros p n' c' k (n0 & H0 & ->)%(without_nbr X ti T p n' Ok). rewrite elem_of_tree_delete, (C8 p n0 c' k H0). simpl.
    setoid_rewrite without_nbr2_at. setoid_rewrite lookup_delete_Some. naive_solver.
  - intros q m' c' k (m0 & H0 & ->)%(without_nbr2 X ti T q m' Ok). rewrite elem_of_tree_delete, (C9 q m0 c' k H0). simpl.
    setoid_rewrite without_nbr_at. setoid_rewrite lookup_delete_Some. naive_solver.
  - intros q m' Hq Hne. simpl in Hq. rewrite lookup_insert_ne in Hq by congruence. apply (C10 q m' Hq). destruct HX as [->| ->]; [done|congruence].
  - by apply (se_infos _ _ Env).
  - intros c' x' h. simpl. intros [Hne Hc']%lookup_delete_Some Hh. apply Ht; [by apply (C13 c' x')|congruence].
Qed.
End without.

(** ** What deletions do *)

(** Everything of the neighbourhood but connectors and two hop neighbours. *)
Record w_frame (w w' : neighborhood) : Prop := {
  wf_nbr_tree : nbr_tree w' = nbr_tree w;
  wf_nbrs : forall p, set_nbr_cons [] <$> nbrs w' !! p = set_nbr_cons [] <$> nbrs w !! p;
  wf_head : link_entry_head w' = link_entry_head w;
  wf_links : links w' = links w;
  wf_mid_tree : mid_tree w' = mid_tree w;
  wf_mids : mids w' = mids w;
  wf_lsdb : nh_lsdb w' = nh_lsdb w
}.
Lemma w_frame_refl w : w_frame w w.
Proof. done. Qed.
Lemma w_frame_trans w1 w2 w3 : w_frame w1 w2 -> w_frame w2 w3 -> w_frame w1 w3.
Proof. intros [A1 A2 A3 A4 A5 A6 A7] [B1 B2 B3 B4 B5 B6 B7]. split; congruence. Qed.
Lemma w_frame_at w w' p : w_frame w w' -> nbr_at w' p = nbr_at w p.
Proof.
  intros F. pose proof (f_equal (fmap nbr_addr) (wf_nbrs _ _ F p)) as E. unfold nbr_at. by destruct (nbrs w' !! p), (nbrs w !! p).
Qed.

(** Exactly the connectors in [P] and the two hop neighbours in [Q] are gone. *)
Record cons_gone (P : loc -> nbr_con -> Prop) (Q : loc -> Prop) (w w' : neighborhood) : Prop := {
  cg_cons : forall c x, nbr_cons w' !! c = Some x <-> nbr_cons w !! c = Some x /\ ~ P c x;
  cg_nbr2 : forall q k, nbr2_at w' q = Some k <-> nbr2_at w q = Some k /\ ~ Q q;
  cg_frame : w_frame w w'
}.
Lemma cons_gone_nil w : cons_gone (fun _ _ => False) (fun _ => False) w w.
Proof. split; [naive_solver..|done]. Qed.
Lemma cons_gone_trans P P' P'' Q Q' Q'' w1 w2 w3 : cons_gone P Q w1 w2 -> cons_gone P' Q' w2 w3 ->
  (forall c x, nbr_cons w1 !! c = Some x -> P'' c x <-> P c x \/ P' c x) ->
  (forall q, is_Some (nbr2_at w1 q) -> Q'' q <-> Q q \/ Q' q) -> cons_gone P'' Q'' w1 w3.
Proof.
  intros [A1 A2 A3] [B1 B2 B3] HP HQ. split; [| |by eapply w_frame_trans].
  - intros c x. rewrite B1, A1. split; [intros [[H1 H2] H3]|intros [H1 H2]]; rewrite (HP c x H1) in *; tauto.
  - intros q k. rewrite B2, A2. split; [intros [[H1 H2] H3]|intros [H1 H2]]; rewrite (HQ q (ex_intro _ _ H1)) in *; tauto.
Qed.

Lemma without_con_gone w c x n m : nbr_cons w !! c = Some x -> nbrs w !! con_nbr x = Some n -> nbr2s w !! con_nbr2 x = Some m ->
  cons_gone (fun c' _ => c' = c) (fun _ => False) w (without_con c x n m w).
Proof.
  intros Hc Hn Hm. split.
  - intros c' x'. simpl. rewrite lookup_delete_Some. naive_solver.
  - intros q k. rewrite without_nbr2_at by done. naive_solver.
  - split; try done. intros p. simpl. destruct (decide (con_nbr x = p)) as [<-|]; [by rewrite lookup_insert_eq, Hn|by rewrite lookup_insert_ne].
Qed.

(** One connector, with the invariant. *)
Lemma delete_con_run X ti w T b s c x : cons_but X ti w T -> nbr_cons w !! c = Some x -> X = None \/ X = Some (con_nbr2 x) ->
  exists w' T', internal_delete_nbr_con c (nst w T b s) = Some (nst w' T' b s, tt) /\ cons_but (Some (con_nbr2 x)) ti w' T' /\
    timers_kept ti T T' /\ cons_gone (fun c' _ => c' = c) (fun _ => False) w w' /\
    forall m, nbr2s w !! con_nbr2 x = Some m -> nbr2s w' !! con_nbr2 x = Some (set_nbr2_cons (tree_delete c (nbr2_con_tree m)) m).
Proof.
  intros Ok Hc HX. destruct (cb_ends _ _ _ _ Ok c x Hc) as [[n Hn] [m Hm]].
  destruct (internal_delete_run w c x n m Hc Hn Hm T b s ti) as (T' & R & Ok' & Env & Ht); [apply Ok|intros h; by apply (cb_timer _ _ _ _ Ok c x)|].
  exists (without_con c x n m w), T'. split; [done|]. split_and!.
  - apply (without_con_ok w c x n m Hc Hn Hm X ti T T'); try done. intros u' q Hq Hne. apply Ht; [done|congruence].
  - split; [done|]. intros ti' u q Hne Hq. apply Ht; [done|congruence].
  - by apply without_con_gone.
  - intros m'. rewrite Hm. intros [= <-]. simpl. by rewrite lookup_insert_eq.
Qed.

Lemma delete_connectors_run ti q b s L : forall w T m, cons_but (Some q) ti w T -> nbr2s w !! q = Some m -> nbr2_con_tree m = L ->
  exists w' T', delete_connectors L (nst w T b s) = Some (nst w' T' b s, tt) /\ cons_but (Some q) ti w' T' /\ timers_kept ti T T' /\
    cons_gone (fun _ x => con_nbr2 x = q) (fun _ => False) w w' /\ nbr2s w' !! q = Some (set_nbr2_cons [] m).
Proof.
  induction L as [|[c k] L IH]; intros w T m Ok Hq HL.
  - exists w, T. split; [done|]. split_and!; try done; [|by rewrite Hq; destruct m; simpl in HL; subst].
    split; [|naive_solver|done]. intros c x. split; [|tauto]. intros Hc. split; [done|]. intros Hx.
    destruct (cb_ends _ _ _ _ Ok c x Hc) as [[n Hn] _]. assert ((c, nbr_addr n) ∈ nbr2_con_tree m) as Hin.
    { apply (cb_in2 _ _ _ _ Ok q m c _ Hq). exists x. unfold nbr_at. by rewrite Hn. }
    rewrite HL in Hin. by apply elem_of_nil in Hin.
  - assert ((c, k) ∈ nbr2_con_tree m) as Hin by (rewrite HL; left).
    apply (cb_in2 _ _ _ _ Ok q m c k Hq) in Hin as (x & Hc & Hx & _). subst q.
    destruct (delete_con_run _ ti w T b s c x Ok Hc (or_intror eq_refl)) as (w1 & T1 & R1 & Ok1 & K1 & G1 & Hm1). specialize (Hm1 m Hq).
    assert (tree_delete c (nbr2_con_tree m) = L) as EL.
    { rewrite HL. apply (tree_delete_split [] c k L). pose proof (tw_nodup _ _ (cb_tree2 _ _ _ _ Ok _ m Hq)) as N. by rewrite HL in N. }
    rewrite EL in Hm1. destruct (IH w1 T1 _ Ok1 Hm1 eq_refl) as (w2 & T2 & R2 & Ok2 & K2 & G2 & Hm2).
    exists w2, T2. split; [cbn [delete_connectors]; by erewrite bind_run by exact R1|]. split_and!; [done|by eapply timers_kept_trans| |done].
    eapply cons_gone_trans; [exact G1|exact G2| |naive_solver]. intros c' x' Hc'. split; [tauto|]. intros [->|]; [|done]. congruence.
Qed.

Definition without_nbr2_entry (q : loc) (w : neighborhood) : neighborhood := with_nbr2 (tree_delete q (nbr2_tree w)) (delete q (nbr2s w)) w.

(** A two hop neighbour that is not [q]. *)
Lemma other_nbr2_at w q q' : q' <> q -> nbr2_at (without_nbr2_entry q w) q' = nbr2_at w q'.
Proof. intros Hne. unfold nbr2_at. simpl. by rewrite lookup_delete_ne. Qed.

Lemma free_nbr2_ok ti w T q m : cons_but (Some q) ti w T -> nbr2s w !! q = Some m -> nbr2_con_tree m = [] ->
  cons_ok ti (without_nbr2_entry q w) T /\ cons_gone (fun _ _ => False) (fun q' => q' = q) w (without_nbr2_entry q w).
Proof.
  intros Ok Hq Em. pose proof Ok as [C1 C2 C3 C4 C5 C6 C7 C8 C9 C10 C11 C12 C13].
  assert (Hno : forall c x, nbr_cons w !! c = Some x -> con_nbr2 x <> q).
  { intros c x Hc Hx. destruct (C7 c x Hc) as [[n Hn] _]. assert ((c, nbr_addr n) ∈ nbr2_con_tree m) as Hin.
    { apply (C9 q m c _ Hq). exists x. unfold nbr_at. by rewrite Hn. }
    rewrite Em in Hin. by apply elem_of_nil in Hin. }
  assert (At : forall q' k, nbr2_at (without_nbr2_entry q w) q' = Some k <-> nbr2_at w q' = Some k /\ q' <> q).
  { intros q' k. destruct (decide (q' = q)) as [->|Hne]; [|rewrite other_nbr2_at by done; tauto].
    unfold nbr2_at at 1. simpl. rewrite lookup_delete_eq. simpl. split; [done|]. by intros [_ []]. }
  split; [split|split]; try done.
  - by apply tree_wf_delete.
  - intros q' k. simpl. rewrite elem_of_tree_delete, C4, At. simpl. tauto.
  - intros q' m'. simpl. intros [_ Hq']%lookup_delete_Some. by apply (C6 q').
  - intros c x Hc. destruct (C7 c x Hc) as [H1 H2]. split; [done|]. simpl. rewrite lookup_delete_ne; [done|]. intros E. by apply (Hno c x Hc).
  - intros p n c k Hp. rewrite (C8 p n c k Hp). split; intros (x & Hc & Hx & Hk); exists x; (split_and!; [done|done|]).
    + apply At. split; [done|]. by apply (Hno c x).
    + by apply At in Hk as [Hk _].
  - intros q' m' c k. simpl. intros [_ Hq']%lookup_delete_Some. by apply (C9 q' m').
  - intros q' m' . simpl. intros [Hne Hq']%lookup_delete_Some _. apply (C10 q' m' Hq'). congruence.
  - intros c x. simpl. tauto.
Qed.

Lemma delete_nbr2_run X ti w T b s q m : cons_but X ti w T -> X = None \/ X = Some q -> nbr2s w !! q = Some m ->
  exists w' T', olsr_delete_nbr2_entry q (nst w T b s) = Some (nst w' T' true s, tt) /\ cons_ok ti w' T' /\ timers_kept ti T T' /\
    cons_gone (fun _ x => con_nbr2 x = q) (fun q' => q' = q) w w'.
Proof.
  intros Ok HX Hq. assert (Ok' : cons_but (Some q) ti w T).
  { destruct Ok as [C1 C2 C3 C4 C5 C6 C7 C8 C9 C10 C11 C12 C13]. split; try done. intros q' m' Hq' Hne. apply (C10 q' m' Hq'). destruct HX as [->| ->]; congruence. }
  destruct (delete_connectors_run ti q b s _ w T m Ok' Hq eq_refl) as (w1 & T1 & R1 & Ok1 & K1 & G1 & Hm1).
  destruct (free_nbr2_ok ti w1 T1 q _ Ok1 Hm1 eq_refl) as [Ok2 G2].
  exists (without_nbr2_entry q w1), T1. split.
  - unfold olsr_delete_nbr2_entry. erewrite bind_run by (apply on_w_nst; unfold rd_nbr2; by rewrite Hq).
    erewrite bind_run by exact R1. erewrite bind_run by (apply on_w_nst; unfold free_nbr2; by rewrite Hm1). done.
  - split_and!; [done|done|]. eapply cons_gone_trans; [exact G1|exact G2|naive_solver..].
Qed.

(** The connector [c] is the only one of its two hop neighbour. *)
Definition last_con (w : neighborhood) (c : loc) (x : nbr_con) : Prop :=
  forall c' x', nbr_cons w !! c' = Some x' -> con_nbr2 x' = con_nbr2 x -> c' = c.

Lemma delete_nbr_con_run ti w T b s c x : cons_ok ti w T -> nbr_cons w !! c = Some x ->
  exists w' T' b', olsr_delete_nbr_con c (nst w T b s) = Some (nst w' T' b' s, tt) /\ cons_ok ti w' T' /\ timers_kept ti T T' /\
    cons_gone (fun c' _ => c' = c) (fun q => q = con_nbr2 x /\ last_con w c x) w w'.
Proof.
  intros Ok Hc. destruct (cb_ends _ _ _ _ Ok c x Hc) as [[n Hn] [m Hm]].
  destruct (delete_con_run _ ti w T b s c x Ok Hc (or_introl eq_refl)) as (w1 & T1 & R1 & Ok1 & K1 & G1 & Hm1). specialize (Hm1 m Hm).
  assert (Hin : forall c' x', nbr_cons w1 !! c' = Some x' -> con_nbr2 x' = con_nbr2 x -> tree_delete c (nbr2_con_tree m) <> []).
  { intros c' x' Hc' Hx' E. destruct (cb_ends _ _ _ _ Ok1 c' x' Hc') as [[n' Hn'] _].
    assert ((c', nbr_addr n') ∈ tree_delete c (nbr2_con_tree m)) as H; [|rewrite E in H; by apply elem_of_nil in H].
    apply (cb_in2 _ _ _ _ Ok1 _ _ c' _ Hm1). exists x'. unfold nbr_at. by rewrite Hn'. }
  unfold olsr_delete_nbr_con. erewrite bind_run by (apply on_w_nst; unfold rd_con; by rewrite Hc). erewrite bind_run by exact R1.
  erewrite bind_run by (apply on_w_nst; unfold rd_nbr2; by rewrite Hm1). case_bool_decide as E.
  - destruct (delete_nbr2_run _ ti w1 T1 b s _ _ Ok1 (or_intror eq_refl) Hm1) as (w2 & T2 & R2 & Ok2 & K2 & G2).
    exists w2, T2, true. split; [done|]. split_and!; [done|by eapply timers_kept_trans|].
    eapply cons_gone_trans; [exact G1|exact G2| |].
    + intros c' x' Hc'. split; [tauto|]. intros [|Hx]; [done|]. destruct (decide (c' = c)); [done|].
      by destruct (Hin c' x' (proj2 (cg_cons _ _ _ _ G1 c' x') (conj Hc' n0)) Hx).
    + intros q _. split; [tauto|]. intros [[]| ->]. split; [done|]. intros c' x' Hc' Hx. destruct (decide (c' = c)); [done|].
      by destruct (Hin c' x' (proj2 (cg_cons _ _ _ _ G1 c' x') (conj Hc' n0)) Hx).
  - exists w1, T1, b. split; [done|]. split_and!; [|done|].
    + destruct Ok1 as [C1 C2 C3 C4 C5 C6 C7 C8 C9 C10 C11 C12 C13]. split; try done. intros q m' Hq _.
      destruct (decide (q = con_nbr2 x)) as [->|Hne]; [|apply (C10 q m' Hq); congruence]. simplify_eq. done.
    + eapply cons_gone_trans; [exact G1|apply cons_gone_nil|tauto|]. intros q _. split; [|tauto]. intros [-> Hl]. exfalso.
      simpl in E. destruct (tree_delete c (nbr2_con_tree m)) as [|[c' k] L] eqn:EL; [done|].
      assert ((c', k) ∈ tree_delete c (nbr2_con_tree m)) as [Hne Hin']%elem_of_tree_delete by (rewrite EL; left).
      apply (cb_in2 _ _ _ _ Ok _ m c' k Hm) in Hin' as (x' & Hx' & Ex & _). simpl in Hne. by apply Hne, (Hl c' x').
Qed.

(** The two hop neighbours that only connectors of [L] reach. *)
Definition only_by (w : neighborhood) (L : list loc) (q : loc) : Prop :=
  (exists c x, nbr_cons w !! c = Some x /\ con_nbr2 x = q) /\ forall c x, nbr_cons w !! c = Some x -> con_nbr2 x = q -> c ∈ L.

Lemma only_by_cons w w1 c x L q : nbr_cons w !! c = Some x -> c ∉ L -> cons_gone (fun c' _ => c' = c) (fun q => q = con_nbr2 x /\ last_con w c x) w w1 ->
  only_by w (c :: L) q <-> (q = con_nbr2 x /\ last_con w c x) \/ only_by w1 L q.
Proof.
  intros Hc Hn [G _ _]. split.
  - intros [(c' & x' & Hc' & Hq) Hall].
    destruct (map_choose_or_empty (filter (fun y => con_nbr2 y.2 = q) (nbr_cons w1))) as [(c1 & x1 & [Hc1 Hq1]%map_lookup_filter_Some)|E].
    + right. split; [by exists c1, x1|]. intros c2 x2 [Hc2 Hne]%G Hq2. pose proof (Hall c2 x2 Hc2 Hq2) as [?|?]%elem_of_cons; done.
    + left. assert (Hno : forall c2 x2, nbr_cons w !! c2 = Some x2 -> con_nbr2 x2 = q -> c2 = c).
      { intros c2 x2 Hc2 Hq2. destruct (decide (c2 = c)); [done|]. exfalso. apply (map_filter_empty_not_lookup _ _ c2 x2 E); [|by apply G]. done. }
      assert (c' = c) as -> by (by eapply Hno). simplify_eq. done.
  - intros [[-> Hl]|[(c' & x' & [Hc' Hne]%G & Hq) Hall]].
    + split; [by exists c, x|]. intros c' x' Hc' Hq. rewrite (Hl c' x' Hc' Hq). left.
    + split; [by exists c', x'|]. intros c1 x1 Hc1 Hq1. destruct (decide (c1 = c)) as [->|]; [left|right]. by apply (Hall c1 x1); [apply G|].
Qed.

Lemma delete_con_list_run ti s L : forall w T b, cons_ok ti w T -> NoDup L.*1 -> (forall c, c ∈ L.*1 -> is_Some (nbr_cons w !! c)) ->
  exists w' T' b', delete_nbr_connectors L (nst w T b s) = Some (nst w' T' b' s, tt) /\ cons_ok ti w' T' /\ timers_kept ti T T' /\
    cons_gone (fun c _ => c ∈ L.*1) (only_by w L.*1) w w'.
Proof.
  induction L as [|[c k] L IH]; intros w T b Ok ND Hall.
  - exists w, T, b. split; [done|]. split_and!; try done. split; [|split; [|naive_solver]|done].
    + intros c x. split; [|tauto]. intros H. split; [done|]. apply not_elem_of_nil.
    + intros Hq. split; [done|]. intros [(c & x & Hc & Hx) Ho]. by apply (elem_of_nil c), (Ho c x).
  - apply NoDup_cons in ND as [Hn ND]. simpl in Hn. destruct (Hall c ltac:(left)) as [x Hc].
    destruct (delete_nbr_con_run ti w T b s c x Ok Hc) as (w1 & T1 & b1 & R1 & Ok1 & K1 & G1).
    destruct (IH w1 T1 b1 Ok1 ND) as (w2 & T2 & b2 & R2 & Ok2 & K2 & G2).
    { intros c' Hc'. destruct (Hall c' ltac:(by right)) as [x' Hx']. exists x'. apply (cg_cons _ _ _ _ G1). split; [done|]. by intros ->. }
    exists w2, T2, b2. split; [cbn [delete_nbr_connectors]; by erewrite bind_run by exact R1|].
    split_and!; [done|by eapply timers_kept_trans|]. eapply cons_gone_trans; [exact G1|exact G2| |].
    + intros c' x' _. simpl. by rewrite elem_of_cons.
    + intros q _. by eapply only_by_cons.
Qed.

Lemma delete_nbr_cons_run ti w T b s p n : cons_ok ti w T -> nbrs w !! p = Some n ->
  exists w' T' b', delete_nbr_connectors (nbr_con_tree n) (nst w T b s) = Some (nst w' T' b' s, tt) /\ cons_ok ti w' T' /\ timers_kept ti T T' /\
    cons_gone (fun _ x => con_nbr x = p) (only_by w (nbr_con_tree n).*1) w w' /\ nbrs w' !! p = Some (set_nbr_cons [] n).
Proof.
  intros Ok Hp. assert (Hin : forall c, c ∈ (nbr_con_tree n).*1 <-> exists x, nbr_cons w !! c = Some x /\ con_nbr x = p).
  { intros c. split.
    - intros ([c' k] & -> & Hin)%list_elem_of_fmap. apply (cb_in1 _ _ _ _ Ok p n c' k Hp) in Hin as (x & Hx & E & _). by exists x.
    - intros (x & Hx & E). destruct (cb_ends _ _ _ _ Ok c x Hx) as [_ [m Hm]]. apply list_elem_of_fmap. exists (c, nbr2_addr m).
      split; [done|]. apply (cb_in1 _ _ _ _ Ok p n c _ Hp). exists x. unfold nbr2_at. by rewrite Hm. }
  destruct (delete_con_list_run ti s (nbr_con_tree n) w T b Ok) as (w' & T' & b' & R & Ok' & K & G).
  { by apply (cb_tree1 _ _ _ _ Ok p). }
  { intros c (x & Hx & _)%Hin. by exists x. }
  exists w', T', b'. split; [done|]. split_and!; [done|done| |].
  - eapply cons_gone_trans; [exact G|apply cons_gone_nil| |naive_solver]. intros c x Hc. rewrite Hin. split; [naive_solver|].
    intros [(x' & Hx' & E)|[]]. congruence.
  - pose proof (wf_nbrs _ _ (cg_frame _ _ _ _ G) p) as E. rewrite Hp in E. destruct (nbrs w' !! p) as [n'|] eqn:Hp'; [|done].
    assert (nbr_con_tree n' = []) as E0.
    { destruct (nbr_con_tree n') as [|[c k] L] eqn:EL; [done|]. exfalso. assert ((c, k) ∈ nbr_con_tree n') as Hc by (rewrite EL; left).
      apply (cb_in1 _ _ _ _ Ok' p n' c k Hp') in Hc as (x & Hx & Ex & _). apply (cg_cons _ _ _ _ G) in Hx as [Hx Hno]. apply Hno, Hin. by exists x. }
    etransitivity; [|exact E]. destruct n'. simpl in E0. by subst.
Qed.

(** ** A connector comes *)
Definition with_new_nbr2 (q : loc) (a : ip_addr) (w : neighborhood) : neighborhood :=
  with_nbr2 (tree_insert comp false a q (nbr2_tree w)) (<[q := mkNbr2 a []]> (nbr2s w)) w.

Definition mids_ok (w : neighborhood) : Prop := forall p k, (p, k) ∈ mid_tree w -> exists m, mids w !! p = Some m /\ is_Some (tcs (nh_lsdb w) !! mid_tc m).

Lemma lookup_nbr2_run a lu w : mids_ok w ->
  olsr_lookup_nbr2_entry ip_version a lu w = Some (tree_find comp a (nbr2_tree w)).
Proof.
  intros H. unfold olsr_lookup_nbr2_entry. destruct lu; [|done]. unfold olsr_lookup_main_addr_by_alias, olsr_lookup_mid_entry.
  destruct (tree_find comp a (mid_tree w)) as [p|] eqn:E; [|done]. apply tree_find_Some in E as (k & Hin & _).
  destruct (H p k Hin) as (m & -> & [t Ht]). simpl. by rewrite Ht.
Qed.

Lemma timer_change_of T ti c h rel pct : timers_ok T -> timer_of T ti c h ->
  exists T', olsr_timer_change (Some h) rel pct T = Some (T', tt) /\ timers_ok T' /\ same_env T T' /\ forall ti' u q, timer_of T ti' u q -> timer_of T' ti' u q.
Proof.
  intros Ok (tm & Hh & Hr & Hi & Hc). destruct (w_info _ Ok h tm Hh) as [info Hinfo].
  destruct (timer_change_run T h tm info rel pct Ok Hh (running_linked _ _ _ Ok Hh Hr) Hinfo) as (T' & R & Ok' & Env & Et & _).
  exists T'. split_and!; try done. intros ti' u q (tq & Hq & ?). destruct (decide (h = q)) as [<-|Hne].
  - simplify_eq. eexists. by rewrite Et, lookup_insert_eq.
  - exists tq. by rewrite Et, lookup_insert_ne.
Qed.

Lemma new_nbr2_at w q a q' : nbr2_at (with_new_nbr2 q a w) q' = if decide (q = q') then Some a else nbr2_at w q'.
Proof. unfold nbr2_at. simpl. case_decide as E; [subst; by rewrite lookup_insert_eq|by rewrite lookup_insert_ne]. Qed.

(** A new two hop neighbour has no connectors yet. *)
Lemma new_nbr2_ok ti w T a q : cons_ok ti w T -> tree_find comp a (nbr2_tree w) = None -> nbr2s w !! q = None -> cons_but (Some q) ti (with_new_nbr2 q a w) T.
Proof.
  intros [C1 C2 C3 C4 C5 C6 C7 C8 C9 C10 C11 C12 C13] Hf Hq.
  assert (Hn : forall k, (q, k) ∉ nbr2_tree w) by (intros k H%C4; unfold nbr2_at in H; by rewrite Hq in H).
  assert (Hne : forall c x, nbr_cons w !! c = Some x -> con_nbr2 x <> q) by (intros c x Hc <-; destruct (C7 c x Hc) as [_ [? ?]]; congruence).
  split; try done.
  - simpl. apply tree_wf_insert; [apply _|done| |done]. intros ([q' k] & -> & H)%list_elem_of_fmap. by apply (Hn k).
  - intros q' k. rewrite new_nbr2_at. simpl. rewrite (elem_of_tree_insert comp _ false a q (q', k) (or_intror Hf)), C4.
    case_decide as E; [subst|naive_solver]. unfold nbr2_at. rewrite Hq. simpl. naive_solver.
  - intros q' m. simpl. intros [[<- <-]|[_ H]]%lookup_insert_Some; [apply tree_wf_nil|by apply (C6 q')].
  - intros c x Hc. destruct (C7 c x Hc) as [H1 H2]. split; [done|]. simpl. rewrite lookup_insert_ne; [done|]. intros E. by apply (Hne c x).
  - intros p n c k Hp. rewrite (C8 p n c k Hp). split; intros (x & Hc & Hx & Hk); exists x; (split_and!; [done|done|]); rewrite new_nbr2_at in *.
    + rewrite decide_False; [done|]. intros E. by apply (Hne c x).
    + rewrite decide_False in Hk; [done|]. intros E. by apply (Hne c x).
  - intros q' m c k. simpl. intros [[<- <-]|[_ H]]%lookup_insert_Some; [|by apply (C9 q')]. simpl. split; [by intros ?%elem_of_nil|].
    intros (x & Hc & Hx & _). by destruct (Hne c x).
  - intros q' m. simpl. intros [[<- <-]|[Hq' H]]%lookup_insert_Some Hx; [by destruct Hx|]. by apply (C10 q' m).
Qed.

Definition with_new_con (c p q : loc) (n : nbr_entry) (m : nbr2_entry) (h : loc) (w : neighborhood) : neighborhood :=
  with_cons (<[c := mkCon p q (Some h) 0 LINK_COST_BROKEN]> (nbr_cons w))
    (with_nbr2 (nbr2_tree w) (<[q := set_nbr2_cons (tree_insert comp false (nbr_addr n) c (nbr2_con_tree m)) m]> (nbr2s w))
      (with_nbrs (<[p := set_nbr_cons (tree_insert comp false (nbr2_addr m) c (nbr_con_tree n)) n]> (nbrs w)) w)).

Section new_con.
Context (ti : loc) (w : neighborhood) (T : timer_st) (c p q h : loc) (n : nbr_entry) (m : nbr2_entry).
Context (Ok : cons_but (Some q) ti w T) (Hp : nbrs w !! p = Some n) (Hq : nbr2s w !! q = Some m) (Hc : nbr_cons w !! c = None).
Context (Hf : tree_find comp (nbr2_addr m) (nbr_con_tree n) = None).
Abbreviation w' := (with_new_con c p q n m h w).

(** The two hop neighbour has no connector of the neighbour either. *)
Lemma new_con_free : tree_find comp (nbr_addr n) (nbr2_con_tree m) = None.
Proof.
  apply tree_find_None. intros c' k Hin E. apply (cb_in2 _ _ _ _ Ok q m c' k Hq) in Hin as (x & Hx & Ex & Hk).
  apply (cb_nbr_in _ _ _ _ Ok) in Hk. assert ((p, nbr_addr n) ∈ nbr_tree w) as Hpt by (apply (cb_nbr_in _ _ _ _ Ok); unfold nbr_at; by rewrite Hp).
  destruct (tree_unique comp _ _ _ _ _ (cb_nbr _ _ _ _ Ok) Hpt Hk E) as [-> _].
  rewrite tree_find_None in Hf. apply (Hf c' (nbr2_addr m)); [|by apply (comp_refl (comp := comp))].
  apply (cb_in1 _ _ _ _ Ok (con_nbr x) n c' _ Hp). exists x. unfold nbr2_at. by rewrite Ex, Hq.
Qed.

Lemma new_con_nbr_at p' : nbr_at w' p' = nbr_at w p'.
Proof. unfold nbr_at. simpl. destruct (decide (p = p')) as [<-|]; [by rewrite lookup_insert_eq, Hp|by rewrite lookup_insert_ne]. Qed.
Lemma new_con_nbr2_at q' : nbr2_at w' q' = nbr2_at w q'.
Proof. unfold nbr2_at. simpl. destruct (decide (q = q')) as [<-|]; [by rewrite lookup_insert_eq, Hq|by rewrite lookup_insert_ne]. Qed.

Lemma new_con_fresh1 p' n' : nbrs w !! p' = Some n' -> c ∉ (nbr_con_tree n').*1.
Proof. intros Hp' ([c' k] & -> & H)%list_elem_of_fmap. apply (cb_in1 _ _ _ _ Ok p' n' c' k Hp') in H as (x & Hx & _). simpl in *. congruence. Qed.
Lemma new_con_fresh2 q' m' : nbr2s w !! q' = Some m' -> c ∉ (nbr2_con_tree m').*1.
Proof. intros Hq' ([c' k] & -> & H)%list_elem_of_fmap. apply (cb_in2 _ _ _ _ Ok q' m' c' k Hq') in H as (x & Hx & _). simpl in *. congruence. Qed.

Lemma new_con_ok T' : timers_ok T' -> same_env T T' -> timer_of T' ti c h -> (forall u r, timer_of T ti u r -> timer_of T' ti u r) -> cons_ok ti w' T'.
Proof.
  intros Ok' Env Hh Ht. pose proof Ok as [C1 C2 C3 C4 C5 C6 C7 C8 C9 C10 C11 C12 C13]. pose proof new_con_free as Hf2. split; try done.
  - intros p' k. rewrite new_con_nbr_at. apply C2.
  - intros q' k. rewrite new_con_nbr2_at. apply C4.
  - intros p' n'. simpl. intros [[<- <-]|[_ H]]%lookup_insert_Some; [|by apply (C5 p')].
    apply tree_wf_insert; [apply _|by apply (C5 p)|by apply (new_con_fresh1 p)|done].
  - intros q' m'. simpl. intros [[<- <-]|[_ H]]%lookup_insert_Some; [|by apply (C6 q')].
    apply tree_wf_insert; [apply _|by apply (C6 q)|by apply (new_con_fresh2 q)|done].
  - intros c' x. simpl. intros [[<- <-]|[_ H]]%lookup_insert_Some; [simpl; by rewrite !lookup_insert_eq|].
    destruct (C7 c' x H) as [H1 H2]. split; rewrite lookup_insert_is_Some'; tauto.
  - intros p' n' c' k H. setoid_rewrite new_con_nbr2_at. simpl in *. setoid_rewrite lookup_insert_Some.
    apply lookup_insert_Some in H as [[<- <-]|[Hne H]].
    + simpl. rewrite (elem_of_tree_insert comp _ false _ _ _ (or_intror Hf)), (C8 p n c' k Hp). split.
      * intros [[= -> ->]|(x & Hx & Ex & Hk)]; [eexists; split; [by left|]; simpl; split; [done|]; unfold nbr2_at; by rewrite Hq|].
        exists x. split; [|done]. right. split; [congruence|done].
      * intros (x & [[<- <-]|[_ Hx]] & Ex & Hk); [left; simpl in Hk; unfold nbr2_at in Hk; rewrite Hq in Hk; simpl in Hk; by simplify_eq|right; by exists x].
    + rewrite (C8 p' n' c' k H). split; [intros (x & Hx & Ex & Hk); exists x; split; [right; split; [congruence|done]|done]|].
      intros (x & [[<- <-]|[_ Hx]] & Ex & Hk); [by destruct Hne|by exists x].
  - intros q' m' c' k H. setoid_rewrite new_con_nbr_at. simpl in *. setoid_rewrite lookup_insert_Some.
    apply lookup_insert_Some in H as [[<- <-]|[Hne H]].
    + simpl. rewrite (elem_of_tree_insert comp _ false _ _ _ (or_intror Hf2)), (C9 q m c' k Hq). split.
      * intros [[= -> ->]|(x & Hx & Ex & Hk)]; [eexists; split; [by left|]; simpl; split; [done|]; unfold nbr_at; by rewrite Hp|].
        exists x. split; [|done]. right. split; [congruence|done].
      * intros (x & [[<- <-]|[_ Hx]] & Ex & Hk); [left; simpl in Hk; unfold nbr_at in Hk; rewrite Hp in Hk; simpl in Hk; by simplify_eq|right; by exists x].
    + rewrite (C9 q' m' c' k H). split; [intros (x & Hx & Ex & Hk); exists x; split; [right; split; [congruence|done]|done]|].
      intros (x & [[<- <-]|[_ Hx]] & Ex & Hk); [by destruct Hne|by exists x].
  - intros q' m'. simpl. intros [[<- <-]|[Hne H]]%lookup_insert_Some _; [|apply (C10 q' m' H); congruence]. simpl.
    intros E. assert ((c, nbr_addr n) ∈ tree_insert comp false (nbr_addr n) c (nbr2_con_tree m)) as Hin by (rewrite (elem_of_tree_insert comp _ false _ _ _ (or_intror Hf2)); by left).
    rewrite E in Hin. by apply elem_of_nil in Hin.
  - by apply (se_infos _ _ Env).
  - intros c' x h'. simpl. intros [[<- <-]|[Hne H]]%lookup_insert_Some Hx; [simpl in Hx; by simplify_eq|]. apply Ht. by apply (C13 c' x).
Qed.
End new_con.

Lemma cons_weaken X ti w T : cons_ok ti w T -> cons_but X ti w T.
Proof. intros [C1 C2 C3 C4 C5 C6 C7 C8 C9 C10 C11 C12 C13]. split; try done. intros q m Hq _. by apply (C10 q m). Qed.

Lemma add_nbr2_run ti w T b s a : cons_ok ti w T -> mids_ok w ->
  exists w' q m, olsr_add_nbr2_entry ip_version a (nst w T b s) = Some (nst w' T b s, q) /\ cons_but (Some q) ti w' T /\ nbr2s w' !! q = Some m /\
    comp a (nbr2_addr m) = 0 /\ nbr_cons w' = nbr_cons w /\ nbrs w' = nbrs w /\ w_frame w w' /\
    (forall q' k, nbr2_at w q' = Some k -> nbr2_at w' q' = Some k).
Proof.
  intros Ok Mo. unfold olsr_add_nbr2_entry. erewrite bind_run by (apply on_w_get_nst, lookup_nbr2_run, Mo).
  destruct (tree_find comp a (nbr2_tree w)) as [q|] eqn:Ef.
  - apply tree_find_Some in Ef as (k & Hin & E). apply (cb_nbr2_in _ _ _ _ Ok) in Hin. apply fmap_Some in Hin as (m & Hm & ->).
    exists w, q, m. split; [done|]. split_and!; try done. by apply cons_weaken.
  - set (q := fresh (dom (nbr2s w))). assert (Hq : nbr2s w !! q = None) by apply not_elem_of_dom, is_fresh.
    exists (with_new_nbr2 q a w), q, (mkNbr2 a []). split; [by erewrite bind_run by reflexivity|]. split_and!; try done.
    + by apply new_nbr2_ok.
    + simpl. by rewrite lookup_insert_eq.
    + by apply (comp_refl (comp := comp)).
    + intros q' k Hk. rewrite new_nbr2_at. case_decide as E; [|done]. subst q'. unfold nbr2_at in Hk. by rewrite Hq in Hk.
Qed.

(** ** The relation between neighbours and two hop neighbours *)
Definition hops (w : neighborhood) (p : loc) (a : ip_addr) : Prop :=
  exists c x k, nbr_cons w !! c = Some x /\ con_nbr x = p /\ nbr2_at w (con_nbr2 x) = Some k /\ comp a k = 0.
(** [c] is the connector between neighbour [p] and address [a]. *)
Definition con_of (w : neighborhood) (p : loc) (a : ip_addr) (c : loc) : Prop :=
  exists x k, nbr_cons w !! c = Some x /\ con_nbr x = p /\ nbr2_at w (con_nbr2 x) = Some k /\ comp a k = 0.

Lemma con_find X ti w T p n a c : cons_but X ti w T -> nbrs w !! p = Some n -> con_of w p a c <-> tree_find comp a (nbr_con_tree n) = Some c.
Proof.
  intros Ok Hp. split.
  - intros (x & k & Hc & Hx & Hk & E). eapply tree_find_in; [apply _|by apply (cb_tree1 _ _ _ _ Ok p)| |exact E].
    apply (cb_in1 _ _ _ _ Ok p n c k Hp). by exists x.
  - intros (k & Hin & E)%tree_find_Some. apply (cb_in1 _ _ _ _ Ok p n c k Hp) in Hin as (x & Hx & Ex & Hk). by exists x, k.
Qed.

(** What [olsr_link_nbr_nbr2] does: the pair is in the relation, nothing else changes. *)
Record linked (p : loc) (a : ip_addr) (c : loc) (w w' : neighborhood) : Prop := {
  lk_con : con_of w' p a c;
  lk_cons : forall c' x', c' <> c -> nbr_cons w' !! c' = Some x' <-> nbr_cons w !! c' = Some x';
  lk_known : forall x, nbr_cons w !! c = Some x -> nbr_cons w' !! c = Some x;
  lk_hops : forall p' a', hops w' p' a' <-> hops w p' a' \/ (p' = p /\ comp a' a = 0);
  lk_frame : w_frame w w';
  lk_at : forall q k, nbr2_at w q = Some k -> nbr2_at w' q = Some k
}.

Lemma link_known ti w T b s p n a c vtime : cons_ok ti w T -> nbrs w !! p = Some n -> tree_find comp a (nbr_con_tree n) = Some c ->
  exists T', olsr_link_nbr_nbr2 rnd ip_version p a vtime (nst w T b s) = Some (nst w T' b s, c) /\ cons_ok ti w T' /\ timers_kept ti T T' /\ linked p a c w w.
Proof.
  intros Ok Hp Hf. pose proof (proj2 (con_find _ ti w T p n a c Ok Hp) Hf) as Hco. pose proof Hco as (x & k & Hc & Hx & Hk & E).
  assert (exists T', olsr_timer_change (nbr2_con_timer x) vtime OLSR_NBR2_LIST_JITTER T = Some (T', tt) /\ timers_ok T' /\ same_env T T' /\
    forall ti' u q, timer_of T ti' u q -> timer_of T' ti' u q) as (T' & R & Ok' & Env & Ht).
  { destruct (nbr2_con_timer x) as [h|] eqn:Eh; [|exists T; split; [done|]; split_and!; try done; apply Ok].
    apply (timer_change_of T ti c h); [apply Ok|by apply (cb_timer _ _ _ _ Ok c x)]. }
  exists T'. split; [|split_and!].
  - unfold olsr_link_nbr_nbr2. erewrite bind_run by (unfold olsr_lookup_nbr_con_entry; by erewrite bind_run by (apply on_w_nst; unfold rd_nbr; by rewrite Hp)).
    rewrite Hf. erewrite bind_run by (apply on_w_nst; unfold rd_con; by rewrite Hc). by erewrite bind_run by (apply on_timers_nst; exact R).
  - destruct Ok as [C1 C2 C3 C4 C5 C6 C7 C8 C9 C10 C11 C12 C13]. split; try done; [by apply (se_infos _ _ Env)|]. intros c' x' h Hc' Hh. by apply Ht, (C13 c' x').
  - split; [done|auto].
  - split; try done. intros p' a'. split; [tauto|]. intros [|[-> Ea]]; [done|]. exists c, x, k. split_and!; try done.
    by apply (comp_eq_trans comp _ a).
Qed.

Lemma new_con_frame w c p q h n m : nbrs w !! p = Some n -> w_frame w (with_new_con c p q n m h w).
Proof. intros Hp. split; try done. intros p'. simpl. destruct (decide (p = p')) as [<-|]; [by rewrite lookup_insert_eq, Hp|by rewrite lookup_insert_ne]. Qed.

Lemma new_con_linked ti w0 w T c p q h n m a : cons_but (Some q) ti w T -> nbrs w !! p = Some n -> nbr2s w !! q = Some m -> nbr_cons w !! c = None ->
  comp a (nbr2_addr m) = 0 -> nbr_cons w = nbr_cons w0 -> w_frame w0 w -> (forall q' k, nbr2_at w0 q' = Some k -> nbr2_at w q' = Some k) ->
  (forall c' x', nbr_cons w0 !! c' = Some x' -> is_Some (nbr2s w0 !! con_nbr2 x')) -> linked p a c w0 (with_new_con c p q n m h w).
Proof.
  intros Ok Hp Hq Hc E Ec F Hat Hends. pose proof (new_con_nbr2_at w c p q h n m Hq) as At.
  assert (Hat' : forall c' x' k, nbr_cons w0 !! c' = Some x' -> nbr2_at w (con_nbr2 x') = Some k -> nbr2_at w0 (con_nbr2 x') = Some k).
  { intros c' x' k Hc' Hk. destruct (Hends c' x' Hc') as [m' Hm']. specialize (Hat (con_nbr2 x') (nbr2_addr m')). unfold nbr2_at at 1 in Hat. rewrite Hm' in Hat.
    rewrite Hat in Hk by done. unfold nbr2_at. by rewrite Hm'. }
  assert (Hnew : nbr2_at w q = Some (nbr2_addr m)) by (unfold nbr2_at; by rewrite Hq).
  split.
  - eexists _, (nbr2_addr m). split; [simpl; by rewrite lookup_insert_eq|]. simpl. by rewrite At.
  - intros c' x' Hne. simpl. by rewrite lookup_insert_ne, Ec.
  - intros x Hx. congruence.
  - intros p' a'. split.
    + intros (c' & x' & k & Hc' & Hx' & Hk & Ek). rewrite At in Hk. simpl in Hc'. apply lookup_insert_Some in Hc' as [[<- <-]|[_ Hc']].
      * right. simpl in Hx', Hk. split; [done|]. rewrite Hnew in Hk. injection Hk as <-. apply (comp_eq_trans comp _ (nbr2_addr m)); [done|]. by apply (comp_eq_sym comp).
      * left. rewrite Ec in Hc'. exists c', x', k. split_and!; try done. by apply (Hat' c').
    + intros [(c' & x' & k & Hc' & Hx' & Hk & Ek)|[-> Ea]].
      * exists c', x', k. split_and!; try done; [|rewrite At; by apply Hat]. simpl. rewrite lookup_insert_ne; [by rewrite Ec|]. congruence.
      * eexists c, _, (nbr2_addr m). split; [simpl; by rewrite lookup_insert_eq|]. simpl. rewrite At. split_and!; [done|done|]. by apply (comp_eq_trans comp _ a).
  - eapply w_frame_trans; [done|by apply new_con_frame].
  - intros q' k Hk. rewrite At. by apply Hat.
Qed.

Lemma link_new ti w T b s p n a vtime : cons_ok ti w T -> mids_ok w -> nbrs w !! p = Some n -> tree_find comp a (nbr_con_tree n) = None -> vtime <> 0 ->
  nbr_connector_timer_info s = ti ->
  exists w' T' c, olsr_link_nbr_nbr2 rnd ip_version p a vtime (nst w T b s) = Some (nst w' T' b s, c) /\ cons_ok ti w' T' /\ timers_kept ti T T' /\ linked p a c w w'.
Proof.
  intros Ok Mo Hp Hf Hv Hti. destruct (add_nbr2_run ti w T b s a Ok Mo) as (w1 & q & m & R1 & Ok1 & Hq & E & Ec & En & F & Hat).
  set (c := fresh (dom (nbr_cons w1))). assert (Hc : nbr_cons w1 !! c = None) by apply not_elem_of_dom, is_fresh.
  destruct (cb_info _ _ _ _ Ok) as [info Hi].
  destruct (timer_start_run rnd T vtime OLSR_NBR2_LIST_JITTER c ti info) as (h & T' & R & Hh & Et & Ok' & Env & _); [apply Ok|done|done|done|].
  assert (Ht : forall ti' u r, timer_of T ti' u r -> timer_of T' ti' u r).
  { intros ti' u r (tr & Hr & ?). exists tr. split; [|done]. rewrite Et, lookup_insert_ne; [done|]. congruence. }
  pose proof Hp as Hp0. rewrite <- En in Hp. assert (Hf1 : tree_find comp (nbr2_addr m) (nbr_con_tree n) = None) by (by rewrite <- (tree_find_ext comp _ a)).
  exists (with_new_con c p q n m h w1), T', c. split; [|split_and!].
  - unfold olsr_link_nbr_nbr2. erewrite bind_run by (unfold olsr_lookup_nbr_con_entry; by erewrite bind_run by (apply on_w_nst; unfold rd_nbr; by rewrite Hp0)).
    rewrite Hf. erewrite bind_run by exact R1. erewrite bind_run by reflexivity. fold c.
    erewrite bind_run by (apply on_w_nst; unfold rd_nbr; by rewrite Hp). erewrite bind_run by (apply on_w_nst; unfold rd_nbr2; by rewrite Hq).
    erewrite bind_run by (apply on_w_nst; reflexivity).
    erewrite bind_run by (apply on_w_nst; unfold wr_nbr; simpl; by rewrite Hp).
    erewrite bind_run by (apply on_w_nst; unfold wr_nbr2; simpl; by rewrite Hq).
    erewrite bind_run by (apply on_w_nst; unfold wr_con; simpl; by rewrite lookup_insert_eq).
    erewrite bind_run by reflexivity. change (nbr_connector_timer_info _) with (nbr_connector_timer_info s). rewrite Hti.
    erewrite bind_run by (apply on_timers_nst; exact R).
    erewrite bind_run by (apply on_w_nst; unfold wr_con; simpl; by rewrite lookup_insert_eq).
    unfold with_new_con, with_cons. simpl. by rewrite !insert_insert_eq.
  - apply (new_con_ok ti w1 T c p q h n m Ok1 Hp Hq Hc Hf1 T' Ok' Env); [|eauto]. eexists. rewrite Et, lookup_insert_eq. done.
  - split; [done|eauto].
  - eapply new_con_linked; try done. intros c' x' Hc'. by apply (cb_ends _ _ _ _ Ok c' x').
Qed.

Lemma link_run ti w T b s p n a vtime : cons_ok ti w T -> mids_ok w -> nbrs w !! p = Some n -> vtime <> 0 -> nbr_connector_timer_info s = ti ->
  exists w' T' c, olsr_link_nbr_nbr2 rnd ip_version p a vtime (nst w T b s) = Some (nst w' T' b s, c) /\ cons_ok ti w' T' /\ timers_kept ti T T' /\ linked p a c w w'.
Proof.
  intros Ok Mo Hp Hv Hti. destruct (tree_find comp a (nbr_con_tree n)) as [c|] eqn:Ef; [|by eapply link_new].
  destruct (link_known ti w T b s p n a c vtime Ok Hp Ef) as (T' & ?). by exists w, T', c.
Qed.

(** A two hop neighbour is known exactly if a neighbour announces it. *)
Lemma nbr2_known ti w T a : cons_ok ti w T -> is_Some (tree_find comp a (nbr2_tree w)) <-> exists p, hops w p a.
Proof.
  intros Ok. split.
  - intros [q (k & Hin & E)%tree_find_Some]. apply (cb_nbr2_in _ _ _ _ Ok) in Hin. pose proof Hin as (m & Hm & _)%fmap_Some.
    pose proof (cb_some _ _ _ _ Ok q m Hm ltac:(done)) as Hne. destruct (nbr2_con_tree m) as [|[c kn] L] eqn:EL; [done|].
    assert ((c, kn) ∈ nbr2_con_tree m) as Hc by (rewrite EL; left). apply (cb_in2 _ _ _ _ Ok q m c kn Hm) in Hc as (x & Hx & <- & _).
    by exists (con_nbr x), c, x, k.
  - intros (p & c & x & k & Hc & Hx & Hk & E). apply (cb_nbr2_in _ _ _ _ Ok) in Hk. rewrite (tree_find_in comp _ (con_nbr2 x) a k); [done|apply Ok|done..].
Qed.

Lemma nbr2_unique X ti w T q q' k k' : cons_but X ti w T -> nbr2_at w q = Some k -> nbr2_at w q' = Some k' -> comp k k' = 0 -> q = q'.
Proof. intros Ok H1%(cb_nbr2_in _ _ _ _ Ok) H2%(cb_nbr2_in _ _ _ _ Ok) E. by destruct (tree_unique comp _ _ _ _ _ (cb_nbr2 _ _ _ _ Ok) H1 H2 E). Qed.

(** Pairs whose connector stays. *)
Lemma hops_gone ti w w' T T' P Q p a : cons_ok ti w T -> cons_ok ti w' T' -> cons_gone P Q w w' ->
  hops w' p a <-> exists c x k, nbr_cons w !! c = Some x /\ ~ P c x /\ con_nbr x = p /\ nbr2_at w (con_nbr2 x) = Some k /\ comp a k = 0.
Proof.
  intros Ok Ok' G. split.
  - intros (c & x & k & [Hc Hp]%(cg_cons _ _ _ _ G) & Hx & [Hk _]%(cg_nbr2 _ _ _ _ G) & E). by exists c, x, k.
  - intros (c & x & k & Hc & Hp & Hx & Hk & E). assert (Hc' : nbr_cons w' !! c = Some x) by (by apply (cg_cons _ _ _ _ G)).
    exists c, x, k. split_and!; try done. destruct (cb_ends _ _ _ _ Ok' c x Hc') as [_ [m Hm]].
    assert (nbr2_at w' (con_nbr2 x) = Some (nbr2_addr m)) as Em by (unfold nbr2_at; by rewrite Hm).
    rewrite Em. apply (cg_nbr2 _ _ _ _ G) in Em as [Em _]. congruence.
Qed.

Lemma hops_without_nbr2 ti w w' T T' q k p a : cons_ok ti w T -> cons_ok ti w' T' -> nbr2_at w q = Some k ->
  cons_gone (fun _ x => con_nbr2 x = q) (fun q' => q' = q) w w' -> hops w' p a <-> hops w p a /\ comp a k <> 0.
Proof.
  intros Ok Ok' Hq G. rewrite (hops_gone ti w w' T T' _ _ p a Ok Ok' G). split.
  - intros (c & x & k' & Hc & Hno & Hx & Hk & E). split; [by exists c, x, k'|]. intros E'. apply Hno. eapply (nbr2_unique None ti w T); [done..|].
    apply (comp_eq_trans comp _ a); [by apply (comp_eq_sym comp)|done].
  - intros [(c & x & k' & Hc & Hx & Hk & E) Hno]. exists c, x, k'. split_and!; try done. intros <-. congruence.
Qed.

Lemma hops_without_con ti w w' T T' c x k p a Q : cons_ok ti w T -> cons_ok ti w' T' -> nbr_cons w !! c = Some x -> nbr2_at w (con_nbr2 x) = Some k ->
  cons_gone (fun c' _ => c' = c) Q w w' -> hops w' p a <-> hops w p a /\ ~ (p = con_nbr x /\ comp a k = 0).
Proof.
  intros Ok Ok' Hc Hk G. rewrite (hops_gone ti w w' T T' _ _ p a Ok Ok' G). split.
  - intros (c' & x' & k' & Hc' & Hno & Hx & Hk' & E). split; [by exists c', x', k'|]. intros [-> E']. apply Hno.
    destruct (cb_ends _ _ _ _ Ok c x Hc) as [[n Hn] _].
    assert (tree_find comp a (nbr_con_tree n) = Some c') by (apply (con_find None ti w T (con_nbr x)); [done..|]; by exists x', k').
    assert (tree_find comp a (nbr_con_tree n) = Some c) by (apply (con_find None ti w T (con_nbr x)); [done..|]; by exists x, k). congruence.
  - intros [(c' & x' & k' & Hc' & Hx & Hk' & E) Hno]. exists c', x', k'. split_and!; try done. intros ->. simplify_eq. by destruct Hno.
Qed.

(** ** Sequences of operations *)
Inductive nop := NLink (p : loc) (a : ip_addr) (vtime : Z) | NExpire (p : loc) (a : ip_addr) | NDrop (a : ip_addr).

(** Neighbour [p] announces [a]; the connector between them expires; the two hop
    neighbour [a] is deleted. *)
Definition run_nop (o : nop) : M unit :=
  match o with
  | NLink p a vtime => olsr_link_nbr_nbr2 rnd ip_version p a vtime;; mret tt
  | NExpire p a => c ← olsr_lookup_nbr_con_entry ip_version p a; match c with Some c => olsr_expire_nbr_con c | None => mret tt end
  | NDrop a => q ← on_w_get (olsr_lookup_nbr2_entry ip_version a false); match q with Some q => olsr_delete_nbr2_entry q | None => mret tt end
  end.
Fixpoint run_nops (os : list nop) : M unit := match os with [] => mret tt | o :: os => run_nop o;; run_nops os end.

Definition spec_nop (o : nop) (R : loc -> ip_addr -> Prop) : loc -> ip_addr -> Prop := fun p a =>
  match o with
  | NLink p' a' _ => R p a \/ (p = p' /\ comp a a' = 0)
  | NExpire p' a' => R p a /\ ~ (p = p' /\ comp a a' = 0)
  | NDrop a' => R p a /\ comp a a' <> 0
  end.
Definition spec_nops (os : list nop) (R : loc -> ip_addr -> Prop) : loc -> ip_addr -> Prop := foldl (fun R o => spec_nop o R) R os.
Definition nop_legal (w : neighborhood) (o : nop) : Prop :=
  match o with NLink p _ vtime => is_Some (nbrs w !! p) /\ vtime <> 0 | NExpire p _ => is_Some (nbrs w !! p) | NDrop _ => True end.

Lemma con_upd ti w T c x x' : cons_ok ti w T -> nbr_cons w !! c = Some x -> con_nbr x' = con_nbr x -> con_nbr2 x' = con_nbr2 x ->
  (forall h, nbr2_con_timer x' = Some h -> nbr2_con_timer x = Some h) ->
  let w' := with_cons (<[c := x']> (nbr_cons w)) w in cons_ok ti w' T /\ forall p a, hops w' p a <-> hops w p a.
Proof.
  intros [C1 C2 C3 C4 C5 C6 C7 C8 C9 C10 C11 C12 C13] Hc E1 E2 Et w'.
  assert (Hlk : forall (F : loc -> loc -> Prop) c', (exists y, nbr_cons w' !! c' = Some y /\ F (con_nbr y) (con_nbr2 y)) <-> exists y, nbr_cons w !! c' = Some y /\ F (con_nbr y) (con_nbr2 y)).
  { intros F c'. simpl. destruct (decide (c = c')) as [<-|]; [|by rewrite lookup_insert_ne]. rewrite lookup_insert_eq, Hc.
    split; intros (y & [= <-] & Hy); eexists; (split; [done|]); by rewrite E1, E2 in *. }
  split; [split; try done|].
  - intros c' y Hc'. simpl in Hc'. apply lookup_insert_Some in Hc' as [[<- <-]|[_ Hc']]; [rewrite E1, E2; by apply (C7 c x)|by apply (C7 c' y)].
  - intros p n c' k Hp. rewrite (C8 p n c' k Hp). symmetry. apply (Hlk (fun a b => a = p /\ nbr2_at w b = Some k)).
  - intros q m c' k Hq. rewrite (C9 q m c' k Hq). symmetry. apply (Hlk (fun a b => b = q /\ nbr_at w a = Some k)).
  - intros c' y h Hc'. simpl in Hc'. apply lookup_insert_Some in Hc' as [[<- <-]|[_ Hc']]; [|by apply (C13 c' y)]. intros Hh. by apply (C13 c x), Et.
  - intros p a. unfold hops. split; intros (c' & y & k & Hy & Hrest); exists c'.
    + destruct (proj1 (Hlk (fun a b => a = p /\ nbr2_at w b = Some k) c')) as (z & Hz & ? & ?); [exists y; split; [done|by split; apply Hrest]|].
      exists z, k. split_and!; by try apply Hrest.
    + destruct (proj2 (Hlk (fun a b => a = p /\ nbr2_at w b = Some k) c')) as (z & Hz & ? & ?); [exists y; split; [done|by split; apply Hrest]|].
      exists z, k. split_and!; by try apply Hrest.
Qed.
Lemma con_timer_off ti w T c x : cons_ok ti w T -> nbr_cons w !! c = Some x ->
  let w' := with_cons (<[c := set_con_timer None x]> (nbr_cons w)) w in cons_ok ti w' T /\ forall p a, hops w' p a <-> hops w p a.
Proof. intros Ok Hc. by apply (con_upd ti w T c x). Qed.

Lemma comp_eq_iff a b c : comp a b = 0 -> comp c a = 0 <-> comp c b = 0.
Proof. intros E. split; intros H; [by apply (comp_eq_trans comp _ a)|]. apply (comp_eq_trans comp _ b); [done|by apply (comp_eq_sym comp)]. Qed.

Definition nop_done (ti : loc) (w : neighborhood) (T : timer_st) (o : nop) (w' : neighborhood) (T' : timer_st) : Prop :=
  cons_ok ti w' T' /\ timers_kept ti T T' /\ w_frame w w' /\ forall p a, hops w' p a <-> spec_nop o (hops w) p a.

Lemma expire_run ti w T b s p n a : cons_ok ti w T -> nbrs w !! p = Some n ->
  exists w' T' b', run_nop (NExpire p a) (nst w T b s) = Some (nst w' T' b' s, tt) /\ nop_done ti w T (NExpire p a) w' T'.
Proof.
  intros Ok Hp. unfold run_nop. erewrite bind_run by (unfold olsr_lookup_nbr_con_entry; by erewrite bind_run by (apply on_w_nst; unfold rd_nbr; by rewrite Hp)).
  destruct (tree_find comp a (nbr_con_tree n)) as [c|] eqn:Ef.
  - pose proof (proj2 (con_find _ ti w T p n a c Ok Hp) Ef) as (x & k & Hc & Hx & Hk & E). destruct (con_timer_off ti w T c x Ok Hc) as [Ok1 Hh1].
    set (w1 := with_cons (<[c := set_con_timer None x]> (nbr_cons w)) w) in *.
    assert (Hc1 : nbr_cons w1 !! c = Some (set_con_timer None x)) by (simpl; by rewrite lookup_insert_eq).
    destruct (delete_nbr_con_run ti w1 T b s c _ Ok1 Hc1) as (w2 & T2 & b2 & R2 & Ok2 & K2 & G2).
    exists w2, T2, b2. split; [unfold olsr_expire_nbr_con; by erewrite bind_run by (apply on_w_nst; unfold wr_con; by rewrite Hc)|].
    split_and!; [done|done|eapply w_frame_trans; [|apply G2]; done|].
    intros p' a'. rewrite (hops_without_con ti w1 w2 T T2 c _ k p' a' _ Ok1 Ok2 Hc1 Hk G2), Hh1. simpl. rewrite Hx, (comp_eq_iff a k a' E). done.
  - exists w, T, b. split; [done|]. split_and!; try done. intros p' a'. simpl. split; [|tauto]. intros Hh. split; [done|]. intros [-> E].
    destruct Hh as (c & x & k & Hc & Hx & Hk & Ek). assert (tree_find comp a (nbr_con_tree n) = Some c); [|congruence].
    apply (con_find _ ti w T p n a c Ok Hp). exists x, k. split_and!; try done. apply (comp_eq_trans comp _ a'); [by apply (comp_eq_sym comp)|done].
Qed.

Lemma drop_run ti w T b s a : cons_ok ti w T -> exists w' T' b', run_nop (NDrop a) (nst w T b s) = Some (nst w' T' b' s, tt) /\ nop_done ti w T (NDrop a) w' T'.
Proof.
  intros Ok. unfold run_nop. erewrite bind_run by (by apply on_w_get_nst). destruct (tree_find comp a (nbr2_tree w)) as [q|] eqn:Ef.
  - pose proof Ef as (k & Hin & E)%tree_find_Some. apply (cb_nbr2_in _ _ _ _ Ok) in Hin. pose proof Hin as (m & Hm & _)%fmap_Some.
    destruct (delete_nbr2_run _ ti w T b s q m Ok (or_introl eq_refl) Hm) as (w' & T' & R & Ok' & K & G).
    exists w', T', true. split; [done|]. split_and!; [done|done|apply G|]. intros p' a'. simpl.
    by rewrite (hops_without_nbr2 ti w w' T T' q k p' a' Ok Ok' Hin G), (comp_eq_iff a k a' E).
  - exists w, T, b. split; [done|]. split_and!; try done. intros p' a'. simpl. split; [|tauto]. intros Hh. split; [done|]. intros E.
    assert (is_Some (tree_find comp a (nbr2_tree w))) as [? ?]; [|congruence]. rewrite <- (tree_find_ext comp _ a' a E).
    apply (nbr2_known ti w T a' Ok). by exists p'.
Qed.

Lemma nop_run ti w T b s o : cons_ok ti w T -> mids_ok w -> nop_legal w o -> nbr_connector_timer_info s = ti ->
  exists w' T' b', run_nop o (nst w T b s) = Some (nst w' T' b' s, tt) /\ nop_done ti w T o w' T'.
Proof.
  intros Ok Mo Hl Hti. destruct o as [p a vtime|p a|a]; [|destruct Hl as [n Hp]; by eapply expire_run|by apply drop_run].
  destruct Hl as [[n Hp] Hv]. destruct (link_run ti w T b s p n a vtime Ok Mo Hp Hv Hti) as (w' & T' & c & R & Ok' & K & L).
  exists w', T', b. split; [unfold run_nop; by erewrite bind_run by exact R|]. split_and!; [done|done|apply L|apply L].
Qed.

Lemma frame_mids w w' : w_frame w w' -> mids_ok w -> mids_ok w'.
Proof. intros F H p k. rewrite (wf_mid_tree _ _ F), (wf_mids _ _ F), (wf_lsdb _ _ F). apply H. Qed.
Lemma frame_nbr w w' p : w_frame w w' -> is_Some (nbrs w !! p) -> is_Some (nbrs w' !! p).
Proof. intros F [n Hp]. pose proof (wf_nbrs _ _ F p) as E. rewrite Hp in E. by destruct (nbrs w' !! p). Qed.
Lemma spec_nop_ext o R R' : (forall p a, R p a <-> R' p a) -> forall p a, spec_nop o R p a <-> spec_nop o R' p a.
Proof. intros H p a. destruct o; simpl; by rewrite H. Qed.
Lemma spec_nops_ext os : forall R R', (forall p a, R p a <-> R' p a) -> forall p a, spec_nops os R p a <-> spec_nops os R' p a.
Proof. induction os as [|o os IH]; intros R R' H; [done|]. apply (IH (spec_nop o R) (spec_nop o R')). by apply spec_nop_ext. Qed.

Lemma nops_run ti s os : nbr_connector_timer_info s = ti -> forall w T b, cons_ok ti w T -> mids_ok w -> Forall (nop_legal w) os ->
  exists w' T' b', run_nops os (nst w T b s) = Some (nst w' T' b' s, tt) /\ cons_ok ti w' T' /\ timers_kept ti T T' /\ w_frame w w' /\
    forall p a, hops w' p a <-> spec_nops os (hops w) p a.
Proof.
  intros Hti. induction os as [|o os IH]; intros w T b Ok Mo Hl; [exists w, T, b; by split_and!|].
  apply Forall_cons in Hl as [Ho Hl]. destruct (nop_run ti w T b s o Ok Mo Ho Hti) as (w1 & T1 & b1 & R1 & Ok1 & K1 & F1 & H1).
  destruct (IH w1 T1 b1 Ok1) as (w2 & T2 & b2 & R2 & Ok2 & K2 & F2 & H2); [by eapply frame_mids|..].
  { eapply Forall_impl; [exact Hl|]. intros [] Ho'; simpl in *; naive_solver eauto using frame_nbr. }
  exists w2, T2, b2. split; [cbn [run_nops]; by erewrite bind_run by exact R1|]. split_and!; [done|by eapply timers_kept_trans|by eapply w_frame_trans|].
  intros p a. rewrite H2. by apply (spec_nops_ext os).
Qed.

(** C10: The two hop neighbour table stands for a relation between neighbours and addresses. Every sequence of
    announcements, expired connectors and deleted two hop neighbours runs without fault and changes the
    relation by exactly these pairs; afterwards a connector is found exactly for the pairs of the
    relation, a two hop neighbour exactly for the addresses that some neighbour announces, and trees,
    connectors and timers are consistent again; one hop neighbours, links and aliases are as before. *)
Theorem two_hop_refines s os : cons_ok (nbr_connector_timer_info s) (sn_w s) (get_timers s) -> mids_ok (sn_w s) -> Forall (nop_legal (sn_w s)) os ->
  exists s', run_nops os s = Some (s', tt) /\ cons_ok (nbr_connector_timer_info s) (sn_w s') (get_timers s') /\ w_frame (sn_w s) (sn_w s') /\
    let R := spec_nops os (hops (sn_w s)) in
    (forall p n a, nbrs (sn_w s') !! p = Some n -> is_Some (tree_find comp a (nbr_con_tree n)) <-> R p a) /\
    (forall a, is_Some (tree_find comp a (nbr2_tree (sn_w s'))) <-> exists p, R p a).
Proof.
  intros Ok Mo Hl. destruct (nops_run _ s os eq_refl _ _ (changes_neighborhood s) Ok Mo Hl) as (w' & T' & b' & R & Ok' & K & F & H).
  rewrite nst_self in R. exists (nst w' T' b' s). split; [done|]. split; [done|]. split; [done|]. cbv zeta. split.
  - intros p n a Hp. rewrite <- H. split.
    + intros [c (x & k & ?)%(con_find _ _ w' T' p n a c Ok' Hp)]. by exists c, x, k.
    + intros (c & x & k & ?). exists c. apply (con_find _ _ w' T' p n a c Ok' Hp). by exists x, k.
  - intros a. rewrite (nbr2_known _ w' T' a Ok'). by setoid_rewrite H.
Qed.
End nbr_props.

(** ** Example: two neighbours announce 10.0.0.9, then the first one falls silent. *)
Definition ndemo_nbr (b : Z) : nbr_entry := mkNbr (tdemo_ip b) None 3 true false false false 0 1 [].
Definition ndemo_w : neighborhood :=
  mkNbh [(1%positive, tdemo_ip 2); (2%positive, tdemo_ip 3)] {[ 1%positive := ndemo_nbr 2; 2%positive := ndemo_nbr 3 ]} [] ∅ ∅ [] ∅ [] ∅ (mkDb [] ∅ ∅ None).
Definition ndemo : sensing (LQ := lq_etxff_handler) (KE := demo_export AF_INET6) :=
  mkSens (KE := demo_export AF_INET6) (with_ntopo (KE := demo_export AF_INET6) (with_nbh ndemo_w tdemo_empty) hdemo) ∅ false false 1 1 2 2.
Definition ndemo_ops : list nop :=
  [NLink 1 (tdemo_ip 9) 6000; NLink 2 (tdemo_ip 9) 6000; NLink 1 (tdemo_ip 8) 6000; NExpire 1 (tdemo_ip 9); NDrop (tdemo_ip 8)].

Lemma tdemo_wheel_ok : timers_ok tdemo_timers.
Proof. split; vm_compute; try done; [intros k p H; by apply elem_of_nil in H|intros k; constructor|intros p H; by apply elem_of_nil in H|constructor]. Qed.

Lemma ndemo_nbr_cases p n : nbrs ndemo_w !! p = Some n -> (p = 1%positive /\ n = ndemo_nbr 2) \/ (p = 2%positive /\ n = ndemo_nbr 3).
Proof. intros H. map_cases H; auto. Qed.

Lemma ndemo_ok : cons_ok AF_INET6 1 ndemo_w tdemo_timers.
Proof.
  split; try done.
  - split; [repeat constructor|]. apply (bool_decide_unpack _). by vm_compute.
  - intros p k. unfold nbr_at. split.
    + intros [[= -> ->]|[[= -> ->]|[]%elem_of_nil]%elem_of_cons]%elem_of_cons; done.
    + intros (n & [[-> ->]|[-> ->]]%ndemo_nbr_cases & ->)%fmap_Some; [left|right; left].
  - apply tree_wf_nil.
  - intros p k. split; [by intros ?%elem_of_nil|done].
  - intros p n [[_ ->]|[_ ->]]%ndemo_nbr_cases; apply tree_wf_nil.
  - intros p n c k [[_ ->]|[_ ->]]%ndemo_nbr_cases; (split; [by intros ?%elem_of_nil|by intros (x & ? & _)]).
  - apply tdemo_wheel_ok.
Qed.

Lemma two_hop_refines_witness : exists s', run_nops (KE := demo_export AF_INET6) (fun _ => 0) AF_INET6 ndemo_ops ndemo = Some (s', tt) /\
  cons_ok AF_INET6 1 (sn_w s') (get_timers s') /\
  is_Some (tree_find (avl_comp_default AF_INET6) (tdemo_ip 9) (nbr2_tree (sn_w s'))) /\
  ~ is_Some (tree_find (avl_comp_default AF_INET6) (tdemo_ip 8) (nbr2_tree (sn_w s'))).
Proof.
  destruct (two_hop_refines (KE := demo_export AF_INET6) (fun _ => 0) AF_INET6 ndemo ndemo_ops ndemo_ok) as (s' & R & Ok & _ & _ & H).
  - intros p k Hp. by apply elem_of_nil in Hp.
  - repeat constructor; try done; by eexists.
  - exists s'. split; [exact R|]. split; [exact Ok|]. split.
    + apply H. exists 2%positive. split; [|by vm_compute]. split; [|by intros [? _]]. left. right. by split.
    + intros Hs. apply H in Hs as [p [_ Hp]]. by apply Hp.
Defined.
