(* ===== verification/NbrEntry.v ===== *)
(** * Neighbours come and go ([olsr_add_nbr_entry], [olsr_delete_nbr_entry])

    Every neighbour has an edge from this router in the topology set; the edge
    knows its neighbour. *)
From S2P Require Import Prelude AvlSpec Trees Types Comparators IpCalc Memcookie Clock Timer NetOut Lsdb LqHandler LqEtxFf Neighborhood LinkSet TcGraph TcSet TcInv TcInput TcProps RoutingTable RibUpdate NodeSet HnaSet NbrTable NbrProps.

Section nbr_entry.
Context `{LQ : LqHandler} {LL : LqLinks} `{KE : RouteExport} (rnd : nat -> Z) (ip_version : Z) (router_id : ip_addr).
Abbreviation comp := (avl_comp_default ip_version).
Abbreviation M := (SE sensing).
Abbreviation topo_ok := (topo_ok ip_version).
Abbreviation cons_ok := (cons_ok ip_version).

Lemma on_st_run {A} (m : SE topo A) s w a : m (sn_topo s) = Some (w, a) -> on_st m s = Some (with_st w s, a).
Proof. intros H. unfold on_st, on_sn. by rewrite (on_topo_run m (sn_nodes s) w a H). Qed.
Lemma with_st_self s : with_st (sn_topo s) s = s.
Proof. by destruct s as [[[]]]. Qed.
Lemma on_st_get {A} (m : SE topo A) s a : m (sn_topo s) = Some (sn_topo s, a) -> on_st m s = Some (s, a).
Proof. intros H. erewrite on_st_run by exact H. by rewrite with_st_self. Qed.
Lemma on_w_run {A} (m : NM A) s w a : m (sn_w s) = Some (w, a) -> on_w m s = Some (with_w w s, a).
Proof. intros H. rewrite <- (nst_self s) at 1. erewrite on_w_nst by exact H. by destruct s as [[[[]]]]. Qed.
Lemma with_w_self s : with_w (sn_w s) s = s.
Proof. by destruct s as [[[[]]]]. Qed.
Lemma on_w_same {A} (m : NM A) s a : m (sn_w s) = Some (sn_w s, a) -> on_w m s = Some (s, a).
Proof. intros H. erewrite on_w_run by exact H. by rewrite with_w_self. Qed.

(** ** Parts of the state *)
Definition with_ndb (d : lsdb) (w : neighborhood) : neighborhood :=
  mkNbh (nbr_tree w) (nbrs w) (nbr2_tree w) (nbr2s w) (nbr_cons w) (link_entry_head w) (links w) (mid_tree w) (mids w) d.

Lemma rest_nbh w w' : rest w' = rest w -> t_nbh w' = with_ndb (tdb w') (t_nbh w) /\ t_timers w' = t_timers w.
Proof.
  unfold rest. intros [= E1 E2 E3 E4 E5 E6 E7 E8 E9 E10 E11 E12 E13 E14]. split; [|done]. unfold tdb, with_ndb.
  destruct (t_nbh w'), (t_nbh w). simpl in *. congruence.
Qed.

Lemma cons_ndb X ti w d T : cons_but ip_version X ti w T -> cons_but ip_version X ti (with_ndb d w) T.
Proof. by intros [C1 C2 C3 C4 C5 C6 C7 C8 C9 C10 C11 C12 C13]. Qed.

(** The entry of a neighbour without connectors goes. *)
Definition without_nbr_entry (p : loc) (w : neighborhood) : neighborhood := with_nbr (tree_delete p (nbr_tree w)) (delete p (nbrs w)) w.

Lemma free_nbr_ok ti w T p n : cons_ok ti w T -> nbrs w !! p = Some n -> nbr_con_tree n = [] -> cons_ok ti (without_nbr_entry p w) T.
Proof.
  intros [C1 C2 C3 C4 C5 C6 C7 C8 C9 C10 C11 C12 C13] Hp En.
  assert (Hno : forall c x, nbr_cons w !! c = Some x -> con_nbr x <> p).
  { intros c x Hc Hx. destruct (C7 c x Hc) as [_ [m Hm]]. assert ((c, nbr2_addr m) ∈ nbr_con_tree n) as Hin.
    { apply (C8 p n c _ Hp). exists x. unfold nbr2_at. by rewrite Hm. }
    rewrite En in Hin. by apply elem_of_nil in Hin. }
  assert (At : forall p' k, nbr_at (without_nbr_entry p w) p' = Some k <-> p' <> p /\ nbr_at w p' = Some k).
  { intros p' k. unfold nbr_at. simpl. rewrite !fmap_Some. setoid_rewrite lookup_delete_Some. naive_solver. }
  split; try done.
  - by apply tree_wf_delete.
  - intros p' k. rewrite At. simpl. by rewrite elem_of_tree_delete, C2.
  - intros p' n'. simpl. intros [_ H]%lookup_delete_Some. by apply (C5 p').
  - intros c x Hc. destruct (C7 c x Hc) as [H1 H2]. split; [|done]. simpl. rewrite lookup_delete_ne; [done|]. intros E. by apply (Hno c x Hc).
  - intros p' n' c k. simpl. intros [_ H]%lookup_delete_Some. by apply (C8 p').
  - intros q m c k Hq. rewrite (C9 q m c k Hq). split; intros (x & Hc & Hx & Hk); exists x; (split_and!; [done|done|]).
    + apply At. split; [by apply (Hno c)|done].
    + by apply At in Hk as [_ Hk].
Qed.

(** A new neighbour has no connectors. *)
Definition with_nbr_entry (p : loc) (n : nbr_entry) (w : neighborhood) : neighborhood :=
  with_nbr (tree_insert comp false (nbr_addr n) p (nbr_tree w)) (<[p := n]> (nbrs w)) w.
Lemma new_nbr_ok ti w T p n : cons_ok ti w T -> nbrs w !! p = None -> tree_find comp (nbr_addr n) (nbr_tree w) = None -> nbr_con_tree n = [] ->
  cons_ok ti (with_nbr_entry p n w) T.
Proof.
  intros [C1 C2 C3 C4 C5 C6 C7 C8 C9 C10 C11 C12 C13] Hp Hf En.
  assert (Hno : forall c x, nbr_cons w !! c = Some x -> con_nbr x <> p) by (intros c x Hc <-; destruct (C7 c x Hc) as [[? ?] _]; congruence).
  assert (At : forall p' k, nbr_at (with_nbr_entry p n w) p' = Some k <-> (p' = p /\ k = nbr_addr n) \/ nbr_at w p' = Some k).
  { intros p' k. unfold nbr_at. simpl. rewrite !fmap_Some. setoid_rewrite lookup_insert_Some. split; [naive_solver|].
    intros [[-> ->]|(x & Hx & ->)]; [naive_solver|]. exists x. split; [|done]. right. split; [|done]. congruence. }
  split; try done.
  - apply tree_wf_insert; [apply _|done| |done]. intros ([p' k] & -> & H%C2)%list_elem_of_fmap. unfold nbr_at in H. simpl in *. by rewrite Hp in H.
  - intros p' k. rewrite At. simpl. rewrite (elem_of_tree_insert comp _ false _ _ _ (or_intror Hf)), C2. naive_solver.
  - intros p' n'. simpl. intros [[<- <-]|[_ H]]%lookup_insert_Some; [rewrite En; apply tree_wf_nil|by apply (C5 p')].
  - intros c x Hc. destruct (C7 c x Hc) as [H1 H2]. split; [|done]. simpl. rewrite lookup_insert_ne; [done|]. intros E. by apply (Hno c x Hc).
  - intros p' n' c k. simpl. intros [[<- <-]|[_ H]]%lookup_insert_Some; [|by apply (C8 p')]. rewrite En. split; [by intros ?%elem_of_nil|].
    intros (x & Hc & Hx & _). by destruct (Hno c x Hc).
  - intros q m c k Hq. rewrite (C9 q m c k Hq). split; intros (x & Hc & Hx & Hk); exists x; (split_and!; [done|done|]).
    + apply At. by right.
    + apply At in Hk as [[Hk _]|Hk]; [|done]. by destruct (Hno c x Hc).
Qed.

(** ** Neighbours and their edges *)
Record nbrs_ok (me : loc) (s : sensing) : Prop := {
  nb_cons : cons_ok (nbr_connector_timer_info s) (sn_w s) (get_timers s);
  nb_mids : mids_ok (sn_w s);
  nb_topo : topo_ok (sn_topo s);
  nb_me : tc_myself (tdb (sn_topo s)) = Some me;
  nb_myself : is_Some (tcs (tdb (sn_topo s)) !! me);
  nb_edge : forall p n, nbrs (sn_w s) !! p = Some n -> exists e x, nbr_tc_edge n = Some e /\ edges (tdb (sn_topo s)) !! e = Some x /\
    neighbor x = Some p /\ edge_tc x = me /\ comp (T_dest_addr x) (nbr_addr n) = 0;
  nb_nbr : forall e x p, edges (tdb (sn_topo s)) !! e = Some x -> neighbor x = Some p -> exists n, nbrs (sn_w s) !! p = Some n /\ nbr_tc_edge n = Some e
}.

(** The connectors of a neighbour are deleted: nothing else changes. *)
Lemma nbrs_ok_cons me s w T b : nbrs_ok me s -> cons_ok (nbr_connector_timer_info s) w T -> w_frame (sn_w s) w -> nbrs_ok me (nst w T b s).
Proof.
  intros [N1 N2 N3 N4 N4' N5 N6] Ok F. assert (Ed : tdb (sn_topo (nst w T b s)) = tdb (sn_topo s)) by apply (wf_lsdb _ _ F).
  assert (Hb : forall p n, nbrs w !! p = Some n -> exists n0, nbrs (sn_w s) !! p = Some n0 /\ set_nbr_cons [] n = set_nbr_cons [] n0).
  { intros p n Hp. pose proof (wf_nbrs _ _ F p) as E. rewrite Hp in E. destruct (nbrs (sn_w s) !! p) as [n0|]; [|done]. exists n0. split; [done|]. by apply (inj Some). }
  split; rewrite ?Ed; try done.
  - by eapply frame_mids.
  - apply (topo_ok_core ip_version (sn_topo s)); try done; rewrite ?Ed; done.
  - intros p n (n0 & H0 & E)%Hb. destruct (N5 p n0 H0) as (e & x & H). exists e, x. apply (f_equal (fun n => (nbr_tc_edge n, nbr_addr n))) in E.
    simpl in E. injection E as -> ->. done.
  - intros e x p He Hx. destruct (N6 e x p He Hx) as (n0 & H0 & E0). pose proof (wf_nbrs _ _ F p) as E. rewrite H0 in E.
    change (sn_w (nst w T b s)) with w. destruct (nbrs w !! p) as [n|]; [|done]. exists n. split; [done|].
    apply (f_equal (fmap nbr_tc_edge)) in E. simpl in E. congruence.
Qed.

(** Other members of a neighbour change. *)
Lemma nbr_upd_ok me s p n n' : nbrs_ok me s -> nbrs (sn_w s) !! p = Some n -> nbr_addr n' = nbr_addr n -> nbr_tc_edge n' = nbr_tc_edge n ->
  nbr_con_tree n' = nbr_con_tree n -> nbrs_ok me (with_w (with_nbrs (<[p := n']> (nbrs (sn_w s))) (sn_w s)) s).
Proof.
  intros [N1 N2 N3 N4 N4' N5 N6] Hp Ea Ee Ec. set (w := with_nbrs _ _).
  assert (Hf : forall A (f : nbr_entry -> A) q, f n' = f n -> f <$> nbrs w !! q = f <$> nbrs (sn_w s) !! q).
  { intros A f q E. simpl. destruct (decide (q = p)) as [->|]; [by rewrite lookup_insert_eq, Hp; simpl; rewrite E|by rewrite lookup_insert_ne]. }
  assert (At : forall q, nbr_at w q = nbr_at (sn_w s) q) by (intros q; by apply Hf).
  assert (Hb : forall q m, nbrs w !! q = Some m -> exists m0, nbrs (sn_w s) !! q = Some m0 /\ nbr_addr m0 = nbr_addr m /\ nbr_tc_edge m0 = nbr_tc_edge m /\ nbr_con_tree m0 = nbr_con_tree m).
  { intros q m. simpl. intros [[<- <-]|[_ H]]%lookup_insert_Some; [by exists n|by exists m]. }
  split; try done.
  - destruct N1 as [C1 C2 C3 C4 C5 C6 C7 C8 C9 C10 C11 C12 C13]. change (sn_w (with_w w s)) with w. split; try done.
    + intros q k. rewrite At. apply C2.
    + intros q m (m0 & H & _ & _ & <-)%Hb. by apply (C5 q).
    + intros c x Hc. destruct (C7 c x Hc) as [H1 H2]. split; [|done]. simpl. destruct (decide (con_nbr x = p)) as [->|]; [by rewrite lookup_insert_eq|by rewrite lookup_insert_ne].
    + intros q m c k (m0 & H & _ & _ & <-)%Hb. by apply (C8 q).
    + intros q m c k Hq. rewrite (C9 q m c k Hq). by setoid_rewrite At.
  - by apply (topo_ok_core ip_version (sn_topo s)).
  - intros q m (m0 & H & Ea0 & Ee0 & _)%Hb. rewrite <- Ea0, <- Ee0. by apply (N5 q).
  - intros e x q He Hx. destruct (N6 e x q He Hx) as (m & Hm & Em). pose proof (Hf _ nbr_tc_edge q Ee) as Hq. rewrite Hm in Hq. simpl in Hq.
    apply fmap_Some in Hq as (m' & Hm' & Em'). exists m'. split; [exact Hm'|congruence].
Qed.

Lemma kept_mids w w' : topo_kept w w' -> mids_ok (t_nbh w) -> mids_ok (t_nbh w').
Proof.
  intros K Mo p k. destruct (rest_nbh w w' (k_rest _ _ K)) as [E _]. rewrite E. simpl. intros Hin. destruct (Mo p k Hin) as (m & Hm & [t Ht]).
  exists m. split; [done|]. destruct (k_nodes _ _ K _ t Ht) as [L HL]. by eexists.
Qed.

(** The edge of a neighbour is released; then it is deleted or becomes virtual. *)
Lemma release_edge_run w e x : topo_ok w -> edges (tdb w) !! e = Some x ->
  exists w' q i, (edge_wr e (set_edge_nbr None);; olsr_delete_tc_edge_entry e) w = Some (w', tt) /\ topo_ok w' /\ topo_kept w w' /\
    edge_inv x = Some q /\ e <> q /\ edges (tdb w) !! q = Some i /\
    edges (tdb w') = if pinned i then <[e := set_virtual true (set_edge_nbr None x)]> (edges (tdb w)) else delete q (delete e (edges (tdb w))).
Proof.
  intros To He. destruct (edge_upd_run ip_version w e x (set_edge_nbr None) To He eq_refl) as (w1 & R1 & To1 & K1 & E1 & _).
  assert (He1 : edges (tdb w1) !! e = Some (set_edge_nbr None x)) by (by rewrite E1, lookup_insert_eq).
  destruct (delete_run ip_version w1 e _ To1 He1) as (w2 & q & i & R2 & To2 & K2 & Hq & Hne & Hi & E2).
  rewrite E1, lookup_insert_ne in Hi by done. exists w2, q, i. split; [by erewrite bind_run by exact R1|].
  split_and!; try done; [by eapply topo_kept_trans|]. rewrite E2, E1, insert_insert_eq, delete_insert_eq. done.
Qed.

Lemma with_st_sn_w w s : sn_w (with_st w s) = t_nbh w.
Proof. done. Qed.

(** What is left of the edges. *)
Definition edges_after (E : gmap loc tc_edge_entry) (e q : loc) (x i : tc_edge_entry) : gmap loc tc_edge_entry :=
  if pinned i then <[e := set_virtual true (set_edge_nbr None x)]> E else delete q (delete e E).

Lemma edges_after_nbr E e q x i e' x' p : E !! q = Some i -> edges_after E e q x i !! e' = Some x' -> neighbor x' = Some p -> e' <> e /\ E !! e' = Some x'.
Proof.
  intros Hi. unfold edges_after. destruct (pinned i).
  - intros [[<- <-]|[Hne H]]%lookup_insert_Some Hx; [done|]. by split.
  - intros [_ [Hne H]%lookup_delete_Some]%lookup_delete_Some _. by split.
Qed.
Lemma edges_after_other E e q x i e' x' p : E !! q = Some i -> E !! e' = Some x' -> neighbor x' = Some p -> e' <> e -> edges_after E e q x i !! e' = Some x'.
Proof.
  intros Hi He' Hx Hne. unfold edges_after. destruct (pinned i) eqn:Ep; [by rewrite lookup_insert_ne|].
  rewrite !lookup_delete_ne; [done|congruence|]. intros ->. simplify_eq. unfold pinned in Ep. apply orb_false_iff in Ep as [_ Ep].
  rewrite Hx in Ep. done.
Qed.

Definition nbr_deleted (s s' : sensing) (p : loc) (n : nbr_entry) : Prop :=
  (forall p', set_nbr_cons [] <$> nbrs (sn_w s') !! p' = if decide (p' = p) then None else set_nbr_cons [] <$> nbrs (sn_w s) !! p') /\
  (forall p' a, hops ip_version (sn_w s') p' a <-> hops ip_version (sn_w s) p' a /\ p' <> p) /\
  (exists e x q i, nbr_tc_edge n = Some e /\ edges (tdb (sn_topo s)) !! e = Some x /\ edge_inv x = Some q /\ edges (tdb (sn_topo s)) !! q = Some i /\
    edges (tdb (sn_topo s')) = edges_after (edges (tdb (sn_topo s))) e q x i) /\
  link_entry_head (sn_w s') = link_entry_head (sn_w s) /\ links (sn_w s') = links (sn_w s) /\
  timers_kept (nbr_connector_timer_info s) (get_timers s) (get_timers s').

Lemma free_entry_ok me s w p n e x q i : nbrs_ok me s -> nbrs (sn_w s) !! p = Some (set_nbr_cons [] n) -> nbr_tc_edge n = Some e ->
  edges (tdb (sn_topo s)) !! e = Some x -> edges (tdb (sn_topo s)) !! q = Some i -> topo_ok w -> topo_kept (sn_topo s) w ->
  edges (tdb w) = edges_after (edges (tdb (sn_topo s))) e q x i -> forall s', sn_topo s' = set_changes_topology true (with_nbh (without_nbr_entry p (t_nbh w)) w) ->
  nbr_connector_timer_info s' = nbr_connector_timer_info s -> nbrs_ok me s'.
Proof.
  intros [N1 N2 N3 N4 N4' N5 N6] Hp He Hx Hi To K Ew s' Es Et. destruct (rest_nbh _ _ (k_rest _ _ K)) as [En ETm].
  assert (Ew' : sn_w s' = without_nbr_entry p (t_nbh w)) by (unfold sn_w; by rewrite Es).
  assert (Ed : tdb (sn_topo s') = tdb w) by (by rewrite Es).
  assert (Enb : nbrs (sn_w s') = delete p (nbrs (sn_w s))) by (rewrite Ew', En; done).
  split; rewrite ?Ed, ?Enb.
  - rewrite Ew', Et. change (get_timers s') with (t_timers (sn_topo s')). rewrite Es. change (cons_ok (nbr_connector_timer_info s) (without_nbr_entry p (t_nbh w)) (t_timers w)).
    rewrite ETm, En. apply (cons_ndb None _ (without_nbr_entry p (sn_w s)) (tdb w)). by eapply free_nbr_ok.
  - rewrite Ew'. by apply (kept_mids (sn_topo s) w).
  - rewrite Es. by apply (topo_ok_core ip_version w).
  - by rewrite (k_myself _ _ K).
  - destruct N4' as [t Ht]. destruct (k_nodes _ _ K me t Ht) as [L HL]. by eexists.
  - intros p' n' [Hne Hp']%lookup_delete_Some. destruct (N5 p' n' Hp') as (e' & x' & H1 & H2 & H3 & H4). exists e', x'. split; [done|]. split; [|done].
    rewrite Ew. eapply edges_after_other; [done..|]. intros ->. destruct (N6 e x' p' H2 H3) as (? & ? & _).
    destruct (N5 p _ Hp) as (e2 & x2 & E2 & H22 & H23 & _). simpl in E2. simplify_eq.
  - intros e' x' p' He' Hx'. rewrite Ew in He'. destruct (edges_after_nbr _ _ _ _ _ _ _ _ Hi He' Hx') as [Hne He0].
    destruct (N6 e' x' p' He0 Hx') as (n' & Hn' & En'). exists n'. split; [|done]. rewrite lookup_delete_ne; [done|]. intros <-. simplify_eq. simpl in En'. simplify_eq.
Qed.

Lemma delete_nbr_run me s p n : nbrs_ok me s -> nbrs (sn_w s) !! p = Some n ->
  exists s', olsr_delete_nbr_entry p s = Some (s', tt) /\ nbrs_ok me s' /\ nbr_deleted s s' p n /\
    changes_neighborhood s' = true /\ changes_topology (sn_topo s') = true.
Proof.
  intros N Hp. destruct (delete_nbr_cons_run ip_version _ (sn_w s) (get_timers s) (changes_neighborhood s) s p n (nb_cons _ _ N) Hp) as (w1 & T1 & b1 & R1 & Ok1 & K1 & G1 & Hp1).
  rewrite nst_self in R1. set (s1 := nst w1 T1 b1 s) in *. pose proof (nbrs_ok_cons me s w1 T1 b1 N Ok1 (cg_frame _ _ _ _ G1)) as N1. fold s1 in N1.
  destruct (nb_edge _ _ N1 p _ Hp1) as (e & x & He & Hx & _). simpl in He.
  destruct (release_edge_run (sn_topo s1) e x (nb_topo _ _ N1) Hx) as (w & q & i & R2 & To & K & Hq & Hne & Hi & Ew).
  destruct (rest_nbh _ _ (k_rest _ _ K)) as [En ET].
  assert (Hp2 : nbrs (t_nbh w) !! p = Some (set_nbr_cons [] n)) by (rewrite En; done).
  set (s3 := with_w (without_nbr_entry p (t_nbh w)) (with_st w s1)). set (s4 := set_changes_neighborhood true s3).
  exists (with_st (set_changes_topology true (sn_topo s4)) s4). split; [|split; [|split_and!]].
  - unfold olsr_delete_nbr_entry. erewrite bind_run by (apply on_w_same; unfold rd_nbr; by rewrite Hp). erewrite bind_run by exact R1. rewrite He.
    pose proof R2 as (w1' & [] & Ra & Rb)%bind_inv.
    erewrite bind_run by (erewrite bind_run by (apply on_st_run; exact Ra); apply (on_st_run _ (with_st w1' s1)); exact Rb).
    change (with_st w (with_st w1' s1)) with (with_st w s1). erewrite bind_run by (apply on_w_run; unfold free_nbr; rewrite with_st_sn_w, Hp2; reflexivity).
    erewrite bind_run by reflexivity. by erewrite on_st_run by reflexivity.
  - by eapply (free_entry_ok me s1 w p n e x q i).
  - assert (Eh : forall p' a, hops ip_version (without_nbr_entry p (t_nbh w)) p' a <-> hops ip_version w1 p' a) by (intros p' a; rewrite En; done).
    assert (Hcg : forall p' a, hops ip_version w1 p' a <-> hops ip_version (sn_w s) p' a /\ p' <> p).
    { intros p' a. rewrite (hops_gone ip_version _ (sn_w s) w1 _ T1 _ _ p' a (nb_cons _ _ N) Ok1 G1). unfold hops. naive_solver. }
    split_and!.
    + intros p'. change (set_nbr_cons [] <$> delete p (nbrs (t_nbh w)) !! p' = if decide (p' = p) then None else set_nbr_cons [] <$> nbrs (sn_w s) !! p'). rewrite En. simpl. case_decide as E; [subst; by rewrite lookup_delete_eq|].
      rewrite lookup_delete_ne by done. apply (wf_nbrs _ _ (cg_frame _ _ _ _ G1)).
    + intros p' a. etransitivity; [apply Eh|apply Hcg].
    + exists e, x, q, i. assert (tdb (sn_topo s1) = tdb (sn_topo s)) as Ed by apply (wf_lsdb _ _ (cg_frame _ _ _ _ G1)).
      rewrite <- Ed. split_and!; try done.
    + change (link_entry_head (t_nbh w) = link_entry_head (sn_w s)). rewrite En. apply (wf_head _ _ (cg_frame _ _ _ _ G1)).
    + change (links (t_nbh w) = links (sn_w s)). rewrite En. apply (wf_links _ _ (cg_frame _ _ _ _ G1)).
    + change (timers_kept (nbr_connector_timer_info s) (get_timers s) (t_timers w)). by rewrite ET.
  - done.
  - done.
Qed.

(** ** A new neighbour *)
Lemma lookup_main_run a w : mids_ok w -> exists r, olsr_lookup_main_addr_by_alias ip_version a w = Some r.
Proof.
  intros H. unfold olsr_lookup_main_addr_by_alias, olsr_lookup_mid_entry.
  destruct (tree_find comp a (mid_tree w)) as [p|] eqn:E; [|by eexists]. apply tree_find_Some in E as (k & Hin & _).
  destruct (H p k Hin) as (m & -> & [t Ht]). simpl. rewrite Ht. by eexists.
Qed.
Lemma lookup_nbr_run a lu w : mids_ok w -> olsr_lookup_nbr_entry ip_version a lu w = Some (tree_find comp a (nbr_tree w)).
Proof. intros H. unfold olsr_lookup_nbr_entry. destruct lu; [|done]. by destruct (lookup_main_run a w H) as [r ->]. Qed.

(** The edge to the address, which is made if there is none. *)
Record edge_located (w w' : topo) (me : loc) (a : ip_addr) (e : loc) (x : tc_edge_entry) : Prop := {
  el_edge : edges (tdb w') !! e = Some x;
  el_tc : edge_tc x = me;
  el_dest : comp a (T_dest_addr x) = 0;
  el_old : forall e' x', edges (tdb w) !! e' = Some x' -> edges (tdb w') !! e' = Some x';
  el_new : forall e' x', edges (tdb w') !! e' = Some x' -> edges (tdb w) !! e' = None -> neighbor x' = None
}.
Lemma locate_edge_run w me t a : topo_ok w -> tcs (tdb w) !! me = Some t -> comp a (tc_addr t) <> 0 -> ipcmp ip_version router_id all_zero <> 0 ->
  exists w' e x, (o ← olsr_lookup_tc_edge ip_version me a; match o with Some e => mret e | None => olsr_add_tc_edge_entry ip_version router_id me a 0 end) w = Some (w', e) /\
    topo_ok w' /\ topo_kept w w' /\ edge_located w w' me a e x.
Proof.
  intros To Ht Hself Hr. assert (R : olsr_lookup_tc_edge ip_version me a w = Some (w, tree_find comp a (edge_tree t))).
  { unfold olsr_lookup_tc_edge. by erewrite bind_run by (unfold tc_rd; by rewrite Ht). }
  destruct (tree_find comp a (edge_tree t)) as [e|] eqn:Ef.
  - destruct (tree_edge ip_version w me t a e To Ht Ef) as (x & Hx & Htc & Hd). exists w, e, x. split; [by erewrite bind_run by exact R|].
    split_and!; [done|apply topo_kept_refl|]. split; try done. congruence.
  - destruct (add_edge_run ip_version router_id w me t a 0 To Ht Ef Hself Hr) as (e & w' & R' & To' & K & (q & n & He & Hq & Hne & E & _)).
    exists w', e, (mkEdge a (Some q) me None c0 0 false 0). split; [by erewrite bind_run by exact R|]. split_and!; [done|done|]. split; rewrite ?E; try done.
    + by rewrite lookup_insert_eq.
    + by apply (comp_refl (comp := comp)).
    + intros e' x' H. rewrite !lookup_insert_ne; [done|congruence..].
    + intros e' x' [[<- <-]|[_ [[<- <-]|[_ H]]%lookup_insert_Some]]%lookup_insert_Some H'; [done|done|congruence].
Qed.

Definition new_nbr (a : ip_addr) (e : option loc) : nbr_entry := mkNbr a e WILL_NEVER false false false false 0 0 [].

Lemma new_entry_ok me s w1 p a e x d : nbrs_ok me s -> nbrs (sn_w s) !! p = None -> tree_find comp a (nbr_tree (sn_w s)) = None ->
  topo_kept (with_nbh (with_nbrs (<[p := new_nbr a None]> (nbrs (sn_w s))) (sn_w s)) (sn_topo s)) w1 -> edge_located (sn_topo s) w1 me a e x ->
  edges d = <[e := set_edge_nbr (Some p) x]> (edges (tdb w1)) -> tcs d = tcs (tdb w1) -> tc_myself d = tc_myself (tdb w1) ->
  forall s', sn_w s' = with_nbr_entry p (new_nbr a (Some e)) (with_ndb d (sn_w s)) -> topo_ok (sn_topo s') -> get_timers s' = get_timers s ->
  nbr_connector_timer_info s' = nbr_connector_timer_info s -> nbrs_ok me s'.
Proof.
  intros [N1 N2 N3 N4 N4' N5 N6] Hp Hf K [L1 L2 L3 L4 L5] Ee Et Em s' Ew To ET Eti.
  assert (Ed : tdb (sn_topo s') = d) by (change (nh_lsdb (sn_w s') = d); by rewrite Ew).
  assert (Hold : forall e' x' p', edges (tdb (sn_topo s)) !! e' = Some x' -> neighbor x' = Some p' -> e' <> e).
  { intros e' x' p' He' Hx' ->. destruct (N6 e x' p' He' Hx') as (n' & Hn' & En'). destruct (N5 p' n' Hn') as (e2 & x2 & E2 & H2 & _ & _ & Hd).
    simplify_eq. rewrite (L4 e _ He') in L1. simplify_eq.
    rewrite tree_find_None in Hf. apply (Hf p' (nbr_addr n')); [apply (cb_nbr_in _ _ _ _ _ N1); unfold nbr_at; by rewrite Hn'|]. by apply (comp_eq_trans comp _ (T_dest_addr x)). }
  split; rewrite ?Ed.
  - rewrite Eti, ET, Ew. apply new_nbr_ok; [by apply cons_ndb|done..].
  - rewrite Ew. intros q k Hin. destruct (N2 q k Hin) as (m & Hm & [t Ht]). exists m. split; [done|]. simpl. rewrite Et.
    destruct (k_nodes _ _ K (mid_tc m) t Ht) as [L HL]. by eexists.
  - done.
  - rewrite Em, (k_myself _ _ K). done.
  - rewrite Et. destruct N4' as [t Ht]. destruct (k_nodes _ _ K me t Ht) as [L HL]. by eexists.
  - intros p' n'. rewrite Ew. simpl. rewrite Ee. intros [[<- <-]|[Hne Hp']]%lookup_insert_Some.
    + exists e. eexists. rewrite lookup_insert_eq. split_and!; try done. simpl. by apply (comp_eq_sym comp).
    + destruct (N5 p' n' Hp') as (e' & x' & H1 & H2 & H3 & H4). exists e', x'. split; [done|]. split; [|done].
      rewrite lookup_insert_ne; [by apply L4|]. intros E. by apply (Hold e' x' p').
  - intros e' x' p'. rewrite Ew, Ee. simpl. intros [[<- <-]|[Hne He']]%lookup_insert_Some Hx'.
    + simpl in Hx'. injection Hx' as <-. eexists. by rewrite lookup_insert_eq.
    + destruct (edges (tdb (sn_topo s)) !! e') as [x0|] eqn:H0; [|by rewrite (L5 e' x' He' H0) in Hx'].
      rewrite (L4 e' x0 H0) in He'. simplify_eq. destruct (N6 e' x' p' H0 Hx') as (n' & Hn' & En'). exists n'. split; [|done].
      rewrite lookup_insert_ne; [done|congruence].
Qed.

Lemma add_nbr_run me s a : nbrs_ok me s -> ipcmp ip_version router_id all_zero <> 0 -> (forall t, tcs (tdb (sn_topo s)) !! me = Some t -> comp a (tc_addr t) <> 0) ->
  exists s' p, olsr_add_nbr_entry ip_version router_id a s = Some (s', p) /\ nbrs_ok me s' /\
    match tree_find comp a (nbr_tree (sn_w s)) with
    | Some p' => s' = s /\ p = p'
    | None => exists e d, nbrs (sn_w s) !! p = None /\ sn_w s' = with_nbr_entry p (new_nbr a (Some e)) (with_ndb d (sn_w s)) /\
        get_timers s' = get_timers s /\ changes_neighborhood s' = changes_neighborhood s
    end.
Proof.
  intros N Hr Hself. unfold olsr_add_nbr_entry.
  erewrite bind_run by (apply on_w_same; by rewrite (lookup_nbr_run a true (sn_w s) (nb_mids _ _ N))).
  destruct (tree_find comp a (nbr_tree (sn_w s))) as [p|] eqn:Ef; [exists s, p; by split_and!|].
  set (p := fresh (dom (nbrs (sn_w s)))). assert (Hp : nbrs (sn_w s) !! p = None) by apply not_elem_of_dom, is_fresh.
  set (w0 := with_nbrs (<[p := new_nbr a None]> (nbrs (sn_w s))) (sn_w s)). set (s0 := with_w w0 s).
  destruct (nb_myself _ _ N) as [t Ht].
  destruct (locate_edge_run (sn_topo s0) me t a) as (w1 & e & x & R1 & To1 & K1 & L1); [|done|by apply Hself|done|].
  { apply (topo_ok_core ip_version (sn_topo s)); [apply N|done..]. }
  destruct (rest_nbh _ _ (k_rest _ _ K1)) as [En1 ET1].
  assert (Hp1 : nbrs (t_nbh w1) !! p = Some (new_nbr a None)) by (rewrite En1; simpl; by rewrite lookup_insert_eq).
  set (w2 := with_nbh (with_nbrs (<[p := new_nbr a (Some e)]> (nbrs (t_nbh w1))) (t_nbh w1)) w1).
  destruct (edge_upd_run ip_version w2 e x (set_edge_nbr (Some p))) as (w3 & R3 & To3 & K3 & E3 & Et3); [by apply (topo_ok_core ip_version w1)|apply L1|done|].
  destruct (rest_nbh _ _ (k_rest _ _ K3)) as [En3 ET3].
  set (s3 := with_st w3 s0). eexists (with_w (with_nbr (tree_insert comp false a p (nbr_tree (sn_w s3))) (nbrs (sn_w s3)) (sn_w s3)) s3), p.
  assert (Ew : with_nbr (tree_insert comp false a p (nbr_tree (sn_w s3))) (nbrs (sn_w s3)) (sn_w s3) = with_nbr_entry p (new_nbr a (Some e)) (with_ndb (tdb w3) (sn_w s))).
  { change (sn_w s3) with (t_nbh w3). rewrite En3. change (t_nbh w2) with (with_nbrs (<[p := new_nbr a (Some e)]> (nbrs (t_nbh w1))) (t_nbh w1)).
    rewrite En1. unfold with_nbr, with_nbr_entry, with_ndb, with_nbrs. simpl. by rewrite insert_insert_eq. }
  split; [|split].
  - erewrite bind_run by reflexivity. fold p. erewrite bind_run by (apply on_w_run; reflexivity). fold (new_nbr a None) w0 s0.
    erewrite bind_run by (apply on_st_get; reflexivity). erewrite bind_run by (unfold se_opt; change (tc_myself (tdb (sn_topo s0))) with (tc_myself (tdb (sn_topo s))); by rewrite (nb_me _ _ N)).
    apply bind_inv in R1 as (w0' & o & Ra & Rb). erewrite bind_run by (apply on_st_run; exact Ra).
    erewrite (bind_run _ _ _ (with_st w1 s0) e).
    2: { destruct o as [e'|]; [injection Rb as <- <-; done|]. erewrite (on_st_run _ (with_st w0' s0)) by exact Rb. done. }
    erewrite bind_run by (apply on_w_run; unfold wr_nbr; rewrite with_st_sn_w, Hp1; reflexivity).
    change (with_w _ (with_st w1 s0)) with (with_st w2 s0). erewrite bind_run by (apply (on_st_run _ (with_st w2 s0)); exact R3).
    change (with_st w3 (with_st w2 s0)) with s3. by erewrite bind_run by (apply on_w_run; reflexivity).
  - eapply (new_entry_ok me s w1 p a e x (tdb w3)); try done; try apply Ew.
    + by destruct L1; split.
    + apply (k_myself _ _ K3).
    + apply (topo_ok_core ip_version w3); try done.
    + change (t_timers w3 = get_timers s). rewrite ET3. change (t_timers w1 = get_timers s). by rewrite ET1.
  - exists e, (tdb w3). split_and!; [done|apply Ew| |done]. change (t_timers w3 = get_timers s). rewrite ET3. change (t_timers w1 = get_timers s). by rewrite ET1.
Qed.

Lemma cons_empty ti w T : nbr_tree w = [] -> nbrs w = ∅ -> nbr2_tree w = [] -> nbr2s w = ∅ -> nbr_cons w = ∅ -> timers_ok T ->
  bool_decide (is_Some (timer_infos T !! ti)) = true -> cons_ok ti w T.
Proof.
  intros E1 E2 E3 E4 E5 Ok Hi%bool_decide_eq_true. split; unfold nbr_at, nbr2_at; rewrite ?E1, ?E2, ?E3, ?E4, ?E5; try done; try apply tree_wf_nil.
  - intros p k. split; [by intros ?%elem_of_nil|done].
  - intros p k. split; [by intros ?%elem_of_nil|done].
Qed.

(** C16: Neighbours keep their tables consistent. Adding a neighbour (an address other than the own one) returns the
    entry of that address, new or old, with an edge from this router that knows it; nobody's two hop
    neighbours change. Deleting a neighbour takes with it exactly its connectors, and its edge if nobody advertises
    the inverse (otherwise the edge stays as a virtual one); links and other timers are untouched. Both keep the
    invariant of neighbours, connectors, timers and edges. *)
Theorem nbr_entries_correct me s a : nbrs_ok me s -> ipcmp ip_version router_id all_zero <> 0 ->
  (forall t, tcs (tdb (sn_topo s)) !! me = Some t -> comp a (tc_addr t) <> 0) ->
  exists s1 p n, olsr_add_nbr_entry ip_version router_id a s = Some (s1, p) /\ nbrs_ok me s1 /\ nbrs (sn_w s1) !! p = Some n /\ comp a (nbr_addr n) = 0 /\
    (nbrs (sn_w s) !! p = Some n \/ nbrs (sn_w s) !! p = None /\ n = new_nbr a (nbr_tc_edge n)) /\
    (forall p' a', hops ip_version (sn_w s1) p' a' <-> hops ip_version (sn_w s) p' a') /\
    forall p' n', nbrs (sn_w s1) !! p' = Some n' -> exists s2, olsr_delete_nbr_entry p' s1 = Some (s2, tt) /\ nbrs_ok me s2 /\ nbr_deleted s1 s2 p' n' /\
      changes_neighborhood s2 = true /\ changes_topology (sn_topo s2) = true.
Proof.
  intros N Hr Hself. destruct (add_nbr_run me s a N Hr Hself) as (s1 & p & R & N1 & H).
  assert (exists n, nbrs (sn_w s1) !! p = Some n /\ comp a (nbr_addr n) = 0 /\ (nbrs (sn_w s) !! p = Some n \/ nbrs (sn_w s) !! p = None /\ n = new_nbr a (nbr_tc_edge n)) /\
    (forall p' a', hops ip_version (sn_w s1) p' a' <-> hops ip_version (sn_w s) p' a')) as (n & Hn & Ea & Hold & Hh).
  { destruct (tree_find comp a (nbr_tree (sn_w s))) as [p'|] eqn:Ef.
    - destruct H as [-> ->]. apply tree_find_Some in Ef as (k & Hin & E). apply (cb_nbr_in _ _ _ _ _ (nb_cons _ _ N)) in Hin as (n & Hn & ->)%fmap_Some.
      exists n. split_and!; try done. by left.
    - destruct H as (e & d & Hp & Ew & _). exists (new_nbr a (Some e)). rewrite Ew. simpl. rewrite lookup_insert_eq. split_and!; try done.
      + by apply (comp_refl (comp := comp)).
      + right. by split. }
  exists s1, p, n. split_and!; try done. intros p' n' Hp'. by apply delete_nbr_run.
Qed.
End nbr_entry.

(** ** Example: 10.0.0.9 becomes a neighbour and is lost again. *)
Definition edemo : sensing (LQ := lq_etxff_handler) (KE := demo_export AF_INET) :=
  mkSens (KE := demo_export AF_INET) (mkNodes (KE := demo_export AF_INET) (mkRib (KE := demo_export AF_INET) tdemo_me ∅ [] 0 None [] ∅ []) ∅ ∅ ∅ 1 1) ∅ false false 1 1 2 2.

Lemma edemo_ok : nbrs_ok AF_INET 1 edemo.
Proof.
  split.
  - apply cons_empty; [by vm_compute..| |by vm_compute]. assert (get_timers edemo = tdemo_timers) as -> by (by vm_compute). exact tdemo_wheel_ok.
  - intros p k. assert (mid_tree (sn_w edemo) = []) as -> by (by vm_compute). by intros ?%elem_of_nil.
  - apply (topo_ok_core AF_INET tdemo); [apply tdemo_ok|by vm_compute..|]. intros v.
    by assert (tcs (tdb (sn_topo edemo)) = tcs (tdb tdemo)) as -> by (by vm_compute).
  - by vm_compute.
  - apply (bool_decide_unpack _). by vm_compute.
  - intros p n. assert (nbrs (sn_w edemo) = ∅) as -> by (by vm_compute). done.
  - intros e x p. assert (edges (tdb (sn_topo edemo)) = edges (tdb tdemo_me)) as -> by (by vm_compute). intros He Hx.
    destruct (tdemo_edges e x He) as [[-> | ->] _]; vm_compute in He; injection He as <-; done.
Qed.

Lemma nbr_entries_correct_witness : exists s1 p n, olsr_add_nbr_entry (KE := demo_export AF_INET) AF_INET (tdemo_ip 1) (tdemo_ip 9) edemo = Some (s1, p) /\
  nbrs (sn_w s1) !! p = Some n /\ exists s2, olsr_delete_nbr_entry p s1 = Some (s2, tt) /\ nbrs_ok AF_INET 1 s2 /\ nbrs (sn_w s2) !! p = None.
Proof.
  destruct (nbr_entries_correct (KE := demo_export AF_INET) AF_INET (tdemo_ip 1) 1 edemo (tdemo_ip 9) edemo_ok) as (s1 & p & n & R & _ & Hn & _ & _ & _ & H).
  - by vm_compute.
  - intros t Ht. vm_compute in Ht. injection Ht as <-. by vm_compute.
  - exists s1, p, n. split; [exact R|]. split; [exact Hn|]. destruct (H p n Hn) as (s2 & R2 & N2 & (D & _) & _). exists s2. split; [exact R2|]. split; [exact N2|].
    specialize (D p). rewrite decide_True in D by done. by destruct (nbrs (sn_w s2) !! p).
Defined.
