(* ===== verification/RouteCalc.v ===== *)
(** * The calculation of the routes ([olsr_spf.c])

    [olsr_calculate_routing_table] as a whole: the shortest paths, the refresh
    of the paths to the prefixes of every node that is reached, and the update of the
    routing table and of the kernel. *)
From S2P Require Import Prelude AvlSpec Trees Types Comparators Memcookie Clock Timer NetOut Lsdb Spf LqHandler LqEtxFf Neighborhood LinkSet TcSet TcInv TcInput TcProps RoutingTable ProcessRoutes RibUpdate RibRefresh RibPaths NodeSet.

Definition OLSR_SPF_BACKOFF_TIME : Z := 1000.
Definition OLSR_SPF_BACKOFF_JITTER : Z := 5.

Section route_calc.
Context `{LQ : LqHandler} `{KE : RouteExport} (rnd : nat -> Z) (ip_version lq_nat_thresh : Z) (fibm_correct : bool) (router_id : ip_addr).

(** [c_cand], [c_path] and [c_count] are the local variables of
    [olsr_calculate_routing_table]. *)
Record calc := mkCalc {
  c_nodes : nodes;
  spf_backoff_timer : option loc;
  spf_backoff_timer_info : loc;
  c_cand : list (loc * Z);
  c_path : list loc;
  c_count : Z
}.
Abbreviation M := (SE calc).

Definition with_nodes (n : nodes) (s : calc) : calc :=
  mkCalc n (spf_backoff_timer s) (spf_backoff_timer_info s) (c_cand s) (c_path s) (c_count s).
Definition with_backoff (h : option loc) (s : calc) : calc :=
  mkCalc (c_nodes s) h (spf_backoff_timer_info s) (c_cand s) (c_path s) (c_count s).
Definition with_locals (c : list (loc * Z)) (l : list loc) (n : Z) (s : calc) : calc :=
  mkCalc (c_nodes s) (spf_backoff_timer s) (spf_backoff_timer_info s) c l n.
Definition c_rib (s : calc) : rib := nd_rib (c_nodes s).
Definition c_db (s : calc) : lsdb := nd_db (c_nodes s).
Definition with_crib (r : rib) (s : calc) : calc := with_nodes (with_rib r (c_nodes s)) s.

Definition on_nodes {A} (m : SE nodes A) : M A := fun s =>
  match m (c_nodes s) with Some (n, a) => Some (with_nodes n s, a) | None => None end.

Definition spf_of (s : calc) : spf_st := mkSpfSt (c_db s) (c_cand s) (c_path s) (c_count s).
Definition put_spf (st : spf_st) (s : calc) : calc :=
  with_locals (cand_tree st) (path_list st) (path_count st)
    (with_crib (with_topo (with_tdb (db st) (r_topo (c_rib s))) (c_rib s)) s).
Definition on_spf {A} (m : SE spf_st A) : M A := fun s =>
  match m (spf_of s) with Some (st, a) => Some (put_spf st s, a) | None => None end.

#[global] Instance calc_has_timers : HasTimers calc := {|
  get_timers := fun s => get_timers (c_nodes s);
  put_timers := fun T s => with_nodes (put_timers T (c_nodes s)) s;
  get_put_timers := fun _ _ => eq_refl |}.

Definition olsr_expire_spf_backoff : M unit := se_mod (with_backoff None).

(** The loop that sets the next hops of our neighbour links. *)
Fixpoint set_next_hops (L : list (loc * ip_addr)) : M unit :=
  match L with
  | [] => mret tt
  | e :: L =>
    n ← on_nodes (on_topo (on_nbh (rd_nbr e.1)));
    (if is_sym n then
       d ← se_opt (nbr_tc_edge n);
       x ← on_spf (on_db (rd_edge d));
       inv ← se_opt (edge_inv x);
       i ← on_spf (on_db (rd_edge inv));
       nw ← se_get (fun s => now (get_timers s));
       l ← on_nodes (on_topo (on_nbh (get_best_link_to_neighbor nw (Some e.1))));
       on_spf (on_db (wr_spf (edge_tc i) (set_next_hop l)))
     else mret tt);;
    set_next_hops L
  end.

(** One round of the loop over the path list, for its first node. *)
Definition refresh_node (u : loc) : M unit :=
  on_spf (se_mod (fun st => with_path (remove_node u (path_list st)) st);; on_db (wr_spf u (set_pnode Unlinked)));;
  t ← on_spf (on_db (rd_tc u));
  match next_hop (tc_spf t) with
  | None => mret tt
  | Some lp =>
    l ← on_nodes (on_topo (on_nbh (rd_link lp)));
    on_nodes (on_rib (refresh_prefixes ip_version t l (prefix_tree t)))
  end.

Fixpoint refresh_nodes (L : list loc) : M unit :=
  match L with
  | [] => mret tt
  | u :: L => refresh_node u;; refresh_nodes L
  end.

Definition update_and_export : SE rib unit :=
  olsr_update_rib_routes ip_version lq_nat_thresh fibm_correct;; olsr_update_kernel_routes.

(** [fuel] bounds the number of nodes of the shortest-path loop. *)
Definition olsr_calculate_routing_table (fuel : nat) (force : bool) : M unit :=
  b ← se_get spf_backoff_timer;
  if negb force && bool_decide (is_Some b) then mret tt
  else
    ti ← se_get spf_backoff_timer_info;
    h ← on_timers (olsr_timer_set rnd b OLSR_SPF_BACKOFF_TIME OLSR_SPF_BACKOFF_JITTER 1 ti);
    se_mod (with_backoff h);;
    se_mod (with_locals [] [] 0);;
    on_nodes (on_rib olsr_bump_routingtree_version);;
    on_spf spf_init_vertices;;
    on_nodes (olsr_change_myself_tc ip_version lq_nat_thresh router_id);;
    me ← se_get (fun s => tc_myself (c_db s));
    match me with
    | None => on_nodes (on_rib update_and_export)
    | Some me =>
      on_spf (spf_add_myself me);;
      L ← se_get (fun s => nbr_tree (t_nbh (nd_topo (c_nodes s))));
      set_next_hops L;;
      on_spf (olsr_spf_run_full fuel);;
      L ← se_get c_path;
      refresh_nodes L;;
      on_nodes (on_rib update_and_export)
    end.

(** ** Runs that leave parts of the state alone *)
Lemma on_nodes_run {A} (m : SE nodes A) s n a : m (c_nodes s) = Some (n, a) -> on_nodes m s = Some (with_nodes n s, a).
Proof. intros H. unfold on_nodes. by rewrite H. Qed.
Lemma on_nodes_get {A} (m : SE nodes A) s a : m (c_nodes s) = Some (c_nodes s, a) -> on_nodes m s = Some (s, a).
Proof. intros H. rewrite (on_nodes_run m s _ a H). by destruct s. Qed.
Lemma on_crib_run {A} (m : SE rib A) s r a : m (c_rib s) = Some (r, a) -> on_nodes (on_rib m) s = Some (with_crib r s, a).
Proof. intros H. by apply on_nodes_run, on_rib_run. Qed.

Definition c_nbh (s : calc) : neighborhood := t_nbh (nd_topo (c_nodes s)).
Lemma nbh_get_run {A} (m : NM A) s a : m (c_nbh s) = Some (c_nbh s, a) -> on_nodes (on_topo (on_nbh m)) s = Some (s, a).
Proof. intros H. by apply on_nodes_get, on_topo_get, on_nbh_get. Qed.

Lemma on_spf_run {A} (m : SE spf_st A) s st a : m (spf_of s) = Some (st, a) -> on_spf m s = Some (put_spf st s, a).
Proof. intros H. unfold on_spf. by rewrite H. Qed.
Lemma spf_of_put st s : spf_of (put_spf st s) = st.
Proof. by destruct st. Qed.
Lemma put_spf_put st st' s : put_spf st (put_spf st' s) = put_spf st s.
Proof. done. Qed.
Lemma put_spf_id s : put_spf (spf_of s) s = s.
Proof. by destruct s as [[[[[]]]]]. Qed.

(** ** The next hops of the neighbours *)

(** The symmetric neighbours, each with its edge and its best link. *)
Fixpoint sym_nbrs (nw : Z) (w : neighborhood) (L : list (loc * ip_addr)) : option (list (loc * option loc)) :=
  match L with
  | [] => Some []
  | e :: L =>
    n ← nbrs w !! e.1;
    rest ← sym_nbrs nw w L;
    if is_sym n then
      d ← nbr_tc_edge n;
      l ← get_best_link_to_neighbor nw (Some e.1) w;
      Some ((d, l.2) :: rest)
    else Some rest
  end.

(** What the neighbour tables say does not depend on the database. *)
Definition with_lsdb (d : lsdb) (w : neighborhood) : neighborhood :=
  mkNbh (nbr_tree w) (nbrs w) (nbr2_tree w) (nbr2s w) (nbr_cons w) (link_entry_head w) (links w) (mid_tree w) (mids w) d.

Lemma best_link_lsdb nw d w nbr ls : forall c g, best_link nw nbr ls c g (with_lsdb d w) =
  match best_link nw nbr ls c g w with Some (w', r) => Some (with_lsdb d w', r) | None => None end.
Proof.
  induction ls as [|p ls IH]; intros c g; [done|]. cbn [best_link]. unfold mbind, se_bind, rd_link, lookup_link_status, se_get. simpl.
  destruct (links w !! p) as [l|] eqn:Hl; [|done]. simpl. case_bool_decide; [apply IH|]. unfold mbind, se_bind, rd_link, se_get, mret, se_ret. simpl.
  destruct (link_entry_head w); simpl; [apply IH|]. rewrite Hl. simpl.
  destruct (bool_decide (is_Some (link_sym_timer l))); simpl; [destruct (linkcost l <? c); apply IH|].
  destruct (olsr_clock_isPast nw (ASYM_time l)); simpl; apply IH.
Qed.

Lemma get_best_lsdb nw d w nbr r : links_ok w -> get_best_link_to_neighbor nw (Some nbr) w = Some (w, r) ->
  get_best_link_to_neighbor nw (Some nbr) (with_lsdb d w) = Some (with_lsdb d w, r).
Proof.
  intros _ H. unfold get_best_link_to_neighbor in *. erewrite bind_run in H |- * by reflexivity. simpl. by rewrite best_link_lsdb, H.
Qed.

Lemma set_next_hops_run s nw L : now (get_timers s) = nw -> links_ok (c_nbh s) -> forall nb st st',
  sym_nbrs nw (c_nbh s) L = Some nb -> spf_set_next_hops nb st = Some (st', tt) ->
  set_next_hops L (put_spf st s) = Some (put_spf st' s, tt).
Proof.
  intros Hw Hl. induction L as [|[p a] L IH]; intros nb st st' Hn Hr; cbn [set_next_hops sym_nbrs fst] in *.
  { injection Hn as <-. by injection Hr as <-. }
  destruct (nbrs (c_nbh s) !! p) as [n|] eqn:En; [|done]. simpl in Hn. destruct (sym_nbrs nw (c_nbh s) L) as [rest|] eqn:Er; [|done]. simpl in Hn.
  erewrite bind_run by (apply nbh_get_run; unfold rd_nbr; change (nbrs (c_nbh (put_spf st s))) with (nbrs (c_nbh s)); by rewrite En).
  destruct (is_sym n); [|injection Hn as <-; by apply (IH rest)].
  destruct (nbr_tc_edge n) as [d|]; [|done]. simpl in Hn.
  destruct (get_best_link_run nw (c_nbh s) p Hl) as (r & Rb & _). rewrite Rb in Hn. injection Hn as <-.
  unfold spf_set_next_hops in Hr. cbn [foldr fst snd] in Hr. apply bind_inv in Hr as (st1 & [] & H1 & H2).
  apply bind_inv in H1 as (sa & e & Ha & H1). unfold on_db, rd_edge in Ha. destruct (edges (db st) !! d) as [e'|] eqn:He; [|done].
  simpl in Ha. rewrite with_db_id in Ha. injection Ha as <- <-.
  apply bind_inv in H1 as (sb & inv & Hb & H1). unfold se_opt in Hb. destruct (edge_inv e') as [inv'|] eqn:Hi; [|done]. injection Hb as <- <-.
  apply bind_inv in H1 as (sc & i & Hc & H1). unfold on_db at 1, rd_edge in Hc. destruct (edges (db st) !! inv') as [i'|] eqn:Hii; [|done].
  simpl in Hc. rewrite with_db_id in Hc. injection Hc as <- <-.
  erewrite bind_run; [by apply (IH rest)|].
  erewrite bind_run by done. erewrite bind_run by (apply on_spf_run; rewrite spf_of_put; by apply rd_edge_run). rewrite put_spf_put.
  erewrite bind_run by (by rewrite Hi). erewrite bind_run by (apply on_spf_run; rewrite spf_of_put; by apply rd_edge_run). rewrite put_spf_put.
  erewrite bind_run by done. change (now (get_timers (put_spf st s))) with (now (get_timers s)). rewrite Hw.
  erewrite bind_run by (by apply nbh_get_run, (get_best_lsdb nw (db st) (c_nbh s))).
  erewrite on_spf_run by (rewrite spf_of_put; exact H1). by rewrite put_spf_put.
Qed.

(** ** The prefixes of the nodes that are reached *)
Section refresh.
Context (base : loc -> Z) (fib_view : kernel -> olsr_ip_prefix -> option (ip_addr * loc)).
Abbreviation rib_ok := (rib_ok ip_version base).
Abbreviation fib_sync := (fib_sync ip_version fib_view).
Abbreviation origins_ok := (origins_ok ip_version).
Abbreviation prefixes_done := (prefixes_done ip_version base fib_view).
Abbreviation pcomp := (avl_comp_prefix_default ip_version).

Context (s0 : calc).

(** The node and the link to it that the calculation has found. *)
Definition hop_info (u : loc) : option (tc_entry * link_entry) :=
  t ← tcs (c_db s0) !! u; lp ← next_hop (tc_spf t); l ← links (c_nbh s0) !! lp; Some (t, l).
Definition path_hop (D : list loc) (r : rt_path) : option (tc_entry * link_entry) :=
  u ← rtp_tc r; if decide (u ∈ D) then hop_info u else None.

(** A path after the nodes [D] have been visited. *)
Definition after (D : list loc) (r r' : rt_path) : Prop :=
  match path_hop D r with
  | Some (t, l) => refreshed ip_version t l (routingtree_version (c_rib s0)) r r'
  | None => r' = r
  end.

Definition norm (t : tc_entry) : tc_entry := set_spf (set_pnode Unlinked (tc_spf t)) t.
Definition prefixes (D : list loc) : nat := sum_list_with (fun u => length (default [] (prefix_tree <$> tcs (c_db s0) !! u))) D.

(** What the calculation leaves alone of the database and of the neighbour tables. *)
Definition rest_of (s : calc) : list (loc * ip_addr) * gmap loc tc_edge_entry * option loc * neighborhood :=
  (tc_tree (c_db s), edges (c_db s), tc_myself (c_db s), with_lsdb (c_db s0) (c_nbh s)).

Record visited (D : list loc) (s : calc) : Prop := {
  v_ok : rib_ok (c_rib s);
  v_sync : fib_sync (c_rib s);
  v_frame : routingtree_version (c_rib s) = routingtree_version (c_rib s0) /\ current_inetgw (c_rib s) = current_inetgw (c_rib s0) /\
    chg_kernel_list (c_rib s) = chg_kernel_list (c_rib s0) /\ kern (c_rib s) = kern (c_rib s0);
  v_tcs : forall u, norm <$> tcs (c_db s) !! u = norm <$> tcs (c_db s0) !! u;
  v_rest : rest_of s = rest_of s0;
  v_links : links (c_nbh s) = links (c_nbh s0);
  v_paths : forall q r, paths (c_rib s0) !! q = Some r -> exists r', paths (c_rib s) !! q = Some r' /\ after D r r';
  v_back : forall q r', paths (c_rib s) !! q = Some r' -> exists r, paths (c_rib s0) !! q = Some r /\ rtp_originator r' = rtp_originator r /\
    rtp_dst r' = rtp_dst r /\ rtp_tc r' = rtp_tc r;
  v_size : size (paths (c_rib s)) = size (paths (c_rib s0));
  v_len : (length (routingtree (c_rib s)) <= prefixes D + length (routingtree (c_rib s0)))%nat
}.

Lemma after_same D r r' : after D r r' -> rtp_originator r' = rtp_originator r /\ rtp_dst r' = rtp_dst r /\ rtp_tc r' = rtp_tc r.
Proof. unfold after. destruct (path_hop D r) as [[t l]|]; [apply refreshed_same|by intros ->]. Qed.

Lemma norm_lookup s u t0 : (forall u, norm <$> tcs (c_db s) !! u = norm <$> tcs (c_db s0) !! u) -> tcs (c_db s0) !! u = Some t0 ->
  exists t, tcs (c_db s) !! u = Some t /\ norm t = norm t0.
Proof. intros H Hu. specialize (H u). rewrite Hu in H. destruct (tcs (c_db s) !! u) as [t|]; [|done]. exists t. split; [done|]. by apply (inj Some) in H. Qed.

(** The first steps of a round. *)
Lemma leave_list_run s u t : tcs (c_db s) !! u = Some t ->
  exists st, on_spf (se_mod (fun st => with_path (remove_node u (path_list st)) st);; on_db (wr_spf u (set_pnode Unlinked))) s = Some (put_spf st s, tt) /\
    tcs (db st) = <[u := norm t]> (tcs (c_db s)) /\ rest_of (put_spf st s) = rest_of s.
Proof.
  intros Hu. eexists. split; [apply on_spf_run; erewrite bind_run by done; unfold on_db, wr_spf; simpl; rewrite Hu; reflexivity|]. done.
Qed.

Lemma rib_ok_put st s : rib_ok (c_rib s) -> rib_ok (c_rib (put_spf st s)).
Proof. intros [H1 H2 H3 H4 H5 H6 H7 H8]. by split. Qed.

Lemma hop_to_norm t t0 v l : norm t = norm t0 -> hop_to v (norm t) l = hop_to v t0 l.
Proof. intros E. by rewrite E. Qed.
Lemma refreshed_norm t t0 v l r r' : norm t = norm t0 -> refreshed ip_version (norm t) l v r r' -> refreshed ip_version t0 l v r r'.
Proof. intros E. unfold refreshed. by rewrite (hop_to_norm t t0 v l E). Qed.

Lemma path_hop_cons u D r : path_hop (u :: D) r = if decide (rtp_tc r = Some u) then hop_info u else path_hop D r.
Proof.
  unfold path_hop. destruct (rtp_tc r) as [u'|]; simpl; [|done]. destruct (decide (Some u' = Some u)) as [[= ->]|Hn]; [by rewrite decide_True by left|].
  do 2 case_decide; try done; exfalso; set_solver.
Qed.

(** A node without a link changes nothing. *)
Lemma visited_skip D u s st t t0 : visited D s -> tcs (c_db s) !! u = Some t -> tcs (c_db s0) !! u = Some t0 -> norm t = norm t0 -> u ∉ D ->
  tcs (db st) = <[u := norm t]> (tcs (c_db s)) -> rest_of (put_spf st s) = rest_of s -> hop_info u = None -> visited (u :: D) (put_spf st s).
Proof.
  intros V Ht Ht0 En Hu Est Er Hh. split; try apply V.
  - by apply rib_ok_put, V.
  - intros v. change (tcs (c_db (put_spf st s))) with (tcs (db st)). rewrite Est. destruct (decide (u = v)) as [<-|]; [|rewrite lookup_insert_ne by done; apply V].
    rewrite lookup_insert_eq, Ht0. simpl. f_equal. by rewrite <- En.
  - rewrite Er. apply V.
  - intros q r Hq. destruct (v_paths _ _ V q r Hq) as (r' & Hr' & Ha). exists r'. split; [done|]. revert Ha. unfold after. rewrite path_hop_cons.
    case_decide as E; [|done]. rewrite Hh. unfold path_hop. rewrite E. simpl. by rewrite decide_False.
  - pose proof (v_len _ _ V). change (routingtree (c_rib (put_spf st s))) with (routingtree (c_rib s)). simpl. lia.
Qed.

(** A node with a link. *)
Lemma visited_done D u s st t t0 l R' : visited D s -> tcs (c_db s) !! u = Some t -> tcs (c_db s0) !! u = Some t0 -> norm t = norm t0 -> u ∉ D ->
  prefix_ok (c_db s0) (paths (c_rib s0)) -> tcs (db st) = <[u := norm t]> (tcs (c_db s)) -> rest_of (put_spf st s) = rest_of s -> hop_info u = Some (t0, l) ->
  prefixes_done (norm t) l (c_rib (put_spf st s)) (prefix_tree t0).*1 R' -> visited (u :: D) (with_crib R' (put_spf st s)).
Proof.
  intros V Ht Ht0 En Hu PO Est Er Hh Dn. destruct Dn as [D1 D2 [D3 D3' D3'' D4 D5] D6 D7 D8 D9].
  change (paths (c_rib (put_spf st s))) with (paths (c_rib s)) in *.
  assert (Hown : forall q r, paths (c_rib s0) !! q = Some r -> q ∈ (prefix_tree t0).*1 <-> rtp_tc r = Some u).
  { intros q r Hq. split.
    - intros (k & Hk)%elem_fst. apply (po_in _ _ PO u t0 q k Ht0) in Hk as (r0 & ? & ? & _). by simplify_eq.
    - intros E. eapply fst_elem, (po_in _ _ PO u t0 q (rtp_dst r) Ht0). eauto. }
  destruct (v_frame _ _ V) as (F1 & F2 & F3 & F4).
  assert (Hp : forall q r, paths (c_rib s0) !! q = Some r -> exists r', paths R' !! q = Some r' /\ after (u :: D) r r').
  { intros q r Hq. destruct (v_paths _ _ V q r Hq) as (r1 & Hr1 & Ha). unfold after in *. rewrite path_hop_cons. case_decide as E.
    - assert (r1 = r) as ->. { revert Ha. unfold path_hop. rewrite E. simpl. by rewrite decide_False. }
      destruct (D6 q r) as (r' & Hr' & Hf); [by apply (Hown q r Hq)|done|]. exists r'. split; [done|]. rewrite Hh. apply (refreshed_norm t); [done|].
      change (routingtree_version (c_rib (put_spf st s))) with (routingtree_version (c_rib s)) in Hf. by rewrite F1 in Hf.
    - rewrite D7; [eauto|]. by rewrite (Hown q r Hq). }
  split; try done.
  - split_and!; [by rewrite <- F1|by rewrite <- F2|by rewrite <- F3|by rewrite <- F4].
  - intros v. assert (tcs (c_db (with_crib R' (put_spf st s))) = <[u := norm t]> (tcs (c_db s))) as ->.
    { change (tcs (tdb (r_topo R')) = <[u := norm t]> (tcs (c_db s))). rewrite D3. exact Est. }
    destruct (decide (u = v)) as [<-|]; [|rewrite lookup_insert_ne by done; apply V].
    rewrite lookup_insert_eq, Ht0. simpl. f_equal. by rewrite <- En.
  - assert (rest_of (with_crib R' (put_spf st s)) = rest_of (put_spf st s)) as ->; [|rewrite Er; apply V].
    unfold rest_of. change (c_db (with_crib R' (put_spf st s))) with (tdb (r_topo R')). change (c_nbh (with_crib R' (put_spf st s))) with (t_nbh (r_topo R')). by rewrite D3.
  - change (links (t_nbh (r_topo R')) = links (c_nbh s0)). rewrite D3. apply V.
  - intros q r' Hq. change (paths R' !! q = Some r') in Hq. destruct (paths (c_rib s0) !! q) as [r|] eqn:Eq.
    + destruct (Hp q r Eq) as (r'' & Hr'' & (? & ? & ?)%after_same). simplify_eq. eauto.
    + exfalso. destruct (decide (q ∈ (prefix_tree t0).*1)) as [Hin|Hin].
      * apply elem_fst in Hin as [k Hk]. apply (po_in _ _ PO u t0 q k Ht0) in Hk as (r0 & ? & _). congruence.
      * rewrite (D7 q Hin) in Hq. destruct (v_back _ _ V q r' Hq) as (r0 & ? & _). congruence.
  - change (size (paths R') = size (paths (c_rib s0))). rewrite D8. apply V.
  - change (length (routingtree R') <= prefixes (u :: D) + length (routingtree (c_rib s0)))%nat. pose proof (v_len _ _ V).
    change (routingtree (c_rib (put_spf st s))) with (routingtree (c_rib s)) in D9. unfold prefixes. simpl. rewrite Ht0. simpl.
    fold (prefixes D). rewrite length_fmap in D9. lia.
Qed.

Definition hop_live (t0 : tc_entry) : Prop :=
  path_cost (tc_spf t0) <> ROUTE_COST_BROKEN /\
  forall lp, next_hop (tc_spf t0) = Some lp -> exists l, links (c_nbh s0) !! lp = Some l /\ 0 < base (inter l).

Lemma refresh_node_run D u s t0 : visited D s -> u ∉ D -> tcs (c_db s0) !! u = Some t0 -> hop_live t0 ->
  prefix_ok (c_db s0) (paths (c_rib s0)) -> origins_ok (paths (c_rib s0)) ->
  (forall i, base i + Z.of_nat (size (paths (c_rib s0))) + Z.of_nat (length (routingtree (c_rib s0)) + prefixes (u :: D)) + 2 < 2 ^ 32) ->
  exists s', refresh_node u s = Some (s', tt) /\ visited (u :: D) s'.
Proof.
  intros V Hu Ht0 [Hc Hlp] PO O Rm. destruct (norm_lookup s u t0 (v_tcs _ _ V) Ht0) as (t & Ht & En).
  unfold refresh_node. destruct (leave_list_run s u t Ht) as (st & E1 & Est & Er). erewrite bind_run by exact E1.
  assert (Hn : tcs (db st) !! u = Some (norm t)) by (rewrite Est; by rewrite lookup_insert_eq).
  erewrite bind_run by (apply on_spf_run; rewrite spf_of_put; by apply rd_tc_run). rewrite put_spf_put.
  assert (Enh : next_hop (tc_spf (norm t)) = next_hop (tc_spf t0)) by (by rewrite En). rewrite Enh.
  destruct (next_hop (tc_spf t0)) as [lp|] eqn:Eh.
  - destruct (Hlp lp eq_refl) as (l & Hl & Hb).
    erewrite bind_run by (apply nbh_get_run; unfold rd_link; change (links (c_nbh (put_spf st s))) with (links (c_nbh s)); rewrite (v_links _ _ V), Hl; done).
    assert (Ept : prefix_tree (norm t) = prefix_tree t0) by (by rewrite En). rewrite Ept.
    destruct (refresh_prefixes_run ip_version base fib_view (norm t) l Hb (prefix_tree t0) (c_rib (put_spf st s))) as (R' & E & Dn).
    + by apply rib_ok_put, V.
    + apply V.
    + intros i. specialize (Rm i). change (paths (c_rib (put_spf st s))) with (paths (c_rib s)). rewrite (v_size _ _ V).
      pose proof (v_len _ _ V). change (routingtree (c_rib (put_spf st s))) with (routingtree (c_rib s)).
      unfold prefixes in Rm. simpl in Rm. rewrite Ht0 in Rm. simpl in Rm. fold (prefixes D) in Rm. lia.
    + eapply origins_ok_same; [|exact O]. intros q r' Hq. destruct (v_back _ _ V q r' Hq) as (r & ? & ? & ? & _). eauto.
    + rewrite En. exact Hc.
    + apply (po_nodup _ _ PO u t0 Ht0).
    + intros q (k & Hk)%elem_fst. apply (po_in _ _ PO u t0 q k Ht0) in Hk as (r & Hr & _).
      destruct (v_paths _ _ V q r Hr) as (r' & Hr' & _). exists r'. exact Hr'.
    + exists (with_crib R' (put_spf st s)). split; [by apply on_crib_run|].
      apply (visited_done D u s st t t0 l); try done. unfold hop_info. rewrite Ht0. simpl. rewrite Eh. simpl. by rewrite Hl.
  - exists (put_spf st s). split; [done|]. apply (visited_skip D u s st t t0); try done. unfold hop_info. rewrite Ht0. simpl. by rewrite Eh.
Qed.

Lemma prefixes_cons u D : prefixes (u :: D) = (length (default [] (prefix_tree <$> tcs (c_db s0) !! u)) + prefixes D)%nat.
Proof. done. Qed.

Lemma refresh_nodes_run L : forall D s, visited D s -> NoDup (L ++ D) -> (forall u, u ∈ L -> exists t0, tcs (c_db s0) !! u = Some t0 /\ hop_live t0) ->
  prefix_ok (c_db s0) (paths (c_rib s0)) -> origins_ok (paths (c_rib s0)) ->
  (forall i, base i + Z.of_nat (size (paths (c_rib s0))) + Z.of_nat (length (routingtree (c_rib s0)) + prefixes (L ++ D)) + 2 < 2 ^ 32) ->
  exists s', refresh_nodes L s = Some (s', tt) /\ visited (reverse L ++ D) s'.
Proof.
  induction L as [|u L IH]; intros D s V N HL PO O Rm; [by exists s|]. cbn [refresh_nodes].
  apply NoDup_cons in N as [Nu N]. rewrite elem_of_app in Nu. destruct (HL u ltac:(left)) as (t0 & Ht0 & Hlive).
  assert (Hsum : prefixes (L ++ u :: D) = prefixes ((u :: L) ++ D)).
  { unfold prefixes. rewrite !sum_list_with_app. simpl. lia. }
  destruct (refresh_node_run D u s t0 V) as (s1 & E1 & V1); try done; [tauto| |].
  - intros i. specialize (Rm i). rewrite <- Hsum in Rm. unfold prefixes in *. rewrite sum_list_with_app in Rm. lia.
  - destruct (IH (u :: D) s1 V1) as (s' & E & V'); try done.
    + rewrite <- Permutation_middle. constructor; [|done]. by rewrite elem_of_app.
    + intros v Hv. apply HL. by right.
    + by rewrite Hsum.
    + exists s'. split; [by erewrite bind_run by exact E1|]. by rewrite reverse_cons, <- app_assoc.
Qed.

(** There are no more prefixes than paths. *)
Lemma nodup_size (P : gmap loc rt_path) (l : list loc) : NoDup l -> (forall q, q ∈ l -> is_Some (P !! q)) -> (length l <= size P)%nat.
Proof.
  intros N H. rewrite <- (size_list_to_set (C := gset loc) l N), <- (size_dom P). apply subseteq_size.
  intros q Hq%elem_of_list_to_set. by apply elem_of_dom, H.
Qed.

Lemma prefixes_bound L : NoDup L -> prefix_ok (c_db s0) (paths (c_rib s0)) -> (prefixes L <= size (paths (c_rib s0)))%nat.
Proof.
  intros N PO. set (Q := fun u => (default [] (prefix_tree <$> tcs (c_db s0) !! u)).*1).
  assert (HQ : forall u q, q ∈ Q u -> exists r, paths (c_rib s0) !! q = Some r /\ rtp_tc r = Some u).
  { intros u q. unfold Q. destruct (tcs (c_db s0) !! u) as [t|] eqn:Ht; simpl; [|by intros ?%elem_of_nil].
    intros (k & (r & ? & ? & _)%(po_in _ _ PO u t q k Ht))%elem_fst. eauto. }
  assert (prefixes L = length (L ≫= Q)) as ->.
  { induction L as [|u L IH]; [done|]. rewrite prefixes_cons, bind_cons, length_app, IH by (by apply NoDup_cons in N as [_ ?]).
    unfold Q at 2. by rewrite length_fmap. }
  apply nodup_size; [|intros q (u & Hq & _)%list_elem_of_bind; destruct (HQ u q Hq) as (r & ? & _); eauto].
  induction L as [|u L IH]; [constructor|]. apply NoDup_cons in N as [Nu N]. rewrite bind_cons. apply NoDup_app. split_and!; [| |by apply IH].
  - unfold Q. destruct (tcs (c_db s0) !! u) as [t|] eqn:Ht; simpl; [by apply (po_nodup _ _ PO u t)|constructor].
  - intros q Hq (v & Hv & HvL)%list_elem_of_bind. destruct (HQ u q Hq) as (r & ? & ?), (HQ v q Hv) as (r' & ? & ?). by simplify_eq.
Qed.

(** ** From paths to routes *)

(** A path of version [v] that hangs off a node in [D]. *)
Lemma visited_current D s q r : visited D s -> paths (c_rib s0) !! q = Some r -> forall t l, path_hop D r = Some (t, l) -> accepted ip_version r ->
  exists p, paths (c_rib s) !! q = Some (hop_to (routingtree_version (c_rib s0)) t l (set_rtp_rt (Some p) r)).
Proof.
  intros V Hq t l Hh Ha. destruct (v_paths _ _ V q r Hq) as (r' & Hr' & Hf). unfold after in Hf. rewrite Hh in Hf.
  destruct Hf as [[_ (p & ->)]|[? _]]; [by exists p|done].
Qed.

Lemma current_visited D s q r' : visited D s ->
  (forall q r, paths (c_rib s0) !! q = Some r -> is_Some (rtp_rt r) -> rtp_version r <> routingtree_version (c_rib s0)) ->
  paths (c_rib s) !! q = Some r' -> is_Some (rtp_rt r') -> rtp_version r' = routingtree_version (c_rib s0) ->
  exists r t l p, paths (c_rib s0) !! q = Some r /\ path_hop D r = Some (t, l) /\ accepted ip_version r /\
    r' = hop_to (routingtree_version (c_rib s0)) t l (set_rtp_rt (Some p) r).
Proof.
  intros V Hold Hq Hrt Hv. destruct (v_back _ _ V q r' Hq) as (r & Hr & _). destruct (v_paths _ _ V q r Hr) as (r'' & Hr'' & Hf). simplify_eq.
  unfold after in Hf. destruct (path_hop D r) as [[t l]|] eqn:Hh.
  - destruct Hf as [[Ha (p & ->)]|[Hn ->]]; [by exists r, t, l, p|]. exfalso. apply Hn. by left.
  - subst r'. exfalso. by apply (Hold q r).
Qed.

Lemma is_best_all P g L b rb : is_best ip_version lq_nat_thresh P g L b -> P !! b = Some rb ->
  forall q rq, q ∈ L -> P !! q = Some rq -> ~ rank_lt (rank lq_nat_thresh g q rq) (rank lq_nat_thresh g b rb).
Proof.
  intros (L1 & L2 & r & -> & Hr & H1 & H2) Hb q rq Hq Hrq Hlt. simplify_eq. apply elem_of_app in Hq as [Hq|[->|Hq]%elem_of_cons].
  - by apply (H1 q rq).
  - simplify_eq. by apply rank_lt_irrefl in Hlt.
  - destruct (H2 q rq Hq Hrq) as [Hlt'|[E _]]; [eapply rank_lt_irrefl, rank_lt_trans; eassumption|]. rewrite E in Hlt. by apply rank_lt_irrefl in Hlt.
Qed.

(** A node [u] of [D] announces prefix [k], which is [d], with path [q], and is reached over link [l]. *)
Record candidate (D : list loc) (d : olsr_ip_prefix) (u q : loc) (k : olsr_ip_prefix) (x : spf_data) (l : link_entry) : Prop := {
  cd_node : u ∈ D;
  cd_prefix : exists t, tcs (c_db s0) !! u = Some t /\ tc_spf t = x /\ (q, k) ∈ prefix_tree t;
  cd_link : exists lp, next_hop x = Some lp /\ links (c_nbh s0) !! lp = Some l;
  cd_len : prefix_len k <= 8 * Z.of_nat (tc_ipsize ip_version);
  cd_dst : pcomp d k = 0
}.

Definition cand_rank (g : option loc) (q : loc) (x : spf_data) (k : olsr_ip_prefix) : Z * Z * Z :=
  (if bool_decide (g = Some q) then nat_cost lq_nat_thresh (path_cost x) else path_cost x, hops x, prefix_origin k).

Lemma candidate_hop D d u q k x l : prefix_ok (c_db s0) (paths (c_rib s0)) -> candidate D d u q k x l ->
  exists r t, paths (c_rib s0) !! q = Some r /\ rtp_dst r = k /\ path_hop D r = Some (t, l) /\ tc_spf t = x /\ accepted ip_version r /\
    prefix_origin (rtp_originator r) = prefix_origin k.
Proof.
  intros PO [Hu (t & Ht & <- & Hk) (lp & Hn & Hl) Hlen _]. apply (po_in _ _ PO u t q k Ht) in Hk as (r & Hr & Hu' & <-).
  exists r, t. split_and!; try done; [|by right|by apply (po_origin _ _ PO q)].
  unfold path_hop. rewrite Hu'. simpl. rewrite decide_True by done. unfold hop_info. rewrite Ht. simpl. rewrite Hn. simpl. by rewrite Hl.
Qed.

Lemma hop_candidate D q r t l d : prefix_ok (c_db s0) (paths (c_rib s0)) -> paths (c_rib s0) !! q = Some r -> path_hop D r = Some (t, l) ->
  prefix_len (rtp_dst r) <= 8 * Z.of_nat (tc_ipsize ip_version) -> pcomp d (rtp_dst r) = 0 -> exists u, candidate D d u q (rtp_dst r) (tc_spf t) l.
Proof.
  intros PO Hq Hh Hlen Hd. unfold path_hop in Hh. destruct (rtp_tc r) as [u|] eqn:Hu; [|done]. simpl in Hh. case_decide as Hin; [|done].
  unfold hop_info in Hh. destruct (tcs (c_db s0) !! u) as [t'|] eqn:Ht; [|done]. simpl in Hh. destruct (next_hop (tc_spf t')) as [lp|] eqn:Hn; [|done].
  simpl in Hh. destruct (links (c_nbh s0) !! lp) as [l'|] eqn:Hl; [|done]. injection Hh as -> ->. exists u. split; try done; [|eauto].
  exists t. split_and!; [done..|]. apply (po_in _ _ PO u t q (rtp_dst r) Ht). eauto.
Qed.

(** Where the kernel sends packets for [d]: over the link to the node that announces [d] with the
    least rank, that is the least cost, then the fewest hops, then the least
    origin; nowhere if no node that is reached announces it. *)
Definition kernel_route (D : list loc) (k : kernel) (d : olsr_ip_prefix) : Prop :=
  (forall u q kk x l, ~ candidate D d u q kk x l) /\ fib_view k d = None \/
  exists u q kk x l g gw, candidate D d u q kk x l /\ fib_view k d = Some (gw, inter l) /\ ipcmp ip_version (neighbor_iface_addr l) gw = 0 /\
    (g = None \/ prefix_len kk = 0 /\ g = current_inetgw (c_rib s0)) /\
    forall u' q' k' x' l', candidate D d u' q' k' x' l' -> ~ rank_lt (cand_rank g q' x' k') (cand_rank g q x kk).

Context (PO : prefix_ok (c_db s0) (paths (c_rib s0)))
  (Hold : forall q r, paths (c_rib s0) !! q = Some r -> is_Some (rtp_rt r) ->
    rtp_version r <> routingtree_version (c_rib s0) /\ prefix_len (rtp_dst r) <= 8 * Z.of_nat (tc_ipsize ip_version)).

(** The current paths of the entry of a prefix are those of the candidates. *)
Lemma candidate_current D s d u q k x l : visited D s -> candidate D d u q k x l ->
  exists p y r', tree_find pcomp d (routingtree (c_rib s)) = Some p /\ rts (c_rib s) !! p = Some y /\ q ∈ (cur_paths (c_rib s) y).*1 /\
    paths (c_rib s) !! q = Some r' /\ forall g, rank lq_nat_thresh g q r' = cand_rank g q x k.
Proof.
  intros V C. destruct (candidate_hop D d u q k x l PO C) as (r & t & Hr & Ek & Hh & Ex & Ha & Eo).
  destruct (visited_current D s q r V Hr t l Hh Ha) as (p & Hr'). destruct (ro_back _ _ _ (v_ok _ _ V) q _ p Hr' eq_refl) as (Hp & y & Hy & Hq).
  destruct (elem_fst _ _ Hp) as [kp Hkp]. destruct (ro_entry _ _ _ (v_ok _ _ V) p kp Hkp) as (y' & Hy' & -> & _). rewrite Hy in Hy'. injection Hy' as <-.
  destruct (ro_path _ _ _ (v_ok _ _ V) p y q Hp Hy Hq) as (r0 & Hr0 & _ & Hd & _). rewrite Hr' in Hr0. injection Hr0 as <-.
  exists p, y, (hop_to (routingtree_version (c_rib s0)) t l (set_rtp_rt (Some p) r)). split_and!; try done.
  - eapply find_entry; [exact (v_ok _ _ V)|exact Hkp|]. eapply comp_eq_trans; [apply _|exact (cd_dst _ _ _ _ _ _ _ C)|]. rewrite <- Ek. exact Hd.
  - apply in_cur. split; [done|]. intros (r1 & Hr1 & Hv). rewrite Hr' in Hr1. injection Hr1 as <-. apply Hv.
    by destruct (v_frame _ _ V) as (-> & _).
  - intros g. unfold rank, cand_rank, cmp_cost. simpl. subst x. by rewrite Eo.
Qed.

Lemma current_candidate D s d p y q : visited D s -> tree_find pcomp d (routingtree (c_rib s)) = Some p -> rts (c_rib s) !! p = Some y ->
  q ∈ (cur_paths (c_rib s) y).*1 -> exists u k x l r', candidate D d u q k x l /\ paths (c_rib s) !! q = Some r' /\
    rtp_gateway r' = neighbor_iface_addr l /\ rtp_interface r' = Some (inter l) /\ prefix_len k = prefix_len (rt_dst y) /\
    forall g, rank lq_nat_thresh g q r' = cand_rank g q x k.
Proof.
  intros V Hp Hy [Hq Ho]%in_cur. apply tree_find_Some in Hp as (kp & Hkp & Ekp).
  destruct (ro_entry _ _ _ (v_ok _ _ V) p kp Hkp) as (y' & Hy' & -> & _). rewrite Hy in Hy'. injection Hy' as <-.
  destruct (ro_path _ _ _ (v_ok _ _ V) p y q (fst_elem _ _ _ Hkp) Hy Hq) as (r' & Hr' & Hrt & Hd & _).
  assert (Hv : rtp_version r' = routingtree_version (c_rib s0)).
  { destruct (decide (rtp_version r' = routingtree_version (c_rib s0))) as [|Hn]; [done|]. exfalso. apply Ho. exists r'. split; [done|].
    by destruct (v_frame _ _ V) as (-> & _). }
  destruct (current_visited D s q r' V) as (r & t & l & p' & Hr & Hh & Ha & ->); [intros q0 r0 ? ?; by apply (Hold q0 r0)|done|by eexists|done|].
  simpl in Hd. destruct (hop_candidate D q r t l d PO Hr Hh) as (u & C).
  { destruct Ha as [Ha|Ha]; [by apply (Hold q r)|done]. }
  { eapply comp_eq_trans; [apply _|exact Ekp|]. by apply comp_eq_sym; [apply _|]. }
  exists u, (rtp_dst r), (tc_spf t), l. eexists. split; [exact C|]. split_and!; try done; [by rewrite (prefix_len_comp _ _ _ Hd)|].
  intros g. unfold rank, cand_rank, cmp_cost. simpl. by rewrite (po_origin _ _ PO q r Hr).
Qed.

Lemma visited_routes D s k d : visited D s -> routes_updated ip_version lq_nat_thresh fib_view (c_rib s) k d -> kernel_route D k d.
Proof.
  intros V. unfold routes_updated, kernel_route. destruct (tree_find pcomp d (routingtree (c_rib s))) as [p|] eqn:Ep.
  - intros [[Hn Hk]|(y & b & r & gw & i & Hy & Hb & Hr & Hbest & Hk & Hg & Hi)].
    + left. split; [|done]. intros u q kk x l C. destruct (candidate_current D s d u q kk x l V C) as (p' & y & r' & Ep' & Hy & Hq & _).
      rewrite Ep in Ep'. injection Ep' as <-. apply Hn. exists y. split; [done|]. intros E. rewrite E in Hq. by apply elem_of_nil in Hq.
    + right. destruct (current_candidate D s d p y b V Ep Hy Hb) as (u & kk & x & l & r' & C & Hr' & Eg & Ei & El & Erank). rewrite Hr in Hr'. injection Hr' as <-.
      assert (exists g, (g = None \/ prefix_len kk = 0 /\ g = current_inetgw (c_rib s0)) /\
        is_best ip_version lq_nat_thresh (paths (c_rib s)) g (cur_paths (c_rib s) y).*1 b) as (g & Hgw & Hbg).
      { destruct Hbest as [Hbest|[Hl Hbest]]; [exists None; auto|]. exists (current_inetgw (c_rib s)). split; [right|done]. split; [congruence|].
        by destruct (v_frame _ _ V) as (_ & -> & _). }
      exists u, b, kk, x, l, g, gw. rewrite Ei in Hi. injection Hi as <-. rewrite Eg in Hg. split_and!; try done.
      intros u' q' k' x' l' C'. destruct (candidate_current D s d u' q' k' x' l' V C') as (p' & y' & r'' & Ep' & Hy' & Hq' & Hr'' & Er'').
      rewrite Ep in Ep'. injection Ep' as <-. simplify_eq. rewrite <- Er'', <- Erank. by eapply is_best_all.
  - intros Hk. left. split; [|done]. intros u q kk x l C. destruct (candidate_current D s d u q kk x l V C) as (p' & y & r' & Ep' & _). congruence.
Qed.
End refresh.

(** ** The links of the routes *)
Lemma first_link_in d nb p l : first_link d nb p = Some l -> exists e, (e, Some l) ∈ nb.
Proof.
  unfold first_link. assert (H : forall acc,
    foldl (fun acc n => if decide (edge_target d n.1 = Some p) then n.2 else acc) acc nb = Some l -> acc = Some l \/ exists e, (e, Some l) ∈ nb).
  { induction nb as [|[e o] nb IH]; intros acc; [by left|]. simpl. intros [E|[e' ?]]%IH; [|right; exists e'; by right].
    case_decide; [|by left]. right. exists e. subst o. left. }
  intros [?|?]%H; done.
Qed.

Lemma route_link d me preset v n c nh : route d me preset v n c nh -> forall l, nh = Some l -> exists p, preset p = Some l.
Proof. induction 1 as [|u v n c c' nh Hr IH He]; intros l; [done|]. destruct nh as [l'|]; [intros [= <-]; by apply IH|eauto]. Qed.

Lemma sym_nbrs_links nw w L : links_ok w -> forall nb e p, sym_nbrs nw w L = Some nb -> (e, Some p) ∈ nb ->
  p ∈ link_entry_head w /\ is_Some (links w !! p).
Proof.
  intros Hl. induction L as [|[q a] L IH]; intros nb e p; cbn [sym_nbrs fst]; [by intros [= <-] ?%elem_of_nil|].
  destruct (nbrs w !! q) as [n|]; [|done]. simpl. destruct (sym_nbrs nw w L) as [rest|] eqn:Er; [|done]. simpl.
  destruct (is_sym n); [|intros [= <-]; by apply IH]. destruct (nbr_tc_edge n) as [d|]; [|done]. simpl.
  destruct (get_best_link_run nw w q Hl) as (r & Rb & Hb). rewrite Rb. intros [= <-] [[= _ <-]|Hin]%elem_of_cons; [|by eapply IH].
  destruct Hb as (l & (? & ? & _) & _). eauto.
Qed.

(** ** The whole calculation *)
Section calculate.
Context (base : loc -> Z) (fib_view : kernel -> olsr_ip_prefix -> option (ip_addr * loc)) (me : loc) (nb : list (loc * option loc)) (maxc : Z).
Abbreviation rib_ok := (rib_ok ip_version base).
Abbreviation fib_sync := (fib_sync ip_version fib_view).
Abbreviation hostlen := (8 * Z.of_nat (tc_ipsize ip_version)).

(** The paths that are in use are of the last calculation. *)
Definition paths_current (r : rib) : Prop := forall q x, paths r !! q = Some x -> is_Some (rtp_rt x) -> rtp_version x = routingtree_version r.

Record calc_ok (s : calc) : Prop := {
  co_timers : timers_ok (get_timers s);
  co_info : is_Some (timer_infos (get_timers s) !! spf_backoff_timer_info s);
  co_backoff : forall p, spf_backoff_timer s = Some p -> timer_of (get_timers s) (spf_backoff_timer_info s) 1 p;
  co_rib : rib_ok (c_rib s);
  co_sync : fib_sync (c_rib s);
  co_chg : chg_kernel_list (c_rib s) = [];
  co_db : lsdb_ok (c_db s) me nb maxc;
  co_addr : forall t, tcs (c_db s) !! me = Some t -> ipcmp ip_version (tc_addr t) router_id = 0;
  co_links : links_ok (c_nbh s);
  co_nbrs : sym_nbrs (now (get_timers s)) (c_nbh s) (nbr_tree (c_nbh s)) = Some nb;
  co_base : forall p l, p ∈ link_entry_head (c_nbh s) -> links (c_nbh s) !! p = Some l -> 0 < base (inter l);
  co_prefix : prefix_ok (c_db s) (paths (c_rib s));
  co_origins : origins_ok ip_version (paths (c_rib s));
  co_current : paths_current (c_rib s);
  co_len : forall q r, paths (c_rib s) !! q = Some r -> is_Some (rtp_rt r) -> prefix_len (rtp_dst r) <= hostlen;
  co_version : is_u 32 (routingtree_version (c_rib s));
  co_room : forall i, base i + 2 * Z.of_nat (size (paths (c_rib s))) + Z.of_nat (length (routingtree (c_rib s))) + 2 < 2 ^ 32
}.

Lemma prefix_ok_frame d d' P : frame d d' -> prefix_ok d P -> prefix_ok d' P.
Proof.
  intros Fr [H1 H2 H3 H4].
  assert (E : forall u t', tcs d' !! u = Some t' -> exists t, tcs d !! u = Some t /\ prefix_tree t = prefix_tree t').
  { intros u t' Ht'. pose proof (fr_tcs _ _ Fr u (tc_spf t')) as E. rewrite Ht' in E. destruct (tcs d !! u) as [t|]; [|done].
    exists t. split; [done|]. apply (f_equal (fmap prefix_tree)) in E. simpl in E. congruence. }
  split; [| | |done].
  - intros u t' (t & Ht & <-)%E. by apply (H1 u).
  - intros u t' q k (t & Ht & <-)%E. by apply (H2 u).
  - intros q r u Hq Hu. apply (frame_some d d' u Fr). by apply (H3 q r).
Qed.

(** What the calculation requires of the database does not depend on its results. *)
Lemma frame_trans d1 d2 d3 : frame d1 d2 -> frame d2 d3 -> frame d1 d3.
Proof. intros [A1 A2 A3 A4] [B1 B2 B3 B4]. split; [congruence..|]. intros p x. by rewrite B4, A4. Qed.

Lemma frame_lsdb_ok d d' m nbs c : frame d d' -> lsdb_ok d m nbs c -> lsdb_ok d' m nbs c.
Proof.
  intros Fr [L1 L2 L3 [G1 G2 G3 G4 G5]]. pose proof (fun p => frame_some d d' p Fr) as Es. destruct Fr as [E1 E2 E3 E4].
  assert (Et : forall p t, tcs d' !! p = Some t -> exists t0, tcs d !! p = Some t0 /\ edge_tree t0 = edge_tree t).
  { intros p t Hp. pose proof (E4 p (tc_spf t)) as E. rewrite Hp in E. destruct (tcs d !! p) as [t0|]; [|done]. exists t0. split; [done|].
    apply (f_equal (fmap edge_tree)) in E. simpl in E. congruence. }
  assert (Eg : forall u v k, good_edge d' u v k -> good_edge d u v k).
  { intros u v k (t & ek & e & inv & i & (t0 & Ht & Etr)%Et & Hek & He & Hi & Hii & Hv). exists t0, ek, e, inv, i. rewrite Etr, <- E2. done. }
  assert (Ef : forall p, edge_target d' p = edge_target d p) by (intros p; unfold edge_target; by rewrite E2).
  assert (El : forall p, first_link d' nbs p = first_link d nbs p).
  { clear -Ef. intros p. unfold first_link. generalize (@None loc). induction nbs as [|n l IH]; intros acc; [done|]. simpl. rewrite Ef. by apply IH. }
  split; [intros p; by rewrite E1, Es|congruence|intros n Hn; setoid_rewrite Es; rewrite Ef; by apply L3|]. split.
  - by apply Es.
  - intros u t ek (t0 & Ht & Etr)%Et Hek. rewrite <- Etr in Hek. rewrite E2. setoid_rewrite Es. by apply (G2 u t0).
  - intros u v k H%Eg. by apply (G3 u v).
  - destruct G4 as [? G4]. split; [done|]. replace (size (tcs d')) with (size (tcs d)); [done|]. rewrite <- !size_dom. f_equal. apply leibniz_equiv.
    intros p. by rewrite !elem_of_dom, Es.
  - by rewrite El.
Qed.

(** The state before the nodes are visited. *)
Lemma visited_start s0 : rib_ok (c_rib s0) -> fib_sync (c_rib s0) -> visited base fib_view s0 [] s0.
Proof. intros H1 H2. split; try done; [|eauto]. intros q r Hq. exists r. split; [done|]. unfold after, path_hop. by destruct (rtp_tc r). Qed.

Lemma change_myself_same s t : tc_myself (c_db s) = Some me -> tcs (c_db s) !! me = Some t -> ipcmp ip_version (tc_addr t) router_id = 0 ->
  on_nodes (olsr_change_myself_tc ip_version lq_nat_thresh router_id) s = Some (s, tt).
Proof.
  intros Hm Ht E. apply on_nodes_get. unfold olsr_change_myself_tc. erewrite bind_run by done. fold (c_db s). rewrite Hm.
  assert (R : on_topo (tc_rd me) (c_nodes s) = Some (c_nodes s, t)).
  { apply on_topo_get. unfold tc_rd. change (tcs (tdb (nd_topo (c_nodes s)))) with (tcs (c_db s)). by rewrite Ht. }
  erewrite bind_run by (by erewrite bind_run by exact R). by rewrite E.
Qed.

(** Everything up to the end of the shortest paths. *)
Lemma spf_part_run s s2 fuel : calc_ok s -> (size (tcs (c_db s)) < fuel)%nat ->
  c_db s2 = c_db s -> c_nbh s2 = c_nbh s -> now (get_timers s2) = now (get_timers s) -> c_cand s2 = [] -> c_path s2 = [] ->
  exists st, spf_result (c_db s) me (first_link (c_db s) nb) st /\ frame (c_db s) (db st) /\
    (on_spf spf_init_vertices;;
     on_nodes (olsr_change_myself_tc ip_version lq_nat_thresh router_id);;
     me ← se_get (fun s => tc_myself (c_db s));
     match me with
     | None => on_nodes (on_rib update_and_export)
     | Some me =>
       on_spf (spf_add_myself me);;
       L ← se_get (fun s => nbr_tree (t_nbh (nd_topo (c_nodes s))));
       set_next_hops L;;
       on_spf (olsr_spf_run_full fuel);;
       L ← se_get c_path;
       refresh_nodes L;;
       on_nodes (on_rib update_and_export)
     end) s2 = (refresh_nodes (path_list st);; on_nodes (on_rib update_and_export)) (put_spf st s2).
Proof.
  intros Ok Hf Ed En Enow Ec Ep. pose proof (co_db _ Ok) as L.
  destruct (spf_init_run (c_db s) me nb maxc (spf_of s2) L) as (s3 & R1 & F1); [done..|].
  destruct (spf_myself_run (c_db s) me nb maxc s3 L F1) as (s4 & R2 & E4 & Fr4).
  destruct (next_hops_run (c_db s) nb s4 (l_nbrs _ _ _ _ L) Fr4) as (s5 & R3 & _).
  rewrite E4 in R3. destruct (spf_rest_run (c_db s) me nb maxc s3 s5 fuel L F1 R3 Hf) as (st & R4 & Hres & Fr). exists st. split_and!; [done..|].
  rewrite <- E4 in R3. pose proof (proj1 F1) as Fr3. pose proof (fr_me _ _ Fr3) as Hme. rewrite (l_me _ _ _ _ L) in Hme.
  assert (exists t, tcs (db s3) !! me = Some t /\ ipcmp ip_version (tc_addr t) router_id = 0) as (t & Ht & Ea).
  { destruct (g_root _ _ _ _ (l_graph _ _ _ _ L)) as [t0 Ht0]. pose proof (fr_tcs _ _ Fr3 me (tc_spf t0)) as E. rewrite Ht0 in E.
    destruct (tcs (db s3) !! me) as [t|]; [|done]. exists t. split; [done|]. apply (f_equal (fmap tc_addr)) in E. simpl in E. injection E as ->.
    by apply (co_addr _ Ok). }
  erewrite bind_run by (by apply on_spf_run). erewrite bind_run by (by apply (change_myself_same (put_spf s3 s2) t)).
  erewrite bind_run by done. change (tc_myself (c_db (put_spf s3 s2))) with (tc_myself (db s3)). rewrite Hme.
  erewrite bind_run by (apply on_spf_run; rewrite spf_of_put; exact R2). rewrite put_spf_put. erewrite bind_run by done.
  erewrite bind_run; cycle 1.
  { apply (set_next_hops_run s2 (now (get_timers s))) with (nb := nb); [done|by rewrite En; apply Ok| |exact R3].
    change (nbr_tree (t_nbh (nd_topo (c_nodes (put_spf s4 s2))))) with (nbr_tree (c_nbh s2)). rewrite En. apply Ok. }
  erewrite bind_run by (apply on_spf_run; rewrite spf_of_put; exact R4). rewrite put_spf_put. by erewrite bind_run by done.
Qed.

(** The nodes that are reached have live links. *)
Lemma reached_live s st s2 : calc_ok s -> spf_result (c_db s) me (first_link (c_db s) nb) st -> frame (c_db s) (db st) ->
  c_nbh s2 = c_nbh s -> forall u, u ∈ path_list st -> exists t0, tcs (db st) !! u = Some t0 /\ hop_live base (put_spf st s2) t0.
Proof.
  intros Ok Hres Fr En u Hu. destruct (tcs (db st) !! u) as [t|] eqn:Ht.
  - exists t. split; [done|]. destruct (res_reached _ _ _ _ Hres u (tc_spf t)) as (Hc & (_ & n & c & Hr) & _); [unfold sp; by rewrite Ht|done|].
    split; [lia|]. intros lp Hlp. destruct (route_link _ _ _ _ _ _ _ Hr lp Hlp) as (p & Hp). apply first_link_in in Hp as (e & He).
    destruct (sym_nbrs_links _ _ _ (co_links _ Ok) nb e lp (co_nbrs _ Ok) He) as [Hin [l Hl]].
    exists l. change (links (c_nbh (put_spf st s2))) with (links (c_nbh s2)). rewrite En. split; [done|]. by apply (co_base _ Ok lp).
  - destruct (res_dom _ _ _ _ Hres u Hu) as [x Hx]. unfold sp in Hx. by rewrite Ht in Hx.
Qed.

Lemma version_new v : is_u 32 v -> u32 (v + 1) <> v.
Proof. unfold is_u, wrapu. intros H E. destruct (decide (v = 2 ^ 32 - 1)) as [->|]; [done|]. rewrite Z.mod_small in E; lia. Qed.

Lemma walked_current r0 r : walking ip_version lq_nat_thresh fibm_correct base fib_view r0 [] r -> paths_current r.
Proof.
  intros W q x Hq [p Hp]. destruct (ro_back _ _ _ (w_ok _ _ _ _ _ _ _ _ W) q x p Hq Hp) as (Hin & y & Hy & Hqy).
  destruct (w_done _ _ _ _ _ _ _ _ W p Hin ltac:(by intros ?%elem_of_nil)) as (x0 & x' & b & r' & _ & H2 & _ & H4 & _).
  rewrite Hy in H2. injection H2 as <-. rewrite H4 in Hqy. apply in_cur in Hqy as [_ Ho].
  pose proof (w_paths _ _ _ _ _ _ _ _ W q) as E. rewrite Hq in E. destruct (paths r0 !! q) as [z|] eqn:Ez; [|done].
  apply (f_equal (fmap rtp_version)) in E. simpl in E. injection E as E. rewrite (w_version _ _ _ _ _ _ _ _ W), E.
  destruct (decide (rtp_version z = routingtree_version r0)); [done|]. exfalso. apply Ho. by exists z.
Qed.

Definition same_routes (s0 s1 : calc) (D D' : list loc) : Prop := (forall u, u ∈ D <-> u ∈ D') /\
  tcs (c_db s0) = tcs (c_db s1) /\ links (c_nbh s0) = links (c_nbh s1) /\ current_inetgw (c_rib s0) = current_inetgw (c_rib s1).

Lemma candidate_ext s0 s1 D D' d u q k x l : same_routes s0 s1 D D' -> candidate s0 D d u q k x l <-> candidate s1 D' d u q k x l.
Proof.
  intros (E & Et & El & _). split; intros [H1 H2 H3 H4 H5]; split; try done; first [by apply E|congruence|by rewrite Et in *|by rewrite El in *].
Qed.

Lemma kernel_route_ext s0 s1 D D' k d : same_routes s0 s1 D D' -> kernel_route fib_view s0 D k d -> kernel_route fib_view s1 D' k d.
Proof.
  intros E. unfold kernel_route. rewrite (proj2 (proj2 (proj2 E))). intros [[Hn Hk]|(u & q & kk & x & l & g & gw & Hc & H)]; [left|right].
  - split; [|done]. intros u q kk x l Hc. by eapply Hn, (candidate_ext _ _ _ _ _ _ _ _ _ _ E).
  - exists u, q, kk, x, l, g, gw. split; [by apply (candidate_ext _ _ _ _ _ _ _ _ _ _ E)|]. split_and!; try apply H.
    intros u' q' k' x' l' Hc'. apply (proj2 (proj2 (proj2 H)) u' q' k' x' l'). by apply (candidate_ext _ _ _ _ _ _ _ _ _ _ E).
Qed.

(** From the shortest paths to the kernel. *)
Lemma refresh_export_run s s2 st : calc_ok s -> fib_laws ip_version fib_view ->
  spf_result (c_db s) me (first_link (c_db s) nb) st -> frame (c_db s) (db st) -> c_nbh s2 = c_nbh s -> rib_ok (c_rib s2) -> fib_sync (c_rib s2) ->
  paths (c_rib s2) = paths (c_rib s) -> routingtree (c_rib s2) = routingtree (c_rib s) -> chg_kernel_list (c_rib s2) = [] ->
  routingtree_version (c_rib s2) = u32 (routingtree_version (c_rib s) + 1) ->
  exists s', (refresh_nodes (path_list st);; on_nodes (on_rib update_and_export)) (put_spf st s2) = Some (s', tt) /\
    (forall d, kernel_route fib_view (put_spf st s2) (path_list st) (kern (c_rib s')) d) /\
    rib_ok (c_rib s') /\ fib_sync (c_rib s') /\ chg_kernel_list (c_rib s') = [] /\ paths_current (c_rib s') /\
    frame (db st) (c_db s') /\ with_lsdb (db st) (c_nbh s') = with_lsdb (db st) (c_nbh s).
Proof.
  intros Ok FL Hres Fr En HR HS EP ET EC EV. set (s0 := put_spf st s2).
  assert (PO : prefix_ok (c_db s0) (paths (c_rib s0))).
  { change (prefix_ok (db st) (paths (c_rib s2))). rewrite EP. eapply prefix_ok_frame; [exact Fr|apply Ok]. }
  assert (N0 : NoDup (path_list st ++ [])) by (rewrite app_nil_r; apply Hres).
  destruct (refresh_nodes_run base fib_view s0 (path_list st) [] s0) as (s1 & R1 & V); try done.
  - apply visited_start; [by apply rib_ok_put|done].
  - by apply (reached_live s).
  - change (paths (c_rib s0)) with (paths (c_rib s2)). rewrite EP. apply Ok.
  - intros i. pose proof (prefixes_bound s0 _ N0 PO) as Hb. pose proof (co_room _ Ok i).
    change (paths (c_rib s0)) with (paths (c_rib s2)) in *. change (routingtree (c_rib s0)) with (routingtree (c_rib s2)). rewrite EP, ET in *. lia.
  - assert (C1 : chg_kernel_list (c_rib s1) = []) by (destruct (v_frame _ _ _ _ _ V) as (_ & _ & -> & _); exact EC).
    destruct (update_routes_run ip_version lq_nat_thresh fibm_correct base fib_view (c_rib s1) FL (v_ok _ _ _ _ _ V) (v_sync _ _ _ _ _ V) C1) as (r & R2 & W & C2).
    exists (with_crib r s1). split; [erewrite bind_run by exact R1; by apply on_crib_run|]. split_and!.
    + intros d. apply (kernel_route_ext s0 _ (reverse (path_list st) ++ [])); [|eapply (visited_routes base fib_view s0 PO)].
      * split; [|done]. intros u. by rewrite app_nil_r, elem_of_reverse.
      * intros q x Hq Hrt. change (paths (c_rib s0)) with (paths (c_rib s2)) in Hq. rewrite EP in Hq. split; [|by apply (co_len _ Ok q)].
        rewrite (co_current _ Ok q x Hq Hrt). change (routingtree_version (c_rib s0)) with (routingtree_version (c_rib s2)). rewrite EV.
        apply not_eq_sym, version_new, Ok.
      * exact V.
      * apply (walked_routes ip_version lq_nat_thresh fibm_correct base fib_view (c_rib s1) r d); [apply V|exact W|exact C2].
    + exact (w_ok _ _ _ _ _ _ _ _ W).
    + exact (w_sync _ _ _ _ _ _ _ _ W).
    + exact C2.
    + exact (walked_current _ _ W).
    + assert (c_db (with_crib r s1) = c_db s1) as -> by (change (tdb (r_topo r) = c_db s1); by rewrite (w_topo _ _ _ _ _ _ _ _ W)).
      pose proof (v_rest _ _ _ _ _ V) as [= H1 H2 H3 _]. split; try done. intros p x.
      pose proof (f_equal (fmap (set_spf x)) (v_tcs _ _ _ _ _ V p)) as E. rewrite <- !option_fmap_compose in E. exact E.
    + assert (c_nbh (with_crib r s1) = c_nbh s1) as -> by (change (t_nbh (r_topo r) = c_nbh s1); by rewrite (w_topo _ _ _ _ _ _ _ _ W)).
      pose proof (f_equal snd (v_rest _ _ _ _ _ V)) as E. unfold rest_of in E. simpl snd in E. change (c_db s0) with (db st) in E. rewrite E.
      change (c_nbh s0) with (with_lsdb (db st) (c_nbh s2)). by rewrite En.
Qed.

(** C2: A calculation that is not held back terminates without fault and is right from end to end, if the tables
    are consistent ([calc_ok]), the main address of this router has not changed, path costs fit into 32 bits and the kernel accepts
    every request ([fib_laws]). The shortest paths are those of [Spf]; for every prefix the kernel has a route exactly if a node of
    the path list that has a next hop announces the prefix, and the route goes over the next hop of the announcing node with the least
    cost, then the fewest hops, then the least origin. The routing table and the kernel agree afterwards, no
    change is left in the queue, and the paths in use are those of this calculation. Of the database only the results of the
    calculation have changed, it meets its requirements again, and the neighbour tables are as before. *)
Theorem olsr_calculate_correct s fuel force : calc_ok s -> fib_laws ip_version fib_view -> force = true \/ spf_backoff_timer s = None ->
  (size (tcs (c_db s)) < fuel)%nat ->
  exists st s', olsr_calculate_routing_table fuel force s = Some (s', tt) /\
    spf_result (c_db s) me (first_link (c_db s) nb) st /\ frame (c_db s) (db st) /\
    (forall d, kernel_route fib_view (put_spf st s) (path_list st) (kern (c_rib s')) d) /\
    rib_ok (c_rib s') /\ fib_sync (c_rib s') /\ chg_kernel_list (c_rib s') = [] /\ paths_current (c_rib s') /\
    lsdb_ok (c_db s') me nb maxc /\ frame (c_db s) (c_db s') /\ with_lsdb (c_db s) (c_nbh s') = c_nbh s.
Proof.
  intros Ok FL Hf Hfuel. unfold olsr_calculate_routing_table. erewrite bind_run by done.
  assert (negb force && bool_decide (is_Some (spf_backoff_timer s)) = false) as ->.
  { destruct Hf as [-> | ->]; [done|]. by rewrite bool_decide_eq_false_2, andb_false_r by (by intros []). }
  erewrite bind_run by done.
  destruct (timer_set_run rnd (get_timers s) (spf_backoff_timer s) OLSR_SPF_BACKOFF_TIME OLSR_SPF_BACKOFF_JITTER 1 (spf_backoff_timer_info s))
    as (T & h & RT & _ & SE & _); [apply Ok..|done|apply Ok|].
  erewrite bind_run by (unfold on_timers; by rewrite RT). do 3 erewrite bind_run by done.
  set (s2 := with_nodes _ _).
  destruct (spf_part_run s s2 fuel Ok Hfuel) as (st & Hres & Fr & E); [done|done|apply SE|done|done|].
  destruct (refresh_export_run s s2 st Ok FL Hres Fr) as (s' & R & H); try done; try apply Ok.
  { destruct (co_rib _ Ok). by split. }
  exists st, s'. split; [rewrite E; exact R|]. split; [done|]. split; [done|]. destruct H as (H1 & H2 & H3 & H4 & H5 & H6 & H7).
  pose proof (frame_trans _ _ _ Fr H6) as Fr'. split_and!; try done.
  - intros d. eapply kernel_route_ext; [|apply (H1 d)]. done.
  - by eapply frame_lsdb_ok, Ok.
  - apply (f_equal (with_lsdb (c_db s))) in H7. transitivity (with_lsdb (c_db s) (c_nbh s)); [exact H7|]. change (c_db s) with (nh_lsdb (c_nbh s)). by destruct (c_nbh s).
Qed.

(** While the back-off timer runs, a calculation that is not forced does nothing. *)
Lemma calculate_backoff s fuel p : spf_backoff_timer s = Some p -> olsr_calculate_routing_table fuel false s = Some (s, tt).
Proof. intros H. unfold olsr_calculate_routing_table. erewrite bind_run by done. by rewrite H. Qed.
End calculate.
End route_calc.

(** ** A small network: the neighbour 10.0.0.2 announces 10.0.0.9. *)
Definition cdemo_tc (b : Z) (es : list (loc * ip_addr)) (ps : list (loc * olsr_ip_prefix)) : tc_entry :=
  mkTc (demo_addr b) (mkSpf 7 None 0 false Unlinked) es ps None None false 0 0 0 0 0.
Definition cdemo_db : lsdb := mkDb [(1%positive, demo_addr 1); (2%positive, demo_addr 2)]
  {[ 1%positive := cdemo_tc 1 [(11%positive, demo_addr 2)] []; 2%positive := cdemo_tc 2 [(12%positive, demo_addr 1)] [(1%positive, demo_pfx 9 1)] ]}
  {[ 11%positive := demo_edge 2 12 1 10 false; 12%positive := demo_edge 1 11 2 20 false ]} (Some 1%positive).
Definition cdemo_nbh : neighborhood := mkNbh [(31%positive, demo_addr 2)]
  {[ 31%positive := mkNbr (demo_addr 2) (Some 11%positive) 3 true false false false 0 1 [] ]} [] ∅ ∅ [21%positive]
  {[ 21%positive := mkLink (demo_addr 1) (demo_addr 2) 1 None (Some 3%positive) 0 0 31 SYM_LINK false false 0 0 0 None 10 ]} [] ∅ cdemo_db.
Definition cdemo : calc (LQ := lq_etxff_handler) (KE := demo_export AF_INET) :=
  mkCalc (mkNodes (KE := demo_export AF_INET) (mkRib (KE := demo_export AF_INET)
    (mkTopo cdemo_nbh ∅ {[ 1%positive := mkRtp (demo_pfx 9 1) (demo_pfx 2 1) None (Some 2%positive) [] None 0 0 0 ]}
      (mkNet [] ∅ 9 [] []) tdemo_timers 1 2 false false 0)
    ∅ [] 7 None [] {[ 1%positive := mkLock 1 false ]} []) ∅ ∅ ∅ 1 1) None 1 [] [] 0.
Definition cdemo_base (i : loc) : Z := if decide (i = 1%positive) then 1 else 0.

Lemma cdemo_edges u v c : good_edge cdemo_db u v c -> c <= 20 /\ (u = 1%positive -> is_Some (first_link cdemo_db [(11%positive, Some 21%positive)] v)).
Proof.
  intros (t & ek & e & inv & i & Hu & Hek & He & Hi & Hinv & -> & -> & Hc). map_cases Hu; list_cases Hek; simpl in He;
    map_cases He; inversion Hi; clear Hi; subst; map_cases Hinv; simpl; (split; [lia|]); intros; try done; by eexists.
Qed.

Lemma cdemo_db_ok : lsdb_ok cdemo_db 1 [(11%positive, Some 21%positive)] 20.
Proof.
  split; [| |intros n Hn; list_cases Hn; eexists; (split; [by vm_compute|by eexists])|split].
  - intros p. rewrite <- elem_of_dom, <- (elem_of_list_to_set (C := gset loc)). by apply set_eq.
  - done.
  - by eexists.
  - intros u t ek Hu Hek. map_cases Hu; list_cases Hek; do 3 eexists; do 3 (split; [reflexivity|]); (split; [by eexists|done]).
  - intros u v c H. by apply cdemo_edges in H as [H _].
  - done.
  - done.
Qed.

Lemma cdemo_rib_ok : rib_ok (KE := demo_export AF_INET) AF_INET cdemo_base (c_rib cdemo).
Proof.
  split.
  - by split; [constructor|constructor].
  - intros p k Hp. by apply elem_of_nil in Hp.
  - intros p x q Hp. by apply elem_of_nil in Hp.
  - intros p x q k r Hp. by apply elem_of_nil in Hp.
  - intros q r p Hq. by map_cases Hq.
  - done.
  - intros i. unfold cdemo_base. assert (held (c_rib cdemo) i = 0) as -> by done.
    case_decide as Hi; [subst i; split_and!; [done..|intros _; by eexists]|split_and!; [done..|lia]].
  - intros i. unfold cdemo_base. by case_decide.
Qed.

Abbreviation cdemo_ok := (calc_ok (KE := demo_export AF_INET) AF_INET (demo_addr 1) cdemo_base (demo_view AF_INET) 1 [(11%positive, Some 21%positive)] 20 cdemo).
Lemma cdemo_calc_ok : cdemo_ok.
Proof.
  split.
  - split; vm_compute; try done; [intros k p H; by apply elem_of_nil in H|intros k; constructor|intros p H; by apply elem_of_nil in H|constructor].
  - by eexists.
  - done.
  - apply cdemo_rib_ok.
  - done.
  - done.
  - apply cdemo_db_ok.
  - intros t Ht. by map_cases Ht.
  - intros p Hp. list_cases Hp. by eexists.
  - by vm_compute.
  - intros p l _ Hl. by map_cases Hl.
  - split.
    + intros u t Ht. map_cases Ht; simpl; repeat constructor; set_solver.
    + intros u t q k Ht. split.
      * intros Hk. map_cases Ht; list_cases Hk; simplify_eq. eexists. by split_and!.
      * intros (r & Hr & Hu & Hd). map_cases Hr. injection Hu as <-. map_cases Ht. left.
    + intros q r u Hr Hu. map_cases Hr. injection Hu as <-. by eexists.
    + intros q r Hr. by map_cases Hr.
  - intros q q' r r' Hr Hr' Hn. map_cases Hr. by map_cases Hr'.
  - intros q r Hr [? Hx]. by map_cases Hr.
  - intros q r Hr [? Hx]. by map_cases Hr.
  - done.
  - intros i. unfold cdemo_base. by case_decide.
Qed.

(** The kernel gets a route to 10.0.0.9 over the link to 10.0.0.2. *)
Lemma olsr_calculate_correct_witness : exists s',
  olsr_calculate_routing_table (KE := demo_export AF_INET) (fun _ => 0) AF_INET 1000 false (demo_addr 1) 3 true cdemo = Some (s', tt) /\
  demo_view AF_INET (kern (c_rib s')) (demo_pfx 9 0) = Some (demo_addr 2, 1%positive) /\ rib_ok AF_INET cdemo_base (c_rib s').
Proof.
  destruct (olsr_calculate_correct (KE := demo_export AF_INET) (fun _ => 0) AF_INET 1000 false (demo_addr 1) cdemo_base (demo_view AF_INET) 1
    [(11%positive, Some 21%positive)] 20 cdemo 3 true cdemo_calc_ok (demo_laws AF_INET) (or_introl eq_refl))
    as (st & s' & E & _ & _ & _ & R & _); [by apply (bool_decide_unpack _)|].
  exists s'. split; [exact E|]. split; [rewrite (se_state_eq _ _ _ _ E); by vm_compute|exact R].
Defined.
