(* ===== verification/Mpr.v ===== *)
(** * Selection of multipoint relays ([lq_mpr.c])

    Every 2-hop neighbour is covered by the [mpr_coverage] neighbours with the
    cheapest paths to it. *)
From S2P Require Import Prelude AvlSpec Trees Types Comparators Clock Lsdb Neighborhood LinkSet.

Section mpr.
Context (ip_version now mpr_coverage tc_redundancy : Z).

(** The first loop: the entries are cleared, then the symmetric neighbours whose
    willingness is not [WILL_ALWAYS] become relays. *)
Definition mpr_init : NM unit :=
  N ← se_get nbr_tree;
  foldr (fun e m =>
    (wr_nbr e.1 (set_is_mpr false);;
     n ← rd_nbr e.1;
     if is_sym n && negb (willingness n =? WILL_ALWAYS) then wr_nbr e.1 (set_is_mpr true) else mret tt);; m) (mret tt) N.

(** The cost of the direct link to the address of a 2-hop neighbour; [None] is
    the [continue] of a symmetric neighbour that has no symmetric link. *)
Definition best_direct (addr : ip_addr) : NM (option Z) :=
  neigh ← (fun w => (fun r => (w, r)) <$> olsr_lookup_nbr_entry ip_version addr false w);
  match neigh with
  | None => mret (Some ROUTE_COST_BROKEN)
  | Some p =>
    n ← rd_nbr p;
    if is_sym n then
      lnk ← get_best_link_to_neighbor now (Some p);
      match lnk with
      | None => mret None
      | Some lp => l ← rd_link lp; mret (Some (linkcost l))
      end
    else mret (Some ROUTE_COST_BROKEN)
  end.

Fixpoint found_better_path (best_1hop : Z) (T : list (loc * ip_addr)) : NM bool :=
  match T with
  | [] => mret false
  | e :: T => c ← rd_con e.1; if path_linkcost c <? best_1hop then mret true else found_better_path best_1hop T
  end.

Definition clear_skip (T : list (loc * ip_addr)) : NM unit :=
  foldr (fun e m => (c ← rd_con e.1; wr_nbr (con_nbr c) (set_skip false));; m) (mret tt) T.

(** The neighbour with the best path that is not selected yet. *)
Fixpoint best_unselected (T : list (loc * ip_addr)) (neigh : option loc) (best : Z) : NM (option loc) :=
  match T with
  | [] => mret neigh
  | e :: T =>
    c ← rd_con e.1;
    n ← rd_nbr (con_nbr c);
    if is_sym n && negb (skip n) && (second_hop_linkcost c <? LINK_COST_BROKEN) && (path_linkcost c <? best)
    then best_unselected T (Some (con_nbr c)) (path_linkcost c)
    else best_unselected T neigh best
  end.

Fixpoint select_mprs (k : nat) (best_1hop : Z) (T : list (loc * ip_addr)) : NM unit :=
  match k with
  | O => mret tt
  | S k =>
    neigh ← best_unselected T None best_1hop;
    match neigh with
    | None => mret tt
    | Some p =>
      wr_nbr p (set_is_mpr true);;
      wr_nbr p (set_skip true);;
      select_mprs k best_1hop T
    end
  end.

(** One round of the loop over the 2-hop neighbours. *)
Definition cover_nbr2 (p : loc) : NM unit :=
  n2 ← rd_nbr2 p;
  best ← best_direct (nbr2_addr n2);
  match best with
  | None => mret tt
  | Some best_1hop =>
    found ← found_better_path best_1hop (nbr2_con_tree n2);
    if negb found then mret tt
    else
      clear_skip (nbr2_con_tree n2);;
      select_mprs (Z.to_nat mpr_coverage) best_1hop (nbr2_con_tree n2)
  end.

Definition olsr_calculate_lq_mpr2 : NM unit :=
  mpr_init;;
  T ← se_get nbr2_tree;
  foldr (fun e m => cover_nbr2 e.1;; m) (mret tt) T.

(** The loop that looks for a change, which it leaves at the first one. *)
Fixpoint mpr_changed (T : list (loc * ip_addr)) : NM bool :=
  match T with
  | [] => mret false
  | e :: T => n ← rd_nbr e.1; if negb (Bool.eqb (was_mpr n) (is_mpr n)) then mret true else mpr_changed T
  end.

(** Returns whether [signal_link_changes(true)] was called. *)
Definition olsr_calculate_lq_mpr : NM bool :=
  N ← se_get nbr_tree;
  foldr (fun e m => (n ← rd_nbr e.1; wr_nbr e.1 (set_was_mpr (is_mpr n)));; m) (mret tt) N;;
  olsr_calculate_lq_mpr2;;
  mpr_changes ← mpr_changed N;
  if negb mpr_changes then mret false
  else
    L ← se_get link_entry_head;
    foldr (fun p m => (l ← rd_link p; n ← rd_nbr (link_neighbor l); wr_link p (set_link_is_mpr (is_mpr n)));; m) (mret tt) L;;
    mret (tc_redundancy >? 0).

(** ** The selection on lists

    [E] has the neighbours through which a 2-hop neighbour can be reached, with
    the costs of the paths, and [S] those that are selected. *)
Fixpoint pick (E : list (loc * Z)) (S : list loc) (neigh : option loc) (best : Z) : option loc :=
  match E with
  | [] => neigh
  | (p, c) :: E => if bool_decide (p ∉ S) && (c <? best) then pick E S (Some p) c else pick E S neigh best
  end.

Fixpoint select (k : nat) (best_1hop : Z) (E : list (loc * Z)) (S : list loc) : list loc :=
  match k with
  | O => S
  | Datatypes.S k => match pick E S None best_1hop with None => S | Some p => select k best_1hop E (p :: S) end
  end.

Lemma pick_spec E S : forall neigh best,
  (pick E S neigh best = neigh /\ forall q d, (q, d) ∈ E -> q ∉ S -> best <= d) \/
  (exists p c, pick E S neigh best = Some p /\ ((p, c) ∈ E) /\ (p ∉ S) /\ c < best /\ forall q d, (q, d) ∈ E -> q ∉ S -> c <= d).
Proof.
  induction E as [|[p c] E IH]; intros neigh best; simpl.
  { left. split; [done|]. intros q d []%elem_of_nil. }
  case_bool_decide as Hp; simpl; [destruct (Z.ltb_spec c best) as [Hc|Hc]|].
  - right. destruct (IH (Some p) c) as [[-> H]|(p' & c' & -> & H1 & H2 & H3 & H4)].
    + exists p, c. split_and!; [done|left|done|done|]. intros q d [[= -> ->]|Hq]%elem_of_cons Hn; [done|by eapply H].
    + exists p', c'. split_and!; [done|by right|done|lia|]. intros q d [[= -> ->]|Hq]%elem_of_cons Hn; [lia|by eapply H4].
  - destruct (IH neigh best) as [[-> H]|(p' & c' & -> & H1 & H2 & H3 & H4)].
    + left. split; [done|]. intros q d [[= -> ->]|Hq]%elem_of_cons Hn; [done|by eapply H].
    + right. exists p', c'. split_and!; [done|by right|done|done|]. intros q d [[= -> ->]|Hq]%elem_of_cons Hn; [lia|by eapply H4].
  - destruct (IH neigh best) as [[-> H]|(p' & c' & -> & H1 & H2 & H3 & H4)].
    + left. split; [done|]. intros q d [[= -> ->]|Hq]%elem_of_cons Hn; [done|by eapply H].
    + right. exists p', c'. split_and!; [done|by right|done|done|]. intros q d [[= -> ->]|Hq]%elem_of_cons Hn; [done|by eapply H4].
Qed.

(** [S] are [n] of the cheapest of [E], or all if there are not as many. *)
Record cheapest (n : nat) (E : list (loc * Z)) (S : list loc) : Prop := {
  ch_nodup : NoDup S;
  ch_in : forall p, p ∈ S -> p ∈ E.*1;
  ch_count : length S = Nat.min n (length E);
  ch_best : forall p c q d, (p, c) ∈ E -> p ∈ S -> (q, d) ∈ E -> q ∉ S -> c <= d
}.

Lemma all_selected (E : list (loc * Z)) (S : list loc) : NoDup E.*1 -> NoDup S -> (forall p, p ∈ S -> p ∈ E.*1) -> (forall q, q ∈ E.*1 -> q ∈ S) -> length S = length E.
Proof.
  intros NE NS H1 H2. rewrite <- (length_fmap (fst : loc * Z -> loc) E). apply Permutation_length, NoDup_Permutation; [done..|]. split; auto.
Qed.

Lemma select_spec b E : NoDup E.*1 -> (forall p c, (p, c) ∈ E -> c < b) -> forall k n S,
  cheapest n E S -> cheapest (k + n) E (select k b E S).
Proof.
  intros NE Hb. induction k as [|k IH]; intros n S C; [done|]. cbn [select].
  destruct (pick_spec E S None b) as [[-> Hall]|(p & c & -> & Hp & HpS & _ & Hmin)].
  - destruct C as [C1 C2 C3 C4].
    assert (Hin : forall q, q ∈ E.*1 -> q ∈ S).
    { intros q ([q' d] & -> & Hq)%list_elem_of_fmap. apply dec_stable. intros Hn. pose proof (Hall q' d Hq Hn). pose proof (Hb q' d Hq). lia. }
    split; [done|done| |done]. pose proof (all_selected E S NE C1 C2 Hin). lia.
  - destruct C as [C1 C2 C3 C4]. replace (Datatypes.S k + n)%nat with (k + Datatypes.S n)%nat by lia. apply IH. split.
    + apply NoDup_cons. done.
    + intros q [->|Hq]%elem_of_cons; [apply list_elem_of_fmap; by exists (p, c)|by apply C2].
    + assert (Hlt : (length (p :: S) <= length E)%nat).
      { rewrite <- (length_fmap (fst : loc * Z -> loc) E). apply submseteq_length, NoDup_submseteq; [by apply NoDup_cons|].
        intros q [->|Hq]%elem_of_cons; [apply list_elem_of_fmap; by exists (p, c)|by apply C2]. }
      cbn [length] in *. lia.
    + intros x cx q d Hx [->|HxS]%elem_of_cons Hq [Hqp HqS]%not_elem_of_cons; [|by eapply C4].
      assert (cx = c) as -> by (by eapply nodup_fst_inj). by eapply Hmin.
Qed.
Lemma select_mono b E k : forall S p, p ∈ S -> p ∈ select k b E S.
Proof. induction k as [|k IH]; intros S p Hp; [done|]. cbn [select]. destruct (pick _ _ _ _); [apply IH; by right|done]. Qed.

(** ** Runs *)

(** The states agree except for the neighbours, and [f] makes those agree. *)
Record same_by (f : nbr_entry -> nbr_entry) (w w' : neighborhood) : Prop := {
  sf_rest : w' = with_nbrs (nbrs w') w;
  sf_nbrs : forall p, f <$> nbrs w' !! p = f <$> nbrs w !! p
}.
(** Everything but the flags [is_mpr] and [skip] is as before; everything but
    the three flags. *)
Definition no_flags (n : nbr_entry) : nbr_entry := set_skip false (set_is_mpr false n).
Definition core (n : nbr_entry) : nbr_entry := set_was_mpr false (no_flags n).
Abbreviation same_but_flags := (same_by no_flags).
Abbreviation same_core := (same_by core).

Definition is_relay (w : neighborhood) (p : loc) : Prop := exists n, nbrs w !! p = Some n /\ is_mpr n = true.

Lemma sf_refl f w : same_by f w w.
Proof. split; [by destruct w|done]. Qed.
Lemma sf_trans f w1 w2 w3 : same_by f w1 w2 -> same_by f w2 w3 -> same_by f w1 w3.
Proof. intros [E1 H1] [E2 H2]. split; [rewrite E2, E1; done|]. intros p. by rewrite H2. Qed.
Lemma sf_lookup f w w' p n : same_by f w w' -> nbrs w !! p = Some n ->
  exists n', nbrs w' !! p = Some n' /\ f n' = f n.
Proof.
  intros [_ H] Hp. specialize (H p). rewrite Hp in H. destruct (nbrs w' !! p) as [n'|]; [|done]. simpl in H. apply (inj Some) in H. by exists n'.
Qed.
Lemma sf_back f w w' p n' : same_by f w w' -> nbrs w' !! p = Some n' ->
  exists n, nbrs w !! p = Some n /\ f n' = f n.
Proof.
  intros [_ H] Hp. specialize (H p). rewrite Hp in H. destruct (nbrs w !! p) as [n|]; [|done]. simpl in H. apply (inj Some) in H. by exists n.
Qed.
Lemma flags_core w w' : same_but_flags w w' -> same_core w w'.
Proof.
  intros [E H]. split; [done|]. intros p. specialize (H p). apply (f_equal (fmap (set_was_mpr false))) in H.
  by rewrite <- !option_fmap_compose in H.
Qed.
Lemma core_sym n n' : core n' = core n -> is_sym n' = is_sym n.
Proof. by intros [=]. Qed.

Lemma rd_nbr_run w p n : nbrs w !! p = Some n -> rd_nbr p w = Some (w, n).
Proof. intros H. unfold rd_nbr. by rewrite H. Qed.
Lemma rd_con_run w p c : nbr_cons w !! p = Some c -> rd_con p w = Some (w, c).
Proof. intros H. unfold rd_con. by rewrite H. Qed.
Lemma wr_nbr_run w p n g : nbrs w !! p = Some n -> wr_nbr p g w = Some (with_nbrs (<[p := g n]> (nbrs w)) w, tt).
Proof. intros H. unfold wr_nbr. by rewrite H. Qed.

(** Writing a flag of an entry. *)
Lemma sf_write f w p n n' : nbrs w !! p = Some n -> f n' = f n -> same_by f w (with_nbrs (<[p := n']> (nbrs w)) w).
Proof.
  intros Hp E. split; [done|]. intros q. simpl. destruct (decide (p = q)) as [->|]; [|by rewrite lookup_insert_ne].
  rewrite lookup_insert_eq, Hp. simpl. by f_equal.
Qed.

(** The neighbours through which a 2-hop neighbour can be reached over a
    usable path that is cheaper than [c0]. *)
Definition via (w : neighborhood) (c0 : Z) (e : loc * ip_addr) : option (loc * Z) :=
  c ← nbr_cons w !! e.1; n ← nbrs w !! con_nbr c;
  if is_sym n && (second_hop_linkcost c <? LINK_COST_BROKEN) && (path_linkcost c <? c0) then Some (con_nbr c, path_linkcost c) else None.
Definition eligible (w : neighborhood) (c0 : Z) (T : list (loc * ip_addr)) : list (loc * Z) := omap (via w c0) T.

Lemma via_sf w w' c0 e : same_core w w' -> via w' c0 e = via w c0 e.
Proof.
  intros SF. unfold via. assert (nbr_cons w' = nbr_cons w) as -> by (by rewrite (sf_rest _ _ _ SF)).
  destruct (nbr_cons w !! e.1) as [c|]; [|done]. simpl. pose proof (sf_nbrs _ _ _ SF (con_nbr c)) as H.
  destruct (nbrs w' !! con_nbr c), (nbrs w !! con_nbr c); simpl in *; try done. apply (inj Some) in H. by rewrite (core_sym _ _ H).
Qed.
Lemma eligible_sf w w' c0 T : same_core w w' -> eligible w' c0 T = eligible w c0 T.
Proof. intros SF. apply list_omap_ext. induction T; constructor; [by apply via_sf|done]. Qed.
Lemma eligible_cons w c0 e T : eligible w c0 (e :: T) = match via w c0 e with Some x => x :: eligible w c0 T | None => eligible w c0 T end.
Proof. done. Qed.

(** The connectors of a 2-hop neighbour lead to different neighbours. *)
Record con_ok (w : neighborhood) (T : list (loc * ip_addr)) : Prop := {
  k_con : forall e, e ∈ T -> exists c n, nbr_cons w !! e.1 = Some c /\ nbrs w !! con_nbr c = Some n;
  k_distinct : NoDup (omap (fun e => con_nbr <$> nbr_cons w !! e.1) T)
}.

Lemma con_ok_sf w w' T : same_core w w' -> con_ok w T -> con_ok w' T.
Proof.
  intros SF [K1 K2]. assert (E : nbr_cons w' = nbr_cons w) by (by rewrite (sf_rest _ _ _ SF)). split; [|by rewrite E].
  intros e (c & n & Hc & Hn)%K1. destruct (sf_lookup _ _ _ _ _ SF Hn) as (n' & Hn' & _). exists c, n'. by rewrite E.
Qed.

Lemma eligible_distinct w c0 T : con_ok w T -> NoDup (eligible w c0 T).*1.
Proof.
  intros [_ K]. eapply sublist_NoDup; [exact K|]. clear K. induction T as [|e T IH]; [constructor|]. rewrite eligible_cons. simpl.
  unfold via. destruct (nbr_cons w !! e.1) as [c|]; simpl; [|done]. destruct (nbrs w !! con_nbr c); simpl; [|by constructor].
  destruct (_ && _); simpl; by constructor.
Qed.

Lemma eligible_cost w c0 T p c : (p, c) ∈ eligible w c0 T -> c < c0.
Proof.
  unfold eligible. intros (e & _ & H)%list_elem_of_omap. unfold via in H. destruct (nbr_cons w !! e.1) as [x|]; simpl in H; [|done].
  destruct (nbrs w !! con_nbr x); simpl in H; [|done]. destruct (_ && _) eqn:E; simplify_eq. apply andb_true_iff in E as [_ E]. lia.
Qed.

(** The flags [skip] of the neighbours are set exactly on [S]. *)
Definition skips (w : neighborhood) (T : list (loc * ip_addr)) (S : list loc) : Prop :=
  forall e c n, e ∈ T -> nbr_cons w !! e.1 = Some c -> nbrs w !! con_nbr c = Some n -> skip n = bool_decide (con_nbr c ∈ S).

Lemma best_unselected_run w c0 S T : con_ok w T -> skips w T S -> forall neigh best, best <= c0 ->
  best_unselected T neigh best w = Some (w, pick (eligible w c0 T) S neigh best).
Proof.
  intros [K _] Hs. induction T as [|e T IH]; intros neigh best Hb; [done|].
  destruct (K e ltac:(left)) as (c & n & Hc & Hn). cbn [best_unselected].
  erewrite bind_run by (by apply rd_con_run). erewrite bind_run by (by apply rd_nbr_run).
  rewrite (Hs e c n ltac:(left) Hc Hn). rewrite eligible_cons. unfold via. rewrite Hc. simpl. rewrite Hn. simpl.
  assert (IH' : forall neigh best, best <= c0 -> best_unselected T neigh best w = Some (w, pick (eligible w c0 T) S neigh best)).
  { apply IH; [intros; apply K; by right|intros ? ? ? ?; apply Hs; by right]. }
  destruct (is_sym n); simpl; [|by apply IH'].
  destruct (Z.ltb_spec (second_hop_linkcost c) LINK_COST_BROKEN); simpl; [|rewrite andb_false_r; by apply IH'].
  rewrite andb_true_r. destruct (Z.ltb_spec (path_linkcost c) c0) as [H1|H1]; simpl.
  - rewrite bool_decide_not. destruct (negb _ && _) eqn:E; [|by apply IH'].
    apply IH'. lia.
  - destruct (Z.ltb_spec (path_linkcost c) best); [lia|]. rewrite andb_false_r. by apply IH'.
Qed.

Lemma relay_write w p n n' q : nbrs w !! p = Some n -> is_relay (with_nbrs (<[p := n']> (nbrs w)) w) q <->
  (q = p /\ is_mpr n' = true) \/ (q <> p /\ is_relay w q).
Proof.
  intros Hp. unfold is_relay. simpl. destruct (decide (q = p)) as [->|Hn].
  - rewrite lookup_insert_eq. naive_solver.
  - rewrite lookup_insert_ne by done. naive_solver.
Qed.

(** Selecting the relays of one 2-hop neighbour. *)
Lemma select_mprs_run c0 T k : forall w S, con_ok w T -> skips w T S ->
  exists w', select_mprs k c0 T w = Some (w', tt) /\ same_but_flags w w' /\
    forall q, is_relay w' q <-> is_relay w q \/ (q ∈ select k c0 (eligible w c0 T) S /\ q ∉ S).
Proof.
  induction k as [|k IH]; intros w S K Hs.
  { exists w. split; [done|]. split; [apply sf_refl|]. simpl. naive_solver. }
  cbn [select_mprs select]. erewrite bind_run by (by apply best_unselected_run).
  destruct (pick_spec (eligible w c0 T) S None c0) as [[-> _]|(p & c & -> & Hp & HpS & _)].
  { exists w. split; [done|]. split; [apply sf_refl|]. naive_solver. }
  assert (exists e x n, e ∈ T /\ nbr_cons w !! e.1 = Some x /\ con_nbr x = p /\ nbrs w !! p = Some n) as (e & x & n & He & Hx & Ex & Hn).
  { apply list_elem_of_omap in Hp as (e & He & Hv). destruct (k_con _ _ K e He) as (x & n & Hx & Hn). exists e, x, n.
    unfold via in Hv. rewrite Hx in Hv. simpl in Hv. rewrite Hn in Hv. simpl in Hv. destruct (_ && _); simplify_eq. done. }
  erewrite bind_run by (by apply wr_nbr_run). erewrite bind_run by (apply wr_nbr_run, lookup_insert_eq). simpl.
  rewrite insert_insert_eq. set (n' := set_skip true (set_is_mpr true n)). set (w1 := with_nbrs (<[p := n']> (nbrs w)) w).
  change (exists w', select_mprs k c0 T w1 = Some (w', tt) /\ same_but_flags w w' /\ forall q, is_relay w' q <->
    is_relay w q \/ (q ∈ select k c0 (eligible w c0 T) (p :: S) /\ q ∉ S)).
  assert (SF : same_but_flags w w1) by (by apply (sf_write _ w p n)).
  destruct (IH w1 (p :: S)) as (w' & R & SF' & H').
  { by apply (con_ok_sf w _ _ (flags_core _ _ SF)). }
  { intros e' c' n1 He' Hc' Hn1. unfold w1 in Hn1, Hc'. simpl in Hn1, Hc'. destruct (decide (p = con_nbr c')) as [E|Hne].
    - rewrite <- E, lookup_insert_eq in Hn1. injection Hn1 as <-. simpl. symmetry. apply bool_decide_true. rewrite E. left.
    - rewrite lookup_insert_ne in Hn1 by done. rewrite (Hs e' c' n1 He' Hc' Hn1). apply bool_decide_ext. rewrite elem_of_cons. naive_solver. }
  exists w'. split; [done|]. split; [by eapply sf_trans|]. intros q. rewrite H', (eligible_sf w _ _ _ (flags_core _ _ SF)).
  unfold w1. rewrite (relay_write w p n) by done. simpl.
  assert (p ∈ select k c0 (eligible w c0 T) (p :: S)) by (apply select_mono; left).
  assert (is_relay w q -> q = p \/ q <> p) by (intros; destruct (decide (q = p)); tauto).
  rewrite not_elem_of_cons. destruct (decide (q = p)) as [->|]; tauto.
Qed.

Lemma clear_skip_run w T : con_ok w T ->
  exists w', clear_skip T w = Some (w', tt) /\ same_but_flags w w' /\ (forall q, is_relay w' q <-> is_relay w q) /\ skips w' T [] /\
    forall q n, nbrs w !! q = Some n -> skip n = false -> exists n', nbrs w' !! q = Some n' /\ skip n' = false.
Proof.
  intros [K _]. revert w K. induction T as [|e T IH]; intros w K.
  { exists w. split_and!; [done|apply sf_refl|done| |eauto]. intros ? ? ? []%elem_of_nil. }
  destruct (K e ltac:(left)) as (c & n & Hc & Hn). simpl.
  erewrite bind2_run by (by apply rd_con_run). erewrite bind_run by (by apply wr_nbr_run).
  set (w1 := with_nbrs _ _). assert (SF : same_but_flags w w1) by (by apply (sf_write _ w _ n)).
  destruct (IH w1) as (w' & R & SF' & H1 & H2 & H3).
  { intros e' He'. destruct (K e' ltac:(by right)) as (c' & n' & Hc' & Hn'). destruct (sf_lookup _ _ _ _ _ SF Hn') as (n1 & Hn1 & _). by exists c', n1. }
  exists w'. rewrite R. split; [done|]. split; [by eapply sf_trans|].
  assert (Hk : forall q n0, nbrs w !! q = Some n0 -> skip n0 = false \/ q = con_nbr c -> exists n', nbrs w' !! q = Some n' /\ skip n' = false).
  { intros q n0 Hq Hs. destruct (decide (con_nbr c = q)) as [<-|Hne].
    - apply (H3 _ (set_skip false n)); [apply lookup_insert_eq|done].
    - apply (H3 _ n0); [unfold w1; simpl; by rewrite lookup_insert_ne|]. destruct Hs; [done|congruence]. }
  split; [|split; [|intros q n0 Hq Hs; apply (Hk q n0 Hq); by left]].
  - intros q. rewrite H1. unfold w1. rewrite (relay_write w _ n) by done. simpl.
    destruct (decide (q = con_nbr c)) as [->|]; [|tauto]. unfold is_relay. rewrite Hn. naive_solver.
  - intros e' c' n' [->|He']%elem_of_cons Hc' Hn'; [|by apply (H2 e' c' n')].
    assert (Ec : nbr_cons w' = nbr_cons w) by (by rewrite (sf_rest _ _ _ SF'), (sf_rest _ _ _ SF)).
    rewrite Ec in Hc'. assert (c' = c) as -> by congruence. destruct (Hk (con_nbr c) n Hn ltac:(by right)) as (n2 & Hn2 & Es).
    assert (n' = n2) as -> by congruence. done.
Qed.

Lemma found_run w c0 T : con_ok w T ->
  exists b, found_better_path c0 T w = Some (w, b) /\ (b = false -> eligible w c0 T = []).
Proof.
  intros [K _]. induction T as [|e T IH]; [by exists false|].
  destruct (K e ltac:(left)) as (c & n & Hc & Hn). cbn [found_better_path]. erewrite bind_run by (by apply rd_con_run).
  destruct (Z.ltb_spec (path_linkcost c) c0); [by exists true|].
  destruct IH as (b & R & Hb); [intros; apply K; by right|]. exists b. split; [done|]. intros E. rewrite eligible_cons, (Hb E).
  unfold via. rewrite Hc. simpl. rewrite Hn. simpl. destruct (Z.ltb_spec (path_linkcost c) c0); [lia|]. by rewrite andb_false_r.
Qed.

(** ** The neighbourhood a selection works on *)
Record mpr_input_ok (w : neighborhood) : Prop := {
  o_nbr : forall e, e ∈ nbr_tree w -> is_Some (nbrs w !! e.1);
  o_nodup : NoDup (nbr_tree w).*1;
  o_all : forall p, is_Some (nbrs w !! p) -> p ∈ (nbr_tree w).*1;
  o_nbr2 : forall e, e ∈ nbr2_tree w -> exists n2, nbr2s w !! e.1 = Some n2 /\ con_ok w (nbr2_con_tree n2);
  o_links : links_ok w;
  o_link_nbr : forall p l, p ∈ link_entry_head w -> links w !! p = Some l -> is_Some (nbrs w !! link_neighbor l)
}.

Lemma input_ok_sf w w' : same_core w w' -> mpr_input_ok w -> mpr_input_ok w'.
Proof.
  intros SF [O1 O2 O3 O4 O5 O6]. pose proof (sf_rest _ _ _ SF) as E.
  assert (Hs : forall p, is_Some (nbrs w' !! p) <-> is_Some (nbrs w !! p)).
  { intros p. rewrite <- (fmap_is_Some core), <- (fmap_is_Some core (nbrs w !! p)). by rewrite (sf_nbrs _ _ _ SF). }
  split; rewrite E; simpl; try done.
  - intros e He. by apply Hs, O1.
  - intros p Hp. by apply O3, Hs.
  - intros e He. destruct (O4 e He) as (n2 & H1 & H2). exists n2. split; [done|]. rewrite <- E. by apply (con_ok_sf w).
  - intros p l H1 H2. apply Hs. by eapply O6.
Qed.

(** The cost of the direct link to an address: infinite if it is not the address
    of a symmetric neighbour, and none if that neighbour has no usable link. *)
Definition direct (w : neighborhood) (addr : ip_addr) (r : option Z) : Prop :=
  match tree_find (avl_comp_default ip_version) addr (nbr_tree w) with
  | None => r = Some ROUTE_COST_BROKEN
  | Some p => exists n, nbrs w !! p = Some n /\
      if is_sym n then exists b, best_link_of w p b /\ r = (lp ← b; linkcost <$> links w !! lp)
      else r = Some ROUTE_COST_BROKEN
  end.

Lemma best_link_of_sf w w' p b : same_core w w' -> best_link_of w' p b -> best_link_of w p b.
Proof. intros SF. rewrite (sf_rest _ _ _ SF). done. Qed.

Lemma direct_sf w w' a r : same_core w w' -> direct w' a r -> direct w a r.
Proof.
  intros SF. unfold direct. assert (nbr_tree w' = nbr_tree w) as -> by (by rewrite (sf_rest _ _ _ SF)).
  destruct (tree_find _ _ _) as [p|]; [|done]. intros (n' & Hn' & H). destruct (sf_back _ _ _ _ _ SF Hn') as (n & Hn & E).
  exists n. split; [done|]. rewrite <- (core_sym _ _ E). destruct (is_sym n'); [|done].
  destruct H as (b & Hb & ->). exists b. split; [by eapply best_link_of_sf|]. by rewrite (sf_rest _ _ _ SF).
Qed.

Lemma best_direct_run w a : mpr_input_ok w -> exists r, best_direct a w = Some (w, r) /\ direct w a r.
Proof.
  intros [O1 _ _ _ O5 _]. unfold best_direct, direct. erewrite bind_run by reflexivity.
  destruct (tree_find _ _ _) as [p|] eqn:E; [|by eexists].
  apply tree_find_Some in E as (k & Hin & _). destruct (O1 _ Hin) as [n Hn]. simpl in Hn.
  erewrite bind_run by (by apply rd_nbr_run). destruct (is_sym n) eqn:Es; [|eexists; split; [done|exists n; by rewrite Es]].
  destruct (get_best_link_run now w p O5) as (b & R & Hb). erewrite bind_run by exact R.
  destruct b as [lp|]; simpl in Hb.
  - destruct Hb as (l & Hl & Hc). pose proof Hl as (_ & Hlp & _). erewrite bind_run by (by apply rd_link_run).
    eexists. split; [done|]. exists n. rewrite Es. split; [done|]. exists (Some lp). simpl. rewrite Hlp. split; [by exists l|done].
  - eexists. split; [done|]. exists n. rewrite Es. split; [done|]. by exists None.
Qed.

(** [S] are relays for a 2-hop neighbour: as many as configured of the neighbours
    with the cheapest usable paths, if these are cheaper than the direct link. *)
Definition relays_for (w : neighborhood) (p : loc) (S : list loc) : Prop := exists n2 d,
  nbr2s w !! p = Some n2 /\ direct w (nbr2_addr n2) d /\
  match d with
  | None => S = []
  | Some c0 => cheapest (Z.to_nat mpr_coverage) (eligible w c0 (nbr2_con_tree n2)) S
  end.

Lemma relays_for_sf w w' p S : same_core w w' -> relays_for w' p S -> relays_for w p S.
Proof.
  intros SF (n2 & d & H1 & H2 & H3). exists n2, d. split; [by rewrite (sf_rest _ _ _ SF) in H1|]. split; [by eapply direct_sf|].
  destruct d as [c0|]; [|done]. by rewrite <- (eligible_sf w w').
Qed.

Lemma cheapest_nil n : cheapest n [] [].
Proof. split; [constructor|done| |]; simpl; [lia|]. intros ? ? ? ? []%elem_of_nil. Qed.
Lemma cheapest_none E : cheapest 0 E [].
Proof. split; [constructor|intros ? []%elem_of_nil|done|]. intros ? ? ? ? _ []%elem_of_nil. Qed.

Lemma cover_run w e : mpr_input_ok w -> e ∈ nbr2_tree w ->
  exists w' S, cover_nbr2 e.1 w = Some (w', tt) /\ same_but_flags w w' /\ relays_for w e.1 S /\
    forall q, is_relay w' q <-> is_relay w q \/ q ∈ S.
Proof.
  intros Ok He. destruct (o_nbr2 _ Ok e He) as (n2 & H2 & K). unfold cover_nbr2.
  erewrite bind_run by (unfold rd_nbr2; by rewrite H2).
  destruct (best_direct_run w (nbr2_addr n2) Ok) as (d & R & Hd). erewrite bind_run by exact R.
  assert (Hnone : forall d, direct w (nbr2_addr n2) d -> match d with None => True | Some c0 => eligible w c0 (nbr2_con_tree n2) = [] end ->
    exists w' S, Some (w, tt) = Some (w', tt) /\ same_but_flags w w' /\ relays_for w e.1 S /\ forall q, is_relay w' q <-> is_relay w q \/ q ∈ S).
  { intros d0 Hd0 E0. exists w, []. split; [done|]. split; [apply sf_refl|]. split; [|set_solver]. exists n2, d0. split_and!; [done..|].
    destruct d0; [|done]. rewrite E0. apply cheapest_nil. }
  destruct d as [c0|]; [|by apply (Hnone None)].
  destruct (found_run w c0 _ K) as (b & Rf & Hb). erewrite bind_run by exact Rf.
  destruct b; simpl; [|by apply (Hnone (Some c0) Hd), Hb].
  destruct (clear_skip_run w _ K) as (w1 & R1 & SF1 & HR1 & Sk & _). erewrite bind_run by exact R1.
  pose proof (con_ok_sf _ _ _ (flags_core _ _ SF1) K) as K1.
  destruct (select_mprs_run c0 (nbr2_con_tree n2) (Z.to_nat mpr_coverage) w1 [] K1 Sk) as (w2 & R2 & SF2 & HR2).
  rewrite (eligible_sf w w1 _ _ (flags_core _ _ SF1)) in HR2.
  exists w2, (select (Z.to_nat mpr_coverage) c0 (eligible w c0 (nbr2_con_tree n2)) []). split; [done|]. split; [by eapply sf_trans|].
  split; [|intros q; rewrite HR2, HR1; set_solver].
  exists n2, (Some c0). split_and!; [done..|]. rewrite <- (Nat.add_0_r (Z.to_nat mpr_coverage)) at 1.
  apply select_spec; [by apply eligible_distinct|intros ? ?; apply eligible_cost|apply cheapest_none].
Qed.

Lemma cover_all_run T : forall w, mpr_input_ok w -> (forall e, e ∈ T -> e ∈ nbr2_tree w) ->
  exists w' Ss, foldr (fun e m => cover_nbr2 e.1;; m) (mret tt) T w = Some (w', tt) /\ same_but_flags w w' /\
    Forall2 (fun e S => relays_for w e.1 S) T Ss /\ forall q, is_relay w' q <-> is_relay w q \/ q ∈ mjoin Ss.
Proof.
  induction T as [|e T IH]; intros w Ok HT.
  { exists w, []. split; [done|]. split; [apply sf_refl|]. split; [constructor|]. simpl. set_solver. }
  destruct (cover_run w e Ok) as (w1 & S & R1 & SF1 & HS & HR1); [apply HT; left|]. simpl. erewrite bind_run by exact R1.
  destruct (IH w1) as (w2 & Ss & R2 & SF2 & HSs & HR2); [by apply (input_ok_sf w _ (flags_core _ _ SF1))| |].
  { intros e' He'. rewrite (sf_rest _ _ _ SF1). apply HT. by right. }
  exists w2, (S :: Ss). split; [done|]. split; [by eapply sf_trans|]. split.
  - constructor; [done|]. eapply Forall2_impl; [exact HSs|]. intros e' S' H. by apply (relays_for_sf w w1 _ _ (flags_core _ _ SF1)).
  - intros q. rewrite HR2, HR1. simpl. rewrite elem_of_app. tauto.
Qed.

(** ** Clearing *)
Definition willing (n : nbr_entry) : bool := is_sym n && negb (willingness n =? WILL_ALWAYS).

Lemma init_step_run w p n : nbrs w !! p = Some n ->
  (wr_nbr p (set_is_mpr false);; n ← rd_nbr p; if is_sym n && negb (willingness n =? WILL_ALWAYS) then wr_nbr p (set_is_mpr true) else mret tt) w =
  Some (with_nbrs (<[p := set_is_mpr (willing n) n]> (nbrs w)) w, tt).
Proof.
  intros Hn. erewrite bind_run by (by apply wr_nbr_run). erewrite bind_run by (apply rd_nbr_run, lookup_insert_eq).
  simpl. fold (willing n). destruct (willing n); [|done].
  erewrite wr_nbr_run by apply lookup_insert_eq. simpl. by rewrite insert_insert_eq.
Qed.

Lemma mpr_init_run (N : list (loc * ip_addr)) : forall w, NoDup N.*1 -> (forall e, e ∈ N -> is_Some (nbrs w !! e.1)) ->
  exists w', foldr (fun e m => (wr_nbr e.1 (set_is_mpr false);; n ← rd_nbr e.1;
      if is_sym n && negb (willingness n =? WILL_ALWAYS) then wr_nbr e.1 (set_is_mpr true) else mret tt);; m) (mret tt) N w = Some (w', tt) /\
    same_but_flags w w' /\
    forall q n, nbrs w !! q = Some n -> is_relay w' q <-> if decide (q ∈ N.*1) then willing n = true else is_mpr n = true.
Proof.
  induction N as [|e N IH]; intros w ND HN.
  { exists w. split; [done|]. split; [apply sf_refl|]. intros q n Hq. rewrite decide_False by (apply not_elem_of_nil).
    unfold is_relay. rewrite Hq. naive_solver. }
  apply NoDup_cons in ND as [Hn ND]. destruct (HN e ltac:(left)) as [n He]. simpl.
  erewrite bind_run by (by apply init_step_run). set (w1 := with_nbrs _ _).
  assert (SF : same_but_flags w w1) by (by apply (sf_write _ w _ n)).
  destruct (IH w1 ND) as (w' & R & SF' & H').
  { intros e' He'. destruct (HN e' ltac:(by right)) as [n' Hn']. destruct (sf_lookup _ _ _ _ _ SF Hn') as (n1 & ? & _). eauto. }
  exists w'. rewrite R. split; [done|]. split; [by eapply sf_trans|]. intros q nq Hq.
  destruct (decide (q = e.1)) as [->|Hqe].
  - assert (nq = n) as -> by congruence. rewrite (H' e.1 (set_is_mpr (willing n) n)) by apply lookup_insert_eq.
    rewrite decide_False by done. rewrite decide_True by left. done.
  - rewrite (H' q nq) by (unfold w1; simpl; by rewrite lookup_insert_ne).
    destruct (decide (q ∈ N.*1)); [rewrite decide_True by (by right)|rewrite decide_False by set_solver]; done.
Qed.

(** C9: The calculation of the multipoint relays runs on every well-formed
    neighbourhood and changes nothing but the flags [is_mpr] and [skip]. Every
    2-hop neighbour that no direct link serves better is covered by
    [mpr_coverage] distinct symmetric neighbours (or by all that have a usable
    path, if there are fewer), and these have the cheapest paths to it; a
    neighbour is a relay exactly if it was selected for some 2-hop neighbour or
    if it is symmetric and its willingness is not [WILL_ALWAYS]. *)
Theorem mpr_selection_correct w : mpr_input_ok w ->
  exists w' Ss, olsr_calculate_lq_mpr2 w = Some (w', tt) /\ same_but_flags w w' /\
    Forall2 (fun e S => relays_for w e.1 S) (nbr2_tree w) Ss /\
    forall q n, nbrs w' !! q = Some n ->
      is_mpr n = true <-> (is_sym n = true /\ willingness n <> WILL_ALWAYS) \/ q ∈ mjoin Ss.
Proof.
  intros Ok. unfold olsr_calculate_lq_mpr2, mpr_init. erewrite bind2_run by reflexivity.
  destruct (mpr_init_run (nbr_tree w) w) as (w1 & R1 & SF1 & H1); [apply Ok|apply Ok|]. erewrite bind_run by exact R1.
  erewrite bind_run by reflexivity.
  destruct (cover_all_run (nbr2_tree w1) w1) as (w2 & Ss & R2 & SF2 & HS & H2); [by apply (input_ok_sf w _ (flags_core _ _ SF1))|done|].
  assert (E : nbr2_tree w1 = nbr2_tree w) by (by rewrite (sf_rest _ _ _ SF1)).
  exists w2, Ss. rewrite R2. split; [done|]. split; [by eapply sf_trans|]. split.
  { rewrite <- E. eapply Forall2_impl; [exact HS|]. intros e S H. by apply (relays_for_sf w w1 _ _ (flags_core _ _ SF1)). }
  intros q n Hq. destruct (sf_back _ _ _ _ _ (sf_trans _ _ _ _ SF1 SF2) Hq) as (n0 & Hn0 & En).
  specialize (H2 q). rewrite (H1 q n0 Hn0), decide_True in H2 by (apply (o_all _ Ok); eauto).
  assert (is_relay w2 q <-> is_mpr n = true) as Hr by (unfold is_relay; rewrite Hq; naive_solver).
  rewrite <- Hr, H2. unfold willing. injection En as ? ? -> -> ? ? ? ?. rewrite andb_true_iff, negb_true_iff, Z.eqb_neq. done.
Qed.

(** ** The whole calculation *)
Lemma store_old_run (N : list (loc * ip_addr)) : forall w, NoDup N.*1 -> (forall e, e ∈ N -> is_Some (nbrs w !! e.1)) ->
  exists w', foldr (fun e m => (n ← rd_nbr e.1; wr_nbr e.1 (set_was_mpr (is_mpr n)));; m) (mret tt) N w = Some (w', tt) /\
    w' = with_nbrs (nbrs w') w /\
    forall q, nbrs w' !! q = (fun n => if decide (q ∈ N.*1) then set_was_mpr (is_mpr n) n else n) <$> nbrs w !! q.
Proof.
  induction N as [|e N IH]; intros w ND HN.
  { exists w. split; [done|]. split; [by destruct w|]. intros q. destruct (nbrs w !! q); [|done]. done. }
  apply NoDup_cons in ND as [Hn ND]. destruct (HN e ltac:(left)) as [n He]. simpl.
  erewrite bind2_run by (by apply rd_nbr_run). erewrite bind_run by (by apply wr_nbr_run). set (w1 := with_nbrs _ _).
  assert (Hw1 : forall q, q <> e.1 -> nbrs w1 !! q = nbrs w !! q) by (intros q Hq; unfold w1; simpl; by rewrite lookup_insert_ne).
  destruct (IH w1 ND) as (w' & R & E & H').
  { intros e' He'. rewrite Hw1; [apply HN; by right|]. intros E. apply Hn. rewrite <- E. apply list_elem_of_fmap. by exists e'. }
  exists w'. rewrite R. split; [done|]. split; [by rewrite E|]. intros q. rewrite H'. destruct (decide (q = e.1)) as [->|Hqe].
  - unfold w1. simpl. rewrite lookup_insert_eq, He. simpl. rewrite decide_False by done. rewrite decide_True by left. done.
  - rewrite Hw1 by done. destruct (nbrs w !! q); [|done]. simpl. f_equal.
    destruct (decide (q ∈ N.*1)); [rewrite decide_True by (by right)|rewrite decide_False by set_solver]; done.
Qed.

Lemma changed_run w (N : list (loc * ip_addr)) : (forall e, e ∈ N -> is_Some (nbrs w !! e.1)) ->
  exists b, mpr_changed N w = Some (w, b) /\
    (b = true <-> exists q n, q ∈ N.*1 /\ nbrs w !! q = Some n /\ was_mpr n <> is_mpr n).
Proof.
  induction N as [|e N IH]; intros HN; [exists false; split; [done|]; split; [done|]; by intros (q & n & []%elem_of_nil & _)|].
  destruct (HN e ltac:(left)) as [n He]. cbn [mpr_changed]. erewrite bind_run by (by apply rd_nbr_run).
  destruct (Bool.eqb _ _) eqn:Eb; simpl.
  - destruct IH as (b & -> & Hb); [intros; apply HN; by right|]. exists b. split; [done|]. rewrite Hb. apply eqb_prop in Eb.
    split; intros (q & n' & Hq & Hn' & Hd); exists q, n'; (split; [|done]); [by right|]. apply elem_of_cons in Hq as [->|Hq]; [congruence|done].
  - exists true. split; [done|]. split; [|done]. intros _. exists e.1, n. split; [left|]. split; [done|]. apply eqb_false_iff in Eb. done.
Qed.

Lemma copy_links_run L : forall w, (forall p, p ∈ L -> exists l n, links w !! p = Some l /\ nbrs w !! link_neighbor l = Some n) ->
  exists w', foldr (fun p m => (l ← rd_link p; n ← rd_nbr (link_neighbor l); wr_link p (set_link_is_mpr (is_mpr n)));; m) (mret tt) L w = Some (w', tt) /\
    w' = with_links (links w') w /\
    forall p l, links w !! p = Some l -> exists l', links w' !! p = Some l' /\ set_link_is_mpr false l' = set_link_is_mpr false l /\
      (p ∉ L -> l' = l) /\ (p ∈ L -> exists n, nbrs w !! link_neighbor l = Some n /\ link_is_mpr l' = is_mpr n).
Proof.
  induction L as [|p L IH]; intros w HL.
  { exists w. split; [done|]. split; [by destruct w|]. intros p l Hl. exists l. split_and!; [done..|]. by intros []%elem_of_nil. }
  destruct (HL p ltac:(left)) as (l & n & Hl & Hn). simpl. erewrite bind2_run by (by apply rd_link_run).
  erewrite bind2_run by (by apply rd_nbr_run). erewrite bind_run by (unfold wr_link; by rewrite Hl).
  set (w1 := with_links _ _).
  assert (Hw1 : forall q lq, links w !! q = Some lq -> links w1 !! q = Some (if decide (p = q) then set_link_is_mpr (is_mpr n) l else lq)).
  { intros q lq Hq. unfold w1. simpl. destruct (decide (p = q)) as [->|]; [by rewrite lookup_insert_eq|by rewrite lookup_insert_ne]. }
  destruct (IH w1) as (w' & R & E & H').
  { intros q Hq. destruct (HL q ltac:(by right)) as (lq & nq & Hlq & Hnq). rewrite (Hw1 _ _ Hlq). case_decide; [|by eauto].
    subst q. assert (lq = l) as -> by congruence. by exists (set_link_is_mpr (is_mpr n) l), nq. }
  exists w'. rewrite R. split; [done|]. split; [by rewrite E|]. intros q lq Hq.
  destruct (H' _ _ (Hw1 _ _ Hq)) as (l' & H1 & H2 & H3 & H4). exists l'. split; [done|].
  rewrite elem_of_cons. case_decide as Epq.
  - subst q. assert (lq = l) as -> by congruence. split; [by rewrite H2|]. split; [tauto|]. intros _.
    destruct (decide (p ∈ L)) as [Hin|Hin]; [by apply H4|]. exists n. split; [done|]. by rewrite (H3 Hin).
  - split; [done|]. split; [tauto|]. intros [->|Hin]; [done|]. by apply H4.
Qed.

(** The whole calculation runs on every well-formed neighbourhood; the
    relays are those of the selection above, [was_mpr] has the relays of
    before, and only if one of them changed the flags are copied to the links and, with a TC
    redundancy above 0, a change of the advertised links is signalled. *)
Theorem mpr_changes_reported w : mpr_input_ok w ->
  exists w' Ss changed, olsr_calculate_lq_mpr w = Some (w', changed && (tc_redundancy >? 0)) /\
    w' = with_links (links w') (with_nbrs (nbrs w') w) /\
    (forall q n, nbrs w !! q = Some n -> exists n', nbrs w' !! q = Some n' /\ core n' = core n /\ was_mpr n' = is_mpr n /\
      (is_mpr n' = true <-> (is_sym n = true /\ willingness n <> WILL_ALWAYS) \/ q ∈ mjoin Ss)) /\
    Forall2 (fun e S => relays_for w e.1 S) (nbr2_tree w) Ss /\
    (changed = true <-> exists q n n', nbrs w !! q = Some n /\ nbrs w' !! q = Some n' /\ is_mpr n' <> is_mpr n) /\
    (changed = false -> links w' = links w) /\
    (changed = true -> forall p l, p ∈ link_entry_head w -> links w !! p = Some l -> exists l' n', links w' !! p = Some l' /\
      nbrs w' !! link_neighbor l = Some n' /\ link_is_mpr l' = is_mpr n').
Proof.
  intros Ok. unfold olsr_calculate_lq_mpr. erewrite bind_run by reflexivity.
  destruct (store_old_run (nbr_tree w) w) as (w1 & R1 & E1 & H1); [apply Ok|apply Ok|]. erewrite bind_run by exact R1.
  assert (Hw1 : forall q n, nbrs w !! q = Some n -> nbrs w1 !! q = Some (set_was_mpr (is_mpr n) n)).
  { intros q n Hq. rewrite H1, Hq. simpl. rewrite decide_True by (apply (o_all _ Ok); eauto). done. }
  assert (SC : same_core w w1).
  { split; [done|]. intros q. destruct (nbrs w !! q) as [n|] eqn:Hq; [by rewrite (Hw1 _ _ Hq)|by rewrite H1, Hq]. }
  destruct (mpr_selection_correct w1) as (w2 & Ss & R2 & SF2 & HS & H2); [by apply (input_ok_sf w)|].
  erewrite bind_run by exact R2.
  pose proof (sf_trans _ _ _ _ SC (flags_core _ _ SF2)) as SC2. pose proof (input_ok_sf _ _ SC2 Ok) as Ok2.
  assert (ET : nbr_tree w2 = nbr_tree w) by (by rewrite (sf_rest _ _ _ SC2)).
  destruct (changed_run w2 (nbr_tree w)) as (b & R3 & H3); [rewrite <- ET; apply Ok2|]. erewrite bind_run by exact R3.
  assert (Hn2 : forall q n, nbrs w !! q = Some n -> exists n', nbrs w2 !! q = Some n' /\ core n' = core n /\ was_mpr n' = is_mpr n /\
      (is_mpr n' = true <-> (is_sym n = true /\ willingness n <> WILL_ALWAYS) \/ q ∈ mjoin Ss)).
  { intros q n Hq. destruct (sf_lookup _ _ _ _ _ SF2 (Hw1 _ _ Hq)) as (n' & Hn' & En). exists n'. split; [done|].
    split; [unfold core; by rewrite En|]. pose proof (H2 q n' Hn') as Hm. injection En as ? ? Ew Es Ewas ? ? ?. rewrite Ew, Es in Hm. done. }
  assert (Hch : b = true <-> exists q n n', nbrs w !! q = Some n /\ nbrs w2 !! q = Some n' /\ is_mpr n' <> is_mpr n).
  { rewrite H3. split.
    - intros (q & n' & _ & Hn' & Hd). destruct (sf_back _ _ _ _ _ SC2 Hn') as (n & Hn & _).
      destruct (Hn2 q n Hn) as (n'' & ? & _ & Ewas & _). exists q, n, n'. split_and!; [done..|]. simplify_eq. congruence.
    - intros (q & n & n' & Hn & Hn' & Hd). exists q, n'. destruct (Hn2 q n Hn) as (n'' & ? & _ & Ewas & _). simplify_eq.
      split; [apply (o_all _ Ok); eauto|]. split; [done|]. congruence. }
  assert (HSw : Forall2 (fun e S => relays_for w e.1 S) (nbr2_tree w) Ss).
  { replace (nbr2_tree w) with (nbr2_tree w1) by (by rewrite E1). eapply Forall2_impl; [exact HS|]. intros e S. by apply relays_for_sf. }
  destruct b; simpl.
  - erewrite bind_run by reflexivity. destruct (copy_links_run (link_entry_head w2) w2) as (w3 & R4 & E4 & H4).
    { intros p Hp. destruct (o_links _ Ok2 p Hp) as [l Hl]. destruct (o_link_nbr _ Ok2 p l Hp Hl) as [n Hn]. eauto. }
    erewrite bind_run by exact R4. exists w3, Ss, true. split; [done|].
    assert (EN : nbrs w3 = nbrs w2) by (by rewrite E4). assert (EL : links w2 = links w) by (by rewrite (sf_rest _ _ _ SC2)).
    rewrite EN. split; [rewrite E4 at 1; by rewrite (sf_rest _ _ _ SC2) at 1|].
    split_and!; [done..|]. intros _ p l Hp Hl. rewrite <- EL in Hl. destruct (H4 p l Hl) as (l' & ? & _ & _ & Hin).
    destruct Hin as (n' & ? & ?); [by rewrite (sf_rest _ _ _ SC2)|]. exists l', n'. done.
  - exists w2, Ss, false. split; [done|]. assert (EL : links w2 = links w) by (by rewrite (sf_rest _ _ _ SC2)).
    rewrite EL. split; [rewrite (sf_rest _ _ _ SC2) at 1; by destruct w|]. split_and!; done.
Qed.
End mpr.

(** ** A small neighbourhood: node 9 is reached through 1 and, cheaper, through 2;
    node 8 only through 1. *)
Definition mpr_addr (b : Z) : ip_addr := [10; 0; 0; b] ++ replicate 12 0.
Definition mpr_nbr (b : Z) : nbr_entry := mkNbr (mpr_addr b) None WILL_ALWAYS true true false false 0 1 [].
Definition mpr_link (b : Z) (nbr : loc) (c : Z) : link_entry :=
  mkLink (mpr_addr 100) (mpr_addr b) 1 None (Some 1%positive) 0 0 nbr SYM_LINK false false 0 0 0 None c.
Definition mpr_demo : neighborhood := mkNbh
  [(1%positive, mpr_addr 1); (2%positive, mpr_addr 2); (3%positive, mpr_addr 3)]
  {[ 1%positive := mpr_nbr 1; 2%positive := mpr_nbr 2; 3%positive := mpr_nbr 3 ]}
  [(7%positive, mpr_addr 8); (8%positive, mpr_addr 9)]
  {[ 7%positive := mkNbr2 (mpr_addr 8) [(23%positive, mpr_addr 1)];
     8%positive := mkNbr2 (mpr_addr 9) [(21%positive, mpr_addr 1); (22%positive, mpr_addr 2); (24%positive, mpr_addr 3)] ]}
  {[ 21%positive := mkCon 1 8 None 10 20; 22%positive := mkCon 2 8 None 5 15; 23%positive := mkCon 1 7 None 10 20;
     24%positive := mkCon 3 8 None LINK_COST_BROKEN 5 ]}
  [31%positive; 32%positive; 33%positive]
  {[ 31%positive := mpr_link 1 1 10; 32%positive := mpr_link 2 2 10; 33%positive := mpr_link 3 3 10 ]}
  [] ∅ (mkDb [] ∅ ∅ None).

Lemma mpr_demo_ok : mpr_input_ok mpr_demo.
Proof.
  split.
  - intros e He. list_cases He; by eexists.
  - apply (bool_decide_unpack _). by vm_compute.
  - intros p [n Hp]. map_cases Hp; apply (bool_decide_unpack _); by vm_compute.
  - intros e He. list_cases He; (eexists; split; [reflexivity|]); split;
      [intros e He; list_cases He; by do 2 eexists|apply (bool_decide_unpack _); by vm_compute
      |intros e He; list_cases He; by do 2 eexists|apply (bool_decide_unpack _); by vm_compute].
  - intros p Hp. list_cases Hp; by eexists.
  - intros p l _ Hl. map_cases Hl; by eexists.
Qed.

Lemma mpr_selection_correct_witness : exists w' Ss,
  olsr_calculate_lq_mpr2 AF_INET 0 1 mpr_demo = Some (w', tt) /\ same_by no_flags mpr_demo w' /\
  Forall2 (fun e S => relays_for AF_INET 1 mpr_demo e.1 S) (nbr2_tree mpr_demo) Ss /\
  forall q n, nbrs w' !! q = Some n ->
    is_mpr n = true <-> (is_sym n = true /\ willingness n <> WILL_ALWAYS) \/ q ∈ mjoin Ss.
Proof. apply (mpr_selection_correct AF_INET 0 1 mpr_demo), mpr_demo_ok. Defined.

Lemma mpr_changes_reported_witness : exists w' Ss changed,
  olsr_calculate_lq_mpr AF_INET 0 1 1 mpr_demo = Some (w', changed && (1 >? 0)) /\
  w' = with_links (links w') (with_nbrs (nbrs w') mpr_demo) /\
  (forall q n, nbrs mpr_demo !! q = Some n -> exists n', nbrs w' !! q = Some n' /\ core n' = core n /\ was_mpr n' = is_mpr n /\
    (is_mpr n' = true <-> (is_sym n = true /\ willingness n <> WILL_ALWAYS) \/ q ∈ mjoin Ss)) /\
  Forall2 (fun e S => relays_for AF_INET 1 mpr_demo e.1 S) (nbr2_tree mpr_demo) Ss /\
  (changed = true <-> exists q n n', nbrs mpr_demo !! q = Some n /\ nbrs w' !! q = Some n' /\ is_mpr n' <> is_mpr n) /\
  (changed = false -> links w' = links mpr_demo) /\
  (changed = true -> forall p l, p ∈ link_entry_head mpr_demo -> links mpr_demo !! p = Some l -> exists l' n', links w' !! p = Some l' /\
    nbrs w' !! link_neighbor l = Some n' /\ link_is_mpr l' = is_mpr n').
Proof. apply (mpr_changes_reported AF_INET 0 1 1 mpr_demo), mpr_demo_ok. Defined.

(** Nodes 1 and 2 are relays, node 3 is none, and the links know it. *)
Example mpr_demo_relays :
  (fun r => (fmap is_mpr (nbrs r.1 !! 1%positive), fmap is_mpr (nbrs r.1 !! 2%positive), fmap is_mpr (nbrs r.1 !! 3%positive),
             fmap link_is_mpr (links r.1 !! 33%positive), r.2)) <$> olsr_calculate_lq_mpr AF_INET 0 1 1 mpr_demo =
  Some (Some true, Some true, Some false, Some false, true).
Proof. by vm_compute. Qed.
