(* ===== verification/Hello.v ===== *)
(** * HELLO messages ([process_package.c], [lq_packet.c], [generate_hello] of [link_set.c])

    A HELLO lists the links of its sender in blocks of equal link type and
    neighbour type. [deserialize_hello] reads it; the cursor is the list of the
    bytes from it to the end of the buffer. *)
From S2P Require Import Prelude AvlSpec Trees Types Comparators Clock Packet Lsdb LqHandler Neighborhood LinkSet.

Section hello.
Context `{LQ : LqHandler} (ip_version : Z).

Definition hello_ipsize : nat := if ip_version =? AF_INET then 4 else 16.
Abbreviation ipsize := hello_ipsize.

Record lq_hello_neighbor := mkHn {
  link_type : Z;
  neigh_type : Z;
  hn_addr : ip_addr;
  hn_lq : lq_data;
  hn_cost : Z
}.

(** The list [neigh], its head first. *)
Record lq_hello_message := mkHello {
  htime : Z;
  will : Z;
  neigh : list lq_hello_neighbor
}.

(** ** Reading *)
Definition is_lost_interface_ip (interface_lost_tree : list (loc * ip_addr)) (ip : ip_addr) : bool :=
  bool_decide (is_Some (tree_find (avl_comp_default ip_version) ip interface_lost_tree)).

Definition olsr_deserialize_hello_lq_pair : RD (lq_data * Z) :=
  d ← deserialize_lq lq_zero; mret (d, calc_cost d).

Definition entry_size : Z := Z.of_nat ipsize + Z.of_nat lq_size.

Section reading.
Context (lost : list (loc * ip_addr)).

(** The inner loop; [room] is [limit2 - curr]. It returns the room that is left,
    which says how far the cursor moved. [fuel] bounds the rounds. *)
Fixpoint hello_entries (fuel : nat) (room : Z) (link_code : Z) (acc : list lq_hello_neighbor) : RD (list lq_hello_neighbor * Z) :=
  if entry_size <=? room then
    match fuel with
    | O => se_fail
    | S fuel =>
      a ← pkt_get_ipaddress ipsize (replicate 16 0);
      p ← olsr_deserialize_hello_lq_pair;
      if is_lost_interface_ip lost a then hello_entries fuel (room - entry_size) link_code acc
      else hello_entries fuel (room - entry_size) link_code
        (mkHn (EXTRACT_LINK link_code) (EXTRACT_STATUS link_code) a p.1 p.2 :: acc)
    end
  else mret (acc, room).

(** The outer loop; [left] is [msg->end - curr]. *)
Fixpoint hello_blocks (fuel : nat) (left : Z) (acc : list lq_hello_neighbor) : RD (list lq_hello_neighbor) :=
  if 0 <? left then
    match fuel with
    | O => se_fail
    | S fuel =>
      link_code ← pkt_get_u8;
      pkt_ignore_u8;;
      size ← pkt_get_u16;
      r ← hello_entries (Z.to_nat size) (size - 4) link_code acc;
      hello_blocks fuel (left - 4 - (size - 4 - r.2)) r.1
    end
  else mret acc.

(** [left] is [msg->end - msg->payload]. *)
Definition deserialize_hello (left : Z) : RD lq_hello_message :=
  pkt_ignore_u16;;
  ht ← pkt_get_reltime;
  w ← pkt_get_u8;
  ns ← hello_blocks (Z.to_nat left) (left - 4) [];
  mret (mkHello ht w ns).
End reading.

(** The first entry for the address decides. *)
Fixpoint lookup_mpr_status (ns : list lq_hello_neighbor) (if_addr : ip_addr) : bool :=
  match ns with
  | [] => false
  | n :: ns =>
    if negb (link_type n =? UNSPEC_LINK) && (ipcmp ip_version (hn_addr n) if_addr =? 0)
    then (link_type n =? SYM_LINK) && (neigh_type n =? MPR_NEIGH)
    else lookup_mpr_status ns if_addr
  end.

(** The last entry for the address decides, unless one says that the link is
    symmetric. *)
Fixpoint check_link_status_from (ns : list lq_hello_neighbor) (if_addr : ip_addr) (ret : Z) : Z :=
  match ns with
  | [] => ret
  | n :: ns =>
    if (ipcmp ip_version (hn_addr n) if_addr =? 0) && negb (link_type n =? UNSPEC_LINK) then
      if link_type n =? SYM_LINK then link_type n else check_link_status_from ns if_addr (link_type n)
    else check_link_status_from ns if_addr ret
  end.
Definition check_link_status (message : lq_hello_message) (if_addr : ip_addr) : Z :=
  check_link_status_from (neigh message) if_addr UNSPEC_LINK.

(** ** Writing *)

(** [pkt_put_u16] through a pointer that was kept. *)
Definition pkt_put_u16_at (pos : nat) (v : Z) : WR unit := fun p =>
  if decide (pos + 2 <= length p.1)%nat then Some ((take pos p.1 ++ to_le 2 (htons v) ++ drop (pos + 2) p.1, p.2), tt) else None.

Definition put_cursor : WR nat := se_get (fun p => length p.1).

(** The loop over the links; [linkstart] is null until the first link is written. *)
Fixpoint put_links (writeNeighType writeLinkType : Z) (ls : list (link_entry * lq_data)) (linkstart : option nat) : WR (option nat) :=
  match ls with
  | [] => mret linkstart
  | l :: ls =>
    if negb (iflocal_link_status l.1 =? writeLinkType) || negb (iflocal_neigh_status l.1 =? writeNeighType)
    then put_links writeNeighType writeLinkType ls linkstart
    else
      s ← (match linkstart with
           | Some s => mret s
           | None =>
             pkt_put_u8 (CREATE_LINK_CODE writeNeighType writeLinkType);;
             pkt_put_u8 0;;
             s ← put_cursor;
             pkt_put_u16 0;;
             mret s
           end);
      pkt_put_ipaddress ipsize (neighbor_iface_addr l.1);;
      serialize_lq l.2;;
      put_links writeNeighType writeLinkType ls (Some s)
  end.

Definition put_block (ls : list (link_entry * lq_data)) (t : Z * Z) : WR unit :=
  s ← put_links t.1 t.2 ls None;
  match s with
  | None => mret tt
  | Some s => curr ← put_cursor; pkt_put_u16_at s (u16 (Z.of_nat curr + 2 - Z.of_nat s))
  end.

(** The order of the two loops over the types. *)
Definition block_types : list (Z * Z) :=
  n ← seqZ 0 COUNT_NEIGH_TYPES; l ← seqZ 0 COUNT_LINK_TYPES; mret (n, l).

(** The first loop of [generate_hello]: the status of a link as the HELLO for the
    interface with address [if_addr] reports it. *)
Definition hello_link_status (now : Z) (if_addr : ip_addr) (p : loc) : NM unit :=
  l ← rd_link p;
  st ← (if negb (ipcmp ip_version (local_iface_addr l) if_addr =? 0) then mret UNSPEC_LINK else lookup_link_status now (Some p));
  n ← rd_nbr (link_neighbor l);
  wr_link p (set_iflocal st (if is_mpr n then MPR_NEIGH else if is_sym n then SYM_NEIGH else NOT_NEIGH)).

Definition hello_statuses (now : Z) (if_addr : ip_addr) : NM unit :=
  L ← se_get link_entry_head;
  foldr (fun p m => hello_link_status now if_addr p;; m) (mret tt) L.

(** What [generate_hello] writes after it. *)
Definition put_hello (hello_validity hello_interval router_willingness message_seqno : Z) (router_id : ip_addr)
  (ls : list (link_entry * lq_data)) : WR unit :=
  length_field ← olsr_put_msg_hdr ipsize (mkMsg messageid_hello hello_validity 0 router_id 1 0 message_seqno 0 0 0);
  pkt_put_u16 0;;
  pkt_put_reltime hello_interval;;
  pkt_put_u8 router_willingness;;
  foldr (fun t m => put_block ls t;; m) (mret tt) block_types;;
  curr ← put_cursor;
  pkt_put_u16_at length_field (Z.of_nat curr).

(** ** What is written *)
Definition matching (ls : list (link_entry * lq_data)) (t : Z * Z) : list (link_entry * lq_data) :=
  filter (fun l => iflocal_link_status l.1 = t.2 /\ iflocal_neigh_status l.1 = t.1) ls.
Definition entry_bytes (l : link_entry * lq_data) : list Z := take ipsize (neighbor_iface_addr l.1) ++ lq_bytes l.2.
Definition entries_bytes (es : list (link_entry * lq_data)) : list Z := mjoin (entry_bytes <$> es).
Definition block_bytes (t : Z * Z) (es : list (link_entry * lq_data)) : list Z :=
  match es with
  | [] => []
  | _ => to_le 1 (CREATE_LINK_CODE t.1 t.2) ++ to_le 1 0 ++ to_be 2 (4 + Z.of_nat (length (entries_bytes es))) ++ entries_bytes es
  end.

Lemma put_entry_writes {B} l (k : WR B) bs y : writes k bs (fun _ => y) ->
  writes (pkt_put_ipaddress ipsize (neighbor_iface_addr l.1);; serialize_lq l.2;; k) (entry_bytes l ++ bs) (fun _ => y).
Proof.
  intros H. unfold entry_bytes. rewrite <- app_assoc. eapply (writes_then _ _ _ _ (fun _ => y)); [apply writes_store|].
  eapply (writes_then _ _ _ _ (fun _ => y)); [apply lq_put|done].
Qed.

Lemma matching_cons l ls t : matching (l :: ls) t =
  if negb (iflocal_link_status l.1 =? t.2) || negb (iflocal_neigh_status l.1 =? t.1) then matching ls t else l :: matching ls t.
Proof.
  unfold matching. rewrite filter_cons. destruct (Z.eqb_spec (iflocal_link_status l.1) t.2), (Z.eqb_spec (iflocal_neigh_status l.1) t.1);
    simpl; case_decide; (done || tauto).
Qed.

Lemma put_links_some t ls s : writes (put_links t.1 t.2 ls (Some s)) (entries_bytes (matching ls t)) (fun _ => Some s).
Proof.
  induction ls as [|l ls IH]; [apply writes_ret|]. cbn [put_links]. rewrite matching_cons. destruct (_ || _); [done|].
  change (entries_bytes (l :: matching ls t)) with (entry_bytes l ++ entries_bytes (matching ls t)). by apply put_entry_writes.
Qed.

(** The head of a block, with no length yet. *)
Definition block_head (t : Z * Z) : list Z := to_le 1 (CREATE_LINK_CODE t.1 t.2) ++ to_le 1 0 ++ to_le 2 (htons 0).
Definition raw_block (t : Z * Z) (es : list (link_entry * lq_data)) : list Z :=
  match es with [] => [] | _ => block_head t ++ entries_bytes es end.

Lemma writes_cursor : writes put_cursor [] (fun n => n).
Proof. intros a r. rewrite decide_True by (simpl; lia). unfold put_cursor, se_get. simpl. by rewrite app_nil_r. Qed.

Lemma put_head_writes t :
  writes (pkt_put_u8 (CREATE_LINK_CODE t.1 t.2);; pkt_put_u8 0;; s ← put_cursor; pkt_put_u16 0;; mret s) (block_head t) (fun n => (n + 2)%nat).
Proof.
  eapply writes_ext.
  - eapply writes_then; [apply writes_store|]. eapply writes_then; [apply writes_store|].
    eapply (writes_bind _ _ _ _ (fun n => n) (fun n _ => n)); [apply writes_cursor|]. intros n.
    eapply (writes_then _ _ _ _ (fun _ => n)); [apply writes_store|apply writes_ret].
  - done.
  - intros n. simpl. lia.
Qed.

Lemma put_links_none t ls : writes (put_links t.1 t.2 ls None) (raw_block t (matching ls t))
  (fun n => match matching ls t with [] => None | _ => Some (n + 2)%nat end).
Proof.
  induction ls as [|l ls IH]; [apply writes_ret|]. cbn [put_links]. rewrite matching_cons. destruct (_ || _); [done|].
  unfold raw_block. eapply (writes_bind _ _ _ _ (fun n => (n + 2)%nat) (fun n _ => Some (n + 2)%nat)); [apply put_head_writes|]. intros n.
  change (entries_bytes (l :: matching ls t)) with (entry_bytes l ++ entries_bytes (matching ls t)).
  apply put_entry_writes, put_links_some.
Qed.

Lemma fix_length a h x y bs v r : length h = 2%nat -> length [x; y] = 2%nat ->
  pkt_put_u16_at (length a + length h) v (a ++ h ++ [x; y] ++ bs, r) = Some ((a ++ h ++ to_be 2 v ++ bs, r), tt).
Proof.
  intros Hh _. unfold pkt_put_u16_at. cbn [fst snd]. rewrite decide_True by (rewrite !length_app; simpl; lia).
  rewrite htons_bytes. rewrite <- !length_app, (app_assoc a h), take_app_length.
  rewrite drop_app_ge by lia. rewrite <- !app_assoc. repeat f_equal. replace (length (a ++ h) + 2 - length (a ++ h))%nat with 2%nat by lia. done.
Qed.

Lemma to_be_u16 x : to_be 2 (u16 x) = to_be 2 x.
Proof.
  unfold to_be, wrapu. f_equal. cbn [to_le]. change (2 ^ 16) with (256 * 256). rewrite Z.rem_mul_r by lia. f_equal; [|f_equal].
  - rewrite Z.mul_comm, Z.mod_add, Z.mod_mod by lia. done.
  - rewrite (Z.mul_comm 256), (Z.div_add (x mod 256) _ 256) by lia. rewrite (Z.div_small (x mod 256)) by (apply Z.mod_pos_bound; lia). by rewrite Z.add_0_l, Z.mod_mod by lia.
Qed.

(** A block is written whole, or the buffer overflows. *)
Lemma put_block_writes ls t :
  writes (put_block ls t) (block_bytes t (matching ls t)) (fun _ => tt).
Proof.
  intros a r. unfold put_block, mbind, se_bind. rewrite put_links_none. unfold raw_block, block_bytes in *.
  destruct (matching ls t) as [|e es]; [by rewrite decide_True by (simpl; lia)|]. set (B := entries_bytes (e :: es)) in *.
  rewrite !length_app, to_be_length. simpl length. case_decide as D; [rewrite decide_True by lia|by rewrite decide_False by lia].
  unfold put_cursor, se_get. simpl fst. unfold block_head.
  pose proof (fix_length a (to_le 1 (CREATE_LINK_CODE t.1 t.2) ++ to_le 1 0) 0 0 B
    (u16 (Z.of_nat (length (a ++ (to_le 1 (CREATE_LINK_CODE t.1 t.2) ++ to_le 1 0 ++ to_le 2 (htons 0)) ++ B)) + 2 - Z.of_nat (length a + 2)))
    (drop (4 + length B) r) eq_refl eq_refl) as F.
  change (to_le 2 (htons 0)) with [0; 0] in *. rewrite <- !app_assoc in *. simpl length in F. etransitivity; [exact F|]. do 5 f_equal.
  rewrite to_be_u16, !length_app. simpl length. do 3 f_equal. lia.
Qed.

Definition all_blocks (ls : list (link_entry * lq_data)) (ts : list (Z * Z)) : list Z :=
  mjoin ((fun t => block_bytes t (matching ls t)) <$> ts).

Lemma put_blocks_writes ls ts : writes (foldr (fun t m => put_block ls t;; m) (mret tt) ts) (all_blocks ls ts) (fun _ => tt).
Proof. induction ts as [|t ts IH]; [apply writes_ret|]. eapply (writes_then _ _ _ _ (fun _ => tt)); [apply put_block_writes|done]. Qed.

(** The statuses are types of a block. *)
Lemma link_status_range now w p l : links w !! p = Some l ->
  exists st, lookup_link_status now (Some p) w = Some (w, st) /\ st ∈ seqZ 0 COUNT_LINK_TYPES.
Proof.
  intros Hl. unfold lookup_link_status. erewrite bind_run by reflexivity.
  destruct (link_entry_head w); [by exists 0; split; [|left]|]. erewrite bind_run by (by apply rd_link_run).
  destruct (link_sym_timer l); simpl; [by exists 2; split; [|apply (bool_decide_unpack _); vm_compute]|].
  destruct (negb _); [by exists 1; split; [|apply (bool_decide_unpack _); vm_compute]|by exists 3; split; [|apply (bool_decide_unpack _); vm_compute]].
Qed.

Definition typed (l : link_entry) : Prop := (iflocal_neigh_status l, iflocal_link_status l) ∈ block_types.

Lemma hello_status_run now a w p l : links w !! p = Some l -> is_Some (nbrs w !! link_neighbor l) ->
  exists st ns, hello_link_status now a p w = Some (with_links (<[p := set_iflocal st ns l]> (links w)) w, tt) /\ typed (set_iflocal st ns l).
Proof.
  intros Hl [n Hn]. unfold hello_link_status. erewrite bind_run by (by apply rd_link_run).
  destruct (link_status_range now w p l Hl) as (st0 & R & Hst).
  assert (exists st, (if negb (ipcmp ip_version (local_iface_addr l) a =? 0) then mret UNSPEC_LINK else lookup_link_status now (Some p)) w = Some (w, st) /\
    st ∈ seqZ 0 COUNT_LINK_TYPES) as (st & R' & Hst').
  { destruct (negb _); [exists UNSPEC_LINK; by split; [|left]|by exists st0]. }
  erewrite bind_run by exact R'. erewrite bind_run by (unfold rd_nbr; by rewrite Hn). unfold wr_link. rewrite Hl. do 2 eexists. split; [done|].
  unfold typed, block_types. apply list_elem_of_bind. eexists. split.
  - apply list_elem_of_bind. exists st. split; [by apply list_elem_of_singleton|exact Hst'].
  - destruct (is_mpr n), (is_sym n); apply (bool_decide_unpack _); by vm_compute.
Qed.

(** The loop gives every link of the list a type. *)
Lemma hello_statuses_run now a w : links_ok w -> NoDup (link_entry_head w) ->
  (forall p l, links w !! p = Some l -> is_Some (nbrs w !! link_neighbor l)) ->
  exists w', hello_statuses now a w = Some (w', tt) /\ w' = with_links (links w') w /\
    forall p l, links w !! p = Some l -> exists st ns,
      links w' !! p = Some (if decide (p ∈ link_entry_head w) then set_iflocal st ns l else l) /\
      (p ∈ link_entry_head w -> typed (set_iflocal st ns l)).
Proof.
  intros Ok ND HN. unfold hello_statuses. erewrite bind_run by reflexivity. unfold links_ok in Ok. revert ND Ok HN.
  generalize (link_entry_head w) as L. intros L. revert w. induction L as [|p L IH]; intros w ND Ok HN.
  { exists w. split; [done|]. split; [by destruct w|]. intros p l Hl. exists 0, 0. rewrite decide_False by apply not_elem_of_nil.
    split; [done|]. by intros []%elem_of_nil. }
  apply NoDup_cons in ND as [Hp ND]. destruct (Ok p ltac:(left)) as [l Hl]. simpl.
  destruct (hello_status_run now a w p l Hl (HN p l Hl)) as (st & ns & R & HT). erewrite bind_run by exact R. set (w1 := with_links _ _).
  assert (Hw1 : forall q lq, links w !! q = Some lq -> links w1 !! q = Some (if decide (q = p) then set_iflocal st ns l else lq)).
  { intros q lq Hq. unfold w1. simpl. case_decide; [subst; by rewrite lookup_insert_eq|by rewrite lookup_insert_ne]. }
  destruct (IH w1) as (w' & R' & E' & H'); [done| | |].
  { intros q Hq. destruct (Ok q ltac:(by right)) as [lq Hlq]. eauto. }
  { intros q lq Hq. unfold w1 in *. simpl in *. apply lookup_insert_Some in Hq as [[<- <-]|[_ Hq]]; [by apply (HN p l)|by apply (HN q)]. }
  exists w'. rewrite R'. split; [done|]. split; [by rewrite E'|]. intros q lq Hq. destruct (H' q _ (Hw1 _ _ Hq)) as (st' & ns' & H1 & H2).
  destruct (decide (q = p)) as [->|Hne].
  - rewrite decide_False in H1 by done. assert (lq = l) as -> by congruence. exists st, ns. rewrite decide_True by left. done.
  - exists st', ns'. destruct (decide (q ∈ L)); [rewrite decide_True by (by right); by split; [|auto]|].
    rewrite decide_False by (by apply not_elem_of_cons). split; [done|]. intros [->|?]%elem_of_cons; done.
Qed.

(** ** What is read *)
Definition link_fields_ok (l : link_entry * lq_data) : Prop := (ipsize <= length (neighbor_iface_addr l.1))%nat /\ lq_ok l.2.

(** The entry that a neighbour reads for a link. *)
Definition hn_of (t : Z * Z) (l : link_entry * lq_data) : lq_hello_neighbor :=
  mkHn t.2 t.1 (take ipsize (neighbor_iface_addr l.1) ++ drop ipsize (replicate 16 0)) l.2 (calc_cost l.2).
Definition kept (lost : list (loc * ip_addr)) (t : Z * Z) (es : list (link_entry * lq_data)) : list lq_hello_neighbor :=
  filter (fun n => is_lost_interface_ip lost (hn_addr n) = false) (hn_of t <$> es).

Lemma ipsize_pos : (4 <= ipsize)%nat.
Proof. unfold ipsize. destruct (_ =? _); lia. Qed.

Lemma entry_bytes_length l : link_fields_ok l -> Z.of_nat (length (entry_bytes l)) = entry_size.
Proof. intros [H _]. unfold entry_bytes, entry_size. rewrite length_app, length_take, lq_bytes_length. lia. Qed.

Lemma entries_length es : Forall link_fields_ok es -> Z.of_nat (length (entries_bytes es)) = entry_size * Z.of_nat (length es).
Proof.
  induction 1 as [|l es Hl _ IH]; [simpl; lia|]. unfold entries_bytes in *. rewrite fmap_cons. simpl mjoin. rewrite length_app, Nat2Z.inj_add.
  rewrite entry_bytes_length by done. rewrite IH. simpl length. lia.
Qed.

Lemma block_types_code t : t ∈ block_types -> let c := CREATE_LINK_CODE t.1 t.2 in is_u 8 c /\ EXTRACT_LINK c = t.2 /\ EXTRACT_STATUS c = t.1.
Proof.
  intros H. assert (Forall (fun t => (0 <= CREATE_LINK_CODE t.1 t.2 < 256) /\ EXTRACT_LINK (CREATE_LINK_CODE t.1 t.2) = t.2 /\
    EXTRACT_STATUS (CREATE_LINK_CODE t.1 t.2) = t.1) block_types) as F.
  { apply (bool_decide_unpack _). by vm_compute. }
  rewrite Forall_forall in F. by apply F.
Qed.

Section reading.
Context (lost : list (loc * ip_addr)).

Lemma hello_entries_run t es : t ∈ block_types -> Forall link_fields_ok es -> forall fuel acc r, (length es <= fuel)%nat ->
  hello_entries lost fuel (entry_size * Z.of_nat (length es)) (CREATE_LINK_CODE t.1 t.2) acc (entries_bytes es ++ r) =
  Some (r, (reverse (kept lost t es) ++ acc, 0)).
Proof.
  intros Ht. destruct (block_types_code t Ht) as (_ & E1 & E2). pose proof ipsize_pos as Hip.
  assert (He : 0 < entry_size) by (unfold entry_size; lia).
  induction 1 as [|l es [Hl Hlq] _ IH]; intros fuel acc r Hf.
  { unfold hello_entries. simpl length. rewrite Z.mul_0_r. destruct fuel; (destruct (Z.leb_spec entry_size 0); [lia|]); done. }
  destruct fuel as [|fuel]; [simpl in Hf; lia|]. cbn [hello_entries]. destruct (Z.leb_spec entry_size (entry_size * Z.of_nat (length (l :: es)))); [|simpl length in *; nia].
  unfold entries_bytes, entry_bytes. rewrite fmap_cons. simpl mjoin. rewrite <- !app_assoc.
  unfold pkt_get_ipaddress. erewrite bind2_run by (apply pkt_bytes_run; rewrite length_take; lia).
  erewrite bind_run by reflexivity. unfold olsr_deserialize_hello_lq_pair.
  erewrite bind2_run by (by apply lq_get). erewrite bind_run by reflexivity. rewrite E1, E2.
  replace (entry_size * Z.of_nat (length (l :: es)) - entry_size) with (entry_size * Z.of_nat (length es)) by (simpl length; nia).
  unfold kept. rewrite fmap_cons, filter_cons. change (hn_addr (hn_of t l)) with (take ipsize (neighbor_iface_addr l.1) ++ drop ipsize (replicate 16 0)).
  simpl in Hf. destruct (is_lost_interface_ip lost _).
  - rewrite decide_False by done. apply IH. lia.
  - rewrite decide_True by done. rewrite reverse_cons, <- app_assoc. apply (IH fuel (hn_of t l :: acc)). lia.
Qed.

Lemma block_length t es : length (block_bytes t es) = match es with [] => O | _ => (4 + length (entries_bytes es))%nat end.
Proof. destruct es; [done|]. unfold block_bytes. rewrite !length_app, to_be_length. done. Qed.

Lemma hello_blocks_run ls ts : Forall link_fields_ok ls -> (forall t, t ∈ ts -> t ∈ block_types) ->
  Z.of_nat (length (all_blocks ls ts)) < 2 ^ 16 -> forall fuel acc r, (length (all_blocks ls ts) <= fuel)%nat ->
  hello_blocks lost fuel (Z.of_nat (length (all_blocks ls ts))) acc (all_blocks ls ts ++ r) =
  Some (r, reverse (mjoin ((fun t => kept lost t (matching ls t)) <$> ts)) ++ acc).
Proof.
  intros HL. induction ts as [|t ts IH]; intros Hts Hsz fuel acc r Hf.
  { by destruct fuel. }
  assert (Ht : t ∈ block_types) by (apply Hts; left). destruct (block_types_code t Ht) as (Hc & _).
  unfold all_blocks in *. rewrite !fmap_cons in *. simpl mjoin in *. rewrite length_app in *. rewrite block_length in *.
  destruct (matching ls t) as [|e es] eqn:Em; [apply IH; [intros; apply Hts; by right|lia|lia]|].
  assert (HE : Forall link_fields_ok (e :: es)) by (rewrite <- Em; apply Forall_forall; intros x [_ Hx]%list_elem_of_filter; rewrite Forall_forall in HL; by apply HL).
  pose proof (entries_length _ HE) as Hlen. set (B := entries_bytes (e :: es)) in *. set (R := mjoin _) in *.
  assert (Hs : is_u 16 (4 + Z.of_nat (length B))) by (split; lia).
  destruct fuel as [|fuel]; [lia|]. cbn [hello_blocks]. destruct (Z.ltb_spec 0 (Z.of_nat (4 + length B + length R))); [|lia].
  unfold block_bytes. rewrite <- !app_assoc. fold B.
  erewrite bind_run by (exact (proj1 (get_put_fields _ _) Hc)). erewrite bind_run by reflexivity.
  rewrite <- htons_bytes. erewrite bind_run by (exact (proj1 (proj2 (get_put_fields _ _)) Hs)).
  replace (4 + Z.of_nat (length B) - 4) with (entry_size * Z.of_nat (length (e :: es))) by lia.
  erewrite bind_run by (apply hello_entries_run; [done|done|]; unfold entry_size in *; pose proof ipsize_pos; nia).
  rewrite reverse_app, <- app_assoc. cbn [fst snd].
  replace (Z.of_nat (4 + length B + length R) - 4 - (entry_size * Z.of_nat (length (e :: es)) - 0)) with (Z.of_nat (length R)) by lia.
  apply IH; [intros; apply Hts; by right|lia|lia].
Qed.
End reading.

(** ** Whole messages *)
Section message.
Context (hello_validity hello_interval router_willingness message_seqno : Z) (router_id : ip_addr) (ls : list (link_entry * lq_data)).

Definition hello_fields_ok : Prop :=
  is_u 8 messageid_hello /\ is_u 32 hello_validity /\ is_u 32 hello_interval /\ is_u 8 router_willingness /\ is_u 16 message_seqno /\
  bytes router_id /\ (ipsize <= length router_id)%nat.

Definition hello_msg (size : Z) : olsr_message := mkMsg messageid_hello hello_validity size router_id 1 0 message_seqno 0 0 0.
Definition hello_payload : list Z :=
  to_le 2 (htons 0) ++ to_le 1 (olsr_clock_encode_olsrv1 hello_interval) ++ to_le 1 router_willingness ++ all_blocks ls block_types.
Definition hello_length : nat := (8 + ipsize + length hello_payload)%nat.

Lemma hello_msg_ok size : hello_fields_ok -> is_u 16 size -> msg_fields_ok ipsize (hello_msg size).
Proof. intros (? & ? & ? & ? & ? & ? & ?) ?. by split. Qed.

(** The message is written, with its size in the header, exactly if the buffer is
    large enough for it. *)
Lemma put_hello_run r : hello_fields_ok ->
  put_hello hello_validity hello_interval router_willingness message_seqno router_id ls ([], r) =
  if decide (hello_length <= length r)%nat
  then Some ((hdr_bytes ipsize (hello_msg (Z.of_nat hello_length)) ++ hello_payload, drop hello_length r), tt) else None.
Proof.
  intros Ok. assert (O0 : msg_fields_ok ipsize (hello_msg 0)) by (by apply hello_msg_ok).
  unfold put_hello. fold (hello_msg 0).
  pose (body := fun n : nat => (pkt_put_u16 0;; pkt_put_reltime hello_interval;; pkt_put_u8 router_willingness;;
      foldr (fun t m => put_block ls t;; m) (mret tt) block_types;; curr ← put_cursor; mret (n, curr)) : WR (nat * nat)).
  assert (W : forall n : nat, writes (body n) (hello_payload ++ []) (fun n0 => (n, (n0 + length hello_payload)%nat))).
  { intros n. unfold hello_payload. rewrite <- !app_assoc. eapply writes_ext.
    - do 3 (eapply writes_then; [apply writes_store|]). eapply writes_then; [apply put_blocks_writes|].
      eapply (writes_bind _ _ _ _ (fun n => n) (fun c _ => (n, c))); [apply writes_cursor|]. intros c. apply writes_ret.
    - done.
    - intros n0. simpl. f_equal. lia. }
  assert (WH := writes_bind _ body _ _ _ _ (put_msg_hdr_writes _ _ O0) (fun n => W (n + 2)%nat) [] r). cbn [length] in WH.
  rewrite app_nil_r in WH. rewrite length_app, (hdr_length _ _ O0) in WH. fold hello_length in WH.
  match type of WH with ?m _ = _ => transitivity ((x ← m; pkt_put_u16_at x.1 (Z.of_nat x.2)) ([], r)) end.
  { unfold body, mbind, se_bind. destruct (olsr_put_msg_hdr _ _ _) as [[s1 n]|]; [|done]. destruct (pkt_put_u16 0 s1) as [[s2 []]|]; [|done].
    destruct (pkt_put_reltime _ s2) as [[s3 []]|]; [|done]. destruct (pkt_put_u8 _ s3) as [[s4 []]|]; [|done].
    match goal with |- context [foldr ?f ?z block_types s4] => by destruct (foldr f z block_types s4) as [[s5 []]|] end. }
  unfold mbind at 1, se_bind at 1. rewrite WH. case_decide; [|done].
  change ([] ++ hdr_bytes ipsize (hello_msg 0) ++ hello_payload) with (hdr_bytes ipsize (hello_msg 0) ++ hello_payload).
  unfold hdr_bytes. rewrite <- !app_assoc. change (to_be 2 (m_size (hello_msg 0))) with [0; 0].
  pose proof (fix_length [] [m_type (hello_msg 0); olsr_clock_encode_olsrv1 (vtime (hello_msg 0))] 0 0) as F. simpl length in F.
  etransitivity; [apply F; done|]. done.
Qed.

(** The entries a neighbour reads, block by block, are those of all links. *)
Definition link_types (l : link_entry * lq_data) : Z * Z := (iflocal_neigh_status l.1, iflocal_link_status l.1).

Lemma kept_cons lost t l (es : list (link_entry * lq_data)) : kept lost t (l :: es) = kept lost t [l] ++ kept lost t es.
Proof. unfold kept. simpl. rewrite !filter_cons. by case_decide. Qed.

Lemma matching_types l es t : matching (l :: es) t = if decide (link_types l = t) then l :: matching es t else matching es t.
Proof.
  unfold matching, link_types. rewrite filter_cons. destruct t as [a b]. simpl. do 2 case_decide; try done.
  - destruct H as [? ?]. congruence.
  - simplify_eq. tauto.
Qed.

Lemma blocks_perm lost es ts : NoDup ts -> (forall l, l ∈ es -> link_types l ∈ ts) ->
  mjoin ((fun t => kept lost t (matching es t)) <$> ts) ≡ₚ mjoin ((fun l => kept lost (link_types l) [l]) <$> es).
Proof.
  intros ND. induction es as [|l es IH]; intros Hts.
  { simpl. clear. induction ts as [|t ts IH]; [done|]. done. }
  simpl. rewrite <- (IH (fun x Hx => Hts x (list_elem_of_further _ _ _ Hx))). specialize (Hts l ltac:(left)). clear IH.
  apply list_elem_of_split in Hts as (ts1 & ts2 & ->).
  assert (Hne : forall ts' : list (Z * Z), link_types l ∉ ts' -> (fun t => kept lost t (matching (l :: es) t)) <$> ts' = (fun t => kept lost t (matching es t)) <$> ts').
  { intros ts' Hn. apply list_fmap_ext. intros i t Ht. rewrite matching_types, decide_False; [done|]. intros <-.
    apply Hn. by eapply list_elem_of_lookup_2. }
  apply NoDup_app in ND as (_ & Hd & [Hn _]%NoDup_cons).
  rewrite !fmap_app, !fmap_cons, !join_app. simpl. rewrite matching_types, decide_True by done. rewrite kept_cons.
  rewrite (Hne ts1) by (intros H; apply (Hd _ H); left). rewrite (Hne ts2) by done. rewrite <- !app_assoc.
  by rewrite Permutation_app_swap_app.
Qed.

(** C14: A HELLO that [generate_hello] writes for its links fills the message
    buffer exactly as far as the size in its header says, and a neighbour that
    parses it reads one entry for every link, with the type, the address and
    the link quality of the link and the cost of that quality, less the
    entries of interfaces it has lost; it also reads the willingness and the
    coded HELLO interval, and it stops at the end of the message. *)
Theorem hello_roundtrip lost r rest curr old :
  hello_fields_ok -> Forall link_fields_ok ls -> (forall l, l ∈ ls -> link_types l ∈ block_types) ->
  length r = 1496%nat -> (hello_length <= 1496)%nat ->
  exists b v ht body msg ns,
    put_hello hello_validity hello_interval router_willingness message_seqno router_id ls ([], r) = Some ((b, drop hello_length r), tt) /\
    length b = hello_length /\
    olsr_clock_decode_olsrv1 (olsr_clock_encode_olsrv1 hello_validity) = Some v /\
    olsr_clock_decode_olsrv1 (olsr_clock_encode_olsrv1 hello_interval) = Some ht /\
    olsr_parse_msg_hdr ipsize curr old (b ++ rest) = Some (body, msg) /\
    m_type msg = messageid_hello /\ vtime msg = v /\ seqno msg = message_seqno /\ end_ msg = curr + Z.of_nat (length b) /\
    deserialize_hello lost (end_ msg - payload msg) body = Some (rest, mkHello ht router_willingness ns) /\
    ns ≡ₚ mjoin ((fun l => kept lost (link_types l) [l]) <$> ls).
Proof.
  intros Ok HL HT Hr Hlen. pose proof Ok as (Hid & Hv & Hi & Hw & Hs & Ho & Hol).
  assert (Hsz : is_u 16 (Z.of_nat hello_length)) by (split; lia). pose proof (hello_msg_ok _ Ok Hsz) as Om.
  destruct (proj1 vtime_codec _ (encode_byte _ Hv)) as (v & Ev & _). destruct (proj1 vtime_codec _ (encode_byte _ Hi)) as (ht & Eh & _).
  assert (El : length (hdr_bytes ipsize (hello_msg (Z.of_nat hello_length)) ++ hello_payload) = hello_length).
  { rewrite length_app, (hdr_length _ _ Om). done. }
  exists (hdr_bytes ipsize (hello_msg (Z.of_nat hello_length)) ++ hello_payload), v, ht, (hello_payload ++ rest).
  eexists _, (reverse (mjoin ((fun t => kept lost t (matching ls t)) <$> block_types)) ++ []).
  split; [rewrite put_hello_run by done; by rewrite decide_True by lia|]. do 3 (split; [done|]).
  split; [rewrite <- app_assoc; by apply parse_msg_hdr_bytes|]. simpl m_type. simpl vtime. simpl seqno. simpl end_. simpl payload.
  do 3 (split; [done|]). split; [by rewrite El|]. split.
  - unfold deserialize_hello, hello_payload. rewrite <- !app_assoc.
    erewrite bind_run by reflexivity. unfold pkt_get_reltime. erewrite bind2_run by (by apply pkt_bytes_run).
    rewrite byte_le by (by apply encode_byte). rewrite le_one. erewrite bind_run by (unfold se_opt; by rewrite Eh).
    erewrite bind_run by (exact (proj1 (get_put_fields _ _) Hw)).
    unfold hello_length, hello_payload in *. rewrite !length_app, !to_le_length in *.
    replace (curr + Z.of_nat _ - _ - 4) with (Z.of_nat (length (all_blocks ls block_types))) by lia.
    erewrite bind_run by (apply hello_blocks_run; [done|done|lia|lia]). done.
  - rewrite app_nil_r, reverse_Permutation. apply blocks_perm; [|done]. apply (bool_decide_unpack _). by vm_compute.
Qed.

(** [generate_hello] computes the end of its message buffer but never
    compares with it: if the links need more than the 1496 bytes of the buffer
    the message is written past its end. *)
Theorem hello_overflow r : hello_fields_ok -> length r = 1496%nat -> (1496 < hello_length)%nat ->
  put_hello hello_validity hello_interval router_willingness message_seqno router_id ls ([], r) = None.
Proof. intros Ok Hr Hl. rewrite put_hello_run by done. by rewrite decide_False by lia. Qed.
End message.

(** ** Messages from others *)
Lemma hello_entries_short lost code fuel : forall room acc r,
  room <= Z.of_nat fuel -> Z.of_nat (length r) < room / entry_size * entry_size -> hello_entries lost fuel room code acc r = None.
Proof.
  pose proof ipsize_pos as Hip. assert (He : 0 < entry_size) by (unfold entry_size; lia).
  induction fuel as [|fuel IH]; intros room acc r Hf Hr.
  { cbn [hello_entries]. destruct (Z.leb_spec entry_size room); [done|]. assert (room / entry_size <= 0) by (apply Z.lt_succ_r, Z.div_lt_upper_bound; lia). nia. }
  cbn [hello_entries]. destruct (Z.leb_spec entry_size room) as [Hle|Hgt].
  2: { assert (room / entry_size <= 0) by (apply Z.lt_succ_r, Z.div_lt_upper_bound; lia). nia. }
  destruct (decide (ipsize <= length r)%nat) as [H1|H1].
  2: { unfold pkt_get_ipaddress, mbind, se_bind, pkt_bytes. by rewrite decide_False. }
  unfold pkt_get_ipaddress. erewrite bind2_run by (unfold pkt_bytes; by rewrite decide_True by done). erewrite bind_run by reflexivity.
  unfold olsr_deserialize_hello_lq_pair. destruct (decide (lq_size <= length (drop ipsize r))%nat) as [H2|H2].
  2: { unfold mbind, se_bind. by rewrite lq_short by lia. }
  destruct (lq_reads lq_zero (drop ipsize r) H2) as (d & Hd). erewrite bind2_run by exact Hd. erewrite bind_run by reflexivity.
  assert (Hn : Z.of_nat (length (drop lq_size (drop ipsize r))) < (room - entry_size) / entry_size * entry_size).
  { rewrite !length_drop in *. replace ((room - entry_size) / entry_size) with (room / entry_size - 1); [unfold entry_size in *; nia|].
    replace (room - entry_size) with (room + (-1) * entry_size) by lia. rewrite Z.div_add by lia. lia. }
  destruct (is_lost_interface_ip _ _); apply IH; (lia || done).
Qed.

(** The size of a block of a HELLO is never compared with the end of the
    message: if a block announces more entries than there are bytes in the rest
    of the buffer, the parser reads past the end of the buffer, whatever the
    message says about its own size. *)
Theorem hello_overread lost (b0 b1 tm w code b2 size left : Z) (rest : list Z) :
  is_u 8 tm -> is_u 16 size -> 4 < left ->
  Z.of_nat (length rest) < (size - 4) / entry_size * entry_size ->
  deserialize_hello lost left ([b0; b1; tm; w; code; b2] ++ to_be 2 size ++ rest) = None.
Proof.
  intros Ht Hs Hl Hr. unfold deserialize_hello. destruct (proj1 vtime_codec _ Ht) as (v & Ev & _).
  rewrite <- htons_bytes. pose proof (proj1 (proj2 (get_put_fields size rest)) Hs) as Hsz. remember (to_le 2 (htons size)) as sz eqn:Esz. clear Esz.
  simpl app. erewrite bind_run by reflexivity. unfold pkt_get_reltime. erewrite bind2_run by reflexivity. simpl take. rewrite le_one.
  erewrite bind_run by (unfold se_opt; by rewrite Ev). erewrite bind_run by reflexivity.
  unfold mbind, se_bind at 1. destruct (Z.to_nat left) as [|fuel] eqn:Ef; [lia|]. cbn [hello_blocks].
  destruct (Z.ltb_spec 0 (left - 4)); [|lia].
  erewrite bind_run by reflexivity. erewrite bind_run by reflexivity. simpl drop.
  erewrite bind_run by exact Hsz.
  unfold mbind, se_bind. unfold is_u in Hs. rewrite hello_entries_short; [done|lia|done].
Qed.
End hello.

(** ** A HELLO with two links *)
Definition demo_link (b lt nt : Z) : link_entry * lq_data :=
  (mkLink ([10; 0; 0; 1] ++ replicate 12 0) ([10; 0; 0; b] ++ replicate 12 0) 1 None (Some 1%positive) 0 0 1 lt false false lt nt 0 None 0, mkFf 255 200).
Definition demo_links : list (link_entry * lq_data) := [demo_link 2 SYM_LINK MPR_NEIGH; demo_link 3 ASYM_LINK NOT_NEIGH].
Definition demo_id : ip_addr := [10; 0; 0; 1] ++ replicate 12 0.

Lemma demo_hello_fields : hello_fields_ok AF_INET 20000 5000 3 77 demo_id.
Proof. unfold hello_fields_ok, bytes, is_u. apply (bool_decide_unpack _). by vm_compute. Qed.

Lemma hello_roundtrip_witness : exists b v ht body msg ns,
  put_hello AF_INET 20000 5000 3 77 demo_id demo_links ([], replicate 1496 0) =
    Some ((b, drop (hello_length AF_INET 5000 3 demo_links) (replicate 1496 0)), tt) /\
  length b = hello_length AF_INET 5000 3 demo_links /\
  olsr_clock_decode_olsrv1 (olsr_clock_encode_olsrv1 20000) = Some v /\
  olsr_clock_decode_olsrv1 (olsr_clock_encode_olsrv1 5000) = Some ht /\
  olsr_parse_msg_hdr (hello_ipsize AF_INET) 4 [] (b ++ [1; 2]) = Some (body, msg) /\
  m_type msg = messageid_hello /\ vtime msg = v /\ seqno msg = 77 /\ end_ msg = 4 + Z.of_nat (length b) /\
  deserialize_hello AF_INET [] (end_ msg - payload msg) body = Some ([1; 2], mkHello ht 3 ns) /\
  ns ≡ₚ mjoin ((fun l => kept AF_INET [] (link_types l) [l]) <$> demo_links).
Proof.
  apply (hello_roundtrip AF_INET 20000 5000 3 77 demo_id demo_links [] (replicate 1496 0) [1; 2] 4 []); [apply demo_hello_fields| | |done|].
  - repeat constructor; simpl; lia.
  - intros l Hl. apply list_elem_of_In in Hl as [<-|[<-|[]]]; apply (bool_decide_unpack _); by vm_compute.
  - apply (bool_decide_unpack _). by vm_compute.
Defined.

Lemma hello_overflow_witness :
  put_hello AF_INET 20000 5000 3 77 demo_id (replicate 200 (demo_link 2 SYM_LINK MPR_NEIGH)) ([], replicate 1496 0) = None.
Proof. apply (hello_overflow AF_INET); [apply demo_hello_fields|done|]. apply (bool_decide_unpack _). by vm_compute. Defined.

Lemma hello_overread_witness :
  deserialize_hello AF_INET [] 8 ([0; 0; 5; 3; 6; 0] ++ to_be 2 20 ++ [10; 0; 0; 2; 255]) = None.
Proof. apply hello_overread; [done|done|done|]. by vm_compute. Defined.
