(* ===== verification/LinkOps.v ===== *)
(** * Link sensing ([link_set.c])

    A link is a pair of interfaces, one here and one of a neighbour, over which
    HELLOs arrive. It has three timers: it dies, it stops being symmetric, or a
    HELLO is missed. *)
From Stdlib Require Import String.
From S2P Require Import Prelude AvlSpec Trees Types Comparators IpCalc IpLists Memcookie Clock Timer DuplicateSet Packet NetOut Lsdb LqHandler LqEtxFf Neighborhood LinkSet TcGraph TcSet TcInv TcInput RoutingTable NodeSet NbrTable Hello.

Definition OLSR_RT_ORIGIN_LINK : Z := 4.
Definition OLSR_LINK_JITTER : Z := 5.
Definition OLSR_LINK_SYM_JITTER : Z := 0.
Definition OLSR_LINK_LOSS_JITTER : Z := 0.
Definition LINK_LOSS_MULTIPLIER : Z := Z.shiftl 1 16.
Definition NEIGHB_HOLD_TIME : Z := 10 * 2000.

Section link_ops.
Context `{LQ : LqHandler} {LL : LqLinks} `{KE : RouteExport} (rnd : nat -> Z) (ip_version lq_nat_thresh : Z) (router_id : ip_addr) (tc_redundancy : Z).
(** The names of the interfaces, and the configured interfaces with their multipliers. *)
Context (int_name : loc -> option string) (if_configs : list (option loc * list (ip_addr * Z))).
Abbreviation M := (SE sensing).
Abbreviation comp := (avl_comp_default ip_version).
Abbreviation hostlen := (8 * Z.of_nat (tc_ipsize ip_version)).

#[global] Instance sensing_has_net : HasNet sensing := {|
  get_net := fun s => t_net (sn_topo s);
  put_net := fun N s => with_st (put_net N (sn_topo s)) s;
  get_put_net := fun _ _ => eq_refl; put_put_net := fun _ _ _ => eq_refl |}.

(** ** Memory *)
Definition with_head (L : list loc) (K : gmap loc link_entry) (w : neighborhood) : neighborhood :=
  mkNbh (nbr_tree w) (nbrs w) (nbr2_tree w) (nbr2s w) (nbr_cons w) L K (mid_tree w) (mids w) (nh_lsdb w).
Definition ext_rd (p : loc) : M link_ext := fun s => (fun e => (s, e)) <$> link_exts s !! p.
Definition ext_wr (p : loc) (g : link_ext -> link_ext) : M unit := fun s =>
  (fun e => (with_exts (<[p := g e]> (link_exts s)) s, tt)) <$> link_exts s !! p.
(** The link leaves the list and is freed. *)
Definition free_link (p : loc) : M unit :=
  on_w (fun w => (fun _ => (with_head (filter (fun q => q <> p) (link_entry_head w)) (delete p (links w)) w, tt)) <$> links w !! p);;
  se_mod (fun s => with_exts (delete p (link_exts s)) s).

Definition set_link_timer (h : option loc) (l : link_entry) : link_entry :=
  mkLink (local_iface_addr l) (neighbor_iface_addr l) (inter l) h (link_sym_timer l) (ASYM_time l) (link_vtime l) (link_neighbor l) (link_status l)
    (link_is_mpr l) (link_is_mprs l) (iflocal_link_status l) (iflocal_neigh_status l) (loss_helloint l) (link_loss_timer l) (linkcost l).
Definition set_sym_timer (h : option loc) (l : link_entry) : link_entry :=
  mkLink (local_iface_addr l) (neighbor_iface_addr l) (inter l) (link_timer l) h (ASYM_time l) (link_vtime l) (link_neighbor l) (link_status l)
    (link_is_mpr l) (link_is_mprs l) (iflocal_link_status l) (iflocal_neigh_status l) (loss_helloint l) (link_loss_timer l) (linkcost l).
Definition set_loss_timer (h : option loc) (l : link_entry) : link_entry :=
  mkLink (local_iface_addr l) (neighbor_iface_addr l) (inter l) (link_timer l) (link_sym_timer l) (ASYM_time l) (link_vtime l) (link_neighbor l)
    (link_status l) (link_is_mpr l) (link_is_mprs l) (iflocal_link_status l) (iflocal_neigh_status l) (loss_helloint l) h (linkcost l).
Definition set_link_times (a v : Z) (l : link_entry) : link_entry :=
  mkLink (local_iface_addr l) (neighbor_iface_addr l) (inter l) (link_timer l) (link_sym_timer l) a v (link_neighbor l) (link_status l)
    (link_is_mpr l) (link_is_mprs l) (iflocal_link_status l) (iflocal_neigh_status l) (loss_helloint l) (link_loss_timer l) (linkcost l).
Definition set_link_neighbor (n : loc) (l : link_entry) : link_entry :=
  mkLink (local_iface_addr l) (neighbor_iface_addr l) (inter l) (link_timer l) (link_sym_timer l) (ASYM_time l) (link_vtime l) n (link_status l)
    (link_is_mpr l) (link_is_mprs l) (iflocal_link_status l) (iflocal_neigh_status l) (loss_helloint l) (link_loss_timer l) (linkcost l).
Definition set_link_status (st : Z) (l : link_entry) : link_entry :=
  mkLink (local_iface_addr l) (neighbor_iface_addr l) (inter l) (link_timer l) (link_sym_timer l) (ASYM_time l) (link_vtime l) (link_neighbor l) st
    (link_is_mpr l) (link_is_mprs l) (iflocal_link_status l) (iflocal_neigh_status l) (loss_helloint l) (link_loss_timer l) (linkcost l).
Definition set_link_is_mprs (b : bool) (l : link_entry) : link_entry :=
  mkLink (local_iface_addr l) (neighbor_iface_addr l) (inter l) (link_timer l) (link_sym_timer l) (ASYM_time l) (link_vtime l) (link_neighbor l)
    (link_status l) (link_is_mpr l) b (iflocal_link_status l) (iflocal_neigh_status l) (loss_helloint l) (link_loss_timer l) (linkcost l).
Definition set_loss_helloint (v : Z) (l : link_entry) : link_entry :=
  mkLink (local_iface_addr l) (neighbor_iface_addr l) (inter l) (link_timer l) (link_sym_timer l) (ASYM_time l) (link_vtime l) (link_neighbor l)
    (link_status l) (link_is_mpr l) (link_is_mprs l) (iflocal_link_status l) (iflocal_neigh_status l) v (link_loss_timer l) (linkcost l).
Definition set_linkcost (c : Z) (l : link_entry) : link_entry :=
  mkLink (local_iface_addr l) (neighbor_iface_addr l) (inter l) (link_timer l) (link_sym_timer l) (ASYM_time l) (link_vtime l) (link_neighbor l)
    (link_status l) (link_is_mpr l) (link_is_mprs l) (iflocal_link_status l) (iflocal_neigh_status l) (loss_helloint l) (link_loss_timer l) c.
(** [linkcount] has 32 bits, [mprs_count] is a bit field of 16. *)
Definition set_linkcount (c : Z) (n : nbr_entry) : nbr_entry :=
  mkNbr (nbr_addr n) (nbr_tc_edge n) (willingness n) (is_sym n) (is_mpr n) (was_mpr n) (skip n) (mprs_count n) (u32 c) (nbr_con_tree n).
Definition set_mprs_count (c : Z) (n : nbr_entry) : nbr_entry :=
  mkNbr (nbr_addr n) (nbr_tc_edge n) (willingness n) (is_sym n) (is_mpr n) (was_mpr n) (skip n) (u16 c) (linkcount n) (nbr_con_tree n).
Definition set_willingness (v : Z) (n : nbr_entry) : nbr_entry :=
  mkNbr (nbr_addr n) (nbr_tc_edge n) v (is_sym n) (is_mpr n) (was_mpr n) (skip n) (mprs_count n) (linkcount n) (nbr_con_tree n).
Definition set_nbr_addr (a : ip_addr) (n : nbr_entry) : nbr_entry :=
  mkNbr a (nbr_tc_edge n) (willingness n) (is_sym n) (is_mpr n) (was_mpr n) (skip n) (mprs_count n) (linkcount n) (nbr_con_tree n).

(** ** Deletion *)
Definition olsr_delete_link_entry (p : loc) : M unit :=
  l ← on_w (rd_link p);
  n ← on_w (rd_nbr (link_neighbor l));
  on_sn (on_rib (olsr_delete_routing_table ip_version lq_nat_thresh (neighbor_iface_addr l) hostlen (nbr_addr n) OLSR_RT_ORIGIN_LINK));;
  on_w (wr_nbr (link_neighbor l) (fun n => set_linkcount (linkcount n - 1) n));;
  (if link_is_mprs l then on_w (wr_nbr (link_neighbor l) (fun n => set_mprs_count (mprs_count n - 1) n)) else mret tt);;
  n ← on_w (rd_nbr (link_neighbor l));
  (if linkcount n =? 0 then olsr_delete_nbr_entry (link_neighbor l) else mret tt);;
  on_timers (olsr_timer_stop (link_timer l));;
  on_timers (olsr_timer_stop (link_sym_timer l));;
  on_timers (olsr_timer_stop (link_loss_timer l));;
  on_sn (on_rib (unlock_interface (Some (inter l))));;
  free_link p;;
  se_mod (set_changes_neighborhood true).

(** The loop fetches the successor before a link is deleted. *)
Fixpoint delete_links_of (ifp : loc) (L : list loc) : M unit :=
  match L with
  | [] => mret tt
  | p :: L =>
    l ← on_w (rd_link p);
    (if bool_decide (ifp = inter l) then olsr_delete_link_entry p else mret tt);;
    delete_links_of ifp L
  end.
Definition olsr_delete_link_entry_by_if (ifp : loc) : M unit :=
  L ← on_w (se_get link_entry_head); delete_links_of ifp L.

(** ** Timers *)
Definition olsr_lq_hello_handler (p : loc) (lost : bool) : M unit :=
  l ← on_w (rd_link p);
  e ← ext_rd p;
  let r := hello_handler lost (link_lq e, linkcost l) in
  ext_wr p (fun e => mkExt (if_name e) (loss_link_multiplier e) r.1);;
  on_w (wr_link p (set_linkcost r.2)).

Definition olsr_expire_link_loss_timer (p : loc) : M unit :=
  olsr_lq_hello_handler p true;;
  l ← on_w (rd_link p);
  on_timers (olsr_timer_change (link_loss_timer l) (loss_helloint l) OLSR_LINK_LOSS_JITTER).

Definition olsr_expire_link_sym_timer (p : loc) : M unit :=
  on_w (wr_link p (set_sym_timer None));;
  l ← on_w (rd_link p);
  if negb (link_status l =? SYM_LINK) then mret tt
  else
    nw ← se_get (fun s => now (get_timers s));
    st ← on_w (lookup_link_status nw (Some p));
    on_w (wr_link p (set_link_status st));;
    olsr_update_nbr_status ip_version tc_redundancy (link_neighbor l);;
    se_mod (set_changes_neighborhood true).

Definition olsr_expire_link_hello_timer (p : loc) : M unit :=
  l ← on_w (rd_link p);
  olsr_update_nbr_status ip_version tc_redundancy (link_neighbor l).

Definition olsr_expire_link_entry (p : loc) : M unit :=
  on_w (wr_link p (set_link_timer None));;
  olsr_delete_link_entry p.

Definition olsr_set_link_timer (p : loc) (rel_timer : Z) : M unit :=
  l ← on_w (rd_link p);
  ti ← se_get link_dead_timer_info;
  h ← on_timers (olsr_timer_set rnd (link_timer l) rel_timer OLSR_LINK_JITTER p ti);
  on_w (wr_link p (set_link_timer h)).

(** ** Lookup and insertion *)

(** The multipliers of the interface: the last one for the address, or the
    last default before. *)
Fixpoint find_multiplier (ms : list (ip_addr * Z)) (addr : ip_addr) (val : Z) : Z :=
  match ms with
  | [] => val
  | (a, v) :: ms =>
    find_multiplier ms addr
      (if ((val =? 0) && (ipcmp ip_version a all_zero =? 0)) || (ipcmp ip_version a addr =? 0) then v else val)
  end.
(** Without a configuration of the interface a null pointer is used. *)
Definition set_loss_link_multiplier (local_iface_addr neighbor_iface_addr : ip_addr) : M Z :=
  i ← if_ifwithaddr ip_version local_iface_addr;
  cfg ← se_opt (head (filter (fun c => c.1 = i) if_configs));
  let val := find_multiplier cfg.2 neighbor_iface_addr 0 in
  mret (if val =? 0 then LINK_LOSS_MULTIPLIER else val).

(** The address of a neighbour is the key of its node in [nbr_tree] and of its
    connectors: writing it changes the keys where they are. *)
Definition rekey (P : loc -> bool) (a : ip_addr) (L : list (loc * ip_addr)) : list (loc * ip_addr) :=
  (fun e => if P e.1 then (e.1, a) else e) <$> L.
Definition wr_nbr_addr (p : loc) (a : ip_addr) : M unit :=
  on_w (wr_nbr p (set_nbr_addr a));;
  on_w (se_mod (fun w => with_nbr (rekey (fun q => bool_decide (q = p)) a (nbr_tree w)) (nbrs w) w));;
  on_w (se_mod (fun w => with_nbr2 (nbr2_tree w)
    ((fun m => set_nbr2_cons (rekey (fun c => bool_decide ((con_nbr <$> nbr_cons w !! c) = Some p)) a (nbr2_con_tree m)) m) <$> nbr2s w) w)).

(** [strcmp] of a null pointer goes wrong. *)
Definition same_interface (e : link_ext) (l : link_entry) (local : loc) : M bool :=
  match if_name e with
  | Some a => b ← se_opt (int_name local); mret (bool_decide (a = b))
  | None => i ← rd_if local; mret (ipcmp ip_version (if_ip i) (local_iface_addr l) =? 0)
  end.
Fixpoint lookup_link (remote : ip_addr) (remote_main : option ip_addr) (local : loc) (L : list loc) : M (option loc) :=
  match L with
  | [] => mret None
  | p :: L =>
    l ← on_w (rd_link p);
    e ← ext_rd p;
    b ← (if ipcmp ip_version remote (neighbor_iface_addr l) =? 0 then same_interface e l local else mret false);
    if b : bool then
      (match remote_main with
       | Some a =>
         n ← on_w (rd_nbr (link_neighbor l));
         if negb (ipcmp ip_version a (nbr_addr n) =? 0) then wr_nbr_addr (link_neighbor l) a else mret tt
       | None => mret tt
       end);;
      mret (Some p)
    else lookup_link remote remote_main local L
  end.
Definition lookup_link_entry (remote : ip_addr) (remote_main : option ip_addr) (local : loc) : M (option loc) :=
  L ← on_w (se_get link_entry_head); lookup_link remote remote_main local L.
(** [add_link_entry]. The entry is written into memory when its neighbour is
    known: the calls before do not read it. *)
Definition add_link_entry (local remote remote_main : ip_addr) (vtime htime : Z) (local_if : loc) : M loc :=
  link ← lookup_link_entry remote (Some remote_main) local_if;
  match link with
  | Some p => mret p
  | None =>
    p ← se_get (fun s => fresh (dom (links (sn_w s))));
    on_sn (on_rib (lock_interface (Some local_if)));;
    dead ← se_get link_dead_timer_info;
    t ← on_timers (olsr_timer_set rnd None vtime OLSR_LINK_JITTER p dead);
    loss ← se_get link_loss_timer_info;
    lt ← on_timers (olsr_timer_set rnd None (u32 (htime + htime / 2)) OLSR_LINK_LOSS_JITTER p loss);
    mult ← set_loss_link_multiplier local remote;
    nbr ← on_w_get (olsr_lookup_nbr_entry ip_version remote_main true);
    nbr ← (match nbr with Some n => mret n | None => olsr_add_nbr_entry ip_version router_id remote_main end);
    n ← on_w (rd_nbr nbr);
    se_assert (bool_decide (is_Some (nbr_tc_edge n)));;
    on_w (wr_nbr nbr (fun n => set_linkcount (linkcount n + 1) n));;
    on_w (se_mod (fun w => with_head (link_entry_head w ++ [p])
      (<[p := mkLink local remote local_if t None 0 0 nbr ASYM_LINK false false 0 0 htime lt LINK_COST_BROKEN]> (links w)) w));;
    se_mod (fun s => with_exts (<[p := mkExt (int_name local_if) mult clear_link_entry]> (link_exts s)) s);;
    on_st (olsr_insert_routing_table ip_version router_id remote hostlen remote_main OLSR_RT_ORIGIN_LINK);;
    se_mod (set_changes_neighborhood true);;
    mret p
  end.

(** [update_link_entry]; the message comes from [originator] and is valid for [vtime]. *)
Definition update_link_entry (local remote : ip_addr) (originator : ip_addr) (vtime : Z) (message : lq_hello_message) (in_if : loc) : M loc :=
  p ← add_link_entry local remote originator vtime (htime message) in_if;
  nw ← se_get (fun s => now (get_timers s));
  on_w (wr_link p (set_link_times (olsr_clock_getAbsolute nw vtime) vtime));;
  i ← rd_if in_if;
  let st := check_link_status ip_version message (if_ip i) in
  on_w (wr_link p (set_link_status st));;
  l ← on_w (rd_link p);
  (if st =? LOST_LINK then
     on_timers (olsr_timer_stop (link_sym_timer l));;
     on_w (wr_link p (set_sym_timer None))
   else if (st =? SYM_LINK) || (st =? ASYM_LINK) then
     ti ← se_get link_sym_timer_info;
     h ← on_timers (olsr_timer_set rnd (link_sym_timer l) vtime OLSR_LINK_SYM_JITTER p ti);
     on_w (wr_link p (set_sym_timer h));;
     olsr_set_link_timer p (u32 (vtime + NEIGHB_HOLD_TIME))
   else mret tt);;
  l ← on_w (rd_link p);
  (match link_timer l with
   | Some h =>
     t ← on_timers (rd_timer h);
     if timer_clock t <? ASYM_time l then olsr_set_link_timer p (u32 (olsr_clock_getRelative nw (ASYM_time l))) else mret tt
   | None => mret tt
   end);;
  olsr_update_nbr_status ip_version tc_redundancy (link_neighbor l);;
  mret p.

Fixpoint replace_neighbors (old new : loc) (L : list loc) (retval : Z) : NM Z :=
  match L with
  | [] => mret retval
  | p :: L =>
    l ← rd_link p;
    if bool_decide (link_neighbor l = old) then
      wr_link p (set_link_neighbor new);; replace_neighbors old new L (retval + 1)
    else replace_neighbors old new L retval
  end.
Definition replace_neighbor_link_set (old new : loc) : NM Z :=
  L ← se_get link_entry_head; replace_neighbors old new L 0.

Definition olsr_update_packet_loss_hello_int (p : loc) (loss_hello_int : Z) : M unit :=
  on_w (wr_link p (set_loss_helloint loss_hello_int)).
Definition olsr_update_packet_loss (p : loc) : M unit :=
  olsr_lq_hello_handler p false;;
  l ← on_w (rd_link p);
  ti ← se_get link_loss_timer_info;
  h ← on_timers (olsr_timer_set rnd (link_loss_timer l) (u32 (loss_helloint l + loss_helloint l / 2)) OLSR_LINK_LOSS_JITTER p ti);
  on_w (wr_link p (set_loss_timer h)).

(** ** The cost of a neighbour ([lq_plugin.c]) *)
Definition olsr_neighbor_cost_may_changed (nbr : loc) : M unit :=
  nw ← se_get (fun s => now (get_timers s));
  link ← on_w (get_best_link_to_neighbor nw (Some nbr));
  n ← on_w (rd_nbr nbr);
  edge ← se_opt (nbr_tc_edge n);
  cq ← (match link with
        | Some p => l ← on_w (rd_link p); e ← ext_rd p; mret (linkcost l, lq_of_link (link_lq e))
        | None => mret (LINK_COST_BROKEN, lq_zero)
        end);
  e ← on_st (edge_rd edge);
  on_st (se_mod (fun w => with_lq (<[edge := cq.2]> (t_lq w)) w));;
  if negb (cost e =? cq.1) then
    on_st (edge_wr edge (set_edge_cost cq.1));;
    se_mod (set_changes_neighborhood true);;
    on_st (se_mod (set_changes_topology true));;
    se_mod (signal_link_changes true)
  else mret tt.
Fixpoint costs_may_changed (L : list (loc * ip_addr)) : M unit :=
  match L with
  | [] => mret tt
  | e :: L => olsr_neighbor_cost_may_changed e.1;; costs_may_changed L
  end.
Definition all_costs_may_changed : M unit := L ← on_w (se_get nbr_tree); costs_may_changed L.

Definition olsr_memorize_foreign_hello_lq (p : loc) (foreign : option lq_data) : M unit :=
  ext_wr p (fun e => mkExt (if_name e) (loss_link_multiplier e) (memorize_foreign_hello foreign (link_lq e))).
End link_ops.
