(* ===== verification/LinkProps.v ===== *)
(** * The cost of a neighbour ([olsr_neighbor_cost_may_changed])

    The edge from this router to a neighbour carries the cost and the quality
    of the best link to it. *)
From Stdlib Require Import String.
From S2P Require Import Prelude AvlSpec Trees Types Comparators IpCalc Memcookie Clock Timer NetOut Lsdb LqHandler LqEtxFf Neighborhood LinkSet TcGraph TcSet TcInv TcInput TcProps RoutingTable RibUpdate NodeSet HnaSet NbrTable NbrProps NbrEntry Hello LinkOps.

Section link_props.
Context `{LQ : LqHandler} {LL : LqLinks} `{KE : RouteExport} (ip_version : Z).
Abbreviation comp := (avl_comp_default ip_version).
Abbreviation nbrs_ok := (nbrs_ok ip_version).

(** Every link of the list has the plugin's part. *)
Definition exts_ok (s : sensing) : Prop := forall p, p ∈ link_entry_head (sn_w s) -> is_Some (link_exts s !! p).

(** What the edge gets from the best link. *)
Definition link_value (s : sensing) (r : option loc) : option (Z * lq_data) :=
  match r with
  | Some p => l ← links (sn_w s) !! p; e ← link_exts s !! p; Some (linkcost l, lq_of_link (link_lq e))
  | None => Some (LINK_COST_BROKEN, lq_zero)
  end.

(** The state with the new cost and quality of an edge; [b]: the cost has changed. *)
Definition put_cost (e : loc) (x : tc_edge_entry) (v : Z * lq_data) (b : bool) (s : sensing) : sensing :=
  let w := with_lq (<[e := v.2]> (t_lq (sn_topo s))) (with_tdb (with_edges (<[e := set_edge_cost v.1 x]> (edges (tdb (sn_topo s)))) (tdb (sn_topo s))) (sn_topo s)) in
  if b then signal_link_changes true (set_changes_neighborhood true (with_st (set_changes_topology true w) s)) else with_st w s.

Lemma nbr_cost_run me s p n : nbrs_ok me s -> links_ok (sn_w s) -> exts_ok s -> nbrs (sn_w s) !! p = Some n ->
  exists r v e x, olsr_neighbor_cost_may_changed p s = Some (put_cost e x v (negb (cost x =? v.1)) s, tt) /\
    best_link_of (sn_w s) p r /\ link_value s r = Some v /\ nbr_tc_edge n = Some e /\ edges (tdb (sn_topo s)) !! e = Some x /\ neighbor x = Some p.
Proof.
  intros N Lo Eo Hp. destruct (nb_edge _ _ _ N p n Hp) as (e & x & En & He & Hx & _).
  unfold olsr_neighbor_cost_may_changed. erewrite bind_run by reflexivity.
  destruct (get_best_link_run (now (get_timers s)) (sn_w s) p Lo) as (r & R & B). erewrite bind_run by (by apply on_w_same, R).
  erewrite bind_run by (apply on_w_same; unfold rd_nbr; by rewrite Hp). rewrite En. erewrite bind_run by reflexivity.
  assert (exists v, link_value s r = Some v) as [v Hv].
  { destruct r as [q|]; [|by eexists]. destruct B as (l & (Hq & Hl & _) & _). destruct (Eo q Hq) as [ex Hex].
    simpl. rewrite Hl. simpl. rewrite Hex. by eexists. }
  exists r, v, e, x. split; [|done].
  erewrite (bind_run _ _ s s v).
  2: { destruct r as [q|]; simpl in Hv |- *; [|by simplify_eq]. destruct (links (sn_w s) !! q) as [l|] eqn:Hl; [|done]. simpl in Hv.
       destruct (link_exts s !! q) as [ex|] eqn:Hex; [|done]. simpl in Hv. simplify_eq.
       erewrite bind_run by (by apply on_w_same, rd_link_run). erewrite bind_run; [reflexivity|]. unfold ext_rd. by rewrite Hex. }
  erewrite bind_run by (apply on_st_get; unfold edge_rd; by rewrite He). erewrite bind_run by (by apply on_st_run).
  destruct (Z.eqb_spec (cost x) v.1) as [Ec|Ec]; simpl.
  - unfold put_cost, mret, se_ret. f_equal. f_equal. f_equal. rewrite (insert_id (edges _) e); [|rewrite <- Ec; unfold tdb in *; rewrite He; by destruct x].
    by destruct (sn_topo s) as [[? ? ? ? ? ? ? ? ? []]].
  - erewrite bind_run. 2: { apply on_st_run. unfold edge_wr. simpl. unfold tdb in He |- *. simpl. rewrite He. simpl. reflexivity. }
    erewrite bind_run by reflexivity. erewrite bind_run by reflexivity. unfold put_cost. reflexivity.
Qed.

(** The edges change in their costs alone. *)
Record cost_frame (s s' : sensing) : Prop := {
  cf_w : sn_w s' = with_ndb (tdb (sn_topo s')) (sn_w s);
  cf_exts : link_exts s' = link_exts s;
  cf_timers : get_timers s' = get_timers s;
  cf_edges : forall e, set_edge_cost 0 <$> edges (tdb (sn_topo s')) !! e = set_edge_cost 0 <$> edges (tdb (sn_topo s)) !! e;
  cf_tcs : tcs (tdb (sn_topo s')) = tcs (tdb (sn_topo s))
}.
Lemma cost_frame_refl s : cost_frame s s.
Proof. split; try done. unfold sn_w, tdb. by destruct (t_nbh (sn_topo s)). Qed.
Lemma cost_frame_trans s1 s2 s3 : cost_frame s1 s2 -> cost_frame s2 s3 -> cost_frame s1 s3.
Proof.
  intros [A1 A2 A3 A4 A5] [B1 B2 B3 B4 B5]. split; [by rewrite B1, A1|congruence..| |congruence]. intros e. by rewrite B4.
Qed.
Lemma frame_links s s' : cost_frame s s' -> links_ok (sn_w s) -> links_ok (sn_w s').
Proof. intros F. by rewrite (cf_w _ _ F). Qed.
Lemma frame_exts s s' : cost_frame s s' -> exts_ok s -> exts_ok s'.
Proof. intros F. unfold exts_ok. by rewrite (cf_w _ _ F), (cf_exts _ _ F). Qed.
Lemma frame_best s s' p r : cost_frame s s' -> best_link_of (sn_w s') p r <-> best_link_of (sn_w s) p r.
Proof. intros F. by rewrite (cf_w _ _ F). Qed.
Lemma frame_value s s' r : cost_frame s s' -> link_value s' r = link_value s r.
Proof. intros F. unfold link_value. by rewrite (cf_w _ _ F), (cf_exts _ _ F). Qed.

Lemma put_cost_edges e x v b s : edges (tdb (sn_topo (put_cost e x v b s))) = <[e := set_edge_cost v.1 x]> (edges (tdb (sn_topo s))).
Proof. by destruct b. Qed.
Lemma put_cost_lq e x v b s : t_lq (sn_topo (put_cost e x v b s)) = <[e := v.2]> (t_lq (sn_topo s)).
Proof. by destruct b. Qed.
Lemma put_cost_frame e x v b s : edges (tdb (sn_topo s)) !! e = Some x -> cost_frame s (put_cost e x v b s).
Proof.
  intros He. split; [by destruct b..| |by destruct b]. intros e'. rewrite put_cost_edges. destruct (decide (e' = e)) as [->|Hn].
  - by rewrite lookup_insert_eq, He.
  - by rewrite lookup_insert_ne.
Qed.

Lemma put_cost_ok me e x v b s : nbrs_ok me s -> edges (tdb (sn_topo s)) !! e = Some x -> nbrs_ok me (put_cost e x v b s).
Proof.
  intros [N1 N2 N3 N4 N4' N5 N6] He. split.
  - by destruct b; apply cons_ndb.
  - by destruct b.
  - split; [|rewrite put_cost_lq, put_cost_edges, !dom_insert_L, (ok_lq _ _ N3); done].
    replace (shape (tdb (sn_topo (put_cost e x v b s)))) with (shape (tdb (sn_topo s))) by (unfold shape; rewrite put_cost_edges, (edge_core_upd _ e x) by done; by destruct b).
    apply N3.
  - by destruct b.
  - by destruct b.
  - intros p n Hp. destruct (N5 p n) as (e' & x' & E1 & E2 & E3); [by destruct b|]. rewrite put_cost_edges. destruct (decide (e' = e)) as [->|Hn].
    + rewrite E2 in He. simplify_eq. exists e. eexists. split; [done|]. by rewrite lookup_insert_eq.
    + exists e', x'. split; [done|]. by rewrite lookup_insert_ne.
  - intros e' x' p. rewrite put_cost_edges. intros [[<- <-]|[Hn He']]%lookup_insert_Some Hx.
    + destruct (N6 e x p He Hx) as (n & H). exists n. by destruct b.
    + destruct (N6 e' x' p He' Hx) as (n & H). exists n. by destruct b.
Qed.

(** ** All neighbours *)

(** The edge of the neighbour has the value of the best link to it. *)
Definition costed (s : sensing) (p : loc) : Prop := exists n r v e x, nbrs (sn_w s) !! p = Some n /\ best_link_of (sn_w s) p r /\ link_value s r = Some v /\ nbr_tc_edge n = Some e /\ edges (tdb (sn_topo s)) !! e = Some x /\ neighbor x = Some p /\ cost x = v.1 /\ t_lq (sn_topo s) !! e = Some v.2.
(** A change of a cost is reported. *)
Definition flags (s : sensing) : bool * bool * bool := (changes_neighborhood s, changes_topology (sn_topo s), link_changes s).
Definition reported (s s' : sensing) : Prop := (flags s' = (true, true, true)) \/
  (flags s' = flags s) /\ forall e, cost <$> edges (tdb (sn_topo s')) !! e = cost <$> edges (tdb (sn_topo s)) !! e.

Lemma put_cost_reported e x v s : edges (tdb (sn_topo s)) !! e = Some x -> reported s (put_cost e x v (negb (cost x =? v.1)) s).
Proof.
  intros He. destruct (Z.eqb_spec (cost x) v.1) as [E|E]; [|by left]. right. split; [done|]. intros e'. rewrite put_cost_edges.
  destruct (decide (e' = e)) as [->|Hn]; [|by rewrite lookup_insert_ne]. rewrite lookup_insert_eq, He. simpl. by rewrite E.
Qed.
Lemma reported_trans s1 s2 s3 : reported s1 s2 -> reported s2 s3 -> reported s1 s3.
Proof.
  intros H12 [H|[F C]]; [by left|]. destruct H12 as [H|[F' C']]; [left; congruence|]. right. split; [congruence|]. intros e. by rewrite C.
Qed.

Lemma costs_run me L : forall s, nbrs_ok me s -> links_ok (sn_w s) -> exts_ok s -> (forall p, p ∈ L.*1 -> is_Some (nbrs (sn_w s) !! p)) ->
  exists s', costs_may_changed L s = Some (s', tt) /\ nbrs_ok me s' /\ cost_frame s s' /\ reported s s' /\ (forall p, p ∈ L.*1 -> costed s' p) /\
    forall e x, edges (tdb (sn_topo s)) !! e = Some x -> (forall p, p ∈ L.*1 -> neighbor x <> Some p) ->
      edges (tdb (sn_topo s')) !! e = Some x /\ t_lq (sn_topo s') !! e = t_lq (sn_topo s) !! e.
Proof.
  induction L as [|[p k] L IH]; intros s N Lo Eo Hin.
  { exists s. split; [done|]. split_and!; [done|apply cost_frame_refl|by right|by intros p ?%elem_of_nil|done]. }
  destruct (Hin p ltac:(by left)) as [n Hp]. destruct (nbr_cost_run me s p n N Lo Eo Hp) as (r & v & e & x & R & B & V & En & He & Hx).
  set (s1 := put_cost e x v _ s) in R. assert (F : cost_frame s s1) by (by apply put_cost_frame).
  assert (Enb : nbrs (sn_w s1) = nbrs (sn_w s)) by (by rewrite (cf_w _ _ F)).
  destruct (IH s1) as (s' & R' & N' & F' & Rp & C' & O'); [by apply put_cost_ok|by eapply frame_links|by eapply frame_exts| |].
  { intros q Hq. rewrite Enb. apply Hin. by right. }
  exists s'. split; [cbn [costs_may_changed]; by erewrite bind_run by exact R|]. split; [done|]. split; [by eapply cost_frame_trans|].
  split; [eapply reported_trans; [by apply put_cost_reported|done]|]. split.
  - intros q [->|Hq]%elem_of_cons; [|by apply C']. simpl. destruct (decide (p ∈ L.*1)) as [Hq|Hq]; [by apply C'|].
    destruct (O' e (set_edge_cost v.1 x)) as [O1 O2]; [by unfold s1; rewrite put_cost_edges, lookup_insert_eq| |].
    { intros q Hq' Hxq. simpl in Hxq. congruence. }
    unfold s1 in O2. rewrite put_cost_lq, lookup_insert_eq in O2. exists n, r, v, e, (set_edge_cost v.1 x).
    assert (FF : cost_frame s s') by (by eapply cost_frame_trans).
    rewrite (frame_best _ _ _ _ FF), (frame_value _ _ _ FF). split_and!; try done. by rewrite (cf_w _ _ F'), <- Enb in *.
  - intros e' x' He' Hno. assert (Hne : e' <> e) by (intros ->; simplify_eq; by apply (Hno p); [left|]).
    destruct (O' e' x') as [O1 O2].
    + unfold s1. by rewrite put_cost_edges, lookup_insert_ne.
    + intros q Hq. apply Hno. by right.
    + split; [done|]. rewrite O2. unfold s1. by rewrite put_cost_lq, lookup_insert_ne.
Qed.

Lemma all_costs_run me s : nbrs_ok me s -> links_ok (sn_w s) -> exts_ok s ->
  exists s', all_costs_may_changed s = Some (s', tt) /\ nbrs_ok me s' /\ cost_frame s s' /\ reported s s' /\ (forall p n, nbrs (sn_w s) !! p = Some n -> costed s' p).
Proof.
  intros N Lo Eo. unfold all_costs_may_changed. erewrite bind_run by (by apply on_w_same).
  pose proof (cb_nbr_in _ _ _ _ _ (nb_cons _ _ _ N)) as Hin.
  destruct (costs_run me (nbr_tree (sn_w s)) s N Lo Eo) as (s' & R & N' & F & Rp & C & _).
  - intros p ([q k] & -> & H%Hin)%list_elem_of_fmap. unfold nbr_at in H. simpl. destruct (nbrs (sn_w s) !! q); [by eexists|done].
  - exists s'. split_and!; try done. intros p n Hp. apply C, list_elem_of_fmap. exists (p, nbr_addr n). split; [done|]. apply Hin. unfold nbr_at. by rewrite Hp.
Qed.
End link_props.
