(* ===== verification/FfPlugin.v ===== *)
(** * The link quality plugin at work ([lq_plugin_etx_ff.c])

    The plugin sees every packet, to count the received and the lost ones of its
    link, and runs once a second: it calculates the quality and the cost of
    every link, then the costs of the edges to the neighbours. *)
From Stdlib Require Import String.
From S2P Require Import Prelude AvlSpec Trees Types Comparators IpCalc Memcookie Clock Timer NetOut Lsdb LqHandler LqEtxFf Neighborhood LinkSet TcGraph TcSet TcInv TcInput TcProps RoutingTable RibUpdate NodeSet HnaSet NbrTable NbrProps NbrEntry Hello LinkOps LinkProps.

Section ff_plugin.
Context `{KE : RouteExport} (ip_version : Z).
Abbreviation M := (SE sensing).
Abbreviation nbrs_ok := (nbrs_ok ip_version).

Definition set_ext_lq (q : lq_etxff_link) (e : link_ext) : link_ext := mkExt (if_name e) (loss_link_multiplier e) q.

Definition lq_etxff_packet_parser (int_name : loc -> option string) (pkt_seqno : Z) (in_if : loc) (from_addr : ip_addr) : M unit :=
  main_addr ← on_w_get (olsr_lookup_main_addr_by_alias ip_version from_addr);
  lnk ← lookup_link_entry ip_version int_name from_addr main_addr in_if;
  match lnk with
  | None => mret tt
  | Some p =>
    e ← ext_rd p;
    l ← se_opt (ff_packet pkt_seqno (link_lq e));
    ext_wr p (set_ext_lq l)
  end.

(** The period of the timer of lost HELLOs is read if packets were counted. A
    missing timer is read as the period zero, for which there is no result then. *)
Definition loss_period (T : timer_st) (l : link_entry) : Z :=
  match link_loss_timer l with Some h => default 0 (timer_period <$> timers T !! h) | None => 0 end.
Fixpoint ff_timer_links (L : list loc) : M unit :=
  match L with
  | [] => mret tt
  | p :: L =>
    l ← on_w (rd_link p);
    e ← ext_rd p;
    T ← se_get get_timers;
    r ← se_opt (ff_second (loss_period T l) (loss_link_multiplier e) (link_lq e));
    ext_wr p (set_ext_lq r.1);;
    on_w (wr_link p (set_linkcost r.2));;
    ff_timer_links L
  end.
Definition lq_etxff_timer : M unit :=
  L ← on_w (se_get link_entry_head);
  ff_timer_links L;;
  all_costs_may_changed.

(** ** One link *)

(** The fields of the plugin's part of a link; nothing is said of the counters. *)
Record ff_shape (l : lq_etxff_link) : Prop := {
  fs_window : 0 <= windowSize l <= 64;
  fs_active : 0 <= activePtr l < 64;
  fs_rec : length (received l) = 64%nat;
  fs_tot : length (total l) = 64%nat;
  fs_seq : is_u 16 (last_seq_nr l);
  fs_missed : is_u 16 (missed_seconds l);
  fs_lq : ff_ok (ff_lq l)
}.

Lemma ff_inv_shape l : ff_inv l -> ff_shape l.
Proof. by intros []. Qed.

(** The packets counted in the window, and the HELLO intervals without one. *)
Definition ff_total (l : lq_etxff_link) : Z := sum (take (Z.to_nat (Z.min (windowSize l + 1) 64)) (total l)).
Definition ff_received (l : lq_etxff_link) : Z := sum (take (Z.to_nat (Z.min (windowSize l + 1) 64)) (received l)).
Definition ff_missed (period : Z) (l : lq_etxff_link) : Z := missed_seconds l / ((period + 999) / 1000).

(** The 16 bits of the sum are not zero, those of the sum with the penalty for
    lost HELLOs are. *)
Definition wraps_to_zero (period : Z) (l : lq_etxff_link) : Prop :=
  u16 (ff_total l) <> 0 /\ u16 (ff_total l + ff_missed period l * ff_missed period l) = 0.
#[global] Instance wraps_to_zero_dec period l : Decision (wraps_to_zero period l).
Proof. unfold wraps_to_zero. apply _. Defined.

Lemma window_sum_wraps n : forall l acc, (n <= length l)%nat -> window_sum n l acc = Some (if decide (n = 0%nat) then acc else u16 (acc + sum (take n l))).
Proof.
  induction n as [|n IH]; intros l acc Hn; [done|]. destruct l as [|x l]; [simpl in Hn; lia|]. simpl. rewrite IH by (simpl in Hn; lia). f_equal.
  destruct n as [|n]; simpl; unfold wrapu; [f_equal; lia|]. rewrite Z.add_mod_idemp_l by lia. f_equal. lia.
Qed.

Lemma ff_quality_cases R T missed period mult : is_u 16 missed -> 0 < period ->
  let m := missed / ((period + 999) / 1000) in
  if decide (u16 T <> 0 /\ u16 (T + m * m) = 0) then ff_quality R (u16 T) missed period mult = None
  else exists q, ff_quality R (u16 T) missed period mult = Some q /\ is_u 8 q.
Proof.
  unfold is_u. intros Hm Hp. cbv zeta. set (m := missed / ((period + 999) / 1000)). assert (Hs : 0 < (period + 999) / 1000) by (apply Z.div_str_pos; lia).
  assert (Hmr : 0 <= m < 2 ^ 16).
  { unfold m. split; [apply Z.div_pos; lia|]. apply Z.div_lt_upper_bound; [lia|]. nia. }
  unfold ff_quality. fold m. destruct (Z.eqb_spec (u16 T) 0) as [E|E].
  { rewrite decide_False by tauto. exists 0. split; [done|]. unfold is_u. lia. }
  destruct (Z.eqb_spec ((period + 999) / 1000) 0); [lia|]. rewrite (wrapu_id 32 (m * m)) by (unfold is_u; nia).
  assert (Ew : u16 (u16 T + m * m) = u16 (T + m * m)) by (unfold wrapu; by rewrite Z.add_mod_idemp_l by lia). rewrite Ew.
  destruct (Z.eqb_spec (u16 (T + m * m)) 0) as [E'|E']; [by rewrite decide_True|]. rewrite decide_False by tauto. eexists. split; [done|]. apply wrapu_range. lia.
Qed.

(** A second of a link: the only fault is the division by zero. *)
Lemma ff_second_cases period mult l : ff_shape l -> 0 < period ->
  if decide (wraps_to_zero period l) then ff_second period mult l = None
  else exists l', ff_second period mult l = Some (l', lq_etxff_calc_linkcost (ff_lq l')) /\ ff_shape l'.
Proof.
  intros [I1 I2 I3 I4 I6 I7 I8] Hp. unfold ff_second.
  assert (Hws : (if windowSize l <? LQ_FF_WINDOW then windowSize l + 1 else windowSize l) = Z.min (windowSize l + 1) 64).
  { unfold LQ_FF_WINDOW. destruct (Z.ltb_spec (windowSize l) 64); lia. }
  assert (Hsum : forall v, length v = 64%nat -> window_sum (Z.to_nat (Z.min (windowSize l + 1) 64)) v 0 = Some (u16 (sum (take (Z.to_nat (Z.min (windowSize l + 1) 64)) v)))).
  { intros v Hv. by rewrite window_sum_wraps, decide_False, Z.add_0_l by lia. }
  rewrite Hws, (Hsum _ I3), (Hsum _ I4). fold (ff_total l) (ff_received l). cbn [mbind option_bind].
  pose proof (ff_quality_cases (u16 (ff_received l)) (ff_total l) (missed_seconds l) period mult I7 Hp) as Q.
  cbv zeta in Q. destruct (decide (wraps_to_zero period l)) as [W|W]; [rewrite decide_True in Q by exact W; by rewrite Q|].
  rewrite decide_False in Q by exact W. destruct Q as (q & Eq & Hq). rewrite Eq. cbn [mbind option_bind].
  exists (mkFfLink (mkFf q (valueNlq (ff_lq l))) (Z.min (windowSize l + 1) 64) ((activePtr l + 1) mod LQ_FF_WINDOW) (last_seq_nr l) (u16 (missed_seconds l + 1))
    (arr_set ((activePtr l + 1) mod LQ_FF_WINDOW) 0 (received l)) (arr_set ((activePtr l + 1) mod LQ_FF_WINDOW) 0 (total l))).
  split; [reflexivity|]. assert (Hap : 0 <= (activePtr l + 1) mod LQ_FF_WINDOW < 64) by (unfold LQ_FF_WINDOW; apply Z.mod_pos_bound; lia).
  split; simpl; unfold arr_set; rewrite ?length_insert; try done; [lia|apply wrapu_range; lia|]. split; [done|]. apply I8.
Qed.

(** ** The links *)

(** A link has its plugin part and a timer of lost HELLOs. *)
Record ff_ready (s : sensing) (p : loc) (l : link_entry) (e : link_ext) : Prop := {
  fr_link : links (sn_w s) !! p = Some l;
  fr_ext : link_exts s !! p = Some e;
  fr_shape : ff_shape (link_lq e);
  fr_period : 0 < loss_period (get_timers s) l < 2 ^ 31
}.

(** A second passes for a link. If its counters fit into their 16 bits, the new
    quality is the fraction of received packets. *)
Definition ff_passed (s : sensing) (p : loc) (l : link_entry) (e : link_ext) (s' : sensing) : Prop :=
  exists q, let period := loss_period (get_timers s) l in let m := ff_missed period (link_lq e) in
    ff_second period (loss_link_multiplier e) (link_lq e) = Some (q, lq_etxff_calc_linkcost (ff_lq q)) /\ ff_shape q /\
    links (sn_w s') !! p = Some (set_linkcost (lq_etxff_calc_linkcost (ff_lq q)) l) /\ link_exts s' !! p = Some (set_ext_lq q e) /\
    (ff_inv (link_lq e) -> 0 <= loss_link_multiplier e <= 65536 -> ff_total (link_lq e) + m * m < 2 ^ 16 ->
      ff_inv q /\ valueLq (ff_lq q) = if decide (ff_total (link_lq e) = 0) then 0
        else (loss_link_multiplier e * ff_received (link_lq e) / (ff_total (link_lq e) + m * m) * 255) / 65536).

(** Dividing by zero for a link. *)
Definition divides_by_zero (s : sensing) (p : loc) : Prop := exists l e, ff_ready s p l e /\ wraps_to_zero (loss_period (get_timers s) l) (link_lq e).

Definition put_link (p : loc) (l : link_entry) (e : link_ext) (s : sensing) : sensing :=
  with_exts (<[p := e]> (link_exts s)) (with_w (with_links (<[p := l]> (links (sn_w s))) (sn_w s)) s).
(** The links and the plugin's parts change. *)
Definition links_only (s s' : sensing) : Prop := exists K X, s' = with_exts X (with_w (with_links K (sn_w s)) s) /\
  (forall p, is_Some (K !! p) <-> is_Some (links (sn_w s) !! p)) /\ (forall p, is_Some (X !! p) <-> is_Some (link_exts s !! p)).

Lemma nbrs_ok_links me s K X : nbrs_ok me s -> nbrs_ok me (with_exts X (with_w (with_links K (sn_w s)) s)).
Proof. intros [N1 N2 N3 N4 N4' N5 N6]. split; try done; try (by destruct N1); by destruct N3. Qed.
Lemma nbrs_ok_timers me s T : nbrs_ok me s -> cons_ok ip_version (nbr_connector_timer_info s) (sn_w s) T -> nbrs_ok me (put_timers T s).
Proof. intros [N1 N2 N3 N4 N4' N5 N6] C. split; try done; by destruct N3. Qed.
Lemma links_only_ok me s s' : links_only s s' -> nbrs_ok me s -> nbrs_ok me s'.
Proof. intros (K & X & -> & _ & _). by apply nbrs_ok_links. Qed.
Lemma links_only_links s s' : links_only s s' -> links_ok (sn_w s) -> links_ok (sn_w s').
Proof. intros (K & X & -> & H & _) Lo p Hp. apply H, Lo, Hp. Qed.
Lemma links_only_exts s s' : links_only s s' -> exts_ok s -> exts_ok s'.
Proof. intros (K & X & -> & _ & H) Lo p Hp. apply H, Lo, Hp. Qed.
Lemma links_only_refl s : links_only s s.
Proof. exists (links (sn_w s)), (link_exts s). split; [|done]. rewrite <- (with_w_self s) at 1. by destruct s as [[[[[]]]]]. Qed.
Lemma put_link_only s p l e s' : is_Some (links (sn_w s) !! p) -> is_Some (link_exts s !! p) -> links_only (put_link p l e s) s' -> links_only s s'.
Proof.
  intros Hl He (K & X & -> & HK & HX). exists K, X. split; [done|]. split; intros q.
  - rewrite HK. change (is_Some (<[p := l]> (links (sn_w s)) !! q) <-> is_Some (links (sn_w s) !! q)).
    destruct (decide (q = p)) as [->|Hn]; [by rewrite lookup_insert_eq|by rewrite lookup_insert_ne].
  - rewrite HX. change (is_Some (<[p := e]> (link_exts s) !! q) <-> is_Some (link_exts s !! q)).
    destruct (decide (q = p)) as [->|Hn]; [by rewrite lookup_insert_eq|by rewrite lookup_insert_ne].
Qed.

Lemma ff_ready_other s p l e p' l' e' : p' <> p -> ff_ready (put_link p l e s) p' l' e' <-> ff_ready s p' l' e'.
Proof.
  intros Hn. assert (E1 : links (sn_w (put_link p l e s)) !! p' = links (sn_w s) !! p') by (simpl; by rewrite lookup_insert_ne).
  assert (E2 : link_exts (put_link p l e s) !! p' = link_exts s !! p') by (simpl; by rewrite lookup_insert_ne).
  split; intros [A1 A2 A3 A4]; (split; [congruence|congruence|done..]).
Qed.

Lemma put_link_eq p l e s : links (sn_w (put_link p l e s)) !! p = Some l /\ link_exts (put_link p l e s) !! p = Some e.
Proof. split; apply lookup_insert_eq. Qed.

Lemma ff_link_run s p l e : ff_ready s p l e ->
  (divides_by_zero s p /\ forall L, ff_timer_links (p :: L) s = None) \/
  (~ divides_by_zero s p /\ exists q, let s1 := put_link p (set_linkcost (lq_etxff_calc_linkcost (ff_lq q)) l) (set_ext_lq q e) s in
    (forall L, ff_timer_links (p :: L) s = ff_timer_links L s1) /\
    (forall s', links (sn_w s') !! p = links (sn_w s1) !! p -> link_exts s' !! p = link_exts s1 !! p -> ff_passed s p l e s')).
Proof.
  intros F. pose proof F as [F1 F2 F3 F4]. pose proof (ff_second_cases (loss_period (get_timers s) l) (loss_link_multiplier e) _ F3 (proj1 F4)) as C.
  assert (Run : forall L, ff_timer_links (p :: L) s = (r ← se_opt (ff_second (loss_period (get_timers s) l) (loss_link_multiplier e) (link_lq e));
    ext_wr p (set_ext_lq r.1);; on_w (wr_link p (set_linkcost r.2));; ff_timer_links L) s).
  { intros L. match goal with |- _ = ?r => set (R := r) end. cbn [ff_timer_links]. erewrite bind_run by (by apply on_w_same, rd_link_run).
    erewrite bind_run by (unfold ext_rd; by rewrite F2). by erewrite bind_run by reflexivity. }
  case_decide as W; [left|right].
  - split; [by exists l, e|]. intros L. rewrite Run, C. done.
  - split; [intros (l' & e' & [G1 G2 _ _] & W'); simplify_eq; done|]. destruct C as (q & Eq & Sq). exists q. split.
    + intros L. rewrite Run, Eq. erewrite bind_run by reflexivity. erewrite bind_run by (unfold ext_wr; by rewrite F2). erewrite bind_run; [done|].
      unfold wr_link. by rewrite (on_w_run _ _ (with_links (<[p := set_linkcost (lq_etxff_calc_linkcost (ff_lq q)) l]> (links (sn_w s))) (sn_w s)) tt) by (by setoid_rewrite F1).
    + intros s' E1 E2. destruct (put_link_eq p (set_linkcost (lq_etxff_calc_linkcost (ff_lq q)) l) (set_ext_lq q e) s) as [L1 L2].
      rewrite L1 in E1. rewrite L2 in E2. exists q. split_and!; try done. intros Hi Hm Hc.
      destruct (ff_second_run _ _ _ Hi F4 Hm Hc) as (q' & Eq' & Iq & Vq & _). rewrite Eq in Eq'. injection Eq' as <-. done.
Qed.

Lemma divides_other s p l e p' : p' <> p -> divides_by_zero (put_link p l e s) p' <-> divides_by_zero s p'.
Proof. intros Hn. split; intros (l' & e' & F & W); exists l', e'; (split; [by eapply ff_ready_other|done]). Qed.

Lemma ff_links_run L : NoDup L -> forall s, (forall p, p ∈ L -> exists l e, ff_ready s p l e) ->
  ((exists p, p ∈ L /\ divides_by_zero s p) /\ ff_timer_links L s = None) \/
  ((forall p, p ∈ L -> ~ divides_by_zero s p) /\ exists s', ff_timer_links L s = Some (s', tt) /\ links_only s s' /\
    (forall p l e, p ∈ L -> ff_ready s p l e -> ff_passed s p l e s') /\
    (forall p, p ∉ L -> links (sn_w s') !! p = links (sn_w s) !! p /\ link_exts s' !! p = link_exts s !! p)).
Proof.
  induction 1 as [|p L Hp _ IH]; intros s Hr.
  { right. split; [set_solver|]. exists s. split; [done|]. split; [apply links_only_refl|]. split; [by intros ??? ?%elem_of_nil|done]. }
  destruct (Hr p ltac:(by left)) as (l & e & F). destruct (ff_link_run s p l e F) as [[D N]|(D & q & Run & Pass)].
  { left. split; [exists p; split; [by left|done]|apply N]. }
  cbv zeta in Run, Pass. set (s1 := put_link p (set_linkcost (lq_etxff_calc_linkcost (ff_lq q)) l) (set_ext_lq q e) s) in *.
  destruct (IH s1) as [[(p' & Hp' & D') N]|(D' & s' & R & O & P & U)].
  { intros p' Hp'. destruct (Hr p' ltac:(by right)) as (l' & e' & F'). exists l', e'. apply ff_ready_other; [set_solver|done]. }
  { left. split; [|by rewrite Run]. exists p'. split; [by right|]. eapply divides_other; [|exact D']. set_solver. }
  right. split; [|exists s'; split; [by rewrite Run|split; [|split]]].
  - intros p' [->|Hp']%elem_of_cons; [done|]. intros Dp. apply (D' p' Hp'). apply divides_other; [set_solver|done].
  - eapply put_link_only; [by rewrite (fr_link _ _ _ _ F)|by rewrite (fr_ext _ _ _ _ F)|done].
  - intros p' l' e' Hp' F'. destruct (decide (p' = p)) as [->|Hn].
    + assert (l' = l /\ e' = e) as [-> ->] by (destruct F, F'; by simplify_eq). apply Pass; apply (U p Hp).
    + assert (Ft : ff_passed s1 p' l' e' s'); [|exact Ft]. apply (P p' l' e'); [set_solver|by apply ff_ready_other].
  - intros p' Hp'. apply not_elem_of_cons in Hp' as [Hn Hp']. destruct (U p' Hp') as [-> ->]. unfold s1. simpl. by rewrite !lookup_insert_ne.
Qed.

(** C19: Once a second the plugin brings the costs up to date. If for some link
    the 16-bit sum of the packets of the window is not zero, but becomes zero
    when the square of the missed HELLO intervals is added, the plugin divides
    by zero. In every other case it finishes: every link gets the quality of the
    second that passed (the scaled fraction of received packets if the
    counters fit into 16 bits) and its cost, the neighbours and their tables
    stay consistent, and every neighbour's edge carries the cost and the quality
    of a cheapest symmetric link to it, or the cost of a broken link without
    one. If the cost of an edge has changed, the neighbourhood, the topology and
    the own announcement are marked as changed. Every link has its part of the
    plugin and a running timer of lost HELLOs with a positive period. *)
Theorem lq_timer_correct me s : nbrs_ok me s -> NoDup (link_entry_head (sn_w s)) ->
  (forall p, p ∈ link_entry_head (sn_w s) -> exists l e, ff_ready s p l e) ->
  ((exists p, p ∈ link_entry_head (sn_w s) /\ divides_by_zero s p) /\ lq_etxff_timer s = None) \/
  ((forall p, p ∈ link_entry_head (sn_w s) -> ~ divides_by_zero s p) /\
  exists s', lq_etxff_timer s = Some (s', tt) /\ nbrs_ok me s' /\
    (forall p l e, p ∈ link_entry_head (sn_w s) -> ff_ready s p l e -> ff_passed s p l e s') /\
    (forall p n, nbrs (sn_w s) !! p = Some n -> costed s' p) /\ reported s s').
Proof.
  intros N Nd Hr. unfold lq_etxff_timer. erewrite bind_run by (by apply on_w_same).
  destruct (ff_links_run _ Nd s Hr) as [[D R]|(D & s1 & R & O & P & _)]; [left; split; [done|]; unfold mbind, se_bind; by rewrite R|right].
  split; [done|]. erewrite bind_run by exact R. destruct (all_costs_run ip_version me s1) as (s' & R' & N' & F & Rp & C).
  - by eapply links_only_ok.
  - eapply links_only_links; [done|]. intros p (l & e & H)%Hr. rewrite (fr_link _ _ _ _ H). by eexists.
  - eapply links_only_exts; [done|]. intros p (l & e & H)%Hr. rewrite (fr_ext _ _ _ _ H). by eexists.
  - exists s'. split; [done|]. split; [done|]. split; [|split].
    + intros p l e Hp H. destruct (P p l e Hp H) as (q & E & I & Hl & He & Hv). exists q. by rewrite (cf_w _ _ F), (cf_exts _ _ F).
    + intros p n Hp. apply (C p n). by destruct O as (K & X & -> & _).
    + destruct O as (K & X & -> & _). exact Rp.
Qed.
End ff_plugin.

(** ** Example: the link to 10.0.0.2 has lost packets. *)
Definition fdemo_wheel : timer_st :=
  mkTimers ∅ [] ∅ {[ 1%positive := mkInfo 1 false 0 0; 2%positive := mkInfo 2 false 0 0; 3%positive := mkInfo 3 true 0 0 ]} 1000 1000 0.
Definition fdemo_timers : timer_st := match olsr_timer_start (fun _ => 0) 3000 0 7 3 fdemo_wheel with Some (T, _) => T | None => fdemo_wheel end.
Definition fdemo_new : sensing (LQ := lq_etxff_handler) (KE := demo_export AF_INET) := put_timers fdemo_timers edemo.
Definition fdemo_nbr : sensing (LQ := lq_etxff_handler) (KE := demo_export AF_INET) :=
  match olsr_add_nbr_entry (KE := demo_export AF_INET) AF_INET (tdemo_ip 1) (tdemo_ip 2) fdemo_new with Some (s, _) => s | None => fdemo_new end.
Definition fdemo_link : link_entry := mkLink (tdemo_ip 1) (tdemo_ip 2) 1 None (Some 3%positive) 0 0 1 SYM_LINK false false 0 0 2000 (Some 1%positive) LINK_COST_BROKEN.
Definition fdemo_ext : link_ext (LL := lq_etxff_links) := mkExt None 65536 (lq_etxff_memorize_foreign_hello (Some (mkFf 255 255)) ff_demo).
Definition fdemo : sensing (LQ := lq_etxff_handler) (KE := demo_export AF_INET) :=
  with_exts {[ 7%positive := fdemo_ext ]} (with_w (with_links {[ 7%positive := fdemo_link ]} (sn_w fdemo_nbr)) fdemo_nbr).

Lemma fdemo_ok : nbrs_ok AF_INET 1 fdemo.
Proof.
  assert (T : timers_ok fdemo_timers).
  { assert (W : timers_ok fdemo_wheel) by (split; vm_compute; try done; [intros k p H; by apply elem_of_nil in H|intros k; constructor|intros p H; by apply elem_of_nil in H|constructor]).
    destruct (timer_start_run (fun _ => 0) fdemo_wheel 3000 0 7 3 (mkInfo 3 true 0 0) W) as (p & T & E & _ & _ & Ok & _); [by vm_compute|done|done|].
    unfold fdemo_timers. by rewrite E. }
  assert (N : nbrs_ok AF_INET 1 fdemo_new).
  { apply (nbrs_ok_timers AF_INET 1 edemo); [exact edemo_ok|]. apply cons_empty; [by vm_compute..|exact T|by vm_compute]. }
  destruct (add_nbr_run (KE := demo_export AF_INET) AF_INET (tdemo_ip 1) 1 fdemo_new (tdemo_ip 2) N) as (s & p & R & N' & _).
  - by vm_compute.
  - intros t Ht. vm_compute in Ht. injection Ht as <-. by vm_compute.
  - assert (E : fdemo_nbr = s) by (unfold fdemo_nbr; by rewrite R). unfold fdemo. rewrite E.
    by apply nbrs_ok_links.
Qed.
Lemma fdemo_inv : ff_inv (link_lq fdemo_ext).
Proof. apply ff_memorize_inv; [exact ff_demo_inv|]. by intros q [= <-]. Qed.
Lemma fdemo_exts : link_exts fdemo = {[ 7%positive := fdemo_ext ]}.
Proof. unfold fdemo. reflexivity. Qed.
Lemma fdemo_head : link_entry_head (sn_w fdemo) = [7%positive].
Proof. by vm_compute. Qed.
Lemma fdemo_ready p : p ∈ link_entry_head (sn_w fdemo) -> exists l e, ff_ready fdemo p l e.
Proof.
  rewrite fdemo_head. intros ->%list_elem_of_singleton. exists fdemo_link, fdemo_ext.
  assert (P : loss_period (get_timers fdemo) fdemo_link = 3000) by (by vm_compute).
  split; rewrite ?P; [by vm_compute|rewrite fdemo_exts; apply lookup_singleton_eq|apply ff_inv_shape, fdemo_inv|lia].
Qed.

Lemma lq_timer_correct_witness : exists s', lq_etxff_timer (KE := demo_export AF_INET) fdemo = Some (s', tt) /\ nbrs_ok AF_INET 1 s' /\
  costed s' 1 /\ flags s' = (true, true, true) /\ linkcost <$> links (sn_w s') !! 7%positive = Some 642756.
Proof.
  destruct (lq_timer_correct (KE := demo_export AF_INET) AF_INET 1 fdemo fdemo_ok) as [[_ R]|(_ & s' & R & N & _ & C & _)].
  - rewrite fdemo_head. apply NoDup_singleton.
  - exact fdemo_ready.
  - exfalso. assert (E : bool_decide (is_Some (lq_etxff_timer (KE := demo_export AF_INET) fdemo)) = true) by (by vm_compute). by rewrite R in E.
  - exists s'. split; [exact R|]. split; [exact N|]. split; [|rewrite (se_state_eq _ _ _ _ R); split; by vm_compute].
    apply (C 1%positive (default (mkNbr [] None 0 false false false false 0 0 []) (nbrs (sn_w fdemo) !! 1%positive))). by vm_compute.
Defined.

(** A neighbour that sends four packets a second, each with a sequence number 256
    above the one before, brings the sum to 65535; one missed HELLO interval of a
    second makes it zero. The counters are within the invariant of the window. *)
Definition wrapped_link : lq_etxff_link :=
  mkFfLink (mkFf 255 255) 64 0 7 1 (replicate 64 4) (1023 :: replicate 63 1024).

Example total_wraps : ff_inv wrapped_link /\ ff_second 1000 65536 wrapped_link = None.
Proof.
  split; [|by vm_compute]. split; try (done || by vm_compute). intros i r t Hr Ht. change (replicate 64 4 !! i = Some r) in Hr.
  apply lookup_replicate in Hr as [-> _]. destruct i as [|i]; [by injection Ht as <-|]. change (replicate 63 1024 !! i = Some t) in Ht.
  apply lookup_replicate in Ht as [-> _]. lia.
Qed.
