(* ===== verification/MidSet.v ===== *)
(** * Alias addresses of nodes ([mid_set.c])

    The reception of MID messages: an alias hangs in a tree of its node and in a
    tree of all aliases. Entries that the alias had as a node of its own, a
    neighbour or a two hop neighbour are dissolved. *)
From Stdlib Require Import String.
From S2P Require Import Prelude AvlSpec Trees Types Comparators IpCalc IpLists Memcookie Clock Timer DuplicateSet Packet NetOut Lsdb LqHandler LqEtxFf Neighborhood LinkSet TcGraph TcSet TcInv TcInput TcProps RoutingTable RibUpdate NodeSet HnaSet NbrTable NbrProps NbrEntry Hello LinkOps LinkProps.

Definition OLSR_MID_JITTER : Z := 5.

Section mid_set.
Context `{LQ : LqHandler} {LL : LqLinks} `{KE : RouteExport} (rnd : nat -> Z) (ip_version lq_nat_thresh : Z) (router_id : ip_addr).
Abbreviation M := (SE sensing).
Abbreviation comp := (avl_comp_default ip_version).
Abbreviation ipsize := (tc_ipsize ip_version).

Definition with_mid (L : list (loc * ip_addr)) (N : gmap loc mid_entry) (w : neighborhood) : neighborhood :=
  mkNbh (nbr_tree w) (nbrs w) (nbr2_tree w) (nbr2s w) (nbr_cons w) (link_entry_head w) (links w) L N (nh_lsdb w).
Definition mid_wr (p : loc) (g : mid_entry -> mid_entry) : NM unit := fun w =>
  (fun m => (with_mid (mid_tree w) (<[p := g m]> (mids w)) w, tt)) <$> mids w !! p.
Definition set_mid_tm (h : option loc) (m : mid_entry) : mid_entry := mkMid (mid_alias_addr m) (mid_tc m) h.
Definition set_mid_seq (q : Z) (t : tc_entry) : tc_entry :=
  mkTc (tc_addr t) (tc_spf t) (edge_tree t) (prefix_tree t) (edge_gc_timer t) (tc_validity_timer t) (tc_virtual t) (tc_seq t) q (hna_seq t)
    (msg_hops t) (tc_ansn t).

Definition olsr_set_mid_timer (p : loc) (rel_timer : Z) : M unit :=
  m ← on_sn (mid_rd p);
  ti ← on_sn (se_get mid_validity_timer_info);
  h ← on_timers (olsr_timer_set rnd (mid_timer m) rel_timer OLSR_MID_JITTER p ti);
  on_w (mid_wr p (set_mid_tm h)).

Definition olsr_flush_tc_duplicates (alias : loc) : M unit :=
  m ← on_sn (mid_rd alias);
  tc ← on_st (olsr_lookup_tc_entry ip_version (mid_alias_addr m));
  match tc with
  | Some t => on_sn (olsr_delete_tc_entry ip_version lq_nat_thresh t)
  | None => mret tt
  end.

(** The loop of [olsr_flush_nbr2_duplicates], for the node [tc]. *)
Fixpoint flush_duplicates (tc : loc) (L : list (loc * ip_addr)) : M unit :=
  match L with
  | [] => mret tt
  | e :: L =>
    alias ← on_sn (mid_rd e.1);
    nbr2 ← on_w_get (olsr_lookup_nbr2_entry ip_version (mid_alias_addr alias) false);
    (match nbr2 with
     | Some q => olsr_delete_nbr2_entry q;; se_mod (set_changes_neighborhood true)
     | None => mret tt
     end);;
    nbr ← on_w_get (olsr_lookup_nbr_entry ip_version (mid_alias_addr alias) false);
    (match nbr with
     | Some n =>
       t ← on_st (tc_rd tc);
       real_nbr ← on_w_get (olsr_lookup_nbr_entry ip_version (tc_addr t) false);
       match real_nbr with
       | Some r =>
         on_w (replace_neighbor_link_set n r);;
         olsr_delete_nbr_entry n;;
         se_mod (set_changes_neighborhood true)
       | None => mret tt
       end
     | None => mret tt
     end);;
    flush_duplicates tc L
  end.
Definition olsr_flush_nbr2_duplicates (tc : loc) : M unit :=
  L ← on_sn (se_get (fun s => tc_mid_tree s tc)); flush_duplicates tc L.

Definition olsr_fixup_mid_main_addr (main_addr alias_addr : ip_addr) : M unit :=
  nbr_old ← on_w_get (olsr_lookup_nbr_entry ip_version alias_addr false);
  match nbr_old with
  | None => mret tt
  | Some old =>
    olsr_delete_nbr_entry old;;
    new ← olsr_add_nbr_entry ip_version router_id main_addr;
    on_w (replace_neighbor_link_set old new);;
    mid_old ← on_w (se_get (olsr_lookup_mid_entry ip_version alias_addr));
    match mid_old with
    | Some m => a ← on_sn (mid_rd m); on_sn (olsr_flush_mid_entries ip_version lq_nat_thresh (mid_tc a))
    | None => mret tt
    end
  end.

Definition olsr_insert_mid_entry (main_addr alias_addr : ip_addr) (vtime : Z) : M loc :=
  tc ← on_st (olsr_locate_tc_entry ip_version router_id main_addr);
  tc ← se_opt tc;
  p ← se_get (fun s => fresh (dom (mids (sn_w s))));
  on_w (se_mod (fun w => with_mid (mid_tree w) (<[p := mkMid alias_addr tc None]> (mids w)) w));;
  on_sn (se_mod (fun s => with_tc_mids (<[tc := tree_insert comp false alias_addr p (tc_mid_tree s tc)]> (tc_mid_trees s)) s));;
  on_w (se_mod (fun w => with_mid (tree_insert comp false alias_addr p (mid_tree w)) (mids w) w));;
  on_st (olsr_insert_routing_table ip_version router_id alias_addr (8 * Z.of_nat ipsize) main_addr OLSR_RT_ORIGIN_MID);;
  olsr_set_mid_timer p vtime;;
  mret p.

Definition olsr_update_mid_entry (main_addr alias_addr : ip_addr) (vtime : Z) : M unit :=
  v ← on_st (olsr_validate_address ip_version alias_addr);
  if negb v then mret tt
  else
    alias ← on_w (se_get (olsr_lookup_mid_entry ip_version alias_addr));
    match alias with
    | Some p => olsr_set_mid_timer p vtime
    | None =>
      p ← olsr_insert_mid_entry main_addr alias_addr vtime;
      olsr_fixup_mid_main_addr main_addr alias_addr;;
      a ← on_sn (mid_rd p);
      olsr_flush_nbr2_duplicates (mid_tc a);;
      olsr_flush_tc_duplicates p;;
      se_mod (set_changes_neighborhood true);;
      on_st (se_mod (set_changes_topology true))
    end.

(** The loop over the aliases; [left] is [msg->end - curr]. The variable [alias]
    is not initialized: [garbage] is what the bytes that an address does not set hold. *)
Fixpoint input_aliases (fuel : nat) (msg : olsr_message) (left : Z) (curr : list Z) (alias : ip_addr) : M unit :=
  match fuel with
  | O => se_fail
  | S fuel =>
    if Z.of_nat ipsize <=? left then
      r ← se_opt (pkt_get_ipaddress ipsize alias curr);
      olsr_update_mid_entry (originator msg) r.2 (vtime msg);;
      input_aliases fuel msg (left - Z.of_nat ipsize) r.1 r.2
    else mret tt
  end.

Definition olsr_input_mid (msg : olsr_message) (body : list Z) (garbage : ip_addr) (from_addr : ip_addr) (status : duplicate_status) : M unit :=
  if negb (m_type msg =? MID_MESSAGE) then mret tt
  else
    nw ← se_get (fun s => now (get_timers s));
    st ← on_w (check_neighbor_link ip_version nw from_addr);
    if negb (st =? SYM_LINK) then mret tt
    else
      tc ← on_st (olsr_locate_tc_entry ip_version router_id (originator msg));
      tc ← se_opt tc;
      t ← on_st (tc_rd tc);
      if negb (bool_decide (status = RESET_SEQNO_OLSR_MESSAGE)) && negb (mid_seq t =? -1) && (olsr_seqno_diff (seqno msg) (mid_seq t) <=? 0)
      then mret tt
      else
        on_st (tc_wr tc (set_mid_seq (seqno msg)));;
        input_aliases (S (length body)) msg (end_ msg - payload msg) body garbage.
End mid_set.
