(* ===== verification/MidProps.v ===== *)
(** * What MID messages do ([mid_set.c])

    The operations of the other components leave the aliases alone. So the alias
    that [olsr_insert_mid_entry] has just inserted is there when
    [olsr_fixup_mid_main_addr] looks for aliases of an old main address. *)
From Stdlib Require Import String.
From S2P Require Import Prelude Frames AvlSpec AvlOps Trees Types Comparators IpCalc IpLists Memcookie Clock Timer DuplicateSet Packet NetOut Lsdb LqHandler LqEtxFf Neighborhood LinkSet TcGraph TcSet TcInv TcInput TcProps RoutingTable RibUpdate NodeSet HnaSet NbrTable NbrProps NbrEntry Hello LinkOps LinkProps MidSet.

(** ** Operations on the topology set

    They keep a view of the neighbourhood that does not show the nodes and edges. *)
Class DbFree {B} (v : neighborhood -> B) : Prop := db_free : forall w d, v (with_ndb d w) = v w.

Section frames.
Context `{LQ : LqHandler} {LL : LqLinks} `{KE : RouteExport} (rnd : nat -> Z) (ip_version lq_nat_thresh : Z) (router_id : ip_addr).
Context {B : Type} (v : neighborhood -> B) {Hv : DbFree v}.

Abbreviation tv := (fun w : topo => v (t_nbh w)).
#[export] Instance keeps_tc_rd p : Keeps tv (tc_rd p).
Proof. by apply (keeps_fmap tv). Qed.
#[export] Instance keeps_edge_rd p : Keeps tv (edge_rd p).
Proof. by apply (keeps_fmap tv). Qed.
#[export] Instance keeps_calc p : Keeps tv (olsr_calc_tc_cost p).
Proof. by apply (keeps_fmap tv). Qed.
#[export] Instance keeps_tc_wr p g : Keeps tv (tc_wr p g).
Proof. apply (keeps_fmap tv). intros s c. apply Hv. Qed.
#[export] Instance keeps_edge_wr p g : Keeps tv (edge_wr p g).
Proof. apply (keeps_fmap tv). intros s c. apply Hv. Qed.
#[export] Instance keeps_edge_free p : Keeps tv (edge_free p).
Proof. apply (keeps_fmap tv). intros s c. apply Hv. Qed.
#[local] Hint Extern 2 (Keeps _ (se_mod _)) => (apply keeps_mod; intros ?; apply Hv) : typeclass_instances.

#[export] Instance keeps_lookup_tc a : Keeps tv (olsr_lookup_tc_entry ip_version a).
Proof. unfold olsr_lookup_tc_entry. apply _. Qed.
#[export] Instance keeps_alloc tc k o : Keeps tv (olsr_alloc_rt_path ip_version tc k o).
Proof. unfold olsr_alloc_rt_path. intros s s' a. repeat case_match; intros; simplify_eq/=; try done. all: try apply Hv. Qed.
#[export] Instance keeps_insert_with lf dst plen a o : (forall x, Keeps tv (lf x)) -> Keeps tv (olsr_insert_routing_table_with ip_version lf dst plen a o).
Proof. intros H. unfold olsr_insert_routing_table_with. apply _. Qed.
Lemma keeps_add_tc fuel : forall a, Keeps tv (add_tc_entry ip_version router_id fuel a).
Proof. induction fuel as [|fuel IH]; intros a; cbn [add_tc_entry]; apply _. Qed.
#[export] Instance keeps_add_tc_entry a : Keeps tv (olsr_add_tc_entry ip_version router_id a).
Proof. apply keeps_add_tc. Qed.
#[export] Instance keeps_locate a : Keeps tv (olsr_locate_tc_entry ip_version router_id a).
Proof. unfold olsr_locate_tc_entry. apply _. Qed.
#[export] Instance keeps_insert_rt dst plen a o : Keeps tv (olsr_insert_routing_table ip_version router_id dst plen a o).
Proof. unfold olsr_insert_routing_table. apply _. Qed.
#[export] Instance keeps_lookup_edge p a : Keeps tv (olsr_lookup_tc_edge ip_version p a).
Proof. unfold olsr_lookup_tc_edge. apply _. Qed.
#[export] Instance keeps_new_edge p a n : Keeps tv (new_edge ip_version p a n).
Proof. unfold new_edge. apply _. Qed.
Lemma keeps_add_edge_fuel fuel : forall p a n, Keeps tv (add_tc_edge_entry ip_version router_id fuel p a n).
Proof. induction fuel as [|fuel IH]; intros p a n; cbn [add_tc_edge_entry]; apply _. Qed.
#[export] Instance keeps_add_edge p a n : Keeps tv (olsr_add_tc_edge_entry ip_version router_id p a n).
Proof. apply keeps_add_edge_fuel. Qed.
#[export] Instance keeps_delete_edge p : Keeps tv (olsr_delete_tc_edge_entry p).
Proof. unfold olsr_delete_tc_edge_entry, internal_delete_tc_edge_entry. apply _. Qed.

(** ** Operations on the routing table *)
Abbreviation rv := (fun r : rib => v (t_nbh (r_topo r))).
#[export] Instance keeps_rtp_rd p : Keeps rv (rtp_rd p).
Proof. by apply (keeps_fmap rv). Qed.
#[export] Instance keeps_rt_rd p : Keeps rv (rt_rd p).
Proof. by apply (keeps_fmap rv). Qed.
#[export] Instance keeps_rtp_wr p g : Keeps rv (rtp_wr p g).
Proof. by apply (keeps_fmap rv). Qed.
#[export] Instance keeps_rtp_free p : Keeps rv (rtp_free p).
Proof. by apply (keeps_fmap rv). Qed.
#[export] Instance keeps_rt_wr p g : Keeps rv (rt_wr p g).
Proof. by apply (keeps_fmap rv). Qed.
#[export] Instance keeps_prefix_wr p g : Keeps rv (tc_prefix_wr p g).
Proof. intros s s' a. unfold tc_prefix_wr. destruct (tc_wr p g (r_topo s)) as [[w []]|] eqn:E; [|done]. intros [= <- _]. exact (keeps_tc_wr p g _ _ _ E). Qed.
#[export] Instance keeps_lock i : Keeps rv (lock_interface i).
Proof. unfold lock_interface. apply _. Qed.
#[export] Instance keeps_unlock i : Keeps rv (unlock_interface i).
Proof. unfold unlock_interface. apply _. Qed.
Lemma keeps_best_loop rt L : Keeps rv (rt_best_loop ip_version lq_nat_thresh rt L).
Proof. unfold rtp_opt_rd. induction L as [|e L IH]; cbn [rt_best_loop]; unfold rtp_opt_rd; apply _. Qed.
#[export] Instance keeps_best rt : Keeps rv (olsr_rt_best ip_version lq_nat_thresh rt).
Proof. pose proof keeps_best_loop. unfold olsr_rt_best. apply _. Qed.
#[export] Instance keeps_delete_path p : Keeps rv (olsr_delete_rt_path ip_version lq_nat_thresh p).
Proof. unfold olsr_delete_rt_path. apply _. Qed.
#[export] Instance keeps_delete_rt dst plen a o : Keeps rv (olsr_delete_routing_table ip_version lq_nat_thresh dst plen a o).
Proof. unfold olsr_delete_routing_table. apply _. Qed.

(** ** Lifting *)
Abbreviation nv := (fun n : nodes => (v (t_nbh (nd_topo n)), tc_mid_trees n)).
Abbreviation sv := (fun s : sensing => (v (sn_w s), tc_mid_trees (sn_nodes s))).
#[export] Instance keeps_on_rib {A} (m : SE rib A) : Keeps rv m -> Keeps nv (on_rib m).
Proof. intros H s s' a. unfold on_rib. destruct (m (nd_rib s)) as [[r b]|] eqn:E; [|done]. intros [= <- <-]. simpl. f_equal. exact (H _ _ _ E). Qed.
#[export] Instance keeps_on_topo {A} (m : SE topo A) : Keeps tv m -> Keeps nv (on_topo m).
Proof. intros H. apply keeps_on_rib. intros s s' a. destruct (m (r_topo s)) as [[r b]|] eqn:E; [|done]. intros [= <- <-]. exact (H _ _ _ E). Qed.
#[export] Instance keeps_on_sn {A} (m : SE nodes A) : Keeps nv m -> Keeps sv (on_sn m).
Proof. intros H s s' a. unfold on_sn. destruct (m (sn_nodes s)) as [[r b]|] eqn:E; [|done]. intros [= <- <-]. exact (H _ _ _ E). Qed.
#[export] Instance keeps_on_st {A} (m : SE topo A) : Keeps tv m -> Keeps sv (on_st m).
Proof. intros H. by apply keeps_on_sn, keeps_on_topo. Qed.
#[export] Instance keeps_on_w {A} (m : NM A) : Keeps v m -> Keeps sv (on_w m).
Proof. intros H. apply keeps_on_st. intros s s' a. unfold on_nbh. destruct (m (t_nbh s)) as [[r b]|] eqn:E; [|done]. intros [= <- <-]. exact (H _ _ _ E). Qed.
#[export] Instance keeps_on_w_get {A} (g : neighborhood -> option A) : Keeps sv (on_w_get g).
Proof. apply keeps_on_w. intros s s' a. destruct (g s); [|done]. by intros [= <- _]. Qed.
#[export] Instance keeps_timers {A} (m : TM A) : Keeps sv (on_timers m).
Proof. intros s s' a. unfold on_timers. destruct (m (get_timers s)) as [[T b]|]; [|done]. by intros [= <- <-]. Qed.
#[export] Instance keeps_timers_nd {A} (m : TM A) : Keeps nv (on_timers m).
Proof. intros s s' a. unfold on_timers. destruct (m (get_timers s)) as [[T b]|]; [|done]. by intros [= <- <-]. Qed.
#[export] Instance keeps_mid_rd p : Keeps nv (mid_rd p).
Proof. by apply (keeps_fmap nv). Qed.
End frames.

(** ** The neighbour tables keep the aliases *)
Definition mid_view (w : neighborhood) : list (loc * ip_addr) * gmap loc mid_entry := (mid_tree w, mids w).
#[export] Instance mid_view_free : DbFree mid_view.
Proof. done. Qed.
#[export] Instance nbr_tree_free : DbFree nbr_tree.
Proof. done. Qed.

Section alias_frames.
Context `{LQ : LqHandler} {LL : LqLinks} `{KE : RouteExport} (rnd : nat -> Z) (ip_version lq_nat_thresh : Z) (router_id : ip_addr).
Abbreviation av := (fun s : sensing => (mid_view (sn_w s), tc_mid_trees (sn_nodes s))).

#[export] Instance keeps_w_fmap {A C} (h : neighborhood -> option C) (g : neighborhood -> C -> neighborhood) (r : neighborhood -> C -> A) :
  (forall w c, mid_view (g w c) = mid_view w) -> Keeps mid_view (fun w => (fun c => (g w c, r w c)) <$> h w).
Proof. apply keeps_fmap. Qed.
#[export] Instance keeps_rd_nbr p : Keeps mid_view (rd_nbr p).
Proof. by apply (keeps_fmap mid_view). Qed.
#[export] Instance keeps_rd_nbr2 p : Keeps mid_view (rd_nbr2 p).
Proof. by apply (keeps_fmap mid_view). Qed.
#[export] Instance keeps_rd_con p : Keeps mid_view (rd_con p).
Proof. by apply (keeps_fmap mid_view). Qed.
#[export] Instance keeps_rd_link p : Keeps mid_view (rd_link p).
Proof. by apply (keeps_fmap mid_view). Qed.
#[export] Instance keeps_wr_nbr p g : Keeps mid_view (wr_nbr p g).
Proof. by apply (keeps_fmap mid_view). Qed.
#[export] Instance keeps_wr_nbr2 p g : Keeps mid_view (wr_nbr2 p g).
Proof. by apply (keeps_fmap mid_view). Qed.
#[export] Instance keeps_wr_con p g : Keeps mid_view (wr_con p g).
Proof. by apply (keeps_fmap mid_view). Qed.
#[export] Instance keeps_wr_link p g : Keeps mid_view (wr_link p g).
Proof. by apply (keeps_fmap mid_view). Qed.
#[export] Instance keeps_free_con p : Keeps mid_view (free_con p).
Proof. by apply (keeps_fmap mid_view). Qed.
#[export] Instance keeps_free_nbr p : Keeps mid_view (free_nbr p).
Proof. by apply (keeps_fmap mid_view). Qed.
#[export] Instance keeps_free_nbr2 p : Keeps mid_view (free_nbr2 p).
Proof. by apply (keeps_fmap mid_view). Qed.

#[export] Instance keeps_internal_con p : Keeps av (internal_delete_nbr_con p).
Proof. unfold internal_delete_nbr_con. apply _. Qed.
Lemma keeps_connectors L : Keeps av (delete_connectors L).
Proof. induction L as [|e L IH]; cbn [delete_connectors]; apply _. Qed.
#[export] Instance keeps_delete_nbr2 p : Keeps av (olsr_delete_nbr2_entry p).
Proof. pose proof keeps_connectors. unfold olsr_delete_nbr2_entry. apply _. Qed.
#[export] Instance keeps_delete_con p : Keeps av (olsr_delete_nbr_con p).
Proof. unfold olsr_delete_nbr_con. apply _. Qed.
Lemma keeps_nbr_connectors L : Keeps av (delete_nbr_connectors L).
Proof. induction L as [|e L IH]; cbn [delete_nbr_connectors]; apply _. Qed.
#[export] Instance keeps_delete_nbr p : Keeps av (olsr_delete_nbr_entry p).
Proof. pose proof keeps_nbr_connectors. unfold olsr_delete_nbr_entry. apply _. Qed.
#[export] Instance keeps_add_nbr a : Keeps av (olsr_add_nbr_entry ip_version router_id a).
Proof. unfold olsr_add_nbr_entry. apply _. Qed.
Lemma keeps_replace_from old new L : forall z, Keeps mid_view (replace_neighbors old new L z).
Proof. induction L as [|e L IH]; intros z; cbn [replace_neighbors]; apply _. Qed.
#[export] Instance keeps_replace old new : Keeps mid_view (replace_neighbor_link_set old new).
Proof. pose proof keeps_replace_from. unfold replace_neighbor_link_set. apply _. Qed.
End alias_frames.

(** ** The aliases of a node are flushed *)
Section mid_props.
Context `{LQ : LqHandler} {LL : LqLinks} `{KE : RouteExport} (rnd : nat -> Z) (ip_version lq_nat_thresh : Z) (router_id : ip_addr).
Abbreviation comp := (avl_comp_default ip_version).
Abbreviation nd_mids := (fun n : nodes => mids (t_nbh (nd_topo n))).

Lemma delete_mid_inv p s s' : olsr_delete_mid_entry ip_version lq_nat_thresh p s = Some (s', tt) -> nd_mids s' = delete p (nd_mids s).
Proof.
  unfold olsr_delete_mid_entry. intros (s1 & a & R1 & R)%bind_inv. unfold mid_rd in R1. destruct (mids _ !! p); [|done]. injection R1 as <- <-.
  apply bind_inv in R as (s2 & ? & R2%(keeps_timers_nd mid_view) & R). apply bind_inv in R as (s3 & ? & R3%(keeps_on_topo mid_view) & R); [|apply _].
  apply bind_inv in R as (s4 & ? & R4%(keeps_on_rib mid_view) & R); [|apply _]. apply bind_inv in R as (s5 & ? & [= <- _] & R).
  assert (E : nd_mids s4 = nd_mids s) by (unfold mid_view in *; simpl in *; congruence).
  unfold mid_free, on_topo, on_rib in R. simpl in R. destruct (mids (t_nbh (nd_topo s4)) !! p) eqn:Hp; [|by setoid_rewrite Hp in R].
  setoid_rewrite Hp in R. simpl in R. injection R as <-. simpl. by rewrite <- E.
Qed.
Lemma delete_mids_inv L : forall s s', delete_mid_entries ip_version lq_nat_thresh L s = Some (s', tt) ->
  forall p, p ∈ L.*1 \/ nd_mids s !! p = None -> nd_mids s' !! p = None.
Proof.
  induction L as [|e L IH]; intros s s'; cbn [delete_mid_entries].
  - intros [= <-] p [H%elem_of_nil|H]; done.
  - intros (s1 & [] & R1%delete_mid_inv & R)%bind_inv p Hp. apply (IH s1 s' R p). rewrite R1. simpl in Hp. rewrite elem_of_cons in Hp.
    destruct (decide (p = e.1)) as [->|Hn]; [right; apply lookup_delete_eq|]. rewrite lookup_delete_ne by done. tauto.
Qed.

(** The alias that is looked up is flushed with those of its node. *)
Lemma fixup_inv main alias s s' n p m : olsr_fixup_mid_main_addr ip_version lq_nat_thresh router_id main alias s = Some (s', tt) ->
  tree_find comp alias (nbr_tree (sn_w s)) = Some n -> tree_find comp alias (mid_tree (sn_w s)) = Some p -> mids (sn_w s) !! p = Some m ->
  p ∈ (tc_mid_tree (sn_nodes s) (mid_tc m)).*1 -> mids (sn_w s') !! p = None.
Proof.
  unfold olsr_fixup_mid_main_addr. intros (s1 & o & R1 & R)%bind_inv Hn Hp Hm Hin.
  unfold on_w_get in R1. rewrite (on_w_same _ s (Some n)) in R1; [|unfold olsr_lookup_nbr_entry; simpl; by rewrite Hn]. injection R1 as <- <-.
  apply bind_inv in R as (s2 & ? & R2%keeps_delete_nbr & R). apply bind_inv in R as (s3 & ? & R3%keeps_add_nbr & R).
  apply bind_inv in R as (s4 & ? & R4%(keeps_on_w mid_view) & R); [|apply _].
  assert (E : (mid_view (sn_w s4), tc_mid_trees (sn_nodes s4)) = (mid_view (sn_w s), tc_mid_trees (sn_nodes s))) by congruence.
  unfold mid_view in E. injection E as E1 E2 E3. apply bind_inv in R as (s5 & ? & R5 & R). rewrite (on_w_same _ s4 (Some p)) in R5.
  2: { unfold se_get, olsr_lookup_mid_entry. by rewrite E1, Hp. }
  injection R5 as <- <-. apply bind_inv in R as (s6 & ? & R6 & R). unfold on_sn, mid_rd in R6. change (mids (t_nbh (nd_topo (sn_nodes s4)))) with (mids (sn_w s4)) in R6.
  rewrite E2, Hm in R6. simpl in R6. injection R6 as <- <-. unfold on_sn, olsr_flush_mid_entries in R.
  match type of R with match ?x with _ => _ end = _ => destruct x as [[n1 []]|] eqn:E end; [|done].
  injection R as <-. apply bind_inv in E as (n0 & ? & [= <- <-] & E). change (sn_w (with_sn n1 _)) with (t_nbh (nd_topo n1)).
  apply (delete_mids_inv _ _ _ E p). left. unfold tc_mid_tree in *. by rewrite E3.
Qed.

(** The timer of an alias is set. *)
Lemma set_mid_timer_inv p vt s s' : olsr_set_mid_timer rnd p vt s = Some (s', tt) -> exists m h, mids (sn_w s) !! p = Some m /\
  mids (sn_w s') = <[p := set_mid_tm h m]> (mids (sn_w s)) /\ mid_tree (sn_w s') = mid_tree (sn_w s) /\ nbr_tree (sn_w s') = nbr_tree (sn_w s) /\
  tc_mid_trees (sn_nodes s') = tc_mid_trees (sn_nodes s).
Proof.
  unfold olsr_set_mid_timer. intros (s1 & m & R1 & R)%bind_inv. unfold on_sn, mid_rd in R1. change (mids (t_nbh (nd_topo (sn_nodes s)))) with (mids (sn_w s)) in R1.
  destruct (mids (sn_w s) !! p) as [m0|] eqn:Hm; [|done]. injection R1 as <- <-. apply bind_inv in R as (s2 & ti & [= <- _] & R).
  apply bind_inv in R as (s3 & h & R3 & R). unfold on_timers in R3. destruct (olsr_timer_set _ _ _ _ _ _ _) as [[T x]|] in R3; [|done]. injection R3 as <- <-.
  rewrite (on_w_run _ _ (with_mid (mid_tree (sn_w s)) (<[p := set_mid_tm x m0]> (mids (sn_w s))) (sn_w s)) tt) in R by (unfold mid_wr; by setoid_rewrite Hm).
  injection R as <-. by exists m0, x.
Qed.

(** The new alias is in both trees. *)
Lemma insert_mid_inv main alias vt s s' p : olsr_insert_mid_entry rnd ip_version router_id main alias vt s = Some (s', p) ->
  tree_find comp alias (mid_tree (sn_w s)) = None -> (forall u q k, (q, k) ∈ tc_mid_tree (sn_nodes s) u -> (q, k) ∈ mid_tree (sn_w s)) ->
  exists m, nbr_tree (sn_w s') = nbr_tree (sn_w s) /\ tree_find comp alias (mid_tree (sn_w s')) = Some p /\ mids (sn_w s') !! p = Some m /\
    p ∈ (tc_mid_tree (sn_nodes s') (mid_tc m)).*1.
Proof.
  unfold olsr_insert_mid_entry. intros (s1 & o & R1 & R)%bind_inv Hf Hin. pose proof R1 as K1. apply (keeps_on_st nbr_tree) in K1; [|apply _].
  apply (keeps_on_st mid_view) in R1; [|apply _]. injection R1 as E1 E2 E3. injection K1 as K1 _.
  apply bind_inv in R as (s2 & tc & R2 & R). destruct o as [u|]; [|done]. injection R2 as <- <-.
  apply bind_inv in R as (s2 & q & [= <- <-] & R). set (q := fresh _) in R.
  apply bind_inv in R as (s2 & [] & R2 & R). rewrite (on_w_run _ s1 (with_mid (mid_tree (sn_w s1)) (<[q := mkMid alias u None]> (mids (sn_w s1))) (sn_w s1)) tt) in R2 by done.
  injection R2 as <-. apply bind_inv in R as (s3 & [] & R3 & R). unfold on_sn, se_mod in R3. injection R3 as <-.
  apply bind_inv in R as (s4 & [] & R4 & R). erewrite on_w_run in R4 by reflexivity. injection R4 as E4.
  assert (F1 : mid_tree (sn_w s4) = tree_insert comp false alias q (mid_tree (sn_w s))) by (rewrite <- E4, <- E1; done).
  assert (F2 : mids (sn_w s4) = <[q := mkMid alias u None]> (mids (sn_w s1))) by (by rewrite <- E4).
  assert (F3 : tc_mid_trees (sn_nodes s4) = <[u := tree_insert comp false alias q (tc_mid_tree (sn_nodes s) u)]> (tc_mid_trees (sn_nodes s))).
  { rewrite <- E4, <- E3. unfold tc_mid_tree. rewrite <- E3. done. }
  assert (F4 : nbr_tree (sn_w s4) = nbr_tree (sn_w s)) by (by rewrite <- E4, <- K1). clear E4.
  apply bind_inv in R as (s5 & ? & R5 & R). pose proof R5 as K5. apply (keeps_on_st nbr_tree) in K5; [|apply _].
  apply (keeps_on_st mid_view) in R5; [|apply _]. injection R5 as H1 H2 H3. injection K5 as K5 _.
  apply bind_inv in R as (s6 & [] & (m & h & Hm & M1 & M2 & M3 & M4)%set_mid_timer_inv & R). injection R as <- <-.
  rewrite H2, F2, lookup_insert_eq in Hm. injection Hm as <-. exists (set_mid_tm h (mkMid alias u None)).
  split; [congruence|]. split; [rewrite M2, H1, F1; by apply tree_find_insert; [apply _|]|]. split; [by rewrite M1, lookup_insert_eq|].
  unfold tc_mid_tree. rewrite M4, H3, F3. simpl. rewrite lookup_insert_eq. simpl. apply list_elem_of_fmap. exists (q, alias). split; [done|].
  apply (elem_of_tree_insert comp); [|by left]. right. apply tree_find_None. intros q' k' Hq. by apply (proj1 (tree_find_None _ _ _) Hf q' k'), (Hin u).
Qed.

(** the aliases of every node are in the tree of all aliases *)
Definition aliases_listed (s : sensing) : Prop := forall u q k, (q, k) ∈ tc_mid_tree (sn_nodes s) u -> (q, k) ∈ mid_tree (sn_w s).

(** C36: An alias of a node may not have been a neighbour. If a MID message names as an
    alias an unknown address that the neighbour table has as a neighbour, the handler inserts the alias, replaces the
    neighbour by one for the main address, and then, to forget aliases of the old main address, looks
    the alias up, finds the entry it has just inserted and frees it with all aliases of the node.
    Then it goes on to use the freed entry: in no such state the handler has a defined result. *)
Theorem mid_of_neighbor_stuck main alias vt s n : allowed ip_version alias (sn_topo s) = true ->
  tree_find comp alias (mid_tree (sn_w s)) = None -> aliases_listed s ->
  tree_find comp alias (nbr_tree (sn_w s)) = Some n -> olsr_update_mid_entry rnd ip_version lq_nat_thresh router_id main alias vt s = None.
Proof.
  intros Ha Hf Hin Hn. destruct (olsr_update_mid_entry _ _ _ _ _ _ _ s) as [[s' []]|] eqn:R; [|done]. exfalso. unfold olsr_update_mid_entry in R.
  apply bind_inv in R as (s1 & b & R1 & R). rewrite (on_st_get _ s (allowed ip_version alias (sn_topo s)) (validate_run _ _ _)), Ha in R1. injection R1 as <- <-.
  simpl in R. apply bind_inv in R as (s1 & o & R1 & R). rewrite (on_w_same _ s None) in R1 by (unfold se_get, olsr_lookup_mid_entry; by rewrite Hf).
  injection R1 as <- <-. apply bind_inv in R as (s1 & p & R1 & R). destruct (insert_mid_inv _ _ _ _ _ _ R1 Hf Hin) as (m & E1 & E2 & E3 & E4).
  apply bind_inv in R as (s2 & [] & R2 & R). apply (fixup_inv _ _ _ _ n p m) in R2; [|congruence|done..].
  apply bind_inv in R as (s3 & a & R3 & _). unfold on_sn, mid_rd in R3. change (mids (t_nbh (nd_topo (sn_nodes s2)))) with (mids (sn_w s2)) in R3.
  rewrite R2 in R3. done.
Qed.
End mid_props.

(** ** Example: 10.0.0.5 is a neighbour, and 10.0.0.9 announces it as its alias. *)
Definition mdemo : sensing (LQ := lq_etxff_handler) (KE := demo_export AF_INET) :=
  match olsr_add_nbr_entry (KE := demo_export AF_INET) AF_INET (tdemo_ip 1) (tdemo_ip 5) edemo with Some (s, _) => s | None => edemo end.
Lemma no_tc_mids `{KE : RouteExport} `{LQ : LqHandler} (n : nodes) u q k : tc_mid_trees n = ∅ -> (q, k) ∉ tc_mid_tree n u.
Proof. unfold tc_mid_tree. intros ->. rewrite lookup_empty. apply not_elem_of_nil. Qed.
Lemma mid_of_neighbor_stuck_witness :
  olsr_update_mid_entry (KE := demo_export AF_INET) (fun _ => 0) AF_INET 1000 (tdemo_ip 1) (tdemo_ip 9) (tdemo_ip 5) 15000 mdemo = None.
Proof.
  apply (mid_of_neighbor_stuck (KE := demo_export AF_INET) (fun _ => 0) AF_INET 1000 (tdemo_ip 1) (tdemo_ip 9) (tdemo_ip 5) 15000 mdemo 1).
  - vm_compute. reflexivity.
  - vm_compute. reflexivity.
  - intros u q k H. exfalso. revert H. apply no_tc_mids. vm_compute. reflexivity.
  - vm_compute. reflexivity.
Defined.
