(* ===== verification/Announce.v ===== *)
(** * The announcements of this router ([generate_hna] of [hna_set.c], [generate_mid] of [mid_set.c])

    Both write a message into a buffer on the stack, put its size into the header and push
    it to the output buffers of all interfaces. *)
From S2P Require Import Prelude Types Comparators IpCalc IpLists Clock Timer Packet NetOut Lsdb LqHandler Neighborhood TcSet TcInput Hello HnaSet.

Definition MAX_TTL : Z := 255.
(** [MAXMESSAGESIZE - OLSR_HEADERSIZE] *)
Definition MSG_BUFFER : nat := 1496.

Record announcer := mkAnn {
  message_seqno : Z;
  an_net : net_st;
  an_timers : timer_st
}.
#[global] Instance announcer_timers : HasTimers announcer := {|
  get_timers := an_timers;
  put_timers := fun T s => mkAnn (message_seqno s) (an_net s) T;
  get_put_timers := fun _ _ => eq_refl |}.
#[global] Instance announcer_net : HasNet announcer := {|
  get_net := an_net;
  put_net := fun N s => mkAnn (message_seqno s) N (an_timers s);
  get_put_net := fun _ _ => eq_refl; put_put_net := fun _ _ _ => eq_refl |}.

Definition next_seqno : SE announcer Z := fun s =>
  (fun r => (mkAnn r.1 (an_net s) (an_timers s), r.2)) <$> get_msg_seqno (message_seqno s).

Section announce.
Context (rnd : nat -> Z) (ptf_list : list (list Z -> Z -> list Z * Z)) (os_sendto : nat -> Z).
Context (ip_version : Z) (router_id : ip_addr).
Abbreviation ipsize := (tc_ipsize ip_version).
Abbreviation M := (SE announcer).

(** The loop over the interfaces at the end. *)
Fixpoint push_message (data : list Z) (L : list loc) : M unit :=
  match L with
  | [] => mret tt
  | ifp :: L =>
    n ← net_outbuffer_bytes_left ifp;
    (if n <? Z.of_nat (length data) then net_output ptf_list os_sendto ifp;; set_buffer_timer rnd ifp else mret tt);;
    net_outbuffer_push ifp data;;
    push_message data L
  end.

(** ** HNA *)
Definition put_hna_net (h : olsr_ip_prefix) : WR unit :=
  pkt_put_ipaddress ipsize (prefix h);;
  pkt_put_ipaddress ipsize (prefix_to_netmask ipsize (prefix_len h)).1.

Definition put_hna (validity_time seqno : Z) (hna_entries : prefix_list) : WR unit :=
  length_field ← (pkt_put_u8 HNA_MESSAGE;;
    pkt_put_reltime validity_time;;
    length_field ← put_cursor;
    pkt_put_u16 0;;
    pkt_put_ipaddress ipsize router_id;;
    pkt_put_u8 255;;
    pkt_put_u8 0;;
    pkt_put_u16 seqno;;
    mret length_field);
  foldr (fun h m => put_hna_net h;; m) (mret tt) hna_entries;;
  match hna_entries with
  | [] => mret tt
  | _ => curr ← put_cursor; pkt_put_u16_at length_field (Z.of_nat curr)
  end.

(** [msg_buffer] is what the buffer holds before. *)
Definition generate_hna (msg_buffer : list Z) (validity_time : Z) (hna_entries : prefix_list) : M unit :=
  sq ← next_seqno;
  r ← se_opt (put_hna validity_time sq hna_entries ([], msg_buffer));
  match hna_entries with
  | [] => mret tt
  | _ => L ← on_net (se_get interface_head); push_message r.1.1 L
  end.

(** ** MID *)

(** The loop over the interfaces; [None] is the early return for want of room. [sendMID] says
    whether an address has been written. *)
Fixpoint put_mid_addrs (addrs : list ip_addr) (sendMID : bool) : WR (option bool) :=
  match addrs with
  | [] => mret (Some sendMID)
  | a :: addrs =>
    if negb (ipcmp ip_version router_id a =? 0) then
      curr ← put_cursor;
      if Z.of_nat MSG_BUFFER - Z.of_nat ipsize <? Z.of_nat curr then mret None
      else pkt_put_ipaddress ipsize a;; put_mid_addrs addrs true
    else put_mid_addrs addrs sendMID
  end.

(** Returns whether the message is sent. *)
Definition put_mid (validity_time seqno : Z) (addrs : list ip_addr) : WR bool :=
  length_field ← olsr_put_msg_hdr ipsize (mkMsg MID_MESSAGE validity_time 0 router_id MAX_TTL 0 seqno 0 0 0);
  sendMID ← put_mid_addrs addrs false;
  if default false sendMID : bool then
    curr ← put_cursor; pkt_put_u16_at length_field (Z.of_nat curr);; mret true
  else mret false.

Definition if_addrs (N : net_st) : option (list ip_addr) := mapM (fun p => if_ip <$> ifs N !! p) (interface_head N).

Definition generate_mid (msg_buffer : list Z) (validity_time : Z) : M unit :=
  sq ← next_seqno;
  addrs ← on_net (se_get if_addrs);
  addrs ← se_opt addrs;
  r ← se_opt (put_mid validity_time sq addrs ([], msg_buffer));
  if r.2 : bool then L ← on_net (se_get interface_head); push_message r.1.1 L else mret tt.

(** ** Messages with their size *)
Definition set_msg_size (n : Z) (m : olsr_message) : olsr_message :=
  mkMsg (m_type m) (vtime m) n (originator m) (ttl m) (hopcnt m) (seqno m) (header m) (payload m) (end_ m).

Lemma sized_run m put pl r : m_size m = 0 -> msg_fields_ok ipsize m -> writes put pl (fun _ => tt) ->
  let n := (8 + ipsize + length pl)%nat in
  (lf ← olsr_put_msg_hdr ipsize m; put;; curr ← put_cursor; pkt_put_u16_at lf (Z.of_nat curr)) ([], r) =
  if decide (n <= length r)%nat then Some ((hdr_bytes ipsize (set_msg_size (Z.of_nat n) m) ++ pl, drop n r), tt) else None.
Proof.
  intros E0 Ok W n. pose (body := fun lf : nat => (put;; curr ← put_cursor; mret (lf, curr)) : WR (nat * nat)).
  assert (WB : forall lf : nat, writes (body lf) (pl ++ []) (fun k => (lf, (k + length pl)%nat))).
  { intros lf. eapply writes_ext.
    - eapply writes_then; [exact W|]. eapply (writes_bind _ _ _ _ (fun n => n) (fun c _ => (lf, c))); [apply writes_cursor|]. intros c. apply writes_ret.
    - done.
    - done. }
  assert (WH := writes_bind _ body _ _ _ _ (put_msg_hdr_writes _ _ Ok) (fun k => WB (k + 2)%nat) [] r). cbn [length] in WH.
  rewrite app_nil_r, length_app, (hdr_length _ _ Ok) in WH. fold n in WH.
  match type of WH with ?g _ = _ => transitivity ((x ← g; pkt_put_u16_at x.1 (Z.of_nat x.2)) ([], r)) end.
  { unfold body, mbind, se_bind. destruct (olsr_put_msg_hdr _ _ _) as [[s1 k]|]; [|done]. by destruct (put s1) as [[s2 []]|]. }
  unfold mbind at 1, se_bind at 1. rewrite WH. case_decide; [|done].
  change ([] ++ hdr_bytes ipsize m ++ pl) with (hdr_bytes ipsize m ++ pl). unfold hdr_bytes. rewrite <- !app_assoc, E0. change (to_be 2 0) with [0; 0].
  pose proof (fix_length [] [m_type m; olsr_clock_encode_olsrv1 (vtime m)] 0 0) as F. simpl length in F.
  etransitivity; [apply F; done|]. done.
Qed.

(** ** The networks of an HNA message *)
Definition net_bytes (h : olsr_ip_prefix) : list Z := take ipsize (prefix h) ++ take ipsize (prefix_to_netmask ipsize (prefix_len h)).1.
Definition nets_bytes (hs : prefix_list) : list Z := mjoin (net_bytes <$> hs).

Lemma put_nets_writes hs : writes (foldr (fun h m => put_hna_net h;; m) (mret tt) hs) (nets_bytes hs) (fun _ => tt).
Proof.
  induction hs as [|h hs IH]; [apply writes_ret|]. eapply (writes_then _ _ _ _ (fun _ => tt)); [|exact IH].
  eapply (writes_then _ _ _ _ (fun _ => tt)); apply writes_store.
Qed.

Definition net_fields_ok (h : olsr_ip_prefix) : Prop := (ipsize <= length (prefix h))%nat /\ 0 <= prefix_len h <= 8 * Z.of_nat ipsize.

Lemma net_bytes_length h : net_fields_ok h -> length (net_bytes h) = (2 * ipsize)%nat.
Proof. intros [H _]. unfold net_bytes. rewrite length_app, !length_take, netmask_length. lia. Qed.
Lemma nets_bytes_length hs : Forall net_fields_ok hs -> length (nets_bytes hs) = (2 * ipsize * length hs)%nat.
Proof.
  induction 1 as [|h hs H Hs IH]; [simpl; lia|]. change (nets_bytes (h :: hs)) with (net_bytes h ++ nets_bytes hs).
  rewrite length_app, IH, (net_bytes_length h H). simpl. lia.
Qed.

(** How a receiver sees network [h]. *)
Definition net_read (pad : olsr_ip_prefix) (h : olsr_ip_prefix) : olsr_ip_prefix :=
  mkPfx (take ipsize (prefix h) ++ drop ipsize (prefix pad)) (prefix_len h) (prefix_origin pad).

Lemma get_net_bytes pad pfx h rest : net_fields_ok h -> drop ipsize (prefix pfx) = drop ipsize (prefix pad) -> prefix_origin pfx = prefix_origin pad ->
  get_hna_net ip_version pfx (net_bytes h ++ rest) = Some (rest, net_read pad h).
Proof.
  intros [Hl Hp] Ed Eo. unfold get_hna_net, pkt_get_ipaddress, pkt_get_prefixlen, net_bytes. rewrite <- app_assoc.
  erewrite bind2_run by (apply pkt_bytes_run; rewrite length_take; lia). erewrite bind_run by reflexivity.
  erewrite bind2_run by (apply pkt_bytes_run; rewrite length_take, netmask_length; lia). erewrite bind_run by reflexivity.
  pose proof (tc_ipsize_pos ip_version). rewrite (take_ge (prefix_to_netmask _ _).1) by (rewrite netmask_length; lia).
  rewrite (proj1 (netmask_roundtrip ipsize (prefix_len h) Hp ltac:(lia))). unfold net_read. by rewrite Ed, Eo.
Qed.

Lemma announced_bytes pad hs rest : Forall net_fields_ok hs -> forall fuel pfx, (length hs < fuel)%nat ->
  drop ipsize (prefix pfx) = drop ipsize (prefix pad) -> prefix_origin pfx = prefix_origin pad ->
  announced ip_version fuel (Z.of_nat (length (nets_bytes hs))) (nets_bytes hs ++ rest) pfx = Some (net_read pad <$> hs).
Proof.
  pose proof (tc_ipsize_pos ip_version) as Hip.
  induction 1 as [|h hs H Hs IH]; intros fuel pfx Hf Ed Eo; (destruct fuel as [|fuel]; [simpl in Hf; lia|]); cbn [announced].
  { rewrite (proj2 (Z.leb_gt _ _)); [done|]. simpl. lia. }
  change (nets_bytes (h :: hs)) with (net_bytes h ++ nets_bytes hs). rewrite length_app, (net_bytes_length h H).
  rewrite (proj2 (Z.leb_le _ _)) by lia. rewrite <- app_assoc. rewrite (get_net_bytes pad pfx h _ H Ed Eo). simpl.
  replace (Z.of_nat _ - _) with (Z.of_nat (length (nets_bytes hs))) by lia. rewrite (IH fuel (net_read pad h)); [done|simpl in Hf; lia| |done].
  unfold net_read. simpl. destruct H as [Hl _]. rewrite drop_app_length'; [done|]. rewrite length_take. lia.
Qed.

Definition hna_msg (validity_time sq size : Z) : olsr_message := mkMsg HNA_MESSAGE validity_time size router_id 255 0 sq 0 0 0.
Definition hna_length (hs : prefix_list) : nat := (8 + ipsize + 2 * ipsize * length hs)%nat.
Definition hna_fields_ok (validity_time sq : Z) (hs : prefix_list) : Prop :=
  is_u 32 validity_time /\ is_u 16 sq /\ bytes router_id /\ (ipsize <= length router_id)%nat /\ Forall net_fields_ok hs.

Lemma put_hna_run validity_time sq hs r : hna_fields_ok validity_time sq hs -> hs <> [] ->
  put_hna validity_time sq hs ([], r) = if decide (hna_length hs <= length r)%nat
    then Some ((hdr_bytes ipsize (hna_msg validity_time sq (Z.of_nat (hna_length hs))) ++ nets_bytes hs, drop (hna_length hs) r), tt) else None.
Proof.
  intros (Hv & Hs & Hb & Hl & Hn) Hne. assert (Ok : msg_fields_ok ipsize (hna_msg validity_time sq 0)) by (by split).
  pose proof (sized_run (hna_msg validity_time sq 0) _ _ r eq_refl Ok (put_nets_writes hs)) as R. cbv zeta in R.
  rewrite (nets_bytes_length hs Hn) in R. fold (hna_length hs) in R. destruct hs as [|h hs]; [done|]. exact R.
Qed.

(** C29: The HNA message that [generate_hna] writes for the configured networks, if it fits into the message buffer,
    is read by a receiver as exactly these networks, in order, with their
    addresses and prefix lengths, and its header has the size of the message; if it does not fit, the message is written past the end of
    the buffer, since [generate_hna] computes the last position but never compares with it. *)
Theorem hna_roundtrip validity_time sq hs r rest curr old pad : hna_fields_ok validity_time sq hs -> hs <> [] -> length r = MSG_BUFFER ->
  if decide (hna_length hs <= MSG_BUFFER)%nat then
    exists b body msg, put_hna validity_time sq hs ([], r) = Some ((b, drop (hna_length hs) r), tt) /\ length b = hna_length hs /\
      olsr_parse_msg_hdr ipsize curr old (b ++ rest) = Some (body, msg) /\ m_type msg = HNA_MESSAGE /\ seqno msg = sq /\
      originator msg = take ipsize router_id ++ drop ipsize old /\ end_ msg = curr + Z.of_nat (length b) /\
      announced_nets ip_version msg body pad = net_read pad <$> hs
  else put_hna validity_time sq hs ([], r) = None.
Proof.
  intros F Hne Hr. rewrite put_hna_run, Hr by done. case_decide as Hlen; [|done]. pose proof F as (Hv & Hs & Hb & Hl & Hn).
  destruct (proj1 vtime_codec _ (encode_byte _ Hv)) as (v & Ev & _).
  assert (Om : msg_fields_ok ipsize (hna_msg validity_time sq (Z.of_nat (hna_length hs)))) by (split; try done; unfold is_u; simpl; unfold MSG_BUFFER in Hlen; lia).
  assert (El : length (hdr_bytes ipsize (hna_msg validity_time sq (Z.of_nat (hna_length hs))) ++ nets_bytes hs) = hna_length hs).
  { rewrite length_app, (hdr_length _ _ Om), (nets_bytes_length hs Hn). done. }
  do 3 eexists. split; [reflexivity|]. split; [exact El|]. split; [rewrite <- app_assoc; by apply parse_msg_hdr_bytes|].
  split_and!; [done|done|done|by rewrite El|]. unfold announced_nets. simpl end_. simpl payload.
  replace (curr + Z.of_nat (hna_length hs) - (curr + 8 + Z.of_nat ipsize)) with (Z.of_nat (length (nets_bytes hs))).
  2: { rewrite (nets_bytes_length hs Hn). unfold hna_length. lia. }
  rewrite (announced_bytes pad hs rest Hn (S (length (nets_bytes hs ++ rest))) pad); [done| |done|done].
  rewrite length_app, (nets_bytes_length hs Hn). pose proof (tc_ipsize_pos ip_version). nia.
Qed.

(** ** The addresses of a MID message *)
Definition others (addrs : list ip_addr) : list ip_addr := filter (fun a => ipcmp ip_version router_id a <> 0) addrs.
Definition addrs_bytes (L : list ip_addr) : list Z := mjoin (take ipsize <$> L).
Definition mid_length (addrs : list ip_addr) : nat := (8 + ipsize + ipsize * length (others addrs))%nat.

Lemma others_length addrs : Forall (fun a => (ipsize <= length a)%nat) addrs -> length (addrs_bytes (others addrs)) = (ipsize * length (others addrs))%nat.
Proof.
  induction 1 as [|x l Hx _ IH]; [simpl; lia|]. unfold others. rewrite filter_cons. fold (others l). case_decide; [|done].
  change (addrs_bytes (x :: others l)) with (take ipsize x ++ addrs_bytes (others l)). rewrite length_app, IH, length_take. simpl. lia.
Qed.

Lemma put_mid_addrs_run addrs : Forall (fun a => (ipsize <= length a)%nat) addrs -> forall b a r, (length a + length r = MSG_BUFFER)%nat ->
  let L := others addrs in
  if decide (length a + ipsize * length L <= MSG_BUFFER)%nat
  then put_mid_addrs addrs b (a, r) = Some ((a ++ addrs_bytes L, drop (ipsize * length L) r), Some (b || negb (bool_decide (L = []))))
  else exists s, put_mid_addrs addrs b (a, r) = Some (s, None).
Proof.
  induction 1 as [|x addrs Hx HL IH]; intros b a r Hr L; cbn [put_mid_addrs].
  { unfold L. simpl. rewrite Nat.mul_0_r, decide_True by lia. unfold addrs_bytes. simpl. by rewrite app_nil_r, orb_false_r. }
  unfold L, others. rewrite filter_cons. fold (others addrs). destruct (Z.eqb_spec (ipcmp ip_version router_id x) 0) as [E|E]; simpl negb; cbv iota.
  { rewrite (decide_False (P := ipcmp ip_version router_id x <> 0)) by (intros HN; by apply HN). by apply IH. }
  rewrite (decide_True _ _ E). simpl length. assert (Ht : length (take ipsize x) = ipsize) by (rewrite length_take; lia).
  match goal with |- context [?m (a, r)] => assert (R : m (a, r) = if Z.of_nat MSG_BUFFER - Z.of_nat ipsize <? Z.of_nat (length a) then Some ((a, r), None)
    else put_mid_addrs addrs true (a ++ take ipsize x, drop ipsize r)) end.
  { cbn [negb]. erewrite bind_run by done. change (length (a, r).1) with (length a).
    destruct (Z.ltb_spec (Z.of_nat MSG_BUFFER - Z.of_nat ipsize) (Z.of_nat (length a))); [done|].
    erewrite bind_run by (apply pkt_store_run; lia). by rewrite Ht. }
  rewrite R. clear R. destruct (Z.ltb_spec (Z.of_nat MSG_BUFFER - Z.of_nat ipsize) (Z.of_nat (length a))) as [Hb|Hb].
  { rewrite decide_False by nia. by eexists. }
  specialize (IH true (a ++ take ipsize x) (drop ipsize r)).
  cbv zeta in IH. rewrite length_app, length_drop, Ht in IH. specialize (IH ltac:(lia)). case_decide as D.
  - case_decide as D'; [|lia]. rewrite bool_decide_eq_false_2, orb_true_r by done. rewrite IH, drop_drop, <- app_assoc. do 3 f_equal. f_equal. lia.
  - by case_decide as D'; [lia|].
Qed.

Definition mid_msg (validity_time sq size : Z) : olsr_message := mkMsg MID_MESSAGE validity_time size router_id MAX_TTL 0 sq 0 0 0.
Definition mid_fields_ok (validity_time sq : Z) (addrs : list ip_addr) : Prop :=
  is_u 32 validity_time /\ is_u 16 sq /\ bytes router_id /\ (ipsize <= length router_id)%nat /\ Forall (fun a => (ipsize <= length a)%nat) addrs.

(** [generate_mid] never writes past its buffer. It sends a message exactly if the router has an interface
    address other than its own main address and all such addresses fit; the message then has these addresses
    in the order of the interfaces, behind a header with the size of the message. *)
Theorem mid_message_correct validity_time sq addrs r : mid_fields_ok validity_time sq addrs -> length r = MSG_BUFFER ->
  if decide (others addrs <> [] /\ (mid_length addrs <= MSG_BUFFER)%nat) then
    put_mid validity_time sq addrs ([], r) =
      Some ((hdr_bytes ipsize (mid_msg validity_time sq (Z.of_nat (mid_length addrs))) ++ addrs_bytes (others addrs), drop (mid_length addrs) r), true)
  else exists s, put_mid validity_time sq addrs ([], r) = Some (s, false).
Proof.
  intros (Hv & Hs & Hb & Hl & Ha) Hr. assert (Ok : msg_fields_ok ipsize (mid_msg validity_time sq 0)) by (by split).
  pose proof (tc_ipsize_pos ip_version) as Hip. assert (H0 : length (hdr_bytes ipsize (mid_msg validity_time sq 0)) = (8 + ipsize)%nat) by (by apply hdr_length).
  set (h0 := hdr_bytes ipsize (mid_msg validity_time sq 0)) in *.
  assert (R0 : olsr_put_msg_hdr ipsize (mid_msg validity_time sq 0) ([], r) = Some ((h0, drop (8 + ipsize) r), 2%nat)).
  { rewrite (put_msg_hdr_writes _ _ Ok). fold h0. rewrite H0, decide_True by (rewrite Hr; unfold MSG_BUFFER; lia). done. }
  pose proof (put_mid_addrs_run addrs Ha false h0 (drop (8 + ipsize) r)) as R. cbv zeta in R.
  rewrite H0, length_drop in R. specialize (R ltac:(rewrite Hr; unfold MSG_BUFFER; lia)). fold (mid_length addrs) in R.
  destruct (decide (mid_length addrs <= MSG_BUFFER)%nat) as [Hlen|Hlen].
  2: { destruct R as (s & R). case_decide; [tauto|]. exists s. unfold put_mid. erewrite bind_run by exact R0. by erewrite bind_run by exact R. }
  assert (R1 : put_mid validity_time sq addrs ([], r) = (if negb (bool_decide (others addrs = [])) then
      curr ← put_cursor; pkt_put_u16_at 2 (Z.of_nat curr);; mret true else mret false) (h0 ++ addrs_bytes (others addrs), drop (ipsize * length (others addrs)) (drop (8 + ipsize) r))).
  { unfold put_mid. erewrite bind_run by exact R0. by erewrite bind_run by exact R. }
  rewrite R1. case_bool_decide as E; cbn [negb]; (case_decide; [|tauto || by eexists]); [tauto|].
  erewrite bind_run by done. change (length (_, _).1) with (length (h0 ++ addrs_bytes (others addrs))).
  assert (Hlb : length (h0 ++ addrs_bytes (others addrs)) = mid_length addrs).
  { rewrite length_app, H0. unfold mid_length. by rewrite others_length. }
  rewrite Hlb. unfold h0, hdr_bytes. rewrite <- !app_assoc. change (to_be 2 (m_size (mid_msg validity_time sq 0))) with [0; 0].
  pose proof (fix_length [] [m_type (mid_msg validity_time sq 0); olsr_clock_encode_olsrv1 (vtime (mid_msg validity_time sq 0))] 0 0) as F. simpl length in F.
  erewrite bind_run by (apply F; done). rewrite drop_drop. unfold mid_length. done.
Qed.
End announce.

(** ** Two networks, and a router with two interfaces *)
Definition ademo_ip (b : Z) : ip_addr := [10; 0; 0; b] ++ replicate 12 0.
Definition ademo_nets : prefix_list := [mkPfx (ademo_ip 0) 24 0; mkPfx ([192; 168] ++ replicate 14 0) 16 0].

Lemma ademo_fields n : hna_fields_ok AF_INET (ademo_ip 1) 15000 77 (concat (replicate n ademo_nets)).
Proof.
  unfold hna_fields_ok. split; [done|]. split; [done|]. split; [apply (bool_decide_unpack _); by vm_compute|]. split; [apply Nat.leb_le; by vm_compute|].
  induction n as [|n IH]; [constructor|]. simpl. apply Forall_cons. split; [split; [apply Nat.leb_le; by vm_compute|done]|].
  apply Forall_cons. split; [split; [apply Nat.leb_le; by vm_compute|done]|done].
Qed.

(** Two networks fit, two hundred do not. *)
Lemma hna_roundtrip_witness :
  (exists b body msg, put_hna AF_INET (ademo_ip 1) 15000 77 ademo_nets ([], replicate 1496 0) = Some ((b, drop 28 (replicate 1496 0)), tt) /\
    length b = 28%nat /\ olsr_parse_msg_hdr 4 4 [] (b ++ [1; 2]) = Some (body, msg) /\ m_type msg = HNA_MESSAGE /\ seqno msg = 77 /\
    originator msg = [10; 0; 0; 1] /\ end_ msg = 4 + Z.of_nat (length b) /\
    announced_nets AF_INET msg body (mkPfx [] 0 0) = [mkPfx [10; 0; 0; 0] 24 0; mkPfx [192; 168; 0; 0] 16 0]) /\
  put_hna AF_INET (ademo_ip 1) 15000 77 (concat (replicate 100 ademo_nets)) ([], replicate 1496 0) = None.
Proof.
  split.
  - exact (hna_roundtrip AF_INET (ademo_ip 1) 15000 77 (concat (replicate 1 ademo_nets)) (replicate 1496 0) [1; 2] 4 [] (mkPfx [] 0 0)
      (ademo_fields 1) ltac:(done) ltac:(apply length_replicate)).
  - exact (hna_roundtrip AF_INET (ademo_ip 1) 15000 77 (concat (replicate 100 ademo_nets)) (replicate 1496 0) [1; 2] 4 [] (mkPfx [] 0 0)
      (ademo_fields 100) ltac:(done) ltac:(apply length_replicate)).
Defined.

Lemma mid_message_correct_witness :
  put_mid AF_INET (ademo_ip 1) 15000 77 [ademo_ip 1; ademo_ip 2] ([], replicate 1496 0) =
    Some ((hdr_bytes 4 (mid_msg (ademo_ip 1) 15000 77 16) ++ [10; 0; 0; 2], drop 16 (replicate 1496 0)), true).
Proof.
  refine (mid_message_correct AF_INET (ademo_ip 1) 15000 77 [ademo_ip 1; ademo_ip 2] (replicate 1496 0) _ (length_replicate 1496 0)).
  split; [done|]. split; [done|]. split; [apply (bool_decide_unpack _); by vm_compute|]. split; [apply Nat.leb_le; by vm_compute|].
  repeat constructor; apply Nat.leb_le; by vm_compute.
Defined.
