(* ===== verification/HelloInput.v ===== *)
(** * HELLO messages at work ([process_package.c], [olsr_process_changes] of [olsr.c])

    A HELLO updates the link it came over and the two hop neighbours behind it; then what
    has changed is processed: the relays are selected and the routes calculated. *)
From Stdlib Require Import String.
From S2P Require Import Prelude Frames AvlSpec AvlOps Trees Types Comparators IpCalc IpLists Memcookie Clock Timer DuplicateSet Packet NetOut Lsdb LqHandler LqEtxFf Neighborhood LinkSet TcGraph TcSet TcInv TcInput TcProps RoutingTable ProcessRoutes RibUpdate KernelRoutes RibRefresh RibPaths NodeSet HnaSet NbrTable NbrProps NbrEntry Spf RouteCalc Mpr Hello LinkOps LinkProps.

(** The state of the router: the link set and all it uses, the timer that delays the
    calculation of routes, and the sequence number of the own announcements. *)
Section router.
Context `{LQ : LqHandler} {LL : LqLinks} `{KE : RouteExport}.
Record router := mkRouter {
  ro_sens : sensing;
  ro_backoff : option loc;
  ro_backoff_info : loc;
  local_ansn_number : Z;
  changes_force : bool
}.
Definition with_sens (n : sensing) (s : router) : router := mkRouter n (ro_backoff s) (ro_backoff_info s) (local_ansn_number s) (changes_force s).
Definition with_ansn (n : Z) (s : router) : router := mkRouter (ro_sens s) (ro_backoff s) (ro_backoff_info s) n (changes_force s).
Definition set_changes_force (b : bool) (s : router) : router := mkRouter (ro_sens s) (ro_backoff s) (ro_backoff_info s) (local_ansn_number s) b.
Definition on_sens {A} (m : SE sensing A) : SE router A := fun s =>
  match m (ro_sens s) with Some (n, a) => Some (with_sens n s, a) | None => None end.
(** The local variables of the calculation are gone after it. *)
Definition calc_of (s : router) : calc := mkCalc (sn_nodes (ro_sens s)) (ro_backoff s) (ro_backoff_info s) [] [] 0.
Definition put_calc (c : calc) (s : router) : router :=
  mkRouter (with_sn (c_nodes c) (ro_sens s)) (spf_backoff_timer c) (spf_backoff_timer_info c) (local_ansn_number s) (changes_force s).
Definition on_calc {A} (m : SE calc A) : SE router A := fun s =>
  match m (calc_of s) with Some (c, a) => Some (put_calc c s, a) | None => None end.
End router.

Section hello_input.
Context `{LQ : LqHandler} {LL : LqLinks} `{KE : RouteExport} (rnd : nat -> Z) (ip_version lq_nat_thresh : Z) (fibm_correct : bool) (router_id : ip_addr).
Context (tc_redundancy mpr_coverage : Z) (int_name : loc -> option string) (if_configs : list (option loc * list (ip_addr * Z))).
(** [interface_lost_tree] *)
Context (lost : list (loc * ip_addr)).
Abbreviation M := (SE sensing).
Abbreviation R := (SE router).
Abbreviation comp := (avl_comp_default ip_version).

(** ** The neighbours of a neighbour *)
Definition message_neighbor (neighbor : loc) (lnk : option loc) (vtime : Z) (h : lq_hello_neighbor) : M unit :=
  if negb (neigh_type h =? SYM_NEIGH) && negb (neigh_type h =? MPR_NEIGH) then mret tt
  else
    i ← if_ifwithaddr ip_version (hn_addr h);
    match i with
    | Some _ => mret tt
    | None =>
      main_addr ← on_w_get (olsr_lookup_main_addr_by_alias ip_version (hn_addr h));
      let neigh_addr := default (hn_addr h) main_addr in
      olsr_link_nbr_nbr2 rnd ip_version neighbor neigh_addr vtime;;
      match lnk with
      | None => mret tt
      | Some p =>
        connector ← olsr_lookup_nbr_con_entry ip_version neighbor neigh_addr;
        c ← se_opt connector;
        l ← on_w (rd_link p);
        on_w (wr_con c (set_con_cost (hn_cost h) (u32 (linkcost l + hn_cost h))));;
        se_mod (set_changes_neighborhood true)
      end
    end.
Fixpoint message_neighbors (neighbor : loc) (lnk : option loc) (vtime : Z) (ns : list lq_hello_neighbor) : M unit :=
  match ns with
  | [] => mret tt
  | h :: ns => message_neighbor neighbor lnk vtime h;; message_neighbors neighbor lnk vtime ns
  end.
Definition process_message_neighbors (neighbor : loc) (vtime : Z) (message : lq_hello_message) : M unit :=
  nw ← se_get (fun s => now (get_timers s));
  lnk ← on_w (get_best_link_to_neighbor nw (Some neighbor));
  message_neighbors neighbor lnk vtime (neigh message).

(** ** Who selects this router as a relay *)
Definition olsr_update_mprs_set (message : lq_hello_message) (link : loc) : M unit :=
  l ← on_w (rd_link link);
  i ← rd_if (inter l);
  let new_mprs_status := lookup_mpr_status ip_version (neigh message) (if_ip i) in
  (if new_mprs_status && negb (link_is_mprs l)
   then on_w (wr_nbr (link_neighbor l) (fun n => set_mprs_count (mprs_count n + 1) n)) else mret tt);;
  (if negb new_mprs_status && link_is_mprs l
   then on_w (wr_nbr (link_neighbor l) (fun n => set_mprs_count (mprs_count n - 1) n)) else mret tt);;
  on_w (wr_link link (set_link_is_mprs new_mprs_status)).

(** ** Changes *)
Definition increase_local_ansn_number : R unit := se_mod (fun s => with_ansn (u16 (local_ansn_number s + 1)) s).

(** [fuel] bounds the calculation of the routes. *)
Definition olsr_process_changes (fuel : nat) : R unit :=
  nb ← on_sens (se_get changes_neighborhood);
  tp ← on_sens (se_get (fun s => changes_topology (sn_topo s)));
  hna ← on_sens (se_get (fun s => changes_hna (sn_topo s)));
  if negb nb && negb tp && negb hna then mret tt
  else
    (if nb : bool then
       increase_local_ansn_number;;
       nw ← on_sens (se_get (fun s => now (get_timers s)));
       b ← on_sens (on_w (olsr_calculate_lq_mpr ip_version nw mpr_coverage tc_redundancy));
       if b : bool then on_sens (se_mod (signal_link_changes true)) else mret tt
     else mret tt);;
    on_calc (olsr_calculate_routing_table rnd ip_version lq_nat_thresh fibm_correct router_id fuel false);;
    on_sens (se_mod (set_changes_neighborhood false));;
    on_sens (on_st (se_mod (set_changes_topology false)));;
    on_sens (on_st (se_mod (set_changes_hna false)));;
    se_mod (set_changes_force false).

(** ** HELLO messages *)
Definition names_interface (if_addr : ip_addr) (h : lq_hello_neighbor) : bool :=
  negb (link_type h =? UNSPEC_LINK) && (ipcmp ip_version (hn_addr h) if_addr =? 0).
Definition hello_link (originator : ip_addr) (vtime : Z) (message : lq_hello_message) (in_if : loc) (from_addr : ip_addr) : M unit :=
  i ← rd_if in_if;
  lnk ← update_link_entry rnd ip_version router_id tc_redundancy int_name if_configs (if_ip i) from_addr originator vtime message in_if;
  olsr_update_packet_loss_hello_int lnk (htime message);;
  let walker := head (filter (fun h => names_interface (if_ip i) h = true) (neigh message)) in
  olsr_update_mprs_set message lnk;;
  olsr_memorize_foreign_hello_lq lnk (hn_lq <$> walker);;
  olsr_update_packet_loss rnd lnk;;
  l ← on_w (rd_link lnk);
  n ← on_w (rd_nbr (link_neighbor l));
  (if negb (willingness n =? will message) then
     on_w (wr_nbr (link_neighbor l) (set_willingness (will message)));;
     se_mod (set_changes_neighborhood true);;
     on_st (se_mod (set_changes_topology true))
   else mret tt);;
  if negb (will message =? WILL_NEVER) then process_message_neighbors (link_neighbor l) vtime message else mret tt.
Definition hello_tap (fuel : nat) (originator : ip_addr) (vtime : Z) (message : lq_hello_message) (in_if : loc) (from_addr : ip_addr) : R unit :=
  on_sens (hello_link originator vtime message in_if from_addr);;
  olsr_process_changes fuel.

Definition olsr_input_hello (fuel : nat) (msg : olsr_message) (body : list Z) (inif : loc) (from : ip_addr) : R unit :=
  r ← se_opt (deserialize_hello ip_version lost (end_ msg - payload msg) body);
  hello_tap fuel (originator msg) (vtime msg) r.2 inif from.
End hello_input.
