(* ===== verification/HelloProps.v ===== *)
(** * What a HELLO changes

    The two hop neighbours that a HELLO adds, their costs, and what becomes of changes
    while the calculation of routes is delayed. *)
From Stdlib Require Import String.
From S2P Require Import Prelude Frames AvlSpec AvlOps Trees Types Comparators IpCalc IpLists Memcookie Clock Timer DuplicateSet Packet NetOut Lsdb LqHandler LqEtxFf Neighborhood LinkSet TcGraph TcSet TcInv TcInput TcProps RoutingTable ProcessRoutes RibUpdate KernelRoutes RibRefresh RibPaths NodeSet HnaSet NbrTable NbrProps NbrEntry Spf RouteCalc Mpr Hello LinkOps LinkProps HelloInput.

Section hello_props.
Context `{LQ : LqHandler} {LL : LqLinks} `{KE : RouteExport} (rnd : nat -> Z) (ip_version : Z).
Abbreviation comp := (avl_comp_default ip_version).
Abbreviation cons_ok := (cons_ok ip_version).
Abbreviation hops := (NbrProps.hops ip_version).

(** ** Own addresses *)
Definition ifs_ok (s : sensing) : Prop := forall ifp, ifp ∈ interface_head (get_net s) -> is_Some (ifs (get_net s) !! ifp).
Definition own (s : sensing) (a : ip_addr) : Prop :=
  Exists (fun ifp => (fun i => ipcmp ip_version (if_ip i) a) <$> ifs (get_net s) !! ifp = Some 0) (interface_head (get_net s)).

Lemma put_get_net s : put_net (get_net s) s = s.
Proof. by destruct s as [[[[]]]]. Qed.
Lemma rd_if_calc s ifp i : ifs (get_net s) !! ifp = Some i -> rd_if ifp s = Some (s, i).
Proof. intros H. unfold rd_if, on_net. rewrite H. cbv [fmap option_fmap option_map]. by rewrite put_get_net. Qed.
Lemma find_own_run P s l : (forall ifp, ifp ∈ l -> is_Some (ifs (get_net s) !! ifp)) ->
  exists r, find_if P l s = Some (s, r) /\ (r <> None <-> exists ifp i, ifp ∈ l /\ ifs (get_net s) !! ifp = Some i /\ P i = true).
Proof.
  induction l as [|ifp l IH]; intros Ok; [exists None; split; [done|]; split; [done|]; by intros (? & ? & ?%elem_of_nil & _)|].
  destruct (Ok ifp ltac:(by left)) as [i Hi]. cbn [find_if]. erewrite bind_run by (by apply rd_if_calc). destruct (P i) eqn:EP.
  - exists (Some ifp). split; [done|]. split; [|done]. intros _. exists ifp, i. by split; [left|].
  - destruct IH as (r & R & H); [intros q Hq; apply Ok; by right|]. exists r. split; [done|]. rewrite H. split.
    + intros (q & j & Hq & ?). exists q, j. split; [by right|done].
    + intros (q & j & [->|Hq]%elem_of_cons & Hj & Pj); [congruence|]. by exists q, j.
Qed.
Lemma ifwithaddr_run s a : ifs_ok s -> exists r, if_ifwithaddr ip_version a s = Some (s, r) /\ (r <> None <-> own s a).
Proof.
  intros Ok. unfold if_ifwithaddr. erewrite bind_run by (unfold on_net, se_get; by rewrite put_get_net).
  destruct (find_own_run (fun i => ipcmp ip_version (if_ip i) a =? 0) s _ Ok) as (r & R & H). exists r. split; [done|]. rewrite H. unfold own. rewrite Exists_exists.
  setoid_rewrite fmap_Some. setoid_rewrite Z.eqb_eq. naive_solver.
Qed.

(** ** Announced neighbours *)
Definition counted (s : sensing) (h : lq_hello_neighbor) : Prop := (neigh_type h = SYM_NEIGH \/ neigh_type h = MPR_NEIGH) /\ ~ own s (hn_addr h).
Definition main_of (w : neighborhood) (a : ip_addr) : ip_addr := default a (default None (olsr_lookup_main_addr_by_alias ip_version a w)).
(** The entry of the message is for the address [a]. *)
Definition names (s : sensing) (w : neighborhood) (a : ip_addr) (h : lq_hello_neighbor) : Prop := counted s h /\ comp a (main_of w (hn_addr h)) = 0.

Lemma frame_main w w' a : w_frame w w' -> main_of w' a = main_of w a.
Proof. intros F. unfold main_of, olsr_lookup_main_addr_by_alias, olsr_lookup_mid_entry. by rewrite (wf_mid_tree _ _ F), (wf_mids _ _ F), (wf_lsdb _ _ F). Qed.

(** The costs of the connector are those of an entry of the message. *)
Definition costs_of (h : lq_hello_neighbor) (c : Z) (x : nbr_con) : Prop := second_hop_linkcost x = hn_cost h /\ path_linkcost x = u32 (c + hn_cost h).
Definition same_con (x x' : nbr_con) : Prop := con_nbr x' = con_nbr x /\ con_nbr2 x' = con_nbr2 x /\
  second_hop_linkcost x' = second_hop_linkcost x /\ path_linkcost x' = path_linkcost x.
Lemma same_con_refl x : same_con x x.
Proof. done. Qed.
Lemma same_con_trans x y z : same_con x y -> same_con y z -> same_con x z.
Proof. unfold same_con. intuition congruence. Qed.

(** One entry: [b'] says that a cost was stored. *)
Record entry_done (s : sensing) (p : loc) (lnk : option loc) (h : lq_hello_neighbor) (w w' : neighborhood) : Prop := {
  ed_frame : w_frame w w';
  ed_hops : forall p' a, hops w' p' a <-> hops w p' a \/ (p' = p /\ names s w a h);
  ed_at : forall q k, nbr2_at w q = Some k -> nbr2_at w' q = Some k;
  ed_same : forall c x k, nbr_cons w !! c = Some x -> nbr2_at w (con_nbr2 x) = Some k -> con_nbr x <> p \/ ~ names s w k h ->
    exists x', nbr_cons w' !! c = Some x' /\ same_con x x';
  ed_cost : forall q l a, lnk = Some q -> links w !! q = Some l -> names s w a h ->
    exists c x k, nbr_cons w' !! c = Some x /\ con_nbr x = p /\ nbr2_at w' (con_nbr2 x) = Some k /\ comp a k = 0 /\ costs_of h (linkcost l) x
}.

Lemma entry_skipped s p lnk h w : ~ counted s h -> entry_done s p lnk h w w.
Proof.
  intros H. split; [apply w_frame_refl| |done| |].
  - intros p' a. split; [tauto|]. intros [|[_ [? _]]]; [done|by destruct H].
  - intros c x k Hc _ _. exists x. split; [done|apply same_con_refl].
  - intros q l a _ _ [? _]. by destruct H.
Qed.

Lemma entry_linked s p h a c w w' : linked ip_version p a c w w' -> counted s h -> a = main_of w (hn_addr h) -> entry_done s p None h w w'.
Proof.
  intros [L1 L2 L3 L4 L5 L6] C ->. split; try done.
  - intros p' a. rewrite L4. unfold names. tauto.
  - intros c' x k Hc _ _. exists x. split; [|apply same_con_refl]. destruct (decide (c' = c)) as [->|]; [by apply L3|by apply L2].
Qed.

Lemma entry_costed s ti p h a c x q l w w1 T : linked ip_version p a c w w1 -> cons_ok ti w1 T -> counted s h -> a = main_of w (hn_addr h) ->
  nbr_cons w1 !! c = Some x -> links w !! q = Some l ->
  let w' := with_cons (<[c := set_con_cost (hn_cost h) (u32 (linkcost l + hn_cost h)) x]> (nbr_cons w1)) w1 in
  cons_ok ti w' T /\ entry_done s p (Some q) h w w'.
Proof.
  intros L Ok C Ea Hx Hl w'. destruct (con_upd ip_version ti w1 T c x (set_con_cost (hn_cost h) (u32 (linkcost l + hn_cost h)) x) Ok Hx) as [Ok' Hh]; [done..|].
  split; [done|]. destruct (lk_con _ _ _ _ _ _ L) as (x1 & k1 & Hx1 & Ep & Hk1 & Ek). rewrite Hx in Hx1. injection Hx1 as <-.
  destruct (entry_linked s p h a c w w1 L C Ea) as [D1 D2 D3 D4 _]. split; [by destruct D1|intros p' a'; unfold w'; by rewrite Hh|exact D3| |].
  - intros c' y k Hc Hk Hn. destruct (decide (c' = c)) as [->|Hne].
    + exfalso. pose proof (lk_known _ _ _ _ _ _ L y Hc) as Hy. rewrite Hx in Hy. injection Hy as <-.
      apply D3 in Hk. rewrite Hk1 in Hk. injection Hk as <-. destruct Hn as [|Hn]; [done|]. apply Hn. split; [done|]. rewrite <- Ea. by apply (comp_eq_sym comp).
    + destruct (D4 c' y k Hc Hk Hn) as (y' & Hy' & ?). exists y'. split; [|done]. unfold w'. simpl. by rewrite lookup_insert_ne.
  - intros q' l' a' [= <-] Hl' [_ E]. rewrite Hl in Hl'. injection Hl' as <-. exists c, (set_con_cost (hn_cost h) (u32 (linkcost l + hn_cost h)) x), k1.
    unfold w'. simpl. rewrite lookup_insert_eq. split_and!; try done. apply (comp_eq_trans comp _ a); [|done]. by rewrite Ea.
Qed.

Lemma entry_run ti s p lnk vt h w T b : nbr_connector_timer_info s = ti -> ifs_ok s -> vt <> 0 -> cons_ok ti w T -> mids_ok w -> is_Some (nbrs w !! p) ->
  (forall q, lnk = Some q -> is_Some (links w !! q)) ->
  exists w' T' b', message_neighbor rnd ip_version p lnk vt h (nst w T b s) = Some (nst w' T' b' s, tt) /\ cons_ok ti w' T' /\ timers_kept ti T T' /\
    entry_done s p lnk h w w' /\ (b' = true \/ b' = b /\ (lnk = None \/ ~ counted s h)).
Proof.
  intros Hti Io Hv Ok Mo [n Hp] Hl. unfold message_neighbor.
  destruct (negb (neigh_type h =? SYM_NEIGH) && negb (neigh_type h =? MPR_NEIGH)) eqn:Et.
  { assert (~ counted s h) by (intros [? _]; lia). exists w, T, b. split; [done|]. split_and!; [done|apply timers_kept_refl|by apply entry_skipped|by auto]. }
  destruct (ifwithaddr_run (nst w T b s) (hn_addr h) Io) as (r & Ri & Ho). erewrite bind_run by exact Ri. change (own (nst w T b s)) with (own s) in Ho.
  destruct r as [ifp|].
  { assert (~ counted s h) by (intros [_ H]; by apply H, Ho). exists w, T, b. split; [done|]. split_and!; [done|apply timers_kept_refl|by apply entry_skipped|by auto]. }
  assert (C : counted s h) by (split; [lia|]; intros H%Ho; done).
  destruct (lookup_main_run ip_version (hn_addr h) w Mo) as [o Eo]. erewrite bind_run by (by apply on_w_get_nst).
  assert (Ea : default (hn_addr h) o = main_of w (hn_addr h)) by (unfold main_of; by rewrite Eo). cbv zeta. set (a := default (hn_addr h) o) in *.
  destruct (link_run rnd ip_version ti w T b s p n a vt Ok Mo Hp Hv Hti) as (w1 & T1 & c & R1 & Ok1 & Tk & L). erewrite bind_run by exact R1.
  destruct lnk as [q|]; [|by exists w1, T1, b; split; [done|]; split_and!; try done; [by eapply entry_linked|by auto]].
  destruct (frame_nbr w w1 p (lk_frame _ _ _ _ _ _ L)) as [n1 Hn1]; [by rewrite Hp|].
  pose proof (proj1 (con_find ip_version _ ti w1 T1 p n1 a c Ok1 Hn1) (lk_con _ _ _ _ _ _ L)) as Hf.
  destruct (lk_con _ _ _ _ _ _ L) as (x & k & Hx & _). destruct (Hl q eq_refl) as [l Hq].
  destruct (entry_costed s ti p h a c x q l w w1 T1 L Ok1 C Ea Hx Hq) as [Ok2 D].
  eexists _, T1, true. split; [|split_and!; [exact Ok2|done|exact D|by left]].
  erewrite bind_run by (unfold olsr_lookup_nbr_con_entry; by erewrite bind_run by (apply on_w_nst; unfold rd_nbr; by rewrite Hn1)). rewrite Hf.
  erewrite bind_run by reflexivity. erewrite bind_run by (apply on_w_nst, rd_link_run; by rewrite (wf_links _ _ (lk_frame _ _ _ _ _ _ L))).
  erewrite bind_run by (apply on_w_nst; unfold wr_con; by rewrite Hx). reflexivity.
Qed.

(** ** The whole message *)
Record msg_done (s : sensing) (p : loc) (lnk : option loc) (ns : list lq_hello_neighbor) (w w' : neighborhood) : Prop := {
  md_frame : w_frame w w';
  md_hops : forall p' a, hops w' p' a <-> hops w p' a \/ (p' = p /\ Exists (names s w a) ns);
  md_at : forall q k, nbr2_at w q = Some k -> nbr2_at w' q = Some k;
  md_same : forall c x k, nbr_cons w !! c = Some x -> nbr2_at w (con_nbr2 x) = Some k -> con_nbr x <> p \/ ~ Exists (names s w k) ns ->
    exists x', nbr_cons w' !! c = Some x' /\ same_con x x';
  md_cost : forall q l a, lnk = Some q -> links w !! q = Some l -> Exists (names s w a) ns ->
    exists c x k h, nbr_cons w' !! c = Some x /\ con_nbr x = p /\ nbr2_at w' (con_nbr2 x) = Some k /\ comp a k = 0 /\
      h ∈ ns /\ names s w a h /\ costs_of h (linkcost l) x
}.

Lemma names_eq s w a k h : comp a k = 0 -> names s w k h <-> names s w a h.
Proof.
  intros E. unfold names. split; intros [C H]; (split; [done|]).
  - by apply (comp_eq_trans comp _ k).
  - apply (comp_eq_trans comp _ a); [by apply (comp_eq_sym comp)|done].
Qed.

#[local] Instance names_dec s w a h : Decision (names s w a h).
Proof. unfold names, counted, own. solve_decision. Defined.

Lemma msg_nil s p lnk w : msg_done s p lnk [] w w.
Proof.
  split; [apply w_frame_refl| |done| |].
  - intros p' a. rewrite Exists_nil. tauto.
  - intros c x k Hc _ _. exists x. split; [done|apply same_con_refl].
  - intros q l a _ _ []%Exists_nil.
Qed.

Lemma msg_cons s p lnk h ns w w1 w' : entry_done s p lnk h w w1 -> msg_done s p lnk ns w1 w' -> msg_done s p lnk (h :: ns) w w'.
Proof.
  intros [E1 E2 E3 E4 E5] [M1 M2 M3 M4 M5]. assert (En : forall a g, names s w1 a g <-> names s w a g) by (intros a g; unfold names; by rewrite (frame_main w w1) by done).
  assert (Ex : forall a, Exists (names s w1 a) ns <-> Exists (names s w a) ns) by (intros a; split; intros H; apply (Exists_impl _ _ _ H); intros g; apply En).
  split.
  - by eapply w_frame_trans.
  - intros p' a. rewrite M2, E2, Exists_cons, Ex. tauto.
  - intros q k Hk. by apply M3, E3.
  - intros c x k Hc Hk Hn. destruct (E4 c x k Hc Hk) as (x1 & Hx1 & S1); [rewrite Exists_cons in Hn; tauto|].
    pose proof S1 as (Ep & Eq & _). destruct (M4 c x1 k Hx1) as (x' & Hx' & S').
    + rewrite Eq. by apply E3.
    + rewrite Ep, Ex. rewrite Exists_cons in Hn. tauto.
    + exists x'. split; [done|by eapply same_con_trans].
  - intros q l a Hq Hl Ha. assert (Hl1 : links w1 !! q = Some l) by (by rewrite (wf_links _ _ E1)).
    destruct (decide (Exists (names s w a) ns)) as [Hn|Hn].
    + destruct (M5 q l a Hq Hl1) as (c & x & k & g & H1 & H2 & H3 & H4 & H5 & H6 & H7); [by apply Ex|].
      exists c, x, k, g. split_and!; try done; [by right|by apply En].
    + apply Exists_cons in Ha as [Hh|]; [|done]. destruct (E5 q l a Hq Hl Hh) as (c & x & k & H1 & H2 & H3 & H4 & H5 & H6).
      destruct (M4 c x k H1 H3) as (x' & Hx' & Sp & Sq & S2 & Sl).
      * right. rewrite Ex. intros Hk. apply Hn, (Exists_impl _ _ _ Hk). intros g. apply (names_eq s w a k g H4).
      * exists c, x', k, h. rewrite Sp, Sq. split_and!; try done; [by apply M3|by left|]. split; congruence.
Qed.

Lemma entries_run ti s p lnk vt ns : nbr_connector_timer_info s = ti -> ifs_ok s -> vt <> 0 -> forall w T b, cons_ok ti w T -> mids_ok w ->
  is_Some (nbrs w !! p) -> (forall q, lnk = Some q -> is_Some (links w !! q)) ->
  exists w' T' b', message_neighbors rnd ip_version p lnk vt ns (nst w T b s) = Some (nst w' T' b' s, tt) /\ cons_ok ti w' T' /\ timers_kept ti T T' /\
    msg_done s p lnk ns w w' /\ (b' = true \/ b' = b /\ (lnk = None \/ Forall (fun h => ~ counted s h) ns)).
Proof.
  intros Hti Io Hv. induction ns as [|h ns IH]; intros w T b Ok Mo Hp Hl.
  { exists w, T, b. split; [done|]. split_and!; [done|apply timers_kept_refl|apply msg_nil|right; by auto using Forall_nil_2]. }
  destruct (entry_run ti s p lnk vt h w T b Hti Io Hv Ok Mo Hp Hl) as (w1 & T1 & b1 & R1 & Ok1 & K1 & D1 & F1).
  pose proof (ed_frame _ _ _ _ _ _ D1) as Fr.
  destruct (IH w1 T1 b1 Ok1) as (w' & T' & b' & R' & Ok' & K' & D' & F'); [exact (frame_mids w w1 Fr Mo)|exact (frame_nbr w w1 p Fr Hp)|by rewrite (wf_links _ _ Fr)|].
  exists w', T', b'. split; [cbn [message_neighbors]; by erewrite bind_run by exact R1|]. split_and!; [done|by eapply timers_kept_trans|by eapply msg_cons|].
  destruct F' as [->|[-> F']]; [by left|]. destruct F1 as [->|[-> F1]]; [by left|]. right. split; [done|].
  destruct F' as [|F']; [by left|]. destruct F1 as [|F1]; [by left|]. right. by apply Forall_cons.
Qed.

(** C15: A HELLO of a neighbour adds exactly the addresses it names as symmetric
    neighbours or relays, own addresses excepted and aliases replaced by main addresses, to the
    two hop neighbours behind that neighbour; nothing else of the neighbourhood
    changes, and connectors, trees and timers stay consistent. With a symmetric link to the neighbour
    every named address has the cost that an entry of the message gives it, added to the cost of a cheapest link,
    and the change is reported. *)
Theorem message_neighbors_correct s p vt m : cons_ok (nbr_connector_timer_info s) (sn_w s) (get_timers s) -> mids_ok (sn_w s) -> ifs_ok s -> links_ok (sn_w s) ->
  is_Some (nbrs (sn_w s) !! p) -> vt <> 0 ->
  exists s' r, process_message_neighbors rnd ip_version p vt m s = Some (s', tt) /\ cons_ok (nbr_connector_timer_info s) (sn_w s') (get_timers s') /\
    w_frame (sn_w s) (sn_w s') /\ best_link_of (sn_w s) p r /\
    (forall p' a, hops (sn_w s') p' a <-> hops (sn_w s) p' a \/ (p' = p /\ Exists (names s (sn_w s) a) (neigh m))) /\
    (forall q l a, r = Some q -> links (sn_w s) !! q = Some l -> Exists (names s (sn_w s) a) (neigh m) -> changes_neighborhood s' = true /\
      exists c x k h, nbr_cons (sn_w s') !! c = Some x /\ con_nbr x = p /\ nbr2_at (sn_w s') (con_nbr2 x) = Some k /\ comp a k = 0 /\
        h ∈ neigh m /\ names s (sn_w s) a h /\ costs_of h (linkcost l) x).
Proof.
  intros Ok Mo Io Lo Hp Hv. unfold process_message_neighbors. erewrite bind_run by reflexivity.
  destruct (get_best_link_run (now (get_timers s)) (sn_w s) p Lo) as (r & R & B). erewrite bind_run by (by apply on_w_same, R).
  destruct (entries_run (nbr_connector_timer_info s) s p r vt (neigh m) eq_refl Io Hv (sn_w s) (get_timers s) (changes_neighborhood s) Ok Mo Hp) as (w' & T' & b' & R' & Ok' & _ & D & F).
  { intros q ->. destruct B as (l & (_ & Hl & _) & _). by rewrite Hl. }
  rewrite nst_self in R'. exists (nst w' T' b' s), r. split; [done|]. destruct D as [M1 M2 M3 M4 M5]. split_and!; try done.
  intros q l a Hq Hl Ha. split; [|by apply (M5 q)]. destruct F as [->|[-> [F|F]]]; [done|congruence|].
  apply Exists_exists in Ha as (h & Hh & [C _]). rewrite Forall_forall in F. by destruct (F h Hh).
Qed.
End hello_props.

(** ** Changes while the calculation is delayed *)
Section backoff.
Context `{LQ : LqHandler} {LL : LqLinks} `{KE : RouteExport} (rnd : nat -> Z) (ip_version lq_nat_thresh : Z) (fibm_correct : bool) (router_id : ip_addr).
Context (tc_redundancy mpr_coverage : Z).
Abbreviation process_changes := (olsr_process_changes rnd ip_version lq_nat_thresh fibm_correct router_id tc_redundancy mpr_coverage).

(** The routes, and what the kernel has of them. *)
Definition routes (s : router) : gmap loc rt_entry * list (loc * olsr_ip_prefix) * kernel :=
  let r := nd_rib (sn_nodes (ro_sens s)) in (rts r, routingtree r, kern r).
Definition pending (s : router) : bool * bool * bool :=
  (changes_neighborhood (ro_sens s), changes_topology (sn_topo (ro_sens s)), changes_hna (sn_topo (ro_sens s))).

Lemma put_calc_of s : put_calc (calc_of s) s = s.
Proof. by destruct s as [[]]. Qed.
Lemma on_sens_get {A} (g : sensing -> A) s : on_sens (se_get g) s = Some (s, g (ro_sens s)).
Proof. by destruct s. Qed.

Lemma process_calm fuel s : pending s = (false, false, false) -> process_changes fuel s = Some (s, tt).
Proof.
  unfold pending. intros [= H1 H2 H3]. unfold olsr_process_changes. do 3 erewrite bind_run by apply on_sens_get. by rewrite H1, H2, H3.
Qed.

(** C37: Changes of the topology are lost while the calculation of routes is delayed. If the timer runs,
    [olsr_calculate_routing_table] returns at once, but [olsr_process_changes] forgets that anything has changed.
    When the timer expires nothing is calculated either: the routes stay
    what they were, until something else changes. *)
Theorem changes_lost_in_backoff fuel s h : ro_backoff s = Some h -> changes_neighborhood (ro_sens s) = false -> pending s <> (false, false, false) ->
  exists s' s'', process_changes fuel s = Some (s', tt) /\ pending s' = (false, false, false) /\ routes s' = routes s /\
    on_calc olsr_expire_spf_backoff s' = Some (s'', tt) /\ ro_backoff s'' = None /\ process_changes fuel s'' = Some (s'', tt) /\ routes s'' = routes s.
Proof.
  intros Hb Hn Hp. set (s' := set_changes_force false (with_sens (with_st (set_changes_hna false (set_changes_topology false (sn_topo (ro_sens s))))
    (set_changes_neighborhood false (ro_sens s))) s)).
  assert (R : process_changes fuel s = Some (s', tt)).
  { unfold olsr_process_changes. do 3 erewrite bind_run by apply on_sens_get. rewrite Hn. unfold pending in Hp. rewrite Hn in Hp.
    destruct (changes_topology (sn_topo (ro_sens s))) eqn:E1, (changes_hna (sn_topo (ro_sens s))) eqn:E2; try done; cbn [negb andb].
    all: erewrite bind_run by reflexivity; erewrite bind_run; [reflexivity|]; unfold on_calc, olsr_calculate_routing_table; erewrite bind_run by reflexivity;
      simpl; rewrite Hb; simpl; by rewrite put_calc_of. }
  eexists s', _. split; [exact R|]. split; [done|]. split; [done|]. split; [reflexivity|]. split; [done|]. split; [by apply process_calm|done].
Qed.
End backoff.

(** ** Examples *)

(** The neighbour 10.0.0.2 names 10.0.0.9 and 10.0.0.8 (here written as prefixes of IPv6 addresses). *)
Definition pdemo_link : link_entry := mkLink (tdemo_ip 1) (tdemo_ip 2) 1 None (Some 3%positive) 0 0 1 SYM_LINK false false 0 0 2000 None 65536.
Definition pdemo_w : neighborhood := with_head [7%positive] {[ 7%positive := pdemo_link ]} ndemo_w.
Definition pdemo : sensing (LQ := lq_etxff_handler) (KE := demo_export AF_INET6) := with_w pdemo_w ndemo.
Definition pdemo_hello : lq_hello_message (LQ := lq_etxff_handler) :=
  mkHello 2000 3 [mkHn SYM_LINK SYM_NEIGH (tdemo_ip 9) (mkFf 255 255) 70000; mkHn ASYM_LINK NOT_NEIGH (tdemo_ip 8) (mkFf 255 255) 65536].

Lemma message_neighbors_correct_witness :
  exists s', process_message_neighbors (KE := demo_export AF_INET6) (fun _ => 0) AF_INET6 1 6000 pdemo_hello pdemo = Some (s', tt) /\
    NbrProps.hops AF_INET6 (sn_w s') 1 (tdemo_ip 9) /\ changes_neighborhood s' = true.
Proof.
  assert (Ew : sn_w pdemo = pdemo_w) by reflexivity. assert (ET : get_timers pdemo = tdemo_timers) by (by vm_compute).
  assert (EN : interface_head (get_net pdemo) = []) by (by vm_compute).
  assert (Hn : names AF_INET6 pdemo (sn_w pdemo) (tdemo_ip 9) (mkHn SYM_LINK SYM_NEIGH (tdemo_ip 9) (mkFf 255 255) 70000)).
  { split; [|by vm_compute]. split; [by left|]. unfold own. rewrite EN. intros H. by apply Exists_nil in H. }
  destruct (message_neighbors_correct (KE := demo_export AF_INET6) (fun _ => 0) AF_INET6 pdemo 1 6000 pdemo_hello) as (s' & r & R & _ & _ & B & H & C).
  - rewrite Ew, ET. change (nbr_connector_timer_info pdemo) with 1%positive. by destruct ndemo_ok.
  - rewrite Ew. by intros p k ?%elem_of_nil.
  - intros ifp. rewrite EN. by intros ?%elem_of_nil.
  - rewrite Ew. intros p ->%list_elem_of_singleton. by eexists.
  - rewrite Ew. by eexists.
  - done.
  - exists s'. split; [exact R|]. split.
    + apply H. right. split; [done|]. by left.
    + rewrite Ew in B. destruct r as [q|].
      * destruct B as (l & (_ & Hl & _) & _). rewrite <- Ew in Hl. apply (C q l (tdemo_ip 9) eq_refl Hl). by left.
      * specialize (B 7%positive pdemo_link). exfalso. assert (H' : LINK_COST_BROKEN <= 65536) by (apply B; split_and!; [by left|done|done|done]). clear -H'. vm_compute in H'. by apply H'.
Defined.

(** A route is calculated; within the second the topology changes. *)
Definition bdemo : router (LQ := lq_etxff_handler) (KE := demo_export AF_INET) :=
  mkRouter (with_st (set_changes_topology true (sn_topo edemo)) edemo) (Some 3%positive) 2 7 false.
Lemma changes_lost_in_backoff_witness : exists s' s'',
  olsr_process_changes (KE := demo_export AF_INET) (fun _ => 0) AF_INET 1000 true (tdemo_ip 1) 2 1 100 bdemo = Some (s', tt) /\ pending s' = (false, false, false) /\
  on_calc olsr_expire_spf_backoff s' = Some (s'', tt) /\ routes s'' = routes bdemo.
Proof.
  destruct (changes_lost_in_backoff (KE := demo_export AF_INET) (fun _ => 0) AF_INET 1000 true (tdemo_ip 1) 2 1 100 bdemo 3 eq_refl eq_refl) as (s' & s'' & R & P & _ & E & _ & _ & H).
  - discriminate.
  - exists s', s''. split; [exact R|]. split; [exact P|]. split; [exact E|exact H].
Defined.
