(* ===== verification/TcOutput.v ===== *)
(** * The own TC messages ([olsr_output_lq_tc] of [tc_set.c])

    The router announces its neighbours, in several messages if they do not fit
    into one. Every fragment says with two border flags which
    range of addresses it speaks for; a fragment begins at the neighbour where the last one ended. *)
From Stdlib Require Import String.
From S2P Require Import Prelude Frames AvlSpec AvlOps Trees Types Comparators IpCalc IpLists Memcookie Clock Timer DuplicateSet Packet NetOut Lsdb LqHandler LqEtxFf Neighborhood LinkSet TcGraph TcBorder TcSet TcInv TcInput TcProps RoutingTable ProcessRoutes RibUpdate KernelRoutes RibRefresh RibPaths NodeSet HnaSet NbrTable NbrProps NbrEntry Spf RouteCalc Mpr Hello LinkOps LinkProps HelloInput Announce.

Definition ttl_list : list Z := [2; 8; 2; 16; 2; 8; 2; MAX_TTL].

Section tc_output.
Context `{LQ : LqHandler} {LL : LqLinks} `{KE : RouteExport} (rnd : nat -> Z) (ptf_list : list (list Z -> Z -> list Z * Z)) (os_sendto : nat -> Z).
Context (ip_version : Z) (router_id : ip_addr) (tc_redundancy lq_fish validity_time : Z).
Abbreviation ipsize := (tc_ipsize ip_version).
Abbreviation M := (SE sensing).
Abbreviation buf := (list Z * list Z)%type.

(** ** A fragment *)
Definition put_u8_at (pos : nat) (v : Z) : WR unit := fun p =>
  if decide (pos + 1 <= length p.1)%nat then Some ((take pos p.1 ++ [u8 v] ++ drop (pos + 1) p.1, p.2), tt) else None.

(** Returns the positions of the length, the sequence number and the border flags. *)
Definition put_tc_head (ttl ansn : Z) : WR (nat * nat * nat) :=
  pkt_put_u8 messageid_tc;;
  pkt_put_reltime validity_time;;
  length_field ← put_cursor;
  pkt_put_u16 0;;
  pkt_put_ipaddress ipsize router_id;;
  pkt_put_u8 ttl;;
  pkt_put_u8 0;;
  seqno ← put_cursor;
  pkt_put_u16 0;;
  pkt_put_u16 ansn;;
  border_flags ← put_cursor;
  pkt_put_u16 65535;;
  mret (length_field, seqno, border_flags).

Definition put_tc_entry (a : ip_addr) (q : lq_data) : WR unit := pkt_put_ipaddress ipsize a;; serialize_lq q.

(** What is announced of a neighbour: the quality of the best link, or nothing. *)
Definition announced_link (n : nbr_entry) : M (option lq_data) :=
  if negb (is_sym n) then mret None
  else if (tc_redundancy =? 1) && negb (is_mpr n) && (mprs_count n =? 0) then mret None
  else if (tc_redundancy =? 0) && (mprs_count n =? 0) then mret None
  else
    nw ← se_get (fun s => now (get_timers s));
    link ← on_w (get_best_link_to_neighbor_ip ip_version nw (nbr_addr n));
    match link with
    | None => mret None
    | Some p =>
      l ← on_w (rd_link p);
      if linkcost l >=? LINK_COST_BROKEN then mret None
      else e ← ext_rd p; mret (Some (lq_of_link (link_lq e)))
    end.

(** The border between the neighbour before and this one. *)
Definition border_to (prev : option loc) (n : nbr_entry) : M Z :=
  p ← se_opt prev;
  m ← on_w (rd_nbr p);
  mret (calculate_border_flag ipsize (nbr_addr m) (nbr_addr n)).

Definition last_start : Z := Z.of_nat MSG_BUFFER - Z.of_nat ipsize - Z.of_nat lq_size.

(** The loop over the neighbours; [prev] is the neighbour before. It returns the buffer, the address at which
    the next fragment begins, and the flags [sendTC] and [skip]. *)
Fixpoint tc_neighbors (border_flags : nat) (nextIp : ip_addr) (L : list (loc * ip_addr)) (prev : option loc) (skip sendTC : bool) (b : buf) :
  M (buf * option ip_addr * bool * bool) :=
  match L with
  | [] => mret (b, None, sendTC, skip)
  | e :: L =>
    n ← on_w (rd_nbr e.1);
    if skip && negb (ipcmp ip_version (nbr_addr n) nextIp =? 0) then tc_neighbors border_flags nextIp L (Some e.1) skip sendTC b
    else
      b ← (if skip then f ← border_to prev n; r ← se_opt (put_u8_at border_flags f b); mret r.1 else mret b);
      if Z.of_nat (length b.1) >? last_start then
        f ← border_to prev n;
        r ← se_opt (put_u8_at (border_flags + 1) f b);
        mret (r.1, Some (nbr_addr n), sendTC, false)
      else
        q ← announced_link n;
        match q with
        | None => tc_neighbors border_flags nextIp L (Some e.1) false sendTC b
        | Some q => r ← se_opt (put_tc_entry (nbr_addr n) q b); tc_neighbors border_flags nextIp L (Some e.1) false true r.1
        end
  end.

(** The message up to its size and sequence number. *)
Definition tc_fragment (msg_buffer : list Z) (ttl ansn : Z) (nextIp : ip_addr) (skip : bool) : M (buf * nat * nat * option ip_addr * bool * bool) :=
  r ← se_opt (put_tc_head ttl ansn ([], msg_buffer));
  let '(b, (length_field, seqno, border_flags)) := r in
  L ← on_w (se_get nbr_tree);
  x ← tc_neighbors border_flags nextIp L None skip false b;
  let '(b, next, sendTC, skip) := x in
  mret (b, length_field, seqno, next, sendTC, skip).

(** ** Sending *)
Record tc_sender := mkSender {
  snd_router : router;
  ttl_index : Z;
  snd_seqno : Z
}.
Abbreviation R := (SE tc_sender).
Definition with_router (r : router) (s : tc_sender) : tc_sender := mkSender r (ttl_index s) (snd_seqno s).
Definition set_ttl_index (i : Z) (s : tc_sender) : tc_sender := mkSender (snd_router s) i (snd_seqno s).
Definition on_router {A} (m : SE router A) : R A := fun s =>
  match m (snd_router s) with Some (r, a) => Some (with_router r s, a) | None => None end.
(** The interfaces, the timers and the sequence number of messages. *)
Definition on_announcer {A} (m : SE announcer A) : R A := fun s =>
  let n := ro_sens (snd_router s) in
  match m (mkAnn (snd_seqno s) (get_net n) (get_timers n)) with
  | Some (x, a) => Some (mkSender (with_sens (put_timers (an_timers x) (put_net (an_net x) n)) (snd_router s)) (ttl_index s) (message_seqno x), a)
  | None => None
  end.

(** The scope of a message: after 32 messages that go everywhere, a cycle of radii. *)
Definition next_ttl : R Z :=
  if 0 <? lq_fish then
    i ← se_get ttl_index;
    let i := i + 1 in
    let i := if i >=? Z.of_nat (length ttl_list) then 0 else i in
    se_mod (set_ttl_index i);;
    if 0 <=? i then se_opt (ttl_list !! Z.to_nat i) else mret 255
  else mret 255.

(** Returns the address at which the next fragment begins. *)
Definition olsr_output_lq_tc_internal (msg_buffer : list Z) (nextIp : ip_addr) (skip : bool) : R (option ip_addr) :=
  ttl ← next_ttl;
  ansn ← on_router (se_get local_ansn_number);
  x ← on_router (on_sens (tc_fragment msg_buffer ttl ansn nextIp skip));
  let '(b, length_field, seqno, next, sendTC, skip) := x in
  if negb sendTC && skip then mret None
  else
    sq ← on_announcer next_seqno;
    r ← se_opt (pkt_put_u16_at seqno sq b);
    r ← se_opt (pkt_put_u16_at length_field (Z.of_nat (length r.1.1)) r.1);
    L ← on_announcer (on_net (se_get interface_head));
    on_announcer (push_message rnd ptf_list os_sendto r.1.1 L);;
    mret next.

(** [fuel] bounds the number of fragments. *)
Fixpoint output_lq_tc (fuel : nat) (msg_buffer : list Z) (nextIp : ip_addr) (skip : bool) : R unit :=
  match fuel with
  | O => se_fail
  | S fuel =>
    next ← olsr_output_lq_tc_internal msg_buffer nextIp skip;
    match next with Some a => output_lq_tc fuel msg_buffer a true | None => mret tt end
  end.
Definition olsr_output_lq_tc (fuel : nat) (msg_buffer : list Z) : R unit := output_lq_tc fuel msg_buffer (replicate 16 0) false.
End tc_output.
