(* ===== verification/TcOutProps.v ===== *)
(** * The fragments of the own TC messages

    The fragments together announce every neighbour once, in the order of the addresses. *)
From Stdlib Require Import String.
From S2P Require Import Prelude Frames AvlSpec AvlOps Trees Types Comparators IpCalc IpLists Memcookie Clock Timer DuplicateSet Packet NetOut Lsdb LqHandler LqEtxFf Neighborhood LinkSet TcGraph TcBorder TcSet TcInv TcInput TcProps RoutingTable ProcessRoutes RibUpdate KernelRoutes RibRefresh RibPaths NodeSet HnaSet NbrTable NbrProps NbrEntry Spf RouteCalc Mpr Hello LinkOps LinkProps HelloInput Announce TcOutput FfPlugin.

Section tc_out_props.
Context `{LQ : LqHandler} {LL : LqLinks} `{KE : RouteExport} (ip_version : Z) (router_id : ip_addr) (tc_redundancy validity_time : Z).
Abbreviation ipsize := (tc_ipsize ip_version).
Abbreviation comp := (avl_comp_default ip_version).
Abbreviation buf := (list Z * list Z)%type.
Abbreviation esize := (ipsize + lq_size)%nat.
Abbreviation last_start := (last_start ip_version).

(** ** What is announced *)
Definition wanted (n : nbr_entry) : bool :=
  is_sym n && negb ((tc_redundancy =? 1) && negb (is_mpr n) && (mprs_count n =? 0)) && negb ((tc_redundancy =? 0) && (mprs_count n =? 0)).
(** The link quality of a best link, for a neighbour that the redundancy asks for. *)
Definition announces (s : sensing) (p : loc) (n : nbr_entry) (o : option lq_data) : Prop :=
  match o with
  | Some q => wanted n = true /\ exists l e, best_link_of (sn_w s) p (Some l) /\ link_exts s !! l = Some e /\ q = lq_of_link (link_lq e)
  | None => wanted n = false \/ best_link_of (sn_w s) p None
  end.

(** What the table of neighbours promises to the loop. *)
Record nbr_view (w : neighborhood) : Prop := {
  nv_mids : mids_ok w;
  nv_tree : tree_wf comp (nbr_tree w);
  nv_in : forall p k, (p, k) ∈ nbr_tree w <-> nbr_at w p = Some k
}.
Lemma nbrs_ok_view me s : nbrs_ok ip_version me s -> nbr_view (sn_w s).
Proof. intros N. split; [apply N|apply (cb_nbr _ _ _ _ _ (nb_cons _ _ _ N))|apply (cb_nbr_in _ _ _ _ _ (nb_cons _ _ _ N))]. Qed.

(** What sending leaves alone. *)
Record same_view (s s' : sensing) : Prop := {
  sv_w : sn_w s' = sn_w s;
  sv_exts : link_exts s' = link_exts s;
  sv_now : now (get_timers s') = now (get_timers s)
}.
Lemma same_view_refl s : same_view s s.
Proof. done. Qed.
Lemma same_view_trans s1 s2 s3 : same_view s1 s2 -> same_view s2 s3 -> same_view s1 s3.
Proof. intros [] []. split; congruence. Qed.

Lemma announced_run s p n : nbr_view (sn_w s) -> links_ok (sn_w s) -> exts_ok s -> nbrs (sn_w s) !! p = Some n ->
  exists o, (forall s', same_view s s' -> announced_link ip_version tc_redundancy n s' = Some (s', o)) /\ announces s p n o.
Proof.
  intros N Lo Eo Hp. unfold announced_link. unfold announces, wanted.
  destruct (is_sym n); [|by exists None; split; [|left]].
  destruct ((tc_redundancy =? 1) && negb (is_mpr n) && (mprs_count n =? 0)); [by exists None; split; [|left]|].
  destruct ((tc_redundancy =? 0) && (mprs_count n =? 0)); [by exists None; split; [|left]|]. cbn [negb andb].
  assert (Hf : tree_find comp (nbr_addr n) (nbr_tree (sn_w s)) = Some p).
  { eapply tree_find_in; [apply _|apply (nv_tree _ N)| |by apply comp_refl; apply _].
    apply (nv_in _ N). unfold nbr_at. by rewrite Hp. }
  destruct (get_best_link_run (now (get_timers s)) (sn_w s) p Lo) as (r & R & B).
  assert (R' : get_best_link_to_neighbor_ip ip_version (now (get_timers s)) (nbr_addr n) (sn_w s) = Some (sn_w s, r)).
  { unfold get_best_link_to_neighbor_ip. erewrite bind_run; [exact R|]. rewrite lookup_nbr_run by apply N. simpl. by rewrite Hf. }
  destruct r as [l|].
  - pose proof B as (le & (Hin & Hl & _) & Hc & _). destruct (Eo l Hin) as [e He]. exists (Some (lq_of_link (link_lq e))). split; [|split; [done|]; by exists l, e].
    intros s' [Ew Ee En]. erewrite bind_run by reflexivity. rewrite En. erewrite bind_run by (apply on_w_same; rewrite Ew; apply R'). cbv beta iota.
    erewrite bind_run by (apply on_w_same, rd_link_run; by rewrite Ew).
    rewrite Z.geb_leb, (proj2 (Z.leb_gt _ _)) by lia. erewrite bind_run; [reflexivity|]. unfold ext_rd. by rewrite Ee, He.
  - exists None. split; [|by right]. intros s' [Ew Ee En]. erewrite bind_run by reflexivity. rewrite En.
    by erewrite bind_run by (apply on_w_same; rewrite Ew; apply R').
Qed.

Definition adv (s : sensing) (p : loc) : option lq_data :=
  n ← nbrs (sn_w s) !! p; r ← announced_link ip_version tc_redundancy n s; r.2.

Definition entry_bytes (s : sensing) (e : loc * ip_addr) : list Z :=
  match adv s e.1 with Some q => take ipsize e.2 ++ lq_bytes q | None => [] end.
(** The neighbours that a message has room for; [c] is the position of the cursor. *)
Fixpoint fits (s : sensing) (c : nat) (L : list (loc * ip_addr)) : list (loc * ip_addr) * list (loc * ip_addr) :=
  match L with
  | [] => ([], [])
  | e :: L' => if Z.of_nat c >? last_start then ([], L)
    else let r := fits s (c + length (entry_bytes s e)) L' in (e :: r.1, r.2)
  end.
Definition entries_bytes (s : sensing) (L : list (loc * ip_addr)) : list Z := mjoin (entry_bytes s <$> L).
Definition some_adv (s : sensing) (L : list (loc * ip_addr)) : bool := existsb (fun e => bool_decide (is_Some (adv s e.1))) L.

Lemma fits_app s c L : (fits s c L).1 ++ (fits s c L).2 = L.
Proof. revert c. induction L as [|e L IH]; intros c; [done|]. simpl. destruct (_ >? _); [done|]. simpl. by rewrite IH. Qed.
Lemma fits_some s c L : Z.of_nat c <= last_start -> (fits s c L).1 = [] -> L = [].
Proof. intros H. destruct L as [|e L]; [done|]. simpl. rewrite Z.gtb_ltb, (proj2 (Z.ltb_ge _ _)) by lia. done. Qed.

(** ** The loop *)
Section loop.
Context (s : sensing) (N : nbr_view (sn_w s)) (Lo : links_ok (sn_w s)) (Eo : exts_ok s).

Lemma in_tree p k : (p, k) ∈ nbr_tree (sn_w s) -> exists n, nbrs (sn_w s) !! p = Some n /\ nbr_addr n = k /\ announced_link ip_version tc_redundancy n s = Some (s, adv s p).
Proof.
  intros (n & Hn & ->)%(nv_in _ N)%fmap_Some. exists n. split_and!; try done.
  destruct (announced_run s p n N Lo Eo Hn) as (o & R & _). specialize (R s (same_view_refl s)). unfold adv. rewrite Hn. simpl. by rewrite R.
Qed.
Lemma adv_same s' p : same_view s s' -> adv s' p = adv s p.
Proof.
  intros V. unfold adv. rewrite (sv_w _ _ V). destruct (nbrs (sn_w s) !! p) as [n|] eqn:Hn; [|done]. simpl.
  destruct (announced_run s p n N Lo Eo Hn) as (o & R & _). by rewrite (R s' V), (R s (same_view_refl s)).
Qed.
Lemma entry_same s' e : same_view s s' -> entry_bytes s' e = entry_bytes s e.
Proof. intros V. unfold entry_bytes. by rewrite (adv_same s' e.1 V). Qed.
Lemma entries_same s' L : same_view s s' -> entries_bytes s' L = entries_bytes s L.
Proof. intros V. unfold entries_bytes. f_equal. apply list_fmap_ext. intros i e _. by apply entry_same. Qed.
Lemma fits_same s' c L : same_view s s' -> fits s' c L = fits s c L.
Proof. intros V. revert c. induction L as [|e L IH]; intros c; [done|]. simpl. by rewrite (entry_same s' e V), IH. Qed.
Lemma rd_nbr_same p n : nbrs (sn_w s) !! p = Some n -> on_w (rd_nbr p) s = Some (s, n).
Proof. intros H. apply on_w_same. unfold rd_nbr. by rewrite H. Qed.

Lemma skip_run pos nip L sd b P : forall prev, (forall e, e ∈ P -> e ∈ nbr_tree (sn_w s) /\ ipcmp ip_version e.2 nip <> 0) ->
  tc_neighbors ip_version tc_redundancy pos nip (P ++ L) prev true sd b s =
  tc_neighbors ip_version tc_redundancy pos nip L (default prev (Some <$> last P.*1)) true sd b s.
Proof.
  induction P as [|[p k] P IH]; intros prev HP; [done|]. destruct (HP (p, k) ltac:(by left)) as [Hin Hne].
  destruct (in_tree p k Hin) as (n & Hn & <- & _). cbn [app tc_neighbors]. erewrite bind_run by (by apply rd_nbr_same).
  simpl in Hne. rewrite (proj2 (Z.eqb_neq _ _) Hne). cbn [negb andb]. rewrite IH by (intros e He; apply HP; by right).
  cbn [fst fmap list_fmap]. rewrite last_cons. by destruct (last P.*1).
Qed.

(** The flag between two addresses. *)
Definition flag_at (o : option (loc * ip_addr)) (k : ip_addr) : Z := match o with Some e => calculate_border_flag ipsize e.2 k | None => 255 end.
Lemma border_run prev p k n : (p, k) ∈ nbr_tree (sn_w s) -> prev = Some p -> border_to ip_version prev n s = Some (s, calculate_border_flag ipsize k (nbr_addr n)).
Proof.
  intros (m & Hm & <- & _)%in_tree ->. unfold border_to. erewrite bind_run by reflexivity. by erewrite bind_run by (by apply rd_nbr_same).
Qed.
Lemma flag_u8 a b : u8 (calculate_border_flag ipsize a b) = calculate_border_flag ipsize a b.
Proof. apply wrapu_id. unfold calculate_border_flag. cbv zeta. case_match; [done|]. apply wrapu_range. lia. Qed.
Lemma put_at_run hd x t r v : put_u8_at (length hd) v (hd ++ x :: t, r) = Some ((hd ++ u8 v :: t, r), tt).
Proof.
  unfold put_u8_at. simpl fst. simpl snd. rewrite decide_True by (rewrite length_app; simpl; lia). rewrite take_app_length.
  rewrite (drop_app_ge hd) by lia. replace (length hd + 1 - length hd)%nat with 1%nat by lia. done.
Qed.

Lemma put_entry_run a q b r : (ipsize <= length a)%nat -> (esize <= length r)%nat ->
  put_tc_entry ip_version a q (b, r) = Some ((b ++ take ipsize a ++ lq_bytes q, drop esize r), tt).
Proof.
  intros Ha Hr. assert (W : writes (put_tc_entry ip_version a q) (take ipsize a ++ lq_bytes q) (fun _ => tt)).
  { eapply (writes_then _ _ _ _ (fun _ => tt)); [apply writes_store|apply lq_put]. }
  rewrite W, length_app, length_take, lq_bytes_length, decide_True by lia. do 4 f_equal. lia.
Qed.
Lemma entry_length e : (ipsize <= length e.2)%nat -> (length (entry_bytes s e) <= esize)%nat.
Proof. intros H. unfold entry_bytes. destruct (adv s e.1); [|simpl; lia]. rewrite length_app, length_take, lq_bytes_length. lia. Qed.

(** [hd] is the message up to the border flags [x] and [y]; [prev] is the neighbour before [L]. *)
Lemma take_run nip hd x y L : forall t r prev sd, (forall e, e ∈ L -> e ∈ nbr_tree (sn_w s) /\ (ipsize <= length e.2)%nat) ->
  (length (hd ++ x :: y :: t) + length r = MSG_BUFFER)%nat ->
  (forall e, prev = Some e -> e ∈ nbr_tree (sn_w s)) -> (prev = None -> Z.of_nat (length (hd ++ x :: y :: t)) <= last_start) ->
  let F := fits s (length (hd ++ x :: y :: t)) L in
  let t' := t ++ entries_bytes s F.1 in
  let pe := default prev (Some <$> last F.1) in
  tc_neighbors ip_version tc_redundancy (length hd) nip L (fst <$> prev) false sd (hd ++ x :: y :: t, r) s =
    Some (s, ((hd ++ x :: (match F.2 with [] => y | e :: _ => flag_at pe e.2 end) :: t', drop (length (entries_bytes s F.1)) r),
      snd <$> head F.2, sd || some_adv s F.1, false)).
Proof.
  induction L as [|[p k] L IH]; intros t r prev sd HL Hlen Hprev Hc.
  { simpl. by rewrite app_nil_r, orb_false_r. }
  destruct (HL (p, k) ltac:(by left)) as [Hin Hk]. destruct (in_tree p k Hin) as (n & Hn & En & Ra).
  cbn [tc_neighbors fits]. erewrite bind_run by (by apply rd_nbr_same). cbn [andb]. erewrite bind_run by reflexivity. cbn [fst snd].
  destruct (Z.of_nat (length (hd ++ x :: y :: t)) >? last_start) eqn:Ec.
  { destruct prev as [[pp kp]|]; [|specialize (Hc eq_refl); lia]. cbv beta iota zeta.
    erewrite bind_run by (apply (border_run _ pp kp); [by apply Hprev|done]).
    rewrite (app_assoc _ [x] (y :: t) : hd ++ x :: y :: t = (hd ++ [x]) ++ y :: t). replace (length hd + 1)%nat with (length (hd ++ [x])) by (by rewrite length_app).
    rewrite put_at_run. erewrite bind_run by reflexivity. rewrite flag_u8, En. simpl.
    unfold mret, se_ret. rewrite <- app_assoc, app_nil_r, orb_false_r. by rewrite drop_0. }
  erewrite bind_run by exact Ra. cbv zeta. cbn [fst snd]. set (eb := entry_bytes s (p, k)).
  assert (Hsplit : hd ++ x :: y :: t ++ eb = (hd ++ x :: y :: t) ++ eb) by (by rewrite <- app_assoc).
  assert (Hle : (length eb <= esize)%nat) by (by apply entry_length).
  assert (Hroom : (esize <= length r)%nat) by (unfold TcOutput.last_start in Ec; lia).
  assert (Hrun : match adv s p with
    | Some q => z ← se_opt (put_tc_entry ip_version (nbr_addr n) q (hd ++ x :: y :: t, r)); tc_neighbors ip_version tc_redundancy (length hd) nip L (Some p) false true z.1
    | None => tc_neighbors ip_version tc_redundancy (length hd) nip L (Some p) false sd (hd ++ x :: y :: t, r)
    end s = tc_neighbors ip_version tc_redundancy (length hd) nip L (Some p) false (sd || bool_decide (is_Some (adv s p))) (hd ++ x :: y :: t ++ eb, drop (length eb) r) s).
  { unfold eb, entry_bytes. simpl fst. simpl snd. destruct (adv s p) as [q|].
    - rewrite En, put_entry_run by done. erewrite bind_run by reflexivity.
      assert (length (take ipsize k ++ lq_bytes q) = esize) as -> by (rewrite length_app, length_take, lq_bytes_length; simpl in Hk; lia).
      rewrite orb_true_r. cbn [fst]. by rewrite <- app_assoc.
    - by rewrite app_nil_r, orb_false_r, drop_0. }
  rewrite Hrun. clear Hrun. specialize (IH (t ++ eb) (drop (length eb) r) (Some (p, k)) (sd || bool_decide (is_Some (adv s p)))). cbv zeta in IH.
  rewrite Hsplit, length_app in IH. rewrite Hsplit. etransitivity; [apply IH|].
  - intros e He. apply HL. by right.
  - rewrite length_drop. lia.
  - by intros e [= <-].
  - done.
  - set (F := fits s _ L). assert (Eb : entries_bytes s ((p, k) :: F.1) = eb ++ entries_bytes s F.1) by done.
    assert (Es : sd || some_adv s ((p, k) :: F.1) = sd || bool_decide (is_Some (adv s p)) || some_adv s F.1) by (simpl; by rewrite orb_assoc).
    rewrite Eb, Es, drop_drop, length_app, <- (app_assoc t eb), last_cons. do 5 f_equal. f_equal. destruct F.2; [done|]. by destruct (last F.1).
Qed.

(** The first neighbour of a later fragment sets the lower border. *)
Lemma begin_run nip hd x y t r p k L prev pp kp sd : (p, k) ∈ nbr_tree (sn_w s) -> (pp, kp) ∈ nbr_tree (sn_w s) -> prev = Some pp -> ipcmp ip_version k nip = 0 ->
  tc_neighbors ip_version tc_redundancy (length hd) nip ((p, k) :: L) prev true sd (hd ++ x :: y :: t, r) s =
  tc_neighbors ip_version tc_redundancy (length hd) nip ((p, k) :: L) prev false sd (hd ++ calculate_border_flag ipsize kp k :: y :: t, r) s.
Proof.
  intros Hin Hpp -> E. destruct (in_tree p k Hin) as (n & Hn & En & Ra). cbn [tc_neighbors fst].
  erewrite bind_run by (by apply rd_nbr_same). symmetry. erewrite bind_run by (by apply rd_nbr_same). rewrite En, E. cbn [Z.eqb negb andb].
  erewrite bind_run by reflexivity. symmetry. erewrite bind_run; [reflexivity|].
  erewrite bind_run by (by apply (border_run _ pp kp)). rewrite put_at_run, flag_u8, En. done.
Qed.

Lemma comp_ipcmp a b : comp a b = ipcmp ip_version a b.
Proof. unfold avl_comp_default, ipcmp. by case_match. Qed.

(** ** A fragment *)
Definition head_bytes (ttl ansn : Z) : list Z :=
  to_le 1 messageid_tc ++ to_le 1 (olsr_clock_encode_olsrv1 validity_time) ++ to_be 2 0 ++ take ipsize router_id ++ to_le 1 ttl ++ to_le 1 0 ++ to_be 2 0 ++ to_be 2 ansn.
Context (Hid : (ipsize <= length router_id)%nat).

Lemma head_length ttl ansn : length (head_bytes ttl ansn) = (10 + ipsize)%nat.
Proof. unfold head_bytes. rewrite !length_app, !to_be_length, length_take. simpl. lia. Qed.

Lemma head_run ttl ansn r : (12 + ipsize <= length r)%nat ->
  put_tc_head ip_version router_id validity_time ttl ansn ([], r) =
    Some ((head_bytes ttl ansn ++ [255; 255], drop (12 + ipsize) r), (2%nat, (6 + ipsize)%nat, (10 + ipsize)%nat)).
Proof.
  intros Hr. unfold put_tc_head, pkt_put_u8, pkt_put_u16, pkt_put_ipaddress, pkt_put_reltime. rewrite !htons_bytes.
  assert (Ht : length (take ipsize router_id) = ipsize) by (rewrite length_take; lia).
  assert (Hs : forall b a x, (length b <= length x)%nat -> pkt_store b (a, x) = Some ((a ++ b, drop (length b) x), tt)) by apply pkt_store_run.
  repeat first [erewrite bind_run by (apply Hs; rewrite ?length_drop, ?to_be_length, ?Ht; simpl length; lia)|erewrite (bind_run put_cursor) by reflexivity].
  unfold mret, se_ret, head_bytes. rewrite !drop_drop, !to_be_length, !Ht. do 3 f_equal.
  - cbn [fst]. rewrite <- !app_assoc. done.
  - f_equal. cbn [length]. simpl length. lia.
  - cbn [fst]. rewrite !length_app, !to_be_length, Ht. simpl length. f_equal. lia.
  - cbn [fst]. rewrite !length_app, !to_be_length, Ht. simpl length. lia.
Qed.

(** The message with the neighbours of [F], between the borders [lo] and [up]. *)
Definition tc_bytes (ttl ansn lo up : Z) (F : list (loc * ip_addr)) : list Z := head_bytes ttl ansn ++ lo :: up :: entries_bytes s F.
Definition start : nat := (12 + ipsize)%nat.
Context (Hsize : Z.of_nat start <= last_start) (Haddr : forall e, e ∈ nbr_tree (sn_w s) -> (ipsize <= length e.2)%nat).

(** [P] are the neighbours of the fragments before. *)
Lemma fragment_run msgbuf ttl ansn nip P L : length msgbuf = MSG_BUFFER -> nbr_tree (sn_w s) = P ++ L ->
  (P <> [] -> exists e, head L = Some e /\ ipcmp ip_version e.2 nip = 0) ->
  let F := fits s start L in
  let lo := match head L with Some e => flag_at (last P) e.2 | None => 255 end in
  let up := match head F.2 with Some e => flag_at (last F.1) e.2 | None => 255 end in
  exists rest, tc_fragment ip_version router_id tc_redundancy validity_time msgbuf ttl ansn nip (negb (bool_decide (P = []))) s =
    Some (s, ((tc_bytes ttl ansn lo up F.1, rest), 2%nat, (6 + ipsize)%nat, snd <$> head F.2, some_adv s F.1, false)).
Proof.
  intros Hb HT HP F lo up. unfold TcOutput.last_start in Hsize. unfold start in *.
  set (r := drop (12 + ipsize) msgbuf). set (hd := head_bytes ttl ansn). assert (Hhd : length hd = (10 + ipsize)%nat) by apply head_length.
  assert (HL : forall e, e ∈ L -> e ∈ nbr_tree (sn_w s) /\ (ipsize <= length e.2)%nat) by (intros e He; assert (e ∈ nbr_tree (sn_w s)) by (rewrite HT; set_solver); auto).
  assert (Hlen : forall x : Z, (length (hd ++ x :: 255%Z :: []) + length r = MSG_BUFFER)%nat) by (intros x; unfold r; rewrite length_app, length_drop, Hhd; simpl; lia).
  assert (Hst : forall x : Z, length (hd ++ x :: 255 :: []) = (12 + ipsize)%nat) by (intros x; rewrite length_app, Hhd; simpl; lia).
  assert (Hrun : exists prev, (forall e, prev = Some e -> e ∈ nbr_tree (sn_w s)) /\
    tc_neighbors ip_version tc_redundancy (10 + ipsize) nip (nbr_tree (sn_w s)) None (negb (bool_decide (P = []))) false (hd ++ [255; 255], r) s =
    tc_neighbors ip_version tc_redundancy (length hd) nip L (fst <$> prev) false false (hd ++ lo :: 255 :: [], r) s /\ prev = last P).
  { rewrite HT, <- Hhd. destruct (decide (P = [])) as [->|Hne].
    - exists None. split; [done|]. split; [|done]. unfold lo. by destruct L.
    - destruct (HP Hne) as ([p k] & Hh & Ek). destruct L as [|e1 L1]; [done|]. injection Hh as ->.
      rewrite bool_decide_eq_false_2 by done. cbn [negb].
      destruct (last P) as [[pp kp]|] eqn:El; [|by apply last_None in El].
      assert (Hpp : (pp, kp) ∈ nbr_tree (sn_w s)) by (rewrite HT; apply last_Some_elem_of in El; set_solver).
      exists (Some (pp, kp)). split; [intros e [= <-]; by rewrite <- HT|]. split; [|done]. rewrite skip_run.
      2: { intros e He. split; [rewrite HT; set_solver|]. intros E0. destruct e as [q kq].
           assert (Ec : comp kq k = 0) by (apply (comp_eq_trans comp _ nip); [|apply (comp_eq_sym comp)]; by rewrite comp_ipcmp).
           destruct (tree_unique comp _ q p kq k (nv_tree _ N)) as [Eq _]; [rewrite HT; set_solver|rewrite HT; set_solver|done|].
           pose proof (tw_nodup _ _ (nv_tree _ N)) as Nd. rewrite HT, fmap_app in Nd. apply NoDup_app in Nd as (_ & Nd & _).
           apply (Nd q); [apply list_elem_of_fmap; by exists (q, kq)|]. rewrite Eq. by left. }
      rewrite fmap_last, El. cbn [fmap option_fmap option_map default fst]. erewrite begin_run; [|rewrite HT; set_solver|exact Hpp|done|done].
      unfold lo. simpl head. cbn [flag_at]. done. }
  destruct Hrun as (prev & Hprev & Hrun & Ep). unfold tc_fragment. rewrite head_run by (rewrite Hb; unfold MSG_BUFFER in *; lia).
  erewrite bind_run by reflexivity. cbv beta iota. erewrite bind_run by (by apply on_w_same).
  erewrite bind_run. 2: { etransitivity; [exact Hrun|]. apply take_run; [done|apply Hlen|done|]. intros _. rewrite Hst. unfold TcOutput.last_start. lia. }
  cbv beta iota zeta. rewrite Hst. fold F. eexists. unfold mret, se_ret. do 7 f_equal. unfold tc_bytes. f_equal. f_equal. f_equal. unfold up.
  destruct F.2 as [|e F2] eqn:EF; [done|]. simpl. destruct (last F.1) eqn:E1; [done|]. exfalso. apply last_None in E1.
  assert (L = []) as -> by (apply (fits_some s (12 + ipsize)); [unfold TcOutput.last_start; lia|done]). by simpl in EF.
Qed.

Lemma fits_bound c L : Z.of_nat c <= last_start + Z.of_nat esize -> (forall e, e ∈ L -> (ipsize <= length e.2)%nat) ->
  Z.of_nat c + Z.of_nat (length (entries_bytes s (fits s c L).1)) <= last_start + Z.of_nat esize.
Proof.
  revert c. induction L as [|e L IH]; intros c Hc HL; [simpl; lia|]. simpl. destruct (Z.of_nat c >? last_start) eqn:E; [simpl; lia|].
  pose proof (entry_length e (HL e ltac:(by left))). specialize (IH (c + length (entry_bytes s e))%nat ltac:(lia) ltac:(set_solver)).
  simpl. change (entries_bytes s (e :: ?l)) with (entry_bytes s e ++ entries_bytes s l). unfold entries_bytes in *. simpl. rewrite length_app. lia.
Qed.

Lemma tc_bytes_bound ttl ansn lo up L : (forall e, e ∈ L -> (ipsize <= length e.2)%nat) -> (length (tc_bytes ttl ansn lo up (fits s start L).1) <= MSG_BUFFER)%nat.
Proof.
  intros HL. pose proof (fits_bound start L ltac:(lia) HL) as H. unfold tc_bytes. rewrite length_app, head_length. simpl length.
  unfold start, TcOutput.last_start in *. lia.
Qed.

End loop.
End tc_out_props.

(** ** Example: one symmetric neighbour *)
Definition odemo_nbr : nbr_entry := set_is_sym true (default (mkNbr [] None 0 false false false false 0 0 []) (nbrs (sn_w fdemo) !! 1%positive)).
Definition odemo_w : neighborhood := with_links {[ 7%positive := set_linkcost 70000 fdemo_link ]} (with_nbrs (<[1%positive := odemo_nbr]> (nbrs (sn_w fdemo))) (sn_w fdemo)).
Definition odemo : sensing (LQ := lq_etxff_handler) (KE := demo_export AF_INET) :=
  with_exts (link_exts fdemo) (with_w (with_links {[ 7%positive := set_linkcost 70000 fdemo_link ]} (sn_w
    (with_w (with_nbrs (<[1%positive := odemo_nbr]> (nbrs (sn_w fdemo))) (sn_w fdemo)) fdemo))) (with_w (with_nbrs (<[1%positive := odemo_nbr]> (nbrs (sn_w fdemo))) (sn_w fdemo)) fdemo)).

Lemma odemo_ok : nbrs_ok AF_INET 1 odemo.
Proof.
  apply (nbrs_ok_links AF_INET 1 (with_w (with_nbrs (<[1%positive := odemo_nbr]> (nbrs (sn_w fdemo))) (sn_w fdemo)) fdemo)).
  destruct (nbrs (sn_w fdemo) !! 1%positive) as [n|] eqn:E; [|by vm_compute in E].
  apply (nbr_upd_ok AF_INET 1 fdemo 1 n odemo_nbr fdemo_ok E); unfold odemo_nbr; by rewrite E.
Qed.

Lemma concat_singleton {A} (x : A) Cs : concat Cs = [x] -> Forall (fun C => C <> []) Cs -> Cs = [[x]].
Proof.
  intros Hc Hn. destruct Cs as [|[|c C] Cs]; [done|by apply Forall_cons in Hn as [? _]|]. injection Hc as -> Hc. apply app_eq_nil in Hc as [-> Hc].
  destruct Cs as [|C Cs]; [done|]. apply Forall_cons in Hn as [_ Hn]. apply Forall_cons in Hn as [Hn _]. by apply app_eq_nil in Hc as [? _].
Qed.

Lemma exts_with `{LQ : LqHandler} {LL : LqLinks} `{KE : RouteExport} X (s : sensing) : link_exts (with_exts X s) = X.
Proof. reflexivity. Qed.

Lemma odemo_exts : exts_ok odemo.
Proof.
  intros p. assert (link_entry_head (sn_w odemo) = [7%positive]) as -> by (by vm_compute). intros ->%list_elem_of_singleton.
  exists fdemo_ext. unfold odemo. rewrite exts_with, fdemo_exts. apply lookup_singleton_eq.
Qed.
