(* ===== verification/Parser.v ===== *)
(** * The packet parser ([parser.c])

    [parse_packet] splits a packet into messages, hands the new ones to the
    registered functions and forwards them. The registered functions are
    numbered; [call], [call_packetparser] and [preprocess] are what the numbers
    stand for. The packet that is being parsed is part of the state, because
    forwarding rewrites a message in place. *)
From S2P Require Import Prelude AvlSpec Trees Types Comparators Memcookie Clock Timer DuplicateSet Packet NetOut Lsdb Neighborhood.

Definition PROMISCUOUS : Z := 4294967295.

(** ** Registration *)
Definition olsr_parser_add_function (function type : Z) (parse_functions : list (Z * Z)) : list (Z * Z) :=
  (type, function) :: parse_functions.

Fixpoint olsr_parser_remove_function (function : Z) (l : list (Z * Z)) : list (Z * Z) * Z :=
  match l with
  | [] => ([], 0)
  | e :: l => if e.2 =? function then (l, 1)
      else let r := olsr_parser_remove_function function l in (e :: r.1, r.2)
  end.

Definition olsr_preprocessor_add_function (function : Z) (l : list Z) : list Z := function :: l.
Definition olsr_packetparser_add_function (function : Z) (l : list Z) : list Z := function :: l.

Fixpoint remove_function (function : Z) (l : list Z) : list Z * Z :=
  match l with
  | [] => ([], 0)
  | e :: l => if e =? function then (l, 1) else let r := remove_function function l in (e :: r.1, r.2)
  end.
Definition olsr_preprocessor_remove_function (function : Z) (l : list Z) : list Z * Z := remove_function function l.
Definition olsr_packetparser_remove_function (function : Z) (l : list Z) : list Z * Z := remove_function function l.

(** ** State *)
Record pstate := mkPs {
  ps_dups : dup_st;
  ps_net : net_st;
  ps_nbh : neighborhood;
  ps_buf : list Z
}.

#[global] Instance ps_has_timers : HasTimers pstate := {|
  get_timers := fun s => dup_timers (ps_dups s);
  put_timers := fun T s => mkPs (put_timers T (ps_dups s)) (ps_net s) (ps_nbh s) (ps_buf s);
  get_put_timers := fun _ _ => eq_refl |}.
#[global] Instance ps_has_net : HasNet pstate := {|
  get_net := ps_net;
  put_net := fun N s => mkPs (ps_dups s) N (ps_nbh s) (ps_buf s);
  get_put_net := fun _ _ => eq_refl; put_put_net := fun _ _ _ => eq_refl |}.

Abbreviation PM := (SE pstate).

Definition on_dups {A} (m : SE dup_st A) : PM A := fun s =>
  match m (ps_dups s) with
  | Some (D, a) => Some (mkPs D (ps_net s) (ps_nbh s) (ps_buf s), a)
  | None => None
  end.
Definition set_buf (b : list Z) (s : pstate) : pstate := mkPs (ps_dups s) (ps_net s) (ps_nbh s) b.

(** Reading at an offset of the packet, and writing there. *)
Definition read_at {A} (off : Z) (m : RD A) : PM A := fun s =>
  if decide (0 <= off <= Z.of_nat (length (ps_buf s))) then
    match m (drop (Z.to_nat off) (ps_buf s)) with Some (_, a) => Some (s, a) | None => None end
  else None.
Definition write_at {A} (off : Z) (m : WR A) : PM A := fun s =>
  if decide (0 <= off <= Z.of_nat (length (ps_buf s))) then
    match m (take (Z.to_nat off) (ps_buf s), drop (Z.to_nat off) (ps_buf s)) with
    | Some ((a, r), x) => Some (set_buf (a ++ r) s, x)
    | None => None
    end
  else None.

Section parser.
Context (ip_version : Z) (router_id : ip_addr) (rnd : nat -> Z).
Context (ptf_list : list (list Z -> Z -> list Z * Z)) (os_sendto : nat -> Z).
Context (parse_functions : list (Z * Z)) (packetparser_functions preprocessor_functions : list Z).
Context (call : Z -> olsr_message -> loc -> ip_addr -> duplicate_status -> PM unit).
Context (call_packetparser : Z -> Z -> Z -> loc -> ip_addr -> PM unit).
Context (preprocess : Z -> loc -> ip_addr -> PM bool).

Definition ipsize : nat := if ip_version =? AF_INET then 4 else 16.
Definition MIN_MESSAGE_SIZE : Z := 8 + Z.of_nat ipsize.

(** One interface of the loop at the end of [olsr_forward_message]. *)
Definition forward_on (msg : olsr_message) (binary : Z) (in_if ifn : loc) : PM unit :=
  data ← read_at binary (pkt_bytes (Z.to_nat (m_size msg)));
  n ← net_output_pending ifn;
  if negb (n =? 0) then
    i ← rd_if in_if;
    if bool_decide (mode i = IF_MODE_ETHER /\ ifn = in_if) then mret tt
    else
      r ← net_outbuffer_push ifn data;
      if negb (r =? m_size msg) then
        net_output ptf_list os_sendto ifn;;
        set_buffer_timer rnd ifn;;
        net_outbuffer_push ifn data;;
        mret tt
      else mret tt
  else
    set_buffer_timer rnd ifn;;
    net_outbuffer_push ifn data;;
    mret tt.

Definition hop (msg : olsr_message) : olsr_message :=
  mkMsg (m_type msg) (vtime msg) (m_size msg) (originator msg) (u8 (ttl msg - 1)) (u8 (hopcnt msg + 1)) (seqno msg)
    (header msg) (payload msg) (end_ msg).

Definition olsr_forward_message (msg : olsr_message) (binary : Z) (in_if : loc) (from_addr : ip_addr) : PM Z :=
  w ← se_get ps_nbh;
  src ← se_opt (olsr_lookup_main_addr_by_alias ip_version from_addr w);
  let src := default from_addr src in
  nbr ← se_opt (olsr_lookup_nbr_entry ip_version src true w);
  match nbr with
  | None => mret 0
  | Some p =>
    n ← se_opt (nbrs w !! p);
    if negb (is_sym n) then mret 0
    else if mprs_count n =? 0 then mret 0
    else
      d ← on_dups (olsr_is_duplicate_message ip_version rnd (originator msg) (seqno msg) true);
      if d.1 : bool then mret 0
      else
        let msg := hop msg in
        write_at binary (olsr_put_msg_hdr ipsize msg);;
        if ttl msg =? 0 then mret 0
        else
          l ← on_net (se_get interface_head);
          foldr (fun ifn m => forward_on msg binary in_if ifn;; m) (mret tt) l;;
          mret 1
  end.

(** The registered functions for a message. *)
Definition dispatch (msg : olsr_message) (in_if : loc) (from_addr : ip_addr) (status : duplicate_status) : PM unit :=
  foldr (fun e m =>
    (if (e.1 =? PROMISCUOUS) || (e.1 =? m_type msg) then call e.2 msg in_if from_addr status else mret tt);; m)
    (mret tt) parse_functions.

(** The body of the loop, from the checks of the originator on. *)
Definition process_message (msg : olsr_message) (curr : Z) (in_if : loc) (from_addr : ip_addr) : PM unit :=
  v ← (if ipcmp ip_version (originator msg) router_id =? 0 then mret false else olsr_validate_address ip_version (originator msg));
  if negb v then mret tt
  else if (ttl msg =? 0) || (ttl msg + hopcnt msg >? 255) then mret tt
  else
    d ← on_dups (olsr_is_duplicate_message ip_version rnd (originator msg) (seqno msg) false);
    (if d.1 : bool then mret tt else dispatch msg in_if from_addr d.2);;
    olsr_forward_message msg curr in_if from_addr;;
    mret tt.

(** The loop over the messages; [old] is the originator that the variable
    [msg] still holds, and [fuel] bounds the number of messages. *)
Fixpoint parse_messages (fuel : nat) (curr : Z) (old : ip_addr) (in_if : loc) (from_addr : ip_addr) : PM unit :=
  match fuel with
  | O => se_fail
  | S fuel =>
    size ← se_get (fun s => Z.of_nat (length (ps_buf s)));
    if curr <=? size - MIN_MESSAGE_SIZE then
      msg ← read_at curr (olsr_parse_msg_hdr ipsize curr old);
      if curr + m_size msg >? size then mret tt
      else if m_size msg =? 0 then mret tt
      else
        process_message msg curr in_if from_addr;;
        parse_messages fuel (curr + m_size msg) (originator msg) in_if from_addr
    else mret tt
  end.

Definition parse_packet (fuel : nat) (old : ip_addr) (in_if : loc) (from_addr : ip_addr) : PM unit :=
  size ← se_get (fun s => Z.of_nat (length (ps_buf s)));
  if size <? 4 then mret tt
  else
    pkt_size ← read_at 0 pkt_get_u16;
    pkt_seqno ← read_at 2 pkt_get_u16;
    if negb (pkt_size =? size) then mret tt
    else
      foldr (fun f m => call_packetparser f pkt_size pkt_seqno in_if from_addr;; m) (mret tt) packetparser_functions;;
      parse_messages fuel 4 old in_if from_addr.

(** What [os_recvfrom] returns. *)
Inductive recv :=
  | recv_error
  | recv_packet (data : list Z) (from_family_ok : bool) (from_addr : ip_addr).

(** [None] says that a preprocessor discards the packet. *)
Fixpoint run_preprocessors (l : list Z) (in_if : loc) (from_addr : ip_addr) : PM bool :=
  match l with
  | [] => mret true
  | f :: l => ok ← preprocess f in_if from_addr; if ok : bool then run_preprocessors l in_if from_addr else mret false
  end.

(** At most 32 packets are read; [inputs] are the results of [os_recvfrom]. *)
Fixpoint olsr_input (rounds : nat) (fuel : nat) (fd : Z) (old : ip_addr) (inputs : list recv) : PM unit :=
  match rounds, inputs with
  | O, _ | _, [] | _, recv_error :: _ => mret tt
  | S rounds, recv_packet data ok from_addr :: inputs =>
    if negb ok then mret tt
    else
      self ← if_ifwithaddr ip_version from_addr;
      match self with
      | Some _ => mret tt
      | None =>
        in_if ← if_ifwithsock fd;
        match in_if with
        | None => mret tt
        | Some in_if =>
          se_mod (set_buf data);;
          ok ← run_preprocessors preprocessor_functions in_if from_addr;
          if negb ok then mret tt
          else
            parse_packet fuel old in_if from_addr;;
            olsr_input rounds fuel fd old inputs
        end
      end
  end.
End parser.

(** ** The invariant of the parser *)
Lemma ps_put_get (s : pstate) : put_net (get_net s) s = s.
Proof. by destruct s. Qed.

Section runs.
Context (ip_version : Z) (rnd : nat -> Z).

Record ps_ok (s : pstate) : Prop := {
  k_dups : dup_ok ip_version (ps_dups s);
  k_net : net_ok (ps_net s);
  k_hold : is_Some (timer_infos (dup_timers (ps_dups s)) !! buffer_hold_timer_info (ps_net s));
  k_nbh : neighborhood_ok (ps_nbh s);
  k_buf : bytes (ps_buf s)
}.

(** The part of the state that sending does not touch. *)
Record same_rest (s s' : pstate) : Prop := {
  sr_nbh : ps_nbh s' = ps_nbh s;
  sr_buf : ps_buf s' = ps_buf s;
  sr_dups : dups (ps_dups s') = dups (ps_dups s);
  sr_sets : forall f, set_of f (ps_dups s') = set_of f (ps_dups s)
}.

Lemma same_rest_refl s : same_rest s s.
Proof. by split. Qed.
Lemma same_rest_trans s1 s2 s3 : same_rest s1 s2 -> same_rest s2 s3 -> same_rest s1 s3.
Proof. intros [] []. split; [congruence..|]. intros f. congruence. Qed.

Lemma dup_ok_more D T :
  dup_ok ip_version D -> timers_ok T -> (forall i, is_Some (timer_infos (dup_timers D) !! i) -> is_Some (timer_infos T !! i)) ->
  (forall q t, timers (dup_timers D) !! q = Some t -> timers T !! q = Some t) -> dup_ok ip_version (put_timers T D).
Proof.
  intros [O1 O2 O3 O4 O5] HT Hi Hq. split; simpl; try done.
  - by apply Hi.
  - intros p e He. destruct (O5 p e He) as (f & q & t & H1 & H2 & H3 & H4 & H5). exists f, q, t. split_and!; try done; [by apply Hq|apply H5..].
Qed.

Lemma put_net_ok s N ifp d : ps_ok s -> net_upd ifp d (ps_net s) N -> ps_ok (put_net N s).
Proof.
  intros [K1 K2 K3 K4 K5] U. split; simpl; try done; [by eapply net_upd_ok|]. by rewrite (nu_info _ _ _ _ U).
Qed.

Lemma net_upd_nil ifp N i b : ifs N !! ifp = Some i -> netbuf_ok i b -> net_upd ifp [] N N.
Proof. intros Hi Hb. split; try done; [by rewrite app_nil_r|]. intros j Hj. simplify_eq. exists i. split; [done|]. split; [eauto|done]. Qed.

Lemma hold_timer_upd N ifp i b t : ifs N !! ifp = Some i -> netbuf_ok i b ->
  net_upd ifp [] N (with_ifs (<[ifp := set_hold_timer t i]> (ifs N)) N).
Proof.
  intros Hi Hb. apply (if_upd N ifp i (set_hold_timer t i) b (sent N) (sent N) []); try done; [by destruct Hb|]. by rewrite app_nil_r.
Qed.

Lemma set_buffer_timer_run s ifn : ps_ok s -> ifn ∈ interface_head (ps_net s) ->
  exists s', set_buffer_timer rnd ifn s = Some (s', tt) /\ ps_ok s' /\ same_rest s s' /\ net_upd ifn [] (ps_net s) (ps_net s') /\
    netbuf <$> ifs (ps_net s') !! ifn = netbuf <$> ifs (ps_net s) !! ifn.
Proof.
  intros Ok Hin. pose proof Ok as [K1 K2 [info K3] K4 K5]. destruct (n_if _ K2 ifn Hin) as (i & b & Hi & Hb).
  unfold set_buffer_timer. erewrite bind_run by (apply rd_if_run; [apply ps_put_get|done]).
  destruct (buffer_hold_timer i) as [t|]; [exists s; split_and!; [done|done|done|by eapply net_upd_nil|done]|].
  erewrite bind_run by (by apply on_net_run). rewrite ps_put_get. simpl get_net.
  destruct (timer_start_run rnd (dup_timers (ps_dups s)) OLSR_BUFFER_HOLD_TIME OLSR_BUFFER_HOLD_JITTER ifn
    (buffer_hold_timer_info (ps_net s)) info (d_timers _ _ K1) K3) as (t & T & R & Ht & Ets & OT & [_ _ E3 _] & _); [done|done|].
  erewrite bind_run by (unfold on_timers; simpl; by rewrite R).
  erewrite wr_if_run by done. eexists. split; [reflexivity|].
  assert (U : net_upd ifn [] (ps_net s) (with_ifs (<[ifn := set_hold_timer (Some t) i]> (ifs (ps_net s))) (ps_net s))) by (by eapply hold_timer_upd).
  split; [|split; [by split|split; [done|simpl; by rewrite lookup_insert_eq, Hi]]]. split; simpl; try done.
  - apply dup_ok_more; [done|done|by intros j; apply E3|]. intros q tq Hq. rewrite Ets, lookup_insert_ne by congruence. done.
  - by eapply net_upd_ok.
  - apply E3. by rewrite K3.
Qed.

Lemma read_at_run {A} s off (m : RD A) r a : 0 <= off <= Z.of_nat (length (ps_buf s)) ->
  m (drop (Z.to_nat off) (ps_buf s)) = Some (r, a) -> read_at off m s = Some (s, a).
Proof. intros H1 H2. unfold read_at. by rewrite decide_True, H2. Qed.

(** The bytes of the message that is forwarded, and whether it is queued. *)
Definition msg_bytes (msg : olsr_message) (binary : Z) (s : pstate) : list Z :=
  take (Z.to_nat (m_size msg)) (drop (Z.to_nat binary) (ps_buf s)).
Definition skipped (in_if : loc) (N : net_st) (ifn : loc) : Prop := exists i,
  ifs N !! ifn = Some i /\ pending (netbuf i) <> 0 /\ mode i = IF_MODE_ETHER /\ ifn = in_if.
Definition forwarded (data : list Z) (in_if : loc) (N N' : net_st) (ifn : loc) : Prop := exists i,
  ifs N !! ifn = Some i /\
  ((skipped in_if N ifn /\ stream ifn N' = stream ifn N) \/
   (~ skipped in_if N ifn /\ maxsize (netbuf i) < Z.of_nat (length data) /\ stream ifn N' = stream ifn N) \/
   (~ skipped in_if N ifn /\ Z.of_nat (length data) <= maxsize (netbuf i) /\ stream ifn N' = stream ifn N ++ data)).

Lemma forward_on_run send s msg binary in_if ifn :
  ps_ok s -> ifn ∈ interface_head (ps_net s) -> in_if ∈ interface_head (ps_net s) ->
  0 <= binary -> 0 <= m_size msg -> binary + m_size msg <= Z.of_nat (length (ps_buf s)) ->
  exists s' d, forward_on rnd [] send msg binary in_if ifn s = Some (s', tt) /\ ps_ok s' /\ same_rest s s' /\
    net_upd ifn d (ps_net s) (ps_net s') /\ forwarded (msg_bytes msg binary s) in_if (ps_net s) (ps_net s') ifn.
Proof.
  intros Ok Hin Hif Hb0 Hm0 Hb. pose proof Ok as [K1 K2 K3 K4 K5]. destruct (n_if _ K2 ifn Hin) as (i & b & Hi & Hnb).
  destruct (n_if _ K2 in_if Hif) as (j & bj & Hj & _). set (data := msg_bytes msg binary s).
  assert (Ld : Z.of_nat (length data) = m_size msg) by (unfold data, msg_bytes; rewrite length_take, length_drop; lia).
  unfold forward_on. erewrite bind_run.
  2: { apply (read_at_run s binary _ (drop (Z.to_nat (m_size msg)) (drop (Z.to_nat binary) (ps_buf s))) data); [lia|].
       unfold pkt_bytes. rewrite decide_True by (rewrite length_drop; lia). done. }
  unfold net_output_pending. erewrite bind2_run by (apply rd_if_run; [apply ps_put_get|done]). erewrite bind_run by reflexivity.
  pose proof (nb_pending _ _ Hnb) as Hp. pose proof (nb_max _ _ Hnb) as Hmx. pose proof (nb_size _ _ Hnb) as [_ Hsz]. unfold OLSR_HEADERSIZE in Hmx.
  rewrite wrapu_id by (unfold is_u; lia). cbv beta. destruct (Z.eqb_spec (pending (netbuf i)) 0) as [E0|Hne]; cbn [negb].
  - assert (Hns : ~ skipped in_if (ps_net s) ifn) by (intros (i' & Hi' & ? & _); simplify_eq).
    destruct (set_buffer_timer_run s ifn Ok Hin) as (s1 & R1 & Ok1 & Sr1 & U1 & B1). erewrite bind_run by exact R1.
    destruct (nu_if _ _ _ _ U1 i Hi) as (i1 & Hi1 & [b1 Hb1] & E1).
    destruct (push_stream ps_put_get s1 ifn i1 b1 data Hi1 Hb1) as (N' & r & R2 & HN). erewrite bind_run by exact R2.
    assert (Hp1 : pending (netbuf i1) = 0) by (rewrite Hi, Hi1 in B1; injection B1 as ->; done).
    rewrite Hp1, Z.add_0_l in HN. exists (put_net N' s1).
    case_decide as Hfit.
    + destruct HN as [_ U2]. exists ([] ++ data). pose proof (net_upd_trans _ _ _ _ _ _ U1 U2) as U.
      split; [done|]. split; [by eapply put_net_ok|]. split; [destruct Sr1; by split|]. split; [done|].
      exists i. split; [done|]. right. right. split; [done|]. split; [congruence|]. apply (nu_stream _ _ _ _ U).
    + destruct HN as [_ ->]. exists []. rewrite ps_put_get. split; [done|]. split; [done|]. split; [done|]. split; [done|].
      exists i. split; [done|]. right. left. split; [done|]. split; [injection E1; lia|]. rewrite (nu_stream _ _ _ _ U1). apply app_nil_r.
  - erewrite bind_run by (apply rd_if_run; [apply ps_put_get|done]). case_bool_decide as Hsk.
    { destruct Hsk as [Hm ->]. assert (j = i) as -> by congruence. exists s, []. split; [done|]. split; [done|].
      split; [apply same_rest_refl|]. split; [by eapply net_upd_nil|]. exists i. split; [done|]. left. split; [|done]. exists i. by split_and!. }
    assert (Hns : ~ skipped in_if (ps_net s) ifn).
    { intros (i' & Hi' & _ & Hm & ->). apply Hsk. split; [congruence|done]. }
    destruct (push_stream ps_put_get s ifn i b data Hi Hnb) as (N1 & r & R1 & HN1). erewrite bind_run by exact R1. case_decide as Hfit.
    + destruct HN1 as [-> U1]. rewrite Ld, Z.eqb_refl. exists (put_net N1 s), data.
      split; [done|]. split; [by eapply put_net_ok|]. split; [by split|]. split; [done|].
      exists i. split; [done|]. right. right. split; [done|]. split; [lia|]. apply (nu_stream _ _ _ _ U1).
    + destruct HN1 as [-> ->]. rewrite ps_put_get. destruct (Z.eqb_spec 0 (m_size msg)) as [E|Hnz]; [lia|]. cbn [negb].
      destruct (output_stream ps_put_get s ifn i b send Hi Hnb) as (N1 & r1 & i1 & b1 & R2 & U1 & Hi1 & Hb1 & Hp1 & Hm1).
      erewrite bind_run by exact R2. pose proof (put_net_ok _ _ _ _ Ok U1) as Ok1.
      destruct (set_buffer_timer_run (put_net N1 s) ifn Ok1) as (s2 & R3 & Ok2 & Sr2 & U2 & B2); [simpl; by rewrite (nu_head _ _ _ _ U1)|].
      erewrite bind_run by exact R3. simpl ps_net in U2, B2. destruct (nu_if _ _ _ _ U2 i1 Hi1) as (i2 & Hi2 & [b2 Hb2] & E2).
      rewrite Hi1, Hi2 in B2. injection B2 as Enb.
      destruct (push_stream ps_put_get s2 ifn i2 b2 data Hi2 Hb2) as (N3 & r3 & R4 & HN3). erewrite bind_run by exact R4.
      rewrite Enb, Hp1, Z.add_0_l, Hm1 in HN3. pose proof (net_upd_trans _ _ _ _ _ _ U1 U2) as U. exists (put_net N3 s2).
      case_decide as Hfit2.
      * destruct HN3 as [_ U3]. exists (([] ++ []) ++ data). pose proof (net_upd_trans _ _ _ _ _ _ U U3) as U'.
        split; [done|]. split; [by eapply put_net_ok|]. split; [destruct Sr2; by split|]. split; [done|].
        exists i. split; [done|]. right. right. split; [done|]. split; [lia|]. apply (nu_stream _ _ _ _ U').
      * destruct HN3 as [_ ->]. exists ([] ++ []). rewrite ps_put_get. split; [done|]. split; [done|]. split; [destruct Sr2; by split|]. split; [done|].
        exists i. split; [done|]. right. left. split; [done|]. split; [lia|]. rewrite (nu_stream _ _ _ _ U). apply app_nil_r.
Qed.

Lemma forwarded_frame data in_if N N1 N' q : ifs N1 !! q = ifs N !! q -> stream q N1 = stream q N ->
  forwarded data in_if N1 N' q -> forwarded data in_if N N' q.
Proof.
  intros Ei Es (i & Hi & H). exists i. rewrite <- Ei. split; [done|]. rewrite <- Es.
  assert (skipped in_if N1 q <-> skipped in_if N q) as <- by (unfold skipped; by rewrite Ei). done.
Qed.

Lemma forward_all_run send msg binary in_if l : forall s,
  ps_ok s -> NoDup l -> (forall q, q ∈ l -> q ∈ interface_head (ps_net s)) -> in_if ∈ interface_head (ps_net s) ->
  0 <= binary -> 0 <= m_size msg -> binary + m_size msg <= Z.of_nat (length (ps_buf s)) ->
  exists s', foldr (fun ifn m => forward_on rnd [] send msg binary in_if ifn;; m) (mret tt) l s = Some (s', tt) /\ ps_ok s' /\ same_rest s s' /\
    interface_head (ps_net s') = interface_head (ps_net s) /\ filter_tree (ps_net s') = filter_tree (ps_net s) /\
    (forall q, q ∉ l -> ifs (ps_net s') !! q = ifs (ps_net s) !! q /\ stream q (ps_net s') = stream q (ps_net s)) /\
    (forall q, q ∈ l -> forwarded (msg_bytes msg binary s) in_if (ps_net s) (ps_net s') q).
Proof.
  induction l as [|ifn l IH]; intros s Ok ND Hl Hif Hb0 Hm0 Hb.
  { exists s. split_and!; try done. intros q []%not_elem_of_nil. }
  apply NoDup_cons in ND as [Hn ND]. simpl.
  destruct (forward_on_run send s msg binary in_if ifn Ok ltac:(apply Hl; left) Hif Hb0 Hm0 Hb) as (s1 & d & R1 & Ok1 & Sr1 & U1 & F1).
  erewrite bind_run by exact R1. pose proof (nu_head _ _ _ _ U1) as Eh.
  destruct (IH s1 Ok1 ND) as (s2 & R2 & Ok2 & Sr2 & Eh2 & Ef2 & Ho2 & F2); try done.
  - intros q Hq. rewrite Eh. apply Hl. by right.
  - by rewrite Eh.
  - by rewrite (sr_buf _ _ Sr1).
  - exists s2. rewrite R2. split; [done|]. split; [done|]. split; [by eapply same_rest_trans|]. split; [congruence|].
    split; [rewrite Ef2; apply U1|]. split.
    + intros q Hq. destruct (Ho2 q) as [-> ->]; [set_solver|]. apply U1. set_solver.
    + intros q [->|Hq]%elem_of_cons.
      * destruct F1 as (i & Hi & F1). exists i. split; [done|]. destruct (Ho2 ifn Hn) as [_ ->]. done.
      * assert (q <> ifn) by (intros ->; done). destruct (nu_other _ _ _ _ U1 q) as [E1 E2]; [done|].
        eapply forwarded_frame; [exact E1|exact E2|]. pose proof (F2 q Hq) as F. unfold msg_bytes in *. by rewrite (sr_buf _ _ Sr1) in F.
Qed.

(** ** Forwarding *)
Definition n_interfaces_nodup (s : pstate) : Prop := NoDup (interface_head (ps_net s)).

(** The packet after the header of the message at [binary] was rewritten. *)
Definition rewritten (msg : olsr_message) (binary : Z) (b : list Z) : list Z :=
  take (Z.to_nat binary) b ++ hdr_bytes (ipsize ip_version) (hop msg) ++ drop (Z.to_nat binary + 8 + ipsize ip_version) b.

Lemma rewritten_behind msg binary b k : msg_fields_ok (ipsize ip_version) msg -> 0 <= binary ->
  binary + 8 + Z.of_nat (ipsize ip_version) <= k <= Z.of_nat (length b) ->
  drop (Z.to_nat k) (rewritten msg binary b) = drop (Z.to_nat k) b.
Proof.
  intros Hf H0 Hk. unfold rewritten. assert (length (hdr_bytes (ipsize ip_version) (hop msg)) = (8 + ipsize ip_version)%nat) as Lh.
  { apply hdr_length. destruct Hf. split; simpl; try done; apply wrapu_range; lia. }
  rewrite !drop_app, drop_drop, (drop_ge (take _ _)), (drop_ge (hdr_bytes _ _)) by (rewrite ?length_take; lia).
  rewrite length_take, Lh. cbn [app]. f_equal. lia.
Qed.

(** Who may cause this node to forward: the sender is a symmetric neighbour that
    selected the node as a relay. *)
Definition relay_for (from_addr : ip_addr) (w : neighborhood) : Prop := exists src p n,
  default from_addr <$> olsr_lookup_main_addr_by_alias ip_version from_addr w = Some src /\
  tree_find (avl_comp_default ip_version) src (nbr_tree w) = Some p /\ nbrs w !! p = Some n /\
  is_sym n = true /\ mprs_count n <> 0.

(** What [olsr_forward_message] does with a message, case by case. *)
Inductive forward_outcome (msg : olsr_message) (binary : Z) (in_if : loc) (from_addr : ip_addr) (s : pstate) : pstate -> Z -> Prop :=
  | fwd_no_relay : ~ relay_for from_addr (ps_nbh s) -> forward_outcome msg binary in_if from_addr s s 0
  | fwd_duplicate D st : relay_for from_addr (ps_nbh s) ->
      olsr_is_duplicate_message ip_version rnd (originator msg) (seqno msg) true (ps_dups s) = Some (D, (true, st)) ->
      forward_outcome msg binary in_if from_addr s (mkPs D (ps_net s) (ps_nbh s) (ps_buf s)) 0
  | fwd_last_hop D st : relay_for from_addr (ps_nbh s) ->
      olsr_is_duplicate_message ip_version rnd (originator msg) (seqno msg) true (ps_dups s) = Some (D, (false, st)) -> ttl msg = 1 ->
      forward_outcome msg binary in_if from_addr s (mkPs D (ps_net s) (ps_nbh s) (rewritten msg binary (ps_buf s))) 0
  | fwd_queued D st s' : relay_for from_addr (ps_nbh s) ->
      olsr_is_duplicate_message ip_version rnd (originator msg) (seqno msg) true (ps_dups s) = Some (D, (false, st)) -> ttl msg <> 1 ->
      ps_buf s' = rewritten msg binary (ps_buf s) -> ps_nbh s' = ps_nbh s ->
      interface_head (ps_net s') = interface_head (ps_net s) -> filter_tree (ps_net s') = filter_tree (ps_net s) ->
      dups (ps_dups s') = dups D -> (forall f, set_of f (ps_dups s') = set_of f D) ->
      (forall q, q ∈ interface_head (ps_net s) -> forwarded (msg_bytes msg binary s') in_if (ps_net s) (ps_net s') q) ->
      forward_outcome msg binary in_if from_addr s s' 1.

Lemma forward_message_run send s msg binary in_if from_addr :
  ps_ok s -> n_interfaces_nodup s -> in_if ∈ interface_head (ps_net s) -> length (originator msg) = 16%nat ->
  msg_fields_ok (ipsize ip_version) msg -> 0 <= binary -> binary + 8 + Z.of_nat (ipsize ip_version) <= Z.of_nat (length (ps_buf s)) ->
  binary + m_size msg <= Z.of_nat (length (ps_buf s)) ->
  exists s' r, olsr_forward_message ip_version rnd [] send msg binary in_if from_addr s = Some (s', r) /\ ps_ok s' /\
    forward_outcome msg binary in_if from_addr s s' r.
Proof.
  intros Ok ND Hif Lo Hf Hb0 Hb Hb'. pose proof Ok as [K1 K2 K3 K4 K5]. unfold olsr_forward_message.
  erewrite bind_run by reflexivity. destruct (lookup_main_ok ip_version from_addr _ K4) as [src0 Hsrc].
  erewrite bind_run by (by rewrite Hsrc). set (src := default from_addr src0).
  erewrite bind_run by (by rewrite (lookup_nbr_ok ip_version src true _ K4)).
  assert (Hrel : relay_for from_addr (ps_nbh s) -> exists p n, tree_find (avl_comp_default ip_version) src (nbr_tree (ps_nbh s)) = Some p /\
    nbrs (ps_nbh s) !! p = Some n /\ is_sym n = true /\ mprs_count n <> 0).
  { intros (src' & p & n & E & H). rewrite Hsrc in E. injection E as <-. by exists p, n. }
  assert (Hno : ~ relay_for from_addr (ps_nbh s) -> exists s' r, Some (s, 0) = Some (s', r) /\ ps_ok s' /\
    forward_outcome msg binary in_if from_addr s s' r) by (intros; exists s, 0; split_and!; [done..|by constructor]).
  destruct (tree_find _ src _) as [p|] eqn:Ep; [|apply Hno; by intros (? & ? & ? & _)%Hrel].
  pose proof Ep as (k & Hin & _)%tree_find_Some. destruct (h_nbrs _ K4 p k Hin) as (n & Hn & _).
  erewrite bind_run by (by rewrite Hn). destruct (is_sym n) eqn:Esym; cbn [negb]; [|apply Hno; intros (? & ? & ? & ? & ? & ?)%Hrel; congruence].
  destruct (Z.eqb_spec (mprs_count n) 0) as [|Hmpr]; [apply Hno; intros (? & ? & ? & ? & ? & ?)%Hrel; congruence|].
  assert (HR : relay_for from_addr (ps_nbh s)) by (exists src, p, n; rewrite Hsrc; by split_and!). clear Hno Hrel.
  destruct (is_duplicate_run ip_version rnd (ps_dups s) (originator msg) (seqno msg) true K1 Lo) as (D & [d st] & R & OkD & HiD).
  erewrite bind_run by (unfold on_dups; by rewrite R). set (s1 := mkPs D (ps_net s) (ps_nbh s) (ps_buf s)).
  assert (Ok1 : ps_ok s1) by (split; try done; by apply HiD).
  cbn [fst]. destruct d; [exists s1, 0; split_and!; [done..|by eapply fwd_duplicate]|].
  assert (Hfh : msg_fields_ok (ipsize ip_version) (hop msg)).
  { destruct Hf. split; simpl; try done; apply wrapu_range; lia. }
  set (b' := rewritten msg binary (ps_buf s)).
  assert (RW : write_at binary (olsr_put_msg_hdr (ipsize ip_version) (hop msg)) s1 = Some (set_buf b' s1, (Z.to_nat binary + 2)%nat)).
  { unfold write_at. simpl ps_buf. rewrite decide_True by lia. erewrite put_msg_hdr_run by (done || (rewrite length_drop; lia)).
    rewrite drop_drop, length_take, Nat.min_l by lia. unfold b', rewritten. rewrite <- app_assoc.
    by replace (Z.to_nat binary + (8 + ipsize ip_version))%nat with (Z.to_nat binary + 8 + ipsize ip_version)%nat by lia. }
  cbn [fst]. cbv zeta. erewrite bind_run by exact RW.
  assert (Lb : length b' = length (ps_buf s)).
  { unfold b', rewritten. rewrite !length_app, hdr_length, length_take, length_drop by done. lia. }
  assert (Ok2 : ps_ok (set_buf b' s1)).
  { destruct Ok1. split; try done. simpl. unfold b', rewritten. apply Forall_app. split; [by apply bytes_take|].
    apply Forall_app. split; [|by apply bytes_drop]. by apply hdr_bytes_ok. }
  assert (Et : (ttl (hop msg) =? 0) = (ttl msg =? 1)).
  { simpl. destruct (mf_ttl _ _ Hf) as [H1 H2]. change (2 ^ 8) with 256 in H2. unfold wrapu. change (2 ^ 8) with 256. case_cmp; mlia. }
  rewrite Et. destruct (Z.eqb_spec (ttl msg) 1) as [E1|E1].
  { exists (set_buf b' s1), 0. split_and!; [done..|exact (fwd_last_hop msg binary in_if from_addr s D st HR R E1)]. }
  erewrite bind_run by (by apply on_net_run). rewrite ps_put_get. simpl get_net.
  destruct (forward_all_run send (hop msg) binary in_if (interface_head (ps_net s)) (set_buf b' s1) Ok2 ND) as (s3 & R3 & Ok3 & Sr3 & Eh & Ef & _ & F);
    try done; [by destruct (mf_size _ _ Hf)|simpl; rewrite Lb; done|].
  erewrite bind_run by exact R3. exists s3, 1. split; [done|]. split; [done|].
  eapply fwd_queued; try done; [by rewrite (sr_buf _ _ Sr3)|by rewrite (sr_nbh _ _ Sr3)|by rewrite (sr_dups _ _ Sr3)|apply Sr3|].
  intros q Hq. specialize (F q Hq). unfold msg_bytes in *. by rewrite (sr_buf _ _ Sr3).
Qed.
End runs.

(** ** The loop over the messages *)
(** ** Running with a postcondition

    [wp F m s Q]: from [s], [m] ends in a state with [Q], or it faults and then
    [F] holds. *)
Definition wp {A} (F : Prop) (m : PM A) (s : pstate) (Q : pstate -> A -> Prop) : Prop :=
  match m s with Some (s', a) => Q s' a | None => F end.

Lemma wp_run {A} F (m : PM A) s s' a (Q : pstate -> A -> Prop) : m s = Some (s', a) -> Q s' a -> wp F m s Q.
Proof. unfold wp. by intros ->. Qed.

Lemma wp_bind {A B} F (m : PM A) (k : A -> PM B) s Q : wp F m s (fun s1 a => wp F (k a) s1 Q) -> wp F (m ≫= k) s Q.
Proof. unfold wp, mbind, se_bind. by destruct (m s) as [[s1 a]|]. Qed.

Lemma wp_mono {A} F (m : PM A) s (Q Q' : pstate -> A -> Prop) : wp F m s Q -> (forall s' a, Q s' a -> Q' s' a) -> wp F m s Q'.
Proof. unfold wp. destruct (m s) as [[s' a]|]; eauto. Qed.

(** What a registered function may not do: damage the state, write the packet or
    change the list of interfaces. *)
Definition kept (ip_version : Z) (s s' : pstate) : Prop :=
  ps_ok ip_version s' /\ ps_buf s' = ps_buf s /\ interface_head (ps_net s') = interface_head (ps_net s).
Definition keeps (ip_version : Z) (m : PM unit) : Prop := forall s s', ps_ok ip_version s -> n_interfaces_nodup s ->
  m s = Some (s', tt) -> kept ip_version s s'.

(** The message is the one that the packet has at its offset, and ends inside the
    packet. *)
Record in_packet (ips : nat) (msg : olsr_message) (b : list Z) : Prop := {
  ip_fields : msg_fields_ok ips msg;
  ip_orig : length (originator msg) = 16%nat;
  ip_bytes : hdr_bytes ips msg = take (8 + ips) (drop (Z.to_nat (header msg)) b);
  ip_header : 0 <= header msg;
  ip_payload : payload msg = header msg + 8 + Z.of_nat ips /\ payload msg <= Z.of_nat (length b);
  ip_end : end_ msg = header msg + m_size msg /\ end_ msg <= Z.of_nat (length b)
}.

(** What is passed to a function that is registered for type [t]. *)
Record handed (ip_version t : Z) (msg : olsr_message) (in_if : loc) (s : pstate) : Prop := {
  hd_type : t = PROMISCUOUS \/ t = m_type msg;
  hd_msg : in_packet (ipsize ip_version) msg (ps_buf s);
  hd_ok : ps_ok ip_version s;
  hd_nodup : n_interfaces_nodup s;
  hd_if : in_if ∈ interface_head (ps_net s)
}.

Section loop.
Context (ip_version : Z) (router_id : ip_addr) (rnd : nat -> Z) (send : nat -> Z).
Context (parse_functions : list (Z * Z)) (packetparser_functions : list Z).
Context (call : Z -> olsr_message -> loc -> ip_addr -> duplicate_status -> PM unit).
Context (call_packetparser : Z -> Z -> Z -> loc -> ip_addr -> PM unit).
Context (F : Prop).

Context (call_ok : forall t f msg in_if from st s, (t, f) ∈ parse_functions -> handed ip_version t msg in_if s ->
  wp F (call f msg in_if from st) s (fun s' _ => kept ip_version s s')).

Abbreviation ips := (ipsize ip_version).

(** The state between two messages. *)
Record loop_ok (in_if : loc) (n : nat) (s : pstate) : Prop := {
  lo_ok : ps_ok ip_version s;
  lo_nodup : n_interfaces_nodup s;
  lo_if : in_if ∈ interface_head (ps_net s);
  lo_len : length (ps_buf s) = n
}.

Lemma ps_kept_refl s : ps_ok ip_version s -> kept ip_version s s.
Proof. by split. Qed.

Lemma kept_loop in_if n s s' : kept ip_version s s' -> loop_ok in_if n s -> loop_ok in_if n s'.
Proof. intros (Ok & B & I) [_ ND Hi Hl]. split; [done|unfold n_interfaces_nodup|..]; by rewrite ?I, ?B. Qed.

(** A list of calls each of which keeps the state, from any state like [s]. *)
Lemma wp_all {A} (g : A -> PM unit) in_if n s0 (l : list A) : forall s,
  (forall a s1, a ∈ l -> kept ip_version s0 s1 -> loop_ok in_if n s1 -> wp F (g a) s1 (fun s2 _ => kept ip_version s1 s2)) ->
  loop_ok in_if n s -> kept ip_version s0 s -> wp F (foldr (fun a m => g a;; m) (mret tt) l) s (fun s' _ => kept ip_version s0 s').
Proof.
  induction l as [|a l IH]; intros s H Lk K; [done|]. simpl. apply wp_bind. eapply wp_mono; [apply H; [left|done|done]|].
  intros s2 [] K2. apply IH; [intros b s3 Hb; apply H; by right|by eapply kept_loop|].
  destruct K as (Ok1 & B1 & I1), K2 as (Ok2 & B2 & I2). split; [done|]. split; congruence.
Qed.

Lemma dispatch_ok msg in_if from st n s : loop_ok in_if n s -> in_packet ips msg (ps_buf s) ->
  wp F (dispatch parse_functions call msg in_if from st) s (fun s' _ => kept ip_version s s').
Proof.
  intros Lk Hm. unfold dispatch.
  apply (wp_all (fun e => if (e.1 =? PROMISCUOUS) || (e.1 =? m_type msg) then call e.2 msg in_if from st else mret tt) in_if n); [|done|apply ps_kept_refl, Lk].
  intros [t f] s1 He (Ok1 & B1 & I1) [_ ND1 Hi1 _]. simpl. destruct ((t =? PROMISCUOUS) || (t =? m_type msg)) eqn:E; [|by eapply wp_run].
  eapply call_ok; [done|]. split; try done; [|by rewrite B1]. by apply orb_true_iff in E as [?%Z.eqb_eq|?%Z.eqb_eq]; [left|right].
Qed.

(** Processing a message changes at most its own header in the packet. *)
Lemma process_message_run in_if from msg n s : loop_ok in_if n s -> in_packet ips msg (ps_buf s) ->
  wp F (process_message ip_version router_id rnd [] send parse_functions call msg (header msg) in_if from) s (fun s' _ =>
    loop_ok in_if n s' /\ (ps_buf s' = ps_buf s \/ ps_buf s' = rewritten ip_version msg (header msg) (ps_buf s))).
Proof.
  intros Lk Hm. pose proof Lk as [Ok ND Hif Hlen]. unfold process_message. apply wp_bind.
  assert (exists v, (if ipcmp ip_version (originator msg) router_id =? 0 then mret false else olsr_validate_address ip_version (originator msg)) s = Some (s, v)) as [v Rv].
  { case_match; [by exists false|]. unfold olsr_validate_address. erewrite bind_run by (by apply on_net_run). rewrite ps_put_get.
    eexists. reflexivity. }
  eapply wp_run; [exact Rv|]. destruct v; cbn [negb]; [|by eapply wp_run; [done|]; auto].
  destruct ((ttl msg =? 0) || (ttl msg + hopcnt msg >? 255)); [by eapply wp_run; [done|]; auto|].
  destruct (is_duplicate_run ip_version rnd (ps_dups s) (originator msg) (seqno msg) false (k_dups _ _ Ok) (ip_orig _ _ _ Hm)) as (D & [d st] & R & OkD & HiD).
  apply wp_bind. eapply wp_run; [unfold on_dups; by rewrite R|]. set (s1 := mkPs D (ps_net s) (ps_nbh s) (ps_buf s)).
  assert (K1 : kept ip_version s s1) by (split; [destruct Ok; split; try done; by apply HiD|done]).
  apply wp_bind. apply wp_mono with (Q := fun s2 _ => kept ip_version s1 s2).
  { destruct d; [by eapply wp_run; [|apply ps_kept_refl, K1]|]. eapply dispatch_ok; [by eapply kept_loop|done]. }
  intros s2 [] (Ok2 & B2 & I2). apply wp_bind. destruct Hm as [Hf Lo _ H0 [Ep Hp] [Ee He]].
  destruct (forward_message_run ip_version rnd send s2 msg (header msg) in_if from Ok2) as (s3 & r & R3 & Ok3 & H3);
    try (done || by rewrite ?I2, ?B2); [unfold n_interfaces_nodup; by rewrite I2|rewrite B2; simpl; lia..|].
  eapply wp_run; [exact R3|]. eapply wp_run; [done|].
  assert (Eb : ps_buf s3 = ps_buf s \/ ps_buf s3 = rewritten ip_version msg (header msg) (ps_buf s)).
  { change (ps_buf s) with (ps_buf s1). rewrite <- B2. destruct H3; auto. }
  assert (I3 : interface_head (ps_net s3) = interface_head (ps_net s)) by (transitivity (interface_head (ps_net s2)); [by destruct H3|done]).
  split; [|done]. split; [done|unfold n_interfaces_nodup; by rewrite I3|by rewrite I3|].
  destruct Eb as [->| ->]; [done|]. unfold rewritten. rewrite !length_app, length_take, length_drop.
  assert (length (hdr_bytes ips (hop msg)) = (8 + ips)%nat) as ->; [|lia].
  apply hdr_length. destruct Hf. split; simpl; try done; apply wrapu_range; lia.
Qed.

Lemma ips_le : (ips <= 16)%nat.
Proof. unfold ipsize. case_match; lia. Qed.

(** The header of the next message. *)
Lemma read_hdr_run in_if n s curr old : loop_ok in_if n s -> bytes old -> length old = 16%nat ->
  0 <= curr -> curr + 8 + Z.of_nat ips <= Z.of_nat n ->
  exists msg, read_at curr (olsr_parse_msg_hdr ips curr old) s = Some (s, msg) /\ msg_fields_ok ips msg /\ length (originator msg) = 16%nat /\
    header msg = curr /\ (curr + m_size msg <= Z.of_nat n -> in_packet ips msg (ps_buf s)) /\
    olsr_parse_msg_hdr ips curr old (drop (Z.to_nat curr) (ps_buf s)) = Some (drop (8 + ips) (drop (Z.to_nat curr) (ps_buf s)), msg).
Proof.
  intros [Ok ND Hif Hlen] Ho Lo H0 Hb.
  destruct (parse_msg_hdr_total ips curr old (drop (Z.to_nat curr) (ps_buf s))) as (m & R & Hf & Hh & Lm & _ & Eh & Ep & Ee);
    [apply bytes_drop, Ok|done|done|apply ips_le|rewrite length_drop; lia|].
  exists m. split; [eapply read_at_run; [lia|exact R]|]. split_and!; try done. intros He. split; try done; rewrite ?Eh; try done; lia.
Qed.

(** The loop ends and never leaves the packet. *)
Lemma parse_messages_run in_if from fuel : forall s n curr old,
  loop_ok in_if n s -> bytes old -> length old = 16%nat -> 0 <= curr -> (n - Z.to_nat curr < fuel)%nat ->
  wp F (parse_messages ip_version router_id rnd [] send parse_functions call fuel curr old in_if from) s (fun s' _ => loop_ok in_if n s').
Proof.
  induction fuel as [|fuel IH]; intros s n curr old Lk Ho Lo H0 Hf; [lia|]. cbn [parse_messages].
  apply wp_bind. eapply wp_run; [reflexivity|]. pose proof (lo_len _ _ _ Lk) as Hlen. unfold MIN_MESSAGE_SIZE.
  destruct (Z.leb_spec curr (Z.of_nat (length (ps_buf s)) - (8 + Z.of_nat ips))) as [Hle|]; [|by eapply wp_run].
  destruct (read_hdr_run in_if n s curr old Lk Ho Lo H0 ltac:(lia)) as (msg & R & Hfm & Lm & Eh & Hin & _).
  apply wp_bind. eapply wp_run; [exact R|]. rewrite Z.gtb_ltb. destruct (Z.ltb_spec (Z.of_nat (length (ps_buf s))) (curr + m_size msg)); [by eapply wp_run|].
  destruct (Z.eqb_spec (m_size msg) 0) as [|Hnz]; [by eapply wp_run|]. pose proof (mf_size _ _ Hfm) as [Hs0 _].
  apply wp_bind. rewrite <- Eh at 1. eapply wp_mono; [apply (process_message_run in_if from msg n s Lk), Hin; lia|].
  intros s1 [] [Lk1 _]. apply IH; [done|by destruct (mf_orig _ _ Hfm)|done|lia|lia].
Qed.

(** ** Which messages are processed

    The messages of a packet, read off the bytes as they arrived. *)
Fixpoint split_messages (fuel : nat) (curr : Z) (old : ip_addr) (buf : list Z) : list olsr_message :=
  match fuel with
  | O => []
  | S fuel =>
    if curr <=? Z.of_nat (length buf) - MIN_MESSAGE_SIZE ip_version then
      match olsr_parse_msg_hdr ips curr old (drop (Z.to_nat curr) buf) with
      | Some (_, msg) =>
        if (curr + m_size msg >? Z.of_nat (length buf)) || (m_size msg =? 0) then []
        else msg :: split_messages fuel (curr + m_size msg) (originator msg) buf
      | None => []
      end
    else []
  end.

Lemma split_ext fuel : forall curr old b b', length b = length b' -> drop (Z.to_nat curr) b = drop (Z.to_nat curr) b' -> 0 <= curr ->
  bytes b -> bytes old -> length old = 16%nat ->
  split_messages fuel curr old b = split_messages fuel curr old b'.
Proof.
  induction fuel as [|fuel IH]; intros curr old b b' L E H0 Hb Ho Lo; [done|]. cbn [split_messages]. rewrite <- L, <- E.
  unfold MIN_MESSAGE_SIZE. destruct (Z.leb_spec curr (Z.of_nat (length b) - (8 + Z.of_nat ips))); [|done].
  destruct (parse_msg_hdr_total ips curr old (drop (Z.to_nat curr) b)) as (m & -> & Hf & _ & Lm & _);
    [by apply bytes_drop|done|done|apply ips_le|rewrite length_drop; lia|].
  case_match; [done|]. f_equal. pose proof (mf_size _ _ Hf) as [Hs _]. destruct (mf_orig _ _ Hf).
  apply IH; try (done || lia). replace (Z.to_nat (curr + m_size m)) with (Z.to_nat curr + Z.to_nat (m_size m))%nat by lia.
  by rewrite <- !drop_drop, E.
Qed.

(** C21: If every message of a packet is at least as long as its header, then
    the parser processes exactly the messages of the packet as it arrived, in
    their order: rewriting the header of a forwarded message in place never
    disturbs the messages behind it. Shorter messages are accepted too, and
    there it does: [short_message_disturbs]. *)
Theorem parse_messages_split in_if from fuel : forall s n curr old,
  loop_ok in_if n s -> bytes old -> length old = 16%nat -> 0 <= curr -> (n - Z.to_nat curr < fuel)%nat ->
  Forall (fun m => 8 + Z.of_nat ips <= m_size m) (split_messages fuel curr old (ps_buf s)) ->
  parse_messages ip_version router_id rnd [] send parse_functions call fuel curr old in_if from s =
  foldr (fun m k => process_message ip_version router_id rnd [] send parse_functions call m (header m) in_if from;; k) (mret tt)
    (split_messages fuel curr old (ps_buf s)) s.
Proof.
  induction fuel as [|fuel IH]; intros s n curr old Lk Ho Lo H0 Hf; [lia|]. cbn [parse_messages split_messages].
  erewrite bind_run by reflexivity. pose proof (lo_len _ _ _ Lk) as Hlen. unfold MIN_MESSAGE_SIZE.
  destruct (Z.leb_spec curr (Z.of_nat (length (ps_buf s)) - (8 + Z.of_nat ips))) as [Hle|]; [|done].
  destruct (read_hdr_run in_if n s curr old Lk Ho Lo H0 ltac:(lia)) as (msg & R & Hfm & Lm & Hh & Hin & P).
  erewrite bind_run by exact R. rewrite P.
  rewrite Z.gtb_ltb. destruct (Z.ltb_spec (Z.of_nat (length (ps_buf s))) (curr + m_size msg)); [done|]. simpl orb.
  destruct (Z.eqb_spec (m_size msg) 0) as [|Hnz]; [done|]. pose proof (mf_size _ _ Hfm) as [Hs0 _].
  intros [Hmin Hrest]%Forall_cons. simpl foldr. rewrite <- Hh at 1.
  pose proof (process_message_run in_if from msg n s Lk (Hin ltac:(lia))) as W. unfold wp in W. unfold mbind, se_bind.
  destruct (process_message _ _ _ _ _ _ _ _ _ _ _ s) as [[s1 []]|]; [|done]. destruct W as [Lk1 B1].
  assert (Es : split_messages fuel (curr + m_size msg) (originator msg) (ps_buf s) = split_messages fuel (curr + m_size msg) (originator msg) (ps_buf s1)).
  { apply split_ext; [rewrite Hlen; symmetry; apply Lk1| |lia|apply Lk|by destruct (mf_orig _ _ Hfm)|done].
    destruct B1 as [->| ->]; [done|]. rewrite Hh. symmetry. apply rewritten_behind; [done|lia..]. }
  rewrite Es in *. apply (IH s1 n); try done; [by destruct (mf_orig _ _ Hfm)|lia|lia].
Qed.

Context (packetparser_ok : forall f a b in_if from s, f ∈ packetparser_functions -> ps_ok ip_version s -> n_interfaces_nodup s ->
  wp F (call_packetparser f a b in_if from) s (fun s' _ => kept ip_version s s')).

(** Parsing a packet ends and never leaves it. *)
Lemma parse_packet_run in_if from fuel old n s : loop_ok in_if n s -> bytes old -> length old = 16%nat -> (n < fuel)%nat ->
  wp F (parse_packet ip_version router_id rnd [] send parse_functions packetparser_functions call call_packetparser fuel old in_if from) s
    (fun s' _ => loop_ok in_if n s').
Proof.
  intros Lk Ho Lo Hf. pose proof (lo_len _ _ _ Lk) as Hlen. unfold parse_packet. apply wp_bind. eapply wp_run; [reflexivity|]. cbv beta.
  destruct (Z.ltb_spec (Z.of_nat (length (ps_buf s))) 4); [by eapply wp_run|].
  assert (Hr : forall off, 0 <= off <= 2 -> exists v, read_at off pkt_get_u16 s = Some (s, v)).
  { intros off Hoff. unfold pkt_get_u16. eexists. eapply read_at_run; [lia|].
    erewrite bind_run; [reflexivity|]. unfold pkt_bytes. rewrite decide_True by (rewrite length_drop; lia). reflexivity. }
  destruct (Hr 0) as [v0 R0]; [lia|]. destruct (Hr 2) as [v2 R2]; [lia|].
  apply wp_bind. eapply wp_run; [exact R0|]. apply wp_bind. eapply wp_run; [exact R2|]. destruct (negb (v0 =? _)); [by eapply wp_run|].
  apply wp_bind. eapply wp_mono; [apply (wp_all (fun f => call_packetparser f v0 v2 in_if from) in_if n s);
    [intros f s1 Hin _ Lk1; apply packetparser_ok; [done|apply Lk1..]|done|apply ps_kept_refl, Lk]|].
  intros s1 [] K. apply parse_messages_run; try (done || lia). by eapply kept_loop.
Qed.

(** A preprocessor that accepts the packet may shorten it. *)
Definition preprocessed (n : nat) (s s' : pstate) : Prop :=
  ps_ok ip_version s' /\ (length (ps_buf s') <= n)%nat /\ interface_head (ps_net s') = interface_head (ps_net s).

Context (preprocessors : list Z) (preprocess : Z -> loc -> ip_addr -> PM bool) (size : nat).
Context (preprocess_ok : forall f in_if from s, f ∈ preprocessors -> ps_ok ip_version s -> n_interfaces_nodup s -> (length (ps_buf s) <= size)%nat ->
  wp F (preprocess f in_if from) s (fun s' _ => preprocessed size s s')).

Lemma run_preprocessors_ok l in_if from : l ⊆ preprocessors -> forall s, ps_ok ip_version s -> n_interfaces_nodup s -> (length (ps_buf s) <= size)%nat ->
  wp F (run_preprocessors preprocess l in_if from) s (fun s' _ => preprocessed size s s').
Proof.
  intros Hl. induction l as [|f l IH]; intros s Ok ND Hn; [by eapply wp_run|]. simpl. apply wp_bind.
  eapply wp_mono; [apply preprocess_ok; [apply Hl; left|done..]|]. intros s1 b (Ok1 & L1 & I1). destruct b; [|by eapply wp_run].
  eapply wp_mono; [apply IH; [intros x Hx; apply Hl; by right|done|unfold n_interfaces_nodup; by rewrite I1|done]|].
  intros s2 b (Ok2 & L2 & I2). split; [done|]. split; [done|]. congruence.
Qed.

Lemma find_if_run P s : ps_ok ip_version s -> exists r, (l ← on_net (se_get interface_head); find_if P l) s = Some (s, r) /\
  forall q, r = Some q -> q ∈ interface_head (ps_net s).
Proof.
  intros [_ HN _ _ _]. erewrite bind_run by (by apply on_net_run). rewrite ps_put_get. simpl get_net.
  assert (H : forall q, q ∈ interface_head (ps_net s) -> q ∈ interface_head (ps_net s)) by done. revert H.
  generalize (interface_head (ps_net s)) at 1 3 as l. induction l as [|p l IH]; intros Hl; [by exists None|]. simpl.
  destruct (n_if _ HN p) as (i & b & Hi & _); [apply Hl; left|]. erewrite bind_run by (apply rd_if_run; [apply ps_put_get|done]).
  destruct (P i); [|apply IH; intros q Hq; apply Hl; by right]. exists (Some p). split; [done|]. intros q [= <-]. apply Hl. left.
Qed.

Lemma olsr_input_run fd old rounds : bytes old -> length old = 16%nat -> forall inputs s,
  Forall (fun r => match r with recv_error => True | recv_packet data _ _ => bytes data /\ (length data <= size)%nat end) inputs ->
  ps_ok ip_version s -> n_interfaces_nodup s ->
  wp F (olsr_input ip_version router_id rnd [] send parse_functions packetparser_functions preprocessors call call_packetparser
      preprocess rounds (S size) fd old inputs) s (fun s' _ => ps_ok ip_version s' /\ n_interfaces_nodup s').
Proof.
  intros Ho Lo. induction rounds as [|rounds IH]; intros inputs s Hin Ok ND; [by eapply wp_run|].
  destruct inputs as [|[|data ok from] inputs]; [by eapply wp_run..|]. apply Forall_cons in Hin as [[Hb Hl] Hin]. simpl.
  destruct ok; cbn [negb]; [|by eapply wp_run]. unfold if_ifwithaddr, if_ifwithsock.
  destruct (find_if_run (fun i => ipcmp ip_version (if_ip i) from =? 0) s Ok) as (self & Rself & _).
  apply wp_bind. eapply wp_run; [exact Rself|]. destruct self; [by eapply wp_run|].
  destruct (find_if_run (fun i => (olsr_socket_fd i =? fd) || (send_socket_fd i =? fd)) s Ok) as (r & Rq & Hq).
  apply wp_bind. eapply wp_run; [exact Rq|]. destruct r as [q|]; [|by eapply wp_run].
  apply wp_bind. eapply wp_run; [reflexivity|]. assert (Ok1 : ps_ok ip_version (set_buf data s)) by (by destruct Ok; split).
  apply wp_bind. eapply wp_mono; [by apply run_preprocessors_ok|]. intros s1 b (Ok1' & L1 & I1). simpl ps_net in I1.
  assert (ND1 : n_interfaces_nodup s1) by (unfold n_interfaces_nodup; by rewrite I1). destruct b; cbn [negb]; [|by eapply wp_run].
  apply wp_bind. eapply wp_mono; [apply (parse_packet_run q from (S size) old (length (ps_buf s1)) s1); [|done|done|lia]|].
  { split; [done..|rewrite I1; by apply Hq|done]. }
  intros s2 [] Lk2. apply IH; [done|apply Lk2..].
Qed.
End loop.

(** ** Where receiving can fault *)
Section input.
Context (ip_version : Z) (router_id : ip_addr) (rnd : nat -> Z) (send : nat -> Z).
Context (parse_functions : list (Z * Z)) (packetparser_functions preprocessors : list Z).
Context (call : Z -> olsr_message -> loc -> ip_addr -> duplicate_status -> PM unit).
Context (call_packetparser : Z -> Z -> Z -> loc -> ip_addr -> PM unit) (preprocess : Z -> loc -> ip_addr -> PM bool).

(** A call of a registered function faults, in a well-formed state. A function for
    messages got one that the packet holds. *)
Inductive callee_faults : Prop :=
  | handler_faults t f msg in_if from st s : (t, f) ∈ parse_functions -> handed ip_version t msg in_if s ->
      call f msg in_if from st s = None -> callee_faults
  | packetparser_faults f size seqno in_if from s : f ∈ packetparser_functions -> ps_ok ip_version s ->
      call_packetparser f size seqno in_if from s = None -> callee_faults
  | preprocessor_faults f in_if from s : f ∈ preprocessors -> ps_ok ip_version s ->
      preprocess f in_if from s = None -> callee_faults.

(** C3: The code that receives, parses and forwards is safe by itself. Whatever
    bytes arrive in at most 32 datagrams per call, with any length and any
    header fields, [olsr_input] ends, and it leaves a well-formed state or
    faults inside a registered function: it never itself reads or writes
    outside the packet, the output buffers, the duplicate sets or freed memory.
    A message handler is only called with a message whose header is the one in
    the packet and that ends inside it. Of the registered functions only this is
    assumed: one that returns has kept the state well formed and the list of
    interfaces, and has not written the packet (a preprocessor may change it,
    but not beyond the size of the receive buffer). No packet
    transformation is registered. *)
Theorem olsr_input_safe size fd old rounds inputs s :
  (forall f msg in_if from st, keeps ip_version (call f msg in_if from st)) ->
  (forall f a b in_if from, keeps ip_version (call_packetparser f a b in_if from)) ->
  (forall f in_if from s s' b, ps_ok ip_version s -> (length (ps_buf s) <= size)%nat -> preprocess f in_if from s = Some (s', b) ->
    preprocessed ip_version size s s') ->
  Forall (fun r => match r with recv_error => True | recv_packet data _ _ => bytes data /\ (length data <= size)%nat end) inputs ->
  bytes old -> length old = 16%nat -> ps_ok ip_version s -> n_interfaces_nodup s ->
  match olsr_input ip_version router_id rnd [] send parse_functions packetparser_functions preprocessors call call_packetparser
      preprocess rounds (S size) fd old inputs s with
  | Some (s', _) => ps_ok ip_version s' /\ n_interfaces_nodup s'
  | None => callee_faults
  end.
Proof.
  intros Hc Hp Hq Hin Ho Lo Ok ND. apply (olsr_input_run ip_version router_id rnd send parse_functions packetparser_functions call call_packetparser
    callee_faults); try done.
  - intros t f msg in_if from st s1 Hf Hh. unfold wp. destruct (call f msg in_if from st s1) as [[s2 []]|] eqn:E; [|by eapply handler_faults].
    by eapply Hc; [apply Hh..|].
  - intros f a b in_if from s1 Hf Ok1 ND1. unfold wp. destruct (call_packetparser f a b in_if from s1) as [[s2 []]|] eqn:E; [|by eapply packetparser_faults].
    by eapply Hp.
  - intros f in_if from s1 Hf Ok1 ND1 L1. unfold wp. destruct (preprocess f in_if from s1) as [[s2 b]|] eqn:E; [|by eapply preprocessor_faults].
    by eapply Hq.
Qed.
End input.

(** ** Forwarding, as seen from outside *)
Section forwarding.
Context (ip_version : Z) (rnd : nat -> Z) (send : nat -> Z).

Lemma rewritten_msg_bytes msg binary s s' :
  msg_fields_ok (ipsize ip_version) msg -> 0 <= binary -> 8 + Z.of_nat (ipsize ip_version) <= m_size msg ->
  binary + m_size msg <= Z.of_nat (length (ps_buf s)) -> ps_buf s' = rewritten ip_version msg binary (ps_buf s) ->
  msg_bytes msg binary s' =
    hdr_bytes (ipsize ip_version) (hop msg) ++ drop (8 + ipsize ip_version) (msg_bytes msg binary s).
Proof.
  intros Hf H0 Hs Hb E. unfold msg_bytes. rewrite E. unfold rewritten.
  assert (length (hdr_bytes (ipsize ip_version) (hop msg)) = (8 + ipsize ip_version)%nat) as Lh.
  { apply hdr_length. destruct Hf. split; simpl; try done; apply wrapu_range; lia. }
  rewrite drop_app_length' by (rewrite length_take; lia).
  rewrite take_app_ge by lia. f_equal. rewrite Lh, skipn_firstn_comm, drop_drop. f_equal. f_equal. lia.
Qed.

(** C12: [olsr_forward_message] retransmits a message exactly when the
    neighbour it came from is symmetric and has selected this node as a relay,
    the forward duplicate set accepts the message, and the message has more than
    one hop to live. A retransmitted message is appended, with the time to live
    decremented and the hop count incremented and otherwise unchanged, to what
    every interface has sent and queued so far, except where it is larger than
    the buffer, and except on the incoming interface in ether mode while output
    is pending there; in every other case the interfaces are untouched. The
    message is at least as long as its header, and no packet transformation is
    registered. *)
Theorem forward_message_correct s msg binary in_if from_addr :
  ps_ok ip_version s -> n_interfaces_nodup s -> in_if ∈ interface_head (ps_net s) -> length (originator msg) = 16%nat ->
  msg_fields_ok (ipsize ip_version) msg -> 0 <= binary -> 8 + Z.of_nat (ipsize ip_version) <= m_size msg ->
  binary + m_size msg <= Z.of_nat (length (ps_buf s)) ->
  exists s' r, olsr_forward_message ip_version rnd [] send msg binary in_if from_addr s = Some (s', r) /\ ps_ok ip_version s' /\
    (r = 1 <-> relay_for ip_version from_addr (ps_nbh s) /\ ttl msg <> 1 /\
      exists D st, olsr_is_duplicate_message ip_version rnd (originator msg) (seqno msg) true (ps_dups s) = Some (D, (false, st))) /\
    (r = 1 -> forall q, q ∈ interface_head (ps_net s) ->
      forwarded (hdr_bytes (ipsize ip_version) (hop msg) ++ drop (8 + ipsize ip_version) (msg_bytes msg binary s)) in_if (ps_net s) (ps_net s') q) /\
    (r <> 1 -> ps_net s' = ps_net s).
Proof.
  intros Ok ND Hif Lo Hf H0 Hs Hb.
  destruct (forward_message_run ip_version rnd send s msg binary in_if from_addr Ok ND Hif Lo Hf H0 ltac:(lia) Hb) as (s' & r & R & Ok' & O).
  exists s', r. split; [exact R|]. split; [done|]. destruct O as [Hn|D st HR E|D st HR E Et|D st s' HR E Et Eb _ _ _ _ _ F].
  - split_and!; [|done..]. split; [done|]. by intros [? _].
  - split_and!; [|done..]. split; [done|]. intros (_ & _ & D' & st' & E'). congruence.
  - split_and!; [|done..]. split; [done|]. by intros (_ & ? & _).
  - split_and!; [|intros _ q Hq; erewrite <- rewritten_msg_bytes by done; by apply F|done]. split; [eauto|done].
Qed.
End forwarding.

(** ** A small node: one interface and one neighbour, which selected the node as
    its relay *)
Definition demo_ip (b : Z) : ip_addr := [10; 0; 0; b] ++ replicate 12 0.
Definition demo_if : interface :=
  mkIf IF_MODE_ETHER (demo_ip 1) 200 1 3 4 17 None (mkBuf (Some (replicate 200 0)) 200 196 0 0).
Definition demo_nbh : neighborhood :=
  mkNbh [(1%positive, demo_ip 2)] {[ 1%positive := mkNbr (demo_ip 2) None 3 true false false false 1 1 [] ]} [] ∅ ∅ [] ∅ [] ∅ (mkDb [] ∅ ∅ None).
(** A packet with one message of 16 bytes from node 9. *)
Definition demo_packet : list Z :=
  [0; 20; 0; 1] ++ [130; 5; 0; 16; 10; 0; 0; 9; 7; 2; 0; 44] ++ [1; 2; 3; 4].
Definition demo_ps : pstate :=
  mkPs demo_dups (mkNet [1%positive] {[ 1%positive := demo_if ]} 2 [] []) demo_nbh demo_packet.
Definition demo_msg : olsr_message := mkMsg 130 1000 16 (demo_ip 9) 7 2 44 4 16 20.

Lemma demo_ps_ok : ps_ok AF_INET demo_ps /\ n_interfaces_nodup demo_ps.
Proof.
  split; [|apply NoDup_singleton]. split; simpl.
  - apply demo_dups_ok.
  - split. intros p Hp%list_elem_of_singleton. subst p. exists demo_if, (replicate 200 0). split; [done|]. split; simpl; try done; unfold OLSR_HEADERSIZE; lia.
  - by eexists.
  - split; simpl; [|set_solver]. intros p k [= -> ->]%list_elem_of_singleton. by eexists.
  - by apply (bool_decide_unpack _).
Qed.

Lemma demo_msg_ok : msg_fields_ok (ipsize AF_INET) demo_msg.
Proof. split; try done. split; [by apply (bool_decide_unpack _)|by apply Nat.leb_le]. Qed.

Lemma forward_message_correct_witness :
  exists s' r, olsr_forward_message AF_INET (fun _ => 5) [] (fun _ => 1) demo_msg 4 1 (demo_ip 2) demo_ps = Some (s', r) /\ ps_ok AF_INET s' /\
    (r = 1 <-> relay_for AF_INET (demo_ip 2) demo_nbh /\ 7 <> 1 /\
      exists D st, olsr_is_duplicate_message AF_INET (fun _ => 5) (demo_ip 9) 44 true demo_dups = Some (D, (false, st))) /\
    (r = 1 -> forall q, q ∈ interface_head (ps_net demo_ps) ->
      forwarded (hdr_bytes 4 (hop demo_msg) ++ drop 12 (msg_bytes demo_msg 4 demo_ps)) 1 (ps_net demo_ps) (ps_net s') q) /\
    (r <> 1 -> ps_net s' = ps_net demo_ps).
Proof.
  apply (forward_message_correct AF_INET (fun _ => 5) (fun _ => 1) demo_ps demo_msg 4 1 (demo_ip 2));
    [apply demo_ps_ok|apply demo_ps_ok|left|done|apply demo_msg_ok|done|done|done].
Defined.

(** A handler that does nothing with messages of type 130 and faults on others. *)
Definition demo_call (f : Z) (msg : olsr_message) (in_if : loc) (from : ip_addr) (st : duplicate_status) : PM unit :=
  if m_type msg =? 130 then mret tt else se_fail.

Lemma ignore_ok : keeps AF_INET (mret tt).
Proof. intros s s' Ok _ [= <-]. by apply ps_kept_refl. Qed.
Lemma demo_call_ok f msg in_if from st : keeps AF_INET (demo_call f msg in_if from st).
Proof. unfold demo_call. case_match; [apply ignore_ok|by intros s s']. Qed.

Lemma olsr_input_safe_witness :
  match olsr_input AF_INET (demo_ip 1) (fun _ => 5) [] (fun _ => 1) [(PROMISCUOUS, 1)] [1] [1] demo_call
      (fun _ _ _ _ _ => mret tt) (fun _ _ _ => mret true) 32 101 3 (replicate 16 0)
      [recv_packet demo_packet true (demo_ip 2); recv_packet [0; 9; 3] true (demo_ip 2); recv_error] demo_ps with
  | Some (s', _) => ps_ok AF_INET s' /\ n_interfaces_nodup s'
  | None => callee_faults AF_INET [(PROMISCUOUS, 1)] [1] [1] demo_call (fun _ _ _ _ _ => mret tt) (fun _ _ _ => mret true)
  end.
Proof.
  apply (olsr_input_safe AF_INET (demo_ip 1) (fun _ => 5) (fun _ => 1) [(PROMISCUOUS, 1)] [1] [1] demo_call
    (fun _ _ _ _ _ => mret tt) (fun _ _ _ => mret true) 100 3).
  - apply demo_call_ok.
  - intros. apply ignore_ok.
  - intros f in_if from s s' b Ok L [= <- <-]. by split.
  - repeat constructor; by apply Z.leb_le || by apply Z.ltb_lt || by apply Nat.leb_le.
  - by apply (bool_decide_unpack _).
  - done.
  - apply demo_ps_ok.
  - apply demo_ps_ok.
Defined.

(** No handler faults: the run ends. *)
Example input_runs : is_Some (olsr_input AF_INET (demo_ip 1) (fun _ => 5) [] (fun _ => 1) [(PROMISCUOUS, 1)] [1] [1] demo_call
  (fun _ _ _ _ _ => mret tt) (fun _ _ _ => mret true) 32 101 3 (replicate 16 0)
  [recv_packet demo_packet true (demo_ip 2); recv_packet [0; 9; 3] true (demo_ip 2); recv_error] demo_ps).
Proof. apply (bool_decide_unpack _). by vm_compute. Qed.

Lemma demo_calls t f msg in_if from st s : (t, f) ∈ [(PROMISCUOUS, 1)] -> handed AF_INET t msg in_if s ->
  wp True (demo_call f msg in_if from st) s (fun s' _ => kept AF_INET s s').
Proof. intros _ H. unfold wp, demo_call. destruct (m_type msg =? 130); [|done]. apply ps_kept_refl, H. Qed.

Lemma parse_messages_split_witness :
  parse_messages AF_INET (demo_ip 1) (fun _ => 5) [] (fun _ => 1) [(PROMISCUOUS, 1)] demo_call 21 4 (replicate 16 0) 1 (demo_ip 2) demo_ps =
  foldr (fun m k => process_message AF_INET (demo_ip 1) (fun _ => 5) [] (fun _ => 1) [(PROMISCUOUS, 1)] demo_call m (header m) 1 (demo_ip 2);; k)
    (mret tt) (split_messages AF_INET 21 4 (replicate 16 0) demo_packet) demo_ps /\
  length (split_messages AF_INET 21 4 (replicate 16 0) demo_packet) = 1%nat.
Proof.
  split; [|done].
  apply (parse_messages_split AF_INET (demo_ip 1) (fun _ => 5) (fun _ => 1) [(PROMISCUOUS, 1)] demo_call True
    demo_calls 1 (demo_ip 2) 21 demo_ps 20 4).
  - destruct demo_ps_ok. split; [done..|left|done].
  - by apply (bool_decide_unpack _).
  - done.
  - done.
  - by apply Nat.ltb_lt.
  - by apply (bool_decide_unpack _).
Defined.

(** The small node forwards the message with 6 hops to live. Its only interface is
    in ether mode and is the one the message came from; as nothing was pending
    there, the message is sent back on it. *)
Example ether_mode_echo :
  (fun r => stream 1 (ps_net r.1)) <$> parse_packet AF_INET (demo_ip 1) (fun _ => 5) [] (fun _ => 1) [] [] (fun _ _ _ _ _ => mret tt)
    (fun _ _ _ _ _ => mret tt) 21 (replicate 16 0) 1 (demo_ip 2) demo_ps =
  Some [130; 5; 0; 16; 10; 0; 0; 9; 6; 3; 0; 44; 1; 2; 3; 4].
Proof. by vm_compute. Qed.

(** A message of 4 bytes in front of the same message. Both are accepted. The
    header of the first one, of which 8 bytes are those of the second message,
    gets its new time to live and hop count before it is forwarded, and so the
    second one, which came from 10.0.0.9, is parsed as one of 9.1.0.9. *)
Definition short_packet : list Z :=
  [0; 24; 0; 1] ++ [130; 5; 0; 4] ++ [130; 5; 0; 16; 10; 0; 0; 9; 7; 2; 0; 44] ++ [1; 2; 3; 4].

Example short_message_disturbs :
  (fun m => take 4 (originator m)) <$> split_messages AF_INET 25 4 (replicate 16 0) short_packet = [[130; 5; 0; 16]; [10; 0; 0; 9]] /\
  (fun r => ps_buf r.1) <$> parse_packet AF_INET (demo_ip 1) (fun _ => 5) [] (fun _ => 1) [] [] (fun _ _ _ _ _ => mret tt)
    (fun _ _ _ _ _ => mret tt) 25 (replicate 16 0) 1 (demo_ip 2) (set_buf short_packet demo_ps) =
  Some ([0; 24; 0; 1] ++ [130; 5; 0; 4] ++ [130; 5; 0; 16; 9; 1; 0; 9; 6; 3; 0; 44] ++ [1; 2; 3; 4]).
Proof. by vm_compute. Qed.
