(* ===== verification/TcSend.v ===== *)
(** * Sending the own TC messages ([olsr_output_lq_tc] of [tc_set.c])

    [TcOutProps] shows what one fragment holds. Here the loop over the fragments
    is run to its end, with the sequence numbers, the scopes and the output
    buffers of the interfaces. *)
From Stdlib Require Import String.
From S2P Require Import Prelude Frames AvlSpec AvlOps Trees Types Comparators IpCalc IpLists Memcookie Clock Timer DuplicateSet Packet NetOut Lsdb LqHandler LqEtxFf Neighborhood LinkSet TcGraph TcBorder TcSet TcInv TcInput TcProps RoutingTable ProcessRoutes RibUpdate KernelRoutes RibRefresh RibPaths NodeSet HnaSet NbrTable NbrProps NbrEntry Spf RouteCalc Mpr Hello LinkOps LinkProps HelloInput Announce TcOutput FfPlugin TcOutProps Parser.

Lemma se_opt_run {S A} (o : option A) (s : S) a : o = Some a -> se_opt o s = Some (s, a).
Proof. by intros ->. Qed.

(** ** Pushing a message to all interfaces *)
Section push.
Context (rnd : nat -> Z) (send : nat -> Z).

Record ann_ok (x : announcer) : Prop := {
  ao_net : net_ok (an_net x);
  ao_timers : timers_ok (an_timers x);
  ao_hold : is_Some (timer_infos (an_timers x) !! buffer_hold_timer_info (an_net x))
}.
Lemma ann_put_get (x : announcer) : put_net (get_net x) x = x.
Proof. by destruct x. Qed.

(** Sending changes neither the sequence number of messages nor the time. *)
Record ann_kept (x x' : announcer) : Prop := {
  ak_seqno : message_seqno x' = message_seqno x;
  ak_now : now (an_timers x') = now (an_timers x)
}.
Lemma ann_kept_trans x y z : ann_kept x y -> ann_kept y z -> ann_kept x z.
Proof. intros [] []. split; congruence. Qed.

Lemma ann_put_ok x N q d : ann_ok x -> net_upd q d (an_net x) N -> ann_ok (put_net N x) /\ ann_kept x (put_net N x).
Proof. intros [A1 A2 A3] U. split; [|done]. split; simpl; [by eapply net_upd_ok|done|by rewrite (nu_info _ _ _ _ U)]. Qed.

Lemma hold_run x q : ann_ok x -> q ∈ interface_head (an_net x) ->
  exists x', set_buffer_timer rnd q x = Some (x', tt) /\ ann_ok x' /\ ann_kept x x' /\ net_upd q [] (an_net x) (an_net x') /\
    netbuf <$> ifs (an_net x') !! q = netbuf <$> ifs (an_net x) !! q.
Proof.
  intros Ok Hin. pose proof Ok as [A1 A2 [info A3]]. destruct (n_if _ A1 q Hin) as (i & b & Hi & Hb).
  unfold set_buffer_timer. erewrite bind_run by (apply rd_if_run; [apply ann_put_get|done]).
  destruct (buffer_hold_timer i) as [t|]; [exists x; split_and!; [done|done|done|by eapply net_upd_nil|done]|].
  erewrite bind_run by (by apply on_net_run). rewrite ann_put_get. simpl get_net.
  destruct (timer_start_run rnd (an_timers x) OLSR_BUFFER_HOLD_TIME OLSR_BUFFER_HOLD_JITTER q
    (buffer_hold_timer_info (an_net x)) info A2 A3) as (t & T & R & Ht & Ets & OT & [E1 _ E3 _] & _); [done|done|].
  erewrite bind_run by (unfold on_timers; simpl; by rewrite R). erewrite wr_if_run by done. eexists. split; [reflexivity|].
  assert (U : net_upd q [] (an_net x) (with_ifs (<[q := set_hold_timer (Some t) i]> (ifs (an_net x))) (an_net x))) by (by eapply hold_timer_upd).
  split; [|split; [by split|split; [done|simpl; by rewrite lookup_insert_eq, Hi]]]. split; simpl; [by eapply net_upd_ok|done|].
  apply E3. by rewrite A3.
Qed.

(** What of a message an interface accepts: all of it, if it fits an empty buffer. *)
Definition accepted (N : net_st) (q : loc) (data : list Z) : list Z :=
  match ifs N !! q with Some i => if Z.of_nat (length data) <=? maxsize (netbuf i) then data else [] | None => [] end.

Lemma push_one x q data : ann_ok x -> q ∈ interface_head (an_net x) ->
  exists x', (forall L, push_message rnd [] send data (q :: L) x = push_message rnd [] send data L x') /\ ann_ok x' /\ ann_kept x x' /\
    net_upd q (accepted (an_net x) q data) (an_net x) (an_net x').
Proof.
  intros Ok Hin. pose proof Ok as [A1 A2 A3]. destruct (n_if _ A1 q Hin) as (i & b & Hi & Hb). pose proof (nb_pending _ _ Hb) as Hp.
  unfold accepted. rewrite Hi. destruct (Z.ltb_spec (maxsize (netbuf i) - pending (netbuf i)) (Z.of_nat (length data))) as [Hl|Hl].
  - destruct (output_stream ann_put_get x q i b send Hi Hb) as (N1 & r1 & i1 & b1 & R1 & U1 & Hi1 & Hb1 & Hp1 & Hm1).
    destruct (ann_put_ok x N1 q [] Ok U1) as [Ok1 K1].
    destruct (hold_run (put_net N1 x) q Ok1) as (x2 & R2 & Ok2 & K2 & U2 & B2); [simpl; by rewrite (nu_head _ _ _ _ U1)|]. simpl an_net in U2, B2.
    destruct (nu_if _ _ _ _ U2 i1 Hi1) as (i2 & Hi2 & [b2 Hb2] & E2). rewrite Hi1, Hi2 in B2. injection B2 as Enb.
    destruct (push_stream ann_put_get x2 q i2 b2 data Hi2 Hb2) as (N3 & r3 & R3 & HN3). rewrite Enb, Hp1, Z.add_0_l, Hm1 in HN3.
    exists (put_net N3 x2). split.
    { intros L. cbn [push_message]. unfold net_outbuffer_bytes_left. erewrite bind2_run by (apply rd_if_run; [apply ann_put_get|done]).
      erewrite bind_run by reflexivity. rewrite (proj2 (Z.ltb_lt _ _)) by lia. erewrite bind2_run by exact R1. erewrite bind_run by exact R2. by erewrite bind_run by exact R3. }
    pose proof (net_upd_trans _ _ _ _ _ _ U1 U2) as U12. destruct (Z.leb_spec (Z.of_nat (length data)) (maxsize (netbuf i))).
    + rewrite decide_True in HN3 by done. destruct HN3 as [_ U3]. pose proof (net_upd_trans _ _ _ _ _ _ U12 U3) as U.
      destruct (ann_put_ok x2 N3 q data Ok2 U3) as [Ok3 K3]. split; [done|]. split; [by do 2 (eapply ann_kept_trans; [done|])|]. exact U.
    + rewrite decide_False in HN3 by lia. destruct HN3 as [_ ->]. change (an_net x2) with (get_net x2). rewrite ann_put_get.
      split; [done|]. split; [by eapply ann_kept_trans|]. exact U12.
  - destruct (push_stream ann_put_get x q i b data Hi Hb) as (N1 & r1 & R1 & HN1). rewrite decide_True in HN1 by lia. destruct HN1 as [_ U1].
    destruct (ann_put_ok x N1 q data Ok U1) as [Ok1 K1]. exists (put_net N1 x). split.
    { intros L. cbn [push_message]. unfold net_outbuffer_bytes_left. erewrite bind2_run by (apply rd_if_run; [apply ann_put_get|done]).
      erewrite bind_run by reflexivity. rewrite (proj2 (Z.ltb_ge _ _)) by lia. erewrite bind_run by reflexivity. by erewrite bind_run by exact R1. }
    rewrite (proj2 (Z.leb_le _ _)) by lia. done.
Qed.

(** The interfaces accept the same messages as before. *)
Record net_kept (N N' : net_st) : Prop := {
  nk_head : interface_head N' = interface_head N;
  nk_accepted : forall q data, accepted N' q data = accepted N q data
}.
Lemma net_kept_trans N1 N2 N3 : net_kept N1 N2 -> net_kept N2 N3 -> net_kept N1 N3.
Proof. intros [] []. split; [congruence|]. intros. congruence. Qed.
Lemma net_upd_kept q d N N' : net_ok N -> q ∈ interface_head N -> net_upd q d N N' -> net_kept N N'.
Proof.
  intros Hn Hq U. split; [apply U|]. intros p data. unfold accepted. destruct (decide (p = q)) as [->|Hne].
  - destruct (n_if _ Hn q Hq) as (i & b & Hi & _). destruct (nu_if _ _ _ _ U i Hi) as (i' & Hi' & _ & E). rewrite Hi, Hi'. by injection E as _ _ ->.
  - by destruct (nu_other _ _ _ _ U p Hne) as [-> _].
Qed.

Lemma push_all data L : forall x, ann_ok x -> NoDup L -> (forall q, q ∈ L -> q ∈ interface_head (an_net x)) ->
  exists x', push_message rnd [] send data L x = Some (x', tt) /\ ann_ok x' /\ ann_kept x x' /\ net_kept (an_net x) (an_net x') /\
    (forall q, stream q (an_net x') = stream q (an_net x) ++ if decide (q ∈ L) then accepted (an_net x) q data else []).
Proof.
  induction L as [|p L IH]; intros x Ok ND Hl.
  { exists x. split_and!; try done. intros q. rewrite decide_False by set_solver. by rewrite app_nil_r. }
  apply NoDup_cons in ND as [Hp ND]. destruct (push_one x p data Ok) as (x1 & R1 & Ok1 & K1 & U1); [apply Hl; left|].
  pose proof (net_upd_kept _ _ _ _ (ao_net _ Ok) (Hl p ltac:(left)) U1) as NK1.
  destruct (IH x1 Ok1 ND) as (x2 & R2 & Ok2 & K2 & NK2 & S2); [intros q Hq; rewrite (nk_head _ _ NK1); apply Hl; by right|].
  exists x2. rewrite R1. split; [done|]. split; [done|]. split; [by eapply ann_kept_trans|]. split; [by eapply net_kept_trans|].
  intros q. rewrite S2, (nk_accepted _ _ NK1). destruct (decide (q = p)) as [->|Hne].
  - rewrite decide_False, decide_True, app_nil_r by (done || left). apply U1.
  - destruct (nu_other _ _ _ _ U1 q Hne) as [_ ->]. f_equal. destruct (decide (q ∈ L)); [rewrite decide_True by (by right)|rewrite decide_False by set_solver]; done.
Qed.
End push.

(** ** The loop over the fragments *)
Section send.
Context `{LQ : LqHandler} {LL : LqLinks} `{KE : RouteExport} (rnd : nat -> Z) (send : nat -> Z).
Context (ip_version : Z) (router_id : ip_addr) (tc_redundancy lq_fish validity_time : Z).
Abbreviation ipsize := (tc_ipsize ip_version).
Abbreviation comp := (avl_comp_default ip_version).
Abbreviation sens S := (ro_sens (snd_router S)).

Definition ann_of (S : tc_sender) : announcer := mkAnn (snd_seqno S) (get_net (sens S)) (get_timers (sens S)).
Definition put_ann (x : announcer) (S : tc_sender) : tc_sender :=
  mkSender (with_sens (put_timers (an_timers x) (put_net (an_net x) (sens S))) (snd_router S)) (ttl_index S) (message_seqno x).
Abbreviation net S := (get_net (sens S)).

Lemma on_announcer_run {A} (m : SE announcer A) S x a : m (ann_of S) = Some (x, a) -> on_announcer m S = Some (put_ann x S, a).
Proof. intros E. unfold on_announcer. fold (ann_of S). by rewrite E. Qed.
Lemma ann_of_put x S : ann_of (put_ann x S) = x.
Proof. by destruct x. Qed.
Lemma put_ann_view x S : now (an_timers x) = now (get_timers (sens S)) -> same_view (sens S) (sens (put_ann x S)).
Proof. intros E. split; [done|done|exact E]. Qed.

Lemma on_sens_same {A} (m : SE sensing A) S a : m (sens S) = Some (sens S, a) -> on_router (on_sens m) S = Some (S, a).
Proof. intros E. unfold on_router, on_sens. rewrite E. by destruct S as [[] ? ?]. Qed.

(** *** The scope of the messages *)
Definition next_index (i : Z) : Z := if 0 <? lq_fish then if i + 1 >=? Z.of_nat (length ttl_list) then 0 else i + 1 else i.
Definition ttl_at (i : Z) : Z := if (0 <? lq_fish) && (0 <=? i) then nth (Z.to_nat i) ttl_list 0 else 255.

Lemma next_ttl_run S : next_ttl lq_fish S = Some (set_ttl_index (next_index (ttl_index S)) S, ttl_at (next_index (ttl_index S))).
Proof.
  unfold next_ttl, next_index, ttl_at. destruct (0 <? lq_fish); [|by destruct S]. erewrite bind_run by reflexivity. cbv zeta.
  erewrite bind_run by reflexivity. set (j := if _ >=? _ then 0 else _). destruct (Z.leb_spec 0 j) as [Hj|Hj]; [|done]. cbn [andb].
  assert (Hb : (Z.to_nat j < length ttl_list)%nat).
  { unfold j in *. rewrite Z.geb_leb in *. destruct (Z.leb_spec (Z.of_nat (length ttl_list)) (ttl_index S + 1)); [simpl; lia|lia]. }
  destruct (lookup_lt_is_Some_2 ttl_list (Z.to_nat j) Hb) as [v Hv]. rewrite Hv. erewrite nth_lookup_Some by exact Hv. done.
Qed.

(** *** The messages *)
Definition msg_head (size ttl sq ansn : Z) : list Z :=
  to_le 1 messageid_tc ++ to_le 1 (olsr_clock_encode_olsrv1 validity_time) ++ to_be 2 size ++ take ipsize router_id ++ to_le 1 ttl ++ to_le 1 0 ++ to_be 2 sq ++ to_be 2 ansn.
Definition tc_message (s : sensing) (ttl sq ansn lo up : Z) (C : list (loc * ip_addr)) : list Z :=
  msg_head (Z.of_nat (12 + ipsize + length (entries_bytes ip_version tc_redundancy s C))) ttl sq ansn ++ lo :: up :: entries_bytes ip_version tc_redundancy s C.

Lemma put_u16_run h x y t r v pos : length h = pos -> pkt_put_u16_at pos v (h ++ x :: y :: t, r) = Some ((h ++ to_be 2 v ++ t, r), tt).
Proof.
  intros <-. unfold pkt_put_u16_at. cbn [fst snd]. rewrite decide_True by (rewrite length_app; simpl; lia). rewrite htons_bytes, take_app_length, drop_app_ge by lia.
  by replace (length h + 2 - length h)%nat with 2%nat by lia.
Qed.

Context (Hid : (ipsize <= length router_id)%nat).

(** The sequence number and the size are filled in. *)
Lemma fill_run s ttl ansn lo up C r sq : exists r1, pkt_put_u16_at (6 + ipsize) sq (tc_bytes ip_version router_id tc_redundancy validity_time s ttl ansn lo up C, r) = Some (r1, tt) /\
  pkt_put_u16_at 2 (Z.of_nat (length r1.1)) r1 = Some ((tc_message s ttl sq ansn lo up C, r), tt).
Proof.
  set (E := entries_bytes ip_version tc_redundancy s C). set (vt := olsr_clock_encode_olsrv1 validity_time).
  set (h := to_le 1 messageid_tc ++ to_le 1 vt ++ to_be 2 0 ++ take ipsize router_id ++ to_le 1 ttl ++ to_le 1 0).
  assert (Lh : length h = (6 + ipsize)%nat) by (unfold h; rewrite !length_app, !to_be_length, length_take; simpl; lia).
  assert (E1 : tc_bytes ip_version router_id tc_redundancy validity_time s ttl ansn lo up C = h ++ 0 :: 0 :: to_be 2 ansn ++ lo :: up :: E).
  { unfold tc_bytes, head_bytes, h. rewrite <- !app_assoc. done. }
  rewrite E1. eexists. split; [by apply put_u16_run|]. cbn [fst].
  assert (E2 : h ++ to_be 2 sq ++ to_be 2 ansn ++ lo :: up :: E =
    (to_le 1 messageid_tc ++ to_le 1 vt) ++ 0 :: 0 :: take ipsize router_id ++ to_le 1 ttl ++ to_le 1 0 ++ to_be 2 sq ++ to_be 2 ansn ++ lo :: up :: E).
  { unfold h. rewrite <- !app_assoc. done. }
  assert (EL : length (h ++ to_be 2 sq ++ to_be 2 ansn ++ lo :: up :: E) = (12 + ipsize + length E)%nat) by (rewrite !length_app, !to_be_length, Lh; simpl; lia).
  rewrite EL, E2. etransitivity; [by apply put_u16_run|]. unfold tc_message, msg_head. fold E vt. rewrite <- !app_assoc. done.
Qed.

(** *** One fragment *)
Context (msgbuf : list Z) (Hmsg : length msgbuf = MSG_BUFFER).
Context (s0 : sensing) (N0 : nbr_view ip_version (sn_w s0)) (Lo0 : links_ok (sn_w s0)) (Eo0 : exts_ok s0).
Context (Hsize : Z.of_nat (start ip_version) <= last_start ip_version) (Haddr : forall e, e ∈ nbr_tree (sn_w s0) -> (ipsize <= length e.2)%nat).

(** The state between two fragments. *)
Record sending (S : tc_sender) : Prop := {
  sg_view : same_view s0 (sens S);
  sg_ann : ann_ok (ann_of S);
  sg_nodup : NoDup (interface_head (net S))
}.

Abbreviation internal := (olsr_output_lq_tc_internal rnd [] send ip_version router_id tc_redundancy lq_fish validity_time msgbuf).

Lemma internal_run S P L nip : sending S -> nbr_tree (sn_w s0) = P ++ L ->
  (P <> [] -> exists e, head L = Some e /\ ipcmp ip_version e.2 nip = 0) ->
  let F := fits ip_version tc_redundancy s0 (start ip_version) L in
  let lo := match head L with Some e => flag_at ip_version (last P) e.2 | None => 255 end in
  let up := match head F.2 with Some e => flag_at ip_version (last F.1) e.2 | None => 255 end in
  let i := next_index (ttl_index S) in
  exists S', internal nip (negb (bool_decide (P = []))) S = Some (S', snd <$> head F.2) /\ sending S' /\ net_kept (net S) (net S') /\
    local_ansn_number (snd_router S') = local_ansn_number (snd_router S) /\ ttl_index S' = i /\ snd_seqno S' = u16 (snd_seqno S + 1) /\
    forall q, q ∈ interface_head (net S) -> stream q (net S') = stream q (net S) ++
      accepted (net S) q (tc_message s0 (ttl_at i) (snd_seqno S) (local_ansn_number (snd_router S)) lo up F.1).
Proof.
  intros [V A ND] HT HP F lo up i. set (s := sens S) in *. set (ansn := local_ansn_number (snd_router S)).
  unfold olsr_output_lq_tc_internal. erewrite bind_run by apply next_ttl_run. fold i. set (S1 := set_ttl_index i S).
  erewrite bind_run by (unfold on_router; simpl; reflexivity). set (S2 := with_router _ _). assert (ES2 : S2 = S1) by (unfold S2, S1; by destruct S as [[] ? ?]).
  rewrite ES2. clear S2 ES2.
  assert (Ew : sn_w s = sn_w s0) by apply V.
  destruct (fragment_run ip_version router_id tc_redundancy validity_time s ltac:(by rewrite Ew) ltac:(by rewrite Ew)
    ltac:(intros l; rewrite Ew, (sv_exts _ _ V); apply Eo0) Hid Hsize ltac:(by rewrite Ew) msgbuf (ttl_at i) ansn nip P L Hmsg ltac:(by rewrite Ew) HP) as [rest R].
  rewrite (fits_same ip_version tc_redundancy s0 N0 Lo0 Eo0 s _ L V) in R. fold F lo up in R.
  assert (R1 : on_router (on_sens (tc_fragment ip_version router_id tc_redundancy validity_time msgbuf (ttl_at i) ansn nip (negb (bool_decide (P = []))))) S1 =
    Some (S1, ((tc_bytes ip_version router_id tc_redundancy validity_time s (ttl_at i) ansn lo up F.1, rest), 2%nat, (6 + ipsize)%nat, snd <$> head F.2,
      some_adv ip_version tc_redundancy s F.1, false))) by (by apply on_sens_same).
  erewrite bind_run by exact R1. cbv beta iota. rewrite andb_false_r. cbv beta iota.
  set (x1 := mkAnn (u16 (snd_seqno S + 1)) (net S) (get_timers s)).
  erewrite bind_run by (apply on_announcer_run; reflexivity). fold x1.
  destruct (fill_run s (ttl_at i) ansn lo up F.1 rest (snd_seqno S)) as (r1 & R2 & R3). erewrite bind_run by (apply se_opt_run; exact R2).
  erewrite bind_run by (apply se_opt_run; exact R3). cbn [fst].
  erewrite bind_run by (apply on_announcer_run; rewrite ann_of_put; by apply on_net_run). rewrite ann_put_get.
  assert (A1 : ann_ok x1) by (by destruct A). set (msg := tc_message s _ _ _ _ _ _).
  destruct (push_all rnd send msg (interface_head (net S)) x1 A1 ND ltac:(done)) as (x2 & R4 & A2 & K2 & NK2 & S2).
  erewrite bind_run by (apply on_announcer_run; rewrite ann_of_put; exact R4).
  assert (Em : msg = tc_message s0 (ttl_at i) (snd_seqno S) ansn lo up F.1).
  { unfold msg, tc_message. by rewrite (entries_same ip_version tc_redundancy s0 N0 Lo0 Eo0 s F.1 V). }
  eexists. split; [reflexivity|]. split_and!; try done.
  - split; [|by rewrite ann_of_put|].
    + eapply same_view_trans; [exact V|]. split; [done|done|]. simpl. rewrite (ak_now _ _ K2). done.
    + change (NoDup (interface_head (an_net x2))). by rewrite (nk_head _ _ NK2).
  - apply (ak_seqno _ _ K2).
  - intros q Hq. rewrite <- Em. change (stream q (an_net x2) = stream q (net S) ++ accepted (net S) q msg). rewrite S2, decide_True by done. done.
Qed.

(** *** All fragments *)

(** The messages for the parts [Cs] of the neighbours: every part begins where the
    last one ends, and both say the same border; [i] is the index of the scope, [sq]
    the next sequence number. *)
Definition upper (C : list (loc * ip_addr)) (Cs : list (list (loc * ip_addr))) : Z :=
  match Cs with C' :: _ => match head C' with Some e => flag_at ip_version (last C) e.2 | None => 255 end | [] => 255 end.
Fixpoint tc_messages (s : sensing) (ansn lo i sq : Z) (Cs : list (list (loc * ip_addr))) : list (list Z) :=
  match Cs with
  | [] => []
  | C :: Cs => tc_message s (ttl_at (next_index i)) sq ansn lo (upper C Cs) C :: tc_messages s ansn (upper C Cs) (next_index i) (u16 (sq + 1)) Cs
  end.

Abbreviation output := (output_lq_tc rnd [] send ip_version router_id tc_redundancy lq_fish validity_time).

Lemma message_bound ttl sq ansn lo up L : (forall e, e ∈ L -> (ipsize <= length e.2)%nat) ->
  (length (tc_message s0 ttl sq ansn lo up (fits ip_version tc_redundancy s0 (start ip_version) L).1) <= MSG_BUFFER)%nat.
Proof.
  intros HL. assert (B : (length (tc_bytes ip_version router_id tc_redundancy validity_time s0 ttl ansn lo up (fits ip_version tc_redundancy s0 (start ip_version) L).1) <= MSG_BUFFER)%nat)
    by (eapply tc_bytes_bound; eassumption).
  unfold tc_bytes in B. rewrite length_app, head_length in B by done. simpl length in B. unfold tc_message, msg_head. rewrite !length_app, !to_be_length, length_take. simpl length. lia.
Qed.

Lemma tc_output_run n : forall S P L nip, sending S -> length L = n -> nbr_tree (sn_w s0) = P ++ L ->
  (P <> [] -> exists e, head L = Some e /\ ipcmp ip_version e.2 nip = 0) ->
  let lo := match head L with Some e => flag_at ip_version (last P) e.2 | None => 255 end in
  exists Cs S', concat Cs = L /\ (L <> [] -> Forall (fun C => C <> []) Cs) /\ Cs <> [] /\ (length Cs <= Nat.max 1 (length L))%nat /\
    (forall fuel, (length Cs <= fuel)%nat -> output fuel msgbuf nip (negb (bool_decide (P = []))) S = Some (S', tt)) /\ sending S' /\ net_kept (net S) (net S') /\
    let ms := tc_messages s0 (local_ansn_number (snd_router S)) lo (ttl_index S) (snd_seqno S) Cs in
    Forall (fun b => (length b <= MSG_BUFFER)%nat) ms /\
    forall q, q ∈ interface_head (net S) -> stream q (net S') = stream q (net S) ++ concat (accepted (net S) q <$> ms).
Proof.
  induction n as [n IH] using lt_wf_ind. intros S P L nip Sg Hn HT HP lo. set (F := fits ip_version tc_redundancy s0 (start ip_version) L).
  assert (HF : F.1 ++ F.2 = L) by apply fits_app.
  assert (HL : forall e, e ∈ L -> (ipsize <= length e.2)%nat) by (intros e He; apply Haddr; rewrite HT; set_solver).
  assert (H1 : F.1 = [] -> L = []) by (by apply fits_some).
  destruct (internal_run S P L nip Sg HT HP) as (S1 & R1 & Sg1 & NK1 & Ea & Ei & Es & St1). fold F lo in R1, St1.
  destruct F.2 as [|e L2] eqn:E2; cbn [head fmap option_fmap option_map] in R1, St1.
  - exists [F.1], S1. rewrite app_nil_r in HF. split; [simpl; by rewrite app_nil_r|]. split; [intros HLn; apply Forall_singleton; tauto|].
    cbv zeta. split_and!; [done|simpl; lia| |done|done|apply Forall_singleton; by apply message_bound|].
    + intros [|fuel] Hf; [simpl in Hf; lia|]. cbn [output_lq_tc]. by erewrite bind_run by exact R1.
    + intros q Hq. simpl. rewrite app_nil_r. by apply St1.
  - assert (Hn1 : F.1 <> []) by (intros E; rewrite E, (H1 E) in HF; done).
    assert (Hb1 : bool_decide (P ++ F.1 = []) = false) by (apply bool_decide_eq_false; intros []%app_eq_nil; done).
    assert (El : last (P ++ F.1) = last F.1) by (rewrite last_app; destruct (last F.1) eqn:E; [done|by apply last_None in E]).
    destruct (IH (length (e :: L2))) with (S := S1) (P := P ++ F.1) (L := e :: L2) (nip := e.2) as (Cs & S2 & Hc & Hne & Hcs & Hlen & R2 & Sg2 & NK2 & B2 & St2); try done.
    + rewrite <- Hn, <- HF, length_app. destruct F.1; [done|]. simpl. lia.
    + by rewrite <- app_assoc, HF.
    + intros _. exists e. split; [done|]. rewrite <- comp_ipcmp. by apply (comp_refl (comp := comp)).
    + specialize (Hne ltac:(done)). destruct Cs as [|C Cs]; [done|].
      assert (Hh : head C = Some e) by (apply Forall_cons in Hne as [HC _]; destruct C; [done|]; by injection Hc as ->).
      assert (Hu : upper F.1 (C :: Cs) = flag_at ip_version (last F.1) e.2) by (simpl; by rewrite Hh).
      cbn [head] in B2, St2, R2. rewrite El, Ea, Ei, Es in B2, St2. rewrite Hb1 in R2. rewrite <- Hu in B2, St2, St1.
      exists (F.1 :: C :: Cs), S2. split; [simpl in *; by rewrite Hc|]. split; [intros _; apply Forall_cons; by split|].
      cbv zeta. split_and!; [done| | |done|by eapply net_kept_trans|apply Forall_cons; split; [by apply message_bound|exact B2]|].
      * rewrite <- HF, length_app. destruct F.1; [done|]. simpl in *. lia.
      * intros [|fuel] Hf; [simpl in Hf; lia|]. cbn [output_lq_tc]. erewrite bind_run by exact R1. apply R2. simpl in *. lia.
      * intros q Hq. rewrite St2 by (by rewrite (nk_head _ _ NK1)). rewrite St1, <- app_assoc by done. f_equal.
        cbn [tc_messages fmap list_fmap concat]. rewrite (nk_accepted _ _ NK1). do 3 f_equal.
        apply list_fmap_ext. intros j b _. apply (nk_accepted _ _ NK1).
Qed.
End send.

Section theorem.
Context `{LQ : LqHandler} {LL : LqLinks} `{KE : RouteExport} (rnd : nat -> Z) (send : nat -> Z).
Context (ip_version : Z) (router_id : ip_addr) (tc_redundancy lq_fish validity_time : Z).

(** C11: Sending the own TC messages ends, and every neighbour is accounted for. The
    loop of [olsr_output_lq_tc] takes at most one round for each neighbour, and
    one if there are none. It divides all neighbours, in the order of the tree, into
    consecutive parts that are not empty, and appends one message for each
    part, in this order, to what every interface has sent and queued so
    far, except where a message is larger than the buffer of the interface. A
    message has its size, the next sequence number and the next scope, and the
    neighbours of its part that are to be announced (symmetric, as the
    redundancy asks, with a usable link), each with the quality of a cheapest
    link; a part may have none. No message is written past the buffer. The first
    message is open below, the last one above, and two consecutive ones say the
    same border flag, the one between the last neighbour of a part, announced or not, and the
    first one of the next. The tables are as before. No packet
    transformation is registered. *)
Theorem tc_output_correct me S msgbuf fuel : let s := ro_sens (snd_router S) in
  nbrs_ok ip_version me s -> links_ok (sn_w s) -> exts_ok s -> ann_ok (ann_of S) -> NoDup (interface_head (get_net s)) ->
  (tc_ipsize ip_version <= length router_id)%nat -> Z.of_nat (start ip_version) <= last_start ip_version ->
  (forall e, e ∈ nbr_tree (sn_w s) -> (tc_ipsize ip_version <= length e.2)%nat) ->
  length msgbuf = MSG_BUFFER -> (length (nbr_tree (sn_w s)) < fuel)%nat ->
  exists Cs S', olsr_output_lq_tc rnd [] send ip_version router_id tc_redundancy lq_fish validity_time fuel msgbuf S = Some (S', tt) /\
    concat Cs = nbr_tree (sn_w s) /\ (nbr_tree (sn_w s) <> [] -> Forall (fun C => C <> []) Cs) /\ Cs <> [] /\
    (forall p k, (p, k) ∈ nbr_tree (sn_w s) -> exists n, nbrs (sn_w s) !! p = Some n /\ nbr_addr n = k /\
      announces tc_redundancy s p n (adv ip_version tc_redundancy s p)) /\
    same_view s (ro_sens (snd_router S')) /\ ann_ok (ann_of S') /\
    let ms := tc_messages ip_version router_id tc_redundancy lq_fish validity_time s (local_ansn_number (snd_router S)) 255 (ttl_index S) (snd_seqno S) Cs in
    Forall (fun b => (length b <= MSG_BUFFER)%nat) ms /\
    forall q, q ∈ interface_head (get_net s) ->
      stream q (get_net (ro_sens (snd_router S'))) = stream q (get_net s) ++ concat (accepted (get_net s) q <$> ms).
Proof.
  intros s N Lo Eo A ND Hid Hs Ha Hm Hf. pose proof (nbrs_ok_view ip_version me s N) as V.
  destruct (tc_output_run rnd send ip_version router_id tc_redundancy lq_fish validity_time Hid msgbuf Hm s V Lo Eo Hs Ha _ S [] (nbr_tree (sn_w s)) (replicate 16 0)
    ltac:(by split) eq_refl eq_refl ltac:(done)) as (Cs & S' & Hc & Hn & Hne & Hl & R & Sg & NK & B & St).
  exists Cs, S'. assert (El : forall T : list (loc * ip_addr), match head T with Some e => flag_at ip_version (last []) e.2 | None => 255 end = 255) by (by intros []).
  rewrite El in B, St. cbv zeta. split_and!; try done; [apply R; lia| |apply Sg|apply Sg].
  intros p k Hin. destruct (in_tree ip_version tc_redundancy s V Lo Eo p k Hin) as (n & Hp & En & Ra). exists n. split; [done|]. split; [done|].
  destruct (announced_run ip_version tc_redundancy s p n V Lo Eo Hp) as (o & R' & An). rewrite (R' s (same_view_refl s)) in Ra. injection Ra as ->. done.
Qed.
End theorem.

(** ** Example: one symmetric neighbour and one interface *)
Definition wdemo : sensing (LQ := lq_etxff_handler) (KE := demo_export AF_INET) := put_net (mkNet [1%positive] {[ 1%positive := demo_if ]} 2 [] []) odemo.
Definition wdemo_sender : tc_sender (LQ := lq_etxff_handler) (KE := demo_export AF_INET) := mkSender (mkRouter wdemo None 1 7 false) (-1) 44.

Lemma nbrs_ok_net `{LQ : LqHandler} {LL : LqLinks} `{KE : RouteExport} ip_version me N (s : sensing) : nbrs_ok ip_version me s -> nbrs_ok ip_version me (put_net N s).
Proof. intros [N1 N2 N3 N4 N4' N5 N6]. split; try done. by destruct N3. Qed.

Lemma wdemo_ok : nbrs_ok AF_INET 1 wdemo.
Proof. apply nbrs_ok_net, odemo_ok. Qed.
Lemma put_net_parts `{LQ : LqHandler} {LL : LqLinks} `{KE : RouteExport} N (s : sensing) :
  sn_w (put_net N s) = sn_w s /\ get_timers (put_net N s) = get_timers s /\ link_exts (put_net N s) = link_exts s.
Proof. done. Qed.
Lemma wdemo_exts : exts_ok wdemo.
Proof. intros p. unfold wdemo. destruct (put_net_parts (KE := demo_export AF_INET) (mkNet [1%positive] {[ 1%positive := demo_if ]} 2 [] []) odemo) as (-> & _ & ->). apply odemo_exts. Qed.
Lemma wdemo_tree : nbr_tree (sn_w wdemo) = [(1%positive, tdemo_ip 2)].
Proof. by vm_compute. Qed.
Lemma wdemo_timers : timers_ok (get_timers wdemo).
Proof.
  unfold wdemo. destruct (put_net_parts (KE := demo_export AF_INET) (mkNet [1%positive] {[ 1%positive := demo_if ]} 2 [] []) odemo) as (_ & -> & _).
  apply (cb_timers _ _ _ _ _ (nb_cons _ _ _ odemo_ok)).
Qed.
Lemma wdemo_ann : ann_ok (ann_of wdemo_sender).
Proof.
  split; [|exact wdemo_timers|apply (bool_decide_unpack _); by vm_compute]. split. intros p. change (interface_head _) with [1%positive]. intros ->%list_elem_of_singleton.
  exists demo_if, (replicate 200 0). split; [done|]. split; simpl; try done; unfold OLSR_HEADERSIZE; lia.
Qed.

Lemma tc_output_correct_witness : exists S',
  olsr_output_lq_tc (KE := demo_export AF_INET) (fun _ => 5) [] (fun _ => 1) AF_INET (tdemo_ip 1) 2 0 15000 2 (replicate 1496 0) wdemo_sender = Some (S', tt) /\
  ann_ok (ann_of S') /\ stream 1%positive (get_net (ro_sens (snd_router S'))) =
    [202; olsr_clock_encode_olsrv1 15000; 0; 24; 10; 0; 0; 1; 255; 0; 0; 44; 0; 7; 255; 255; 10; 0; 0; 2; 0; 255; 0; 0].
Proof.
  destruct (tc_output_correct (KE := demo_export AF_INET) (fun _ => 5) (fun _ => 1) AF_INET (tdemo_ip 1) 2 0 15000 1 wdemo_sender (replicate 1496 0) 2)
    as (Cs & S' & R & Hc & Hn & _ & _ & _ & A & _ & St).
  - exact wdemo_ok.
  - intros p. change (sn_w (ro_sens (snd_router wdemo_sender))) with (sn_w wdemo). assert (link_entry_head (sn_w wdemo) = [7%positive]) as -> by (by vm_compute). intros ->%list_elem_of_singleton. apply (bool_decide_unpack _). by vm_compute.
  - exact wdemo_exts.
  - exact wdemo_ann.
  - apply NoDup_singleton.
  - apply Nat.leb_le. by vm_compute.
  - by vm_compute.
  - intros e. change (sn_w (ro_sens (snd_router wdemo_sender))) with (sn_w wdemo). rewrite wdemo_tree. intros ->%list_elem_of_singleton. apply Nat.leb_le. by vm_compute.
  - apply length_replicate.
  - change (sn_w (ro_sens (snd_router wdemo_sender))) with (sn_w wdemo). rewrite wdemo_tree. simpl. lia.
  - exists S'. split; [exact R|]. split; [exact A|]. change (sn_w (ro_sens (snd_router wdemo_sender))) with (sn_w wdemo) in Hc, Hn.
    rewrite wdemo_tree in Hc, Hn. rewrite (concat_singleton _ _ Hc (Hn ltac:(discriminate))) in St. rewrite (St 1%positive) by (by left). by vm_compute.
Defined.
