(* ===== verification/Strings.v ===== *)
(** * C strings ([common/string.c], [common/avl_comp.c])

    A block of memory is the list of its bytes; a run that reads or writes outside of it is [None]. The
    string at the start of a block are the bytes before the first zero. *)
From Stdlib Require Import Ascii.
From stdpp Require Import strings.
From S2P Require Import Prelude AvlHeap AvlTree AvlRefine AvlSpec.
Local Open Scope Z_scope.

(** ** Blocks of memory *)
Definition write (pos : nat) (bs b : list Z) : option (list Z) :=
  if (pos + length bs <=? length b)%nat then Some (take pos b ++ bs ++ drop (pos + length bs) b) else None.

Fixpoint cstr (b : list Z) : list Z :=
  match b with
  | [] => []
  | c :: r => if c =? 0 then [] else c :: cstr r
  end.

(** [strlen]; a block without a zero is left *)
Fixpoint strlen (b : list Z) : option nat :=
  match b with
  | [] => None
  | c :: r => if c =? 0 then Some 0%nat else S <$> strlen r
  end.

(** The [n] bytes that [strncpy] writes: the string, filled up with zeros *)
Fixpoint strncpy (n : nat) (src : list Z) : option (list Z) :=
  match n with
  | O => Some []
  | S n => match src with
    | [] => None
    | c :: r => if c =? 0 then Some (replicate (S n) 0) else (c ::.) <$> strncpy n r
    end
  end.

(** ** [common/string.c] *)
(** [strscpy(dest, src, size)], [dest] pointing to position [pos] of its block *)
Definition strscpy (dest : list Z) (pos : nat) (src : list Z) (size : nat) : option (list Z) :=
  match size with
  | O => Some dest
  | S n => bs ← strncpy n src; b ← write pos bs dest; write (pos + n) [0] b
  end.

Definition strscat (dest src : list Z) (size : nat) : option (list Z) :=
  l ← strlen dest; if (l <? size)%nat then strscpy dest l src (size - l) else Some dest.

Definition isspace (c : Z) : bool := (9 <=? c) && (c <=? 13) || (c =? 32).

(** the position of the first byte that is no white space *)
Fixpoint skip_space (b : list Z) : option nat :=
  match b with
  | [] => None
  | c :: r => if isspace c then S <$> skip_space r else Some 0%nat
  end.

(** the last loop; [end] is [n] bytes behind [string] *)
Fixpoint trim_end (string n : nat) (b : list Z) : list Z :=
  match n with
  | O => b
  | S m => if isspace (b !!! (string + n)%nat) then trim_end string m (<[(string + n)%nat := 0]> b) else b
  end.

(** the block afterwards and the position of the string in it; for an empty string [end] is left of [string]
    and the last loop does nothing, as for [n = 0] *)
Definition str_trim (b : list Z) : option (list Z * nat) :=
  string ← skip_space b; l ← strlen (drop string b); Some (trim_end string (l - 1) b, string).

(** ** [strcasecmp] *)
Definition tolower (c : Z) : Z := if (65 <=? c) && (c <=? 90) then c + 32 else c.

Fixpoint casecmp (a b : list Z) : Z :=
  match a, b with
  | [], [] => 0
  | [], d :: _ => - tolower d
  | c :: _, [] => tolower c
  | c :: a, d :: b => if tolower c =? tolower d then casecmp a b else tolower c - tolower d
  end.

(** the bytes of a Rocq string *)
Definition bytes_of (s : string) : list Z := (fun c => Z.of_N (N_of_ascii c)) <$> String.list_ascii_of_string s.
Definition strcasecmp (s t : string) : Z := casecmp (cstr (bytes_of s)) (cstr (bytes_of t)).
Definition avl_comp_strcasecmp (txt1 txt2 : string) : Z := strcasecmp txt1 txt2.

(** ** Lemmas on blocks *)
Lemma write_run pos bs b : (pos + length bs <= length b)%nat -> write pos bs b = Some (take pos b ++ bs ++ drop (pos + length bs) b).
Proof. intros H. unfold write. by rewrite (proj2 (Nat.leb_le _ _) H). Qed.

Lemma write_length pos bs b b' : write pos bs b = Some b' -> length b' = length b.
Proof. unfold write. case_match eqn:E; [|done]. apply Nat.leb_le in E. intros [= <-]. rewrite !length_app, length_take, length_drop. lia. Qed.

Lemma strlen_cstr b n : strlen b = Some n -> length (cstr b) = n /\ exists r, b = cstr b ++ 0 :: r.
Proof.
  revert n. induction b as [|c b IH]; intros n; simpl; [done|]. destruct (Z.eqb_spec c 0) as [->|]; [intros [= <-]; eauto|].
  destruct (strlen b) as [m|]; [|done]. intros [= <-]. destruct (IH m eq_refl) as (L & r & E). simpl. split; [by rewrite L|]. exists r. by rewrite <- E.
Qed.

Lemma cstr_nonzero b : Forall (fun c => c <> 0) (cstr b).
Proof. induction b as [|c b IH]; simpl; [constructor|]. destruct (Z.eqb_spec c 0); by constructor. Qed.

Lemma cstr_app s r : Forall (fun c => c <> 0) s -> cstr (s ++ r) = s ++ cstr r.
Proof. induction 1 as [|c s Hc _ IH]; simpl; [done|]. destruct (Z.eqb_spec c 0); [done|]. by rewrite IH. Qed.

Lemma strlen_app s r : Forall (fun c => c <> 0) s -> strlen (s ++ 0 :: r) = Some (length s).
Proof. induction 1 as [|c s Hc _ IH]; simpl; [done|]. destruct (Z.eqb_spec c 0); [done|]. by rewrite IH. Qed.

Lemma strncpy_run n src l : strlen src = Some l -> strncpy n src = Some (take n (cstr src) ++ replicate (n - l) 0).
Proof.
  revert n l. induction src as [|c src IH]; intros [|n] l; simpl; try done.
  destruct (Z.eqb_spec c 0) as [->|]; [intros [= <-]; done|]. destruct (strlen src) as [m|] eqn:E; [|done]. intros [= <-].
  by rewrite (IH n m eq_refl).
Qed.

Lemma strncpy_length n src bs : strncpy n src = Some bs -> length bs = n.
Proof.
  revert src bs. induction n as [|n IH]; intros [|c src] bs; simpl; try (by intros [= <-]).
  destruct (c =? 0); [intros [= <-]; simpl; by rewrite length_replicate|]. destruct (strncpy n src) as [x|] eqn:E; [|done]. intros [= <-]. simpl. f_equal. eauto.
Qed.

Lemma cstr_filled s k r : Forall (fun c => c <> 0) s -> cstr (s ++ replicate k 0 ++ 0 :: r) = s.
Proof. intros H. rewrite cstr_app by done. destruct k; simpl; by rewrite app_nil_r. Qed.

Lemma two_writes pos bs c b : (pos + length bs < length b)%nat ->
  (x ← write pos bs b; write (pos + length bs) [c] x) = Some (take pos b ++ bs ++ c :: drop (pos + S (length bs)) b).
Proof.
  intros H. rewrite write_run by lia. simpl. rewrite write_run by (rewrite !length_app, length_take, length_drop; simpl; lia). f_equal.
  rewrite (app_assoc (take pos b) bs), take_app_length' by (rewrite length_app, length_take; lia). rewrite <- !app_assoc. do 2 f_equal. simpl. f_equal.
  rewrite (app_assoc (take pos b) bs), drop_app_ge by (rewrite length_app, length_take; lia). rewrite drop_drop. f_equal. rewrite length_app, length_take. lia.
Qed.

(** ** Copying and appending *)
Lemma strscpy_run dest pos src size : (0 < size)%nat -> (pos + size <= length dest)%nat -> is_Some (strlen src) ->
  exists bs, length bs = (size - 1)%nat /\ strscpy dest pos src size = Some (take pos dest ++ bs ++ 0 :: drop (pos + size) dest) /\
    cstr (bs ++ [0]) = take (size - 1) (cstr src).
Proof.
  intros Hs Hd [l Hl]. destruct size as [|n]; [lia|]. simpl. rewrite Nat.sub_0_r. pose proof (strncpy_run n src l Hl) as E.
  eexists. split; [|split].
  - by apply (strncpy_length n src).
  - rewrite E. simpl. pose proof (strncpy_length _ _ _ E) as L. pose proof (two_writes pos _ 0 dest ltac:(rewrite L; lia) : _ = _) as W.
    rewrite L in W. exact W.
  - rewrite <- app_assoc, cstr_filled; [done|]. apply Forall_take, cstr_nonzero.
Qed.

(** Appending a string never leaves the target: a string and a target of at least [size] bytes that holds a
    string give a target of the same length, unchanged behind its first [size] bytes. It holds both strings, cut
    to the [size - 1] bytes before the final zero; a target whose string is as long as [size] stays as it is. *)
Theorem strscat_correct dest src size n : strlen dest = Some n -> is_Some (strlen src) -> (size <= length dest)%nat ->
  exists b, strscat dest src size = Some b /\ length b = length dest /\ drop size b = drop size dest /\
    (if (n <? size)%nat then strlen b = Some (Nat.min (size - 1) (n + length (cstr src))) /\ cstr b = take (size - 1) (cstr dest ++ cstr src) else b = dest).
Proof.
  intros Hn Hs Hd. unfold strscat. rewrite Hn. simpl. destruct (Nat.ltb_spec n size) as [L|L]; [|by exists dest].
  destruct (strlen_cstr _ _ Hn) as (Ln & r & E). destruct (strscpy_run dest n src (size - n)) as (bs & Lb & -> & C); [lia|lia|done|].
  eexists. split; [done|]. assert (T : take n dest = cstr dest) by (rewrite E at 1; by rewrite take_app_length').
  assert (Cb : forall k, cstr (take n dest ++ bs ++ 0 :: k) = take (size - 1) (cstr dest ++ cstr src) /\ strlen (take n dest ++ bs ++ 0 :: k) = Some (length (cstr dest ++ take (size - n - 1) (cstr src)))).
  { intros k. rewrite T. assert (B : exists j, bs ++ 0 :: k = cstr (bs ++ [0]) ++ 0 :: j).
    { clear. induction bs as [|c bs (j & IH)]; simpl; [eauto|]. destruct (Z.eqb_spec c 0) as [->|]; [eauto|]. exists j. simpl. by rewrite IH. }
    destruct B as [j ->]. rewrite C, app_assoc. assert (F : Forall (fun c => c <> 0) (cstr dest ++ take (size - n - 1) (cstr src))).
    { apply Forall_app. split; [|apply Forall_take]; apply cstr_nonzero. }
    rewrite cstr_app, strlen_app by done. simpl. rewrite app_nil_r. split; [|done]. rewrite take_app_ge, Ln by lia. by replace (size - n - 1)%nat with (size - 1 - n)%nat by lia. }
  split; [|split].
  - rewrite !length_app, length_take. simpl. rewrite length_drop. lia.
  - rewrite app_assoc, drop_app_ge by (rewrite length_app, length_take; lia). rewrite length_app, length_take.
    replace (size - _)%nat with 1%nat by lia. simpl. by replace (n + (size - n))%nat with size by lia.
  - destruct (Cb (drop (n + (size - n)) dest)) as [-> ->]. split; [|done]. f_equal. rewrite length_app, length_take. lia.
Qed.

Lemma strscat_correct_witness : exists b, strscat [97; 98; 0; 1; 2; 3] [99; 100; 101; 0] 5 = Some b /\ cstr b = [97; 98; 99; 100] /\ length b = 6%nat.
Proof.
  destruct (strscat_correct [97; 98; 0; 1; 2; 3] [99; 100; 101; 0] 5 2) as (b & R & L & _ & _ & C); [done|by eexists|simpl; lia|].
  exists b. split; [exact R|]. split; [exact C|exact L].
Defined.

(** ** Trimming *)
Fixpoint ltrim (s : list Z) : list Z :=
  match s with
  | [] => []
  | c :: r => if isspace c then ltrim r else s
  end.
Definition rtrim (s : list Z) : list Z := reverse (ltrim (reverse s)).

Lemma ltrim_app s c : isspace c = false -> ltrim (s ++ [c]) = ltrim s ++ [c].
Proof. intros H. induction s as [|d s IH]; simpl; [by rewrite H|]. by destruct (isspace d). Qed.

Lemma rtrim_cons c s : isspace c = false -> rtrim (c :: s) = c :: rtrim s.
Proof. intros H. unfold rtrim. by rewrite reverse_cons, ltrim_app, reverse_app by done. Qed.

Lemma rtrim_snoc s x : rtrim (s ++ [x]) = if isspace x then rtrim s else s ++ [x].
Proof. unfold rtrim. rewrite reverse_snoc. simpl. destruct (isspace x); [done|]. by rewrite <- reverse_snoc, reverse_involutive. Qed.

Lemma skip_space_run b n : strlen b = Some n -> exists p r, skip_space b = Some p /\ drop p b = ltrim (cstr b) ++ 0 :: r /\ (p <= length b)%nat.
Proof.
  revert n. induction b as [|c b IH]; intros n; simpl; [done|]. destruct (Z.eqb_spec c 0) as [->|]; [intros _; exists 0%nat, b; split; [done|]; split; [done|simpl; lia]|].
  destruct (strlen b) as [m|] eqn:E; [|done]. intros _. destruct (IH m eq_refl) as (p & r & Sk & D & L). rewrite Sk.
  destruct (isspace c) eqn:Ec.
  - exists (S p), r. split; [done|]. split; [|simpl; lia]. simpl. by rewrite Ec.
  - destruct (strlen_cstr _ _ E) as (_ & q & Eq). exists 0%nat, q. split; [done|]. split; [|simpl; lia]. simpl. rewrite Ec. simpl. by rewrite <- Eq.
Qed.

Lemma trim_end_run t : forall pre c r b, b = pre ++ c :: t ++ 0 :: r -> c <> 0 -> Forall (fun c => c <> 0) t -> isspace c = false ->
  cstr (drop (length pre) (trim_end (length pre) (length t) b)) = c :: rtrim t /\ length (trim_end (length pre) (length t) b) = length b.
Proof.
  induction t as [|x t IH] using rev_ind; intros pre c r b -> Hc Ht Hs.
  - simpl. rewrite drop_app_length. simpl. by destruct (Z.eqb_spec c 0).
  - rewrite length_app. simpl. rewrite Nat.add_1_r. simpl. apply Forall_app in Ht as [Ht [Hx _]%Forall_cons].
    set (b := pre ++ c :: (t ++ [x]) ++ 0 :: r). assert (Eb : b = (pre ++ c :: t) ++ x :: 0 :: r) by (unfold b; by simplify_list_eq).
    assert (Lp : length (pre ++ c :: t) = (length pre + S (length t))%nat) by (by rewrite length_app).
    rewrite rtrim_snoc. replace (b !!! _) with x.
    2: { rewrite Eb, list_lookup_total_middle by (by rewrite Lp). done. }
    destruct (isspace x); [|].
    + destruct (IH pre c (0 :: r) (<[(length pre + S (length t))%nat := 0]> b)) as [I1 I2]; [|done..|].
      { rewrite Eb, <- Lp, <- (Nat.add_0_r (length (pre ++ _))), insert_app_r. simpl. by rewrite <- app_assoc. }
      rewrite I1, I2, length_insert. done.
    + split; [|done]. unfold b. rewrite drop_app_length. simpl. destruct (Z.eqb_spec c 0); [done|]. rewrite cstr_app by (apply Forall_app_2; [done|by repeat constructor]). simpl. by rewrite app_nil_r.
Qed.

(** Trimming a string stays inside its block and finds the string without the white space at its ends. *)
Lemma str_trim_run b n : strlen b = Some n -> exists b' p, str_trim b = Some (b', p) /\ length b' = length b /\ cstr (drop p b') = rtrim (ltrim (cstr b)).
Proof.
  intros Hn. destruct (skip_space_run b n Hn) as (p & r & Sk & D & L). unfold str_trim. rewrite Sk. simpl. rewrite D.
  assert (F : Forall (fun c => c <> 0) (ltrim (cstr b))).
  { pose proof (cstr_nonzero b) as F. clear -F. induction F as [|c s Hc F IH]; simpl; [constructor|]. case_match; [done|by constructor]. }
  rewrite strlen_app by done. simpl. assert (Eb : b = take p b ++ ltrim (cstr b) ++ 0 :: r) by (by rewrite <- D, take_drop).
  assert (Lp : length (take p b) = p) by (rewrite length_take; lia).
  destruct (ltrim (cstr b)) as [|c t] eqn:E.
  - exists b, p. split; [done|]. split; [done|]. by rewrite D.
  - assert (Hs : isspace c = false).
    { clear -E. induction (cstr b) as [|d s IH]; simpl in E; [done|]. destruct (isspace d) eqn:Ed; [eauto|]. by injection E as -> ->. }
    apply Forall_cons in F as [Fc Ft]. destruct (trim_end_run t (take p b) c r b Eb Fc Ft Hs) as [I1 I2]. rewrite Lp in *.
    eexists _, p. split; [done|]. simpl. rewrite Nat.sub_0_r. split; [done|]. by rewrite I1, rtrim_cons.
Qed.

(** ** The order of names *)
Definition letters (s : list Z) : Prop := Forall (fun c => 0 < c) s.

Lemma tolower_pos c : 0 < c -> 0 < tolower c.
Proof. unfold tolower. case_match; lia. Qed.

Lemma bytes_letters s : letters (cstr (bytes_of s)).
Proof.
  assert (F : Forall (fun c => 0 <= c) (bytes_of s)) by (unfold bytes_of; apply Forall_fmap, Forall_true; intros c; simpl; lia).
  induction F as [|c r Hc F IH]; simpl; [constructor|]. destruct (Z.eqb_spec c 0); [constructor|]. constructor; [lia|done].
Qed.

Lemma casecmp_refl a : casecmp a a = 0.
Proof. induction a as [|c a IH]; [done|]. simpl. by rewrite Z.eqb_refl. Qed.

Lemma casecmp_anti a : forall b, casecmp b a = - casecmp a b.
Proof.
  induction a as [|c a IH]; intros [|d b]; simpl; [done|lia|done|]. rewrite (Z.eqb_sym (tolower d)). destruct (Z.eqb_spec (tolower c) (tolower d)); [apply IH|lia].
Qed.

Lemma casecmp_trans a : forall b c, letters a -> letters b -> letters c -> casecmp a b <= 0 -> casecmp b c <= 0 -> casecmp a c <= 0.
Proof.
  induction a as [|x a IH]; intros [|y b] [|z c] Fa Fb Fc; simpl; intros H1 H2;
    repeat match goal with H : letters (_ :: _) |- _ => apply Forall_cons in H as [?%tolower_pos ?] end; try lia.
  destruct (Z.eqb_spec (tolower x) (tolower y)), (Z.eqb_spec (tolower y) (tolower z)), (Z.eqb_spec (tolower x) (tolower z)); try lia. by apply (IH b c).
Qed.

#[global] Instance avl_comp_strcasecmp_ok : AvlComp avl_comp_strcasecmp.
Proof.
  unfold avl_comp_strcasecmp, strcasecmp. split.
  - intros a. apply casecmp_refl.
  - intros a b. rewrite (casecmp_anti (cstr (bytes_of a))). lia.
  - intros a b c. apply casecmp_trans; apply bytes_letters.
Qed.
