(* ===== verification/Orders.v ===== *)
(** * The orders of the daemon's trees ([common/avl_comp.c], [common/avl_olsr_comp.c], [olsr_spf.c])

    [Comparators], [Strings] and [Spf] have the comparators and show which of
    them fulfil the contract of the AVL trees. This file says which order each
    of them is: the lexicographic order of a list of numbers, the key, that the
    comparator reads from its argument. *)
From stdpp Require Import strings.
From S2P Require Import Prelude AvlSpec Types Comparators Spf Strings.

(** ** Lexicographic order *)
Fixpoint lexcmp (a b : list Z) : comparison :=
  match a, b with
  | [], [] => Eq
  | [], _ => Lt
  | _, [] => Gt
  | x :: a, y :: b => match x ?= y with Eq => lexcmp a b | c => c end
  end.

Lemma lexcmp_eq a b : lexcmp a b = Eq <-> a = b.
Proof.
  revert b. induction a as [|x a IH]; intros [|y b]; simpl; [done..|]. destruct (Z.compare_spec x y); [|by split; [|intros [=]; lia]..].
  rewrite IH. split; [by intros ->; subst|by intros [=]].
Qed.

Lemma lexcmp_app a b s t : length a = length b -> lexcmp (a ++ s) (b ++ t) = match lexcmp a b with Eq => lexcmp s t | c => c end.
Proof.
  revert b. induction a as [|x a IH]; intros [|y b]; simpl; try done. intros [= Hl]. destruct (x ?= y); [by apply IH|done..].
Qed.

(** [comp] fulfils the contract of the trees, and among the keys of [dom] its
    sign is that of the lexicographic comparison of [key]. *)
Record orders_by {K} (dom : K -> Prop) (key : K -> list Z) (comp : K -> K -> Z) : Prop := {
  ob_comp :: AvlComp comp;
  ob_sign a b : dom a -> dom b -> (comp a b ?= 0) = lexcmp (key a) (key b)
}.

(** What a tree takes for the same key. *)
Lemma orders_by_eq {K} dom (key : K -> list Z) comp a b : orders_by dom key comp -> dom a -> dom b -> comp a b = 0 <-> key a = key b.
Proof. intros H Ha Hb. by rewrite <- Z.compare_eq_iff, (ob_sign _ _ _ H a b Ha Hb), lexcmp_eq. Qed.

Definition any {K} (_ : K) : Prop := True.

(** ** How the comparators are built *)
Lemma number_orders {K} (f : K -> Z) comp : AvlComp comp -> (forall a b, (comp a b ?= 0) = (f a ?= f b)) -> orders_by any (fun a => [f a]) comp.
Proof. intros HC H. split; [done|]. intros a b _ _. rewrite H. simpl. by destruct (f a ?= f b). Qed.

Lemma cmp3_sign {K} (f : K -> Z) a b : (cmp3 f a b ?= 0) = (f a ?= f b).
Proof. destruct (cmp3_spec f a b) as [[H ->]|[[H ->]|[H ->]]]; destruct (Z.compare_spec (f a) (f b)); done || lia. Qed.

Lemma sub_sign a b : (b - a ?= 0) = (- a ?= - b).
Proof. destruct (Z.compare_spec (b - a) 0), (Z.compare_spec (- a) (- b)); done || lia. Qed.

Lemma memcmp_orders n : orders_by (fun a => length a = n) id (memcmp n).
Proof.
  split; [apply _|]. unfold id. induction n as [|n IH]; intros [|x a] [|y b]; simpl; try done. intros [= Ha] [= Hb].
  destruct (Z.compare_spec x y); case_cmp; try done; try lia. by apply IH.
Qed.

(** The second comparator decides among the keys that the first one takes for the same. *)
Lemma lex_orders {K} dom (k1 k2 : K -> list Z) c1 c2 : orders_by dom k1 c1 -> orders_by dom k2 c2 ->
  (forall a b, dom a -> dom b -> length (k1 a) = length (k1 b)) -> orders_by dom (fun a => k1 a ++ k2 a) (cmp_lex c1 c2).
Proof.
  intros H1 H2 Hl. split; [apply lex_comp; apply ob_comp in H1, H2; done|]. intros a b Ha Hb. rewrite lexcmp_app by auto.
  rewrite <- (ob_sign _ _ _ H1), <- (ob_sign _ _ _ H2) by done. unfold cmp_lex.
  destruct (Z.eqb_spec (c1 a b) 0) as [->|Hn]; simpl; [done|]. destruct (Z.compare_spec (c1 a b) 0); done || lia.
Qed.

Lemma map_orders {K K'} dom (key : K' -> list Z) comp (f : K -> K') : orders_by dom key comp ->
  orders_by (fun a => dom (f a)) (fun a => key (f a)) (fun a b => comp (f a) (f b)).
Proof. intros H. split; [apply comp_map, (ob_comp _ _ _ H)|]. intros a b. apply (ob_sign _ _ _ H). Qed.

Lemma dom_orders {K} dom (dom' : K -> Prop) key comp : orders_by dom key comp -> (forall a, dom' a -> dom a) -> orders_by dom' key comp.
Proof. intros H Hd. split; [apply (ob_comp _ _ _ H)|]. intros. apply (ob_sign _ _ _ H); auto. Qed.

Lemma casecmp_sign a b : letters a -> letters b -> (casecmp a b ?= 0) = lexcmp (tolower <$> a) (tolower <$> b).
Proof.
  intros Ha. revert b. induction Ha as [|x a Hx%tolower_pos Ha IH]; intros b [|y b' Hy%tolower_pos Hb]; simpl; [done| |by apply Z.compare_gt_iff|].
  - by apply Z.compare_lt_iff, Z.opp_neg_pos.
  - destruct (Z.compare_spec (tolower x) (tolower y)), (Z.eqb_spec (tolower x) (tolower y)); try lia; [by apply IH|..].
    + apply Z.compare_lt_iff. lia.
    + apply Z.compare_gt_iff. lia.
Qed.

(** ** The keys of the daemon *)
Definition addr_key (v : Z) (a : ip_addr) : list Z := if v =? AF_INET then [s_addr a] else a.
Definition addr_ok (v : Z) (a : ip_addr) : Prop := v <> AF_INET -> length a = 16%nat.
Definition prefix_key (v : Z) (p : olsr_ip_prefix) : list Z := addr_key v (prefix p) ++ [- prefix_len p].
Definition prefix_ok (v : Z) (p : olsr_ip_prefix) : Prop := addr_ok v (prefix p).
Definition interface_key (v : Z) (i : olsr_interface_id) : list Z := prefix_key v (id_addr i) ++ [if_index i].
Definition interface_ok (v : Z) (i : olsr_interface_id) : Prop := prefix_ok v (id_addr i).
Definition name_key (s : string) : list Z := tolower <$> cstr (bytes_of s).

Lemma addr_key_length v a b : addr_ok v a -> addr_ok v b -> length (addr_key v a) = length (addr_key v b).
Proof. unfold addr_ok, addr_key. destruct (Z.eqb_spec v AF_INET); [done|]. intros -> ->; done. Qed.

Lemma default_orders v : orders_by (addr_ok v) (addr_key v) (avl_comp_default v).
Proof.
  unfold avl_comp_default, addr_ok, addr_key. destruct (Z.eqb_spec v AF_INET).
  - eapply dom_orders; [apply (number_orders s_addr); [apply ip4cmp_comp|intros; apply (cmp3_sign s_addr)]|done].
  - eapply dom_orders; [apply memcmp_orders|]. intros a H. by apply H.
Qed.

Lemma sub_orders {K} (f : K -> Z) dom : orders_by dom (fun a => [- f a]) (fun a b => f b - f a).
Proof. eapply dom_orders; [apply (number_orders (fun a => - f a)); [apply _|intros; apply sub_sign]|done]. Qed.

Lemma prefix_orders v : orders_by (prefix_ok v) (prefix_key v) (avl_comp_prefix_default v).
Proof.
  pose proof (lex_orders _ _ _ _ _ (map_orders _ _ _ prefix (default_orders v)) (sub_orders prefix_len _)
    (fun a b => addr_key_length v (prefix a) (prefix b))) as H.
  split; [apply _|]. intros a b Ha Hb. unfold prefix_key. rewrite <- (ob_sign _ _ _ H a b Ha Hb).
  unfold avl_comp_prefix_default, avl_comp_default. by destruct (v =? AF_INET).
Qed.

Lemma prefix_key_length v a b : prefix_ok v a -> prefix_ok v b -> length (prefix_key v a) = length (prefix_key v b).
Proof. intros Ha Hb. unfold prefix_key. by rewrite !length_app, (addr_key_length v (prefix a) (prefix b)). Qed.

Lemma interface_orders v : orders_by (interface_ok v) (interface_key v) (avl_comp_interface_id v).
Proof.
  apply (lex_orders _ _ _ _ _ (map_orders _ _ _ id_addr (prefix_orders v))
    (dom_orders _ _ _ _ (number_orders if_index _ _ (cmp3_sign if_index)) (fun _ _ => I))
    (fun a b => prefix_key_length v (id_addr a) (id_addr b))).
Qed.

(** C40: for every comparator of an AVL tree in the daemon, the order it is, or
    that it is none. Numbers ascend; memory areas, MAC addresses and
    IPv6 addresses ascend byte by byte, IPv4 addresses by their number in host
    byte order, names by their letters in lower case; prefixes ascend by address
    and then descend by length; interfaces ascend by prefix and then by index;
    IPv6 prefixes and addresses with an origin ascend by address and then descend
    by length, if they have one, and origin. Each of these fulfils the contract
    of the trees. The two comparators of IPv4 prefixes and addresses with an
    origin do not. *)
Theorem comparators_are_orders (v : Z) (n : nat) :
  orders_by any (fun u => [u]) avl_comp_uint32 /\ orders_by any (fun u => [u]) avl_comp_uint16 /\
  orders_by any (fun u => [u]) avl_comp_uint8 /\ orders_by any (fun u => [u]) avl_comp_int /\ orders_by any (fun u => [u]) avl_comp_etx /\
  orders_by (fun a => length a = n) id (avl_comp_mem n) /\ orders_by (fun a => length a = 6%nat) id avl_comp_mac /\
  orders_by any name_key avl_comp_strcasecmp /\ orders_by (addr_ok v) (addr_key v) (avl_comp_default v) /\
  orders_by (prefix_ok v) (prefix_key v) (avl_comp_prefix_default v) /\
  orders_by (interface_ok v) (interface_key v) (avl_comp_interface_id v) /\
  orders_by (prefix_ok AF_INET6) (fun p => prefix_key AF_INET6 p ++ [- prefix_origin p]) avl_comp_ipv6_prefix_origin /\
  orders_by (prefix_ok AF_INET6) (fun p => prefix p ++ [- prefix_origin p]) avl_comp_ipv6_addr_origin /\
  ~ AvlComp avl_comp_ipv4_prefix_origin /\ ~ AvlComp avl_comp_ipv4_addr_origin.
Proof.
  assert (Hu : forall a b, (avl_comp_uint32 a b ?= 0) = (a ?= b)).
  { intros a b. change (a ?= b) with (id a ?= id b). rewrite <- (cmp3_sign id). unfold avl_comp_uint32, cmp3, id. by rewrite !Z.gtb_ltb. }
  split_and!.
  - by apply (number_orders id); [apply _|].
  - by apply (number_orders id); [apply _|].
  - by apply (number_orders id); [apply _|].
  - apply (number_orders id); [apply _|exact (cmp3_sign id)].
  - apply (number_orders id); [apply _|]. intros a b. unfold avl_comp_etx, id. rewrite Z.gtb_ltb. destruct (Z.compare_spec a b); case_cmp; done || lia.
  - apply memcmp_orders.
  - apply memcmp_orders.
  - split; [apply _|]. intros a b _ _. apply casecmp_sign; apply bytes_letters.
  - apply default_orders.
  - apply prefix_orders.
  - apply interface_orders.
  - destruct (lex_orders _ _ _ _ _ (prefix_orders AF_INET6) (sub_orders prefix_origin _) (prefix_key_length _)) as [_ H].
    split; [apply _|]. intros a b Ha Hb. rewrite <- H by done. unfold cmp_lex, avl_comp_ipv6_prefix_origin, avl_comp_prefix_default. simpl.
    unfold avl_comp_ipv6_prefix. by destruct (Z.eqb_spec (ip6cmp (prefix a) (prefix b)) 0) as [->|]; simpl; case_cmp.
  - apply (lex_orders _ _ _ _ _ (map_orders _ _ _ prefix (default_orders AF_INET6)) (sub_orders prefix_origin _)
      (fun a b => addr_key_length AF_INET6 (prefix a) (prefix b))).
  - apply (cycle_not_comp _ (cyc 192) (cyc 96) (cyc 0)); apply ipv4_prefix_origin_cycle.
  - apply (cycle_not_comp _ (cyc 192) (cyc 96) (cyc 0)); apply ipv4_addr_origin_cycle.
Qed.
