(* ===== verification/Autobuf.v ===== *)
(** * Growing buffers ([common/autobuf.c])

    An autobuffer is a block of memory of [size] bytes of which the first [len] are used; it grows by [realloc] in steps of
    [AUTOBUFCHUNK] bytes. What the allocator gives is a parameter: the bytes of the new block, or [None] when memory is
    exhausted. Every function takes a buffer that exists, so the tests for a null [autobuf] are left out. Arithmetic on [int] that overflows has no
    defined result. The text that [vsnprintf] makes of its arguments is an argument here. *)
From S2P Require Import Prelude Strings.

Definition AUTOBUFCHUNK : Z := 4096.
Definition INT_MAX : Z := 2 ^ 31 - 1.

Definition ROUND_UP_TO_POWER_OF_2 (val pow2 : Z) : Z := Z.land (wrapu 64 (val + pow2 - 1)) (Z.lnot (pow2 - 1)).

Record autobuf := mkAb {
  ab_size : Z;
  ab_len : Z;
  ab_buf : option (list Z);
  (** the number of calls of the allocator so far *)
  ab_calls : nat
}.

Section autobuf_ops.
Context (alloc : nat -> Z -> option (list Z)).
Local Abbreviation M := (SE autobuf).

Definition set_block (size : Z) (b : list Z) (a : autobuf) : autobuf := mkAb size (ab_len a) (Some b) (ab_calls a).
Definition set_len (l : Z) (a : autobuf) : autobuf := mkAb (ab_size a) l (ab_buf a) (ab_calls a).
Definition count_call (a : autobuf) : autobuf := mkAb (ab_size a) (ab_len a) (ab_buf a) (S (ab_calls a)).

(** the result of an addition of [int]s *)
Definition int_of (x : Z) : M Z := if (- 2 ^ 31 <=? x) && (x <=? INT_MAX) then mret x else se_fail.

(** [memcpy(&buf[pos], bs, …)] *)
Definition buf_write (pos : Z) (bs : list Z) : M unit := fun a =>
  match ab_buf a with
  | Some b => (fun b' => (set_block (ab_size a) b' a, tt)) <$> write (Z.to_nat pos) bs b
  | None => None
  end.
(** the bytes of [buf] from [pos] to [pos + n] *)
Definition buf_read (pos n : Z) : M (list Z) := fun a =>
  match ab_buf a with
  | Some b => if (0 <=? pos) && (0 <=? n) && (pos + n <=? Z.of_nat (length b)) then Some (a, take (Z.to_nat n) (drop (Z.to_nat pos) b)) else None
  | None => None
  end.

(** [autobuf_realloc(buf, n)]: the old bytes as far as they fit, then what was in the new block *)
Definition realloc (n : Z) : M (option (list Z)) :=
  a ← se_get id;
  se_mod count_call;;
  let old := default [] (ab_buf a) in
  mret ((fun b => take (Z.to_nat n) old ++ drop (length old) b) <$> alloc (ab_calls a) n).

Definition int_autobuf_enlarge (new_size : Z) : M Z :=
  new_size ← int_of (new_size + 1);
  size ← se_get ab_size;
  if new_size >? size then
    let roundUpSize := s32 (ROUND_UP_TO_POWER_OF_2 new_size AUTOBUFCHUNK) in
    p ← realloc roundUpSize;
    match p with
    | None => mret (-1)
    | Some b =>
      se_mod (set_block size b);;
      se_assert (size <=? roundUpSize);;
      buf_write size (replicate (Z.to_nat (roundUpSize - size)) 0);;
      se_mod (fun a => mkAb roundUpSize (ab_len a) (ab_buf a) (ab_calls a));;
      mret 0
    end
  else mret 0.

Definition abuf_init (initial_size : Z) : M Z :=
  se_mod (set_len 0);;
  if initial_size <=? 0 then se_mod (fun a => mkAb 0 (ab_len a) None (ab_calls a));; mret 0
  else
    let size := s32 (ROUND_UP_TO_POWER_OF_2 initial_size AUTOBUFCHUNK) in
    a ← se_get id;
    se_mod count_call;;
    match alloc (ab_calls a) size with
    | None => se_mod (fun a => mkAb 0 (ab_len a) None (ab_calls a));; mret (-1)
    | Some b => se_mod (set_block size b);; buf_write 0 [0];; mret 0
    end.

Definition abuf_free : M unit := se_mod (fun a => mkAb 0 0 None (ab_calls a)).

(** [vsnprintf(buf + len, size - len, …)] for a text; without room nothing is written *)
Definition abuf_vsnprintf (txt : list Z) : M Z :=
  a ← se_get id;
  let n := ab_size a - ab_len a in
  (if n =? 0 then mret tt else buf_write (ab_len a) (take (Z.to_nat (n - 1)) txt ++ [0]));;
  mret (Z.of_nat (length txt)).

Definition abuf_vappendf (txt : list Z) : M Z :=
  rc ← abuf_vsnprintf txt;
  a ← se_get id;
  min_size ← int_of (ab_len a + rc);
  if min_size >=? ab_size a then
    r ← int_autobuf_enlarge min_size;
    if r <? 0 then buf_write (ab_len a) [0];; mret (-1)
    else abuf_vsnprintf txt;; se_mod (set_len min_size);; mret 0
  else se_mod (set_len min_size);; mret 0.

Definition abuf_appendf (txt : list Z) : M Z := abuf_vappendf txt.

(** [s] is a null pointer or a string *)
Definition abuf_puts (s : option (list Z)) : M Z :=
  match s with
  | None => mret 0
  | Some s =>
    let len := Z.of_nat (length s) in
    a ← se_get id;
    n ← int_of (ab_len a + len + 1);
    r ← int_autobuf_enlarge n;
    if r <? 0 then mret (-1)
    else buf_write (ab_len a) (s ++ [0]);; se_mod (set_len (ab_len a + len));; mret len
  end.

(** [strftime] at the end of the buffer, for the text that the time has: the text, if it fits with its zero, or 0 and unspecified bytes [garbage] *)
Definition buf_strftime (txt garbage : list Z) : M Z :=
  a ← se_get id;
  let n := Z.to_nat (ab_size a - ab_len a) in
  if (length txt <? n)%nat then buf_write (ab_len a) (txt ++ [0]);; mret (Z.of_nat (length txt))
  else (if (n =? 0)%nat then mret tt else buf_write (ab_len a) (take n garbage));; mret 0.

Definition abuf_strftime (txt garbage : list Z) : M Z :=
  rc ← buf_strftime txt garbage;
  a ← se_get id;
  if rc =? 0 then
    n ← int_of (ab_size a + AUTOBUFCHUNK);
    r ← int_autobuf_enlarge n;
    if r <? 0 then buf_write (ab_len a) [0];; mret (-1)
    else rc ← buf_strftime txt garbage; se_mod (set_len (ab_len a + rc));; mret rc
  else se_mod (set_len (ab_len a + rc));; mret rc.

(** [autobuf->len + len] is an [unsigned int] *)
Definition abuf_memcpy (p : list Z) : M Z :=
  let len := Z.of_nat (length p) in
  a ← se_get id;
  r ← int_autobuf_enlarge (s32 (u32 (ab_len a + len)));
  if r <? 0 then mret (-1)
  else buf_write (ab_len a) p;; se_mod (set_len (s32 (u32 (ab_len a + len))));; mret (s32 len).

Definition abuf_memcpy_prefix (p : list Z) : M Z :=
  let len := Z.of_nat (length p) in
  a ← se_get id;
  r ← int_autobuf_enlarge (s32 (u32 (ab_len a + len)));
  if r <? 0 then mret (-1)
  else
    bs ← buf_read 0 (ab_len a);
    buf_write len bs;;
    buf_write 0 p;;
    se_mod (set_len (s32 (u32 (ab_len a + len))));;
    mret (s32 len).

Definition abuf_pull (len : Z) : M unit :=
  a ← se_get id;
  (if negb (len =? ab_len a) then bs ← buf_read len (ab_len a - len); buf_write 0 bs else mret tt);;
  se_mod (set_len (ab_len a - len));;
  let newsize := s32 (ROUND_UP_TO_POWER_OF_2 (ab_len a - len + 1) AUTOBUFCHUNK) in
  limit ← int_of (newsize + 2 * AUTOBUFCHUNK);
  if limit >=? ab_size a then mret tt
  else
    p ← realloc newsize;
    match p with
    | None => mret tt
    | Some b => se_mod (fun a => mkAb newsize (ab_len a) (Some b) (ab_calls a))
    end.
End autobuf_ops.

(** ** The buffer as a queue of bytes *)
Definition MAX_BLOCK : Z := 2 ^ 31 - 12288.

Record ab_ok (a : autobuf) : Prop := {
  ok_len : 0 <= ab_len a;
  ok_max : ab_size a <= MAX_BLOCK;
  ok_buf : match ab_buf a with
    | None => ab_size a = 0 /\ ab_len a = 0
    | Some b => Z.of_nat (length b) = ab_size a /\ ab_len a < ab_size a
    end
}.

Definition content (a : autobuf) : list Z := take (Z.to_nat (ab_len a)) (default [] (ab_buf a)).

Section autobuf_props.
Context (alloc : nat -> Z -> option (list Z)).
Hypothesis alloc_size : forall k n b, alloc k n = Some b -> 0 <= n -> Z.of_nat (length b) = n.

Lemma content_length a : ab_ok a -> Z.of_nat (length (content a)) = ab_len a.
Proof. intros [H1 H2 H3]. unfold content. rewrite length_take. destruct (ab_buf a); simpl; lia. Qed.

Lemma round_up v : 0 <= v <= MAX_BLOCK + 4096 -> exists r, s32 (ROUND_UP_TO_POWER_OF_2 v AUTOBUFCHUNK) = r /\ v <= r < v + 4096 /\ (v <= MAX_BLOCK -> r <= MAX_BLOCK).
Proof.
  unfold MAX_BLOCK. intros H. eexists. split; [done|]. unfold ROUND_UP_TO_POWER_OF_2, AUTOBUFCHUNK. rewrite wrapu_id by (unfold is_u; lia).
  change (4096 - 1) with (Z.ones 12). rewrite <- Z.ldiff_land, Z.ldiff_ones_r, Z.shiftl_mul_pow2, Z.shiftr_div_pow2 by lia.
  rewrite wraps_id; mlia.
Qed.

(** what a write at the end of the used bytes leaves *)
Record put (bs : list Z) (a a' : autobuf) : Prop := {
  pt_len : ab_len a' = ab_len a;
  pt_size : ab_size a' = ab_size a;
  pt_buf : is_Some (ab_buf a');
  pt_ok : ab_ok a';
  pt_content : content a' = content a;
  pt_take k : Z.of_nat k <= Z.of_nat (length bs) -> ab_len a + Z.of_nat k < ab_size a ->
    ab_ok (set_len (ab_len a + Z.of_nat k) a') /\ content (set_len (ab_len a + Z.of_nat k) a') = content a ++ take k bs
}.

Lemma buf_put a bs : ab_ok a -> is_Some (ab_buf a) -> ab_len a + Z.of_nat (length bs) <= ab_size a ->
  exists a', buf_write (ab_len a) bs a = Some (a', tt) /\ put bs a a'.
Proof.
  intros [H1 H2 H3] [b E] H. rewrite E in H3. unfold buf_write. rewrite E, write_run by lia. simpl. eexists. split; [done|].
  set (b' := take _ b ++ bs ++ _). assert (L : length b' = length b) by (unfold b'; rewrite !length_app, length_take, length_drop; lia).
  split; try done; simpl.
  - split; simpl; lia.
  - unfold content, b'. rewrite E. simpl. rewrite take_app_le, take_take by (rewrite length_take; lia). f_equal. lia.
  - intros k Hk Hl. split; [split; simpl; lia|]. unfold content, b'. rewrite E. simpl. rewrite take_app_ge by (rewrite length_take; lia). f_equal.
    rewrite length_take, take_app_le by lia. f_equal. lia.
Qed.

Lemma int_of_run (x : Z) a : - 2 ^ 31 <= x <= INT_MAX -> int_of x a = Some (a, x).
Proof. intros H. unfold int_of. rewrite (proj2 (Z.leb_le _ _)), (proj2 (Z.leb_le _ _)) by lia. done. Qed.

Record enlarged (n : Z) (a a' : autobuf) : Prop := {
  en_ok : ab_ok a';
  en_len : ab_len a' = ab_len a;
  en_size : n < ab_size a';
  en_content : content a' = content a
}.

Lemma enlarge_run a n : ab_ok a -> ab_len a <= n < MAX_BLOCK ->
  exists a' r, int_autobuf_enlarge alloc n a = Some (a', r) /\ (r = -1 /\ a' = count_call a /\ ~ (forall k n, is_Some (alloc k n)) \/ r = 0 /\ enlarged n a a').
Proof.
  intros O Hn. pose proof O as [H1 H2 H3]. unfold int_autobuf_enlarge, mbind, se_bind, se_get. rewrite int_of_run by (unfold INT_MAX, MAX_BLOCK in *; lia).
  destruct (Z.gtb_spec (n + 1) (ab_size a)); [|eexists _, _; split; [done|right; split; [done|]; split; by try lia]].
  destruct (round_up (n + 1)) as (r & -> & Hr & Hm); [lia|]. unfold realloc, mbind, se_bind, se_get, se_mod, se_assert. simpl.
  destruct (alloc (ab_calls a) r) as [nb|] eqn:E; simpl.
  - rewrite (proj2 (Z.leb_le (ab_size a) r)) by lia. simpl. pose proof (alloc_size _ _ _ E ltac:(lia)) as Lb.
    set (old := default [] (ab_buf a)). assert (Lo : Z.of_nat (length old) = ab_size a) by (unfold old; destruct (ab_buf a); simpl; lia).
    unfold buf_write. simpl. rewrite write_run.
    2: { rewrite length_replicate, length_app, length_take, length_drop. lia. }
    simpl. eexists _, _. split; [done|]. right. split; [done|]. assert (T : take (Z.to_nat (ab_size a)) (take (Z.to_nat r) old ++ drop (length old) nb) = old).
    { rewrite (take_ge old) by lia. by rewrite take_app_length' by lia. }
    split; simpl; [split; simpl| |lia|].
    + done.
    + lia.
    + rewrite T, !length_app, length_replicate, length_drop, length_app, length_take, length_drop. lia.
    + done.
    + unfold content. simpl. rewrite T, take_app_le by (destruct (ab_buf a); simpl in *; lia). done.
  - eexists _, _. split; [done|]. left. split; [done|]. split; [done|]. intros F. destruct (F (ab_calls a) r) as [? F']. by rewrite E in F'.
Qed.

Lemma enlarged_buf n a a' : enlarged n a a' -> 0 <= n -> exists b, ab_buf a' = Some b /\ Z.of_nat (length b) = ab_size a'.
Proof. intros [[E1 E2 E3] _ E5 _] Hn. destruct (ab_buf a') as [b|]; [|lia]. exists b. split; [done|lia]. Qed.

Lemma vsnprintf_run a txt : ab_ok a -> exists a', abuf_vsnprintf txt a = Some (a', Z.of_nat (length txt)) /\
  (ab_size a = 0 /\ a' = a \/ put (take (Z.to_nat (ab_size a - ab_len a - 1)) txt ++ [0]) a a').
Proof.
  intros O. pose proof O as [H1 H2 H3]. unfold abuf_vsnprintf, mbind, se_bind, se_get. simpl. destruct (Z.eqb_spec (ab_size a - ab_len a) 0) as [E|E].
  - exists a. split; [done|]. left. split; [|done]. destruct (ab_buf a); lia.
  - destruct (ab_buf a) as [b|] eqn:Eb; [|lia]. destruct (buf_put a (take (Z.to_nat (ab_size a - ab_len a - 1)) txt ++ [0])) as (a' & -> & P); [done|by eexists| |by eauto].
    rewrite length_app, length_take. simpl. lia.
Qed.

(** The operations of the queue, and what they make of the bytes in it; a result below 0 means that the operation failed *)
Inductive ab_op := Append (txt : list Z) | Puts (s : option (list Z)) | Strftime (txt garbage : list Z) | Memcpy (p : list Z) | Prefix (p : list Z) | Pull (n : Z) | Free.

Definition run_op (o : ab_op) : SE autobuf Z :=
  match o with
  | Append t => abuf_appendf alloc t
  | Puts s => abuf_puts alloc s
  | Strftime t g => abuf_strftime alloc t g
  | Memcpy p => abuf_memcpy alloc p
  | Prefix p => abuf_memcpy_prefix alloc p
  | Pull n => abuf_pull alloc n;; mret 0
  | Free => abuf_free;; mret 0
  end.

Definition spec_op (c : list Z) (o : ab_op * Z) : list Z :=
  if o.2 <? 0 then c else
  match o.1 with
  | Append t | Memcpy t => c ++ t
  | Strftime t _ => if o.2 =? 0 then c else c ++ t
  | Puts s => c ++ default [] s
  | Prefix p => p ++ c
  | Pull n => drop (Z.to_nat n) c
  | Free => []
  end.

(** The buffer stays below 2 GB, no more is pulled than there is, and formatted text is not appended to a buffer without memory while memory is exhausted *)
Definition op_legal (a : autobuf) (o : ab_op) : Prop :=
  match o with
  | Append t => ab_len a + Z.of_nat (length t) < MAX_BLOCK
  | Puts s => ab_len a + Z.of_nat (length (default [] s)) + 1 < MAX_BLOCK
  | Strftime _ _ => ab_size a + AUTOBUFCHUNK < MAX_BLOCK
  | Memcpy p | Prefix p => ab_len a + Z.of_nat (length p) < MAX_BLOCK
  | Pull n => 0 <= n <= ab_len a
  | Free => True
  end /\
  match o with
  | Append _ | Strftime _ _ => is_Some (ab_buf a) \/ forall k n, is_Some (alloc k n)
  | _ => True
  end.

(** The result of a step: the queue follows its specification, and only exhausted memory makes an operation fail *)
Record op_done (a : autobuf) (o : ab_op) (a' : autobuf) (r : Z) : Prop := {
  od_ok : ab_ok a';
  od_content : content a' = spec_op (content a) (o, r);
  od_fail : (forall k n, is_Some (alloc k n)) -> 0 <= r
}.

Lemma append_done a t : ab_ok a -> op_legal a (Append t) -> exists a' r, run_op (Append t) a = Some (a', r) /\ op_done a (Append t) a' r.
Proof.
  intros O [L N]. simpl in L, N. pose proof O as [H1 H2 H3]. unfold run_op, abuf_appendf, abuf_vappendf.
  destruct (vsnprintf_run a t O) as (a1 & R1 & P1). rewrite (bind_run _ _ _ _ _ R1). unfold mbind, se_bind, se_get. simpl.
  assert (O1 : ab_ok a1 /\ ab_len a1 = ab_len a /\ ab_size a1 = ab_size a /\ content a1 = content a /\ (is_Some (ab_buf a) -> is_Some (ab_buf a1))).
  { destruct P1 as [[_ ->]|[]]; done. }
  destruct O1 as (O1 & El & Es & Ec & Eb). rewrite El, Es, int_of_run by (unfold INT_MAX, MAX_BLOCK in *; lia).
  destruct (Z.geb_spec (ab_len a + Z.of_nat (length t)) (ab_size a)) as [G|G].
  - destruct (enlarge_run a1 (ab_len a + Z.of_nat (length t)) O1) as (a2 & r & -> & [(-> & -> & NF)|(-> & E)]); [lia|..]; simpl.
    + destruct N as [N|N]; [|done]. destruct (buf_put a1 [0] O1) as (a2 & W & P); [by apply Eb| |].
      { simpl. destruct O1 as [_ _ O1]. destruct (Eb N) as [b Hb]. rewrite Hb in O1. lia. }
      rewrite El in W. unfold buf_write in W |- *. simpl in *. destruct (ab_buf a1) as [b|] eqn:Hb; [|done]. destruct (write _ _ b) as [b2|]; [|done]. simpl in *. injection W as <-.
      eexists _, _. split; [done|]. destruct (pt_ok _ _ _ P) as [Q1 Q2 Q3]. split; [by split|unfold spec_op; simpl; rewrite <- Ec, <- (pt_content _ _ _ P); done|done].
    + pose proof (en_ok _ _ _ E) as O2. destruct (enlarged_buf _ _ _ E) as (b & Hb & Lb); [lia|].
      destruct (vsnprintf_run a2 t O2) as (a3 & -> & [[Z3 _]|P3]); [pose proof (en_size _ _ _ E); lia|]. unfold se_mod. eexists _, _. split; [done|].
      pose proof (en_size _ _ _ E) as Hs. pose proof (en_len _ _ _ E) as Hl. rewrite El in Hl. destruct (pt_take _ _ _ P3 (length t)) as [Q1 Q2].
      { rewrite length_app, length_take. simpl. lia. }
      { lia. }
      rewrite Hl in Q1, Q2. split; [done| |done]. rewrite Q2. unfold spec_op. simpl. rewrite (en_content _ _ _ E), Ec. f_equal. rewrite take_app_le by (rewrite length_take; lia). rewrite take_take, take_ge by lia. done.
  - destruct P1 as [[Z1 _]|P1]; [lia|]. unfold se_mod. eexists _, _. split; [done|]. destruct (pt_take _ _ _ P1 (length t)) as [Q1 Q2].
    { rewrite length_app, length_take. simpl. lia. }
    { lia. }
    split; [done| |done]. rewrite Q2. unfold spec_op. simpl. f_equal. rewrite take_app_le by (rewrite length_take; lia). rewrite take_take, take_ge by lia. done.
Qed.

(** a failed enlargement leaves the queue as it is *)
Lemma failed_done a o : ab_ok a -> ~ (forall k n, is_Some (alloc k n)) -> op_done a o (count_call a) (-1).
Proof. intros [H1 H2 H3] N. split; [by split|done|]. intros F. destruct (N F). Qed.

(** a write behind the queue that makes its first [k] bytes part of it *)
Lemma grown_put a a1 n bs k : enlarged n a a1 -> 0 <= ab_len a -> ab_len a + Z.of_nat (length bs) <= n + 1 -> Z.of_nat k <= Z.of_nat (length bs) -> ab_len a + Z.of_nat k <= n ->
  exists a2, buf_write (ab_len a) bs a1 = Some (a2, tt) /\ ab_ok (set_len (ab_len a + Z.of_nat k) a2) /\ content (set_len (ab_len a + Z.of_nat k) a2) = content a ++ take k bs.
Proof.
  intros E Hl H1 H2 H3. destruct (enlarged_buf _ _ _ E) as (b & Hb & _); [lia|]. pose proof (en_size _ _ _ E). rewrite <- (en_len _ _ _ E) in *.
  destruct (buf_put a1 bs (en_ok _ _ _ E)) as (a2 & W & P); [by eexists|lia|]. exists a2. split; [done|]. rewrite <- (en_content _ _ _ E). by apply (pt_take _ _ _ P); lia.
Qed.

Lemma len_wrap x : 0 <= x < MAX_BLOCK -> s32 (u32 x) = x.
Proof. unfold MAX_BLOCK. intros H. rewrite wrapu_id by (unfold is_u; lia). rewrite wraps_id; lia. Qed.

Lemma puts_done a s : ab_ok a -> op_legal a (Puts s) -> exists a' r, run_op (Puts s) a = Some (a', r) /\ op_done a (Puts s) a' r.
Proof.
  intros O [L _]. pose proof (ok_len _ O). destruct s as [s|]; simpl in *.
  2: { eexists _, _. split; [done|]. split; [done| |done]. unfold spec_op. simpl. by rewrite app_nil_r. }
  unfold mbind, se_bind, se_get. simpl. rewrite int_of_run by (unfold INT_MAX, MAX_BLOCK in *; lia).
  destruct (enlarge_run a (ab_len a + Z.of_nat (length s) + 1) O) as (a1 & r & -> & [(-> & -> & NF)|(-> & E)]); [lia|..]; simpl.
  - eexists _, _. split; [done|]. by apply failed_done.
  - destruct (grown_put _ _ _ (s ++ [0]) (length s) E) as (a2 & -> & Q1 & Q2); rewrite ?length_app; simpl; try lia.
    unfold se_mod. eexists _, _. split; [done|]. split; [done| |lia]. rewrite Q2. unfold spec_op. simpl. rewrite (proj2 (Z.ltb_ge _ _)) by lia. by rewrite take_app_length.
Qed.

Lemma memcpy_done a p : ab_ok a -> op_legal a (Memcpy p) -> exists a' r, run_op (Memcpy p) a = Some (a', r) /\ op_done a (Memcpy p) a' r.
Proof.
  intros O [L _]. simpl in L. pose proof (ok_len _ O). unfold run_op, abuf_memcpy, mbind, se_bind, se_get. simpl. rewrite len_wrap by lia.
  destruct (enlarge_run a (ab_len a + Z.of_nat (length p)) O) as (a1 & r & -> & [(-> & -> & NF)|(-> & E)]); [lia|..]; simpl.
  - eexists _, _. split; [done|]. by apply failed_done.
  - destruct (grown_put _ _ _ p (length p) E) as (a2 & -> & Q1 & Q2); try lia.
    unfold se_mod. eexists _, _. split; [done|]. rewrite wraps_id by (unfold MAX_BLOCK in *; lia). split; [done| |lia].
    rewrite Q2. unfold spec_op. simpl. rewrite (proj2 (Z.ltb_ge _ _)) by lia. by rewrite take_ge.
Qed.

Lemma buf_read_run a b pos n : ab_buf a = Some b -> 0 <= pos -> 0 <= n -> pos + n <= Z.of_nat (length b) ->
  buf_read pos n a = Some (a, take (Z.to_nat n) (drop (Z.to_nat pos) b)).
Proof.
  intros E H1 H2 H3. unfold buf_read. rewrite E, !(proj2 (Z.leb_le _ _)) by lia. done.
Qed.

Lemma abuf_write_run a b pos bs : ab_buf a = Some b -> 0 <= pos -> pos + Z.of_nat (length bs) <= Z.of_nat (length b) ->
  buf_write pos bs a = Some (set_block (ab_size a) (take (Z.to_nat pos) b ++ bs ++ drop (Z.to_nat pos + length bs) b) a, tt).
Proof. intros E H1 H2. unfold buf_write. rewrite E, write_run by lia. done. Qed.

Lemma prefix_done a p : ab_ok a -> op_legal a (Prefix p) -> exists a' r, run_op (Prefix p) a = Some (a', r) /\ op_done a (Prefix p) a' r.
Proof.
  intros O [L _]. simpl in L. pose proof (ok_len _ O). unfold run_op, abuf_memcpy_prefix, mbind, se_bind, se_get. simpl. rewrite len_wrap by lia.
  destruct (enlarge_run a (ab_len a + Z.of_nat (length p)) O) as (a1 & r & -> & [(-> & -> & NF)|(-> & E)]); [lia|..]; simpl.
  - eexists _, _. split; [done|]. by apply failed_done.
  - destruct (enlarged_buf _ _ _ E) as (b & Hb & Lb); [lia|]. pose proof (en_size _ _ _ E). pose proof (en_ok _ _ _ E) as [O1 O2 O3].
    assert (Lc : take (Z.to_nat (ab_len a)) b = content a) by (rewrite <- (en_content _ _ _ E); unfold content; by rewrite Hb, (en_len _ _ _ E)).
    pose proof (content_length a O) as Lc'.
    rewrite (buf_read_run _ b) by (done || lia). rewrite drop_0, Lc, (abuf_write_run _ b) by (done || lia).
    erewrite abuf_write_run; [|done|lia|rewrite !length_app, length_take, length_drop; lia]. unfold se_mod. eexists _, _. split; [done|]. rewrite wraps_id by (unfold MAX_BLOCK in *; lia). simpl.
    split; [split; simpl| |lia].
    + lia.
    + done.
    + rewrite !length_app, length_drop, !length_app, length_take, length_drop. lia.
    + unfold content at 1, spec_op. simpl. rewrite (proj2 (Z.ltb_ge _ _)) by lia. rewrite drop_app_length' by (rewrite length_take; lia).
      rewrite app_assoc, take_app_length'; [done|]. rewrite length_app. lia.
Qed.

Lemma pull_done a n : ab_ok a -> op_legal a (Pull n) -> exists a' r, run_op (Pull n) a = Some (a', r) /\ op_done a (Pull n) a' r.
Proof.
  intros O [L _]. simpl in L. pose proof O as [H1 H2 H3]. unfold run_op, abuf_pull.
  assert (exists a1, (if negb (n =? ab_len a) then bs ← buf_read n (ab_len a - n); buf_write 0 bs else mret tt) a = Some (a1, tt) /\
    ab_size a1 = ab_size a /\ ab_len a1 = ab_len a /\ ab_ok (set_len (ab_len a - n) a1) /\ content (set_len (ab_len a - n) a1) = drop (Z.to_nat n) (content a)) as (a1 & R & Es & El & O1 & C1).
  { destruct (Z.eqb_spec n (ab_len a)) as [->|Hn]; simpl.
    - exists a. split; [done|]. split; [done|]. split; [done|]. rewrite Z.sub_diag. split.
      + split; simpl; [lia|done|]. destruct (ab_buf a); lia.
      + unfold content. simpl. rewrite drop_ge; [done|]. rewrite length_take. lia.
    - destruct (ab_buf a) as [b|] eqn:Eb; [|lia]. rewrite (bind_run _ _ a a (take (Z.to_nat (ab_len a - n)) (drop (Z.to_nat n) b))) by (apply buf_read_run; done || lia).
      rewrite (abuf_write_run a b); [|done|lia|rewrite length_take, length_drop; lia]. eexists. split; [done|]. split; [done|]. split; [done|]. split.
      + split; simpl; [lia|done|]. rewrite length_app, length_drop, length_take, length_drop. lia.
      + unfold content. rewrite Eb. simpl. rewrite take_app_length' by (rewrite length_take, length_drop; lia). rewrite skipn_firstn_comm. f_equal. lia. }
  destruct (round_up (ab_len a - n + 1)) as (z & Ez & Hz & Hm); [unfold MAX_BLOCK in *; destruct (ab_buf a); lia|].
  unfold mbind, se_bind in R |- *. unfold se_get, se_mod, id. cbv beta iota. rewrite R, Ez, int_of_run by (unfold INT_MAX, MAX_BLOCK, AUTOBUFCHUNK in *; destruct (ab_buf a); lia).
  assert (Kept : forall c, op_done a (Pull n) (mkAb (ab_size (set_len (ab_len a - n) a1)) (ab_len a - n) (ab_buf a1) c) 0).
  { intros c. destruct O1 as [Q1 Q2 Q3]. split; [by split|exact C1|done]. }
  destruct (Z.geb_spec (z + 2 * AUTOBUFCHUNK) (ab_size a)) as [G|G]; [eexists _, _; split; [done|]; apply Kept|].
  unfold realloc, mbind, se_bind, se_get, se_mod. simpl. destruct (alloc (ab_calls a1) z) as [nb|] eqn:E; simpl; eexists _, _; (split; [done|]); [|apply Kept].
  pose proof (alloc_size _ _ _ E ltac:(lia)) as Ln. destruct O1 as [Q1 Q2 Q3]. simpl in *. destruct (ab_buf a1) as [b|] eqn:Eb; simpl in *; [|unfold AUTOBUFCHUNK in *; lia].
  assert (Lb : (Z.to_nat z <= length b)%nat) by (unfold AUTOBUFCHUNK in *; lia).
  split; [split; simpl| |done].
  - done.
  - lia.
  - rewrite length_app, length_take, length_drop. lia.
  - transitivity (drop (Z.to_nat n) (content a)); [|done]. rewrite <- C1. unfold content. simpl. rewrite Eb. simpl. rewrite take_app_le by (rewrite length_take; lia). rewrite take_take. f_equal. lia.
Qed.

Lemma free_done a : exists a' r, run_op Free a = Some (a', r) /\ op_done a Free a' r.
Proof. eexists _, _. split; [done|]. split; [|done|done]. split; simpl; unfold MAX_BLOCK; lia. Qed.

Lemma strftime_run a t g : ab_ok a -> (is_Some (ab_buf a) \/ ab_size a = 0) -> exists a' rc, buf_strftime t g a = Some (a', rc) /\
  ab_ok a' /\ ab_len a' = ab_len a /\ ab_size a' = ab_size a /\ content a' = content a /\ (is_Some (ab_buf a) -> is_Some (ab_buf a')) /\
  0 <= rc /\ ab_ok (set_len (ab_len a + rc) a') /\ content (set_len (ab_len a + rc) a') = if rc =? 0 then content a else content a ++ t.
Proof.
  intros O B. pose proof O as [H1 H2 H3]. unfold buf_strftime, mbind, se_bind, se_get. simpl.
  destruct (Nat.ltb_spec (length t) (Z.to_nat (ab_size a - ab_len a))) as [L|L].
  - destruct (ab_buf a) as [b|] eqn:Eb; [|lia]. destruct (buf_put a (t ++ [0]) O) as (a1 & -> & P); [by eexists|rewrite length_app; simpl; lia|].
    pose proof P as [P1 P2 P3 P4 P5 P6]. eexists _, _. split; [done|]. destruct (P6 (length t)) as [Q1 Q2]; [rewrite length_app; simpl; lia|lia|].
    repeat (split; [done || lia|]). rewrite Q2, take_app_length. destruct (Z.eqb_spec (Z.of_nat (length t)) 0); [|done]. destruct t; [by rewrite app_nil_r|simpl in *; lia].
  - assert (Id : ab_ok (set_len (ab_len a + 0) a) /\ content (set_len (ab_len a + 0) a) = content a).
    { unfold content. rewrite Z.add_0_r. split; [by split|done]. }
    destruct (Nat.eqb_spec (Z.to_nat (ab_size a - ab_len a)) 0); [eexists _, _; split; [done|]; split_and!; try (done || lia); by destruct Id|].
    destruct (ab_buf a) as [b|] eqn:Eb; [|destruct B as [[? ?]|]; [done|lia]]. destruct (buf_put a (take (Z.to_nat (ab_size a - ab_len a)) g) O) as (a1 & -> & P); [by eexists|rewrite length_take; lia|].
    pose proof P as [P1 P2 P3 P4 P5 P6]. destruct (P6 0%nat) as [Q1 Q2]; [lia|lia|]. simpl in Q2. rewrite app_nil_r in Q2.
    eexists _, _. split; [done|]. split_and!; done || lia.
Qed.

Lemma strftime_done a t g : ab_ok a -> op_legal a (Strftime t g) -> exists a' r, run_op (Strftime t g) a = Some (a', r) /\ op_done a (Strftime t g) a' r.
Proof.
  intros O [L N]. simpl in L, N. pose proof O as [H1 H2 H3]. unfold run_op, abuf_strftime.
  destruct (strftime_run a t g O) as (a1 & rc & R1 & O1 & El & Es & Ec & Eb & Rc & OL & CL); [destruct (ab_buf a); [left; by eexists|right; lia]|].
  rewrite (bind_run _ _ _ _ _ R1). unfold mbind, se_bind, se_get. simpl. destruct (Z.eqb_spec rc 0) as [->|Hrc].
  - rewrite Es, int_of_run by (unfold INT_MAX, MAX_BLOCK, AUTOBUFCHUNK in *; destruct (ab_buf a); lia).
    destruct (enlarge_run a1 (ab_size a + AUTOBUFCHUNK) O1) as (a2 & r & -> & [(-> & -> & NF)|(-> & E)]); [unfold AUTOBUFCHUNK in *; destruct (ab_buf a); lia|..]; simpl.
    + destruct N as [N|N]; [|done]. assert (O1' : ab_ok (count_call a1)) by (destruct O1; by split).
      destruct (buf_put (count_call a1) [0] O1') as (a2 & W & P); [by apply Eb| |].
      { simpl. destruct O1 as [_ _ O1]. destruct (Eb N) as [b Hb]. rewrite Hb in O1. lia. }
      simpl in W. rewrite W. eexists _, _. split; [done|]. split; [exact (pt_ok _ _ _ P)| |done]. unfold spec_op. simpl. rewrite (pt_content _ _ _ P). exact Ec.
    + pose proof (en_ok _ _ _ E) as O2. destruct (enlarged_buf _ _ _ E) as (b & Hb & Lb); [unfold AUTOBUFCHUNK in *; destruct (ab_buf a); lia|].
      destruct (strftime_run a2 t g O2) as (a3 & rc & -> & _ & _ & _ & _ & _ & Rc' & OL' & CL'); [left; by eexists|].
      unfold se_mod. eexists _, _. split; [done|]. rewrite (en_len _ _ _ E), (en_content _ _ _ E) in *. split; [done| |done]. rewrite CL'. unfold spec_op. simpl.
      rewrite (proj2 (Z.ltb_ge _ _)) by lia. by rewrite Ec.
  - unfold se_mod. rewrite El. eexists _, _. split; [done|]. split; [done| |done]. rewrite CL. unfold spec_op. simpl. rewrite (proj2 (Z.ltb_ge rc 0)) by lia. by rewrite (proj2 (Z.eqb_neq rc 0)).
Qed.

Lemma op_run a o : ab_ok a -> op_legal a o -> exists a' r, run_op o a = Some (a', r) /\ op_done a o a' r.
Proof.
  intros O L. destruct o; [by apply append_done|by apply puts_done|by apply strftime_done|by apply memcpy_done|by apply prefix_done|by apply pull_done|apply free_done].
Qed.

(** A history of a buffer: [abuf_init], then operations with their results *)
Inductive history : list (ab_op * Z) -> autobuf -> Prop :=
| history_init a0 n a r : n <= MAX_BLOCK -> abuf_init alloc n a0 = Some (a, r) -> history [] a
| history_step L a o a' r : history L a -> op_legal a o -> run_op o a = Some (a', r) -> history (L ++ [(o, r)]) a'.

Lemma abuf_init_run a0 n : n <= MAX_BLOCK -> exists a r, abuf_init alloc n a0 = Some (a, r) /\ ab_ok a /\ content a = [].
Proof.
  intros Hn. unfold abuf_init, mbind, se_bind, se_mod, se_get. simpl. destruct (Z.leb_spec n 0).
  - eexists _, _. split; [done|]. split; [split; simpl; unfold MAX_BLOCK; lia|done].
  - destruct (round_up n) as (z & -> & Hz & Hm); [lia|]. destruct (alloc (ab_calls a0) z) as [b|] eqn:E.
    + pose proof (alloc_size _ _ _ E ltac:(lia)). destruct b as [|c b]; [simpl in *; lia|]. simpl in *. rewrite E. eexists _, _. split; [reflexivity|]. split; [|done]. split; simpl; [lia|lia|]. rewrite drop_0. lia.
    + simpl. rewrite E. eexists _, _. split; [done|]. split; [split; simpl; unfold MAX_BLOCK; lia|done].
Qed.

(** C23: A growing buffer is a queue of bytes. Whatever was appended, put in front, pulled or freed before, the used bytes of the buffer
    are what these operations leave of a list of bytes, an operation that reported a failure having left it as it was. No operation
    that is legal then reads or writes outside the memory of the buffer, overflows an [int] or fails, unless memory is exhausted. *)
Theorem autobuf_refines L a : history L a ->
  ab_ok a /\ content a = foldl spec_op [] L /\
  forall o, op_legal a o -> exists a' r, run_op o a = Some (a', r) /\ content a' = spec_op (content a) (o, r) /\ ((forall k n, is_Some (alloc k n)) -> 0 <= r).
Proof.
  intros H. assert (ab_ok a /\ content a = foldl spec_op [] L) as [O C].
  { induction H as [a0 n a r Hn R|L a o a' r H [O C] Lg R].
    - destruct (abuf_init_run a0 n Hn) as (a' & r' & R' & O & C). rewrite R in R'. by injection R' as <- <-.
    - destruct (op_run a o O Lg) as (a2 & r2 & R2 & [D1 D2 _]). rewrite R in R2. injection R2 as <- <-. split; [done|]. by rewrite foldl_app, <- C. }
  split; [done|]. split; [done|]. intros o Lg. destruct (op_run a o O Lg) as (a' & r & R & [_ D2 D3]). eauto.
Qed.

(** Formatted text for a buffer without memory, when memory is exhausted, is written through the null pointer *)
Lemma append_null_stuck k txt : txt <> [] -> (forall k n, alloc k n = None) -> Z.of_nat (length txt) < MAX_BLOCK -> abuf_appendf alloc txt (mkAb 0 0 None k) = None.
Proof.
  intros Ht F H. set (a := mkAb 0 0 None k). set (n := Z.of_nat (length txt)). assert (0 < n) by (destruct txt; simpl in *; [done|lia]).
  assert (E : int_autobuf_enlarge alloc n a = Some (count_call a, -1)).
  { unfold int_autobuf_enlarge. rewrite (bind_run _ _ a a (n + 1)) by (apply int_of_run; unfold INT_MAX, MAX_BLOCK, n in *; lia).
    rewrite (bind_run _ _ a a 0) by done. rewrite (proj2 (Z.gtb_lt (n + 1) 0)) by lia. rewrite (bind_run _ _ a (count_call a) None); [done|]. unfold realloc, mbind, se_bind. simpl. by rewrite F. }
  unfold abuf_appendf, abuf_vappendf. rewrite (bind_run _ _ a a n) by done. rewrite (bind_run _ _ a a a) by done.
  rewrite (bind_run _ _ a a n) by (apply int_of_run; simpl; unfold INT_MAX, MAX_BLOCK, n in *; lia). assert ((n >=? ab_size a) = true) as -> by (apply Z.geb_le; simpl; lia).
  by rewrite (bind_run _ _ _ _ _ E).
Qed.
End autobuf_props.

(** ** Example: memory is exhausted after two allocations *)
Definition ab_alloc (k : nat) (n : Z) : option (list Z) := if (k <? 2)%nat then Some (replicate (Z.to_nat n) 7) else None.
Definition ab_demo : autobuf := se_state (abuf_init ab_alloc 10) (mkAb 0 0 None 0).

Lemma ab_alloc_size k n b : ab_alloc k n = Some b -> 0 <= n -> Z.of_nat (length b) = n.
Proof. unfold ab_alloc. case_match; [|done]. intros [= <-] Hn. rewrite length_replicate. lia. Qed.

Lemma history_next alloc L a o r : history alloc L a -> op_legal alloc a o -> snd <$> run_op alloc o a = Some r -> history alloc (L ++ [(o, r)]) (se_state (run_op alloc o) a).
Proof. intros H Lg E. eapply history_step; [done|done|]. unfold se_state. destruct (run_op alloc o a) as [[a' r']|]; [|done]. by injection E as ->. Qed.

Lemma autobuf_refines_witness : exists a, history ab_alloc [(Append [97; 98], 0); (Prefix [99], 1); (Memcpy [100; 101], 2); (Pull 2, 0); (Memcpy (replicate 5000 1), 5000); (Memcpy (replicate 5000 2), -1)] a /\
  content a = [98; 100; 101] ++ replicate 5000 1.
Proof.
  assert (H : history ab_alloc [] ab_demo).
  { apply (history_init _ (mkAb 0 0 None 0) 10 _ 0); vm_compute; [discriminate|reflexivity]. }
  apply history_next with (o := Append [97; 98]) (r := 0) in H; [|split; [by vm_compute|left; vm_compute; by eexists]|by vm_compute].
  apply history_next with (o := Prefix [99]) (r := 1) in H; [|split; [by vm_compute|done]|by vm_compute].
  apply history_next with (o := Memcpy [100; 101]) (r := 2) in H; [|split; [by vm_compute|done]|by vm_compute].
  apply history_next with (o := Pull 2) (r := 0) in H; [|split; [by vm_compute|done]|by vm_compute].
  apply history_next with (o := Memcpy (replicate 5000 1)) (r := 5000) in H; [|split; [by vm_compute|done]|by vm_compute].
  apply history_next with (o := Memcpy (replicate 5000 2)) (r := -1) in H; [|split; [by vm_compute|done]|by vm_compute].
  eexists. split; [exact H|]. destruct (autobuf_refines ab_alloc ab_alloc_size _ _ H) as (_ & C & _). rewrite C. by vm_compute.
Defined.
