(* ===== verification/Template.v ===== *)
(** * Templates ([common/autobuf.c])

    A template is a text with keys between percent signs. [abuf_template_init] finds the keys once and leaves a table
    with the number of the key, its first position and the position behind it; [abuf_templatef] appends the text to a buffer with the keys
    replaced by their values. Strings are lists of bytes without the final zero. *)
From S2P Require Import Prelude Strings Autobuf.

(** [strncmp(a, b, n) == 0] on blocks of memory *)
Fixpoint strncmp_eq (n : nat) (a b : list Z) : option bool :=
  match n with
  | O => Some true
  | S n => match a, b with
    | c :: a, d :: b => if c =? d then if c =? 0 then Some true else strncmp_eq n a b else Some false
    | _, _ => None
    end
  end.

(** [-1] is [None] *)
Fixpoint find_template (keys : list (list Z)) (i : nat) (txt : list Z) (txtLength : nat) : option (option nat) :=
  match keys with
  | [] => Some None
  | k :: keys =>
    e ← strncmp_eq txtLength (k ++ [0]) (txt ++ [0]);
    if (e : bool) then
      c ← (k ++ [0]) !! txtLength;
      if c =? 0 then Some (Some i) else find_template keys (S i) txt txtLength
    else find_template keys (S i) txt txtLength
  end.
Definition abuf_find_template (keys : list (list Z)) (txt : list Z) (txtLength : nat) : option (option nat) := find_template keys 0 txt txtLength.

(** The loop of [abuf_template_init] at position [pos] with [rest] to come; [start] is the position of an open percent sign. An index table that is
    too short gives [Some None]. *)
Fixpoint template_loop (keys : list (list Z)) (format : list Z) (indexLength : nat) (rest : list Z) (pos : nat) (start : option nat) (escape : bool) (table : list nat) : option (option (list nat)) :=
  match rest with
  | [] => Some (Some table)
  | c :: rest =>
    if negb escape && (c =? 37) then
      match start with
      | None => template_loop keys format indexLength rest (S pos) (Some pos) escape table
      | Some start =>
        if (1 <? pos - start)%nat then
          if (indexLength <? length table + 3)%nat then Some None
          else
            i ← abuf_find_template keys (drop (start + 1) format) (pos - start - 1);
            template_loop keys format indexLength rest (S pos) None escape (match i with Some i => table ++ [i; start; S pos] | None => table end)
        else template_loop keys format indexLength rest (S pos) None escape table
      end
    else if c =? 92 then template_loop keys format indexLength rest (S pos) start (negb escape) table
    else template_loop keys format indexLength rest (S pos) start false table
  end.
Definition abuf_template_init (keys : list (list Z)) (format : list Z) (indexLength : nat) : option (option (list nat)) :=
  template_loop keys format indexLength format 0 None false [].

Section templatef.
Context (alloc : nat -> Z -> option (list Z)).

Fixpoint template_copy (format : list Z) (values : list (option (list Z))) (table : list nat) (last : nat) : SE autobuf Z :=
  match table with
  | [] =>
    if (last <? length format)%nat then
      r ← abuf_puts alloc (Some (drop last format));
      if r <? 0 then mret (-1) else mret 0
    else mret 0
  | i :: s :: e :: table =>
    r ← (if (last <? s)%nat then se_assert (s <=? length format)%nat;; abuf_memcpy alloc (take (s - last) (drop last format)) else mret 0);
    if r <? 0 then mret (-1)
    else
      v ← se_opt (values !! i);
      r ← abuf_puts alloc v;
      if r <? 0 then mret (-1) else template_copy format values table e
  | _ => se_fail
  end.
Definition abuf_templatef (format : list Z) (values : list (option (list Z))) (table : list nat) : SE autobuf Z := template_copy format values table 0.
End templatef.

(** ** The reference: expansion of a template in one pass *)
Definition find_key (keys : list (list Z)) (k : list Z) : option nat := fst <$> list_find (fun x => x = k) keys.

(** what stands for a key between percent signs *)
Definition key_text (keys : list (list Z)) (values : list (option (list Z))) (k : list Z) : list Z :=
  match find_key keys k with
  | Some i => default [] (default None (values !! i))
  | None => 37 :: k ++ [37]
  end.

(** [k] is the text since an open percent sign; a percent sign behind a backslash is text, and so is a key that is not closed *)
Fixpoint expand (keys : list (list Z)) (values : list (option (list Z))) (k : option (list Z)) (escape : bool) (format : list Z) : list Z :=
  match format with
  | [] => match k with Some k => 37 :: k | None => [] end
  | c :: format =>
    if negb escape && (c =? 37) then
      match k with
      | None => expand keys values (Some []) false format
      | Some [] => [37; 37] ++ expand keys values None false format
      | Some k => key_text keys values k ++ expand keys values None false format
      end
    else
      let escape := (c =? 92) && negb escape in
      match k with
      | None => c :: expand keys values None escape format
      | Some k => expand keys values (Some (k ++ [c])) escape format
      end
  end.

Definition cstring (s : list Z) : Prop := Forall (fun c => c <> 0) s.

(** ** Finding a key *)
Lemma strncmp_run k : forall t r, cstring k -> cstring t -> exists e, strncmp_eq (length t) (k ++ [0]) (t ++ r) = Some e /\
  (e = true -> exists r, k = t ++ r) /\ (e = false -> k <> t).
Proof.
  induction k as [|c k IH]; intros [|d t] r Fk Ft; simpl; try (by exists true; split; [done|]; split; [intros _; eexists|]).
  - apply Forall_cons in Ft as [Hd _]. exists false. split_and!; [by destruct d|discriminate|discriminate].
  - apply Forall_cons in Fk as [Hc Fk]. apply Forall_cons in Ft as [Hd Ft]. destruct (Z.eqb_spec c d) as [->|]; [|exists false; split; [done|]; split; [done|congruence]].
    destruct (Z.eqb_spec d 0); [done|]. destruct (IH t r Fk Ft) as (e & -> & H1 & H2). exists e. split; [done|]. split; [intros [x ->]%H1; by exists x|intros E [=]; by apply H2].
Qed.

Lemma find_template_run keys : forall i t r, Forall cstring keys -> cstring t -> find_template keys i (t ++ r) (length t) = Some ((fun x => (i + x)%nat) <$> find_key keys t).
Proof.
  induction keys as [|k keys IH]; intros i t r Fk Ft; [done|]. apply Forall_cons in Fk as [Hk Fk]. cbn [find_template].
  rewrite <- app_assoc. destruct (strncmp_run k t (r ++ [0]) Hk Ft) as (e & -> & H1 & H2). simpl.
  assert (Next : k <> t -> find_template keys (S i) (t ++ r) (length t) = Some ((fun x => (i + x)%nat) <$> find_key (k :: keys) t)).
  { intros N. rewrite IH by done. f_equal. unfold find_key. simpl. rewrite decide_False by done. destruct (list_find _ keys) as [[x y]|]; simpl; [|done]. f_equal. lia. }
  destruct e; [|by apply Next, H2]. destruct (H1 eq_refl) as [x ->]. rewrite <- app_assoc, lookup_app_r, Nat.sub_diag by lia.
  destruct x as [|c x]; simpl.
  - rewrite app_nil_r. unfold find_key. simpl. rewrite decide_True by done. simpl. do 2 f_equal. lia.
  - apply Forall_app in Hk as [_ [Hc _]%Forall_cons]. destruct (Z.eqb_spec c 0); [done|]. apply Next. intros E. rewrite <- (app_nil_r t) in E at 2. by apply app_inv_head in E.
Qed.

(** ** The table *)
(** the text of positions [s] to [e] of the template *)
Definition slice (format : list Z) (s e : nat) : list Z := take (e - s) (drop s format).

Fixpoint entries (keys : list (list Z)) (format rest : list Z) (pos : nat) (start : option nat) (escape : bool) : list (nat * nat * nat) :=
  match rest with
  | [] => []
  | c :: rest =>
    if negb escape && (c =? 37) then
      match start with
      | None => entries keys format rest (S pos) (Some pos) false
      | Some start =>
        let tail := entries keys format rest (S pos) None false in
        if (1 <? pos - start)%nat then
          match find_key keys (slice format (start + 1) pos) with Some i => (i, start, S pos) :: tail | None => tail end
        else tail
      end
    else entries keys format rest (S pos) start ((c =? 92) && negb escape)
  end.

Definition flat (T : list (nat * nat * nat)) : list nat := mjoin ((fun t => [t.1.1; t.1.2; t.2]) <$> T).
Definition percents (s : list Z) : nat := length (filter (fun c => c = 37) s).

Lemma slice_length format s e : (e <= length format)%nat -> length (slice format s e) = (e - s)%nat.
Proof. intros H. unfold slice. rewrite length_take, length_drop. lia. Qed.

Lemma slice_snoc format s e c : (s <= e)%nat -> format !! e = Some c -> slice format s (S e) = slice format s e ++ [c].
Proof.
  intros H E. unfold slice. replace (S e - s)%nat with (S (e - s)) by lia. apply take_S_r. rewrite lookup_drop. by replace (s + (e - s))%nat with e by lia.
Qed.

Lemma slice_cut format l s e : (l <= s)%nat -> (s < e)%nat -> format !! s = Some 37 -> slice format l e = slice format l s ++ 37 :: slice format (s + 1) e.
Proof.
  intros H1 H2 E. unfold slice. replace (e - l)%nat with ((s - l) + (e - s))%nat by lia. rewrite <- take_take_drop, drop_drop. f_equal.
  replace (l + (s - l))%nat with s by lia. rewrite (drop_S format 37 s E). replace (e - s)%nat with (S (e - (s + 1))) by lia. by rewrite Nat.add_1_r.
Qed.

Lemma rest_cons (format rest : list Z) c pos : c :: rest = drop pos format -> format !! pos = Some c /\ rest = drop (S pos) format /\ (pos < length format)%nat.
Proof.
  intros E. assert (L : format !! pos = Some c) by (rewrite <- (Nat.add_0_r pos), <- lookup_drop, <- E; done). split; [done|]. split; [|by eapply lookup_lt_Some].
  rewrite (drop_S _ _ _ L) in E. by injection E.
Qed.

Definition open_ok (format : list Z) (pos : nat) (start : option nat) : Prop :=
  match start with Some s => (s < pos)%nat /\ format !! s = Some 37 | None => True end.

Section table.
Context (keys : list (list Z)) (format : list Z) (indexLength : nat).
Hypothesis keys_ok : Forall cstring keys.
Hypothesis format_ok : cstring format.

Lemma find_slice s pos : (s + 1 <= pos)%nat -> (pos <= length format)%nat ->
  abuf_find_template keys (drop (s + 1) format) (pos - s - 1) = Some (find_key keys (slice format (s + 1) pos)).
Proof.
  intros H1 H2. assert (L : length (slice format (s + 1) pos) = (pos - s - 1)%nat) by (rewrite slice_length; lia).
  rewrite <- (take_drop (pos - (s + 1)) (drop (s + 1) format)), <- L. unfold abuf_find_template. fold (slice format (s + 1) pos). rewrite find_template_run.
  - by destruct (find_key keys _).
  - done.
  - unfold slice. by apply Forall_take, Forall_drop.
Qed.

Lemma template_loop_run rest : forall pos start escape table k, rest = drop pos format -> open_ok format pos start -> length table = (3 * k)%nat ->
  exists o, template_loop keys format indexLength rest pos start escape table = Some o /\
    (forall t, o = Some t -> t = table ++ flat (entries keys format rest pos start escape)) /\
    ((3 * (2 * k + (match start with Some _ => 1 | None => 0 end) + percents rest) <= 2 * indexLength)%nat -> is_Some o).
Proof.
  induction rest as [|c rest IH]; intros pos start escape table k E O Hk; simpl.
  { eexists. split; [done|]. split; [intros t [= <-]; by rewrite app_nil_r|by eexists]. }
  destruct (rest_cons _ _ _ _ E) as (Lc & Er & Lp). unfold percents. rewrite filter_cons. destruct (negb escape && (c =? 37)) eqn:Ec.
  - apply andb_true_iff in Ec as [Ee ->%Z.eqb_eq]. apply negb_true_iff in Ee as ->. rewrite decide_True by done. simpl length.
    destruct start as [s|].
    + destruct O as [O1 O2]. destruct (Nat.ltb_spec 1 (pos - s)).
      * destruct (Nat.ltb_spec indexLength (length table + 3)); [eexists; split; [done|]; split; [done|]; intros; lia|].
        rewrite find_slice by lia. simpl. destruct (find_key keys (slice format (s + 1) pos)) as [i|].
        -- destruct (IH (S pos) None false (table ++ [i; s; S pos]) (S k) Er I) as (o & R & H1 & H2); [rewrite length_app; simpl; lia|].
           exists o. split; [done|]. split; [intros t Ht; rewrite (H1 t Ht), <- app_assoc; done|]. intros HC. apply H2. unfold percents. lia.
        -- destruct (IH (S pos) None false table k Er I Hk) as (o & R & H1 & H2). exists o. split; [done|]. split; [done|]. intros HC. apply H2. unfold percents. lia.
      * destruct (IH (S pos) None false table k Er I Hk) as (o & R & H1 & H2). exists o. split; [done|]. split; [done|]. intros HC. apply H2. unfold percents. lia.
    + destruct (IH (S pos) (Some pos) false table k Er) as (o & R & H1 & H2); [split; [lia|done]|done|]. exists o. split; [done|]. split; [done|]. intros HC. apply H2. unfold percents. lia.
  - assert (Oo : open_ok format (S pos) start) by (destruct start; [destruct O; split; [lia|done]|done]).
    destruct (IH (S pos) start ((c =? 92) && negb escape) table k Er Oo Hk) as (o & R & H1 & H2). exists o. split; [by destruct (c =? 92)|]. split; [done|]. intros HC. apply H2. unfold percents.
    case_decide; simpl in *; lia.
Qed.

(** the text that the table stands for, from position [last] on *)
Fixpoint render (values : list (option (list Z))) (T : list (nat * nat * nat)) (last : nat) : list Z :=
  match T with
  | [] => drop last format
  | (i, s, e) :: T => slice format last s ++ default [] (default None (values !! i)) ++ render values T e
  end.

Lemma render_entries values rest : forall pos start escape last, rest = drop pos format -> open_ok format pos start -> (last <= default pos start)%nat ->
  render values (entries keys format rest pos start escape) last =
    slice format last (default pos start) ++ expand keys values ((fun s => slice format (s + 1) pos) <$> start) escape rest.
Proof.
  induction rest as [|c rest IH]; intros pos start escape last E O Hl.
  - assert (Lp : (length format <= pos)%nat) by (symmetry in E; by apply drop_nil_inv in E). simpl.
    assert (Ed : drop last format = slice format last pos) by (unfold slice; rewrite take_ge; [done|rewrite length_drop; lia]). rewrite Ed.
    destruct start as [s|]; simpl in *; [|by rewrite app_nil_r]. destruct O. by apply slice_cut.
  - destruct (rest_cons _ _ _ _ E) as (Lc & Er & Lp). simpl. destruct (negb escape && (c =? 37)) eqn:Ec.
    + apply andb_true_iff in Ec as [Ee ->%Z.eqb_eq]. destruct start as [s|]; simpl in *.
      * destruct O as [O1 O2]. assert (Tail : render values (entries keys format rest (S pos) None false) last = slice format last s ++ 37 :: slice format (s + 1) pos ++ 37 :: expand keys values None false rest).
        { rewrite (IH (S pos) None false last Er I) by (simpl; lia). simpl. rewrite (slice_snoc _ _ _ 37), (slice_cut format last s pos) by (done || lia). by rewrite <- !app_assoc. }
        destruct (Nat.ltb_spec 1 (pos - s)).
        -- destruct (slice format (s + 1) pos) as [|d k] eqn:Ek; [apply (f_equal length) in Ek; rewrite slice_length in Ek by lia; simpl in Ek; lia|]. unfold key_text.
           destruct (find_key keys (d :: k)) as [i|]; [|rewrite Tail; by simplify_list_eq]. simpl. rewrite (IH (S pos) None false (S pos) Er I) by (simpl; lia). simpl. unfold slice at 2. by rewrite Nat.sub_diag.
        -- replace pos with (s + 1)%nat in * by lia. rewrite Tail. assert (slice format (s + 1) (s + 1) = []) as -> by (unfold slice; by rewrite Nat.sub_diag). done.
      * rewrite (IH (S pos) (Some pos) false last Er); [|split; [lia|done]|done]. simpl. unfold slice at 2. replace (S pos - (pos + 1))%nat with 0%nat by lia. done.
    + destruct start as [s|]; simpl in *.
      * destruct O. rewrite (IH (S pos) (Some s) _ last Er); [|split; [lia|done]|done]. simpl. by rewrite (slice_snoc _ _ _ c) by (done || lia).
      * rewrite (IH (S pos) None _ last Er I) by (simpl; lia). simpl. rewrite (slice_snoc _ _ _ c) by (done || lia). by rewrite <- app_assoc.
Qed.
End table.

(** ** Copying *)
Section copy.
Context (alloc : nat -> Z -> option (list Z)).
Hypothesis alloc_size : forall k n b, alloc k n = Some b -> 0 <= n -> Z.of_nat (length b) = n.

(** [t] is appended completely, or nothing is because memory is exhausted *)
Definition appended (a : autobuf) (t : list Z) (a' : autobuf) (r : Z) : Prop :=
  ab_ok a' /\ (0 <= r /\ content a' = content a ++ t \/ r < 0 /\ content a' = content a /\ ~ (forall k n, is_Some (alloc k n))).

Lemma done_appended a o a' r t : op_done alloc a o a' r -> (0 <= r -> spec_op (content a) (o, r) = content a ++ t) -> (r < 0 -> spec_op (content a) (o, r) = content a) -> appended a t a' r.
Proof.
  intros [D1 D2 D3] H1 H2. split; [done|]. destruct (Z.lt_ge_cases r 0) as [L|L]; [right|left; rewrite D2; auto].
  split; [done|]. rewrite D2. split; [auto|]. intros F. specialize (D3 F). lia.
Qed.

Lemma puts_appended a s : ab_ok a -> ab_len a + Z.of_nat (length (default [] s)) + 1 < MAX_BLOCK -> exists a' r, abuf_puts alloc s a = Some (a', r) /\ appended a (default [] s) a' r.
Proof.
  intros O H. destruct (puts_done alloc alloc_size a s O) as (a' & r & R & D); [done|]. exists a', r. split; [done|].
  apply (done_appended _ _ _ _ _ D); intros Hr; unfold spec_op; simpl; by rewrite ?(proj2 (Z.ltb_ge _ _) Hr), ?(proj2 (Z.ltb_lt _ _) Hr).
Qed.

Lemma memcpy_appended a p : ab_ok a -> ab_len a + Z.of_nat (length p) < MAX_BLOCK -> exists a' r, abuf_memcpy alloc p a = Some (a', r) /\ appended a p a' r.
Proof.
  intros O H. destruct (memcpy_done alloc alloc_size a p O) as (a' & r & R & D); [done|]. exists a', r. split; [done|].
  apply (done_appended _ _ _ _ _ D); intros Hr; unfold spec_op; simpl; by rewrite ?(proj2 (Z.ltb_ge _ _) Hr), ?(proj2 (Z.ltb_lt _ _) Hr).
Qed.

Context (format : list Z) (values : list (option (list Z))).

Definition copied (a : autobuf) (t : list Z) (a' : autobuf) (r : Z) : Prop :=
  ab_ok a' /\ (r = 0 /\ content a' = content a ++ t \/ r = -1 /\ ~ (forall k n, is_Some (alloc k n)) /\ exists p, p `prefix_of` t /\ content a' = content a ++ p).

Lemma appended_len a t a' r : ab_ok a -> appended a t a' r -> 0 <= r -> ab_len a' = ab_len a + Z.of_nat (length t).
Proof.
  intros O [O' [[_ C]|[? _]]] Hr; [|lia]. rewrite <- (content_length a O), <- (content_length a' O'), C, length_app. lia.
Qed.

Lemma copied_failed a u t a' r : appended a t a' r -> r < 0 -> copied a (t ++ u) a' (-1).
Proof.
  intros [O' [[? _]|(_ & C & F)]] Hr; [lia|]. split; [done|]. right. split; [done|]. split; [done|]. exists []. rewrite app_nil_r. split; [apply prefix_nil|done].
Qed.

Lemma copied_after a t u a1 r1 a' r : appended a t a1 r1 -> 0 <= r1 -> copied a1 u a' r -> copied a (t ++ u) a' r.
Proof.
  intros [O' [[_ C]|[? _]]] Hr; [|lia]. intros [O2 [[-> C2]|(-> & F & p & Hp & C2)]]; (split; [done|]); [left|right]; rewrite C, <- app_assoc in C2; [done|].
  split; [done|]. split; [done|]. exists (t ++ p). split; [by apply prefix_app|done].
Qed.

Lemma copy_run T : forall last a, ab_ok a -> Forall (fun t => (t.1.2 <= length format)%nat /\ (t.1.1 < length values)%nat) T ->
  ab_len a + Z.of_nat (length (render format values T last)) + 1 < MAX_BLOCK ->
  exists a' r, template_copy alloc format values (flat T) last a = Some (a', r) /\ copied a (render format values T last) a' r.
Proof.
  induction T as [|[[i s] e] T IH]; intros last a O F H.
  - simpl in *. destruct (Nat.ltb_spec last (length format)).
    + destruct (puts_appended a (Some (drop last format)) O H) as (a' & r & R & A). rewrite (bind_run _ _ _ _ _ R). simpl in A. destruct (Z.ltb_spec r 0).
      * eexists _, _. split; [done|]. rewrite <- (app_nil_r (drop last format)). by eapply copied_failed.
      * eexists _, _. split; [done|]. destruct A as [O' [[_ C]|[? _]]]; [|lia]. split; [done|by left].
    + eexists _, _. split; [done|]. rewrite drop_ge by lia. split; [done|]. left. by rewrite app_nil_r.
  - apply Forall_cons in F as [[Fs Fi] F]. simpl in Fs, Fi, H |- *. rewrite !length_app in H.
    assert (exists a1 r, (if (last <? s)%nat then se_assert (s <=? length format)%nat;; abuf_memcpy alloc (take (s - last) (drop last format)) else mret 0) a = Some (a1, r) /\ appended a (slice format last s) a1 r) as (a1 & r & R & A).
    { destruct (Nat.ltb_spec last s).
      - destruct (memcpy_appended a (slice format last s) O) as (a1 & r & R & A); [lia|]. exists a1, r. split; [|done]. rewrite (proj2 (Nat.leb_le _ _) Fs). done.
      - eexists _, _. split; [done|]. split; [done|]. left. unfold slice. replace (s - last)%nat with 0%nat by lia. rewrite take_0, app_nil_r. done. }
    rewrite (bind_run _ _ _ _ _ R). destruct (Z.ltb_spec r 0); [eexists _, _; split; [done|]; by eapply copied_failed|].
    destruct (lookup_lt_is_Some_2 values i Fi) as [v Hv]. rewrite Hv in H |- *. simpl in H |- *. rewrite (bind_run _ _ a1 a1 v) by done.
    pose proof (appended_len _ _ _ _ O A ltac:(lia)) as L1. destruct A as [O1 A]. destruct (puts_appended a1 v O1) as (a2 & r2 & R2 & A2); [lia|]. rewrite (bind_run _ _ _ _ _ R2).
    destruct (Z.ltb_spec r2 0).
    + eexists _, _. split; [done|]. eapply copied_after; [by split|done|by eapply copied_failed].
    + pose proof (appended_len _ _ _ _ O1 A2 ltac:(lia)) as L2. destruct (IH e a2) as (a3 & r3 & R3 & C3); [by destruct A2|done|lia|].
      exists a3, r3. split; [done|]. eapply copied_after; [by split|done|]. eapply copied_after; done.
Qed.
End copy.

Lemma find_key_lt keys k i : find_key keys k = Some i -> (i < length keys)%nat.
Proof.
  unfold find_key. destruct (list_find _ keys) as [[j x]|] eqn:E; [|done]. intros [= <-]. apply list_find_Some in E as (E & _). by eapply lookup_lt_Some.
Qed.

Lemma entries_bounds keys format rest : forall pos start escape, rest = drop pos format -> open_ok format pos start ->
  Forall (fun t => (t.1.2 <= length format)%nat /\ (t.1.1 < length keys)%nat) (entries keys format rest pos start escape).
Proof.
  induction rest as [|c rest IH]; intros pos start escape E O; simpl; [constructor|]. destruct (rest_cons _ _ _ _ E) as (Lc & Er & Lp).
  destruct (negb escape && (c =? 37)) eqn:Ec.
  - apply andb_true_iff in Ec as [_ ->%Z.eqb_eq]. destruct start as [s|]; [|apply IH; [done|split; [lia|done]]]. destruct O.
    pose proof (IH (S pos) None false Er I) as F. destruct (1 <? pos - s)%nat; [|done]. destruct (find_key keys _) as [i|] eqn:Ef; [|done]. constructor; [|done]. simpl. apply find_key_lt in Ef. lia.
  - apply IH; [done|]. destruct start; [destruct O; split; [lia|done]|done].
Qed.

(** C26: The template engine does what its reference does. For a template and keys without zero bytes, [abuf_template_init] reads only them and finds a table, unless the
    index table has fewer than three places for every two percent signs; [abuf_templatef] with this table and one value for each key
    appends the expansion of the template, whatever is in the buffer; when memory runs out it returns -1 and has appended a part of it. *)
Theorem template_correct alloc keys values format indexLength a :
  (forall k n b, alloc k n = Some b -> 0 <= n -> Z.of_nat (length b) = n) ->
  Forall cstring keys -> cstring format -> length values = length keys -> ab_ok a ->
  ab_len a + Z.of_nat (length (expand keys values None false format)) + 1 < MAX_BLOCK ->
  exists o, abuf_template_init keys format indexLength = Some o /\
    ((3 * percents format <= 2 * indexLength)%nat -> is_Some o) /\
    forall table, o = Some table -> exists a' r, abuf_templatef alloc format values table a = Some (a', r) /\ copied alloc a (expand keys values None false format) a' r.
Proof.
  intros Ha Hk Hf Hv O H. destruct (template_loop_run keys format indexLength Hk Hf format 0 None false [] 0 eq_refl I eq_refl) as (o & R & H1 & H2).
  exists o. split; [done|]. split; [done|]. intros table ->. specialize (H1 table eq_refl) as ->. simpl.
  pose proof (render_entries keys format values format 0 None false 0 eq_refl I ltac:(done)) as E. unfold slice in E. simpl in E.
  rewrite <- E in H |- *. unfold abuf_templatef. apply (copy_run alloc Ha format values (entries keys format format 0 None false) 0 a O); [|exact H].
  rewrite Hv. by apply entries_bounds.
Qed.

(** The key [a] in the template [p%a%\%q%z%]: the backslash stays, [z] is no key. *)
Lemma template_correct_witness : exists table a', abuf_template_init [[97]] [112; 37; 97; 37; 92; 37; 113; 37; 122; 37] 9 = Some (Some table) /\
  abuf_templatef (fun _ n => Some (replicate (Z.to_nat n) 7)) [112; 37; 97; 37; 92; 37; 113; 37; 122; 37] [Some [120; 121]] table (mkAb 0 0 None 0) = Some (a', 0) /\
  content a' = [112; 120; 121; 92; 37; 113; 37; 122; 37].
Proof.
  destruct (template_correct (fun _ n => Some (replicate (Z.to_nat n) 7)) [[97]] [Some [120; 121]] [112; 37; 97; 37; 92; 37; 113; 37; 122; 37] 9 (mkAb 0 0 None 0)) as (o & R & Ho & C).
  - intros k n b [= <-] Hn. rewrite length_replicate. lia.
  - by repeat constructor.
  - by repeat constructor.
  - reflexivity.
  - split; simpl; unfold MAX_BLOCK; lia.
  - by vm_compute.
  - destruct Ho as [table ->]; [vm_compute; lia|]. destruct (C table eq_refl) as (a' & r & R' & O & [[-> Ca]|(_ & F & _)]).
    + exists table, a'. split; [exact R|]. split; [exact R'|]. rewrite Ca. by vm_compute.
    + exfalso. apply F. by eexists.
Defined.
