(* ===== verification/Callbacks.v ===== *)
(** * Callback providers ([olsr_callbacks.c])

    A provider announces that objects were added, changed or removed; consumers register by the name of the provider and give a hook for
    each of these events. The memory of providers and consumers belongs to the callers; using memory twice is a run without
    result. What hooks do is a parameter: the further events that a hook raises for an object. *)
From Stdlib Require Import String.
From S2P Require Import Prelude AvlHeap AvlTree AvlRefine AvlSpec Trees Strings.

Inductive event := AddObject | ChangeObject | RemoveObject.
#[global] Instance event_eq_dec : EqDecision event.
Proof. solve_decision. Defined.

Record olsr_callback_provider := mkPrv {
  prv_name : option string;
  prv_callbacks : list loc;
  obj_count : Z;
  in_use : bool
}.

Record olsr_callback_consumer := mkCons {
  cons_provider : option loc;
  cons_name : option string;
  (** the node is in a list *)
  cons_linked : bool;
  cons_add : option Z;
  cons_change : option Z;
  cons_remove : option Z
}.

Record callbacks := mkCb {
  provider_tree : list (loc * string);
  prvs : gmap loc olsr_callback_provider;
  conss : gmap loc olsr_callback_consumer;
  (** the hooks called so far: provider, consumer, hook, object *)
  calls : list (loc * loc * Z * loc)
}.

Definition with_tree (L : list (loc * string)) (s : callbacks) : callbacks := mkCb L (prvs s) (conss s) (calls s).
Definition with_prvs (P : gmap loc olsr_callback_provider) (s : callbacks) : callbacks := mkCb (provider_tree s) P (conss s) (calls s).
Definition with_conss (C : gmap loc olsr_callback_consumer) (s : callbacks) : callbacks := mkCb (provider_tree s) (prvs s) C (calls s).
Definition log_call (c : loc * loc * Z * loc) (s : callbacks) : callbacks := mkCb (provider_tree s) (prvs s) (conss s) (calls s ++ [c]).

Definition prv_rd (p : loc) : SE callbacks olsr_callback_provider := fun s => (fun x => (s, x)) <$> prvs s !! p.
Definition prv_wr (p : loc) (g : olsr_callback_provider -> olsr_callback_provider) : SE callbacks unit := fun s =>
  (fun x => (with_prvs (<[p := g x]> (prvs s)) s, tt)) <$> prvs s !! p.
Definition cons_rd (c : loc) : SE callbacks olsr_callback_consumer := fun s => (fun x => (s, x)) <$> conss s !! c.
Definition cons_wr (c : loc) (g : olsr_callback_consumer -> olsr_callback_consumer) : SE callbacks unit := fun s =>
  (fun x => (with_conss (<[c := g x]> (conss s)) s, tt)) <$> conss s !! c.

Definition set_prv_name (n : option string) (x : olsr_callback_provider) : olsr_callback_provider := mkPrv n (prv_callbacks x) (obj_count x) (in_use x).
Definition set_prv_callbacks (L : list loc) (x : olsr_callback_provider) : olsr_callback_provider := mkPrv (prv_name x) L (obj_count x) (in_use x).
Definition set_obj_count (n : Z) (x : olsr_callback_provider) : olsr_callback_provider := mkPrv (prv_name x) (prv_callbacks x) n (in_use x).
Definition set_in_use (b : bool) (x : olsr_callback_provider) : olsr_callback_provider := mkPrv (prv_name x) (prv_callbacks x) (obj_count x) b.

Definition prv_linked (p : loc) (s : callbacks) : bool := bool_decide (p ∈ (provider_tree s).*1).

Definition olsr_callback_init : SE callbacks unit := se_mod (with_tree []).

(** The provider is cleared before the name is looked up. *)
Definition olsr_callback_prv_create (prv : loc) (name : string) : SE callbacks Z :=
  used ← se_get (prv_linked prv);
  se_assert (negb used);;
  prv_wr prv (fun _ => mkPrv None [] 0 false);;
  f ← se_get (fun s => tree_find avl_comp_strcasecmp name (provider_tree s));
  match f with
  | Some _ => mret 1
  | None =>
    prv_wr prv (set_prv_name (Some name));;
    se_mod (fun s => with_tree (tree_insert avl_comp_strcasecmp false name prv (provider_tree s)) s);;
    prv_wr prv (set_prv_callbacks []);;
    mret 0
  end.

Definition olsr_callback_cons_unregister (cn : loc) : SE callbacks unit :=
  c ← cons_rd cn;
  if cons_linked c then
    p ← se_opt (cons_provider c);
    x ← prv_rd p;
    prv_wr p (set_prv_callbacks (filter (fun q => q <> cn) (prv_callbacks x)));;
    cons_wr cn (fun c => mkCons None None false (cons_add c) (cons_change c) (cons_remove c))
  else mret tt.

Fixpoint unregister_all (L : list loc) : SE callbacks unit :=
  match L with
  | [] => mret tt
  | c :: L => olsr_callback_cons_unregister c;; unregister_all L
  end.

Definition olsr_callback_prv_destroy (prv : loc) : SE callbacks unit :=
  x ← prv_rd prv;
  unregister_all (prv_callbacks x);;
  se_mod (fun s => with_tree (tree_delete prv (provider_tree s)) s);;
  prv_wr prv (set_prv_name None).

Definition olsr_callback_cons_register (pname cname : string) (cn : loc) : SE callbacks Z :=
  f ← se_get (fun s => tree_find avl_comp_strcasecmp pname (provider_tree s));
  match f with
  | None => mret 1
  | Some prv =>
    c ← cons_rd cn;
    se_assert (negb (cons_linked c));;
    cons_wr cn (fun _ => mkCons (Some prv) (Some cname) true None None None);;
    x ← prv_rd prv;
    prv_wr prv (set_prv_callbacks (prv_callbacks x ++ [cn]));;
    mret 0
  end.

Fixpoint destroy_all (L : list (loc * string)) : SE callbacks unit :=
  match L with
  | [] => mret tt
  | e :: L => olsr_callback_prv_destroy e.1;; destroy_all L
  end.
Definition olsr_callback_cleanup : SE callbacks unit := L ← se_get provider_tree; destroy_all L.

(** ** Events *)
Definition hook_of (e : event) (c : olsr_callback_consumer) : option Z :=
  match e with AddObject => cons_add c | ChangeObject => cons_change c | RemoveObject => cons_remove c end.

Section notify.
Context (react : Z -> loc -> list (event * loc * loc)).

(** a hook raises its events one after the other *)
Fixpoint raise_all (notify : event -> loc -> loc -> SE callbacks unit) (L : list (event * loc * loc)) : SE callbacks unit :=
  match L with
  | [] => mret tt
  | t :: L => notify t.1.1 t.1.2 t.2;; raise_all notify L
  end.

Fixpoint call_consumers (notify : event -> loc -> loc -> SE callbacks unit) (e : event) (prv obj : loc) (L : list loc) : SE callbacks unit :=
  match L with
  | [] => mret tt
  | cn :: L =>
    c ← cons_rd cn;
    (match hook_of e c with
     | Some h => se_mod (log_call (prv, cn, h, obj));; raise_all notify (react h obj)
     | None => mret tt
     end);;
    call_consumers notify e prv obj L
  end.

(** The three functions differ in the counter: it goes up before the hooks of an added object, and down behind those of a removed one. *)
Fixpoint notify (fuel : nat) (e : event) (prv obj : loc) : SE callbacks unit :=
  match fuel with
  | O => se_fail
  | S fuel =>
    x ← prv_rd prv;
    if in_use x then mret tt
    else
      prv_wr prv (set_in_use true);;
      (if bool_decide (e = AddObject) then prv_wr prv (fun x => set_obj_count (u32 (obj_count x + 1)) x) else mret tt);;
      call_consumers (notify fuel) e prv obj (prv_callbacks x);;
      (if bool_decide (e = RemoveObject) then prv_wr prv (fun x => set_obj_count (u32 (obj_count x - 1)) x) else mret tt);;
      prv_wr prv (set_in_use false)
  end.
Definition olsr_callback_add_object (fuel : nat) (prv obj : loc) : SE callbacks unit := notify fuel AddObject prv obj.
Definition olsr_callback_change_object (fuel : nat) (prv obj : loc) : SE callbacks unit := notify fuel ChangeObject prv obj.
Definition olsr_callback_remove_object (fuel : nat) (prv obj : loc) : SE callbacks unit := notify fuel RemoveObject prv obj.
End notify.

(** ** Delivery *)
Section delivery.
Context (react : Z -> loc -> list (event * loc * loc)).

(** All consumers of all providers exist, and hooks raise events of existing providers *)
Record cb_ok (s : callbacks) : Prop := {
  co_cons p x c : prvs s !! p = Some x -> c ∈ prv_callbacks x -> is_Some (conss s !! c);
  co_react h o t : t ∈ react h o -> is_Some (prvs s !! t.1.2)
}.

(** The registrations and flags stay as they are, and a provider in use keeps its counter *)
Record quiet (s s' : callbacks) : Prop := {
  qu_tree : provider_tree s' = provider_tree s;
  qu_cons : conss s' = conss s;
  qu_prv p x : prvs s !! p = Some x -> exists n, prvs s' !! p = Some (set_obj_count n x) /\ (in_use x = true -> n = obj_count x);
  qu_none p : prvs s !! p = None -> prvs s' !! p = None
}.

Lemma set_obj_count_id x : set_obj_count (obj_count x) x = x.
Proof. by destruct x. Qed.

#[local] Instance quiet_preorder : PreOrder quiet.
Proof.
  split.
  - intros s. split; try done. intros p x E. exists (obj_count x). by rewrite set_obj_count_id.
  - intros s1 s2 s3 [A1 A2 A3 A4] [B1 B2 B3 B4]. split; [congruence|congruence| |auto]. intros p x E. destruct (A3 p x E) as (n & E2 & H2). destruct (B3 _ _ E2) as (m & E3 & H3).
    exists m. split; [done|]. simpl in H3. intros U. rewrite H3, (H2 U); done.
Qed.

Lemma quiet_ok s s' : quiet s s' -> cb_ok s -> cb_ok s'.
Proof.
  intros [Q1 Q2 Q3 Q4] [C1 C2]. split.
  - intros p x' c E Hc. rewrite Q2. destruct (prvs s !! p) as [x|] eqn:Ep; [|rewrite (Q4 p Ep) in E; done]. destruct (Q3 p x Ep) as (n & E' & _). rewrite E in E'. injection E' as ->. eauto.
  - intros h o t Ht. destruct (C2 h o t Ht) as [x Hx]. destruct (Q3 _ _ Hx) as (n & -> & _). by eexists.
Qed.

Definition idle_at (s : callbacks) (p : loc) : bool := match prvs s !! p with Some x => negb (in_use x) | None => false end.
(** the number of providers in [P] that can still be entered *)
Definition idle (P : list loc) (s : callbacks) : nat := length (filter (fun p => idle_at s p = true) P).

Lemma quiet_idle_at s s' p : quiet s s' -> idle_at s' p = idle_at s p.
Proof. intros [_ _ Q3 Q4]. unfold idle_at. destruct (prvs s !! p) as [x|] eqn:E; [by destruct (Q3 p x E) as (n & -> & _)|by rewrite (Q4 p E)]. Qed.

Lemma quiet_idle P s s' : quiet s s' -> idle P s' = idle P s.
Proof. intros Q. unfold idle. f_equal. apply filter_ext_in. intros p _. by rewrite (quiet_idle_at _ _ _ Q). Qed.

Lemma filter_shrink {A} (f g : A -> bool) (l : list A) y : (forall x, g x = true -> f x = true) -> y ∈ l -> f y = true -> g y = false ->
  (length (filter (fun x => g x = true) l) < length (filter (fun x => f x = true) l))%nat.
Proof.
  intros Hfg Hy Fy Gy. assert (LE : forall k, (length (filter (fun x => g x = true) k) <= length (filter (fun x => f x = true) k))%nat).
  { induction k as [|x k IH]; [done|]. rewrite !filter_cons. specialize (Hfg x). do 2 case_decide; simpl; try lia. tauto. }
  induction l as [|x l IH]; [set_solver|]. apply elem_of_cons in Hy as [<-|Hy]; rewrite !filter_cons.
  - rewrite (decide_True (P := f y = true)), (decide_False (P := g y = true)) by congruence. simpl. specialize (LE l). lia.
  - specialize (IH Hy). specialize (Hfg x). do 2 case_decide; simpl; try lia. tauto.
Qed.

(** the calls that an event of [prv] must make *)
Definition deliveries (s : callbacks) (e : event) (prv obj : loc) (L : list loc) : list (loc * loc * Z * loc) :=
  omap (fun c => (fun h => (prv, c, h, obj)) <$> (conss s !! c ≫= hook_of e)) L.

(** [new] are the calls since [s], none of them by a provider that was in use *)
Record raised (s s' : callbacks) (new : list (loc * loc * Z * loc)) : Prop := {
  ra_quiet : quiet s s';
  ra_calls : calls s' = calls s ++ new;
  ra_fresh t : t ∈ new -> idle_at s t.1.1.1 = true
}.

Lemma raised_nil s : raised s s [].
Proof. split; [done|by rewrite app_nil_r|set_solver]. Qed.

Lemma raised_trans s1 s2 s3 n1 n2 : raised s1 s2 n1 -> raised s2 s3 n2 -> raised s1 s3 (n1 ++ n2).
Proof.
  intros [Q1 C1 F1] [Q2 C2 F2]. split; [by etrans|by rewrite C2, C1, app_assoc|]. intros t [Ht|Ht]%elem_of_app; [auto|]. rewrite <- (quiet_idle_at _ _ _ Q1). auto.
Qed.

(** one event of [prv] *)
Definition event_done (s : callbacks) (e : event) (p obj : loc) (x : olsr_callback_provider) (s' : callbacks) (new : list (loc * loc * Z * loc)) : Prop :=
  raised s s' new /\
  if in_use x then s' = s /\ new = []
  else filter (fun t => t.1.1.1 = p) new = deliveries s e p obj (prv_callbacks x) /\
    obj_count <$> prvs s' !! p = Some (match e with AddObject => u32 (obj_count x + 1) | RemoveObject => u32 (obj_count x - 1) | ChangeObject => obj_count x end).

Section loops.
Context (P : list loc) (fuel : nat).
Hypothesis IH : forall e p obj s x, cb_ok s -> prvs s !! p = Some x -> (forall q, is_Some (prvs s !! q) -> q ∈ P) -> (idle P s < fuel)%nat ->
  exists s' new, notify react fuel e p obj s = Some (s', tt) /\ event_done s e p obj x s' new.

Lemma raise_all_run L : forall s, cb_ok s -> (forall q, is_Some (prvs s !! q) -> q ∈ P) -> (idle P s < fuel)%nat -> (forall t, t ∈ L -> is_Some (prvs s !! t.1.2)) ->
  exists s' new, raise_all (notify react fuel) L s = Some (s', tt) /\ raised s s' new.
Proof.
  induction L as [|t L IL]; intros s O HP Hi HL; simpl; [by exists s, []; split; [|apply raised_nil]|].
  destruct (HL t ltac:(left)) as [x Hx]. destruct (IH t.1.1 t.1.2 t.2 s x O Hx HP Hi) as (s1 & n1 & R1 & D1 & _). rewrite (bind_run _ _ _ _ _ R1).
  pose proof (ra_quiet _ _ _ D1) as Q1. assert (St : forall q, is_Some (prvs s1 !! q) <-> is_Some (prvs s !! q)).
  { intros q. destruct Q1 as [_ _ Q3 Q4]. destruct (prvs s !! q) as [y|] eqn:E; [destruct (Q3 q y E) as (n & -> & _); split; by eexists|rewrite (Q4 q E); done]. }
  destruct (IL s1) as (s2 & n2 & R2 & D2); [by eapply quiet_ok|intros q Hq; by apply HP, St|by rewrite (quiet_idle P _ _ Q1)|intros u Hu; apply St, HL; by right|].
  exists s2, (n1 ++ n2). split; [done|]. by eapply raised_trans.
Qed.

Lemma call_consumers_run e prv obj L : forall s, cb_ok s -> (forall q, is_Some (prvs s !! q) -> q ∈ P) -> (idle P s < fuel)%nat -> (forall c, c ∈ L -> is_Some (conss s !! c)) -> idle_at s prv = false ->
  exists s' new, call_consumers react (notify react fuel) e prv obj L s = Some (s', tt) /\ quiet s s' /\ calls s' = calls s ++ new /\
    filter (fun t => t.1.1.1 = prv) new = deliveries s e prv obj L /\ (forall t, t ∈ new -> t.1.1.1 = prv \/ idle_at s t.1.1.1 = true).
Proof.
  induction L as [|c L IL]; intros s O HP Hi HL Hu; simpl; [exists s, []; split; [done|]; split; [done|]; split; [by rewrite app_nil_r|]; split; [done|set_solver]|].
  destruct (HL c ltac:(left)) as [y Hy]. rewrite (bind_run _ _ s s y) by (unfold cons_rd; by rewrite Hy). rewrite Hy. simpl.
  assert (exists s1 n1, (match hook_of e y with Some h => se_mod (log_call (prv, c, h, obj));; raise_all (notify react fuel) (react h obj) | None => mret tt end) s = Some (s1, tt) /\
    quiet s s1 /\ calls s1 = calls s ++ n1 /\ filter (fun t => t.1.1.1 = prv) n1 = from_option (fun h => [(prv, c, h, obj)]) [] (hook_of e y) /\
    (forall t, t ∈ n1 -> t.1.1.1 = prv \/ idle_at s t.1.1.1 = true)) as (s1 & n1 & R1 & Q1 & C1 & F1 & T1).
  { destruct (hook_of e y) as [h|]; simpl; [|exists s, []; split; [done|]; split; [done|]; split; [by rewrite app_nil_r|]; split; [done|set_solver]].
    set (s0 := log_call (prv, c, h, obj) s). assert (Q0 : quiet s s0) by (split; [done|done| |done]; intros p x Hx; exists (obj_count x); by rewrite set_obj_count_id).
    destruct (raise_all_run (react h obj) s0) as (s1 & n1 & R1 & [Q C F]); [by eapply quiet_ok|done|done|intros t Ht; by eapply (co_react _ O)|].
    exists s1, ((prv, c, h, obj) :: n1). split; [by rewrite (bind_run _ _ s s0 tt)|]. split; [by etrans|]. split; [by rewrite C; simpl; rewrite <- app_assoc|].
    rewrite filter_cons, decide_True by done. rewrite filter_none.
    2: { apply Forall_forall. intros t Ht E. specialize (F t Ht). rewrite E in F. change (idle_at s0 prv) with (idle_at s prv) in F. congruence. }
    split; [done|]. intros t [->|Ht]%elem_of_cons; [by left|right; exact (F t Ht)]. }
  rewrite (bind_run _ _ _ _ _ R1). assert (St : forall q, is_Some (prvs s1 !! q) -> is_Some (prvs s !! q)).
  { intros q. destruct Q1 as [_ _ _ Q4]. destruct (prvs s !! q) as [z|] eqn:E; [by eexists|by rewrite (Q4 q E)]. }
  destruct (IL s1) as (s2 & n2 & R2 & Q2 & C2 & F2 & T2); [by eapply quiet_ok|auto|by rewrite (quiet_idle P _ _ Q1)|intros d Hd; rewrite (qu_cons _ _ Q1); apply HL; by right|by rewrite (quiet_idle_at _ _ _ Q1)|].
  exists s2, (n1 ++ n2). split; [done|]. split; [by etrans|]. split; [by rewrite C2, C1, app_assoc|]. split.
  - rewrite filter_app, F1, F2. unfold deliveries. simpl. rewrite (qu_cons _ _ Q1). simpl. by destruct (hook_of e y).
  - intros t [Ht|Ht]%elem_of_app; [auto|]. rewrite <- (quiet_idle_at _ _ _ Q1). auto.
Qed.
End loops.

Lemma prv_wr_run p x g s : prvs s !! p = Some x -> prv_wr p g s = Some (with_prvs (<[p := g x]> (prvs s)) s, tt).
Proof. intros E. unfold prv_wr. by rewrite E. Qed.

(** entering and leaving a provider *)
Definition counted (e f : event) (n : Z) (x : olsr_callback_provider) : Z := if bool_decide (e = f) then u32 (obj_count x + n) else obj_count x.

Lemma enter_run e f n p x b s : prvs s !! p = Some x ->
  (prv_wr p (set_in_use b);; (if bool_decide (e = f) then prv_wr p (fun x => set_obj_count (u32 (obj_count x + n)) x) else mret tt)) s =
  Some (with_prvs (<[p := set_obj_count (counted e f n x) (set_in_use b x)]> (prvs s)) s, tt).
Proof.
  intros E. rewrite (bind_run _ _ _ _ _ (prv_wr_run p x _ s E)). unfold counted. case_bool_decide.
  - rewrite (prv_wr_run p (set_in_use b x)) by (simpl; apply lookup_insert_eq). simpl. unfold with_prvs. simpl. by rewrite insert_insert_eq.
  - by destruct x.
Qed.

Lemma leave_run e f n p x b s : prvs s !! p = Some x ->
  ((if bool_decide (e = f) then prv_wr p (fun x => set_obj_count (u32 (obj_count x - n)) x) else mret tt);; prv_wr p (set_in_use b)) s =
  Some (with_prvs (<[p := set_obj_count (counted e f (- n) x) (set_in_use b x)]> (prvs s)) s, tt).
Proof.
  intros E. unfold counted. case_bool_decide.
  - rewrite (bind_run _ _ _ _ _ (prv_wr_run p x _ s E)). rewrite (prv_wr_run p (set_obj_count (u32 (obj_count x - n)) x)) by (simpl; apply lookup_insert_eq). simpl. unfold with_prvs. simpl. by rewrite insert_insert_eq.
  - rewrite (bind_run _ _ s s tt) by done. rewrite (prv_wr_run p x) by done. by destruct x.
Qed.

Lemma notify_run P fuel : forall e p obj s x, cb_ok s -> prvs s !! p = Some x -> (forall q, is_Some (prvs s !! q) -> q ∈ P) -> (idle P s < fuel)%nat ->
  exists s' new, notify react fuel e p obj s = Some (s', tt) /\ event_done s e p obj x s' new.
Proof.
  induction fuel as [|fuel IH]; intros e p obj s x O Hx HP Hi; [lia|]. cbn [notify]. rewrite (bind_run _ _ s s x) by (unfold prv_rd; by rewrite Hx).
  unfold event_done. destruct (in_use x) eqn:U; [exists s, []; split; [done|]; split; [apply raised_nil|done]|].
  set (x1 := set_obj_count (counted e AddObject 1 x) (set_in_use true x)). set (s1 := with_prvs (<[p := x1]> (prvs s)) s).
  assert (Ia : idle_at s p = true) by (unfold idle_at; by rewrite Hx, U). assert (Ib : idle_at s1 p = false) by (unfold idle_at; simpl; by rewrite lookup_insert_eq).
  assert (Ne : forall q, q <> p -> prvs s1 !! q = prvs s !! q) by (intros q Hq; simpl; by rewrite lookup_insert_ne).
  assert (St : forall q, is_Some (prvs s1 !! q) -> is_Some (prvs s !! q)) by (intros q; destruct (decide (q = p)) as [->|Hq]; [rewrite Hx; by eexists|by rewrite Ne]).
  assert (O1 : cb_ok s1).
  { destruct O as [O1 O2]. split.
    - intros q y c. destruct (decide (q = p)) as [->|Hq]; [simpl; rewrite lookup_insert_eq; intros [= <-]; simpl; by apply (O1 p)|rewrite Ne by done; apply O1].
    - intros h o t Ht. destruct (decide (t.1.2 = p)) as [->|Hq]; [simpl; rewrite lookup_insert_eq; by eexists|rewrite Ne by done; by eapply O2]. }
  assert (Hi1 : (idle P s1 < fuel)%nat).
  { enough (idle P s1 < idle P s)%nat by lia. apply (filter_shrink (idle_at s) (idle_at s1) P p); [|apply HP; rewrite Hx; by eexists|done|done].
    intros q. destruct (decide (q = p)) as [->|Hq]; [by rewrite Ib|unfold idle_at; by rewrite Ne]. }
  destruct (call_consumers_run P fuel IH e p obj (prv_callbacks x) s1) as (s2 & new & R2 & Q2 & C2 & F2 & T2); [done|auto|done|intros c Hc; by apply (co_cons _ O p x)|done|].
  destruct (qu_prv _ _ Q2 p x1) as (n & E2 & Hn); [simpl; apply lookup_insert_eq|]. rewrite (Hn eq_refl), set_obj_count_id in E2.
  exists (with_prvs (<[p := set_obj_count (counted e RemoveObject (- 1) x1) (set_in_use false x1)]> (prvs s2)) s2), new.
  split; [|split; [split|split]].
  - pose proof (enter_run e AddObject 1 p x true s Hx) as R1. pose proof (leave_run e RemoveObject 1 p x1 false s2 E2) as R3. unfold mbind, se_bind in *. 
    destruct (prv_wr p (set_in_use true) s) as [[s0 []]|]; [|done]. rewrite R1. fold x1. fold s1. rewrite R2. exact R3.
  - destruct Q2 as [A1 A2 A3 A4]. split; simpl; [done|done| |].
    + intros q y Hy. destruct (decide (q = p)) as [->|Hq].
      * rewrite lookup_insert_eq. rewrite Hx in Hy. injection Hy as <-. eexists. split; [|congruence]. unfold x1. destruct x; simpl in *. by rewrite U.
      * rewrite lookup_insert_ne by done. apply A3. simpl. by rewrite lookup_insert_ne.
    + intros q Hq. destruct (decide (q = p)) as [->|Hqp]; [congruence|]. rewrite lookup_insert_ne by done. apply A4. simpl. by rewrite lookup_insert_ne.
  - done.
  - intros t Ht. destruct (T2 t Ht) as [->|H]; [done|]. destruct (decide (t.1.1.1 = p)) as [E|Hq]; [rewrite E in H; congruence|]. unfold idle_at in *. by rewrite Ne in H.
  - exact F2.
  - simpl. rewrite lookup_insert_eq. simpl. f_equal. by destruct e.
Qed.

(** C28: The guard against recursion makes events end. However the hooks raise further events, with fuel for one more level
    than there are providers the event returns; each consumer that has a hook for it was called exactly once, in the order of
    registration, with the object, and no hook of this provider was called for any other event meanwhile. The registrations
    stay as they were, no provider is left in use that was not, and the counter follows the event. *)
Theorem events_end fuel e p obj s x : cb_ok s -> prvs s !! p = Some x -> in_use x = false -> (size (prvs s) < fuel)%nat ->
  exists s' new, notify react fuel e p obj s = Some (s', tt) /\ quiet s s' /\ calls s' = calls s ++ new /\
    filter (fun t => t.1.1.1 = p) new = deliveries s e p obj (prv_callbacks x) /\
    obj_count <$> prvs s' !! p = Some (match e with AddObject => u32 (obj_count x + 1) | RemoveObject => u32 (obj_count x - 1) | ChangeObject => obj_count x end).
Proof.
  intros O Hx U Hf. destruct (notify_run (map_to_list (prvs s)).*1 fuel e p obj s x O Hx) as (s' & new & R & D & E).
  - intros q [y Hy]. apply list_elem_of_fmap. exists (q, y). split; [done|by apply elem_of_map_to_list].
  - unfold idle. eapply Nat.le_lt_trans; [|exact Hf]. rewrite <- length_map_to_list, <- (length_fmap fst). apply length_filter.
  - rewrite U in E. exists s', new. split; [done|]. split; [by destruct D|]. split; [by destruct D|done].
Qed.
End delivery.

(** ** Example: two providers whose hooks raise events of each other *)
Definition cb_react (h : Z) (o : loc) : list (event * loc * loc) := if h =? 5 then [(AddObject, 2%positive, o)] else if h =? 6 then [(AddObject, 1%positive, o); (RemoveObject, 2%positive, o)] else [].
Definition cb_memory : callbacks :=
  mkCb [] {[ 1%positive := mkPrv None [] 7 true; 2%positive := mkPrv None [] 7 true ]} {[ 10%positive := mkCons None None false None None None; 11%positive := mkCons None None false None None None ]} [].
Definition cb_setup : SE callbacks unit :=
  olsr_callback_init;; olsr_callback_prv_create 1 "links"%string;; olsr_callback_prv_create 2 "Nodes"%string;;
  olsr_callback_cons_register "LINKS"%string "first"%string 10;; olsr_callback_cons_register "nodes"%string "second"%string 11;;
  cons_wr 10 (fun c => mkCons (cons_provider c) (cons_name c) (cons_linked c) (Some 5) None None);;
  cons_wr 11 (fun c => mkCons (cons_provider c) (cons_name c) (cons_linked c) (Some 6) None None).
Definition cb_demo : callbacks := se_state cb_setup cb_memory.

Lemma cb_demo_prvs : prvs cb_demo = {[ 1%positive := mkPrv (Some "links"%string) [10%positive] 0 false; 2%positive := mkPrv (Some "Nodes"%string) [11%positive] 0 false ]}.
Proof. vm_compute. reflexivity. Qed.

Lemma cb_demo_ok : cb_ok cb_react cb_demo.
Proof.
  split.
  - intros p x c. rewrite cb_demo_prvs. intros Hp Hc. map_cases Hp; simpl in Hc; apply list_elem_of_singleton in Hc as ->; vm_compute; by eexists.
  - intros h o t. rewrite cb_demo_prvs. unfold cb_react. repeat case_match; rewrite ?elem_of_cons, ?elem_of_nil; intros Ht; destruct_or? Ht; subst; try done; by eexists.
Qed.

Lemma events_end_witness : exists s' new, notify cb_react 3 AddObject 1 9 cb_demo = Some (s', tt) /\ quiet cb_demo s' /\ calls s' = calls cb_demo ++ new /\
  filter (fun t => t.1.1.1 = 1%positive) new = [(1%positive, 10%positive, 5, 9%positive)] /\ calls s' = [(1%positive, 10%positive, 5, 9%positive); (2%positive, 11%positive, 6, 9%positive)].
Proof.
  destruct (events_end cb_react 3 AddObject 1 9 cb_demo (mkPrv (Some "links"%string) [10%positive] 0 false) cb_demo_ok) as (s' & new & R & Q & C & F & _).
  - rewrite cb_demo_prvs. by vm_compute.
  - reflexivity.
  - rewrite cb_demo_prvs. vm_compute. lia.
  - exists s', new. split; [exact R|]. split; [exact Q|]. split; [exact C|]. split; [rewrite F; by vm_compute|]. rewrite (se_state_eq _ _ _ _ R). by vm_compute.
Defined.
