(* ===== verification/LqEtxFpm.v ===== *)
(** * The fixed-point ETX plugin ([lib/lq_etx_fpm]) and the judgement of link qualities ([lq_plugin.c])

    The plugin keeps an exponential moving average of the HELLOs of a link: every HELLO and every missed HELLO ages
    the quality by the same factor. *)
From S2P Require Import Prelude Types Clock Packet Lsdb LqHandler Strings.

Definition LQ_FPM_INTERNAL_MULTIPLIER : Z := 65535.
Definition LQ_FPM_LINKCOST_MULTIPLIER : Z := 65535.
Definition LQ_FPM_DEFAULT_AGING : Z := 3276.
Definition LQ_FPM_QUICKSTART_AGING : Z := 16384.
Definition LQ_QUICKSTART_STEPS : Z := 12.

Record lq_etxfpm_linkquality := mkFpm { fpm_valueLq : Z; fpm_valueNlq : Z }.
Record lq_etxfpm_link_entry := mkFpmLink { fpm_lq : lq_etxfpm_linkquality; quickstart : Z }.

(** [(unsigned int)(255 * MINIMAL_USEFUL_LQ)] *)
Definition FPM_MINIMAL : Z := 25.

(** The products are of type [int]. *)
Definition lq_etxfpm_calc_linkcost (lq : lq_etxfpm_linkquality) : Z :=
  if (fpm_valueLq lq <? FPM_MINIMAL) || (fpm_valueNlq lq <? FPM_MINIMAL) then LINK_COST_BROKEN
  else
    let cost := u32 (s32 (s32 (LQ_FPM_LINKCOST_MULTIPLIER * 255) ÷ fpm_valueLq lq * 255) ÷ fpm_valueNlq lq) in
    if cost >? LINK_COST_BROKEN then LINK_COST_BROKEN else if cost =? 0 then 1 else cost.

(** The new quality and cost after a HELLO or a loss, for the current aging factors and the multiplier of the link; the report to the neighbour
    is made by the caller. *)
Definition fpm_age (alpha_new alpha_old mult : Z) (loss : bool) (v : Z) : Z :=
  let value := u32 (v * LQ_FPM_INTERNAL_MULTIPLIER) / 255 in
  let value := u32 (u32 (value * alpha_old) + LQ_FPM_INTERNAL_MULTIPLIER - 1) / LQ_FPM_INTERNAL_MULTIPLIER in
  let value := if loss then value else u32 (value + u32 (u32 (alpha_new * mult) + 65536 - 1) / 65536) in
  u8 (u32 (u32 (value * 255) + LQ_FPM_INTERNAL_MULTIPLIER - 1) / LQ_FPM_INTERNAL_MULTIPLIER).

Definition lq_etxfpm_hello_handler (aging_factor_new aging_factor_old mult : Z) (loss : bool) (l : lq_etxfpm_link_entry * Z) : lq_etxfpm_link_entry * Z :=
  let starting := quickstart l.1 <? LQ_QUICKSTART_STEPS in
  let alpha_new := if starting then LQ_FPM_QUICKSTART_AGING else aging_factor_new in
  let alpha_old := if starting then LQ_FPM_INTERNAL_MULTIPLIER - LQ_FPM_QUICKSTART_AGING else aging_factor_old in
  let q := if starting then u16 (quickstart l.1 + 1) else quickstart l.1 in
  let lq := mkFpm (fpm_age alpha_new alpha_old mult loss (fpm_valueLq (fpm_lq l.1))) (fpm_valueNlq (fpm_lq l.1)) in
  (mkFpmLink lq q, lq_etxfpm_calc_linkcost lq).

Definition lq_etxfpm_memorize_foreign_hello (source : option lq_etxfpm_linkquality) (l : lq_etxfpm_link_entry) : lq_etxfpm_link_entry :=
  mkFpmLink (mkFpm (fpm_valueLq (fpm_lq l)) (match source with Some s => fpm_valueLq s | None => 0 end)) (quickstart l).

Definition lq_etxfpm_serialize (lq : lq_etxfpm_linkquality) : WR unit :=
  pkt_put_u8 (fpm_valueLq lq);; pkt_put_u8 (fpm_valueNlq lq);; pkt_put_u8 0;; pkt_put_u8 0.
Definition lq_etxfpm_deserialize (old : lq_etxfpm_linkquality) : RD lq_etxfpm_linkquality :=
  a ← pkt_get_u8; b ← pkt_get_u8; pkt_ignore_u16;; mret (mkFpm a b).

(** ** The plugin parameter *)
Definition ULONG_MAX : Z := 2 ^ 64 - 1.

Fixpoint digits (s : list Z) (n : Z) : Z :=
  match s with
  | c :: s => if (48 <=? c) && (c <=? 57) then digits s (10 * n + (c - 48)) else n
  | [] => n
  end.
(** [strtoul(s, NULL, 10)]: white space, a sign and digits; numbers that do not fit become [ULONG_MAX] *)
Definition strtoul (s : list Z) : Z :=
  match ltrim s with
  | 45 :: s => if digits s 0 >? ULONG_MAX then ULONG_MAX else wrapu 64 (- digits s 0)
  | 43 :: s => Z.min (digits s 0) ULONG_MAX
  | s => Z.min (digits s 0) ULONG_MAX
  end.

Fixpoint four_digits (fuel : nat) (aging : Z) : Z :=
  match fuel with
  | O => aging
  | S fuel => if 10000 <=? aging then four_digits fuel (aging / 10) else aging
  end.
Fixpoint scale_down (fuel : nat) (aging factor : Z) : Z :=
  match fuel with
  | O => factor
  | S fuel => if 0 <? aging then scale_down fuel (aging / 10) (factor / 10) else factor
  end.

(** the aging factor for a text, [None] for a text that does not start with [0.]; ten rounds are enough for 32 bits *)
Definition set_plugin_aging (value : list Z) : option Z :=
  match value with
  | 48 :: 46 :: rest =>
    let aging := four_digits 10 (u32 (strtoul rest)) in
    Some (scale_down 10 aging (u32 (aging * LQ_FPM_INTERNAL_MULTIPLIER)))
  | _ => None
  end.

(** ** [olsr_get_linkdata_quality] *)
Record lq_linkdata_type := mkLinkdata { ld_best : Z; ld_good : Z; ld_average : Z; ld_worst : Z }.
Inductive lq_linkdata_quality := LQ_QUALITY_BEST | LQ_QUALITY_GOOD | LQ_QUALITY_AVERAGE | LQ_QUALITY_BAD | LQ_QUALITY_WORST.

Definition olsr_get_linkdata_quality (t : lq_linkdata_type) (value : Z) : lq_linkdata_quality :=
  if value =? ld_best t then LQ_QUALITY_BEST
  else if value =? ld_worst t then LQ_QUALITY_WORST
  else if ld_best t <? ld_worst t then
    if value >? ld_good t then LQ_QUALITY_GOOD else if value >? ld_average t then LQ_QUALITY_AVERAGE else LQ_QUALITY_BAD
  else
    if value <? ld_good t then LQ_QUALITY_GOOD else if value <? ld_average t then LQ_QUALITY_AVERAGE else LQ_QUALITY_BAD.

(** the qualities of a direction in both ETX plugins *)
Definition lq_etxfpm_linktype : lq_linkdata_type := mkLinkdata 255 240 192 0.

(** The comparisons are the wrong way round: 250 of 255 is bad, 1 of 255 is good. *)
Lemma quality_inverted v : 0 < v < 240 -> olsr_get_linkdata_quality lq_etxfpm_linktype v = LQ_QUALITY_GOOD /\
  olsr_get_linkdata_quality lq_etxfpm_linktype 250 = LQ_QUALITY_BAD.
Proof.
  intros H. split; [|done]. unfold olsr_get_linkdata_quality. cbn. destruct (Z.eqb_spec v 255); [lia|]. destruct (Z.eqb_spec v 0); [lia|]. destruct (Z.ltb_spec v 240); [done|lia].
Qed.

(** ** Aging *)
Definition ceil_div (a b : Z) : Z := (a + b - 1) / b.

Lemma ceil_bounds a b : 0 < b -> b * (ceil_div a b - 1) < a <= b * ceil_div a b.
Proof. intros Hb. unfold ceil_div. Z.div_mod_to_equations. nia. Qed.
Lemma ceil_le a b c : 0 < b -> a <= b * c -> ceil_div a b <= c.
Proof. intros Hb H. pose proof (ceil_bounds a b Hb). nia. Qed.
Lemma ceil_ge a b c : 0 < b -> b * (c - 1) < a -> c <= ceil_div a b.
Proof. intros Hb H. pose proof (ceil_bounds a b Hb). nia. Qed.

(** the share that the old quality keeps, in units of 1/65535 *)
Definition kept_share (old v : Z) : Z := ceil_div (257 * v * old) 65535.
Definition gained (new mult : Z) : Z := ceil_div (new * mult) 65536.

Record aging_ok (new old mult : Z) : Prop := {
  ag_new : 0 <= new;
  ag_sum : new + old = 65535;
  ag_old : 0 <= old;
  ag_mult : 0 <= mult <= 65536
}.

Lemma kept_bounds new old mult v : aging_ok new old mult -> 0 <= v <= 255 -> 0 <= kept_share old v <= old /\ kept_share old v <= 257 * v /\ 257 * v - new <= kept_share old v.
Proof.
  intros [H1 H2 H3 H4] Hv. unfold kept_share. pose proof (ceil_bounds (257 * v * old) 65535 ltac:(lia)) as B. split; [split|split].
  - apply ceil_ge; nia.
  - apply ceil_le; nia.
  - apply ceil_le; nia.
  - apply ceil_ge; [lia|]. nia.
Qed.

Lemma gained_bounds new old mult : aging_ok new old mult -> 0 <= gained new mult <= new.
Proof. intros [H1 H2 H3 H4]. split; [apply ceil_ge|apply ceil_le]; nia. Qed.

Lemma fpm_age_value new old mult loss v : aging_ok new old mult -> 0 <= v <= 255 ->
  fpm_age new old mult loss v = ceil_div (kept_share old v + (if loss then 0 else gained new mult)) 257 /\ 0 <= fpm_age new old mult loss v <= 255.
Proof.
  intros A Hv. destruct (kept_bounds _ _ _ v A Hv) as (K1 & K2 & K3). pose proof (gained_bounds _ _ _ A) as G. destruct A as [A1 A2 A3 A4].
  unfold fpm_age, LQ_FPM_INTERNAL_MULTIPLIER. rewrite (wrapu_id 32 (v * 65535)) by (unfold is_u; lia). replace (v * 65535 / 255) with (257 * v) by (replace (v * 65535) with (257 * v * 255) by lia; by rewrite Z.div_mul).
  rewrite (wrapu_id 32 (257 * v * old)) by (unfold is_u; nia). rewrite (wrapu_id 32 (257 * v * old + 65535 - 1)) by (unfold is_u; nia). fold (ceil_div (257 * v * old) 65535). fold (kept_share old v).
  rewrite (wrapu_id 32 (new * mult)) by (unfold is_u; nia). rewrite (wrapu_id 32 (new * mult + 65536 - 1)) by (unfold is_u; nia). fold (ceil_div (new * mult) 65536). fold (gained new mult).
  rewrite (wrapu_id 32 (kept_share old v + gained new mult)) by (unfold is_u; lia).
  set (x := if loss then kept_share old v else kept_share old v + gained new mult).
  assert (Hx : 0 <= x <= 65535) by (unfold x; destruct loss; lia). replace (kept_share old v + (if loss then 0 else gained new mult)) with x by (unfold x; destruct loss; lia).
  rewrite (wrapu_id 32 (x * 255)) by (unfold is_u; lia). rewrite (wrapu_id 32 (x * 255 + 65535 - 1)) by (unfold is_u; lia). fold (ceil_div (x * 255) 65535).
  assert (E : ceil_div (x * 255) 65535 = ceil_div x 257) by (unfold ceil_div; mlia). rewrite E.
  assert (0 <= ceil_div x 257 <= 255) by (split; [apply ceil_ge|apply ceil_le]; lia). rewrite wrapu_id by (unfold is_u; lia). done.
Qed.

(** C33: The moving average of the fixed-point ETX plugin never overflows 32 bits and stays a byte, for aging factors that add
    up to one and any multiplier of at most one. A HELLO over a link without a configured multiplier never lowers the quality, and a loss never raises it.
    But all divisions round up: a loss leaves every quality [v] with [v * aging < 1] as it is, and only these. With an aging of 0.01
    a link over which nothing arrives any more stays at 100 of 255 and keeps being used. *)
Theorem fpm_age_correct new old mult v : aging_ok new old mult -> 0 <= v <= 255 ->
  0 <= fpm_age new old mult true v <= v /\ 0 <= fpm_age new old mult false v <= 255 /\
  v <= fpm_age new old 65536 false v /\ (fpm_age new old mult true v = v <-> v * new < 65535 \/ v = 0) /\
  (new = 655 -> v = 100 -> lq_etxfpm_calc_linkcost (mkFpm (fpm_age new old mult true v) 255) < LINK_COST_BROKEN).
Proof.
  intros A Hv. destruct (kept_bounds _ _ _ v A Hv) as (K1 & K2 & K3). destruct (fpm_age_value _ _ _ true v A Hv) as [El Rl]. destruct (fpm_age_value _ _ _ false v A Hv) as [_ Rh].
  assert (A' : aging_ok new old 65536) by (destruct A; split; lia). destruct (fpm_age_value _ _ _ false v A' Hv) as [Eg _].
  rewrite Z.add_0_r in El. assert (Hl : fpm_age new old mult true v <= v) by (rewrite El; apply ceil_le; lia).
  assert (Eq : fpm_age new old mult true v = v <-> v * new < 65535 \/ v = 0).
  { destruct A as [A1 A2 A3 A4]. rewrite El in *. pose proof (ceil_bounds (kept_share old v) 257 ltac:(lia)) as B. pose proof (ceil_bounds (257 * v * old) 65535 ltac:(lia)) as B'. fold (kept_share old v) in B'.
    replace old with (65535 - new) in * by lia. split.
    - intros E. destruct (Z.eq_dec v 0); [by right|left]. rewrite E in B. assert (257 * (v - 1) < kept_share (65535 - new) v) by lia. nia.
    - intros [H| ->]; [|lia]. enough (v <= ceil_div (kept_share (65535 - new) v) 257) by lia. apply ceil_ge; [lia|]. nia. }
  split; [lia|]. split; [done|]. split; [|split; [done|]].
  - rewrite Eg. apply ceil_ge; [lia|]. assert (gained new 65536 = new) as -> by (unfold gained, ceil_div; mlia). destruct A. lia.
  - intros -> ->. rewrite (proj2 Eq) by lia. by vm_compute.
Qed.

Lemma fpm_age_correct_witness : fpm_age 655 64880 65536 true 100 = 100 /\ 100 <= fpm_age 655 64880 65536 false 100 /\ fpm_age 3276 62259 65536 true 100 <= 100.
Proof.
  destruct (fpm_age_correct 655 64880 65536 100) as (_ & _ & H1 & H2 & _); [split; lia|lia|].
  destruct (fpm_age_correct 3276 62259 65536 100) as ((_ & H3) & _); [split; lia|lia|]. split; [apply H2; lia|]. split; [exact H1|exact H3].
Defined.

(** ** Reading the aging factor *)
Lemma four_digits_stop fuel : forall n, 0 <= n -> n < 10000 * 10 ^ Z.of_nat fuel -> 0 <= four_digits fuel n < 10000.
Proof.
  induction fuel as [|fuel IH]; intros n H1 H2; [rewrite Z.mul_1_r in H2; by split|]. simpl. destruct (Z.leb_spec 10000 n); [|lia].
  rewrite Nat2Z.inj_succ, Z.pow_succ_r in H2 by lia. apply IH; [apply Z.div_pos; lia|apply Z.div_lt_upper_bound; lia].
Qed.

Lemma strtoul_range s : is_u 64 (strtoul s).
Proof.
  assert (D : forall s n, 0 <= n -> 0 <= digits s n).
  { clear. induction s as [|c s IH]; intros n Hn; simpl; [done|]. destruct (Z.leb_spec 48 c); simpl; [|done]. destruct (c <=? 57); [|done]. apply IH. lia. }
  assert (W : forall x, is_u 64 (wrapu 64 x)) by (intros; apply wrapu_range; lia).
  assert (Mn : forall s, is_u 64 (Z.min (digits s 0) ULONG_MAX)) by (intros s'; pose proof (D s' 0); unfold is_u, ULONG_MAX; lia).
  unfold strtoul. repeat case_match; try apply Mn; try apply W. unfold is_u, ULONG_MAX. lia.
Qed.

Lemma strtoul_zero c s : 48 <= c <= 57 -> strtoul (48 :: c :: s) = strtoul (c :: s).
Proof.
  intros H. assert (Hs : isspace c = false) by (unfold isspace; case_cmp; simpl; try lia; done). unfold strtoul. simpl ltrim. rewrite Hs.
  assert (E : digits (48 :: c :: s) 0 = digits (c :: s) 0) by done.
  assert (c = 48 \/ c = 49 \/ c = 50 \/ c = 51 \/ c = 52 \/ c = 53 \/ c = 54 \/ c = 55 \/ c = 56 \/ c = 57) as Hc by lia. destruct_or! Hc; subst c; by rewrite E.
Qed.

(** A zero behind the decimal point of the aging parameter is lost: [0.0]... is read as [0.]..., so that 0.05, the default, configures an aging of 0.5. The
    loops end for every text: at most four digits are left, and the factor is below 1. *)
Theorem aging_zero_lost c s : 48 <= c <= 57 ->
  set_plugin_aging (48 :: 46 :: 48 :: c :: s) = set_plugin_aging (48 :: 46 :: c :: s) /\
  0 <= four_digits 10 (u32 (strtoul (c :: s))) < 10000 /\
  set_plugin_aging [48; 46; 48; 53] = Some 32767.
Proof.
  intros H. split; [|split; [|done]].
  - unfold set_plugin_aging. by rewrite strtoul_zero.
  - pose proof (wrapu_range 32 (strtoul (c :: s)) ltac:(lia)) as R. unfold is_u in R. apply four_digits_stop; lia.
Qed.

Lemma aging_zero_lost_witness : set_plugin_aging [48; 46; 48; 49; 50] = set_plugin_aging [48; 46; 49; 50] /\ set_plugin_aging [48; 46; 49; 50] = Some 7864.
Proof. destruct (aging_zero_lost 49 [50]) as (E & _); [lia|]. split; [exact E|by vm_compute]. Defined.

(** ** The handler *)
Definition fpm_ok (lq : lq_etxfpm_linkquality) : Prop := is_u 8 (fpm_valueLq lq) /\ is_u 8 (fpm_valueNlq lq).
Definition fpm_bytes (lq : lq_etxfpm_linkquality) : list Z := to_le 1 (fpm_valueLq lq) ++ to_le 1 (fpm_valueNlq lq) ++ to_le 1 0 ++ to_le 1 0.

Lemma fpm_cost_range lq : 0 < lq_etxfpm_calc_linkcost lq <= LINK_COST_BROKEN.
Proof.
  unfold lq_etxfpm_calc_linkcost, LINK_COST_BROKEN. case_match; [lia|]. destruct (Z.gtb_spec (u32 (s32 (s32 (LQ_FPM_LINKCOST_MULTIPLIER * 255) ÷ fpm_valueLq lq * 255) ÷ fpm_valueNlq lq)) 16777215); [lia|].
  pose proof (wrapu_range 32 (s32 (s32 (LQ_FPM_LINKCOST_MULTIPLIER * 255) ÷ fpm_valueLq lq * 255) ÷ fpm_valueNlq lq) ltac:(lia)) as [R _].
  destruct (Z.eqb_spec (u32 (s32 (s32 (LQ_FPM_LINKCOST_MULTIPLIER * 255) ÷ fpm_valueLq lq * 255) ÷ fpm_valueNlq lq)) 0); lia.
Qed.

#[refine, local] Instance lq_etxfpm_handler : LqHandler := {|
  lq_data := lq_etxfpm_linkquality; lq_ok := fpm_ok; lq_zero := mkFpm 0 0; lq_size := 4;
  serialize_lq := lq_etxfpm_serialize; deserialize_lq := lq_etxfpm_deserialize; calc_cost := lq_etxfpm_calc_linkcost;
  messageid_hello := 201; messageid_tc := 202; lq_bytes := fpm_bytes |}.
Proof.
  - intros d. by vm_compute.
  - intros d. unfold lq_etxfpm_serialize, fpm_bytes. do 3 (apply (writes_then _ _ _ _ (fun _ => tt)); [apply writes_store|]). apply writes_store.
  - intros d d0 r [Ha Hb]. unfold lq_etxfpm_deserialize, fpm_bytes. rewrite <- !app_assoc.
    erewrite bind_run by (by apply get_put_fields). erewrite bind_run by (by apply get_put_fields).
    unfold pkt_ignore_u16, pkt_ignore. rewrite (app_assoc (to_le 1 0)). erewrite bind2_run by (by apply pkt_bytes_run). by destruct d.
  - intros d0 r Hl. destruct r as [|b0 [|b1 [|b2 [|b3 r]]]]; simpl in Hl; try lia. eexists. reflexivity.
  - intros d0 r Hl. destruct r as [|b0 [|b1 [|b2 [|b3 r]]]]; simpl in Hl; try lia; reflexivity.
  - intros d _. apply fpm_cost_range.
Defined.
