(* ===== verification/Bmf.v ===== *)
(** * Recognising multicast packets ([lib/bmf/src/PacketHistory.c], [lib/bmf/src/Packet.c])

    The multicast plugin floods IP packets through the network. It recognises a packet that it has seen by a checksum
    over its first bytes, with the fields left out that change on the way, in a hash table of chained entries. A packet is
    the list of its bytes; reading or writing outside of it is [None]. *)
From S2P Require Import Prelude Types Clock Strings.

(** ** [Packet.c] *)
Definition byte_at (i : nat) (p : list Z) : option Z := p !! i.
(** [ntohs] of the field at [i] *)
Definition be16_at (i : nat) (p : list Z) : option Z := a ← p !! i; b ← p !! (i + 1)%nat; Some (256 * a + b).
Definition put_byte (i : nat) (v : Z) (p : list Z) : option (list Z) := write i [v] p.
(** the field at [i] becomes [htons(v)] *)
Definition put_be16 (i : nat) (v : Z) (p : list Z) : option (list Z) := write i [u16 v / 256; u16 v mod 256] p.

(** [IP_OFFMASK] *)
Definition IP_OFFMASK : Z := 8191.
Definition ENCAP_HDR_LEN : nat := 8.

Definition IsIpFragment (p : list Z) : option bool := off ← be16_at 6 p; Some (negb (Z.land off IP_OFFMASK =? 0)).
Definition GetIpTotalLength (p : list Z) : option Z := be16_at 2 p.
Definition GetIpHeaderLength (p : list Z) : option Z := b ← byte_at 0 p; Some (Z.shiftl (Z.land b 15) 2).
Definition GetTtl (p : list Z) : option Z := byte_at 8 p.
Definition GetIpPacket (data : list Z) : list Z := drop ENCAP_HDR_LEN data.
Definition GetEncapsulationUdpDataLength (data : list Z) : option Z := n ← GetIpTotalLength (GetIpPacket data); Some (u16 (n + Z.of_nat ENCAP_HDR_LEN)).

Definition SaveTtlAndChecksum (p : list Z) : option (Z * Z) := t ← byte_at 8 p; c ← be16_at 10 p; Some (t, c).
Definition RestoreTtlAndChecksum (p : list Z) (sttl : Z * Z) : option (list Z) := p ← put_byte 8 sttl.1 p; put_be16 10 sttl.2 p.

Definition DecreaseTtlAndUpdateHeaderChecksum (p : list Z) : option (list Z) :=
  t ← byte_at 8 p;
  p ← put_byte 8 (u8 (t - 1)) p;
  c ← be16_at 10 p;
  let sum := c + 256 in
  put_be16 10 (u32 (sum + Z.shiftr sum 16)) p.

(** ** The checksum *)
Definition CRC_UPTO_NBYTES : nat := 256.
Definition CRC32_POLYNOMIAL : Z := 3988292384.

(** one round of the inner loop *)
Definition crc_bit (crc : Z) : Z := if Z.odd crc then Z.lxor (Z.shiftr crc 1) CRC32_POLYNOMIAL else Z.shiftr crc 1.
Definition CrcTable (i : nat) : Z := Nat.iter 8 crc_bit (Z.of_nat i).
Definition GenerateCrc32Table : list Z := CrcTable <$> seq 0 256.

(** one round of [CalcCrc32]; an index outside of the table has no result *)
Definition crc_byte (table : list Z) (crc b : Z) : option Z :=
  t ← table !! Z.to_nat (Z.lxor (Z.land crc 255) b); Some (Z.lxor (Z.shiftr crc 8) t).
Fixpoint crc_bytes (table : list Z) (bs : list Z) (crc : Z) : option Z :=
  match bs with
  | [] => Some crc
  | b :: bs => c ← crc_byte table crc b; crc_bytes table bs c
  end.
Definition CalcCrc32 (table : list Z) (bs : list Z) : option Z := c ← crc_bytes table bs 4294967295; Some (Z.lxor c 4294967295).

(** The checksum and the packet, whose fields are set to fixed values and restored. *)
Definition PacketCrc32 (table : list Z) (p : list Z) (len : nat) : option (Z * list Z) :=
  if (0 <? len)%nat then
    let len := if (CRC_UPTO_NBYTES <? len)%nat then CRC_UPTO_NBYTES else len in
    sttl ← SaveTtlAndChecksum p;
    p ← put_byte 8 255 p;
    p ← write 10 [90; 90] p;
    if (len <=? length p)%nat then
      result ← CalcCrc32 table (take len p);
      p ← RestoreTtlAndChecksum p sttl;
      Some (result, p)
    else None
  else None.

(** ** [PacketHistory.c] *)
Definition N_HASH_BITS : Z := 12.
Definition HISTORY_HASH_SIZE : nat := 4096.
Definition HISTORY_HOLD_TIME : Z := 3000.

Definition Hash (from32 : Z) : Z := Z.land (u32 (Z.shiftr from32 N_HASH_BITS + from32)) (Z.shiftl 1 N_HASH_BITS - 1).

(** the chains, with checksum and time-out of the entries *)
Abbreviation history := (list (list (Z * Z))).

Definition InitPacketHistory : history := replicate HISTORY_HASH_SIZE [].

(** the search in a chain; [None] when it has no entry *)
Fixpoint refresh (crc t : Z) (chain : list (Z * Z)) : option (list (Z * Z)) :=
  match chain with
  | [] => None
  | e :: chain => if e.1 =? crc then Some ((e.1, t) :: chain) else (e ::.) <$> refresh crc t chain
  end.

(** [memory] says whether [malloc] succeeds; an index outside of the array has no result *)
Definition CheckAndMarkRecentPacket (now : Z) (memory : bool) (crc32 : Z) (h : history) : option (history * Z) :=
  let idx := Z.to_nat (Hash crc32) in
  chain ← h !! idx;
  match refresh crc32 (olsr_clock_getAbsolute now HISTORY_HOLD_TIME) chain with
  | Some chain => Some (<[idx := chain]> h, 1)
  | None => Some (if memory then <[idx := (crc32, olsr_clock_getAbsolute now HISTORY_HOLD_TIME) :: chain]> h else h, 0)
  end.

(** the loop over one chain, which is the sequence of its entries; leaving one out is unlinking it from the entry before *)
Fixpoint prune_chain (now : Z) (chain : list (Z * Z)) : list (Z * Z) :=
  match chain with
  | [] => []
  | e :: chain => if olsr_clock_isPast now e.2 then prune_chain now chain else e :: prune_chain now chain
  end.
Definition PrunePacketHistory (now : Z) (h : history) : history := prune_chain now <$> h.

(** ** The table computes the remainder *)
(** The remainder bit by bit: the byte is added to the lowest byte of the register, which moves on by eight bits *)
Definition crc_reference (crc b : Z) : Z := Nat.iter 8 crc_bit (Z.lxor crc b).

Lemma crc_bit_lxor a b : crc_bit (Z.lxor a b) = Z.lxor (crc_bit a) (crc_bit b).
Proof.
  unfold crc_bit. rewrite <- !Z.bit0_odd, Z.lxor_spec, Z.shiftr_lxor.
  apply Z.bits_inj. intros n. destruct (Z.testbit a 0), (Z.testbit b 0); simpl; rewrite !Z.lxor_spec;
    destruct (Z.testbit (Z.shiftr a 1) n), (Z.testbit (Z.shiftr b 1) n), (Z.testbit CRC32_POLYNOMIAL n); reflexivity.
Qed.

Lemma crc_bits_lxor n a b : Nat.iter n crc_bit (Z.lxor a b) = Z.lxor (Nat.iter n crc_bit a) (Nat.iter n crc_bit b).
Proof. induction n as [|n IH]; [done|]. simpl. by rewrite IH, crc_bit_lxor. Qed.

Lemma crc_bits_shift n h : Nat.iter n crc_bit (Z.shiftl h (Z.of_nat n)) = h.
Proof.
  revert h. induction n as [|n IH]; intros h; [by rewrite Z.shiftl_0_r|]. rewrite Nat.iter_succ_r. unfold crc_bit at 2.
  rewrite <- Z.bit0_odd, Z.shiftl_spec_low by lia. rewrite Z.shiftr_shiftl_l by lia. replace (Z.of_nat (S n) - 1) with (Z.of_nat n) by lia. apply IH.
Qed.

Lemma crc_split crc : crc = Z.lxor (Z.shiftl (Z.shiftr crc 8) 8) (Z.land crc 255).
Proof.
  apply Z.bits_inj. intros n. rewrite Z.lxor_spec, Z.land_spec. destruct (Z.lt_ge_cases n 0); [by rewrite !Z.testbit_neg_r|].
  change 255 with (Z.ones 8). destruct (Z.lt_ge_cases n 8).
  - rewrite Z.shiftl_spec_low, Z.ones_spec_low by lia. by rewrite andb_true_r.
  - rewrite Z.shiftl_spec, Z.shiftr_spec, Z.ones_spec_high by lia. rewrite andb_false_r, xorb_false_r. f_equal. lia.
Qed.

Lemma byte_lxor a b : is_u 8 a -> is_u 8 b -> is_u 8 (Z.lxor a b).
Proof.
  unfold is_u. intros Ha Hb. split; [apply Z.lxor_nonneg; lia|]. destruct (Z.eq_dec (Z.lxor a b) 0) as [->|N]; [lia|].
  apply Z.log2_lt_pow2; [assert (0 <= Z.lxor a b) by (apply Z.lxor_nonneg; lia); lia|]. eapply Z.le_lt_trans; [apply Z.log2_lxor; lia|].
  assert (L : forall x, 0 <= x < 2 ^ 8 -> Z.log2 x < 8) by (intros x Hx; destruct (Z.eq_dec x 0) as [->|]; [done|apply Z.log2_lt_pow2; lia]).
  apply Z.max_lub_lt; by apply L.
Qed.

Lemma crc_byte_run crc b : is_u 8 b -> crc_byte GenerateCrc32Table crc b = Some (crc_reference crc b).
Proof.
  intros Hb. assert (Hl : is_u 8 (Z.land crc 255)) by (change 255 with (Z.ones 8); rewrite Z.land_ones by lia; apply Z.mod_pos_bound; lia).
  pose proof (byte_lxor _ _ Hl Hb) as [Hi1 Hi2]. unfold crc_byte, GenerateCrc32Table.
  rewrite list_lookup_fmap, lookup_seq_lt by (change (2 ^ 8) with 256 in *; lia). simpl. f_equal. unfold CrcTable, crc_reference.
  rewrite Z2Nat.id by done. assert (Z.lxor crc b = Z.lxor (Z.shiftl (Z.shiftr crc 8) (Z.of_nat 8)) (Z.lxor (Z.land crc 255) b)) as -> by (rewrite (crc_split crc) at 1; apply Z.lxor_assoc).
  by rewrite (crc_bits_lxor 8 (Z.shiftl _ _)), crc_bits_shift.
Qed.

Lemma crc_bytes_run bs : Forall (is_u 8) bs -> CalcCrc32 GenerateCrc32Table bs = Some (Z.lxor (foldl crc_reference 4294967295 bs) 4294967295).
Proof.
  intros F. unfold CalcCrc32. enough (forall c, crc_bytes GenerateCrc32Table bs c = Some (foldl crc_reference c bs)) as -> by done.
  induction F as [|b bs Hb F IH]; intros c; [done|]. simpl. rewrite crc_byte_run by done. simpl. apply IH.
Qed.

(** C32: The checksum by table is the remainder of the division by the CRC-32 polynomial, bit by bit, for any bytes; the table is never left. *)
Theorem crc32_table_correct bs : Forall (is_u 8) bs ->
  CalcCrc32 GenerateCrc32Table bs = Some (Z.lxor (foldl crc_reference 4294967295 bs) 4294967295).
Proof. apply crc_bytes_run. Qed.

(** the checksum of "123456789" *)
Lemma crc32_table_correct_witness : CalcCrc32 GenerateCrc32Table [49; 50; 51; 52; 53; 54; 55; 56; 57] = Some 3421780262.
Proof.
  rewrite (crc32_table_correct [49; 50; 51; 52; 53; 54; 55; 56; 57]); [by vm_compute|]. repeat (constructor; [unfold is_u; lia|]). constructor.
Defined.

(** ** Fields that change on the way *)
(** the packets differ at most in the time to live and the header checksum *)
Definition same_but_ttl (p q : list Z) : Prop :=
  length p = length q /\ forall i, i <> 8%nat -> i <> 10%nat -> i <> 11%nat -> p !! i = q !! i.

Lemma twelve_bytes {A} (p : list A) : (12 <= length p)%nat -> exists a0 a1 a2 a3 a4 a5 a6 a7 a8 a9 a10 a11 r, p = [a0; a1; a2; a3; a4; a5; a6; a7; a8; a9; a10; a11] ++ r.
Proof. intros H. do 12 (destruct p as [|? p]; [simpl in H; lia|]). by repeat eexists. Qed.

Lemma be16_bytes a b : is_u 8 a -> is_u 8 b -> u16 (256 * a + b) / 256 = a /\ u16 (256 * a + b) mod 256 = b.
Proof. unfold is_u. intros Ha Hb. rewrite wrapu_id by (unfold is_u; lia). split; mlia. Qed.

Lemma packet_crc_run table p len : (12 <= length p)%nat -> (0 < len <= length p)%nat -> Forall (is_u 8) p ->
  PacketCrc32 table p len = (fun c => (c, p)) <$> CalcCrc32 table (take (Nat.min len 256) (take 8 p ++ [255] ++ take 1 (drop 9 p) ++ [90; 90] ++ drop 12 p)).
Proof.
  intros Hp Hl F. unfold PacketCrc32. rewrite (proj2 (Nat.ltb_lt 0 len)) by lia. destruct (twelve_bytes p Hp) as (a0 & a1 & a2 & a3 & a4 & a5 & a6 & a7 & a8 & a9 & a10 & a11 & r & ->).
  assert (El : (if (CRC_UPTO_NBYTES <? len)%nat then CRC_UPTO_NBYTES else len) = Nat.min len 256) by (unfold CRC_UPTO_NBYTES; destruct (Nat.ltb_spec 256 len); lia). rewrite El. clear El.
  rewrite length_app in Hl. cbn [length] in Hl. set (n := Nat.min len 256).
  assert (Hn : (n <=? S (S (S (S (S (S (S (S (S (S (S (S (length r)))))))))))))%nat = true) by (apply Nat.leb_le; unfold n; lia).
  unfold SaveTtlAndChecksum, RestoreTtlAndChecksum, byte_at, be16_at, put_byte, put_be16, write. simpl. rewrite !drop_0, Hn. destruct (CalcCrc32 table _); [|done]. simpl.
  simpl in F. rewrite !Forall_cons in F. destruct F as (_ & _ & _ & _ & _ & _ & _ & _ & F8 & _ & F10 & F11 & _). destruct (be16_bytes a10 a11 F10 F11) as [-> ->]. done.
Qed.

Lemma same_rest p q : same_but_ttl p q -> take 8 p = take 8 q /\ take 1 (drop 9 p) = take 1 (drop 9 q) /\ drop 12 p = drop 12 q.
Proof.
  intros [_ H]. split_and!; apply list_eq; intros i.
  - destruct (Nat.lt_ge_cases i 8); [rewrite !lookup_take_lt by lia; apply H; lia|by rewrite !lookup_take_ge by lia].
  - destruct i as [|i]; [rewrite !lookup_take_lt, !lookup_drop by lia; apply H; lia|by rewrite !lookup_take_ge by lia].
  - rewrite !lookup_drop. apply H; lia.
Qed.

(** Sum of the 16-bit words of a header; it is correct if this is a multiple of 65535 *)
Fixpoint word_sum (p : list Z) : Z :=
  match p with
  | a :: b :: p => 256 * a + b + word_sum p
  | _ => 0
  end.

(** C31: A packet keeps its identity on the way. The checksum by which it is recognised reads and writes only inside the packet, leaves the packet as it was, and is the same
    for packets that differ in time to live and header checksum only; forwarding changes only these fields: it decrements a time to live above 0 and leaves a header
    checksum that is still correct, the sum of the words being the same modulo 65535. *)
Theorem packet_identity p len : (12 <= length p)%nat -> (0 < len <= length p)%nat -> Forall (is_u 8) p -> 1 <= default 0 (GetTtl p) ->
  exists c p', PacketCrc32 GenerateCrc32Table p len = Some (c, p) /\ DecreaseTtlAndUpdateHeaderChecksum p = Some p' /\
    GetTtl p' = Some (default 0 (GetTtl p) - 1) /\ same_but_ttl p p' /\ (word_sum p' - word_sum p) mod 65535 = 0 /\
    forall q, same_but_ttl p q -> Forall (is_u 8) q -> PacketCrc32 GenerateCrc32Table q len = Some (c, q).
Proof.
  intros Hp Hl F Ht. set (body := take (Nat.min len 256) (take 8 p ++ [255] ++ take 1 (drop 9 p) ++ [90; 90] ++ drop 12 p)).
  assert (Fb : Forall (is_u 8) body).
  { apply Forall_take. repeat (apply Forall_app; split); repeat (apply Forall_take || apply Forall_drop); try done; repeat constructor; unfold is_u; lia. }
  pose proof (crc_bytes_run body Fb) as Ec. destruct (twelve_bytes p Hp) as (a0 & a1 & a2 & a3 & a4 & a5 & a6 & a7 & a8 & a9 & a10 & a11 & r & E).
  assert (F8 : is_u 8 a8 /\ is_u 8 a10 /\ is_u 8 a11) by (rewrite E in F; simpl in F; rewrite !Forall_cons in F; tauto). destruct F8 as (F8 & F10 & F11). unfold is_u in F8, F10, F11.
  assert (T : GetTtl p = Some a8) by (by rewrite E). rewrite T in *. simpl in Ht |- *.
  set (sum := 256 * a10 + a11 + 256). set (c' := u16 (u32 (sum + Z.shiftr sum 16))).
  assert (Ec' : c' = if sum <? 65536 then sum else sum - 65535).
  { unfold c'. rewrite Z.shiftr_div_pow2 by lia. rewrite (wrapu_id 32) by (unfold is_u, sum; mlia). unfold wrapu, sum. destruct (Z.ltb_spec (256 * a10 + a11 + 256) 65536); mlia. }
  eexists _, ([a0; a1; a2; a3; a4; a5; a6; a7; a8 - 1; a9; c' / 256; c' mod 256] ++ r). split; [rewrite packet_crc_run by done; fold body; by rewrite Ec|]. split; [|split; [done|split; [|split]]].
  - rewrite E. unfold DecreaseTtlAndUpdateHeaderChecksum, byte_at, be16_at, put_byte, put_be16, write. simpl. fold sum. fold c'. rewrite (wrapu_id 8) by (unfold is_u; lia). by rewrite drop_0.
  - rewrite E. split; [done|]. intros i H1 H2 H3. do 12 (destruct i as [|i]; [done|]). done.
  - rewrite E. cbn [app word_sum]. destruct (Z.ltb_spec sum 65536); unfold sum in *.
    + replace (_ - _) with 0; [done|]. rewrite Ec'. mlia.
    + replace (_ - _) with (-1 * 65535); [by rewrite Z_mod_mult|]. rewrite Ec'. mlia.
  - intros q Hq Fq. destruct (same_rest p q Hq) as (E1 & E2 & E3). destruct Hq as [Lq _]. rewrite packet_crc_run by (rewrite <- ?Lq; done). rewrite <- E1, <- E2, <- E3. fold body. by rewrite Ec.
Qed.

Lemma packet_identity_witness : exists c p', let p := [69; 0; 0; 28; 0; 0; 0; 0; 3; 17; 222; 173; 10; 0; 0; 1; 224; 0; 0; 251; 1; 2; 3; 4; 5; 6; 7; 8] in
  PacketCrc32 GenerateCrc32Table p 28 = Some (c, p) /\ DecreaseTtlAndUpdateHeaderChecksum p = Some p' /\ PacketCrc32 GenerateCrc32Table p' 28 = Some (c, p').
Proof.
  set (p := [69; 0; 0; 28; 0; 0; 0; 0; 3; 17; 222; 173; 10; 0; 0; 1; 224; 0; 0; 251; 1; 2; 3; 4; 5; 6; 7; 8]).
  destruct (packet_identity p 28) as (c & p' & R & D & _ & S & _ & C); [simpl; lia|simpl; lia|repeat (constructor; [unfold is_u; lia|]); constructor|vm_compute; discriminate|].
  exists c, p'. split; [exact R|]. split; [exact D|]. apply C; [exact S|]. injection D as <-. vm_compute. repeat constructor; discriminate.
Defined.

(** ** The hash table is a map from checksums to time-outs *)
Lemma Hash_range c : (Z.to_nat (Hash c) < HISTORY_HASH_SIZE)%nat.
Proof.
  unfold Hash, N_HASH_BITS, HISTORY_HASH_SIZE. change (Z.shiftl 1 12 - 1) with (Z.ones 12). rewrite Z.land_ones by lia.
  pose proof (Z.mod_pos_bound (u32 (Z.shiftr c 12 + c)) (2 ^ 12) ltac:(lia)). change (2 ^ 12) with 4096 in *. lia.
Qed.

Definition chain_of (c : Z) (h : history) : list (Z * Z) := h !!! Z.to_nat (Hash c).

Record hist_rep (h : history) (m : gmap Z Z) : Prop := {
  hr_size : length h = HISTORY_HASH_SIZE;
  hr_nodup i chain : h !! i = Some chain -> NoDup chain.*1;
  hr_map c t : m !! c = Some t <-> (c, t) ∈ chain_of c h
}.

Lemma refresh_spec crc t chain : NoDup chain.*1 ->
  match refresh crc t chain with
  | Some chain' => chain'.*1 = chain.*1 /\ crc ∈ chain.*1 /\ forall c x, (c, x) ∈ chain' <-> (c = crc /\ x = t \/ c <> crc /\ (c, x) ∈ chain)
  | None => crc ∉ chain.*1
  end.
Proof.
  induction chain as [|[c0 x0] chain IH]; simpl; intros ND; [set_solver|]. apply NoDup_cons in ND as [N ND]. destruct (Z.eqb_spec c0 crc) as [->|Hc].
  - split; [done|]. split; [set_solver|]. intros c x. rewrite !elem_of_cons. split.
    + intros [[= -> ->]|Hin]; [by left|]. right. split; [|by right]. intros ->. apply N. apply list_elem_of_fmap. by exists (crc, x).
    + intros [[-> ->]|[H1 [[= <- ->]|H2]]]; [by left|done|by right].
  - specialize (IH ND). destruct (refresh crc t chain) as [chain'|]; simpl.
    + destruct IH as (H1 & H2 & H3). split; [f_equal; exact H1|]. split; [set_solver|]. intros c x. rewrite !elem_of_cons, H3. split.
      * intros [[= -> ->]|[H|[H H']]]; [right; split; [done|by left]|by left|right; split; [done|by right]].
      * intros [H|[H [[= -> ->]|H']]]; [right; by left|by left|right; right; done].
    + rewrite elem_of_cons. intros [E|E]; [done|done].
Qed.

Lemma rep_chain h m c : hist_rep h m -> h !! Z.to_nat (Hash c) = Some (chain_of c h) /\ NoDup (chain_of c h).*1.
Proof.
  intros [H1 H2 H3]. assert (E : h !! Z.to_nat (Hash c) = Some (chain_of c h)) by (apply list_lookup_lookup_total_lt; rewrite H1; apply Hash_range). split; [done|by eapply H2].
Qed.

(** replacing the chain of a checksum *)
Lemma rep_replace h m crc chain' m' : hist_rep h m -> NoDup chain'.*1 ->
  (forall c t, Hash c = Hash crc -> m' !! c = Some t <-> (c, t) ∈ chain') -> (forall c, Hash c <> Hash crc -> m' !! c = m !! c) ->
  hist_rep (<[Z.to_nat (Hash crc) := chain']> h) m'.
Proof.
  intros R ND H1 H2. destruct (rep_chain h m crc R) as [E _]. destruct R as [R1 R2 R3]. split.
  - by rewrite length_insert.
  - intros i chain. rewrite list_lookup_insert_Some. intros [(<- & <- & _)|[_ Hc]]; [done|by eapply R2].
  - intros c t. unfold chain_of. destruct (decide (Hash c = Hash crc)) as [Eh|Nh].
    + rewrite Eh, list_lookup_total_insert_eq by (by eapply lookup_lt_Some). by apply H1.
    + rewrite H2 by done. rewrite list_lookup_total_insert_ne; [apply R3|]. intros Ei. apply Nh.
      assert (P : forall x, 0 <= Hash x) by (intros x; unfold Hash, N_HASH_BITS; apply Z.land_nonneg; right; by vm_compute). apply Z2Nat.inj in Ei; [done|apply P|apply P].
Qed.

Lemma mark_run now memory crc h m : hist_rep h m ->
  exists h', CheckAndMarkRecentPacket now memory crc h = Some (h', if decide (is_Some (m !! crc)) then 1 else 0) /\
    hist_rep h' (if memory || bool_decide (is_Some (m !! crc)) then <[crc := olsr_clock_getAbsolute now HISTORY_HOLD_TIME]> m else m).
Proof.
  intros R. destruct (rep_chain h m crc R) as [E ND]. unfold CheckAndMarkRecentPacket. rewrite E. simpl.
  set (t := olsr_clock_getAbsolute now HISTORY_HOLD_TIME). pose proof (refresh_spec crc t _ ND) as S.
  assert (In : forall c, is_Some (m !! c) <-> c ∈ (chain_of c h).*1).
  { intros c. split; [intros [x Hx]; apply (hr_map _ _ R) in Hx; apply list_elem_of_fmap; by exists (c, x)|].
    intros ([c' x] & -> & Hx)%list_elem_of_fmap. exists x. by apply (hr_map _ _ R). }
  destruct (refresh crc t (chain_of crc h)) as [chain'|].
  - destruct S as (S1 & S2 & S3). rewrite decide_True by (by apply In). rewrite bool_decide_true by (by apply In). rewrite orb_true_r. eexists. split; [done|].
    apply (rep_replace h m); [done|by rewrite S1| |].
    + intros c x Hh. rewrite S3, lookup_insert_Some, (hr_map _ _ R). unfold chain_of. rewrite Hh. naive_solver.
    + intros c Hh. rewrite lookup_insert_ne; [done|]. congruence.
  - rewrite decide_False by (by rewrite In). rewrite bool_decide_false by (by rewrite In). rewrite orb_false_r. eexists. split; [done|]. destruct memory; [|done].
    apply (rep_replace h m); [done|by apply NoDup_cons| |].
    + intros c x Hh. rewrite lookup_insert_Some, elem_of_cons, (hr_map _ _ R). unfold chain_of. rewrite Hh. split.
      * intros [[<- <-]|[Hc Hx]]; [by left|by right].
      * intros [[= -> ->]|Hx]; [by left|right]. split; [|done]. intros <-. apply S. apply list_elem_of_fmap. by exists (crc, x).
    + intros c Hh. rewrite lookup_insert_ne; [done|]. congruence.
Qed.

Lemma prune_chain_filter now chain : prune_chain now chain = filter (fun e => olsr_clock_isPast now e.2 = false) chain.
Proof. induction chain as [|e chain IH]; [done|]. simpl. rewrite filter_cons, IH. destruct (olsr_clock_isPast now e.2); by case_decide. Qed.

Lemma prune_history_run now h m : hist_rep h m -> hist_rep (PrunePacketHistory now h) (filter (fun e => olsr_clock_isPast now e.2 = false) m).
Proof.
  intros R. pose proof R as [R1 R2 R3]. unfold PrunePacketHistory. split.
  - by rewrite length_fmap.
  - intros i chain. rewrite list_lookup_fmap. destruct (h !! i) as [ch|] eqn:E; [|done]. intros [= <-]. rewrite prune_chain_filter. specialize (R2 _ _ E). clear -R2.
    induction ch as [|e ch IH]; [constructor|]. simpl in R2. apply NoDup_cons in R2 as [N ND]. rewrite filter_cons. case_decide; [|by apply IH]. simpl. apply NoDup_cons. split; [|by apply IH].
    intros (x & Ex & Hx%list_elem_of_filter)%list_elem_of_fmap. apply N. rewrite Ex. apply list_elem_of_fmap. exists x. tauto.
  - intros c t. destruct (rep_chain h m c R) as [E _]. unfold chain_of at 1. rewrite list_lookup_total_alt, list_lookup_fmap, E. simpl.
    rewrite prune_chain_filter, list_elem_of_filter, map_lookup_filter_Some, R3. simpl. tauto.
Qed.

(** Packets and prunings, each with the time at which it happens *)
Inductive hist_op := Packet (now : Z) (memory : bool) (crc : Z) | Prune (now : Z).

Fixpoint run_hist (ops : list hist_op) (h : history) : option (history * list Z) :=
  match ops with
  | [] => Some (h, [])
  | Packet now memory crc :: ops => r ← CheckAndMarkRecentPacket now memory crc h; s ← run_hist ops r.1; Some (s.1, r.2 :: s.2)
  | Prune now :: ops => run_hist ops (PrunePacketHistory now h)
  end.

Fixpoint spec_hist (ops : list hist_op) (m : gmap Z Z) : list Z :=
  match ops with
  | [] => []
  | Packet now memory crc :: ops =>
    (if decide (is_Some (m !! crc)) then 1 else 0) :: spec_hist ops (if memory || bool_decide (is_Some (m !! crc)) then <[crc := olsr_clock_getAbsolute now HISTORY_HOLD_TIME]> m else m)
  | Prune now :: ops => spec_hist ops (filter (fun e => olsr_clock_isPast now e.2 = false) m)
  end.

(** C27: For every sequence of packets and prunings from the empty history on, the hash table answers as a map from checksums to
    time-outs: a packet is known if it was recorded and its time-out was not past at any pruning since it was last seen. The
    array is never left, collisions of the hash never matter, and a packet that found no memory is the only one that is not recorded. *)
Theorem history_refines ops : exists h, run_hist ops InitPacketHistory = Some (h, spec_hist ops ∅).
Proof.
  assert (R0 : hist_rep InitPacketHistory ∅).
  { split; [apply length_replicate|intros i chain [-> _]%lookup_replicate; constructor|]. intros c t. rewrite lookup_empty. unfold chain_of, InitPacketHistory.
    rewrite lookup_total_replicate_2 by apply Hash_range. rewrite elem_of_nil. split; [done|by intros []]. }
  revert R0. generalize InitPacketHistory (∅ : gmap Z Z). induction ops as [|[now memory crc|now] ops IH]; intros h m R; simpl.
  - by eexists.
  - destruct (mark_run now memory crc h m R) as (h1 & -> & R1). simpl. destruct (IH _ _ R1) as (h2 & ->). by eexists.
  - apply IH. by apply prune_history_run.
Qed.
