(* ===== verification/Http.v ===== *)
(** * HTTP requests ([olsr_comport_http.c])

    The management port reads HTTP requests into a buffer, and the parser works in place: it puts zeros behind the
    parts of the request and keeps pointers to them. Here pointers into the buffer are positions, and a read or write outside of
    it has no result. A request that the parser refuses is [None]. *)
From S2P Require Import Prelude Strings.

Definition MAX_HTTP_HEADERS : nat := 32.
Definition CR : Z := 13.
Definition LF : Z := 10.
Definition SP : Z := 32.
Definition TAB : Z := 9.

Record http_request := mkReq {
  method : nat;
  request_uri : nat;
  http_version : nat;
  (** name and value of the header fields *)
  header : list (nat * nat)
}.

Local Abbreviation M := (SE (list Z)).
Definition rd (pos : nat) : M Z := fun b => (fun c => (b, c)) <$> b !! pos.
Definition wr (pos : nat) (c : Z) : M unit := fun b => (fun _ => (<[pos := c]> b, tt)) <$> b !! pos.

(** ** The end of the header
    The automaton of [olsr_com_parse_http]; the result is the state, 5 at an empty line and 6 at a zero, and the number of bytes read. *)
Definition header_step (i c : Z) : Z :=
  if c =? 0 then 6
  else if c =? CR then if i =? 3 then 4 else 2
  else if c =? LF then if (i =? 1) || (i =? 4) then 5 else if i =? 2 then 3 else 1
  else 0.
Fixpoint header_end (b : list Z) (i : Z) (idx : nat) : option (Z * nat) :=
  match b with
  | [] => None
  | c :: b => let i := header_step i c in if i <? 5 then header_end b i (S idx) else Some (i, S idx)
  end.

(** ** [parse_http_header]
    Every loop has the position and the number of bytes that are left. *)
Fixpoint request_line (len pos : nat) (uri version : option nat) : M (option (nat * nat * option nat * option nat)) :=
  match len with
  | O | S O => mret None
  | S len =>
    c ← rd pos;
    if (c =? SP) && bool_decide (version = None) then
      wr pos 0;;
      match uri with
      | None => request_line len (S pos) (Some (S pos)) version
      | Some _ => request_line len (S pos) uri (Some (S pos))
      end
    else if c =? CR then wr pos 0;; request_line len (S pos) uri version
    else if c =? LF then wr pos 0;; mret (Some (S pos, len, uri, version))
    else request_line len (S pos) uri version
  end.

Fixpoint header_name (len pos : nat) : M (option (nat * nat)) :=
  match len with
  | O => mret None
  | S len =>
    c ← rd pos;
    if c =? 58 then wr pos 0;; mret (Some (S pos, len))
    else if (c =? SP) || (c =? TAB) then wr pos 0;; header_name len (S pos)
    else if (c =? LF) || (c =? CR) then mret None
    else header_name len (S pos)
  end.

Definition blank (c : Z) : bool := (c =? SP) || (c =? TAB).

Fixpoint header_value (fuel len pos : nat) (value : option nat) : M (option (nat * nat * nat)) :=
  match fuel with
  | O => se_fail
  | S fuel =>
    if (len <? 1)%nat then mret None
    else
      c ← rd pos;
      let value := match value with None => if blank c then None else Some pos | _ => value end in
      if c =? LF then
        if (len <? 2)%nat then mret None
        else
          c1 ← rd (pos + 1);
          if blank c1 then wr pos SP;; wr (pos + 1) SP;; header_value fuel (len - 2) (pos + 2) value
          else wr pos 0;; mret (Some (pos + 1, len - 1, default pos value))%nat
      else if c =? CR then
        if (len <? 2)%nat then mret None
        else
          c1 ← rd (pos + 1);
          if c1 =? LF then
            if (len <? 3)%nat then mret None
            else
              c2 ← rd (pos + 2);
              if blank c2 then wr pos SP;; wr (pos + 1) SP;; wr (pos + 2) SP;; header_value fuel (len - 3) (pos + 3) value
              else wr pos 0;; mret (Some (pos + 2, len - 2, default pos value))%nat
          else header_value fuel (len - 1) (pos + 1) value
      else header_value fuel (len - 1) (pos + 1) value
  end.

Fixpoint headers (fuel len pos : nat) (hs : list (nat * nat)) : M (option (list (nat * nat))) :=
  match fuel with
  | O => se_fail
  | S fuel =>
    if (len <? 1)%nat then mret None
    else
      c ← rd pos;
      if c =? LF then mret (Some hs)
      else
        fin ← (if c =? CR then if (len <? 2)%nat then mret None else c1 ← rd (pos + 1); mret (Some (c1 =? LF)) else mret (Some false));
        match fin with
        | None => mret None
        | Some true => mret (Some hs)
        | Some false =>
          if (MAX_HTTP_HEADERS <=? length hs)%nat then mret None
          else
            n ← header_name len pos;
            match n with
            | None => mret None
            | Some (pos1, len1) =>
              v ← header_value len len1 pos1 None;
              match v with
              | None => mret None
              | Some (pos2, len2, value) => headers fuel len2 pos2 (hs ++ [(pos, value)])
              end
            end
        end
  end.

Definition parse_http_header (len : nat) : M (option http_request) :=
  l ← request_line len 0 None None;
  match l with
  | Some (pos, len', Some uri, Some version) =>
    hs ← headers (S len') len' pos [];
    mret (mkReq 0 uri version <$> hs)
  | _ => mret None
  end.

(** ** Authorization
    [strstr], and the search of [olsr_com_handle_htmlsite] for the header field in the buffer *)
Fixpoint is_prefix (p s : list Z) : bool :=
  match p, s with
  | [], _ => true
  | a :: p, c :: s => (a =? c) && is_prefix p s
  | _, _ => false
  end.
Fixpoint strstr (s p : list Z) : option (list Z) :=
  if is_prefix p s then Some s else match s with [] => None | _ :: s => strstr s p end.

(** newline, "Authorization: Basic " *)
Definition AUTH_FIELD : list Z := LF :: [65; 117; 116; 104; 111; 114; 105; 122; 97; 116; 105; 111; 110; 58; 32; 66; 97; 115; 105; 99; 32].

(** the next word and what is behind it, as [%s] of [sscanf] reads it *)
Fixpoint span_word (s : list Z) : list Z * list Z :=
  match s with
  | [] => ([], [])
  | c :: r => if isspace c then ([], s) else let w := span_word r in (c :: w.1, w.2)
  end.
Definition next_word (s : list Z) : list Z * list Z := span_word (ltrim s).

(** whether the request in the buffer has one of the keys that a site accepts; a key that is longer than 255 bytes overflows [key] *)
Definition authorized (b : list Z) (auth : list (list Z)) : option bool :=
  match strstr (cstr b) AUTH_FIELD with
  | None => Some false
  | Some str =>
    let key := (next_word (next_word (next_word (drop 1 str)).2).2).1 in
    if (255 <? length key)%nat then None
    else Some (bool_decide (key <> []) && bool_decide (key ∈ auth))
  end.

(** ** The parser stays inside the request *)
(** the bytes outside of positions [lo] to [hi] are unchanged *)
Record within (lo hi : nat) (b b' : list Z) : Prop := {
  wi_length : length b' = length b;
  wi_same i : (i < lo \/ hi <= i)%nat -> b' !! i = b !! i
}.

Lemma within_refl lo hi b : within lo hi b b.
Proof. by split. Qed.
Lemma within_trans lo mid hi b b1 b2 lo' : within lo mid b b1 -> within lo' hi b1 b2 -> (lo <= lo')%nat -> (mid <= hi)%nat -> within lo hi b b2.
Proof. intros [A1 A2] [B1 B2] H1 H2. split; [congruence|]. intros i Hi. rewrite B2, A2 by lia. done. Qed.
Lemma within_weaken lo hi lo' hi' b b' : within lo hi b b' -> (lo' <= lo)%nat -> (hi <= hi')%nat -> within lo' hi' b b'.
Proof. intros [A1 A2] H1 H2. split; [done|]. intros i Hi. apply A2. lia. Qed.
Lemma within_put pos c b : within pos (S pos) b (<[pos := c]> b).
Proof. split; [apply length_insert|]. intros i Hi. apply list_lookup_insert_ne. lia. Qed.

Lemma text_rd_run pos (b : list Z) : (pos < length b)%nat -> exists c, rd pos b = Some (b, c) /\ b !! pos = Some c.
Proof. intros H. destruct (lookup_lt_is_Some_2 b pos H) as [c Hc]. exists c. unfold rd. by rewrite Hc. Qed.
Lemma rd_at pos (b : list Z) c : b !! pos = Some c -> rd pos b = Some (b, c).
Proof. intros Hc. unfold rd. by rewrite Hc. Qed.
Lemma text_wr_run pos c (b : list Z) : (pos < length b)%nat -> wr pos c b = Some (<[pos := c]> b, tt).
Proof. intros H. destruct (lookup_lt_is_Some_2 b pos H) as [d Hd]. unfold wr. by rewrite Hd. Qed.

(** The parts of the request line found so far have zeros in front of them, and so has position [pos] *)
Definition line_ok (pos : nat) (uri version : option nat) (b : list Z) : Prop :=
  match uri, version with
  | None, None => True
  | Some u, None => (0 < u <= pos)%nat /\ b !! (u - 1)%nat = Some 0
  | Some u, Some v => (0 < u < v)%nat /\ (v <= pos)%nat /\ b !! (u - 1)%nat = Some 0 /\ b !! (v - 1)%nat = Some 0
  | None, Some _ => False
  end.

Lemma line_ok_within pos hi uri version b b' : line_ok pos uri version b -> within pos hi b b' -> line_ok pos uri version b'.
Proof.
  intros H [_ W]. destruct uri as [u|], version as [v|]; simpl in *; try done.
  - destruct H as (H1 & H2 & H3 & H4). rewrite !W by lia. done.
  - destruct H as (H1 & H2). rewrite !W by lia. done.
Qed.
Lemma line_ok_next pos pos' uri version b : line_ok pos uri version b -> (pos <= pos')%nat -> line_ok pos' uri version b.
Proof. intros H Hp. destruct uri, version; simpl in *; try done; lia || (split; [lia|tauto]) || (destruct H as (?&?&?&?); split_and!; [lia..|done|done]). Qed.

Definition line_result (n pos : nat) (b b' : list Z) (r : option (nat * nat * option nat * option nat)) : Prop :=
  within pos n b b' /\
  match r with
  | Some (pos', len', uri, version) => (pos < pos')%nat /\ (pos' + len' = n)%nat /\ line_ok (pos' - 1) uri version b' /\ b' !! (pos' - 1)%nat = Some 0 /\
      (forall i, (pos <= i < pos')%nat -> b' !! i <> Some LF)
  | None => True
  end.

Lemma line_result_step n pos b b1 b' r : within pos (S pos) b b1 -> (S pos <= n)%nat -> b1 !! pos <> Some LF -> line_result n (S pos) b1 b' r -> line_result n pos b b' r.
Proof.
  intros W Hn Hc [W' R]. split; [by eapply within_trans; [done|done|lia|lia]|]. destruct r as [[[[pos' len'] uri] version]|]; [|done]. destruct R as (R1 & R2 & R3 & R4 & R5).
  split_and!; [lia|done|done|done|]. intros i Hi. destruct (decide (i = pos)) as [->|]; [rewrite (wi_same _ _ _ _ W') by lia; done|apply R5; lia].
Qed.

Lemma request_line_run n len : forall pos uri version b, (pos + len = n)%nat -> (n <= length b)%nat -> line_ok pos uri version b ->
  exists b' r, request_line len pos uri version b = Some (b', r) /\ line_result n pos b b' r.
Proof.
  induction len as [|len IH]; intros pos uri version b Hn Hb L; [eexists _, _; split; [done|]; split; [apply within_refl|done]|].
  destruct len as [|len']; [eexists _, _; split; [done|]; split; [apply within_refl|done]|]. set (len := S len') in *. destruct (text_rd_run pos b) as (c & R & Hc); [lia|].
  change (request_line (S len) pos uri version) with (c ← rd pos;
    if (c =? SP) && bool_decide (version = None) then wr pos 0;; match uri with None => request_line len (S pos) (Some (S pos)) version | Some _ => request_line len (S pos) uri (Some (S pos)) end
    else if c =? CR then wr pos 0;; request_line len (S pos) uri version else if c =? LF then wr pos 0;; mret (Some (S pos, len, uri, version)) else request_line len (S pos) uri version).
  rewrite (bind_run _ _ _ _ _ R). pose proof (within_put pos 0 b) as W. assert (Lp : (pos < length b)%nat) by lia.
  assert (Z0 : (<[pos := 0]> b) !! pos = Some 0) by (by apply list_lookup_insert_eq).
  assert (Step : forall u v, line_ok (S pos) u v (<[pos := 0]> b) -> exists b' r, request_line len (S pos) u v (<[pos := 0]> b) = Some (b', r) /\ line_result n pos b b' r).
  { intros u v Lu. destruct (IH (S pos) u v (<[pos := 0]> b)) as (b' & r & Rr & Q); [lia|by rewrite length_insert|done|]. exists b', r. split; [done|]. eapply line_result_step; [done|lia| |done]. by rewrite Z0. }
  assert (Ln : line_ok (S pos) uri version (<[pos := 0]> b)) by (eapply line_ok_next; [by eapply line_ok_within|lia]).
  destruct ((c =? SP) && bool_decide (version = None)) eqn:Es.
  - apply andb_true_iff in Es as [_ ->%bool_decide_eq_true]. rewrite (bind_run _ _ _ _ _ (text_wr_run pos 0 b Lp)). destruct uri as [u|]; apply Step; simpl.
    + simpl in L. destruct L as [L1 L2]. rewrite (wi_same _ _ _ _ W), Nat.sub_0_r by lia. split_and!; [lia|lia|lia|done|done].
    + rewrite Nat.sub_0_r. split; [lia|done].
  - destruct (Z.eqb_spec c CR); [rewrite (bind_run _ _ _ _ _ (text_wr_run pos 0 b Lp)); by apply Step|]. destruct (Z.eqb_spec c LF) as [->|Nl].
    + rewrite (bind_run _ _ _ _ _ (text_wr_run pos 0 b Lp)). eexists _, _. split; [done|]. split; [eapply within_weaken; [done|lia|lia]|]. rewrite Nat.sub_succ, Nat.sub_0_r. split_and!; [lia|lia|by eapply line_ok_within|done|].
      intros i Hi. replace i with pos by lia. by rewrite Z0.
    + destruct (IH (S pos) uri version b) as (b' & r & Rr & Q); [lia|done|eapply line_ok_next; [done|lia]|]. exists b', r. split; [done|]. eapply line_result_step; [apply within_refl|lia| |done]. rewrite Hc. congruence.
Qed.

Lemma header_name_run n len : forall pos b, (pos + len = n)%nat -> (n <= length b)%nat ->
  exists b' r, header_name len pos b = Some (b', r) /\ within pos n b b' /\
    match r with Some (pos', len') => (pos < pos')%nat /\ (pos' + len' = n)%nat /\ within pos pos' b b' /\ b' !! (pos' - 1)%nat = Some 0 | None => True end.
Proof.
  induction len as [|len IH]; intros pos b Hn Hb; [eexists _, _; split; [done|]; split; [apply within_refl|done]|]. destruct (text_rd_run pos b) as (c & R & Hc); [lia|]. cbn [header_name].
  rewrite (bind_run _ _ _ _ _ R). pose proof (within_put pos 0 b) as W. assert (Lp : (pos < length b)%nat) by lia.
  assert (Step : forall b1, within pos (S pos) b b1 -> exists b' r, header_name len (S pos) b1 = Some (b', r) /\ within pos n b b' /\
    match r with Some (pos', len') => (pos < pos')%nat /\ (pos' + len' = n)%nat /\ within pos pos' b b' /\ b' !! (pos' - 1)%nat = Some 0 | None => True end).
  { intros b1 W1. destruct (IH (S pos) b1) as (b' & r & Rr & W2 & Q); [lia|by rewrite (wi_length _ _ _ _ W1)|]. exists b', r. split; [done|]. split; [eapply within_trans; [done|done|lia|lia]|].
    destruct r as [[pos' len']|]; [|done]. destruct Q as (Q1 & Q2 & Q3 & Q4). split_and!; [lia|lia|eapply within_trans; [done|done|lia|lia]|done]. }
  destruct (c =? 58).
  - rewrite (bind_run _ _ _ _ _ (text_wr_run pos 0 b Lp)). eexists _, _. split; [done|]. split; [eapply within_weaken; [done|lia|lia]|]. split_and!; [lia|lia|done|]. rewrite Nat.sub_succ, Nat.sub_0_r. by apply list_lookup_insert_eq.
  - destruct ((c =? SP) || (c =? TAB)); [rewrite (bind_run _ _ _ _ _ (text_wr_run pos 0 b Lp)); by apply Step|].
    destruct ((c =? LF) || (c =? CR)); [eexists _, _; split; [done|]; split; [apply within_refl|done]|apply Step, within_refl].
Qed.

(** what the value loop leaves: its string starts in the part it has read and ends with a zero there *)
Definition value_result (n pos : nat) (value : option nat) (b b' : list Z) (r : option (nat * nat * nat)) : Prop :=
  within pos n b b' /\
  match r with
  | Some (pos', len', v) => (pos < pos')%nat /\ (pos' + len' = n)%nat /\ within pos pos' b b' /\ (default pos value <= v < pos')%nat /\ (forall w, value = Some w -> v = w) /\
      exists k, (v <= k)%nat /\ (pos <= k < pos')%nat /\ b' !! k = Some 0
  | None => True
  end.

Lemma value_result_step n pos pos1 value value1 b b1 b' r : within pos pos1 b b1 -> (pos < pos1 <= n)%nat -> (forall w, value = Some w -> value1 = Some w) -> (forall w, value1 = Some w -> default pos value <= w)%nat ->
  value_result n pos1 value1 b1 b' r -> value_result n pos value b b' r.
Proof.
  intros W Hp Hv Hw [W' R]. split; [eapply within_trans; [done|done|lia|lia]|]. destruct r as [[[pos' len'] v]|]; [|done]. destruct R as (R1 & R2 & R3 & R4 & R5 & k & K1 & K2 & K3).
  split; [lia|]. split; [done|]. split; [eapply within_trans; [done|done|lia|lia]|]. split; [|split; [|exists k; split_and!; [lia|lia|lia|done]]].
  - split; [|lia]. destruct value1 as [w|]; simpl in R4; [specialize (Hw w eq_refl); lia|]. destruct value as [w|]; simpl; [|lia]. by specialize (Hv w eq_refl).
  - intros w Ew. apply R5. by apply Hv.
Qed.

Ltac put_within := eapply within_weaken; [apply within_put|lia|lia].

Lemma header_value_run n fuel : forall len pos value b, (len < fuel)%nat -> (pos + len = n)%nat -> (n <= length b)%nat -> (default pos value <= pos)%nat ->
  exists b' r, header_value fuel len pos value b = Some (b', r) /\ value_result n pos value b b' r.
Proof.
  induction fuel as [|fuel IH]; intros len pos value b Hf Hn Hb Hv; [lia|]. cbn [header_value].
  assert (Fail : exists b' r, (mret None : SE (list Z) (option (nat * nat * nat))) b = Some (b', r) /\ value_result n pos value b b' r) by (eexists _, _; split; [done|]; split; [apply within_refl|done]).
  destruct (Nat.ltb_spec len 1); [exact Fail|]. destruct (text_rd_run pos b) as (c & R & Hc); [lia|]. rewrite (bind_run _ _ _ _ _ R).
  set (value1 := match value with None => if blank c then None else Some pos | Some _ => value end).
  assert (V1 : forall w, value = Some w -> value1 = Some w) by (intros w ->; done).
  assert (V2 : forall w, value1 = Some w -> (default pos value <= w <= pos)%nat).
  { intros w. unfold value1. destruct value as [v|]; simpl in *; [intros [= <-]; lia|]. destruct (blank c); [done|]. intros [= <-]. lia. }
  assert (V3 : (default pos value1 <= pos)%nat) by (destruct value1 as [w|]; simpl; [specialize (V2 w eq_refl); lia|lia]).
  assert (Next : forall k b1, (0 < k)%nat -> (k <= len)%nat -> within pos (pos + k) b b1 -> exists b' r, header_value fuel (len - k) (pos + k) value1 b1 = Some (b', r) /\ value_result n pos value b b' r).
  { intros k b1 K1 K2 W. destruct (IH (len - k)%nat (pos + k)%nat value1 b1) as (b' & r & Rr & Q); [lia|lia|by rewrite (wi_length _ _ _ _ W)|destruct value1; simpl in *; lia|].
    exists b', r. split; [done|]. eapply value_result_step; [done|lia|done|intros w Ew; by apply V2|done]. }
  assert (Stop : forall k, (0 < k)%nat -> (k <= len)%nat -> exists b' r, (wr pos 0;; mret (Some ((pos + k)%nat, (len - k)%nat, default pos value1))) b = Some (b', r) /\ value_result n pos value b b' r).
  { intros k K1 K2. rewrite (bind_run _ _ _ _ _ (text_wr_run pos 0 b ltac:(lia))). pose proof (within_put pos 0 b) as W. eexists _, _. split; [done|]. split; [eapply within_weaken; [done|lia|lia]|].
    split; [lia|]. split; [lia|]. split; [eapply within_weaken; [done|lia|lia]|]. split; [|split; [|exists pos; split_and!; [lia|lia|lia|apply list_lookup_insert_eq; lia]]].
    - split; [|lia]. destruct value1 as [w|]; simpl; [destruct (V2 w eq_refl); lia|]. destruct value as [w|]; simpl in *; [by destruct (V1 w eq_refl)|lia].
    - intros w Ew. by rewrite (V1 w Ew). }
  destruct (c =? LF).
  - destruct (Nat.ltb_spec len 2); [exact Fail|]. destruct (text_rd_run (pos + 1) b) as (c1 & R1 & _); [lia|]. rewrite (bind_run _ _ _ _ _ R1). destruct (blank c1); [|apply Stop; lia].
    rewrite (bind_run _ _ _ _ _ (text_wr_run pos SP b ltac:(lia))), (bind_run _ _ _ _ _ (text_wr_run (pos + 1) SP (<[pos := SP]> b) ltac:(rewrite length_insert; lia))). apply Next; [lia|lia|].
    apply (within_trans pos (S pos) _ _ (<[pos := SP]> b) _ pos); [apply within_put|put_within|lia|lia].
  - destruct (c =? CR); [|apply Next; [lia|lia|apply within_refl]]. destruct (Nat.ltb_spec len 2); [exact Fail|]. destruct (text_rd_run (pos + 1) b) as (c1 & R1 & _); [lia|]. rewrite (bind_run _ _ _ _ _ R1).
    destruct (c1 =? LF); [|apply Next; [lia|lia|apply within_refl]]. destruct (Nat.ltb_spec len 3); [exact Fail|]. destruct (text_rd_run (pos + 2) b) as (c2 & R2 & _); [lia|]. rewrite (bind_run _ _ _ _ _ R2). destruct (blank c2); [|apply Stop; lia].
    rewrite (bind_run _ _ _ _ _ (text_wr_run pos SP b ltac:(lia))), (bind_run _ _ _ _ _ (text_wr_run (pos + 1) SP (<[pos := SP]> b) ltac:(rewrite length_insert; lia))), (bind_run _ _ _ _ _ (text_wr_run (pos + 2) SP (<[(pos + 1)%nat := SP]> (<[pos := SP]> b)) ltac:(rewrite !length_insert; lia))). apply Next; [lia|lia|].
    apply (within_trans pos (pos + 2) _ _ (<[(pos + 1)%nat := SP]> (<[pos := SP]> b)) _ pos); [|put_within|lia|lia].
    apply (within_trans pos (S pos) _ _ (<[pos := SP]> b) _ pos); [apply within_put|put_within|lia|lia].
Qed.

(** the string at [p] ends before [lim] *)
Definition ends (lim : nat) (b : list Z) (p : nat) : Prop := exists k, (p <= k < lim)%nat /\ b !! k = Some 0.
Definition fields_ok (lim : nat) (b : list Z) (hs : list (nat * nat)) : Prop :=
  (length hs <= MAX_HTTP_HEADERS)%nat /\ Forall (fun h => ends lim b h.1 /\ ends lim b h.2) hs.

Lemma ends_within lim hi lim' b b' p : ends lim b p -> within lim hi b b' -> (lim <= lim')%nat -> ends lim' b' p.
Proof. intros (k & K1 & K2) [_ W] Hl. exists k. split; [lia|]. by rewrite W by lia. Qed.
Lemma fields_within lim hi lim' b b' hs : fields_ok lim b hs -> within lim hi b b' -> (lim <= lim')%nat -> fields_ok lim' b' hs.
Proof. intros [H1 H2] W Hl. split; [done|]. eapply Forall_impl; [exact H2|]. intros h [A B]. split; by eapply ends_within. Qed.

Lemma headers_run n fuel : forall len pos hs b, (len < fuel)%nat -> (pos + len = n)%nat -> (n <= length b)%nat -> fields_ok pos b hs ->
  exists b' r, headers fuel len pos hs b = Some (b', r) /\ within pos n b b' /\ (forall hs', r = Some hs' -> fields_ok n b' hs').
Proof.
  induction fuel as [|fuel IH]; intros len pos hs b Hf Hn Hb F; [lia|]. cbn [headers].
  assert (Fail : exists b' r, (mret None : SE (list Z) (option (list (nat * nat)))) b = Some (b', r) /\ within pos n b b' /\ (forall hs', r = Some hs' -> fields_ok n b' hs')) by (eexists _, _; split; [done|]; split; [apply within_refl|done]).
  assert (Fin : exists b' r, (mret (Some hs) : SE (list Z) (option (list (nat * nat)))) b = Some (b', r) /\ within pos n b b' /\ (forall hs', r = Some hs' -> fields_ok n b' hs')).
  { eexists _, _. split; [done|]. split; [apply within_refl|]. intros hs' [= <-]. eapply fields_within; [done|apply (within_refl pos n)|lia]. }
  destruct (Nat.ltb_spec len 1); [exact Fail|]. destruct (text_rd_run pos b) as (c & R & Hc); [lia|]. rewrite (bind_run _ _ _ _ _ R). destruct (c =? LF); [exact Fin|].
  assert (exists fin, (if c =? CR then if (len <? 2)%nat then mret None else c1 ← rd (pos + 1); mret (Some (c1 =? LF)) else mret (Some false)) b = Some (b, fin)) as (fin & Ef).
  { destruct (c =? CR); [|by eexists]. destruct (Nat.ltb_spec len 2); [by eexists|]. destruct (text_rd_run (pos + 1) b) as (c1 & R1 & _); [lia|]. rewrite (bind_run _ _ _ _ _ R1). by eexists. }
  rewrite (bind_run _ _ _ _ _ Ef). destruct fin as [[]|]; [exact Fin| |exact Fail]. destruct (Nat.leb_spec MAX_HTTP_HEADERS (length hs)); [exact Fail|].
  destruct (header_name_run n len pos b Hn Hb) as (b1 & r1 & R1 & W1 & Q1). rewrite (bind_run _ _ _ _ _ R1). destruct r1 as [[pos1 len1]|]; [|eexists _, _; split; [done|]; split; [done|done]].
  destruct Q1 as (P1 & N1 & V1 & Z1). pose proof (wi_length _ _ _ _ W1) as L1.
  destruct (header_value_run n len len1 pos1 None b1) as (b2 & r2 & R2 & W2 & Q2); [lia|lia|lia|simpl; lia|]. rewrite (bind_run _ _ _ _ _ R2).
  destruct r2 as [[[pos2 len2] v]|]; [|eexists _, _; split; [done|]; split; [eapply within_trans; [done|done|lia|lia]|done]].
  destruct Q2 as (P2 & N2 & V2 & B2 & _ & k & K1 & K2 & K3). pose proof (wi_length _ _ _ _ W2) as L2.
  destruct (IH len2 pos2 (hs ++ [(pos, v)]) b2) as (b3 & r3 & R3 & W3 & Q3); [lia|lia|lia| |].
  { destruct (fields_within pos pos2 pos2 b b2 hs) as [F1 F2]; [done|eapply within_trans; [exact V1|exact V2|lia|lia]|lia|]. split; [rewrite length_app; simpl; lia|]. apply Forall_app. split; [done|]. apply Forall_singleton. simpl. split.
    - exists (pos1 - 1)%nat. split; [lia|]. rewrite (wi_same _ _ _ _ V2) by lia. done.
    - exists k. split; [lia|done]. }
  exists b3, r3. split; [done|]. split; [|done]. eapply within_trans; [eapply within_trans; [exact W1|exact W2|lia|lia]|exact W3|lia|lia].
Qed.

Lemma cstr_lines k b : (0 < k)%nat -> (forall i, (i < k)%nat -> b !! i <> Some LF) -> b !! (k - 1)%nat = Some 0 -> LF ∉ cstr b.
Proof.
  revert k. induction b as [|c b IH]; intros k Hk Hl Hz; simpl; [set_solver|]. destruct (Z.eqb_spec c 0); [set_solver|]. destruct k as [|[|k]]; [lia|simpl in Hz; congruence|].
  apply not_elem_of_cons. split; [intros <-; by apply (Hl 0%nat ltac:(lia))|]. apply (IH (S k)); [lia| |by simpl in *; rewrite Nat.sub_0_r in *]. intros i Hi. apply (Hl (S i)). lia.
Qed.

Lemma strstr_absent a p s : a ∉ s -> strstr s (a :: p) = None.
Proof. induction s as [|c s IH]; simpl; intros H; [done|]. apply not_elem_of_cons in H as [H1 H2]. destruct (Z.eqb_spec a c); [done|]. simpl. by apply IH. Qed.

Lemma parse_run len b : (len <= length b)%nat -> exists b' r, parse_http_header len b = Some (b', r) /\ within 0 len b b' /\
  forall q, r = Some q -> method q = 0%nat /\ (0 < request_uri q < http_version q)%nat /\ ends (request_uri q) b' 0 /\ ends (http_version q) b' (request_uri q) /\ ends len b' (http_version q) /\
    fields_ok len b' (header q) /\ LF ∉ cstr b'.
Proof.
  intros Hl. unfold parse_http_header. destruct (request_line_run len len 0 None None b eq_refl Hl I) as (b1 & r1 & R1 & W1 & Q1). rewrite (bind_run _ _ _ _ _ R1).
  destruct r1 as [[[[pos len'] [u|]] [v|]]|]; try (eexists _, _; split; [done|]; split; [done|done]). destruct Q1 as (P1 & N1 & Lk & Z1 & Nl). simpl in Lk. destruct Lk as (K1 & K2 & K3 & K4).
  pose proof (wi_length _ _ _ _ W1) as L1. destruct (headers_run len (S len') len' pos [] b1) as (b2 & r2 & R2 & W2 & Q2); [lia|lia|lia|split; [simpl; lia|constructor]|]. rewrite (bind_run _ _ _ _ _ R2).
  exists b2, (mkReq 0 u v <$> r2). split; [done|]. split; [eapply within_trans; [done|done|lia|lia]|]. intros q Eq. destruct r2 as [hs|]; [|done]. injection Eq as <-. simpl.
  split; [done|]. split; [lia|]. split; [exists (u - 1)%nat; split; [lia|]; by rewrite (wi_same _ _ _ _ W2) by lia|].
  split; [exists (v - 1)%nat; split; [lia|]; by rewrite (wi_same _ _ _ _ W2) by lia|]. split; [|split; [by apply Q2|]].
  - exists (pos - 1)%nat. split; [lia|]. by rewrite (wi_same _ _ _ _ W2) by lia.
  - apply (cstr_lines pos); [lia| |by rewrite (wi_same _ _ _ _ W2) by lia]. intros i Hi. rewrite (wi_same _ _ _ _ W2) by lia. apply Nl. lia.
Qed.

(** C24: The parser of HTTP headers ends and stays inside the request: for any bytes it reads and writes only the [len] bytes it was given. When it accepts
    a request, method, address, version and at most 32 names and values of header fields are strings that end inside these bytes. *)
Theorem http_header_safe len b : (len <= length b)%nat -> exists b' r, parse_http_header len b = Some (b', r) /\ length b' = length b /\ drop len b' = drop len b /\
  forall q, r = Some q -> ends len b' (method q) /\ ends len b' (request_uri q) /\ ends len b' (http_version q) /\
    (length (header q) <= MAX_HTTP_HEADERS)%nat /\ Forall (fun h => ends len b' h.1 /\ ends len b' h.2) (header q).
Proof.
  intros Hl. destruct (parse_run len b Hl) as (b' & r & R & [W1 W2] & Q). exists b', r. split; [done|]. split; [done|]. split.
  - apply list_eq. intros i. rewrite !lookup_drop. apply W2. lia.
  - intros q Eq. destruct (Q q Eq) as (Q1 & Q2 & (k1 & K1 & K1') & (k2 & K2 & K2') & (k3 & K3 & K3') & [Q6 Q7] & _). rewrite Q1. split; [exists k1; split; [lia|done]|]. split; [exists k2; split; [lia|done]|]. split; [exists k3; done|]. done.
Qed.

Lemma http_header_safe_witness : exists b' r, parse_http_header 9 [71; 32; 47; 32; 49; 13; 10; 13; 10; 1; 2] = Some (b', r) /\ drop 9 b' = [1; 2] /\ r = Some (mkReq 0 2 4 []).
Proof.
  destruct (http_header_safe 9 [71; 32; 47; 32; 49; 13; 10; 13; 10; 1; 2]) as (b' & r & R & _ & D & _); [simpl; lia|].
  exists b', r. split; [exact R|]. split; [exact D|]. by injection R as <- <-.
Defined.

(** C38: No key is ever accepted. The search for the authorization field looks for a line break in a buffer in which the parser has already replaced the line
    breaks by zeros, so every site that asks for a key refuses every request. *)
Theorem authorization_refused len b b' q auth : (len <= length b)%nat -> parse_http_header len b = Some (b', Some q) -> authorized b' auth = Some false.
Proof.
  intros Hl R. destruct (parse_run len b Hl) as (b2 & r & R' & _ & Q). rewrite R in R'. injection R' as <- <-. destruct (Q q eq_refl) as (_ & _ & _ & _ & _ & _ & N).
  unfold authorized, AUTH_FIELD. by rewrite strstr_absent.
Qed.

Definition auth_demo : list Z := [71; 69; 84; 32; 47; 32; 49; 13; 10] ++ tail AUTH_FIELD ++ [97; 98; 99; 13; 10; 13; 10].
Lemma authorization_refused_witness : authorized auth_demo [[97; 98; 99]] = Some true /\ exists b' q, parse_http_header (length auth_demo) auth_demo = Some (b', Some q) /\ authorized b' [[97; 98; 99]] = Some false.
Proof.
  split; [by vm_compute|]. destruct (parse_http_header (length auth_demo) auth_demo) as [[b' [q|]]|] eqn:E; [|vm_compute in E; discriminate|vm_compute in E; discriminate].
  exists b', q. split; [reflexivity|]. exact (authorization_refused _ _ _ _ [[97; 98; 99]] (le_n _) E).
Defined.
