(* ===== verification/HttpRequest.v ===== *)
(** * Well-formed HTTP requests are understood ([olsr_comport_http.c])

    A request as a client writes it, and that the parser of [Http] finds its parts. *)
From S2P Require Import Prelude Strings Http.

(** ** Requests as text *)
Definition field_text (h : list Z * list Z) : list Z := h.1 ++ [58; SP] ++ h.2 ++ [CR; LF].
Definition request_text (m u v : list Z) (hs : list (list Z * list Z)) : list Z :=
  m ++ [SP] ++ u ++ [SP] ++ v ++ [CR; LF] ++ mjoin (field_text <$> hs) ++ [CR; LF].

Definition line_char (c : Z) : Prop := c <> 0 /\ c <> CR /\ c <> LF.
Definition word_char (c : Z) : Prop := line_char c /\ c <> SP.
Definition name_char (c : Z) : Prop := word_char c /\ c <> TAB /\ c <> 58.

Record field_ok (h : list Z * list Z) : Prop := {
  fo_name : Forall name_char h.1;
  fo_value : Forall line_char h.2;
  fo_first c : head h.2 = Some c -> blank c = false
}.

(** the buffer behind the request line after parsing, and the positions of names and values *)
Definition field_parsed (h : list Z * list Z) : list Z := h.1 ++ [0; SP] ++ h.2 ++ [0; LF].
Fixpoint positions (pos : nat) (hs : list (list Z * list Z)) : list (nat * nat) :=
  match hs with
  | [] => []
  | h :: hs => (pos, pos + length h.1 + 2)%nat :: positions (pos + length (field_text h)) hs
  end.

(** ** One byte at the end of what is parsed *)
Lemma rd_app pre c post : rd (length pre) (pre ++ c :: post) = Some (pre ++ c :: post, c).
Proof. apply rd_at. by rewrite list_lookup_middle. Qed.
Lemma put_app {A} (pre : list A) c x post : <[length pre := x]> (pre ++ c :: post) = pre ++ x :: post.
Proof. rewrite <- (Nat.add_0_r (length pre)). by rewrite insert_app_r. Qed.
Lemma wr_app pre c x post : wr (length pre) x (pre ++ c :: post) = Some (pre ++ x :: post, tt).
Proof. rewrite text_wr_run by (rewrite length_app; simpl; lia). by rewrite put_app. Qed.
Lemma step_app {A} (pre : list A) x post : pre ++ x :: post = (pre ++ [x]) ++ post /\ S (length pre) = length (pre ++ [x]).
Proof. split; [by rewrite <- app_assoc|rewrite length_app; simpl; lia]. Qed.

Section line.
Lemma line_next c pre post n uri version : line_char c -> (c = SP -> is_Some version) ->
  request_line (S (S n)) (length pre) uri version (pre ++ c :: post) = request_line (S n) (length (pre ++ [c])) uri version ((pre ++ [c]) ++ post).
Proof.
  intros (H0 & H1 & H2) Hs. cbn [request_line]. rewrite (bind_run _ _ _ _ _ (rd_app pre c post)). destruct (step_app pre c post) as [-> ->].
  assert ((c =? SP) && bool_decide (version = None) = false) as ->.
  { apply andb_false_iff. destruct (Z.eqb_spec c SP) as [->|]; [right|by left]. apply bool_decide_eq_false. by destruct (Hs eq_refl) as [v ->]. }
  destruct (Z.eqb_spec c CR); [done|]. destruct (Z.eqb_spec c LF); [done|]. done.
Qed.

Lemma line_skip t : forall pre post n uri version, Forall line_char t -> (SP ∈ t -> is_Some version) ->
  request_line (length t + S (S n)) (length pre) uri version (pre ++ t ++ post) = request_line (S (S n)) (length (pre ++ t)) uri version ((pre ++ t) ++ post).
Proof.
  induction t as [|c t IH]; intros pre post n uri version F Hs; [by rewrite app_nil_r|]. apply Forall_cons in F as [Fc F].
  replace (length (c :: t) + S (S n))%nat with (S (S (length t + S n)))%nat by (simpl; lia). simpl app. rewrite line_next by (done || (intros ->; apply Hs; left)).
  replace (S (length t + S n))%nat with (length t + S (S n))%nat by lia. rewrite IH by (done || (intros; apply Hs; by right)). by rewrite <- !(app_assoc pre [c]).
Qed.

Lemma line_space pre post n uri : request_line (S (S n)) (length pre) uri None (pre ++ SP :: post) =
  (let p := length (pre ++ [0]) in request_line (S n) p (Some (default p uri)) (match uri with Some _ => Some p | None => None end) ((pre ++ [0]) ++ post)).
Proof.
  cbn [request_line]. rewrite (bind_run _ _ _ _ _ (rd_app pre SP post)). simpl. rewrite (bind_run _ _ _ _ _ (wr_app pre SP 0 post)). destruct (step_app pre 0 post) as [-> ->]. by destruct uri.
Qed.

Lemma line_end pre post n uri version : request_line (S (S (S n))) (length pre) uri version (pre ++ CR :: LF :: post) =
  Some ((pre ++ [0; 0]) ++ post, Some (length (pre ++ [0; 0]), S n, uri, version)).
Proof.
  cbn [request_line]. rewrite (bind_run _ _ _ _ _ (rd_app pre CR (LF :: post))). simpl. rewrite (bind_run _ _ _ _ _ (wr_app pre CR 0 (LF :: post))). destruct (step_app pre 0 (LF :: post)) as [-> ->].
  cbn [request_line]. rewrite (bind_run _ _ _ _ _ (rd_app (pre ++ [0]) LF post)). simpl. rewrite (bind_run _ _ _ _ _ (wr_app (pre ++ [0]) LF 0 post)). destruct (step_app (pre ++ [0]) 0 post) as [-> ->]. by rewrite <- !(app_assoc pre [0] [0]).
Qed.

Lemma request_line_text m u v post n : Forall word_char m -> Forall word_char u -> Forall line_char v ->
  request_line (length (m ++ [SP] ++ u ++ [SP] ++ v ++ [CR; LF]) + S n) 0 None None (m ++ [SP] ++ u ++ [SP] ++ v ++ [CR; LF] ++ post) =
    (let w := m ++ [0] ++ u ++ [0] in let l := w ++ v ++ [0; 0] in Some (l ++ post, Some (length l, S n, Some (length (m ++ [0])), Some (length w)))).
Proof.
  intros Hm Hu Hv. assert (W : forall t, Forall word_char t -> Forall line_char t /\ (SP ∈ t -> False)).
  { intros t F. split; [eapply Forall_impl; [exact F|]; by intros c []|]. intros Hs. rewrite Forall_forall in F. by destruct (F _ Hs). }
  destruct (W m Hm) as [Hm1 Hm2]. destruct (W u Hu) as [Hu1 Hu2].
  replace (length (m ++ [SP] ++ u ++ [SP] ++ v ++ [CR; LF]) + S n)%nat with (length m + S (S (length u + S (length v + S (S n)))))%nat by (rewrite !length_app; simpl; lia).
  pose proof (line_skip m [] ([SP] ++ u ++ [SP] ++ v ++ [CR; LF] ++ post) (length u + S (length v + S (S n))) None None Hm1 ltac:(intros; by destruct Hm2)) as E1. cbn [app length] in E1 |- *. rewrite E1. clear E1. rewrite line_space. cbn zeta. cbn [default].
  set (p1 := m ++ [0]). replace (S (length u + S (length v + S (S n))))%nat with (length u + S (S (length v + S (S n))))%nat by lia.
  rewrite (line_skip u p1 _ _ _ None Hu1) by (intros; by destruct Hu2). cbn [app]. rewrite line_space. cbn zeta. cbn [default].
  set (p2 := (p1 ++ u) ++ [0]). replace (S (length v + S (S n)))%nat with (length v + S (S (S n)))%nat by lia.
  rewrite (line_skip v p2 _ _ _ (Some (length p2)) Hv) by (by eexists). cbn [app]. rewrite line_end.
  assert (E2 : p2 = m ++ [0] ++ u ++ [0]) by (unfold p2, p1; by rewrite <- !app_assoc). rewrite E2. unfold p1. rewrite <- !app_assoc. cbn [app]. rewrite <- !app_assoc. done.
Qed.
End line.

Section fields.
Lemma name_run t : forall pre post n, Forall name_char t ->
  header_name (length t + S n) (length pre) (pre ++ t ++ 58 :: post) = Some ((pre ++ t ++ [0]) ++ post, Some (length (pre ++ t ++ [0]), n)).
Proof.
  induction t as [|c t IH]; intros pre post n F; simpl app; cbn [length Nat.add header_name].
  - rewrite (bind_run _ _ _ _ _ (rd_app pre 58 post)). simpl. rewrite (bind_run _ _ _ _ _ (wr_app pre 58 0 post)). destruct (step_app pre 0 post) as [-> ->]. done.
  - apply Forall_cons in F as [(((F0 & F1 & F2) & F3) & F4 & F5) F]. rewrite (bind_run _ _ _ _ _ (rd_app pre c _)).
    destruct (Z.eqb_spec c 58); [done|]. destruct (Z.eqb_spec c SP); [done|]. destruct (Z.eqb_spec c TAB); [done|]. destruct (Z.eqb_spec c LF); [done|]. destruct (Z.eqb_spec c CR); [done|]. cbn [orb].
    destruct (step_app pre c (t ++ 58 :: post)) as [-> ->]. rewrite IH by done. by rewrite <- !(app_assoc pre [c]).
Qed.

Lemma value_skip t : forall pre post fuel n v, Forall line_char t ->
  header_value (length t + fuel) (length t + n) (length pre) (Some v) (pre ++ t ++ post) = header_value fuel n (length (pre ++ t)) (Some v) ((pre ++ t) ++ post).
Proof.
  induction t as [|c t IH]; intros pre post fuel n v F; [by rewrite app_nil_r|]. apply Forall_cons in F as [(F0 & F1 & F2) F]. simpl app. cbn [length Nat.add header_value].
  destruct (Nat.ltb_spec (S (length t + n)) 1); [lia|]. rewrite (bind_run _ _ _ _ _ (rd_app pre c _)). destruct (Z.eqb_spec c LF); [done|]. destruct (Z.eqb_spec c CR); [done|].
  rewrite Nat.add_1_r. destruct (step_app pre c (t ++ post)) as [-> ->]. replace (S (length t + n) - 1)%nat with (length t + n)%nat by lia. rewrite IH by done. by rewrite <- !(app_assoc pre [c]).
Qed.

(** the end of a value before a line that does not continue it *)
Lemma value_end pre d post fuel n value : blank d = false ->
  header_value (S fuel) (S (S (S n))) (length pre) value (pre ++ CR :: LF :: d :: post) = Some ((pre ++ [0; LF]) ++ d :: post, Some (length (pre ++ [0; LF]), S n, default (length pre) value)).
Proof.
  intros Hd. cbn [header_value]. destruct (Nat.ltb_spec (S (S (S n))) 1); [lia|]. rewrite (bind_run _ _ _ _ _ (rd_app pre CR _)). change (CR =? LF) with false. change (CR =? CR) with true. cbv iota.
  destruct (Nat.ltb_spec (S (S (S n))) 2); [lia|]. destruct (step_app pre CR (LF :: d :: post)) as [E1 L1]. rewrite (bind_run _ _ _ (pre ++ CR :: LF :: d :: post) LF).
  2: { rewrite Nat.add_1_r, L1, E1. apply rd_app. }
  change (LF =? LF) with true. cbv iota. destruct (Nat.ltb_spec (S (S (S n))) 3); [lia|]. destruct (step_app (pre ++ [CR]) LF (d :: post)) as [E2 L2]. rewrite (bind_run _ _ _ (pre ++ CR :: LF :: d :: post) d).
  2: { replace (length pre + 2)%nat with (length ((pre ++ [CR]) ++ [LF])) by (rewrite !length_app; simpl; lia). rewrite E1, E2. apply rd_app. }
  rewrite Hd. rewrite (bind_run _ _ _ _ _ (wr_app pre CR 0 _)). assert ((length pre + 2)%nat = length (pre ++ [0; LF])) as -> by (rewrite length_app; simpl; lia). rewrite <- app_assoc. simpl.
  by destruct value.
Qed.

Lemma value_run t pre d post fuel n : Forall line_char t -> (forall c, head t = Some c -> blank c = false) -> blank d = false -> (length t < fuel)%nat ->
  header_value fuel (length t + S (S (S n))) (length pre) None (pre ++ t ++ CR :: LF :: d :: post) =
    Some ((pre ++ t ++ [0; LF]) ++ d :: post, Some (length (pre ++ t ++ [0; LF]), S n, length pre)).
Proof.
  intros F Hb Hd Hf. destruct t as [|c t]; [destruct fuel; [lia|]; by apply value_end|]. apply Forall_cons in F as [(F0 & F1 & F2) F]. specialize (Hb c eq_refl). simpl in Hf. destruct fuel as [|fuel]; [lia|].
  simpl app. cbn [length Nat.add header_value]. destruct (Nat.ltb_spec (S (length t + S (S (S n)))) 1); [lia|]. rewrite (bind_run _ _ _ _ _ (rd_app pre c _)). rewrite Hb. destruct (Z.eqb_spec c LF); [done|]. destruct (Z.eqb_spec c CR); [done|].
  rewrite Nat.add_1_r. destruct (step_app pre c (t ++ CR :: LF :: d :: post)) as [-> ->]. replace (S (length t + S (S (S n))) - 1)%nat with (length t + S (S (S n)))%nat by lia.
  replace fuel with (length t + S (fuel - length t - 1))%nat by lia. rewrite value_skip by done. rewrite value_end by done.
  assert (((pre ++ [c]) ++ t) ++ [0; LF] = pre ++ c :: t ++ [0; LF]) as -> by (by rewrite <- !app_assoc). done.
Qed.

Lemma headers_text hs : forall pre acc fuel n post, Forall field_ok hs -> (length acc + length hs <= MAX_HTTP_HEADERS)%nat -> (length hs < fuel)%nat ->
  headers fuel (length (mjoin (field_text <$> hs)) + S (S n)) (length pre) acc (pre ++ mjoin (field_text <$> hs) ++ CR :: LF :: post) =
    Some (pre ++ mjoin (field_parsed <$> hs) ++ CR :: LF :: post, Some (acc ++ positions (length pre) hs)).
Proof.
  induction hs as [|[a v] hs IH]; intros pre acc fuel n post F Hl Hf; (destruct fuel as [|fuel]; [simpl in Hf; lia|]).
  - cbn [headers fmap list_fmap mjoin list_join length app Nat.add positions]. destruct (Nat.ltb_spec (S (S n)) 1); [lia|]. rewrite (bind_run _ _ _ _ _ (rd_app pre CR _)). change (CR =? LF) with false. change (CR =? CR) with true. cbv iota.
    destruct (Nat.ltb_spec (S (S n)) 2); [lia|]. destruct (step_app pre CR (LF :: post)) as [E1 L1]. rewrite (bind_run _ _ _ (pre ++ CR :: LF :: post) (Some true)); [by rewrite app_nil_r|].
    rewrite (bind_run _ _ _ (pre ++ CR :: LF :: post) LF); [done|]. rewrite Nat.add_1_r, L1, E1. apply rd_app.
  - apply Forall_cons in F as [Fh F]. destruct Fh as [F1 F2 F3]. simpl in F1, F2, F3, Hl, Hf. cbn [fmap list_fmap mjoin list_join]. set (rest := mjoin (field_text <$> hs)) in *.
    assert (exists d post', rest ++ CR :: LF :: post = d :: post' /\ blank d = false) as (d & post' & Ed & Hd).
    { unfold rest. destruct hs as [|[a' v'] hs]; [by exists CR, (LF :: post)|]. apply Forall_cons in F as [F _]. destruct F as [F' _ _]. simpl in F'. unfold field_text at 1. simpl.
      destruct a' as [|c a']; [by eexists 58, _|]. apply Forall_cons in F' as [((_ & G1) & G2 & G3) _]. eexists c, _. split; [done|]. unfold blank. destruct (Z.eqb_spec c SP); [done|]. by destruct (Z.eqb_spec c TAB). }
    assert (exists c1 t1, a ++ [58; SP] ++ v ++ [CR; LF] ++ rest ++ CR :: LF :: post = c1 :: t1 /\ c1 <> LF /\ c1 <> CR) as (c1 & t1 & E1 & N1 & N2).
    { destruct a as [|c a]; [by eexists 58, _|]. apply Forall_cons in F1 as [(((_ & G1 & G2) & _) & _) _]. by eexists c, _. }
    unfold field_text at 1 2. cbn [fst snd]. rewrite <- !app_assoc. set (L0 := length (a ++ [58; SP] ++ v ++ [CR; LF] ++ rest)). set (len := (L0 + S (S n))%nat).
    assert (Hlen : len = (length a + S (1 + (length v + S (S (S (length rest + n + 1)))))%nat)%nat) by (unfold len, L0; rewrite !length_app; simpl; lia).
    cbn [headers]. destruct (Nat.ltb_spec len 1); [lia|]. rewrite (bind_run _ _ _ (pre ++ c1 :: t1) c1) by (rewrite E1; apply rd_app). destruct (Z.eqb_spec c1 LF); [done|]. destruct (Z.eqb_spec c1 CR); [done|].
    rewrite (bind_run _ _ _ (pre ++ c1 :: t1) (Some false)) by done. destruct (Nat.leb_spec MAX_HTTP_HEADERS (length acc)); [lia|]. rewrite <- E1. cbn [app].
    pose proof (name_run a pre (SP :: v ++ CR :: LF :: rest ++ CR :: LF :: post) (1 + (length v + S (S (S (length rest + n + 1))))) F1) as Rn. rewrite <- Hlen in Rn. rewrite (bind_run _ _ _ _ _ Rn).
    set (p1 := pre ++ a ++ [0]).
    assert (Rv : header_value len (1 + (length v + S (S (S (length rest + n + 1))))) (length p1) None (p1 ++ SP :: v ++ CR :: LF :: rest ++ CR :: LF :: post) =
      Some (((p1 ++ [SP]) ++ v ++ [0; LF]) ++ d :: post', Some (length ((p1 ++ [SP]) ++ v ++ [0; LF]), S (length rest + n + 1), length (p1 ++ [SP])))).
    { destruct len as [|len']; [lia|]. cbn [header_value Nat.add]. destruct (Nat.ltb_spec (S (length v + S (S (S (length rest + n + 1))))) 1); [lia|]. rewrite (bind_run _ _ _ _ _ (rd_app p1 SP _)). change (blank SP) with true. change (SP =? LF) with false. change (SP =? CR) with false. cbv iota zeta.
      rewrite (Nat.add_1_r (length p1)). rewrite Ed. destruct (step_app p1 SP (v ++ CR :: LF :: d :: post')) as [-> ->]. replace (S (length v + S (S (S (length rest + n + 1)))) - 1)%nat with (length v + S (S (S (length rest + n + 1))))%nat by lia.
      rewrite value_run; [done|done|done|done|lia]. }
    rewrite (bind_run _ _ _ _ _ Rv). replace (S (length rest + n + 1))%nat with (length rest + S (S n))%nat by lia. rewrite <- Ed. unfold rest. rewrite IH; [|done|rewrite length_app; simpl; lia|lia].
    do 2 f_equal.
    + unfold p1, field_parsed. cbn [fst snd]. by rewrite <- !app_assoc.
    + f_equal. rewrite <- app_assoc. do 2 f_equal. simpl. f_equal; [f_equal; unfold p1; rewrite !length_app; simpl; lia|]. f_equal. unfold p1, field_text. cbn [fst snd]. rewrite !length_app. simpl. lia.
Qed.
End fields.

Definition str_at (b : list Z) (p : nat) : list Z := cstr (drop p b).

Lemma str_at_app pre s r : Forall (fun c => c <> 0) s -> str_at (pre ++ s ++ 0 :: r) (length pre) = s.
Proof. intros F. unfold str_at. rewrite drop_app_length, cstr_app by done. simpl. by rewrite app_nil_r. Qed.

Lemma positions_text hs : forall pre post, Forall field_ok hs ->
  (fun h => (str_at (pre ++ mjoin (field_parsed <$> hs) ++ post) h.1, str_at (pre ++ mjoin (field_parsed <$> hs) ++ post) h.2)) <$> positions (length pre) hs = hs.
Proof.
  induction hs as [|[a v] hs IH]; intros pre post F; [done|]. apply Forall_cons in F as [[F1 F2 _] F]. cbn [positions fmap list_fmap mjoin list_join fst snd] in *. set (rest := mjoin (field_parsed <$> hs)) in *.
  assert (Na : Forall (fun c => c <> 0) a) by (eapply Forall_impl; [exact F1|]; by intros c (((? & _) & _) & _)). assert (Nv : Forall (fun c => c <> 0) v) by (eapply Forall_impl; [exact F2|]; by intros c (? & _)).
  assert (E : pre ++ (field_parsed (a, v) ++ rest) ++ post = (pre ++ field_parsed (a, v)) ++ rest ++ post) by (by rewrite <- !app_assoc).
  f_equal; [f_equal|].
  - unfold field_parsed. cbn [fst snd]. rewrite <- !app_assoc. by apply (str_at_app pre a).
  - replace (length pre + length a + 2)%nat with (length (pre ++ a ++ [0; SP])) by (rewrite !length_app; simpl; lia).
    assert (pre ++ (field_parsed (a, v) ++ rest) ++ post = (pre ++ a ++ [0; SP]) ++ v ++ 0 :: LF :: rest ++ post) as -> by (unfold field_parsed; cbn [fst snd]; rewrite <- !app_assoc; done). by apply str_at_app.
  - rewrite E. replace (length pre + length (field_text (a, v)))%nat with (length (pre ++ field_parsed (a, v))) by (unfold field_parsed, field_text; cbn [fst snd]; rewrite !length_app; simpl; lia). by apply IH.
Qed.

Lemma fields_length hs : (length hs <= length (mjoin (field_text <$> hs)))%nat.
Proof. induction hs as [|h hs IH]; [done|]. cbn [fmap list_fmap mjoin list_join length]. rewrite length_app. unfold field_text at 1. rewrite !length_app. simpl. unfold mjoin, fmap in *. lia. Qed.

Lemma parsed_length hs : length (mjoin (field_parsed <$> hs)) = length (mjoin (field_text <$> hs)).
Proof. induction hs as [|h hs IH]; [done|]. cbn [fmap list_fmap mjoin list_join]. rewrite !length_app. f_equal; [|exact IH]. unfold field_parsed, field_text. rewrite !length_app. done. Qed.

(** C25: A well-formed request is understood. For a method and an address without white space, a version, and at most 32 header fields with names
    without white space or colon, the parser finds exactly these strings, whatever follows the request in the buffer, and leaves what follows alone. *)
Theorem http_request_roundtrip m u v hs body slack : Forall word_char m -> Forall word_char u -> Forall line_char v -> Forall field_ok hs -> (length hs <= MAX_HTTP_HEADERS)%nat ->
  exists b q, parse_http_header (length (request_text m u v hs) + length body) (request_text m u v hs ++ body ++ slack) = Some (b, Some q) /\
    str_at b (method q) = m /\ str_at b (request_uri q) = u /\ str_at b (http_version q) = v /\
    (fun h => (str_at b h.1, str_at b h.2)) <$> header q = hs /\ drop (length (request_text m u v hs)) b = body ++ slack.
Proof.
  intros Hm Hu Hv Hh Hl. set (rest := mjoin (field_text <$> hs)). set (line := m ++ [SP] ++ u ++ [SP] ++ v ++ [CR; LF]). set (w := m ++ [0] ++ u ++ [0]). set (l := w ++ v ++ [0; 0]).
  assert (Et : request_text m u v hs = line ++ rest ++ [CR; LF]) by (unfold request_text, line; by rewrite <- !app_assoc).
  assert (Ll : length line = length l) by (unfold line, l, w; rewrite !length_app; simpl; lia).
  assert (Hlen : (length (request_text m u v hs) + length body = length line + S (length rest + S (length body)))%nat) by (rewrite Et, !length_app; simpl; lia).
  assert (Ebuf : request_text m u v hs ++ body ++ slack = m ++ [SP] ++ u ++ [SP] ++ v ++ [CR; LF] ++ (rest ++ CR :: LF :: body ++ slack)) by (rewrite Et; unfold line; by rewrite <- !app_assoc).
  rewrite Hlen, Ebuf. unfold parse_http_header. pose proof (request_line_text m u v (rest ++ CR :: LF :: body ++ slack) (length rest + S (length body)) Hm Hu Hv) as R1. cbv zeta in R1. fold w in R1. fold l in R1. fold line in R1.
  rewrite (bind_run _ _ _ _ _ R1). replace (S (length rest + S (length body)))%nat with (length rest + S (S (length body)))%nat by lia.
  rewrite (bind_run _ _ _ _ _ (headers_text hs l [] (S (length rest + S (S (length body)))) (length body) (body ++ slack) Hh Hl ltac:(apply le_n_S; etrans; [apply (fields_length hs)|fold rest; lia]))).
  set (b := l ++ mjoin (field_parsed <$> hs) ++ CR :: LF :: body ++ slack). exists b. eexists. split; [done|]. simpl.
  assert (N : forall P t, Forall P t -> (forall c, P c -> c <> 0) -> Forall (fun c => c <> 0) t) by (intros P t F H; eapply Forall_impl; [exact F|exact H]).
  assert (Nm : Forall (fun c => c <> 0) m) by (eapply N; [exact Hm|]; by intros c ((? & _) & _)). assert (Nu : Forall (fun c => c <> 0) u) by (eapply N; [exact Hu|]; by intros c ((? & _) & _)). assert (Nv : Forall (fun c => c <> 0) v) by (eapply N; [exact Hv|]; by intros c (? & _)).
  assert (Lr : length (mjoin (field_parsed <$> hs)) = length rest) by apply parsed_length.
  split; [|split; [|split; [|split]]].
  - unfold b, l, w. rewrite <- !app_assoc. by apply (str_at_app [] m).
  - assert (b = (m ++ [0]) ++ u ++ 0 :: v ++ [0; 0] ++ mjoin (field_parsed <$> hs) ++ CR :: LF :: body ++ slack) as -> by (unfold b, l, w; by rewrite <- !app_assoc). by apply str_at_app.
  - assert (b = w ++ v ++ 0 :: 0 :: mjoin (field_parsed <$> hs) ++ CR :: LF :: body ++ slack) as -> by (unfold b, l; by rewrite <- !app_assoc). by apply str_at_app.
  - by apply positions_text.
  - rewrite Et. unfold b. assert (l ++ mjoin (field_parsed <$> hs) ++ CR :: LF :: body ++ slack = (l ++ mjoin (field_parsed <$> hs) ++ [CR; LF]) ++ body ++ slack) as -> by (by rewrite <- !app_assoc).
    apply drop_app_length'. rewrite !length_app, Lr, Ll. done.
Qed.

Lemma http_request_roundtrip_witness : exists b q, parse_http_header 22 ([71; 32; 47; 32; 49; 13; 10; 97; 58; 32; 98; 32; 99; 13; 10; 100; 58; 32; 13; 10; 13; 10] ++ [7; 7]) = Some (b, Some q) /\
  str_at b (method q) = [71] /\ str_at b (request_uri q) = [47] /\ str_at b (http_version q) = [49] /\ (fun h => (str_at b h.1, str_at b h.2)) <$> header q = [([97], [98; 32; 99]); ([100], [])].
Proof.
  destruct (http_request_roundtrip [71] [47] [49] [([97], [98; 32; 99]); ([100], [])] [] [7; 7]) as (b & q & R & H1 & H2 & H3 & H4 & _).
  - by repeat constructor.
  - by repeat constructor.
  - by repeat constructor.
  - repeat (apply Forall_cons; split); [| |constructor]; (split; simpl; [by repeat constructor|by repeat constructor|]); [by intros c [= <-]|done].
  - vm_compute. lia.
  - exists b, q. split; [exact R|]. split; [exact H1|]. split; [exact H2|]. split; [exact H3|exact H4].
Defined.
