(* ===== verification/HttpUrl.v ===== *)
(** * Addresses and parameters of HTTP requests ([olsr_comport_http.c])

    Percent signs in an address are decoded in place, and the parameters behind it are cut into names and values. *)
From S2P Require Import Prelude Strings Http.

(** ** [olsr_com_decode_url] *)
Definition hexval (c : Z) : option Z :=
  if (48 <=? c) && (c <=? 57) then Some (c - 48)
  else if (65 <=? c) && (c <=? 70) then Some (c - 55)
  else if (97 <=? c) && (c <=? 102) then Some (c - 87)
  else None.

(** [sscanf(s, "%02x", &value)] for [value] 0: white space is skipped, a sign counts as one of the two characters *)
Definition scan_hex2 (s : list Z) : Z :=
  match ltrim s with
  | 45 :: c :: _ => - default 0 (hexval c)
  | 43 :: c :: _ => default 0 (hexval c)
  | c :: d :: _ => match hexval c, hexval d with Some x, Some y => 16 * x + y | Some x, None => x | None, _ => 0 end
  | c :: _ => default 0 (hexval c)
  | [] => 0
  end.

Fixpoint decode_loop (fuel src dst : nat) : SE (list Z) unit :=
  match fuel with
  | O => se_fail
  | S fuel =>
    c ← rd src;
    if c =? 0 then wr dst 0
    else
      esc ← (if c =? 37 then c1 ← rd (src + 1); if c1 =? 0 then mret false else c2 ← rd (src + 2); mret (negb (c2 =? 0)) else mret false);
      if (esc : bool) then
        value ← se_get (fun b => scan_hex2 (cstr (drop (src + 1) b)));
        wr dst (u8 value);;
        decode_loop fuel (src + 3) (dst + 1)
      else wr dst c;; decode_loop fuel (src + 1) (dst + 1)
  end.
Definition olsr_com_decode_url (fuel : nat) : SE (list Z) unit := decode_loop fuel 0 0.

(** ** The reference *)
Fixpoint decode (s : list Z) : list Z :=
  match s with
  | [] => []
  | c :: r => match r with
    | _ :: _ :: r' => if c =? 37 then u8 (scan_hex2 r) :: decode r' else c :: decode r
    | _ => c :: decode r
    end
  end.

Definition hexdigit (x : Z) : Z := if x <? 10 then 48 + x else 87 + x.
Definition encode (s : list Z) : list Z := mjoin ((fun c => [37; hexdigit (c / 16); hexdigit (c mod 16)]) <$> s).

Lemma hexval_digit x : 0 <= x < 16 -> hexval (hexdigit x) = Some x /\ isspace (hexdigit x) = false /\ hexdigit x <> 45 /\ hexdigit x <> 43 /\ hexdigit x <> 0.
Proof.
  intros H. assert (x = 0 \/ x = 1 \/ x = 2 \/ x = 3 \/ x = 4 \/ x = 5 \/ x = 6 \/ x = 7 \/ x = 8 \/ x = 9 \/ x = 10 \/ x = 11 \/ x = 12 \/ x = 13 \/ x = 14 \/ x = 15) as Hx by lia.
  destruct_or! Hx; subst x; by vm_compute.
Qed.

Lemma scan_digits x y r : 0 <= x < 16 -> 0 <= y < 16 -> scan_hex2 (hexdigit x :: hexdigit y :: r) = 16 * x + y.
Proof.
  intros Hx Hy. destruct (hexval_digit y Hy) as (Ey & _). unfold scan_hex2. cbn [ltrim]. destruct (hexval_digit x Hx) as (Ex & -> & _).
  assert (x = 0 \/ x = 1 \/ x = 2 \/ x = 3 \/ x = 4 \/ x = 5 \/ x = 6 \/ x = 7 \/ x = 8 \/ x = 9 \/ x = 10 \/ x = 11 \/ x = 12 \/ x = 13 \/ x = 14 \/ x = 15) as D by lia.
  destruct_or! D; subst x; cbn; by rewrite Ey.
Qed.

Lemma decode_encoded_url s : Forall (is_u 8) s -> decode (encode s) = s.
Proof.
  induction 1 as [|c s Hc F IH]; [done|]. unfold is_u in Hc. change (encode (c :: s)) with (37 :: hexdigit (c / 16) :: hexdigit (c mod 16) :: encode s). cbn [decode Z.eqb Pos.eqb].
  rewrite scan_digits by mlia. rewrite IH. f_equal. rewrite wrapu_id by (unfold is_u; mlia). mlia.
Qed.

(** ** In place *)
Lemma rd_mid (pre s : list Z) i c post : s !! i = Some c -> rd (length pre + i) (pre ++ s ++ post) = Some (pre ++ s ++ post, c).
Proof. intros H. apply rd_at. rewrite lookup_app_r, lookup_app_l by (lia || (apply lookup_lt_Some in H; lia)). by replace (length pre + i - length pre)%nat with i by lia. Qed.

Lemma wr_first (d g : list Z) x post : g <> [] -> wr (length d) x (d ++ g ++ post) = Some ((d ++ [x]) ++ tail g ++ post, tt).
Proof.
  intros H. destruct g as [|h g]; [done|]. rewrite text_wr_run by (rewrite !length_app; simpl; lia). do 2 f_equal. rewrite <- (Nat.add_0_r (length d)), insert_app_r. simpl. by rewrite <- app_assoc.
Qed.

Lemma cstr_tail s r : Forall (fun c => c <> 0) s -> cstr (s ++ 0 :: r) = s.
Proof. intros F. rewrite cstr_app by done. simpl. by rewrite app_nil_r. Qed.

Lemma tail_length {A} (g : list A) : g <> [] -> length (tail g) = (length g - 1)%nat.
Proof. destruct g; simpl; [done|lia]. Qed.

(** one character of the result replaces the first of the bytes that were read *)
Lemma write_step (d g t s : list Z) x r : t <> [] -> wr (length d) x (d ++ g ++ (t ++ s) ++ r) = Some ((d ++ [x]) ++ tail (g ++ t) ++ s ++ r, tt) /\
  (length (d ++ g) + length t = length ((d ++ [x]) ++ tail (g ++ t)))%nat.
Proof.
  intros Ht. assert (Hg : g ++ t <> []) by (destruct g, t; done). assert (d ++ g ++ (t ++ s) ++ r = d ++ (g ++ t) ++ s ++ r) as -> by (by rewrite <- !app_assoc). split; [by apply wr_first|].
  rewrite !length_app, tail_length, length_app by done. destruct t; [done|]. simpl. lia.
Qed.

Lemma decode_loop_run n : forall fuel d g s r, (length s <= n)%nat -> (length s < fuel)%nat -> Forall (fun c => c <> 0) s ->
  exists g', decode_loop fuel (length (d ++ g)) (length d) (d ++ g ++ s ++ 0 :: r) = Some (d ++ decode s ++ 0 :: g' ++ r, tt) /\ (length (decode s) + length g' = length g + length s)%nat.
Proof.
  induction n as [|n IH]; intros fuel d g s r Hn Hf F; (destruct fuel as [|fuel]; [lia|]); cbn [decode_loop].
  all: assert (Rd : forall i c, (s ++ [0]) !! i = Some c -> rd (length (d ++ g) + i) (d ++ g ++ s ++ 0 :: r) = Some (d ++ g ++ s ++ 0 :: r, c)).
  1, 3: intros i c Hc; pose proof (rd_mid (d ++ g) (s ++ [0]) i c r Hc) as R; rewrite <- !app_assoc in R; exact R.
  all: destruct s as [|c s]; [|simpl in Hn].
  1, 3: rewrite (bind_run _ _ _ _ _ (Rd 0%nat 0 eq_refl)) || (pose proof (Rd 0%nat 0 eq_refl) as R0; rewrite Nat.add_0_r in R0; rewrite (bind_run _ _ _ _ _ R0)).
  1, 2: destruct (write_step d g [0] [] 0 r ltac:(done)) as [W _]; simpl app in W |- *; change (0 =? 0) with true; cbv iota; rewrite W; exists (tail (g ++ [0])); split; [by rewrite <- !app_assoc|rewrite tail_length, length_app by (by destruct g); simpl; lia].
  1: lia.
  apply Forall_cons in F as [Fc F]. pose proof (Rd 0%nat c eq_refl) as R0. rewrite Nat.add_0_r in R0. rewrite (bind_run _ _ _ _ _ R0). destruct (Z.eqb_spec c 0); [done|].
  assert (Plain : exists g', (wr (length d) c;; decode_loop fuel (length (d ++ g) + 1) (length d + 1)) (d ++ g ++ (c :: s) ++ 0 :: r) = Some (d ++ (c :: decode s) ++ 0 :: g' ++ r, tt) /\ (length (c :: decode s) + length g' = length g + length (c :: s))%nat).
  { destruct (write_step d g [c] s c (0 :: r) ltac:(done)) as [W L]. simpl app in W |- *. rewrite (bind_run _ _ _ _ _ W). simpl length in L. rewrite L.
    replace (length d + 1)%nat with (length (d ++ [c])) by (rewrite length_app; simpl; lia). destruct (IH fuel (d ++ [c]) (tail (g ++ [c])) s r) as (g' & R & Lg); [lia|simpl in Hf; lia|done|].
    exists g'. rewrite R. split; [by rewrite <- !app_assoc|]. rewrite tail_length, length_app in Lg by (by destruct g). simpl in *. lia. }
  destruct (Z.eqb_spec c 37) as [->|Hc].
  - destruct s as [|c1 [|c2 s]].
    + rewrite (bind_run _ _ _ (d ++ g ++ [37] ++ 0 :: r) false); [exact Plain|]. by rewrite (bind_run _ _ _ _ _ (Rd 1%nat 0 eq_refl)).
    + apply Forall_cons in F as [Fc1 _]. rewrite (bind_run _ _ _ (d ++ g ++ [37; c1] ++ 0 :: r) false); [exact Plain|]. rewrite (bind_run _ _ _ _ _ (Rd 1%nat c1 eq_refl)). destruct (Z.eqb_spec c1 0); [done|]. by rewrite (bind_run _ _ _ _ _ (Rd 2%nat 0 eq_refl)).
    + pose proof F as F'. apply Forall_cons in F' as [Fc1 F']. apply Forall_cons in F' as [Fc2 F']. rewrite (bind_run _ _ _ (d ++ g ++ (37 :: c1 :: c2 :: s) ++ 0 :: r) true).
      2: { rewrite (bind_run _ _ _ _ _ (Rd 1%nat c1 eq_refl)). destruct (Z.eqb_spec c1 0); [done|]. rewrite (bind_run _ _ _ _ _ (Rd 2%nat c2 eq_refl)). by destruct (Z.eqb_spec c2 0). }
      cbv iota. rewrite (bind_run _ _ _ (d ++ g ++ (37 :: c1 :: c2 :: s) ++ 0 :: r) (scan_hex2 (c1 :: c2 :: s))).
      2: { unfold se_get. do 3 f_equal. rewrite (app_assoc d g). change ((d ++ g) ++ (37 :: c1 :: c2 :: s) ++ 0 :: r) with ((d ++ g) ++ [37] ++ (c1 :: c2 :: s) ++ 0 :: r). rewrite app_assoc, drop_app_length' by (rewrite !length_app; simpl; lia). by apply cstr_tail. }
      set (x := u8 (scan_hex2 (c1 :: c2 :: s))). destruct (write_step d g [37; c1; c2] s x (0 :: r) ltac:(done)) as [W L]. simpl app in W |- *. rewrite (bind_run _ _ _ _ _ W). simpl length in L. rewrite L.
      replace (length d + 1)%nat with (length (d ++ [x])) by (rewrite length_app; simpl; lia). destruct (IH fuel (d ++ [x]) (tail (g ++ [37; c1; c2])) s r) as (g' & R & Lg); [simpl in Hn; lia|simpl in Hf; lia|done|].
      exists g'. rewrite R. cbn [decode Z.eqb Pos.eqb]. fold x. split; [by rewrite <- !app_assoc|]. rewrite tail_length, length_app in Lg by (by destruct g). simpl in *. lia.
  - rewrite (bind_run _ _ _ (d ++ g ++ (c :: s) ++ 0 :: r) false) by done. cbv iota. destruct Plain as (g' & R & Lg). exists g'.
    assert (Ed : decode (c :: s) = c :: decode s) by (simpl; destruct s as [|? [|? ?]]; try done; by destruct (Z.eqb_spec c 37)). by rewrite Ed.
Qed.

(** Decoding an address in place gives what the reference gives for the address: the decoder ends, never leaves the bytes of the string and
    leaves the bytes behind it alone; and it recovers every text from its encoding with percent signs. *)
Theorem url_roundtrip s r : Forall (fun c => c <> 0) s ->
  (exists g, olsr_com_decode_url (S (length s)) (s ++ 0 :: r) = Some (decode s ++ 0 :: g ++ r, tt) /\ (length (decode s) + length g = length s)%nat) /\
  forall t, Forall (is_u 8) t -> decode (encode t) = t.
Proof.
  intros F. split; [|apply decode_encoded_url]. destruct (decode_loop_run (length s) (S (length s)) [] [] s r) as (g & R & L); [lia|lia|done|]. by exists g.
Qed.

Lemma url_roundtrip_witness : exists g, olsr_com_decode_url 8 ([47; 37; 52; 49; 120; 37; 52] ++ 0 :: [9]) = Some ([47; 65; 120; 37; 52] ++ 0 :: g ++ [9], tt) /\ length g = 2%nat.
Proof.
  destruct (url_roundtrip [47; 37; 52; 49; 120; 37; 52] [9]) as [(g & R & L) _]; [by repeat constructor|]. exists g. split; [exact R|]. change (5 + length g = 7)%nat in L. lia.
Defined.
